(* ===== verification/_CoqProject ===== *)
-Q . S2P
Prelude.v
PyStr.v
PyLists.v
Buffer.v
Http1.v
PyStrFacts.v
Http1Parse.v
Http1Wire.v
Http1Decode.v
Http1Feed.v
Http1Spec.v
Http1Encode.v
Routing.v
RoutingSpec.v
Config.v
Lifecycle.v
LifecycleSystem.v
LifecycleSpec.v
Models.v
ModelsSpec.v
DnsWire.v
DnsWireSpec.v
DnsPolicy.v
DnsPolicySpec.v
DnsResolver.v
DnsResolverSpec.v
DnsNative.v
DnsNativeSpec.v
Channel.v
ChannelSpec.v
Control.v
ControlSpec.v
Structured.v
StructuredSpec.v
Proxy.v
ProxySpec.v
ProxyHttp1.v
ProxyHttp1Spec.v
ProxyExchange.v
ProxyExchangeSpec.v
ProxyPool.v
ProxyPoolSpec.v
WebApp.v
WebAppSpec.v
Tls.v
TlsSpec.v
TlsGeneration.v
TlsChannel.v
TlsChannelSpec.v
TlsManager.v
TlsManagerSpec.v
TlsRegistrySpec.v
TlsNative.v
TlsNativeSpec.v
ConnectionBodies.v
Connection.v
ConnectionOwners.v
ConnectionSpec.v
ConnectionSystem.v
ConnectionClosing.v
ConnectionRun.v
ConnectionRunSpec.v
ConnectionApart.v
ProxyDriver.v
ProxyHeld.v
ProxyDriverSpec.v
ProxySystem.v
Server.v
SocketNative.v
ServerSpec.v
ServerSystem.v
ServerClock.v
