(* ===== verification/Prelude.v ===== *)
(** * pcc_gateway: a verification development (root file)

    [pcc_gateway] (src/pcc_gateway/) is an HTTP/1.1 gateway in Python: it accepts connections,
    decodes requests, routes them through an application's middleware to a handler or to an
    upstream group, streams bodies both ways under byte limits, resolves upstream names with
    its own DNS client, and changes its configuration without dropping requests.  This
    library models its parts that keep state or parse input and proves what makes them
    correct.

    ** How a part is modelled

    A method is a computation of the monad [M S A] of this file: it runs over the state [S]
    it reads and writes and returns a value or raises an exception of [exn], keeping the
    mutations made before; [try_except], [lift] and [zoom] are [try]/[except], a call of a
    pure function and a call on one component of a larger state.  Shared mutable objects
    live in a store and are referred to by index (the segments and views of [Buffer], the
    leases of [Proxy], the generations of [Lifecycle], the connections of [ProxyPool]).  A
    method that takes a lock is written as its sections under the lock; an outcome says when
    it parks or calls outside code between them.  Code outside the repository (sockets and
    virtual threads of the native runtime, handlers, middleware, stages, callbacks, the
    control ABI) is a parameter: a function over an abstract world [W], or a class whose laws
    are the documented behaviour relied on.  Strings are lists of code points, bytes lists of
    values 0..255, Python integers are [Z].

    ** Files and source

    - [Prelude], [PyStr], [PyLists], [PyStrFacts]: Python values, exceptions, the monad and its
      weakest-precondition reading [wp]; string methods; shared lemmas and tactics.
    - [Buffer]: buffer.py. Reference-counted segments, views and [ChannelBuffer].
    - [Http1]: http1.py. The request decoder [Http1ServerCodec], one definition per state of its
      loop, and [Http1ResponseEncoder]. Properties in [Http1Spec], [Http1Encode]; the steps to
      them in [Http1Parse] (what the parsers accept), [Http1Wire] (lines on the wire),
      [Http1Decode] (the loop as a relation), [Http1Feed] (its runs with the store).
    - [Routing], [RoutingSpec]: routing.py. Path patterns, the frozen table, matching, binding.
    - [Config]: config.py. The validated constructors.
    - [Lifecycle], [LifecycleSystem], [LifecycleSpec]: lifecycle.py. Generations and their
      resources, admission gauges, drain; the interleavings of any number of threads.
    - [Models], [ModelsSpec]: models.py. Requests, responses, cancellation, [BodyStream].
    - [DnsWire], [DnsPolicy], [DnsResolver] and their [Spec] files: dns.py. Messages and numeric
      addresses; address policy and cache; operations and their driver.
    - [DnsNative], [DnsNativeSpec]: dns_native.py. The transport over platform descriptors, and
      the resolver that forks; a resolution over it leaves nothing open.
    - [Channel], [ChannelSpec]: channel.py. The stage pipeline.
    - [Control], [ControlSpec]: control.py. Who owns the process signals.
    - [Structured], [StructuredSpec]: structured.py. Task scopes.
    - [Proxy], [ProxySpec]: proxy.py. Forwarded headers, endpoints, groups, leases, retry.
    - [ProxyHttp1], [ProxyExchange], [ProxyPool] and their [Spec] files: proxy_http1.py. The
      response decoder, the request head, one exchange, and the connection pool.
    - [WebApp], [WebAppSpec]: web/app.py. Dispatch, middleware, startup and shutdown, helpers.
    - tls.py: [Tls], [TlsSpec], names, certificates, selection; [TlsGeneration], the provider
      interface and the contexts of one configuration; [TlsChannel], [TlsChannelSpec], the
      session state machine; [TlsManager] with [TlsManagerSpec] and [TlsRegistrySpec], reloads
      and provider leases; [TlsNative], [TlsNativeSpec], the adapter of the native library.
    - server.py, the part of one connection: [Connection], every method of [GatewayConnection],
      the client side of a proxied request and its retirement.  [ConnectionBodies] and
      [ConnectionOwners]: who holds a body view, an admission, a byte; [ConnectionSpec]: the
      invariant and its preservation by every method; [ConnectionSystem]: the sequences of
      calls; [ConnectionClosing]: a closing connection stays so.  [ConnectionRun]: the loop of
      its thread, with the TLS handshake and close, over any proxy attempt; [ConnectionRunSpec]
      for every attempt of a stated class; [ConnectionApart]: the loop leaves alone the part of
      the world that outside calls do.  [ProxyDriver]: that attempt, from resolving and
      connecting to cleanup; [ProxyDriverSpec] shows that it is of the class, [ProxyHeld] that
      it gives back the pooled connection it takes.  [ProxySystem]: the two together, and
      example runs.
    - server.py, the listener: [Server], every method of [GatewayServer], with the history of
      what the scheduler and the carriers answered and of what was ended; [ServerSpec]: the
      invariant of its ledgers and of that history; [ServerSystem]: its runs, and [App.run] of
      web/app.py; [ServerClock]: the shutdown ends.  [SocketNative]: the socket transport over
      the runtime's symbols.

    The parts meet as in the code: [Http1] and [Models] keep bodies on the store of [Buffer];
    [ProxyExchange] runs two of its buffers and reserves their bytes through the class
    [BufferAccounting], which [Lifecycle] implements ([ProxyExchangeSpec]); [ProxyPool] takes
    its leases from [Proxy], whose endpoints check addresses with the policy of [DnsPolicy];
    [ProxyHttp1] writes what [Http1] reads; [WebApp] dispatches through [Routing];
    [TlsChannel] runs against the record [tls_provider], which [Native.provider] implements,
    on a generation that [TlsManager] keeps alive, with a provider [TlsRegistry] leases;
    [Connection] drives the decoder of [Http1], the bodies of [Models] and an output buffer
    against the classes [GatewayAdmission] and [TlsSession], which [Lifecycle] and
    [TlsChannel] implement ([ConnectionSystem]).  A proxy attempt composes the connection, the
    resolver of [DnsResolver], a [ProxyPool] and a [ProxyExchange]; [Server] runs over the
    states of [Lifecycle] and [Control], and there a connection is its descriptor, generation
    and thread.  A call of outside code says what other threads did meanwhile: events of the
    connection in [ConnectionRun], turns of the accept owner and of ending threads in [Server].

    ** What is shown

    - Framing: a request head is delimited in one way or refused; a decoder that accepts a
      fragment goes on from it as from the whole; decoded events follow the message grammar
      within the limits; errors leave no body allocated; chunked bodies and response heads
      round-trip; a head encoded for an upstream reads back as that one request; upstream
      responses are legal or refused.
    - Memory: [ChannelBuffer] is a byte FIFO with watermarks and releases every segment; a
      [BodyStream] is a bounded queue, loses no wake-up and holds no view once closed; an
      exchange's reservation is exactly what it queues, on every path.
    - Ownership: in every interleaving a generation is released once, with its last reference;
      admission keeps its gauges within their limits; upstream leases, descriptors of the
      pool and connections of the resolver are each given back exactly once; a task scope ends
      after its children; one controller owns the signals.
    - Naming: DNS names and queries round-trip, a message is parsed or refused, a resolution
      ends by its deadline, a rebinding answer is refused, the cache is a bounded LRU; matching
      is exact; the router answers by the first entry that applies.
    - TLS: a server name is canonical or refused and selection is a lookup; a session is called
      only as its protocol allows, whatever the provider answers; in every interleaving
      contexts are freed once, providers closed once and the library unloaded once, never in use.
    - Connection: after any sequence of calls, whatever outside code does, the gateway's gauges
      count for a connection exactly what it holds, and nothing once it is closed; what ends
      a connection is final.  However its thread ends, proxied requests included, it is
      closed and no admission, body or handler thread of it is left, if no hook closes it
      itself; and no pooled upstream connection, if the clock answers.  (The descriptor of a
      pending connect may leak: [ProxySystem.connecting_descriptor_leaks].)
    - Server: connections admitted and generations referenced are those published; carriers,
      listener, application and TLS end after the scheduler has answered that every thread
      that was started is over (an accept owner whose outcome is unknown is given up,
      [ServerSystem.ServerRun.unknown_accept_owner_given_up]); a shutdown ends by its
      deadlines, and without error is complete.
    - Application: stages, middleware and the handler run in order, at most once; startup is
      all or nothing, with shutdown callbacks for the rollback.

    ** Fuel

    A loop without a structural measure takes fuel and raises [out_of_fuel] without it; the
    theorems named show that it never does. [Buffer]: bytes left for [append], views plus one
    for [consume] ([channel_buffer_refines_fifo]). [Http1.feed_loop] and the upstream
    [feed_loop]: an iteration that goes on removes a byte, so the buffer's length plus one
    ([feed_error_releases_bodies], [upstream_responses_legal]). [DnsWire.decode_name]: at most
    32 jumps over a message, 34 times its length plus one ([parse_response_total]).
    [ProxyPool.reserve_loop]: a pass that goes on takes an idle connection, their number plus
    one ([pool_conserves_descriptors]). [Structured.run_loop] ends with its thread and
    [Models.read_loop] with the producer: their fuel bounds the passes looked at.  So does the
    fuel of the loops of a connection's thread and of the control loop, which run as long as
    clients and signals have them: using it up is an interruption, and the theorems hold for
    every number of passes.  The waits of a shutdown need drain_timeout_ms passes plus one
    ([shutdown_ends]).

    ** Not modelled

    Of server.py: [NativeVirtualThreadScheduler], which passes its arguments on to the runtime,
    and the hooks, which do nothing by default; they are the environments the theorems quantify
    over.  The native TLS library, the dynamic loader and the file hash of [TlsNative] are a
    parameter; [production_tls_registry] only composes.  The native half of control.py marshals
    arguments to extern symbols that are not in the repository; the package files re-export
    names; benchmarks and example applications are process and socket I/O. *)

From Stdlib Require Export ZArith Lia.
From stdpp Require Export base tactics list numbers gmap strings.

#[global] Open Scope Z_scope.

(** ** Python values

    [bytes] and [str] are lists of integers: the byte values 0..255 of a
    [bytes] object, the code points of a [str]. *)

Abbreviation bytes := (list Z) (only parsing).
Abbreviation str := (list Z) (only parsing).

(** A source literal, as the list of its code points. *)
Fixpoint py (s : string) : list Z :=
  match s with
  | EmptyString => []
  | String c s' => Z.of_N (Ascii.N_of_ascii c) :: py s'
  end.
Arguments py : simpl never.

(** [len(x)] *)
Definition len {A} (l : list A) : Z := Z.of_nat (length l).

(** [x[i:j]] for [0 <= i]; as in Python, [j] is clamped to the length. *)
Definition slice {A} (l : list A) (i j : Z) : list A :=
  take (Z.to_nat (j - i)) (drop (Z.to_nat i) l).

(** [x[i:]] for [0 <= i]. *)
Definition from {A} (l : list A) (i : Z) : list A := drop (Z.to_nat i) l.

(** [x[:j]] for [0 <= j]. *)
Definition upto {A} (l : list A) (j : Z) : list A := take (Z.to_nat j) l.

(** [x[i]] for [0 <= i]; [None] is Python's [IndexError]. *)
Definition at_ {A} (l : list A) (i : Z) : option A :=
  if i <? 0 then None else l !! Z.to_nat i.

(** [x[i] == v], false out of range (every use is behind a length guard). *)
Definition at_is (l : list Z) (i v : Z) : bool :=
  match at_ l i with Some x => x =? v | None => false end.

Arguments len : simpl never.
Arguments slice : simpl never.
Arguments from : simpl never.
Arguments upto : simpl never.
Arguments at_ : simpl never.

(** Equality of strings and bytes. *)
Definition str_eqb (a b : list Z) : bool := bool_decide (a = b).

(** [x in (a, b, ...)] for strings. *)
Definition str_in (x : list Z) (l : list (list Z)) : bool := bool_decide (x ∈ l).

(** ** Exceptions

    One constructor per exception class the modelled code raises or catches,
    carrying the attributes the code reads back. *)
Inductive exn : Type :=
| ValueError (message : str)
| RuntimeError (message : str)
| KeyError (message : str)
| IndexError
| TypeError (message : str)
| UnicodeError
| BufferReleasedError (message : str)
| BufferClosedError (message : str)
| BufferLimitError (message : str)
| ChannelClosedError (message : str)
| PipelineError (message : str)
| Http1Error (status : Z) (code message : str)
| ProxyProtocolError (code message : str)
| DnsError (code message : str)
| RouteConflictError (message : str)
| RouteBindingError (message : str)
| RouteNotFound (target : str)
| MethodNotAllowed (allowed : list str)
| HttpError (status : Z) (detail : str)
| GatewayControlError (operation : str) (error_code : Z)
| TaskScopeError (message : str)
| TlsProviderError (message : str)
| GatewayError (message : str)
| GatewayTransportError (message : str)
| UnsupportedGatewayFeature (message : str)
| AttributeError
| OtherError (tag : Z).

#[global] Instance exn_eq_dec : EqDecision exn.
Proof. solve_decision. Defined.

(** [isinstance(e, ValueError)] over the class hierarchy of the source. *)
Definition is_ValueError (e : exn) : bool :=
  match e with
  | ValueError _ | UnicodeError | Http1Error _ _ _ | ProxyProtocolError _ _
  | DnsError _ _ | RouteConflictError _ | RouteBindingError _ => true
  | _ => false
  end.

(** Raised by a bounded loop of the model that ran out of fuel; the theorems
    show that no loop does. *)
Definition out_of_fuel : exn := OtherError 0.

Definition is_Http1Error (e : exn) : bool :=
  match e with Http1Error _ _ _ => true | _ => false end.

(** [str(e)] for the classes whose message the code reads. *)
Definition exn_message (e : exn) : str :=
  match e with
  | ValueError m | RuntimeError m | TypeError m
  | BufferReleasedError m | BufferClosedError m | BufferLimitError m
  | ChannelClosedError m | PipelineError m | Http1Error _ _ m
  | ProxyProtocolError _ m | DnsError _ m | RouteConflictError m
  | RouteBindingError m | TaskScopeError m | TlsProviderError m
  | GatewayError m | GatewayTransportError m | UnsupportedGatewayFeature m => m
  | HttpError _ d => d
  | _ => []
  end.

(** ** Results and the state-and-exception monad *)

Inductive result (A : Type) : Type :=
| Ok (a : A)
| Raise (e : exn).
Arguments Ok {A} a.
Arguments Raise {A} e.

Definition rbind {A B} (m : result A) (k : A -> result B) : result B :=
  match m with Ok a => k a | Raise e => Raise e end.

Definition rmap {A B} (f : A -> B) (m : result A) : result B :=
  match m with Ok a => Ok (f a) | Raise e => Raise e end.

Lemma Ok_inj {A} (a b : A) : Ok a = Ok b -> a = b.
Proof. by intros [=]. Qed.

(** A Python computation over mutable state [S]: an exception keeps the
    mutations made before it was raised. *)
Definition M (S A : Type) : Type := S -> result A * S.

Definition ret {S A} (a : A) : M S A := fun s => (Ok a, s).
Definition raise {S A} (e : exn) : M S A := fun s => (Raise e, s).
Definition bind {S A B} (m : M S A) (k : A -> M S B) : M S B := fun s =>
  match m s with
  | (Ok a, s') => k a s'
  | (Raise e, s') => (Raise e, s')
  end.
Definition get {S} : M S S := fun s => (Ok s, s).
Definition put {S} (s : S) : M S unit := fun _ => (Ok tt, s).
Definition modify {S} (f : S -> S) : M S unit := fun s => (Ok tt, f s).
Definition lift {S A} (r : result A) : M S A := fun s => (r, s).

(** Runs a computation on one component of a larger state. *)
Definition zoom {S T A} (proj : T -> S) (inj : S -> T -> T) (m : M S A) : M T A := fun t =>
  let '(r, s') := m (proj t) in (r, inj s' t).

(** [try: m except Exception as e: h e] *)
Definition try_except {S A} (m : M S A) (h : exn -> M S A) : M S A := fun s =>
  match m s with
  | (Ok a, s') => (Ok a, s')
  | (Raise e, s') => h e s'
  end.

Declare Scope py_scope.
Delimit Scope py_scope with py.
Notation "'let?' p ':=' m 'in' k" := (rbind m (fun p => k))
  (at level 10, p as pattern, m at level 100, k at level 200) : py_scope.
Notation "'let!' p ':=' m 'in' k" := (bind m (fun p => k))
  (at level 10, p as pattern, m at level 100, k at level 200) : py_scope.
Notation "m ';;!' k" := (bind m (fun _ => k))
  (at level 199, right associativity) : py_scope.
#[global] Open Scope py_scope.

(** [try: m finally: f] *)
Definition try_finally {S A} (m : M S A) (f : M S unit) : M S A :=
  let! r := try_except (let! a := m in ret (Ok a)) (fun e => ret (Raise e)) in
  f ;;! lift r.

(** [first_error = None; ...]: a call whose exception is kept and not raised. *)
Definition attempt {S} (m : M S unit) : M S (option exn) :=
  try_except (m ;;! ret None) (fun e => ret (Some e)).
Definition first_of (a b : option exn) : option exn := match a with Some _ => a | None => b end.
Definition reraise {S} (first_error : option exn) : M S unit :=
  match first_error with Some e => raise e | None => ret tt end.
(** Every call of the list, each in its own [try]; the first error is kept. *)
Fixpoint attempt_all {S} (ms : list (M S unit)) : M S (option exn) :=
  match ms with
  | [] => ret None
  | m :: ms' => let! e1 := attempt m in let! e2 := attempt_all ms' in ret (first_of e1 e2)
  end.

Lemma bind_ok {S A B} (m : M S A) (k : A -> M S B) s a s' :
  m s = (Ok a, s') -> bind m k s = k a s'.
Proof. intros H. unfold bind. by rewrite H. Qed.

Lemma bind_raise {S A B} (m : M S A) (k : A -> M S B) s e s' :
  m s = (Raise e, s') -> bind m k s = (Raise e, s').
Proof. intros H. unfold bind. by rewrite H. Qed.

(** [run E]: execute the first statement of the program, whose run is [E]. *)
Ltac run E := erewrite bind_ok by exact E; cbv beta.

(** ** Proof tools: a weakest-precondition reading of [M] *)

(** [wp m Q E s]: started in [s], [m] either returns with [Q] or raises with [E]. *)
Definition wp {S A} (m : M S A) (Q : A -> S -> Prop) (E : exn -> S -> Prop) (s : S) : Prop :=
  match m s with
  | (Ok a, s') => Q a s'
  | (Raise e, s') => E e s'
  end.

Lemma wp_ret {S A} (a : A) Q E (s : S) : Q a s -> wp (ret a) Q E s.
Proof. done. Qed.

Lemma wp_raise {S A} e Q E (s : S) : E e s -> wp (@raise S A e) Q E s.
Proof. done. Qed.

Lemma wp_bind {S A B} (m : M S A) (k : A -> M S B) Q E (s : S) :
  wp m (fun a s' => wp (k a) Q E s') E s -> wp (bind m k) Q E s.
Proof. unfold wp, bind. by destruct (m s) as [[a|e] s']. Qed.

Lemma wp_mono {S A} (m : M S A) (Q Q' : A -> S -> Prop) (E E' : exn -> S -> Prop) s :
  (forall a s', Q a s' -> Q' a s') -> (forall e s', E e s' -> E' e s') ->
  wp m Q E s -> wp m Q' E' s.
Proof. unfold wp. intros HQ HE. destruct (m s) as [[a|e] s']; auto. Qed.

Lemma wp_get {S} Q E (s : S) : Q s s -> wp get Q E s.
Proof. done. Qed.

Lemma wp_put {S} (s' : S) Q E (s : S) : Q tt s' -> wp (put s') Q E s.
Proof. done. Qed.

Lemma wp_modify {S} (f : S -> S) Q E (s : S) : Q tt (f s) -> wp (modify f) Q E s.
Proof. done. Qed.

Lemma wp_lift {S A} (r : result A) Q E (s : S) :
  match r with Ok a => Q a s | Raise e => E e s end -> wp (lift r) Q E s.
Proof. unfold wp, lift. by destruct r. Qed.

Lemma wp_try {S A} (m : M S A) h Q E (s : S) :
  wp m Q (fun e s' => wp (h e) Q E s') s -> wp (try_except m h) Q E s.
Proof. unfold wp, try_except. by destruct (m s) as [[a|e] s']. Qed.

Lemma wp_finally {S A} (m : M S A) f Q E (s : S) :
  wp m (fun a s1 => wp f (fun _ s2 => Q a s2) E s1) (fun e s1 => wp f (fun _ s2 => E e s2) E s1) s ->
  wp (try_finally m f) Q E s.
Proof.
  unfold wp, try_finally, try_except, bind, ret, lift. destruct (m s) as [[a|e] s1]; by destruct (f s1) as [[?|?] s2].
Qed.

Lemma wp_attempt {S} (m : M S unit) Q E (s : S) :
  wp m (fun _ s' => Q None s') (fun e s' => Q (Some e) s') s -> wp (attempt m) Q E s.
Proof. unfold wp, attempt, try_except, bind, ret. by destruct (m s) as [[a|e] s1]. Qed.

Lemma wp_reraise {S} o Q E (s : S) :
  match o with Some e => E e s | None => Q tt s end -> wp (reraise o) Q E s.
Proof. by destruct o. Qed.

Lemma wp_zoom {S T A} (proj : T -> S) (inj : S -> T -> T) (m : M S A) Q E (t : T) :
  wp m (fun a s => Q a (inj s t)) (fun e s => E e (inj s t)) (proj t) -> wp (zoom proj inj m) Q E t.
Proof. unfold wp, zoom. by destruct (m (proj t)) as [[a|e] s1]. Qed.

(** Each call of [attempt_all] starts where the one before ended. *)
Lemma wp_each {S} ms (m : M S unit) (R : S -> Prop) E s :
  wp m (fun _ s1 => wp (attempt_all ms) (fun _ => R) E s1) (fun _ s1 => wp (attempt_all ms) (fun _ => R) E s1) s ->
  wp (attempt_all (m :: ms)) (fun _ => R) E s.
Proof.
  intros Hm. cbn [attempt_all]. apply wp_bind, wp_attempt. eapply wp_mono; [| |exact Hm]; intros ? s1 Hs1; apply wp_bind;
    (eapply wp_mono; [| |exact Hs1]); by intros.
Qed.

(** [m] keeps [J], whichever way it ends. *)
Definition keeps {S A} (J : S -> Prop) (m : M S A) : Prop := forall s, J s -> wp m (fun _ => J) (fun _ => J) s.

Section keeps.
Context {S : Type} (J : S -> Prop).
Lemma keeps_ret {A} (a : A) : keeps J (ret a).
Proof. by intros s. Qed.
Lemma keeps_raise {A} e : keeps J (@raise S A e).
Proof. by intros s. Qed.
Lemma keeps_lift {A} (r : result A) : keeps J (lift r).
Proof. intros s Hs. apply wp_lift. by destruct r. Qed.
Lemma keeps_get : keeps J get.
Proof. by intros s. Qed.
Lemma keeps_reraise o : keeps J (reraise o).
Proof. intros s Hs. by destruct o. Qed.
Lemma keeps_bind {A B} (m : M S A) (k : A -> M S B) : keeps J m -> (forall a, keeps J (k a)) -> keeps J (bind m k).
Proof. intros Hm Hk s Hs. apply wp_bind. eapply wp_mono; [| |by apply Hm]; [|done]. intros a s' Hs'. by apply Hk. Qed.
Lemma keeps_try {A} (m : M S A) h : keeps J m -> (forall e, keeps J (h e)) -> keeps J (try_except m h).
Proof. intros Hm Hh s Hs. apply wp_try. eapply wp_mono; [| |by apply Hm]; [done|]. intros e s' Hs'. by apply Hh. Qed.
Lemma keeps_attempt (m : M S unit) : keeps J m -> keeps J (attempt m).
Proof. intros Hm s Hs. apply wp_attempt. by apply Hm. Qed.
Lemma keeps_attempt_all ms : Forall (keeps J) ms -> keeps J (attempt_all ms).
Proof.
  induction 1 as [|m ms Hm Hms IH]; [apply keeps_ret|]. cbn [attempt_all].
  apply keeps_bind; [by apply keeps_attempt|]. intros e. apply keeps_bind; [done|]. intros; apply keeps_ret.
Qed.
Lemma keeps_zoom {T A} (proj : S -> T) (inj : T -> S -> S) (m : M T A) :
  (forall t s, J s -> J (inj t s)) -> keeps J (zoom proj inj m).
Proof. intros Hi s Hs. apply wp_zoom. unfold wp. destruct (m (proj s)) as [[a|e] t]; by apply Hi. Qed.
End keeps.
#[export] Hint Resolve keeps_ret keeps_raise keeps_lift keeps_get keeps_reraise keeps_attempt : core.

(** Decomposes a [wp] goal along the structure of the program. *)
Ltac wp_step :=
  lazymatch goal with
  | |- wp (bind _ _) _ _ _ => apply wp_bind
  | |- wp (ret _) _ _ _ => apply wp_ret
  | |- wp (raise _) _ _ _ => apply wp_raise
  | |- wp get _ _ _ => apply wp_get
  | |- wp (put _) _ _ _ => apply wp_put
  | |- wp (modify _) _ _ _ => apply wp_modify
  | |- wp (lift _) _ _ _ => apply wp_lift
  | |- wp (try_except _ _) _ _ _ => apply wp_try
  | |- wp (try_finally _ _) _ _ _ => apply wp_finally
  | |- wp (attempt _) _ _ _ => apply wp_attempt
  | |- wp (if ?b then _ else _) _ _ _ => let E := fresh "Hb" in destruct b eqn:E
  | |- wp (match ?x with _ => _ end) _ _ _ => let E := fresh "Hm" in destruct x eqn:E
  end.
Ltac wp_steps := repeat (wp_step; cbn beta).

(** Turns boolean tests of the source into propositions. *)
Ltac b2p :=
  repeat match goal with
  | H : (_ && _)%bool = true |- _ => apply andb_true_iff in H as [? ?]
  | H : (_ || _)%bool = false |- _ => apply orb_false_iff in H as [? ?]
  | H : negb _ = true |- _ => apply negb_true_iff in H
  | H : negb _ = false |- _ => apply negb_false_iff in H
  | H : bool_decide _ = true |- _ => apply bool_decide_eq_true in H
  | H : bool_decide _ = false |- _ => apply bool_decide_eq_false in H
  | H : str_eqb _ _ = true |- _ => apply bool_decide_eq_true in H
  | H : str_eqb _ _ = false |- _ => apply bool_decide_eq_false in H
  | H : (_ =? _) = true |- _ => apply Z.eqb_eq in H
  | H : (_ =? _) = false |- _ => apply Z.eqb_neq in H
  | H : (_ <? _) = true |- _ => apply Z.ltb_lt in H
  | H : (_ <? _) = false |- _ => apply Z.ltb_ge in H
  | H : (_ <=? _) = true |- _ => apply Z.leb_le in H
  | H : (_ <=? _) = false |- _ => apply Z.leb_gt in H
  | H : (_ >? _) = true |- _ => rewrite Z.gtb_ltb in H; apply Z.ltb_lt in H
  | H : (_ >? _) = false |- _ => rewrite Z.gtb_ltb in H; apply Z.ltb_ge in H
  | H : (_ >=? _) = true |- _ => rewrite Z.geb_leb in H; apply Z.leb_le in H
  | H : (_ >=? _) = false |- _ => rewrite Z.geb_leb in H; apply Z.leb_gt in H
  end.

(** Decides, with [lia], the integer tests that the context settles. *)
Ltac zdec1 :=
  match goal with
  | |- context [?a <? ?b] =>
      first [rewrite (proj2 (Z.ltb_lt a b)) by lia | rewrite (proj2 (Z.ltb_ge a b)) by lia]
  | |- context [?a <=? ?b] =>
      first [rewrite (proj2 (Z.leb_le a b)) by lia | rewrite (proj2 (Z.leb_gt a b)) by lia]
  | |- context [?a =? ?b] =>
      first [rewrite (proj2 (Z.eqb_eq a b)) by lia | rewrite (proj2 (Z.eqb_neq a b)) by lia]
  end.
Ltac zdec :=
  rewrite ?Z.gtb_ltb, ?Z.geb_leb; repeat (progress (zdec1; cbn [andb orb negb])).

(** ** Lists with integer indices *)

Section lists.
Context {A : Type}.
Implicit Types (l k : list A) (i j n : Z).

Lemma len_nonneg l : 0 <= len l.
Proof. unfold len. lia. Qed.

Lemma len_app l k : len (l ++ k) = len l + len k.
Proof. unfold len. rewrite length_app. lia. Qed.

Lemma len_cons (x : A) l : len (x :: l) = 1 + len l.
Proof. unfold len. simpl. lia. Qed.

Lemma len_nil : len (@nil A) = 0.
Proof. done. Qed.

Lemma len_zero_nil l : len l = 0 -> l = [].
Proof. destruct l; [done|]. rewrite len_cons. pose proof (len_nonneg l). lia. Qed.

Lemma len_upto l j : 0 <= j -> len (upto l j) = Z.min j (len l).
Proof. intros. unfold upto, len. rewrite length_take. lia. Qed.

Lemma len_from l i : 0 <= i -> len (from l i) = Z.max 0 (len l - i).
Proof. intros. unfold from, len. rewrite length_drop. lia. Qed.

Lemma len_slice l i j :
  0 <= i -> i <= j -> j <= len l -> len (slice l i j) = j - i.
Proof. unfold slice, len. rewrite length_take, length_drop. lia. Qed.

Lemma len_slice_le l i j : 0 <= i -> len (slice l i j) <= Z.max 0 (j - i).
Proof. unfold slice, len. rewrite length_take. lia. Qed.

Lemma upto_from l j : upto l j ++ from l j = l.
Proof. apply take_drop. Qed.

Lemma from_0 l : from l 0 = l.
Proof. done. Qed.

Lemma upto_0 l : upto l 0 = [].
Proof. done. Qed.

Lemma upto_all l j : len l <= j -> upto l j = l.
Proof. unfold len, upto. intros. apply take_ge. lia. Qed.

Lemma from_all l j : len l <= j -> from l j = [].
Proof. unfold len, from. intros. apply drop_ge. lia. Qed.

Lemma from_from l i j : 0 <= i -> 0 <= j -> from (from l i) j = from l (i + j).
Proof. intros. unfold from. rewrite drop_drop. f_equal. lia. Qed.

Lemma from_app_le l k i : 0 <= i -> i <= len l -> from (l ++ k) i = from l i ++ k.
Proof. intros. unfold from, len in *. apply drop_app_le. lia. Qed.

Lemma from_app_ge l k i : len l <= i -> from (l ++ k) i = from k (i - len l).
Proof.
  intros. unfold from, len in *. rewrite drop_app_ge by lia. f_equal. lia.
Qed.

Lemma upto_app_le l k j : j <= len l -> upto (l ++ k) j = upto l j.
Proof. intros. unfold upto, len in *. apply take_app_le. lia. Qed.

Lemma upto_app_ge l k j : len l <= j -> upto (l ++ k) j = l ++ upto k (j - len l).
Proof.
  intros. unfold upto, len in *. rewrite take_app_ge by lia. do 2 f_equal. lia.
Qed.

Lemma upto_upto l i j : 0 <= i -> i <= j -> upto (upto l j) i = upto l i.
Proof. intros. unfold upto. rewrite take_take. f_equal. lia. Qed.

Lemma slice_app_le l k i j : 0 <= i -> i <= j -> j <= len l -> slice (l ++ k) i j = slice l i j.
Proof.
  intros. unfold slice, len in *. rewrite drop_app_le by lia.
  apply take_app_le. rewrite length_drop. lia.
Qed.

Lemma slice_from_upto l i j : 0 <= i -> slice l i j = upto (from l i) (j - i).
Proof. done. Qed.

Lemma slice_split l i j n :
  0 <= i -> i <= j -> j <= n -> slice l i j ++ slice l j n = slice l i n.
Proof.
  intros. unfold slice.
  replace (Z.to_nat (n - i)) with (Z.to_nat (j - i) + Z.to_nat (n - j))%nat by lia.
  rewrite <- take_take_drop. f_equal. rewrite drop_drop. do 2 f_equal. lia.
Qed.

Lemma slice_empty l i : slice l i i = [].
Proof. unfold slice. replace (Z.to_nat (i - i)) with 0%nat by lia. done. Qed.

Lemma slice_all l : slice l 0 (len l) = l.
Proof. unfold slice, len. rewrite drop_0. apply take_ge. lia. Qed.

Lemma slice_slice l i j a b :
  0 <= i -> 0 <= a -> a <= b -> b <= j - i ->
  slice (slice l i j) a b = slice l (i + a) (i + b).
Proof.
  intros. unfold slice. apply list_eq. intros n.
  rewrite !lookup_take, !lookup_drop, lookup_take.
  repeat case_decide; try lia; try done.
  rewrite lookup_drop. f_equal. lia.
Qed.

Lemma at_Some l i x : at_ l i = Some x -> 0 <= i < len l.
Proof.
  unfold at_, len. destruct (Z.ltb_spec i 0); [done|].
  intros ?%lookup_lt_Some. lia.
Qed.

Lemma at_lookup l i : 0 <= i -> at_ l i = l !! Z.to_nat i.
Proof. intros. unfold at_. destruct (Z.ltb_spec i 0); [lia|done]. Qed.

Lemma at_app_l l k i : i < len l -> at_ (l ++ k) i = at_ l i.
Proof.
  unfold at_, len. intros. destruct (Z.ltb_spec i 0); [done|].
  apply lookup_app_l. lia.
Qed.
End lists.

#[export] Hint Resolve len_nonneg : core.
Create Rewrite HintDb len.
#[export] Hint Rewrite @len_app @len_cons @len_nil : len.

(** Pushes [len] through list constructors everywhere. *)
Ltac lens :=
  repeat match goal with
  | H : context [len (@nil ?T)] |- _ => change (len (@nil T)) with 0 in H
  | |- context [len (@nil ?T)] => change (len (@nil T)) with 0
  | H : context [len (_ :: _)] |- _ => rewrite len_cons in H
  | |- context [len (_ :: _)] => rewrite len_cons
  | H : context [len (_ ++ _)] |- _ => rewrite len_app in H
  | |- context [len (_ ++ _)] => rewrite len_app
  end.

(** ** Counting *)

Section count.
Context {A : Type} (p : A -> bool).

Fixpoint count (l : list A) : Z :=
  match l with
  | [] => 0
  | x :: l' => Z.b2z (p x) + count l'
  end.

Lemma count_nonneg l : 0 <= count l.
Proof. induction l as [|x l IH]; simpl; [lia|]. destruct (p x); simpl; lia. Qed.

Lemma count_app l k : count (l ++ k) = count l + count k.
Proof. induction l; simpl; lia. Qed.

Lemma count_insert l i x y :
  l !! i = Some x -> count (<[i := y]> l) = count l - Z.b2z (p x) + Z.b2z (p y).
Proof.
  revert i. induction l as [|z l IH]; intros [|i] Hi; simplify_eq/=; [lia|].
  rewrite (IH i Hi). lia.
Qed.

Lemma count_zero l : (forall i x, l !! i = Some x -> p x = false) -> count l = 0.
Proof.
  induction l as [|x l IH]; intros H; [done|]. simpl.
  rewrite (H 0%nat x eq_refl), IH; [done|]. intros i y Hy. apply (H (S i) y Hy).
Qed.

Lemma count_pos l i x : l !! i = Some x -> p x = true -> 0 < count l.
Proof.
  revert i. induction l as [|z l IH]; intros [|i] Hi Hp; simplify_eq/=.
  - rewrite Hp. pose proof (count_nonneg l). simpl. lia.
  - specialize (IH i Hi Hp). destruct (p z); simpl; lia.
Qed.

Lemma count_zero_inv l i x : count l = 0 -> l !! i = Some x -> p x = false.
Proof. intros H Hi. destruct (p x) eqn:E; [|done]. pose proof (count_pos l i x Hi E). lia. Qed.
Lemma count_perm l k : l ≡ₚ k -> count l = count k.
Proof. induction 1; simpl; lia. Qed.

Lemma count_pos_elem l x : x ∈ l -> p x = true -> 0 < count l.
Proof. intros [i Hi]%list_elem_of_lookup Hp. by eapply count_pos. Qed.

Lemma count_pos_inv l : 0 < count l -> exists x, x ∈ l /\ p x = true.
Proof.
  induction l as [|y l IH]; cbn [count]; [lia|]. destruct (p y) eqn:E; intros H; [exists y; split; [by left|done]|].
  destruct IH as (x & Hx & Hq); [by simpl in H|]. exists x. split; [by right|done].
Qed.
End count.

Section index.
Context {A : Type}.
Implicit Types (l : list A) (i : Z).

Lemma from_cons l i x :
  0 <= i -> at_ l i = Some x -> from l i = x :: from l (i + 1).
Proof.
  intros Hi Hx. rewrite at_lookup in Hx by done. unfold from.
  rewrite (drop_S l x) by done. do 2 f_equal. lia.
Qed.

Lemma from_cons_inv l i x k :
  0 <= i -> from l i = x :: k -> at_ l i = Some x /\ from l (i + 1) = k.
Proof.
  intros Hi H. assert (at_ l i = Some x) as Hx.
  { rewrite at_lookup by done. unfold from in H.
    rewrite <- (Nat.add_0_r (Z.to_nat i)), <- lookup_drop, H. done. }
  split; [done|]. rewrite (from_cons l i x) in H by done. by simplify_eq.
Qed.

Lemma len_pos_at l i : 0 <= i < len l -> exists x, at_ l i = Some x.
Proof.
  intros H. rewrite at_lookup by lia. apply lookup_lt_is_Some_2. unfold len in H. lia.
Qed.
End index.
