(* ===== verification/PyStr.v ===== *)
(** * The part of Python's [str], [bytes] and [int] the gateway uses

    Executable counterparts of the built-in operations the modelled code calls:
    case mapping, stripping, searching, splitting, joining, decimal and
    hexadecimal conversion, UTF-8, and the stable [sort].  Case mapping and
    [isalnum] are exact for code points 0..255 (the code applies them to Latin-1
    header text and ASCII names), lower-casing also for the four letters beyond whose
    lower case is below 256; other code points are left unchanged. *)

From S2P Require Import Prelude.
#[local] Open Scope Z_scope.

(** ** Characters *)

Definition is_digit (c : Z) : bool := (48 <=? c) && (c <=? 57).
Definition is_alpha_ascii (c : Z) : bool :=
  ((65 <=? c) && (c <=? 90)) || ((97 <=? c) && (c <=? 122)).

Definition lower_char (c : Z) : Z :=
  if ((65 <=? c) && (c <=? 90)) || ((192 <=? c) && (c <=? 214))
     || ((216 <=? c) && (c <=? 222))
  then c + 32
  else if c =? 376 then 255 (* Y with diaeresis *)
  else if c =? 7838 then 223 (* capital sharp s *)
  else if c =? 8490 then 107 (* KELVIN SIGN *)
  else if c =? 8491 then 229 (* ANGSTROM SIGN *)
  else c.

(** [str.upper] may lengthen its argument: U+00DF becomes two letters. *)
Definition upper_char (c : Z) : list Z :=
  if ((97 <=? c) && (c <=? 122)) || ((224 <=? c) && (c <=? 246))
     || ((248 <=? c) && (c <=? 254))
  then [c - 32]
  else if c =? 181 then [924]
  else if c =? 223 then [83; 83]
  else if c =? 255 then [376]
  else [c].

Definition lower (s : str) : str := map lower_char s.
Definition upper (s : str) : str := concat (map upper_char s).

(** [str.isalnum] of one character. *)
Definition isalnum_char (c : Z) : bool :=
  is_digit c || is_alpha_ascii c || (c =? 170) || (c =? 178) || (c =? 179)
  || (c =? 181) || (c =? 185) || (c =? 186)
  || ((188 <=? c) && (c <=? 190))
  || ((192 <=? c) && (c <=? 214)) || ((216 <=? c) && (c <=? 246))
  || ((248 <=? c) && (c <=? 255)).

(** [str.isspace] of one character: what [strip()] and [split()] drop. *)
Definition isspace_char (c : Z) : bool :=
  ((9 <=? c) && (c <=? 13)) || ((28 <=? c) && (c <=? 32)) || (c =? 133) || (c =? 160)
  || (c =? 5760) || ((8192 <=? c) && (c <=? 8202)) || (c =? 8232) || (c =? 8233)
  || (c =? 8239) || (c =? 8287) || (c =? 12288).

(** ** Stripping, prefixes, searching *)

Fixpoint lstrip_by (p : Z -> bool) (s : str) : str :=
  match s with
  | [] => []
  | c :: s' => if p c then lstrip_by p s' else s
  end.
Definition rstrip_by (p : Z -> bool) (s : str) : str := rev (lstrip_by p (rev s)).
Definition strip_by (p : Z -> bool) (s : str) : str := rstrip_by p (lstrip_by p s).
Definition strip (s : str) : str := strip_by isspace_char s.
(** [s.rstrip(".")] *)
Definition rstrip_dot (s : str) : str := rstrip_by (Z.eqb 46) s.

Fixpoint starts_with (p s : list Z) : bool :=
  match p, s with
  | [], _ => true
  | a :: p', b :: s' => (a =? b) && starts_with p' s'
  | _ :: _, [] => false
  end.
Definition ends_with (p s : list Z) : bool := starts_with (rev p) (rev s).

(** [c in s] for a single character. *)
Definition char_in (c : Z) (s : list Z) : bool := existsb (Z.eqb c) s.

(** [s.find(c)] and [s.rfind(c)] for a single character. *)
Fixpoint find_char (c : Z) (s : list Z) : Z :=
  match s with
  | [] => -1
  | x :: s' =>
      if x =? c then 0
      else let r := find_char c s' in if r <? 0 then -1 else 1 + r
  end.
Fixpoint rfind_char (c : Z) (s : list Z) : Z :=
  match s with
  | [] => -1
  | x :: s' =>
      let r := rfind_char c s' in
      if 0 <=? r then 1 + r else if x =? c then 0 else -1
  end.

(** ** Splitting and joining *)

(** [s.split(sep)] for a non-empty [sep]; [skip] counts the characters of a
    separator still to be dropped. *)
Fixpoint split_go (sep : list Z) (skip : nat) (acc s : list Z) : list (list Z) :=
  match s with
  | [] => [rev acc]
  | c :: s' =>
      match skip with
      | S k => split_go sep k acc s'
      | O => if starts_with sep s
             then rev acc :: split_go sep (length sep - 1) [] s'
             else split_go sep 0 (c :: acc) s'
      end
  end.
Definition split_str (sep s : list Z) : list (list Z) := split_go sep 0 [] s.

(** [s.split(c)] for a single character. *)
Fixpoint split_char (c : Z) (s : list Z) : list (list Z) :=
  match s with
  | [] => [[]]
  | x :: s' =>
      if x =? c then [] :: split_char c s'
      else match split_char c s' with
           | [] => [[x]]
           | w :: ws => (x :: w) :: ws
           end
  end.

(** [s.split(c, n)] *)
Fixpoint split_char_max (c : Z) (n : nat) (s : list Z) : list (list Z) :=
  match n with
  | O => [s]
  | S n' =>
      let i := find_char c s in
      if i <? 0 then [s] else upto s i :: split_char_max c n' (from s (i + 1))
  end.

(** [s.split()]: the maximal runs of non-space characters. *)
Fixpoint split_ws_go (acc s : list Z) : list (list Z) :=
  match s with
  | [] => if bool_decide (acc = []) then [] else [rev acc]
  | c :: s' =>
      if isspace_char c
      then (if bool_decide (acc = []) then [] else [rev acc]) ++ split_ws_go [] s'
      else split_ws_go (c :: acc) s'
  end.
Definition split_ws (s : list Z) : list (list Z) := split_ws_go [] s.

(** [s.splitlines()]; a carriage return and the line feed after it are one break. *)
Definition is_linebreak (c : Z) : bool :=
  ((10 <=? c) && (c <=? 13)) || ((28 <=? c) && (c <=? 30)) || (c =? 133)
  || (c =? 8232) || (c =? 8233).
Fixpoint splitlines_go (acc : list Z) (after_cr : bool) (s : list Z) : list (list Z) :=
  match s with
  | [] => if bool_decide (acc = []) then [] else [rev acc]
  | c :: s' =>
      if after_cr && (c =? 10) then splitlines_go [] false s'
      else if is_linebreak c then rev acc :: splitlines_go [] (c =? 13) s'
      else splitlines_go (c :: acc) false s'
  end.
Definition splitlines (s : list Z) : list (list Z) := splitlines_go [] false s.

(** [sep.join(parts)] *)
Fixpoint join (sep : list Z) (parts : list (list Z)) : list Z :=
  match parts with
  | [] => []
  | [w] => w
  | w :: ws => w ++ sep ++ join sep ws
  end.

(** ** Integers as text *)

Definition digit_char (d : Z) : Z := if d <? 10 then 48 + d else 87 + d.
Fixpoint digits_go (base : Z) (fuel : nat) (n : Z) (acc : str) : str :=
  match fuel with
  | O => acc
  | S f => if n <? base then digit_char n :: acc
           else digits_go base f (n / base) (digit_char (n mod base) :: acc)
  end.
(** One step of [log2 n] more than covers the digits of [n] in any base from 2. *)
Definition digits (base n : Z) : str := digits_go base (S (Z.to_nat (Z.log2 n))) n [].
(** [str(n)] *)
Definition str_of_int (n : Z) : str := if n <? 0 then 45 :: digits 10 (- n) else digits 10 n.
(** [format(n, "x")] for [0 <= n] *)
Definition hex_of_int (n : Z) : str := digits 16 n.

Definition decimal_value (s : str) : Z := fold_left (fun acc c => acc * 10 + (c - 48)) s 0.

(** CPython refuses to convert more than [int_max_str_digits] decimal digits. *)
Definition int_max_str_digits : Z := 4300.
(** [int(s)] on a non-empty string of ASCII digits. *)
Definition int_of_digits (s : str) : result Z :=
  if int_max_str_digits <? len s
  then Raise (ValueError (py "Exceeds the limit for integer string conversion"))
  else Ok (decimal_value s).

(** [int(s, 16)]: surrounding white space, a sign, an optional [0x] and digits
    that single underscores may separate. *)
Definition hex_char (c : Z) : option Z :=
  if (48 <=? c) && (c <=? 57) then Some (c - 48)
  else if (65 <=? c) && (c <=? 70) then Some (c - 55)
  else if (97 <=? c) && (c <=? 102) then Some (c - 87)
  else None.
Fixpoint hex_go (after_digit : bool) (acc : Z) (s : str) : result Z :=
  match s with
  | [] => if after_digit then Ok acc else Raise (ValueError (py "invalid literal for int()"))
  | c :: s' =>
      match hex_char c with
      | Some d => hex_go true (acc * 16 + d) s'
      | None => if (c =? 95) && after_digit then hex_go false acc s'
                else Raise (ValueError (py "invalid literal for int()"))
      end
  end.
Definition int_base16 (s : str) : result Z :=
  let s := strip s in
  let negative := at_is s 0 45 in
  let s := if negative || at_is s 0 43 then from s 1 else s in
  let? n := if at_is s 0 48 && (at_is s 1 120 || at_is s 1 88)
            then hex_go false 0 (if at_is s 2 95 then from s 3 else from s 2)
            else hex_go false 0 s in
  Ok (if negative then - n else n).

(** ** UTF-8 *)

Definition utf8_encode_char (c : Z) : result (list Z) :=
  if c <? 128 then Ok [c]
  else if c <? 2048 then Ok [192 + c / 64; 128 + c mod 64]
  else if (55296 <=? c) && (c <=? 57343) then Raise UnicodeError
  else if c <? 65536 then Ok [224 + c / 4096; 128 + (c / 64) mod 64; 128 + c mod 64]
  else Ok [240 + c / 262144; 128 + (c / 4096) mod 64; 128 + (c / 64) mod 64; 128 + c mod 64].
Fixpoint utf8_encode (s : str) : result bytes :=
  match s with
  | [] => Ok []
  | c :: s' =>
      let? b := utf8_encode_char c in
      let? bs := utf8_encode s' in
      Ok (b ++ bs)
  end.

Definition is_cont (b : Z) : bool := (128 <=? b) && (b <=? 191).
(** One strict decoding step: the code point and the bytes it took. *)
Definition utf8_decode_step (s : bytes) : result (Z * nat) :=
  match s with
  | [] => Raise UnicodeError
  | b0 :: r =>
      if b0 <? 128 then Ok (b0, 1%nat)
      else if (194 <=? b0) && (b0 <=? 223) then
        match r with
        | b1 :: _ => if is_cont b1 then Ok ((b0 - 192) * 64 + (b1 - 128), 2%nat) else Raise UnicodeError
        | _ => Raise UnicodeError
        end
      else if (224 <=? b0) && (b0 <=? 239) then
        match r with
        | b1 :: b2 :: _ =>
            if is_cont b1 && is_cont b2
               && (if b0 =? 224 then 160 <=? b1 else true)
               && (if b0 =? 237 then b1 <=? 159 else true)
            then Ok ((b0 - 224) * 4096 + (b1 - 128) * 64 + (b2 - 128), 3%nat)
            else Raise UnicodeError
        | _ => Raise UnicodeError
        end
      else if (240 <=? b0) && (b0 <=? 244) then
        match r with
        | b1 :: b2 :: b3 :: _ =>
            if is_cont b1 && is_cont b2 && is_cont b3
               && (if b0 =? 240 then 144 <=? b1 else true)
               && (if b0 =? 244 then b1 <=? 143 else true)
            then Ok ((b0 - 240) * 262144 + (b1 - 128) * 4096 + (b2 - 128) * 64 + (b3 - 128), 4%nat)
            else Raise UnicodeError
        | _ => Raise UnicodeError
        end
      else Raise UnicodeError
  end.
Fixpoint utf8_decode_go (fuel : nat) (s : bytes) : result str :=
  match fuel, s with
  | _, [] => Ok []
  | O, _ => Raise UnicodeError
  | S f, _ =>
      let? (c, n) := utf8_decode_step s in
      let? cs := utf8_decode_go f (drop n s) in
      Ok (c :: cs)
  end.
(** Each step takes at least one byte, so [length s] steps are enough. *)
Definition utf8_decode (s : bytes) : result str := utf8_decode_go (length s) s.

(** [s.encode("ascii")], [s.encode("latin1")] and [b.decode("ascii")] *)
Definition encode_below (limit : Z) (s : str) : result bytes :=
  if forallb (fun c => c <? limit) s then Ok s else Raise UnicodeError.
Definition encode_ascii (s : str) : result bytes := encode_below 128 s.
Definition encode_latin1 (s : str) : result bytes := encode_below 256 s.
Definition decode_ascii (s : bytes) : result str := encode_below 128 s.

(** ** Stable sorting ([list.sort], [sorted]) by a total preorder *)

Section sorting.
Context {A : Type} (leb : A -> A -> bool).
Fixpoint insert_sorted (x : A) (l : list A) : list A :=
  match l with
  | [] => [x]
  | y :: l' => if leb x y then x :: l else y :: insert_sorted x l'
  end.
Fixpoint sort_by (l : list A) : list A :=
  match l with
  | [] => []
  | x :: l' => insert_sorted x (sort_by l')
  end.
End sorting.

(** Python's order on strings: lexicographic on code points. *)
Fixpoint str_leb (a b : str) : bool :=
  match a, b with
  | [], _ => true
  | _ :: _, [] => false
  | x :: a', y :: b' => (x <? y) || ((x =? y) && str_leb a' b')
  end.
Definition sorted_strs (l : list str) : list str := sort_by str_leb l.

Example ex_split : split_str (py "ab") (py "xabyabab") = [py "x"; py "y"; []; []].
Proof. reflexivity. Qed.
Example ex_dec : str_of_int 12030 = py "12030" /\ hex_of_int 48879 = py "beef" /\ str_of_int 0 = py "0".
Proof. repeat split; reflexivity. Qed.
Example ex_utf8 : utf8_decode [226; 130; 172; 65] = Ok [8364; 65].
Proof. reflexivity. Qed.
Example ex_sort : sorted_strs [py "b"; py "ab"; py "a"] = [py "a"; py "ab"; py "b"].
Proof. reflexivity. Qed.
Example ex_lines : splitlines [97; 13; 10; 98; 10; 10; 99] = [[97]; [98]; []; [99]].
Proof. reflexivity. Qed.
