(* ===== verification/PyLists.v ===== *)
(** * Splitting, joining and stable sorting

    Lemmas on the list-producing operations of [PyStr], shared by routing, name
    resolution and the web framework. *)

From Stdlib Require Import Sorted.
From S2P Require Import Prelude PyStr.
#[local] Open Scope Z_scope.

(** ** The bytes of a list of chunks *)

Definition total (ds : list bytes) : Z := fold_right (fun d n => len d + n) 0 ds.

Lemma total_app a b : total (a ++ b) = total a + total b.
Proof. induction a as [|d a IH]; simpl; lia. Qed.

Lemma total_nonneg ds : 0 <= total ds.
Proof. induction ds as [|d ds IH]; simpl; [lia|]. pose proof (len_nonneg d). lia. Qed.

Lemma len_concat ds : len (concat ds) = total ds.
Proof. induction ds as [|d ds IH]; simpl; [done|]. rewrite len_app, IH. done. Qed.

(** ** Splitting and joining on one character *)

Lemma split_char_ne c s : split_char c s <> [].
Proof. destruct s as [|x s]; simpl; [done|]. destruct (x =? c); [done|]. by destruct (split_char c s). Qed.

Lemma split_char_free c s : Forall (fun w => c ∉ w) (split_char c s).
Proof.
  induction s as [|x s IH]; simpl; [apply Forall_singleton, not_elem_of_nil|].
  destruct (Z.eqb_spec x c); [constructor; [apply not_elem_of_nil|done]|].
  destruct (split_char c s) as [|w ws]; [apply Forall_singleton, not_elem_of_cons; split; [done|apply not_elem_of_nil]|].
  apply Forall_cons in IH as [Hw Hws]. constructor; [|done]. rewrite elem_of_cons. intros [?|?]; congruence.
Qed.

Lemma join_split c s : join [c] (split_char c s) = s.
Proof.
  induction s as [|x s IH]; [done|]. cbn [split_char].
  pose proof (split_char_ne c s) as Hne. destruct (Z.eqb_spec x c) as [->|].
  - destruct (split_char c s) as [|w ws]; [done|]. cbn [join app] in *. by rewrite IH.
  - destruct (split_char c s) as [|w ws]; [done|]. destruct ws; cbn [join app] in *; by rewrite IH.
Qed.

Lemma split_char_app c w s : c ∉ w -> split_char c (w ++ c :: s) = w :: split_char c s.
Proof.
  induction w as [|x w IH]; intros H; cbn [app split_char]; [by rewrite Z.eqb_refl|].
  rewrite not_elem_of_cons in H. destruct H as [Hx Hw]. rewrite (proj2 (Z.eqb_neq x c)) by done. by rewrite IH.
Qed.

Lemma split_char_single c w : c ∉ w -> split_char c w = [w].
Proof.
  induction w as [|x w IH]; intros H; cbn [split_char]; [done|].
  rewrite not_elem_of_cons in H. destruct H as [Hx Hw]. rewrite (proj2 (Z.eqb_neq x c)) by done. by rewrite IH.
Qed.

Lemma split_join_char c ws : ws <> [] -> Forall (fun w => c ∉ w) ws -> split_char c (join [c] ws) = ws.
Proof.
  intros Hne H. induction H as [|w ws Hw H IH]; [done|]. destruct ws as [|w' ws].
  - by apply split_char_single.
  - change (join [c] (w :: w' :: ws)) with (w ++ [c] ++ join [c] (w' :: ws)). cbn [app].
    rewrite split_char_app by done. by rewrite IH.
Qed.

Lemma split_char_Forall (P : Z -> Prop) c s : Forall P s -> Forall (Forall P) (split_char c s).
Proof.
  induction 1 as [|x s Hx H IH]; cbn [split_char]; [repeat constructor|]. destruct (x =? c); [by constructor|].
  destruct (split_char c s) as [|w ws]; [repeat constructor; done|]. apply Forall_cons in IH as [? ?]. by repeat constructor.
Qed.

Lemma char_in_false c s : char_in c s = false <-> c ∉ s.
Proof.
  unfold char_in. rewrite <- not_true_iff_false, existsb_exists. split; intros H.
  - intros Hin. apply H. exists c. split; [by apply list_elem_of_In|apply Z.eqb_refl].
  - intros (x & Hx & E). apply Z.eqb_eq in E. subst. apply H. by apply list_elem_of_In.
Qed.

(** ** Stable sorting *)

Section sorting.
Context {A : Type} (leb : A -> A -> bool).

Lemma insert_sorted_perm x l : insert_sorted leb x l ≡ₚ x :: l.
Proof. induction l as [|y l IH]; simpl; [done|]. destruct (leb x y); [done|]. rewrite IH. apply Permutation_swap. Qed.

Lemma sort_by_perm l : sort_by leb l ≡ₚ l.
Proof. induction l as [|x l IH]; simpl; [done|]. by rewrite insert_sorted_perm, IH. Qed.

Lemma insert_sorted_sorted x l :
  (forall a b, leb a b = false -> leb b a = true) -> (forall a b c, leb a b = true -> leb b c = true -> leb a c = true) ->
  StronglySorted (fun a b => leb a b = true) l -> StronglySorted (fun a b => leb a b = true) (insert_sorted leb x l).
Proof.
  intros Ht Htr. induction 1 as [|y l Hs IH Hy]; simpl; [repeat constructor|].
  destruct (leb x y) eqn:E.
  - repeat (constructor; try done). eapply Forall_impl; [exact Hy|]. intros z. by apply Htr.
  - constructor; [done|]. rewrite insert_sorted_perm. constructor; [by apply Ht|done].
Qed.

Lemma sort_by_sorted l :
  (forall a b, leb a b = false -> leb b a = true) -> (forall a b c, leb a b = true -> leb b c = true -> leb a c = true) ->
  StronglySorted (fun a b => leb a b = true) (sort_by leb l).
Proof. intros Ht Htr. induction l; simpl; [constructor|]. by apply insert_sorted_sorted. Qed.

(** Elements that tie keep their order. *)
Lemma sort_by_stable q l :
  (forall a b, q a = true -> q b = true -> leb a b = true) ->
  List.filter q (sort_by leb l) = List.filter q l.
Proof.
  intros Hq. assert (forall x k, List.filter q (insert_sorted leb x k) = List.filter q (x :: k)) as Hi.
  { intros x k. induction k as [|y k IH]; [done|]. cbn [insert_sorted]. destruct (leb x y) eqn:E; [done|].
    cbn [List.filter] in *. rewrite IH. destruct (q x) eqn:Ex; [|done]. destruct (q y) eqn:Ey; [|done].
    by rewrite Hq in E. }
  induction l as [|x l IH]; [done|]. cbn [sort_by]. rewrite Hi. cbn [List.filter]. by rewrite IH.
Qed.
End sorting.
