(* ===== verification/Buffer.v ===== *)
(** * Owned segmented buffers ([pcc_gateway/buffer.py])

    The three classes of the file over one explicit object store: a [heap]
    holds every [BufferSegment] and [BufferView] ever allocated and a Python
    reference is an index into it, so views that share a segment alias it.
    [ChannelBuffer] keeps its views as such references.  The theorems show that
    reference counts are exact, that a channel buffer is a byte FIFO with exact
    accounting, and that closing it gives up every view it owns. *)

From S2P Require Import Prelude.
#[local] Open Scope Z_scope.

Definition BACKPRESSURE_NONE : Z := 0.
Definition BACKPRESSURE_HIGH : Z := 1.
Definition BACKPRESSURE_LOW : Z := 2.

(** ** The object store *)

Record segment := Segment {
  capacity : Z;
  data : bytes;
  seg_start : Z;
  seg_end : Z;
  references : Z;
  seg_released : bool;
}.

Record view := View {
  owner : nat;
  v_start : Z;
  v_length : Z;
  v_released : bool;
}.

Record heap := Heap { segs : list segment; views : list view }.
#[global] Instance heap_inhabited : Inhabited heap := populate (Heap [] []).

(** Dereferencing: a reference that points outside the store cannot exist in
    Python; the model raises [TypeError], which the theorems show unreachable. *)
Definition dangling : exn := TypeError (py "dangling reference").
Definition get_seg (s : nat) : M heap segment := fun h =>
  match segs h !! s with Some x => (Ok x, h) | None => (Raise dangling, h) end.
Definition get_view (v : nat) : M heap view := fun h =>
  match views h !! v with Some x => (Ok x, h) | None => (Raise dangling, h) end.
Definition set_seg (s : nat) (x : segment) : M heap unit :=
  modify (fun h => Heap (<[s := x]> (segs h)) (views h)).
Definition set_view (v : nat) (x : view) : M heap unit :=
  modify (fun h => Heap (segs h) (<[v := x]> (views h))).
Definition alloc_seg (x : segment) : M heap nat := fun h =>
  (Ok (length (segs h)), Heap (segs h ++ [x]) (views h)).
Definition alloc_view (x : view) : M heap nat := fun h =>
  (Ok (length (views h)), Heap (segs h) (views h ++ [x])).

Module BufferSegment.

Definition init (cap : Z) : M heap nat :=
  if cap <=? 0 then raise (ValueError (py "buffer segment capacity must be positive"))
  else alloc_seg (Segment cap (replicate (Z.to_nat cap) 0) 0 0 1 false).

Definition retain (s : nat) : M heap nat :=
  let! x := get_seg s in
  if seg_released x then raise (BufferReleasedError (py "cannot retain a released segment"))
  else set_seg s (Segment (capacity x) (data x) (seg_start x) (seg_end x)
                          (references x + 1) (seg_released x)) ;;!
       ret s.

Definition release (s : nat) : M heap Z :=
  let! x := get_seg s in
  if seg_released x then raise (BufferReleasedError (py "segment released more than once"))
  else
    let r := references x - 1 in
    set_seg s (Segment (capacity x) (data x) (seg_start x) (seg_end x) r (seg_released x)) ;;!
    if r <? 0 then raise (BufferReleasedError (py "negative segment reference count"))
    else if r =? 0 then
      set_seg s (Segment (capacity x) [] 0 0 r true) ;;!
      ret 1
    else ret 0.

Definition readable_bytes (x : segment) : Z :=
  if seg_released x then 0 else seg_end x - seg_start x.

Definition writable_bytes (x : segment) : Z :=
  if seg_released x then 0 else capacity x - seg_end x.

(** [while index < count: self.data[self.end + index] = source[offset + index]] *)
Fixpoint copy_loop (d source : bytes) (to from_ : nat) (count : nat) : bytes :=
  match count with
  | O => d
  | S n =>
      match source !! from_ with
      | Some b => copy_loop (<[to := b]> d) source (S to) (S from_) n
      | None => d
      end
  end.

Definition write (s : nat) (source : bytes) (offset length : Z) : M heap Z :=
  let! x := get_seg s in
  if seg_released x then raise (BufferReleasedError (py "cannot write a released segment"))
  else
    let source_length := len source in
    if (offset <? 0) || (offset >? source_length)
    then raise (ValueError (py "source offset is out of range"))
    else
      let length := if length <? 0 then source_length - offset else length in
      if (length <? 0) || (offset + length >? source_length)
      then raise (ValueError (py "source length is out of range"))
      else
        let available := writable_bytes x in
        let count := if length >? available then available else length in
        set_seg s (Segment (capacity x)
                     (copy_loop (data x) source (Z.to_nat (seg_end x)) (Z.to_nat offset)
                        (Z.to_nat count))
                     (seg_start x) (seg_end x + count) (references x) (seg_released x)) ;;!
        ret count.

Definition consume (s : nat) (length : Z) : M heap Z :=
  let! x := get_seg s in
  if seg_released x then raise (BufferReleasedError (py "cannot consume a released segment"))
  else if length <? 0 then raise (ValueError (py "consume length must not be negative"))
  else
    let readable := readable_bytes x in
    let count := if length >? readable then readable else length in
    set_seg s (Segment (capacity x) (data x) (seg_start x + count) (seg_end x)
                       (references x) (seg_released x)) ;;!
    ret count.

End BufferSegment.

Module BufferView.

Definition init (s : nat) (start length : Z) : M heap nat :=
  let! x := get_seg s in
  if seg_released x then raise (BufferReleasedError (py "cannot create a view of released storage"))
  else if (start <? 0) || (length <? 0) || (start + length >? seg_end x)
  then raise (ValueError (py "buffer view range is invalid"))
  else
    let! o := BufferSegment.retain s in
    alloc_view (View o start length false).

Definition len_ (v : nat) : M heap Z :=
  let! x := get_view v in
  ret (if v_released x then 0 else v_length x).

Definition to_bytes (v : nat) : M heap bytes :=
  let! x := get_view v in
  if v_released x then raise (BufferReleasedError (py "cannot read a released view"))
  else
    let! o := get_seg (owner x) in
    ret (slice (data o) (v_start x) (v_start x + v_length x)).

Definition slice_ (v : nat) (offset length : Z) : M heap nat :=
  let! x := get_view v in
  if v_released x then raise (BufferReleasedError (py "cannot slice a released view"))
  else if (offset <? 0) || (offset >? v_length x)
  then raise (ValueError (py "view slice offset is out of range"))
  else
    let length := if length <? 0 then v_length x - offset else length in
    if (length <? 0) || (offset + length >? v_length x)
    then raise (ValueError (py "view slice length is out of range"))
    else init (owner x) (v_start x + offset) length.

Definition release (v : nat) : M heap Z :=
  let! x := get_view v in
  if v_released x then raise (BufferReleasedError (py "buffer view released more than once"))
  else
    set_view v (View (owner x) (v_start x) 0 true) ;;!
    BufferSegment.release (owner x).

End BufferView.

(** [BufferSegment.view], which constructs a [BufferView]. *)
Definition BufferSegment_view (s : nat) (offset length : Z) : M heap nat :=
  let! x := get_seg s in
  if seg_released x then raise (BufferReleasedError (py "cannot view a released segment"))
  else
    let readable := BufferSegment.readable_bytes x in
    if (offset <? 0) || (offset >? readable)
    then raise (ValueError (py "view offset is out of range"))
    else
      let length := if length <? 0 then readable - offset else length in
      if (length <? 0) || (offset + length >? readable)
      then raise (ValueError (py "view length is out of range"))
      else BufferView.init s (seg_start x + offset) length.

(** ** [ChannelBuffer] *)

Record cbuf := CBuf {
  segment_size : Z;
  low_watermark : Z;
  high_watermark : Z;
  max_bytes : Z;
  cviews : list nat;
  head : Z;
  head_offset : Z;
  queued_bytes : Z;
  backpressured : bool;
  closed : bool;
}.

Definition set_cviews (vs : list nat) (b : cbuf) : cbuf :=
  CBuf (segment_size b) (low_watermark b) (high_watermark b) (max_bytes b) vs
       (head b) (head_offset b) (queued_bytes b) (backpressured b) (closed b).
Definition set_head (hd off : Z) (b : cbuf) : cbuf :=
  CBuf (segment_size b) (low_watermark b) (high_watermark b) (max_bytes b) (cviews b)
       hd off (queued_bytes b) (backpressured b) (closed b).
Definition set_queued (n : Z) (b : cbuf) : cbuf :=
  CBuf (segment_size b) (low_watermark b) (high_watermark b) (max_bytes b) (cviews b)
       (head b) (head_offset b) n (backpressured b) (closed b).
Definition set_backpressured (p : bool) (b : cbuf) : cbuf :=
  CBuf (segment_size b) (low_watermark b) (high_watermark b) (max_bytes b) (cviews b)
       (head b) (head_offset b) (queued_bytes b) p (closed b).

Module ChannelBuffer.

(** A method of one [ChannelBuffer] runs over that object and the store. *)
Abbreviation MB := (M (cbuf * heap)).
Definition on_heap {A} (m : M heap A) : MB A := zoom snd (fun h t => (fst t, h)) m.
Definition get_buf : MB cbuf := fun t => (Ok (fst t), t).
Definition upd_buf (f : cbuf -> cbuf) : MB unit := modify (fun t => (f (fst t), snd t)).

Definition init (segment_size low_watermark high_watermark max_bytes : Z) : result cbuf :=
  if segment_size <=? 0 then Raise (ValueError (py "segment size must be positive"))
  else if (low_watermark <? 0) || (high_watermark <=? low_watermark)
  then Raise (ValueError (py "watermarks must satisfy 0 <= low < high"))
  else if max_bytes <? high_watermark
  then Raise (ValueError (py "max bytes must cover the high watermark"))
  else Ok (CBuf segment_size low_watermark high_watermark max_bytes [] 0 0 0 false false).

Definition transition_after_growth : MB Z :=
  let! b := get_buf in
  if negb (backpressured b) && (queued_bytes b >=? high_watermark b) then
    upd_buf (set_backpressured true) ;;! ret BACKPRESSURE_HIGH
  else ret BACKPRESSURE_NONE.

Definition transition_after_drain : MB Z :=
  let! b := get_buf in
  if backpressured b && (queued_bytes b <=? low_watermark b) then
    upd_buf (set_backpressured false) ;;! ret BACKPRESSURE_LOW
  else ret BACKPRESSURE_NONE.

(** The [while offset < source_length] loop of [append]. *)
Fixpoint append_loop (fuel : nat) (source : bytes) (offset : Z) : MB unit :=
  if offset <? len source then
    match fuel with
    | O => raise out_of_fuel
    | S fuel' =>
        let! b := get_buf in
        let remaining := len source - offset in
        let cap := if remaining <? segment_size b then remaining else segment_size b in
        let! sg := on_heap (BufferSegment.init cap) in
        let! written := on_heap (BufferSegment.write sg source offset remaining) in
        let! v := on_heap (BufferSegment_view sg 0 written) in
        let! _ := on_heap (BufferSegment.release sg) in
        upd_buf (fun b => set_cviews (cviews b ++ [v]) b) ;;!
        append_loop fuel' source (offset + written)
    end
  else ret tt.

Definition append (source : bytes) : MB Z :=
  let! b := get_buf in
  if closed b then raise (BufferClosedError (py "cannot append to a closed channel buffer"))
  else
    let source_length := len source in
    if queued_bytes b + source_length >? max_bytes b
    then raise (BufferLimitError (py "channel buffer byte limit exceeded"))
    else
      append_loop (length source) source 0 ;;!
      upd_buf (fun b => set_queued (queued_bytes b + source_length) b) ;;!
      transition_after_growth.

Definition append_view (v : nat) : MB Z :=
  let! b := get_buf in
  if closed b then raise (BufferClosedError (py "cannot append to a closed channel buffer"))
  else
    let! length := on_heap (BufferView.len_ v) in
    if queued_bytes b + length >? max_bytes b
    then raise (BufferLimitError (py "channel buffer byte limit exceeded"))
    else
      let! w := on_heap (BufferView.slice_ v 0 (-1)) in
      upd_buf (fun b => set_cviews (cviews b ++ [w]) b) ;;!
      upd_buf (fun b => set_queued (queued_bytes b + length) b) ;;!
      transition_after_growth.

(** The loop of [peek_views] over [views[index:]]; each element is a retained slice. *)
Fixpoint peek_loop (vs : list nat) (local_offset remaining : Z) : M heap (list nat) :=
  match vs with
  | [] => ret []
  | v :: vs' =>
      if remaining >? 0 then
        let! n := BufferView.len_ v in
        let available := n - local_offset in
        let take := if available >? remaining then remaining else available in
        let! w := BufferView.slice_ v local_offset take in
        let! ws := peek_loop vs' 0 (remaining - take) in
        ret (w :: ws)
      else ret []
  end.

Definition peek_views (limit : Z) : MB (list nat) :=
  let! b := get_buf in
  let remaining :=
    if (limit >=? 0) && (limit <? queued_bytes b) then limit else queued_bytes b in
  on_heap (peek_loop (from (cviews b) (head b)) (head_offset b) remaining).

(** The [while remaining > 0] loop of [consume]: at most one step per view left. *)
Fixpoint consume_loop (fuel : nat) (remaining : Z) : MB unit :=
  if remaining >? 0 then
    match fuel with
    | O => raise out_of_fuel
    | S fuel' =>
        let! b := get_buf in
        match at_ (cviews b) (head b) with
        | None => raise IndexError
        | Some v =>
            let! n := on_heap (BufferView.len_ v) in
            let available := n - head_offset b in
            if remaining <? available then
              upd_buf (set_head (head b) (head_offset b + remaining)) ;;!
              consume_loop fuel' 0
            else
              let! _ := on_heap (BufferView.release v) in
              upd_buf (set_head (head b + 1) 0) ;;!
              consume_loop fuel' (remaining - available)
        end
    end
  else ret tt.

Definition consume (length : Z) : MB Z :=
  let! b := get_buf in
  if (length <? 0) || (length >? queued_bytes b)
  then raise (ValueError (py "consume length exceeds queued bytes"))
  else
    consume_loop (S (List.length (cviews b))) length ;;!
    upd_buf (fun b => set_queued (queued_bytes b - length) b) ;;!
    upd_buf (fun b =>
      if (head b >? 32) && (head b * 2 >=? len (cviews b))
      then set_head 0 (head_offset b) (set_cviews (from (cviews b) (head b)) b)
      else b) ;;!
    transition_after_drain.

(** [for part in parts: output.extend(part.to_bytes()); part.release()] *)
Fixpoint read_loop (parts : list nat) (output : bytes) : M heap bytes :=
  match parts with
  | [] => ret output
  | p :: parts' =>
      let! d := BufferView.to_bytes p in
      let! _ := BufferView.release p in
      read_loop parts' (output ++ d)
  end.

Definition read (limit : Z) : MB bytes :=
  let! b := get_buf in
  let limit := if (limit <? 0) || (limit >? queued_bytes b) then queued_bytes b else limit in
  let! parts := peek_views limit in
  let! output := on_heap (read_loop parts []) in
  let! _ := consume limit in
  ret output.

(** The loop of [close] over [views[index:]], counting the views it releases. *)
Fixpoint close_loop (vs : list nat) (released : Z) : M heap Z :=
  match vs with
  | [] => ret released
  | v :: vs' =>
      let! x := get_view v in
      if negb (v_released x) then
        let! _ := BufferView.release v in
        close_loop vs' (released + 1)
      else close_loop vs' released
  end.

Definition close : MB Z :=
  let! b := get_buf in
  if closed b then ret 0
  else
    let! released := on_heap (close_loop (from (cviews b) (head b)) 0) in
    upd_buf (fun b => CBuf (segment_size b) (low_watermark b) (high_watermark b)
                           (max_bytes b) [] 0 0 0 false true) ;;!
    ret released.

End ChannelBuffer.

Example ex_channel :
  match ChannelBuffer.init 4 2 6 100 with
  | Raise _ => False
  | Ok b =>
      let m := let! t := ChannelBuffer.append (py "hello world") in
               let! a := ChannelBuffer.read 5 in
               let! c := ChannelBuffer.read (-1) in
               let! n := ChannelBuffer.close in
               ret (t, a, c, n) in
      fst (m (b, Heap [] [])) = Ok (1, py "hello", py " world", 0)
  end.
Proof. vm_compute. reflexivity. Qed.

(** * Proofs *)

(** ** Store invariant: exact reference counts

    [ext s] counts the references to segment [s] held outside views: the
    allocating frame's own reference, or an explicit [retain]. *)

Definition live_on (s : nat) (w : view) : bool := negb (v_released w) && (owner w =? s)%nat.
Definition live_count (h : heap) (s : nat) : Z := count (live_on s) (views h).

Record seg_ok (live ext : Z) (x : segment) : Prop := {
  so_ext : 0 <= ext;
  so_live : seg_released x = false ->
    references x = live + ext /\ 0 < references x /\
    0 <= seg_start x /\ seg_start x <= seg_end x /\ seg_end x <= capacity x /\
    len (data x) = capacity x;
  so_dead : seg_released x = true ->
    live = 0 /\ ext = 0 /\ references x = 0 /\ data x = [];
}.

Definition view_ok (h : heap) (w : view) : Prop :=
  v_released w = false ->
  exists x, segs h !! owner w = Some x /\ seg_released x = false /\
    0 <= v_start w /\ 0 <= v_length w /\ v_start w + v_length w <= seg_end x.

Record heap_ok (h : heap) (ext : nat -> Z) : Prop := {
  ho_segs : forall s x, segs h !! s = Some x -> seg_ok (live_count h s) (ext s) x;
  ho_views : forall v w, views h !! v = Some w -> view_ok h w;
  ho_ext : forall s, (length (segs h) <= s)%nat -> ext s = 0;
}.

Definition ext_set (ext : nat -> Z) (s : nat) (n : Z) : nat -> Z :=
  fun t => if (t =? s)%nat then n else ext t.

(** What a client sees of the store: the bytes of every live view. *)
Definition vbytes (h : heap) (v : nat) : option bytes :=
  match views h !! v with
  | Some w =>
      if v_released w then None
      else match segs h !! owner w with
           | Some x => Some (slice (data x) (v_start w) (v_start w + v_length w))
           | None => None
           end
  | None => None
  end.

Definition voverride (f : nat -> option bytes) (v : nat) (o : option bytes) : nat -> option bytes :=
  fun u => if (u =? v)%nat then o else f u.

Lemma heap_ok_empty : heap_ok (Heap [] []) (fun _ => 0).
Proof. split; simpl; done. Qed.

Lemma live_count_fresh h ext s :
  heap_ok h ext -> (length (segs h) <= s)%nat -> live_count h s = 0.
Proof.
  intros [_ Hv _] Hs. apply count_zero. intros i w Hw. unfold live_on.
  destruct (v_released w) eqn:E; [done|]. simpl.
  destruct (Hv i w Hw E) as (x & Hx & _). apply lookup_lt_Some in Hx.
  apply Nat.eqb_neq. lia.
Qed.

Lemma vbytes_fresh h v : (length (views h) <= v)%nat -> vbytes h v = None.
Proof. intros H. unfold vbytes. rewrite lookup_ge_None_2 by lia. done. Qed.

Lemma vbytes_live h v d :
  vbytes h v = Some d -> exists w x, views h !! v = Some w /\ v_released w = false /\
    segs h !! owner w = Some x /\ d = slice (data x) (v_start w) (v_start w + v_length w).
Proof.
  unfold vbytes. destruct (views h !! v) as [w|] eqn:Hw; [|done].
  destruct (v_released w) eqn:Hr; [done|].
  destruct (segs h !! owner w) as [x|] eqn:Hx; [|done].
  intros [= <-]. eauto 10.
Qed.

Lemma heap_live h ext v d :
  heap_ok h ext -> vbytes h v = Some d -> exists w x, views h !! v = Some w /\
    v_released w = false /\ segs h !! owner w = Some x /\ seg_released x = false /\
    d = slice (data x) (v_start w) (v_start w + v_length w) /\ v_length w = len d /\
    0 <= v_start w /\ v_start w + v_length w <= seg_end x /\ seg_end x <= capacity x /\
    len (data x) = capacity x.
Proof.
  intros Hok Hv. destruct (vbytes_live h v d Hv) as (w & x & Hw & Hr & Hx & ->).
  destruct (ho_views _ _ Hok v w Hw Hr) as (x' & Hx' & Hxr & H0 & H1 & H2).
  simplify_eq. destruct (ho_segs _ _ Hok _ _ Hx) as [_ Hl _].
  destruct (Hl Hxr) as (_ & _ & _ & _ & Hcap & Hlen).
  exists w, x. rewrite len_slice by lia. repeat (split; [done || lia|]). done.
Qed.

(** ** Each primitive preserves the invariant and acts on [vbytes] as its name says *)

Lemma heap_ok_set_seg h ext s x x' e :
  heap_ok h ext -> segs h !! s = Some x ->
  seg_released x' = false -> seg_end x <= seg_end x' -> seg_ok (live_count h s) e x' ->
  heap_ok (Heap (<[s := x']> (segs h)) (views h)) (ext_set ext s e).
Proof.
  intros [Hs Hv Hx0] Hx Hr He Hok. pose proof (lookup_lt_Some _ _ _ Hx) as Hlt. split; simpl.
  - intros t y Ht. unfold live_count, ext_set. simpl.
    destruct (Nat.eqb_spec t s) as [->|Hne].
    + rewrite list_lookup_insert_eq in Ht by (by eapply lookup_lt_Some). by simplify_eq.
    + rewrite list_lookup_insert_ne in Ht by done. by apply Hs.
  - intros v w Hw Hlive. destruct (Hv v w Hw Hlive) as (y & Hy & Hyr & ? & ? & ?). simpl.
    destruct (decide (s = owner w)) as [->|Hne].
    + simplify_eq. exists x'. rewrite list_lookup_insert_eq by (by eapply lookup_lt_Some).
      repeat (split; [done || lia|]). lia.
    + exists y. by rewrite list_lookup_insert_ne.
  - intros t. rewrite length_insert. intros Ht. unfold ext_set.
    destruct (Nat.eqb_spec t s) as [->|]; [lia|by apply Hx0].
Qed.

Lemma slice_prefix (d d' : bytes) (n i j : Z) :
  upto d n = upto d' n -> 0 <= i -> i <= j -> j <= n -> n <= len d -> n <= len d' ->
  slice d i j = slice d' i j.
Proof.
  intros H Hi Hij Hj Hd Hd'.
  rewrite <- (upto_from d n), <- (upto_from d' n).
  rewrite !slice_app_le; rewrite ?len_upto by lia; rewrite ?H; try lia. done.
Qed.

Lemma vbytes_set_seg h ext s x x' v :
  heap_ok h ext -> segs h !! s = Some x ->
  upto (data x) (seg_end x) = upto (data x') (seg_end x) -> seg_end x <= len (data x') ->
  vbytes (Heap (<[s := x']> (segs h)) (views h)) v = vbytes h v.
Proof.
  intros Hok Hx Hd Hl. unfold vbytes. simpl.
  destruct (views h !! v) as [w|] eqn:Hw; [|done].
  destruct (v_released w) eqn:Hr; [done|].
  destruct (decide (s = owner w)) as [->|Hne]; [|by rewrite list_lookup_insert_ne].
  rewrite list_lookup_insert_eq by (by eapply lookup_lt_Some). rewrite Hx.
  destruct (ho_views _ _ Hok v w Hw Hr) as (y & Hy & Hyr & ? & ? & ?). simplify_eq.
  destruct (so_live _ _ _ (ho_segs _ _ Hok _ _ Hx) Hyr) as (_ & _ & _ & _ & ? & ?).
  f_equal. symmetry. eapply slice_prefix; [done|lia..].
Qed.

Lemma init_spec h ext cap :
  heap_ok h ext -> 0 < cap ->
  exists h', BufferSegment.init cap h = (Ok (length (segs h)), h') /\
    heap_ok h' (ext_set ext (length (segs h)) 1) /\ views h' = views h /\
    segs h' !! length (segs h) = Some (Segment cap (replicate (Z.to_nat cap) 0) 0 0 1 false) /\
    (forall v, vbytes h' v = vbytes h v).
Proof.
  intros Hok Hcap. unfold BufferSegment.init. destruct (Z.leb_spec cap 0); [lia|].
  eexists. split; [done|]. simpl. split; [split|]; simpl; [| | |split; [done|split]].
  - intros s x Hx. unfold ext_set, live_count. simpl.
    destruct (Nat.eqb_spec s (length (segs h))) as [->|Hne].
    + rewrite lookup_app_r, Nat.sub_diag in Hx by done. simplify_eq/=.
      fold (live_count h (length (segs h))). rewrite (live_count_fresh _ _ _ Hok) by done.
      split; [lia| |done]. intros _. simpl. unfold len. rewrite length_replicate.
      repeat (split; [lia|]). lia.
    + pose proof (lookup_lt_Some _ _ _ Hx) as Hlt. rewrite length_app in Hlt. simpl in Hlt.
      rewrite lookup_app_l in Hx by lia. by apply (ho_segs _ _ Hok).
  - intros v w Hw Hr. destruct (ho_views _ _ Hok v w Hw Hr) as (x & Hx & ?).
    exists x. split; [by apply lookup_app_l_Some|done].
  - intros t. rewrite length_app. simpl. intros Ht. unfold ext_set.
    destruct (Nat.eqb_spec t (length (segs h))); [lia|apply (ho_ext _ _ Hok); lia].
  - by rewrite lookup_app_r, Nat.sub_diag.
  - intros v. unfold vbytes. simpl. destruct (views h !! v) as [w|] eqn:Hw; [|done].
    destruct (v_released w) eqn:Hr; [done|].
    destruct (ho_views _ _ Hok v w Hw Hr) as (x & Hx & _).
    by rewrite Hx, (lookup_app_l_Some _ _ _ _ Hx).
Qed.

Lemma copy_loop_length d src i j n :
  length (BufferSegment.copy_loop d src i j n) = length d.
Proof.
  revert d i j. induction n as [|n IH]; intros d i j; simpl; [done|].
  destruct (src !! j); [|done]. by rewrite IH, length_insert.
Qed.

Lemma copy_loop_spec d src i j n :
  (j + n <= length src)%nat -> (i + n <= length d)%nat ->
  BufferSegment.copy_loop d src i j n =
    take i d ++ take n (drop j src) ++ drop (i + n) d.
Proof.
  revert d i j. induction n as [|n IH]; intros d i j Hj Hi; simpl.
  { by rewrite Nat.add_0_r, take_drop. }
  destruct (lookup_lt_is_Some_2 src j) as [b Hb]; [lia|]. rewrite Hb.
  rewrite IH by (rewrite ?length_insert; lia).
  rewrite (drop_S src b j Hb). simpl.
  rewrite drop_insert_lt, (take_S_r _ _ b) by (rewrite ?list_lookup_insert_eq; lia || done).
  rewrite take_insert_ge by lia.
  rewrite <- app_assoc. simpl. do 4 f_equal. lia.
Qed.

Lemma heap_ok_ext h ext ext' :
  (forall s, ext s = ext' s) -> heap_ok h ext -> heap_ok h ext'.
Proof.
  intros H [Hs Hv He]. split; [|done|].
  - intros s x Hx. rewrite <- H. by apply Hs.
  - intros s Hs'. rewrite <- H. by apply He.
Qed.

Lemma ext_set_eq ext s n : ext_set ext s n s = n.
Proof. unfold ext_set. by rewrite Nat.eqb_refl. Qed.

(** The reference count of a live segment, in terms of the invariant. *)
Lemma heap_ok_seg h ext s x :
  heap_ok h ext -> segs h !! s = Some x -> seg_released x = false ->
  references x = live_count h s + ext s /\ 0 <= live_count h s /\ 0 <= ext s /\
  0 <= seg_start x /\ seg_start x <= seg_end x /\ seg_end x <= capacity x /\
  len (data x) = capacity x /\ 0 < references x.
Proof.
  intros Hok Hx Hr. destruct (ho_segs _ _ Hok _ _ Hx) as [He Hl _].
  destruct (Hl Hr) as (? & ? & ? & ? & ? & ?).
  pose proof (count_nonneg (live_on s) (views h)). unfold live_count in *. lia.
Qed.

Lemma retain_spec h ext s x :
  heap_ok h ext -> segs h !! s = Some x -> seg_released x = false ->
  exists h' x', BufferSegment.retain s h = (Ok s, h') /\
    heap_ok h' (ext_set ext s (ext s + 1)) /\ views h' = views h /\
    segs h' !! s = Some x' /\ seg_released x' = false /\ data x' = data x /\
    seg_end x' = seg_end x /\ (forall v, vbytes h' v = vbytes h v).
Proof.
  intros Hok Hx Hr. destruct (heap_ok_seg _ _ _ _ Hok Hx Hr) as (? & ? & ? & ? & ? & ? & ?).
  unfold BufferSegment.retain, bind, get_seg. rewrite Hx, Hr.
  do 2 eexists. split; [done|]. simpl.
  rewrite list_lookup_insert_eq by (by eapply lookup_lt_Some).
  split; [|split; [done|split; [done|repeat (split; [done|])]]].
  - eapply heap_ok_set_seg; [done|done|done|simpl; lia|].
    split; [lia| |done]. intros _. simpl. lia.
  - intros v. eapply vbytes_set_seg; [done..|simpl; lia].
Qed.

Lemma write_spec h ext s x src off n :
  heap_ok h ext -> segs h !! s = Some x -> seg_released x = false ->
  0 <= off -> 0 <= n -> off + n <= len src -> n <= capacity x - seg_end x ->
  exists h', BufferSegment.write s src off n h = (Ok n, h') /\ heap_ok h' ext /\
    views h' = views h /\ (forall v, vbytes h' v = vbytes h v) /\
    segs h' !! s = Some (Segment (capacity x)
      (upto (data x) (seg_end x) ++ slice src off (off + n) ++ from (data x) (seg_end x + n))
      (seg_start x) (seg_end x + n) (references x) false).
Proof.
  intros Hok Hx Hr Ho Hn Hon Hc.
  destruct (heap_ok_seg _ _ _ _ Hok Hx Hr) as (? & ? & ? & ? & ? & ? & ?).
  unfold BufferSegment.write, bind, get_seg, BufferSegment.writable_bytes.
  rewrite Hx, Hr. cbv zeta. zdec.
  assert (BufferSegment.copy_loop (data x) src (Z.to_nat (seg_end x)) (Z.to_nat off) (Z.to_nat n)
    = upto (data x) (seg_end x) ++ slice src off (off + n) ++ from (data x) (seg_end x + n)) as Hcopy.
  { rewrite copy_loop_spec by (unfold len in *; lia). unfold upto, slice, from.
    f_equal. f_equal; f_equal; lia. }
  eexists. split; [reflexivity|]. simpl. rewrite Hcopy, list_lookup_insert_eq by (by eapply lookup_lt_Some).
  assert (len (upto (data x) (seg_end x) ++ slice src off (off + n) ++ from (data x) (seg_end x + n))
          = capacity x).
  { rewrite !len_app, len_upto, len_slice, len_from by lia. lia. }
  split; [|split; [done|split; [|done]]].
  - apply (heap_ok_ext _ (ext_set ext s (ext s))).
    { intros t. unfold ext_set. by destruct (Nat.eqb_spec t s) as [->|]. }
    eapply heap_ok_set_seg; [done|done|done|simpl; lia|].
    split; [lia| |done]. intros _. simpl. lia.
  - intros v. eapply vbytes_set_seg; [done|done| |simpl; lia]. simpl.
    rewrite upto_app_le by (rewrite len_upto by lia; lia). by rewrite upto_upto by lia.
Qed.

(** Dropping a reference held outside views. *)
Lemma seg_release_spec h ext s x :
  heap_ok h ext -> segs h !! s = Some x -> seg_released x = false -> 0 < ext s ->
  exists h' r, BufferSegment.release s h = (Ok r, h') /\
    heap_ok h' (ext_set ext s (ext s - 1)) /\ views h' = views h /\
    (forall v, vbytes h' v = vbytes h v) /\
    (r = 1 <-> (forall x', segs h' !! s = Some x' -> seg_released x' = true)).
Proof.
  intros Hok Hx Hr He. destruct (heap_ok_seg _ _ _ _ Hok Hx Hr) as (? & ? & ? & ? & ? & ? & ?).
  pose proof (lookup_lt_Some _ _ _ Hx) as Hlt.
  unfold BufferSegment.release, bind, get_seg. rewrite Hx, Hr.
  destruct (Z.ltb_spec (references x - 1) 0); [lia|]. simpl.
  destruct (Z.eqb_spec (references x - 1) 0) as [Hz|Hnz]; simpl.
  - do 2 eexists. split; [reflexivity|]. rewrite list_insert_insert_eq. simpl.
    assert (live_count h s = 0) as Hl0 by lia.
    split; [|split; [done|split]].
    + destruct Hok as [Hs Hv He']. split; simpl.
      * intros t y Ht. unfold live_count, ext_set. simpl.
        destruct (Nat.eqb_spec t s) as [->|Hne].
        -- rewrite list_lookup_insert_eq in Ht by done. simplify_eq. simpl.
           split; [lia|done|]. intros _. repeat split; [done|lia|done..].
        -- rewrite list_lookup_insert_ne in Ht by done. by apply Hs.
      * intros v w Hw Hlive. destruct (Hv v w Hw Hlive) as (y & Hy & Hrest).
        exists y. simpl. rewrite list_lookup_insert_ne; [done|]. intros ->.
        pose proof (count_zero_inv _ _ _ _ Hl0 Hw) as Hp. unfold live_on in Hp.
        rewrite Hlive, Nat.eqb_refl in Hp. done.
      * intros t. rewrite length_insert. intros Ht. unfold ext_set.
        destruct (Nat.eqb_spec t s); [lia|by apply He'].
    + intros v. unfold vbytes. simpl. destruct (views h !! v) as [w|] eqn:Hw; [|done].
      destruct (v_released w) eqn:Hwr; [done|]. rewrite list_lookup_insert_ne; [done|]. intros ->.
      pose proof (count_zero_inv _ _ _ _ Hl0 Hw) as Hp. unfold live_on in Hp.
      rewrite Hwr, Nat.eqb_refl in Hp. done.
    + rewrite list_lookup_insert_eq by done. split; [|done]. intros _ ? ?. by simplify_eq.
  - do 2 eexists. split; [done|]. simpl. split; [|split; [done|split]].
    + eapply heap_ok_set_seg; [done|done|done|simpl; lia|].
      split; [lia| |done]. intros _. simpl. lia.
    + intros v. eapply vbytes_set_seg; [done|done|done|simpl; lia].
    + rewrite list_lookup_insert_eq by done. split; [done|].
      intros Hall. by specialize (Hall _ eq_refl).
Qed.

(** Creating a view moves one outside reference to it. *)
Lemma view_init_spec h ext s x start n :
  heap_ok h ext -> segs h !! s = Some x -> seg_released x = false ->
  0 <= start -> 0 <= n -> start + n <= seg_end x ->
  exists h' x', BufferView.init s start n h = (Ok (length (views h)), h') /\ heap_ok h' ext /\
    length (views h') = S (length (views h)) /\
    (forall u, vbytes h' u =
       voverride (vbytes h) (length (views h)) (Some (slice (data x) start (start + n))) u) /\
    segs h' !! s = Some x' /\ seg_released x' = false /\ data x' = data x /\ seg_end x' = seg_end x.
Proof.
  intros Hok Hx Hr H0 Hn He.
  assert (0 <= ext s) as Hext by (apply (heap_ok_seg _ _ _ _ Hok Hx Hr)).
  destruct (retain_spec h ext s x Hok Hx Hr) as (h1 & x1 & Hret & Hok1 & Hv1 & Hx1 & Hr1 & Hd1 & He1 & Hb1).
  destruct (heap_ok_seg _ _ _ _ Hok1 Hx1 Hr1) as (? & ? & ? & ? & ? & ? & ? & ?).
  unfold BufferView.init, bind, get_seg. rewrite Hx, Hr. zdec. rewrite Hret.
  exists (Heap (segs h1) (views h1 ++ [View s start n false])), x1. simpl.
  split; [by rewrite <- Hv1|]. split; [split|split; [|split; [|done]]].
  all: rewrite ?ext_set_eq in *.
  - intros t y Ht. simpl in Ht. pose proof (ho_segs _ _ Hok1 _ _ Ht) as [He' Hl Hd].
    unfold live_count in *. simpl. rewrite count_app. simpl.
    change (live_on t (View s start n false)) with (s =? t)%nat.
    unfold ext_set in *. rewrite (Nat.eqb_sym s t).
    destruct (Nat.eqb_spec t s) as [->|Hne]; simpl.
    + simplify_eq. split; [lia| |by rewrite Hr1]. intros Hy. specialize (Hl Hy). lia.
    + by rewrite !Z.add_0_r.
  - intros v w Hw Hlive. simpl in *. apply lookup_app_Some in Hw as [Hw|[? Hw]].
    + by apply (ho_views _ _ Hok1 v).
    + destruct (v - length (views h1))%nat; simpl in Hw; [simplify_eq|done]. simpl.
      exists x1. repeat split; [done..|lia|lia|lia].
  - intros t Ht. simpl in Ht. pose proof (ho_ext _ _ Hok1 t Ht) as H0'. unfold ext_set in H0'.
    pose proof (lookup_lt_Some _ _ _ Hx1). destruct (Nat.eqb_spec t s); [lia|done].
  - rewrite length_app. simpl. rewrite Hv1. lia.
  - intros u. unfold voverride. rewrite <- Hb1, <- Hd1, <- Hv1. unfold vbytes. simpl.
    destruct (Nat.eqb_spec u (length (views h1))) as [->|Hne].
    + rewrite lookup_app_r, Nat.sub_diag by done. simpl. by rewrite Hx1.
    + destruct (lt_dec u (length (views h1))).
      * by rewrite lookup_app_l.
      * rewrite !lookup_ge_None_2; [done|lia|rewrite length_app; simpl; lia].
Qed.

Lemma view_to_bytes_spec h ext v d :
  heap_ok h ext -> vbytes h v = Some d -> BufferView.to_bytes v h = (Ok d, h).
Proof.
  intros Hok Hv. destruct (heap_live h ext v d Hok Hv) as (w & x & Hw & Hr & Hx & _ & -> & _).
  unfold BufferView.to_bytes, bind, get_view, get_seg. by rewrite Hw, Hr, Hx.
Qed.

Lemma view_len_spec h ext v d :
  heap_ok h ext -> vbytes h v = Some d -> BufferView.len_ v h = (Ok (len d), h).
Proof.
  intros Hok Hv. destruct (heap_live h ext v d Hok Hv) as (w & x & Hw & Hr & Hx & _ & _ & Hl & _).
  unfold BufferView.len_, bind, get_view. by rewrite Hw, Hr, Hl.
Qed.

Lemma view_slice_spec h ext v d off n :
  heap_ok h ext -> vbytes h v = Some d -> 0 <= off -> 0 <= n -> off + n <= len d ->
  exists h', BufferView.slice_ v off n h = (Ok (length (views h)), h') /\ heap_ok h' ext /\
    length (views h') = S (length (views h)) /\
    (forall u, vbytes h' u =
       voverride (vbytes h) (length (views h)) (Some (slice d off (off + n))) u).
Proof.
  intros Hok Hv H0 H1 H2.
  destruct (heap_live h ext v d Hok Hv) as (w & x & Hw & Hr & Hx & Hxr & Hd & Hl & ? & ? & ? & ?).
  destruct (view_init_spec h ext (owner w) x (v_start w + off) n Hok Hx Hxr)
    as (h' & x' & Hi & Hok' & Hlen & Hb & _); [lia..|].
  exists h'. unfold BufferView.slice_, bind, get_view. rewrite Hw, Hr, Hl. cbv zeta.
  destruct (Z.ltb_spec n 0); [lia|]. zdec. rewrite Hi. split_and!; [done..|].
  intros u. rewrite Hb, Hd. rewrite slice_slice by lia. do 3 f_equal. lia.
Qed.

(** Releasing a view gives up exactly that view. *)
Lemma view_release_spec h ext v d :
  heap_ok h ext -> vbytes h v = Some d ->
  exists h' r, BufferView.release v h = (Ok r, h') /\ heap_ok h' ext /\
    length (views h') = length (views h) /\
    (forall u, vbytes h' u = voverride (vbytes h) v None u).
Proof.
  intros Hok Hv.
  destruct (heap_live h ext v d Hok Hv) as (w & x & Hw & Hr & Hx & Hxr & _).
  pose proof (lookup_lt_Some _ _ _ Hw) as Hlt.
  set (s := owner w) in *. set (w' := View s (v_start w) 0 true).
  set (h1 := Heap (segs h) (<[v := w']> (views h))).
  assert (forall t, live_count h1 t = live_count h t - (if (t =? s)%nat then 1 else 0)) as Hcount.
  { intros t. unfold live_count, h1. simpl. rewrite (count_insert _ _ _ w) by done.
    assert (live_on t w = (s =? t)%nat) as -> by (unfold live_on; by rewrite Hr).
    change (live_on t w') with false. rewrite (Nat.eqb_sym s t).
    destruct (t =? s)%nat; simpl; lia. }
  assert (heap_ok h1 (ext_set ext s (ext s + 1))) as Hok1.
  { split; simpl.
    - intros t y Ht. rewrite Hcount. pose proof (ho_segs _ _ Hok _ _ Ht) as [He Hl Hd].
      unfold ext_set. destruct (Nat.eqb_spec t s) as [->|Hne].
      + simplify_eq. split; [lia| |by rewrite Hxr]. intros Hy. specialize (Hl Hy). lia.
      + rewrite Z.sub_0_r. done.
    - intros u y Hy Hlive. destruct (decide (u = v)) as [->|Hne].
      + rewrite list_lookup_insert_eq in Hy by done. by simplify_eq.
      + rewrite list_lookup_insert_ne in Hy by done. by apply (ho_views _ _ Hok u).
    - intros t Ht. unfold ext_set. pose proof (lookup_lt_Some _ _ _ Hx).
      destruct (Nat.eqb_spec t s); [lia|by apply (ho_ext _ _ Hok)]. }
  assert (forall u, vbytes h1 u = voverride (vbytes h) v None u) as Hb1.
  { intros u. unfold vbytes, voverride, h1. simpl. destruct (Nat.eqb_spec u v) as [->|Hne].
    - by rewrite list_lookup_insert_eq.
    - by rewrite list_lookup_insert_ne. }
  assert (0 <= ext s) as He by (apply (heap_ok_seg _ _ _ _ Hok Hx Hxr)).
  destruct (seg_release_spec h1 _ s x Hok1 Hx Hxr) as (h2 & r & Hrel & Hok2 & Hv2 & Hb2 & _).
  { rewrite ext_set_eq. lia. }
  exists h2, r. unfold BufferView.release, bind, get_view. rewrite Hw, Hr. split_and!.
  - exact Hrel.
  - eapply heap_ok_ext; [|exact Hok2]. intros t. rewrite ext_set_eq. unfold ext_set.
    destruct (Nat.eqb_spec t s) as [->|]; lia.
  - rewrite Hv2. simpl. by rewrite length_insert.
  - intros u. by rewrite Hb2.
Qed.

(** ** A channel buffer holds a byte sequence *)

Definition chunks (h : heap) : list nat -> list bytes -> Prop :=
  Forall2 (fun v d => vbytes h v = Some d).

(** The views a channel buffer still owns. *)
Definition pending (b : cbuf) : list nat := from (cviews b) (head b).

Record cfg_ok (b : cbuf) : Prop := {
  co_seg : 0 < segment_size b;
  co_low : 0 <= low_watermark b;
  co_wm : low_watermark b < high_watermark b;
  co_max : high_watermark b <= max_bytes b;
}.

(** The view list stores [c] after the head offset. *)
Record stores (h : heap) (vs : list nat) (off : Z) (c : bytes) : Prop := {
  st_nodup : NoDup vs;
  st_chunks : exists ds, chunks h vs ds /\ 0 <= off <= len (default [] (ds !! 0%nat)) /\
                         c = from (concat ds) off;
}.

Record repr (h : heap) (b : cbuf) (c : bytes) : Prop := {
  re_cfg : cfg_ok b;
  re_head : 0 <= head b <= len (cviews b);
  re_stores : stores h (pending b) (head_offset b) c;
  re_queued : queued_bytes b = len c;
  re_max : len c <= max_bytes b;
  re_closed : closed b = true -> c = [] /\ pending b = [];
}.

Lemma chunks_ext h h' vs ds :
  (forall u, u ∈ vs -> vbytes h' u = vbytes h u) -> chunks h vs ds -> chunks h' vs ds.
Proof.
  intros H Hc. induction Hc as [|v d vs ds Hv Hc IH]; constructor.
  - rewrite H; [done|]. by left.
  - apply IH. intros u Hu. apply H. by right.
Qed.

Lemma chunks_live h vs ds u : chunks h vs ds -> u ∈ vs -> exists d, vbytes h u = Some d.
Proof.
  intros Hc Hu. apply list_elem_of_lookup in Hu as [i Hi].
  destruct (Forall2_lookup_l _ _ _ _ _ Hc Hi) as (d & _ & Hd). eauto.
Qed.

Lemma chunks_fresh h vs ds u : chunks h vs ds -> u ∈ vs -> (u < length (views h))%nat.
Proof.
  intros Hc Hu. destruct (chunks_live _ _ _ _ Hc Hu) as [d Hd].
  destruct (vbytes_live _ _ _ Hd) as (w & _ & Hw & _). by eapply lookup_lt_Some.
Qed.

Lemma peek_loop_spec vs : forall h ext ds off rem,
  heap_ok h ext -> chunks h vs ds -> 0 <= off <= len (default [] (ds !! 0%nat)) ->
  0 <= rem -> rem <= len (from (concat ds) off) ->
  exists h' ws es, ChannelBuffer.peek_loop vs off rem h = (Ok ws, h') /\ heap_ok h' ext /\
    chunks h' ws es /\ concat es = upto (from (concat ds) off) rem /\ NoDup ws /\
    (forall u, u ∈ ws -> (length (views h) <= u)%nat) /\
    (length (views h) <= length (views h'))%nat /\
    (forall u, u ∉ ws -> vbytes h' u = vbytes h u).
Proof.
  induction vs as [|v vs IH]; intros h ext ds off rem Hok Hc Hoff H0 Hrem; simpl.
  { inversion Hc; subst. simpl in Hoff. change (len (@nil Z)) with 0 in Hoff.
    assert (off = 0) as -> by lia. change (rem <= 0) in Hrem. assert (rem = 0) as -> by lia.
    exists h, [], []. split_and!; [done..|constructor|done|constructor|set_solver|done|done]. }
  inversion Hc as [|? d ? ds' Hv Hc']; subst. simpl in Hoff.
  destruct (Z.gtb_spec rem 0) as [Hpos|Hneg].
  2:{ assert (rem = 0) as -> by lia. exists h, [], [].
      split_and!; [done..|constructor|done|constructor|set_solver|done|done]. }
  simpl in Hrem. rewrite from_app_le, len_app, len_from in Hrem by lia.
  unfold bind at 1. rewrite (view_len_spec _ _ _ _ Hok Hv). cbv beta zeta.
  set (take := if len d - off >? rem then rem else len d - off).
  assert (take = Z.min rem (len d - off)) as Htake.
  { unfold take. destruct (Z.gtb_spec (len d - off) rem); lia. }
  destruct (view_slice_spec h ext v d off take Hok Hv) as (h1 & Hs & Hok1 & Hl1 & Hb1); [lia..|].
  assert (forall u, (u < length (views h))%nat -> vbytes h1 u = vbytes h u) as Hfr1.
  { intros u Hu. rewrite Hb1. unfold voverride. destruct (Nat.eqb_spec u (length (views h))); [lia|done]. }
  assert (chunks h1 vs ds') as Hc1.
  { eapply chunks_ext; [|done]. intros u Hu. apply Hfr1. by eapply chunks_fresh. }
  destruct (IH h1 ext ds' 0 (rem - take) Hok1 Hc1) as
    (h2 & ws & es & Hp & Hok2 & Hc2 & Hcat & Hnd & Hfresh & Hl2 & Hfr2); [|lia| |].
  { split; [lia|apply len_nonneg]. }
  { rewrite from_0. pose proof (len_nonneg (concat ds')). lia. }
  unfold bind at 1. rewrite Hs. unfold bind at 1. rewrite Hp.
  exists h2, (length (views h) :: ws), (slice d off (off + take) :: es).
  split_and!; [done|done| | | | |lia|].
  - constructor; [|done]. rewrite Hfr2, Hb1.
    + unfold voverride. by rewrite Nat.eqb_refl.
    + intros Hin. specialize (Hfresh _ Hin). lia.
  - simpl. rewrite Hcat, from_0, from_app_le by lia. rewrite slice_from_upto by lia.
    replace (off + take - off) with take by lia. destruct (Z.le_gt_cases rem (len d - off)).
    + replace (rem - take) with 0 by lia. rewrite upto_0, app_nil_r.
      rewrite upto_app_le by (rewrite len_from by lia; lia). f_equal. lia.
    + rewrite (upto_all _ take) by (rewrite len_from by lia; lia).
      rewrite upto_app_ge by (rewrite len_from by lia; lia).
      rewrite len_from by lia. do 2 f_equal. lia.
  - constructor; [|done]. intros Hin. specialize (Hfresh _ Hin). lia.
  - intros u [->|Hu]%elem_of_cons; [done|]. specialize (Hfresh _ Hu). lia.
  - intros u [Hne Hu]%not_elem_of_cons. rewrite Hfr2, Hb1 by done. unfold voverride.
    by destruct (Nat.eqb_spec u (length (views h))).
Qed.

Lemma read_loop_spec parts : forall h ext es out,
  heap_ok h ext -> chunks h parts es -> NoDup parts ->
  exists h', ChannelBuffer.read_loop parts out h = (Ok (out ++ concat es), h') /\
    heap_ok h' ext /\ length (views h') = length (views h) /\
    (forall u, u ∉ parts -> vbytes h' u = vbytes h u) /\
    (forall u, u ∈ parts -> vbytes h' u = None).
Proof.
  induction parts as [|p parts IH]; intros h ext es out Hok Hc Hnd; simpl.
  { inversion Hc; subst. exists h. rewrite app_nil_r.
    split_and!; [done..|]. intros u Hu. by apply not_elem_of_nil in Hu. }
  inversion Hc as [|? d ? es' Hp Hc']; subst. apply NoDup_cons in Hnd as [Hni Hnd].
  unfold bind at 1. rewrite (view_to_bytes_spec _ _ _ _ Hok Hp).
  destruct (view_release_spec h ext p d Hok Hp) as (h1 & r & Hrel & Hok1 & Hl1 & Hb1).
  unfold bind at 1. rewrite Hrel.
  assert (chunks h1 parts es') as Hc1.
  { eapply chunks_ext; [|done]. intros u Hu. rewrite Hb1. unfold voverride.
    destruct (Nat.eqb_spec u p) as [->|]; done. }
  destruct (IH h1 ext es' (out ++ d) Hok1 Hc1 Hnd) as (h2 & Hr & Hok2 & Hl2 & Hfr & Hdead).
  exists h2. rewrite Hr. simpl. rewrite app_assoc. split_and!; [done|done|lia| |].
  - intros u [Hne Hu]%not_elem_of_cons. rewrite Hfr by done. rewrite Hb1. unfold voverride.
    by destruct (Nat.eqb_spec u p).
  - intros u Hu. destruct (decide (u ∈ parts)) as [Hin|Hni']; [by apply Hdead|].
    apply elem_of_cons in Hu as [->|]; [|done]. rewrite Hfr by done. rewrite Hb1.
    unfold voverride. by rewrite Nat.eqb_refl.
Qed.

(** One round of [append]: a fresh segment of exactly the bytes left (or a full
    segment) is written, viewed, and handed over to the view. *)
Lemma append_chunk_spec h ext source off cap :
  heap_ok h ext -> 0 <= off -> 0 < cap -> cap <= len source - off ->
  exists h1 h2 h3 h4 r,
    BufferSegment.init cap h = (Ok (length (segs h)), h1) /\
    BufferSegment.write (length (segs h)) source off (len source - off) h1 = (Ok cap, h2) /\
    BufferSegment_view (length (segs h)) 0 cap h2 = (Ok (length (views h)), h3) /\
    BufferSegment.release (length (segs h)) h3 = (Ok r, h4) /\
    heap_ok h4 ext /\ length (views h4) = S (length (views h)) /\
    (forall u, vbytes h4 u =
       voverride (vbytes h) (length (views h)) (Some (slice source off (off + cap))) u).
Proof.
  intros Hok Hoff Hcap Hle. set (sg := length (segs h)).
  destruct (init_spec h ext cap Hok Hcap) as (h1 & E1 & Hok1 & Hv1 & Hs1 & Hb1). fold sg in E1, Hok1, Hs1.
  destruct (write_spec h1 _ sg _ source off cap Hok1 Hs1 eq_refl Hoff) as
    (h2 & E2 & Hok2 & Hv2 & Hb2 & Hs2); simpl; [lia..|]. simpl in Hs2.
  rewrite from_all, app_nil_r in Hs2
    by (unfold len; rewrite length_replicate; lia).
  assert (BufferSegment.write sg source off (len source - off) h1 = (Ok cap, h2)) as E2'.
  { rewrite <- E2. unfold BufferSegment.write, bind, get_seg. rewrite Hs1. simpl. cbv zeta. zdec.
    unfold BufferSegment.writable_bytes. simpl. rewrite Z.sub_0_r.
    destruct (Z.ltb_spec cap (len source - off)); zdec; [done|].
    replace (len source - off) with cap by lia. done. }
  destruct (view_init_spec h2 _ sg _ 0 cap Hok2 Hs2 eq_refl) as
    (h3 & x3 & E3 & Hok3 & Hl3 & Hb3 & Hs3 & Hr3 & _); simpl; [lia..|].
  assert (BufferSegment_view sg 0 cap h2 = (Ok (length (views h)), h3)) as E3'.
  { unfold BufferSegment_view, bind, get_seg. rewrite Hs2. simpl.
    unfold BufferSegment.readable_bytes. simpl. cbv zeta. zdec. rewrite Z.add_0_l, E3, Hv2, Hv1. done. }
  destruct (seg_release_spec h3 _ sg x3 Hok3 Hs3 Hr3) as (h4 & r & E4 & Hok4 & Hv4 & Hb4 & _).
  { rewrite ext_set_eq. lia. }
  assert (ext sg = 0) as Hext0.
  { apply (ho_ext _ _ Hok). done. }
  exists h1, h2, h3, h4, r. split_and!; [done..| | |].
  - eapply heap_ok_ext; [|exact Hok4]. intros t. rewrite ext_set_eq. unfold ext_set.
    destruct (Nat.eqb_spec t sg) as [->|]; lia.
  - rewrite Hv4, Hl3, Hv2, Hv1. done.
  - intros u. rewrite Hb4, Hb3. unfold voverride. rewrite Hv2, Hv1. simpl.
    destruct (u =? length (views h))%nat; [|by rewrite Hb2, Hb1]. f_equal.
    rewrite slice_slice by lia. f_equal; lia.
Qed.

Lemma on_heap_run {A} (m : M heap A) b h r h' :
  m h = (r, h') -> ChannelBuffer.on_heap m (b, h) = (r, (b, h')).
Proof. intros H. unfold ChannelBuffer.on_heap, zoom. simpl. by rewrite H. Qed.

Lemma bind_heap {A B} (m : M heap A) (k : A -> M (cbuf * heap) B) b h a h' :
  m h = (Ok a, h') -> bind (ChannelBuffer.on_heap m) k (b, h) = k a (b, h').
Proof. intros H. apply bind_ok. by apply on_heap_run. Qed.

(** [hrun E]: execute the first statement, a store operation whose run is [E]. *)
Ltac hrun E := erewrite bind_heap by exact E; cbv beta.

Lemma get_buf_run b h : ChannelBuffer.get_buf (b, h) = (Ok b, (b, h)).
Proof. done. Qed.
Lemma upd_buf_run f b h : ChannelBuffer.upd_buf f (b, h) = (Ok tt, (f b, h)).
Proof. done. Qed.

Lemma set_cviews_set_cviews vs ws b : set_cviews ws (set_cviews vs b) = set_cviews ws b.
Proof. done. Qed.

Lemma append_loop_spec source fuel : forall h b ext off,
  heap_ok h ext -> 0 < segment_size b -> 0 <= off <= len source ->
  len source - off <= Z.of_nat fuel ->
  exists h' vs ds,
    ChannelBuffer.append_loop fuel source off (b, h) =
      (Ok tt, (set_cviews (cviews b ++ vs) b, h')) /\ heap_ok h' ext /\
    chunks h' vs ds /\ concat ds = from source off /\ NoDup vs /\
    (forall u, u ∈ vs -> (length (views h) <= u)%nat) /\
    (length (views h) <= length (views h'))%nat /\
    (forall u, u ∉ vs -> vbytes h' u = vbytes h u).
Proof.
  induction fuel as [|fuel IH]; intros h b ext off Hok Hseg Hoff Hfuel; simpl;
    (destruct (Z.ltb_spec off (len source)) as [Hlt|Hge]; [|
      exists h, [], []; rewrite app_nil_r, from_all by lia; destruct b;
      split_and!; [done..|constructor|done|constructor|set_solver|done|done]]).
  { lia. }
  run (get_buf_run b h). cbv zeta.
  set (cap := if len source - off <? segment_size b then len source - off else segment_size b).
  assert (0 < cap <= len source - off) as Hcap.
  { unfold cap. destruct (Z.ltb_spec (len source - off) (segment_size b)); lia. }
  destruct (append_chunk_spec h ext source off cap Hok) as
    (h1 & h2 & h3 & h4 & r & E1 & E2 & E3 & E4 & Hok4 & Hl4 & Hb4); [lia..|].
  hrun E1. hrun E2. hrun E3. hrun E4.
  set (v := length (views h)) in *.
  destruct (IH h4 (set_cviews (cviews b ++ [v]) b) ext (off + cap) Hok4) as
    (h5 & vs & ds & E5 & Hok5 & Hc5 & Hcat & Hnd & Hfresh & Hl5 & Hfr5); simpl; [done|lia..|].
  exists h5, (v :: vs), (slice source off (off + cap) :: ds).
  run (upd_buf_run (fun b => set_cviews (cviews b ++ [v]) b) b h4). rewrite E5. simpl.
  rewrite set_cviews_set_cviews, <- app_assoc. split_and!; [done|done| | | | |lia|].
  - constructor; [|done]. rewrite Hfr5, Hb4.
    + unfold voverride. by rewrite Nat.eqb_refl.
    + intros Hin. specialize (Hfresh _ Hin). lia.
  - rewrite Hcat. rewrite slice_from_upto by lia. replace (off + cap - off) with cap by lia.
    rewrite <- (from_from source off cap) by lia. apply upto_from.
  - constructor; [|done]. intros Hin. specialize (Hfresh _ Hin). lia.
  - intros u [->|Hu]%elem_of_cons; [lia|]. specialize (Hfresh _ Hu). lia.
  - intros u [Hne Hu]%not_elem_of_cons. rewrite Hfr5, Hb4 by done. unfold voverride.
    by destruct (Nat.eqb_spec u v).
Qed.

Lemma set_head_same b : set_head (head b) (head_offset b) b = b.
Proof. by destruct b. Qed.

Lemma close_loop_spec vs : forall h ext ds n,
  heap_ok h ext -> chunks h vs ds -> NoDup vs ->
  exists h', ChannelBuffer.close_loop vs n h = (Ok (n + len vs), h') /\ heap_ok h' ext /\
    length (views h') = length (views h) /\
    (forall u, u ∉ vs -> vbytes h' u = vbytes h u) /\
    (forall u, u ∈ vs -> vbytes h' u = None).
Proof.
  induction vs as [|v vs IH]; intros h ext ds n Hok Hc Hnd; simpl.
  { exists h. rewrite len_nil, Z.add_0_r. split_and!; [done..|]. intros u Hu. by apply not_elem_of_nil in Hu. }
  inversion Hc as [|? d ? ds' Hv Hc']; subst. apply NoDup_cons in Hnd as [Hni Hnd].
  destruct (vbytes_live _ _ _ Hv) as (w & x & Hw & Hr & _).
  unfold bind at 1, get_view at 1. rewrite Hw, Hr. simpl.
  destruct (view_release_spec h ext v d Hok Hv) as (h1 & r & E1 & Hok1 & Hl1 & Hb1). run E1.
  assert (chunks h1 vs ds') as Hc1.
  { eapply chunks_ext; [|done]. intros u Hu. rewrite Hb1. unfold voverride.
    destruct (Nat.eqb_spec u v) as [->|]; done. }
  destruct (IH h1 ext ds' (n + 1) Hok1 Hc1 Hnd) as (h2 & E2 & Hok2 & Hl2 & Hfr & Hdead).
  exists h2. rewrite E2, len_cons. split_and!; [do 2 f_equal; lia|done|lia| |].
  - intros u [Hne Hu]%not_elem_of_cons. rewrite Hfr, Hb1 by done. unfold voverride.
    by destruct (Nat.eqb_spec u v).
  - intros u Hu. destruct (decide (u ∈ vs)) as [|Hni']; [by apply Hdead|].
    apply elem_of_cons in Hu as [->|]; [|done]. rewrite Hfr, Hb1 by done. unfold voverride.
    by rewrite Nat.eqb_refl.
Qed.

Lemma consume_loop_spec fuel : forall h b ext ds r,
  heap_ok h ext -> chunks h (pending b) ds -> NoDup (pending b) ->
  0 <= head b <= len (cviews b) -> 0 <= head_offset b <= len (default [] (ds !! 0%nat)) ->
  0 <= r <= len (from (concat ds) (head_offset b)) -> (length (pending b) < fuel)%nat ->
  exists h' hd off ds',
    ChannelBuffer.consume_loop fuel r (b, h) = (Ok tt, (set_head hd off b, h')) /\
    heap_ok h' ext /\ chunks h' (from (cviews b) hd) ds' /\
    head b <= hd <= len (cviews b) /\ 0 <= off <= len (default [] (ds' !! 0%nat)) /\
    from (concat ds') off = from (from (concat ds) (head_offset b)) r /\
    length (views h') = length (views h) /\
    (forall u, u ∉ pending b -> vbytes h' u = vbytes h u) /\
    (forall u, u ∈ pending b -> u ∉ from (cviews b) hd -> vbytes h' u = None).
Proof.
  induction fuel as [|fuel IH]; intros h b ext ds r Hok Hc Hnd Hhd Hoff Hr Hfuel; [lia|]. simpl.
  destruct (Z.gtb_spec r 0) as [Hpos|Hneg].
  2:{ assert (r = 0) as -> by lia. exists h, (head b), (head_offset b), ds.
      rewrite set_head_same. split_and!; [done|done|done|lia|lia|lia|lia|done|done|done|].
      intros u Hu Hnu. done. }
  run (get_buf_run b h).
  unfold pending in *. destruct ds as [|d ds'].
  { unfold from, len in Hr. simpl in Hr. rewrite drop_nil in Hr. simpl in Hr. lia. }
  destruct (Forall2_cons_inv_r _ _ _ _ Hc) as (v & vs' & Hv & Hc' & Hvs).
  destruct (from_cons_inv _ _ _ _ (proj1 Hhd) Hvs) as [Hat Hrest].
  rewrite Hat. hrun (view_len_spec _ _ _ _ Hok Hv). cbv zeta.
  pose proof (at_Some _ _ _ Hat) as Hbd.
  simpl in Hoff, Hr. rewrite from_app_le, len_app, len_from in Hr by lia. simpl.
  destruct (Z.ltb_spec r (len d - head_offset b)) as [Hlt|Hge].
  - run (upd_buf_run (set_head (head b) (head_offset b + r)) b h).
    exists h, (head b), (head_offset b + r), (d :: ds').
    assert (ChannelBuffer.consume_loop fuel 0 (set_head (head b) (head_offset b + r) b, h)
            = (Ok tt, (set_head (head b) (head_offset b + r) b, h))) as -> by (by destruct fuel).
    split_and!; [done|done|done|lia|lia|simpl; lia|simpl; lia| |done|done|done].
    simpl. rewrite from_from by lia. done.
  - destruct (view_release_spec h ext v d Hok Hv) as (h1 & q & E1 & Hok1 & Hl1 & Hb1).
    hrun E1. run (upd_buf_run (set_head (head b + 1) 0) b h1).
    rewrite Hvs in Hnd. apply NoDup_cons in Hnd as [Hni Hnd].
    assert (chunks h1 vs' ds') as Hc1.
    { eapply chunks_ext; [|done]. intros u Hu. rewrite Hb1. unfold voverride.
      destruct (Nat.eqb_spec u v) as [->|]; done. }
    destruct (IH h1 (set_head (head b + 1) 0 b) ext ds' (r - (len d - head_offset b)) Hok1)
      as (h2 & hd & off & ds2 & E2 & Hok2 & Hc2 & Hhd2 & Hoff2 & Hfrom & Hl2 & Hfr & Hdead);
      simpl; rewrite ?from_0, ?Hrest in *; [done|done|lia|split; [lia|apply len_nonneg]| | |].
    { pose proof (len_nonneg (concat ds')). lia. }
    { rewrite Hvs in Hfuel. simpl in Hfuel. lia. }
    exists h2, hd, off, ds2. simpl in *. rewrite Hrest in Hfr, Hdead. rewrite E2, Hvs.
    split_and!; [done|done|done|lia|lia|lia|lia| |lia| |].
    + rewrite Hfrom, from_from by lia. rewrite from_app_ge by lia. f_equal. lia.
    + intros u [Hne Hu]%not_elem_of_cons. rewrite Hfr, Hb1 by done. unfold voverride.
      by destruct (Nat.eqb_spec u v).
    + intros u Hu Hnu. destruct (decide (u ∈ vs')) as [|Hni']; [by apply Hdead|].
      apply elem_of_cons in Hu as [->|]; [|done]. rewrite Hfr, Hb1 by done. unfold voverride.
      by rewrite Nat.eqb_refl.
Qed.

(** ** Specification: a bounded byte FIFO with hysteresis *)

Record limits := Limits { l_low : Z; l_high : Z; l_max : Z }.
Record fifo := Fifo { f_bytes : bytes; f_paused : bool; f_closed : bool }.

Inductive op :=
| OpAppend (source : bytes)
| OpConsume (length : Z)
| OpRead (limit : Z)
| OpClose.

Inductive output := OutTransition (t : Z) | OutBytes (d : bytes) | OutUnit.

(** Filling pauses at the high mark, draining resumes at the low mark. *)
Definition after_growth (l : limits) (c : bytes) (f : fifo) : Z * fifo :=
  if negb (f_paused f) && (len c >=? l_high l)
  then (BACKPRESSURE_HIGH, Fifo c true (f_closed f))
  else (BACKPRESSURE_NONE, Fifo c (f_paused f) (f_closed f)).
Definition after_drain (l : limits) (c : bytes) (f : fifo) : Z * fifo :=
  if f_paused f && (len c <=? l_low l)
  then (BACKPRESSURE_LOW, Fifo c false (f_closed f))
  else (BACKPRESSURE_NONE, Fifo c (f_paused f) (f_closed f)).

Definition fifo_step (l : limits) (o : op) (f : fifo) : result output * fifo :=
  match o with
  | OpAppend source =>
      if f_closed f then (Raise (BufferClosedError (py "cannot append to a closed channel buffer")), f)
      else if len (f_bytes f) + len source >? l_max l
      then (Raise (BufferLimitError (py "channel buffer byte limit exceeded")), f)
      else let '(t, f') := after_growth l (f_bytes f ++ source) f in (Ok (OutTransition t), f')
  | OpConsume n =>
      if (n <? 0) || (n >? len (f_bytes f))
      then (Raise (ValueError (py "consume length exceeds queued bytes")), f)
      else let '(t, f') := after_drain l (from (f_bytes f) n) f in (Ok (OutTransition t), f')
  | OpRead limit =>
      let n := if (limit <? 0) || (limit >? len (f_bytes f)) then len (f_bytes f) else limit in
      (Ok (OutBytes (upto (f_bytes f) n)), snd (after_drain l (from (f_bytes f) n) f))
  | OpClose => (Ok OutUnit, if f_closed f then f else Fifo [] false true)
  end.

(** The same operations on the implementation. *)
Definition cbuf_step (o : op) : M (cbuf * heap) output :=
  match o with
  | OpAppend source => let! t := ChannelBuffer.append source in ret (OutTransition t)
  | OpConsume n => let! t := ChannelBuffer.consume n in ret (OutTransition t)
  | OpRead limit => let! d := ChannelBuffer.read limit in ret (OutBytes d)
  | OpClose => let! _ := ChannelBuffer.close in ret OutUnit
  end.

(** The implementation state [b, h] stands for the FIFO [f]. *)
Record refines (l : limits) (ext : nat -> Z) (h : heap) (b : cbuf) (f : fifo) : Prop := {
  rf_heap : heap_ok h ext;
  rf_repr : repr h b (f_bytes f);
  rf_paused : backpressured b = f_paused f;
  rf_closed : closed b = f_closed f;
  rf_limits : l = Limits (low_watermark b) (high_watermark b) (max_bytes b);
}.

(** What a step may change of the store: only the buffer's own views. *)
Record moved (h : heap) (b : cbuf) (h' : heap) (b' : cbuf) : Prop := {
  mv_frame : forall u, u ∉ pending b' ->
    vbytes h' u = if bool_decide (u ∈ pending b) then None else vbytes h u;
  mv_fresh : forall u, u ∈ pending b' -> u ∈ pending b \/ (length (views h) <= u)%nat;
  mv_grow : (length (views h) <= length (views h'))%nat;
}.

Lemma moved_refl h b c : repr h b c -> moved h b h b.
Proof. intros H. split; [|by left|done]. intros u Hu. by rewrite bool_decide_eq_false_2. Qed.

Lemma stores_ext h h' vs off c :
  (forall u, u ∈ vs -> vbytes h' u = vbytes h u) -> stores h vs off c -> stores h' vs off c.
Proof. intros H [Hnd (ds & Hc & ?)]. split; [done|]. exists ds. split; [by eapply chunks_ext|done]. Qed.

Lemma stores_app h vs off c ws es :
  stores h vs off c -> chunks h ws es -> NoDup ws -> (forall u, u ∈ ws -> u ∉ vs) ->
  stores h (vs ++ ws) off (c ++ concat es).
Proof.
  intros [Hnd Hst] He Hnw Hdis. destruct Hst as (ds & Hc & Hoff & Heq). subst c. split.
  - apply NoDup_app. split_and!; [done|intros u Hu Hw; by apply (Hdis u)|done].
  - exists (ds ++ es). split; [by apply Forall2_app|].
    destruct ds as [|d ds]; simpl in *.
    + change (len (@nil Z)) with 0 in Hoff. replace off with 0 by lia. by rewrite !from_0.
    + split; [done|]. rewrite concat_app, app_assoc. symmetry. apply from_app_le; [lia|].
      rewrite len_app. pose proof (len_nonneg (concat ds)). lia.
Qed.

Lemma repr_set_backpressured h b c p : repr h b c -> repr h (set_backpressured p b) c.
Proof. intros [[] ? ? ? ? ?]. by constructor. Qed.

Lemma refines_growth l ext h b f c :
  refines l ext h (set_queued (len c) b) (Fifo c (f_paused f) (f_closed f)) ->
  exists b', ChannelBuffer.transition_after_growth (set_queued (len c) b, h) =
      (Ok (fst (after_growth l c f)), (b', h)) /\
    refines l ext h b' (snd (after_growth l c f)) /\ pending b' = pending b.
Proof.
  intros [Hh Hr Hp Hc Hl]. simpl in *. unfold ChannelBuffer.transition_after_growth.
  run (get_buf_run (set_queued (len c) b) h). unfold after_growth.
  rewrite Hl, <- Hp. simpl. destruct (negb _ && _); simpl.
  - eexists. split; [done|]. split; [|done].
    split; simpl; [done|by apply repr_set_backpressured|done..].
  - eexists. split; [done|]. split; [|done]. by split.
Qed.

Lemma refines_drain l ext h b f c :
  refines l ext h b (Fifo c (f_paused f) (f_closed f)) ->
  exists b', ChannelBuffer.transition_after_drain (b, h) =
      (Ok (fst (after_drain l c f)), (b', h)) /\
    refines l ext h b' (snd (after_drain l c f)) /\ pending b' = pending b.
Proof.
  intros [Hh Hr Hp Hc Hl]. simpl in *. unfold ChannelBuffer.transition_after_drain.
  run (get_buf_run b h). unfold after_drain.
  rewrite Hl, <- Hp, (re_queued _ _ _ Hr). simpl. destruct (backpressured b && _) eqn:E; simpl.
  - eexists. split; [done|]. split; [|done].
    split; simpl; [done|by apply repr_set_backpressured|done..].
  - eexists. split; [done|]. split; [|done]. split; simpl; done.
Qed.

(** Taking over fresh views that hold [d]: the common end of [append] and [append_view]. *)
Lemma adopt_refines l ext h b f h1 vs ds d :
  refines l ext h b f -> f_closed f = false -> len (f_bytes f) + len d <= max_bytes b ->
  heap_ok h1 ext -> chunks h1 vs ds -> concat ds = d -> NoDup vs ->
  (forall u, u ∈ vs -> (length (views h) <= u)%nat) -> (length (views h) <= length (views h1))%nat ->
  (forall u, u ∉ vs -> vbytes h1 u = vbytes h u) ->
  exists b', (ChannelBuffer.upd_buf (fun b => set_queued (queued_bytes b + len d) b) ;;!
              ChannelBuffer.transition_after_growth) (set_cviews (cviews b ++ vs) b, h1)
             = (Ok (fst (after_growth l (f_bytes f ++ d) f)), (b', h1)) /\
    refines l ext h1 b' (snd (after_growth l (f_bytes f ++ d) f)) /\ moved h b h1 b'.
Proof.
  intros Hrf Hcl Hmax Hok1 Hc1 Hcat Hnd Hfresh Hgrow Hfr. pose proof Hrf as [Hh Hr Hp Hc Hl]. subst l.
  run (upd_buf_run (fun b0 => set_queued (queued_bytes b0 + len d) b0) (set_cviews (cviews b ++ vs) b) h1).
  assert (pending (set_cviews (cviews b ++ vs) b) = pending b ++ vs) as Hpend.
  { unfold pending. simpl. apply from_app_le; apply (re_head _ _ _ Hr). }
  assert (forall u, u ∈ vs -> u ∉ pending b) as Hdisj.
  { intros u Hu Hu'. specialize (Hfresh u Hu).
    destruct (st_chunks _ _ _ _ (re_stores _ _ _ Hr)) as (ds0 & Hc0 & _).
    pose proof (chunks_fresh _ _ _ _ Hc0 Hu'). lia. }
  replace (queued_bytes (set_cviews (cviews b ++ vs) b) + len d)
    with (len (f_bytes f ++ d)) by (rewrite len_app; simpl; rewrite (re_queued _ _ _ Hr); done).
  destruct (refines_growth (Limits (low_watermark b) (high_watermark b) (max_bytes b)) ext h1
              (set_cviews (cviews b ++ vs) b) f (f_bytes f ++ d)) as (b' & E' & Hrf' & Hpb').
  { split; simpl; [done| |done|by rewrite Hc|done].
    destruct Hr as [[] Hhd Hst Hq Hm Hcd].
    split; simpl; [by constructor| | |done|by rewrite len_app|by rewrite Hc, Hcl].
    - rewrite len_app. pose proof (len_nonneg vs). lia.
    - change (pending (set_queued (len (f_bytes f ++ d)) (set_cviews (cviews b ++ vs) b)))
        with (pending (set_cviews (cviews b ++ vs) b)).
      rewrite Hpend, <- Hcat.
      apply stores_app; [|done|done|done]. eapply stores_ext; [|exact Hst].
      intros u Hu. apply Hfr. intros Hin. by apply (Hdisj u). }
  exists b'. split; [exact E'|]. split; [exact Hrf'|]. split; [| |done].
  - intros u. rewrite Hpb', Hpend. intros [Hu1 Hu2]%not_elem_of_app.
    rewrite bool_decide_eq_false_2 by done. by apply Hfr.
  - intros u. rewrite Hpb', Hpend. intros [Hu|Hu]%elem_of_app; [by left|right; by apply Hfresh].
Qed.

Lemma append_refines l ext h b f source :
  refines l ext h b f ->
  exists h' b', cbuf_step (OpAppend source) (b, h) = (fst (fifo_step l (OpAppend source) f), (b', h')) /\
    refines l ext h' b' (snd (fifo_step l (OpAppend source) f)) /\ moved h b h' b'.
Proof.
  intros Hrf. pose proof Hrf as [Hh Hr Hp Hc Hl]. simpl.
  unfold bind at 1. unfold ChannelBuffer.append. run (get_buf_run b h).
  rewrite Hc. destruct (f_closed f) eqn:Hcl.
  { exists h, b. simpl. split_and!; [done|done|by eapply moved_refl]. }
  rewrite (re_queued _ _ _ Hr). rewrite Hl. simpl.
  destruct (len (f_bytes f) + len source >? max_bytes b) eqn:Hmax.
  { exists h, b. rewrite <- Hl. simpl. split_and!; [done|done|by eapply moved_refl]. }
  b2p. rewrite <- Hl.
  destruct (append_loop_spec source (length source) h b ext 0 Hh) as
    (h1 & vs & ds & E & Hok1 & Hc1 & Hcat & Hnd & Hfresh & Hgrow & Hfr);
    [apply (co_seg _ (re_cfg _ _ _ Hr))|split; [lia|apply len_nonneg]|unfold len; lia|].
  cbv zeta. run E. rewrite from_0 in Hcat.
  destruct (adopt_refines l ext h b f h1 vs ds source Hrf) as (b' & E' & Hrf' & Hmv); try done.
  rewrite E'. destruct (after_growth _ _ _) as [t f'] eqn:Hag. simpl in *. by exists h1, b'.
Qed.

(** [append_view] of a live view is [append] of its bytes; of any other it raises. *)
Lemma vbytes_none_released h ext v x :
  heap_ok h ext -> views h !! v = Some x -> vbytes h v = None -> v_released x = true.
Proof.
  intros Hok Hx Hn. destruct (v_released x) eqn:E; [done|]. exfalso.
  destruct (ho_views _ _ Hok v x Hx E) as (y & Hy & _). unfold vbytes in Hn. by rewrite Hx, E, Hy in Hn.
Qed.

Lemma view_slice_all h ext v d :
  heap_ok h ext -> vbytes h v = Some d ->
  exists h', BufferView.slice_ v 0 (-1) h = (Ok (length (views h)), h') /\ heap_ok h' ext /\
    length (views h') = S (length (views h)) /\
    (forall u, vbytes h' u = voverride (vbytes h) (length (views h)) (Some d) u).
Proof.
  intros Hok Hv. pose proof (len_nonneg d). destruct (view_slice_spec h ext v d 0 (len d) Hok Hv) as (h' & E & H1 & H2 & H3); [lia|lia|lia|].
  exists h'. rewrite Z.add_0_l, slice_all in H3. split_and!; try done. rewrite <- E.
  destruct (heap_live h ext v d Hok Hv) as (w & x & Hw & Hr & _ & _ & _ & Hl & _).
  unfold BufferView.slice_, bind, get_view. rewrite Hw, Hr, Hl. cbv zeta. change (-1 <? 0) with true. cbv iota.
  rewrite Z.sub_0_r. by zdec.
Qed.

(** A released view is refused, and nothing changes. *)
Lemma append_view_dead b h ext v :
  heap_ok h ext -> vbytes h v = None ->
  exists e, ChannelBuffer.append_view v (b, h) = (Raise e, (b, h)).
Proof.
  intros Hok Hv. unfold ChannelBuffer.append_view. run (get_buf_run b h).
  destruct (closed b); [by eexists|].
  assert (exists e, BufferView.slice_ v 0 (-1) h = (Raise e, h)) as [e He].
  { unfold BufferView.slice_, bind, get_view. destruct (views h !! v) as [w|] eqn:Hw; [|by eexists].
    rewrite (vbytes_none_released h ext v w Hok Hw Hv). by eexists. }
  assert (exists r, BufferView.len_ v h = (r, h)) as [[n|e'] Hn].
  { unfold BufferView.len_, bind, get_view. destruct (views h !! v) as [w|]; by eexists. }
  - hrun Hn. destruct (_ >? _); [by eexists|]. exists e. apply bind_raise. by apply on_heap_run.
  - exists e'. apply bind_raise. by apply on_heap_run.
Qed.

Lemma append_view_refines l ext h b f v d :
  refines l ext h b f -> vbytes h v = Some d ->
  exists h' b', ChannelBuffer.append_view v (b, h) =
      (match fifo_step l (OpAppend d) f with
       | (Ok (OutTransition t), _) => Ok t | (Ok _, _) => Ok 0 | (Raise e, _) => Raise e end, (b', h')) /\
    refines l ext h' b' (snd (fifo_step l (OpAppend d) f)) /\ moved h b h' b'.
Proof.
  intros Hrf Hv. pose proof Hrf as [Hh Hr Hp Hc Hl]. simpl.
  unfold ChannelBuffer.append_view. run (get_buf_run b h).
  rewrite Hc. destruct (f_closed f) eqn:Hcl.
  { exists h, b. simpl. split_and!; [done|done|by eapply moved_refl]. }
  hrun (view_len_spec h ext v d Hh Hv). rewrite (re_queued _ _ _ Hr). rewrite Hl. simpl.
  destruct (len (f_bytes f) + len d >? max_bytes b) eqn:Hmax.
  { exists h, b. rewrite <- Hl. simpl. split_and!; [done|done|by eapply moved_refl]. }
  b2p. rewrite <- Hl.
  destruct (view_slice_all h ext v d Hh Hv) as (h1 & E1 & Hok1 & Hl1 & Hb1). hrun E1.
  run (upd_buf_run (fun b => set_cviews (cviews b ++ [length (views h)]) b) b h1).
  destruct (adopt_refines l ext h b f h1 [length (views h)] [d] d Hrf) as (b' & E' & Hrf' & Hmv); try done.
  - constructor; [|constructor]. rewrite Hb1. unfold voverride. by rewrite Nat.eqb_refl.
  - apply app_nil_r.
  - apply NoDup_singleton.
  - intros u ->%list_elem_of_singleton. done.
  - lia.
  - intros u Hu. rewrite Hb1. unfold voverride. destruct (Nat.eqb_spec u (length (views h))) as [->|]; [|done].
    by destruct Hu; apply list_elem_of_singleton.
  - rewrite E'. destruct (after_growth _ _ _) as [t f'] eqn:Hag. simpl in *. by exists h1, b'.
Qed.

Lemma repr_ext h h' b c :
  (forall u, u ∈ pending b -> vbytes h' u = vbytes h u) -> repr h b c -> repr h' b c.
Proof. intros H [? ? ? ? ? ?]. split; [done|done|by eapply stores_ext|done..]. Qed.

Lemma consume_refines l ext h b f n :
  refines l ext h b f ->
  exists h' b', cbuf_step (OpConsume n) (b, h) = (fst (fifo_step l (OpConsume n) f), (b', h')) /\
    refines l ext h' b' (snd (fifo_step l (OpConsume n) f)) /\ moved h b h' b'.
Proof.
  intros Hrf. pose proof Hrf as [Hh Hr Hp Hc Hl]. simpl.
  unfold bind at 1. unfold ChannelBuffer.consume. run (get_buf_run b h).
  rewrite (re_queued _ _ _ Hr).
  destruct ((n <? 0) || (n >? len (f_bytes f))) eqn:Hn.
  { exists h, b. simpl. split_and!; [done|done|by eapply moved_refl]. }
  b2p. destruct (re_stores _ _ _ Hr) as [Hnd (ds & Hck & Hoff & Hfb)].
  destruct (consume_loop_spec (S (length (cviews b))) h b ext ds n Hh Hck Hnd (re_head _ _ _ Hr) Hoff)
    as (h1 & hd & off & ds1 & E & Hok1 & Hc1 & Hhd1 & Hoff1 & Hfrom & Hl1 & Hfr & Hdead).
  { rewrite <- Hfb. lia. }
  { unfold pending, from. rewrite length_drop. lia. }
  run E. run (upd_buf_run (fun b0 => set_queued (queued_bytes b0 - n) b0) (set_head hd off b) h1).
  set (b1 := set_queued (queued_bytes (set_head hd off b) - n) (set_head hd off b)).
  set (compact := fun b0 => if (head b0 >? 32) && (head b0 * 2 >=? len (cviews b0))
    then set_head 0 (head_offset b0) (set_cviews (from (cviews b0) (head b0)) b0) else b0).
  run (upd_buf_run compact b1 h1).
  assert (NoDup (from (cviews b) hd) /\ forall u, u ∈ from (cviews b) hd -> u ∈ pending b) as [Hnd1 Hsub].
  { assert (pending b = upto (pending b) (hd - head b) ++ from (cviews b) hd) as Hsplit.
    { replace (from (cviews b) hd) with (from (pending b) (hd - head b)).
      - by rewrite upto_from.
      - pose proof (re_head _ _ _ Hr). unfold pending. rewrite from_from by lia. f_equal. lia. }
    rewrite Hsplit in Hnd. apply NoDup_app in Hnd as (_ & _ & ?). split; [done|].
    intros u Hu. rewrite Hsplit. apply elem_of_app. by right. }
  assert (pending (compact b1) = from (cviews b) hd /\ head_offset (compact b1) = off /\
          0 <= head (compact b1) <= len (cviews (compact b1)) /\
          queued_bytes (compact b1) = queued_bytes b - n /\
          backpressured (compact b1) = backpressured b /\ closed (compact b1) = closed b /\
          low_watermark (compact b1) = low_watermark b /\
          high_watermark (compact b1) = high_watermark b /\
          max_bytes (compact b1) = max_bytes b /\ segment_size (compact b1) = segment_size b)
    as (Hpend & Hho & Hhd2 & Hq & Hbp & Hcl & Hlo & Hhi & Hmx & Hsg).
  { pose proof (re_head _ _ _ Hr). unfold compact.
    destruct (_ && _); simpl; split_and!; done || lia || apply len_nonneg. }
  destruct (refines_drain l ext h1 (compact b1) f (from (f_bytes f) n)) as (b2 & E2 & Hrf2 & Hpb2).
  { split; simpl; [done| |by rewrite Hbp|by rewrite Hcl|by rewrite Hlo, Hhi, Hmx].
    destruct (re_cfg _ _ _ Hr). split; [split; lia|done| | | |].
    - rewrite Hpend, Hho. split; [done|]. exists ds1. split_and!; [done|lia|lia|].
      by rewrite Hfrom, <- Hfb.
    - rewrite Hq, (re_queued _ _ _ Hr), len_from by lia. lia.
    - rewrite Hmx, len_from by lia. pose proof (re_max _ _ _ Hr). lia.
    - rewrite Hcl, Hpend. intros Hcd. destruct (re_closed _ _ _ Hr Hcd) as [Hnil Hpn].
      rewrite Hnil. split; [unfold from; by rewrite drop_nil|].
      destruct (from (cviews b) hd) as [|u vs]; [done|]. exfalso.
      assert (u ∈ pending b) as Hin by (apply Hsub; by left). rewrite Hpn in Hin.
      by apply not_elem_of_nil in Hin. }
  rewrite E2. destruct (after_drain _ _ _) as [t f'] eqn:Hag. simpl in *.
  exists h1, b2. split_and!; [done|done|]. split.
  - intros u. rewrite Hpb2, Hpend. intros Hu. destruct (bool_decide_reflect (u ∈ pending b)).
    + by apply Hdead.
    + by apply Hfr.
  - intros u. rewrite Hpb2, Hpend. intros Hu. left. by apply Hsub.
  - lia.
Qed.

Lemma moved_trans_same h h1 b h2 b2 :
  (forall u, vbytes h1 u = vbytes h u) -> (length (views h) <= length (views h1))%nat ->
  moved h1 b h2 b2 -> moved h b h2 b2.
Proof.
  intros Hb Hl [Hf Hfr Hg]. split; [|intros u Hu; destruct (Hfr u Hu); [by left|right; lia]|lia].
  intros u Hu. rewrite Hf by done. by rewrite Hb.
Qed.

Lemma refines_ext l ext h h' b f :
  (forall u, u ∈ pending b -> vbytes h' u = vbytes h u) -> heap_ok h' ext ->
  refines l ext h b f -> refines l ext h' b f.
Proof. intros H Hok [? ? ? ? ?]. split; [done|by eapply repr_ext|done..]. Qed.

Lemma read_refines l ext h b f limit :
  refines l ext h b f ->
  exists h' b', cbuf_step (OpRead limit) (b, h) = (fst (fifo_step l (OpRead limit) f), (b', h')) /\
    refines l ext h' b' (snd (fifo_step l (OpRead limit) f)) /\ moved h b h' b'.
Proof.
  intros Hrf. pose proof Hrf as [Hh Hr Hp Hc Hl]. unfold cbuf_step.
  unfold bind at 1. unfold ChannelBuffer.read. run (get_buf_run b h).
  rewrite (re_queued _ _ _ Hr). cbv zeta. unfold fifo_step. pose proof (len_nonneg (f_bytes f)) as Hnn.
  set (n := if (limit <? 0) || (limit >? len (f_bytes f)) then len (f_bytes f) else limit).
  assert (0 <= n <= len (f_bytes f)) as Hn.
  { unfold n. destruct ((limit <? 0) || (limit >? len (f_bytes f))) eqn:E; b2p; lia. }
  destruct (re_stores _ _ _ Hr) as [Hnd (ds & Hck & Hoff & Hfb)].
  destruct (peek_loop_spec (pending b) h ext ds (head_offset b) n Hh Hck Hoff) as
    (h1 & ws & es & E1 & Hok1 & Hc1 & Hcat & Hndw & Hfresh & Hg1 & Hfr1);
    [lia|rewrite <- Hfb; lia|].
  assert (ChannelBuffer.peek_views n (b, h) = (Ok ws, (b, h1))) as E1'.
  { unfold ChannelBuffer.peek_views. run (get_buf_run b h). apply on_heap_run.
    rewrite (re_queued _ _ _ Hr). fold (pending b). cbv zeta.
    destruct ((n >=? 0) && (n <? len (f_bytes f))) eqn:Eb; [done|].
    replace (len (f_bytes f)) with n; [done|].
    apply andb_false_iff in Eb as [Eb|Eb]; b2p; lia. }
  run E1'.
  destruct (read_loop_spec ws h1 ext es [] Hok1 Hc1 Hndw) as (h2 & E2 & Hok2 & Hl2 & Hfr2 & Hdead2).
  hrun E2.
  assert (forall u, vbytes h2 u = vbytes h u) as Hsame.
  { intros u. destruct (decide (u ∈ ws)) as [Hin|Hni].
    - rewrite Hdead2 by done. symmetry. apply vbytes_fresh. by apply Hfresh.
    - rewrite Hfr2, Hfr1 by done. done. }
  destruct (consume_refines l ext h2 b f n) as (h3 & b3 & E3 & Hrf3 & Hmv3).
  { eapply refines_ext; [|done|done]. intros u _. apply Hsame. }
  exists h3, b3. simpl in E3, Hrf3.
  assert ((n <? 0) || (n >? len (f_bytes f)) = false) as Hguard by (zdec; done).
  rewrite Hguard in E3, Hrf3.
  destruct (ChannelBuffer.consume n (b, h2)) as [[t|e] [b4 h4]] eqn:E4;
    unfold bind in E3; rewrite E4 in E3; [|by destruct (after_drain _ _ _)].
  run E4. destruct (after_drain l (from (f_bytes f) n) f) as [t' f'] eqn:Hag. simpl in *.
  unfold ret in *. simplify_eq. rewrite Hcat, <- Hfb. split_and!; [done|done|].
  eapply moved_trans_same; [done|lia|done].
Qed.

Lemma close_refines l ext h b f :
  refines l ext h b f ->
  exists h' b', cbuf_step OpClose (b, h) = (fst (fifo_step l OpClose f), (b', h')) /\
    refines l ext h' b' (snd (fifo_step l OpClose f)) /\ moved h b h' b'.
Proof.
  intros Hrf. pose proof Hrf as [Hh Hr Hp Hc Hl]. simpl.
  unfold bind at 1. unfold ChannelBuffer.close. run (get_buf_run b h).
  rewrite Hc. destruct (f_closed f) eqn:Hcl.
  { exists h, b. simpl. split_and!; [done|done|by eapply moved_refl]. }
  destruct (re_stores _ _ _ Hr) as [Hnd (ds & Hck & Hoff & Hfb)].
  destruct (close_loop_spec (pending b) h ext ds 0 Hh Hck Hnd) as (h1 & E & Hok1 & Hl1 & Hfr & Hdead).
  unfold pending at 1 in E. hrun E. simpl. eexists h1, _. split; [done|]. split.
  - split; simpl; [done| |done..]. destruct (re_cfg _ _ _ Hr).
    split; simpl; [by split|done| |done|unfold len; simpl; lia|done].
    split; [constructor|]. exists []. split_and!; [constructor|done|done|done].
  - split; simpl; [|intros u Hu; by apply not_elem_of_nil in Hu|lia].
    intros u _. destruct (bool_decide_reflect (u ∈ pending b)); [by apply Hdead|by apply Hfr].
Qed.

Lemma step_refines l ext h b f o :
  refines l ext h b f ->
  exists h' b', cbuf_step o (b, h) = (fst (fifo_step l o f), (b', h')) /\
    refines l ext h' b' (snd (fifo_step l o f)) /\ moved h b h' b'.
Proof.
  destruct o; [apply append_refines|apply consume_refines|apply read_refines|apply close_refines].
Qed.

(** Runs a sequence of calls, going on after a call that raised. *)
Fixpoint run_cbuf (ops : list op) (s : cbuf * heap) : list (result output) * (cbuf * heap) :=
  match ops with
  | [] => ([], s)
  | o :: ops' =>
      let '(r, s1) := cbuf_step o s in
      let '(rs, s2) := run_cbuf ops' s1 in (r :: rs, s2)
  end.
Fixpoint run_fifo (l : limits) (ops : list op) (f : fifo) : list (result output) * fifo :=
  match ops with
  | [] => ([], f)
  | o :: ops' =>
      let '(r, f1) := fifo_step l o f in
      let '(rs, f2) := run_fifo l ops' f1 in (r :: rs, f2)
  end.

Lemma run_refines l ext ops : forall h b f,
  refines l ext h b f ->
  exists h' b', run_cbuf ops (b, h) = (fst (run_fifo l ops f), (b', h')) /\
    refines l ext h' b' (snd (run_fifo l ops f)) /\
    (forall u, u ∉ pending b -> (u < length (views h))%nat ->
       (u ∉ pending b') /\ vbytes h' u = vbytes h u) /\
    (forall u, u ∉ pending b' -> (u ∈ pending b \/ (length (views h) <= u)%nat) -> vbytes h' u = None) /\
    (length (views h) <= length (views h'))%nat.
Proof.
  induction ops as [|o ops IH]; intros h b f Hrf; simpl.
  { exists h, b. split_and!; [done|done|done| |done].
    intros u Hu [?|Hge]; [done|by apply vbytes_fresh]. }
  destruct (step_refines l ext h b f o Hrf) as (h1 & b1 & E1 & Hrf1 & [Hf1 Hn1 Hg1]).
  rewrite E1. destruct (fifo_step l o f) as [r f1] eqn:Ef. simpl in *.
  destruct (IH h1 b1 f1 Hrf1) as (h2 & b2 & E2 & Hrf2 & Ho2 & Hd2 & Hg2).
  rewrite E2. destruct (run_fifo l ops f1) as [rs f2] eqn:Er. simpl in *.
  exists h2, b2. split_and!; [done|done| | |lia].
  - intros u Hu Hlt. assert (u ∉ pending b1) as Hu1.
    { intros Hin. destruct (Hn1 u Hin); [done|lia]. }
    destruct (Ho2 u Hu1) as [? ->]; [lia|]. split; [done|].
    rewrite Hf1, bool_decide_eq_false_2 by done. done.
  - intros u Hu2 Hor. destruct (decide (u ∈ pending b1)) as [|Hu1]; [by apply Hd2; auto|].
    destruct (decide (u < length (views h1))%nat); [|apply Hd2; [done|right; lia]].
    destruct (Ho2 u Hu1) as [? ->]; [done|]. rewrite Hf1 by done.
    destruct (bool_decide_reflect (u ∈ pending b)); [done|].
    destruct Hor; [done|by apply vbytes_fresh].
Qed.

Lemma init_refines seg low high max b h ext :
  heap_ok h ext -> ChannelBuffer.init seg low high max = Ok b ->
  refines (Limits low high max) ext h b (Fifo [] false false) /\ pending b = [].
Proof.
  intros Hok. unfold ChannelBuffer.init.
  destruct (Z.leb_spec seg 0); [done|].
  destruct ((low <? 0) || (high <=? low)) eqn:E1; [done|]. b2p.
  destruct (Z.ltb_spec max high); [done|]. intros [= <-]. split; [|done].
  split; simpl; [done| |done..].
  split; simpl; [by split|done| |done|unfold len; simpl; lia|done].
  split; [constructor|]. exists []. split_and!; [constructor|done|done|done].
Qed.

(** ** Properties *)

(** C15: a channel buffer refines a byte FIFO.  Whatever sequence of [append],
    [consume], [read] and [close] calls is made on a fresh buffer, over a store
    shared with other owners, every call returns exactly what the FIFO
    specification returns (bytes, watermark transitions and exceptions alike)
    and no view that existed before is touched. *)
Theorem channel_buffer_refines_fifo h ext seg low high max b ops :
  heap_ok h ext -> ChannelBuffer.init seg low high max = Ok b ->
  fst (run_cbuf ops (b, h)) = fst (run_fifo (Limits low high max) ops (Fifo [] false false)) /\
  (forall u, (u < length (views h))%nat -> vbytes (snd (snd (run_cbuf ops (b, h)))) u = vbytes h u).
Proof.
  intros Hok Hi. destruct (init_refines _ _ _ _ _ h ext Hok Hi) as [Hrf Hp].
  destruct (run_refines _ ext ops h b _ Hrf) as (h' & b' & E & _ & Ho & _).
  rewrite E. split; [done|]. intros u Hu. apply Ho; [|done]. rewrite Hp. apply not_elem_of_nil.
Qed.

Lemma channel_buffer_refines_fifo_witness :
  fst (run_cbuf [OpAppend (py "hello"); OpRead 2; OpAppend (py "!"); OpConsume 9; OpRead (-1); OpClose; OpAppend []]
        (CBuf 4 1 5 20 [] 0 0 0 false false, Heap [] [])) =
  [Ok (OutTransition 1); Ok (OutBytes (py "he")); Ok (OutTransition 0);
   Raise (ValueError (py "consume length exceeds queued bytes"));
   Ok (OutBytes (py "llo!")); Ok OutUnit;
   Raise (BufferClosedError (py "cannot append to a closed channel buffer"))].
Proof.
  destruct (channel_buffer_refines_fifo (Heap [] []) (fun _ => 0) 4 1 5 20
    (CBuf 4 1 5 20 [] 0 0 0 false false)
    [OpAppend (py "hello"); OpRead 2; OpAppend (py "!"); OpConsume 9; OpRead (-1); OpClose; OpAppend []]
    heap_ok_empty eq_refl) as [-> _].
  vm_compute. reflexivity.
Defined.

(** Closing leaves nothing behind.  After any sequence of calls that ends
    with [close], on a store of its own, every storage segment the buffer
    allocated has been released. *)
Theorem channel_buffer_close_releases_all seg low high max b ops s x :
  ChannelBuffer.init seg low high max = Ok b ->
  segs (snd (snd (run_cbuf (ops ++ [OpClose]) (b, Heap [] [])))) !! s = Some x ->
  seg_released x = true /\ references x = 0.
Proof.
  intros Hi. destruct (init_refines _ _ _ _ _ (Heap [] []) (fun _ => 0) heap_ok_empty Hi) as [Hrf Hp].
  destruct (run_refines _ _ (ops ++ [OpClose]) _ _ _ Hrf) as (h' & b' & E & Hrf' & _ & Hd & _).
  rewrite E. simpl. intros Hx.
  assert (f_closed (snd (run_fifo (Limits low high max) (ops ++ [OpClose]) (Fifo [] false false))) = true) as Hcl.
  { clear. generalize (Fifo [] false false). induction ops as [|o ops IH]; intros f; simpl.
    - by destruct (f_closed f) eqn:E.
    - destruct (fifo_step _ o f) as [r f1]. specialize (IH f1).
      by destruct (run_fifo _ (ops ++ _) f1). }
  destruct (re_closed _ _ _ (rf_repr _ _ _ _ _ Hrf')) as [_ Hnil].
  { by rewrite (rf_closed _ _ _ _ _ Hrf'). }
  assert (live_count h' s = 0) as Hl.
  { apply count_zero. intros i w Hw. unfold live_on. destruct (v_released w) eqn:Hr; [done|]. simpl.
    destruct (ho_views _ _ (rf_heap _ _ _ _ _ Hrf') i w Hw Hr) as (y & Hy & _).
    assert (vbytes h' i = None) as Hn.
    { apply Hd; [rewrite Hnil; apply not_elem_of_nil|right; simpl; lia]. }
    unfold vbytes in Hn. by rewrite Hw, Hr, Hy in Hn. }
  destruct (ho_segs _ _ (rf_heap _ _ _ _ _ Hrf') s x Hx) as [_ Hlive Hdead].
  destruct (seg_released x) eqn:Hr; [by destruct (Hdead eq_refl) as (_ & _ & -> & _)|].
  destruct (Hlive eq_refl) as (? & ? & _). lia.
Qed.

Lemma channel_buffer_close_releases_all_witness :
  let s := snd (snd (run_cbuf ([OpAppend (py "hello"); OpRead 2] ++ [OpClose])
                   (CBuf 4 1 5 20 [] 0 0 0 false false, Heap [] []))) in
  length (segs s) = 2%nat /\
  match segs s !! 1%nat with Some x => seg_released x = true /\ references x = 0 | None => False end.
Proof.
  cbv zeta. split; [vm_compute; reflexivity|].
  destruct (segs _ !! 1%nat) as [x|] eqn:E; [|vm_compute in E; discriminate E].
  exact (channel_buffer_close_releases_all 4 1 5 20 (CBuf 4 1 5 20 [] 0 0 0 false false)
    [OpAppend (py "hello"); OpRead 2] 1 x eq_refl E).
Defined.

(** The hysteresis of the watermarks. *)
Record watermarked (l : limits) (c : bytes) (paused : bool) : Prop := {
  wm_max : len c <= l_max l;
  wm_high : l_high l <= len c -> paused = true;
  wm_low : paused = true -> l_low l < len c;
}.

Lemma after_growth_watermarked l c f :
  l_low l < l_high l -> len c <= l_max l -> (f_paused f = true -> l_low l < len c) ->
  let f' := snd (after_growth l c f) in watermarked l (f_bytes f') (f_paused f').
Proof.
  intros Hlh Hm Hlo. unfold after_growth. destruct (f_paused f) eqn:Hp; simpl.
  - split; auto.
  - destruct (Z.geb_spec (len c) (l_high l)); simpl; split; simpl; try done; intros; lia || congruence.
Qed.

Lemma after_drain_watermarked l c f :
  len c <= l_max l -> (l_high l <= len c -> f_paused f = true) -> l_low l < l_high l ->
  let f' := snd (after_drain l c f) in watermarked l (f_bytes f') (f_paused f').
Proof.
  intros Hm Hh Hlh. unfold after_drain. destruct (f_paused f) eqn:Hp; simpl.
  - destruct (Z.leb_spec (len c) (l_low l)); simpl; split; simpl; try done; intros; lia || congruence.
  - split; simpl; congruence || auto.
Qed.

Lemma fifo_step_watermarked l o f :
  0 <= l_low l -> l_low l < l_high l -> l_high l <= l_max l ->
  watermarked l (f_bytes f) (f_paused f) ->
  let f' := snd (fifo_step l o f) in watermarked l (f_bytes f') (f_paused f').
Proof.
  intros H0 Hlh Hhm [Hm Hh Hlo]. pose proof (len_nonneg (f_bytes f)) as Hnn.
  assert (forall n, 0 <= n -> let f' := snd (after_drain l (from (f_bytes f) n) f) in
            watermarked l (f_bytes f') (f_paused f')) as Hdrain.
  { intros n Hn. apply after_drain_watermarked; [rewrite len_from by lia; lia| |done].
    rewrite len_from by lia. intros. apply Hh. lia. }
  destruct o as [source|n|limit|]; simpl.
  - destruct (f_closed f); [done|]. destruct (Z.gtb_spec (len (f_bytes f) + len source) (l_max l)); [done|].
    pose proof (after_growth_watermarked l (f_bytes f ++ source) f Hlh) as Hg.
    destruct (after_growth _ _ _). apply Hg; rewrite len_app; [lia|].
    pose proof (len_nonneg source). intros Hp. specialize (Hlo Hp). lia.
  - destruct ((n <? 0) || (n >? len (f_bytes f))) eqn:E; [done|]. b2p.
    specialize (Hdrain n). destruct (after_drain _ _ _). by apply Hdrain.
  - destruct ((limit <? 0) || (limit >? len (f_bytes f))) eqn:E; [by apply Hdrain|]. b2p.
    by apply Hdrain.
  - destruct (f_closed f); [done|]. split; simpl; unfold len; simpl; [lia|lia|done].
Qed.

(** Bounded memory and hysteresis.  After any sequence of calls on a fresh
    buffer, the queued byte count is exact and never above [max_bytes];
    at or above the high mark the buffer is backpressured, and while it is
    backpressured it stays above the low mark. *)
Theorem channel_buffer_watermarks seg low high max b ops :
  ChannelBuffer.init seg low high max = Ok b ->
  let b' := fst (snd (run_cbuf ops (b, Heap [] []))) in
  0 <= queued_bytes b' <= max /\
  (high <= queued_bytes b' -> backpressured b' = true) /\
  (backpressured b' = true -> low < queued_bytes b').
Proof.
  intros Hi. destruct (init_refines _ _ _ _ _ (Heap [] []) (fun _ => 0) heap_ok_empty Hi) as [Hrf _].
  assert (0 <= low /\ low < high /\ high <= max) as (H0 & Hlh & Hhm).
  { destruct (rf_repr _ _ _ _ _ Hrf) as [[]]. pose proof (rf_limits _ _ _ _ _ Hrf). by simplify_eq. }
  destruct (run_refines _ _ ops _ _ _ Hrf) as (h' & b' & E & Hrf' & _). rewrite E. simpl.
  assert (forall f, watermarked (Limits low high max) (f_bytes f) (f_paused f) ->
    let f' := snd (run_fifo (Limits low high max) ops f) in
    watermarked (Limits low high max) (f_bytes f') (f_paused f')) as Hrun.
  { clear -H0 Hlh Hhm. induction ops as [|o ops IH]; intros f Hf; simpl; [done|].
    pose proof (fifo_step_watermarked (Limits low high max) o f H0 Hlh Hhm Hf) as Hs.
    destruct (fifo_step _ o f) as [r f1]. specialize (IH f1 Hs).
    by destruct (run_fifo _ ops f1). }
  destruct (Hrun (Fifo [] false false)) as [Hm Hh Hlo].
  { split; simpl; unfold len; simpl; [lia|lia|done]. }
  rewrite (re_queued _ _ _ (rf_repr _ _ _ _ _ Hrf')), (rf_paused _ _ _ _ _ Hrf').
  split; [|done]. split; [apply len_nonneg|done].
Qed.

Lemma channel_buffer_watermarks_witness :
  let b' := fst (snd (run_cbuf [OpAppend (py "hello"); OpRead 2; OpAppend (py "!")]
                        (CBuf 4 1 4 20 [] 0 0 0 false false, Heap [] []))) in
  queued_bytes b' = 4 /\ backpressured b' = true /\ 1 < queued_bytes b'.
Proof.
  destruct (channel_buffer_watermarks 4 1 4 20 (CBuf 4 1 4 20 [] 0 0 0 false false)
    [OpAppend (py "hello"); OpRead 2; OpAppend (py "!")] eq_refl) as (_ & Hh & Hlo).
  cbv zeta. assert (queued_bytes (fst (snd (run_cbuf [OpAppend (py "hello"); OpRead 2; OpAppend (py "!")]
                        (CBuf 4 1 4 20 [] 0 0 0 false false, Heap [] [])))) = 4) as E
    by (vm_compute; reflexivity).
  split; [exact E|]. assert (backpressured (fst (snd (run_cbuf [OpAppend (py "hello"); OpRead 2; OpAppend (py "!")]
                        (CBuf 4 1 4 20 [] 0 0 0 false false, Heap [] [])))) = true) as Hb
    by (apply Hh; rewrite E; lia).
  split; [exact Hb|exact (Hlo Hb)].
Defined.
