(* ===== verification/Http1.v ===== *)
(** * The HTTP/1 server codec and response encoder ([pcc_gateway/http1.py])

    Definitions only; the theorems are in [Http1Spec].  The request decoder is a state
    machine over a byte buffer; one iteration of its [while True] loop is
    [Http1ServerCodec.step].  Body chunks are views on the store of [Buffer]. *)

From S2P Require Import Prelude PyStr Buffer.
#[local] Open Scope Z_scope.

Definition CR : Z := 13.
Definition LF : Z := 10.
Definition CRLF : bytes := [CR; LF].
Definition CRLF2 : bytes := [CR; LF; CR; LF].

(** ** Events *)

Record request_head := RequestHead {
  method : str;
  target : str;
  version : str;
  headers : list (str * str);
  keep_alive : bool;
  expect_continue : bool;
  content_length : Z;
  chunked : bool;
}.

(** The lookup both [RequestHead.header] and the other head classes use: the
    first header whose (lower-case) name is the wanted one. *)
Fixpoint find_header (wanted : str) (hs : list (str * str)) : option str :=
  match hs with
  | [] => None
  | (key, value) :: hs' => if str_eqb key wanted then Some value else find_header wanted hs'
  end.
Definition RequestHead_header (r : request_head) (name : str) (default : option str) : option str :=
  match find_header (lower name) (headers r) with
  | Some v => Some v
  | None => default
  end.

Record body_chunk := BodyChunk { bc_view : nat; bc_released : bool }.

Module BodyChunk.

(** The branch of the constructor that is given [bytes]. *)
Definition init (data : bytes) : M heap body_chunk :=
  let! segment := BufferSegment.init (if len data >? 0 then len data else 1) in
  let! _ := BufferSegment.write segment data 0 (-1) in
  let! v := BufferSegment_view segment 0 (len data) in
  let! _ := BufferSegment.release segment in
  ret (BodyChunk v false).

(** The branch that is given a view. *)
Definition of_view (v : nat) : body_chunk := BodyChunk v false.

Definition data (c : body_chunk) : M heap bytes := BufferView.to_bytes (bc_view c).

Definition release (c : body_chunk) : M heap (Z * body_chunk) :=
  if bc_released c then ret (0, c)
  else
    let! n := BufferView.release (bc_view c) in
    ret (n, BodyChunk (bc_view c) true).

End BodyChunk.

(** What the decoder emits; [B] is the representation of a body chunk. *)
Inductive event (B : Type) : Type :=
| EHead (h : request_head)
| EBody (b : B)
| EEnd (trailers : list (str * str)).
Arguments EHead {B} h.
Arguments EBody {B} b.
Arguments EEnd {B} trailers.

(** ** Byte classes *)

Definition is_tchar (value : Z) : bool :=
  ((48 <=? value) && (value <=? 57)) || ((65 <=? value) && (value <=? 90))
  || ((97 <=? value) && (value <=? 122))
  || ((value =? 33) || ((35 <=? value) && (value <=? 39)) || ((42 <=? value) && (value <=? 43))
      || ((45 <=? value) && (value <=? 46)) || ((94 <=? value) && (value <=? 96))
      || (value =? 124) || (value =? 126)).
Definition is_token (data : bytes) : bool :=
  if len data =? 0 then false else forallb is_tchar data.

Definition bad_value_byte (value : Z) : bool :=
  (value =? 0) || (value =? 10) || (value =? 13) || (value =? 127)
  || ((value <? 32) && negb (value =? 9)).
Definition contains_bad_value_byte (data : bytes) : bool := existsb bad_value_byte data.

(** The index of the first match of a fixed byte sequence, as both scanning loops compute it. *)
Fixpoint find_seq (p : bytes) (data : bytes) : Z :=
  match data with
  | [] => -1
  | _ :: data' =>
      if starts_with p data then 0
      else let r := find_seq p data' in if r <? 0 then -1 else 1 + r
  end.
Definition find_double_crlf (data : bytes) : Z := find_seq CRLF2 data.
Definition find_crlf (data : bytes) : Z := find_seq CRLF data.

Definition split_commas (value : str) : list str :=
  filter (fun t => t <> []) (map (fun item => lower (strip item)) (split_char 44 value)).

(** ** The chunk-size line *)

Definition qdtext (c : Z) : bool :=
  (c =? 9) || (c =? 32) || (c =? 33) || ((35 <=? c) && (c <=? 91))
  || ((93 <=? c) && (c <=? 126)) || (c >=? 128).
Definition quotable (c : Z) : bool :=
  (c =? 9) || (c =? 32) || ((33 <=? c) && (c <=? 126)) || (c >=? 128).
Fixpoint quoted_inner (value : bytes) : bool :=
  match value with
  | [] => true
  | current :: rest =>
      if current =? 92 then
        match rest with
        | [] => false
        | escaped :: rest' => quotable escaped && quoted_inner rest'
        end
      else qdtext current && quoted_inner rest
  end.
Definition quoted_chunk_extension_value (value : bytes) : bool :=
  if (len value <? 2) || negb (at_is value 0 34) || negb (at_is value (len value - 1) 34)
  then false
  else quoted_inner (slice value 1 (len value - 1)).

Definition hex_digit (current : Z) : option Z :=
  if (48 <=? current) && (current <=? 57) then Some (current - 48)
  else if (65 <=? current) && (current <=? 70) then Some (current - 55)
  else if (97 <=? current) && (current <=? 102) then Some (current - 87)
  else None.
Fixpoint hex_value (size : Z) (ds : bytes) : result Z :=
  match ds with
  | [] => Ok size
  | current :: ds' =>
      match hex_digit current with
      | Some digit => hex_value (size * 16 + digit) ds'
      | None => Raise (Http1Error 400 (py "bad-chunk-size") (py "non-hex chunk size"))
      end
  end.

(** The longest prefix satisfying [p], and the rest. *)
Fixpoint span (p : Z -> bool) (l : bytes) : bytes * bytes :=
  match l with
  | [] => ([], [])
  | c :: l' => if p c then let '(a, b) := span p l' in (c :: a, b) else ([], l)
  end.
(** The inner loop over a quoted value, after its opening quote: what it
    passes over (with the closing quote, if there is one), and the rest. *)
Fixpoint scan_quoted (escaped : bool) (l : bytes) : bytes * bytes :=
  match l with
  | [] => ([], [])
  | current :: l' =>
      if escaped then let '(a, b) := scan_quoted false l' in (current :: a, b)
      else if current =? 92 then let '(a, b) := scan_quoted true l' in (current :: a, b)
      else if current =? 34 then ([current], l')
      else let '(a, b) := scan_quoted false l' in (current :: a, b)
  end.

Definition bad_extension {A} (m : str) : result A :=
  Raise (Http1Error 400 (py "bad-chunk-extension") m).

(** The second loop of [_parse_chunk_size_line]; [line] is what is left from [index]. *)
Fixpoint parse_extensions (fuel : nat) (line : bytes) : result unit :=
  match line with
  | [] => Ok tt
  | c :: line =>
      match fuel with
      | O => Raise out_of_fuel
      | S fuel =>
          if negb (c =? 59) then bad_extension (py "invalid chunk extension")
          else
            let '(name, line) := span (fun c => negb ((c =? 59) || (c =? 61))) line in
            if negb (is_token name) then bad_extension (py "invalid chunk extension name")
            else
              match line with
              | [] => Ok tt
              | c :: line' =>
                  if c =? 59 then parse_extensions fuel line
                  else
                    match line' with
                    | [] => bad_extension (py "empty chunk extension value")
                    | q :: after =>
                        if q =? 34 then
                          let '(value, rest) := scan_quoted false after in
                          if negb (quoted_chunk_extension_value (q :: value))
                          then bad_extension (py "invalid quoted chunk extension value")
                          else if (len rest >? 0) && negb (at_is rest 0 59)
                          then bad_extension (py "bytes follow quoted chunk extension value")
                          else parse_extensions fuel rest
                        else
                          let '(value, rest) := span (fun c => negb (c =? 59)) line' in
                          if negb (is_token value)
                          then bad_extension (py "invalid chunk extension value")
                          else parse_extensions fuel rest
                    end
              end
      end
  end.

Definition parse_chunk_size_line (line : bytes) : result Z :=
  let semicolon := find_char 59 line in
  let size_end := if semicolon <? 0 then len line else semicolon in
  if (size_end =? 0) || (size_end >? 16)
  then Raise (Http1Error 400 (py "bad-chunk-size") (py "invalid chunk size"))
  else
    let? size := hex_value 0 (upto line size_end) in
    let? _ := parse_extensions (length line) (from line size_end) in
    Ok size.

(** ** Header text *)

(** [chr] of each byte: the code points are the byte values. *)
Definition latin1_text (data : bytes) : str := data.
Definition latin1_bytes (text : str) : result bytes :=
  if existsb (fun value => value >? 255) text
  then Raise (Http1Error 500 (py "bad-header") (py "header value is outside Latin-1"))
  else Ok text.

Definition is_sp_tab (c : Z) : bool := (c =? 32) || (c =? 9).

(** The loop of [_parse_headers]; [names] maps a name to its values in order. *)
Fixpoint parse_headers_go (max_count : Z) (headers : list (str * str))
    (names : gmap (list Z) (list str)) (lines : list bytes)
    : result (list (str * str) * gmap (list Z) (list str)) :=
  match lines with
  | [] => Ok (headers, names)
  | line :: lines' =>
      if len line =? 0 then parse_headers_go max_count headers names lines'
      else if at_is line 0 32 || at_is line 0 9
      then Raise (Http1Error 400 (py "obs-fold") (py "folded header lines are rejected"))
      else
        let colon := find_char 58 line in
        if colon <=? 0
        then Raise (Http1Error 400 (py "bad-header") (py "header is missing a field name"))
        else
          let name_bytes := upto line colon in
          let value_bytes := from line (colon + 1) in
          if negb (is_token name_bytes)
          then Raise (Http1Error 400 (py "bad-header-name") (py "invalid header field name"))
          else if contains_bad_value_byte value_bytes
          then Raise (Http1Error 400 (py "bad-header-value") (py "invalid header field value"))
          else if len headers >=? max_count
          then Raise (Http1Error 431 (py "too-many-headers") (py "header count limit exceeded"))
          else
            let? decoded := utf8_decode name_bytes in
            let name := lower decoded in
            let value := strip_by is_sp_tab (latin1_text value_bytes) in
            parse_headers_go max_count (headers ++ [(name, value)])
              (<[name := default [] (names !! name) ++ [value]]> names) lines'
  end.
Definition parse_headers (lines : list bytes) (max_count : Z) :=
  parse_headers_go max_count [] ∅ lines.

(** ** The request decoder *)

Inductive codec_state := HEAD | FIXED_BODY | CHUNK_SIZE | CHUNK_DATA | TRAILERS.
#[global] Instance codec_state_eq_dec : EqDecision codec_state.
Proof. solve_decision. Defined.

Record codec := Codec {
  max_request_line : Z;
  max_header_bytes : Z;
  max_header_count : Z;
  max_body_bytes : Z;
  max_chunk_bytes : Z;
  buffer : bytes;
  state : codec_state;
  remaining : Z;
  body_received : Z;
  codec_closed : bool;
}.

Definition set_buffer (b : bytes) (c : codec) : codec :=
  Codec (max_request_line c) (max_header_bytes c) (max_header_count c) (max_body_bytes c)
        (max_chunk_bytes c) b (state c) (remaining c) (body_received c) (codec_closed c).
Definition set_state (s : codec_state) (c : codec) : codec :=
  Codec (max_request_line c) (max_header_bytes c) (max_header_count c) (max_body_bytes c)
        (max_chunk_bytes c) (buffer c) s (remaining c) (body_received c) (codec_closed c).
Definition set_remaining (n : Z) (c : codec) : codec :=
  Codec (max_request_line c) (max_header_bytes c) (max_header_count c) (max_body_bytes c)
        (max_chunk_bytes c) (buffer c) (state c) n (body_received c) (codec_closed c).
Definition set_body_received (n : Z) (c : codec) : codec :=
  Codec (max_request_line c) (max_header_bytes c) (max_header_count c) (max_body_bytes c)
        (max_chunk_bytes c) (buffer c) (state c) (remaining c) n (codec_closed c).
Definition set_codec_closed (b : bool) (c : codec) : codec :=
  Codec (max_request_line c) (max_header_bytes c) (max_header_count c) (max_body_bytes c)
        (max_chunk_bytes c) (buffer c) (state c) (remaining c) (body_received c) b.

(** What an iteration of the loop ends with: [break], or another iteration;
    [MessageDone] is the end of a message, after which the message budget decides. *)
Inductive flow := Break | Continue | MessageDone.

Module Http1ServerCodec.

Definition init (max_request_line max_header_bytes max_header_count max_body_bytes
    max_chunk_bytes : Z) : result codec :=
  if (max_request_line <=? 0) || (max_header_bytes <=? 0)
  then Raise (ValueError (py "HTTP line/header limits must be positive"))
  else Ok (Codec max_request_line max_header_bytes max_header_count max_body_bytes
                 max_chunk_bytes [] HEAD 0 0 false).

Definition reset_message (c : codec) : codec :=
  set_body_received 0 (set_remaining 0 (set_state HEAD c)).

Definition bad_request {A} (status : Z) (code message : str) : result A :=
  Raise (Http1Error status code message).

(** The request line: method, target and version bytes. *)
Definition parse_request_line (max_request_line : Z) (lines : list bytes)
    : result (bytes * bytes * bytes) :=
  match lines with
  | [] => bad_request 400 (py "empty-request-line") (py "request line is empty")
  | request_line :: _ =>
      if len request_line =? 0
      then bad_request 400 (py "empty-request-line") (py "request line is empty")
      else if len request_line >? max_request_line
      then bad_request 414 (py "request-line-too-long") (py "request line limit exceeded")
      else
        match char_in 9 request_line, split_char 32 request_line with
        | false, [method_bytes; target_bytes; version_bytes] =>
            if negb (is_token method_bytes)
            then bad_request 400 (py "bad-method") (py "invalid HTTP method")
            else if len target_bytes =? 0
            then bad_request 400 (py "bad-target") (py "empty request target")
            else if negb (at_is target_bytes 0 47)
            then bad_request 400 (py "unsupported-target-form")
                   (py "gateway requires an origin-form request target")
            else if existsb (fun value => (value <=? 32) || (value =? 127)) target_bytes
            then bad_request 400 (py "bad-target") (py "invalid request target byte")
            else if negb (str_eqb version_bytes (py "HTTP/1.1"))
                    && negb (str_eqb version_bytes (py "HTTP/1.0"))
            then bad_request 505 (py "bad-version") (py "unsupported HTTP version")
            else Ok (method_bytes, target_bytes, version_bytes)
        | _, _ => bad_request 400 (py "bad-request-line") (py "invalid request-line spacing")
        end
  end.

(** The [Host] requirements. *)
Definition check_host (version_bytes : bytes) (names : gmap (list Z) (list str)) : result unit :=
  let hosts := names !! py "host" in
  if str_eqb version_bytes (py "HTTP/1.1") && bool_decide (hosts = None)
  then bad_request 400 (py "missing-host") (py "HTTP/1.1 requires Host")
  else match hosts with
       | Some hs => if negb (len hs =? 1)
                    then bad_request 400 (py "duplicate-host") (py "multiple Host fields rejected")
                    else Ok tt
       | None => Ok tt
       end.

(** [Content-Length]: -1 when absent. *)
Definition parse_content_length (max_body_bytes : Z) (names : gmap (list Z) (list str)) : result Z :=
  match names !! py "content-length" with
  | None => Ok (-1)
  | Some values =>
      match values with
      | [raw_length] =>
          if char_in 44 raw_length
          then bad_request 400 (py "ambiguous-length") (py "multiple Content-Length values rejected")
          else if len raw_length =? 0
          then bad_request 400 (py "bad-content-length") (py "empty Content-Length")
          else if existsb (fun c => (c <? 48) || (c >? 57)) raw_length
          then bad_request 400 (py "bad-content-length") (py "non-decimal Content-Length")
          else
            let? content_length := int_of_digits raw_length in
            if content_length >? max_body_bytes
            then bad_request 413 (py "body-too-large") (py "request body limit exceeded")
            else Ok content_length
      | _ => bad_request 400 (py "ambiguous-length") (py "multiple Content-Length values rejected")
      end
  end.

(** The comma-separated tokens of all the fields of one name, in order. *)
Definition tokens_of (values : list str) : list str := concat (map split_commas values).

(** [Transfer-Encoding] *)
Definition parse_transfer_encoding (content_length : Z) (names : gmap (list Z) (list str)) : result bool :=
  match names !! py "transfer-encoding" with
  | None => Ok false
  | Some values =>
      if content_length >=? 0
      then bad_request 400 (py "ambiguous-framing") (py "Transfer-Encoding with Content-Length rejected")
      else if negb (bool_decide (tokens_of values = [py "chunked"]))
      then bad_request 501 (py "unsupported-transfer-coding") (py "only a final chunked coding is supported")
      else Ok true
  end.

Definition parse_keep_alive (version : str) (names : gmap (list Z) (list str)) : bool :=
  let connection_tokens := tokens_of (default [] (names !! py "connection")) in
  if str_in (py "close") connection_tokens then false
  else if str_eqb version (py "HTTP/1.0") && str_in (py "keep-alive") connection_tokens then true
  else str_eqb version (py "HTTP/1.1").

Definition parse_expect (names : gmap (list Z) (list str)) : result bool :=
  match names !! py "expect" with
  | None => Ok false
  | Some values =>
      if negb (bool_decide (tokens_of values = [py "100-continue"]))
      then bad_request 417 (py "unsupported-expectation") (py "unsupported Expect value")
      else Ok true
  end.

(** The parsing of a head block, without the change of state. *)
Definition parse_head_event (c : codec) (block : bytes) : result request_head :=
  let lines := split_str CRLF block in
  let? (method_bytes, target_bytes, version_bytes) := parse_request_line (max_request_line c) lines in
  let? (headers, names) := parse_headers (tail lines) (max_header_count c) in
  let? _ := check_host version_bytes names in
  let? content_length := parse_content_length (max_body_bytes c) names in
  let? chunked := parse_transfer_encoding content_length names in
  let? version := utf8_decode version_bytes in
  let keep_alive := parse_keep_alive version names in
  let? expect_continue := parse_expect names in
  let? method := utf8_decode method_bytes in
  Ok (RequestHead method (latin1_text target_bytes) version headers keep_alive expect_continue
        (if chunked || (content_length >=? 0) then content_length else 0) chunked).

Definition parse_head (block : bytes) : M codec (request_head * bool) :=
  let! c := get in
  let! event := lift (parse_head_event c block) in
  (if chunked event then modify (set_state CHUNK_SIZE)
   else if content_length event >? 0
   then modify (set_state FIXED_BODY) ;;! modify (set_remaining (content_length event))
   else modify reset_message) ;;!
  ret (event, chunked event || (content_length event >? 0)).

(** One iteration of [while True] in each state: the events it appends and how it ends. *)
Abbreviation iteration := (M codec (list (event bytes) * flow)).

Definition step_head : iteration :=
  let! c := get in
  let marker := find_double_crlf (buffer c) in
  if marker <? 0 then
    if len (buffer c) >? max_header_bytes c
    then raise (Http1Error 431 (py "headers-too-large") (py "header byte limit exceeded"))
    else
      let line_end := find_crlf (buffer c) in
      if (line_end <? 0) && (len (buffer c) >? max_request_line c)
      then raise (Http1Error 414 (py "request-line-too-long") (py "request line limit exceeded"))
      else ret ([], Break)
  else if marker + 4 >? max_header_bytes c
  then raise (Http1Error 431 (py "headers-too-large") (py "header byte limit exceeded"))
  else
    let block := upto (buffer c) marker in
    modify (set_buffer (from (buffer c) (marker + 4))) ;;!
    let! (head, has_body) := parse_head block in
    if has_body then ret ([EHead head], Continue)
    else ret ([EHead head; EEnd []], MessageDone).

Definition step_fixed_body : iteration :=
  let! c := get in
  if len (buffer c) =? 0 then ret ([], Break)
  else
    let take := if remaining c >? len (buffer c) then len (buffer c) else remaining c in
    let chunk := upto (buffer c) take in
    modify (set_buffer (from (buffer c) take)) ;;!
    modify (fun c => set_remaining (remaining c - take) c) ;;!
    modify (fun c => set_body_received (body_received c + take) c) ;;!
    let evs := if take >? 0 then [EBody chunk] else [] in
    let! c := get in
    if remaining c =? 0 then
      modify reset_message ;;!
      ret (evs ++ [EEnd []], MessageDone)
    else ret (evs, Break).

Definition step_chunk_size : iteration :=
  let! c := get in
  let marker := find_crlf (buffer c) in
  if marker <? 0 then
    if len (buffer c) >? 128
    then raise (Http1Error 400 (py "chunk-line-too-long") (py "chunk-size line limit exceeded"))
    else ret ([], Break)
  else if marker >? 128
  then raise (Http1Error 400 (py "chunk-line-too-long") (py "chunk-size line limit exceeded"))
  else
    let raw_line := upto (buffer c) marker in
    modify (set_buffer (from (buffer c) (marker + 2))) ;;!
    let! size := lift (parse_chunk_size_line raw_line) in
    if size >? max_chunk_bytes c
    then raise (Http1Error 413 (py "chunk-too-large") (py "chunk size limit exceeded"))
    else if body_received c + size >? max_body_bytes c
    then raise (Http1Error 413 (py "body-too-large") (py "request body limit exceeded"))
    else if size =? 0 then modify (set_state TRAILERS) ;;! ret ([], Continue)
    else
      modify (set_remaining size) ;;!
      modify (set_state CHUNK_DATA) ;;!
      ret ([], Continue).

Definition step_chunk_data : iteration :=
  let! c := get in
  if len (buffer c) <? remaining c + 2 then ret ([], Break)
  else if negb (at_is (buffer c) (remaining c) 13) || negb (at_is (buffer c) (remaining c + 1) 10)
  then raise (Http1Error 400 (py "bad-chunk-ending") (py "chunk data missing CRLF"))
  else
    let chunk := upto (buffer c) (remaining c) in
    modify (set_buffer (from (buffer c) (remaining c + 2))) ;;!
    modify (set_body_received (body_received c + remaining c)) ;;!
    modify (set_remaining 0) ;;!
    modify (set_state CHUNK_SIZE) ;;!
    ret ([EBody chunk], Continue).

Definition forbidden_trailers : list str :=
  [py "content-length"; py "transfer-encoding"; py "host"].

Definition step_trailers : iteration :=
  let! c := get in
  if (len (buffer c) >=? 2) && at_is (buffer c) 0 13 && at_is (buffer c) 1 10 then
    modify (set_buffer (from (buffer c) 2)) ;;!
    modify reset_message ;;!
    ret ([EEnd []], MessageDone)
  else
    let marker := find_double_crlf (buffer c) in
    if marker <? 0 then
      if len (buffer c) >? max_header_bytes c
      then raise (Http1Error 431 (py "trailers-too-large") (py "trailer byte limit exceeded"))
      else ret ([], Break)
    else if marker + 4 >? max_header_bytes c
    then raise (Http1Error 431 (py "trailers-too-large") (py "trailer byte limit exceeded"))
    else
      let block := upto (buffer c) marker in
      modify (set_buffer (from (buffer c) (marker + 4))) ;;!
      let! (trailers, names) := lift (parse_headers (split_str CRLF block) (max_header_count c)) in
      if existsb (fun forbidden => bool_decide (is_Some (names !! forbidden))) forbidden_trailers
      then raise (Http1Error 400 (py "forbidden-trailer") (py "framing or routing field in trailers"))
      else
        modify reset_message ;;!
        ret ([EEnd trailers], MessageDone).

Definition step : iteration :=
  let! c := get in
  match state c with
  | HEAD => step_head
  | FIXED_BODY => step_fixed_body
  | CHUNK_SIZE => step_chunk_size
  | CHUNK_DATA => step_chunk_data
  | TRAILERS => step_trailers
  end.

(** [feed] runs over the decoder, the list [events] it appends to, and the store. *)
Definition feed_state : Type := codec * list (event body_chunk) * heap.
Definition on_codec {A} (m : M codec A) : M feed_state A :=
  zoom (fun t => fst (fst t)) (fun c t => (c, snd (fst t), snd t)) m.
Definition in_heap {A} (m : M heap A) : M feed_state A :=
  zoom snd (fun h t => (fst t, h)) m.

(** [events.append(...)]: a body chunk is copied into a segment of its own. *)
Definition append_event (e : event bytes) : M feed_state unit :=
  let! e' := match e with
             | EHead h => ret (EHead h)
             | EBody chunk => let! b := in_heap (BodyChunk.init chunk) in ret (EBody b)
             | EEnd t => ret (EEnd t)
             end in
  modify (fun t => (fst (fst t), snd (fst t) ++ [e'], snd t)).
Fixpoint append_events (es : list (event bytes)) : M feed_state unit :=
  match es with
  | [] => ret tt
  | e :: es' => append_event e ;;! append_events es'
  end.

Fixpoint feed_loop (fuel : nat) (max_messages completed_messages : Z) : M feed_state unit :=
  match fuel with
  | O => raise out_of_fuel
  | S fuel' =>
      let! (es, f) := on_codec step in
      append_events es ;;!
      match f with
      | Break => ret tt
      | Continue => feed_loop fuel' max_messages completed_messages
      | MessageDone =>
          let completed_messages := completed_messages + 1 in
          if (max_messages >? 0) && (completed_messages >=? max_messages) then ret tt
          else feed_loop fuel' max_messages completed_messages
      end
  end.

(** An iteration that does not end the loop removes at least one byte. *)
Definition feed_fuel (c : codec) : nat := S (length (buffer c)).

Definition feed_pending (data : bytes) (max_messages : Z) : M feed_state unit :=
  let! c := on_codec get in
  if max_messages <? 0 then raise (ValueError (py "max_messages must be non-negative"))
  else if codec_closed c
  then raise (Http1Error 400 (py "connection-closed") (py "bytes received after close"))
  else
    on_codec (modify (set_buffer (buffer c ++ data))) ;;!
    let! c := on_codec get in
    feed_loop (feed_fuel c) max_messages 0.

(** [for event in events: if isinstance(event, BodyChunk) and not event.released: event.release()] *)
Fixpoint release_events (es : list (event body_chunk)) : M heap unit :=
  match es with
  | [] => ret tt
  | EBody b :: es' =>
      (if bc_released b then ret tt else let! _ := BodyChunk.release b in ret tt) ;;!
      release_events es'
  | _ :: es' => release_events es'
  end.

Definition feed (data : bytes) (max_messages : Z) : M (codec * heap) (list (event body_chunk)) :=
  fun t =>
    let m :=
      try_except (feed_pending data max_messages)
        (fun e => if is_Http1Error e
                  then let! t := get in in_heap (release_events (snd (fst t))) ;;! raise e
                  else raise e) in
    match m (fst t, [], snd t) with
    | (Ok _, (c, events, h)) => (Ok events, (c, h))
    | (Raise e, (c, _, h)) => (Raise e, (c, h))
    end.

Definition eof : M codec str :=
  modify (set_codec_closed true) ;;!
  let! c := get in
  if negb (bool_decide (state c = HEAD)) || negb (len (buffer c) =? 0)
  then raise (Http1Error 400 (py "incomplete-request") (py "connection closed during request"))
  else ret (py "eof").

End Http1ServerCodec.

(** ** The response encoder *)

Definition REASONS : list (Z * str) :=
  [(100, py "Continue"); (200, py "OK"); (201, py "Created"); (204, py "No Content");
   (301, py "Moved Permanently"); (302, py "Found"); (304, py "Not Modified");
   (400, py "Bad Request"); (404, py "Not Found"); (405, py "Method Not Allowed");
   (413, py "Content Too Large"); (417, py "Expectation Failed");
   (431, py "Request Header Fields Too Large"); (500, py "Internal Server Error");
   (502, py "Bad Gateway"); (503, py "Service Unavailable"); (504, py "Gateway Timeout")].
Definition reason_of (status : Z) : str :=
  match list_find (fun p => fst p = status) REASONS with
  | Some (_, (_, r)) => r
  | None => []
  end.

Definition validate_output_header (name value : str) : result unit :=
  match utf8_encode name with
  | Raise UnicodeError =>
      Raise (Http1Error 500 (py "bad-response-header") (py "response header encoding rejected"))
  | Raise e => Raise e
  | Ok name_bytes =>
      let? value_bytes := latin1_bytes value in
      if negb (is_token name_bytes) || contains_bad_value_byte value_bytes
      then Raise (Http1Error 500 (py "bad-response-header") (py "unsafe response header rejected"))
      else Ok tt
  end.

Module Http1ResponseEncoder.

(** One [name: value] line of the output, refused when its name is gateway-owned. *)
Definition encode_field (owned : list str) (refused : exn) (name value : str) : result bytes :=
  let? _ := validate_output_header name value in
  if str_in (lower name) owned then Raise refused
  else
    let? name_bytes := utf8_encode name in
    let? value_bytes := latin1_bytes value in
    Ok (name_bytes ++ py ": " ++ value_bytes ++ CRLF).
Fixpoint encode_fields (owned : list str) (refused : exn) (hs : list (str * str)) : result bytes :=
  match hs with
  | [] => Ok []
  | (name, value) :: hs' =>
      let? line := encode_field owned refused name value in
      let? rest := encode_fields owned refused hs' in
      Ok (line ++ rest)
  end.

Definition framing_owned : list str := [py "content-length"; py "transfer-encoding"; py "connection"].
Definition framing_refused : exn :=
  Http1Error 500 (py "response-framing-owned")
    (py "response framing headers belong to the gateway encoder").

Definition head (status : Z) (headers : list (str * str)) (content_length : Z)
    (chunked keep_alive : bool) : result bytes :=
  if (content_length >=? 0) && chunked
  then Raise (ValueError (py "response cannot be both fixed-length and chunked"))
  else
    let reason := reason_of status in
    let? start := utf8_encode (py "HTTP/1.1 " ++ str_of_int status ++ py " " ++ reason ++ CRLF) in
    let? fields := encode_fields framing_owned framing_refused headers in
    let? length_line :=
      if content_length >=? 0
      then utf8_encode (py "Content-Length: " ++ str_of_int content_length ++ CRLF)
      else Ok [] in
    Ok (start ++ fields ++ length_line
          ++ (if chunked then py "Transfer-Encoding: chunked" ++ CRLF else [])
          ++ (if keep_alive then [] else py "Connection: close" ++ CRLF)
          ++ CRLF).

Definition chunk (data : bytes) : result bytes :=
  if len data =? 0 then Ok []
  else
    let? size := utf8_encode (hex_of_int (len data)) in
    Ok (size ++ CRLF ++ data ++ CRLF).

Definition trailer_owned : list str :=
  [py "content-length"; py "transfer-encoding"; py "connection"; py "host"].
Definition trailer_refused : exn :=
  Http1Error 500 (py "bad-response-trailer") (py "framing field in response trailer").

Definition end_chunks (trailers : list (str * str)) : result bytes :=
  let? fields := encode_fields trailer_owned trailer_refused trailers in
  Ok ([48] ++ CRLF ++ fields ++ CRLF).

End Http1ResponseEncoder.

(** ** Small runs *)

Definition default_codec : codec := Codec 8192 32768 100 16777216 1048576 [] HEAD 0 0 false.

Example ex_chunk_line :
  parse_chunk_size_line (py "1aF;a=b;c=" ++ [34] ++ py "x;\y" ++ [34]) = Ok 431.
Proof. vm_compute. reflexivity. Qed.

Example ex_feed :
  (fst (Http1ServerCodec.feed
         (py "POST /a HTTP/1.1" ++ CRLF ++ py "Host: x" ++ CRLF ++ py "Content-Length: 3" ++ CRLF2
            ++ py "abcGET / HTTP/1.0" ++ CRLF2) 0 (default_codec, Heap [] []))) =
  Ok [EHead (RequestHead (py "POST") (py "/a") (py "HTTP/1.1")
               [(py "host", py "x"); (py "content-length", py "3")] true false 3 false);
      EBody (BodyChunk 0 false); EEnd [];
      EHead (RequestHead (py "GET") (py "/") (py "HTTP/1.0") [] false false 0 false); EEnd []].
Proof. vm_compute. reflexivity. Qed.
