(* ===== verification/PyStrFacts.v ===== *)
(** * Lemmas on the string operations of [PyStr]

    What the components' proofs share about prefixes, searching, splitting, joining and
    digits. *)

From S2P Require Import Prelude PyStr Http1.
#[local] Open Scope Z_scope.

(** ** Prefixes and searching *)

Lemma starts_with_app p d k : starts_with p d = true -> starts_with p (d ++ k) = true.
Proof.
  revert d. induction p as [|a p IH]; intros [|b d]; simpl; try done.
  intros H. b2p. rewrite IH by done. by rewrite Z.eqb_refl || (apply andb_true_iff; split; [by apply Z.eqb_eq|]).
Qed.

Lemma starts_with_false_app p d k :
  starts_with p d = false -> len p <= len d -> starts_with p (d ++ k) = false.
Proof.
  revert d. induction p as [|a p IH]; intros [|b d]; simpl; try done.
  intros H Hl. lens. destruct (a =? b); simpl in *; [|done]. apply IH; [done|lia].
Qed.

Lemma starts_with_len p d : starts_with p d = true -> len p <= len d.
Proof.
  revert d. induction p as [|a p IH]; intros [|b d]; simpl; try done.
  intros H. lens. b2p. specialize (IH d ltac:(done)). lia.
Qed.

Lemma find_seq_range p d : -1 <= find_seq p d.
Proof.
  induction d as [|a d IH]; simpl; [lia|]. destruct (starts_with p (a :: d)); [lia|].
  destruct (Z.ltb_spec (find_seq p d) 0); lia.
Qed.

Lemma find_seq_bound p d : 0 <= find_seq p d -> find_seq p d + len p <= len d.
Proof.
  induction d as [|a d IH]; simpl; [lia|].
  destruct (starts_with p (a :: d)) eqn:E; [intros _; by apply starts_with_len in E|].
  rewrite len_cons. destruct (Z.ltb_spec (find_seq p d) 0); lia.
Qed.

Lemma find_seq_app p d k :
  0 <= find_seq p d -> find_seq p (d ++ k) = find_seq p d.
Proof.
  induction d as [|a d IH]; simpl; [lia|].
  destruct (starts_with p (a :: d)) eqn:E.
  { intros _. pose proof (starts_with_app _ _ k E) as E'. simpl in E'. by rewrite E'. }
  destruct (Z.ltb_spec (find_seq p d) 0); [lia|]. intros _.
  pose proof (find_seq_bound p d ltac:(lia)).
  pose proof (starts_with_false_app _ _ k E ltac:(rewrite len_cons; lia)) as E'. simpl in E'.
  rewrite E', IH by lia. by destruct (Z.ltb_spec (find_seq p d) 0); [lia|].
Qed.

(** ** ASCII text is its own UTF-8 *)

Definition is_ascii (s : list Z) : Prop := Forall (fun c => 0 <= c < 128) s.

Lemma utf8_decode_ascii s : is_ascii s -> utf8_decode s = Ok s.
Proof.
  intros H. unfold utf8_decode. induction H as [|c s Hc H IH]; [done|].
  simpl. zdec. simpl. by rewrite drop_0, IH.
Qed.

Lemma utf8_encode_ascii s : is_ascii s -> utf8_encode s = Ok s.
Proof.
  intros H. induction H as [|c s Hc H IH]; [done|]. simpl. unfold utf8_encode_char. zdec.
  simpl. by rewrite IH.
Qed.

Lemma encode_below_ok n s : Forall (fun c => c < n) s -> encode_below n s = Ok s.
Proof.
  intros H. unfold encode_below. assert (forallb (fun c => c <? n) s = true) as ->; [|done].
  apply forallb_forall. intros x Hx%list_elem_of_In. rewrite Forall_forall in H.
  apply Z.ltb_lt. by apply H.
Qed.

Lemma encode_below_inv n s r : encode_below n s = Ok r -> r = s /\ Forall (fun c => c < n) s.
Proof.
  unfold encode_below. destruct (forallb _ s) eqn:E; [|done]. intros [= ->]. split; [done|].
  apply Forall_forall. intros x Hx. rewrite forallb_forall in E.
  apply Z.ltb_lt, E. by apply list_elem_of_In.
Qed.

(** ** Tokens *)

Lemma is_tchar_range c : is_tchar c = true -> 33 <= c <= 126.
Proof. unfold is_tchar. rewrite !orb_true_iff, !andb_true_iff, !Z.leb_le, !Z.eqb_eq. lia. Qed.

Lemma is_token_inv d : is_token d = true -> d <> [] /\ Forall (fun c => is_tchar c = true) d.
Proof.
  unfold is_token. destruct (Z.eqb_spec (len d) 0); [done|]. intros H. split; [by intros ->|].
  apply Forall_forall. intros x Hx. rewrite forallb_forall in H. apply H. by apply list_elem_of_In.
Qed.

Lemma is_token_intro d : d <> [] -> Forall (fun c => is_tchar c = true) d -> is_token d = true.
Proof.
  unfold is_token. intros Hne H. destruct (Z.eqb_spec (len d) 0) as [E|]; [by apply len_zero_nil in E|].
  apply forallb_forall. intros x Hx%list_elem_of_In. rewrite Forall_forall in H. auto.
Qed.

Lemma is_token_ascii d : is_token d = true -> is_ascii d.
Proof.
  intros [_ H]%is_token_inv. eapply Forall_impl; [exact H|]. intros c Hc%is_tchar_range. lia.
Qed.

(** ** Digits *)

Lemma decimal_go_nonneg s n :
  0 <= n -> Forall (fun c => 48 <= c) s -> n <= fold_left (fun acc c => acc * 10 + (c - 48)) s n.
Proof.
  intros Hn H. revert n Hn. induction H as [|c s Hc H IH]; intros n Hn; simpl; [lia|].
  specialize (IH (n * 10 + (c - 48)) ltac:(lia)). lia.
Qed.

Lemma decimal_value_nonneg s : Forall (fun c => 48 <= c) s -> 0 <= decimal_value s.
Proof. intros. by apply decimal_go_nonneg. Qed.

Lemma existsb_false_Forall {A} (p : A -> bool) (P : A -> Prop) l :
  (forall x, p x = false -> P x) -> existsb p l = false -> Forall P l.
Proof.
  intros Hp. induction l as [|x l IH]; simpl; [constructor|].
  intros [H1 H2]%orb_false_iff. constructor; auto.
Qed.

Lemma hex_value_nonneg ds : forall n r, 0 <= n -> hex_value n ds = Ok r -> 0 <= r.
Proof.
  induction ds as [|d ds IH]; intros n r Hn; simpl; [by intros [= <-]|].
  unfold hex_digit. intros H.
  destruct ((48 <=? d) && (d <=? 57)) eqn:E1; [b2p; eapply IH; [|exact H]; lia|].
  destruct ((65 <=? d) && (d <=? 70)) eqn:E2; [b2p; eapply IH; [|exact H]; lia|].
  destruct ((97 <=? d) && (d <=? 102)) eqn:E3; [b2p; eapply IH; [|exact H]; lia|done].
Qed.

(** ** Stripping *)

Lemma lstrip_by_none p s : Forall (fun c => p c = false) s -> lstrip_by p s = s.
Proof. destruct s as [|c s]; [done|]. intros [Hc _]%Forall_cons. cbn [lstrip_by]. by rewrite Hc. Qed.

Lemma strip_by_none p s : Forall (fun c => p c = false) s -> strip_by p s = s.
Proof.
  intros H. unfold strip_by, rstrip_by. rewrite (lstrip_by_none p s) by done.
  rewrite lstrip_by_none; [apply rev_involutive|]. apply Forall_forall. intros x Hx.
  rewrite Forall_forall in H. apply H. by rewrite list_elem_of_In, in_rev, <- list_elem_of_In.
Qed.

(** ** Lower case *)

Lemma lower_char_cases c :
  lower_char c = c \/ (65 <= c <= 90 \/ 192 <= c <= 222) /\ lower_char c = c + 32 \/
  lower_char c = 255 \/ lower_char c = 223 \/ c = 8490 /\ lower_char c = 107 \/ lower_char c = 229.
Proof.
  unfold lower_char. destruct (_ || _ || _) eqn:E.
  - right; left. rewrite !orb_true_iff, !andb_true_iff, !Z.leb_le in E. lia.
  - repeat case_match; b2p; subst; tauto.
Qed.

Lemma lower_char_idem c : lower_char (lower_char c) = lower_char c.
Proof.
  destruct (lower_char_cases c) as [H|[[H ->]|[->|[->|[[_ ->]| ->]]]]]; [by rewrite !H| |done..].
  unfold lower_char. destruct (_ || _ || _) eqn:E.
  - rewrite !orb_true_iff, !andb_true_iff, !Z.leb_le in E. lia.
  - zdec. repeat case_match; b2p; lia.
Qed.

Lemma lower_fixed s : Forall (fun c => lower_char c = c) s -> lower s = s.
Proof. induction 1 as [|c s Hc H IH]; [done|]. cbn. unfold lower in IH. by rewrite Hc, IH. Qed.
