(* ===== verification/Http1Parse.v ===== *)
(** * What the parsers of the decoder accept and raise

    The exceptions each parser can raise (no loop runs out of its bound), and what an
    accepted chunk-size line, header block or request head satisfies. *)

From S2P Require Import Prelude PyStr Buffer Http1 PyStrFacts.
#[local] Open Scope Z_scope.
Import Http1ServerCodec.

Definition digits_error : exn := ValueError (py "Exceeds the limit for integer string conversion").
(** What the decoder raises: a protocol error, or [int]'s refusal of a huge literal. *)
Definition decoder_exn (e : exn) : Prop := is_Http1Error e = true \/ e = digits_error.

(** ** The chunk-size line *)

Lemma span_app p l : forall a b, span p l = (a, b) -> l = a ++ b.
Proof.
  induction l as [|c l IH]; intros a b; simpl; [by intros [= <- <-]|].
  destruct (p c); [|by intros [= <- <-]]. destruct (span p l) as [a' b']. intros [= <- <-].
  simpl. f_equal. by apply IH.
Qed.

Lemma span_head p l a c b : span p l = (a, c :: b) -> p c = false.
Proof.
  revert a. induction l as [|d l IH]; intros a; simpl; [done|].
  destruct (p d) eqn:E; [|by intros [= <- <- <-]].
  destruct (span p l) as [a' b'] eqn:Es. intros [= <- ->]. by eapply IH.
Qed.

Lemma scan_quoted_app l : forall e a b, scan_quoted e l = (a, b) -> l = a ++ b.
Proof.
  induction l as [|c l IH]; intros e a b; simpl; [by intros [= <- <-]|].
  assert (forall e', (let '(x, y) := scan_quoted e' l in (c :: x, y)) = (a, b) -> c :: l = a ++ b) as G.
  { intros e'. destruct (scan_quoted e' l) as [x y] eqn:E. intros [= <- <-]. simpl. f_equal. by eapply IH. }
  destruct e; [apply G|]. destruct (c =? 92); [apply G|]. destruct (c =? 34); [by intros [= <- <-]|apply G].
Qed.

#[local] Arguments span : simpl never.

Lemma parse_extensions_raises fuel : forall line e,
  (length line <= fuel)%nat -> parse_extensions fuel line = Raise e -> is_Http1Error e = true.
Proof.
  induction fuel as [|fuel IH]; intros line e Hl.
  { destruct line; simpl in *; [done|lia]. }
  destruct line as [|c line]; [done|]. simpl.
  destruct (negb (c =? 59)); [by intros [= <-]|].
  destruct (span _ line) as [name rest] eqn:Es. apply span_app in Es. subst line.
  destruct (negb (is_token name)); [by intros [= <-]|].
  destruct rest as [|c' rest]; [done|]. simpl in Hl. rewrite length_app in Hl. simpl in Hl.
  destruct (c' =? 59).
  { apply IH. simpl. lia. }
  destruct rest as [|q after]; [by intros [= <-]|]. simpl in Hl.
  destruct (q =? 34).
  - destruct (scan_quoted false after) as [value rest'] eqn:Eq. apply scan_quoted_app in Eq. subst after.
    rewrite length_app in Hl. destruct (negb _); [by intros [= <-]|].
    destruct (_ && _); [by intros [= <-]|]. apply IH. lia.
  - destruct (span (fun c => negb (c =? 59)) (q :: after)) as [value rest'] eqn:Eq.
    apply span_app in Eq.
    destruct (negb _); [by intros [= <-]|]. apply IH.
    apply (f_equal length) in Eq. rewrite length_app in Eq. simpl in Eq. lia.
Qed.

Lemma hex_value_raises ds : forall n e, hex_value n ds = Raise e -> is_Http1Error e = true.
Proof.
  induction ds as [|d ds IH]; intros n e; simpl; [done|].
  destruct (hex_digit d); [apply IH|by intros [= <-]].
Qed.

Lemma find_char_range c s : -1 <= find_char c s < len s \/ (s = [] /\ find_char c s = -1).
Proof.
  induction s as [|x s IH]; simpl; [right; done|left]. lens. pose proof (len_nonneg s).
  destruct (x =? c); [lia|]. destruct IH as [IH|[-> IH]].
  - destruct (Z.ltb_spec (find_char c s) 0); lia.
  - rewrite IH. simpl. lia.
Qed.

Lemma find_char_bound c s : -1 <= find_char c s <= len s.
Proof. destruct (find_char_range c s) as [?|[-> ->]]; lens; lia. Qed.

Lemma parse_chunk_size_line_raises line e :
  parse_chunk_size_line line = Raise e -> is_Http1Error e = true.
Proof.
  unfold parse_chunk_size_line. destruct (_ || _); [by intros [= <-]|].
  destruct (hex_value _ _) as [n|e'] eqn:E1; simpl; [|intros [= <-]; by eapply hex_value_raises].
  destruct (parse_extensions _ _) as [[]|e'] eqn:E2; simpl; [done|]. intros [= <-].
  eapply parse_extensions_raises; [|exact E2]. unfold from. rewrite length_drop. lia.
Qed.

Lemma parse_chunk_size_line_nonneg line n : parse_chunk_size_line line = Ok n -> 0 <= n.
Proof.
  unfold parse_chunk_size_line. destruct (_ || _); [done|].
  destruct (hex_value _ _) as [m|e] eqn:E; simpl; [|done].
  destruct (parse_extensions _ _); simpl; [|done]. intros [= <-].
  eapply hex_value_nonneg; [|exact E]; lia.
Qed.

(** ** Headers *)

(** A parsed header: a lower-case token, and a value that cannot end a line. *)
Definition clean_header (h : str * str) : Prop :=
  (exists n, is_token n = true /\ fst h = lower n) /\ contains_bad_value_byte (snd h) = false.

(** The index of names agrees with the list of headers. *)
Definition values_of (name : str) (hs : list (str * str)) : list str :=
  map snd (List.filter (fun h => str_eqb (fst h) name) hs).
Definition indexes (hs : list (str * str)) (names : gmap (list Z) (list str)) : Prop :=
  forall n, default [] (names !! n) = values_of n hs /\
            (is_Some (names !! n) <-> exists v, (n, v) ∈ hs).

Lemma lstrip_incl p s x : x ∈ lstrip_by p s -> x ∈ s.
Proof.
  induction s as [|c s IH]; simpl; [done|]. destruct (p c); [|done].
  intros H. apply list_elem_of_further. auto.
Qed.

Lemma strip_by_incl p s x : x ∈ strip_by p s -> x ∈ s.
Proof.
  unfold strip_by, rstrip_by. rewrite list_elem_of_In, <- in_rev, <- list_elem_of_In. intros H%lstrip_incl.
  rewrite list_elem_of_In, <- in_rev, <- list_elem_of_In in H. by apply lstrip_incl in H.
Qed.

Lemma existsb_incl {A} (p : A -> bool) l k :
  (forall x, x ∈ k -> x ∈ l) -> existsb p l = false -> existsb p k = false.
Proof.
  intros Hi Hl. apply not_true_iff_false. intros [x [Hx Hp]]%existsb_exists.
  apply not_true_iff_false in Hl. apply Hl. apply existsb_exists. exists x.
  split; [|done]. apply list_elem_of_In, Hi. by apply list_elem_of_In.
Qed.

Lemma values_of_app n hs m v :
  values_of n (hs ++ [(m, v)]) = values_of n hs ++ (if str_eqb m n then [v] else []).
Proof.
  unfold values_of. rewrite List.filter_app, map_app. simpl. by destruct (str_eqb m n).
Qed.

Lemma indexes_insert hs names m v :
  indexes hs names ->
  indexes (hs ++ [(m, v)]) (<[m := default [] (names !! m) ++ [v]]> names).
Proof.
  intros H n. rewrite values_of_app. destruct (H n) as [H1 H2]. unfold str_eqb.
  destruct (decide (m = n)) as [->|Hne].
  - rewrite lookup_insert_eq, bool_decide_eq_true_2 by done. simpl. rewrite H1. split; [done|].
    split; [|by eexists]. intros _. exists v. apply elem_of_app. right. by apply list_elem_of_singleton.
  - rewrite lookup_insert_ne, bool_decide_eq_false_2, app_nil_r by done. split; [done|].
    rewrite H2. split; intros [w Hw]; exists w.
    + apply elem_of_app. by left.
    + apply elem_of_app in Hw as [?|Hw]; [done|]. apply list_elem_of_singleton in Hw. by simplify_eq.
Qed.

Lemma parse_headers_go_spec maxc lines : forall hs names,
  indexes hs names -> Forall clean_header hs -> len hs <= Z.max 0 maxc ->
  match parse_headers_go maxc hs names lines with
  | Ok (hs', names') => indexes hs' names' /\ Forall clean_header hs' /\ len hs' <= Z.max 0 maxc
  | Raise e => is_Http1Error e = true
  end.
Proof.
  induction lines as [|line lines IH]; intros hs names Hi Hc Hn; simpl; [done|].
  destruct (len line =? 0); [by apply IH|]. destruct (_ || _); [done|].
  destruct (_ <=? 0); [done|].
  destruct (is_token _) eqn:Et; simpl; [|done].
  destruct (contains_bad_value_byte _) eqn:Eb; [done|]. destruct (_ >=? _) eqn:El; [done|].
  rewrite utf8_decode_ascii by (by apply is_token_ascii). simpl. b2p. apply IH.
  - by apply indexes_insert.
  - apply Forall_app. split; [done|]. apply Forall_singleton. split; [by eexists|]. simpl.
    eapply existsb_incl; [|exact Eb]. intros x. apply strip_by_incl.
  - lens. lia.
Qed.

Lemma parse_headers_spec maxc lines :
  match parse_headers lines maxc with
  | Ok (hs, names) => indexes hs names /\ Forall clean_header hs /\ len hs <= Z.max 0 maxc
  | Raise e => is_Http1Error e = true
  end.
Proof.
  apply parse_headers_go_spec; [|constructor|lens; lia].
  intros n. rewrite lookup_empty. split; [done|]. split; [by intros []|].
  intros [v Hv]. by apply elem_of_nil in Hv.
Qed.

(** ** The request head *)

Definition safe_target (t : bytes) : Prop :=
  at_is t 0 47 = true /\ Forall (fun c => 32 < c /\ c <> 127) t.

(** How the body of a request is delimited, read off its header list. *)
Inductive framing (max_body : Z) (hs : list (str * str)) : bool -> Z -> Prop :=
| FramingChunked :
    values_of (py "content-length") hs = [] ->
    tokens_of (values_of (py "transfer-encoding") hs) = [py "chunked"] ->
    framing max_body hs true (-1)
| FramingNone :
    (forall v, (py "content-length", v) ∉ hs) -> (forall v, (py "transfer-encoding", v) ∉ hs) ->
    framing max_body hs false 0
| FramingLength raw :
    values_of (py "content-length") hs = [raw] -> (forall v, (py "transfer-encoding", v) ∉ hs) ->
    raw <> [] -> Forall (fun c => 48 <= c <= 57) raw -> len raw <= int_max_str_digits ->
    decimal_value raw <= max_body ->
    framing max_body hs false (decimal_value raw).

Record head_ok (c : codec) (h : request_head) : Prop := {
  ho_method : is_token (method h) = true;
  ho_target : safe_target (target h);
  ho_version : version h = py "HTTP/1.1" \/ version h = py "HTTP/1.0";
  ho_headers : Forall clean_header (headers h);
  ho_count : len (headers h) <= Z.max 0 (max_header_count c);
  ho_host : len (values_of (py "host") (headers h)) <= 1;
  ho_host11 : version h = py "HTTP/1.1" -> exists v, values_of (py "host") (headers h) = [v];
  ho_framing : framing (max_body_bytes c) (headers h) (chunked h) (content_length h);
}.

Lemma parse_request_line_spec maxl lines :
  match parse_request_line maxl lines with
  | Ok (m, t, v) => is_token m = true /\ safe_target t /\
                    (v = py "HTTP/1.1" \/ v = py "HTTP/1.0")
  | Raise e => is_Http1Error e = true
  end.
Proof.
  unfold parse_request_line, bad_request. destruct lines as [|l lines]; [done|].
  destruct (len l =? 0); [done|]. destruct (len l >? maxl); [done|].
  destruct (char_in 9 l); [done|]. destruct (split_char 32 l) as [|m [|t [|v [|]]]]; try done.
  destruct (is_token m) eqn:Em; simpl; [|done]. destruct (len t =? 0); [done|].
  destruct (at_is t 0 47) eqn:Et; simpl; [|done].
  destruct (existsb _ t) eqn:Ex; [done|].
  destruct (str_eqb v (py "HTTP/1.1")) eqn:Ev1; simpl.
  - b2p. split_and!; [done| |by left]. split; [done|].
    eapply existsb_false_Forall; [|exact Ex]. intros x Hx. simpl in Hx. b2p. lia.
  - destruct (str_eqb v (py "HTTP/1.0")) eqn:Ev2; simpl; [|done]. b2p.
    split_and!; [done| |by right]. split; [done|].
    eapply existsb_false_Forall; [|exact Ex]. intros x Hx. simpl in Hx. b2p. lia.
Qed.

Lemma indexes_None hs names n :
  indexes hs names -> names !! n = None -> values_of n hs = [] /\ forall v, (n, v) ∉ hs.
Proof.
  intros H Hn. destruct (H n) as [H1 H2]. rewrite Hn in *. split; [done|].
  intros v Hv. destruct H2 as [_ H2]. destruct H2; [by eexists|done].
Qed.

Lemma indexes_Some hs names n vs :
  indexes hs names -> names !! n = Some vs -> values_of n hs = vs.
Proof. intros H Hn. destruct (H n) as [H1 H2]. by rewrite Hn in *. Qed.

Lemma digits_nonneg raw : Forall (fun c => 48 <= c <= 57) raw -> 0 <= decimal_value raw.
Proof. intros H. apply decimal_value_nonneg. eapply Forall_impl; [exact H|]. simpl. lia. Qed.

Lemma parse_content_length_spec maxb hs names :
  indexes hs names ->
  match parse_content_length maxb names with
  | Ok n => (n = -1 /\ forall v, (py "content-length", v) ∉ hs) \/
            (exists raw, n = decimal_value raw /\ values_of (py "content-length") hs = [raw] /\
               raw <> [] /\ Forall (fun c => 48 <= c <= 57) raw /\
               len raw <= int_max_str_digits /\ n <= maxb)
  | Raise e => decoder_exn e
  end.
Proof.
  intros Hi. unfold parse_content_length, bad_request.
  destruct (names !! py "content-length") as [vs|] eqn:E.
  2:{ left. split; [done|]. by eapply indexes_None. }
  destruct vs as [|raw [|]]; try (by left). destruct (char_in 44 raw); [by left|].
  destruct (Z.eqb_spec (len raw) 0); [by left|]. destruct (existsb _ raw) eqn:Ex; [by left|].
  unfold int_of_digits. destruct (int_max_str_digits <? len raw) eqn:El; simpl; [by right|].
  destruct (decimal_value raw >? maxb) eqn:Em; [by left|]. right. exists raw. b2p. split_and!.
  - done.
  - by eapply indexes_Some.
  - by intros ->.
  - eapply existsb_false_Forall; [|exact Ex]. intros x Hx. simpl in Hx. b2p. lia.
  - done.
  - done.
Qed.

Lemma parse_head_event_spec c block :
  match parse_head_event c block with
  | Ok h => head_ok c h
  | Raise e => decoder_exn e
  end.
Proof.
  unfold parse_head_event. set (lines := split_str CRLF block).
  pose proof (parse_request_line_spec (max_request_line c) lines) as Hr.
  destruct (parse_request_line _ _) as [[[m t] v]|e]; simpl; [|by left]. destruct Hr as (Hm & Ht & Hv).
  pose proof (parse_headers_spec (max_header_count c) (tail lines)) as Hh.
  destruct (parse_headers _ _) as [[hs names]|e]; simpl; [|by left]. destruct Hh as (Hi & Hc & Hn).
  destruct (check_host v names) as [[]|e] eqn:Ehost; simpl.
  2:{ left. revert Ehost. unfold check_host, bad_request. destruct (_ && _); [by intros [= <-]|].
      destruct (names !! _); [|done]. destruct (negb _); [by intros [= <-]|done]. }
  assert (len (values_of (py "host") hs) <= 1 /\
          (v = py "HTTP/1.1" -> exists x, values_of (py "host") hs = [x])) as [Hh1 Hh2].
  { revert Ehost. unfold check_host, bad_request. destruct (names !! py "host") as [vs|] eqn:En.
    - rewrite bool_decide_eq_false_2, andb_false_r by done.
      destruct (Z.eqb_spec (len vs) 1) as [El|]; [|done]. intros _.
      rewrite (indexes_Some _ _ _ _ Hi En). split; [lia|]. intros _.
      destruct vs as [|x [|y ys]]; [done|by eexists|]. lens. pose proof (len_nonneg ys). lia.
    - rewrite bool_decide_eq_true_2, andb_true_r by done. unfold str_eqb.
      destruct (bool_decide_reflect (v = py "HTTP/1.1")); [done|]. intros _.
      destruct (indexes_None _ _ _ Hi En) as [-> _]. done. }
  pose proof (parse_content_length_spec (max_body_bytes c) hs names Hi) as Hcl.
  destruct (parse_content_length _ _) as [n|e]; simpl; [|done].
  destruct (parse_transfer_encoding n names) as [ch|e] eqn:Ete; simpl.
  2:{ left. revert Ete. unfold parse_transfer_encoding, bad_request. destruct (names !! _); [|done].
      destruct (_ >=? 0); [by intros [= <-]|]. destruct (negb _); [by intros [= <-]|done]. }
  rewrite utf8_decode_ascii by (destruct Hv as [-> | ->]; vm_compute; repeat constructor; done).
  simpl. destruct (parse_expect names) as [ex|e] eqn:Ex; simpl.
  2:{ left. revert Ex. unfold parse_expect, bad_request. destruct (names !! _); [|done].
      destruct (negb _); [by intros [= <-]|done]. }
  rewrite utf8_decode_ascii by (by apply is_token_ascii). simpl.
  split; simpl; try done.
  revert Ete. unfold parse_transfer_encoding, bad_request.
  destruct (names !! py "transfer-encoding") as [vs|] eqn:Ente.
  - destruct (n >=? 0) eqn:Ez; [done|].
    destruct (bool_decide_reflect (tokens_of vs = [py "chunked"])); simpl; [|done]. intros [= <-]. simpl.
    destruct Hcl as [[-> Hno]|(raw & -> & _ & _ & Hd & _)].
    + constructor; [|by rewrite (indexes_Some _ _ _ _ Hi Ente)].
      destruct (names !! py "content-length") as [cl|] eqn:Ec; [|by eapply indexes_None].
      exfalso. destruct (Hi (py "content-length")) as [_ [H2 _]]. rewrite Ec in H2.
      destruct H2 as [x Hx]; [done|]. by apply (Hno x).
    + b2p. pose proof (digits_nonneg raw Hd). lia.
  - intros [= <-]. simpl. destruct (indexes_None _ _ _ Hi Ente) as [_ Hnte].
    destruct Hcl as [[-> Hno]|(raw & -> & ? & ? & Hd & ? & ?)]; [by constructor|].
    pose proof (digits_nonneg raw Hd).
    destruct (decimal_value raw >=? 0) eqn:Ez; b2p; [|lia]. econstructor; done.
Qed.

Lemma framing_bound mb hs ch n : framing mb hs ch n -> (ch = false -> 0 <= n) /\ (0 < n -> ch = false /\ n <= mb).
Proof.
  intros H. inversion H; subst; split; intros; try lia; try done.
  by apply digits_nonneg.
Qed.
