(* ===== verification/Http1Wire.v ===== *)
(** * Lines on the wire

    What the encoders write and the decoders read back: lines ended by CR LF, header
    blocks ended by an empty line, and integers in decimal and hexadecimal.  Shared by the
    round trips of the chunked coding, of response heads and of upstream request heads. *)

From S2P Require Import Prelude PyStr Buffer Http1 PyStrFacts Http1Parse.
#[local] Open Scope Z_scope.

(** ** Lines *)

Definition cr_free (l : bytes) : Prop := Forall (fun c => c <> 13) l.

(** Every line with its terminator. *)
Definition wire (ls : list bytes) : bytes := concat (map (fun l => l ++ CRLF) ls).

Lemma wire_cons l ls : wire (l :: ls) = l ++ CRLF ++ wire ls.
Proof. unfold wire. simpl. by rewrite <- app_assoc. Qed.

Lemma wire_app ls ks : wire (ls ++ ks) = wire ls ++ wire ks.
Proof. unfold wire. by rewrite map_app, concat_app. Qed.

Lemma wire_snoc ls l : wire (ls ++ [l]) = join CRLF (ls ++ [l]) ++ CRLF.
Proof.
  induction ls as [|k ls IH]; [by unfold wire; simpl; rewrite app_nil_r|]. change ((k :: ls) ++ [l]) with (k :: ls ++ [l]).
  rewrite wire_cons, IH. destruct (ls ++ [l]) eqn:E; [by destruct ls|]. simpl. by rewrite <- !app_assoc.
Qed.

Lemma find_seq_cons p c l :
  find_seq p (c :: l) = if starts_with p (c :: l) then 0
                        else let r := find_seq p l in if r <? 0 then -1 else 1 + r.
Proof. done. Qed.

Lemma starts_not_cr c l : c <> 13 -> starts_with CRLF (c :: l) = false /\ starts_with CRLF2 (c :: l) = false.
Proof. intros H. cbn [starts_with CRLF CRLF2]. unfold CR. by zdec. Qed.

Lemma starts_crlf_at l : (len l >=? 2) && at_is l 0 13 && at_is l 1 10 = starts_with CRLF l.
Proof.
  destruct l as [|x [|y r]]; [done|cbn [starts_with CRLF]; symmetry; apply andb_false_r|]. cbn [starts_with CRLF].
  unfold CR, LF, at_is, at_. cbn [Z.ltb Z.compare lookup list_lookup Z.to_nat Pos.to_nat Pos.iter_op].
  lens. pose proof (len_nonneg r). zdec. simpl. by rewrite (Z.eqb_sym x), (Z.eqb_sym y), andb_true_r.
Qed.

Lemma find_crlf_line l k : cr_free l -> find_crlf (l ++ CRLF ++ k) = len l.
Proof.
  unfold find_crlf. induction 1 as [|c l Hc H IH]; [done|]. rewrite <- app_comm_cons, find_seq_cons.
  destruct (starts_not_cr c (l ++ CRLF ++ k) Hc) as [-> _]. cbn zeta. rewrite IH, len_cons.
  pose proof (len_nonneg l). by zdec.
Qed.

Lemma find_crlf_none l : cr_free l -> find_crlf l = -1.
Proof.
  unfold find_crlf. induction 1 as [|c l Hc H IH]; [done|]. rewrite find_seq_cons.
  destruct (starts_not_cr c l Hc) as [-> _]. cbn zeta. by rewrite IH.
Qed.

Lemma split_go_cons acc c l : c <> 13 -> split_go CRLF 0 acc (c :: l) = split_go CRLF 0 (c :: acc) l.
Proof. intros Hc. cbn [split_go]. by destruct (starts_not_cr c l Hc) as [-> _]. Qed.

Lemma split_go_line l acc k : cr_free l ->
  split_go CRLF 0 acc (l ++ CRLF ++ k) = (rev acc ++ l) :: split_str CRLF k.
Proof.
  intros H. revert acc. induction H as [|c l Hc H IH]; intros acc.
  { cbn. by rewrite app_nil_r. }
  rewrite <- app_comm_cons, split_go_cons, IH by done. cbn [rev]. by rewrite <- app_assoc.
Qed.

Lemma split_go_last l acc : cr_free l -> split_go CRLF 0 acc l = [rev acc ++ l].
Proof.
  intros H. revert acc. induction H as [|c l Hc H IH]; intros acc.
  { cbn. by rewrite app_nil_r. }
  rewrite split_go_cons, IH by done. cbn [rev]. by rewrite <- app_assoc.
Qed.

Lemma split_join ls : ls <> [] -> Forall cr_free ls -> split_str CRLF (join CRLF ls) = ls.
Proof.
  intros Hne H. induction H as [|l ls Hl H IH]; [done|]. destruct ls as [|k ls].
  - simpl. unfold split_str. by rewrite split_go_last.
  - change (join CRLF (l :: k :: ls)) with (l ++ CRLF ++ join CRLF (k :: ls)).
    unfold split_str at 1. rewrite split_go_line by done. rewrite IH by done. done.
Qed.

(** The blank line is found at the end of a block of non-empty lines. *)
Lemma find_double_line l k :
  cr_free l -> starts_with CRLF k = false ->
  find_double_crlf (l ++ CRLF ++ k) =
  (let r := find_double_crlf k in if r <? 0 then -1 else len l + 2 + r).
Proof.
  unfold find_double_crlf. intros H Hk. pose proof (find_seq_range CRLF2 k) as Hr. cbn zeta.
  induction H as [|c l Hc H IH].
  { change ([] ++ CRLF ++ k) with (13 :: 10 :: k). rewrite !find_seq_cons.
    change (starts_with CRLF2 (13 :: 10 :: k)) with (starts_with CRLF k). rewrite Hk.
    destruct (starts_not_cr 10 k ltac:(done)) as [_ ->]. lens. cbn zeta.
    destruct (Z.ltb_spec (find_seq CRLF2 k) 0); [done|]. zdec. lia. }
  rewrite <- app_comm_cons, find_seq_cons. destruct (starts_not_cr c (l ++ CRLF ++ k) Hc) as [_ ->].
  rewrite IH. cbn zeta. rewrite len_cons. pose proof (len_nonneg l).
  destruct (Z.ltb_spec (find_seq CRLF2 k) 0); [done|]. zdec. lia.
Qed.

Lemma find_double_end l k : l <> [] -> cr_free l -> find_double_crlf (l ++ CRLF ++ CRLF ++ k) = len l.
Proof.
  unfold find_double_crlf. intros Hne H. clear Hne. induction H as [|c l Hc H IH]; [done|].
  rewrite <- app_comm_cons, find_seq_cons. destruct (starts_not_cr c (l ++ CRLF ++ CRLF ++ k) Hc) as [_ ->].
  rewrite IH. cbn zeta. rewrite len_cons. pose proof (len_nonneg l). by zdec.
Qed.

Lemma starts_crlf_line l k : l <> [] -> cr_free l -> starts_with CRLF (l ++ k) = false.
Proof. intros Hne H. destruct H as [|c l Hc H]; [done|]. by apply starts_not_cr. Qed.

Definition line_ok (l : bytes) : Prop := l <> [] /\ cr_free l.

Lemma find_double_wire ls k :
  ls <> [] -> Forall line_ok ls -> find_double_crlf (wire ls ++ CRLF ++ k) = len (wire ls) - 2.
Proof.
  intros Hne H. induction H as [|l ls [Hl Hc] H IH]; [done|]. rewrite wire_cons, <- !app_assoc.
  destruct ls as [|l' ls].
  - change (wire [] ++ CRLF ++ k) with (CRLF ++ k). rewrite find_double_end by done.
    unfold wire. cbn [map concat]. lens. change (len CRLF) with 2. lia.
  - apply Forall_cons in H as H'. destruct H' as [[Hl' Hc'] _]. rewrite find_double_line; [|done|].
    + rewrite IH by done. cbn zeta. rewrite wire_cons. lens. change (len CRLF) with 2.
      pose proof (len_nonneg l'). pose proof (len_nonneg (wire ls)). zdec. lia.
    + rewrite wire_cons, <- app_assoc. by apply starts_crlf_line.
Qed.

(** Cutting the block out of the buffer. *)
Lemma wire_block ls k :
  ls <> [] -> upto (wire ls ++ CRLF ++ k) (len (wire ls) - 2) = join CRLF ls /\
  from (wire ls ++ CRLF ++ k) (len (wire ls) - 2 + 4) = k.
Proof.
  intros Hne. destruct (exists_last Hne) as (ls' & l & ->). rewrite wire_snoc. rewrite <- !app_assoc.
  set (b := join CRLF (ls' ++ [l])). lens. change (len CRLF) with 2. split.
  - rewrite upto_app_le by lia. replace (len b + 2 - 2) with (len b) by lia. by rewrite upto_all.
  - rewrite from_app_ge by (pose proof (len_nonneg b); lia). replace (len b + 2 - 2 + 4 - len b) with 4 by lia.
    done.
Qed.

(** ** Integers as digits *)

Lemma hex_digit_char d : 0 <= d < 16 -> hex_digit (digit_char d) = Some d.
Proof.
  intros H. unfold digit_char, hex_digit. destruct (Z.ltb_spec d 10); zdec; f_equal; lia.
Qed.

Lemma hex_value_digits f : forall n acc, 0 <= n < 2 ^ Z.of_nat f ->
  hex_value 0 (digits_go 16 f n acc) = hex_value n acc.
Proof.
  induction f as [|f IH]; intros n acc Hn; [simpl in *; by replace n with 0 by lia|].
  rewrite Nat2Z.inj_succ, Z.pow_succ_r in Hn by lia. cbn [digits_go].
  destruct (Z.ltb_spec n 16).
  - cbn [hex_value]. rewrite hex_digit_char by lia. done.
  - rewrite IH by (split; [apply Z.div_pos; lia|apply Z.div_lt_upper_bound; lia]).
    cbn [hex_value]. rewrite hex_digit_char by (apply Z.mod_pos_bound; lia).
    f_equal. pose proof (Z.div_mod n 16). lia.
Qed.

Lemma log2_fuel n : 0 <= n -> n < 2 ^ Z.of_nat (S (Z.to_nat (Z.log2 n))).
Proof.
  intros Hn. rewrite Nat2Z.inj_succ, Z2Nat.id by apply Z.log2_nonneg.
  destruct (Z.eq_dec n 0) as [->|]; [done|]. apply Z.log2_spec. lia.
Qed.

Lemma hex_value_hex_of_int n : 0 <= n -> hex_value 0 (hex_of_int n) = Ok n.
Proof. intros Hn. unfold hex_of_int, digits. rewrite hex_value_digits; [done|]. split; [done|by apply log2_fuel]. Qed.

Lemma decimal_digits f : forall n acc, 0 <= n < 2 ^ Z.of_nat f ->
  decimal_value (digits_go 10 f n acc) = fold_left (fun acc c => acc * 10 + (c - 48)) acc n.
Proof.
  unfold decimal_value. induction f as [|f IH]; intros n acc Hn; [simpl in *; by replace n with 0 by lia|].
  rewrite Nat2Z.inj_succ, Z.pow_succ_r in Hn by lia. cbn [digits_go].
  assert (forall d, 0 <= d < 10 -> digit_char d - 48 = d) as Hd.
  { intros d Hd. unfold digit_char. zdec. lia. }
  destruct (Z.ltb_spec n 10).
  - cbn [fold_left]. rewrite Hd by lia. done.
  - rewrite IH by (split; [apply Z.div_pos; lia|apply Z.div_lt_upper_bound; lia]).
    cbn [fold_left]. rewrite Hd by (apply Z.mod_pos_bound; lia). f_equal. pose proof (Z.div_mod n 10). lia.
Qed.

Lemma decimal_value_str_of_int n : 0 <= n -> decimal_value (str_of_int n) = n.
Proof.
  intros Hn. unfold str_of_int. zdec. unfold digits. rewrite decimal_digits; [done|]. split; [done|by apply log2_fuel].
Qed.

Lemma digits_go_spec base f (P : Z -> Prop) : forall n acc,
  2 <= base -> (forall d, 0 <= d < base -> P (digit_char d)) -> 0 <= n -> Forall P acc ->
  Forall P (digits_go base f n acc).
Proof.
  induction f as [|f IH]; intros n acc Hb HP Hn Hacc; [done|]. cbn [digits_go].
  destruct (Z.ltb_spec n base); [constructor; [apply HP; lia|done]|]. apply IH; try done.
  - apply Z.div_pos; lia.
  - constructor; [|done]. apply HP, Z.mod_pos_bound. lia.
Qed.

Lemma digits_go_length base f : forall n acc k,
  2 <= base -> 0 <= n < base ^ Z.of_nat k -> (0 < k)%nat ->
  len (digits_go base f n acc) <= Z.of_nat k + len acc.
Proof.
  induction f as [|f IH]; intros n acc k Hb Hn Hk; cbn [digits_go]; [lia|].
  destruct (Z.ltb_spec n base); [lens; lia|]. destruct k as [|[|k]]; [lia| |].
  - rewrite Z.pow_1_r in Hn. lia.
  - rewrite Nat2Z.inj_succ, Z.pow_succ_r in Hn by lia.
    etransitivity; [apply (IH _ _ (S k)); try lia|lens; lia].
    split; [apply Z.div_pos; lia|apply Z.div_lt_upper_bound; lia].
Qed.

Lemma digits_go_nonempty base f : forall n acc, acc <> [] \/ f <> 0%nat -> digits_go base f n acc <> [].
Proof.
  induction f as [|f IH]; intros n acc H; cbn [digits_go]; [by destruct H|].
  destruct (_ <? _); [done|]. apply IH. by left.
Qed.

Lemma hex_of_int_chars n : 0 <= n -> Forall (fun c => 48 <= c <= 57 \/ 97 <= c <= 102) (hex_of_int n).
Proof.
  intros Hn. apply digits_go_spec; try lia; [|constructor]. intros d Hd. unfold digit_char.
  destruct (Z.ltb_spec d 10); lia.
Qed.

Lemma str_of_int_chars n : 0 <= n -> Forall (fun c => 48 <= c <= 57) (str_of_int n).
Proof.
  intros Hn. unfold str_of_int. zdec. apply digits_go_spec; try lia; [|constructor]. intros d Hd. unfold digit_char.
  zdec. lia.
Qed.

Lemma str_of_int_ne n : str_of_int n <> [].
Proof. unfold str_of_int. destruct (_ <? _); [done|]. apply digits_go_nonempty. by right. Qed.

Lemma find_char_none c s : Forall (fun x => x <> c) s -> find_char c s = -1.
Proof. induction 1 as [|x s Hx H IH]; [done|]. cbn [find_char]. by zdec. Qed.

Lemma find_char_at c s k : Forall (fun x => x <> c) s -> find_char c (s ++ c :: k) = len s.
Proof.
  induction 1 as [|x s Hx H IH]; cbn [app find_char].
  - by rewrite Z.eqb_refl.
  - rewrite IH, len_cons. pose proof (len_nonneg s). by zdec.
Qed.

Lemma chunk_line_roundtrip n : 0 <= n < 2 ^ 64 -> parse_chunk_size_line (hex_of_int n) = Ok n.
Proof.
  intros Hn. unfold parse_chunk_size_line.
  assert (len (hex_of_int n) <= 16) as Hl.
  { pose proof (digits_go_length 16 (S (Z.to_nat (Z.log2 n))) n [] 16) as H. lens. apply H; lia. }
  assert (len (hex_of_int n) <> 0) as Hne.
  { intros E. apply len_zero_nil in E. revert E. apply digits_go_nonempty. by right. }
  rewrite find_char_none.
  2:{ eapply Forall_impl; [apply hex_of_int_chars; lia|]. simpl. lia. }
  cbv zeta. pose proof (len_nonneg (hex_of_int n)). change (-1 <? 0) with true. cbv iota. zdec.
  rewrite upto_all, from_all by lia. rewrite hex_value_hex_of_int by lia. cbn [rbind].
  by destruct (length _).
Qed.

(** ** Header fields *)

Lemma utf8_encode_token s b : utf8_encode s = Ok b -> is_token b = true -> b = s.
Proof.
  intros E [_ Ht]%is_token_inv. assert (Forall (fun c => c < 128) b) as Hb.
  { eapply Forall_impl; [exact Ht|]. intros c Hc%is_tchar_range. lia. }
  clear Ht. revert b E Hb. induction s as [|c s IH]; intros b; simpl; [by intros [= <-]|].
  destruct (utf8_encode_char c) as [x|] eqn:Ec; simpl; [|done].
  destruct (utf8_encode s) as [y|]; simpl; [|done]. intros [= <-] [Hx Hy]%Forall_app.
  rewrite (IH y eq_refl Hy). revert Ec. unfold utf8_encode_char. destruct (Z.ltb_spec c 128); [by intros [= <-]|].
  destruct (Z.ltb_spec c 2048).
  { intros [= <-]. apply Forall_cons in Hx as [Hx _]. pose proof (Z.div_pos c 64). lia. }
  destruct (_ && _); [done|]. destruct (_ <? 65536); intros [= <-]; apply Forall_cons in Hx as [Hx _].
  - pose proof (Z.div_pos c 4096). lia.
  - pose proof (Z.div_pos c 262144). lia.
Qed.

Definition field_line (h : str * str) : bytes := fst h ++ py ": " ++ snd h.
(** A field an encoder lets through. *)
Definition sendable (h : str * str) : Prop :=
  is_token (fst h) = true /\ contains_bad_value_byte (snd h) = false.
(** What the parser makes of it. *)
Definition received (h : str * str) : str * str := (lower (fst h), strip_by is_sp_tab (snd h)).

Lemma validate_output_header_inv n v :
  validate_output_header n v = Ok tt -> sendable (n, v) /\ utf8_encode n = Ok n /\ latin1_bytes v = Ok v.
Proof.
  unfold validate_output_header. destruct (utf8_encode n) as [b|[]] eqn:E; try done.
  unfold latin1_bytes. destruct (existsb _ v); [done|]. cbn [rbind].
  destruct (is_token b) eqn:Et; [|done]. destruct (contains_bad_value_byte v) eqn:Ev; [done|].
  cbn [negb orb]. pose proof (utf8_encode_token _ _ E Et). subst b. done.
Qed.

Lemma encode_fields_inv owned refused hs : forall bs,
  Http1ResponseEncoder.encode_fields owned refused hs = Ok bs ->
  bs = wire (map field_line hs) /\ Forall sendable hs /\ Forall (fun h => lower (fst h) ∉ owned) hs.
Proof.
  induction hs as [|[n v] hs IH]; intros bs; cbn [Http1ResponseEncoder.encode_fields]; [by intros [= <-]|].
  unfold Http1ResponseEncoder.encode_field.
  destruct (validate_output_header n v) as [[]|e] eqn:Ev; cbn [rbind]; [|done].
  destruct (validate_output_header_inv _ _ Ev) as (Hs & En & El).
  destruct (str_in (lower n) owned) eqn:Eo; [done|]. rewrite En, El. cbn [rbind].
  destruct (Http1ResponseEncoder.encode_fields owned refused hs) as [rest|] eqn:Er; cbn [rbind]; [|done].
  intros [= <-]. destruct (IH rest eq_refl) as (-> & H1 & H2). split_and!.
  - cbn [map]. rewrite wire_cons. unfold field_line. cbn [fst snd]. rewrite <- !app_assoc. cbn [app]. by rewrite <- app_assoc.
  - by constructor.
  - constructor; [|done]. by apply bool_decide_eq_false in Eo.
Qed.

Lemma bad_value_cr_free v : contains_bad_value_byte v = false -> cr_free v.
Proof.
  apply existsb_false_Forall. intros x Hx. unfold bad_value_byte in Hx. b2p. done.
Qed.

Lemma token_cr_free n : is_token n = true -> cr_free n.
Proof. intros [_ H]%is_token_inv. eapply Forall_impl; [exact H|]. intros c Hc%is_tchar_range. lia. Qed.

Lemma field_line_ok h : sendable h -> line_ok (field_line h).
Proof.
  intros [Ht Hv]. split.
  - unfold field_line. apply is_token_inv in Ht as [Hne _]. by destruct (fst h).
  - unfold field_line. apply Forall_app. split; [by apply token_cr_free|].
    apply Forall_app. split; [|by apply bad_value_cr_free]. vm_compute. repeat constructor; done.
Qed.

Lemma is_tchar_misc c : is_tchar c = true -> c <> 58 /\ c <> 32 /\ c <> 9.
Proof.
  intros H. split_and!; intros ->; vm_compute in H; done.
Qed.

Lemma parse_field_line mx hs names h ls :
  sendable h -> len hs < mx ->
  parse_headers_go mx hs names (field_line h :: ls) =
  parse_headers_go mx (hs ++ [received h])
    (<[fst (received h) := default [] (names !! fst (received h)) ++ [snd (received h)]]> names) ls.
Proof.
  intros [Ht Hv] Hn. destruct h as [n v]. cbn [fst snd] in *. cbn [parse_headers_go].
  pose proof (is_token_inv _ Ht) as [Hne Hf]. unfold field_line. cbn [fst snd].
  destruct n as [|c n']; [done|]. set (n := c :: n') in *.
  assert (len n > 0) by (subst n; lens; pose proof (len_nonneg n'); lia).
  assert (len (n ++ py ": " ++ v) <> 0) by (lens; pose proof (len_nonneg v); pose proof (len_nonneg (py ": ")); lia).
  assert (c <> 58 /\ c <> 32 /\ c <> 9) as (? & ? & ?) by (apply is_tchar_misc; by apply Forall_cons in Hf as [? _]).
  assert (at_is (n ++ py ": " ++ v) 0 32 = false /\ at_is (n ++ py ": " ++ v) 0 9 = false) as [E1 E2].
  { subst n. unfold at_is, at_. simpl. split; by apply Z.eqb_neq. }
  rewrite (proj2 (Z.eqb_neq _ _)) by done. rewrite E1, E2. cbn [orb].
  change (n ++ py ": " ++ v) with (n ++ 58 :: (32 :: v)).
  rewrite find_char_at; [|eapply Forall_impl; [exact Hf|]; intros x Hx; by destruct (is_tchar_misc x Hx)].
  cbv zeta. zdec. rewrite upto_app_le, upto_all by lia. rewrite Ht. cbn [negb].
  rewrite from_app_ge by lia. replace (len n + 1 - len n) with 1 by lia.
  change (from (58 :: 32 :: v) 1) with (32 :: v).
  change (contains_bad_value_byte (32 :: v)) with (contains_bad_value_byte v). rewrite Hv.
  rewrite utf8_decode_ascii by (by apply is_token_ascii). cbn [rbind]. done.
Qed.

Lemma parse_fields mx : forall hs acc names,
  Forall sendable hs -> len acc + len hs <= mx -> indexes acc names ->
  exists names', parse_headers_go mx acc names (map field_line hs) = Ok (acc ++ map received hs, names') /\
    indexes (acc ++ map received hs) names'.
Proof.
  induction hs as [|h hs IH]; intros acc names Hs Hl Hi.
  { exists names. cbn. by rewrite app_nil_r. }
  apply Forall_cons in Hs as [Hh Hs]. rewrite len_cons in Hl. pose proof (len_nonneg hs).
  cbn [map]. rewrite parse_field_line by (done || lia).
  destruct (IH (acc ++ [received h]) (<[fst (received h) := default [] (names !! fst (received h)) ++ [snd (received h)]]> names) Hs)
    as (names' & E & Hi').
  - lens. lia.
  - destruct (received h) as [a b]. by apply indexes_insert.
  - exists names'. rewrite <- app_assoc in E, Hi'. by split.
Qed.

Lemma indexes_empty : indexes [] ∅.
Proof.
  intros n. rewrite lookup_empty. split; [done|]. split; [by intros []|]. intros [v Hv]. by apply elem_of_nil in Hv.
Qed.

Lemma fields_block hs : Forall sendable hs -> Forall line_ok (map field_line hs).
Proof. intros H. apply Forall_map. eapply Forall_impl; [exact H|]. apply field_line_ok. Qed.
