(* ===== verification/Http1Decode.v ===== *)
(** * The request decoder as a stream transducer

    The decoder's loop is read as the relation [decodes]: iterations that go on, then
    one that breaks.  An iteration that goes on only looks at a prefix of the buffer,
    so it is unchanged when more bytes follow; hence what is shown of fragmentation.
    [codec_ok] is the invariant of the decoder between and inside calls. *)

From S2P Require Import Prelude PyStr Buffer Http1 PyStrFacts Http1Parse.
#[local] Open Scope Z_scope.
Import Http1ServerCodec.

Ltac unm := unfold bind, get, put, modify, lift, ret, raise in *; cbn beta iota in *.

(** The decoder with more bytes waiting. *)
Definition cext (k : bytes) (c : codec) : codec := set_buffer (buffer c ++ k) c.

(** What every operation keeps: a body state has a positive remainder within the limits. *)
Record codec_ok (c : codec) : Prop := {
  ok_line : 0 < max_request_line c;
  ok_header : 0 < max_header_bytes c;
  ok_fixed : state c = FIXED_BODY -> 0 < remaining c;
  ok_data : state c = CHUNK_DATA -> 0 < remaining c <= max_chunk_bytes c;
  ok_received : 0 <= body_received c;
  ok_body : (state c = FIXED_BODY \/ state c = CHUNK_DATA) ->
            body_received c + remaining c <= max_body_bytes c;
  ok_idle : state c = HEAD -> body_received c = 0;
  ok_chunks : (state c = CHUNK_SIZE \/ state c = TRAILERS) -> body_received c <= Z.max 0 (max_body_bytes c);
}.

(** The configuration never changes. *)
Definition same_limits (c c' : codec) : Prop :=
  max_request_line c' = max_request_line c /\ max_header_bytes c' = max_header_bytes c /\
  max_header_count c' = max_header_count c /\ max_body_bytes c' = max_body_bytes c /\
  max_chunk_bytes c' = max_chunk_bytes c /\ codec_closed c' = codec_closed c.

Lemma parse_head_ext block k c r c' :
  parse_head block c = (r, c') -> parse_head block (cext k c) = (r, cext k c').
Proof.
  unfold parse_head. unm. change (parse_head_event (cext k c) block) with (parse_head_event c block).
  destruct (parse_head_event c block) as [h|e]; intros H; simplify_eq; [|done].
  destruct (chunked h); [by simplify_eq|]. by destruct (content_length h >? 0); simplify_eq.
Qed.

Lemma step_head_ext k c es f c' :
  step_head c = (Ok (es, f), c') -> f <> Break -> step_head (cext k c) = (Ok (es, f), cext k c').
Proof.
  unfold step_head. unm. change (buffer (cext k c)) with (buffer c ++ k).
  destruct (Z.ltb_spec (find_double_crlf (buffer c)) 0) as [|Hm].
  { destruct (_ >? _); [done|]. destruct (_ && _); [done|]. intros [= _ <- _]. done. }
  unfold find_double_crlf in *. rewrite find_seq_app by done.
  pose proof (find_seq_bound _ _ Hm) as Hb. change (len CRLF2) with 4 in Hb.
  destruct (Z.ltb_spec (find_seq CRLF2 (buffer c)) 0); [lia|].
  change (max_header_bytes (cext k c)) with (max_header_bytes c).
  destruct (_ >? _); [done|].
  rewrite upto_app_le, from_app_le by lia.
  set (c1 := set_buffer (from (buffer c) _) c).
  change (set_buffer (from (buffer c) _ ++ k) (cext k c)) with (cext k c1).
  destruct (parse_head _ c1) as [[[h b]|e] c2] eqn:E; [|done].
  rewrite (parse_head_ext _ k _ _ _ E). destruct b; intros H0 _; by simplify_eq.
Qed.

Lemma step_fixed_ext k c es f c' :
  codec_ok c -> state c = FIXED_BODY ->
  step_fixed_body c = (Ok (es, f), c') -> f <> Break ->
  step_fixed_body (cext k c) = (Ok (es, f), cext k c').
Proof.
  intros Hok Hst. pose proof (ok_fixed c Hok Hst) as Hr.
  unfold step_fixed_body. unm. change (buffer (cext k c)) with (buffer c ++ k).
  pose proof (len_nonneg k). pose proof (len_nonneg (buffer c)).
  destruct (Z.eqb_spec (len (buffer c)) 0); [by intros [= _ <- _]|].
  rewrite len_app. zdec. change (remaining (cext k c)) with (remaining c). simpl.
  destruct (remaining c >? len (buffer c)) eqn:E; b2p.
  - zdec. intros [= _ <- _]. done.
  - zdec. rewrite upto_app_le, from_app_le by lia. intros H' _. by simplify_eq.
Qed.

Lemma step_chunk_size_ext k c es f c' :
  step_chunk_size c = (Ok (es, f), c') -> f <> Break ->
  step_chunk_size (cext k c) = (Ok (es, f), cext k c').
Proof.
  unfold step_chunk_size. unm. change (buffer (cext k c)) with (buffer c ++ k).
  destruct (Z.ltb_spec (find_crlf (buffer c)) 0) as [|Hm].
  { destruct (_ >? _); [done|]. intros [= _ <- _]. done. }
  unfold find_crlf in *. rewrite find_seq_app by done.
  pose proof (find_seq_bound _ _ Hm) as Hb. change (len CRLF) with 2 in Hb.
  destruct (Z.ltb_spec (find_seq CRLF (buffer c)) 0); [lia|].
  destruct (_ >? 128); [done|]. rewrite upto_app_le, from_app_le by lia.
  destruct (parse_chunk_size_line _) as [n|e]; [|done]. simpl.
  destruct (n >? max_chunk_bytes c); [done|].
  destruct (body_received c + n >? max_body_bytes c); [done|].
  destruct (n =? 0); intros H' _; by simplify_eq.
Qed.

Lemma at_is_app l k i v : 0 <= i < len l -> at_is (l ++ k) i v = at_is l i v.
Proof. intros. unfold at_is. rewrite at_app_l by lia. done. Qed.

Lemma step_chunk_data_ext k c es f c' :
  codec_ok c -> state c = CHUNK_DATA ->
  step_chunk_data c = (Ok (es, f), c') -> f <> Break ->
  step_chunk_data (cext k c) = (Ok (es, f), cext k c').
Proof.
  intros Hok Hst. pose proof (ok_data c Hok Hst) as Hr.
  unfold step_chunk_data. unm. change (buffer (cext k c)) with (buffer c ++ k).
  change (remaining (cext k c)) with (remaining c). pose proof (len_nonneg k).
  destruct (Z.ltb_spec (len (buffer c)) (remaining c + 2)); [by intros [= _ <- _]|].
  rewrite len_app. zdec. rewrite !at_is_app by lia.
  destruct (_ || _); [done|]. rewrite upto_app_le, from_app_le by lia.
  intros H' _. by simplify_eq.
Qed.

Lemma step_trailers_ext k c es f c' :
  step_trailers c = (Ok (es, f), c') -> f <> Break ->
  step_trailers (cext k c) = (Ok (es, f), cext k c').
Proof.
  unfold step_trailers. unm. change (buffer (cext k c)) with (buffer c ++ k). pose proof (len_nonneg k).
  destruct ((len (buffer c) >=? 2) && at_is (buffer c) 0 13 && at_is (buffer c) 1 10) eqn:E.
  { b2p. rewrite len_app. zdec. rewrite !at_is_app by lia. rewrite H1, H2. simpl.
    rewrite from_app_le by lia. intros H' _. by simplify_eq. }
  destruct (Z.ltb_spec (find_double_crlf (buffer c)) 0) as [|Hm].
  { destruct (_ >? _); [done|]. intros [= _ <- _]. done. }
  unfold find_double_crlf in *. rewrite find_seq_app by done.
  pose proof (find_seq_bound _ _ Hm) as Hb. change (len CRLF2) with 4 in Hb.
  rewrite len_app, !at_is_app by lia. revert E. zdec. intros ->.
  change (max_header_bytes (cext k c)) with (max_header_bytes c).
  destruct (max_header_bytes c <? _); [done|]. rewrite upto_app_le, from_app_le by lia.
  change (max_header_count (set_buffer (from (buffer c) (find_seq CRLF2 (buffer c) + 4) ++ k) (cext k c)))
    with (max_header_count c). cbn beta iota.
  destruct (parse_headers _ _) as [[t n]|e]; [|done]. cbn beta iota.
  destruct (existsb _ _); [done|]. intros H' _. by simplify_eq.
Qed.

Lemma step_eq c :
  step c = match state c with
           | HEAD => step_head | FIXED_BODY => step_fixed_body | CHUNK_SIZE => step_chunk_size
           | CHUNK_DATA => step_chunk_data | TRAILERS => step_trailers
           end c.
Proof. done. Qed.

Lemma step_ext k c es f c' :
  codec_ok c -> step c = (Ok (es, f), c') -> f <> Break ->
  step (cext k c) = (Ok (es, f), cext k c').
Proof.
  intros Hok. rewrite !step_eq. change (state (cext k c)) with (state c).
  destruct (state c) eqn:Es.
  - apply step_head_ext.
  - by apply step_fixed_ext.
  - apply step_chunk_size_ext.
  - by apply step_chunk_data_ext.
  - apply step_trailers_ext.
Qed.

(** ** The grammar of the events

    The state between messages is [None]; inside one it is the number of body bytes
    delivered and, for a fixed-length body, the number promised. *)
Definition trace_state : Type := option (Z * option Z).
Definition trace_step (limit : Z) (st : trace_state) (e : event bytes) : option trace_state :=
  match st, e with
  | None, EHead h => Some (Some (0, if chunked h then None else Some (content_length h)))
  | Some (n, promised), EBody b =>
      if (0 <? len b) && (n + len b <=? limit) then Some (Some (n + len b, promised)) else None
  | Some (n, promised), EEnd _ =>
      match promised with
      | Some m => if n =? m then Some None else None
      | None => Some None
      end
  | _, _ => None
  end.
Fixpoint trace (limit : Z) (st : trace_state) (es : list (event bytes)) : option trace_state :=
  match es with
  | [] => Some st
  | e :: es' => match trace_step limit st e with Some st' => trace limit st' es' | None => None end
  end.

Lemma trace_app limit es : forall st st' es',
  trace limit st es = Some st' -> trace limit st (es ++ es') = trace limit st' es'.
Proof.
  induction es as [|e es IH]; intros st st' es'; simpl; [by intros [= <-]|].
  destruct (trace_step limit st e); [apply IH|done].
Qed.

(** The state of the grammar a decoder is in. *)
Definition abs (c : codec) : trace_state :=
  match state c with
  | HEAD => None
  | FIXED_BODY => Some (body_received c, Some (body_received c + remaining c))
  | _ => Some (body_received c, None)
  end.

(** What is left buffered when the decoder waits for more bytes. *)
Definition buffer_bound (c : codec) : Z :=
  Z.max (max_header_bytes c) (Z.max 128 (max_chunk_bytes c + 1)).

Record step_post (c : codec) (es : list (event bytes)) (f : flow) (c' : codec) : Prop := {
  sp_ok : codec_ok c';
  sp_limits : same_limits c c';
  sp_progress : f <> Break -> len (buffer c') < len (buffer c);
  sp_trace : trace (max_body_bytes c) (abs c) es = Some (abs c');
  sp_stuck : f = Break -> len (buffer c') <= buffer_bound c';
}.

Ltac ok_fields :=
  match goal with
  | H : codec_ok ?c |- _ =>
      pose proof (ok_line c H); pose proof (ok_header c H); pose proof (ok_fixed c H);
      pose proof (ok_data c H); pose proof (ok_received c H); pose proof (ok_body c H);
      pose proof (ok_idle c H); pose proof (ok_chunks c H)
  end.
Ltac solve_ok :=
  constructor; simpl; try done; intros; try lia;
  repeat match goal with H : _ \/ _ |- _ => destruct H; try done end; try lia.

Lemma step_head_spec c :
  codec_ok c -> state c = HEAD ->
  match step_head c with
  | (Ok (es, f), c') => step_post c es f c'
  | (Raise e, c') => decoder_exn e
  end.
Proof.
  intros Hok Hst. ok_fields. unfold step_head. unm.
  destruct (find_double_crlf (buffer c) <? 0) eqn:Em.
  { destruct (_ >? _) eqn:E1; [by left|]. destruct (_ && _); [by left|]. b2p.
    constructor; try done. intros _. unfold buffer_bound. lia. }
  destruct (_ >? _); [by left|]. b2p. pose proof (find_seq_bound _ _ Em) as Hb. change (len CRLF2) with 4 in Hb.
  unfold find_double_crlf in *. set (m := find_seq _ _) in *. unfold parse_head. unm.
  set (c1 := set_buffer _ c). pose proof (parse_head_event_spec c1 (upto (buffer c) m)) as Hp.
  destruct (parse_head_event c1 _) as [h|e]; [|done]. destruct (framing_bound _ _ _ _ (ho_framing _ _ Hp)) as [Hf1 Hf2].
  assert (len (from (buffer c) (m + 4)) < len (buffer c)) by (rewrite len_from; lia).
  simpl in Hf1, Hf2. specialize (H5 Hst).
  destruct (chunked h) eqn:Ec; simpl.
  - constructor; simpl; try done; [solve_ok|]. unfold abs. rewrite Hst. simpl. by rewrite Ec, H5.
  - destruct (content_length h >? 0) eqn:El; b2p.
    + destruct (Hf2 El) as [_ ?]. constructor; simpl; try done; [solve_ok|].
      unfold abs. rewrite Hst. simpl. by rewrite Ec, H5.
    + specialize (Hf1 eq_refl). constructor; simpl; try done; [solve_ok|].
      unfold abs. rewrite Hst. simpl. rewrite Ec. replace (content_length h) with 0 by lia. done.
Qed.

Lemma step_fixed_spec c :
  codec_ok c -> state c = FIXED_BODY ->
  match step_fixed_body c with
  | (Ok (es, f), c') => step_post c es f c'
  | (Raise e, c') => decoder_exn e
  end.
Proof.
  intros Hok Hst. ok_fields. specialize (H1 Hst). specialize (H4 (or_introl Hst)).
  unfold step_fixed_body. unm. pose proof (len_nonneg (buffer c)).
  destruct (Z.eqb_spec (len (buffer c)) 0).
  { constructor; try done. intros _. unfold buffer_bound. lia. }
  set (t := if remaining c >? len (buffer c) then len (buffer c) else remaining c). assert (0 < t /\ t <= len (buffer c) /\ t <= remaining c) as (Ht & Htb & Htr).
  { unfold t. destruct (_ >? _) eqn:E; b2p; lia. }
  rewrite Z.gtb_ltb. destruct (Z.ltb_spec 0 t); [|lia]. simpl.
  assert (len (upto (buffer c) t) = t) as Hlen by (rewrite len_upto; lia).
  destruct (Z.eqb_spec (remaining c - t) 0) as [E|E].
  - constructor; simpl; try done; [solve_ok|rewrite len_from; lia|].
    unfold abs. rewrite Hst. simpl. rewrite Hlen. zdec. simpl. zdec. done.
  - constructor; simpl; try done.
    + constructor; simpl; rewrite ?Hst; try done; intros; try lia.
    + unfold abs. simpl. rewrite Hst. simpl. rewrite Hlen. zdec. simpl. do 4 f_equal. lia.
    + intros _. unfold buffer_bound. simpl. rewrite len_from by lia.
      unfold t in E. destruct (_ >? _) eqn:E'; b2p; lia.
Qed.

Lemma step_chunk_size_spec c :
  codec_ok c -> state c = CHUNK_SIZE ->
  match step_chunk_size c with
  | (Ok (es, f), c') => step_post c es f c'
  | (Raise e, c') => decoder_exn e
  end.
Proof.
  intros Hok Hst. ok_fields. specialize (H6 (or_introl Hst)). unfold step_chunk_size. unm.
  destruct (find_crlf (buffer c) <? 0) eqn:Em.
  { destruct (_ >? _) eqn:E1; [by left|]. b2p. constructor; try done. intros _. unfold buffer_bound. lia. }
  destruct (_ >? 128); [by left|]. b2p.
  pose proof (find_seq_bound _ _ Em) as Hb. change (len CRLF) with 2 in Hb.
  unfold find_crlf in *. set (m := find_seq _ _) in *.
  assert (len (from (buffer c) (m + 2)) < len (buffer c)) by (rewrite len_from; lia).
  destruct (parse_chunk_size_line _) as [n|e] eqn:Ep; [|left; by eapply parse_chunk_size_line_raises].
  pose proof (parse_chunk_size_line_nonneg _ _ Ep). simpl.
  destruct (n >? _) eqn:E1; [by left|]. destruct (_ >? max_body_bytes c) eqn:E2; [by left|]. b2p.
  destruct (Z.eqb_spec n 0); simpl.
  - constructor; simpl; try done; [|by unfold abs; rewrite Hst]. solve_ok.
  - constructor; simpl; try done; [|by unfold abs; rewrite Hst]. solve_ok.
Qed.

Lemma step_chunk_data_spec c :
  codec_ok c -> state c = CHUNK_DATA ->
  match step_chunk_data c with
  | (Ok (es, f), c') => step_post c es f c'
  | (Raise e, c') => decoder_exn e
  end.
Proof.
  intros Hok Hst. ok_fields. specialize (H2 Hst). specialize (H4 (or_intror Hst)).
  unfold step_chunk_data. unm. destruct (_ <? _) eqn:E; b2p.
  { constructor; try done. intros _. unfold buffer_bound. lia. }
  destruct (_ || _); [by left|].
  assert (len (upto (buffer c) (remaining c)) = remaining c) as Hlen by (rewrite len_upto; lia).
  constructor; simpl; try done; [solve_ok|rewrite len_from; lia|].
  unfold abs. rewrite Hst. simpl. rewrite Hlen. zdec. done.
Qed.

Lemma step_trailers_spec c :
  codec_ok c -> state c = TRAILERS ->
  match step_trailers c with
  | (Ok (es, f), c') => step_post c es f c'
  | (Raise e, c') => decoder_exn e
  end.
Proof.
  intros Hok Hst. ok_fields. specialize (H6 (or_intror Hst)). unfold step_trailers. unm.
  destruct (_ && _) eqn:E0.
  { b2p. constructor; simpl; try done; [solve_ok|rewrite len_from; lia|]. unfold abs. by rewrite Hst. }
  destruct (find_double_crlf (buffer c) <? 0) eqn:Em.
  { destruct (_ >? _) eqn:E1; [by left|]. b2p. constructor; try done. intros _. unfold buffer_bound. lia. }
  destruct (_ >? _); [by left|]. b2p. pose proof (find_seq_bound _ _ Em) as Hb. change (len CRLF2) with 4 in Hb.
  unfold find_double_crlf in *. set (m := find_seq _ _) in *.
  set (lines := split_str _ _). change (max_header_count (set_buffer _ c)) with (max_header_count c).
  pose proof (parse_headers_spec (max_header_count c) lines) as Hp.
  destruct (parse_headers _ _) as [[t n]|e]; [|by left]. cbn beta iota.
  destruct (existsb _ _); [by left|]. constructor; simpl; try done; [solve_ok|rewrite len_from; lia|].
  unfold abs. by rewrite Hst.
Qed.

Lemma step_spec c :
  codec_ok c ->
  match step c with
  | (Ok (es, f), c') => step_post c es f c'
  | (Raise e, c') => decoder_exn e
  end.
Proof.
  intros Hok. rewrite step_eq. destruct (state c) eqn:Es.
  - by apply step_head_spec.
  - by apply step_fixed_spec.
  - by apply step_chunk_size_spec.
  - by apply step_chunk_data_spec.
  - by apply step_trailers_spec.
Qed.
