(* ===== verification/Http1Feed.v ===== *)
(** * [Http1ServerCodec.feed] against its pure reading

    [run] is the loop of [feed] without the store: it produces the events with the
    bytes of each body chunk.  [feed_loop_refines] shows that the real loop computes the
    same, allocating one view per body chunk and touching no other view.  The properties
    of [feed] follow. *)

From S2P Require Import Prelude PyStr Buffer Http1 PyStrFacts Http1Parse Http1Decode.
#[local] Open Scope Z_scope.
Import Http1ServerCodec.

(** The loop over the decoder alone; the events before an exception are kept. *)
Fixpoint run (fuel : nat) (max_messages completed : Z) (c : codec)
    : result unit * list (event bytes) * codec :=
  match fuel with
  | O => (Raise out_of_fuel, [], c)
  | S fuel' =>
      match step c with
      | (Raise e, c') => (Raise e, [], c')
      | (Ok (es, Break), c') => (Ok tt, es, c')
      | (Ok (es, Continue), c') =>
          let '(r, es', c'') := run fuel' max_messages completed c' in (r, es ++ es', c'')
      | (Ok (es, MessageDone), c') =>
          if (max_messages >? 0) && (completed + 1 >=? max_messages) then (Ok tt, es, c')
          else let '(r, es', c'') := run fuel' max_messages (completed + 1) c' in (r, es ++ es', c'')
      end
  end.

(** ** What a list of events denotes *)

Definition event_ok (h : heap) (e : event body_chunk) (p : event bytes) : Prop :=
  match e, p with
  | EHead a, EHead b => a = b
  | EBody b, EBody d => vbytes h (bc_view b) = Some d /\ bc_released b = false
  | EEnd a, EEnd b => a = b
  | _, _ => False
  end.
Definition body_views (es : list (event body_chunk)) : list nat :=
  omap (fun e => match e with EBody b => Some (bc_view b) | _ => None end) es.

(** Running from [h] to [h'] produced events that own exactly the views it allocated. *)
Record produced (ext : nat -> Z) (h h' : heap) (es : list (event body_chunk)) (ps : list (event bytes))
    : Prop := {
  pr_ok : heap_ok h' ext;
  pr_events : Forall2 (event_ok h') es ps;
  pr_views : body_views es = seq (length (views h)) (length (views h') - length (views h));
  pr_grows : (length (views h) <= length (views h'))%nat;
  pr_old : forall u, (u < length (views h))%nat -> vbytes h' u = vbytes h u;
}.

Lemma produced_refl ext h : heap_ok h ext -> produced ext h h [] [].
Proof. intros H. split; try done. simpl. by rewrite Nat.sub_diag. Qed.

Lemma event_ok_views h h' e p :
  event_ok h e p -> (forall v, v ∈ body_views [e] -> vbytes h' v = vbytes h v) -> event_ok h' e p.
Proof.
  destruct e, p; simpl; try done. intros [H1 H2] H. split; [|done]. rewrite H; [done|].
  by apply list_elem_of_singleton.
Qed.

Lemma event_ok_ext h h' es ps :
  Forall2 (event_ok h) es ps ->
  (forall v, v ∈ body_views es -> vbytes h' v = vbytes h v) -> Forall2 (event_ok h') es ps.
Proof.
  induction 1 as [|e p es ps He H IH]; intros Hv; [constructor|].
  assert (body_views (e :: es) = body_views [e] ++ body_views es) as E by (by destruct e).
  constructor.
  - apply (event_ok_views h); [done|]. intros v Hin. apply Hv. rewrite E. apply elem_of_app. by left.
  - apply IH. intros v Hin. apply Hv. rewrite E. apply elem_of_app. by right.
Qed.

Lemma body_views_app es es' : body_views (es ++ es') = body_views es ++ body_views es'.
Proof. apply omap_app. Qed.

Lemma produced_trans ext h h1 h2 es1 ps1 es2 ps2 :
  produced ext h h1 es1 ps1 -> produced ext h1 h2 es2 ps2 ->
  produced ext h h2 (es1 ++ es2) (ps1 ++ ps2).
Proof.
  intros [Hok1 He1 Hv1 Hg1 Ho1] [Hok2 He2 Hv2 Hg2 Ho2]. split; try done.
  - apply Forall2_app; [|done]. apply (event_ok_ext h1); [done|]. intros v Hin. apply Ho2.
    rewrite Hv1 in Hin. apply elem_of_seq in Hin. lia.
  - rewrite body_views_app, Hv1, Hv2.
    replace (length (views h2) - length (views h))%nat with
      ((length (views h1) - length (views h)) + (length (views h2) - length (views h1)))%nat by lia.
    rewrite seq_app. do 2 f_equal. lia.
  - lia.
  - intros u Hu. rewrite Ho2 by lia. by apply Ho1.
Qed.

(** ** Allocating the body chunks *)

Lemma write_default s src h :
  BufferSegment.write s src 0 (-1) h = BufferSegment.write s src 0 (len src - 0) h.
Proof.
  unfold BufferSegment.write, bind. destruct (get_seg s h) as [[x|e] h']; [|done].
  destruct (seg_released x); [done|]. cbv zeta. pose proof (len_nonneg src).
  assert ((len src - 0 <? 0) = false) as -> by (apply Z.ltb_ge; lia). done.
Qed.

Lemma body_chunk_init_spec h ext data :
  heap_ok h ext -> 0 < len data ->
  exists h', BodyChunk.init data h = (Ok (BodyChunk (length (views h)) false), h') /\
    produced ext h h' [EBody (BodyChunk (length (views h)) false)] [EBody data].
Proof.
  intros Hok Hd.
  destruct (append_chunk_spec h ext data 0 (len data) Hok) as
    (h1 & h2 & h3 & h4 & r & E1 & E2 & E3 & E4 & Hok4 & Hl & Hb); [lia..|].
  unfold BodyChunk.init. zdec. run E1. rewrite <- write_default in E2. run E2. run E3. run E4.
  exists h4. split; [done|]. split; try done; simpl.
  - constructor; [|constructor]. simpl. rewrite Hb. unfold voverride.
    rewrite Nat.eqb_refl. change (0 + len data) with (len data). by rewrite slice_all.
  - rewrite Hl. replace (S (length (views h)) - length (views h))%nat with 1%nat by lia. done.
  - lia.
  - intros u Hu. rewrite Hb. unfold voverride. by destruct (Nat.eqb_spec u (length (views h))); [lia|].
Qed.

(** Every body chunk in the list is non-empty. *)
Definition solid (ps : list (event bytes)) : Prop :=
  Forall (fun p => match p with EBody d => 0 < len d | _ => True end) ps.

Lemma append_events_spec ps : forall c es h ext,
  heap_ok h ext -> solid ps ->
  exists es' h', append_events ps (c, es, h) = (Ok tt, (c, es ++ es', h')) /\ produced ext h h' es' ps.
Proof.
  induction ps as [|p ps IH]; intros c es h ext Hok Hs.
  { exists [], h. rewrite app_nil_r. split; [done|]. by apply produced_refl. }
  apply Forall_cons in Hs as [Hp Hs].
  assert (exists e h1, append_event p (c, es, h) = (Ok tt, (c, es ++ [e], h1)) /\
            produced ext h h1 [e] [p]) as (e & h1 & E & Hpr).
  { destruct p as [hd|d|t].
    - exists (EHead hd), h. split; [done|]. split; try done; simpl; [by repeat constructor|].
      by rewrite Nat.sub_diag.
    - destruct (body_chunk_init_spec h ext d Hok Hp) as (h1 & E & Hpr).
      exists (EBody (BodyChunk (length (views h)) false)), h1. split; [|done].
      unfold append_event, bind, in_heap, zoom. simpl. by rewrite E.
    - exists (EEnd t), h. split; [done|]. split; try done; simpl; [by repeat constructor|].
      by rewrite Nat.sub_diag. }
  destruct (IH c (es ++ [e]) h1 ext (pr_ok _ _ _ _ _ Hpr) Hs) as (es' & h' & E' & Hpr').
  exists (e :: es'), h'. split.
  - simpl. unfold bind at 1. rewrite E. rewrite E', <- app_assoc. done.
  - apply (produced_trans _ _ _ _ [e] [p] es' ps Hpr Hpr').
Qed.

(** A list the grammar accepts has no empty body chunk. *)
Lemma trace_solid lim es : forall st st', trace lim st es = Some st' -> solid es.
Proof.
  induction es as [|e es IH]; intros st st'; simpl; [constructor|].
  destruct (trace_step lim st e) as [st1|] eqn:E; [|done]. intros H. constructor; [|by eapply IH].
  destruct e; try done. destruct st as [[n m]|]; [|done]. simpl in E.
  destruct (0 <? len b) eqn:Eb; [by b2p|done].
Qed.

Lemma on_codec_run {A} (m : M codec A) c es h :
  on_codec m (c, es, h) = let '(r, c') := m c in (r, (c', es, h)).
Proof. unfold on_codec, zoom. simpl. by destruct (m c). Qed.

Lemma feed_loop_refines fuel : forall mx k c es h ext,
  codec_ok c -> heap_ok h ext ->
  exists es' h',
    feed_loop fuel mx k (c, es, h) =
      (fst (fst (run fuel mx k c)), (snd (run fuel mx k c), es ++ es', h')) /\
    produced ext h h' es' (snd (fst (run fuel mx k c))).
Proof.
  induction fuel as [|fuel IH]; intros mx k c es h ext Hc Hh; simpl.
  { exists [], h. rewrite app_nil_r. split; [done|]. by apply produced_refl. }
  pose proof (step_spec c Hc) as Hs. unfold bind at 1. rewrite on_codec_run.
  destruct (step c) as [[[ps f]|e] c1].
  2:{ exists [], h. rewrite app_nil_r. split; [done|]. by apply produced_refl. }
  destruct (append_events_spec ps c1 es h ext Hh) as (es1 & h1 & E1 & P1).
  { eapply trace_solid, sp_trace, Hs. }
  pose proof (sp_ok _ _ _ _ Hs) as Hc1. pose proof (pr_ok _ _ _ _ _ P1) as Hh1.
  assert (forall k', exists es' h',
    feed_loop fuel mx k' (c1, es ++ es1, h1) =
      (fst (fst (run fuel mx k' c1)), (snd (run fuel mx k' c1), es ++ es', h')) /\
    produced ext h h' es' (ps ++ snd (fst (run fuel mx k' c1)))) as G.
  { intros k'. destruct (IH mx k' c1 (es ++ es1) h1 ext Hc1 Hh1) as (es2 & h2 & E2 & P2).
    exists (es1 ++ es2), h2. rewrite app_assoc. split; [done|]. by eapply produced_trans. }
  unfold bind. rewrite E1. destruct f; simpl.
  - by exists es1, h1.
  - destruct (G k) as (es' & h' & E & P). destruct (run fuel mx k c1) as [[r qs] c2]. by exists es', h'.
  - destruct (_ && _); [by exists es1, h1|].
    destruct (G (k + 1)) as (es' & h' & E & P). destruct (run fuel mx (k + 1) c1) as [[r qs] c2].
    by exists es', h'.
Qed.

(** ** Facts about [run] *)

Lemma same_limits_refl c : same_limits c c.
Proof. done. Qed.

Lemma same_limits_trans a b c : same_limits a b -> same_limits b c -> same_limits a c.
Proof. unfold same_limits. intuition congruence. Qed.

Record run_post (mx : Z) (c : codec) (r : result unit) (es : list (event bytes)) (c' : codec) : Prop := {
  rp_raise : forall e, r = Raise e -> decoder_exn e;
  rp_ok : r = Ok tt -> codec_ok c' /\ same_limits c c' /\
          trace (max_body_bytes c) (abs c) es = Some (abs c');
  rp_stuck : r = Ok tt -> mx <= 0 -> len (buffer c') <= buffer_bound c';
}.

Lemma run_spec fuel : forall mx k c,
  codec_ok c -> len (buffer c) < Z.of_nat fuel ->
  run_post mx c (fst (fst (run fuel mx k c))) (snd (fst (run fuel mx k c))) (snd (run fuel mx k c)).
Proof.
  induction fuel as [|fuel IH]; intros mx k c Hc Hf.
  { pose proof (len_nonneg (buffer c)). lia. }
  pose proof (step_spec c Hc) as Hs. simpl. destruct (step c) as [[[ps f]|e] c1].
  2:{ split; simpl; try done. by intros ? [= <-]. }
  destruct Hs as [Hok Hl Hp Ht Hst].
  assert (forall k', f <> Break ->
    run_post mx c (fst (fst (run fuel mx k' c1))) (ps ++ snd (fst (run fuel mx k' c1)))
      (snd (run fuel mx k' c1))) as G.
  { intros k' Hf'. specialize (Hp Hf'). destruct (IH mx k' c1 Hok ltac:(lia)) as [H1 H2 H3].
    split; [done| |done]. intros Hr. destruct (H2 Hr) as (Ha & Hb & Hcc). split_and!; [done| |].
    - by eapply same_limits_trans.
    - rewrite (trace_app _ _ _ _ _ Ht). destruct Hl as (_ & _ & _ & Hm & _). by rewrite Hm in Hcc. }
  destruct f; simpl.
  - split; simpl; try done. by intros _ _; apply Hst.
  - specialize (G k ltac:(done)). by destruct (run fuel mx k c1) as [[r qs] c2].
  - destruct (_ && _) eqn:E.
    + split; simpl; try done. b2p. lia.
    + specialize (G (k + 1) ltac:(done)). by destruct (run fuel mx (k + 1) c1) as [[r qs] c2].
Qed.

(** More fuel than the buffered bytes changes nothing, nor does the message count
    when there is no budget. *)
Lemma run_fuel f1 : forall f2 k1 k2 c,
  codec_ok c -> len (buffer c) < Z.of_nat f1 -> len (buffer c) < Z.of_nat f2 ->
  run f1 0 k1 c = run f2 0 k2 c.
Proof.
  induction f1 as [|f1 IH]; intros [|f2] k1 k2 c Hc H1 H2; try (pose proof (len_nonneg (buffer c)); lia).
  pose proof (step_spec c Hc) as Hs. simpl. destruct (step c) as [[[ps [| |]]|e] c1]; try done.
  - destruct Hs as [Hok _ Hp _ _]. rewrite (IH f2 k1 k2 c1); [done|done| |]; specialize (Hp ltac:(done)); lia.
  - destruct Hs as [Hok _ Hp _ _].
    rewrite (IH f2 (k1 + 1) (k2 + 1) c1); [done|done| |]; specialize (Hp ltac:(done)); lia.
Qed.

(** ** Fragmentation *)

(** Adjacent body chunks joined. *)
Fixpoint merge (es : list (event bytes)) : list (event bytes) :=
  match es with
  | [] => []
  | EBody a :: es' =>
      match merge es' with
      | EBody b :: r => EBody (a ++ b) :: r
      | r => EBody a :: r
      end
  | e :: es' => e :: merge es'
  end.

Lemma merge_congr es xs ys : merge xs = merge ys -> merge (es ++ xs) = merge (es ++ ys).
Proof. intros H. induction es as [|[h|b|t] es IH]; simpl; [done|by rewrite IH..]. Qed.

Lemma merge_join a b es : merge (EBody a :: EBody b :: es) = merge (EBody (a ++ b) :: es).
Proof.
  simpl. destruct (merge es) as [|[h|d|t] r]; try done. by rewrite app_assoc.
Qed.

(** A break that consumed part of a fixed-length body. *)
Definition partial (c c' : codec) (es : list (event bytes)) : Prop :=
  state c = FIXED_BODY /\ 0 < len (buffer c) < remaining c /\ es = [EBody (buffer c)] /\
  c' = set_body_received (body_received c + len (buffer c))
         (set_remaining (remaining c - len (buffer c)) (set_buffer [] c)).

Lemma step_break c es c' :
  codec_ok c -> step c = (Ok (es, Break), c') -> (c' = c /\ es = []) \/ partial c c' es.
Proof.
  intros Hc. rewrite step_eq. destruct (state c) eqn:Hst.
  - unfold step_head. unm. destruct (_ <? 0).
    { destruct (_ >? _); [done|]. destruct (_ && _); [done|]. intros [= <- <-]. by left. }
    destruct (_ >? _); [done|]. destruct (parse_head _ _) as [[[h []]|e] c1]; done.
  - pose proof (ok_fixed c Hc Hst) as Hr. unfold step_fixed_body. unm. pose proof (len_nonneg (buffer c)).
    destruct (Z.eqb_spec (len (buffer c)) 0); [intros [= <- <-]; by left|].
    destruct (remaining c >? len (buffer c)) eqn:E; b2p.
    + zdec. simpl. zdec. intros [= <- <-]. right. split_and!; try done; [lia|by rewrite upto_all|].
      by rewrite from_all.
    + zdec. simpl. zdec. done.
  - unfold step_chunk_size. unm. destruct (_ <? 0).
    { destruct (_ >? _); [done|]. intros [= <- <-]. by left. }
    destruct (_ >? 128); [done|]. destruct (parse_chunk_size_line _); [|done].
    destruct (_ >? max_chunk_bytes _); [done|]. destruct (_ >? max_body_bytes _); [done|].
    by destruct (_ =? 0).
  - unfold step_chunk_data. unm. destruct (_ <? _); [intros [= <- <-]; by left|]. by destruct (_ || _).
  - unfold step_trailers. unm. destruct (_ && _); [done|]. destruct (_ <? 0).
    { destruct (_ >? _); [done|]. intros [= <- <-]. by left. }
    destruct (_ >? _); [done|]. destruct (parse_headers _ _) as [[t n]|]; [|done]. cbn beta iota.
    by destruct (existsb _ _).
Qed.

(** The two ways to consume a fixed-length body that arrives in two parts. *)
Lemma step_partial c c1 es b :
  codec_ok c -> partial c c1 es -> b <> [] ->
  exists d tl f c2, step (cext b c1) = (Ok (EBody d :: tl, f), c2) /\
    step (cext b c) = (Ok (EBody (buffer c ++ d) :: tl, f), c2).
Proof.
  intros Hc (Hst & Hlen & -> & ->) Hb. rewrite !step_eq. simpl. rewrite Hst.
  pose proof (len_nonneg b).
  assert (len b <> 0) by (intros E; by apply len_zero_nil in E).
  unfold step_fixed_body. unm. simpl. rewrite len_app. zdec. simpl.
  destruct (Z.ltb_spec (len b) (remaining c - len (buffer c))) as [Hlt|Hge]; zdec; simpl; zdec.
  - do 4 eexists. split; [reflexivity|]. rewrite (upto_app_ge (buffer c)), from_app_ge by lia.
    replace (len (buffer c) + len b - len (buffer c)) with (len b) by lia.
    f_equal. unfold set_remaining, cext, set_body_received, set_remaining, set_buffer; simpl.
    f_equal; lia.
  - do 4 eexists. split; [reflexivity|]. rewrite (upto_app_ge (buffer c)), from_app_ge by lia. done.
Qed.

Lemma cext_ok b c : codec_ok c -> codec_ok (cext b c).
Proof. intros []. by split. Qed.

Lemma run_partial c c1 es b fuel k fuel' k' r2 es2 c2 :
  codec_ok c -> partial c c1 es -> codec_ok c1 ->
  len (buffer (cext b c1)) < Z.of_nat fuel -> len (buffer (cext b c)) < Z.of_nat fuel' ->
  run fuel 0 k (cext b c1) = (r2, es2, c2) ->
  exists es', run fuel' 0 k' (cext b c) = (r2, es', c2) /\ merge es' = merge (es ++ es2).
Proof.
  intros Hc Hp Hc1 Hf Hf' Hr. destruct fuel as [|fuel]; [pose proof (len_nonneg (buffer (cext b c1))); lia|].
  destruct fuel' as [|fuel']; [pose proof (len_nonneg (buffer (cext b c))); lia|].
  destruct (decide (b = [])) as [->|Hb].
  { assert (step c = (Ok (es, Break), c1)) as Hs.
    { destruct Hp as (Hst & Hlen & -> & ->). rewrite step_eq, Hst. unfold step_fixed_body. unm.
      zdec. simpl. zdec. simpl. zdec. rewrite upto_all, from_all by lia. done. }
    assert (forall x, cext [] x = x) as Hx by (intros []; unfold cext, set_buffer; simpl; by rewrite app_nil_r).
    rewrite !Hx in *. assert (step c1 = (Ok ([], Break), c1)) as Hs1.
    { destruct Hp as (Hst & _ & _ & ->). rewrite step_eq. simpl. rewrite Hst. unfold step_fixed_body. unm. done. }
    simpl in Hr. rewrite Hs1 in Hr. simplify_eq. exists es. simpl. rewrite Hs, app_nil_r. done. }
  destruct (step_partial c c1 es b Hc Hp Hb) as (d & tl & f & c3 & E1 & E2).
  pose proof (step_spec _ (cext_ok b c Hc)) as Hs. rewrite E2 in Hs.
  pose proof (step_spec _ (cext_ok b c1 Hc1)) as Hs1. rewrite E1 in Hs1.
  pose proof Hp as (_ & _ & -> & _). cbn [run] in Hr |- *. rewrite E1 in Hr. rewrite E2.
  change (0 >? 0) with false in *. cbn [andb] in *. destruct f; cbn iota beta in *.
  - simplify_eq. eexists. split; [reflexivity|]. symmetry. apply merge_join.
  - specialize (sp_progress _ _ _ _ Hs ltac:(done)) as Hd. specialize (sp_progress _ _ _ _ Hs1 ltac:(done)) as Hd1.
    rewrite (run_fuel fuel' fuel k' k c3 (sp_ok _ _ _ _ Hs)) by lia.
    destruct (run fuel 0 k c3) as [[r qs] c4]. simplify_eq. eexists. split; [reflexivity|].
    symmetry. apply merge_join.
  - specialize (sp_progress _ _ _ _ Hs ltac:(done)) as Hd. specialize (sp_progress _ _ _ _ Hs1 ltac:(done)) as Hd1.
    rewrite (run_fuel fuel' fuel (k' + 1) (k + 1) c3 (sp_ok _ _ _ _ Hs)) by lia.
    destruct (run fuel 0 (k + 1) c3) as [[r qs] c4]. simplify_eq. eexists. split; [reflexivity|].
    symmetry. apply merge_join.
Qed.

Lemma run_fragment fuel : forall c k es1 c1 b fuel2 k2 r2 es2 c2 fuel3 k3,
  codec_ok c -> len (buffer c) < Z.of_nat fuel -> run fuel 0 k c = (Ok tt, es1, c1) ->
  len (buffer (cext b c1)) < Z.of_nat fuel2 -> run fuel2 0 k2 (cext b c1) = (r2, es2, c2) ->
  len (buffer (cext b c)) < Z.of_nat fuel3 ->
  exists es, run fuel3 0 k3 (cext b c) = (r2, es, c2) /\ merge es = merge (es1 ++ es2).
Proof.
  induction fuel as [|fuel IH]; intros c k es1 c1 b fuel2 k2 r2 es2 c2 fuel3 k3 Hc Hf Hr Hf2 Hr2 Hf3.
  { pose proof (len_nonneg (buffer c)). lia. }
  pose proof (step_spec c Hc) as Hs. simpl in Hr.
  destruct (step c) as [[[ps f]|e] c'] eqn:E; [|done].
  assert (f <> Break -> forall k', (let '(r, es', c'') := run fuel 0 k' c' in (r, ps ++ es', c'')) = (Ok tt, es1, c1) ->
    exists es, run fuel3 0 k3 (cext b c) = (r2, es, c2) /\ merge es = merge (es1 ++ es2)) as G.
  { intros Hnb k' Hr'. pose proof (step_ext b c ps f c' Hc E Hnb) as E'.
    destruct fuel3 as [|fuel3]; [pose proof (len_nonneg (buffer (cext b c))); lia|].
    pose proof (sp_progress _ _ _ _ Hs Hnb) as Hd.
    destruct (run fuel 0 k' c') as [[r qs] c''] eqn:Er. simplify_eq.
    simpl in Hf3. rewrite len_app in Hf3.
    destruct (IH c' k' qs c1 b fuel2 k2 r2 es2 c2 fuel3 (if f is MessageDone then k3 + 1 else k3)
      (sp_ok _ _ _ _ Hs) ltac:(lia) Er Hf2 Hr2) as (es & E1 & E2).
    { simpl. rewrite len_app. lia. }
    exists (ps ++ es). split; [|by rewrite <- app_assoc; apply merge_congr].
    simpl. rewrite E'. destruct f; [done|..]; simpl; by rewrite E1. }
  destruct f; [|by apply (G ltac:(done) k)|by apply (G ltac:(done) (k + 1))]. simplify_eq.
  destruct (step_break c _ _ Hc E) as [[-> ->]|Hp].
  - exists es2. split; [|done]. rewrite <- Hr2. apply run_fuel; [by apply cext_ok|done|done].
  - eapply run_partial; [exact Hc|exact Hp|apply (sp_ok _ _ _ _ Hs)|exact Hf2|exact Hf3|exact Hr2].
Qed.
