(* ===== verification/Http1Spec.v ===== *)
(** * Properties of the request decoder

    What [Http1ServerCodec.feed] promises its caller: the same outcome however the
    input goes on after a fragment that was accepted, well-formed events within the limits,
    unambiguous request heads, bounded buffering, and no view left behind by a protocol error. *)

From S2P Require Import Prelude PyStr Buffer Http1 PyStrFacts Http1Parse Http1Decode Http1Feed.
#[local] Open Scope Z_scope.
Import Http1ServerCodec.

(** ** Helpers *)

Lemma release_events_spec es : forall h ext ps,
  heap_ok h ext -> Forall2 (event_ok h) es ps -> NoDup (body_views es) ->
  exists h', release_events es h = (Ok tt, h') /\ heap_ok h' ext /\
    length (views h') = length (views h) /\
    (forall u, vbytes h' u = if bool_decide (u ∈ body_views es) then None else vbytes h u).
Proof.
  induction es as [|e es IH]; intros h ext ps Hok He Hn.
  { exists h. split_and!; try done. }
  inversion He as [|? p ? ps' Hep He']; subst. destruct e as [a|b|t].
  1,3: destruct (IH h ext ps' Hok He' Hn) as (h' & E & ?); by exists h'.
  destruct p as [|d|]; try done. destruct Hep as [Hb Hr].
  change (body_views (EBody b :: es)) with (bc_view b :: body_views es) in *. apply NoDup_cons in Hn as [Hni Hn].
  destruct (view_release_spec h ext (bc_view b) d Hok Hb) as (h1 & n & E1 & Hok1 & Hl1 & Hv1).
  destruct (IH h1 ext ps' Hok1) as (h2 & E2 & Hok2 & Hl2 & Hv2); [|done|].
  { apply (event_ok_ext h); [done|]. intros v Hv. rewrite Hv1. unfold voverride.
    destruct (Nat.eqb_spec v (bc_view b)) as [->|]; done. }
  exists h2. split_and!; [|done|lia|].
  - simpl. rewrite Hr. unfold BodyChunk.release. rewrite Hr. unfold bind. rewrite E1. exact E2.
  - intros u. rewrite Hv2, Hv1. unfold voverride. destruct (Nat.eqb_spec u (bc_view b)) as [->|Hne].
    + rewrite (bool_decide_eq_true_2 (_ ∈ _ :: _)) by (by left). by destruct (bool_decide _).
    + do 2 case_bool_decide; try done; exfalso.
      * apply H0. by right.
      * apply elem_of_cons in H0 as [?|?]; done.
Qed.

(** [feed] on an open decoder, through [run]. *)
Lemma feed_run c h ext data mx :
  codec_ok c -> heap_ok h ext -> 0 <= mx -> codec_closed c = false ->
  let R := run (feed_fuel (cext data c)) mx 0 (cext data c) in
  exists es h1, produced ext h h1 es (snd (fst R)) /\
    match fst (fst R) with
    | Ok _ => feed data mx (c, h) = (Ok es, (snd R, h1))
    | Raise e =>
        exists h2, feed data mx (c, h) = (Raise e, (snd R, h2)) /\
          (is_Http1Error e = true -> heap_ok h2 ext /\
             forall u, vbytes h2 u = if decide (u < length (views h))%nat then vbytes h u else None)
    end.
Proof.
  intros Hc Hh Hmx Hcl R.
  destruct (feed_loop_refines (feed_fuel (cext data c)) mx 0 (cext data c) [] h ext (cext_ok _ _ Hc) Hh)
    as (es & h1 & E & P). fold R in E, P. exists es, h1. split; [done|].
  assert (feed_pending data mx (c, [], h) = (fst (fst R), (snd R, es, h1))) as Ef.
  { unfold feed_pending. unfold bind at 1. rewrite on_codec_run. unfold get at 1. cbn beta iota.
    zdec. rewrite Hcl. unfold bind at 1. rewrite on_codec_run. unfold modify. cbn beta iota.
    unfold bind at 1. rewrite on_codec_run. unfold get. cbn beta iota. exact E. }
  unfold feed, try_except. simpl. rewrite Ef. destruct (fst (fst R)) as [[]|e]; [done|].
  destruct (is_Http1Error e) eqn:Ee.
  2:{ exists h1. split; [|done]. done. }
  destruct (release_events_spec es h1 ext _ (pr_ok _ _ _ _ _ P) (pr_events _ _ _ _ _ P)) as
    (h2 & E2 & Hok2 & Hl2 & Hv2).
  { rewrite (pr_views _ _ _ _ _ P). apply NoDup_seq. }
  exists h2. split.
  - unfold bind, get, in_heap, zoom, raise. simpl. by rewrite E2.
  - intros _. split; [done|]. intros u. rewrite Hv2, (pr_views _ _ _ _ _ P).
    pose proof (pr_grows _ _ _ _ _ P). case_decide as Hu.
    + rewrite bool_decide_eq_false_2; [|rewrite elem_of_seq; lia]. by apply (pr_old _ _ _ _ _ P).
    + case_bool_decide as Hin; [done|]. rewrite elem_of_seq in Hin.
      unfold vbytes. destruct (views h1 !! u) eqn:El; [|done]. apply lookup_lt_Some in El. lia.
Qed.

(** The bytes the events of a list carry. *)
Definition contents (h : heap) (es : list (event body_chunk)) : list (event bytes) :=
  map (fun e => match e with
                | EHead x => EHead x
                | EBody b => EBody (default [] (vbytes h (bc_view b)))
                | EEnd t => EEnd t
                end) es.

Lemma contents_ok h es ps : Forall2 (event_ok h) es ps -> contents h es = ps.
Proof.
  induction 1 as [|e p es ps He H IH]; [done|]. simpl. rewrite IH. f_equal.
  destruct e, p; simpl in He; try done; [by subst| |by subst]. destruct He as [-> _]. done.
Qed.

Lemma feed_fuel_enough data c : len (buffer (cext data c)) < Z.of_nat (feed_fuel (cext data c)).
Proof. unfold feed_fuel, len. lia. Qed.

(** A call that returned: the pure run behind it. *)
Lemma feed_ok_inv c h ext data mx es c' h' :
  codec_ok c -> heap_ok h ext -> 0 <= mx -> codec_closed c = false ->
  feed data mx (c, h) = (Ok es, (c', h')) ->
  exists ps, run (feed_fuel (cext data c)) mx 0 (cext data c) = (Ok tt, ps, c') /\
    produced ext h h' es ps /\ run_post mx (cext data c) (Ok tt) ps c'.
Proof.
  intros Hc Hh Hmx Hcl E. destruct (feed_run c h ext data mx Hc Hh Hmx Hcl) as (es1 & h1 & P & F).
  pose proof (run_spec _ mx 0 _ (cext_ok data c Hc) (feed_fuel_enough data c)) as Hr.
  destruct (run _ mx 0 _) as [[r ps] c2]. simpl in *. destruct r as [[]|e].
  - rewrite E in F. simplify_eq. by exists ps.
  - destruct F as (h2 & F & _). by rewrite E in F.
Qed.

Definition heads_ok (c : codec) (es : list (event bytes)) : Prop :=
  Forall (fun e => match e with EHead h => head_ok c h | _ => True end) es.

Lemma head_ok_limits c c' h : same_limits c c' -> head_ok c' h -> head_ok c h.
Proof. intros (H1 & H2 & H3 & H4 & H5 & H6) []. by split; rewrite <- ?H3, <- ?H4. Qed.

Lemma step_heads c es f c' : step c = (Ok (es, f), c') -> heads_ok c es.
Proof.
  rewrite step_eq. destruct (state c).
  - unfold step_head. unm. destruct (_ <? 0).
    { destruct (_ >? _); [done|]. destruct (_ && _); [done|]. intros [= <- <- <-]. constructor. }
    destruct (_ >? _); [done|]. unfold parse_head. unm. set (c1 := set_buffer _ c). set (block := upto _ _).
    pose proof (parse_head_event_spec c1 block) as Hp. destruct (parse_head_event c1 block) as [x|e]; [|done].
    assert (head_ok c x) by (by destruct Hp; split).
    destruct (chunked x); [|destruct (_ >? 0)]; intros; simplify_eq/=; apply Forall_cons; split; try done;
      by repeat constructor.
  - unfold step_fixed_body. unm. destruct (_ =? 0); [intros; simplify_eq; constructor|].
    destruct (_ =? 0); intros; simplify_eq; destruct (_ >? 0); repeat constructor.
  - unfold step_chunk_size. unm. destruct (_ <? 0); [destruct (_ >? _); intros; simplify_eq; constructor|].
    destruct (_ >? _); [done|]. destruct (parse_chunk_size_line _); [|done].
    destruct (_ >? _); [done|]. destruct (_ >? _); [done|]. destruct (_ =? 0); intros; simplify_eq; constructor.
  - unfold step_chunk_data. unm. destruct (_ <? _); [intros; simplify_eq; constructor|].
    destruct (_ || _); intros; simplify_eq; repeat constructor.
  - unfold step_trailers. unm. destruct (_ && _); [intros; simplify_eq; repeat constructor|].
    destruct (_ <? 0); [destruct (_ >? _); intros; simplify_eq; constructor|].
    destruct (_ >? _); [done|]. destruct (parse_headers _ _) as [[t n]|]; [|done]. cbn beta iota.
    destruct (existsb _ _); intros; simplify_eq; repeat constructor.
Qed.

Lemma run_heads fuel : forall mx k c,
  codec_ok c -> heads_ok c (snd (fst (run fuel mx k c))).
Proof.
  induction fuel as [|fuel IH]; intros mx k c Hc; simpl; [constructor|].
  pose proof (step_spec c Hc) as Hs. destruct (step c) as [[[es f]|e] c'] eqn:E; [|constructor].
  pose proof (step_heads _ _ _ _ E) as Hh.
  assert (forall k', heads_ok c (es ++ snd (fst (run fuel mx k' c')))) as G.
  { intros k'. apply Forall_app. split; [done|]. pose proof (IH mx k' c' (sp_ok _ _ _ _ Hs)) as Hi.
    eapply Forall_impl; [exact Hi|]. intros [h| |] Hx; try done.
    eapply head_ok_limits; [|exact Hx]. apply Hs. }
  destruct f; [done| |].
  - specialize (G k). by destruct (run fuel mx k c') as [[r qs] c2].
  - destruct (_ && _); [done|]. specialize (G (k + 1)). by destruct (run fuel mx (k + 1) c') as [[r qs] c2].
Qed.

(** Every decoder the constructor accepts is well formed. *)
Lemma init_ok ml mh mc mb mk c : init ml mh mc mb mk = Ok c -> codec_ok c /\ codec_closed c = false.
Proof.
  unfold init. destruct (_ || _) eqn:E; [done|]. intros [= <-]. b2p.
  split; [|done]. split; simpl; try done; try lia; intros [?|?]; done.
Qed.

Lemma default_codec_ok : codec_ok default_codec.
Proof. by apply (init_ok 8192 32768 100 16777216 1048576). Qed.

(** ** Properties *)

(** C2: fragmentation.  Once a first fragment is accepted (by a call without a message
    budget), feeding a second one and feeding both at once have the same outcome: either both
    are accepted and leave the decoder in the same state, with the same events up to the
    cutting of body chunks, or both raise the same exception and leave the same decoder.  When
    the first fragment alone is refused this says nothing, and it may differ: a request line
    of exactly the allowed length is refused when a fragment ends between its CR and LF
    ([request_line_limit_depends_on_fragmentation]). *)
Theorem feed_fragmentation c h ext a b es1 c1 h1 :
  codec_ok c -> codec_closed c = false -> heap_ok h ext ->
  feed a 0 (c, h) = (Ok es1, (c1, h1)) ->
  match feed b 0 (c1, h1) with
  | (Ok es2, (c2, h2)) =>
      exists es h', feed (a ++ b) 0 (c, h) = (Ok es, (c2, h')) /\ merge (contents h' es) = merge (contents h2 (es1 ++ es2))
  | (Raise e, (c2, h2)) => exists h', feed (a ++ b) 0 (c, h) = (Raise e, (c2, h'))
  end.
Proof.
  intros Hc Hcl Hh E1.
  destruct (feed_ok_inv _ _ ext _ _ _ _ _ Hc Hh (Z.le_refl 0) Hcl E1) as (ps1 & R1 & P1 & Q1).
  destruct (rp_ok _ _ _ _ _ Q1 eq_refl) as (Hc1 & Hl1 & _).
  assert (codec_closed c1 = false) as Hcl1 by (by destruct Hl1 as (_ & _ & _ & _ & _ & ->)).
  assert (cext b (cext a c) = cext (a ++ b) c) as Hx.
  { unfold cext, set_buffer. simpl. by rewrite app_assoc. }
  destruct (feed_run c1 h1 ext b 0 Hc1 (pr_ok _ _ _ _ _ P1) (Z.le_refl 0) Hcl1) as (es2 & h2 & P2 & F2).
  destruct (run (feed_fuel (cext b c1)) 0 0 (cext b c1)) as [[r2 ps2] c2] eqn:R2. cbn [fst snd] in P2, F2.
  destruct (run_fragment _ _ _ _ _ b _ _ _ _ _ (feed_fuel (cext (a ++ b) c)) 0
    (cext_ok a c Hc) (feed_fuel_enough a c) R1 (feed_fuel_enough b c1) R2) as (ps & R & Hm).
  { rewrite Hx. apply feed_fuel_enough. }
  rewrite Hx in R. destruct (feed_run c h ext (a ++ b) 0 Hc Hh (Z.le_refl 0) Hcl) as (es & h' & P & F).
  rewrite R in P, F. cbn [fst snd] in P, F. destruct r2 as [u|e].
  - rewrite F2. exists es, h'. split; [done|].
    rewrite (contents_ok _ _ _ (pr_events _ _ _ _ _ P)).
    rewrite (contents_ok _ _ _ (pr_events _ _ _ _ _ (produced_trans _ _ _ _ _ _ _ _ P1 P2))). done.
  - destruct F2 as (h3 & -> & _), F as (h4 & -> & _). by exists h4.
Qed.

Definition post_head : bytes := py "POST /a HTTP/1.1" ++ CRLF ++ py "Host: x" ++ CRLF ++ py "Content-Length: 5" ++ CRLF2.
Definition post_event : request_head :=
  RequestHead (py "POST") (py "/a") (py "HTTP/1.1") [(py "host", py "x"); (py "content-length", py "5")] true false 5 false.
Lemma feed_fragmentation_witness :
  exists es c' h', feed ((post_head ++ py "ab") ++ py "cde") 0 (default_codec, Heap [] []) = (Ok es, (c', h')) /\
    merge (contents h' es) = [EHead post_event; EBody (py "abcde"); EEnd []].
Proof.
  assert (exists es1 c1 h1 es2 c2 h2,
    feed (post_head ++ py "ab") 0 (default_codec, Heap [] []) = (Ok es1, (c1, h1)) /\
    feed (py "cde") 0 (c1, h1) = (Ok es2, (c2, h2)) /\
    merge (contents h2 (es1 ++ es2)) = [EHead post_event; EBody (py "abcde"); EEnd []])
    as (es1 & c1 & h1 & es2 & c2 & h2 & E1 & E2 & Em).
  { do 6 eexists. split; [vm_compute; reflexivity|]. split; [vm_compute; reflexivity|]. vm_compute. reflexivity. }
  pose proof (feed_fragmentation default_codec (Heap [] []) (fun _ => 0) _ (py "cde") es1 c1 h1
    default_codec_ok eq_refl heap_ok_empty E1) as T. rewrite E2 in T. destruct T as (es & h' & E & Hm).
  exists es, c2, h'. split; [exact E|]. rewrite Hm. exact Em.
Defined.



(** C1: request heads are unambiguous.  Every head [feed] returns has a token method, an
    origin-form target without controls or spaces, clean headers within the count limit,
    exactly one [Host] under HTTP/1.1, and a body delimited in exactly one way: only
    [Transfer-Encoding: chunked], or a single all-digit [Content-Length] within the
    limit and no [Transfer-Encoding], or neither. *)
Theorem feed_heads_unambiguous c h ext data mx es c' h' x :
  codec_ok c -> codec_closed c = false -> heap_ok h ext -> 0 <= mx ->
  feed data mx (c, h) = (Ok es, (c', h')) -> EHead x ∈ es -> head_ok c x.
Proof.
  intros Hc Hcl Hh Hmx E Hin. destruct (feed_ok_inv _ _ ext _ _ _ _ _ Hc Hh Hmx Hcl E) as (ps & R & P & _).
  pose proof (run_heads (feed_fuel (cext data c)) mx 0 (cext data c) (cext_ok _ _ Hc)) as Hr.
  rewrite R in Hr. simpl in Hr. rewrite <- (contents_ok _ _ _ (pr_events _ _ _ _ _ P)) in Hr.
  unfold heads_ok in Hr. rewrite Forall_forall in Hr.
  assert (head_ok (cext data c) x) as Hx.
  { apply (Hr (EHead x)). apply list_elem_of_fmap. by exists (EHead x). }
  by destruct Hx; split.
Qed.

Lemma feed_heads_unambiguous_witness : head_ok default_codec post_event.
Proof.
  assert (exists es c' h', feed post_head 0 (default_codec, Heap [] []) = (Ok es, (c', h')) /\ es = [EHead post_event])
    as (es & c' & h' & E & ->) by (do 3 eexists; split; vm_compute; reflexivity).
  apply (feed_heads_unambiguous default_codec (Heap [] []) (fun _ => 0) _ 0 _ c' h' post_event
    default_codec_ok eq_refl heap_ok_empty (Z.le_refl 0) E). left.
Defined.

(** C20: failure is total and clean.  A call always terminates; if it raises, the
    exception is a protocol error or [int]'s refusal of an over-long literal, and after
    a protocol error every view the call allocated has been released and no other view
    was touched. *)
Theorem feed_error_releases_bodies c h ext data mx e c' h' :
  codec_ok c -> codec_closed c = false -> heap_ok h ext -> 0 <= mx ->
  feed data mx (c, h) = (Raise e, (c', h')) ->
  decoder_exn e /\
  (is_Http1Error e = true ->
   heap_ok h' ext /\
   forall u, vbytes h' u = if decide (u < length (views h))%nat then vbytes h u else None).
Proof.
  intros Hc Hcl Hh Hmx E. destruct (feed_run c h ext data mx Hc Hh Hmx Hcl) as (es1 & h1 & P & F).
  pose proof (run_spec _ mx 0 _ (cext_ok data c Hc) (feed_fuel_enough data c)) as Hr.
  destruct (run _ mx 0 _) as [[r ps] c2]. simpl in *. destruct r as [[]|e'].
  - by rewrite E in F.
  - destruct F as (h2 & F & G). rewrite E in F. simplify_eq. split; [|done].
    by apply (rp_raise _ _ _ _ _ Hr).
Qed.

Lemma feed_error_releases_bodies_witness :
  exists e c' h', feed (post_head ++ py "abcdeGET / HTTP/2" ++ CRLF2) 0 (default_codec, Heap [] []) = (Raise e, (c', h')) /\
    length (views h') = 1%nat /\ forall u, vbytes h' u = None.
Proof.
  assert (exists e c' h', feed (post_head ++ py "abcdeGET / HTTP/2" ++ CRLF2) 0 (default_codec, Heap [] []) = (Raise e, (c', h'))
    /\ length (views h') = 1%nat /\ is_Http1Error e = true)
    as (e & c' & h' & E & Hl & He) by (do 3 eexists; split; [|split]; vm_compute; reflexivity).
  exists e, c', h'. split; [exact E|]. split; [exact Hl|].
  destruct (feed_error_releases_bodies default_codec (Heap [] []) (fun _ => 0) _ 0 e c' h'
    default_codec_ok eq_refl heap_ok_empty (Z.le_refl 0) E) as [_ H].
  destruct (H He) as [_ Hu]. intros u. rewrite Hu. destruct (decide _) as [Hlt|]; [|reflexivity].
  exfalso. simpl in Hlt. lia.
Defined.
