(* ===== verification/Http1Encode.v ===== *)
(** * The response encoder against the parsers

    What [Http1ResponseEncoder] writes is read back unchanged: a chunked body with its
    trailers by the gateway's own decoder, a response head as the header list the
    application gave followed by exactly the framing the gateway chose. *)

From S2P Require Import Prelude PyStr PyLists Buffer Http1 PyStrFacts Http1Parse Http1Wire.
From S2P Require Import Http1Decode Http1Feed Http1Spec.
#[local] Open Scope Z_scope.
Import Http1ServerCodec.

(** ** Runs that consume a prefix of the buffer *)

(** The loop goes from [c] to [c1], emitting [es], whatever follows. *)
Definition leads (c : codec) (es : list (event bytes)) (c1 : codec) : Prop :=
  exists n, forall f mx k,
    run (n + f) mx k c = let '(r, es', c2) := run f mx k c1 in (r, es ++ es', c2).

Lemma leads_refl c : leads c [] c.
Proof. exists 0%nat. intros f mx k. simpl. by destruct (run f mx k c) as [[r es] c2]. Qed.

Lemma leads_step c es1 c1 es2 c2 :
  step c = (Ok (es1, Continue), c1) -> leads c1 es2 c2 -> leads c (es1 ++ es2) c2.
Proof.
  intros E [n Hn]. exists (S n). intros f mx k. change (S n + f)%nat with (S (n + f)). cbn [run]. rewrite E, Hn.
  destruct (run f mx k c2) as [[r es] c3]. by rewrite <- app_assoc.
Qed.

Lemma leads_trans c es1 c1 es2 c2 : leads c es1 c1 -> leads c1 es2 c2 -> leads c (es1 ++ es2) c2.
Proof.
  intros [n Hn] [m Hm]. exists (n + m)%nat. intros f mx k. rewrite <- Nat.add_assoc, Hn, Hm.
  destruct (run f mx k c2) as [[r es] c3]. by rewrite <- app_assoc.
Qed.

(** ... to a last iteration that ends the only message. *)
Lemma leads_run c es c1 es1 c2 fuel :
  codec_ok c -> len (buffer c) < Z.of_nat fuel ->
  leads c es c1 -> step c1 = (Ok (es1, MessageDone), c2) -> step c2 = (Ok ([], Break), c2) ->
  run fuel 0 0 c = (Ok tt, es ++ es1, c2).
Proof.
  intros Hc Hf [n Hn] E1 E2. rewrite (run_fuel fuel (n + S (S fuel)) 0 0 c Hc) by lia.
  rewrite Hn. cbn [run]. rewrite E1. change (0 >? 0) with false. cbn [andb]. rewrite E2. by rewrite app_nil_r.
Qed.

(** ** Chunks *)

Definition with_state (s : codec_state) (r b : Z) (buf : bytes) (c : codec) : codec :=
  set_buffer buf (set_body_received b (set_remaining r (set_state s c))).

Lemma chunk_encoded d : 0 < len d -> Http1ResponseEncoder.chunk d = Ok (hex_of_int (len d) ++ CRLF ++ d ++ CRLF).
Proof.
  intros Hd. unfold Http1ResponseEncoder.chunk. zdec. rewrite utf8_encode_ascii; [done|].
  eapply Forall_impl; [apply hex_of_int_chars; lia|]. simpl. lia.
Qed.

Lemma chunk_size_line c n b k :
  0 <= n < 2 ^ 64 -> n <= max_chunk_bytes c -> b + n <= max_body_bytes c ->
  step (with_state CHUNK_SIZE 0 b (hex_of_int n ++ CRLF ++ k) c) =
  (Ok ([], Continue), if n =? 0 then with_state TRAILERS 0 b k c else with_state CHUNK_DATA n b k c).
Proof.
  intros Hn Hm Hb. rewrite step_eq. cbn [state with_state set_buffer set_body_received set_remaining set_state].
  unfold step_chunk_size. unm. cbn [buffer with_state set_buffer set_body_received set_remaining set_state].
  assert (len (hex_of_int n) <= 16) as Hl.
  { pose proof (digits_go_length 16 (S (Z.to_nat (Z.log2 n))) n [] 16) as H. lens. apply H; lia. }
  rewrite find_crlf_line.
  2:{ eapply Forall_impl; [apply hex_of_int_chars; lia|]. simpl. lia. }
  pose proof (len_nonneg (hex_of_int n)). zdec.
  rewrite upto_app_le, upto_all, chunk_line_roundtrip by lia.
  rewrite from_app_ge by lia. replace (len (hex_of_int n) + 2 - len (hex_of_int n)) with 2 by lia.
  change (from (CRLF ++ k) 2) with k.
  cbn [max_chunk_bytes max_body_bytes body_received with_state set_buffer set_body_received set_remaining set_state].
  zdec. by destruct (n =? 0).
Qed.

Lemma chunk_data_line c d b k :
  0 < len d ->
  step (with_state CHUNK_DATA (len d) b (d ++ CRLF ++ k) c) =
  (Ok ([EBody d], Continue), with_state CHUNK_SIZE 0 (b + len d) k c).
Proof.
  intros Hd. rewrite step_eq. cbn [state with_state set_buffer set_body_received set_remaining set_state].
  unfold step_chunk_data. unm.
  cbn [buffer remaining body_received with_state set_buffer set_body_received set_remaining set_state].
  lens. change (len CRLF) with 2. pose proof (len_nonneg k). zdec.
  assert (forall i v, 0 <= i -> at_is (d ++ CRLF ++ k) (len d + i) v = at_is (CRLF ++ k) i v) as Ha.
  { intros i v Hi. unfold at_is. rewrite !at_lookup by lia. unfold len.
    rewrite lookup_app_r by lia. by replace (Z.to_nat (Z.of_nat (length d) + i) - length d)%nat with (Z.to_nat i) by lia. }
  assert (at_is (d ++ CRLF ++ k) (len d) 13 = true) as -> by (rewrite <- (Z.add_0_r (len d)); by rewrite Ha).
  rewrite Ha by lia.
  change (at_is (CRLF ++ k) 1 10) with true. cbn [negb orb].
  rewrite upto_app_le, upto_all by lia. rewrite from_app_ge by lia.
  replace (len d + 2 - len d) with 2 by lia. done.
Qed.

(** The chunks of a body, as the server sends them one by one. *)
Fixpoint encode_chunks (ds : list bytes) : result bytes :=
  match ds with
  | [] => Ok []
  | d :: ds' =>
      let? a := Http1ResponseEncoder.chunk d in
      let? b := encode_chunks ds' in
      Ok (a ++ b)
  end.
Definition solid_chunks (ds : list bytes) : list bytes := List.filter (fun d => 0 <? len d) ds.

Lemma chunks_lead ds : forall c b bs k,
  max_chunk_bytes c < 2 ^ 64 -> Forall (fun d => len d <= max_chunk_bytes c) ds ->
  b + total ds <= max_body_bytes c -> encode_chunks ds = Ok bs ->
  leads (with_state CHUNK_SIZE 0 b (bs ++ k) c) (map EBody (solid_chunks ds))
        (with_state CHUNK_SIZE 0 (b + total ds) k c).
Proof.
  induction ds as [|d ds IH]; intros c b bs k Hm Hd Hb; cbn [encode_chunks].
  { intros [= <-]. simpl. rewrite Z.add_0_r. apply leads_refl. }
  apply Forall_cons in Hd as [Hl Hd]. simpl in Hb. pose proof (total_nonneg ds). pose proof (len_nonneg d).
  cbn [solid_chunks List.filter total fold_right]. destruct (Z.ltb_spec 0 (len d)) as [Hp|Hz].
  - rewrite chunk_encoded by done. cbn [rbind]. destruct (encode_chunks ds) as [bs'|] eqn:E; cbn [rbind]; [|done].
    intros <-%Ok_inj. rewrite <- !app_assoc. cbn [map].
    apply (leads_step _ [] (with_state CHUNK_DATA (len d) b (d ++ CRLF ++ bs' ++ k) c)).
    { rewrite chunk_size_line by lia. by zdec. }
    apply (leads_step _ [EBody d] (with_state CHUNK_SIZE 0 (b + len d) (bs' ++ k) c)).
    { by apply chunk_data_line. }
    rewrite Z.add_assoc. apply IH; try done. lia.
  - unfold Http1ResponseEncoder.chunk at 1. zdec. cbn [rbind].
    destruct (encode_chunks ds) as [bs'|] eqn:E; cbn [rbind]; [|done]. intros [= <-].
    rewrite Z.add_assoc. replace (b + len d) with b by lia. apply IH; try done. lia.
Qed.

Lemma values_received_none n hs :
  Forall (fun h => lower (fst h) <> n) hs -> forall v, (n, v) ∉ map received hs.
Proof.
  intros H v Hin. apply list_elem_of_fmap in Hin as (h & E & Hh). rewrite Forall_forall in H.
  apply (H h Hh). by injection E.
Qed.

Lemma trailers_line c b hs bs :
  Http1ResponseEncoder.encode_fields Http1ResponseEncoder.trailer_owned Http1ResponseEncoder.trailer_refused hs = Ok bs ->
  len bs + 2 <= max_header_bytes c -> len hs <= max_header_count c ->
  step (with_state TRAILERS 0 b (bs ++ CRLF) c) =
  (Ok ([EEnd (map received hs)], MessageDone), with_state HEAD 0 0 [] c).
Proof.
  intros E Hh Hn. destruct (encode_fields_inv _ _ _ _ E) as (-> & Hs & Ho).
  rewrite step_eq. cbn [state with_state set_buffer set_body_received set_remaining set_state].
  unfold step_trailers. unm. cbn [buffer with_state set_buffer set_body_received set_remaining set_state].
  destruct hs as [|h hs]; [done|]. set (ls := map field_line (h :: hs)) in *.
  pose proof (fields_block _ Hs) as Hok. fold ls in Hok.
  assert (starts_with CRLF (wire ls ++ CRLF) = false) as Hnc.
  { subst ls. cbn [map] in *. rewrite wire_cons, <- app_assoc. apply Forall_cons in Hok as [[H1 H2] _].
    by apply starts_crlf_line. }
  rewrite starts_crlf_at, Hnc.
  pose proof (find_double_wire ls [] ltac:(done) Hok) as Hf. rewrite app_nil_r in Hf. rewrite Hf.
  destruct (wire_block ls [] ltac:(done)) as [Hu Hfr]. rewrite app_nil_r in Hu, Hfr. rewrite Hu, Hfr.
  assert (len (wire ls) >= 2).
  { subst ls. cbn [map]. rewrite wire_cons. lens. change (len CRLF) with 2.
    pose proof (len_nonneg (field_line h)). pose proof (len_nonneg (wire (map field_line hs))). lia. }
  cbn [max_header_bytes max_header_count with_state set_buffer set_body_received set_remaining set_state]. zdec.
  rewrite split_join; [|done|]. 2:{ eapply Forall_impl; [exact Hok|]. by intros x [_ ?]. }
  destruct (parse_fields (max_header_count c) (h :: hs) [] ∅ Hs ltac:(lens; lia) indexes_empty) as (names & Ep & Hi).
  unfold parse_headers. fold ls in Ep. rewrite Ep. cbn [app] in *. cbn beta iota.
  assert (existsb (fun forbidden => bool_decide (is_Some (names !! forbidden))) forbidden_trailers = false) as ->; [|done].
  apply not_true_iff_false. intros (n & Hin & Hb)%existsb_exists. apply bool_decide_eq_true in Hb.
  destruct (Hi n) as [_ Hex]. apply Hex in Hb as [v Hv]. revert Hv. apply (values_received_none n (h :: hs)).
  eapply Forall_impl; [exact Ho|]. intros x Hx <-. apply Hx. apply list_elem_of_In.
  unfold Http1ResponseEncoder.trailer_owned. destruct Hin as [<-|[<-|[<-|[]]]]; simpl; tauto.
Qed.

(** C29: the chunked coding round-trips.  Whatever chunks and trailers the encoder
    accepts, within the limits of the decoder, feeding the decoder the bytes produces
    exactly the non-empty chunks, in order, and the trailers with lower-case names and
    trimmed values, and leaves it idle with nothing buffered. *)
Theorem chunked_roundtrip c h ext ds trailers bs e :
  codec_ok c -> codec_closed c = false -> heap_ok h ext ->
  state c = CHUNK_SIZE -> buffer c = [] -> body_received c = 0 -> remaining c = 0 ->
  max_chunk_bytes c < 2 ^ 64 -> Forall (fun d => len d <= max_chunk_bytes c) ds ->
  0 <= max_chunk_bytes c -> total ds <= max_body_bytes c ->
  len e <= max_header_bytes c -> len trailers <= max_header_count c ->
  encode_chunks ds = Ok bs -> Http1ResponseEncoder.end_chunks trailers = Ok e ->
  exists es h', feed (bs ++ e) 0 (c, h) = (Ok es, (reset_message (set_buffer [] c), h')) /\
    contents h' es = map EBody (solid_chunks ds) ++ [EEnd (map received trailers)].
Proof.
  intros Hc Hcl Hh Hst Hbuf Hbr Hrem Hm Hds Hm0 Htot He Ht Eb Ee.
  revert Ee. unfold Http1ResponseEncoder.end_chunks.
  destruct (Http1ResponseEncoder.encode_fields _ _ trailers) as [fs|] eqn:Ef; cbn [rbind]; [|done]. intros [= <-].
  change (48 :: CRLF ++ fs ++ CRLF) with (hex_of_int 0 ++ CRLF ++ fs ++ CRLF) in *.
  assert (cext (bs ++ hex_of_int 0 ++ CRLF ++ fs ++ CRLF) c =
          with_state CHUNK_SIZE 0 0 (bs ++ hex_of_int 0 ++ CRLF ++ fs ++ CRLF) c) as Hx.
  { unfold cext. rewrite Hbuf. destruct c. simpl in *. by subst. }
  set (data := bs ++ hex_of_int 0 ++ CRLF ++ fs ++ CRLF) in *.
  pose proof (total_nonneg ds).
  assert (run (feed_fuel (cext data c)) 0 0 (cext data c) =
    (Ok tt, map EBody (solid_chunks ds) ++ [EEnd (map received trailers)], with_state HEAD 0 0 [] c)) as R.
  { apply (leads_run _ _ (with_state TRAILERS 0 (total ds) (fs ++ CRLF) c)).
    - by apply cext_ok.
    - apply feed_fuel_enough.
    - rewrite Hx. rewrite <- (app_nil_r (map EBody _)). eapply leads_trans; [by apply chunks_lead|].
      apply (leads_step _ [] (with_state TRAILERS 0 (total ds) (fs ++ CRLF) c)); [|apply leads_refl].
      rewrite chunk_size_line by lia. done.
    - apply trailers_line; [done| |done]. revert He. lens. change (len CRLF) with 2.
      pose proof (len_nonneg (hex_of_int 0)). lia.
    - pose proof (ok_line c Hc). pose proof (ok_header c Hc).
      rewrite step_eq. cbn [state with_state set_buffer set_body_received set_remaining set_state].
      unfold step_head. unm.
      cbn [buffer max_header_bytes max_request_line with_state set_buffer set_body_received set_remaining set_state].
      change (find_double_crlf []) with (-1). change (find_crlf []) with (-1). lens. by zdec. }
  destruct (feed_run c h ext data 0 Hc Hh (Z.le_refl 0) Hcl) as (es & h' & P & F).
  rewrite R in P, F. simpl in P, F. exists es, h'. split.
  - etransitivity; [exact F|]. done.
  - by rewrite (contents_ok _ _ _ (pr_events _ _ _ _ _ P)).
Qed.

Lemma chunked_roundtrip_witness :
  let c := with_state CHUNK_SIZE 0 0 [] default_codec in
  exists es h', feed (py "3" ++ CRLF ++ py "abc" ++ CRLF ++ py "1" ++ CRLF ++ py "d" ++ CRLF
                        ++ py "0" ++ CRLF ++ py "X-A: 1 " ++ CRLF2) 0 (c, Heap [] [])
                = (Ok es, (default_codec, h')) /\
    contents h' es = [EBody (py "abc"); EBody (py "d"); EEnd [(py "x-a", py "1")]].
Proof.
  apply (chunked_roundtrip (with_state CHUNK_SIZE 0 0 [] default_codec) (Heap [] []) (fun _ => 0)
    [py "abc"; []; py "d"] [(py "X-A", py "1 ")]
    (py "3" ++ CRLF ++ py "abc" ++ CRLF ++ py "1" ++ CRLF ++ py "d" ++ CRLF)
    (py "0" ++ CRLF ++ py "X-A: 1 " ++ CRLF2)); try reflexivity.
  - split; cbn; try lia; intros; try discriminate; destruct H; discriminate.
  - exact heap_ok_empty.
  - repeat (apply Forall_cons; split; [by vm_compute|]). by apply Forall_nil.
  - by vm_compute.
  - by vm_compute.
  - by vm_compute.
  - by vm_compute.
Defined.

(** ** Response heads *)

Lemma reason_chars status : is_ascii (reason_of status) /\ cr_free (reason_of status).
Proof.
  unfold reason_of. destruct (list_find _ REASONS) as [[i [s r]]|] eqn:E; [|by repeat constructor].
  apply list_find_Some in E as (E & _ & _).
  assert (Forall (fun p => is_ascii (snd p) /\ cr_free (snd p)) REASONS) as H.
  { unfold REASONS, is_ascii, cr_free. repeat constructor; cbn; lia. }
  rewrite Forall_forall in H. apply (H (s, r)). by eapply list_elem_of_lookup_2.
Qed.

Lemma str_of_int_text n : Forall (fun c => 45 <= c <= 57) (str_of_int n).
Proof.
  destruct (Z.lt_ge_cases n 0).
  - unfold str_of_int. zdec. constructor; [lia|]. apply digits_go_spec; try lia; [|constructor].
    intros d Hd. unfold digit_char. zdec. lia.
  - eapply Forall_impl; [by apply str_of_int_chars|]. simpl. lia.
Qed.

Definition status_line (status : Z) : bytes := py "HTTP/1.1 " ++ str_of_int status ++ py " " ++ reason_of status.

Lemma status_line_ok status : is_ascii (status_line status) /\ line_ok (status_line status).
Proof.
  destruct (reason_chars status) as [Ha Hc]. pose proof (str_of_int_text status) as Hn. unfold status_line.
  split; [|split; [done|]].
  - repeat (apply Forall_app; split); try done; [by repeat constructor| |by repeat constructor].
    eapply Forall_impl; [exact Hn|]. simpl. lia.
  - repeat (apply Forall_app; split); try done; [by repeat constructor| |by repeat constructor].
    eapply Forall_impl; [exact Hn|]. simpl. lia.
Qed.

(** The fields the encoder adds after the application's. *)
Definition framing_fields (content_length : Z) (chunked keep_alive : bool) : list (str * str) :=
  (if content_length >=? 0 then [(py "Content-Length", str_of_int content_length)] else [])
  ++ (if chunked then [(py "Transfer-Encoding", py "chunked")] else [])
  ++ (if keep_alive then [] else [(py "Connection", py "close")]).

Lemma digits_clean n : contains_bad_value_byte (str_of_int n) = false.
Proof.
  apply not_true_iff_false. intros (x & Hx%list_elem_of_In & Hb)%existsb_exists.
  pose proof (str_of_int_text n) as H. rewrite Forall_forall in H. specialize (H x Hx).
  unfold bad_value_byte in Hb. revert Hb. by zdec.
Qed.

Lemma head_wire status hs cl ch ka bs :
  Http1ResponseEncoder.head status hs cl ch ka = Ok bs ->
  bs = wire (status_line status :: map field_line (hs ++ framing_fields cl ch ka)) ++ CRLF /\
  Forall sendable (hs ++ framing_fields cl ch ka) /\
  Forall (fun h => lower (fst h) ∉ Http1ResponseEncoder.framing_owned) hs /\ (0 <= cl -> ch = false).
Proof.
  unfold Http1ResponseEncoder.head. destruct ((cl >=? 0) && ch) eqn:Eg; [done|].
  destruct (status_line_ok status) as [Ha _].
  assert (utf8_encode (py "HTTP/1.1 " ++ str_of_int status ++ py " " ++ reason_of status ++ CRLF) =
          Ok (status_line status ++ CRLF)) as ->.
  { unfold status_line. rewrite <- !app_assoc. rewrite utf8_encode_ascii; [done|].
    unfold status_line in Ha. apply Forall_app in Ha as [H1 Ha]. apply Forall_app in Ha as [H2 Ha].
    apply Forall_app in Ha as [H3 H4]. repeat (apply Forall_app; split); try done. by repeat constructor. }
  cbn [rbind]. destruct (Http1ResponseEncoder.encode_fields _ _ hs) as [fs|] eqn:Ef; cbn [rbind]; [|done].
  destruct (encode_fields_inv _ _ _ _ Ef) as (-> & Hs & Ho).
  assert ((if cl >=? 0 then utf8_encode (py "Content-Length: " ++ str_of_int cl ++ CRLF) else Ok []) =
    Ok (wire (map field_line (if cl >=? 0 then [(py "Content-Length", str_of_int cl)] else [])))) as ->.
  { destruct (cl >=? 0); [|done]. cbn [map]. rewrite wire_cons. unfold field_line. cbn [fst snd].
    rewrite utf8_encode_ascii; [by rewrite <- !app_assoc|]. pose proof (str_of_int_text cl).
    repeat (apply Forall_app; split); try done; try by repeat constructor.
    eapply Forall_impl; [eassumption|]. simpl. lia. }
  cbn [rbind]. intros <-%Ok_inj. split_and!.
  - rewrite wire_cons, !map_app. unfold framing_fields. rewrite !map_app, !wire_app, <- !app_assoc.
    by destruct ch, ka.
  - apply Forall_app. split; [done|]. unfold framing_fields. repeat (apply Forall_app; split).
    + destruct (cl >=? 0); [|done]. apply Forall_singleton. split; [done|apply digits_clean].
    + destruct ch; [|done]. by apply Forall_singleton.
    + destruct ka; [done|]. by apply Forall_singleton.
  - done.
  - intros Hcl. destruct (cl >=? 0) eqn:E; b2p; [done|lia].
Qed.

Lemma values_received_owned n hs ks :
  n ∈ Http1ResponseEncoder.framing_owned ->
  Forall (fun h => lower (fst h) ∉ Http1ResponseEncoder.framing_owned) hs ->
  values_of n (map received (hs ++ ks)) = values_of n (map received ks).
Proof.
  intros Hn H. induction H as [|h hs Hh H IH]; [done|]. cbn [app map]. unfold values_of in *. cbn [List.filter].
  destruct (str_eqb (fst (received h)) n) eqn:E; [|done]. exfalso. apply bool_decide_eq_true in E.
  apply Hh. by rewrite <- E in Hn.
Qed.

Lemma strip_digits n : strip_by is_sp_tab (str_of_int n) = str_of_int n.
Proof.
  apply strip_by_none. eapply Forall_impl; [apply str_of_int_text|]. intros x Hx. unfold is_sp_tab.
  simpl in Hx. by zdec.
Qed.

(** C30: response heads cannot be split or reframed.  If the encoder accepts the
    application's headers, then, whatever follows on the wire, the first blank line ends
    exactly the encoded head, its first line is the status line, and its fields parse to
    the application's headers (names lowered, values trimmed) followed by the gateway's own
    framing: one [Content-Length] exactly when a length was given, [Transfer-Encoding]
    exactly when chunked, never both, and [Connection] only to close. *)
Theorem response_head_unambiguous status hs cl ch ka bs k mx :
  Http1ResponseEncoder.head status hs cl ch ka = Ok bs ->
  len hs + 2 <= mx ->
  find_double_crlf (bs ++ k) = len bs - 4 /\
  (exists fields names,
    split_str CRLF (upto (bs ++ k) (len bs - 4)) = status_line status :: fields /\
    parse_headers fields mx = Ok (map received (hs ++ framing_fields cl ch ka), names)) /\
  let parsed := map received (hs ++ framing_fields cl ch ka) in
  values_of (py "content-length") parsed = (if cl >=? 0 then [str_of_int cl] else []) /\
  values_of (py "transfer-encoding") parsed = (if ch then [py "chunked"] else []) /\
  values_of (py "connection") parsed = (if ka then [] else [py "close"]) /\
  (0 <= cl -> ch = false).
Proof.
  intros Hb Hmx. destruct (head_wire _ _ _ _ _ _ Hb) as (-> & Hs & Ho & Hx).
  set (fs := hs ++ framing_fields cl ch ka) in *. set (ls := status_line status :: map field_line fs).
  assert (Forall line_ok ls) as Hok.
  { constructor; [apply status_line_ok|by apply fields_block]. }
  rewrite <- app_assoc. lens. change (len CRLF) with 2. replace (len (wire ls) + 2 - 4) with (len (wire ls) - 2) by lia.
  split; [by apply find_double_wire|]. destruct (wire_block ls k ltac:(done)) as [Hu _].
  assert (len fs <= mx) as Hl.
  { subst fs. lens. enough (len (framing_fields cl ch ka) <= 2) by lia. unfold framing_fields.
    rewrite Z.geb_leb. destruct (Z.leb_spec 0 cl); [rewrite Hx by done|destruct ch]; by destruct ka; vm_compute. }
  split.
  - destruct (parse_fields mx fs [] ∅ Hs ltac:(lens; lia) indexes_empty) as (names & Ep & _).
    exists (map field_line fs), names. split; [|exact Ep]. rewrite Hu. apply split_join; [done|].
    eapply Forall_impl; [exact Hok|]. by intros x [_ ?].
  - cbv zeta. unfold fs. rewrite !values_received_owned;
      try done; try (apply list_elem_of_In; unfold Http1ResponseEncoder.framing_owned; simpl; tauto).
    unfold framing_fields. split_and!; [| | |done].
    + destruct (cl >=? 0), ch, ka; cbn [app map]; unfold values_of, received; simpl; try done.
      all: f_equal; apply strip_digits.
    + by destruct (cl >=? 0), ch, ka.
    + by destruct (cl >=? 0), ch, ka.
Qed.

Lemma response_head_unambiguous_witness :
  exists bs, Http1ResponseEncoder.head 200 [(py "X-A", py " b")] 3 false false = Ok bs /\
    find_double_crlf (bs ++ py "abc") = len bs - 4 /\
    values_of (py "content-length")
      (map received ([(py "X-A", py " b")] ++ framing_fields 3 false false)) = [py "3"].
Proof.
  destruct (Http1ResponseEncoder.head 200 [(py "X-A", py " b")] 3 false false) as [bs|e] eqn:E.
  - exists bs. split; [reflexivity|].
    destruct (response_head_unambiguous 200 [(py "X-A", py " b")] 3 false false bs (py "abc") 10 E
      ltac:(by vm_compute)) as (H1 & _ & H2 & _).
    split; [exact H1|exact H2].
  - exfalso. vm_compute in E. discriminate E.
Defined.

(** ** What the model shows about the limits *)

(** A fragment that ends between CR and LF of a request line of exactly the allowed
    length is refused, although the whole line is accepted. *)
Example request_line_limit_depends_on_fragmentation :
  let c := Codec 14 64 10 0 0 [] HEAD 0 0 false in
  fst (feed (py "GET / HTTP/1.0" ++ CRLF2) 0 (c, Heap [] [])) =
    Ok [EHead (RequestHead (py "GET") (py "/") (py "HTTP/1.0") [] false false 0 false); EEnd []] /\
  fst (feed (py "GET / HTTP/1.0" ++ [CR]) 0 (c, Heap [] [])) =
    Raise (Http1Error 414 (py "request-line-too-long") (py "request line limit exceeded")).
Proof. split; vm_compute; reflexivity. Qed.

(** An over-long [Content-Length] escapes as a plain [ValueError]: the handler of [feed]
    does not run, and the body chunk of the request before it stays allocated. *)
Example overlong_length_leaks_body :
  let data := post_head ++ py "abcde" ++ py "POST / HTTP/1.1" ++ CRLF ++ py "Host: x" ++ CRLF
                ++ py "Content-Length: " ++ repeat 48 4301 ++ CRLF2 in
  let '(r, (_, h')) := feed data 0 (default_codec, Heap [] []) in
  r = Raise digits_error /\ is_Http1Error digits_error = false /\ vbytes h' 0%nat = Some (py "abcde").
Proof. vm_compute. repeat split; reflexivity. Qed.
