(* ===== verification/Routing.v ===== *)
(** * The frozen route table ([pcc_gateway/routing.py])

    Path compilation and normalisation, route construction, the router's table and its
    matching, and scalar binding.  A handler is an opaque value of type [H].  The
    theorems are in [RoutingSpec]. *)

From S2P Require Import Prelude PyStr.
#[local] Open Scope Z_scope.

(** [x[1:]] of the list [split] returns, which is never empty. *)
Definition slash : Z := 47.
Definition path_parts (path : str) : list str := tail (split_char slash path).

Definition normalize_host (host : str) : str :=
  let value := lower (strip host) in
  if starts_with (py "[") value then
    let closing := find_char 93 value in
    if closing <? 0 then value
    else
      let suffix := from value (closing + 1) in
      if negb (bool_decide (suffix = [])) && negb (starts_with (py ":") suffix) then value
      else slice value 1 closing
  else
    let first_colon := find_char 58 value in
    if (first_colon >=? 0) && (first_colon =? rfind_char 58 value)
    then upto value first_colon
    else value.

(** A compiled segment: [(0, text)], [(1, name)] and [(2, name)] of the source. *)
Inductive segment_kind := Literal | Param | Tail.
#[global] Instance segment_kind_eq_dec : EqDecision segment_kind.
Proof. solve_decision. Defined.
Definition kind_rank (k : segment_kind) : Z :=
  match k with Literal => 0 | Param => 1 | Tail => 2 end.
Definition path_segment : Type := segment_kind * str.

Definition valid_name (name : str) : bool :=
  forallb (fun char => (char =? 95) || isalnum_char char) name.

(** The loop over the pattern's segments: the compiled segments and the names in order. *)
Fixpoint compile_segments (raw : list str) (segments : list path_segment) (names : list str)
    (tail_name : str) : result (list path_segment * list str * str) :=
  match raw with
  | [] => Ok (segments, names, tail_name)
  | segment :: raw' =>
      if starts_with (py "{") segment && ends_with (py "}") segment then
        let name := slice segment 1 (len segment - 1) in
        let tail := ends_with (py "*") name in
        let name := if tail then upto name (len name - 1) else name in
        if bool_decide (name = []) || str_in name names
        then Raise (ValueError (py "route parameter names must be non-empty and unique"))
        else if negb (valid_name name)
        then Raise (ValueError (py "route parameter name is invalid"))
        else
          let names := names ++ [name] in
          if tail then
            if negb (bool_decide (raw' = []))
            then Raise (ValueError (py "tail parameter must be the last segment"))
            else compile_segments raw' (segments ++ [(Tail, name)]) names name
          else compile_segments raw' (segments ++ [(Param, name)]) names tail_name
      else if bool_decide (segment = []) || str_eqb segment (py ".") || str_eqb segment (py "..")
      then Raise (ValueError (py "empty and dot route segments are rejected"))
      else if char_in 123 segment || char_in 125 segment
      then Raise (ValueError (py "route braces must cover a whole segment"))
      else compile_segments raw' (segments ++ [(Literal, segment)]) names tail_name
  end.

Definition compile_path (pattern : str) : result (list path_segment * list str * str) :=
  if negb (starts_with (py "/") pattern)
  then Raise (ValueError (py "route path must start with '/'"))
  else if char_in 63 pattern || char_in 35 pattern
  then Raise (ValueError (py "route path must not contain query or fragment"))
  else
    let raw := path_parts pattern in
    let raw := if bool_decide (raw = [[]]) then [] else raw in
    compile_segments raw [] [] [].

Definition split_target (target : str) : str * str :=
  let question := find_char 63 target in
  if question <? 0 then (target, [])
  else (upto target question, from target (question + 1)).

(** The loop of [normalize_path]; [output] is kept in reverse, so [append] and
    [pop] are at its head. *)
Fixpoint normalize_loop (output : list str) (parts : list str) : result (list str) :=
  match parts with
  | [] => Ok (rev output)
  | segment :: parts' =>
      if bool_decide (segment = []) || str_eqb segment (py ".") then normalize_loop output parts'
      else if str_eqb segment (py "..") then
        match output with
        | [] => Raise (ValueError (py "path escapes routing root"))
        | _ :: output' => normalize_loop output' parts'
        end
      else if char_in 0 segment || char_in 92 segment
      then Raise (ValueError (py "unsafe routing path"))
      else normalize_loop (segment :: output) parts'
  end.

Definition normalize_path (path : str) : result str :=
  if negb (starts_with (py "/") path)
  then Raise (ValueError (py "origin-form path must start with '/'"))
  else
    let? output := normalize_loop [] (path_parts path) in
    Ok (slash :: join [slash] output).

(** ** Routes *)

Record route (H : Type) := Route {
  rt_method : str;
  rt_path : str;
  rt_handler : H;
  rt_name : str;
  rt_host : str;
  rt_kind : str;
  rt_target : str;
  rt_segments : list path_segment;
  parameter_names : list str;
  tail_name : str;
  bindings : list (str * str);
}.
Arguments Route {H}. Arguments rt_method {H}. Arguments rt_path {H}. Arguments rt_handler {H}.
Arguments rt_name {H}. Arguments rt_host {H}. Arguments rt_kind {H}. Arguments rt_target {H}.
Arguments rt_segments {H}. Arguments parameter_names {H}. Arguments tail_name {H}.
Arguments bindings {H}.

(** The validation loop over [bindings], each a sequence of strings. *)
Fixpoint check_bindings (parameter_names bound_names : list str) (bs : list (list str))
    : result (list (str * str)) :=
  match bs with
  | [] => Ok []
  | binding :: bs' =>
      match binding with
      | [parameter_name; scalar_kind] =>
          if negb (str_in parameter_name parameter_names)
          then Raise (ValueError (py "route binding names an unknown path parameter"))
          else if str_in parameter_name bound_names
          then Raise (ValueError (py "route binding duplicates a path parameter"))
          else if negb (str_in scalar_kind [py "str"; py "int"; py "bool"])
          then Raise (ValueError (py "unsupported route scalar binding: " ++ scalar_kind))
          else
            let? rest := check_bindings parameter_names (bound_names ++ [parameter_name]) bs' in
            Ok ((parameter_name, scalar_kind) :: rest)
      | _ => Raise (ValueError (py "route binding must be (name, scalar-kind)"))
      end
  end.

Section router.
Context {H : Type}.

Definition make_route (method path : str) (handler : H) (name host kind target : str)
    (bs : list (list str)) : result (route H) :=
  let? (segments, parameter_names, tail_name) := compile_path path in
  let? bindings := check_bindings parameter_names [] bs in
  Ok (Route (upper method) path handler name (normalize_host host) kind target
            segments parameter_names tail_name bindings).

Definition segment_shape (s : path_segment) : str :=
  match fst s with Literal => snd s | Param => py "{}" | Tail => py "{*}" end.
Definition signature (r : route H) : str :=
  rt_host r ++ py "|" ++ rt_method r ++ py "|/" ++ join [slash] (map segment_shape (rt_segments r)).

(** [_match_segments] after normalisation: the values bound so far, then the rest. *)
Fixpoint match_values (segments : list path_segment) (values : list str)
    (params : gmap (list Z) str) : option (gmap (list Z) str) :=
  match segments with
  | [] => if bool_decide (values = []) then Some params else None
  | (Tail, expected) :: _ => Some (<[expected := join [slash] values]> params)
  | (kind, expected) :: segments' =>
      match values with
      | [] => None
      | actual :: values' =>
          match kind with
          | Literal => if str_eqb actual expected then match_values segments' values' params else None
          | _ => match_values segments' values' (<[expected := actual]> params)
          end
      end
  end.
Definition match_segments (r : route H) (path : str) : result (option (gmap (list Z) str)) :=
  let? normalized := normalize_path path in
  let values := path_parts normalized in
  let values := if bool_decide (values = [[]]) then [] else values in
  Ok (match_values (rt_segments r) values ∅).

(** ** Matches and scalar binding *)

Record route_match := RouteMatch { rm_route : route H; rm_params : gmap (list Z) str }.

Inductive scalar := SStr (s : str) | SInt (n : Z) | SBool (b : bool).

Definition bad_integer : exn := RouteBindingError (py "invalid integer route parameter").
Definition bind_int (raw : str) : result Z :=
  if bool_decide (raw = []) || (at_is raw 0 45 && (len raw =? 1)) then Raise bad_integer
  else
    let start := if at_is raw 0 45 then 1 else 0 in
    if existsb (fun char => (char <? 48) || (char >? 57)) (from raw start) then Raise bad_integer
    else
      let? n := int_of_digits (from raw start) in
      Ok (if at_is raw 0 45 then - n else n).

Definition bind_scalar (scalar_kind raw : str) : result (list scalar) :=
  if str_eqb scalar_kind (py "str") then Ok [SStr raw]
  else if str_eqb scalar_kind (py "int") then
    let? n := bind_int raw in Ok [SInt n]
  else if str_eqb scalar_kind (py "bool") then
    let lowered := lower raw in
    if str_in lowered [py "1"; py "true"; py "yes"] then Ok [SBool true]
    else if str_in lowered [py "0"; py "false"; py "no"] then Ok [SBool false]
    else Raise (RouteBindingError (py "invalid boolean route parameter"))
  else Ok [].

Fixpoint bind_all (params : gmap (list Z) str) (bs : list (str * str)) : result (list scalar) :=
  match bs with
  | [] => Ok []
  | (parameter_name, scalar_kind) :: bs' =>
      match params !! parameter_name with
      | None => Raise (KeyError parameter_name)
      | Some raw =>
          let? v := bind_scalar scalar_kind raw in
          let? vs := bind_all params bs' in
          Ok (v ++ vs)
      end
  end.
Definition bound_values (m : route_match) : result (list scalar) :=
  bind_all (rm_params m) (bindings (rm_route m)).

(** ** The router *)

Record router := Router { routes : list (route H); frozen : bool }.

Definition add (r : route H) : M router unit :=
  let! t := get in
  if frozen t then raise (RuntimeError (py "route table is frozen"))
  else if existsb (fun existing => str_eqb (signature existing) (signature r)) (routes t)
  then raise (RouteConflictError (py "ambiguous route shape: " ++ signature r))
  else put (Router (routes t ++ [r]) (frozen t)).

Definition route_key (r : route H) : Z * Z :=
  (foldr (fun s acc => kind_rank (fst s) + acc) 0 (rt_segments r), - len (rt_segments r)).
Definition route_leb (a b : route H) : bool :=
  let '(a1, a2) := route_key a in let '(b1, b2) := route_key b in
  (a1 <? b1) || ((a1 =? b1) && (a2 <=? b2)).
Definition freeze : M router unit :=
  modify (fun t => Router (sort_by route_leb (routes t)) true).

Fixpoint add_all (rs : list (route H)) : M router unit :=
  match rs with
  | [] => ret tt
  | r :: rs' => add r ;;! add_all rs'
  end.
(** [Router(routes)] *)
Definition make_router (rs : list (route H)) : result router :=
  match (add_all rs ;;! freeze) (Router [] false) with
  | (Ok _, t) => Ok t
  | (Raise e, _) => Raise e
  end.

(** The loop of [match]. *)
Fixpoint match_loop (rs : list (route H)) (path wanted_method wanted_host : str)
    (allowed : list str) : result (route_match + list str) :=
  match rs with
  | [] => Ok (inr allowed)
  | r :: rs' =>
      if negb (bool_decide (rt_host r = [])) && negb (str_eqb (rt_host r) wanted_host)
      then match_loop rs' path wanted_method wanted_host allowed
      else
        let? params := match_segments r path in
        match params with
        | None => match_loop rs' path wanted_method wanted_host allowed
        | Some params =>
            if str_eqb (rt_method r) wanted_method || str_eqb (rt_method r) (py "*")
            then Ok (inl (RouteMatch r params))
            else
              match_loop rs' path wanted_method wanted_host
                (if str_in (rt_method r) allowed then allowed else allowed ++ [rt_method r])
        end
  end.

Definition match_ (t : router) (method target host : str) : result route_match :=
  let '(path, _) := split_target target in
  let wanted_method := upper method in
  let wanted_host := normalize_host host in
  let? found := match_loop (routes t) path wanted_method wanted_host [] in
  match found with
  | inl m => Ok m
  | inr [] => Raise (RouteNotFound target)
  | inr allowed => Raise (MethodNotAllowed allowed)
  end.

End router.
Arguments route_match : clear implicits.
Arguments router : clear implicits.
