(* ===== verification/RoutingSpec.v ===== *)
(** * Properties of routing

    Normalised paths are canonical and cannot escape the root; a compiled route matches
    exactly the paths its pattern renders, with exactly those parameters; the table is the
    stable order of its routes and matching takes the first entry; binding a match never
    misses a parameter. *)

From Stdlib Require Import Sorted.
From S2P Require Import Prelude PyStr PyLists Routing.
#[local] Open Scope Z_scope.

(** ** Path normalisation *)

(** A segment that can occur in a normalised path. *)
Definition segment_ok (s : str) : Prop :=
  s <> [] /\ s <> py "." /\ s <> py ".." /\ (0 ∉ s) /\ (92 ∉ s) /\ (slash ∉ s).
Definition render (segs : list str) : str := slash :: join [slash] segs.

Lemma normalize_loop_spec parts : forall output,
  Forall segment_ok output -> Forall (fun s => slash ∉ s) parts ->
  match normalize_loop output parts with
  | Ok out => Forall segment_ok out
  | Raise e => is_ValueError e = true
  end.
Proof.
  induction parts as [|s parts IH]; intros output Ho Hp; cbn [normalize_loop]; [by apply Forall_rev|].
  apply Forall_cons in Hp as [Hs Hp].
  destruct (bool_decide_reflect (s = [])); cbn [orb]; [by apply IH|].
  destruct (str_eqb s (py ".")) eqn:E1; [by apply IH|].
  destruct (str_eqb s (py "..")) eqn:E2.
  { destruct output as [|o output]; [done|]. apply IH; [|done]. by apply Forall_cons in Ho as [_ ?]. }
  destruct (char_in 0 s) eqn:E3; [done|]. destruct (char_in 92 s) eqn:E4; [done|]. cbn [orb].
  apply IH; [|done]. constructor; [|done]. apply char_in_false in E3, E4. b2p. by split_and!.
Qed.

Lemma normalize_loop_id parts : forall output,
  Forall segment_ok parts -> normalize_loop output parts = Ok (rev output ++ parts).
Proof.
  induction parts as [|s parts IH]; intros output Hp; cbn [normalize_loop]; [by rewrite app_nil_r|].
  apply Forall_cons in Hp as [(H1 & H2 & H3 & H4 & H5 & H6) Hp]. apply char_in_false in H4, H5.
  unfold str_eqb. rewrite !bool_decide_eq_false_2 by done. rewrite H4, H5. cbn [orb].
  rewrite IH by done. cbn [rev]. by rewrite <- app_assoc.
Qed.

(** The segments of a normalised path, as [_match_segments] reads them. *)
Definition segments_of (path : str) : list str :=
  if bool_decide (path_parts path = [[]]) then [] else path_parts path.

Lemma path_parts_render segs :
  Forall segment_ok segs -> segs <> [] -> path_parts (render segs) = segs.
Proof.
  intros H Hne. unfold path_parts, render. cbn [split_char]. rewrite Z.eqb_refl. cbn [tail].
  apply split_join_char; [done|]. eapply Forall_impl; [exact H|]. by intros s (_ & _ & _ & _ & _ & ?).
Qed.

Lemma segments_of_render segs : Forall segment_ok segs -> segments_of (render segs) = segs.
Proof.
  intros H. unfold segments_of. destruct segs as [|s segs]; [done|].
  rewrite path_parts_render by done. rewrite bool_decide_eq_false_2; [done|]. intros [= -> _].
  apply Forall_cons in H as [[Hs _] _]. done.
Qed.

Lemma normalize_render segs : Forall segment_ok segs -> normalize_path (render segs) = Ok (render segs).
Proof.
  intros H. unfold normalize_path. change (starts_with (py "/") (render segs)) with true. cbn [negb].
  destruct segs as [|s segs]; [done|]. rewrite path_parts_render by done.
  by rewrite normalize_loop_id.
Qed.

Lemma normalize_path_inv path q :
  normalize_path path = Ok q -> exists segs, Forall segment_ok segs /\ q = render segs.
Proof.
  unfold normalize_path. destruct (negb _); [done|].
  assert (Forall (fun s => slash ∉ s) (path_parts path)) as Hf.
  { unfold path_parts. pose proof (split_char_free slash path) as H. destruct H; [constructor|done]. }
  pose proof (normalize_loop_spec (path_parts path) [] (Forall_nil_2 _) Hf) as Hs.
  destruct (normalize_loop _ _) as [out|]; cbn [rbind]; [|done]. intros [= <-]. by exists out.
Qed.

Lemma normalize_path_raises path e : normalize_path path = Raise e -> is_ValueError e = true.
Proof.
  unfold normalize_path. destruct (negb _); [by intros [= <-]|].
  assert (Forall (fun s => slash ∉ s) (path_parts path)) as Hf.
  { unfold path_parts. pose proof (split_char_free slash path) as H. destruct H; [constructor|done]. }
  pose proof (normalize_loop_spec (path_parts path) [] (Forall_nil_2 _) Hf) as Hs.
  destruct (normalize_loop _ _) as [out|e']; cbn [rbind]; [done|]. by intros [= <-].
Qed.

(** normalisation is canonical.  A path that normalises does so to ["/"] followed by
    segments none of which is empty, ["."], [".."], or contains a slash, a backslash or
    NUL, and normalising again changes nothing; a path that does not is refused with a
    [ValueError]. *)
Theorem normalize_path_canonical path :
  match normalize_path path with
  | Ok q => (exists segs, Forall segment_ok segs /\ q = render segs) /\ normalize_path q = Ok q
  | Raise e => is_ValueError e = true
  end.
Proof.
  destruct (normalize_path path) as [q|e] eqn:E; [|by eapply normalize_path_raises].
  destruct (normalize_path_inv _ _ E) as (segs & H & ->). split; [by exists segs|by apply normalize_render].
Qed.

(** ** Compiled patterns *)

Definition names_of (segs : list path_segment) : list str :=
  omap (fun s => match fst s with Literal => None | _ => Some (snd s) end) segs.
Fixpoint tail_last (segs : list path_segment) : Prop :=
  match segs with
  | [] => True
  | (Tail, _) :: rest => rest = []
  | _ :: rest => tail_last rest
  end.
Definition compiled (segs : list path_segment) : Prop := NoDup (names_of segs) /\ tail_last segs.

Lemma names_of_app a b : names_of (a ++ b) = names_of a ++ names_of b.
Proof. apply omap_app. Qed.

Lemma tail_last_snoc segs s : Forall (fun s => fst s <> Tail) segs -> tail_last (segs ++ [s]).
Proof. induction 1 as [|[[] t] segs H ? IH]; try done. by destruct s as [[] ?]. Qed.

Lemma compile_segments_spec raw : forall segs names tn segs' names' tn',
  Forall (fun s => fst s <> Tail) segs -> names = names_of segs -> NoDup names ->
  compile_segments raw segs names tn = Ok (segs', names', tn') ->
  names' = names_of segs' /\ compiled segs'.
Proof.
  induction raw as [|s raw IH]; intros segs names tn segs' names' tn' Ht Hn Hd; cbn [compile_segments].
  { intros [= -> -> ->]. split; [done|]. split; [by subst|].
    clear -Ht. induction Ht as [|[[] t] segs H Ht IH]; try done. }
  destruct (_ && _).
  - set (tl := ends_with _ _). set (name := if tl then _ else _). cbv zeta.
    destruct (bool_decide (name = [])); cbn [orb]; [done|]. destruct (str_in name names) eqn:Ein; [done|].
    destruct (negb (valid_name name)); [done|]. apply bool_decide_eq_false in Ein.
    assert (NoDup (names ++ [name])) as Hd'.
    { apply NoDup_app. split; [done|]. split; [|apply NoDup_singleton]. intros x Hx Hx'.
      apply list_elem_of_singleton in Hx'. by subst. }
    destruct tl.
    + destruct (bool_decide_reflect (raw = [])) as [->|]; cbn [negb]; [|done]. cbn [compile_segments].
      intros [= <- <- <-]. rewrite Hn in *. split; [by rewrite names_of_app|]. split; [by rewrite names_of_app|].
      by apply tail_last_snoc.
    + apply IH; [|by rewrite names_of_app, Hn|done]. apply Forall_app. split; [done|]. by apply Forall_singleton.
  - destruct (_ || _); [done|]. destruct (_ || _); [done|].
    apply IH; [|by rewrite names_of_app, Hn, app_nil_r|done]. apply Forall_app. split; [done|]. by apply Forall_singleton.
Qed.

Lemma compile_path_spec pattern segs names tn :
  compile_path pattern = Ok (segs, names, tn) -> names = names_of segs /\ compiled segs.
Proof.
  unfold compile_path. destruct (negb _); [done|]. destruct (_ || _); [done|].
  apply compile_segments_spec; [constructor|done|constructor].
Qed.

(** ** What a pattern matches *)

(** The pattern with its parameters filled in. *)
Definition tail_parts (v : str) : list str := if bool_decide (v = []) then [] else split_char slash v.
Fixpoint fill (segs : list path_segment) (params : gmap (list Z) str) : list str :=
  match segs with
  | [] => []
  | (Literal, text) :: rest => text :: fill rest params
  | (Param, name) :: rest => default [] (params !! name) :: fill rest params
  | (Tail, name) :: rest => tail_parts (default [] (params !! name)) ++ fill rest params
  end.

Lemma tail_parts_join vs : Forall segment_ok vs -> tail_parts (join [slash] vs) = vs.
Proof.
  intros H. unfold tail_parts. destruct vs as [|v vs]; [done|].
  assert (join [slash] (v :: vs) <> []) as Hne.
  { apply Forall_cons in H as [[Hv _] _]. destruct v, vs; done. }
  rewrite bool_decide_eq_false_2 by done. apply split_join_char; [done|].
  eapply Forall_impl; [exact H|]. by intros s (_ & _ & _ & _ & _ & ?).
Qed.

Lemma join_tail_parts v : join [slash] (tail_parts v) = v.
Proof. unfold tail_parts. case_bool_decide as E; [by subst|]. apply join_split. Qed.

Lemma fill_ext segs p q :
  (forall n, n ∈ names_of segs -> p !! n = q !! n) -> fill segs p = fill segs q.
Proof.
  induction segs as [|[[] t] segs IH]; intros H; cbn [fill]; [done|..].
  - f_equal. apply IH. exact H.
  - rewrite (H t) by (by left). f_equal. apply IH. intros n Hn. apply H. by right.
  - rewrite (H t) by (by left). f_equal. apply IH. intros n Hn. apply H. by right.
Qed.

(** Matching succeeds exactly on filled patterns; [acc] holds the earlier captures. *)
Lemma match_values_sound segs : forall vs acc params,
  compiled segs -> Forall segment_ok vs -> (forall n, n ∈ names_of segs -> acc !! n = None) ->
  match_values segs vs acc = Some params ->
  fill segs params = vs /\
  (forall n, n ∈ names_of segs -> is_Some (params !! n)) /\
  (forall n, n ∉ names_of segs -> params !! n = acc !! n).
Proof.
  induction segs as [|[[] t] segs IH]; intros vs acc params [Hd Ht] Hv Ha; cbn [match_values].
  - destruct (bool_decide_reflect (vs = [])); [|done]. intros [= <-]. split_and!; try done.
    intros n Hn. by apply elem_of_nil in Hn.
  - destruct vs as [|v vs]; [done|]. apply Forall_cons in Hv as [_ Hv].
    destruct (str_eqb v t) eqn:E; [|done]. intros Hm. b2p. subst v.
    destruct (IH vs acc params (conj Hd Ht) Hv Ha Hm) as (H1 & H2 & H3). cbn [fill]. by rewrite H1.
  - destruct vs as [|v vs]; [done|]. apply Forall_cons in Hv as [_ Hv]. intros Hm.
    change (names_of ((Param, t) :: segs)) with (t :: names_of segs) in *. apply NoDup_cons in Hd as [Hni Hd].
    destruct (IH vs (<[t:=v]> acc) params (conj Hd Ht) Hv) as (H1 & H2 & H3); [|done|].
    { intros n Hn. rewrite lookup_insert_ne by (by intros ->). apply Ha. by right. }
    pose proof (H3 t Hni) as Et. rewrite lookup_insert_eq in Et. split_and!.
    + cbn [fill]. by rewrite Et, H1.
    + intros n [->|Hn]%elem_of_cons; [by rewrite Et|by apply H2].
    + intros n Hn. apply not_elem_of_cons in Hn as [? ?]. rewrite H3 by done. by rewrite lookup_insert_ne.
  - cbn [tail_last] in Ht. subst segs. intros [= <-]. split_and!.
    + cbn [fill]. rewrite lookup_insert_eq, app_nil_r. by apply tail_parts_join.
    + intros n Hn%list_elem_of_singleton. subst n. by rewrite lookup_insert_eq.
    + intros n Hn. apply not_elem_of_cons in Hn as [? _]. by rewrite lookup_insert_ne.
Qed.

Lemma match_values_complete segs : forall acc params,
  compiled segs -> (forall n, n ∈ names_of segs -> is_Some (params !! n)) ->
  (forall n, n ∉ names_of segs -> params !! n = acc !! n) ->
  match_values segs (fill segs params) acc = Some params.
Proof.
  induction segs as [|[[] t] segs IH]; intros acc params [Hd Ht] Hs Ho; cbn [match_values fill].
  - rewrite bool_decide_eq_true_2 by done. f_equal. symmetry. apply map_eq. intros n. apply Ho. apply not_elem_of_nil.
  - unfold str_eqb. rewrite bool_decide_eq_true_2 by done. by apply IH.
  - change (names_of ((Param, t) :: segs)) with (t :: names_of segs) in *. apply NoDup_cons in Hd as [Hni Hd].
    destruct (Hs t) as [v Ev]; [by left|]. rewrite Ev. cbn [default]. apply IH; [done| |].
    + intros n Hn. apply Hs. by right.
    + intros n Hn. destruct (decide (n = t)) as [->|]; [by rewrite lookup_insert_eq|].
      rewrite lookup_insert_ne by done. apply Ho. by apply not_elem_of_cons.
  - cbn [tail_last] in Ht. subst segs. cbn [fill]. rewrite app_nil_r. destruct (Hs t) as [v Ev]; [by left|].
    rewrite Ev. cbn [default]. rewrite join_tail_parts. f_equal. symmetry. apply map_eq. intros n.
    destruct (decide (n = t)) as [->|]; [by rewrite lookup_insert_eq|]. rewrite lookup_insert_ne by done.
    apply Ho. change (names_of [(Tail, t)]) with [t]. by rewrite list_elem_of_singleton.
Qed.

Section routes.
Context {H : Type}.
Implicit Types (r : route H) (t : router H).

(** A route the constructor accepts. *)
Definition well_made r : Prop :=
  exists method path handler name host kind target bs,
    make_route method path handler name host kind target bs = Ok r.

Lemma check_bindings_spec names bound bs out :
  check_bindings names bound bs = Ok out ->
  Forall (fun b => fst b ∈ names /\ snd b ∈ [py "str"; py "int"; py "bool"]) out.
Proof.
  revert bound out. induction bs as [|b bs IH]; intros bound out; cbn [check_bindings]; [by intros [= <-]|].
  destruct b as [|n [|k [|]]]; try done. destruct (str_in n names) eqn:E1; cbn [negb]; [|done].
  destruct (str_in n bound); [done|]. destruct (str_in k _) eqn:E2; cbn [negb]; [|done].
  destruct (check_bindings names (bound ++ [n]) bs) as [rest|] eqn:E; cbn [rbind]; [|done]. intros [= <-].
  constructor; [|by eapply IH]. apply bool_decide_eq_true in E1, E2. done.
Qed.

Lemma well_made_spec r :
  well_made r ->
  compiled (rt_segments r) /\ parameter_names r = names_of (rt_segments r) /\
  Forall (fun b => fst b ∈ names_of (rt_segments r) /\ snd b ∈ [py "str"; py "int"; py "bool"]) (bindings r).
Proof.
  intros (m & p & h & n & ho & k & t & bs & E). revert E. unfold make_route.
  destruct (compile_path p) as [[[segs names] tn]|] eqn:Ec; cbn [rbind]; [|done].
  destruct (compile_path_spec _ _ _ _ Ec) as [-> Hc].
  destruct (check_bindings _ [] bs) as [out|] eqn:Eb; cbn [rbind]; [|done]. intros [= <-]. cbn [rt_segments parameter_names bindings].
  split_and!; [done|done|by eapply check_bindings_spec].
Qed.

Lemma match_segments_inv r path params :
  well_made r -> match_segments r path = Ok (Some params) ->
  normalize_path path = Ok (render (fill (rt_segments r) params)) /\
  Forall segment_ok (fill (rt_segments r) params) /\
  (forall n, is_Some (params !! n) <-> n ∈ parameter_names r).
Proof.
  intros (Hc & Hn & _)%well_made_spec. rewrite Hn. unfold match_segments.
  destruct (normalize_path path) as [q|] eqn:E; cbn [rbind]; [|done].
  destruct (normalize_path_inv _ _ E) as (segs & Hs & ->). fold (segments_of (render segs)).
  rewrite segments_of_render by done. intros [= Hm].
  destruct (match_values_sound _ _ ∅ _ Hc Hs ltac:(intros; apply lookup_empty) Hm) as (Hf & H1 & H2).
  rewrite Hf. split_and!; [done|done|]. intros n. split; [|apply H1]. intros Hi.
  destruct (decide (n ∈ names_of (rt_segments r))) as [|Hni]; [done|]. rewrite (H2 n Hni), lookup_empty in Hi.
  by destruct Hi.
Qed.

(** C27: matching is exact.  A constructed route matches a path with parameters [params]
    if and only if the path normalises to the route's pattern filled with [params],
    [params] has exactly the names of the pattern, and the filled segments are segments
    of a normalised path. *)
Theorem match_segments_exact r path params :
  well_made r ->
  match_segments r path = Ok (Some params) <->
  normalize_path path = Ok (render (fill (rt_segments r) params)) /\
  Forall segment_ok (fill (rt_segments r) params) /\
  (forall n, is_Some (params !! n) <-> n ∈ parameter_names r).
Proof.
  intros Hw. split; [by apply match_segments_inv|]. destruct (well_made_spec _ Hw) as (Hc & Hn & _). rewrite Hn.
  intros (E & Hs & Hd). unfold match_segments. rewrite E. cbn [rbind].
  fold (segments_of (render (fill (rt_segments r) params))).
  rewrite segments_of_render by done. f_equal. apply match_values_complete; [done| |].
  - intros n. apply Hd.
  - intros n Hni. rewrite lookup_empty. destruct (params !! n) eqn:En; [|done]. exfalso. apply Hni, Hd. by rewrite En.
Qed.

(** ** The table *)

Lemma add_spec r t :
  match add r t with
  | (Ok _, t') => t' = Router (routes t ++ [r]) (frozen t) /\ signature r ∉ map signature (routes t)
  | (Raise e, t') => t' = t
  end.
Proof.
  unfold add, bind, get. cbn beta iota. destruct (frozen t) eqn:Ef; [done|].
  destruct (existsb _ (routes t)) eqn:E; [done|]. unfold put. split; [done|].
  intros (r' & Es & Hr')%list_elem_of_fmap. apply not_true_iff_false in E. apply E.
  apply existsb_exists. exists r'. split; [by apply list_elem_of_In|]. by apply bool_decide_eq_true_2.
Qed.

Lemma add_all_spec rs : forall t t',
  add_all rs t = (Ok tt, t') ->
  frozen t' = frozen t /\ routes t' = routes t ++ rs /\
  (NoDup (map signature (routes t)) -> NoDup (map signature (routes t'))).
Proof.
  induction rs as [|r rs IH]; intros t t'; cbn [add_all].
  { intros [= <-]. by rewrite app_nil_r. }
  unfold bind. pose proof (add_spec r t) as Ha. destruct (add r t) as [[[]|e] t1]; [|done].
  destruct Ha as [-> Hni]. intros E. destruct (IH _ _ E) as (H1 & H2 & H3). cbn [frozen routes] in *.
  split_and!; [done|by rewrite H2, <- app_assoc|]. intros Hd. apply H3. rewrite map_app. apply NoDup_app.
  split; [done|]. split; [|apply NoDup_singleton]. by intros x Hx ->%list_elem_of_singleton.
Qed.

Lemma make_router_spec rs t :
  make_router rs = Ok t -> frozen t = true /\ routes t = sort_by route_leb rs /\ NoDup (map signature rs).
Proof.
  unfold make_router, bind. destruct (add_all rs _) as [[[]|] t1] eqn:E; [|done].
  destruct (add_all_spec _ _ _ E) as (_ & H1 & H2). unfold freeze, modify. intros [= <-]. cbn [frozen routes] in *.
  rewrite H1. split_and!; [done|done|].
  specialize (H2 (NoDup_nil_2)). by rewrite H1 in H2.
Qed.

Lemma route_leb_key r1 r2 : route_leb r1 r2 = true <->
  fst (route_key r1) < fst (route_key r2) \/
  (fst (route_key r1) = fst (route_key r2) /\ snd (route_key r1) <= snd (route_key r2)).
Proof.
  unfold route_leb. destruct (route_key r1) as [a b], (route_key r2) as [c d]. cbn [fst snd].
  rewrite orb_true_iff, andb_true_iff, Z.ltb_lt, Z.eqb_eq, Z.leb_le. done.
Qed.

(** The frozen table.  A router built from a list of routes holds exactly those
    routes, no two of the same shape, in the stable order of their keys (parameters
    weigh one, a tail two, longer patterns first), and refuses further routes. *)
Theorem make_router_table rs t :
  make_router rs = Ok t ->
  routes t ≡ₚ rs /\ NoDup (map signature (routes t)) /\
  StronglySorted (fun a b => route_leb a b = true) (routes t) /\
  (forall k, List.filter (fun r => bool_decide (route_key r = k)) (routes t) =
             List.filter (fun r => bool_decide (route_key r = k)) rs) /\
  (forall r, exists m, add r t = (Raise (RuntimeError m), t)).
Proof.
  intros E. destruct (make_router_spec _ _ E) as (Hf & -> & Hd). split_and!.
  - apply sort_by_perm.
  - by rewrite sort_by_perm.
  - apply sort_by_sorted.
    + intros a b Hab. apply route_leb_key. apply not_true_iff_false in Hab. rewrite route_leb_key in Hab. lia.
    + intros a b c. rewrite !route_leb_key. lia.
  - intros k. apply sort_by_stable. intros a b Ha Hb. b2p. subst. apply route_leb_key. right.
    split; congruence || (rewrite Hb; lia).
  - intros r. unfold add, bind, get. cbn beta iota. rewrite Hf. by eexists.
Qed.

(** ** Matching in the table *)

(** A route that applies to a host and a path, whatever the method. *)
Definition host_ok r (wanted_host : str) : Prop := rt_host r = [] \/ rt_host r = wanted_host.
Definition shape_ok r (path : str) : Prop := exists params, match_segments r path = Ok (Some params).
Definition method_ok r (wanted : str) : Prop := rt_method r = wanted \/ rt_method r = py "*".

Record loop_post (rs : list (route H)) (path wm wh : str) (allowed : list str) (res : route_match H + list str) : Prop := {
  lp_found : forall m, res = inl m -> exists pre post,
    rs = pre ++ rm_route m :: post /\ host_ok (rm_route m) wh /\ method_ok (rm_route m) wm /\
    match_segments (rm_route m) path = Ok (Some (rm_params m)) /\
    Forall (fun r => ~ (host_ok r wh /\ shape_ok r path /\ method_ok r wm)) pre;
  lp_none : forall al, res = inr al ->
    Forall (fun r => ~ (host_ok r wh /\ shape_ok r path /\ method_ok r wm)) rs /\
    (forall m, m ∈ al <-> m ∈ allowed \/ exists r, r ∈ rs /\ host_ok r wh /\ shape_ok r path /\ rt_method r = m) /\
    (NoDup allowed -> NoDup al);
}.

Lemma loop_skip r (rs : list (route H)) path wm wh allowed allowed' res :
  ~ (host_ok r wh /\ shape_ok r path /\ method_ok r wm) ->
  (forall m, m ∈ allowed' <-> m ∈ allowed \/ (host_ok r wh /\ shape_ok r path /\ rt_method r = m)) ->
  (NoDup allowed -> NoDup allowed') ->
  loop_post rs path wm wh allowed' res -> loop_post (r :: rs) path wm wh allowed res.
Proof.
  intros Hn Ha Hd [L1 L2]. split.
  - intros m E. destruct (L1 m E) as (pre & post & -> & ? & ? & ? & Hp). exists (r :: pre), post.
    split_and!; try done. by constructor.
  - intros al E. destruct (L2 al E) as (H1 & H2 & H3). split_and!; [by constructor| |by auto].
    intros m. rewrite H2, Ha. split.
    + intros [[?|?]|(r' & ? & ?)]; [by left|right; exists r; split; [left|done]|right; exists r'; split; [by right|done]].
    + intros [?|(r' & [->|?]%elem_of_cons & ?)]; [by left; left|by left; right|right; by exists r'].
Qed.

Lemma match_loop_spec rs path wm wh : forall allowed res,
  match_loop rs path wm wh allowed = Ok res -> loop_post rs path wm wh allowed res.
Proof.
  induction rs as [|r rs IH]; intros allowed res; cbn [match_loop].
  { intros [= <-]. split; [done|]. intros al [= <-]. split_and!; [constructor| |done].
    intros m. split; [by left|]. intros [?|(r & Hr & _)]; [done|by apply elem_of_nil in Hr]. }
  destruct (_ && _) eqn:Eh.
  { intros E. apply (loop_skip r _ _ _ _ allowed allowed); [| |done|by apply IH]; b2p.
    - intros [[?|?] _]; done.
    - intros m. split; [by left|]. intros [?|[[?|?] _]]; done. }
  assert (host_ok r wh) as Hh.
  { unfold host_ok. apply andb_false_iff in Eh as [Eh|Eh]; b2p; auto. }
  destruct (match_segments r path) as [[params|]|] eqn:Em; cbn [rbind]; [| |done].
  - destruct (_ || _) eqn:Emeth.
    + intros [= <-]. split; [|done]. intros m [= <-]. exists [], rs. cbn [rm_route rm_params]. split_and!; try done.
      unfold method_ok. apply orb_true_iff in Emeth as [E|E]; b2p; auto.
    + intros E. eapply loop_skip; [| | |by apply IH].
      * intros (_ & _ & Hm). unfold method_ok in Hm. b2p. by destruct Hm.
      * intros m. assert (shape_ok r path) by by eexists.
        destruct (str_in (rt_method r) allowed) eqn:Ein.
        -- apply bool_decide_eq_true in Ein. split; [by left|]. by intros [?|(_ & _ & <-)].
        -- rewrite elem_of_app, list_elem_of_singleton.
           split; (intros [?|Hx]; [by left|right]); [by subst m|by destruct Hx as (_ & _ & <-)].
      * intros Hd. destruct (str_in (rt_method r) allowed) eqn:Ein; [done|]. apply bool_decide_eq_false in Ein.
        apply NoDup_app. split; [done|]. split; [|apply NoDup_singleton]. by intros x Hx ->%list_elem_of_singleton.
  - intros E. assert (~ shape_ok r path) by (intros [p Hp]; by rewrite Em in Hp).
    apply (loop_skip r _ _ _ _ allowed allowed); [| |done|by apply IH].
    + by intros (_ & ? & _).
    + intros m. split; [by left|]. by intros [?|(_ & ? & _)].
Qed.

Lemma match_loop_raises (rs : list (route H)) path wm wh : forall allowed e,
  match_loop rs path wm wh allowed = Raise e -> normalize_path path = Raise e.
Proof.
  induction rs as [|r rs IH]; intros allowed e; cbn [match_loop]; [done|].
  destruct (_ && _); [apply IH|]. destruct (match_segments r path) as [[params|]|e'] eqn:E; cbn [rbind]; [|apply IH|].
  - destruct (_ || _); [done|apply IH].
  - intros [= <-]. revert E. unfold match_segments. destruct (normalize_path path); cbn [rbind]; [done|by intros [= <-]].
Qed.

Definition applies r (target host : str) : Prop :=
  host_ok r (normalize_host host) /\ shape_ok r (fst (split_target target)).

Lemma match_found t method target host m :
  match_ t method target host = Ok m ->
  exists pre post, routes t = pre ++ rm_route m :: post /\
    applies (rm_route m) target host /\ method_ok (rm_route m) (upper method) /\
    match_segments (rm_route m) (fst (split_target target)) = Ok (Some (rm_params m)) /\
    Forall (fun r => ~ (applies r target host /\ method_ok r (upper method))) pre.
Proof.
  unfold match_, applies. destruct (split_target target) as [path q]. cbn [fst].
  destruct (match_loop (routes t) path _ _ []) as [[m'|[|]]|e] eqn:E; cbn [rbind]; try done. intros [= ->].
  destruct (match_loop_spec _ _ _ _ _ _ E) as [L1 _].
  destruct (L1 m eq_refl) as (pre & post & Hr & Hh & Hm & Hs & Hp). exists pre, post. split_and!; try done; [by eexists|].
  eapply Forall_impl; [exact Hp|]. intros r Hn [[? ?] ?]. by apply Hn.
Qed.

(** C28: routing answers.  [match] returns the first entry of the table that applies to
    the host and path and accepts the method, with that entry's captures; it answers
    [RouteNotFound] exactly when nothing applies, [MethodNotAllowed] with the distinct
    methods of the entries that apply, none of them acceptable, and any other exception is
    the [ValueError] of normalisation. *)
Theorem match_answers t method target host :
  match match_ t method target host with
  | Ok m => exists pre post, routes t = pre ++ rm_route m :: post /\
      applies (rm_route m) target host /\ method_ok (rm_route m) (upper method) /\
      match_segments (rm_route m) (fst (split_target target)) = Ok (Some (rm_params m)) /\
      Forall (fun r => ~ (applies r target host /\ method_ok r (upper method))) pre
  | Raise (RouteNotFound tg) => tg = target /\ Forall (fun r => ~ applies r target host) (routes t)
  | Raise (MethodNotAllowed al) => al <> [] /\ NoDup al /\
      Forall (fun r => ~ (applies r target host /\ method_ok r (upper method))) (routes t) /\
      (forall m, m ∈ al <-> exists r, r ∈ routes t /\ applies r target host /\ rt_method r = m)
  | Raise e => normalize_path (fst (split_target target)) = Raise e /\ is_ValueError e = true
  end.
Proof.
  destruct (match_ t method target host) as [m|e] eqn:Em; [by apply match_found|]. revert Em.
  unfold match_, applies. destruct (split_target target) as [path q]. cbn [fst].
  set (wm := upper method). set (wh := normalize_host host).
  destruct (match_loop (routes t) path wm wh []) as [res|e'] eqn:E; cbn [rbind].
  - destruct (match_loop_spec _ _ _ _ _ _ E) as [L1 L2]. destruct res as [m|al]; [done|].
    destruct (L2 al eq_refl) as (Hn & Hal & Hd). destruct al as [|a al]; intros [= <-].
    + split; [done|]. apply Forall_forall. intros r Hr [Hh Hs].
      destruct (Hal (rt_method r)) as [_ Hx]. apply (not_elem_of_nil (rt_method r)), Hx. right. by exists r.
    + split_and!; [done|apply Hd, NoDup_nil_2| |].
      * eapply Forall_impl; [exact Hn|]. intros r Hx [[? ?] ?]. by apply Hx.
      * intros m. rewrite Hal. split.
        -- intros [Hx|(r & ? & ? & ? & ?)]; [by apply elem_of_nil in Hx|by exists r].
        -- intros (r & ? & [? ?] & ?). right. by exists r.
  - intros [= <-]. pose proof (match_loop_raises _ _ _ _ _ _ E) as En.
    pose proof (normalize_path_raises _ _ En) as Hc. by destruct e'.
Qed.

(** ** Binding *)

Lemma int_of_digits_raises s e : int_of_digits s = Raise e -> is_ValueError e = true.
Proof. unfold int_of_digits. destruct (_ <? _); [by intros [= <-]|done]. Qed.

Lemma bind_scalar_spec kind raw :
  kind ∈ [py "str"; py "int"; py "bool"] ->
  match bind_scalar kind raw with
  | Ok vs => len vs = 1
  | Raise e => is_ValueError e = true
  end.
Proof.
  intros Hk. assert (kind = py "str" \/ kind = py "int" \/ kind = py "bool") as [-> | [-> | ->]].
  { rewrite !elem_of_cons in Hk. destruct Hk as [?|[?|[?|Hk]]]; auto. by apply elem_of_nil in Hk. }
  - done.
  - unfold bind_scalar. change (str_eqb (py "int") (py "str")) with false. change (str_eqb (py "int") (py "int")) with true.
    cbn iota. destruct (bind_int raw) as [n|e] eqn:E; cbn [rbind]; [done|]. revert E. unfold bind_int.
    destruct (_ || _); [by intros [= <-]|]. cbv zeta. destruct (existsb _ _); [by intros [= <-]|].
    destruct (int_of_digits _) as [k|e'] eqn:Ei; cbn [rbind]; [done|]. intros [= <-]. by eapply int_of_digits_raises.
  - unfold bind_scalar. change (str_eqb (py "bool") (py "str")) with false. change (str_eqb (py "bool") (py "int")) with false.
    change (str_eqb (py "bool") (py "bool")) with true. cbn iota zeta. destruct (str_in _ _); [done|]. by destruct (str_in _ _).
Qed.

(** Binding is total.  For a match the router returned over constructed routes,
    every declared binding finds its parameter: the values are one per binding, in order,
    or the refusal is a [ValueError] about a value - never a [KeyError]. *)
Theorem bound_values_total rs t method target host m :
  Forall well_made rs -> make_router rs = Ok t -> match_ t method target host = Ok m ->
  match bound_values m with
  | Ok vs => len vs = len (bindings (rm_route m))
  | Raise e => is_ValueError e = true
  end.
Proof.
  intros Hw Ht Hm. destruct (match_found _ _ _ _ _ Hm) as (pre & post & Hr & _ & _ & Hs & _). destruct (make_router_spec _ _ Ht) as (_ & Hrs & _).
  assert (well_made (rm_route m)) as Hwm.
  { rewrite Forall_forall in Hw. apply Hw. rewrite <- (sort_by_perm route_leb rs), <- Hrs, Hr.
    apply elem_of_app. right. by left. }
  destruct (match_segments_inv _ _ _ Hwm Hs) as (_ & _ & Hd). destruct (well_made_spec _ Hwm) as (_ & Hn & Hb). rewrite Hn in Hd.
  unfold bound_values. induction Hb as [|[n k] bs [Hn1 Hk] Hb IH]; [done|]. cbn [bind_all fst snd] in *.
  destruct (Hd n) as [_ Hx]. destruct (Hx Hn1) as [raw Er]. rewrite Er.
  pose proof (bind_scalar_spec k raw Hk) as Hsc. destruct (bind_scalar k raw) as [v|e]; cbn [rbind]; [|done].
  destruct (bind_all (rm_params m) bs) as [vs|e]; cbn [rbind]; [|done]. lens. lia.
Qed.

End routes.

(** ** Concrete tables *)

Definition sample (i : Z) (method path : str) (bs : list (list str)) : result (route Z) :=
  make_route method path i [] [] [] [] bs.
Definition get_route (r : result (route Z)) : route Z :=
  match r with Ok r => r | Raise _ => Route [] [] 0 [] [] [] [] [] [] [] [] end.
Definition user_route : route Z :=
  get_route (sample 1 (py "get") (py "/users/{id}/{rest*}") [[py "id"; py "int"]]).

Lemma user_route_made : well_made user_route.
Proof.
  exists (py "get"), (py "/users/{id}/{rest*}"), 1, [], [], [], [], [[py "id"; py "int"]].
  vm_compute. reflexivity.
Qed.

Lemma match_segments_exact_witness :
  match_segments user_route (py "/x/../users//7/a/./b") =
    Ok (Some (<[py "id" := py "7"]> (<[py "rest" := py "a/b"]> ∅))) /\
  normalize_path (py "/x/../users//7/a/./b") = Ok (py "/users/7/a/b").
Proof.
  assert (match_segments user_route (py "/x/../users//7/a/./b") =
    Ok (Some (<[py "id" := py "7"]> (<[py "rest" := py "a/b"]> ∅)))) as E by (vm_compute; reflexivity).
  split; [exact E|].
  destruct (match_segments_exact user_route (py "/x/../users//7/a/./b")
    (<[py "id" := py "7"]> (<[py "rest" := py "a/b"]> ∅)) user_route_made) as [H _].
  destruct (H E) as [Hn _]. rewrite Hn. vm_compute. reflexivity.
Defined.

Lemma make_router_table_witness :
  exists t, make_router [user_route; get_route (sample 2 (py "GET") (py "/users/me") [])] = Ok t /\
    map rt_handler (routes t) = [2; 1] /\ NoDup (map signature (routes t)).
Proof.
  destruct (make_router [user_route; get_route (sample 2 (py "GET") (py "/users/me") [])]) as [t|e] eqn:E.
  - exists t. split; [reflexivity|]. split.
    + assert (Ok t = make_router [user_route; get_route (sample 2 (py "GET") (py "/users/me") [])]) as E' by (symmetry; exact E).
      vm_compute in E'. injection E' as ->. reflexivity.
    + exact (proj1 (proj2 (make_router_table _ t E))).
  - exfalso. vm_compute in E. discriminate E.
Defined.

Lemma bound_values_total_witness :
  exists t m, make_router [user_route] = Ok t /\ match_ t (py "GET") (py "/users/7/a?q") (py "h:80") = Ok m /\
    match bound_values m with Ok vs => len vs = 1 | Raise _ => False end.
Proof.
  assert (exists t m, make_router [user_route] = Ok t /\ match_ t (py "GET") (py "/users/7/a?q") (py "h:80") = Ok m /\
    bound_values m = Ok [SInt 7] /\ bindings (rm_route m) = [(py "id", py "int")]) as (t & m & E1 & E2 & E3 & E4).
  { do 2 eexists. split; [vm_compute; reflexivity|]. split; [vm_compute; reflexivity|]. split; vm_compute; reflexivity. }
  exists t, m. split; [exact E1|]. split; [exact E2|].
  pose proof (bound_values_total [user_route] t (py "GET") (py "/users/7/a?q") (py "h:80") m
    (Forall_cons_2 _ _ _ user_route_made (Forall_nil_2 _)) E1 E2) as H.
  rewrite E3 in H |- *. rewrite E4 in H. exact H.
Defined.

(** A tail pattern of one segment sorts before a pattern of three parameters, so the
    comment "parameters precede tail captures" does not hold across lengths. *)
Example tail_before_parameters :
  exists t, make_router [get_route (sample 1 (py "GET") (py "/{a}/{b}/{c}") []);
                         get_route (sample 2 (py "GET") (py "/{rest*}") [])] = Ok t /\
    map rt_handler (routes t) = [2; 1] /\
    match match_ t (py "GET") (py "/x/y/z") [] with Ok m => rt_handler (rm_route m) = 2 | Raise _ => False end.
Proof. eexists. split; [vm_compute; reflexivity|]. split; vm_compute; reflexivity. Qed.
