(* ===== verification/Config.v ===== *)
(** * Configuration records ([pcc_gateway/config.py])

    The validated constructors and [GatewayConfig.replace].  A TLS configuration and an
    admission record are opaque values of types [T] and [A]. *)
From S2P Require Import Prelude PyStr.
#[local] Open Scope Z_scope.

Definition TLS_PROVIDER_DEFAULT_MAX_BYTES : Z := 268435456.

Definition valid_sha256_hex (value : str) : bool :=
  if negb (len value =? 64) then false
  else forallb (fun c => char_in c (py "0123456789abcdef")) value.

Record listener_config (T : Type) := ListenerConfig {
  lc_host : str;
  lc_port : Z;
  lc_backlog : Z;
  lc_reuse_port : bool;
  lc_tls_provider : str;
  lc_tls_config : option T;
  lc_tls_provider_library : str;
  lc_tls_provider_library_sha256 : str;
  lc_tls_provider_max_bytes : Z;
}.
Arguments ListenerConfig {T}. Arguments lc_host {T}. Arguments lc_port {T}. Arguments lc_backlog {T}.
Arguments lc_reuse_port {T}. Arguments lc_tls_provider {T}. Arguments lc_tls_config {T}.
Arguments lc_tls_provider_library {T}. Arguments lc_tls_provider_library_sha256 {T}.
Arguments lc_tls_provider_max_bytes {T}.

Definition empty (s : str) : bool := bool_decide (s = []).

(** [isinstance(tls_provider_max_bytes, int)] holds by typing. *)
Definition make_listener {T} (host : str) (port backlog : Z) (reuse_port : bool)
    (tls_provider : str) (tls_config : option T) (library sha256 : str) (max_bytes : Z)
    : result (listener_config T) :=
  let no_config := match tls_config with None => true | Some _ => false end in
  if (port <=? 0) || (port >? 65535) then Raise (ValueError (py "listener port is out of range"))
  else if (backlog <=? 0) || (backlog >? 65535)
  then Raise (ValueError (py "listener backlog is out of range"))
  else if empty tls_provider && (negb no_config || negb (empty library))
  then Raise (ValueError (py "TLS config/library requires a named TLS provider"))
  else if negb (empty tls_provider) && no_config
  then Raise (ValueError (py "TLS listener requires a TLS configuration"))
  else if negb (empty sha256) && empty library
  then Raise (ValueError (py "TLS provider digest requires a provider library"))
  else if negb (empty library) && empty sha256
  then Raise (ValueError (py "TLS provider library requires an expected SHA-256"))
  else if negb (empty sha256) && negb (valid_sha256_hex sha256)
  then Raise (ValueError (py "TLS provider SHA-256 must be 64 lowercase hexadecimal characters"))
  else if (max_bytes <=? 0) || (max_bytes >? 0x7FFFFFFFFFFFFFFF)
  then Raise (ValueError (py "TLS provider byte limit is out of range"))
  else Ok (ListenerConfig host port backlog reuse_port tls_provider tls_config library sha256 max_bytes).

Record http1_limits := Http1Limits {
  request_line_bytes : Z;
  header_bytes : Z;
  header_count : Z;
  body_bytes : Z;
  chunk_bytes : Z;
  header_timeout_ms : Z;
  body_timeout_ms : Z;
  idle_timeout_ms : Z;
}.

Definition make_http1_limits (request_line_bytes header_bytes header_count body_bytes chunk_bytes
    header_timeout_ms body_timeout_ms idle_timeout_ms : Z) : result http1_limits :=
  if existsb (fun value => value <=? 0)
       [request_line_bytes; header_bytes; header_count; body_bytes; chunk_bytes;
        header_timeout_ms; body_timeout_ms; idle_timeout_ms]
  then Raise (ValueError (py "HTTP/1 limits must be positive"))
  else if chunk_bytes >? body_bytes
  then Raise (ValueError (py "chunk limit cannot exceed body limit"))
  else Ok (Http1Limits request_line_bytes header_bytes header_count body_bytes chunk_bytes
             header_timeout_ms body_timeout_ms idle_timeout_ms).

Record buffer_limits := BufferLimits {
  segment_bytes : Z;
  bl_low_watermark : Z;
  bl_high_watermark : Z;
  connection_bytes : Z;
}.

Definition make_buffer_limits (segment_bytes low_watermark high_watermark connection_bytes : Z)
    : result buffer_limits :=
  if segment_bytes <=? 0 then Raise (ValueError (py "buffer segment size must be positive"))
  else if (low_watermark <? 0) || (high_watermark <=? low_watermark)
  then Raise (ValueError (py "buffer watermarks must satisfy 0 <= low < high"))
  else if connection_bytes <? high_watermark
  then Raise (ValueError (py "connection buffer limit must cover high watermark"))
  else Ok (BufferLimits segment_bytes low_watermark high_watermark connection_bytes).

Record gateway_config (T A : Type) := GatewayConfig {
  listeners : list (listener_config T);
  carrier_count : Z;
  gc_http1 : http1_limits;
  gc_buffers : buffer_limits;
  gc_admission : A;
  drain_timeout_ms : Z;
  waitset_backend : str;
  max_requests_per_connection : Z;
  write_timeout_ms : Z;
  accept_poll_ms : Z;
  control_poll_ms : Z;
  tls_handshake_timeout_ms : Z;
  tls_close_timeout_ms : Z;
  install_signal_handlers : bool;
}.
Arguments GatewayConfig {T A}. Arguments listeners {T A}. Arguments carrier_count {T A}.
Arguments gc_http1 {T A}. Arguments gc_buffers {T A}. Arguments gc_admission {T A}.
Arguments drain_timeout_ms {T A}. Arguments waitset_backend {T A}.
Arguments max_requests_per_connection {T A}. Arguments write_timeout_ms {T A}.
Arguments accept_poll_ms {T A}. Arguments control_poll_ms {T A}.
Arguments tls_handshake_timeout_ms {T A}. Arguments tls_close_timeout_ms {T A}.
Arguments install_signal_handlers {T A}.

Section config.
(** [AdmissionLimits()], which the constructor builds when it is given none. *)
Context {T A : Type} (default_admission : A).

Definition default_listener : listener_config T :=
  ListenerConfig (py "0.0.0.0") 8080 128 false [] None [] [] TLS_PROVIDER_DEFAULT_MAX_BYTES.
Definition default_http1 : http1_limits :=
  Http1Limits 8192 32768 100 16777216 1048576 10000 30000 30000.
Definition default_buffers : buffer_limits := BufferLimits 16384 32768 65536 1048576.

Definition make_config (ls : list (listener_config T)) (carrier_count : Z)
    (http1 : option http1_limits) (buffers : option buffer_limits) (admission : option A)
    (drain_timeout_ms : Z) (waitset_backend : str)
    (max_requests write_timeout accept_poll control_poll handshake_timeout close_timeout : Z)
    (signal_handlers : bool) : result (gateway_config T A) :=
  let ls := if bool_decide (length ls = 0%nat) then [default_listener] else ls in
  if (carrier_count <? 0) || (carrier_count >? 64)
  then Raise (ValueError (py "carrier count must be between 0 and 64"))
  else if drain_timeout_ms <=? 0 then Raise (ValueError (py "drain timeout must be positive"))
  else if existsb (fun value => value <=? 0)
            [max_requests; write_timeout; accept_poll; control_poll; handshake_timeout; close_timeout]
  then Raise (ValueError (py "gateway runtime limits must be positive"))
  else if negb (str_in waitset_backend [py "auto"; py "kqueue"; py "epoll"; py "poll"])
  then Raise (ValueError (py "unknown waitset backend"))
  else Ok (GatewayConfig ls carrier_count (default default_http1 http1)
             (default default_buffers buffers) (default default_admission admission)
             drain_timeout_ms waitset_backend max_requests write_timeout accept_poll control_poll
             handshake_timeout close_timeout signal_handlers).

(** [x if given < 0 else given] *)
Definition keep_neg (old given : Z) : Z := if given <? 0 then old else given.

Definition replace (c : gateway_config T A) (ls : option (list (listener_config T)))
    (carriers : Z) (http1 : option http1_limits) (buffers : option buffer_limits)
    (admission : option A) (drain : Z) (backend : str)
    (max_requests write_timeout accept_poll control_poll handshake_timeout close_timeout : Z)
    (signal_handlers : option bool) : result (gateway_config T A) :=
  make_config (default (listeners c) ls) (keep_neg (carrier_count c) carriers)
    (Some (default (gc_http1 c) http1)) (Some (default (gc_buffers c) buffers))
    (Some (default (gc_admission c) admission)) (keep_neg (drain_timeout_ms c) drain)
    (if empty backend then waitset_backend c else backend)
    (keep_neg (max_requests_per_connection c) max_requests)
    (keep_neg (write_timeout_ms c) write_timeout)
    (keep_neg (accept_poll_ms c) accept_poll)
    (keep_neg (control_poll_ms c) control_poll)
    (keep_neg (tls_handshake_timeout_ms c) handshake_timeout)
    (keep_neg (tls_close_timeout_ms c) close_timeout)
    (default (install_signal_handlers c) signal_handlers).

End config.
