(* ===== verification/Lifecycle.v ===== *)
(** * Generations, admission and drain ([pcc_gateway/lifecycle.py])

    Every method is written as the sections it runs under the owner lock, each
    one function over the shared state, and the resource callbacks it makes
    between them.  [GatewayGeneration] objects live in a store of the lifecycle
    and references to them are indices.  Resources are objects of outside
    code: their [retain] and [release] are the class [ResourceOps], over a world
    [W] that only they change.  [System] interleaves the sections of any number of
    threads; the theorems are in [LifecycleSpec]. *)

From S2P Require Import Prelude PyStr.
#[local] Open Scope Z_scope.

Inductive gw_state := STATE_NEW | STATE_STARTING | STATE_RUNNING | STATE_DRAINING
  | STATE_STOPPED | STATE_FAILED.
#[global] Instance gw_state_eq_dec : EqDecision gw_state.
Proof. solve_decision. Defined.

(** What a generation needs from a resource: callbacks that may raise. *)
Class ResourceOps (R W : Type) := {
  res_retain : R -> M W R;
  res_release : R -> M W unit;
}.

Record generation (C R : Type) := Generation {
  generation_id : Z;
  g_config : C;
  g_resources : list R;
  g_references : Z;
  g_retired : bool;
  g_released : bool;
}.
Arguments Generation {C R}. Arguments generation_id {C R}. Arguments g_config {C R}.
Arguments g_resources {C R}. Arguments g_references {C R}. Arguments g_retired {C R}.
Arguments g_released {C R}.

(** ** [AdmissionLimits] *)

Record admission_limits := AdmissionLimits {
  max_connections : Z;
  max_requests : Z;
  max_queued_requests : Z;
  max_upstream_active : Z;
  max_buffered_bytes : Z;
}.
Definition make_admission (max_connections max_requests max_queued_requests max_upstream_active
    max_buffered_bytes : Z) : result admission_limits :=
  if existsb (fun value => value <? 0)
       [max_connections; max_requests; max_queued_requests; max_upstream_active; max_buffered_bytes]
  then Raise (ValueError (py "admission limits cannot be negative"))
  else Ok (AdmissionLimits max_connections max_requests max_queued_requests max_upstream_active
             max_buffered_bytes).

(** ** [GatewayMetrics] *)

Module GatewayMetrics.

Definition NAMES : list str :=
  [py "connections_accepted"; py "connections_active"; py "connections_rejected";
   py "tls_handshakes_started"; py "tls_handshakes_completed"; py "tls_handshakes_failed";
   py "tls_close_notify_completed"; py "tls_close_notify_failed"; py "tls_generation_reloads";
   py "reload_requested"; py "requests_started"; py "requests_active"; py "requests_queued";
   py "requests_rejected"; py "parser_errors"; py "buffered_bytes"; py "backpressure_parks";
   py "upstream_active"; py "upstream_retries"; py "upstream_cancelled"; py "dns_queries";
   py "dns_failures"; py "dns_cache_hits"; py "vthread_pins"; py "drain_forced"].

Abbreviation values := (gmap (list Z) Z) (only parsing).
Definition init : values := list_to_map (map (fun n => (n, 0)) NAMES).

Definition add_unlocked (name : str) (amount : Z) : M values Z :=
  let! vs := get in
  match vs !! name with
  | None => raise (KeyError (py "unbounded gateway metric label rejected"))
  | Some v => put (<[name := v + amount]> vs) ;;! ret (v + amount)
  end.

Definition get_unlocked (name : str) : M values Z :=
  let! vs := get in
  match vs !! name with
  | None => raise (KeyError name)
  | Some v => ret v
  end.

Definition set_ (name : str) (v : Z) : M values unit := modify (<[name := v]>).

Definition drain_active_unlocked (force : bool) : M values Z :=
  let! c := get_unlocked (py "connections_active") in
  let! r := get_unlocked (py "requests_active") in
  let active := c + r in
  if negb (active =? 0) && force then
    let! _ := add_unlocked (py "drain_forced") active in
    set_ (py "connections_active") 0 ;;!
    set_ (py "requests_active") 0 ;;!
    ret active
  else ret active.

End GatewayMetrics.

(** ** [GatewayLifecycle] *)

Record lifecycle (C R : Type) := Lifecycle {
  metrics : gmap (list Z) Z;
  l_state : gw_state;
  next_generation_id : Z;
  generations : list (generation C R);
  current : nat;
  retired_generations : list nat;
  publishing : bool;
  limits : admission_limits;
  queued_requests : Z;
  failed_reason : str;
}.
Arguments Lifecycle {C R}. Arguments metrics {C R}. Arguments l_state {C R}.
Arguments next_generation_id {C R}. Arguments generations {C R}. Arguments current {C R}.
Arguments retired_generations {C R}. Arguments publishing {C R}. Arguments limits {C R}.
Arguments queued_requests {C R}. Arguments failed_reason {C R}.

Section lifecycle.
Context {C R W : Type} `{ResourceOps R W}.
Abbreviation lifecycle := (lifecycle C R).
Abbreviation generation := (generation C R).

Definition set_metrics (x : gmap (list Z) Z) (l : lifecycle) : lifecycle :=
  Lifecycle x (l_state l) (next_generation_id l) (generations l) (current l)
    (retired_generations l) (publishing l) (limits l) (queued_requests l) (failed_reason l).
Definition set_l_state (x : gw_state) (l : lifecycle) : lifecycle :=
  Lifecycle (metrics l) x (next_generation_id l) (generations l) (current l)
    (retired_generations l) (publishing l) (limits l) (queued_requests l) (failed_reason l).
Definition set_next_id (x : Z) (l : lifecycle) : lifecycle :=
  Lifecycle (metrics l) (l_state l) x (generations l) (current l)
    (retired_generations l) (publishing l) (limits l) (queued_requests l) (failed_reason l).
Definition set_generations (x : list generation) (l : lifecycle) : lifecycle :=
  Lifecycle (metrics l) (l_state l) (next_generation_id l) x (current l)
    (retired_generations l) (publishing l) (limits l) (queued_requests l) (failed_reason l).
Definition set_current (x : nat) (l : lifecycle) : lifecycle :=
  Lifecycle (metrics l) (l_state l) (next_generation_id l) (generations l) x
    (retired_generations l) (publishing l) (limits l) (queued_requests l) (failed_reason l).
Definition set_retired_generations (x : list nat) (l : lifecycle) : lifecycle :=
  Lifecycle (metrics l) (l_state l) (next_generation_id l) (generations l) (current l)
    x (publishing l) (limits l) (queued_requests l) (failed_reason l).
Definition set_publishing (x : bool) (l : lifecycle) : lifecycle :=
  Lifecycle (metrics l) (l_state l) (next_generation_id l) (generations l) (current l)
    (retired_generations l) x (limits l) (queued_requests l) (failed_reason l).
Definition set_queued_requests (x : Z) (l : lifecycle) : lifecycle :=
  Lifecycle (metrics l) (l_state l) (next_generation_id l) (generations l) (current l)
    (retired_generations l) (publishing l) (limits l) x (failed_reason l).
Definition set_failed_reason (x : str) (l : lifecycle) : lifecycle :=
  Lifecycle (metrics l) (l_state l) (next_generation_id l) (generations l) (current l)
    (retired_generations l) (publishing l) (limits l) (queued_requests l) x.

(** A section of code under the owner lock. *)
Abbreviation Locked := (M lifecycle).
Definition on_metrics {A} (m : M (gmap (list Z) Z) A) : Locked A := zoom metrics set_metrics m.

Definition get_gen (g : nat) : Locked generation := fun l =>
  match generations l !! g with
  | Some x => (Ok x, l)
  | None => (Raise (TypeError (py "dangling reference")), l)
  end.
Definition set_gen (g : nat) (x : generation) : Locked unit :=
  modify (fun l => set_generations (<[g := x]> (generations l)) l).
(** Construction: the new object gets the next index. *)
Definition alloc_gen (x : generation) : Locked nat := fun l =>
  (Ok (length (generations l)), set_generations (generations l ++ [x]) l).

Definition gen_released_error : exn := RuntimeError (py "gateway generation released more than once").

(** *** [GatewayGeneration] *)

(** [index = len(...) - 1; while index >= 0: release ...], the first error kept;
    called with the list reversed. *)
Fixpoint release_each (rs : list R) (first_error : option exn) : M W (option exn) :=
  match rs with
  | [] => ret first_error
  | r :: rs' =>
      let! e := try_except (res_release r ;;! ret None) (fun e => ret (Some e)) in
      release_each rs' (match first_error with Some x => Some x | None => e end)
  end.

(** The [for resource in resources] loop of the constructor: the resources
    retained before the end or the error, and the error. *)
Fixpoint retain_each (rs : list R) (done : list R) : M W (list R * option exn) :=
  match rs with
  | [] => ret (done, None)
  | r :: rs' =>
      let! x := try_except (let! t := res_retain r in ret (inl t)) (fun e => ret (inr e)) in
      match x with
      | inl t => retain_each rs' (done ++ [t])
      | inr e => ret (done, Some e)
      end
  end.

(** [GatewayGeneration(id, config, resources, lock)] *)
Definition generation_init (id : Z) (config : C) (resources : list R) : M W generation :=
  let! (retained, error) := retain_each resources [] in
  match error with
  | None => ret (Generation id config retained 1 false false)
  | Some e =>
      let! cleanup := release_each (rev retained) None in
      match cleanup with
      | Some _ => raise (RuntimeError (py "gateway generation construction cleanup failed"))
      | None => raise e
      end
  end.

Definition retain_locked (g : nat) : Locked unit :=
  let! x := get_gen g in
  if g_released x then raise (RuntimeError (py "cannot retain released gateway generation"))
  else set_gen g (Generation (generation_id x) (g_config x) (g_resources x)
                    (g_references x + 1) (g_retired x) (g_released x)).

(** The last part of both [retire] and [release] under the lock: gives up one
    reference and takes the resources out with the last one. *)
Definition drop_reference (g : nat) (retired : bool) : Locked (option (list R)) :=
  let! x := get_gen g in
  let n := g_references x - 1 in
  if n =? 0 then
    set_gen g (Generation (generation_id x) (g_config x) [] n retired true) ;;!
    ret (Some (g_resources x))
  else
    set_gen g (Generation (generation_id x) (g_config x) (g_resources x) n retired (g_released x)) ;;!
    ret None.

Definition retire_locked (g : nat) : Locked (option (list R)) :=
  let! x := get_gen g in
  if g_retired x then raise (RuntimeError (py "gateway generation retired more than once"))
  else if g_released x || (g_references x <=? 0) then raise gen_released_error
  else drop_reference g true.

Definition release_locked (g : nat) : Locked (option (list R)) :=
  let! x := get_gen g in
  if g_released x || (g_references x <=? 0) then raise gen_released_error
  else drop_reference g (g_retired x).

Definition release_resources (rs : option (list R)) : M W Z :=
  match rs with
  | None => ret 0
  | Some rs =>
      let! e := release_each (rev rs) None in
      match e with
      | Some _ => raise (RuntimeError (py "gateway generation resource release failed"))
      | None => ret 1
      end
  end.

Definition attachable (x : generation) : bool :=
  negb (g_retired x) && negb (g_released x) && (g_references x =? 1).
(** The second locked section of [attach_resource]. *)
Definition attach_locked (g : nat) (retained : R) : Locked bool :=
  let! x := get_gen g in
  if attachable x then
    set_gen g (Generation (generation_id x) (g_config x) (g_resources x ++ [retained])
                 (g_references x) (g_retired x) (g_released x)) ;;!
    ret true
  else ret false.

(** A method over the lifecycle and the world of the resources. *)
Abbreviation L := (M (lifecycle * W)).
Definition locked {A} (m : Locked A) : L A := zoom fst (fun l t => (l, snd t)) m.
Definition callback {A} (m : M W A) : L A := zoom snd (fun w t => (fst t, w)) m.

Definition retire (g : nat) : L Z :=
  let! rs := locked (retire_locked g) in callback (release_resources rs).
Definition release (g : nat) : L Z :=
  let! rs := locked (release_locked g) in callback (release_resources rs).

Definition unpublished_only : exn :=
  RuntimeError (py "resources attach only to an unpublished generation").
Definition attach_resource (g : nat) (resource : R) : L unit :=
  let! x := locked (get_gen g) in
  if negb (attachable x) then raise unpublished_only
  else
    let! retained := callback (res_retain resource) in
    let! attached := locked (attach_locked g retained) in
    if attached then ret tt
    else
      try_except (callback (res_release retained))
        (fun _ => raise (RuntimeError (py "rejected gateway generation resource cleanup failed"))) ;;!
      raise unpublished_only.

(** *** Construction and the state machine *)

Definition init (config : C) (lim : admission_limits) : lifecycle :=
  Lifecycle GatewayMetrics.init STATE_NEW 2 [Generation 1 config [] 1 false false] 0 [] false lim 0 [].

Definition start : Locked unit :=
  let! l := get in
  if negb (bool_decide (l_state l = STATE_NEW))
  then raise (RuntimeError (py "gateway can start only once"))
  else modify (set_l_state STATE_STARTING).

Definition started : Locked unit :=
  let! l := get in
  if negb (bool_decide (l_state l = STATE_STARTING))
  then raise (RuntimeError (py "gateway is not starting"))
  else modify (set_l_state STATE_RUNNING).

Definition acquire_generation : Locked nat :=
  let! l := get in
  if negb (bool_decide (l_state l = STATE_RUNNING))
  then raise (RuntimeError (py "gateway is not accepting new work"))
  else retain_locked (current l) ;;! ret (current l).

(** The locked sections of [publish], in order. *)
Definition publish_begin : Locked Z :=
  let! l := get in
  if negb (bool_decide (l_state l = STATE_RUNNING))
  then raise (RuntimeError (py "configuration publish requires running state"))
  else if publishing l then raise (RuntimeError (py "concurrent configuration publish rejected"))
  else
    modify (set_publishing true) ;;!
    modify (set_next_id (next_generation_id l + 1)) ;;!
    ret (next_generation_id l).
Definition publish_end : Locked unit := modify (set_publishing false).
Definition publish_install (replacement : nat) : Locked (option nat) :=
  let! l := get in
  if bool_decide (l_state l = STATE_RUNNING) then
    modify (set_current replacement) ;;!
    modify (set_retired_generations (retired_generations l ++ [current l])) ;;!
    ret (Some (current l))
  else modify (set_publishing false) ;;! ret None.

Definition collect_retired : Locked Z :=
  let! l := get in
  let is_released g := match generations l !! g with Some x => g_released x | None => false end in
  let kept := List.filter (fun g => negb (is_released g)) (retired_generations l) in
  let collected := len (List.filter is_released (retired_generations l)) in
  modify (set_retired_generations kept) ;;!
  ret collected.

Definition lost_running : exn := RuntimeError (py "configuration publish lost running state").

Definition publish (config : C) (resources : list R) : L nat :=
  let! id := locked publish_begin in
  let! x := try_except (callback (generation_init id config resources))
              (fun e => locked publish_end ;;! raise e) in
  let! replacement := locked (alloc_gen x) in
  let! previous := locked (publish_install replacement) in
  match previous with
  | None => let! _ := retire replacement in raise lost_running
  | Some previous =>
      (* try: previous.retire() finally: ... *)
      let finally := locked publish_end ;;! locked collect_retired in
      let! _ := try_except (retire previous) (fun e => let! _ := finally in raise e) in
      let! _ := finally in
      ret replacement
  end.

(** *** Admission *)

Definition metric (name : str) : Locked Z := on_metrics (GatewayMetrics.get_unlocked name).
Definition metric_add (name : str) (amount : Z) : Locked unit :=
  let! _ := on_metrics (GatewayMetrics.add_unlocked name amount) in ret tt.

Definition admit_connection : Locked bool :=
  let! l := get in
  if negb (bool_decide (l_state l = STATE_RUNNING))
  then metric_add (py "connections_rejected") 1 ;;! ret false
  else
    let! active := metric (py "connections_active") in
    if active >=? max_connections (limits l)
    then metric_add (py "connections_rejected") 1 ;;! ret false
    else
      metric_add (py "connections_accepted") 1 ;;!
      metric_add (py "connections_active") 1 ;;!
      ret true.

Definition release_connection : Locked unit :=
  let! active := metric (py "connections_active") in
  if active <=? 0 then raise (RuntimeError (py "connection admission released more than once"))
  else metric_add (py "connections_active") (-1).

Definition admit_request : Locked bool :=
  let! l := get in
  if negb (bool_decide (l_state l = STATE_RUNNING))
  then metric_add (py "requests_rejected") 1 ;;! ret false
  else
    let! active := metric (py "requests_active") in
    if active >=? max_requests (limits l)
    then metric_add (py "requests_rejected") 1 ;;! ret false
    else
      metric_add (py "requests_started") 1 ;;!
      metric_add (py "requests_active") 1 ;;!
      ret true.

Definition release_request : Locked unit :=
  let! active := metric (py "requests_active") in
  if active <=? 0 then raise (RuntimeError (py "request admission released more than once"))
  else metric_add (py "requests_active") (-1).

Definition queue_request : Locked bool :=
  let! l := get in
  if queued_requests l >=? max_queued_requests (limits l)
  then metric_add (py "requests_rejected") 1 ;;! ret false
  else
    modify (set_queued_requests (queued_requests l + 1)) ;;!
    metric_add (py "requests_queued") 1 ;;!
    ret true.

Definition release_queued_request : Locked unit :=
  let! l := get in
  if queued_requests l <=? 0
  then raise (RuntimeError (py "queued request released more than once"))
  else
    modify (set_queued_requests (queued_requests l - 1)) ;;!
    metric_add (py "requests_queued") (-1).

Definition admit_upstream : Locked bool :=
  let! l := get in
  let! active := metric (py "upstream_active") in
  if active >=? max_upstream_active (limits l) then ret false
  else metric_add (py "upstream_active") 1 ;;! ret true.

Definition release_upstream : Locked unit :=
  let! active := metric (py "upstream_active") in
  if active <=? 0 then raise (RuntimeError (py "upstream admission released more than once"))
  else metric_add (py "upstream_active") (-1).

Definition reserve_buffered (amount : Z) : Locked bool :=
  if amount <? 0 then raise (ValueError (py "buffer reservation cannot be negative"))
  else
    let! l := get in
    let! held := metric (py "buffered_bytes") in
    if held + amount >? max_buffered_bytes (limits l) then ret false
    else metric_add (py "buffered_bytes") amount ;;! ret true.

Definition release_buffered (amount : Z) : Locked unit :=
  let! held := metric (py "buffered_bytes") in
  if (amount <? 0) || (amount >? held)
  then raise (RuntimeError (py "buffer reservation released out of range"))
  else metric_add (py "buffered_bytes") (- amount).

(** *** Drain *)

Definition begin_drain : Locked unit :=
  let! l := get in
  if bool_decide (l_state l = STATE_STARTING) || bool_decide (l_state l = STATE_RUNNING)
  then modify (set_l_state STATE_DRAINING)
  else raise (RuntimeError (py "gateway cannot enter drain from this state")).

(** The locked section of [finish_drain]: the generation to retire, if drained. *)
Definition finish_drain_locked (force : bool) : Locked (option nat) :=
  let! l := get in
  if negb (bool_decide (l_state l = STATE_DRAINING))
  then raise (RuntimeError (py "gateway is not draining"))
  else
    let! active := on_metrics (GatewayMetrics.drain_active_unlocked force) in
    if negb (active =? 0) && negb force then ret None
    else modify (set_l_state STATE_STOPPED) ;;! ret (Some (current l)).
Definition finish_drain (force : bool) : L bool :=
  let! r := locked (finish_drain_locked force) in
  match r with
  | None => ret false
  | Some g => let! _ := retire g in ret true
  end.

Definition fail (reason : str) : Locked unit :=
  modify (set_failed_reason reason) ;;! modify (set_l_state STATE_FAILED).

End lifecycle.
