(* ===== verification/LifecycleSystem.v ===== *)
(** * Interleavings of the lifecycle

    Threads run the methods of [GatewayLifecycle] concurrently; what is atomic is each
    section under the owner lock.  A state of the system is the lifecycle, the sections
    its threads still have to run ([task]), and the generations whose resources were
    handed out for release.  [step] runs one section of one thread; the callbacks of the
    resources run between sections and do not touch the lifecycle.  [inv] holds in every
    reachable state. *)

From S2P Require Import Prelude PyStr Lifecycle.
#[local] Open Scope Z_scope.

(** What a thread has left to do. *)
Inductive task :=
| THold (g : nat)      (* release one acquired reference of g *)
| TBegun (id : Z)      (* publish: construct the replacement *)
| TBuilt (g : nat)     (* publish: install g *)
| TRetire (g : nat)    (* publish: retire the previous generation g *)
| TEnding              (* publish: reset the publishing flag *)
| TLost (g : nat)      (* publish: retire the replacement that lost the race *)
| TDrain (g : nat).    (* finish_drain: retire the current generation *)
#[global] Instance task_eq_dec : EqDecision task.
Proof. solve_decision. Defined.

Section system.
Context {C R : Type}.
Abbreviation life := (lifecycle C R).

Record sys := Sys { s_life : life; s_tasks : list task; s_disposed : list nat }.

Definition dispose (g : nat) (rs : option (list R)) (d : list nat) : list nat :=
  match rs with Some _ => g :: d | None => d end.

(** The sections that only move the state machine or count. *)
Definition state_section (m : M life unit) : Prop :=
  m = start \/ m = started \/ m = begin_drain \/ exists reason, m = fail reason.

(** One section of one thread. *)
Inductive step : sys -> sys -> Prop :=
| step_state m l l' ts d :
    state_section m -> m l = (Ok tt, l') -> step (Sys l ts d) (Sys l' ts d)
| step_acquire g l l' ts d :
    acquire_generation l = (Ok g, l') -> step (Sys l ts d) (Sys l' (THold g :: ts) d)
| step_retain g l l' ts d :
    THold g ∈ ts -> retain_locked g l = (Ok tt, l') -> step (Sys l ts d) (Sys l' (THold g :: ts) d)
| step_release g rs l l' ts ts' d :
    ts ≡ₚ THold g :: ts' -> release_locked g l = (Ok rs, l') ->
    step (Sys l ts d) (Sys l' ts' (dispose g rs d))
| step_attach g r b l l' ts d :
    attach_locked g r l = (Ok b, l') -> step (Sys l ts d) (Sys l' ts d)
| step_publish id l l' ts d :
    publish_begin l = (Ok id, l') -> step (Sys l ts d) (Sys l' (TBegun id :: ts) d)
| step_build_fails id l l' ts ts' d :
    ts ≡ₚ TBegun id :: ts' -> publish_end l = (Ok tt, l') -> step (Sys l ts d) (Sys l' ts' d)
| step_build id config resources g l l' ts ts' d :
    ts ≡ₚ TBegun id :: ts' ->
    alloc_gen (Generation id config resources 1 false false) l = (Ok g, l') ->
    step (Sys l ts d) (Sys l' (TBuilt g :: ts') d)
| step_install g previous l l' ts ts' d :
    ts ≡ₚ TBuilt g :: ts' -> publish_install g l = (Ok previous, l') ->
    step (Sys l ts d)
      (Sys l' (match previous with Some p => TRetire p | None => TLost g end :: ts') d)
| step_retire_previous g rs l l' ts ts' d :
    ts ≡ₚ TRetire g :: ts' -> retire_locked g l = (Ok rs, l') ->
    step (Sys l ts d) (Sys l' (TEnding :: ts') (dispose g rs d))
| step_publish_end l l' ts ts' d :
    ts ≡ₚ TEnding :: ts' -> publish_end l = (Ok tt, l') -> step (Sys l ts d) (Sys l' ts' d)
| step_retire_lost g rs l l' ts ts' d :
    ts ≡ₚ TLost g :: ts' -> retire_locked g l = (Ok rs, l') ->
    step (Sys l ts d) (Sys l' ts' (dispose g rs d))
| step_collect n l l' ts d :
    collect_retired l = (Ok n, l') -> step (Sys l ts d) (Sys l' ts d)
| step_drain force previous l l' ts d :
    finish_drain_locked force l = (Ok previous, l') ->
    step (Sys l ts d)
      (Sys l' (match previous with Some g => TDrain g :: ts | None => ts end) d)
| step_retire_drained g rs l l' ts ts' d :
    ts ≡ₚ TDrain g :: ts' -> retire_locked g l = (Ok rs, l') ->
    step (Sys l ts d) (Sys l' ts' (dispose g rs d)).

Inductive reachable (config : C) (lim : admission_limits) : sys -> Prop :=
| reach_init : reachable config lim (Sys (init config lim) [] [])
| reach_step s s' : reachable config lim s -> step s s' -> reachable config lim s'.

(** ** The invariant *)

Definition holds (g : nat) (t : task) : bool :=
  match t with THold g' => bool_decide (g = g') | _ => false end.
Definition owner (t : task) : option nat :=
  match t with TBuilt g | TRetire g | TLost g | TDrain g => Some g | _ => None end.
Definition publishes (t : task) : bool :=
  match t with TBegun _ | TBuilt _ | TRetire _ | TEnding => true | _ => false end.
Definition begun (t : task) : option Z := match t with TBegun id => Some id | _ => None end.
Definition live (st : gw_state) : Prop := st <> STATE_STOPPED /\ st <> STATE_FAILED.

(** The reference of a generation that is not retired is the lifecycle's own. *)
Definition gen_ok (ts : list task) (d : list nat) (g : nat) (x : generation C R) : Prop :=
  g_references x = count (holds g) ts + Z.b2z (negb (g_retired x)) /\
  g_released x = bool_decide (g_references x = 0) /\
  (g_released x = true <-> g ∈ d).

Record inv (s : sys) : Prop := {
  i_gen : forall g x, generations (s_life s) !! g = Some x -> gen_ok (s_tasks s) (s_disposed s) g x;
  i_hold : forall g, THold g ∈ s_tasks s -> (g < length (generations (s_life s)))%nat;
  i_disposed : NoDup (s_disposed s) /\ forall g, g ∈ s_disposed s -> (g < length (generations (s_life s)))%nat;
  i_owners : NoDup (omap owner (s_tasks s));
  i_owned : forall g, g ∈ omap owner (s_tasks s) ->
    exists x, generations (s_life s) !! g = Some x /\ g_retired x = false;
  i_current : exists x, generations (s_life s) !! current (s_life s) = Some x /\
    (live (l_state (s_life s)) -> g_retired x = false /\ current (s_life s) ∉ omap owner (s_tasks s));
  i_publishing : count publishes (s_tasks s) = Z.b2z (publishing (s_life s));
  i_ids : NoDup (map generation_id (generations (s_life s)) ++ omap begun (s_tasks s)) /\
    Forall (fun id => id < next_generation_id (s_life s))
      (map generation_id (generations (s_life s)) ++ omap begun (s_tasks s));
}.

(** Only the listed parts of the state matter, and tasks in any order. *)
Lemma inv_perm l ts ts' d : ts ≡ₚ ts' -> inv (Sys l ts d) -> inv (Sys l ts' d).
Proof.
  intros Hp [H1 H2 H3 H4 H5 H6 H7 H8]. split; cbn [s_life s_tasks s_disposed] in *.
  - intros g x Hg. destruct (H1 g x Hg) as (? & ? & ?). unfold gen_ok. by rewrite <- (count_perm _ _ _ Hp).
  - intros g Hg. apply H2. by rewrite Hp.
  - done.
  - by rewrite <- Hp.
  - intros g Hg. apply H5. by rewrite Hp.
  - destruct H6 as (x & Hx & Hl). exists x. split; [done|]. intros Hlive. rewrite <- Hp. by apply Hl.
  - by rewrite <- (count_perm _ _ _ Hp).
  - by rewrite <- Hp.
Qed.

(** ** The sections on one generation *)

Definition with_gen (g : nat) (x : generation C R) (l : life) : life :=
  set_generations (<[g := x]> (generations l)) l.

Lemma retain_run g l x :
  generations l !! g = Some x -> g_released x = false ->
  retain_locked g l = (Ok tt, with_gen g (Generation (generation_id x) (g_config x) (g_resources x)
                                            (g_references x + 1) (g_retired x) (g_released x)) l).
Proof.
  intros Hx Hr. unfold retain_locked, bind, get_gen. rewrite Hx, Hr. done.
Qed.

(** Giving up a reference: the resources come out exactly with the last one. *)
Definition dropped (retired : bool) (x : generation C R) : generation C R :=
  Generation (generation_id x) (g_config x)
    (if g_references x =? 1 then [] else g_resources x)
    (g_references x - 1) retired (if g_references x =? 1 then true else g_released x).
Definition taken (x : generation C R) : option (list R) :=
  if g_references x =? 1 then Some (g_resources x) else None.

Lemma drop_run g b l x :
  generations l !! g = Some x ->
  drop_reference g b l = (Ok (taken x), with_gen g (dropped b x) l).
Proof.
  intros Hx. unfold drop_reference, bind, get_gen. rewrite Hx. unfold taken, dropped.
  destruct (Z.eqb_spec (g_references x) 1) as [E|E].
  - rewrite E. done.
  - rewrite (proj2 (Z.eqb_neq (g_references x - 1) 0)) by lia. done.
Qed.

Lemma release_run g l x :
  generations l !! g = Some x -> g_released x = false -> 0 < g_references x ->
  release_locked g l = (Ok (taken x), with_gen g (dropped (g_retired x) x) l).
Proof.
  intros Hx Hr Hp. unfold release_locked, bind, get_gen. rewrite Hx, Hr. cbn [orb]. zdec. by apply drop_run.
Qed.

Lemma retire_run g l x :
  generations l !! g = Some x -> g_retired x = false -> g_released x = false -> 0 < g_references x ->
  retire_locked g l = (Ok (taken x), with_gen g (dropped true x) l).
Proof.
  intros Hx Ht Hr Hp. unfold retire_locked, bind, get_gen. rewrite Hx, Ht, Hr. cbn [orb]. zdec. by apply drop_run.
Qed.

(** A reference that some task or the lifecycle still counts keeps the generation. *)
Lemma gen_ok_live ts d g x :
  gen_ok ts d g x -> 0 < count (holds g) ts \/ g_retired x = false ->
  0 < g_references x /\ g_released x = false.
Proof.
  intros (Hr & Hrel & _) H. pose proof (count_nonneg (holds g) ts).
  assert (0 < g_references x) as Hp by (rewrite Hr; destruct H as [?|H]; [|rewrite H; simpl]; destruct (g_retired x); simpl in *; lia).
  split; [done|]. rewrite Hrel. apply bool_decide_eq_false_2. lia.
Qed.

Lemma holds_count g ts : THold g ∈ ts -> 0 < count (holds g) ts.
Proof. intros H. eapply count_pos_elem; [exact H|]. simpl. by apply bool_decide_eq_true_2. Qed.

Lemma ids_insert gens g (x y : generation C R) :
  gens !! g = Some x -> generation_id y = generation_id x ->
  map generation_id (<[g := y]> gens) = map generation_id gens.
Proof.
  intros Hx Hy. change (generation_id <$> <[g := y]> gens = generation_id <$> gens). rewrite list_fmap_insert.
  apply list_insert_id. by rewrite list_lookup_fmap, Hx, Hy.
Qed.

Lemma gen_ok_drop ts ts' d g x b :
  gen_ok ts d g x -> 0 < g_references x -> g_released x = false ->
  g_references x - 1 = count (holds g) ts' + Z.b2z (negb b) ->
  gen_ok ts' (dispose g (taken x) d) g (dropped b x).
Proof.
  intros (_ & Hrel & Hd) Hp Hr Hn. unfold gen_ok, dropped, taken. cbn [g_references g_retired g_released].
  split; [done|]. destruct (Z.eqb_spec (g_references x) 1) as [E|E]; cbn [dispose].
  - rewrite bool_decide_eq_true_2 by lia. split; [done|]. split; [by left|done].
  - rewrite Hr, bool_decide_eq_false_2 by lia. split; [done|]. rewrite <- Hd, Hr. done.
Qed.

Lemma gen_ok_other ts ts' d g g' x rs :
  g' <> g -> count (holds g') ts' = count (holds g') ts ->
  gen_ok ts d g' x -> gen_ok ts' (dispose g rs d) g' x.
Proof.
  intros Hne Hc (H1 & H2 & H3). split_and!; [by rewrite Hc|done|]. rewrite H3. destruct rs; cbn [dispose]; [|done].
  rewrite elem_of_cons. split; [by right|]. by intros [?|?].
Qed.

(** The part of [inv] on the disposed list after a reference is given up. *)
Lemma disposed_drop (l : life) d g x ts :
  generations l !! g = Some x -> g_released x = false -> gen_ok ts d g x ->
  NoDup d /\ (forall g, g ∈ d -> (g < length (generations l))%nat) ->
  NoDup (dispose g (taken x) d) /\ (forall g', g' ∈ dispose g (taken x) d -> (g' < length (generations l))%nat).
Proof.
  intros Hx Hr (_ & _ & Hd) [H1 H2]. unfold taken. destruct (_ =? 1); [|done]. cbn [dispose].
  assert (g ∉ d) by (rewrite <- Hd, Hr; done). split; [by constructor|].
  intros g' [->|?]%elem_of_cons; [by eapply lookup_lt_Some|by apply H2].
Qed.

Lemma inv_release l ts d g :
  inv (Sys l (THold g :: ts) d) -> exists x, generations l !! g = Some x /\
    release_locked g l = (Ok (taken x), with_gen g (dropped (g_retired x) x) l) /\
    inv (Sys (with_gen g (dropped (g_retired x) x) l) ts (dispose g (taken x) d)).
Proof.
  intros [H1 H2 H3 H4 H5 H6 H7 H8]. cbn [s_life s_tasks s_disposed] in *.
  destruct (lookup_lt_is_Some_2 (generations l) g) as [x Hx]; [apply H2; by left|]. exists x. split; [done|].
  pose proof (H1 g x Hx) as Hg. destruct (gen_ok_live _ _ _ _ Hg) as [Hp Hr]; [left; apply holds_count; by left|].
  split; [by apply release_run|]. split; cbn [s_life s_tasks s_disposed with_gen generations set_generations current
    l_state publishing next_generation_id].
  - intros g' y Hy. destruct (decide (g' = g)) as [->|Hne].
    + rewrite list_lookup_insert_eq in Hy by (by eapply lookup_lt_Some). simplify_eq.
      apply (gen_ok_drop (THold g :: ts)); try done. destruct Hg as (Hg & _). revert Hg. cbn [count holds].
      rewrite bool_decide_eq_true_2 by done. simpl. lia.
    + rewrite list_lookup_insert_ne in Hy by done. apply (gen_ok_other (THold g :: ts)); [done| |by apply H1].
      cbn [count holds]. by rewrite bool_decide_eq_false_2.
  - intros g' Hg'. rewrite length_insert. apply H2. by right.
  - rewrite length_insert. by eapply disposed_drop.
  - done.
  - intros g' Hg'. destruct (H5 g' Hg') as (y & Hy & Hyr). destruct (decide (g' = g)) as [->|].
    + rewrite Hx in Hy. injection Hy as <-. exists (dropped (g_retired x) x). rewrite list_lookup_insert_eq by (by eapply lookup_lt_Some). done.
    + exists y. by rewrite list_lookup_insert_ne.
  - destruct H6 as (y & Hy & Hl). destruct (decide (current l = g)) as [E|].
    + rewrite E in *. rewrite Hx in Hy. injection Hy as <-. exists (dropped (g_retired x) x).
      rewrite list_lookup_insert_eq by (by eapply lookup_lt_Some). done.
    + exists y. by rewrite list_lookup_insert_ne.
  - done.
  - by rewrite (ids_insert _ _ x).
Qed.

(** Retiring a generation that a task owns; [tl] is what the task leaves behind. *)
Lemma inv_retire l t tl ts d g :
  inv (Sys l (t :: ts) d) -> owner t = Some g ->
  tl = [] /\ publishes t = false \/ tl = [TEnding] /\ publishes t = true ->
  exists x, generations l !! g = Some x /\
    retire_locked g l = (Ok (taken x), with_gen g (dropped true x) l) /\
    inv (Sys (with_gen g (dropped true x) l) (tl ++ ts) (dispose g (taken x) d)).
Proof.
  intros [H1 H2 H3 H4 H5 H6 H7 H8] Ho Htl. cbn [s_life s_tasks s_disposed] in *.
  assert (omap owner (t :: ts) = g :: omap owner ts) as Ho' by (simpl; by rewrite Ho). rewrite Ho' in *.
  assert (begun t = None /\ forall g', holds g' t = false) as [Hb Hh] by (by destruct t).
  assert (omap owner (tl ++ ts) = omap owner ts /\ omap begun (tl ++ ts) = omap begun (t :: ts) /\
    (forall g', count (holds g') (tl ++ ts) = count (holds g') (t :: ts)) /\
    count publishes (tl ++ ts) = count publishes (t :: ts) /\ (forall g', THold g' ∈ tl ++ ts -> THold g' ∈ t :: ts))
    as (E1 & E2 & E3 & E4 & E5).
  { split_and!.
    - by destruct Htl as [[-> _]|[-> _]].
    - simpl. rewrite Hb. by destruct Htl as [[-> _]|[-> _]].
    - intros g'. simpl. rewrite Hh. by destruct Htl as [[-> _]|[-> _]].
    - simpl. by destruct Htl as [[-> ->]|[-> ->]].
    - intros g'. destruct Htl as [[-> _]|[-> _]]; [by right|]. intros [?|?]%elem_of_cons; [done|by right]. }
  apply NoDup_cons in H4 as [Hni H4].
  destruct (H5 g) as (x & Hx & Hxr); [by left|]. exists x. split; [done|].
  pose proof (H1 g x Hx) as Hg. destruct (gen_ok_live _ _ _ _ Hg) as [Hp Hr]; [by right|].
  split; [by apply retire_run|]. split; cbn [s_life s_tasks s_disposed with_gen generations set_generations current
    l_state publishing next_generation_id].
  - intros g' y Hy. destruct (decide (g' = g)) as [->|Hne].
    + rewrite list_lookup_insert_eq in Hy by (by eapply lookup_lt_Some). simplify_eq.
      apply (gen_ok_drop (t :: ts)); try done. destruct Hg as (Hg & _). rewrite E3, Hg, Hxr. simpl. lia.
    + rewrite list_lookup_insert_ne in Hy by done. apply (gen_ok_other (t :: ts)); [done|done|by apply H1].
  - intros g' Hg'. rewrite length_insert. by apply H2, E5.
  - rewrite length_insert. by eapply disposed_drop.
  - by rewrite E1.
  - intros g' Hg'. rewrite E1 in Hg'. destruct (H5 g') as (y & Hy & Hyr); [by right|]. exists y.
    rewrite list_lookup_insert_ne; [done|]. intros ->. done.
  - destruct H6 as (y & Hy & Hl). rewrite E1. destruct (decide (current l = g)) as [E|Hne].
    + exists (dropped true x). rewrite E, list_lookup_insert_eq by (by eapply lookup_lt_Some). split; [done|].
      intros Hlive. destruct (Hl Hlive) as [_ Hn]. exfalso. apply Hn. rewrite E. by left.
    + exists y. rewrite list_lookup_insert_ne by done. split; [done|]. intros Hlive. destruct (Hl Hlive) as [? Hn].
      split; [done|]. by apply not_elem_of_cons in Hn as [_ ?].
  - by rewrite E4.
  - rewrite (ids_insert _ _ x) by done. by rewrite E2.
Qed.

(** Changing fields of a generation that the invariant does not read. *)
Lemma inv_same l l' ts d :
  generations l' = generations l -> current l' = current l -> publishing l' = publishing l ->
  next_generation_id l' = next_generation_id l -> (live (l_state l') -> live (l_state l)) ->
  inv (Sys l ts d) -> inv (Sys l' ts d).
Proof.
  intros E1 E2 E3 E4 E5 [H1 H2 H3 H4 H5 H6 H7 H8]. split; cbn [s_life s_tasks s_disposed] in *;
    rewrite ?E1, ?E2, ?E3, ?E4; try done.
  destruct H6 as (x & Hx & Hl). exists x. split; [done|]. auto.
Qed.

Lemma state_section_run m l l' :
  state_section m -> m l = (Ok tt, l') ->
  generations l' = generations l /\ current l' = current l /\ publishing l' = publishing l /\
  next_generation_id l' = next_generation_id l /\ (live (l_state l') -> live (l_state l)).
Proof.
  intros [-> |[-> |[-> |[reason -> ]]]].
  - unfold start, bind, get, modify. cbn beta iota. destruct (bool_decide_reflect (l_state l = STATE_NEW)) as [E|]; [|done].
    intros [= <-]. cbn. rewrite E. split_and!; try done.
  - unfold started, bind, get, modify. cbn beta iota. destruct (bool_decide_reflect (l_state l = STATE_STARTING)) as [E|]; [|done].
    intros [= <-]. cbn. rewrite E. split_and!; try done.
  - unfold begin_drain, bind, get, modify. cbn beta iota.
    destruct (bool_decide_reflect (l_state l = STATE_STARTING)) as [E|]; cbn [orb].
    + intros [= <-]. cbn. rewrite E. split_and!; try done.
    + destruct (bool_decide_reflect (l_state l = STATE_RUNNING)) as [E|]; [|done].
      intros [= <-]. cbn. rewrite E. split_and!; try done.
  - intros [= <-]. cbn. split_and!; try done. by intros [_ ?].
Qed.

Lemma finish_drain_run force (l : life) r l' :
  finish_drain_locked force l = (Ok r, l') ->
  generations l' = generations l /\ current l' = current l /\ publishing l' = publishing l /\
  next_generation_id l' = next_generation_id l /\ live (l_state l) /\
  match r with
  | None => l_state l' = l_state l
  | Some g => g = current l /\ ~ live (l_state l')
  end.
Proof.
  unfold finish_drain_locked, bind, get. cbn beta iota.
  destruct (bool_decide_reflect (l_state l = STATE_DRAINING)) as [Es|]; [|done]. cbn [negb].
  unfold on_metrics, zoom. destruct (GatewayMetrics.drain_active_unlocked force (metrics l)) as [[n|e] m']; [|done].
  cbn beta iota. destruct (_ && _); unfold ret, modify; intros [= <- <-]; cbn; rewrite Es; split_and!; try done.
  by intros [? _].
Qed.

(** *** The sections of [publish] *)

Lemma inv_begin l ts d id l' :
  publish_begin l = (Ok id, l') -> inv (Sys l ts d) -> inv (Sys l' (TBegun id :: ts) d).
Proof.
  unfold publish_begin, bind, get, modify, ret. cbn beta iota.
  destruct (bool_decide_reflect (l_state l = STATE_RUNNING)); cbn [negb]; [|done].
  destruct (publishing l) eqn:Ep; [done|]. intros [= <- <-] [H1 H2 H3 H4 H5 H6 H7 H8].
  split; cbn [s_life s_tasks s_disposed] in *; try done.
  - intros g [?|?]%elem_of_cons; [done|by apply H2].
  - simpl. rewrite Ep in H7. by rewrite H7.
  - destruct H8 as [Hn Hf]. simpl.
    assert (map generation_id (generations l) ++ next_generation_id l :: omap begun ts ≡ₚ
            next_generation_id l :: map generation_id (generations l) ++ omap begun ts) as -> by (by rewrite Permutation_middle).
    split.
    + constructor; [|done]. intros Hin. rewrite Forall_forall in Hf. specialize (Hf _ Hin). simpl in Hf. lia.
    + constructor; [lia|]. eapply Forall_impl; [exact Hf|]. simpl. lia.
Qed.

Lemma count_publishes_le (l : life) t ts d :
  inv (Sys l (t :: ts) d) -> publishes t = true -> publishing l = true /\ count publishes ts = 0.
Proof.
  intros [_ _ _ _ _ _ H7 _] Ht. cbn [s_life s_tasks] in H7. simpl in H7. rewrite Ht in H7.
  pose proof (count_nonneg publishes ts). destruct (publishing l); simpl in H7; [|lia]. split; [done|lia].
Qed.

Lemma inv_end l t ts d :
  inv (Sys l (t :: ts) d) -> t = TEnding \/ (exists id, t = TBegun id) ->
  inv (Sys (set_publishing false l) ts d).
Proof.
  intros Hi Ht. assert (publishes t = true /\ owner t = None /\ (forall g, holds g t = false)) as (Hp & Ho & Hh)
    by (destruct Ht as [->|[id ->]]; done).
  destruct (count_publishes_le _ _ _ _ Hi Hp) as [_ Hc].
  destruct Hi as [H1 H2 H3 H4 H5 H6 H7 H8]. cbn [s_life s_tasks s_disposed] in *.
  assert (omap owner (t :: ts) = omap owner ts) as Eo by (simpl; by rewrite Ho). rewrite Eo in *.
  split; cbn [s_life s_tasks s_disposed set_publishing generations current l_state publishing next_generation_id]; try done.
  - intros g x Hg. destruct (H1 g x Hg) as (E & ? & ?). split_and!; try done. rewrite E. simpl. by rewrite Hh.
  - intros g Hg. apply H2. by right.
  - destruct H8 as [Hn Hf]. simpl in Hn, Hf. destruct (begun t); [|done].
    rewrite <- Permutation_middle in Hn, Hf. by apply NoDup_cons in Hn as [_ ?]; apply Forall_cons in Hf as [_ ?].
Qed.

Lemma inv_build l ts d id config resources :
  inv (Sys l (TBegun id :: ts) d) ->
  inv (Sys (set_generations (generations l ++ [Generation id config resources 1 false false]) l)
         (TBuilt (length (generations l)) :: ts) d).
Proof.
  intros [H1 H2 H3 H4 H5 H6 H7 H8]. cbn [s_life s_tasks s_disposed] in *.
  set (g := length (generations l)). set (x := Generation id config resources 1 false false).
  change (omap owner (TBegun id :: ts)) with (omap owner ts) in *.
  assert (g ∉ omap owner ts) as Hg.
  { intros Hin. destruct (H5 g Hin) as (y & Hy & _). apply lookup_lt_Some in Hy. unfold g in Hy. lia. }
  split; cbn [s_life s_tasks s_disposed set_generations generations current l_state publishing next_generation_id].
  - intros g' y [Hy|[Hge Hy]]%lookup_app_Some.
    + apply (H1 g' y Hy).
    + apply list_lookup_singleton_Some in Hy as [E <-]. assert (g' = g) as -> by (unfold g; lia).
      assert (count (holds g) ts = 0) as E0.
      { apply count_zero. intros i t Ht. destruct t; try done. simpl. apply bool_decide_eq_false_2. intros <-.
        apply list_elem_of_lookup_2 in Ht. specialize (H2 g). unfold g in H2.
        assert (length (generations l) < length (generations l))%nat; [|lia]. apply H2. by right. }
      split_and!; [cbn; lia|done|]. split; [done|]. intros Hd. destruct H3 as [_ H3]. specialize (H3 g Hd). unfold g in H3. lia.
  - intros g' [?|Hg']%elem_of_cons; [done|]. rewrite length_app. simpl. specialize (H2 g'). 
    assert (g' < length (generations l))%nat by (apply H2; by right). lia.
  - destruct H3 as [Hn H3]. split; [done|]. intros g' Hg'. rewrite length_app. specialize (H3 g' Hg'). lia.
  - simpl. by constructor.
  - intros g' [->|Hg']%elem_of_cons.
    + exists x. by rewrite lookup_app_r, Nat.sub_diag by lia.
    + destruct (H5 g' Hg') as (y & Hy & ?). exists y. split; [|done]. by apply lookup_app_l_Some.
  - destruct H6 as (y & Hy & Hl). exists y. split; [by apply lookup_app_l_Some|]. intros Hlive.
    destruct (Hl Hlive) as [? Hni]. split; [done|]. apply not_elem_of_cons. split; [|done].
    apply lookup_lt_Some in Hy. unfold g. lia.
  - done.
  - destruct H8 as [Hn Hf]. simpl in Hn, Hf |- *. rewrite map_app. simpl. rewrite <- app_assoc. done.
Qed.

Lemma inv_install l ts d g previous l' :
  publish_install g l = (Ok previous, l') -> inv (Sys l (TBuilt g :: ts) d) ->
  inv (Sys l' (match previous with Some p => TRetire p | None => TLost g end :: ts) d).
Proof.
  unfold publish_install, bind, get, modify, ret. cbn beta iota.
  destruct (bool_decide_reflect (l_state l = STATE_RUNNING)) as [Es|Es]; intros [= <- <-] Hi.
  - destruct Hi as [H1 H2 H3 H4 H5 H6 H7 H8]. cbn [s_life s_tasks s_disposed] in *.
    change (omap owner (TBuilt g :: ts)) with (g :: omap owner ts) in *. apply NoDup_cons in H4 as [Hni H4].
    destruct H6 as (y & Hy & Hl). destruct Hl as [Hyr Hc]; [by rewrite Es|]. apply not_elem_of_cons in Hc as [Hne Hc].
    destruct (H5 g) as (x & Hx & Hxr); [by left|].
    split; cbn [s_life s_tasks s_disposed set_current set_retired_generations generations current l_state publishing next_generation_id]; try done.
    + intros g' [?|?]%elem_of_cons; [done|]. apply H2. by right.
    + by constructor.
    + intros g' [->|?]%elem_of_cons; [by exists y|]. apply H5. by right.
    + exists x. split; [done|]. intros _. split; [done|]. apply not_elem_of_cons. split; [congruence|done].
  - destruct (count_publishes_le _ _ _ _ Hi eq_refl) as [_ Hc]. destruct Hi as [H1 H2 H3 H4 H5 H6 H7 H8].
    cbn [s_life s_tasks s_disposed] in *.
    split; cbn [s_life s_tasks s_disposed set_publishing generations current l_state publishing next_generation_id]; try done.
    intros g' [?|?]%elem_of_cons; [done|]. apply H2. by right.
Qed.

Lemma inv_hold l ts d g :
  inv (Sys l ts d) -> (exists x, generations l !! g = Some x /\ g_released x = false) ->
  exists l', retain_locked g l = (Ok tt, l') /\ inv (Sys l' (THold g :: ts) d).
Proof.
  intros [H1 H2 H3 H4 H5 H6 H7 H8] (x & Hx & Hr). cbn [s_life s_tasks s_disposed] in *.
  eexists. split; [by apply retain_run|]. set (x' := Generation _ _ _ _ _ _).
  assert (g < length (generations l))%nat as Hlt by (by eapply lookup_lt_Some).
  split; cbn [s_life s_tasks s_disposed with_gen set_generations generations current l_state publishing next_generation_id]; try done.
  - intros g' y Hy. destruct (decide (g' = g)) as [->|Hne].
    + rewrite list_lookup_insert_eq in Hy by done. injection Hy as <-. destruct (H1 g x Hx) as (E1 & E2 & E3).
      unfold gen_ok. subst x'. cbn [g_references g_retired g_released count holds].
      rewrite (bool_decide_eq_true_2 (g = g)) by done. split_and!; [simpl; lia| |done].
      rewrite Hr. symmetry. apply bool_decide_eq_false_2. pose proof (count_nonneg (holds g) ts).
      rewrite E1. destruct (g_retired x); simpl; lia.
    + rewrite list_lookup_insert_ne in Hy by done. destruct (H1 g' y Hy) as (E1 & E2 & E3). split_and!; try done.
      cbn [count holds]. by rewrite bool_decide_eq_false_2.
  - intros g' Hg'. rewrite length_insert. apply elem_of_cons in Hg' as [[= ->]|?]; [done|by apply H2].
  - by rewrite length_insert.
  - intros g' Hg'. destruct (H5 g' Hg') as (y & Hy & Hyr). destruct (decide (g' = g)) as [->|].
    + rewrite Hx in Hy. injection Hy as <-. exists x'. by rewrite list_lookup_insert_eq.
    + exists y. by rewrite list_lookup_insert_ne.
  - destruct H6 as (y & Hy & Hl). destruct (decide (current l = g)) as [E|].
    + rewrite E in *. rewrite Hx in Hy. injection Hy as <-. exists x'. by rewrite list_lookup_insert_eq.
    + exists y. by rewrite list_lookup_insert_ne.
  - by rewrite (ids_insert _ _ x).
Qed.

Lemma inv_attach l ts d g r b l' :
  attach_locked g r l = (Ok b, l') -> inv (Sys l ts d) -> inv (Sys l' ts d).
Proof.
  unfold attach_locked, bind, get_gen. destruct (generations l !! g) as [x|] eqn:Hx; [|done].
  destruct (attachable x); [|by intros [= _ <-]]. intros [= _ <-].
  set (x' := Generation _ _ _ _ _ _). intros [H1 H2 H3 H4 H5 H6 H7 H8]. cbn [s_life s_tasks s_disposed] in *.
  assert (g < length (generations l))%nat as Hlt by (by eapply lookup_lt_Some).
  split; cbn [s_life s_tasks s_disposed set_generations generations current l_state publishing next_generation_id]; try done.
  - intros g' y Hy. destruct (decide (g' = g)) as [->|Hne].
    + rewrite list_lookup_insert_eq in Hy by done. injection Hy as <-. apply (H1 g x Hx).
    + rewrite list_lookup_insert_ne in Hy by done. by apply H1.
  - intros g' Hg'. rewrite length_insert. by apply H2.
  - by rewrite length_insert.
  - intros g' Hg'. destruct (H5 g' Hg') as (y & Hy & Hyr). destruct (decide (g' = g)) as [->|].
    + rewrite Hx in Hy. injection Hy as <-. exists x'. by rewrite list_lookup_insert_eq.
    + exists y. by rewrite list_lookup_insert_ne.
  - destruct H6 as (y & Hy & Hl). destruct (decide (current l = g)) as [E|].
    + rewrite E in *. rewrite Hx in Hy. injection Hy as <-. exists x'. by rewrite list_lookup_insert_eq.
    + exists y. by rewrite list_lookup_insert_ne.
  - by rewrite (ids_insert _ _ x).
Qed.

(** The generation new work gets. *)
Lemma inv_acquire l ts d :
  inv (Sys l ts d) -> l_state l = STATE_RUNNING ->
  exists l', acquire_generation l = (Ok (current l), l') /\ inv (Sys l' (THold (current l) :: ts) d).
Proof.
  intros Hi Es. destruct (i_current _ Hi) as (x & Hx & Hl). cbn [s_life] in *. rewrite Es in Hl.
  destruct Hl as [Hr _]; [done|].
  destruct (gen_ok_live _ _ _ _ (i_gen _ Hi _ _ Hx)) as [_ Hrel]; [by right|].
  destruct (inv_hold _ _ _ (current l) Hi) as (l' & E & Hi'); [by exists x|]. exists l'. split; [|done].
  unfold acquire_generation, bind, get. cbn beta iota. rewrite bool_decide_eq_true_2 by done. cbn [negb].
  by rewrite E.
Qed.

Lemma inv_init config lim : inv (Sys (init config lim) [] []).
Proof.
  split; cbn [s_life s_tasks s_disposed init generations current l_state publishing next_generation_id].
  - intros [|g] x Hg; [|done]. injection Hg as <-. split_and!; [done|done|]. split; [done|]. by intros ?%elem_of_nil.
  - by intros g ?%elem_of_nil.
  - split; [constructor|]. by intros g ?%elem_of_nil.
  - constructor.
  - by intros g ?%elem_of_nil.
  - eexists. split; [done|]. intros _. split; [done|]. apply not_elem_of_nil.
  - done.
  - simpl. split; [apply NoDup_singleton|by apply Forall_singleton].
Qed.

Lemma inv_step s s' : inv s -> step s s' -> inv s'.
Proof.
  intros Hi Hs. destruct Hs as
    [m l l' ts d Hm E|g l l' ts d E|g l l' ts d Hin E|g rs l l' ts ts' d Hp E|g r b l l' ts d E
    |id l l' ts d E|id l l' ts ts' d Hp E|id config resources g l l' ts ts' d Hp E|g previous l l' ts ts' d Hp E
    |g rs l l' ts ts' d Hp E|l l' ts ts' d Hp E|g rs l l' ts ts' d Hp E|n l l' ts d E|force previous l l' ts d E
    |g rs l l' ts ts' d Hp E]; try apply (inv_perm _ _ _ _ Hp) in Hi.
  - destruct (state_section_run _ _ _ Hm E) as (? & ? & ? & ? & ?). by eapply inv_same.
  - assert (l_state l = STATE_RUNNING) as Es.
    { revert E. unfold acquire_generation, bind, get. cbn beta iota.
      by destruct (bool_decide_reflect (l_state l = STATE_RUNNING)). }
    destruct (inv_acquire _ _ _ Hi Es) as (l2 & E2 & Hi2). rewrite E in E2. by injection E2 as -> ->.
  - destruct (lookup_lt_is_Some_2 (generations l) g) as [x Hx]; [by apply (i_hold _ Hi)|].
    destruct (gen_ok_live _ _ _ _ (i_gen _ Hi _ _ Hx)) as [_ Hr]; [left; by apply holds_count|].
    destruct (inv_hold _ _ _ g Hi) as (l2 & E2 & Hi2); [by exists x|]. rewrite E in E2. by injection E2 as ->.
  - destruct (inv_release _ _ _ _ Hi) as (x & _ & E2 & Hi2). rewrite E in E2. by injection E2 as -> ->.
  - by eapply inv_attach.
  - by eapply inv_begin.
  - injection E as <-. eapply inv_end; [exact Hi|]. right. by eexists.
  - injection E as <- <-. by apply inv_build.
  - by eapply inv_install.
  - destruct (inv_retire _ _ [TEnding] _ _ g Hi) as (x & _ & E2 & Hi2); [done|by right|]. rewrite E in E2. by injection E2 as -> ->.
  - injection E as <-. eapply inv_end; [exact Hi|]. by left.
  - destruct (inv_retire _ _ [] _ _ g Hi) as (x & _ & E2 & Hi2); [done|by left|]. rewrite E in E2. by injection E2 as -> ->.
  - injection E as _ <-. by apply (inv_same l).
  - destruct (finish_drain_run _ _ _ _ E) as (E1 & E2 & E3 & E4 & El & Er). destruct previous as [g|].
    + destruct Er as [-> Hn]. assert (inv (Sys l' ts d)) as Hi' by (eapply inv_same; [..|exact Hi]; done).
      destruct (i_current _ Hi) as (x & Hx & Hl). cbn [s_life s_tasks] in *. destruct (Hl El) as [Hxr Hni].
      destruct Hi' as [H1 H2 H3 H4 H5 H6 H7 H8]. cbn [s_life s_tasks s_disposed] in *. split; cbn [s_life s_tasks s_disposed]; try done.
      * intros g [?|?]%elem_of_cons; [done|by apply H2].
      * by constructor.
      * intros g [->|?]%elem_of_cons; [exists x; by rewrite E1|by apply H5].
      * destruct H6 as (y & Hy & _). by exists y.
    + eapply inv_same; [..|exact Hi]; done.
  - destruct (inv_retire _ _ [] _ _ g Hi) as (x & _ & E2 & Hi2); [done|by left|]. rewrite E in E2. by injection E2 as -> ->.
Qed.

Lemma reachable_inv config lim s : reachable config lim s -> inv s.
Proof. induction 1; [apply inv_init|by eapply inv_step]. Qed.
End system.
