(* ===== verification/LifecycleSpec.v ===== *)
(** * Properties of the lifecycle

    Over every interleaving of the locked sections: reference counts are exact,
    resources come out once and only with the last reference, nobody's release fails, and
    new work always gets a live generation.  The admission gauges stay within their limits,
    and constructing or releasing a generation balances the references to its resources. *)

From S2P Require Import Prelude PyStr Lifecycle LifecycleSystem.
#[local] Open Scope Z_scope.

(** ** Generations *)

Section generations.
Context {C R : Type}.
Implicit Types (l : lifecycle C R).

(** C6: exact accounting.  In every reachable state a generation's reference count is
    the number of outstanding acquired references plus the lifecycle's own until it is
    retired; it is released exactly when the count is zero, which is exactly when its
    resources were handed out for release, and that happens once; generation ids are
    distinct. *)
Theorem generations_accounted config lim l ts d :
  reachable (C:=C) (R:=R) config lim (Sys l ts d) ->
  NoDup d /\ NoDup (map generation_id (generations l)) /\
  forall g x, generations l !! g = Some x ->
    g_references x = count (holds g) ts + Z.b2z (negb (g_retired x)) /\
    (g_released x = true <-> g_references x = 0) /\
    (g_released x = true <-> g ∈ d).
Proof.
  intros Hi%reachable_inv. split; [apply Hi|]. split.
  - destruct (i_ids _ Hi) as [Hn _]. cbn [s_life] in Hn. by apply NoDup_app in Hn as [? _].
  - intros g x Hx. destruct (i_gen _ Hi g x Hx) as (H1 & H2 & H3). split_and!; [done| |done].
    rewrite H2. apply bool_decide_eq_true.
Qed.

(** no release fails.  Whatever the interleaving, a thread that holds a reference
    finds its generation unreleased and releases it without an exception, and every retire
    that [publish] or [finish_drain] still has to do succeeds; the resources come out
    exactly when the reference given up was the last. *)
Theorem pending_releases_succeed config lim l ts d t :
  reachable (C:=C) (R:=R) config lim (Sys l ts d) -> t ∈ ts ->
  match t with
  | THold g => exists x, generations l !! g = Some x /\ g_released x = false /\
      fst (release_locked g l) = Ok (if g_references x =? 1 then Some (g_resources x) else None)
  | TRetire g | TLost g | TDrain g => exists x, generations l !! g = Some x /\ g_retired x = false /\
      fst (retire_locked g l) = Ok (if g_references x =? 1 then Some (g_resources x) else None)
  | _ => True
  end.
Proof.
  intros Hi%reachable_inv Ht. apply elem_of_Permutation in Ht as [ts' Hp]. apply (inv_perm _ _ _ _ Hp) in Hi.
  destruct t as [g|id|g|g| |g|g]; try done.
  - destruct (inv_release _ _ _ _ Hi) as (x & Hx & E & _). exists x. rewrite E. split_and!; [done| |done].
    eapply (gen_ok_live _ _ _ _ (i_gen _ Hi g x Hx)). left. apply holds_count. by left.
  - destruct (inv_retire _ _ [TEnding] _ _ g Hi) as (x & Hx & E & _); [done|by right|]. exists x. rewrite E.
    split_and!; [done| |done]. destruct (i_owned _ Hi g) as (y & Hy & Hr); [by left|]. cbn [s_life] in Hy. congruence.
  - destruct (inv_retire _ _ [] _ _ g Hi) as (x & Hx & E & _); [done|by left|]. exists x. rewrite E.
    split_and!; [done| |done]. destruct (i_owned _ Hi g) as (y & Hy & Hr); [by left|]. cbn [s_life] in Hy. congruence.
  - destruct (inv_retire _ _ [] _ _ g Hi) as (x & Hx & E & _); [done|by left|]. exists x. rewrite E.
    split_and!; [done| |done]. destruct (i_owned _ Hi g) as (y & Hy & Hr); [by left|]. cbn [s_life] in Hy. congruence.
Qed.

(** running means serving.  In every reachable running state [acquire_generation]
    returns the current generation, which is neither retired nor released, and at most one
    publication is in progress, exactly when the flag says so. *)
Theorem running_serves config lim l ts d :
  reachable (C:=C) (R:=R) config lim (Sys l ts d) -> l_state l = STATE_RUNNING ->
  fst (acquire_generation l) = Ok (current l) /\
  (exists x, generations l !! current l = Some x /\ g_retired x = false /\ g_released x = false) /\
  count publishes ts = Z.b2z (publishing l).
Proof.
  intros Hi%reachable_inv Es. destruct (inv_acquire _ _ _ Hi Es) as (l' & E & _). rewrite E. split; [done|].
  split; [|apply (i_publishing _ Hi)]. destruct (i_current _ Hi) as (x & Hx & Hl). cbn [s_life] in *. rewrite Es in Hl.
  destruct Hl as [Hr _]; [done|]. exists x. split_and!; [done|done|].
  eapply (gen_ok_live _ _ _ _ (i_gen _ Hi _ _ Hx)). by right.
Qed.
End generations.

(** ** A run *)

Definition sample_limits : admission_limits := AdmissionLimits 2 2 2 2 100.

(** A publication overtakes a request: generation 0 is retired while it is held. *)
Definition sample_life (st : gw_state) (next : Z) (gens : list (generation Z unit)) (cur : nat)
    (retired : list nat) (pub : bool) : lifecycle Z unit :=
  Lifecycle GatewayMetrics.init st next gens cur retired pub sample_limits 0 [].

Lemma sample_reachable :
  let l := sample_life STATE_RUNNING 3 [Generation 1 7 [] 1 true false; Generation 2 8 [tt] 1 false false] 1 [0%nat] true in
  reachable (C:=Z) (R:=unit) 7 sample_limits (Sys l [TEnding; THold 0] []).
Proof.
  cbv zeta. set (g1 n := Generation 1 7 (@nil unit) n false false). set (g2 := Generation 2 8 [tt] 1 false false).
  eapply reach_step; [eapply reach_step; [eapply reach_step; [eapply reach_step; [eapply reach_step;
    [eapply reach_step; [eapply reach_step; [apply reach_init|]|]|]|]|]|]|].
  - apply (step_state start _ (sample_life STATE_STARTING 2 [g1 1] 0 [] false)); [by left|reflexivity].
  - apply (step_state started _ (sample_life STATE_RUNNING 2 [g1 1] 0 [] false)); [by right; left|reflexivity].
  - apply (step_acquire 0 _ (sample_life STATE_RUNNING 2 [g1 2] 0 [] false)). reflexivity.
  - apply (step_publish 2 _ (sample_life STATE_RUNNING 3 [g1 2] 0 [] true)). reflexivity.
  - apply (step_build 2 8 [tt] 1 _ (sample_life STATE_RUNNING 3 [g1 2; g2] 0 [] true) _ [THold 0]); reflexivity.
  - apply (step_install 1 (Some 0%nat) _ (sample_life STATE_RUNNING 3 [g1 2; g2] 1 [0%nat] true) _ [THold 0]); reflexivity.
  - apply (step_retire_previous 0 None); reflexivity.
Qed.

Lemma generations_accounted_witness :
  let l := sample_life STATE_RUNNING 3 [Generation 1 7 [] 1 true false; Generation 2 8 [tt] 1 false false] 1 [0%nat] true in
  NoDup (map generation_id (generations l)).
Proof.
  exact (proj1 (proj2 (generations_accounted 7 sample_limits _ _ _ sample_reachable))).
Defined.

Lemma pending_releases_succeed_witness :
  let l := sample_life STATE_RUNNING 3 [Generation 1 7 [] 1 true false; Generation 2 8 [tt] 1 false false] 1 [0%nat] true in
  fst (release_locked 0 l) = Ok (Some []).
Proof.
  destruct (pending_releases_succeed 7 sample_limits _ _ _ (THold 0) sample_reachable) as (x & Hx & Hrel & E).
  - right. left.
  - cbv zeta. rewrite E. injection Hx as <-. reflexivity.
Defined.

Lemma running_serves_witness :
  let l := sample_life STATE_RUNNING 3 [Generation 1 7 [] 1 true false; Generation 2 8 [tt] 1 false false] 1 [0%nat] true in
  fst (acquire_generation l) = Ok 1%nat.
Proof. exact (proj1 (running_serves 7 sample_limits _ _ _ sample_reachable eq_refl)). Defined.

(** ** Admission *)

Section admission.
Context {C R : Type}.
Implicit Types (l : lifecycle C R).

(** The calls that move the gauges, and the state machine. *)
Inductive adm_op :=
| AdmitConnection | ReleaseConnection | AdmitRequest | ReleaseRequest
| QueueRequest | ReleaseQueuedRequest | AdmitUpstream | ReleaseUpstream
| ReserveBuffered (amount : Z) | ReleaseBuffered (amount : Z)
| Start | Started | BeginDrain | FinishDrainLocked (force : bool) | FailWith (reason : str).

Definition no_result {A} (m : M (lifecycle C R) A) : M (lifecycle C R) bool := let! _ := m in ret true.
Definition adm_call (op : adm_op) : M (lifecycle C R) bool :=
  match op with
  | AdmitConnection => admit_connection
  | ReleaseConnection => no_result release_connection
  | AdmitRequest => admit_request
  | ReleaseRequest => no_result release_request
  | QueueRequest => queue_request
  | ReleaseQueuedRequest => no_result release_queued_request
  | AdmitUpstream => admit_upstream
  | ReleaseUpstream => no_result release_upstream
  | ReserveBuffered n => reserve_buffered n
  | ReleaseBuffered n => no_result (release_buffered n)
  | Start => no_result start
  | Started => no_result started
  | BeginDrain => no_result begin_drain
  | FinishDrainLocked force => no_result (finish_drain_locked force)
  | FailWith reason => no_result (fail reason)
  end.

Record gauges (m : gmap (list Z) Z) (c r q u b : Z) : Prop := {
  ga_c : m !! py "connections_active" = Some c;
  ga_r : m !! py "requests_active" = Some r;
  ga_q : m !! py "requests_queued" = Some q;
  ga_u : m !! py "upstream_active" = Some u;
  ga_b : m !! py "buffered_bytes" = Some b;
  ga_ca : is_Some (m !! py "connections_accepted");
  ga_cr : is_Some (m !! py "connections_rejected");
  ga_rs : is_Some (m !! py "requests_started");
  ga_rr : is_Some (m !! py "requests_rejected");
  ga_df : is_Some (m !! py "drain_forced");
}.

Definition within (lim : admission_limits) (c r q u b : Z) : Prop :=
  0 <= c <= max_connections lim /\ 0 <= r <= max_requests lim /\ 0 <= q <= max_queued_requests lim /\
  0 <= u <= max_upstream_active lim /\ 0 <= b <= max_buffered_bytes lim.

Record admitted l (c r q u b : Z) : Prop := {
  ad_gauges : gauges (metrics l) c r q u b;
  ad_queue : queued_requests l = q;
  ad_within : within (limits l) c r q u b;
}.

Lemma get_run (n : str) (v : Z) (m : gmap (list Z) Z) : m !! n = Some v -> GatewayMetrics.get_unlocked n m = (Ok v, m).
Proof. intros E. unfold GatewayMetrics.get_unlocked, bind, get. by rewrite E. Qed.
Lemma add_run (n : str) (a v : Z) (m : gmap (list Z) Z) :
  m !! n = Some v -> GatewayMetrics.add_unlocked n a m = (Ok (v + a), <[n := v + a]> m).
Proof. intros E. unfold GatewayMetrics.add_unlocked, bind, get. by rewrite E. Qed.

Lemma metric_run (n : str) (v : Z) l : metrics l !! n = Some v -> metric n l = (Ok v, l).
Proof.
  intros E. unfold metric, on_metrics, zoom. rewrite (get_run _ v) by done. by destruct l.
Qed.
Lemma metric_add_run (n : str) (a v : Z) l :
  metrics l !! n = Some v -> metric_add n a l = (Ok tt, set_metrics (<[n := v + a]> (metrics l)) l).
Proof. intros E. unfold metric_add, on_metrics, zoom, bind. by rewrite (add_run _ _ v). Qed.

(** Counters other than the gauges may move freely. *)
Lemma gauges_insert m (n : str) (x c r q u b : Z) :
  n ∉ [py "connections_active"; py "requests_active"; py "requests_queued"; py "upstream_active"; py "buffered_bytes"] ->
  gauges m c r q u b -> gauges (<[n := x]> m) c r q u b.
Proof.
  intros Hn []. rewrite !not_elem_of_cons in Hn. destruct Hn as (? & ? & ? & ? & ? & _).
  split; try (by rewrite lookup_insert_ne); rewrite lookup_insert; by case_decide.
Qed.

Ltac other := vm_compute; intros H'; by repeat (apply elem_of_cons in H' as [H'|H']; [discriminate|]); apply elem_of_nil in H'.
Ltac ins := match goal with
  | |- _ !! ?a = Some _ => first [by rewrite lookup_insert_eq | rewrite lookup_insert_ne by (vm_compute; discriminate); eassumption]
  | |- is_Some _ => rewrite lookup_insert; case_decide; [done|assumption]
  end.

Lemma set_c m (x c r q u b : Z) : gauges m c r q u b -> gauges (<[py "connections_active" := x]> m) x r q u b.
Proof. intros []. split; ins. Qed.
Lemma set_r m (x c r q u b : Z) : gauges m c r q u b -> gauges (<[py "requests_active" := x]> m) c x q u b.
Proof. intros []. split; ins. Qed.
Lemma set_q m (x c r q u b : Z) : gauges m c r q u b -> gauges (<[py "requests_queued" := x]> m) c r x u b.
Proof. intros []. split; ins. Qed.
Lemma set_u m (x c r q u b : Z) : gauges m c r q u b -> gauges (<[py "upstream_active" := x]> m) c r q x b.
Proof. intros []. split; ins. Qed.
Lemma set_b m (x c r q u b : Z) : gauges m c r q u b -> gauges (<[py "buffered_bytes" := x]> m) c r q u x.
Proof. intros []. split; ins. Qed.

(** What admission promises: a machine over the state and five gauges. *)
Record gauge_state := Gauges { gs_state : gw_state; gs_c : Z; gs_r : Z; gs_q : Z; gs_u : Z; gs_b : Z }.

Definition refuse (m : str) : result bool := Raise (RuntimeError m).
Definition gauge_step (lim : admission_limits) (op : adm_op) (g : gauge_state) : result bool * gauge_state :=
  let '(Gauges st c r q u b) := g in
  let running := bool_decide (st = STATE_RUNNING) in
  match op with
  | AdmitConnection => if running && (c <? max_connections lim) then (Ok true, Gauges st (c + 1) r q u b) else (Ok false, g)
  | ReleaseConnection => if c <=? 0 then (refuse (py "connection admission released more than once"), g)
                         else (Ok true, Gauges st (c - 1) r q u b)
  | AdmitRequest => if running && (r <? max_requests lim) then (Ok true, Gauges st c (r + 1) q u b) else (Ok false, g)
  | ReleaseRequest => if r <=? 0 then (refuse (py "request admission released more than once"), g)
                      else (Ok true, Gauges st c (r - 1) q u b)
  | QueueRequest => if q <? max_queued_requests lim then (Ok true, Gauges st c r (q + 1) u b) else (Ok false, g)
  | ReleaseQueuedRequest => if q <=? 0 then (refuse (py "queued request released more than once"), g)
                            else (Ok true, Gauges st c r (q - 1) u b)
  | AdmitUpstream => if u <? max_upstream_active lim then (Ok true, Gauges st c r q (u + 1) b) else (Ok false, g)
  | ReleaseUpstream => if u <=? 0 then (refuse (py "upstream admission released more than once"), g)
                       else (Ok true, Gauges st c r q (u - 1) b)
  | ReserveBuffered n => if n <? 0 then (Raise (ValueError (py "buffer reservation cannot be negative")), g)
                         else if b + n <=? max_buffered_bytes lim then (Ok true, Gauges st c r q u (b + n)) else (Ok false, g)
  | ReleaseBuffered n => if (n <? 0) || (b <? n) then (refuse (py "buffer reservation released out of range"), g)
                         else (Ok true, Gauges st c r q u (b - n))
  | Start => if bool_decide (st = STATE_NEW) then (Ok true, Gauges STATE_STARTING c r q u b)
             else (refuse (py "gateway can start only once"), g)
  | Started => if bool_decide (st = STATE_STARTING) then (Ok true, Gauges STATE_RUNNING c r q u b)
               else (refuse (py "gateway is not starting"), g)
  | BeginDrain => if bool_decide (st = STATE_STARTING) || running then (Ok true, Gauges STATE_DRAINING c r q u b)
                  else (refuse (py "gateway cannot enter drain from this state"), g)
  | FinishDrainLocked force =>
      if negb (bool_decide (st = STATE_DRAINING)) then (refuse (py "gateway is not draining"), g)
      else if c + r =? 0 then (Ok true, Gauges STATE_STOPPED c r q u b)
      else if force then (Ok true, Gauges STATE_STOPPED 0 0 q u b)
      else (Ok true, g)
  | FailWith _ => (Ok true, Gauges STATE_FAILED c r q u b)
  end.

Definition gauged l (g : gauge_state) : Prop :=
  l_state l = gs_state g /\ admitted l (gs_c g) (gs_r g) (gs_q g) (gs_u g) (gs_b g).

Lemma gauged_metrics l m st c r q u b :
  l_state l = st -> gauges m c r q u b -> queued_requests l = q -> within (limits l) c r q u b ->
  gauged (set_metrics m l) (Gauges st c r q u b).
Proof. intros Hs Hm Hq Hw. split; [done|by split]. Qed.

(** Counts a refusal, an admission: a counter that is not a gauge moves. *)
Lemma count_run n a l g :
  n ∉ [py "connections_active"; py "requests_active"; py "requests_queued"; py "upstream_active"; py "buffered_bytes"] ->
  gauged l g -> is_Some (metrics l !! n) ->
  exists l', metric_add n a l = (Ok tt, l') /\ gauged l' g /\ limits l' = limits l /\
    (forall n', n' <> n -> metrics l' !! n' = metrics l !! n').
Proof.
  intros Hn [Hs [Hg Hq Hw]] [v Hv]. eexists. split; [by apply metric_add_run|].
  destruct g as [st c r q u b]. cbn [gs_state gs_c gs_r gs_q gs_u gs_b] in *. split_and!; [|done|].
  - apply gauged_metrics; try done. by apply gauges_insert.
  - intros n' Hne. cbn. by rewrite lookup_insert_ne.
Qed.

Definition outcome (r : result bool * lifecycle C R) (lim : admission_limits) (e : result bool * gauge_state) : Prop :=
  fst r = fst e /\ gauged (snd r) (snd e) /\ limits (snd r) = lim.

Ltac open_gauged Hg :=
  let Hs := fresh "Hs" in let Ha := fresh "Ha" in destruct Hg as [Hs Ha];
  let Hm := fresh "Hm" in let Hq := fresh "Hq" in let Hw := fresh "Hw" in destruct Ha as [Hm Hq Hw];
  cbn [gs_state gs_c gs_r gs_q gs_u gs_b] in *.

(** The gauges moved by one: the new state of an admitted or released call. *)
Ltac settle := split; [reflexivity|split; [|reflexivity]]; apply gauged_metrics; [assumption| |assumption|unfold within in *; lia].

Lemma refused_run n l g lim :
  n = py "connections_rejected" \/ n = py "requests_rejected" -> gauged l g -> limits l = lim ->
  outcome ((metric_add n 1 ;;! ret false) l) lim (Ok false, g).
Proof.
  intros Hn Hg Hl. pose proof Hg as [_ [[] _ _]].
  destruct (count_run n 1 l g) as (l' & E & Hg' & Hl' & _); [|done| |].
  - destruct Hn as [-> | ->]; other.
  - by destruct Hn as [-> | ->].
  - unfold bind. rewrite E. split; [done|]. split; [done|]. cbn. congruence.
Qed.

Lemma admit_connection_run l g : gauged l g ->
  outcome (admit_connection l) (limits l) (gauge_step (limits l) AdmitConnection g).
Proof.
  intros Hg. destruct g as [st c r q u b]. unfold admit_connection. unfold bind at 1, get. cbn beta iota.
  cbn [gauge_step]. pose proof Hg as [Hs [Hm Hq Hw]]. cbn [gs_state gs_c gs_r gs_q gs_u gs_b] in *. rewrite Hs.
  destruct (bool_decide (st = STATE_RUNNING)); cbn [negb andb]; [|by apply refused_run; [left| |]].
  unfold bind at 1. rewrite (metric_run _ c) by apply Hm. cbn beta iota. rewrite Z.geb_leb, Z.leb_antisym.
  destruct (Z.ltb_spec c (max_connections (limits l))); cbn [negb]; [|by apply refused_run; [left| |]].
  destruct (count_run (py "connections_accepted") 1 l (Gauges st c r q u b)) as (l1 & E1 & Hg1 & Hl1 & _); [other|done|apply Hm|].
  unfold bind. rewrite E1. open_gauged Hg1. rewrite (metric_add_run _ 1 c) by apply Hm0.
  split; [done|]. split; [|done]. apply gauged_metrics; [done|by eapply set_c|done|]. rewrite Hl1. unfold within in *. lia.
Qed.

Lemma admit_request_run l g : gauged l g ->
  outcome (admit_request l) (limits l) (gauge_step (limits l) AdmitRequest g).
Proof.
  intros Hg. destruct g as [st c r q u b]. unfold admit_request. unfold bind at 1, get. cbn beta iota.
  cbn [gauge_step]. pose proof Hg as [Hs [Hm Hq Hw]]. cbn [gs_state gs_c gs_r gs_q gs_u gs_b] in *. rewrite Hs.
  destruct (bool_decide (st = STATE_RUNNING)); cbn [negb andb]; [|by apply refused_run; [right| |]].
  unfold bind at 1. rewrite (metric_run _ r) by apply Hm. cbn beta iota. rewrite Z.geb_leb, Z.leb_antisym.
  destruct (Z.ltb_spec r (max_requests (limits l))); cbn [negb]; [|by apply refused_run; [right| |]].
  destruct (count_run (py "requests_started") 1 l (Gauges st c r q u b)) as (l1 & E1 & Hg1 & Hl1 & _); [other|done|apply Hm|].
  unfold bind. rewrite E1. open_gauged Hg1. rewrite (metric_add_run _ 1 r) by apply Hm0.
  split; [done|]. split; [|done]. apply gauged_metrics; [done|by eapply set_r|done|]. rewrite Hl1. unfold within in *. lia.
Qed.

Lemma finish_drain_gauges force l g : gauged l g ->
  outcome (no_result (finish_drain_locked force) l) (limits l) (gauge_step (limits l) (FinishDrainLocked force) g).
Proof.
  intros Hg. destruct g as [st c r q u b]. cbn [gauge_step]. pose proof Hg as [Hs [Hm Hq Hw]].
  cbn [gs_state gs_c gs_r gs_q gs_u gs_b] in *. unfold no_result, finish_drain_locked, bind, get. cbn beta iota. rewrite Hs.
  destruct (bool_decide (st = STATE_DRAINING)); cbn [negb]; [|done].
  unfold on_metrics, zoom, GatewayMetrics.drain_active_unlocked, bind.
  rewrite (get_run _ c), (get_run _ r) by apply Hm. cbv zeta.
  destruct (Z.eqb_spec (c + r) 0) as [E|E]; cbn [negb andb].
  - unfold ret. cbn beta iota. rewrite E. cbn [negb andb Z.eqb]. unfold modify. cbn beta iota.
    split; [done|]. split; [|done]. split; [done|]. split; [exact Hm|exact Hq|exact Hw].
  - apply Z.eqb_neq in E as E'. destruct force; cbn [negb andb].
    + destruct (ga_df _ _ _ _ _ _ Hm) as [v Hv]. rewrite (add_run _ _ v) by done.
      unfold GatewayMetrics.set_, modify, ret. cbn beta iota. rewrite E', andb_false_r. unfold modify. cbn beta iota.
      split; [done|]. split; [|done]. split; [done|]. split; [|exact Hq|unfold within in *; cbn; lia].
      eapply set_r, set_c, gauges_insert; [other|exact Hm].
    + unfold ret. cbn beta iota. rewrite E'. cbn [negb andb].
      split; [done|]. split; [|done]. split; [exact Hs|]. split; [exact Hm|exact Hq|exact Hw].
Qed.

Lemma adm_call_refines op l g : gauged l g ->
  outcome (adm_call op l) (limits l) (gauge_step (limits l) op g).
Proof.
  intros Hg. destruct op; [by apply admit_connection_run| |by apply admit_request_run| | | | | | | | | | |by apply finish_drain_gauges|];
    destruct g as [st c r q u b]; pose proof Hg as [Hs [Hm Hq Hw]]; cbn [gs_state gs_c gs_r gs_q gs_u gs_b] in *;
    cbn [adm_call gauge_step].
  - unfold no_result, release_connection, bind. rewrite (metric_run _ c) by apply Hm. destruct (c <=? 0) eqn:E; [done|].
    rewrite (metric_add_run _ _ c) by apply Hm. b2p. unfold ret. settle. by eapply set_c.
  - unfold no_result, release_request, bind. rewrite (metric_run _ r) by apply Hm. destruct (r <=? 0) eqn:E; [done|].
    rewrite (metric_add_run _ _ r) by apply Hm. b2p. unfold ret. settle. by eapply set_r.
  - unfold queue_request. unfold bind at 1, get. cbn beta iota. rewrite Hq, Z.geb_leb, Z.leb_antisym.
    destruct (Z.ltb_spec q (max_queued_requests (limits l))); cbn [negb]; [|by apply refused_run; [right| |]].
    unfold bind, modify, ret. rewrite (metric_add_run _ _ q) by apply Hm.
    split; [done|]. split; [|done]. split; [done|]. split; [by eapply set_q|done|cbn; unfold within in *; lia].
  - unfold no_result, release_queued_request, bind, get. cbn beta iota. rewrite Hq. destruct (q <=? 0) eqn:E; [done|].
    unfold modify, ret. rewrite (metric_add_run _ _ q) by apply Hm. b2p.
    split; [done|]. split; [|done]. split; [done|]. split; [by eapply set_q|done|cbn; unfold within in *; lia].
  - unfold admit_upstream, bind, get. cbn beta iota. rewrite (metric_run _ u) by apply Hm. rewrite Z.geb_leb, Z.leb_antisym.
    destruct (Z.ltb_spec u (max_upstream_active (limits l))); cbn [negb]; [|done].
    rewrite (metric_add_run _ _ u) by apply Hm. unfold ret. settle. by eapply set_u.
  - unfold no_result, release_upstream, bind. rewrite (metric_run _ u) by apply Hm. destruct (u <=? 0) eqn:E; [done|].
    rewrite (metric_add_run _ _ u) by apply Hm. b2p. unfold ret. settle. by eapply set_u.
  - unfold reserve_buffered. destruct (amount <? 0) eqn:E; [done|]. unfold bind, get. cbn beta iota.
    rewrite (metric_run _ b) by apply Hm. rewrite Z.gtb_ltb, Z.ltb_antisym.
    destruct (Z.leb_spec (b + amount) (max_buffered_bytes (limits l))); cbn [negb]; [|done].
    rewrite (metric_add_run _ _ b) by apply Hm. b2p. unfold ret. settle. by eapply set_b.
  - unfold no_result, release_buffered, bind. rewrite (metric_run _ b) by apply Hm. rewrite Z.gtb_ltb.
    destruct (amount <? 0) eqn:E; cbn [orb]; [done|]. destruct (b <? amount) eqn:E'; [done|].
    rewrite (metric_add_run _ _ b) by apply Hm. b2p. unfold ret. settle. by eapply set_b.
  - unfold no_result, start, bind, get, modify. cbn beta iota. rewrite Hs. by destruct (bool_decide (st = STATE_NEW)).
  - unfold no_result, started, bind, get, modify. cbn beta iota. rewrite Hs. by destruct (bool_decide (st = STATE_STARTING)).
  - unfold no_result, begin_drain, bind, get, modify. cbn beta iota. rewrite Hs.
    destruct (bool_decide (st = STATE_STARTING)); cbn [orb]; [done|]. by destruct (bool_decide (st = STATE_RUNNING)).
  - done.
Qed.

Fixpoint adm_run (ops : list adm_op) l : list (result bool) * lifecycle C R :=
  match ops with
  | [] => ([], l)
  | op :: ops' => let '(r, l1) := adm_call op l in let '(rs, l2) := adm_run ops' l1 in (r :: rs, l2)
  end.
Fixpoint gauge_run (lim : admission_limits) (ops : list adm_op) (g : gauge_state) : list (result bool) * gauge_state :=
  match ops with
  | [] => ([], g)
  | op :: ops' =>
      let '(r, g1) := gauge_step lim op g in let '(rs, g2) := gauge_run lim ops' g1 in (r :: rs, g2)
  end.

Lemma adm_run_refines ops : forall l g, gauged l g ->
  fst (adm_run ops l) = fst (gauge_run (limits l) ops g) /\
  gauged (snd (adm_run ops l)) (snd (gauge_run (limits l) ops g)) /\ limits (snd (adm_run ops l)) = limits l.
Proof.
  induction ops as [|op ops IH]; intros l g Hg; [done|]. cbn [adm_run gauge_run].
  destruct (adm_call_refines op l g Hg) as (H1 & H2 & H3). destruct (adm_call op l) as [x l1].
  destruct (gauge_step (limits l) op g) as [y g1]. cbn [fst snd] in *. subst y. destruct (IH l1 g1 H2) as (I1 & I2 & I3).
  rewrite H3 in *. destruct (adm_run ops l1) as [xs l2], (gauge_run (limits l) ops g1) as [ys g2]. cbn [fst snd] in *.
  split_and!; [by f_equal|done|done].
Qed.

Lemma gauged_init (config : C) lim a b c d e :
  make_admission a b c d e = Ok lim -> gauged (init (R:=R) config lim) (Gauges STATE_NEW 0 0 0 0 0).
Proof.
  unfold make_admission. destruct (existsb _ _) eqn:E; [done|]. intros [= <-]. simpl in E. b2p.
  split; [done|]. split; [|done|by repeat split]. cbn [init metrics]. split; vm_compute; try reflexivity; by eexists.
Qed.

(** C21: admission.  Any sequence of admissions, releases and state changes on a fresh
    lifecycle answers as the gauge machine does: work is admitted exactly while running
    and below the limit, a surplus release is refused, a forced drain clears the active
    gauges.  Every gauge stays between zero and its limit, and the queue counter equals
    its metric. *)
Theorem admission_refines_gauges (config : C) lim mc mr mq mu mb ops :
  make_admission mc mr mq mu mb = Ok lim ->
  let '(rs, l) := adm_run ops (init (R:=R) config lim) in
  let '(rs', g) := gauge_run lim ops (Gauges STATE_NEW 0 0 0 0 0) in
  rs = rs' /\ l_state l = gs_state g /\
  within lim (gs_c g) (gs_r g) (gs_q g) (gs_u g) (gs_b g) /\
  metrics l !! py "connections_active" = Some (gs_c g) /\ metrics l !! py "requests_active" = Some (gs_r g) /\
  metrics l !! py "upstream_active" = Some (gs_u g) /\ metrics l !! py "buffered_bytes" = Some (gs_b g) /\
  metrics l !! py "requests_queued" = Some (gs_q g) /\ queued_requests l = gs_q g.
Proof.
  intros Hl. destruct (adm_run_refines ops _ _ (gauged_init config lim _ _ _ _ _ Hl)) as (H1 & [Hs [Hm Hq Hw]] & H3).
  cbn [limits init] in *. destruct (adm_run ops _) as [rs l], (gauge_run lim ops _) as [rs' g]. cbn [fst snd] in *.
  rewrite H3 in Hw. split_and!; try done; apply Hm.
Qed.
End admission.

Lemma admission_refines_gauges_witness :
  let ops := [Start; Started; AdmitConnection; AdmitConnection; AdmitConnection; ReleaseConnection; BeginDrain;
              FinishDrainLocked true; ReleaseConnection] in
  fst (adm_run ops (init (R:=unit) 7 (AdmissionLimits 2 2 2 2 100))) =
  [Ok true; Ok true; Ok true; Ok true; Ok false; Ok true; Ok true; Ok true;
   Raise (RuntimeError (py "connection admission released more than once"))].
Proof.
  cbv zeta. pose proof (admission_refines_gauges (R:=unit) 7 (AdmissionLimits 2 2 2 2 100) 2 2 2 2 100
    [Start; Started; AdmitConnection; AdmitConnection; AdmitConnection; ReleaseConnection; BeginDrain;
              FinishDrainLocked true; ReleaseConnection] eq_refl) as H.
  destruct (adm_run _ _) as [rs l]. destruct (gauge_run _ _ _) as [rs' g] eqn:E.
  vm_compute in E. injection E as <- <-. exact (proj1 H).
Defined.

(** ** Resources *)

Section resources.
Context {C R W : Type} `{!ResourceOps R W} `{!EqDecision R}.
(** How many references to a resource are held.  A successful [retain] adds one to the
    object it returns, a failed one none; [release] gives one up, even if it raises. *)
Variable held : W -> R -> Z.
Definition copies (y : R) (rs : list R) : Z := count (fun z => bool_decide (z = y)) rs.
Hypothesis retain_counts : forall r w,
  match res_retain r w with
  | (Ok t, w') => forall y, held w' y = held w y + copies y [t]
  | (Raise _, w') => forall y, held w' y = held w y
  end.
Hypothesis release_counts : forall r w y,
  held (snd (res_release r w)) y = held w y - copies y [r].

Lemma release_each_counts rs : forall first w,
  exists e w', release_each rs first w = (Ok e, w') /\ forall y, held w' y = held w y - copies y rs.
Proof.
  induction rs as [|r rs IH]; intros first w; cbn [release_each].
  { exists first, w. split; [done|]. intros y. unfold copies. simpl. lia. }
  pose proof (release_counts r w) as Hr. unfold bind at 1, try_except, bind at 1.
  destruct (res_release r w) as [[[]|e] w1]; cbn beta iota; unfold ret; cbn beta iota; cbn [snd] in Hr.
  - destruct (IH (match first with Some x => Some x | None => None end) w1) as (e' & w' & E & H). exists e', w'.
    split; [exact E|]. intros y. rewrite H, Hr. unfold copies. simpl. lia.
  - destruct (IH (match first with Some x => Some x | None => Some e end) w1) as (e' & w' & E & H). exists e', w'.
    split; [exact E|]. intros y. rewrite H, Hr. unfold copies. simpl. lia.
Qed.

Lemma retain_each_counts rs : forall done w,
  exists kept e w', retain_each rs done w = (Ok (done ++ kept, e), w') /\
    (e = None -> len kept = len rs) /\ forall y, held w' y = held w y + copies y kept.
Proof.
  induction rs as [|r rs IH]; intros done w; cbn [retain_each].
  { exists [], None, w. rewrite app_nil_r. split_and!; [done|done|]. intros y. unfold copies. simpl. lia. }
  pose proof (retain_counts r w) as Hr. unfold bind at 1, try_except, bind at 1.
  destruct (res_retain r w) as [[t|e] w1]; cbn beta iota; unfold ret; cbn beta iota.
  - destruct (IH (done ++ [t]) w1) as (kept & e & w' & E & Hl & H). exists (t :: kept), e, w'.
    rewrite <- app_assoc in E. split_and!; [exact E| |].
    + intros He. lens. rewrite (Hl He). done.
    + intros y. rewrite H, Hr. unfold copies. simpl. lia.
  - exists [], (Some e), w1. rewrite app_nil_r. split_and!; [done|done|]. intros y. rewrite Hr. unfold copies. simpl. lia.
Qed.

Lemma copies_rev y rs : copies y (rev rs) = copies y rs.
Proof. unfold copies. symmetry. exact (count_perm _ _ _ (Permutation_rev rs)). Qed.

Lemma release_resources_counts rs w y :
  held (snd (release_resources (Some rs) w)) y = held w y - copies y rs.
Proof.
  unfold release_resources, bind. destruct (release_each_counts (rev rs) None w) as (e & w' & E & H). rewrite E.
  destruct e; cbn [snd]; unfold raise, ret; cbn [snd]; by rewrite H, copies_rev.
Qed.

(** Resources balance.  A generation that is constructed holds exactly one new
    reference to each resource its [retain] calls returned, and releasing it gives every
    one back even when some releases fail; a construction that fails has given back all it
    took. *)
Theorem generation_resources_balance id (config : C) rs w :
  match generation_init id config rs w with
  | (Ok x, w1) =>
      len (g_resources x) = len rs /\
      (forall y, held w1 y = held w y + copies y (g_resources x)) /\
      (forall y, held (snd (release_resources (Some (g_resources x)) w1)) y = held w y)
  | (Raise _, w1) => forall y, held w1 y = held w y
  end.
Proof.
  unfold generation_init, bind. destruct (retain_each_counts rs [] w) as (kept & e & w1 & E & Hl & H). rewrite E.
  cbn [app]. destruct e as [e|].
  - destruct (release_each_counts (rev kept) None w1) as (e' & w2 & E' & H'). rewrite E'.
    destruct e'; unfold raise; intros y; rewrite H', H, copies_rev; lia.
  - unfold ret. cbn [g_resources]. split_and!; [by apply Hl|done|]. intros y. rewrite release_resources_counts, H. lia.
Qed.
End resources.

(** Counters as functions; a negative resource refuses to be retained, and [1] raises
    when it is released. *)
Definition bump (r d : Z) (w : Z -> Z) : Z -> Z := fun y => w y + d * copies y [r].
#[local] Instance sample_resources : ResourceOps Z (Z -> Z) :=
  {| res_retain r w := if r <? 0 then (Raise (RuntimeError []), w) else (Ok r, bump r 1 w);
     res_release r w := (if r =? 1 then Raise (RuntimeError []) else Ok tt, bump r (-1) w) |}.

Lemma sample_retain_counts r (w : Z -> Z) :
  match res_retain r w with
  | (Ok t, w') => forall y, w' y = w y + copies y [t]
  | (Raise _, w') => forall y, w' y = w y
  end.
Proof. simpl. destruct (r <? 0); intros y; unfold bump, copies; simpl; lia. Qed.

Lemma sample_release_counts r (w : Z -> Z) y : snd (res_release r w) y = w y - copies y [r].
Proof. simpl. unfold bump, copies. simpl. lia. Qed.

Lemma generation_resources_balance_witness :
  match generation_init 1 tt [1; 2; -3; 4] (fun _ => 5) with
  | (Ok _, _) => False
  | (Raise e, w1) => e = RuntimeError (py "gateway generation construction cleanup failed") /\ w1 1 = 5
  end.
Proof.
  pose proof (generation_resources_balance (C:=unit) (fun (w : Z -> Z) => w)
    sample_retain_counts sample_release_counts 1 tt [1; 2; -3; 4] (fun _ => 5)) as H.
  destruct (generation_init 1 tt [1; 2; -3; 4] (fun _ => 5)) as [[x|e] w1] eqn:E.
  - vm_compute in E. discriminate E.
  - split; [|exact (H 1)].
    assert (fst (generation_init 1 tt [1; 2; -3; 4] (fun _ => 5)) = (Raise e : result (generation unit Z))) as E' by (rewrite E; reflexivity).
    vm_compute in E'. injection E' as <-. reflexivity.
Defined.
