(* ===== verification/Models.v ===== *)
(** * Request, response, stream and cancellation records ([pcc_gateway/models.py])

    [BodyStream] is written as the sections its methods run under the stream's
    lock and what they do around them; a reader or a producer that parks on an
    event is the outcome [Parked], after which its method starts over.  Body
    chunks are bytes or views on the store of [Buffer].  The theorems are in
    [ModelsSpec]. *)

From S2P Require Import Prelude PyStr Buffer Routing.
#[local] Open Scope Z_scope.

(** ** [Cancellation] *)

Record cancellation := Cancellation {
  deadline_ms : Z;
  cancelled : bool;
  reason : str;
}.
Definition new_cancellation (deadline_ms : Z) : cancellation := Cancellation deadline_ms false [].

Module Cancellation.
Definition cancel (r : str) : M cancellation unit :=
  modify (fun c => Cancellation (deadline_ms c) true r).
Definition is_cancelled : M cancellation bool := let! c := get in ret (cancelled c).
Definition reason_snapshot : M cancellation str := let! c := get in ret (reason c).
Definition check : M cancellation unit :=
  let! c := get in
  if cancelled c then raise (RuntimeError (reason c)) else ret tt.
End Cancellation.

(** ** [BodyStream] *)

Inductive chunk := CBytes (b : bytes) | CView (v : nat).

Record body_stream := BodyStream {
  bs_max_bytes : Z;
  bs_low_watermark : Z;
  bs_high_watermark : Z;
  streaming : bool;
  chunks : list chunk;
  received : Z;
  read_index : Z;
  consumed_bytes : Z;
  bs_queued_bytes : Z;
  bs_backpressured : bool;
  ended : bool;
  bs_cancelled : bool;
  bs_closed : bool;
  data_ready : bool;
  space_ready : bool;
}.

Definition set_chunks (cs : list chunk) (s : body_stream) : body_stream :=
  BodyStream (bs_max_bytes s) (bs_low_watermark s) (bs_high_watermark s) (streaming s) cs
    (received s) (read_index s) (consumed_bytes s) (bs_queued_bytes s) (bs_backpressured s)
    (ended s) (bs_cancelled s) (bs_closed s) (data_ready s) (space_ready s).
Definition set_counts (rec idx con que : Z) (s : body_stream) : body_stream :=
  BodyStream (bs_max_bytes s) (bs_low_watermark s) (bs_high_watermark s) (streaming s) (chunks s)
    rec idx con que (bs_backpressured s)
    (ended s) (bs_cancelled s) (bs_closed s) (data_ready s) (space_ready s).
Definition set_bp (b : bool) (s : body_stream) : body_stream :=
  BodyStream (bs_max_bytes s) (bs_low_watermark s) (bs_high_watermark s) (streaming s) (chunks s)
    (received s) (read_index s) (consumed_bytes s) (bs_queued_bytes s) b
    (ended s) (bs_cancelled s) (bs_closed s) (data_ready s) (space_ready s).
Definition set_flags (e ca cl : bool) (s : body_stream) : body_stream :=
  BodyStream (bs_max_bytes s) (bs_low_watermark s) (bs_high_watermark s) (streaming s) (chunks s)
    (received s) (read_index s) (consumed_bytes s) (bs_queued_bytes s) (bs_backpressured s)
    e ca cl (data_ready s) (space_ready s).
Definition set_data_ready (b : bool) (s : body_stream) : body_stream :=
  BodyStream (bs_max_bytes s) (bs_low_watermark s) (bs_high_watermark s) (streaming s) (chunks s)
    (received s) (read_index s) (consumed_bytes s) (bs_queued_bytes s) (bs_backpressured s)
    (ended s) (bs_cancelled s) (bs_closed s) b (space_ready s).
Definition set_space_ready (b : bool) (s : body_stream) : body_stream :=
  BodyStream (bs_max_bytes s) (bs_low_watermark s) (bs_high_watermark s) (streaming s) (chunks s)
    (received s) (read_index s) (consumed_bytes s) (bs_queued_bytes s) (bs_backpressured s)
    (ended s) (bs_cancelled s) (bs_closed s) (data_ready s) b.

(** A call either returns or parks its thread on an event. *)
Inductive outcome (A : Type) := Returned (a : A) | Parked.
Arguments Returned {A} a.
Arguments Parked {A}.

Module BodyStream.

Abbreviation MS := (M (body_stream * heap)).
Definition stream {A} (m : M body_stream A) : MS A := zoom fst (fun s t => (s, snd t)) m.
Definition store {A} (m : M heap A) : MS A := zoom snd (fun h t => (fst t, h)) m.

Definition init (max_bytes low_watermark high_watermark : Z) (streaming : bool) : result body_stream :=
  if max_bytes <? 0 then Raise (ValueError (py "body size limit must be non-negative"))
  else
    let high_watermark :=
      if high_watermark <=? 0 then (if max_bytes >? 0 then max_bytes else 1) else high_watermark in
    if low_watermark <? 0 then Raise (ValueError (py "body low watermark must be non-negative"))
    else if low_watermark >=? high_watermark
    then Raise (ValueError (py "body low watermark must be below high watermark"))
    else Ok (BodyStream max_bytes low_watermark high_watermark streaming [] 0 0 0 0
               false false false false false true).

Definition chunk_len (c : chunk) : M heap Z :=
  match c with CBytes b => ret (len b) | CView v => BufferView.len_ v end.

(** The locked section of [feed]; [true] when the data was accepted. *)
Definition feed_locked (data : chunk) : MS bool :=
  let! s := stream get in
  if ended s || bs_cancelled s || bs_closed s
  then raise (RuntimeError (py "body stream is not accepting data"))
  else
    let! data_len := store (chunk_len data) in
    if received s + data_len >? bs_max_bytes s
    then raise (ValueError (py "request body limit exceeded"))
    else if data_len >? 0 then
      let! c := match data with
                | CView v => let! w := store (BufferView.slice_ v 0 (-1)) in ret (CView w)
                | CBytes b => ret (CBytes b)
                end in
      stream (modify (fun s => set_chunks (chunks s ++ [c]) s)) ;;!
      stream (modify (fun s => set_counts (received s + data_len) (read_index s) (consumed_bytes s)
                                 (bs_queued_bytes s + data_len) s)) ;;!
      stream (modify (fun s => if bs_queued_bytes s >=? bs_high_watermark s
                               then set_space_ready false (set_bp true s) else s)) ;;!
      ret true
    else ret false.
Definition feed (data : chunk) : MS bool :=
  let! accepted := feed_locked data in
  stream (if accepted then modify (set_data_ready true) else ret tt) ;;!
  let! s := stream get in
  ret (bs_backpressured s).

Definition set_both : M body_stream unit :=
  modify (set_data_ready true) ;;! modify (set_space_ready true).

Definition finish_locked : M body_stream unit :=
  modify (fun s => set_flags true (bs_cancelled s) (bs_closed s) s).
Definition finish : MS unit := stream finish_locked ;;! stream set_both.

(** [for chunk in retained: if isinstance(chunk, BufferView) and not chunk.released: ...] *)
Fixpoint release_chunks (cs : list chunk) : M heap unit :=
  match cs with
  | [] => ret tt
  | CBytes _ :: cs' => release_chunks cs'
  | CView v :: cs' =>
      let! x := get_view v in
      (if v_released x then ret tt else let! _ := BufferView.release v in ret tt) ;;!
      release_chunks cs'
  end.

(** Empties the queue; the chunks and the read index it had. *)
Definition take_queue : M body_stream (list chunk * Z) :=
  let! s := get in
  modify (set_chunks []) ;;!
  modify (fun s => set_counts (received s) 0 (consumed_bytes s) 0 s) ;;!
  modify (set_bp false) ;;!
  ret (chunks s, read_index s).

Definition cancel_locked : M body_stream (list chunk) :=
  modify (fun s => set_flags (ended s) true (bs_closed s) s) ;;!
  let! (retained, _) := take_queue in ret retained.
Definition cancel : MS unit :=
  let! retained := stream cancel_locked in
  stream set_both ;;!
  store (release_chunks retained).

Definition close_locked : M body_stream (option (list chunk * Z)) :=
  let! s := get in
  if bs_closed s then ret None
  else
    modify (fun s => set_flags (ended s) (bs_cancelled s) true s) ;;!
    let! r := take_queue in ret (Some r).
Definition close : MS unit :=
  let! r := stream close_locked in
  match r with
  | None => ret tt
  | Some (retained, index) =>
      stream set_both ;;!
      store (release_chunks (from retained index))
  end.

(** The locked section of [read_chunk]: what it decides to do next. *)
Inductive read_decision :=
| TakeChunk (c : chunk) (wake_space : bool)
| EndOfBody
| NoDataYet
| MustWait.

Definition read_locked : MS read_decision :=
  let! s := stream get in
  if bs_cancelled s then raise (RuntimeError (py "request body was cancelled"))
  else if read_index s <? len (chunks s) then
    match at_ (chunks s) (read_index s) with
    | None => raise IndexError
    | Some c =>
        let! chunk_len := store (chunk_len c) in
        stream (modify (fun s => set_counts (received s) (read_index s + 1)
                                   (consumed_bytes s + chunk_len) (bs_queued_bytes s - chunk_len) s)) ;;!
        stream (modify (fun s =>
          if (read_index s >=? 64) && (read_index s * 2 >=? len (chunks s))
          then set_counts (received s) 0 (consumed_bytes s) (bs_queued_bytes s)
                 (set_chunks (from (chunks s) (read_index s)) s)
          else s)) ;;!
        let! s := stream get in
        if bs_backpressured s && (bs_queued_bytes s <=? bs_low_watermark s)
        then stream (modify (set_bp false)) ;;! ret (TakeChunk c true)
        else ret (TakeChunk c false)
    end
  else if ended s || bs_closed s then ret EndOfBody
  else if negb (streaming s) then ret NoDataYet
  else stream (modify (set_data_ready false)) ;;! ret MustWait.

(** One pass of the [while True] loop: [None] is the end of the body. *)
Definition read_chunk : MS (outcome (option bytes)) :=
  let! d := read_locked in
  match d with
  | EndOfBody => ret (Returned None)
  | NoDataYet => ret (Returned (Some []))
  | MustWait => ret Parked
  | TakeChunk c wake_space =>
      stream (if wake_space then modify (set_space_ready true) else ret tt) ;;!
      match c with
      | CBytes b => ret (Returned (Some b))
      | CView v =>
          let! result := store (BufferView.to_bytes v) in
          let! _ := store (BufferView.release v) in
          ret (Returned (Some result))
      end
  end.

(** The loop of [read]; every pass but the last takes a queued chunk.  A reader
    parked inside [read_chunk] keeps what it has collected and goes on from there. *)
Inductive read_result := ReadDone (output : bytes) | ReadParked (output : bytes).
Fixpoint read_loop (fuel : nat) (limit : Z) (output : bytes) : MS read_result :=
  match fuel with
  | O => raise out_of_fuel
  | S fuel' =>
      let! o := read_chunk in
      match o with
      | Parked => ret (ReadParked output)
      | Returned None => ret (ReadDone output)
      | Returned (Some chunk) =>
          let! s := stream get in
          if bool_decide (chunk = []) && negb (streaming s) then ret (ReadDone output)
          else if (limit >=? 0) && (len output + len chunk >? limit)
          then raise (ValueError (py "body read limit exceeded"))
          else read_loop fuel' limit (output ++ chunk)
      end
  end.
Definition read (limit : Z) : MS read_result :=
  let! s := stream get in
  read_loop (S (length (chunks s))) limit [].

(** [wait_writable] up to the point where it would park or sleep. *)
Definition wait_locked : M body_stream (option bool) :=
  let! s := get in
  if bs_cancelled s || bs_closed s || ended s then ret (Some false)
  else if negb (bs_backpressured s) then ret (Some true)
  else modify (set_space_ready false) ;;! ret None.
(** The last locked section, after the bounded sleep. *)
Definition after_sleep : M body_stream bool := let! s := get in ret (negb (bs_backpressured s)).
(** [Parked] covers both the unbounded wait and the timer slice of [max_wait_ms > 0]. *)
Definition wait_writable (max_wait_ms : Z) : M body_stream (outcome bool) :=
  let! s := get in
  if negb (streaming s) then ret (Returned true)
  else
    let! d := wait_locked in
    match d with
    | Some b => ret (Returned b)
    | None => if max_wait_ms =? 0 then ret (Returned false) else ret Parked
    end.
(** How long a bounded waiter sleeps. *)
Definition wait_slice (max_wait_ms : Z) : Z := if max_wait_ms >? 25 then 25 else max_wait_ms.

Definition is_backpressured : M body_stream bool := let! s := get in ret (bs_backpressured s).
Definition producer_finished : M body_stream bool :=
  let! s := get in ret (ended s || bs_cancelled s || bs_closed s).
Definition is_ended : M body_stream bool := let! s := get in ret (ended s).
Definition queued_size : M body_stream Z := let! s := get in ret (bs_queued_bytes s).
Definition consumed_size : M body_stream Z := let! s := get in ret (consumed_bytes s).

End BodyStream.

(** ** Query strings *)

(** The loop of [_percent_decode] over the encoded bytes. *)
Fixpoint percent_loop (fuel : nat) (plus_space : bool) (encoded : bytes) : result bytes :=
  match encoded with
  | [] => Ok []
  | current :: rest =>
      match fuel with
      | O => Raise out_of_fuel
      | S fuel' =>
          if current =? 37 then
            match rest with
            | a :: b :: rest' =>
                let escape :=
                  let? raw := decode_ascii [a; b] in
                  let? n := int_base16 raw in
                  (* bytearray.append *)
                  if (n <? 0) || (n >? 255)
                  then Raise (ValueError (py "byte must be in range(0, 256)")) else Ok n in
                match escape with
                | Ok n => let? out := percent_loop fuel' plus_space rest' in Ok (n :: out)
                | Raise e => if is_ValueError e
                             then Raise (ValueError (py "invalid percent escape")) else Raise e
                end
            | _ => Raise (ValueError (py "truncated percent escape"))
            end
          else if plus_space && (current =? 43) then
            let? out := percent_loop fuel' plus_space rest in Ok (32 :: out)
          else
            let? out := percent_loop fuel' plus_space rest in Ok (current :: out)
      end
  end.
Definition percent_decode (value : str) (plus_space : bool) : result str :=
  let? encoded := utf8_encode value in
  let? output := percent_loop (length encoded) plus_space encoded in
  utf8_decode output.

(** A Python dict in insertion order; [add_value] is the multi-map insertion. *)
Fixpoint add_value (key value : str) (d : list (str * list str)) : list (str * list str) :=
  match d with
  | [] => [(key, [value])]
  | (k, vs) :: d' =>
      if str_eqb k key then (k, vs ++ [value]) :: d' else (k, vs) :: add_value key value d'
  end.

Fixpoint parse_fields (fields : list str) (output : list (str * list str))
    : result (list (str * list str)) :=
  match fields with
  | [] => Ok output
  | field :: fields' =>
      let '(key, value) :=
        let eq := find_char 61 field in
        if eq <? 0 then (field, []) else (upto field eq, from field (eq + 1)) in
      let? key := percent_decode key true in
      let? value := percent_decode value true in
      parse_fields fields' (add_value key value output)
  end.
Definition parse_query (query : str) (max_fields : Z) : result (list (str * list str)) :=
  if bool_decide (query = []) then Ok []
  else
    let fields := split_char 38 query in
    if len fields >? max_fields then Raise (ValueError (py "query field limit exceeded"))
    else parse_fields fields [].

(** ** [Request] *)

(** [B] and [K] are the types of references to a body stream and a
    cancellation, which the request only carries. *)
Record request (B K : Type) := Request {
  rq_method : str;
  rq_target : str;
  raw_path : str;
  rq_path : str;
  query_string : str;
  rq_version : str;
  rq_headers : list (str * str);
  rq_body : B;
  client_ip : str;
  scheme : str;
  rq_cancellation : K;
  rq_content_length : Z;
  chunked_body : bool;
  expect_continue_handled : bool;
  rq_trailers : list (str * str);
  path_params : gmap (list Z) str;
  rq_query : option (list (str * list str));
}.
Arguments Request {B K}. Arguments rq_method {B K}. Arguments rq_target {B K}.
Arguments raw_path {B K}. Arguments rq_path {B K}. Arguments query_string {B K}.
Arguments rq_version {B K}. Arguments rq_headers {B K}. Arguments rq_body {B K}.
Arguments client_ip {B K}. Arguments scheme {B K}. Arguments rq_cancellation {B K}.
Arguments rq_content_length {B K}. Arguments chunked_body {B K}.
Arguments expect_continue_handled {B K}. Arguments rq_trailers {B K}. Arguments path_params {B K}.
Arguments rq_query {B K}.

Section request.
Context {B K : Type}.

Definition make_request (method target version : str) (headers : list (str * str)) (body : B)
    (client_ip scheme : str) (cancellation : K) (content_length : Z)
    (chunked_body expect_continue_handled : bool) : result (request B K) :=
  let '(raw_path, query) := split_target target in
  let? path := normalize_path raw_path in
  Ok (Request (upper method) target raw_path path query version headers body client_ip scheme
        cancellation content_length chunked_body expect_continue_handled [] ∅ None).

Fixpoint request_header_go (wanted : str) (hs : list (str * str)) (default : option str) : option str :=
  match hs with
  | [] => default
  | (key, value) :: hs' =>
      if str_eqb (lower key) wanted then Some value else request_header_go wanted hs' default
  end.
Definition Request_header (r : request B K) (name : str) (default : option str) : option str :=
  request_header_go (lower name) (rq_headers r) default.

(** The [query] property parses once and keeps the result. *)
Definition Request_query : M (request B K) (list (str * list str)) :=
  let! r := get in
  match rq_query r with
  | Some q => ret q
  | None =>
      let! q := lift (parse_query (query_string r) 128) in
      modify (fun r => Request (rq_method r) (rq_target r) (raw_path r) (rq_path r) (query_string r)
        (rq_version r) (rq_headers r) (rq_body r) (client_ip r) (scheme r) (rq_cancellation r)
        (rq_content_length r) (chunked_body r) (expect_continue_handled r) (rq_trailers r)
        (path_params r) (Some q)) ;;!
      ret q
  end.
End request.

(** ** [Response] *)

(** The body is bytes or, for a streaming response, a sequence of chunks of type [X]. *)
Record response (X : Type) := Response {
  rs_status : Z;
  rs_body : bytes + X;
  rs_headers : list (str * str);
  rs_streaming : bool;
  committed : bool;
}.
Arguments Response {X}. Arguments rs_status {X}. Arguments rs_body {X}. Arguments rs_headers {X}.
Arguments rs_streaming {X}. Arguments committed {X}.

Module Response.
Section response.
Context {X : Type}.

Definition init (status : Z) (body : bytes + X) (headers : list (str * str)) (streaming : bool)
    : result (response X) :=
  if (status <? 200) || (status >? 599)
  then Raise (ValueError (py "final HTTP response status must be 200..599"))
  else Ok (Response status body headers streaming false).

Definition bytes_ (body : list Z) (status : Z) (headers : list (str * str)) : result (response X) :=
  init status (inl body) headers false.
Definition text (body : str) (status : Z) (headers : list (str * str)) : result (response X) :=
  let? encoded := utf8_encode body in
  init status (inl encoded) (headers ++ [(py "content-type", py "text/plain; charset=utf-8")]) false.
(** [dumps] is the standard library's [json.dumps] with the separators the source passes. *)
Definition json {V} (dumps : V -> result str) (value : V) (status : Z) (headers : list (str * str))
    : result (response X) :=
  let? dumped := dumps value in
  let? body := utf8_encode dumped in
  init status (inl body) (headers ++ [(py "content-type", py "application/json")]) false.
Definition redirect (location : str) (status : Z) : result (response X) :=
  init status (inl []) [(py "location", location)] false.
Definition stream (cs : X) (status : Z) (headers : list (str * str)) : result (response X) :=
  init status (inr cs) headers true.
End response.
End Response.

Example ex_percent : percent_decode (py "a%20b+c%e2%82%ac") true = Ok (py "a b c" ++ [8364]).
Proof. vm_compute. reflexivity. Qed.
Example ex_query : parse_query (py "a=1&b&a=%32") 128 = Ok [(py "a", [py "1"; py "2"]); (py "b", [[]])].
Proof. vm_compute. reflexivity. Qed.
