(* ===== verification/ModelsSpec.v ===== *)
(** * Properties of body streams and queries

    A body stream is a FIFO of byte chunks: its calls return what the abstract queue
    [bs_step] returns, whether a chunk is bytes or a view, and a cancelled or closed
    stream holds no view.  Signals are not lost between the locked sections. *)

From S2P Require Import Prelude PyStr PyLists Buffer Models.
#[local] Open Scope Z_scope.

(** ** Chunks on the store *)

Definition chunk_is (h : heap) (c : chunk) (d : bytes) : Prop :=
  match c with CBytes b => b = d | CView v => vbytes h v = Some d end.
(** A chunk that was read: its view, if it had one, is released. *)
Definition chunk_dead (h : heap) (c : chunk) : Prop :=
  match c with CBytes _ => True | CView v => (v < length (views h))%nat /\ vbytes h v = None end.
Definition views_of (cs : list chunk) : list nat :=
  omap (fun c => match c with CView v => Some v | CBytes _ => None end) cs.

Lemma views_of_app a b : views_of (a ++ b) = views_of a ++ views_of b.
Proof. apply omap_app. Qed.

Lemma vbytes_some_live h v d :
  vbytes h v = Some d -> exists x, views h !! v = Some x /\ v_released x = false.
Proof. intros Hv. destruct (vbytes_live h v d Hv) as (w & x & Hw & Hr & _). by exists w. Qed.

Lemma chunk_len_run h ext c d : heap_ok h ext -> chunk_is h c d -> BodyStream.chunk_len c h = (Ok (len d), h).
Proof. intros Hok. destruct c as [b|v]; simpl; [by intros ->|]. intros Hv. by eapply view_len_spec. Qed.

(** Releasing a list of chunks leaves every other view alone. *)
Lemma release_chunks_spec cs : forall h ext,
  heap_ok h ext -> (forall v, v ∈ views_of cs -> (v < length (views h))%nat) ->
  exists h', BodyStream.release_chunks cs h = (Ok tt, h') /\ heap_ok h' ext /\
    length (views h') = length (views h) /\
    (forall u, vbytes h' u = if bool_decide (u ∈ views_of cs) then None else vbytes h u).
Proof.
  induction cs as [|[b|v] cs IH]; intros h ext Hok Hv; cbn [BodyStream.release_chunks].
  - exists h. by split_and!.
  - by apply IH.
  - change (views_of (CView v :: cs)) with (v :: views_of cs) in *.
    destruct (lookup_lt_is_Some_2 (views h) v) as [x Hx]; [apply Hv; by left|].
    assert (exists h1, (if v_released x then ret tt else let! _ := BufferView.release v in ret tt) h = (Ok tt, h1) /\
      heap_ok h1 ext /\ length (views h1) = length (views h) /\ (forall u, vbytes h1 u = voverride (vbytes h) v None u))
      as (h1 & E1 & Hok1 & Hl1 & Hb1).
    { destruct (v_released x) eqn:Er.
      - exists h. split_and!; try done. intros u. unfold voverride. destruct (Nat.eqb_spec u v) as [->|]; [|done].
        unfold vbytes. by rewrite Hx, Er.
      - destruct (ho_views _ _ Hok v x Hx Er) as (y & Hy & _).
        assert (exists d, vbytes h v = Some d) as [d Hd] by (unfold vbytes; rewrite Hx, Er, Hy; by eexists).
        destruct (view_release_spec h ext v d Hok Hd) as (h1 & r & E & ? & ? & ?). exists h1. split_and!; try done.
        unfold bind. by rewrite E. }
    destruct (IH h1 ext Hok1) as (h' & E' & Hok' & Hl' & Hb').
    { intros u Hu. rewrite Hl1. apply Hv. by right. }
    exists h'. split_and!; [|done|lia|].
    + unfold bind, get_view in *. rewrite Hx. cbn beta iota in *. unfold bind in E1. rewrite E1. exact E'.
    + intros u. rewrite Hb', Hb1. unfold voverride. destruct (Nat.eqb_spec u v) as [->|Hne].
      * rewrite (bool_decide_eq_true_2 (_ ∈ _ :: _)) by (by left). by destruct (bool_decide _).
      * rewrite (bool_decide_ext (u ∈ v :: views_of cs) (u ∈ views_of cs)); [done|].
        rewrite elem_of_cons. split; [by intros [?|?]|by right].
Qed.

(** ** The abstract queue *)

Record bs_spec := BsSpec {
  sp_queue : list bytes; sp_received : Z; sp_consumed : Z; sp_bp : bool;
  sp_ended : bool; sp_cancelled : bool; sp_closed : bool;
}.
Record bs_config := BsConfig { cf_max : Z; cf_low : Z; cf_high : Z; cf_streaming : bool }.

(** The calls; a view is one the caller owns. *)
Inductive bs_op := BFeed (d : bytes) | BFeedView (v : nat) | BRead | BFinish | BCancel | BClose.
Inductive bs_out := OutBool (b : bool) | OutChunk (o : outcome (option bytes)) | OutNone.

Definition sp_feed (k : bs_config) (d : bytes) (p : bs_spec) : result bs_out * bs_spec :=
  if sp_ended p || sp_cancelled p || sp_closed p
  then (Raise (RuntimeError (py "body stream is not accepting data")), p)
  else if sp_received p + len d >? cf_max k then (Raise (ValueError (py "request body limit exceeded")), p)
  else if bool_decide (d = []) then (Ok (OutBool (sp_bp p)), p)
  else
    let q := sp_queue p ++ [d] in
    let bp := sp_bp p || (cf_high k <=? total q) in
    (Ok (OutBool bp), BsSpec q (sp_received p + len d) (sp_consumed p) bp (sp_ended p) (sp_cancelled p) (sp_closed p)).
Definition bs_step (k : bs_config) (vb : nat -> option bytes) (op : bs_op) (p : bs_spec) : result bs_out * bs_spec :=
  match op with
  | BFeed d => sp_feed k d p
  | BFeedView v => sp_feed k (default [] (vb v)) p
  | BRead =>
      if sp_cancelled p then (Raise (RuntimeError (py "request body was cancelled")), p)
      else match sp_queue p with
           | d :: q => (Ok (OutChunk (Returned (Some d))),
               BsSpec q (sp_received p) (sp_consumed p + len d) (sp_bp p && negb (total q <=? cf_low k))
                 (sp_ended p) (sp_cancelled p) (sp_closed p))
           | [] => if sp_ended p || sp_closed p then (Ok (OutChunk (Returned None)), p)
                   else if cf_streaming k then (Ok (OutChunk Parked), p)
                   else (Ok (OutChunk (Returned (Some []))), p)
           end
  | BFinish => (Ok OutNone, BsSpec (sp_queue p) (sp_received p) (sp_consumed p) (sp_bp p) true (sp_cancelled p) (sp_closed p))
  | BCancel => (Ok OutNone, BsSpec [] (sp_received p) (sp_consumed p) false (sp_ended p) true (sp_closed p))
  | BClose => if sp_closed p then (Ok OutNone, p)
              else (Ok OutNone, BsSpec [] (sp_received p) (sp_consumed p) false (sp_ended p) (sp_cancelled p) true)
  end.

Definition map_out {A} (f : A -> bs_out) (m : BodyStream.MS A) : BodyStream.MS bs_out := let! a := m in ret (f a).
Definition bs_call (op : bs_op) : BodyStream.MS bs_out :=
  match op with
  | BFeed d => map_out OutBool (BodyStream.feed (CBytes d))
  | BFeedView v => map_out OutBool (BodyStream.feed (CView v))
  | BRead => map_out OutChunk BodyStream.read_chunk
  | BFinish => map_out (fun _ => OutNone) BodyStream.finish
  | BCancel => map_out (fun _ => OutNone) BodyStream.cancel
  | BClose => map_out (fun _ => OutNone) BodyStream.close
  end.

(** [n0] views existed before the stream; [vb] are their bytes. *)
Record holds_queue (n0 : nat) (vb : nat -> option bytes) (ext : nat -> Z) (s : body_stream) (h : heap) (ds : list bytes) : Prop := {
  hq_heap : heap_ok h ext;
  hq_alloc : (n0 <= length (views h))%nat;
  hq_frame : forall u, (u < n0)%nat -> vbytes h u = vb u;
  hq_index : 0 <= read_index s <= len (chunks s);
  hq_chunks : Forall2 (chunk_is h) (from (chunks s) (read_index s)) ds;
  hq_dead : Forall (chunk_dead h) (upto (chunks s) (read_index s));
  hq_nodup : NoDup (views_of (from (chunks s) (read_index s)));
  hq_own : forall u, u ∈ views_of (from (chunks s) (read_index s)) -> (n0 <= u)%nat;
  hq_only : forall u d, (n0 <= u)%nat -> vbytes h u = Some d -> u ∈ views_of (from (chunks s) (read_index s));
  hq_solid : Forall (fun d => d <> []) ds;
  hq_bytes : bs_queued_bytes s = total ds;
}.
Record bs_repr (k : bs_config) (n0 : nat) (vb : nat -> option bytes) (ext : nat -> Z) (s : body_stream) (h : heap) (p : bs_spec) : Prop := {
  br_config : BsConfig (bs_max_bytes s) (bs_low_watermark s) (bs_high_watermark s) (streaming s) = k;
  br_queue : holds_queue n0 vb ext s h (sp_queue p);
  br_received : received s = sp_received p;
  br_consumed : consumed_bytes s = sp_consumed p;
  br_bp : bs_backpressured s = sp_bp p;
  br_flags : ended s = sp_ended p /\ bs_cancelled s = sp_cancelled p /\ bs_closed s = sp_closed p;
}.

Definition refines_call (k : bs_config) n0 vb ext (op : bs_op) (s : body_stream) (h : heap) (p : bs_spec) : Prop :=
  let '(r, (s', h')) := bs_call op (s, h) in
  r = fst (bs_step k vb op p) /\ bs_repr k n0 vb ext s' h' (snd (bs_step k vb op p)).

Lemma stream_run {A} (m : M body_stream A) s h :
  BodyStream.stream m (s, h) = (fst (m s), (snd (m s), h)).
Proof. unfold BodyStream.stream, zoom. simpl. by destruct (m s). Qed.
Lemma store_run {A} (m : M heap A) s h : BodyStream.store m (s, h) = (fst (m h), (s, snd (m h))).
Proof. unfold BodyStream.store, zoom. simpl. by destruct (m h). Qed.

Definition done_with {A} (k : bs_config) n0 vb ext (x : result A * (body_stream * heap)) (y : result A * bs_spec) : Prop :=
  fst x = fst y /\ bs_repr k n0 vb ext (fst (snd x)) (snd (snd x)) (snd y).

Lemma chunk_is_ext h h' cs ds :
  (forall u, u ∈ views_of cs -> vbytes h' u = vbytes h u) -> Forall2 (chunk_is h) cs ds -> Forall2 (chunk_is h') cs ds.
Proof.
  intros Hx H. induction H as [|c d cs ds Hc H IH]; constructor.
  - destruct c as [b|v]; [done|]. simpl in *. rewrite Hx; [done|]. by left.
  - apply IH. intros u Hu. apply Hx. destruct c; [done|by right].
Qed.

Lemma chunk_dead_ext h h' cs :
  (length (views h) <= length (views h'))%nat -> (forall u, (u < length (views h))%nat -> vbytes h u = None -> vbytes h' u = None) ->
  Forall (chunk_dead h) cs -> Forall (chunk_dead h') cs.
Proof.
  intros Hl Hx H. eapply Forall_impl; [exact H|]. intros [b|v]; [done|]. simpl. intros [? ?]. split; [lia|by apply Hx].
Qed.

Lemma queued_alloc h cs ds u : Forall2 (chunk_is h) cs ds -> u ∈ views_of cs -> (u < length (views h))%nat.
Proof.
  induction 1 as [|c d cs ds Hc H IH]; [by intros ?%elem_of_nil|]. destruct c as [b|v]; [done|].
  intros [->|?]%elem_of_cons; [|by apply IH]. simpl in Hc. destruct (vbytes_some_live _ _ _ Hc) as (x & Hx & _).
  by eapply lookup_lt_Some.
Qed.

(** Appending a chunk: its copy of the view, or its bytes. *)
Lemma queue_append n0 vb ext s h ds data d :
  holds_queue n0 vb ext s h ds -> chunk_is h data d -> d <> [] ->
  exists c h', (match data with
                | CView v => let! w := BodyStream.store (BufferView.slice_ v 0 (-1)) in ret (CView w)
                | CBytes b => ret (CBytes b)
                end) (s, h) = (Ok c, (s, h')) /\
    forall s', chunks s' = chunks s ++ [c] -> read_index s' = read_index s -> bs_queued_bytes s' = bs_queued_bytes s + len d ->
      holds_queue n0 vb ext s' h' (ds ++ [d]).
Proof.
  intros [Hok Hal Hfr Hix Hch Hde Hnd How Hon Hso Hby] Hd Hne.
  assert (forall c, from (chunks s ++ [c]) (read_index s) = from (chunks s) (read_index s) ++ [c] /\
                    upto (chunks s ++ [c]) (read_index s) = upto (chunks s) (read_index s)) as Hcut.
  { intros c. split; [apply from_app_le; lia|apply upto_app_le; lia]. }
  assert (total (ds ++ [d]) = total ds + len d) as Htot by (rewrite total_app; simpl; lia).
  destruct data as [b|v]; simpl in Hd.
  - subst b. exists (CBytes d), h. split; [done|]. intros s' E1 E2 E3. destruct (Hcut (CBytes d)) as [Hc1 Hc2].
    assert (views_of (from (chunks s) (read_index s) ++ [CBytes d]) = views_of (from (chunks s) (read_index s))) as Hv
      by (rewrite views_of_app; apply app_nil_r).
    split; rewrite ?E1, ?E2, ?E3, ?Hc1, ?Hc2, ?Hv; try done.
    + lens. lia.
    + apply Forall2_app; [done|]. by constructor.
    + apply Forall_app. split; [done|]. by apply Forall_singleton.
    + rewrite Htot. lia.
  - destruct (view_slice_all h ext v d Hok Hd) as (h' & E & Hok' & Hl' & Hb').
    exists (CView (length (views h))), h'. split.
    { unfold bind. rewrite store_run, E. done. }
    assert (forall u, (u < length (views h))%nat -> vbytes h' u = vbytes h u) as Hold.
    { intros u Hu. rewrite Hb'. unfold voverride. destruct (Nat.eqb_spec u (length (views h))); [lia|done]. }
    intros s' E1 E2 E3. destruct (Hcut (CView (length (views h)))) as [Hc1 Hc2].
    split; rewrite ?E1, ?E2, ?E3, ?Hc1, ?Hc2, ?views_of_app; try done.
    + lia.
    + intros u Hu. rewrite Hold by lia. by apply Hfr.
    + lens. lia.
    + apply Forall2_app.
      * eapply chunk_is_ext; [|exact Hch]. intros u Hu. apply Hold. by eapply queued_alloc.
      * constructor; [|done]. simpl. rewrite Hb'. unfold voverride. by rewrite Nat.eqb_refl.
    + eapply chunk_dead_ext; [| |exact Hde]; [lia|]. intros u Hu Hn. by rewrite Hold.
    + apply NoDup_app. split; [done|]. split; [|apply NoDup_singleton]. intros u Hu ->%list_elem_of_singleton.
      apply (queued_alloc _ _ _ _ Hch) in Hu. lia.
    + intros u [Hu| ->%list_elem_of_singleton]%elem_of_app; [by apply How|lia].
    + intros u e Hu He. rewrite Hb' in He. unfold voverride in He. apply elem_of_app.
      destruct (Nat.eqb_spec u (length (views h))) as [->|]; [right; by left|left; by eapply Hon].
    + apply Forall_app. split; [done|]. by apply Forall_singleton.
    + rewrite Htot. lia.
Qed.

Lemma holds_queue_same n0 vb ext s s' h ds :
  chunks s' = chunks s -> read_index s' = read_index s -> bs_queued_bytes s' = bs_queued_bytes s ->
  holds_queue n0 vb ext s h ds -> holds_queue n0 vb ext s' h ds.
Proof. intros E1 E2 E3 []. split; rewrite ?E1, ?E2, ?E3; done. Qed.

Lemma feed_refines k n0 vb ext s h p data d :
  bs_repr k n0 vb ext s h p -> chunk_is h data d ->
  done_with k n0 vb ext (map_out OutBool (BodyStream.feed data) (s, h)) (sp_feed k d p).
Proof.
  intros Hr Hd. pose proof Hr as [<- Hq Hrec Hcon Hbp (Hen & Hca & Hcl)]. unfold sp_feed. cbn [cf_max cf_high].
  unfold map_out, BodyStream.feed, bind at 1 2. unfold BodyStream.feed_locked. unfold bind at 1. rewrite stream_run. cbn [get fst snd].
  rewrite <- Hen, <- Hca, <- Hcl. destruct (ended s || bs_cancelled s || bs_closed s); [done|].
  unfold bind at 1. rewrite store_run, (chunk_len_run h ext _ d) by (done || apply Hq). cbn [fst snd].
  rewrite <- Hrec. destruct (received s + len d >? bs_max_bytes s) eqn:Emax; [done|].
  case_bool_decide as Ed.
  - subst d. change (len (@nil Z) >? 0) with false. unfold bind, ret. cbn beta iota. rewrite stream_run. cbn [fst snd].
    rewrite stream_run. cbn [get fst snd]. rewrite Hbp. by split.
  - assert (0 < len d) as Hpos.
    { pose proof (len_nonneg d). destruct (Z.eq_dec (len d) 0) as [E|]; [by apply len_zero_nil in E|lia]. }
    zdec. destruct (queue_append n0 vb ext s h _ data d Hq Hd Ed) as (c & h' & E & Hq').
    unfold bind at 1. rewrite E. unfold bind at 1. rewrite stream_run. cbn [modify fst snd].
    unfold bind at 1. rewrite stream_run. cbn [modify fst snd]. unfold bind at 1. rewrite stream_run. cbn [modify fst snd ret].
    cbn [bs_queued_bytes set_counts set_chunks bs_high_watermark received read_index consumed_bytes].
    unfold bind. rewrite !stream_run. cbn [modify fst snd get ret].
    rewrite total_app. cbn [total fold_right]. rewrite <- (hq_bytes _ _ _ _ _ _ Hq), Z.add_0_r, Z.geb_leb, <- Hbp.
    destruct (bs_high_watermark s <=? bs_queued_bytes s + len d) eqn:Eh; cbn;
      rewrite ?orb_true_r, ?orb_false_r; (split; [done|]); cbn;
      (split; [done|by apply Hq'|by rewrite Hrec|done|done|done]).
Qed.

(** What [read_chunk] does with the chunk it took. *)
Definition take_bytes (c : chunk) : BodyStream.MS (outcome (option bytes)) :=
  match c with
  | CBytes b => ret (Returned (Some b))
  | CView v =>
      let! result := BodyStream.store (BufferView.to_bytes v) in
      let! _ := BodyStream.store (BufferView.release v) in
      ret (Returned (Some result))
  end.

Lemma queue_pop n0 vb ext s h d ds :
  holds_queue n0 vb ext s h (d :: ds) ->
  exists c h', at_ (chunks s) (read_index s) = Some c /\ chunk_is h c d /\ 0 <= read_index s < len (chunks s) /\
    (forall s0, take_bytes c (s0, h) = (Ok (Returned (Some d)), (s0, h'))) /\
    forall s', (chunks s' = chunks s /\ read_index s' = read_index s + 1 \/
                chunks s' = from (chunks s) (read_index s + 1) /\ read_index s' = 0) ->
      bs_queued_bytes s' = bs_queued_bytes s - len d -> holds_queue n0 vb ext s' h' ds.
Proof.
  intros [Hok Hal Hfr Hix Hch Hde Hnd How Hon Hso Hby].
  destruct (from (chunks s) (read_index s)) as [|c rest] eqn:Ef; [by apply Forall2_nil_inv_l in Hch|].
  apply Forall2_cons in Hch as [Hc Hch]. apply Forall_cons in Hso as [Hd Hso].
  destruct (from_cons_inv _ _ _ _ (proj1 Hix) Ef) as [Hat Hrest]. pose proof (at_Some _ _ _ Hat) as Hlt.
  assert (exists h', (forall s0, take_bytes c (s0, h) = (Ok (Returned (Some d)), (s0, h'))) /\ heap_ok h' ext /\
    length (views h') = length (views h) /\ (forall u, vbytes h' u = if bool_decide (u ∈ views_of [c]) then None else vbytes h u))
    as (h' & Et & Hok' & Hl' & Hb').
  { destruct c as [b|v]; simpl in Hc.
    - subst b. exists h. by split_and!.
    - destruct (view_release_spec h ext v d Hok Hc) as (h' & r & E & ? & ? & Hb). exists h'. split_and!; try done.
      + intros s0. unfold take_bytes, bind. rewrite store_run, (view_to_bytes_spec _ _ _ _ Hok Hc). cbn [fst snd].
        by rewrite store_run, E.
      + intros u. rewrite Hb. unfold voverride. change (views_of [CView v]) with [v].
        destruct (Nat.eqb_spec u v) as [->|Hne].
        * by rewrite bool_decide_eq_true_2 by (by left).
        * by rewrite bool_decide_eq_false_2 by (by rewrite list_elem_of_singleton). }
  exists c, h'. split_and!; [done|done|lia|lia|done|].
  assert (views_of (c :: rest) = views_of [c] ++ views_of rest) as Hvo by (by destruct c).
  rewrite Hvo in Hnd, How, Hon. apply NoDup_app in Hnd as (_ & Hdis & Hnd).
  assert (forall u, u ∈ views_of rest -> vbytes h' u = vbytes h u) as Hrest'.
  { intros u Hu. rewrite Hb'. rewrite bool_decide_eq_false_2; [done|]. intros Hin. by apply (Hdis u Hin). }
  intros s' Hs' Hqb.
  assert (from (chunks s') (read_index s') = rest /\ 0 <= read_index s' <= len (chunks s') /\
          Forall (chunk_dead h') (upto (chunks s') (read_index s'))) as (E1 & E2 & E3).
  { destruct Hs' as [[-> ->]|[-> ->]].
    - split_and!; [done|lia|lia|].
      assert (upto (chunks s) (read_index s + 1) = upto (chunks s) (read_index s) ++ [c]) as ->.
      { unfold upto. replace (Z.to_nat (read_index s + 1)) with (S (Z.to_nat (read_index s))) by lia.
        apply take_S_r. by rewrite <- at_lookup by lia. }
      apply Forall_app. split.
      + eapply chunk_dead_ext; [| |exact Hde]; [lia|]. intros u _ Hn. rewrite Hb'. by destruct (bool_decide _).
      + apply Forall_singleton. destruct c as [b|v]; [done|]. simpl in *. split.
        * rewrite Hl'. destruct (vbytes_some_live _ _ _ Hc) as (x & Hx & _). by eapply lookup_lt_Some.
        * rewrite Hb'. by rewrite bool_decide_eq_true_2 by (by left).
    - rewrite from_0. split_and!; [done|lia|apply len_nonneg|]. rewrite upto_0. constructor. }
  split; rewrite ?E1; try done.
  - lia.
  - intros u Hu. rewrite Hb'. rewrite bool_decide_eq_false_2; [by apply Hfr|]. intros Hin.
    assert (n0 <= u)%nat by (apply How; apply elem_of_app; by left). lia.
  - by eapply chunk_is_ext.
  - intros u Hu. apply How. apply elem_of_app. by right.
  - intros u e Hu He. rewrite Hb' in He. case_bool_decide as Hin; [done|].
    apply (Hon u e Hu) in He. by apply elem_of_app in He as [?|?].
  - rewrite Hqb, Hby. simpl. lia.
Qed.

Lemma queue_nil n0 vb ext s h ds :
  holds_queue n0 vb ext s h ds -> (read_index s <? len (chunks s)) = negb (bool_decide (ds = [])).
Proof.
  intros [_ _ _ Hix Hch _ _ _ _ _ _]. assert (len (from (chunks s) (read_index s)) = len ds) as E.
  { unfold len. f_equal. by eapply Forall2_length. }
  rewrite len_from in E by lia. destruct ds as [|d ds].
  - change (len []) with 0 in E. rewrite bool_decide_eq_true_2 by done. cbn. zdec. done.
  - rewrite bool_decide_eq_false_2 by done. lens. pose proof (len_nonneg ds). by zdec.
Qed.

Lemma read_chunk_refines k n0 vb ext s h p :
  bs_repr k n0 vb ext s h p -> refines_call k n0 vb ext BRead s h p.
Proof.
  intros Hr. pose proof Hr as [<- Hq Hrec Hcon Hbp (Hen & Hca & Hcl)]. unfold refines_call. cbn [bs_call bs_step cf_low cf_streaming].
  unfold map_out, BodyStream.read_chunk, bind at 1 2. unfold BodyStream.read_locked. unfold bind at 1. rewrite stream_run. cbn [get fst snd].
  rewrite <- Hca. destruct (bs_cancelled s) eqn:Eca; [done|]. rewrite (queue_nil _ _ _ _ _ _ Hq).
  destruct (sp_queue p) as [|d q] eqn:Eq; cbn [bool_decide negb].
  - rewrite bool_decide_eq_true_2 by done. cbn [negb]. rewrite <- Hen, <- Hcl. destruct (ended s || bs_closed s); [done|].
    destruct (streaming s) eqn:Est; cbn [negb]; [|done]. unfold bind. rewrite stream_run. cbn.
    split; [done|]. split; cbn; try done; [by rewrite Est| |split_and!; congruence].
    rewrite Eq. by (eapply holds_queue_same; [..|eassumption]).
  - rewrite bool_decide_eq_false_2 by done. cbn [negb].
    destruct (queue_pop _ _ _ _ _ _ _ Hq) as (c & h' & Hat & Hc & Hlt & Ht & Hq'). rewrite Hat.
    unfold bind at 1. rewrite store_run, (chunk_len_run h ext _ d) by (done || apply Hq). cbn [fst snd].
    unfold bind at 1. rewrite stream_run. cbn [modify fst snd]. unfold bind at 1. rewrite stream_run. cbn [modify fst snd].
    set (s1 := set_counts _ _ _ _ s). cbn [read_index set_counts]. change (chunks s1) with (chunks s). change (read_index s1) with (read_index s + 1).
    match goal with |- context [if ?b then ?x else s1] => set (s2 := if b then x else s1) end.
    assert ((chunks s2 = chunks s /\ read_index s2 = read_index s + 1 \/
             chunks s2 = from (chunks s) (read_index s + 1) /\ read_index s2 = 0) /\
            bs_queued_bytes s2 = bs_queued_bytes s - len d /\ bs_backpressured s2 = bs_backpressured s /\
            BsConfig (bs_max_bytes s2) (bs_low_watermark s2) (bs_high_watermark s2) (streaming s2) =
            BsConfig (bs_max_bytes s) (bs_low_watermark s) (bs_high_watermark s) (streaming s) /\
            received s2 = received s /\ consumed_bytes s2 = consumed_bytes s + len d /\
            ended s2 = ended s /\ bs_cancelled s2 = false /\ bs_closed s2 = bs_closed s)
      as (H1 & H2 & H3 & H4 & H5 & H6 & H7 & H8 & H9).
    { subst s2. destruct (_ && _); cbn; split_and!; try done; [by right|by left]. }
    clearbody s2. clear s1. unfold bind at 1. rewrite stream_run. cbn [get fst snd]. rewrite H3.
    assert (bs_queued_bytes s2 = total q) as Etot.
    { rewrite H2, (hq_bytes _ _ _ _ _ _ Hq). simpl. lia. }
    assert (bs_low_watermark s2 = bs_low_watermark s) as El by congruence. rewrite Etot, El, <- Hbp.
    specialize (Hq' s2 H1 H2).
    destruct (bs_backpressured s && (total q <=? bs_low_watermark s)) eqn:Eb.
    + apply andb_true_iff in Eb as [Eb1 Eb2]. rewrite Eb1, Eb2. unfold bind at 1 2. rewrite stream_run. cbn [modify fst snd ret].
      unfold bind at 1. rewrite stream_run. cbn [modify fst snd]. fold (take_bytes c). rewrite Ht. cbn [ret].
      split; [done|]. split; cbn; try done; congruence || (by (eapply holds_queue_same; [..|eassumption])) || split_and!; congruence.
    + unfold ret at 1. unfold bind at 1. rewrite stream_run. cbn [ret fst snd]. fold (take_bytes c). rewrite Ht. cbn [ret].
      split; [done|]. split; cbn; try done; try congruence.
      * rewrite H3. destruct (bs_backpressured s); cbn [andb] in *; [by rewrite Eb|done].
      * split_and!; congruence.
Qed.

(** Emptying the queue and releasing chunks of it. *)
Lemma queue_emptied n0 vb ext s h ds cs :
  holds_queue n0 vb ext s h ds -> (exists pre, chunks s = pre ++ cs /\ Forall (chunk_dead h) pre) ->
  exists h', BodyStream.release_chunks cs h = (Ok tt, h') /\
    forall s', chunks s' = [] -> read_index s' = 0 -> bs_queued_bytes s' = 0 -> holds_queue n0 vb ext s' h' [].
Proof.
  intros [Hok Hal Hfr Hix Hch Hde Hnd How Hon Hso Hby] (pre & Epre & Hpre).
  assert (forall v, v ∈ views_of (chunks s) -> (v < length (views h))%nat /\ (vbytes h v = None \/ (n0 <= v)%nat)) as Hv.
  { intros v. rewrite <- (upto_from (chunks s) (read_index s)), views_of_app. intros [Hin|Hin]%elem_of_app.
    - unfold views_of in Hin. apply list_elem_of_omap in Hin as (c & Hc & E). destruct c as [b|u]; [done|]. injection E as ->.
      rewrite Forall_forall in Hde. destruct (Hde _ Hc) as [? ?]. auto.
    - split; [by eapply queued_alloc|right; by apply How]. }
  assert (forall v, v ∈ views_of cs -> v ∈ views_of (chunks s)) as Hsub.
  { intros v Hin. rewrite Epre, views_of_app. apply elem_of_app. by right. }
  destruct (release_chunks_spec cs h ext Hok) as (h' & E & Hok' & Hl' & Hb').
  { intros v Hin. by apply Hv, Hsub. }
  exists h'. split; [done|]. intros s' E1 E2 E3. split; rewrite ?E1, ?E2, ?E3, ?from_0, ?upto_0; try done; try (by rewrite Hl').
  - intros u Hu. rewrite Hb'. case_bool_decide as Hin; [|by apply Hfr].
    destruct (Hv u (Hsub u Hin)) as [_ [Hn|?]]; [|lia]. rewrite <- Hn. by apply Hfr.
  - apply NoDup_nil_2.
  - by intros u ?%elem_of_nil.
  - intros u d Hu Hd. rewrite Hb' in Hd. case_bool_decide as Hin; [done|]. exfalso.
    pose proof (Hon u d Hu Hd) as Hq. apply Hin.
    assert (u ∈ views_of (chunks s)) as Hc by (rewrite <- (upto_from (chunks s) (read_index s)), views_of_app; apply elem_of_app; by right).
    rewrite Epre, views_of_app in Hc. apply elem_of_app in Hc as [Hp|?]; [|done]. exfalso.
    unfold views_of in Hp. apply list_elem_of_omap in Hp as (c & Hc & Ec). destruct c as [b|w]; [done|]. injection Ec as ->.
    rewrite Forall_forall in Hpre. destruct (Hpre _ Hc) as [_ Hn]. congruence.
Qed.

Lemma bs_call_refines k n0 vb ext op s h p :
  bs_repr k n0 vb ext s h p ->
  match op with BFeedView v => (v < n0)%nat /\ is_Some (vb v) | _ => True end ->
  refines_call k n0 vb ext op s h p.
Proof.
  intros Hr Hop. destruct op as [d|v| | | |].
  - pose proof (feed_refines k n0 vb ext s h p (CBytes d) d Hr eq_refl) as Hf. unfold refines_call, done_with in *.
    cbn [bs_call bs_step]. by destruct (map_out _ _ _) as [r [s' h']].
  - destruct Hop as [Hv [d Hd]]. unfold refines_call. cbn [bs_call bs_step]. rewrite Hd. cbn [default].
    assert (chunk_is h (CView v) d) as Hc by (simpl; by rewrite (hq_frame _ _ _ _ _ _ (br_queue _ _ _ _ _ _ _ Hr))).
    pose proof (feed_refines k n0 vb ext s h p (CView v) d Hr Hc) as Hf. unfold done_with in Hf.
    by destruct (map_out _ _ _) as [r [s' h']].
  - by apply read_chunk_refines.
  - pose proof Hr as [<- Hq Hrec Hcon Hbp (Hen & Hca & Hcl)]. unfold refines_call. cbn.
    split; [done|]. split; cbn; try done. by (eapply holds_queue_same; [..|eassumption]).
  - pose proof Hr as [<- Hq Hrec Hcon Hbp (Hen & Hca & Hcl)].
    destruct (queue_emptied _ _ _ _ _ _ (chunks s) Hq) as (h' & E & Hq').
    { exists []. by split. }
    unfold refines_call. cbn [bs_call bs_step]. unfold map_out, BodyStream.cancel, bind at 1 2. rewrite stream_run. cbn [fst snd].
    cbn. unfold bind, BodyStream.store, zoom. cbn. rewrite E. cbn. split; [done|]. split; cbn; try done. by apply Hq'.
  - pose proof Hr as [<- Hq Hrec Hcon Hbp (Hen & Hca & Hcl)]. unfold refines_call. cbn [bs_call bs_step]. rewrite <- Hcl.
    destruct (bs_closed s) eqn:Ecl.
    + unfold map_out, BodyStream.close, bind at 1 2. rewrite stream_run. unfold BodyStream.close_locked, bind, get. cbn [fst snd].
      rewrite Ecl. cbn. done.
    + destruct (queue_emptied _ _ _ _ _ _ (from (chunks s) (read_index s)) Hq) as (h' & E & Hq').
      { exists (upto (chunks s) (read_index s)). rewrite upto_from. split; [done|apply Hq]. }
      unfold map_out, BodyStream.close, bind at 1 2. rewrite stream_run. unfold BodyStream.close_locked, bind, get. cbn [fst snd].
      rewrite Ecl. cbn. unfold BodyStream.store, zoom. cbn. rewrite E. cbn. split; [done|]. split; cbn; try done. by apply Hq'.
Qed.

Fixpoint bs_run (ops : list bs_op) (t : body_stream * heap) : list (result bs_out) * (body_stream * heap) :=
  match ops with
  | [] => ([], t)
  | op :: ops' => let '(r, t1) := bs_call op t in let '(rs, t2) := bs_run ops' t1 in (r :: rs, t2)
  end.
Fixpoint sp_run (k : bs_config) (vb : nat -> option bytes) (ops : list bs_op) (p : bs_spec) : list (result bs_out) * bs_spec :=
  match ops with
  | [] => ([], p)
  | op :: ops' => let '(r, p1) := bs_step k vb op p in let '(rs, p2) := sp_run k vb ops' p1 in (r :: rs, p2)
  end.

Definition op_ok (n0 : nat) (vb : nat -> option bytes) (op : bs_op) : Prop :=
  match op with BFeedView v => (v < n0)%nat /\ is_Some (vb v) | _ => True end.

Lemma bs_run_refines k n0 vb ext ops : forall s h p,
  bs_repr k n0 vb ext s h p -> Forall (op_ok n0 vb) ops ->
  fst (bs_run ops (s, h)) = fst (sp_run k vb ops p) /\
  bs_repr k n0 vb ext (fst (snd (bs_run ops (s, h)))) (snd (snd (bs_run ops (s, h)))) (snd (sp_run k vb ops p)).
Proof.
  induction ops as [|op ops IH]; intros s h p Hr Ho; [done|]. apply Forall_cons in Ho as [Hop Ho]. cbn [bs_run sp_run].
  pose proof (bs_call_refines k n0 vb ext op s h p Hr Hop) as Hc. unfold refines_call in Hc.
  destruct (bs_call op (s, h)) as [r [s1 h1]]. destruct Hc as [E Hr1]. destruct (bs_step k vb op p) as [r' p1]. cbn [fst snd] in *.
  subst r'. destruct (IH s1 h1 p1 Hr1 Ho) as [E2 Hr2]. destruct (bs_run ops (s1, h1)) as [rs t2], (sp_run k vb ops p1) as [rs' p2].
  cbn [fst snd] in *. split; [by f_equal|done].
Qed.

Definition sp_init : bs_spec := BsSpec [] 0 0 false false false false.

Lemma init_repr mx low high st s h ext :
  BodyStream.init mx low high st = Ok s -> heap_ok h ext ->
  bs_repr (BsConfig (bs_max_bytes s) (bs_low_watermark s) (bs_high_watermark s) (streaming s))
    (length (views h)) (vbytes h) ext s h sp_init /\ 0 <= bs_low_watermark s < bs_high_watermark s /\ 0 <= bs_max_bytes s.
Proof.
  unfold BodyStream.init. destruct (mx <? 0) eqn:E1; [done|]. cbv zeta. set (hi := if high <=? 0 then _ else _).
  destruct (low <? 0) eqn:E2; [done|]. destruct (low >=? hi) eqn:E3; [done|]. intros [= <-] Hok. b2p.
  split; [|cbn; lia]. split; cbn; try done. split; cbn; try done.
  - apply NoDup_nil_2.
  - by intros u ?%elem_of_nil.
  - intros u d Hu Hd. exfalso. destruct (vbytes_some_live _ _ _ Hd) as (x & Hx & _). apply lookup_lt_Some in Hx. lia.
Qed.

(** C16: a body stream is the abstract queue.  On a fresh stream, any sequence of calls -
    feeding bytes or views the caller owns, reading chunks, finishing, cancelling, closing -
    returns what the queue returns, exceptions and parking included, and leaves the
    caller's views unchanged. *)
Theorem body_stream_refines_queue mx low high st s h ext ops :
  BodyStream.init mx low high st = Ok s -> heap_ok h ext ->
  Forall (op_ok (length (views h)) (vbytes h)) ops ->
  let '(rs, (s', h')) := bs_run ops (s, h) in
  let k := BsConfig (bs_max_bytes s) (bs_low_watermark s) (bs_high_watermark s) (streaming s) in
  rs = fst (sp_run k (vbytes h) ops sp_init) /\ heap_ok h' ext /\
  bs_queued_bytes s' = total (sp_queue (snd (sp_run k (vbytes h) ops sp_init))) /\
  forall u, (u < length (views h))%nat -> vbytes h' u = vbytes h u.
Proof.
  intros Hi Hok Ho. destruct (init_repr _ _ _ _ _ _ _ Hi Hok) as [Hr _].
  destruct (bs_run_refines _ _ _ _ ops _ _ _ Hr Ho) as [E Hr']. destruct (bs_run ops (s, h)) as [rs [s' h']]. cbn [fst snd] in *.
  destruct (br_queue _ _ _ _ _ _ _ Hr') as [? ? Hf ? ? ? ? ? ? ? Hb]. by split_and!.
Qed.

(** ** Invariants of the queue *)

Record sp_ok (k : bs_config) (p : bs_spec) : Prop := {
  so_solid : Forall (fun d => d <> []) (sp_queue p);
  so_limit : 0 <= sp_consumed p /\ sp_consumed p + total (sp_queue p) <= sp_received p <= Z.max 0 (cf_max k);
  so_balance : sp_cancelled p = false -> sp_closed p = false -> sp_received p = sp_consumed p + total (sp_queue p);
  so_paused : sp_bp p = true -> cf_low k < total (sp_queue p);
  so_resumed : sp_bp p = false -> total (sp_queue p) < cf_high k;
  so_over : sp_cancelled p = true \/ sp_closed p = true -> sp_queue p = [];
}.

Lemma sp_feed_ok k d p : 0 <= cf_low k < cf_high k -> sp_ok k p -> sp_ok k (snd (sp_feed k d p)).
Proof.
  intros Hk Hp. pose proof Hp as [H1 H2 H3 H4 H5 H6]. unfold sp_feed.
  destruct (sp_ended p || sp_cancelled p || sp_closed p) eqn:Ef; [done|]. destruct (_ >? _) eqn:El; [done|].
  case_bool_decide as Ed; [done|]. b2p. pose proof (len_nonneg d). split; cbn [snd sp_queue sp_received sp_consumed sp_bp sp_ended sp_cancelled sp_closed].
  - apply Forall_app. split; [done|]. by apply Forall_singleton.
  - rewrite total_app; cbn [total fold_right]. lia.
  - intros Ha Hb. rewrite (H3 Ha Hb), total_app; cbn [total fold_right]. lia.
  - rewrite total_app; cbn [total fold_right]. intros [Hbp|Hh]%orb_true_iff; [specialize (H4 Hbp); lia|b2p; lia].
  - intros [Hbp Hh]%orb_false_iff. b2p. lia.
  - intros [?|?]; congruence.
Qed.

Lemma bs_step_ok k vb op p : 0 <= cf_low k < cf_high k -> sp_ok k p -> sp_ok k (snd (bs_step k vb op p)).
Proof.
  intros Hk Hp. pose proof Hp as [H1 H2 H3 H4 H5 H6]. pose proof (total_nonneg (sp_queue p)).
  destruct op as [d|v| | | |]; cbn [bs_step]; [by apply sp_feed_ok|by apply sp_feed_ok| | | |].
  - destruct (sp_cancelled p) eqn:Ec; [done|]. destruct (sp_queue p) as [|d q] eqn:Eq.
    { destruct (_ || _); [done|]. by destruct (cf_streaming k). }
    apply Forall_cons in H1 as [Hd H1]. cbn [total fold_right] in *. fold (total q) in *. pose proof (len_nonneg d). pose proof (total_nonneg q). split; cbn [snd sp_queue sp_received sp_consumed sp_bp sp_ended sp_cancelled sp_closed]; try done.
    + lia.
    + intros _ Hcl. rewrite (H3 eq_refl Hcl). lia.
    + intros [Hbp Hl]%andb_true_iff. b2p. lia.
    + intros [Hbp|Hl]%andb_false_iff; [specialize (H5 Hbp); lia|b2p; lia].
    + intros [?|Hcl]; [congruence|]. specialize (H6 (or_intror Hcl)). done.
  - by split.
  - split; cbn [snd sp_queue sp_received sp_consumed sp_bp sp_ended sp_cancelled sp_closed total fold_right]; try done; try lia; by constructor.
  - destruct (sp_closed p) eqn:Ec; [done|]. split; cbn [snd sp_queue sp_received sp_consumed sp_bp sp_ended sp_cancelled sp_closed total fold_right]; try done; try lia; by constructor.
Qed.

Lemma sp_run_ok k vb ops : forall p, 0 <= cf_low k < cf_high k -> sp_ok k p -> sp_ok k (snd (sp_run k vb ops p)).
Proof.
  induction ops as [|op ops IH]; intros p Hk Hp; [done|]. cbn [sp_run]. pose proof (bs_step_ok k vb op p Hk Hp) as H1.
  destruct (bs_step k vb op p) as [r p1]. specialize (IH p1 Hk H1). by destruct (sp_run k vb ops p1) as [rs p2].
Qed.

(** C17: limits, watermarks and cleanup.  After any calls the stream has accepted at most
    its limit; what was received is what was read plus what is queued; the backpressure
    flag implies the queue is above the low watermark and its absence that it is below the
    high one; and a cancelled or closed stream holds no live view. *)
Theorem body_stream_limits mx low high st s h ext ops :
  BodyStream.init mx low high st = Ok s -> heap_ok h ext ->
  Forall (op_ok (length (views h)) (vbytes h)) ops ->
  let '(_, (s', h')) := bs_run ops (s, h) in
  0 <= received s' <= mx /\
  (bs_cancelled s' = false -> bs_closed s' = false -> received s' = consumed_bytes s' + bs_queued_bytes s') /\
  (bs_backpressured s' = true -> bs_low_watermark s < bs_queued_bytes s') /\
  (bs_backpressured s' = false -> bs_queued_bytes s' < bs_high_watermark s) /\
  (bs_cancelled s' = true \/ bs_closed s' = true ->
   forall u, (length (views h) <= u)%nat -> vbytes h' u = None).
Proof.
  intros Hi Hok Ho. destruct (init_repr _ _ _ _ _ _ _ Hi Hok) as (Hr & Hw & Hm).
  assert (bs_max_bytes s = mx) as Emx.
  { revert Hi. unfold BodyStream.init. destruct (mx <? 0); [done|]. cbv zeta. destruct (low <? 0); [done|].
    destruct (low >=? _); [done|]. by intros [= <-]. }
  destruct (bs_run_refines _ _ _ _ ops _ _ _ Hr Ho) as [_ Hr'].
  set (k := BsConfig _ _ _ _) in *.
  assert (sp_ok k (snd (sp_run k (vbytes h) ops sp_init))) as Hp.
  { apply sp_run_ok; [done|]. split; cbn; try done; try lia; by constructor. }
  destruct (bs_run ops (s, h)) as [rs [s' h']]. cbn [fst snd] in *.
  destruct Hr' as [Ek Hq Hrec Hcon Hbp (Hen & Hca & Hcl)]. destruct Hp as [H1 H2 H3 H4 H5 H6].
  rewrite Hrec, Hcon, Hbp, Hca, Hcl, (hq_bytes _ _ _ _ _ _ Hq). cbn in H2. pose proof (total_nonneg (sp_queue (snd (sp_run k (vbytes h) ops sp_init)))).
  split_and!; try done; try lia.
  intros Hover u Hu. rewrite (H6 Hover) in Hq. destruct (vbytes h' u) as [d|] eqn:Ed; [|done]. exfalso.
  pose proof (hq_only _ _ _ _ _ _ Hq u d Hu Ed) as Hin. pose proof (hq_chunks _ _ _ _ _ _ Hq) as Hch.
  apply Forall2_nil_inv_r in Hch. rewrite Hch in Hin. by apply elem_of_nil in Hin.
Qed.

Definition sample_stream : body_stream := BodyStream 10 1 4 true [] 0 0 0 0 false false false false false true.

Lemma body_stream_refines_queue_witness :
  fst (bs_run [BFeed (py "abcd"); BRead; BRead; BFinish; BRead; BFeed (py "x")] (sample_stream, Heap [] [])) =
  [Ok (OutBool true); Ok (OutChunk (Returned (Some (py "abcd")))); Ok (OutChunk Parked); Ok OutNone;
   Ok (OutChunk (Returned None)); Raise (RuntimeError (py "body stream is not accepting data"))].
Proof.
  pose proof (body_stream_refines_queue 10 1 4 true sample_stream (Heap [] []) (fun _ => 0)
    [BFeed (py "abcd"); BRead; BRead; BFinish; BRead; BFeed (py "x")] eq_refl heap_ok_empty
    ltac:(repeat (apply Forall_cons_2; [exact I|]); apply Forall_nil_2)) as H.
  destruct (bs_run _ _) as [rs [s' h']]. cbv zeta in H. rewrite (proj1 H). vm_compute. reflexivity.
Defined.

Lemma body_stream_limits_witness :
  let '(_, (s', h')) := bs_run [BFeed (py "abcd"); BFeed (py "ef"); BRead; BCancel] (sample_stream, Heap [] []) in
  0 <= received s' <= 10 /\ forall u, vbytes h' u = None.
Proof.
  pose proof (body_stream_limits 10 1 4 true sample_stream (Heap [] []) (fun _ => 0)
    [BFeed (py "abcd"); BFeed (py "ef"); BRead; BCancel] eq_refl heap_ok_empty
    ltac:(repeat (apply Forall_cons_2; [exact I|]); apply Forall_nil_2)) as H.
  destruct (bs_run _ _) as [rs [s' h']] eqn:E. destruct H as (H1 & _ & _ & _ & H2). split; [exact H1|].
  assert (bs_cancelled s' = true) as Hc.
  { assert (bs_cancelled (fst (snd (bs_run [BFeed (py "abcd"); BFeed (py "ef"); BRead; BCancel] (sample_stream, Heap [] [])))) = true)
      as Hc by (vm_compute; reflexivity). rewrite E in Hc. exact Hc. }
  intros u. apply (H2 (or_introl Hc)). simpl. lia.
Defined.

(** ** Signals *)

(** An event is set after the section that made it due has left the lock; [pending] are
    the sets that threads still have to do. *)
Inductive signal := SetData | SetSpace.

Definition readable (s : body_stream) : Prop :=
  read_index s < len (chunks s) \/ ended s = true \/ bs_cancelled s = true \/ bs_closed s = true.
Definition writable (s : body_stream) : Prop :=
  bs_backpressured s = false \/ ended s = true \/ bs_cancelled s = true \/ bs_closed s = true.

Inductive bs_section : body_stream * heap * list signal -> body_stream * heap * list signal -> Prop :=
| sec_feed c r s h s' h' ps :
    BodyStream.feed_locked c (s, h) = (r, (s', h')) ->
    bs_section (s, h, ps) (s', h', match r with Ok true => SetData :: ps | _ => ps end)
| sec_read r s h s' h' ps :
    BodyStream.read_locked (s, h) = (r, (s', h')) ->
    bs_section (s, h, ps) (s', h', match r with Ok (BodyStream.TakeChunk _ true) => SetSpace :: ps | _ => ps end)
| sec_wait r s h s' ps : BodyStream.wait_locked s = (r, s') -> bs_section (s, h, ps) (s', h, ps)
| sec_finish s h s' ps :
    BodyStream.finish_locked s = (Ok tt, s') -> bs_section (s, h, ps) (s', h, SetData :: SetSpace :: ps)
| sec_cancel cs s h s' ps :
    BodyStream.cancel_locked s = (Ok cs, s') -> bs_section (s, h, ps) (s', h, SetData :: SetSpace :: ps)
| sec_close r s h s' ps :
    BodyStream.close_locked s = (Ok r, s') ->
    bs_section (s, h, ps) (s', h, match r with Some _ => SetData :: SetSpace :: ps | None => ps end)
| sec_set_data s h ps ps' : ps ≡ₚ SetData :: ps' -> bs_section (s, h, ps) (set_data_ready true s, h, ps')
| sec_set_space s h ps ps' : ps ≡ₚ SetSpace :: ps' -> bs_section (s, h, ps) (set_space_ready true s, h, ps')
(* the views of chunks taken or dropped are released outside the lock *)
| sec_heap s h h' ps : bs_section (s, h, ps) (s, h', ps).

Definition signalled (t : body_stream * heap * list signal) : Prop :=
  let '(s, _, ps) := t in
  (readable s -> data_ready s = true \/ SetData ∈ ps) /\ (writable s -> space_ready s = true \/ SetSpace ∈ ps).

Lemma feed_locked_effect c s h r s' h' :
  BodyStream.feed_locked c (s, h) = (r, (s', h')) ->
  s' = s /\ r <> Ok true \/
  r = Ok true /\ data_ready s' = data_ready s /\ ended s' = false /\ bs_cancelled s' = false /\ bs_closed s' = false /\
  (bs_backpressured s' = true \/ bs_backpressured s' = bs_backpressured s /\ space_ready s' = space_ready s).
Proof.
  unfold BodyStream.feed_locked. unfold bind at 1. rewrite stream_run. cbn [get fst snd].
  destruct (ended s || bs_cancelled s || bs_closed s) eqn:Ef; [intros [= <- <- <-]; by left|].
  unfold bind at 1. rewrite store_run. destruct (fst (BodyStream.chunk_len c h)) as [n|e]; [|intros [= <- <- <-]; by left].
  destruct (_ >? _); [intros [= <- <- <-]; by left|]. destruct (n >? 0); [|intros [= <- <- <-]; by left].
  set (slice := match c with CBytes b => _ | CView v => _ end).
  assert (exists rc h1, slice (s, snd (BodyStream.chunk_len c h)) = (rc, (s, h1))) as (rc & h1 & Es).
  { destruct c as [b|v]; unfold slice; [by do 2 eexists|]. unfold bind. rewrite store_run.
    destruct (fst (BufferView.slice_ v 0 (-1) _)); by do 2 eexists. }
  unfold bind at 1. rewrite Es. destruct rc as [c'|e]; [|intros [= <- <- <-]; by left].
  unfold bind. rewrite stream_run. cbn [modify fst snd]. rewrite stream_run. cbn [modify fst snd]. rewrite stream_run.
  cbn [modify fst snd]. unfold ret. intros [= <- <- <-]. right. apply orb_false_iff in Ef as [[? ?]%orb_false_iff ?].
  split; [done|]. match goal with |- context [if ?b then _ else _] => destruct b end; cbn; split_and!; auto.
Qed.

Lemma read_locked_effect s h r s' h' :
  BodyStream.read_locked (s, h) = (r, (s', h')) ->
  data_ready s' = data_ready s /\ space_ready s' = space_ready s /\ readable s /\
    ended s' = ended s /\ bs_cancelled s' = bs_cancelled s /\ bs_closed s' = bs_closed s /\
    (bs_backpressured s' = bs_backpressured s \/ exists c, r = Ok (BodyStream.TakeChunk c true)) \/
  s' = s \/ s' = set_data_ready false s /\ ~ readable s.
Proof.
  unfold BodyStream.read_locked. unfold bind at 1. rewrite stream_run. cbn [get fst snd].
  destruct (bs_cancelled s) eqn:Ec; [intros [= <- <- <-]; auto|].
  destruct (Z.ltb_spec (read_index s) (len (chunks s))) as [Hlt|Hge].
  - destruct (at_ (chunks s) (read_index s)) as [c|]; [|intros [= <- <- <-]; auto].
    unfold bind at 1. rewrite store_run. destruct (fst (BodyStream.chunk_len c h)) as [n|e]; [|intros [= <- <- <-]; auto].
    unfold bind at 1. rewrite stream_run. cbn [modify fst snd]. unfold bind at 1. rewrite stream_run. cbn [modify fst snd].
    unfold bind at 1. rewrite stream_run. cbn [get fst snd].
    match goal with |- context [if ?b then _ else set_counts _ _ _ _ _] => destruct b end; cbn [bs_backpressured set_counts set_chunks];
      (match goal with |- context [if ?b then _ else _] => destruct b end; unfold bind; rewrite ?stream_run;
       cbn [modify fst snd ret]; unfold ret; intros [= <- <- <-]; left; cbn; split_and!; first [done|by left|right; by eexists]).
  - destruct (ended s || bs_closed s) eqn:Ef; [intros [= <- <- <-]; auto|].
    destruct (negb (streaming s)); [intros [= <- <- <-]; auto|]. unfold bind. rewrite stream_run. cbn [modify fst snd].
    unfold ret. intros [= <- <- <-]. right. right. split; [done|]. apply orb_false_iff in Ef as [E1 E2].
    unfold readable. rewrite Ec, E1, E2. intros [?|[?|[?|?]]]; done || lia.
Qed.

Lemma take_queue_flags s : exists r s', BodyStream.take_queue s = (Ok r, s') /\
  ended s' = ended s /\ bs_cancelled s' = bs_cancelled s /\ bs_closed s' = bs_closed s.
Proof. do 2 eexists. split; [reflexivity|]. done. Qed.

Lemma section_signalled t t' : signalled t -> bs_section t t' -> signalled t'.
Proof.
  intros Hs Ht. destruct Ht as [c r s h s' h' ps E|r s h s' h' ps E|r s h s' ps E|s h s' ps E|cs s h s' ps E
    |r s h s' ps E|s h ps ps' Hp|s h ps ps' Hp|s h h' ps]; cbn in Hs; destruct Hs as [Hd Hw]; cbn.
  - destruct (feed_locked_effect _ _ _ _ _ _ E) as [[-> Hr]|(-> & Ed & E1 & E2 & E3 & Eb)].
    + assert (match r with Ok true => SetData :: ps | _ => ps end = ps) as -> by (by destruct r as [[]|]). auto.
    + split; [intros _; right; by left|]. unfold writable. rewrite E1, E2, E3. intros Hx.
      destruct Eb as [Eb|[Eb Es]]; [by rewrite Eb in Hx; destruct Hx as [?|[?|[?|?]]]|].
      destruct Hx as [Hx|[?|[?|?]]]; try done. rewrite Es. destruct Hw as [?|?]; [left; congruence|by left|right; by right].
  - assert (forall x, x ∈ ps -> x ∈ match r with Ok (BodyStream.TakeChunk _ true) => SetSpace :: ps | _ => ps end) as Hin.
    { intros x Hx. destruct r as [[? []| | |]|]; try done. by right. }
    destruct (read_locked_effect _ _ _ _ _ E) as [(E1 & E2 & Hr & E3 & E4 & E5 & Eb)|[->|[-> Hn]]].
    + rewrite E1, E2. split; [intros _; destruct (Hd Hr); auto|]. unfold writable. rewrite E3, E4, E5. intros Hx.
      destruct Eb as [Eb|[c ->]]; [|right; by left]. rewrite Eb in Hx. destruct (Hw Hx); auto.
    + split; [intros Hx; destruct (Hd Hx)|intros Hx; destruct (Hw Hx)]; auto.
    + split; [intros Hx; exfalso; by apply Hn|]. intros Hx. destruct (Hw Hx); auto.
  - unfold BodyStream.wait_locked, bind, get in E. cbn beta iota in E.
    destruct (bs_cancelled s || bs_closed s || ended s) eqn:Ef; [by injection E as _ <-|].
    destruct (bs_backpressured s) eqn:Eb; cbn [negb] in E; injection E as _ <-; [|done].
    split; [exact Hd|]. unfold writable. cbn. rewrite Eb. apply orb_false_iff in Ef as [[-> ->]%orb_false_iff ->].
    by intros [?|[?|[?|?]]].
  - injection E as <-. split; intros _; right; [by left|right; by left].
  - split; intros _; right; [by left|right; by left].
  - unfold BodyStream.close_locked, bind, get in E. cbn beta iota in E. destruct (bs_closed s).
    + injection E as <- <-. done.
    + cbn in E. injection E as <- <-. split; intros _; right; [by left|right; by left].
  - split; [intros _; by left|]. intros Hx. destruct (Hw Hx) as [?|Hin]; [by left|]. rewrite Hp in Hin.
    apply elem_of_cons in Hin as [?|?]; [done|by right].
  - split; [|intros _; by left]. intros Hx. destruct (Hd Hx) as [?|Hin]; [by left|]. rewrite Hp in Hin.
    apply elem_of_cons in Hin as [?|?]; [done|by right].
  - done.
Qed.

(** C22: no wake-up is lost.  Starting from a fresh stream, after any interleaving of the
    locked sections and of the event sets that follow them outside the lock: if a reader
    could make progress, the event it parks on is set or some thread is about to set it;
    the same holds for a producer and the space event. *)
Theorem no_lost_wakeup mx low high st s h t :
  BodyStream.init mx low high st = Ok s -> rtc bs_section (s, h, []) t ->
  let '(s', _, ps) := t in
  (readable s' -> data_ready s' = true \/ SetData ∈ ps) /\ (writable s' -> space_ready s' = true \/ SetSpace ∈ ps).
Proof.
  intros Hi Ht. assert (signalled (s, h, [])) as H0.
  { revert Hi. unfold BodyStream.init. destruct (mx <? 0); [done|]. cbv zeta. destruct (low <? 0); [done|].
    destruct (low >=? _); [done|]. intros [= <-]. split; [|by left]. unfold readable. cbn. lens.
    intros [?|[?|[?|?]]]; done || lia. }
  assert (signalled t) as H.
  { remember (s, h, []) as t0 eqn:E0. clear E0. induction Ht as [|x y z Hxy Hyz IH]; [done|]. apply IH. by eapply section_signalled. }
  by destruct t as [[s' h'] ps].
Qed.

(** A feed between a reader's decision to wait and its wait. *)
Lemma no_lost_wakeup_witness :
  exists s', data_ready s' = false /\ rtc bs_section (sample_stream, Heap [] [], []) (s', Heap [] [], [SetData]) /\
    (data_ready s' = true \/ SetData ∈ [SetData]).
Proof.
  set (s1 := set_data_ready false sample_stream).
  set (s2 := set_counts 1 0 0 1 (set_chunks [CBytes [97]] s1)).
  assert (rtc bs_section (sample_stream, Heap [] [], []) (s2, Heap [] [], [SetData])) as H.
  { eapply rtc_l; [apply (sec_read (Ok BodyStream.MustWait) sample_stream (Heap [] []) s1 (Heap [] []) []); reflexivity|].
    apply rtc_once. apply (sec_feed (CBytes [97]) (Ok true)). vm_compute. reflexivity. }
  exists s2. split; [reflexivity|]. split; [exact H|].
  apply (no_lost_wakeup 10 1 4 true sample_stream (Heap [] []) _ eq_refl H). left. vm_compute. reflexivity.
Defined.

(** A sign passes for a hexadecimal digit. *)
Example percent_escape_accepts_signs : percent_decode (py "%+a") false = Ok [10].
Proof. vm_compute. reflexivity. Qed.
