(* ===== verification/DnsWire.v ===== *)
(** * DNS wire format and numeric addresses ([pcc_gateway/dns.py], first half)

    Names, queries and responses, and the parsing, normal form and classes of
    numeric addresses.  Reading past the end of a message is the exception the
    source raises.  The theorems are in [DnsWireSpec]. *)

From S2P Require Import Prelude PyStr.
#[local] Open Scope Z_scope.

Definition DNS_A : Z := 1.
Definition DNS_CNAME : Z := 5.
Definition DNS_AAAA : Z := 28.
Definition DNS_CLASS_IN : Z := 1.

Definition dns_error {A} (code message : str) : result A := Raise (DnsError code message).

(** [data[i]] where the source has checked the bound. *)
Definition byte_at (data : bytes) (i : Z) : result Z :=
  match at_ data i with Some b => Ok b | None => Raise IndexError end.

Definition u16 (data : bytes) (offset : Z) : result Z :=
  if offset + 2 >? len data then dns_error (py "truncated") (py "truncated DNS u16")
  else
    let? a := byte_at data offset in
    let? b := byte_at data (offset + 1) in
    Ok (a * 256 + b).

Definition u32 (data : bytes) (offset : Z) : result Z :=
  if offset + 4 >? len data then dns_error (py "truncated") (py "truncated DNS u32")
  else
    let? a := byte_at data offset in
    let? b := byte_at data (offset + 1) in
    let? c := byte_at data (offset + 2) in
    let? d := byte_at data (offset + 3) in
    Ok (a * 16777216 + b * 65536 + c * 256 + d).

(** The two bytes [_put_u16] appends. *)
Definition put_u16 (value : Z) : bytes := [Z.land (Z.shiftr value 8) 255; Z.land value 255].

(** [name.rstrip(".").lower()] *)
Definition canonical_name (name : str) : str := lower (rstrip_dot name).

(** ** Names *)

Definition label_byte (value : Z) : bool :=
  ((48 <=? value) && (value <=? 57)) || ((65 <=? value) && (value <=? 90))
  || ((97 <=? value) && (value <=? 122)) || (value =? 45).

Definition encode_label (label : str) : result bytes :=
  match encode_ascii label with
  | Raise UnicodeError => dns_error (py "bad-name") (py "DNS names must be pre-encoded ASCII")
  | Raise e => Raise e
  | Ok raw =>
      if (len raw =? 0) || (len raw >? 63)
      then dns_error (py "bad-name") (py "DNS label length is invalid")
      else if at_is raw 0 45 || at_is raw (len raw - 1) 45
      then dns_error (py "bad-name") (py "DNS label cannot start or end with hyphen")
      else if negb (forallb label_byte raw)
      then dns_error (py "bad-name") (py "unsupported DNS label byte")
      else Ok (len raw :: raw)
  end.
Fixpoint encode_labels (labels : list str) : result bytes :=
  match labels with
  | [] => Ok []
  | label :: labels' =>
      let? one := encode_label label in
      let? rest := encode_labels labels' in
      Ok (one ++ rest)
  end.
Definition encode_name (name : str) : result bytes :=
  let canonical := canonical_name name in
  if bool_decide (canonical = []) || (len canonical >? 253)
  then dns_error (py "bad-name") (py "DNS name length is invalid")
  else
    let? output := encode_labels (split_char 46 canonical) in
    Ok (output ++ [0]).

(** The [while True] loop of [decode_name]; [next_offset] is -1 until the
    first compression pointer. *)
Fixpoint decode_name_loop (fuel : nat) (data : bytes) (labels : list str) (cursor next_offset jumps : Z)
    (visited : list Z) : result (str * Z) :=
  match fuel with
  | O => Raise out_of_fuel
  | S fuel' =>
      if cursor >=? len data then dns_error (py "truncated") (py "truncated DNS name")
      else
        let? length := byte_at data cursor in
        if Z.land length 0xC0 =? 0xC0 then
          if cursor + 1 >=? len data
          then dns_error (py "truncated") (py "truncated DNS compression pointer")
          else
            let? low := byte_at data (cursor + 1) in
            let pointer := Z.lor (Z.shiftl (Z.land length 0x3F) 8) low in
            if (pointer >=? len data) || bool_decide (pointer ∈ visited)
            then dns_error (py "bad-compression") (py "invalid DNS compression pointer")
            else
              let visited := visited ++ [pointer] in
              let next_offset := if next_offset <? 0 then cursor + 2 else next_offset in
              let jumps := jumps + 1 in
              if jumps >? 32
              then dns_error (py "bad-compression") (py "DNS compression chain too deep")
              else decode_name_loop fuel' data labels pointer next_offset jumps visited
        else if negb (Z.land length 0xC0 =? 0)
        then dns_error (py "bad-label") (py "reserved DNS label encoding")
        else
          let cursor := cursor + 1 in
          if length =? 0 then
            Ok (join (py ".") labels, if next_offset <? 0 then cursor else next_offset)
          else if (length >? 63) || (cursor + length >? len data)
          then dns_error (py "truncated") (py "invalid DNS label length")
          else
            match decode_ascii (slice data cursor (cursor + length)) with
            | Raise UnicodeError => dns_error (py "bad-name") (py "non-ASCII DNS response name")
            | Raise e => Raise e
            | Ok text =>
                decode_name_loop fuel' data (labels ++ [lower text]) (cursor + length)
                  next_offset jumps visited
            end
  end.
(** At most 32 jumps, and between jumps the cursor only moves forward. *)
Definition decode_fuel (data : bytes) : nat := (34 * (length data + 1))%nat.
Definition decode_name (data : bytes) (offset : Z) : result (str * Z) :=
  decode_name_loop (decode_fuel data) data [] offset (-1) 0 [].

(** ** Queries and responses *)

Definition build_query (query_id : Z) (name : str) (qtype : Z) : result bytes :=
  if (query_id <? 0) || (query_id >? 65535) then Raise (ValueError (py "DNS query id must fit u16"))
  else if negb ((qtype =? DNS_A) || (qtype =? DNS_AAAA))
  then Raise (ValueError (py "gateway resolver supports A and AAAA"))
  else
    let? encoded := encode_name name in
    Ok (put_u16 query_id ++ put_u16 0x0100 ++ put_u16 1 ++ put_u16 0 ++ put_u16 0 ++ put_u16 0
          ++ encoded ++ put_u16 qtype ++ put_u16 DNS_CLASS_IN).

Record dns_answer := DnsAnswer {
  an_name : str;
  an_qtype : Z;
  an_data : str;
  an_ttl : Z;
}.
Record dns_response := DnsResponse {
  dr_query_id : Z;
  truncated : bool;
  rcode : Z;
  answers : list dns_answer;
}.

(** [str(payload[i]) + "." + ...] for the four address bytes. *)
Definition ipv4_text (payload : bytes) (i : Z) : result str :=
  let? a := byte_at payload i in
  let? b := byte_at payload (i + 1) in
  let? c := byte_at payload (i + 2) in
  let? d := byte_at payload (i + 3) in
  Ok (str_of_int a ++ py "." ++ str_of_int b ++ py "." ++ str_of_int c ++ py "." ++ str_of_int d).
(** The [while group_index < 8] loop: [n] groups from byte [i]. *)
Fixpoint ipv6_groups (n : nat) (payload : bytes) (i : Z) : result (list str) :=
  match n with
  | O => Ok []
  | S n' =>
      let? a := byte_at payload i in
      let? b := byte_at payload (i + 1) in
      let? rest := ipv6_groups n' payload (i + 2) in
      Ok (hex_of_int (a * 256 + b) :: rest)
  end.

(** One pass of the answer loop: the answer it appends, if any, and the next offset. *)
Definition parse_answer (payload : bytes) (offset : Z) : result (option dns_answer * Z) :=
  let? (owner, offset) := decode_name payload offset in
  let? answer_type := u16 payload offset in
  let? answer_class := u16 payload (offset + 2) in
  let? ttl := u32 payload (offset + 4) in
  let? rdlength := u16 payload (offset + 8) in
  let rdata_offset := offset + 10 in
  let offset := rdata_offset + rdlength in
  if offset >? len payload then dns_error (py "truncated") (py "DNS answer data is truncated")
  else if negb (answer_class =? DNS_CLASS_IN) then Ok (None, offset)
  else if (answer_type =? DNS_A) && (rdlength =? 4) then
    let? address := ipv4_text payload rdata_offset in
    Ok (Some (DnsAnswer owner answer_type address ttl), offset)
  else if (answer_type =? DNS_AAAA) && (rdlength =? 16) then
    let? groups := ipv6_groups 8 payload rdata_offset in
    Ok (Some (DnsAnswer owner answer_type (join (py ":") groups) ttl), offset)
  else if answer_type =? DNS_CNAME then
    let? (cname, cname_end) := decode_name payload rdata_offset in
    if cname_end >? rdata_offset + rdlength
    then dns_error (py "bad-cname") (py "CNAME exceeds its DNS record")
    else Ok (Some (DnsAnswer owner answer_type cname ttl), offset)
  else Ok (None, offset).

Fixpoint parse_answers (n : nat) (payload : bytes) (offset : Z) : result (list dns_answer) :=
  match n with
  | O => Ok []
  | S n' =>
      let? (a, offset) := parse_answer payload offset in
      let? rest := parse_answers n' payload offset in
      Ok (match a with Some a => a :: rest | None => rest end)
  end.

Definition parse_response (payload : bytes) (query_id : Z) (name : str) (qtype : Z) : result dns_response :=
  if len payload <? 12 then dns_error (py "truncated") (py "DNS response header is truncated")
  else
    let? response_id := u16 payload 0 in
    let? flags := u16 payload 2 in
    if negb (response_id =? query_id)
    then dns_error (py "id-mismatch") (py "DNS response id does not match query")
    else if Z.land flags 0x8000 =? 0
    then dns_error (py "not-response") (py "DNS packet is not a response")
    else if negb (Z.land flags 0x7800 =? 0)
    then dns_error (py "bad-opcode") (py "DNS response opcode is not QUERY")
    else
      let truncated := negb (Z.land flags 0x0200 =? 0) in
      let rcode := Z.land flags 15 in
      let? qdcount := u16 payload 4 in
      let? ancount := u16 payload 6 in
      if negb (qdcount =? 1)
      then dns_error (py "question-mismatch") (py "DNS response must echo one question")
      else if ancount >? 256
      then dns_error (py "too-many-answers") (py "DNS answer count exceeds gateway limit")
      else
        let? (question_name, offset) := decode_name payload 12 in
        let? question_type := u16 payload offset in
        let? question_class := u16 payload (offset + 2) in
        let offset := offset + 4 in
        if negb (str_eqb question_name (canonical_name name)) || negb (question_type =? qtype)
           || negb (question_class =? DNS_CLASS_IN)
        then dns_error (py "question-mismatch") (py "DNS echoed question does not match")
        else
          let? answers := parse_answers (Z.to_nat ancount) payload offset in
          Ok (DnsResponse response_id truncated rcode answers).

(** ** Numeric addresses *)

Definition parse_ipv4_part (part : str) : option Z :=
  if bool_decide (part = []) || (len part >? 3) then None
  else if negb (forallb is_digit part) then None
  else
    let number := decimal_value part in
    if number >? 255 then None
    else if (len part >? 1) && at_is part 0 48 then None
    else Some number.
Definition parse_ipv4 (value : str) : option (list Z) :=
  let parts := split_char 46 value in
  if negb (len parts =? 4) then None else mapM parse_ipv4_part parts.

Fixpoint ipv6_piece_go (value : Z) (piece : str) : Z :=
  match piece with
  | [] => value
  | char :: piece' =>
      match hex_char char with
      | Some digit => ipv6_piece_go (value * 16 + digit) piece'
      | None => -1
      end
  end.
Definition parse_ipv6_piece (piece : str) : Z :=
  if bool_decide (piece = []) || (len piece >? 4) then -1 else ipv6_piece_go 0 piece.

Fixpoint side_groups_go (allow_ipv4 : bool) (pieces : list str) : option (list Z) :=
  match pieces with
  | [] => Some []
  | piece :: pieces' =>
      let groups :=
        if char_in 46 piece then
          if negb allow_ipv4 || negb (bool_decide (pieces' = [])) then None
          else match parse_ipv4 piece with
               | Some [a; b; c; d] => Some [a * 256 + b; c * 256 + d]
               | _ => None
               end
        else
          let parsed := parse_ipv6_piece piece in
          if parsed <? 0 then None else Some [parsed] in
      match groups with
      | None => None
      | Some g => match side_groups_go allow_ipv4 pieces' with Some r => Some (g ++ r) | None => None end
      end
  end.
Definition ipv6_side_groups (side : str) (allow_ipv4 : bool) : option (list Z) :=
  if bool_decide (side = []) then Some [] else side_groups_go allow_ipv4 (split_char 58 side).

(** Two bytes per group. *)
Definition group_bytes (groups : list Z) : list Z := concat (map put_u16 groups).

Definition parse_ipv6 (value : str) : option (list Z) :=
  if bool_decide (value = []) || char_in 37 value then None
  else
    let sides := split_str (py "::") value in
    (* value.count("::") is one less than the number of pieces *)
    let groups :=
      match sides with
      | [_] =>
          match ipv6_side_groups value true with
          | Some groups => if negb (len groups =? 8) then None else Some groups
          | None => None
          end
      | [left_text; right_text] =>
          match ipv6_side_groups left_text false, ipv6_side_groups right_text true with
          | Some left_groups, Some right_groups =>
              if len left_groups + len right_groups >=? 8 then None
              else Some (left_groups ++ replicate (8 - length left_groups - length right_groups) 0
                         ++ right_groups)
          | _, _ => None
          end
      | _ => None
      end in
    match groups with
    | Some groups => if negb (len groups =? 8) then None else Some (group_bytes groups)
    | None => None
    end.

Definition ipv4_join (octets : list Z) : str := join (py ".") (map str_of_int octets).
Fixpoint ipv6_texts (octets : list Z) : list str :=
  match octets with
  | a :: b :: rest => hex_of_int (a * 256 + b) :: ipv6_texts rest
  | _ => []
  end.

Definition normalize_numeric_address (value : str) (qtype : Z) : option str :=
  let text := strip value in
  match parse_ipv4 text, (qtype =? 0) || (qtype =? DNS_A) with
  | Some ipv4, true => Some (ipv4_join ipv4)
  | _, _ =>
      match parse_ipv6 text, (qtype =? 0) || (qtype =? DNS_AAAA) with
      | Some ipv6, true => Some (join (py ":") (ipv6_texts ipv6))
      | _, _ => None
      end
  end.

(** The first block of [_address_class], over the octets. *)
Definition ipv4_class (ipv4 : list Z) : str :=
  let first := default 0 (ipv4 !! 0%nat) in
  let second := default 0 (ipv4 !! 1%nat) in
  if first =? 0 then py "unspecified"
  else if first =? 127 then py "loopback"
  else if (first =? 10) || ((first =? 172) && (16 <=? second) && (second <=? 31))
          || ((first =? 192) && (second =? 168)) then py "private"
  else if (first =? 169) && (second =? 254) then py "link-local"
  else if (224 <=? first) && (first <=? 239) then py "multicast"
  else py "public".

(** The source calls itself once, on the text of an embedded IPv4 address. *)
Fixpoint address_class_go (depth : nat) (value : str) : str :=
  match parse_ipv4 value with
  | Some ipv4 => ipv4_class ipv4
  | None =>
      match parse_ipv6 value with
      | None => py "invalid"
      | Some ipv6 =>
          let mapped := forallb (Z.eqb 0) (take 10 ipv6) in
          if mapped && at_is ipv6 10 255 && at_is ipv6 11 255 then
            match depth with
            | O => py "invalid"
            | S depth' => address_class_go depth' (ipv4_join (drop 12 ipv6))
            end
          else if forallb (Z.eqb 0) ipv6 then py "unspecified"
          else if forallb (Z.eqb 0) (take 15 ipv6) && at_is ipv6 15 1 then py "loopback"
          else
            let b0 := default 0 (ipv6 !! 0%nat) in
            let b1 := default 0 (ipv6 !! 1%nat) in
            if Z.land b0 0xFE =? 0xFC then py "private"
            else if (b0 =? 0xFE) && (Z.land b1 0xC0 =? 0x80) then py "link-local"
            else if b0 =? 0xFF then py "multicast"
            else py "public"
      end
  end.
Definition address_class (value : str) : str := address_class_go 1 value.

Example ex_encode : encode_name (py "Ab.c.") = Ok [2; 97; 98; 1; 99; 0].
Proof. vm_compute. reflexivity. Qed.
Example ex_mapped : address_class (py "::ffff:127.0.0.1") = py "loopback".
Proof. vm_compute. reflexivity. Qed.
Example ex_norm6 : normalize_numeric_address (py " 2001:DB8::1 ") 0 = Some (py "2001:db8:0:0:0:0:0:1").
Proof. vm_compute. reflexivity. Qed.
