(* ===== verification/DnsWireSpec.v ===== *)
(** * Properties of the DNS wire format

    Decoding always terminates within its fuel and fails only with [DnsError]; an encoded
    name decodes to its canonical form wherever it stands in a message; the question of a
    query is accepted back by the response parser; and an accepted response answers the
    question that was asked. *)

From S2P Require Import Prelude PyStr PyLists Http1 PyStrFacts Http1Parse Http1Wire DnsWire.
#[local] Open Scope Z_scope.

Definition is_DnsError (e : exn) : Prop := match e with DnsError _ _ => True | _ => False end.
(** The octets of a message. *)
Definition octets (data : bytes) : Prop := Forall (fun b => 0 <= b < 256) data.

(** ** Reading bytes *)

Lemma byte_at_run data i : 0 <= i < len data -> exists b, byte_at data i = Ok b /\ at_ data i = Some b.
Proof. intros Hi. destruct (len_pos_at data i Hi) as [b Hb]. exists b. unfold byte_at. by rewrite Hb. Qed.

Lemma at_octet data i b : octets data -> at_ data i = Some b -> 0 <= b < 256.
Proof.
  intros Ho Hb. pose proof (at_Some _ _ _ Hb). rewrite at_lookup in Hb by lia. unfold octets in Ho.
  rewrite Forall_forall in Ho. apply Ho. by eapply list_elem_of_lookup_2.
Qed.

Lemma u16_spec data off : 0 <= off ->
  match u16 data off with Ok _ => off + 2 <= len data | Raise e => is_DnsError e end.
Proof.
  intros Ho. unfold u16, dns_error. destruct (off + 2 >? len data) eqn:E; [done|]. b2p.
  destruct (byte_at_run data off) as (a & -> & _); [lia|]. destruct (byte_at_run data (off + 1)) as (b & -> & _); [lia|].
  done.
Qed.

Lemma u32_spec data off : 0 <= off ->
  match u32 data off with Ok _ => off + 4 <= len data | Raise e => is_DnsError e end.
Proof.
  intros Ho. unfold u32, dns_error. destruct (off + 4 >? len data) eqn:E; [done|]. b2p.
  destruct (byte_at_run data off) as (a & -> & _); [lia|]. destruct (byte_at_run data (off + 1)) as (b & -> & _); [lia|].
  destruct (byte_at_run data (off + 2)) as (c & -> & _); [lia|]. destruct (byte_at_run data (off + 3)) as (d & -> & _); [lia|].
  done.
Qed.

Lemma u16_nonneg data off n : octets data -> u16 data off = Ok n -> 0 <= n < 65536.
Proof.
  unfold u16, byte_at, dns_error. destruct (_ >? _); [done|]. intros Ho.
  destruct (at_ data off) as [a|] eqn:Ea; [|done]. destruct (at_ data (off + 1)) as [b|] eqn:Eb; [|done].
  cbn [rbind]. intros [= <-]. pose proof (at_octet _ _ _ Ho Ea). pose proof (at_octet _ _ _ Ho Eb). lia.
Qed.

(** ** Names terminate *)

(** Jumps left, then bytes left. *)
Definition decode_measure (data : bytes) (cursor jumps : Z) : Z :=
  (33 - jumps) * (len data + 1) + (len data - cursor).

Definition name_post (data : bytes) (cursor next : Z) (r : result (str * Z)) : Prop :=
  match r with
  | Ok (_, off) => (next < 0 -> cursor < off <= len data) /\ (0 <= next -> off = next)
  | Raise e => is_DnsError e
  end.

Lemma decode_name_loop_total fuel : forall data labels cursor next jumps visited,
  octets data -> 0 <= cursor <= len data -> 0 <= jumps <= 32 -> decode_measure data cursor jumps < Z.of_nat fuel ->
  name_post data cursor next (decode_name_loop fuel data labels cursor next jumps visited).
Proof.
  induction fuel as [|fuel IH]; intros data labels cursor next jumps visited Ho Hc Hj Hm.
  { unfold decode_measure in Hm. pose proof (len_nonneg data). nia. }
  unfold name_post in *. cbn [decode_name_loop]. destruct (cursor >=? len data) eqn:E1; [done|]. b2p.
  destruct (byte_at_run data cursor) as (n & -> & Hat); [lia|]. cbn [rbind].
  pose proof (at_octet _ _ _ Ho Hat) as Hoct.
  destruct (Z.land n 192 =? 192).
  - destruct (cursor + 1 >=? len data) eqn:E2; [done|]. b2p.
    destruct (byte_at_run data (cursor + 1)) as (low & -> & Hlow); [lia|]. cbn [rbind]. cbv zeta.
    set (pointer := Z.lor _ _).
    destruct ((pointer >=? len data) || bool_decide (pointer ∈ visited)) eqn:E3; [done|].
    destruct (jumps + 1 >? 32) eqn:E4; [done|]. b2p.
    assert (0 <= pointer).
    { unfold pointer. apply Z.lor_nonneg. split; [apply Z.shiftl_nonneg, Z.land_nonneg; lia|].
      pose proof (at_octet _ _ _ Ho Hlow). lia. }
    specialize (IH data labels pointer (if next <? 0 then cursor + 2 else next) (jumps + 1) (visited ++ [pointer]) Ho
      ltac:(lia) ltac:(lia) ltac:(unfold decode_measure in *; nia)).
    destruct (decode_name_loop _ _ _ _ _ _ _) as [[nm off]|e]; [|done]. destruct IH as [_ IH].
    destruct (Z.ltb_spec next 0); specialize (IH ltac:(lia)); subst; split; lia.
  - destruct (negb (Z.land n 192 =? 0)); [done|]. cbv zeta. destruct (n =? 0) eqn:E2.
    + destruct (Z.ltb_spec next 0); split; lia.
    + destruct ((n >? 63) || (cursor + 1 + n >? len data)) eqn:E3; [done|]. b2p. unfold decode_ascii.
      destruct (encode_below 128 _) as [text|e] eqn:Ee.
      2:{ unfold encode_below in Ee. destruct (forallb _ _); [done|]. injection Ee as <-. done. }
      specialize (IH data (labels ++ [lower text]) (cursor + 1 + n) next jumps visited Ho ltac:(lia) Hj
        ltac:(unfold decode_measure in *; nia)).
      destruct (decode_name_loop _ _ _ _ _ _ _) as [[nm off]|e]; [|done]. destruct IH as [IH1 IH2].
      split; [intros Hn; specialize (IH1 Hn); lia|done].
Qed.

Lemma decode_name_total data off :
  octets data -> 0 <= off <= len data ->
  match decode_name data off with
  | Ok (_, next) => off < next <= len data
  | Raise e => is_DnsError e
  end.
Proof.
  intros Ho Hoff. pose proof (decode_name_loop_total (decode_fuel data) data [] off (-1) 0 [] Ho Hoff ltac:(lia)) as H.
  unfold decode_name, name_post in *. destruct (decode_name_loop _ _ _ _ _ _ _) as [[nm next]|e].
  - apply H; [|lia]. unfold decode_measure, decode_fuel, len. nia.
  - apply H. unfold decode_measure, decode_fuel, len. nia.
Qed.

(** ** Responses terminate *)

Lemma ipv4_text_total data i : 0 <= i -> i + 4 <= len data -> exists s, ipv4_text data i = Ok s.
Proof.
  intros Hi Hl. unfold ipv4_text. destruct (byte_at_run data i) as (a & -> & _); [lia|].
  destruct (byte_at_run data (i + 1)) as (b & -> & _); [lia|]. destruct (byte_at_run data (i + 2)) as (c & -> & _); [lia|].
  destruct (byte_at_run data (i + 3)) as (d & -> & _); [lia|]. by eexists.
Qed.

Lemma ipv6_groups_total n : forall data i, 0 <= i -> i + 2 * Z.of_nat n <= len data ->
  exists gs, ipv6_groups n data i = Ok gs.
Proof.
  induction n as [|n IH]; intros data i Hi Hl; [by eexists|]. cbn [ipv6_groups].
  destruct (byte_at_run data i) as (a & -> & _); [lia|]. destruct (byte_at_run data (i + 1)) as (b & -> & _); [lia|].
  destruct (IH data (i + 2)) as [gs ->]; [lia|lia|]. by eexists.
Qed.

Lemma parse_answer_total data off :
  octets data -> 0 <= off <= len data ->
  match parse_answer data off with
  | Ok (_, next) => off < next <= len data
  | Raise e => is_DnsError e
  end.
Proof.
  intros Ho Hoff. unfold parse_answer. pose proof (decode_name_total data off Ho Hoff) as Hn.
  destruct (decode_name data off) as [[owner o1]|e]; cbn [rbind]; [|done].
  pose proof (u16_spec data o1 ltac:(lia)) as H1. destruct (u16 data o1) as [ty|e]; cbn [rbind]; [|done].
  pose proof (u16_spec data (o1 + 2) ltac:(lia)) as H2. destruct (u16 data (o1 + 2)) as [cl|e]; cbn [rbind]; [|done].
  pose proof (u32_spec data (o1 + 4) ltac:(lia)) as H3. destruct (u32 data (o1 + 4)) as [ttl|e]; cbn [rbind]; [|done].
  pose proof (u16_spec data (o1 + 8) ltac:(lia)) as H4. destruct (u16 data (o1 + 8)) as [rd|e] eqn:Erd; cbn [rbind]; [|done].
  pose proof (u16_nonneg _ _ _ Ho Erd) as Hrd. cbv zeta.
  destruct (o1 + 10 + rd >? len data) eqn:E1; [done|]. b2p. destruct (negb (cl =? DNS_CLASS_IN)); [lia|].
  destruct ((ty =? DNS_A) && (rd =? 4)) eqn:E2.
  { b2p. destruct (ipv4_text_total data (o1 + 10)) as [s ->]; [lia|lia|]. cbn [rbind]. lia. }
  destruct ((ty =? DNS_AAAA) && (rd =? 16)) eqn:E3.
  { b2p. destruct (ipv6_groups_total 8 data (o1 + 10)) as [gs ->]; [lia|lia|]. cbn [rbind]. lia. }
  destruct (ty =? DNS_CNAME); [|lia]. pose proof (decode_name_total data (o1 + 10) Ho ltac:(lia)) as Hc.
  destruct (decode_name data (o1 + 10)) as [[cn ce]|e]; cbn [rbind]; [|done]. destruct (ce >? _); [done|lia].
Qed.

Lemma parse_answers_total n : forall data off,
  octets data -> 0 <= off <= len data ->
  match parse_answers n data off with Ok l => len l <= Z.of_nat n | Raise e => is_DnsError e end.
Proof.
  induction n as [|n IH]; intros data off Ho Hoff; cbn [parse_answers]; [done|].
  pose proof (parse_answer_total data off Ho Hoff) as Ha. destruct (parse_answer data off) as [[a next]|e]; cbn [rbind]; [|done].
  specialize (IH data next Ho ltac:(lia)). destruct (parse_answers n data next) as [l|e]; cbn [rbind]; [|done].
  destruct a; lens; lia.
Qed.

Lemma parse_response_spec payload id name qtype :
  octets payload ->
  match parse_response payload id name qtype with
  | Ok r => dr_query_id r = id /\ len (answers r) <= 256 /\
            exists next, decode_name payload 12 = Ok (canonical_name name, next) /\
              u16 payload next = Ok qtype /\ u16 payload (next + 2) = Ok DNS_CLASS_IN
  | Raise e => is_DnsError e
  end.
Proof.
  intros Ho. unfold parse_response. destruct (len payload <? 12) eqn:El; [done|]. b2p.
  pose proof (u16_spec payload 0 ltac:(lia)). destruct (u16 payload 0) as [rid|e]; cbn [rbind]; [|done].
  pose proof (u16_spec payload 2 ltac:(lia)). destruct (u16 payload 2) as [flags|e]; cbn [rbind]; [|done].
  destruct (negb (rid =? id)) eqn:Eid; [done|]. destruct (Z.land flags 0x8000 =? 0); [done|].
  destruct (negb (Z.land flags 0x7800 =? 0)); [done|]. cbv zeta.
  pose proof (u16_spec payload 4 ltac:(lia)). destruct (u16 payload 4) as [qd|e]; cbn [rbind]; [|done].
  pose proof (u16_spec payload 6 ltac:(lia)). destruct (u16 payload 6) as [an|e] eqn:Ean; cbn [rbind]; [|done].
  pose proof (u16_nonneg _ _ _ Ho Ean). destruct (negb (qd =? 1)); [done|]. destruct (an >? 256) eqn:E256; [done|]. b2p.
  pose proof (decode_name_total payload 12 Ho ltac:(lia)) as Hn.
  destruct (decode_name payload 12) as [[qn off]|e]; cbn [rbind]; [|done].
  pose proof (u16_spec payload off ltac:(lia)) as Hq1. destruct (u16 payload off) as [qt|e] eqn:Eqt; cbn [rbind]; [|done].
  pose proof (u16_spec payload (off + 2) ltac:(lia)) as Hq2. destruct (u16 payload (off + 2)) as [qc|e] eqn:Eqc; cbn [rbind]; [|done].
  destruct (negb (str_eqb qn (canonical_name name)) || negb (qt =? qtype) || negb (qc =? DNS_CLASS_IN)) eqn:Eq; [done|]. b2p.
  pose proof (parse_answers_total (Z.to_nat an) payload (off + 4) Ho ltac:(lia)) as Ha.
  destruct (parse_answers _ _ _) as [l|e]; cbn [rbind]; [|done]. cbn [dr_query_id answers]. subst. split_and!; [done|lia|].
  by exists off.
Qed.

Lemma parse_response_raises payload id name qtype :
  octets payload -> match parse_response payload id name qtype with Ok _ => True | Raise e => is_DnsError e end.
Proof. intros Ho. pose proof (parse_response_spec payload id name qtype Ho). by destruct (parse_response _ _ _ _). Qed.

(** C26: the response parser is total and strict.  On any message it terminates, raises
    nothing but [DnsError], and what it accepts is a response to this query: the identifier
    is the query's, at most 256 answers were read, and the echoed question decodes to
    the canonical queried name. *)
Theorem parse_response_total payload id name qtype :
  octets payload ->
  match parse_response payload id name qtype with
  | Ok r => dr_query_id r = id /\ len (answers r) <= 256 /\
            exists next, decode_name payload 12 = Ok (canonical_name name, next) /\
              u16 payload next = Ok qtype /\ u16 payload (next + 2) = Ok DNS_CLASS_IN
  | Raise e => is_DnsError e
  end.
Proof. apply parse_response_spec. Qed.

(** ** Reading what stands at an offset *)

Definition found (data : bytes) (i : Z) (bs : bytes) : Prop :=
  exists pre suf, data = pre ++ bs ++ suf /\ len pre = i.

Lemma found_split data i a b : found data i (a ++ b) -> found data i a /\ found data (i + len a) b.
Proof.
  intros (pre & suf & -> & <-). split.
  - exists pre, (b ++ suf). by rewrite <- !app_assoc.
  - exists (pre ++ a), suf. rewrite <- !app_assoc. split; [done|]. by rewrite len_app.
Qed.

Lemma found_bounds data i bs : found data i bs -> 0 <= i /\ i + len bs <= len data.
Proof. intros (pre & suf & -> & <-). lens. pose proof (len_nonneg pre). pose proof (len_nonneg suf). lia. Qed.

Lemma found_at data i x bs : found data i (x :: bs) -> byte_at data i = Ok x.
Proof.
  intros (pre & suf & -> & <-). unfold byte_at. rewrite at_lookup by done.
  unfold len. rewrite Nat2Z.id. cbn [app]. by rewrite list_lookup_middle.
Qed.

Lemma found_next data i x bs : found data i (x :: bs) -> found data (i + 1) bs.
Proof. intros H. by apply (found_split data i [x] bs) in H as [_ H]. Qed.

Lemma found_eq data i j bs : found data i bs -> i = j -> found data j bs.
Proof. by intros H <-. Qed.

Lemma found_slice data i bs : found data i bs -> slice data i (i + len bs) = bs.
Proof.
  intros (pre & suf & -> & <-). unfold slice, len.
  rewrite Nat2Z.id, drop_app_length. replace (Z.to_nat _) with (length bs) by lia. by rewrite take_app_length.
Qed.

Lemma put_u16_value v : 0 <= v < 65536 -> exists a b, put_u16 v = [a; b] /\ a * 256 + b = v.
Proof.
  intros Hv. exists (Z.land (Z.shiftr v 8) 255), (Z.land v 255). split; [done|].
  change 255 with (Z.ones 8). rewrite !Z.land_ones, Z.shiftr_div_pow2 by lia. change (2 ^ 8) with 256.
  rewrite (Z.mod_small (v / 256)) by (split; [apply Z.div_pos; lia|apply Z.div_lt_upper_bound; lia]).
  pose proof (Z.div_mod v 256). lia.
Qed.

Lemma u16_found data i v : 0 <= v < 65536 -> found data i (put_u16 v) -> u16 data i = Ok v.
Proof.
  intros Hv Hf. destruct (put_u16_value v Hv) as (a & b & E & Eq). rewrite E in Hf.
  pose proof (found_bounds _ _ _ Hf). lens. unfold u16. zdec.
  rewrite (found_at _ _ _ _ Hf), (found_at _ _ _ _ (found_next _ _ _ _ Hf)). cbn [rbind]. by rewrite Eq.
Qed.

Definition put_u32 (v : Z) : bytes := put_u16 (v / 65536) ++ put_u16 (v mod 65536).

Lemma u32_found data i v : 0 <= v < 2 ^ 32 -> found data i (put_u32 v) -> u32 data i = Ok v.
Proof.
  intros Hv Hf. pose proof (Z.div_mod v 65536 ltac:(lia)). pose proof (Z.mod_pos_bound v 65536 ltac:(lia)).
  destruct (put_u16_value (v / 65536)) as (a & b & E1 & Eq1); [lia|].
  destruct (put_u16_value (v mod 65536)) as (c & d & E2 & Eq2); [lia|].
  unfold put_u32 in Hf. rewrite E1, E2 in Hf. cbn [app] in Hf. pose proof (found_bounds _ _ _ Hf). lens. unfold u32. zdec.
  pose proof (found_next _ _ _ _ Hf) as G1. pose proof (found_next _ _ _ _ G1) as G2. pose proof (found_next _ _ _ _ G2) as G3.
  replace (i + 2) with (i + 1 + 1) by lia. replace (i + 3) with (i + 1 + 1 + 1) by lia.
  rewrite (found_at _ _ _ _ Hf), (found_at _ _ _ _ G1), (found_at _ _ _ _ G2), (found_at _ _ _ _ G3).
  cbn [rbind]. f_equal. lia.
Qed.

(** ** Encoded names decode *)

Lemma canonical_labels name : Forall (fun w => lower w = w) (split_char 46 (canonical_name name)).
Proof.
  eapply Forall_impl; [apply (split_char_Forall (fun c => lower_char c = c))|apply lower_fixed].
  apply Forall_map, Forall_true. intros c. apply lower_char_idem.
Qed.

Lemma encode_label_inv w bs : encode_label w = Ok bs ->
  bs = len w :: w /\ 0 < len w <= 63 /\ Forall (fun c => c < 128) w.
Proof.
  unfold encode_label, encode_ascii. destruct (encode_below 128 w) as [raw|e] eqn:E.
  2:{ unfold encode_below in E. destruct (forallb _ _); [done|]. by injection E as <-. }
  apply encode_below_inv in E as [-> Hlt]. destruct ((len w =? 0) || (len w >? 63)) eqn:E1; [done|].
  destruct (at_is w 0 45 || _); [done|]. destruct (negb _); [done|]. intros [= <-]. b2p. pose proof (len_nonneg w). split_and!; try done; lia.
Qed.

Lemma label_bits n : 0 <= n <= 63 -> Z.land n 192 = 0.
Proof.
  intros Hn. apply Z.bits_inj'. intros k Hk. rewrite Z.land_spec, Z.bits_0.
  destruct (Z.ltb_spec k 6).
  - assert (k = 0 \/ k = 1 \/ k = 2 \/ k = 3 \/ k = 4 \/ k = 5) as Hc by lia.
    destruct Hc as [-> | [-> | [-> | [-> | [-> | ->]]]]]; apply andb_false_r.
  - rewrite (Z.bits_above_log2 n k); [done|lia|]. destruct (Z.eq_dec n 0) as [->|]; [cbn; lia|].
    apply Z.log2_lt_pow2; [lia|]. pose proof (Z.pow_le_mono_r 2 6 k). lia.
Qed.

Lemma decode_labels ws : forall bs data i acc next jumps visited fuel,
  encode_labels ws = Ok bs -> Forall (fun w => lower w = w) ws -> found data i (bs ++ [0]) -> (length ws < fuel)%nat ->
  decode_name_loop fuel data acc i next jumps visited =
  Ok (join (py ".") (acc ++ ws), if next <? 0 then i + len bs + 1 else next).
Proof.
  induction ws as [|w ws IH]; intros bs data i acc next jumps visited [|fuel] He Hl Hf Hfuel; try (cbn in Hfuel; lia).
  - injection He as <-. cbn [app] in Hf. pose proof (found_bounds _ _ _ Hf). lens. cbn [decode_name_loop]. zdec.
    rewrite (found_at _ _ _ _ Hf). cbn [rbind]. rewrite label_bits by lia. cbn. rewrite app_nil_r.
    destruct (next <? 0); [do 2 f_equal; lia|done].
  - cbn [encode_labels] in He. destruct (encode_label w) as [one|e] eqn:E1; [|done]. cbn [rbind] in He.
    destruct (encode_labels ws) as [rest|e] eqn:E2; [|done]. injection He as <-.
    apply encode_label_inv in E1 as (-> & Hw & Hasc). apply Forall_cons in Hl as [Hlow Hl]. cbn [app] in Hf.
    pose proof (found_bounds _ _ _ Hf). pose proof (found_at _ _ _ _ Hf) as Hn. apply found_next in Hf.
    rewrite <- app_assoc in Hf. apply found_split in Hf as [Hfw Hfr]. lens. pose proof (len_nonneg rest).
    cbn [decode_name_loop]. zdec. rewrite Hn. cbn [rbind]. rewrite label_bits by lia. cbn [Z.eqb negb]. cbv zeta. zdec.
    rewrite (found_slice _ _ _ Hfw). unfold decode_ascii. rewrite (encode_below_ok 128 w Hasc), Hlow.
    rewrite (IH rest) by (done || (cbn in Hfuel; lia)). rewrite <- app_assoc. cbn [app].
    destruct (next <? 0); [do 2 f_equal; lia|done].
Qed.

Lemma encode_labels_length ws : forall bs, encode_labels ws = Ok bs -> (2 * length ws <= length bs)%nat.
Proof.
  induction ws as [|w ws IH]; intros bs; cbn [encode_labels]; [cbn; lia|].
  destruct (encode_label w) as [one|e] eqn:E1; [|done]. cbn [rbind].
  destruct (encode_labels ws) as [rest|e]; [|done]. intros [= <-]. apply encode_label_inv in E1 as (-> & Hw & _).
  specialize (IH rest eq_refl). rewrite length_app. unfold len in Hw. cbn [length]. lia.
Qed.

Lemma encode_name_inv name bs : encode_name name = Ok bs ->
  exists out, bs = out ++ [0] /\ encode_labels (split_char 46 (canonical_name name)) = Ok out.
Proof.
  unfold encode_name. cbv zeta. destruct (_ || _); [done|]. destruct (encode_labels _) as [out|e]; [|done].
  intros [= <-]. by exists out.
Qed.

(** The decoder's loop, entered at an encoded name from anywhere in the message. *)
Lemma decode_encoded name bs data i next jumps visited fuel :
  encode_name name = Ok bs -> found data i bs -> (length data <= fuel)%nat ->
  decode_name_loop fuel data [] i next jumps visited = Ok (canonical_name name, if next <? 0 then i + len bs else next).
Proof.
  intros (out & -> & He)%encode_name_inv Hf Hfuel. pose proof (encode_labels_length _ _ He).
  pose proof (found_bounds _ _ _ Hf) as [? Hb]. unfold len in Hb. rewrite length_app in Hb. cbn [length] in Hb.
  rewrite (decode_labels _ out) by first [done | apply canonical_labels | lia]. cbn [app].
  change (py ".") with [46]. rewrite join_split. lens. destruct (next <? 0); [do 2 f_equal; lia|done].
Qed.

(** Encoding then decoding a name gives its canonical form back, wherever the encoded
    name stands in the message and whatever surrounds it, and leaves the reader right after
    it. *)
Theorem name_roundtrip name bs pre suf :
  encode_name name = Ok bs ->
  decode_name (pre ++ bs ++ suf) (len pre) = Ok (canonical_name name, len pre + len bs).
Proof.
  intros He. unfold decode_name. rewrite (decode_encoded name bs) by (done || (by exists pre, suf) || (unfold decode_fuel; lia)).
  done.
Qed.

(** ** A server's answer *)

(** Compressed address records: an owner that points at the question, a time to live and
    four octets. *)
Definition a_record : Type := Z * (Z * Z * Z * Z).
Definition octet (b : Z) : Prop := 0 <= b < 256.
Definition a_record_ok (r : a_record) : Prop :=
  let '(ttl, (a, b, c, d)) := r in 0 <= ttl < 2 ^ 32 /\ octet a /\ octet b /\ octet c /\ octet d.
Definition a_record_wire (r : a_record) : bytes :=
  let '(ttl, (a, b, c, d)) := r in
  [192; 12] ++ put_u16 DNS_A ++ put_u16 DNS_CLASS_IN ++ put_u32 ttl ++ put_u16 4 ++ [a; b; c; d].
Definition a_record_answer (name : str) (r : a_record) : dns_answer :=
  let '(ttl, (a, b, c, d)) := r in DnsAnswer (canonical_name name) DNS_A (ipv4_join [a; b; c; d]) ttl.
(** The reply that keeps the query's identifier and question. *)
Definition a_reply (query : bytes) (rs : list a_record) : bytes :=
  upto query 2 ++ put_u16 0x8180 ++ put_u16 1 ++ put_u16 (len rs) ++ put_u16 0 ++ put_u16 0
    ++ from query 12 ++ concat (map a_record_wire rs).

Lemma ipv4_text_found data i a b c d :
  found data i [a; b; c; d] -> ipv4_text data i = Ok (ipv4_join [a; b; c; d]).
Proof.
  intros G0. pose proof (found_next _ _ _ _ G0) as G1. pose proof (found_next _ _ _ _ G1) as G2.
  pose proof (found_next _ _ _ _ G2) as G3. unfold ipv4_text.
  replace (i + 2) with (i + 1 + 1) by lia. replace (i + 3) with (i + 1 + 1 + 1) by lia.
  rewrite (found_at _ _ _ _ G0), (found_at _ _ _ _ G1), (found_at _ _ _ _ G2), (found_at _ _ _ _ G3). done.
Qed.

(** A pointer to the question reads the question's name and costs two bytes. *)
Lemma decode_pointer name bs data i :
  encode_name name = Ok bs -> found data 12 bs -> found data i [192; 12] ->
  decode_name data i = Ok (canonical_name name, i + 2).
Proof.
  intros He Hq Hp. pose proof (found_bounds _ _ _ Hp). pose proof (found_bounds _ _ _ Hq). lens.
  apply encode_name_inv in He as He'. destruct He' as (out & -> & _). lens. pose proof (len_nonneg out).
  unfold decode_name. assert (decode_fuel data = S (pred (decode_fuel data))) as -> by (unfold decode_fuel; lia).
  cbn [decode_name_loop]. zdec. rewrite (found_at _ _ _ _ Hp). cbn [rbind]. change (Z.land 192 192 =? 192) with true. cbv iota.
  zdec. rewrite (found_at _ _ _ _ (found_next _ _ _ _ Hp)). cbn [rbind].
  change (Z.lor (Z.shiftl (Z.land 192 63) 8) 12) with 12. zdec. change (bool_decide (12 ∈ [])) with false. cbn [orb]. cbv iota.
  rewrite (decode_encoded name (out ++ [0])) by (done || (unfold decode_fuel; lia)). by zdec.
Qed.

Lemma parse_a_record name bs data i r :
  encode_name name = Ok bs -> found data 12 bs -> a_record_ok r -> found data i (a_record_wire r) ->
  parse_answer data i = Ok (Some (a_record_answer name r), i + 16).
Proof.
  destruct r as [ttl [[[a b] c] d]]. intros He Hq (Ht & _) Hf. unfold a_record_wire in Hf.
  pose proof (found_bounds _ _ _ Hf) as [_ Hb].
  apply found_split in Hf as [Fp Hf]. apply found_split in Hf as [Ft Hf]. apply found_split in Hf as [Fc Hf].
  apply found_split in Hf as [Fl Hf]. apply found_split in Hf as [Fr Fd].
  unfold put_u32, put_u16 in Fc, Fl, Fr, Fd, Hb. lens. rewrite <- !Z.add_assoc in *.
  unfold parse_answer. rewrite (decode_pointer name bs) by done. cbn [rbind].
  rewrite (u16_found _ _ DNS_A) by done. cbn [rbind]. rewrite <- !Z.add_assoc.
  rewrite (u16_found _ _ DNS_CLASS_IN), (u32_found _ _ ttl), (u16_found _ _ 4) by done. cbn [rbind]. cbv zeta.
  zdec. change (negb (DNS_CLASS_IN =? DNS_CLASS_IN)) with false. change ((DNS_A =? DNS_A) && (4 =? 4)) with true. cbv iota.
  rewrite (ipv4_text_found _ _ a b c d) by done. cbn [rbind a_record_answer]. do 2 f_equal. lia.
Qed.

Lemma parse_a_records name bs data rs : forall i,
  encode_name name = Ok bs -> found data 12 bs -> Forall a_record_ok rs -> found data i (concat (map a_record_wire rs)) ->
  parse_answers (length rs) data i = Ok (map (a_record_answer name) rs).
Proof.
  induction rs as [|r rs IH]; intros i He Hq Hok Hf; [done|]. apply Forall_cons in Hok as [Hr Hok].
  cbn [map concat] in Hf. apply found_split in Hf as [Hf Hfs]. cbn [length parse_answers map].
  rewrite (parse_a_record name bs data i r) by done. cbn [rbind]. replace (i + 16) with (i + len (a_record_wire r)).
  - by rewrite (IH _ He Hq Hok Hfs).
  - destruct r as [ttl [[[a b] c] d]]. done.
Qed.

(** C25: queries and replies fit together.  A server's reply to a query that the encoder
    built, with any compressed address records, is accepted for that query and yields
    exactly those addresses with their times to live, in order. *)
Theorem query_answered query id name rs :
  build_query id name DNS_A = Ok query -> Forall a_record_ok rs -> len rs <= 256 ->
  parse_response (a_reply query rs) id name DNS_A = Ok (DnsResponse id false 0 (map (a_record_answer name) rs)).
Proof.
  unfold build_query. destruct ((id <? 0) || _) eqn:Eid; [done|]. cbn [negb orb Z.eqb]. change (negb _) with false. cbv iota.
  destruct (encode_name name) as [bs|e] eqn:He; [|done]. cbn [rbind]. intros [= <-] Hok Hlen. b2p. pose proof (len_nonneg rs).
  set (reply := a_reply _ _).
  assert (found reply 0 reply) as Hf by (exists [], []; by rewrite app_nil_r). pose proof (found_bounds _ _ _ Hf) as [_ Hb].
  unfold reply at 2 in Hf. unfold a_reply in Hf.
  change (upto _ 2) with (put_u16 id) in Hf. change (from _ 12) with (bs ++ put_u16 DNS_A ++ put_u16 DNS_CLASS_IN) in Hf.
  rewrite <- !app_assoc in Hf.
  apply found_split in Hf as [Fid Hf]. apply found_split in Hf as [Ffl Hf]. apply found_split in Hf as [Fqd Hf].
  apply found_split in Hf as [Fan Hf]. apply found_split in Hf as [_ Hf]. apply found_split in Hf as [_ Hf].
  apply found_split in Hf as [Fq Hf]. apply found_split in Hf as [Ft Hf]. apply found_split in Hf as [Fc Fr].
  change (len (put_u16 _)) with 2 in *. rewrite Z.add_0_l in *.
  apply (found_eq _ _ 12) in Fq; [|lia]. apply (found_eq _ _ (12 + len bs)) in Ft; [|lia].
  apply (found_eq _ _ (12 + len bs + 2)) in Fc; [|lia]. apply (found_eq _ _ (12 + len bs + 4)) in Fr; [|lia].
  pose proof (found_bounds _ _ _ Fq) as [_ Hl]. pose proof (len_nonneg bs).
  assert (decode_name reply 12 = Ok (canonical_name name, 12 + len bs)) as Hn.
  { unfold decode_name. by rewrite (decode_encoded name bs) by (done || (unfold decode_fuel; lia)). }
  assert (parse_answers (Z.to_nat (len rs)) reply (12 + len bs + 4) = Ok (map (a_record_answer name) rs)) as Hrs.
  { unfold len at 1. rewrite Nat2Z.id. by rewrite (parse_a_records name bs). }
  unfold parse_response. zdec.
  rewrite (u16_found _ 0 id), (u16_found _ 2 0x8180), (u16_found _ 4 1), (u16_found _ 6 (len rs)) by (done || lia).
  cbn [rbind]. zdec. change (Z.land 33152 32768 =? 0) with false. change (Z.land 33152 30720 =? 0) with true.
  cbn [negb]. cbv iota. zdec. rewrite Hn. cbn [rbind].
  rewrite (u16_found _ (12 + len bs) DNS_A), (u16_found _ (12 + len bs + 2) DNS_CLASS_IN) by done. cbn [rbind].
  unfold str_eqb. rewrite bool_decide_eq_true_2 by done. rewrite !Z.eqb_refl. cbn [negb orb]. cbv iota. by rewrite Hrs.
Qed.

(** ** Concrete runs *)

Definition sample_query : bytes :=
  [4; 210; 1; 0; 0; 1; 0; 0; 0; 0; 0; 0; 1; 97; 2; 100; 98; 0; 0; 1; 0; 1].
Definition sample_records : list a_record := [(300, (192, 0, 2, 7)); (60, (10, 0, 0, 1))].

Lemma parse_response_total_witness :
  octets (a_reply sample_query sample_records) /\
  match parse_response (a_reply sample_query sample_records) 1234 (py "A.db.") DNS_A with
  | Ok r => dr_query_id r = 1234 /\ len (answers r) <= 256 /\
            exists next, decode_name (a_reply sample_query sample_records) 12 = Ok (canonical_name (py "A.db."), next) /\
              u16 (a_reply sample_query sample_records) next = Ok DNS_A /\
              u16 (a_reply sample_query sample_records) (next + 2) = Ok DNS_CLASS_IN
  | Raise e => is_DnsError e
  end.
Proof.
  assert (octets (a_reply sample_query sample_records)) as Ho.
  { unfold octets. vm_compute a_reply. repeat constructor; lia. }
  split; [exact Ho|]. exact (parse_response_total _ 1234 (py "A.db.") DNS_A Ho).
Defined.

Lemma name_roundtrip_witness :
  encode_name (py "A.db.") = Ok [1; 97; 2; 100; 98; 0] /\
  decode_name ([9; 9] ++ [1; 97; 2; 100; 98; 0] ++ [7]) 2 = Ok (py "a.db", 8).
Proof.
  assert (encode_name (py "A.db.") = Ok [1; 97; 2; 100; 98; 0]) as He by reflexivity.
  split; [exact He|]. exact (name_roundtrip (py "A.db.") _ [9; 9] [7] He).
Defined.

Lemma query_answered_witness :
  build_query 1234 (py "A.db.") DNS_A = Ok sample_query /\
  parse_response (a_reply sample_query sample_records) 1234 (py "A.db.") DNS_A
  = Ok (DnsResponse 1234 false 0
      [DnsAnswer (py "a.db") DNS_A (py "192.0.2.7") 300; DnsAnswer (py "a.db") DNS_A (py "10.0.0.1") 60]).
Proof.
  assert (build_query 1234 (py "A.db.") DNS_A = Ok sample_query) as Hq by reflexivity.
  split; [exact Hq|]. apply (query_answered sample_query 1234 (py "A.db.") sample_records Hq).
  - unfold sample_records, a_record_ok, octet. repeat constructor; lia.
  - vm_compute. discriminate.
Defined.
