(* ===== verification/DnsPolicy.v ===== *)
(** * Address policy, hosts table and cache ([pcc_gateway/dns.py], second part)

    The state each keeps is a record or a finite map keyed by (name, type); a
    method is a function over it.  The theorems are in [DnsPolicySpec]. *)

From S2P Require Import Prelude PyStr DnsWire.
#[local] Open Scope Z_scope.

Abbreviation dns_key := (list Z * Z)%type (only parsing).

(** ** [DnsAddressPolicy] *)

Record dns_policy := DnsAddressPolicy {
  allow_private : bool;
  allow_loopback : bool;
  allow_link_local : bool;
  allow_multicast : bool;
  allow_unspecified : bool;
  rebind_mode : str;
  policy_bindings : gmap (list Z * Z) (list str * list str);
}.

Module DnsAddressPolicy.

Definition init (allow_private allow_loopback allow_link_local allow_multicast allow_unspecified : bool)
    (rebind_mode : str) : result dns_policy :=
  if negb (str_in rebind_mode [py "allow"; py "same-class"; py "pin"])
  then Raise (ValueError (py "invalid DNS rebinding mode"))
  else Ok (DnsAddressPolicy allow_private allow_loopback allow_link_local allow_multicast
             allow_unspecified rebind_mode ∅).
Definition default_policy : dns_policy :=
  DnsAddressPolicy true true false false false (py "same-class") ∅.

(** The special-class tests, in the source's order. *)
Definition check_class (p : dns_policy) (kind : str) : result unit :=
  if str_eqb kind (py "private") && negb (allow_private p)
  then dns_error (py "address-policy-private") (py "private DNS address rejected")
  else if str_eqb kind (py "loopback") && negb (allow_loopback p)
  then dns_error (py "address-policy-loopback") (py "loopback DNS address rejected")
  else if str_eqb kind (py "link-local") && negb (allow_link_local p)
  then dns_error (py "address-policy-link-local") (py "link-local DNS address rejected")
  else if str_eqb kind (py "multicast") && negb (allow_multicast p)
  then dns_error (py "address-policy-multicast") (py "multicast DNS address rejected")
  else if str_eqb kind (py "unspecified") && negb (allow_unspecified p)
  then dns_error (py "address-policy-unspecified") (py "unspecified DNS address rejected")
  else Ok tt.

(** The loop over the resolver's values: canonical addresses and their classes. *)
Fixpoint accept_loop (p : dns_policy) (qtype : Z) (values canonical classes : list str)
    : result (list str * list str) :=
  match values with
  | [] => Ok (canonical, classes)
  | value :: values' =>
      match normalize_numeric_address value qtype with
      | None => dns_error (py "address-policy") (py "resolver returned a non-address value")
      | Some normalized =>
          let kind := address_class normalized in
          let? _ := check_class p kind in
          if str_in normalized canonical then accept_loop p qtype values' canonical classes
          else accept_loop p qtype values' (canonical ++ [normalized])
                 (if str_in kind classes then classes else classes ++ [kind])
      end
  end.

Definition rebinding {A} (message : str) : result A := dns_error (py "dns-rebinding") message.

(** The section under the policy's lock. *)
Definition check_binding (p : dns_policy) (key : dns_key) (current_values current_classes : list str)
    : result dns_policy :=
  let previous := policy_bindings p !! key in
  let? _ :=
    match previous with
    | Some (values, classes) =>
        if str_eqb (rebind_mode p) (py "pin") && negb (bool_decide (values = current_values))
        then rebinding (py "DNS address set changed under pin policy")
        else if str_eqb (rebind_mode p) (py "same-class")
                && negb (bool_decide (classes = current_classes))
        then rebinding (py "DNS address class changed")
        else Ok tt
    | None => Ok tt
    end in
  if bool_decide (previous = None) || negb (str_eqb (rebind_mode p) (py "allow"))
  then Ok (DnsAddressPolicy (allow_private p) (allow_loopback p) (allow_link_local p)
             (allow_multicast p) (allow_unspecified p) (rebind_mode p)
             (<[key := (current_values, current_classes)]> (policy_bindings p)))
  else Ok p.

Definition accept (name : str) (values : list str) (qtype : Z) : M dns_policy (list str) :=
  let! p := get in
  let! (canonical, classes) := lift (accept_loop p qtype values [] []) in
  match canonical with
  | [] => ret canonical
  | _ =>
      let! p' := lift (check_binding p (canonical_name name, qtype)
                         (sorted_strs canonical) (sorted_strs classes)) in
      put p' ;;!
      ret canonical
  end.

End DnsAddressPolicy.

(** ** [HostsTable] *)

Record hosts_table := HostsTable {
  hosts_max_entries : Z;
  hosts_entries : gmap (list Z * Z) (list str);
}.

Module HostsTable.

(** The loop over the aliases of a line. *)
Fixpoint add_aliases (address : str) (qtype : Z) (aliases : list str) : M hosts_table unit :=
  match aliases with
  | [] => ret tt
  | alias :: aliases' =>
      let name := canonical_name alias in
      (if bool_decide (name = []) then ret tt
       else
         let key := (name, qtype) in
         let! t := get in
         (match hosts_entries t !! key with
          | Some _ => ret tt
          | None =>
              if Z.of_nat (size (hosts_entries t)) >=? hosts_max_entries t
              then raise (DnsError (py "hosts-too-many-entries") (py "hosts table exceeds limit"))
              else put (HostsTable (hosts_max_entries t) (<[key := []]> (hosts_entries t)))
          end) ;;!
         modify (fun t =>
           let values := default [] (hosts_entries t !! key) in
           if str_in address values then t
           else HostsTable (hosts_max_entries t) (<[key := values ++ [address]]> (hosts_entries t)))) ;;!
      add_aliases address qtype aliases'
  end.

Definition load_line (raw_line : str) : M hosts_table unit :=
  let line := strip (default [] (head (split_char_max 35 1 raw_line))) in
  if bool_decide (line = []) then ret tt
  else if len line >? 4096
  then raise (DnsError (py "hosts-line-too-long") (py "hosts line exceeds gateway limit"))
  else
    match split_ws line with
    | first :: ((_ :: _) as aliases) =>
        match normalize_numeric_address first 0 with
        | None => ret tt
        | Some address =>
            add_aliases address (if char_in 58 address then DNS_AAAA else DNS_A) aliases
        end
    | _ => ret tt
    end.
Fixpoint load_lines (lines : list str) : M hosts_table unit :=
  match lines with
  | [] => ret tt
  | l :: ls => load_line l ;;! load_lines ls
  end.
Definition load (text : str) : M hosts_table unit := load_lines (splitlines text).

Definition init (text : str) (max_entries : Z) : result hosts_table :=
  if max_entries <=? 0 then Raise (ValueError (py "hosts entry limit must be positive"))
  else
    let t := HostsTable max_entries ∅ in
    if bool_decide (text = []) then Ok t
    else match load text t with
         | (Ok _, t') => Ok t'
         | (Raise e, _) => Raise e
         end.

Definition lookup (t : hosts_table) (name : str) (qtype : Z) : option (list str) :=
  hosts_entries t !! (canonical_name name, qtype).

End HostsTable.

(** ** [DnsCache] *)

Record cache_entry := DnsCacheEntry {
  ce_values : list str;
  expires_ms : Z;
  negative : bool;
  ce_source : str;
}.
Record dns_cache := DnsCache {
  cache_max_entries : Z;
  negative_ttl_ms : Z;
  min_ttl_ms : Z;
  max_ttl_ms : Z;
  entries : gmap (list Z * Z) cache_entry;
  order : list (list Z * Z);
}.

(** [list.remove]: the first occurrence. *)
Fixpoint remove_first (k : dns_key) (l : list dns_key) : list dns_key :=
  match l with
  | [] => []
  | x :: l' => if bool_decide (x = k) then l' else x :: remove_first k l'
  end.

Module DnsCache.

Definition init (max_entries negative_ttl_ms min_ttl_ms max_ttl_ms : Z) : result dns_cache :=
  if (max_entries <=? 0) || (negative_ttl_ms <=? 0) || (min_ttl_ms <? 0) || (max_ttl_ms <? min_ttl_ms)
  then Raise (ValueError (py "invalid DNS cache limits"))
  else Ok (DnsCache max_entries negative_ttl_ms min_ttl_ms max_ttl_ms ∅ []).

Definition set_cache (es : gmap (list Z * Z) cache_entry) (o : list dns_key) (c : dns_cache) : dns_cache :=
  DnsCache (cache_max_entries c) (negative_ttl_ms c) (min_ttl_ms c) (max_ttl_ms c) es o.

Definition drop_order (k : dns_key) (o : list dns_key) : list dns_key :=
  if bool_decide (k ∈ o) then remove_first k o else o.

Definition get_ (name : str) (qtype now_ms : Z) : M dns_cache (option cache_entry) :=
  let key := (canonical_name name, qtype) in
  let! c := get in
  match entries c !! key with
  | None => ret None
  | Some entry =>
      if expires_ms entry <=? now_ms then
        put (set_cache (delete key (entries c)) (drop_order key (order c)) c) ;;! ret None
      else
        put (set_cache (entries c) (drop_order key (order c) ++ [key]) c) ;;! ret (Some entry)
  end.

(** [while self.order: oldest = pop(0); if oldest in entries: del ...; break] *)
Fixpoint evict (es : gmap (list Z * Z) cache_entry) (o : list dns_key)
    : gmap (list Z * Z) cache_entry * list dns_key :=
  match o with
  | [] => (es, [])
  | oldest :: o' =>
      if bool_decide (is_Some (es !! oldest)) then (delete oldest es, o') else evict es o'
  end.

Definition put_ (name : str) (qtype : Z) (values : list str) (ttl_ms now_ms : Z) (neg : bool)
    (source : str) : M dns_cache cache_entry :=
  let key := (canonical_name name, qtype) in
  let! c := get in
  let '(es, o) :=
    if bool_decide (is_Some (entries c !! key)) then (entries c, drop_order key (order c))
    else if Z.of_nat (size (entries c)) >=? cache_max_entries c then evict (entries c) (order c)
    else (entries c, order c) in
  let ttl_ms :=
    if neg then negative_ttl_ms c
    else
      let ttl_ms := if ttl_ms <? min_ttl_ms c then min_ttl_ms c else ttl_ms in
      if ttl_ms >? max_ttl_ms c then max_ttl_ms c else ttl_ms in
  let entry := DnsCacheEntry values (now_ms + ttl_ms) neg source in
  put (set_cache (<[key := entry]> es) (o ++ [key]) c) ;;!
  ret entry.

End DnsCache.

(** ** Following CNAMEs *)

(** The first inner loop: the data of the matching answers, and the least TTL. *)
Fixpoint matching_values (ans : list dns_answer) (current : str) (qtype ttl : Z) : list str * Z :=
  match ans with
  | [] => ([], ttl)
  | a :: ans' =>
      if str_eqb (an_name a) current && (an_qtype a =? qtype) then
        let '(vs, t) := matching_values ans' current qtype (if an_ttl a <? ttl then an_ttl a else ttl) in
        (an_data a :: vs, t)
      else matching_values ans' current qtype ttl
  end.
(** The second: the first CNAME of the current owner. *)
Fixpoint first_cname (ans : list dns_answer) (current : str) (ttl : Z) : str * Z :=
  match ans with
  | [] => ([], ttl)
  | a :: ans' =>
      if str_eqb (an_name a) current && (an_qtype a =? DNS_CNAME)
      then (an_data a, if an_ttl a <? ttl then an_ttl a else ttl)
      else first_cname ans' current ttl
  end.
(** [depth] counts the passes left of [while depth < 16]. *)
Fixpoint answer_values_loop (depth : nat) (ans : list dns_answer) (current : str) (qtype ttl : Z)
    (visited : list str) : result (list str * Z) :=
  match depth with
  | O => dns_error (py "cname-depth") (py "DNS CNAME chain exceeds gateway limit")
  | S depth' =>
      let '(values, ttl) := matching_values ans current qtype ttl in
      if negb (bool_decide (values = [])) then Ok (values, ttl)
      else
        let '(target, ttl) := first_cname ans current ttl in
        if bool_decide (target = []) then Ok ([], ttl)
        else if str_in target visited || str_eqb target current
        then dns_error (py "cname-loop") (py "DNS CNAME chain contains a loop")
        else answer_values_loop depth' ans target qtype ttl (visited ++ [current])
  end.
Definition answer_values (response : dns_response) (name : str) (qtype : Z) : result (list str * Z) :=
  answer_values_loop 16 (answers response) (canonical_name name) qtype 86400 [].
