(* ===== verification/DnsPolicySpec.v ===== *)
(** * Properties of address policy, cache and CNAME following

    The policy admits only permitted addresses and keeps a name's answers from changing
    behind a client's back; the cache is a least-recently-used list bounded by its
    capacity; an answer is reached through a chain of distinct aliases. *)

From Stdlib Require Import Sorted.
From S2P Require Import Prelude PyStr PyLists DnsWire DnsPolicy.
#[local] Open Scope Z_scope.

(** ** The address policy *)

(** The classes a policy lets through. *)
Definition permitted (p : dns_policy) (address : str) : Prop :=
  let kind := address_class address in
  (kind = py "private" -> allow_private p = true) /\ (kind = py "loopback" -> allow_loopback p = true) /\
  (kind = py "link-local" -> allow_link_local p = true) /\ (kind = py "multicast" -> allow_multicast p = true) /\
  (kind = py "unspecified" -> allow_unspecified p = true).

Lemma check_class_spec p kind :
  match DnsAddressPolicy.check_class p kind with
  | Ok _ => (kind = py "private" -> allow_private p = true) /\ (kind = py "loopback" -> allow_loopback p = true) /\
      (kind = py "link-local" -> allow_link_local p = true) /\ (kind = py "multicast" -> allow_multicast p = true) /\
      (kind = py "unspecified" -> allow_unspecified p = true)
  | Raise e => exists c m, e = DnsError c m
  end.
Proof.
  unfold DnsAddressPolicy.check_class, str_eqb, dns_error.
  destruct p as [a b c d e md bs]; cbn [allow_private allow_loopback allow_link_local allow_multicast allow_unspecified].
  repeat case_bool_decide; destruct a, b, c, d, e; cbn [andb negb]; first [by eauto | by split_and!].
Qed.

(** What the loop has collected so far: distinct permitted addresses and exactly their classes. *)
Definition collected (p : dns_policy) (qtype : Z) (values canonical classes : list str) : Prop :=
  NoDup canonical /\ NoDup classes /\
  (forall kind, kind ∈ classes <-> kind ∈ map address_class canonical) /\
  (forall a, a ∈ canonical <-> exists v, v ∈ values /\ normalize_numeric_address v qtype = Some a) /\
  Forall (permitted p) canonical.

Lemma collected_snoc p qtype done_ v a canonical classes :
  collected p qtype done_ canonical classes -> normalize_numeric_address v qtype = Some a -> permitted p a ->
  collected p qtype (done_ ++ [v])
    (if str_in a canonical then canonical else canonical ++ [a])
    (if str_in a canonical then classes
     else if str_in (address_class a) classes then classes else classes ++ [address_class a]).
Proof.
  intros (Hd1 & Hd2 & Hcl & Hin & Hp) Hv Ha. unfold str_in.
  assert (forall b, (b ∈ canonical \/ b = a) <-> exists w, w ∈ done_ ++ [v] /\ normalize_numeric_address w qtype = Some b) as Hin'.
  { intros b. rewrite Hin. split.
    - intros [(w & ? & ?) | ->]; [exists w|exists v]; split; try done; apply elem_of_app; [by left|right; by apply list_elem_of_singleton].
    - intros (w & [Hw | ->%list_elem_of_singleton]%elem_of_app & Hb); [left; eauto|right; congruence]. }
  case_bool_decide as E1.
  { refine (conj Hd1 (conj Hd2 (conj Hcl (conj _ Hp)))). intros b. rewrite <- Hin'.
    split; [by left|by intros [?| ->]]. }
  refine (conj _ (conj _ (conj _ (conj _ _)))).
  - apply NoDup_app. split_and!; [done| |apply NoDup_singleton]. intros x Hx ->%list_elem_of_singleton. done.
  - case_bool_decide as E2; [done|]. apply NoDup_app. split_and!; [done| |apply NoDup_singleton].
    intros x Hx ->%list_elem_of_singleton. done.
  - intros kind. rewrite map_app, elem_of_app, <- Hcl. cbn [map]. rewrite list_elem_of_singleton.
    case_bool_decide as E2; [split; [by left|by intros [?| ->]]|]. rewrite elem_of_app, list_elem_of_singleton. done.
  - intros b. by rewrite elem_of_app, list_elem_of_singleton.
  - apply Forall_app. split; [done|]. by apply Forall_singleton.
Qed.

Lemma accept_loop_spec p qtype values : forall done_ canonical classes,
  collected p qtype done_ canonical classes ->
  match DnsAddressPolicy.accept_loop p qtype values canonical classes with
  | Ok (cs, ks) => collected p qtype (done_ ++ values) cs ks /\
                   Forall (fun v => is_Some (normalize_numeric_address v qtype)) values
  | Raise e => exists c m, e = DnsError c m
  end.
Proof.
  induction values as [|v values IH]; intros done_ canonical classes Hc; cbn [DnsAddressPolicy.accept_loop].
  { by rewrite app_nil_r. }
  destruct (normalize_numeric_address v qtype) as [a|] eqn:Ev; [|by eexists _, _]. cbv zeta.
  pose proof (check_class_spec p (address_class a)) as Hk. destruct (DnsAddressPolicy.check_class _ _) as [[]|e]; cbn [rbind]; [|done].
  pose proof (collected_snoc _ _ _ v a _ _ Hc Ev Hk) as Hn.
  destruct (str_in a canonical); specialize (IH _ _ _ Hn); destruct (DnsAddressPolicy.accept_loop _ _ _ _ _) as [[cs ks]|e]; try done;
    rewrite <- app_assoc in IH; destruct IH as [? ?]; (split; [done|]); constructor; eauto.
Qed.

Lemma collected_nil p qtype : collected p qtype [] [] [].
Proof.
  refine (conj _ (conj _ (conj _ (conj _ _)))); try constructor; try done; [by intros H%elem_of_nil|].
  intros (v & H%elem_of_nil & _). done.
Qed.

Definition same_flags (p p' : dns_policy) : Prop :=
  allow_private p' = allow_private p /\ allow_loopback p' = allow_loopback p /\ allow_link_local p' = allow_link_local p /\
  allow_multicast p' = allow_multicast p /\ allow_unspecified p' = allow_unspecified p /\ rebind_mode p' = rebind_mode p.

Lemma check_binding_spec p key vs ks :
  match DnsAddressPolicy.check_binding p key vs ks with
  | Ok p' => same_flags p p' /\
      (policy_bindings p' = policy_bindings p \/ policy_bindings p' = <[key := (vs, ks)]> (policy_bindings p)) /\
      (rebind_mode p <> py "allow" -> policy_bindings p' !! key = Some (vs, ks)) /\
      (forall vs0 ks0, policy_bindings p !! key = Some (vs0, ks0) ->
         (rebind_mode p = py "pin" -> vs0 = vs) /\ (rebind_mode p = py "same-class" -> ks0 = ks))
  | Raise e => exists m, e = DnsError (py "dns-rebinding") m
  end.
Proof.
  unfold DnsAddressPolicy.check_binding, DnsAddressPolicy.rebinding, dns_error, str_eqb. cbv zeta.
  destruct (policy_bindings p !! key) as [[vs0 ks0]|] eqn:Ep.
  - rewrite (bool_decide_eq_false_2 (Some (vs0, ks0) = None)) by done. cbn [orb].
    destruct (bool_decide (rebind_mode p = _) && _) eqn:E1; [by eexists|].
    destruct (bool_decide (rebind_mode p = py "same-class") && _) eqn:E2; [by eexists|]. cbn [rbind].
    assert (forall vs1 ks1, Some (vs0, ks0) = Some (vs1, ks1) ->
      (rebind_mode p = py "pin" -> vs1 = vs) /\ (rebind_mode p = py "same-class" -> ks1 = ks)) as Hold.
    { intros ? ? [= <- <-]. apply andb_false_iff in E1, E2.
      split; intros Hm; [destruct E1 as [E|E]|destruct E2 as [E|E]]; b2p; first [done | by rewrite Hm in E]. }
    destruct (bool_decide (rebind_mode p = py "allow")) eqn:E3; b2p; cbn [negb policy_bindings]; (split; [by repeat split|]); [split; [by left|]; by split|].
    split; [by right|]. split; [|done]. intros _. apply lookup_insert_eq.
  - rewrite bool_decide_eq_true_2 by done. cbn [rbind orb policy_bindings]. rewrite lookup_insert_eq.
    split; [by repeat split|]. split; [by right|]. by split.
Qed.

Lemma accept_spec p name values qtype :
  match DnsAddressPolicy.accept name values qtype p with
  | (Ok cs, p') => exists ks, collected p qtype values cs ks /\ same_flags p p' /\
      Forall (fun v => is_Some (normalize_numeric_address v qtype)) values /\
      (cs = [] /\ p' = p \/
       DnsAddressPolicy.check_binding p (canonical_name name, qtype) (sorted_strs cs) (sorted_strs ks) = Ok p')
  | (Raise e, p') => (exists c m, e = DnsError c m) /\ p' = p
  end.
Proof.
  unfold DnsAddressPolicy.accept, bind, get, lift, put, ret.
  pose proof (accept_loop_spec p qtype values [] [] [] (collected_nil p qtype)) as H.
  destruct (DnsAddressPolicy.accept_loop _ _ _ _ _) as [[cs ks]|e]; [|done]. cbn [app] in H. destruct H as [Hc Hv].
  destruct cs as [|c cs]; [exists ks; split; [done|]; split; [by repeat split|]; by split; [|left]|].
  pose proof (check_binding_spec p (canonical_name name, qtype) (sorted_strs (c :: cs)) (sorted_strs ks)) as Hb.
  destruct (DnsAddressPolicy.check_binding _ _ _ _) as [p'|e] eqn:E.
  - exists ks. destruct Hb as [? _]. auto.
  - destruct Hb as [m ->]. eauto.
Qed.

(** the address policy fails closed.  A successful [accept] returns, without
    duplicates, exactly the canonical forms of the resolver's values, each of a class the
    policy permits; a single value that is not an address or not permitted fails the whole
    answer with [DnsError] and leaves the policy as it was. *)
Theorem policy_admits_only_permitted p name values qtype :
  match DnsAddressPolicy.accept name values qtype p with
  | (Ok addresses, _) =>
      NoDup addresses /\ Forall (permitted p) addresses /\
      Forall (fun v => is_Some (normalize_numeric_address v qtype)) values /\
      (forall a, a ∈ addresses <-> exists v, v ∈ values /\ normalize_numeric_address v qtype = Some a)
  | (Raise e, p') => (exists c m, e = DnsError c m) /\ p' = p
  end.
Proof.
  pose proof (accept_spec p name values qtype) as H. destruct (DnsAddressPolicy.accept _ _ _ _) as [[cs|e] p']; [|done].
  destruct H as (ks & (? & _ & _ & ? & ?) & _ & ? & _). done.
Qed.

(** ** Rebinding *)

(** A client's lookups, one after the other: the key and addresses of each accepted one. *)
Fixpoint policy_run (calls : list (str * list str * Z)) (p : dns_policy) : list (dns_key * list str) :=
  match calls with
  | [] => []
  | (name, values, qtype) :: calls' =>
      match DnsAddressPolicy.accept name values qtype p with
      | (Ok addresses, p') => ((canonical_name name, qtype), addresses) :: policy_run calls' p'
      | (Raise _, p') => policy_run calls' p'
      end
  end.

(** [b] remembers an accepted answer [addresses] as the mode requires. *)
Definition remembers (mode : str) (b : option (list str * list str)) (addresses : list str) : Prop :=
  exists vs ks, b = Some (vs, ks) /\
    (mode = py "pin" -> vs ≡ₚ addresses) /\
    (mode = py "same-class" -> forall kind, kind ∈ ks <-> kind ∈ map address_class addresses).

Definition guarding (mode : str) : Prop := mode = py "pin" \/ mode = py "same-class".

Lemma remembers_insert p key vs ks p' k addresses :
  DnsAddressPolicy.check_binding p key vs ks = Ok p' -> guarding (rebind_mode p) ->
  remembers (rebind_mode p) (policy_bindings p !! k) addresses ->
  remembers (rebind_mode p) (policy_bindings p' !! k) addresses.
Proof.
  intros E Hg (vs0 & ks0 & Hk & Hpin & Hsame). pose proof (check_binding_spec p key vs ks) as H. rewrite E in H.
  destruct H as (_ & [-> | ->] & _ & Hold); [by exists vs0, ks0|]. destruct (decide (key = k)) as [->|].
  - destruct (Hold _ _ Hk) as [H1 H2]. rewrite lookup_insert_eq. exists vs, ks. split; [done|].
    split; intros Hm; [rewrite <- (H1 Hm)|rewrite <- (H2 Hm)]; auto.
  - rewrite lookup_insert_ne by done. by exists vs0, ks0.
Qed.

Lemma remembers_new p key cs ks p' qtype values :
  DnsAddressPolicy.check_binding p key (sorted_strs cs) (sorted_strs ks) = Ok p' -> guarding (rebind_mode p) ->
  collected p qtype values cs ks -> remembers (rebind_mode p) (policy_bindings p' !! key) cs.
Proof.
  intros E Hg (_ & _ & Hcl & _). pose proof (check_binding_spec p key (sorted_strs cs) (sorted_strs ks)) as H. rewrite E in H.
  destruct H as (_ & _ & -> & _); [|destruct Hg as [-> | ->]; discriminate].
  exists (sorted_strs cs), (sorted_strs ks). split; [done|]. split; intros _; [apply sort_by_perm|].
  intros kind. by rewrite <- Hcl, (sort_by_perm str_leb ks).
Qed.

Lemma policy_run_consistent calls : forall p k addresses,
  guarding (rebind_mode p) -> addresses <> [] -> remembers (rebind_mode p) (policy_bindings p !! k) addresses ->
  forall later, (k, later) ∈ policy_run calls p -> later <> [] ->
  (rebind_mode p = py "pin" -> later ≡ₚ addresses) /\
  (rebind_mode p = py "same-class" -> forall kind, kind ∈ map address_class later <-> kind ∈ map address_class addresses).
Proof.
  induction calls as [|[[name values] qtype] calls IH]; intros p k addresses Hg Hne Hr later; cbn [policy_run].
  { by intros H%elem_of_nil. }
  pose proof (accept_spec p name values qtype) as Ha. destruct (DnsAddressPolicy.accept _ _ _ _) as [[cs|e] p'].
  2:{ destruct Ha as [_ ->]. by apply IH. }
  destruct Ha as (ks & Hc & (_ & _ & _ & _ & _ & Hm) & _ & Hb). rewrite elem_of_cons. intros [[= -> ->] | Hin] Hl.
  - destruct Hb as [[? _]|Hb]; [done|]. destruct (remembers_new _ _ _ _ _ _ _ Hb Hg Hc) as (v1 & k1 & E1 & P1 & S1).
    destruct (remembers_insert _ _ _ _ _ _ _ Hb Hg Hr) as (v2 & k2 & E2 & P2 & S2). rewrite E1 in E2. injection E2 as <- <-.
    split; intros Hmode; [by rewrite <- (P1 Hmode), <- (P2 Hmode)|]. intros kind. by rewrite <- (S1 Hmode), <- (S2 Hmode).
  - rewrite <- Hm. apply (IH p' k addresses); rewrite ?Hm; try done. destruct Hb as [[_ ->]|Hb]; [done|].
    by eapply remembers_insert.
Qed.

Definition agree (mode : str) (a b : list str) : Prop :=
  (mode = py "pin" -> b ≡ₚ a) /\
  (mode = py "same-class" -> forall kind, kind ∈ map address_class b <-> kind ∈ map address_class a).

Lemma agree_sym mode a b : agree mode a b -> agree mode b a.
Proof. intros [H1 H2]. split; intros Hm; [by rewrite (H1 Hm)|]. intros kind. symmetry. by apply H2. Qed.

Lemma policy_run_agree calls : forall p k a b,
  guarding (rebind_mode p) -> (k, a) ∈ policy_run calls p -> (k, b) ∈ policy_run calls p -> a <> [] -> b <> [] ->
  agree (rebind_mode p) a b.
Proof.
  induction calls as [|[[name values] qtype] calls IH]; intros p k a b Hg; cbn [policy_run]; [by intros H%elem_of_nil|].
  pose proof (accept_spec p name values qtype) as Ha. destruct (DnsAddressPolicy.accept _ _ _ _) as [[cs|e] p'].
  2:{ destruct Ha as [_ ->]. by apply IH. }
  destruct Ha as (ks & Hc & (_ & _ & _ & _ & _ & Hm) & _ & Hb). rewrite <- Hm in Hg |- *.
  assert (forall b', ((canonical_name name, qtype), b') ∈ policy_run calls p' -> cs <> [] -> b' <> [] -> agree (rebind_mode p') cs b') as Hhead.
  { intros b' Hin Hcs Hne. apply (policy_run_consistent calls p' (canonical_name name, qtype) cs); try done.
    destruct Hb as [[? _]|Hb]; [done|]. rewrite Hm in Hg |- *. by eapply remembers_new. }
  rewrite !elem_of_cons. intros Ha1 Hb1 Hne1 Hne2.
  destruct Ha1 as [Ea|Ha1], Hb1 as [Eb|Hb1]; simplify_eq; [by split; intros|by apply Hhead| |by apply (IH p' k)].
  apply agree_sym. by apply Hhead.
Qed.

(** C35: DNS rebinding is refused.  Under the [pin] mode any two non-empty answers a policy
    ever accepts for a name and type are the same set of addresses; under [same-class] they
    have the same address classes: whatever was looked up in between, a name accepted as
    public is never later accepted as loopback or private. *)
Theorem rebinding_refused p calls k earlier later :
  guarding (rebind_mode p) ->
  (k, earlier) ∈ policy_run calls p -> (k, later) ∈ policy_run calls p -> earlier <> [] -> later <> [] ->
  (rebind_mode p = py "pin" -> later ≡ₚ earlier) /\
  (rebind_mode p = py "same-class" ->
     forall kind, kind ∈ map address_class later <-> kind ∈ map address_class earlier).
Proof. intros Hg H1 H2 Hne1 Hne2. by apply (policy_run_agree calls p k). Qed.

(** ** The cache is a bounded least-recently-used list *)

(** The specification: entries from least to most recently used. *)
Definition lru := list (dns_key * cache_entry).
Fixpoint lru_remove (k : dns_key) (l : lru) : lru :=
  match l with
  | [] => []
  | (k', e) :: l' => if bool_decide (k' = k) then l' else (k', e) :: lru_remove k l'
  end.
Fixpoint lru_find (k : dns_key) (l : lru) : option cache_entry :=
  match l with
  | [] => None
  | (k', e) :: l' => if bool_decide (k' = k) then Some e else lru_find k l'
  end.

Inductive cache_call : Type :=
| CacheGet (name : str) (qtype now_ms : Z)
| CachePut (name : str) (qtype : Z) (values : list str) (ttl_ms now_ms : Z) (neg : bool) (source : str).

(** A live entry moves to the end, an expired one is dropped; a new one displaces the least
    recently used when the list is full; times to live are clamped to the configured range. *)
Definition lru_call (capacity neg_ttl min_ttl max_ttl : Z) (call : cache_call) (l : lru) : option cache_entry * lru :=
  match call with
  | CacheGet name qtype now =>
      let k := (canonical_name name, qtype) in
      match lru_find k l with
      | None => (None, l)
      | Some e => if expires_ms e <=? now then (None, lru_remove k l) else (Some e, lru_remove k l ++ [(k, e)])
      end
  | CachePut name qtype values ttl now neg source =>
      let k := (canonical_name name, qtype) in
      let l := match lru_find k l with
               | Some _ => lru_remove k l
               | None => if len l >=? capacity then tail l else l
               end in
      let e := DnsCacheEntry values (now + if neg then neg_ttl else Z.min (Z.max ttl min_ttl) max_ttl) neg source in
      (Some e, l ++ [(k, e)])
  end.

Definition cache_run1 (call : cache_call) : M dns_cache (option cache_entry) :=
  match call with
  | CacheGet name qtype now => DnsCache.get_ name qtype now
  | CachePut name qtype values ttl now neg source =>
      let! e := DnsCache.put_ name qtype values ttl now neg source in ret (Some e)
  end.

Definition cache_repr (c : dns_cache) (l : lru) : Prop :=
  order c = map fst l /\ NoDup (order c) /\ (forall k, entries c !! k = lru_find k l).

Lemma lru_find_elem k l : is_Some (lru_find k l) <-> k ∈ map fst l.
Proof.
  induction l as [|[k' e] l IH]; cbn [lru_find map fst].
  { split; [intros [? [=]]|intros H%elem_of_nil; done]. }
  rewrite elem_of_cons. case_bool_decide as E; [subst; split; eauto|]. rewrite IH. split; [by right|by intros [?|?]].
Qed.

Lemma lru_find_map k (l : lru) : lru_find k l = (list_to_map l : gmap (list Z * Z) cache_entry) !! k.
Proof.
  induction l as [|[k' e] l IH]; cbn; [by rewrite lookup_empty|].
  case_bool_decide as E; [subst; by rewrite lookup_insert_eq|by rewrite lookup_insert_ne].
Qed.

Lemma repr_size c l : cache_repr c l -> Z.of_nat (size (entries c)) = len l.
Proof.
  intros (Ho & Hd & He). replace (entries c) with (list_to_map l : gmap (list Z * Z) cache_entry).
  - rewrite map_size_list_to_map; [done|]. rewrite Ho in Hd. exact Hd.
  - apply map_eq. intros k. by rewrite He, lru_find_map.
Qed.

Lemma remove_first_absent k o : k ∉ o -> remove_first k o = o.
Proof.
  induction o as [|x o IH]; [done|]. rewrite not_elem_of_cons. intros [Hx Ho]. cbn.
  rewrite bool_decide_eq_false_2 by done. by rewrite IH.
Qed.

Lemma drop_order_eq k o : DnsCache.drop_order k o = remove_first k o.
Proof. unfold DnsCache.drop_order. case_bool_decide as E; [done|]. by rewrite remove_first_absent. Qed.

Lemma lru_remove_keys k l : map fst (lru_remove k l) = remove_first k (map fst l).
Proof. induction l as [|[k' e] l IH]; [done|]. cbn. case_bool_decide; cbn; [done|]. by rewrite IH. Qed.

Lemma remove_first_sub k k' o : k' ∈ remove_first k o -> k' ∈ o.
Proof.
  induction o as [|x o IH]; [done|]. cbn. case_bool_decide; rewrite ?elem_of_cons; [by right|]. intros [?|?]; auto.
Qed.

Lemma remove_first_nodup k o : NoDup o -> NoDup (remove_first k o) /\ k ∉ remove_first k o.
Proof.
  induction 1 as [|x o Hx Ho IH]; cbn; [split; [constructor|apply not_elem_of_nil]|].
  case_bool_decide as E; [by subst|]. destruct IH as [H1 H2]. split.
  - constructor; [|done]. intros H. by apply Hx, (remove_first_sub k).
  - by rewrite not_elem_of_cons.
Qed.

Lemma lru_find_remove k k' l : NoDup (map fst l) ->
  lru_find k' (lru_remove k l) = if bool_decide (k = k') then None else lru_find k' l.
Proof.
  induction l as [|[a e] l IH]; cbn [lru_remove lru_find map fst]; [by case_bool_decide|]. intros [Ha Hl]%NoDup_cons.
  destruct (decide (a = k)) as [->|Hak].
  - rewrite bool_decide_eq_true_2 by done. destruct (decide (k = k')) as [->|Hk]; [|by rewrite (bool_decide_eq_false_2 (k = k'))].
    rewrite bool_decide_eq_true_2 by done. apply eq_None_not_Some. by rewrite lru_find_elem.
  - rewrite (bool_decide_eq_false_2 (a = k)) by done. cbn [lru_find]. destruct (decide (a = k')) as [->|Hk].
    + by rewrite (bool_decide_eq_true_2 (k' = k')), (bool_decide_eq_false_2 (k = k')).
    + rewrite (bool_decide_eq_false_2 (a = k')) by done. by apply IH.
Qed.

Lemma lru_find_snoc k k' e l : k ∉ map fst l ->
  lru_find k' (l ++ [(k, e)]) = if bool_decide (k = k') then Some e else lru_find k' l.
Proof.
  induction l as [|[a x] l IH]; cbn [app lru_find map fst]; [done|]. rewrite not_elem_of_cons. intros [Ha Hl].
  destruct (decide (a = k')) as [->|Hk]; [by rewrite (bool_decide_eq_true_2 (k' = k')), (bool_decide_eq_false_2 (k = k'))|].
  rewrite !(bool_decide_eq_false_2 (a = k')) by done. by apply IH.
Qed.

(** The two updates the operations are made of. *)
Lemma repr_remove c l k cap a b d :
  cache_repr c l -> cache_repr (DnsCache cap a b d (delete k (entries c)) (remove_first k (order c))) (lru_remove k l).
Proof.
  intros (Ho & Hd & He). split_and!; cbn [order entries].
  - by rewrite lru_remove_keys, Ho.
  - by apply remove_first_nodup.
  - intros k'. rewrite lru_find_remove by (by rewrite <- Ho). destruct (decide (k = k')) as [->|].
    + by rewrite lookup_delete_eq, bool_decide_eq_true_2.
    + by rewrite lookup_delete_ne, bool_decide_eq_false_2.
Qed.

Lemma repr_snoc c l k e : cache_repr c l -> k ∉ order c ->
  cache_repr (DnsCache.set_cache (<[k := e]> (entries c)) (order c ++ [k]) c) (l ++ [(k, e)]).
Proof.
  intros (Ho & Hd & He) Hk. split_and!; cbn [DnsCache.set_cache order entries].
  - by rewrite map_app, Ho.
  - apply NoDup_app. split_and!; [done| |apply NoDup_singleton]. by intros x Hx ->%list_elem_of_singleton.
  - intros k'. rewrite lru_find_snoc by (by rewrite <- Ho). destruct (decide (k = k')) as [->|].
    + by rewrite lookup_insert_eq, bool_decide_eq_true_2.
    + by rewrite lookup_insert_ne, bool_decide_eq_false_2.
Qed.

Lemma lru_remove_len k l : len (lru_remove k l) <= len l /\ (is_Some (lru_find k l) -> len (lru_remove k l) < len l).
Proof.
  induction l as [|[a e] l [IH1 IH2]]; cbn [lru_remove lru_find]; [split; [done|by intros [? [=]]]|].
  case_bool_decide; lens; split; try lia. intros H'. specialize (IH2 H'). lia.
Qed.

Lemma repr_evict c l : cache_repr c l ->
  exists es, DnsCache.evict (entries c) (order c) = (es, map fst (tail l)) /\
    cache_repr (DnsCache.set_cache es (map fst (tail l)) c) (tail l).
Proof.
  intros Hr. destruct l as [|[a e] l].
  - destruct Hr as (Ho & Hd & He). rewrite Ho. cbn [map tail DnsCache.evict]. exists (entries c). split; [done|].
    split_and!; [done|constructor|done].
  - pose proof (repr_remove c _ a (cache_max_entries c) (negative_ttl_ms c) (min_ttl_ms c) (max_ttl_ms c) Hr) as Hr'.
    destruct Hr as (Ho & Hd & He). rewrite Ho in Hr' |- *. cbn [map tail fst DnsCache.evict remove_first lru_remove] in *.
    rewrite bool_decide_eq_true_2 in Hr' by done. exists (delete a (entries c)).
    rewrite bool_decide_eq_true_2; [done|]. rewrite He. cbn [lru_find]. rewrite bool_decide_eq_true_2 by done. by eexists.
Qed.

Definition cache_limits (c : dns_cache) : Prop := 0 < cache_max_entries c /\ min_ttl_ms c <= max_ttl_ms c.
Definition lru_of (c : dns_cache) := lru_call (cache_max_entries c) (negative_ttl_ms c) (min_ttl_ms c) (max_ttl_ms c).
Definition same_limits (c c' : dns_cache) : Prop :=
  cache_max_entries c' = cache_max_entries c /\ negative_ttl_ms c' = negative_ttl_ms c /\
  min_ttl_ms c' = min_ttl_ms c /\ max_ttl_ms c' = max_ttl_ms c.

(** The call returned what the list does and the cache still is the list. *)
Definition refined (c : dns_cache) (out : option cache_entry * lru) (r : result (option cache_entry) * dns_cache) : Prop :=
  fst r = Ok (fst out) /\ cache_repr (snd r) (snd out) /\ len (snd out) <= cache_max_entries c /\ same_limits c (snd r).

Lemma get_refines c l name qtype now : cache_repr c l -> len l <= cache_max_entries c ->
  refined c (lru_of c (CacheGet name qtype now) l) (cache_run1 (CacheGet name qtype now) c).
Proof.
  intros Hr Hl. cbn [cache_run1 lru_of lru_call]. unfold DnsCache.get_, bind, get, put, ret. cbv zeta.
  set (k := (canonical_name name, qtype)). pose proof Hr as (Ho & Hd & He). rewrite He, drop_order_eq. unfold lru_of, lru_call.
  fold k. destruct (lru_find k l) as [e|] eqn:Ef; [|split_and!; by try done].
  pose proof (proj1 (lru_remove_len k l)) as Hle. pose proof (proj2 (lru_remove_len k l) (mk_is_Some _ _ Ef)) as Hlt.
  pose proof (repr_remove c l k (cache_max_entries c) (negative_ttl_ms c) (min_ttl_ms c) (max_ttl_ms c) Hr) as Hrm.
  destruct (_ <=? now); unfold refined; cbn [fst snd]; (split; [done|]); (split; [|split; [lens; lia|by repeat split]]); [exact Hrm|].
  eapply repr_snoc in Hrm; [|by apply remove_first_nodup]. cbn [entries order DnsCache.set_cache] in Hrm.
  rewrite insert_delete_eq, insert_id in Hrm by (by rewrite He). exact Hrm.
Qed.

Lemma put_refines c l name qtype values ttl now neg source : cache_limits c -> cache_repr c l -> len l <= cache_max_entries c ->
  refined c (lru_of c (CachePut name qtype values ttl now neg source) l)
    (cache_run1 (CachePut name qtype values ttl now neg source) c).
Proof.
  intros [Hcap Hmm] Hr Hl. unfold lru_of. cbn [cache_run1 lru_call]. unfold DnsCache.put_, bind, get, put, ret. cbv zeta.
  set (k := (canonical_name name, qtype)). pose proof Hr as (Ho & Hd & He). rewrite !He, drop_order_eq, (repr_size c l) by done.
  assert ((if neg then negative_ttl_ms c
           else if (if ttl <? min_ttl_ms c then min_ttl_ms c else ttl) >? max_ttl_ms c then max_ttl_ms c
                else if ttl <? min_ttl_ms c then min_ttl_ms c else ttl)
          = if neg then negative_ttl_ms c else Z.min (Z.max ttl (min_ttl_ms c)) (max_ttl_ms c)) as ->.
  { destruct neg; [done|]. destruct (Z.ltb_spec ttl (min_ttl_ms c)); rewrite Z.gtb_ltb;
      match goal with |- context [?a <? ?b] => destruct (Z.ltb_spec a b) end; lia. }
  set (e := DnsCacheEntry _ _ _ _). destruct (lru_find k l) as [e0|] eqn:Ef.
  - rewrite bool_decide_eq_true_2 by done.
    pose proof (repr_remove c l k (cache_max_entries c) (negative_ttl_ms c) (min_ttl_ms c) (max_ttl_ms c) Hr) as Hrm.
    eapply (repr_snoc _ _ k e) in Hrm; [|by apply remove_first_nodup]. cbn [entries order DnsCache.set_cache] in Hrm.
    rewrite insert_delete_eq in Hrm. pose proof (proj2 (lru_remove_len k l) (mk_is_Some _ _ Ef)).
    split; [done|]. split; [exact Hrm|]. split; [cbn [snd]; lens; lia|by repeat split].
  - rewrite bool_decide_eq_false_2 by (by intros [? [=]]).
    assert (k ∉ map fst l) as Hk by (by rewrite <- lru_find_elem, Ef; intros [? [=]]).
    destruct (len l >=? cache_max_entries c) eqn:Efull; b2p.
    + destruct (repr_evict c l Hr) as (es & -> & Hre). eapply (repr_snoc _ _ k e) in Hre.
      2:{ cbn. intros Hin. apply Hk. destruct l; [done|]. cbn in *. by right. }
      split; [done|]. split; [exact Hre|]. split; [|by repeat split]. cbn [snd]. lens. destruct l; cbn [tail]; lens; lia.
    + eapply (repr_snoc _ _ k e) in Hr; [|by rewrite Ho]. split; [done|]. split; [exact Hr|].
      split; [cbn [snd]; lens; lia|by repeat split].
Qed.

(** A sequence of cache calls: what each returned, and the final cache. *)
Fixpoint cache_runs (calls : list cache_call) (c : dns_cache) : list (result (option cache_entry)) * dns_cache :=
  match calls with
  | [] => ([], c)
  | call :: calls' => let '(r, c') := cache_run1 call c in let '(rs, c'') := cache_runs calls' c' in (r :: rs, c'')
  end.
Fixpoint lru_runs (capacity neg_ttl min_ttl max_ttl : Z) (calls : list cache_call) (l : lru)
    : list (option cache_entry) * lru :=
  match calls with
  | [] => ([], l)
  | call :: calls' =>
      let '(r, l') := lru_call capacity neg_ttl min_ttl max_ttl call l in
      let '(rs, l'') := lru_runs capacity neg_ttl min_ttl max_ttl calls' l' in (r :: rs, l'')
  end.

Lemma cache_runs_refine calls : forall c l, cache_limits c -> cache_repr c l -> len l <= cache_max_entries c ->
  let '(rs, l') := lru_runs (cache_max_entries c) (negative_ttl_ms c) (min_ttl_ms c) (max_ttl_ms c) calls l in
  fst (cache_runs calls c) = map Ok rs /\ cache_repr (snd (cache_runs calls c)) l' /\ len l' <= cache_max_entries c.
Proof.
  induction calls as [|call calls IH]; intros c l Hlim Hr Hl; cbn [lru_runs cache_runs]; [done|].
  assert (refined c (lru_of c call l) (cache_run1 call c)) as Href.
  { destruct call; [by apply get_refines|by apply put_refines]. }
  unfold lru_of in Href. destruct (lru_call _ _ _ _ call l) as [r l1], (cache_run1 call c) as [r' c1].
  destruct Href as (Hret & Hr1 & Hl1 & Hc & Hn & Hmin & Hmax). cbn [fst snd] in *. subst r'.
  specialize (IH c1 l1). unfold cache_limits in *. rewrite Hc, Hn, Hmin, Hmax in IH. specialize (IH Hlim Hr1 Hl1).
  destruct (lru_runs _ _ _ _ calls l1) as [rs l2], (cache_runs calls c1) as [rs' c2]. cbn [fst snd map] in *.
  destruct IH as (-> & ? & ?). done.
Qed.

(** C36: the cache is a bounded least-recently-used list.  From a freshly constructed cache,
    any sequence of lookups and insertions returns exactly what the list specification
    returns — hits move to the recent end, expired entries disappear, a full cache forgets
    its least recently used entry, times to live are clamped — no call raises, and the
    number of entries never exceeds the configured maximum. *)
Theorem cache_refines_lru capacity neg_ttl min_ttl max_ttl c calls :
  DnsCache.init capacity neg_ttl min_ttl max_ttl = Ok c ->
  let '(rs, l) := lru_runs capacity neg_ttl min_ttl max_ttl calls [] in
  fst (cache_runs calls c) = map Ok rs /\
  (forall k, entries (snd (cache_runs calls c)) !! k = lru_find k l) /\
  Z.of_nat (size (entries (snd (cache_runs calls c)))) <= capacity.
Proof.
  unfold DnsCache.init. destruct (_ || _) eqn:E; [done|]. intros [= <-]. b2p.
  set (c := DnsCache _ _ _ _ _ _).
  assert (cache_repr c []) as Hr by (split_and!; [done|constructor|done]).
  pose proof (cache_runs_refine calls c [] ltac:(unfold c; split; cbn; lia) Hr ltac:(unfold c, len; cbn; lia)) as Href.
  cbn [cache_max_entries negative_ttl_ms min_ttl_ms max_ttl_ms c] in Href.
  destruct (lru_runs _ _ _ _ calls []) as [rs l]. destruct Href as (G1 & G2 & G3). split; [done|].
  split; [apply G2|]. by rewrite (repr_size _ _ G2).
Qed.

(** ** Following aliases *)

Definition records (ans : list dns_answer) (owner : str) (qtype : Z) : list dns_answer :=
  List.filter (fun a => str_eqb (an_name a) owner && (an_qtype a =? qtype)) ans.
(** [owner] has no record of the type asked for and is an alias of [target]. *)
Definition alias (ans : list dns_answer) (qtype : Z) (owner target : str) : Prop :=
  records ans owner qtype = [] /\ exists a, a ∈ records ans owner DNS_CNAME /\ an_data a = target.

Lemma matching_values_spec ans current qtype : forall ttl,
  let '(vs, t) := matching_values ans current qtype ttl in
  vs = map an_data (records ans current qtype) /\ t <= ttl /\
  Forall (fun a => t <= an_ttl a) (records ans current qtype).
Proof.
  induction ans as [|a ans IH]; intros ttl; cbn [matching_values records List.filter]; [done|].
  destruct (str_eqb _ _ && _); cbn [map].
  - specialize (IH (if an_ttl a <? ttl then an_ttl a else ttl)). destruct (matching_values _ _ _ _) as [vs t].
    destruct IH as (-> & Ht & Hall). assert (t <= an_ttl a /\ t <= ttl) as [? ?] by (destruct (Z.ltb_spec (an_ttl a) ttl); lia).
    split; [done|]. split; [done|]. by constructor.
  - apply IH.
Qed.

Lemma first_cname_spec ans current : forall ttl,
  let '(target, t) := first_cname ans current ttl in
  t <= ttl /\ (target = [] \/ exists a, a ∈ records ans current DNS_CNAME /\ an_data a = target) /\
  (target = [] -> Forall (fun a => an_data a = []) (take 1 (records ans current DNS_CNAME))).
Proof.
  induction ans as [|a ans IH]; intros ttl; cbn [first_cname records List.filter]; [split; [done|]; split; [by left|]; intros _; constructor|].
  destruct (str_eqb _ _ && _).
  - split; [destruct (Z.ltb_spec (an_ttl a) ttl); lia|]. split; [right; exists a; split; [by left|done]|].
    intros Ha. cbn. by apply Forall_singleton.
  - apply IH.
Qed.

Lemma sorted_snoc {A} (R : A -> A -> Prop) l a b : Sorted R (l ++ [a]) -> R a b -> Sorted R (l ++ [a; b]).
Proof.
  induction l as [|x l IH]; cbn [app]; intros Hs Hab; [repeat constructor; done|].
  apply Sorted_inv in Hs as [Hs Hd]. constructor; [by apply IH|]. destruct l; cbn [app] in *; by inversion Hd; constructor.
Qed.

(** What a run of the loop has walked and where it stopped. *)
Definition resolved (ans : list dns_answer) (qtype : Z) (path : list str) (owner : str) (vs : list str) (ttl : Z) : Prop :=
  NoDup (path ++ [owner]) /\ Sorted (alias ans qtype) (path ++ [owner]) /\ len path < 16 /\
  vs = map an_data (records ans owner qtype) /\ Forall (fun a => ttl <= an_ttl a) (records ans owner qtype) /\
  (vs = [] -> Forall (fun a => an_data a = []) (take 1 (records ans owner DNS_CNAME))).

Lemma answer_values_loop_spec ans qtype depth : forall current ttl visited,
  NoDup (visited ++ [current]) -> Sorted (alias ans qtype) (visited ++ [current]) -> len visited + Z.of_nat depth = 16 ->
  match answer_values_loop depth ans current qtype ttl visited with
  | Ok (vs, t) => t <= ttl /\ exists more owner, resolved ans qtype (visited ++ more) owner vs t /\ head (more ++ [owner]) = Some current
  | Raise e => e = DnsError (py "cname-depth") (py "DNS CNAME chain exceeds gateway limit") \/
               e = DnsError (py "cname-loop") (py "DNS CNAME chain contains a loop")
  end.
Proof.
  induction depth as [|depth IH]; intros current ttl visited Hnd Hs Hlen; cbn [answer_values_loop]; [by left|].
  pose proof (matching_values_spec ans current qtype ttl) as Hm. destruct (matching_values _ _ _ _) as [vs t].
  destruct Hm as (Hvs & Ht & Hall). case_bool_decide as Evs; cbn [negb].
  2:{ split; [done|]. exists [], current. rewrite app_nil_r. split; [|done]. repeat (split; [done || lia|]). by intros. }
  assert (records ans current qtype = []) as Hnone by (rewrite Evs in Hvs; by destruct (records _ _ _)).
  pose proof (first_cname_spec ans current t) as Hc. destruct (first_cname _ _ _) as [target t']. destruct Hc as (Ht' & Htgt & Hempty).
  case_bool_decide as Et.
  { split; [lia|]. exists [], current. rewrite app_nil_r. split; [|done]. repeat (split; [done || lia|]).
    rewrite Hnone. split; [done|]. split; [constructor|]. auto. }
  destruct (str_in target visited || str_eqb target current) eqn:El; [by right|]. unfold str_in in El. b2p.
  destruct Htgt as [?|Hin]; [done|]. specialize (IH target t' (visited ++ [current])). rewrite <- app_assoc in IH. cbn [app] in IH.
  ospecialize (IH _ _ _).
  - replace (visited ++ [current; target]) with ((visited ++ [current]) ++ [target]) by (by rewrite <- app_assoc).
    apply NoDup_app. split_and!; [done| |apply NoDup_singleton]. intros x Hx ->%list_elem_of_singleton.
    apply elem_of_app in Hx as [?|?%list_elem_of_singleton]; done.
  - by apply sorted_snoc.
  - lens. lia.
  - destruct (answer_values_loop _ _ _ _ _ _) as [[vs' t'']|e]; [|done]. destruct IH as (Hle & more & owner & Hr & Hh).
    split; [lia|]. exists (current :: more), owner. rewrite <- app_assoc in Hr. by split.
Qed.

Lemma answer_values_raises response name qtype :
  match answer_values response name qtype with Ok _ => True | Raise e => exists c m, e = DnsError c m end.
Proof.
  unfold answer_values.
  pose proof (answer_values_loop_spec (answers response) qtype 16 (canonical_name name) 86400 []) as H. cbn [app] in H.
  ospecialize (H _ _ _); [apply NoDup_singleton|repeat constructor|done|].
  destruct (answer_values_loop _ _ _ _ _ _) as [[vs t]|e]; [done|]. destruct H as [-> | ->]; by eexists _, _.
Qed.

(** an answer is reached through aliases soundly.  The addresses returned for a name
    are all the records of the asked type of one owner, reached from the canonical name
    through fewer than 16 distinct aliases of the response, each without records of its own; the
    returned time to live is at most that of any of those records and at most a day; nothing is returned only
    for an owner that is no further alias; and the only errors are a loop and a chain that
    is too long. *)
Theorem answer_values_sound response name qtype :
  match answer_values response name qtype with
  | Ok (vs, ttl) => ttl <= 86400 /\ exists path owner,
      resolved (answers response) qtype path owner vs ttl /\ head (path ++ [owner]) = Some (canonical_name name)
  | Raise e => e = DnsError (py "cname-depth") (py "DNS CNAME chain exceeds gateway limit") \/
               e = DnsError (py "cname-loop") (py "DNS CNAME chain contains a loop")
  end.
Proof.
  unfold answer_values.
  pose proof (answer_values_loop_spec (answers response) qtype 16 (canonical_name name) 86400 []) as H. cbn [app] in H.
  ospecialize (H _ _ _); [apply NoDup_singleton|repeat constructor|done|].
  destruct (answer_values_loop _ _ _ _ _ _) as [[vs t]|e]; [|done]. destruct H as (? & path & owner & ? & ?). eauto.
Qed.

(** ** Concrete runs *)

Definition sample_policy : dns_policy := DnsAddressPolicy true true false false false (py "same-class") ∅.
Definition sample_lookups : list (str * list str * Z) :=
  [(py "Api.example.", [py "192.0.2.7"], DNS_A);
   (py "api.example", [py "127.0.0.1"], DNS_A);
   (py "api.example", [py "192.0.2.8"; py "192.0.2.7"], DNS_A)].

Example lookups_accepted :
  policy_run sample_lookups sample_policy =
  [((py "api.example", DNS_A), [py "192.0.2.7"]); ((py "api.example", DNS_A), [py "192.0.2.8"; py "192.0.2.7"])].
Proof. vm_compute. reflexivity. Qed.

Lemma rebinding_refused_witness :
  (((py "api.example", DNS_A), [py "192.0.2.7"]) ∈ policy_run sample_lookups sample_policy) /\
  (forall kind, kind ∈ map address_class [py "192.0.2.8"; py "192.0.2.7"] <-> kind ∈ map address_class [py "192.0.2.7"]).
Proof.
  rewrite lookups_accepted. split; [by left|].
  apply (rebinding_refused sample_policy sample_lookups (py "api.example", DNS_A) [py "192.0.2.7"]).
  - by right.
  - rewrite lookups_accepted. by left.
  - rewrite lookups_accepted. by right; left.
  - done.
  - done.
  - reflexivity.
Defined.

Definition sample_cache : dns_cache := DnsCache 1 5000 1000 60000 ∅ [].
Definition sample_cache_calls : list cache_call :=
  [CachePut (py "a.example") DNS_A [py "192.0.2.1"] 500 0 false (py "dns");
   CachePut (py "b.example") DNS_A [py "192.0.2.2"] 90000 10 false (py "dns");
   CacheGet (py "A.example.") DNS_A 20; CacheGet (py "b.example") DNS_A 20].

Lemma cache_refines_lru_witness :
  DnsCache.init 1 5000 1000 60000 = Ok sample_cache /\
  fst (cache_runs sample_cache_calls sample_cache) =
  [Ok (Some (DnsCacheEntry [py "192.0.2.1"] 1000 false (py "dns")));
   Ok (Some (DnsCacheEntry [py "192.0.2.2"] 60010 false (py "dns")));
   Ok None; Ok (Some (DnsCacheEntry [py "192.0.2.2"] 60010 false (py "dns")))].
Proof.
  assert (DnsCache.init 1 5000 1000 60000 = Ok sample_cache) as Hi by reflexivity. split; [exact Hi|].
  pose proof (cache_refines_lru 1 5000 1000 60000 sample_cache sample_cache_calls Hi) as H.
  vm_compute lru_runs in H. destruct H as [-> _]. reflexivity.
Defined.
