(* ===== verification/DnsResolver.v ===== *)
(** * The resolver and its driver ([pcc_gateway/dns.py], last part)

    A [ResolveOperation] and the driver that owns it act on the resolver's cache
    and address policy, which every operation shares, and on a transport: outside
    code reached through the class [DnsTransport], over a world [W].  One call of
    [DnsResolveDriver.step] makes at most one transport observation.  The theorems
    are in [DnsResolverSpec]. *)

From S2P Require Import Prelude PyStr DnsWire DnsPolicy.
#[local] Open Scope Z_scope.

(** ** [ResolveOperation] *)

Record operation := ResolveOperation {
  op_query_id : Z;
  op_name : str;
  op_qtype : Z;
  deadline_ms : Z;
  query : bytes;
  op_use_tcp : bool;
  op_done : bool;
  op_cancelled : bool;
  op_values : list str;
  op_error : str;
  op_source : str;
}.

Definition op_set (use_tcp done_ cancelled : bool) (values : list str) (error : str) (o : operation)
    : operation :=
  ResolveOperation (op_query_id o) (op_name o) (op_qtype o) (deadline_ms o) (query o)
    use_tcp done_ cancelled values error (op_source o).
Definition op_finish (error : str) (o : operation) : operation :=
  op_set (op_use_tcp o) true (op_cancelled o) (op_values o) error o.

(** The cache and the policy the operations of a resolver share. *)
Record dns_shared := DnsShared { sh_cache : dns_cache; sh_policy : dns_policy }.

Module ResolveOperation.

Definition init (query_id : Z) (name : str) (qtype deadline_ms : Z) : result operation :=
  let name := canonical_name name in
  let? query := build_query query_id name qtype in
  Ok (ResolveOperation query_id name qtype deadline_ms query false false false [] [] (py "dns")).

Definition cancel (o : operation) : operation :=
  if op_done o then o else op_set (op_use_tcp o) true true (op_values o) (py "cancelled") o.

Definition check_deadline (now_ms : Z) (o : operation) : bool * operation :=
  if negb (op_done o) && negb (op_cancelled o) && (now_ms >=? deadline_ms o)
  then (true, op_finish (py "timeout") o)
  else (false, o).

Abbreviation MO := (M (operation * dns_shared)).
Definition get_op : MO operation := fun t => (Ok (fst t), t).
Definition upd_op (f : operation -> operation) : MO unit := modify (fun t => (f (fst t), snd t)).
Definition on_cache {A} (m : M dns_cache A) : MO A :=
  zoom (fun t => sh_cache (snd t)) (fun c t => (fst t, DnsShared c (sh_policy (snd t)))) m.
Definition on_policy {A} (m : M dns_policy A) : MO A :=
  zoom (fun t => sh_policy (snd t)) (fun p t => (fst t, DnsShared (sh_cache (snd t)) p)) m.

(** The removal of the TCP length prefix. *)
Definition unframe (use_tcp : bool) (payload : bytes) : result bytes :=
  if use_tcp then
    if len payload <? 2 then dns_error (py "bad-tcp-frame") (py "invalid DNS TCP length prefix")
    else
      let? n := u16 payload 0 in
      if negb (n =? len payload - 2)
      then dns_error (py "bad-tcp-frame") (py "invalid DNS TCP length prefix")
      else Ok (from payload 2)
  else Ok payload.

(** [Some framed] asks the driver to retry over TCP. *)
Definition receive (payload : bytes) (now_ms : Z) : MO (option bytes) :=
  let! o := get_op in
  if op_cancelled o || op_done o
  then raise (DnsError (py "inactive") (py "DNS operation is no longer active"))
  else if now_ms >=? deadline_ms o then
    upd_op (fun o => snd (check_deadline now_ms o)) ;;!
    raise (DnsError (py "timeout") (py "DNS operation deadline expired"))
  else
    let! payload := lift (unframe (op_use_tcp o) payload) in
    let! response := lift (parse_response payload (op_query_id o) (op_name o) (op_qtype o)) in
    if truncated response && negb (op_use_tcp o) then
      upd_op (fun o => op_set true (op_done o) (op_cancelled o) (op_values o) (op_error o) o) ;;!
      ret (Some (put_u16 (len (query o)) ++ query o))
    else if rcode response =? 3 then
      let! _ := on_cache (DnsCache.put_ (op_name o) (op_qtype o) [] 0 now_ms true (py "dns")) in
      upd_op (op_finish (py "nxdomain")) ;;!
      ret None
    else if negb (rcode response =? 0)
    then raise (DnsError (py "rcode-" ++ str_of_int (rcode response))
                  (py "DNS server returned an error"))
    else
      let! (values, ttl) := lift (answer_values response (op_name o) (op_qtype o)) in
      (if bool_decide (values = []) then
         let! _ := on_cache (DnsCache.put_ (op_name o) (op_qtype o) [] 0 now_ms true (py "dns")) in
         upd_op (fun o => op_set (op_use_tcp o) (op_done o) (op_cancelled o) (op_values o)
                            (py "no-address") o)
       else
         let! values := on_policy (DnsAddressPolicy.accept (op_name o) values (op_qtype o)) in
         let! _ := on_cache (DnsCache.put_ (op_name o) (op_qtype o) values (ttl * 1000) now_ms false
                               (py "dns")) in
         upd_op (fun o => op_set (op_use_tcp o) (op_done o) (op_cancelled o) values (op_error o) o)) ;;!
      upd_op (fun o => op_set (op_use_tcp o) true (op_cancelled o) (op_values o) (op_error o) o) ;;!
      ret None.

End ResolveOperation.

(** ** Servers and resolver configuration *)

Record dns_server := DnsServer { sv_address : str; sv_port : Z }.
#[global] Instance dns_server_eq_dec : EqDecision dns_server.
Proof. solve_decision. Defined.

Definition make_server (address : str) (port : Z) : result dns_server :=
  match normalize_numeric_address address 0 with
  | None => Raise (ValueError (py "DNS server address must be numeric"))
  | Some canonical =>
      if (port <=? 0) || (port >? 65535) then Raise (ValueError (py "invalid DNS server port"))
      else Ok (DnsServer canonical port)
  end.

(** The provenance a transport reports: nothing, a server object, or text. *)
Inductive peer := NoPeer | PeerServer (s : dns_server) | PeerText (t : str).
Definition peer_is_none (p : peer) : bool := match p with NoPeer => true | _ => false end.
Definition matches_peer (s : dns_server) (p : peer) : bool :=
  match p with
  | NoPeer => false
  | PeerServer q => str_eqb (sv_address q) (sv_address s) && (sv_port q =? sv_port s)
  | PeerText t =>
      if bool_decide (t = []) then false
      else match normalize_numeric_address t 0 with
           | Some canonical => str_eqb canonical (sv_address s) && (sv_port s =? 53)
           | None => false
           end
  end.

Record resolver_config := DnsResolverConfig {
  servers : list dns_server;
  attempts_per_server : Z;
  attempt_timeout_ms : Z;
  max_invalid_replies : Z;
  max_udp_bytes : Z;
  max_tcp_bytes : Z;
  rotate : bool;
  cfg_use_tcp : bool;
}.
Definition make_resolver_config (servers : list (dns_server + str))
    (attempts_per_server attempt_timeout_ms max_invalid_replies max_udp_bytes max_tcp_bytes : Z)
    (rotate use_tcp : bool) : result resolver_config :=
  if (attempts_per_server <=? 0) || (attempt_timeout_ms <=? 0) || (max_invalid_replies <=? 0)
     || (max_udp_bytes <? 512) || (max_tcp_bytes <? 512) || (max_tcp_bytes >? 65535)
  then Raise (ValueError (py "invalid DNS resolver limits"))
  else
    let? normalized :=
      foldr (fun s acc =>
               let? one := match s with inl sv => Ok sv | inr a => make_server a 53 end in
               let? rest := acc in
               Ok (one :: rest)) (Ok []) servers in
    Ok (DnsResolverConfig normalized attempts_per_server attempt_timeout_ms max_invalid_replies
          max_udp_bytes max_tcp_bytes rotate use_tcp).

(** The loop returns early at the first digit that passes the maximum. *)
Fixpoint resolver_option_go (maximum parsed : Z) (value : str) : option Z :=
  match value with
  | [] => Some parsed
  | char :: value' =>
      if (char <? 48) || (char >? 57) then None
      else
        let parsed := parsed * 10 + (char - 48) in
        if parsed >? maximum then Some maximum else resolver_option_go maximum parsed value'
  end.
Definition bounded_resolver_option (value : str) (minimum maximum : Z) : option Z :=
  if bool_decide (value = []) then None
  else match resolver_option_go maximum 0 value with
       | None => None
       | Some parsed => Some (if parsed <? minimum then minimum else parsed)
       end.

(** What the parser of [resolv.conf] has collected. *)
Record resolv_acc := ResolvAcc {
  ra_servers : list dns_server;
  ra_attempts : Z;
  ra_timeout_ms : Z;
  ra_rotate : bool;
  ra_use_tcp : bool;
}.
Definition resolv_option (a : resolv_acc) (option_ : str) : resolv_acc :=
  let attempts_prefix := py "attempts:" in
  let timeout_prefix := py "timeout:" in
  if str_eqb option_ (py "rotate")
  then ResolvAcc (ra_servers a) (ra_attempts a) (ra_timeout_ms a) true (ra_use_tcp a)
  else if str_eqb option_ (py "use-vc") || str_eqb option_ (py "usevc")
  then ResolvAcc (ra_servers a) (ra_attempts a) (ra_timeout_ms a) (ra_rotate a) true
  else if starts_with attempts_prefix option_ then
    match bounded_resolver_option (from option_ (len attempts_prefix)) 1 5 with
    | Some parsed => ResolvAcc (ra_servers a) parsed (ra_timeout_ms a) (ra_rotate a) (ra_use_tcp a)
    | None => a
    end
  else if starts_with timeout_prefix option_ then
    match bounded_resolver_option (from option_ (len timeout_prefix)) 1 30 with
    | Some parsed => ResolvAcc (ra_servers a) (ra_attempts a) (parsed * 1000) (ra_rotate a) (ra_use_tcp a)
    | None => a
    end
  else a.
Definition resolv_nameserver (a : resolv_acc) (text : str) : result resolv_acc :=
  match normalize_numeric_address text 0 with
  | None => Ok a
  | Some address =>
      let duplicate :=
        existsb (fun s => str_eqb (sv_address s) address && (sv_port s =? 53)) (ra_servers a) in
      if negb duplicate && (len (ra_servers a) <? 8) then
        let? s := make_server address 53 in
        Ok (ResolvAcc (ra_servers a ++ [s]) (ra_attempts a) (ra_timeout_ms a) (ra_rotate a) (ra_use_tcp a))
      else Ok a
  end.
(** [line.split(c, 1)[0]] *)
Definition before_char (c : Z) (line : str) : str := default [] (head (split_char_max c 1 line)).
Definition resolv_line (a : resolv_acc) (raw_line : str) : result resolv_acc :=
  let line := strip (before_char 59 (before_char 35 raw_line)) in
  if bool_decide (line = []) then Ok a
  else if len line >? 4096
  then dns_error (py "resolver-line-too-long") (py "resolver configuration line exceeds gateway limit")
  else
    match split_ws line with
    | [] => Ok a
    | key :: fields =>
        if str_eqb key (py "nameserver") && (len fields >=? 1)
        then resolv_nameserver a (default [] (head fields))
        else if str_eqb key (py "options") then Ok (fold_left resolv_option fields a)
        else Ok a
    end.
Fixpoint resolv_lines (a : resolv_acc) (lines : list str) : result resolv_acc :=
  match lines with
  | [] => Ok a
  | l :: ls => let? a := resolv_line a l in resolv_lines a ls
  end.
Definition parse_resolver_config (text : str) (default_attempts default_timeout_ms : Z)
    : result resolver_config :=
  if len text >? 65535
  then dns_error (py "resolver-config-too-large") (py "resolver configuration exceeds gateway limit")
  else
    let? a := resolv_lines (ResolvAcc [] default_attempts default_timeout_ms false false)
                (splitlines text) in
    make_resolver_config (map inl (ra_servers a)) (ra_attempts a) (ra_timeout_ms a) 4 4096 65535
      (ra_rotate a) (ra_use_tcp a).

(** ** The transport *)

Inductive io_status := DNS_IO_OK | DNS_IO_WOULD_BLOCK | DNS_IO_EOF | DNS_IO_ERROR.
#[global] Instance io_status_eq_dec : EqDecision io_status.
Proof. solve_decision. Defined.
Inductive protocol := UDP | TCP.
#[global] Instance protocol_eq_dec : EqDecision protocol.
Proof. solve_decision. Defined.

Record io_result := DnsIoResult {
  io_st : io_status;
  io_handle : Z;
  io_count : Z;
  io_data : bytes;
  io_peer : peer;
  io_error : str;
}.

(** The observation contract of the adapters: no method raises. *)
Class DnsTransport (W : Type) := {
  tr_open : protocol -> dns_server -> W -> io_result * W;
  tr_connect : Z -> dns_server -> W -> io_result * W;
  tr_send : Z -> bytes -> Z -> W -> io_result * W;
  tr_receive : Z -> Z -> W -> io_result * W;
  tr_close : Z -> W -> W;
}.

Definition fail_closed_reason : str := py "live-dns-transport-unavailable".
#[global] Instance FailClosedDnsTransport : DnsTransport unit := {|
  tr_open := fun _ _ w => (DnsIoResult DNS_IO_ERROR (-1) 0 [] NoPeer fail_closed_reason, w);
  tr_connect := fun h _ w => (DnsIoResult DNS_IO_ERROR h 0 [] NoPeer fail_closed_reason, w);
  tr_send := fun h _ _ w => (DnsIoResult DNS_IO_ERROR h 0 [] NoPeer fail_closed_reason, w);
  tr_receive := fun h _ w => (DnsIoResult DNS_IO_ERROR h 0 [] NoPeer fail_closed_reason, w);
  tr_close := fun _ w => w;
|}.

(** ** [DnsResolveDriver] *)

Inductive driver_state := Open | Connect | Send | Receive.
#[global] Instance driver_state_eq_dec : EqDecision driver_state.
Proof. solve_decision. Defined.

Record driver := Driver {
  d_operation : option operation;
  d_config : resolver_config;
  start_server : Z;
  attempt : Z;
  max_attempts : Z;
  attempt_deadline_ms : Z;
  d_server : option dns_server;
  d_protocol : protocol;
  handle : Z;
  d_state : driver_state;
  send_data : bytes;
  send_offset : Z;
  tcp_buffer : bytes;
  tcp_expected : Z;
  invalid_replies : Z;
  d_done : bool;
  d_values : list str;
  d_source : str;
  d_error : str;
  last_error : str;
}.

Definition d_set_op (o : option operation) (d : driver) : driver :=
  Driver o (d_config d) (start_server d) (attempt d) (max_attempts d) (attempt_deadline_ms d)
    (d_server d) (d_protocol d) (handle d) (d_state d) (send_data d) (send_offset d) (tcp_buffer d)
    (tcp_expected d) (invalid_replies d) (d_done d) (d_values d) (d_source d) (d_error d) (last_error d).
Definition d_set_attempt (n : Z) (e : str) (d : driver) : driver :=
  Driver (d_operation d) (d_config d) (start_server d) n (max_attempts d) (attempt_deadline_ms d)
    (d_server d) (d_protocol d) (handle d) (d_state d) (send_data d) (send_offset d) (tcp_buffer d)
    (tcp_expected d) (invalid_replies d) (d_done d) (d_values d) (d_source d) (d_error d) e.
Definition d_set_deadline (n : Z) (d : driver) : driver :=
  Driver (d_operation d) (d_config d) (start_server d) (attempt d) (max_attempts d) n
    (d_server d) (d_protocol d) (handle d) (d_state d) (send_data d) (send_offset d) (tcp_buffer d)
    (tcp_expected d) (invalid_replies d) (d_done d) (d_values d) (d_source d) (d_error d) (last_error d).
Definition d_set_handle (h : Z) (d : driver) : driver :=
  Driver (d_operation d) (d_config d) (start_server d) (attempt d) (max_attempts d)
    (attempt_deadline_ms d) (d_server d) (d_protocol d) h (d_state d) (send_data d) (send_offset d)
    (tcp_buffer d) (tcp_expected d) (invalid_replies d) (d_done d) (d_values d) (d_source d)
    (d_error d) (last_error d).
Definition d_set_state (st : driver_state) (d : driver) : driver :=
  Driver (d_operation d) (d_config d) (start_server d) (attempt d) (max_attempts d)
    (attempt_deadline_ms d) (d_server d) (d_protocol d) (handle d) st (send_data d) (send_offset d)
    (tcp_buffer d) (tcp_expected d) (invalid_replies d) (d_done d) (d_values d) (d_source d)
    (d_error d) (last_error d).
(** Everything a new connection starts from. *)
Definition d_reset_io (p : protocol) (data : bytes) (d : driver) : driver :=
  Driver (d_operation d) (d_config d) (start_server d) (attempt d) (max_attempts d)
    (attempt_deadline_ms d) (d_server d) p (handle d) Open data 0 [] (-1) (invalid_replies d)
    (d_done d) (d_values d) (d_source d) (d_error d) (last_error d).
Definition d_set_server (s : option dns_server) (d : driver) : driver :=
  Driver (d_operation d) (d_config d) (start_server d) (attempt d) (max_attempts d)
    (attempt_deadline_ms d) s (d_protocol d) (handle d) (d_state d) (send_data d) (send_offset d)
    (tcp_buffer d) (tcp_expected d) (invalid_replies d) (d_done d) (d_values d) (d_source d)
    (d_error d) (last_error d).
Definition d_set_invalid (n : Z) (d : driver) : driver :=
  Driver (d_operation d) (d_config d) (start_server d) (attempt d) (max_attempts d)
    (attempt_deadline_ms d) (d_server d) (d_protocol d) (handle d) (d_state d) (send_data d)
    (send_offset d) (tcp_buffer d) (tcp_expected d) n (d_done d) (d_values d) (d_source d)
    (d_error d) (last_error d).
Definition d_set_sent (n : Z) (d : driver) : driver :=
  Driver (d_operation d) (d_config d) (start_server d) (attempt d) (max_attempts d)
    (attempt_deadline_ms d) (d_server d) (d_protocol d) (handle d) (d_state d) (send_data d) n
    (tcp_buffer d) (tcp_expected d) (invalid_replies d) (d_done d) (d_values d) (d_source d)
    (d_error d) (last_error d).
Definition d_set_tcp (buf : bytes) (expected : Z) (d : driver) : driver :=
  Driver (d_operation d) (d_config d) (start_server d) (attempt d) (max_attempts d)
    (attempt_deadline_ms d) (d_server d) (d_protocol d) (handle d) (d_state d) (send_data d)
    (send_offset d) buf expected (invalid_replies d) (d_done d) (d_values d) (d_source d)
    (d_error d) (last_error d).
Definition d_set_result (dn : bool) (vs : list str) (src err : str) (d : driver) : driver :=
  Driver (d_operation d) (d_config d) (start_server d) (attempt d) (max_attempts d)
    (attempt_deadline_ms d) (d_server d) (d_protocol d) (handle d) (d_state d) (send_data d)
    (send_offset d) (tcp_buffer d) (tcp_expected d) (invalid_replies d) dn vs src err (last_error d).

Inductive drive_kind := KError | KComplete | KRetry | KWaitRead | KWaitWrite | KIgnored | KProgress.
#[global] Instance drive_kind_eq_dec : EqDecision drive_kind.
Proof. solve_decision. Defined.
Record drive_result := DnsDriveResult {
  dv_kind : drive_kind;
  dv_handle : Z;
  dv_deadline_ms : Z;
  dv_server : option dns_server;
  dv_values : list str;
  dv_source : str;
  dv_error : str;
}.

Definition frame (q : bytes) : bytes := put_u16 (len q) ++ q.

Module DnsResolveDriver.
Section driver.
Context {W : Type} `{DnsTransport W}.

(** A method of the driver runs over it, the shared cache and policy, and the
    world of the transport. *)
Record env := Env { e_driver : driver; e_shared : dns_shared; e_world : W }.
Abbreviation D := (M env).
Definition getd : D driver := fun t => (Ok (e_driver t), t).
Definition upd (f : driver -> driver) : D unit :=
  modify (fun t => Env (f (e_driver t)) (e_shared t) (e_world t)).
Definition observe {A} (f : W -> A * W) : D A := fun t =>
  let '(a, w) := f (e_world t) in (Ok a, Env (e_driver t) (e_shared t) w).

(** [self.operation], where the driver is not done. *)
Definition get_operation : D operation :=
  let! d := getd in
  match d_operation d with
  | Some o => ret o
  | None => raise (TypeError (py "'NoneType' object has no attribute"))
  end.
Definition get_server : D dns_server :=
  let! d := getd in
  match d_server d with
  | Some s => ret s
  | None => raise (TypeError (py "'NoneType' object has no attribute"))
  end.

Definition capped_deadline (now_ms : Z) (d : driver) (o : operation) : Z :=
  let n := now_ms + attempt_timeout_ms (d_config d) in
  if n >? deadline_ms o then deadline_ms o else n.

(** [_select_attempt]; the division and the index are those of the source. *)
Definition select_attempt (now_ms : Z) (d : driver) (o : operation) : driver :=
  let index := (start_server d + attempt d / attempts_per_server (d_config d))
                 mod len (servers (d_config d)) in
  let d := d_set_server (at_ (servers (d_config d)) index) d in
  let d := d_set_deadline (capped_deadline now_ms d o) d in
  let d := d_set_handle (-1) d in
  let d := if cfg_use_tcp (d_config d) then d_reset_io TCP (frame (query o)) d
           else d_reset_io UDP (query o) d in
  d_set_invalid 0 d.

Definition init (op : option operation) (config : resolver_config) (now_ms start : Z)
    (terminal_values : option (list str)) (terminal_source terminal_error : str) : driver :=
  let done0 := match terminal_values with Some _ => true | None => false end
               || negb (bool_decide (terminal_error = [])) in
  let data := match op with
              | Some o => if cfg_use_tcp config then frame (query o) else query o
              | None => []
              end in
  let d := Driver op config start 0 (len (servers config) * attempts_per_server config) now_ms None
             (if cfg_use_tcp config then TCP else UDP) (-1) Open data 0 [] (-1) 0 done0
             (default [] terminal_values) terminal_source terminal_error [] in
  if negb done0 && (max_attempts d =? 0)
  then d_set_result true (d_values d) (d_source d) (py "no-dns-servers") d
  else if negb done0 then
    match op with Some o => select_attempt now_ms d o | None => d end
  else d.

Definition close_ : D unit :=
  let! d := getd in
  if negb (handle d =? -1) then
    let! _ := observe (fun w => (tt, tr_close (handle d) w)) in
    upd (d_set_handle (-1))
  else ret tt.

Definition terminal (error : str) : D drive_result :=
  close_ ;;!
  upd (fun d => d_set_result true (d_values d) (d_source d) (d_error d) d) ;;!
  (if negb (bool_decide (error = [])) then
     upd (fun d => d_set_result true (d_values d) (d_source d) error d) ;;!
     upd (fun d => match d_operation d with
                   | Some o => if op_done o then d else d_set_op (Some (op_finish error o)) d
                   | None => d
                   end)
   else
     upd (fun d => match d_operation d with
                   | Some o => d_set_result true (op_values o) (op_source o) (op_error o) d
                   | None => d
                   end)) ;;!
  let! d := getd in
  if negb (bool_decide (d_error d = []))
  then ret (DnsDriveResult KError (-1) (-1) None (d_values d) (d_source d) (d_error d))
  else ret (DnsDriveResult KComplete (-1) (-1) None (d_values d) (d_source d) []).

Definition plain (kind : drive_kind) (error : str) : D drive_result :=
  let! d := getd in ret (DnsDriveResult kind (-1) (-1) (d_server d) [] [] error).

Definition retry (error : str) (now_ms : Z) : D drive_result :=
  close_ ;;!
  upd (fun d => d_set_attempt (attempt d + 1) error d) ;;!
  let! o := get_operation in
  if now_ms >=? deadline_ms o then terminal (py "timeout")
  else
    let! d := getd in
    if attempt d >=? max_attempts d then terminal (py "retry-exhausted:" ++ error)
    else upd (fun d => select_attempt now_ms d o) ;;! plain KRetry error.

Definition wait (kind : drive_kind) : D drive_result :=
  let! d := getd in
  ret (DnsDriveResult kind (handle d) (attempt_deadline_ms d) (d_server d) [] [] []).

Definition invalid (code : str) (now_ms : Z) (tcp : bool) : D drive_result :=
  upd (fun d => d_set_invalid (invalid_replies d + 1) d) ;;!
  let! d := getd in
  if tcp || starts_with (py "rcode-") code
     || (invalid_replies d >=? max_invalid_replies (d_config d))
  then retry code now_ms
  else plain KIgnored code.

Definition switch_to_tcp (framed_query : bytes) (now_ms : Z) : D drive_result :=
  close_ ;;!
  upd (d_reset_io TCP framed_query) ;;!
  let! o := get_operation in
  upd (fun d => d_set_deadline (capped_deadline now_ms d o) d) ;;!
  plain KProgress [].

Definition cancel : D drive_result :=
  let! d := getd in
  if d_done d then terminal (d_error d)
  else
    upd (fun d => d_set_op (option_map ResolveOperation.cancel (d_operation d)) d) ;;!
    terminal (py "cancelled").

(** [self.operation.receive(...)] with [except DnsError] around it. *)
Definition receive_op (payload : bytes) (now_ms : Z) : D (option bytes + str) :=
  let! o := get_operation in
  fun t =>
    match ResolveOperation.receive payload now_ms (o, e_shared t) with
    | (Ok r, (o', sh)) => (Ok (inl r), Env (d_set_op (Some o') (e_driver t)) sh (e_world t))
    | (Raise (DnsError code _), (o', sh)) =>
        (Ok (inr code), Env (d_set_op (Some o') (e_driver t)) sh (e_world t))
    | (Raise e, (o', sh)) => (Raise e, Env (d_set_op (Some o') (e_driver t)) sh (e_world t))
    end.

Definition or_ (error default_ : str) : str := if bool_decide (error = []) then default_ else error.

Definition step_open (now_ms : Z) : D drive_result :=
  let! d := getd in
  let! s := get_server in
  let! observed := observe (tr_open (d_protocol d) s) in
  if negb (bool_decide (io_st observed = DNS_IO_OK)) || (io_handle observed =? -1)
  then retry (or_ (io_error observed) (py "transport-open")) now_ms
  else
    upd (d_set_handle (io_handle observed)) ;;!
    upd (d_set_state Connect) ;;!
    plain KProgress [].

Definition step_connect (now_ms : Z) : D drive_result :=
  let! d := getd in
  let! s := get_server in
  let! observed := observe (tr_connect (handle d) s) in
  if bool_decide (io_st observed = DNS_IO_WOULD_BLOCK) then wait KWaitWrite
  else if negb (bool_decide (io_st observed = DNS_IO_OK))
  then retry (or_ (io_error observed) (py "transport-connect")) now_ms
  else upd (d_set_state Send) ;;! plain KProgress [].

Definition step_send (now_ms : Z) : D drive_result :=
  let! d := getd in
  let! observed := observe (tr_send (handle d) (send_data d) (send_offset d)) in
  if bool_decide (io_st observed = DNS_IO_WOULD_BLOCK) then wait KWaitWrite
  else if negb (bool_decide (io_st observed = DNS_IO_OK))
  then retry (or_ (io_error observed) (py "transport-send")) now_ms
  else
    let remaining := len (send_data d) - send_offset d in
    if (io_count observed <=? 0) || (io_count observed >? remaining)
    then retry (py "invalid-send-progress") now_ms
    else if bool_decide (d_protocol d = UDP) && negb (io_count observed =? remaining)
    then retry (py "short-udp-send") now_ms
    else
      upd (fun d => d_set_sent (send_offset d + io_count observed) d) ;;!
      upd (fun d => if send_offset d =? len (send_data d) then d_set_state Receive d else d) ;;!
      plain KProgress [].

Definition receive_udp (observed : io_result) (now_ms : Z) : D drive_result :=
  let! s := get_server in
  if negb (matches_peer s (io_peer observed)) then invalid (py "server-mismatch") now_ms false
  else
    let! r := receive_op (io_data observed) now_ms in
    match r with
    | inr code => invalid code now_ms false
    | inl (Some framed) => switch_to_tcp framed now_ms
    | inl None => terminal []
    end.

(** From the complete frame on. *)
Definition receive_frame (now_ms : Z) : D drive_result :=
  let! d := getd in
  let! r := receive_op (upto (tcp_buffer d) (tcp_expected d + 2)) now_ms in
  match r with
  | inr code => invalid code now_ms true
  | inl _ => terminal []
  end.

Definition receive_tcp (observed : io_result) (now_ms : Z) : D drive_result :=
  let! s := get_server in
  if negb (peer_is_none (io_peer observed)) && negb (matches_peer s (io_peer observed))
  then invalid (py "server-mismatch") now_ms true
  else
    upd (fun d => d_set_tcp (tcp_buffer d ++ io_data observed) (tcp_expected d) d) ;;!
    let! d := getd in
    if len (tcp_buffer d) >? max_tcp_bytes (d_config d) + 2
    then retry (py "response-too-large") now_ms
    else
      let! bad :=
        (if (tcp_expected d <? 0) && (len (tcp_buffer d) >=? 2) then
           let! n := lift (u16 (tcp_buffer d) 0) in
           upd (fun d => d_set_tcp (tcp_buffer d) n d) ;;!
           ret ((n <=? 0) || (n >? max_tcp_bytes (d_config d)))
         else ret false) in
      if bad then retry (py "bad-tcp-frame-length") now_ms
      else
        let! d := getd in
        if (tcp_expected d <? 0) || (len (tcp_buffer d) <? tcp_expected d + 2) then
          let! o := get_operation in
          upd (fun d => d_set_deadline (capped_deadline now_ms d o) d) ;;!
          plain KProgress []
        else receive_frame now_ms.

Definition step_receive (now_ms : Z) : D drive_result :=
  let! d := getd in
  let receive_limit := match d_protocol d with
                       | UDP => max_udp_bytes (d_config d)
                       | TCP => max_tcp_bytes (d_config d)
                       end in
  let! observed := observe (tr_receive (handle d) receive_limit) in
  match io_st observed with
  | DNS_IO_WOULD_BLOCK => wait KWaitRead
  | DNS_IO_EOF => retry (py "unexpected-eof") now_ms
  | DNS_IO_ERROR => retry (or_ (io_error observed) (py "transport-receive")) now_ms
  | DNS_IO_OK =>
      if bool_decide (io_data observed = []) then retry (py "empty-response") now_ms
      else if len (io_data observed) >? receive_limit then retry (py "response-too-large") now_ms
      else match d_protocol d with
           | UDP => receive_udp observed now_ms
           | TCP => receive_tcp observed now_ms
           end
  end.

Definition step (now_ms : Z) : D drive_result :=
  let! d := getd in
  if d_done d then
    if negb (bool_decide (d_error d = []))
    then ret (DnsDriveResult KError (-1) (-1) None (d_values d) (d_source d) (d_error d))
    else ret (DnsDriveResult KComplete (-1) (-1) None (d_values d) (d_source d) [])
  else
    let! o := get_operation in
    if op_cancelled o then terminal (py "cancelled")
    else if now_ms >=? deadline_ms o then terminal (py "timeout")
    else if now_ms >=? attempt_deadline_ms d then retry (py "attempt-timeout") now_ms
    else match d_state d with
         | Open => step_open now_ms
         | Connect => step_connect now_ms
         | Send => step_send now_ms
         | Receive => step_receive now_ms
         end.

End driver.
End DnsResolveDriver.

(** ** [Resolver] *)

Record resolver := Resolver {
  r_shared : dns_shared;
  r_config : resolver_config;
  r_hosts : hosts_table;
  next_query_id : Z;
  next_server : Z;
}.

Module Resolver.

Definition init (cache : dns_cache) (config : resolver_config) (hosts : hosts_table)
    (policy : dns_policy) (query_seed : Z) : result resolver :=
  if (query_seed <=? 0) || (query_seed >? 65535)
  then Raise (ValueError (py "DNS query seed must fit nonzero u16"))
  else Ok (Resolver (DnsShared cache policy) config hosts query_seed 0).

Definition set_ids (id srv : Z) (r : resolver) : resolver :=
  Resolver (r_shared r) (r_config r) (r_hosts r) id srv.
Definition on_cache {A} (m : M dns_cache A) : M resolver A :=
  zoom (fun r => sh_cache (r_shared r))
       (fun c r => Resolver (DnsShared c (sh_policy (r_shared r))) (r_config r) (r_hosts r)
                            (next_query_id r) (next_server r)) m.
Definition on_policy {A} (m : M dns_policy A) : M resolver A :=
  zoom (fun r => sh_policy (r_shared r))
       (fun p r => Resolver (DnsShared (sh_cache (r_shared r)) p) (r_config r) (r_hosts r)
                            (next_query_id r) (next_server r)) m.

(** The section under the resolver's lock. *)
Definition allocate_id : M resolver Z :=
  let! r := get in
  let id := Z.land (next_query_id r + 1) 65535 in
  modify (set_ids (if id =? 0 then 1 else id) (next_server r)) ;;!
  ret (next_query_id r).
Definition allocate_operation (name : str) (qtype deadline_ms : Z) : M resolver operation :=
  let! query_id := allocate_id in
  lift (ResolveOperation.init query_id name qtype deadline_ms).

Definition begin (name : str) (qtype now_ms deadline_ms : Z) : M resolver (cache_entry + operation) :=
  let! cached := on_cache (DnsCache.get_ name qtype now_ms) in
  match cached with
  | Some e => ret (inl e)
  | None => let! o := allocate_operation name qtype deadline_ms in ret (inr o)
  end.

Definition next_start : M resolver Z :=
  let! r := get in
  let start := if rotate (r_config r) then next_server r else 0 in
  (if negb (bool_decide (servers (r_config r) = [])) && rotate (r_config r)
   then modify (set_ids (next_query_id r) ((next_server r + 1) mod len (servers (r_config r))))
   else ret tt) ;;!
  ret start.

Definition begin_driver (name : str) (qtype now_ms deadline_ms : Z) : M resolver driver :=
  let! r := get in
  let config := r_config r in
  if negb ((qtype =? DNS_A) || (qtype =? DNS_AAAA))
  then raise (ValueError (py "gateway resolver supports A and AAAA"))
  else if deadline_ms <=? now_ms then
    let! o := allocate_operation name qtype deadline_ms in
    let '(_, o) := ResolveOperation.check_deadline now_ms o in
    ret (DnsResolveDriver.init (Some o) config now_ms 0 None [] (py "timeout"))
  else
    match normalize_numeric_address name qtype with
    | Some numeric =>
        let! values := on_policy (DnsAddressPolicy.accept name [numeric] qtype) in
        ret (DnsResolveDriver.init None config now_ms 0 (Some values) (py "numeric") [])
    | None =>
        match HostsTable.lookup (r_hosts r) name qtype with
        | Some hosts_values =>
            let! values := on_policy (DnsAddressPolicy.accept name hosts_values qtype) in
            ret (DnsResolveDriver.init None config now_ms 0 (Some values) (py "hosts") [])
        | None =>
            let! cached := on_cache (DnsCache.get_ name qtype now_ms) in
            match cached with
            | Some e =>
                ret (DnsResolveDriver.init None config now_ms 0
                       (Some (if negative e then [] else ce_values e)) (py "cache")
                       (if negative e then py "cached-negative" else []))
            | None =>
                let! o := allocate_operation name qtype deadline_ms in
                let! start := next_start in
                ret (DnsResolveDriver.init (Some o) config now_ms start None [] [])
            end
        end
    end.

End Resolver.
