(* ===== verification/DnsResolverSpec.v ===== *)
(** * Properties of the resolver's driver

    Whatever the transport observes, a step never raises, the driver's connections are
    opened, used and closed in turn with none left when the resolution is done, and the
    number of steps that do not wait is bounded by the configuration. *)

From S2P Require Import Prelude PyStr PyLists DnsWire DnsWireSpec DnsPolicy DnsPolicySpec DnsResolver.
#[local] Open Scope Z_scope.

(** ** The operation *)

Lemma is_DnsError_inv e : is_DnsError e -> exists c m, e = DnsError c m.
Proof. destruct e; try done. intros _. by eexists _, _. Qed.

Lemma unframe_spec tcp payload : octets payload ->
  match ResolveOperation.unframe tcp payload with Ok p => octets p | Raise e => is_DnsError e end.
Proof.
  intros Ho. unfold ResolveOperation.unframe. destruct tcp; [|done]. destruct (len payload <? 2) eqn:E; [done|]. b2p.
  pose proof (u16_spec payload 0 ltac:(lia)) as Hu. destruct (u16 payload 0) as [n|e]; cbn [rbind]; [|done].
  destruct (negb _); [done|]. by apply Forall_drop.
Qed.

Lemma put_total name qtype values ttl now neg source c :
  exists e c', DnsCache.put_ name qtype values ttl now neg source c = (Ok e, c').
Proof.
  unfold DnsCache.put_, bind, get. cbv zeta.
  destruct (if bool_decide _ then _ else _) as [es od]. unfold put, ret. by eexists _, _.
Qed.

Lemma on_cache_put name qtype values ttl now neg source o sh :
  exists e c', ResolveOperation.on_cache (DnsCache.put_ name qtype values ttl now neg source) (o, sh)
               = (Ok e, (o, DnsShared c' (sh_policy sh))).
Proof.
  unfold ResolveOperation.on_cache, zoom. cbn [fst snd].
  destruct (put_total name qtype values ttl now neg source (sh_cache sh)) as (e & c' & ->). by eexists _, _.
Qed.

(** What one reply does to a live operation. *)
Lemma receive_spec payload now o sh :
  octets payload -> op_done o = false -> op_cancelled o = false -> now < deadline_ms o ->
  match ResolveOperation.receive payload now (o, sh) with
  | (Ok None, (o', _)) => op_done o' = true
  | (Ok (Some framed), (o', _)) =>
      framed = frame (query o) /\ op_use_tcp o = false /\ o' = op_set true false false (op_values o) (op_error o) o
  | (Raise e, (o', _)) => is_DnsError e /\ o' = o
  end.
Proof.
  intros Ho Hd Hc Hnow. unfold ResolveOperation.receive, ResolveOperation.get_op, bind at 1. cbn [fst]. rewrite Hd, Hc. cbn [orb].
  zdec. unfold bind at 1, lift at 1. pose proof (unframe_spec (op_use_tcp o) payload Ho) as Hu.
  destruct (ResolveOperation.unframe _ _) as [p|e]; [|done].
  unfold bind at 1, lift at 1.
  pose proof (parse_response_raises p (op_query_id o) (op_name o) (op_qtype o) Hu) as Hp.
  destruct (parse_response _ _ _ _) as [resp|e]; [|done].
  destruct (truncated resp && negb (op_use_tcp o)) eqn:Et.
  { b2p. unfold bind, ResolveOperation.upd_op, modify, ret. cbn [fst snd]. by rewrite Hd, Hc. }
  destruct (rcode resp =? 3).
  { destruct (on_cache_put (op_name o) (op_qtype o) [] 0 now true (py "dns") o sh) as (x & c & E). by run E. }
  destruct (negb (rcode resp =? 0)); [done|].
  unfold bind at 1, lift at 1. pose proof (answer_values_raises resp (op_name o) (op_qtype o)) as Ha.
  destruct (answer_values _ _ _) as [[vs ttl]|e]; [|by destruct Ha as (c & m & ->)]. case_bool_decide.
  { unfold bind at 1. destruct (on_cache_put (op_name o) (op_qtype o) [] 0 now true (py "dns") o sh) as (x & c & E). by run E. }
  unfold bind at 1. unfold bind at 1, ResolveOperation.on_policy at 1, zoom at 1. cbn [fst snd].
  pose proof (accept_spec (sh_policy sh) (op_name o) vs (op_qtype o)) as Hacc.
  destruct (DnsAddressPolicy.accept _ _ _ _) as [[cs|e] p']; [|by destruct Hacc as [(c & m & ->) _]].
  destruct (on_cache_put (op_name o) (op_qtype o) cs (ttl * 1000) now false (py "dns") o (DnsShared (sh_cache sh) p')) as (x & c & E).
  by run E.
Qed.

(** ** A transport with a ledger

    The same transport, recording which handles it opened, used and closed. *)

Inductive io_event := Opened (h : Z) | Used (h : Z) | Closed (h : Z).

(** One connection at a time: opened, then used, then closed before the next is opened. *)
Definition ledger_step (st : option (option Z)) (ev : io_event) : option (option Z) :=
  match st, ev with
  | Some None, Opened h => Some (Some h)
  | Some (Some h), Used h' => if h' =? h then Some (Some h) else None
  | Some (Some h), Closed h' => if h' =? h then Some None else None
  | _, _ => None
  end.
(** [Some held] when the log obeys the protocol and [held] is what it leaves open. *)
Definition ledger (log : list io_event) : option (option Z) := fold_left ledger_step log (Some None).

Lemma ledger_snoc log ev : ledger (log ++ [ev]) = ledger_step (ledger log) ev.
Proof. unfold ledger. by rewrite fold_left_app. Qed.

Definition opened_by (r : io_result) (log : list io_event) : list io_event :=
  if bool_decide (io_st r = DNS_IO_OK) && negb (io_handle r =? -1) then log ++ [Opened (io_handle r)] else log.

#[local] Instance ledger_transport (W : Type) (H : DnsTransport W) : DnsTransport (W * list io_event) := {|
  tr_open := fun p s w => let '(r, w') := tr_open p s (fst w) in (r, (w', opened_by r (snd w)));
  tr_connect := fun h s w => let '(r, w') := tr_connect h s (fst w) in (r, (w', snd w ++ [Used h]));
  tr_send := fun h d i w => let '(r, w') := tr_send h d i (fst w) in (r, (w', snd w ++ [Used h]));
  tr_receive := fun h n w => let '(r, w') := tr_receive h n (fst w) in (r, (w', snd w ++ [Used h]));
  tr_close := fun h w => (tr_close h (fst w), snd w ++ [Closed h]);
|}.

(** ** The measure *)

Definition connection_budget (d : driver) (o : operation) : Z :=
  7 + len (query o) + max_tcp_bytes (d_config d) + max_invalid_replies (d_config d).
Definition state_rank (st : driver_state) : Z :=
  match st with Open => 3 | Connect => 2 | Send => 1 | Receive => 0 end.
Definition io_left (d : driver) : Z :=
  state_rank (d_state d) + (len (send_data d) - send_offset d) + (max_tcp_bytes (d_config d) + 2 - len (tcp_buffer d))
  + (max_invalid_replies (d_config d) - invalid_replies d).
(** Attempts left, each with a connection over UDP and one over TCP. *)
Definition attempts_budget (d : driver) (o : operation) : Z :=
  (max_attempts d - attempt d) * (2 * connection_budget d o) + (if op_use_tcp o then 0 else connection_budget d o).
Definition steps_left (d : driver) : Z :=
  if d_done d then 0
  else match d_operation d with Some o => attempts_budget d o + io_left d | None => 0 end.

Section driver.
(** When the resolution is due. *)
Context (due : Z).

(** A driver between steps: its operation is live and its fields are in range. *)
Record live (d : driver) (o : operation) (s : dns_server) : Prop := {
  live_done : d_done d = false;
  live_op : d_operation d = Some o;
  live_server : d_server d = Some s;
  live_open : op_done o = false /\ op_cancelled o = false;
  live_attempt : attempt d < max_attempts d;
  live_config : servers (d_config d) <> [] /\ 512 <= max_tcp_bytes (d_config d) /\ 0 < max_invalid_replies (d_config d);
  live_send : 0 <= send_offset d <= len (send_data d) /\ len (send_data d) <= len (query o) + 2;
  live_buffer : len (tcp_buffer d) <= max_tcp_bytes (d_config d) + 2;
  live_octets : octets (tcp_buffer d);
  live_invalid : 0 <= invalid_replies d < max_invalid_replies (d_config d);
  live_deadline : attempt_deadline_ms d <= deadline_ms o;
  live_due : deadline_ms o = due;
  live_state : d_state d = Open <-> handle d = -1;
}.

Definition held (d : driver) : option Z := if handle d =? -1 then None else Some (handle d).
Definition driver_inv (d : driver) (log : list io_event) : Prop :=
  ledger log = Some (held d) /\ (d_done d = true /\ handle d = -1 \/ exists o s, live d o s).

Definition waiting (r : drive_result) : bool :=
  match dv_kind r with KWaitRead | KWaitWrite => true | _ => false end.

Context {W : Type} {H : DnsTransport W}.
#[local] Existing Instance ledger_transport.
Abbreviation env := (@DnsResolveDriver.env (W * list io_event)).
Abbreviation Env := (@DnsResolveDriver.Env (W * list io_event)).
Implicit Types (t : env) (d : driver) (o : operation) (s : dns_server).

(** The outcome of a step begun with [m] steps left. *)
Definition stepped (m : Z) (r : drive_result) (t : env) : Prop :=
  driver_inv (DnsResolveDriver.e_driver t) (snd (DnsResolveDriver.e_world t)) /\
  steps_left (DnsResolveDriver.e_driver t) + (if waiting r then 0 else 1) <= m /\ 0 <= steps_left (DnsResolveDriver.e_driver t).

Definition never {A} (e : A) (t : env) : Prop := False.

Lemma close_run d sh w log : ledger log = Some (held d) ->
  exists w' log', DnsResolveDriver.close_ (Env d sh (w, log)) = (Ok tt, Env (d_set_handle (-1) d) sh (w', log')) /\
    ledger log' = Some None.
Proof.
  intros Hl. unfold DnsResolveDriver.close_, bind, DnsResolveDriver.getd. cbn [DnsResolveDriver.e_driver].
  unfold held in Hl. destruct (handle d =? -1) eqn:E; cbn [negb].
  - exists w, log. split; [|done]. apply Z.eqb_eq in E. destruct d; cbn in *; by subst.
  - unfold DnsResolveDriver.observe, DnsResolveDriver.upd, modify. cbn. eexists _, _. split; [done|].
    rewrite ledger_snoc, Hl. cbn. by rewrite Z.eqb_refl.
Qed.

Lemma terminal_run err d sh w log : ledger log = Some (held d) ->
  exists r d' w' log', DnsResolveDriver.terminal err (Env d sh (w, log)) = (Ok r, Env d' sh (w', log')) /\
    d_done d' = true /\ handle d' = -1 /\ ledger log' = Some None /\ waiting r = false.
Proof.
  intros Hl. destruct (close_run d sh w log Hl) as (w' & log' & E & Hl'). unfold DnsResolveDriver.terminal. run E.
  assert (forall d1, d_done d1 = true -> handle d1 = -1 ->
    exists r d', (let! d := DnsResolveDriver.getd in
      if negb (bool_decide (d_error d = []))
      then ret (DnsDriveResult KError (-1) (-1) None (d_values d) (d_source d) (d_error d))
      else ret (DnsDriveResult KComplete (-1) (-1) None (d_values d) (d_source d) [])) (Env d1 sh (w', log'))
      = (Ok r, Env d' sh (w', log')) /\ d_done d' = true /\ handle d' = -1 /\ ledger log' = Some None /\ waiting r = false) as Hend.
  { intros d1 Hd1 Hh1. unfold bind, DnsResolveDriver.getd. cbn [DnsResolveDriver.e_driver].
    destruct (negb _); eexists _, d1; done. }
  rewrite (bind_ok _ _ _ tt (Env (d_set_result true (d_values d) (d_source d) (d_error d) (d_set_handle (-1) d)) sh (w', log'))) by done.
  set (d0 := d_set_result _ _ _ _ _). assert (d_done d0 = true /\ handle d0 = -1) as [Hd0 Hh0] by done. clearbody d0.
  destruct (bool_decide (err = [])); cbn [negb].
  - set (d1 := match d_operation d0 with
               | Some o => d_set_result true (op_values o) (op_source o) (op_error o) d0
               | None => d0
               end).
    rewrite (bind_ok _ _ _ tt (Env d1 sh (w', log'))) by done.
    destruct (Hend d1) as (r & d' & E1 & Hd'); [unfold d1; by destruct (d_operation d0) ..|]. by exists r, d', w', log'.
  - set (d1 := d_set_result true (d_values d0) (d_source d0) err d0).
    set (d2 := match d_operation d1 with
               | Some o => if op_done o then d1 else d_set_op (Some (op_finish err o)) d1
               | None => d1
               end).
    rewrite (bind_ok _ _ _ tt (Env d2 sh (w', log'))) by done.
    destruct (Hend d2) as (r & d' & E1 & Hd'); [unfold d2; destruct (d_operation d1) as [o|]; try destruct (op_done o); done ..|].
    by exists r, d', w', log'.
Qed.

(** ** Reading a step as a weakest precondition *)

Lemma wp_getd Q E d sh w : Q d (Env d sh w) -> wp DnsResolveDriver.getd Q E (Env d sh w).
Proof. done. Qed.
Lemma wp_upd f Q E d sh w : Q tt (Env (f d) sh w) -> wp (DnsResolveDriver.upd f) Q E (Env d sh w).
Proof. done. Qed.
Lemma wp_operation o Q E d sh w : d_operation d = Some o -> Q o (Env d sh w) -> wp DnsResolveDriver.get_operation Q E (Env d sh w).
Proof. intros Ho HQ. unfold wp, DnsResolveDriver.get_operation, bind, DnsResolveDriver.getd. cbn. by rewrite Ho. Qed.
Lemma wp_server s Q E d sh w : d_server d = Some s -> Q s (Env d sh w) -> wp DnsResolveDriver.get_server Q E (Env d sh w).
Proof. intros Hs HQ. unfold wp, DnsResolveDriver.get_server, bind, DnsResolveDriver.getd. cbn. by rewrite Hs. Qed.
Lemma wp_close Q E d sh w log : ledger log = Some (held d) ->
  (forall w' log', ledger log' = Some None -> Q tt (Env (d_set_handle (-1) d) sh (w', log'))) ->
  wp DnsResolveDriver.close_ Q E (Env d sh (w, log)).
Proof. intros Hl HQ. destruct (close_run d sh w log Hl) as (w' & log' & E1 & Hl'). unfold wp. rewrite E1. by apply HQ. Qed.

Lemma wp_terminal err m d sh w log : ledger log = Some (held d) -> 1 <= m ->
  wp (DnsResolveDriver.terminal err) (stepped m) never (Env d sh (w, log)).
Proof.
  intros Hl Hm. destruct (terminal_run err d sh w log Hl) as (r & d' & w' & log' & E1 & Hd & Hh & Hl' & Hw).
  unfold wp. rewrite E1. unfold stepped, driver_inv, steps_left, held.
  cbn [DnsResolveDriver.e_driver DnsResolveDriver.e_world snd]. rewrite Hd, Hh, Hl', Hw. split; [|lia]. auto.
Qed.

(** Where a failed attempt starts from. *)
Record retryable d o (m : Z) : Prop := {
  re_done : d_done d = false;
  re_op : d_operation d = Some o;
  re_open : op_done o = false /\ op_cancelled o = false;
  re_attempt : attempt d < max_attempts d;
  re_config : servers (d_config d) <> [] /\ 512 <= max_tcp_bytes (d_config d) /\ 0 < max_invalid_replies (d_config d);
  re_due : deadline_ms o = due;
  re_budget : attempts_budget d o <= m;
}.

Lemma budget_pos d o : 512 <= max_tcp_bytes (d_config d) -> 0 < max_invalid_replies (d_config d) -> 519 < connection_budget d o.
Proof. unfold connection_budget. pose proof (len_nonneg (query o)). lia. Qed.

Lemma attempts_budget_nonneg d o : attempt d < max_attempts d -> 512 <= max_tcp_bytes (d_config d) ->
  0 < max_invalid_replies (d_config d) -> 0 <= attempts_budget d o.
Proof.
  intros Ha Ht Hi. pose proof (budget_pos d o Ht Hi). unfold attempts_budget.
  assert (0 <= (max_attempts d - attempt d) * (2 * connection_budget d o)) by (apply Z.mul_nonneg_nonneg; lia).
  destruct (op_use_tcp o); lia.
Qed.

Lemma frame_len q : len (frame q) = len q + 2.
Proof. unfold frame, put_u16. lens. lia. Qed.

Lemma capped_le now d o : DnsResolveDriver.capped_deadline now d o <= deadline_ms o.
Proof.
  unfold DnsResolveDriver.capped_deadline. cbv zeta. rewrite Z.gtb_ltb.
  match goal with |- context [?a <? ?b] => destruct (Z.ltb_spec a b) end; lia.
Qed.

Lemma select_attempt_live now d o : d_done d = false -> d_operation d = Some o -> op_done o = false /\ op_cancelled o = false ->
  attempt d < max_attempts d -> servers (d_config d) <> [] /\ 512 <= max_tcp_bytes (d_config d) /\ 0 < max_invalid_replies (d_config d) ->
  deadline_ms o = due -> let d' := DnsResolveDriver.select_attempt now d o in
  exists s, live d' o s /\ handle d' = -1 /\ 0 <= io_left d' <= connection_budget d o /\ attempts_budget d' o = attempts_budget d o.
Proof.
  intros Hd Ho Hop Ha (Hs & Ht & Hi) Hdue. cbv zeta. unfold DnsResolveDriver.select_attempt. cbv zeta.
  set (index := _ mod _).
  destruct (len_pos_at (servers (d_config d)) index) as [s Hat].
  { apply Z.mod_pos_bound. pose proof (len_nonneg (servers (d_config d))).
    assert (len (servers (d_config d)) <> 0) by (by intros ?%len_zero_nil). lia. }
  exists s. pose proof (frame_len (query o)) as Hf. pose proof (len_nonneg (query o)).
  unfold io_left, connection_budget. destruct (cfg_use_tcp (d_config d)) eqn:Ec; cbn; rewrite Ec; cbn; lens.
  all: split; [constructor; cbn; rewrite ?Ec; cbn; try done; lens; try lia; try (split; [done|]; lia); try apply capped_le; try apply Forall_nil_2|].
  all: split; [done|]; split; [lia|done].
Qed.

Lemma plain_run kind err m d sh w log : waiting (DnsDriveResult kind (-1) (-1) (d_server d) [] [] err) = false ->
  driver_inv d log -> steps_left d + 1 <= m -> 0 <= steps_left d ->
  wp (DnsResolveDriver.plain kind err) (stepped m) never (Env d sh (w, log)).
Proof. intros Hk Hi Hm Hz. apply wp_bind, wp_getd, wp_ret. split; [done|]. cbn in *. by rewrite Hk. Qed.

Lemma wp_retry err now o m d sh w log : ledger log = Some (held d) -> retryable d o m ->
  wp (DnsResolveDriver.retry err now) (stepped m) never (Env d sh (w, log)).
Proof.
  intros Hl [Hd Ho Hop Ha Hc Hdue Hm]. pose proof Hc as (_ & Ht & Hi). pose proof (budget_pos d o Ht Hi) as Hb.
  assert (2 * connection_budget d o <= m) as Hm2.
  { unfold attempts_budget in Hm. destruct (op_use_tcp o); nia. }
  apply wp_bind, wp_close; [done|]. intros w' log' Hl'. apply wp_bind, wp_upd, wp_bind.
  eapply wp_operation; [exact Ho|]. destruct (now >=? deadline_ms o); [apply wp_terminal; [done|lia]|].
  apply wp_bind, wp_getd. cbn [attempt max_attempts d_set_attempt d_set_handle]. destruct (_ >=? _) eqn:Eg; b2p; [apply wp_terminal; [done|lia]|].
  apply wp_bind, wp_upd. set (d1 := d_set_attempt _ _ _) in *.
  destruct (select_attempt_live now d1 o Hd Ho Hop Eg Hc Hdue) as (s & Hlive & Hh & Hio & Hbud). cbv zeta in *.
  set (d2 := DnsResolveDriver.select_attempt now d1 o) in *.
  assert (steps_left d2 = attempts_budget d1 o + io_left d2) as Hsl.
  { unfold steps_left. by rewrite (live_done _ _ _ Hlive), (live_op _ _ _ Hlive), Hbud. }
  assert (attempts_budget d1 o = attempts_budget d o - 2 * connection_budget d o) as Hb1.
  { unfold attempts_budget. change (connection_budget d1 o) with (connection_budget d o). cbn. lia. }
  change (connection_budget d1 o) with (connection_budget d o) in Hio.
  apply plain_run; [done| |lia|].
  - split; [|right; by exists o, s]. unfold held. by rewrite Hh.
  - rewrite Hsl. pose proof (attempts_budget_nonneg d1 o Eg Ht Hi). lia.
Qed.

(** What one step may assume and what its continuations need. *)
Lemma live_retryable d o s m : live d o s -> steps_left d <= m -> retryable d o m.
Proof.
  intros Hl Hm. destruct Hl. split; try done. unfold steps_left in Hm. rewrite live_done0, live_op0 in Hm.
  unfold io_left in Hm. enough (0 <= state_rank (d_state d)) by lia. by destruct (d_state d).
Qed.

Lemma live_steps d o s : live d o s -> steps_left d = attempts_budget d o + io_left d /\ 0 <= io_left d /\ 0 <= attempts_budget d o.
Proof.
  intros Hl. pose proof (live_retryable d o s _ Hl ltac:(reflexivity)). destruct Hl. unfold steps_left. rewrite live_done0, live_op0.
  split; [done|]. split; [unfold io_left; destruct (d_state d); cbn; lia|].
  destruct live_config0 as (_ & ? & ?). by apply attempts_budget_nonneg.
Qed.

(** A step that keeps the attempt and leaves less to do on its connection. *)
Lemma steps_less d d' o s : live d o s -> live d' o s -> attempts_budget d' o = attempts_budget d o -> io_left d' < io_left d ->
  steps_left d' + 1 <= steps_left d.
Proof. intros Hl Hl' Hb Hio. destruct (live_steps d o s Hl) as (-> & _). destruct (live_steps d' o s Hl') as (-> & _). lia. Qed.

Lemma wp_plain kind err m d o s sh w log :
  waiting (DnsDriveResult kind (-1) (-1) (d_server d) [] [] err) = false ->
  live d o s -> ledger log = Some (held d) -> steps_left d + 1 <= m ->
  wp (DnsResolveDriver.plain kind err) (stepped m) never (Env d sh (w, log)).
Proof.
  intros Hk Hl Hlog Hm. destruct (live_steps d o s Hl) as (E1 & ? & ?).
  apply plain_run; [done|split; [done|right; by exists o, s]|lia|lia].
Qed.

Lemma wp_wait kind d o s sh w log : waiting (DnsDriveResult kind (-1) (-1) (d_server d) [] [] []) = true ->
  live d o s -> ledger log = Some (held d) ->
  wp (DnsResolveDriver.wait kind) (stepped (steps_left d)) never (Env d sh (w, log)).
Proof.
  intros Hk Hl Hlog. destruct (live_steps d o s Hl) as (E1 & ? & ?). apply wp_bind, wp_getd, wp_ret.
  split; [split; [done|right; by exists o, s]|]. cbn. unfold waiting in *. cbn in *. rewrite Hk. lia.
Qed.

Lemma wp_retry_live err now m d o s sh w log : live d o s -> ledger log = Some (held d) -> steps_left d <= m ->
  wp (DnsResolveDriver.retry err now) (stepped m) never (Env d sh (w, log)).
Proof. intros Hl Hlog Hm. apply (wp_retry _ _ o); [done|]. by apply (live_retryable d o s). Qed.

Lemma wp_invalid code now tcp m d o s sh w log : live d o s -> steps_left d <= m -> ledger log = Some (held d) ->
  wp (DnsResolveDriver.invalid code now tcp) (stepped m) never (Env d sh (w, log)).
Proof.
  intros Hl Hm Hlog. apply wp_bind, wp_upd, wp_bind, wp_getd.
  destruct (tcp || _ || _) eqn:Ec.
  - apply (wp_retry _ _ o); [done|]. pose proof (live_retryable d o s _ Hl Hm) as Hr. by destruct Hr; split.
  - b2p. cbn [invalid_replies d_config d_set_invalid] in *.
    assert (live (d_set_invalid (invalid_replies d + 1) d) o s) as Hl'. { destruct Hl; split; cbn; try done; lia. }
    apply (wp_plain _ _ _ _ o s); [done..|]. etransitivity; [|exact Hm]. apply (steps_less d _ o s); try done. unfold io_left. cbn. lia.
Qed.

(** Moving to TCP spends the operation's one switch. *)
Lemma wp_switch now m d o s sh w log :
  live d o s -> op_use_tcp o = false -> steps_left d <= m -> ledger log = Some (held d) ->
  wp (DnsResolveDriver.switch_to_tcp (frame (query o)) now) (stepped m) never
    (Env (d_set_op (Some (op_set true false false (op_values o) (op_error o) o)) d) sh (w, log)).
Proof.
  intros Hl Htcp Hm Hlog. set (o' := op_set _ _ _ _ _ o). apply wp_bind, wp_close; [done|]. intros w' log' Hl'.
  apply wp_bind, wp_upd, wp_bind. eapply (wp_operation o'); [done|]. apply wp_bind, wp_upd. set (d' := d_set_deadline _ _).
  pose proof (len_nonneg (query o)). pose proof (frame_len (query o)).
  destruct Hl as [Hd Ho Hs Hop Ha (Hne & Ht & Hi) Hsend Hbuf Hoct Hinv Hdl Hdue Hst].
  assert (live d' o' s) as Hlive.
  { split; cbn; try done; lens; try lia; [apply Forall_nil_2|exact (capped_le now _ o')]. }
  apply (wp_plain _ _ _ _ o' s); [done|done|done|]. etransitivity; [|exact Hm].
  destruct (live_steps d' o' s Hlive) as (-> & _). unfold steps_left. rewrite Hd, Ho.
  assert (attempts_budget d' o' + connection_budget d o = attempts_budget d o) as <-.
  { unfold attempts_budget. rewrite Htcp. change (connection_budget d' o') with (connection_budget d o). cbn. lia. }
  unfold io_left, connection_budget. destruct (d_state d); cbn; lens; lia.
Qed.

(** ** The steps *)

Lemma wp_receive_op payload now d o s sh w log Q E : octets payload -> live d o s -> now < deadline_ms o ->
  (forall code sh', Q (inr code) (Env d sh' (w, log))) ->
  (forall sh', op_use_tcp o = false ->
     Q (inl (Some (frame (query o)))) (Env (d_set_op (Some (op_set true false false (op_values o) (op_error o) o)) d) sh' (w, log))) ->
  (forall o' sh', Q (inl None) (Env (d_set_op (Some o') d) sh' (w, log))) ->
  wp (DnsResolveDriver.receive_op payload now) Q E (Env d sh (w, log)).
Proof.
  intros Hoct Hl Hnow He Hs Hn. unfold DnsResolveDriver.receive_op. apply wp_bind. eapply wp_operation; [apply Hl|].
  destruct (live_open _ _ _ Hl) as [Hd Hc]. pose proof (receive_spec payload now o sh Hoct Hd Hc Hnow) as Hr. unfold wp.
  cbn [DnsResolveDriver.e_shared DnsResolveDriver.e_driver DnsResolveDriver.e_world].
  destruct (ResolveOperation.receive _ _ _) as [[[framed|]|e] [o' sh']].
  - destruct Hr as (-> & Htcp & ->). by apply Hs.
  - apply Hn.
  - destruct Hr as [(c & m & ->)%is_DnsError_inv ->].
    replace (d_set_op (Some o) d) with d; [apply He|]. rewrite <- (live_op _ _ _ Hl). by destruct d.
Qed.

Lemma held_open d o s : live d o s -> d_state d <> Open -> held d = Some (handle d).
Proof.
  intros Hl Hst. unfold held. destruct (Z.eqb_spec (handle d) (-1)) as [Hh|]; [|done]. by apply (live_state _ _ _ Hl) in Hh.
Qed.

Lemma used_ledger d o s log : live d o s -> d_state d <> Open -> ledger log = Some (held d) ->
  ledger (log ++ [Used (handle d)]) = Some (held d).
Proof. intros Hl Hst Hlog. rewrite ledger_snoc, Hlog, (held_open d o s) by done. cbn. by rewrite Z.eqb_refl. Qed.

Lemma wp_step_open now d o s sh w log : live d o s -> d_state d = Open -> ledger log = Some (held d) ->
  wp (DnsResolveDriver.step_open now) (stepped (steps_left d)) never (Env d sh (w, log)).
Proof.
  intros Hl Hst Hlog. apply wp_bind, wp_getd, wp_bind. eapply wp_server; [apply Hl|]. apply wp_bind.
  unfold wp at 1, DnsResolveDriver.observe. cbn [tr_open ledger_transport DnsResolveDriver.e_world DnsResolveDriver.e_driver DnsResolveDriver.e_shared fst snd].
  destruct (tr_open _ s w) as [r w']. unfold opened_by.
  assert (handle d = -1) as Hh by (by apply (live_state _ _ _ Hl)).
  destruct (bool_decide (io_st r = DNS_IO_OK)) eqn:Eok, (io_handle r =? -1) eqn:Eh; cbn [negb andb orb];
    try (by apply (wp_retry_live _ _ _ _ o s)).
  apply wp_bind, wp_upd, wp_bind, wp_upd. set (d' := d_set_state _ _). b2p.
  assert (live d' o s) as Hl' by (by destruct Hl; split).
  apply (wp_plain _ _ _ _ o s); try done.
  - rewrite ledger_snoc, Hlog. unfold held. cbn [handle d' d_set_state d_set_handle]. rewrite Hh. cbn. by rewrite (proj2 (Z.eqb_neq _ _) Eh).
  - apply (steps_less _ _ o s); try done. unfold io_left. cbn. rewrite Hst. cbn. lia.
Qed.

Lemma wp_step_connect now d o s sh w log : live d o s -> d_state d = Connect -> ledger log = Some (held d) ->
  wp (DnsResolveDriver.step_connect now) (stepped (steps_left d)) never (Env d sh (w, log)).
Proof.
  intros Hl Hst Hlog. apply wp_bind, wp_getd, wp_bind. eapply wp_server; [apply Hl|]. apply wp_bind.
  unfold wp at 1, DnsResolveDriver.observe. cbn [tr_connect ledger_transport DnsResolveDriver.e_world DnsResolveDriver.e_driver DnsResolveDriver.e_shared fst snd].
  destruct (tr_connect _ s w) as [r w'].
  pose proof (used_ledger d o s log Hl ltac:(by rewrite Hst) Hlog) as Hlog'.
  destruct (bool_decide (io_st r = DNS_IO_WOULD_BLOCK)); [by apply (wp_wait _ _ o s)|].
  destruct (negb _); [by apply (wp_retry_live _ _ _ _ o s)|]. apply wp_bind, wp_upd.
  assert (live (d_set_state Send d) o s) as Hl'.
  { pose proof (live_state _ _ _ Hl) as Hiff. destruct Hl; split; try done. cbn. rewrite <- Hiff, Hst. done. }
  apply (wp_plain _ _ _ _ o s); try done. apply (steps_less _ _ o s); try done. unfold io_left. cbn. rewrite Hst. cbn. lia.
Qed.

Lemma wp_step_send now d o s sh w log : live d o s -> d_state d = Send -> ledger log = Some (held d) ->
  wp (DnsResolveDriver.step_send now) (stepped (steps_left d)) never (Env d sh (w, log)).
Proof.
  intros Hl Hst Hlog. apply wp_bind, wp_getd, wp_bind.
  unfold wp at 1, DnsResolveDriver.observe. cbn [tr_send ledger_transport DnsResolveDriver.e_world DnsResolveDriver.e_driver DnsResolveDriver.e_shared fst snd].
  destruct (tr_send _ _ _ w) as [r w'].
  pose proof (used_ledger d o s log Hl ltac:(by rewrite Hst) Hlog) as Hlog'.
  destruct (bool_decide (io_st r = DNS_IO_WOULD_BLOCK)); [by apply (wp_wait _ _ o s)|].
  destruct (negb (bool_decide (io_st r = DNS_IO_OK))); [by apply (wp_retry_live _ _ _ _ o s)|]. cbv zeta.
  destruct ((io_count r <=? 0) || _) eqn:Ec; [by apply (wp_retry_live _ _ _ _ o s)|].
  destruct (bool_decide (d_protocol d = UDP) && _); [by apply (wp_retry_live _ _ _ _ o s)|]. b2p.
  apply wp_bind, wp_upd, wp_bind, wp_upd. set (d1 := d_set_sent _ d). set (d2 := if _ =? _ then _ else _).
  assert (live d2 o s /\ attempts_budget d2 o = attempts_budget d o /\ io_left d2 < io_left d /\ held d2 = held d) as (Hl' & Hb & Hio & Hhe).
  { pose proof (live_state _ _ _ Hl) as Hiff. destruct Hl. unfold d2. cbn [send_offset send_data d1 d_set_sent].
    destruct (_ =? _); (split; [split; cbn; try done; try lia; by rewrite <- Hiff, Hst|]); (split; [done|]); (split; [|done]);
      unfold io_left; cbn; rewrite Hst; cbn; lia. }
  apply (wp_plain _ _ _ _ o s); try done; [by rewrite Hhe|]. by apply (steps_less _ _ o s).
Qed.

(** What a transport delivers is bytes. *)
Definition delivers_octets : Prop := forall h n w, octets (io_data (fst (tr_receive h n w))).

Lemma steps_left_pos d o s : live d o s -> 1 <= steps_left d.
Proof.
  intros Hl. destruct (live_steps d o s Hl) as (-> & ? & ?). destruct Hl as [? ? ? ? ? (? & ? & ?)].
  pose proof (budget_pos d o ltac:(done) ltac:(done)). unfold attempts_budget.
  assert (1 * 519 <= (max_attempts d - attempt d) * (2 * connection_budget d o)) by (apply Z.mul_le_mono_nonneg; lia).
  destruct (op_use_tcp o); lia.
Qed.

Lemma wp_receive_udp r now d o s sh w log : octets (io_data r) -> live d o s -> now < deadline_ms o -> ledger log = Some (held d) ->
  wp (DnsResolveDriver.receive_udp r now) (stepped (steps_left d)) never (Env d sh (w, log)).
Proof.
  intros Hoct Hl Hnow Hlog.
  apply wp_bind. eapply wp_server; [apply Hl|]. destruct (negb _); [by apply (wp_invalid _ _ _ _ _ o s)|].
  apply wp_bind. apply (wp_receive_op _ _ _ o s); [done..| | |].
  - intros code sh'. by apply (wp_invalid _ _ _ _ _ o s).
  - intros sh' Htcp. by apply (wp_switch _ _ _ o s).
  - intros o' sh'. apply wp_terminal; [done|]. by apply (steps_left_pos d o s).
Qed.

Lemma octets_app a b : octets a -> octets b -> octets (a ++ b).
Proof. apply Forall_app_2. Qed.

Lemma wp_receive_frame now d o s m sh w log : live d o s -> now < deadline_ms o -> ledger log = Some (held d) ->
  steps_left d <= m ->
  wp (DnsResolveDriver.receive_frame now) (stepped m) never (Env d sh (w, log)).
Proof.
  intros Hl Hnow Hlog Hm. pose proof (steps_left_pos d o s Hl). apply wp_bind, wp_getd, wp_bind.
  apply (wp_receive_op _ _ _ o s); [apply Forall_take, Hl|done..| | |].
  - intros code sh'. by apply (wp_invalid _ _ _ _ _ o s).
  - intros sh' Htcp. apply wp_terminal; [done|lia].
  - intros o' sh'. apply wp_terminal; [done|lia].
Qed.

Lemma wp_receive_tcp r now d o s sh w log : octets (io_data r) -> io_data r <> [] -> live d o s -> now < deadline_ms o ->
  ledger log = Some (held d) ->
  wp (DnsResolveDriver.receive_tcp r now) (stepped (steps_left d)) never (Env d sh (w, log)).
Proof.
  intros Hoct Hne Hl Hnow Hlog. apply wp_bind. eapply wp_server; [apply Hl|].
  destruct (negb _ && _); [by apply (wp_invalid _ _ _ _ _ o s)|]. apply wp_bind, wp_upd, wp_bind, wp_getd.
  set (d1 := d_set_tcp _ _ d). assert (octets (tcp_buffer d1)) as Ho1 by (apply octets_app; [apply Hl|done]).
  cbn [d_config tcp_buffer d_set_tcp] in *.
  destruct (_ >? _) eqn:Ebig; b2p.
  { apply (wp_retry _ _ o); [done|]. pose proof (live_retryable d o s _ Hl ltac:(reflexivity)) as Hr. by destruct Hr; split. }
  assert (0 < len (io_data r)) as Hpos.
  { pose proof (len_nonneg (io_data r)). assert (len (io_data r) <> 0) by (by intros ?%len_zero_nil). lia. }
  assert (forall ex, live (d_set_tcp (tcp_buffer d1) ex d) o s /\ steps_left (d_set_tcp (tcp_buffer d1) ex d) + 1 <= steps_left d) as Hl1.
  { intros ex. assert (live (d_set_tcp (tcp_buffer d1) ex d) o s) as Hl1 by (by destruct Hl; split).
    split; [done|]. apply (steps_less _ _ o s); try done. unfold io_left. cbn. lens. lia. }
  apply wp_bind. match goal with |- wp _ ?Q _ _ =>
    assert (forall bad ex, Q bad (Env (d_set_tcp (tcp_buffer d1) ex d) sh (w, log))) as Hk end.
  { intros bad ex. destruct (Hl1 ex) as [Hl2 Hm]. cbv beta. destruct bad; [apply (wp_retry_live _ _ _ _ o s); try done; lia|].
    apply wp_bind, wp_getd. destruct (_ || _).
    - apply wp_bind. eapply wp_operation; [apply Hl2|]. apply wp_bind, wp_upd.
      apply (wp_plain _ _ _ _ o s); try done. destruct Hl2; split; try done. apply capped_le.
    - apply (wp_receive_frame _ _ o s); try done. lia. }
  destruct (_ && _) eqn:Ehd; [|apply wp_ret; exact (Hk false (tcp_expected d))]. b2p. apply wp_bind, wp_lift.
  pose proof (u16_spec (tcp_buffer d1) 0 ltac:(lia)) as Hu. unfold u16 in *. rewrite Z.gtb_ltb in *.
  rewrite (proj2 (Z.ltb_ge _ _)) in * by lia. destruct (byte_at_run (tcp_buffer d1) 0) as (a & -> & _); [lia|].
  destruct (byte_at_run (tcp_buffer d1) (0 + 1)) as (b & -> & _); [lia|]. cbn [rbind].
  apply wp_bind, wp_upd, wp_ret. exact (Hk _ _).
Qed.

Lemma wp_step_receive now d o s sh w log : delivers_octets -> live d o s -> d_state d = Receive -> now < deadline_ms o ->
  ledger log = Some (held d) ->
  wp (DnsResolveDriver.step_receive now) (stepped (steps_left d)) never (Env d sh (w, log)).
Proof.
  intros Hoct Hl Hst Hnow Hlog. apply wp_bind, wp_getd. cbv zeta. apply wp_bind.
  unfold wp at 1, DnsResolveDriver.observe. cbn [tr_receive ledger_transport DnsResolveDriver.e_world DnsResolveDriver.e_driver DnsResolveDriver.e_shared fst snd].
  set (limit := match d_protocol d with UDP => _ | TCP => _ end).
  pose proof (Hoct (handle d) limit w) as Hdata. destruct (tr_receive _ _ w) as [r w']. cbn [fst] in Hdata.
  pose proof (used_ledger d o s log Hl ltac:(by rewrite Hst) Hlog) as Hlog'.
  destruct (io_st r); [|by apply (wp_wait _ _ o s)|by apply (wp_retry_live _ _ _ _ o s)|by apply (wp_retry_live _ _ _ _ o s)].
  case_bool_decide; [by apply (wp_retry_live _ _ _ _ o s)|]. destruct (_ >? limit); [by apply (wp_retry_live _ _ _ _ o s)|].
  destruct (d_protocol d); [by apply (wp_receive_udp _ _ _ o s)|by apply (wp_receive_tcp _ _ _ o s)].
Qed.

Lemma wp_step now d o s sh w log : delivers_octets -> live d o s -> ledger log = Some (held d) ->
  wp (DnsResolveDriver.step now) (stepped (steps_left d)) never (Env d sh (w, log)).
Proof.
  intros Hoct Hl Hlog. pose proof (steps_left_pos d o s Hl). apply wp_bind, wp_getd. rewrite (live_done _ _ _ Hl).
  apply wp_bind. eapply wp_operation; [apply Hl|]. destruct (live_open _ _ _ Hl) as [_ ->].
  destruct (now >=? deadline_ms o) eqn:Ed; [by apply wp_terminal|]. b2p.
  destruct (now >=? attempt_deadline_ms d); [by apply (wp_retry_live _ _ _ _ o s)|].
  destruct (d_state d) eqn:Est; [by apply (wp_step_open _ _ o s)|by apply (wp_step_connect _ _ o s)|
    by apply (wp_step_send _ _ o s)|by apply (wp_step_receive _ _ o s)].
Qed.
End driver.

(** ** Whole resolutions *)

(** What the owner of a driver does: one step at a time, or cancellation. *)
Inductive drive_call := StepAt (now_ms : Z) | CancelNow.

Section resolution.
Context {W : Type} {H : DnsTransport W}.
#[local] Existing Instance ledger_transport.
Abbreviation env := (@DnsResolveDriver.env (W * list io_event)).
Abbreviation Env := (@DnsResolveDriver.Env (W * list io_event)).

Definition drive_one (call : drive_call) : M env drive_result :=
  match call with
  | StepAt now => DnsResolveDriver.step now
  | CancelNow => DnsResolveDriver.cancel
  end.
(** The owner calls until the driver is done. *)
Fixpoint drive (calls : list drive_call) (t : env) : list (result drive_result) * env :=
  match calls with
  | [] => ([], t)
  | call :: calls' =>
      if d_done (DnsResolveDriver.e_driver t) then ([], t)
      else let '(r, t') := drive_one call t in
           let '(rs, t'') := drive calls' t' in (r :: rs, t'')
  end.
(** The calls that did not only report that the transport is not ready. *)
Definition busy (rs : list (result drive_result)) : Z :=
  count (fun r => match r with Ok r => negb (waiting r) | Raise _ => true end) rs.

Lemma step_due due now d o s sh w log : live due d o s -> ledger log = Some (held d) -> due <= now ->
  exists r t', DnsResolveDriver.step now (Env d sh (w, log)) = (Ok r, t') /\ d_done (DnsResolveDriver.e_driver t') = true.
Proof.
  intros Hl Hlog Hdue. unfold DnsResolveDriver.step. unfold bind at 1, DnsResolveDriver.getd at 1. cbn [DnsResolveDriver.e_driver].
  rewrite (live_done _ _ _ _ Hl). unfold DnsResolveDriver.get_operation at 1, bind at 1 2, DnsResolveDriver.getd at 1.
  cbn [DnsResolveDriver.e_driver]. rewrite (live_op _ _ _ _ Hl). unfold ret at 1. destruct (live_open _ _ _ _ Hl) as [_ ->].
  rewrite (live_due _ _ _ _ Hl). zdec. destruct (terminal_run (py "timeout") d sh w log Hlog) as (r & d' & w' & log' & -> & Hd & _).
  by eexists _, _.
Qed.

Lemma cancel_run due d o s sh w log : live due d o s -> ledger log = Some (held d) ->
  wp DnsResolveDriver.cancel (stepped due (steps_left d)) never (Env d sh (w, log)).
Proof.
  intros Hl Hlog. pose proof (steps_left_pos due d o s Hl). apply wp_bind, wp_getd. rewrite (live_done _ _ _ _ Hl).
  apply wp_bind, wp_upd. by apply wp_terminal.
Qed.

Lemma drive_spec due calls : (@delivers_octets W H) -> forall t, driver_inv due (DnsResolveDriver.e_driver t) (snd (DnsResolveDriver.e_world t)) ->
  let '(rs, t') := drive calls t in
  Forall (fun r => exists a, r = Ok a) rs /\ driver_inv due (DnsResolveDriver.e_driver t') (snd (DnsResolveDriver.e_world t')) /\
  busy rs + steps_left (DnsResolveDriver.e_driver t') <= steps_left (DnsResolveDriver.e_driver t).
Proof.
  intros Hoct. induction calls as [|call calls IH]; intros [d sh [w log]] [Hlog Hinv]; cbn [drive].
  { split; [constructor|]. split; [by split|cbn; lia]. }
  cbn [DnsResolveDriver.e_driver DnsResolveDriver.e_world snd] in *. destruct (d_done d) eqn:Ed.
  { split; [constructor|]. split; [|cbn; lia]. split; [done|].
    cbn [DnsResolveDriver.e_driver]. rewrite Ed. exact Hinv. }
  destruct Hinv as [[? _]|(o & s & Hl)]; [congruence|].
  assert (wp (drive_one call) (stepped due (steps_left d)) never (Env d sh (w, log))) as Hstep.
  { destruct call; [by apply (wp_step due now_ms d o s)|by apply (cancel_run due d o s)]. }
  unfold wp in Hstep. destruct (drive_one call _) as [[r|e] t']; [|done]. destruct Hstep as (Hinv' & Hle & Hpos).
  specialize (IH t' Hinv'). destruct (drive calls t') as [rs t'']. destruct IH as (Hok & Hfin & Hbusy).
  split; [constructor; eauto|]. split; [done|]. unfold busy in *. cbn [count]. destruct (waiting r); cbn [negb Z.b2z] in *; lia.
Qed.
End resolution.

(** ** A resolver's first driver *)

(** Two connections per attempt, each with a query, a reply and its invalid datagrams. *)
Definition steps_bound (c : resolver_config) : Z :=
  (2 * len (servers c) * attempts_per_server c + 2) * (278 + max_tcp_bytes c + max_invalid_replies c).
Definition fresh (due : Z) (c : resolver_config) (d : driver) : Prop :=
  handle d = -1 /\ (d_done d = true \/ exists o s, live due d o s /\
    steps_left d <= steps_bound c).

Lemma encode_labels_len ws : forall bs, encode_labels ws = Ok bs -> ws <> [] -> len bs = len (join (py ".") ws) + 1.
Proof.
  induction ws as [|w ws IH]; intros bs; cbn [encode_labels]; [done|]. destruct (encode_label w) as [one|] eqn:E1; [|done].
  cbn [rbind]. destruct (encode_labels ws) as [rest|] eqn:E2; [|done]. intros [= <-] _.
  apply encode_label_inv in E1 as (-> & _ & _). destruct ws as [|w' ws]; [injection E2 as <-; cbn [join]; lens; lia|].
  change (join (py ".") (w :: w' :: ws)) with (w ++ py "." ++ join (py ".") (w' :: ws)).
  specialize (IH rest eq_refl ltac:(done)). lens. change (len (py ".")) with 1. lia.
Qed.

Lemma query_length id name qtype q : build_query id name qtype = Ok q -> len q <= 271.
Proof.
  unfold build_query, encode_name. cbv zeta. destruct (_ || _); [done|]. destruct (negb _); [done|].
  destruct (bool_decide _ || (len (canonical_name name) >? 253)) eqn:E; [done|]. b2p.
  destruct (encode_labels _) as [bs|] eqn:El; [|done]. cbn [rbind]. intros [= <-].
  apply encode_labels_len in El; [|apply split_char_ne]. change (py ".") with [46] in El. rewrite join_split in El.
  unfold put_u16. lens. lia.
Qed.

Lemma init_terminal due op c now start values src err : values <> None \/ err <> [] ->
  fresh due c (DnsResolveDriver.init op c now start values src err).
Proof.
  intros Hd. unfold DnsResolveDriver.init. cbv zeta.
  assert (match values with Some _ => true | None => false end || negb (bool_decide (err = [])) = true) as ->.
  { destruct values; [done|]. destruct Hd as [?|Hd]; [done|]. by rewrite bool_decide_eq_false_2. }
  split; [done|by left].
Qed.

Lemma init_live due o c now start :
  0 < attempts_per_server c -> 512 <= max_tcp_bytes c -> 0 < max_invalid_replies c ->
  op_done o = false -> op_cancelled o = false -> deadline_ms o = due -> len (query o) <= 271 ->
  fresh due c (DnsResolveDriver.init (Some o) c now start None [] []).
Proof.
  intros Hat Ht Hi Hod Hoc Hdue Hq. unfold DnsResolveDriver.init. cbv zeta. rewrite bool_decide_eq_true_2 by done. cbn [orb negb andb].
  set (d0 := Driver _ _ _ _ _ _ _ _ _ _ _ _ _ _ _ _ _ _ _ _). cbn [max_attempts d0].
  destruct (_ =? 0) eqn:E; b2p; [split; [done|by left]|].
  assert (servers c <> []) as Hne by (by intros Hnil; rewrite Hnil in E).
  pose proof (len_nonneg (servers c)).
  destruct (select_attempt_live due now d0 o ltac:(done) ltac:(done) ltac:(done) ltac:(cbn; nia) ltac:(done) Hdue)
    as (s & Hl & Hh & Hio & Hb). cbv zeta in *. set (d1 := DnsResolveDriver.select_attempt now d0 o) in *.
  split; [done|]. right. exists o, s. split; [done|]. destruct (live_steps due d1 o s Hl) as (-> & _ & _). rewrite Hb.
  assert (connection_budget d0 o <= 278 + max_tcp_bytes c + max_invalid_replies c) as Hbud by (unfold connection_budget; cbn; lia).
  pose proof (budget_pos d0 o Ht Hi). unfold attempts_budget, steps_bound. cbn [max_attempts attempt d0].
  transitivity ((2 * len (servers c) * attempts_per_server c + 2) * connection_budget d0 o); [destruct (op_use_tcp o); nia|].
  apply Z.mul_le_mono_nonneg_l; nia.
Qed.

Lemma wp_any {S A} (m : M S A) Q E s : (forall a s', Q a s') -> (forall e s', E e s') -> wp m Q E s.
Proof. unfold wp. intros HQ HE. by destruct (m s) as [[a|e] s']. Qed.

Lemma begin_driver_fresh name qtype now due r d r' :
  0 < attempts_per_server (r_config r) -> 512 <= max_tcp_bytes (r_config r) -> 0 < max_invalid_replies (r_config r) ->
  Resolver.begin_driver name qtype now due r = (Ok d, r') -> fresh due (r_config r) d.
Proof.
  intros Hat Ht Hi. set (c := r_config r) in *.
  enough (wp (Resolver.begin_driver name qtype now due) (fun d _ => fresh due c d) (fun _ _ => True) r) as Hwp.
  { intros E. unfold wp in Hwp. by rewrite E in Hwp. }
  unfold Resolver.begin_driver. apply wp_bind, wp_get. cbv zeta. fold c. destruct (negb _); [done|].
  destruct (due <=? now).
  { apply wp_bind, wp_any; [|done]. intros o s'. destruct (ResolveOperation.check_deadline now o) as [b o'].
    apply wp_ret, init_terminal. by right. }
  destruct (normalize_numeric_address name qtype).
  { apply wp_bind, wp_any; [|done]. intros v s'. apply wp_ret, init_terminal. by left. }
  destruct (HostsTable.lookup _ _ _).
  { apply wp_bind, wp_any; [|done]. intros v s'. apply wp_ret, init_terminal. by left. }
  apply wp_bind, wp_any; [|done]. intros [e|] s'; [apply wp_ret, init_terminal; by left|].
  apply wp_bind. apply wp_bind, wp_any; [|done]. intros id s''. apply wp_lift. unfold ResolveOperation.init. cbv zeta.
  destruct (build_query _ _ _) eqn:Eq; cbn [rbind]; [|done]. apply wp_bind, wp_any; [|done]. intros start s3.
  apply wp_ret. apply init_live; try done. cbn. by eapply query_length.
Qed.

Lemma config_limits servers attempts timeout invalid udp tcp rot vc c :
  make_resolver_config servers attempts timeout invalid udp tcp rot vc = Ok c ->
  0 < attempts_per_server c /\ 512 <= max_tcp_bytes c /\ 0 < max_invalid_replies c.
Proof.
  unfold make_resolver_config. destruct ((attempts <=? 0) || _ || _ || _ || _ || _) eqn:E; [done|].
  destruct (foldr _ _ _); cbn [rbind]; [|done]. intros [= <-]. b2p. cbn. lia.
Qed.

(** ** The theorems *)

Section resolution_theorems.
(** [calls] run from a new driver over the resolver's cache and policy, nothing open. *)
Context {W : Type} {H : DnsTransport W}.
Abbreviation start d r w := (@DnsResolveDriver.Env (W * list io_event) d (r_shared r) (w, [])).
Abbreviation run calls t := (@drive W H calls t).

Lemma fresh_inv due c d (r : resolver) (w : W) : fresh due c d -> driver_inv due d [].
Proof. intros [Hh Hd]. split; [unfold held; by rewrite Hh|]. destruct Hd as [?|(o & s & ? & _)]; [by left|right; by exists o, s]. Qed.

Lemma inv_steps due d log : driver_inv due d log -> 0 <= steps_left d.
Proof.
  intros [_ [[Hd _]|(o & s & Hl)]]; [unfold steps_left; by rewrite Hd|]. destruct (live_steps due d o s Hl) as (-> & ? & ?). lia.
Qed.

Lemma drive_due due calls now : (@delivers_octets W H) -> due <= now -> StepAt now ∈ calls ->
  forall t, driver_inv due (DnsResolveDriver.e_driver t) (snd (DnsResolveDriver.e_world t)) ->
  d_done (DnsResolveDriver.e_driver (snd (run calls t))) = true.
Proof.
  intros Hoct Hdue. induction calls as [|call calls IH]; [by intros ?%elem_of_nil|]. intros Hin [d sh [w log]] [Hlog Hinv].
  cbn [drive]. cbn [DnsResolveDriver.e_driver DnsResolveDriver.e_world snd] in *. destruct (d_done d) eqn:Ed; [done|].
  destruct Hinv as [[? _]|(o & s & Hl)]; [done|].
  assert (driver_inv due (DnsResolveDriver.e_driver (snd (drive_one call (DnsResolveDriver.Env d sh (w, log)))))
    (snd (DnsResolveDriver.e_world (snd (drive_one call (DnsResolveDriver.Env d sh (w, log))))))) as Hinv'.
  { assert (wp (drive_one call) (stepped due (steps_left d)) never (DnsResolveDriver.Env d sh (w, log))) as Hstep.
    { destruct call as [at_|]; [by apply (wp_step due at_ d o s)|by apply (cancel_run due d o s)]. }
    unfold wp in Hstep. destruct (drive_one call _) as [[r|e] t']; [|done]. by destruct Hstep. }
  apply elem_of_cons in Hin as [<- | Hin].
  - destruct (step_due due now d o s sh w log Hl Hlog Hdue) as (r & t' & E & Hd'). cbn [drive_one]. rewrite E.
    destruct calls; cbn [drive]; [done|]. by rewrite Hd'.
  - specialize (IH Hin _ Hinv'). destruct (drive_one call _) as [r t']. cbn [snd] in *. by destruct (run calls t') as [rs t''].
Qed.

(** C23: a resolution always ends.  For any transport that delivers bytes, however it
    behaves and in whatever order steps and cancellation come, no step of a driver that the
    resolver began raises; the steps that do more than report "not ready" number at most
    [steps_bound] of the configuration — retries over the servers, the one switch to TCP,
    partial sends and reads and ignored datagrams included — and the first step at or after
    the deadline finishes it. *)
Theorem resolution_terminates servers attempts timeout invalid udp tcp rot vc name qtype now due r d r' w calls :
  make_resolver_config servers attempts timeout invalid udp tcp rot vc = Ok (r_config r) ->
  Resolver.begin_driver name qtype now due r = (Ok d, r') ->
  (@delivers_octets W H) ->
  let '(rs, t) := run calls (start d r' w) in
  Forall (fun x => exists a, x = Ok a) rs /\ busy rs <= steps_bound (r_config r) /\
  (forall late, StepAt late ∈ calls -> due <= late -> d_done (DnsResolveDriver.e_driver t) = true).
Proof.
  intros Hc Hb Hoct. destruct (config_limits _ _ _ _ _ _ _ _ _ Hc) as (Hat & Ht & Hi).
  pose proof (begin_driver_fresh name qtype now due r d r' Hat Ht Hi Hb) as Hf.
  pose proof (fresh_inv due _ d r' w Hf) as Hinv.
  pose proof (drive_spec due calls Hoct (start d r' w) Hinv) as Hspec.
  pose proof (fun late Hin Hle => drive_due due calls late Hoct Hle Hin (start d r' w) Hinv) as Hdue.
  destruct (run calls _) as [rs t]. destruct Hspec as (Hok & Hinv' & Hbusy). split; [done|]. split; [|exact Hdue].
  pose proof (inv_steps _ _ _ Hinv'). cbn [DnsResolveDriver.e_driver] in Hbusy.
  destruct Hf as [_ [Hd|(o & s & _ & Hle)]]; [|lia].
  unfold steps_left at 2 in Hbusy. rewrite Hd in Hbusy. pose proof (len_nonneg (DnsResolver.servers (r_config r))).
  unfold steps_bound. nia.
Qed.

(** Sockets are neither leaked nor reused.  In the same runs every handle the transport
    opened is used only between its opening and its closing, closed exactly once and before
    the next one is opened; what is open at any moment is what the driver holds, and nothing
    is open when the resolution is done. *)
Theorem resolution_closes_connections servers attempts timeout invalid udp tcp rot vc name qtype now due r d r' w calls :
  make_resolver_config servers attempts timeout invalid udp tcp rot vc = Ok (r_config r) ->
  Resolver.begin_driver name qtype now due r = (Ok d, r') ->
  (@delivers_octets W H) ->
  let '(_, t) := run calls (start d r' w) in
  let d' := DnsResolveDriver.e_driver t in
  ledger (snd (DnsResolveDriver.e_world t)) = Some (if handle d' =? -1 then None else Some (handle d')) /\
  (d_done d' = true -> handle d' = -1).
Proof.
  intros Hc Hb Hoct. destruct (config_limits _ _ _ _ _ _ _ _ _ Hc) as (Hat & Ht & Hi).
  pose proof (begin_driver_fresh name qtype now due r d r' Hat Ht Hi Hb) as Hf.
  pose proof (drive_spec due calls Hoct (start d r' w) (fresh_inv due _ d r' w Hf)) as Hspec.
  destruct (run calls _) as [rs t]. destruct Hspec as (_ & [Hlog Hd] & _). split; [exact Hlog|].
  intros Hdone. destruct Hd as [[_ Hh]|(o & s & Hl)]; [done|]. pose proof (live_done _ _ _ _ Hl). congruence.
Qed.
End resolution_theorems.

(** ** A concrete resolution *)

(** A server that answers every datagram with the two sample addresses. *)
Definition answering : DnsTransport unit := {|
  tr_open := fun _ _ w => (DnsIoResult DNS_IO_OK 3 0 [] NoPeer [], w);
  tr_connect := fun h _ w => (DnsIoResult DNS_IO_OK h 0 [] NoPeer [], w);
  tr_send := fun h d i w => (DnsIoResult DNS_IO_OK h (len d - i) [] NoPeer [], w);
  tr_receive := fun h _ w =>
    (DnsIoResult DNS_IO_OK h 0 (a_reply sample_query sample_records) (PeerServer (DnsServer (py "192.0.2.53") 53)) [], w);
  tr_close := fun _ w => w;
|}.

Definition sample_config : resolver_config :=
  DnsResolverConfig [DnsServer (py "192.0.2.53") 53] 2 1000 4 4096 65535 false false.
Definition sample_resolver : resolver :=
  Resolver (DnsShared sample_cache sample_policy) sample_config (HostsTable 16 ∅) 1234 0.
Definition sample_begun : result driver * resolver :=
  Resolver.begin_driver (py "A.db.") DNS_A 0 5000 sample_resolver.
Definition sample_driver : driver :=
  DnsResolveDriver.init
    (Some (ResolveOperation 1234 (py "a.db") DNS_A 5000 sample_query false false false [] [] (py "dns")))
    sample_config 0 0 None [] [].
Definition sample_calls : list drive_call := [StepAt 1; StepAt 2; StepAt 3; StepAt 4; StepAt 5].

Lemma answering_octets : @delivers_octets unit answering.
Proof. intros h n w. cbn [tr_receive answering fst io_data]. unfold octets. vm_compute a_reply. repeat constructor; lia. Qed.

Lemma sample_config_made :
  make_resolver_config [inr (py "192.0.2.53")] 2 1000 4 4096 65535 false false = Ok sample_config.
Proof. vm_compute. reflexivity. Qed.

Lemma sample_begins : fst sample_begun = Ok sample_driver.
Proof. vm_compute. reflexivity. Qed.

Example sample_resolves :
  let t := snd (@drive unit answering sample_calls (DnsResolveDriver.Env sample_driver (r_shared (snd sample_begun)) (tt, []))) in
  d_values (DnsResolveDriver.e_driver t) = [py "192.0.2.7"; py "10.0.0.1"] /\
  snd (DnsResolveDriver.e_world t) = [Opened 3; Used 3; Used 3; Used 3; Closed 3].
Proof. vm_compute. split; reflexivity. Qed.

Lemma resolution_terminates_witness :
  let '(rs, t) := @drive unit answering sample_calls
    (DnsResolveDriver.Env sample_driver (r_shared (snd sample_begun)) (tt, [])) in
  Forall (fun x => exists a, x = Ok a) rs /\ busy rs <= steps_bound sample_config /\
  (forall late, StepAt late ∈ sample_calls -> 5000 <= late -> d_done (DnsResolveDriver.e_driver t) = true).
Proof.
  apply (@resolution_terminates unit answering [inr (py "192.0.2.53")] 2 1000 4 4096 65535 false false
    (py "A.db.") DNS_A 0 5000 sample_resolver sample_driver (snd sample_begun) tt sample_calls).
  - exact sample_config_made.
  - rewrite <- sample_begins. unfold sample_begun. apply surjective_pairing.
  - exact answering_octets.
Defined.

Lemma resolution_closes_connections_witness :
  let '(_, t) := @drive unit answering sample_calls
    (DnsResolveDriver.Env sample_driver (r_shared (snd sample_begun)) (tt, [])) in
  let d' := DnsResolveDriver.e_driver t in
  ledger (snd (DnsResolveDriver.e_world t)) = Some (if handle d' =? -1 then None else Some (handle d')) /\
  (d_done d' = true -> handle d' = -1).
Proof.
  apply (@resolution_closes_connections unit answering [inr (py "192.0.2.53")] 2 1000 4 4096 65535 false false
    (py "A.db.") DNS_A 0 5000 sample_resolver sample_driver (snd sample_begun) tt sample_calls).
  - exact sample_config_made.
  - rewrite <- sample_begins. unfold sample_begun. apply surjective_pairing.
  - exact answering_octets.
Defined.

(** ** Resolution over TCP from the start

    The operation strips the length prefix only after it has itself asked for TCP, so under
    [use-vc] a correct framed answer is read with its prefix as the identifier. *)

Definition answering_tcp : DnsTransport unit := {|
  tr_open := fun _ _ w => (DnsIoResult DNS_IO_OK 3 0 [] NoPeer [], w);
  tr_connect := fun h _ w => (DnsIoResult DNS_IO_OK h 0 [] NoPeer [], w);
  tr_send := fun h d i w => (DnsIoResult DNS_IO_OK h (len d - i) [] NoPeer [], w);
  tr_receive := fun h _ w =>
    (DnsIoResult DNS_IO_OK h 0 (frame (a_reply sample_query sample_records)) NoPeer [], w);
  tr_close := fun _ w => w;
|}.
Definition vc_config : resolver_config :=
  DnsResolverConfig [DnsServer (py "192.0.2.53") 53] 1 1000 4 4096 65535 false true.
Definition vc_driver : driver :=
  DnsResolveDriver.init
    (Some (ResolveOperation 1234 (py "a.db") DNS_A 5000 sample_query false false false [] [] (py "dns")))
    vc_config 0 0 None [] [].

Example use_vc_answer_refused :
  let t := snd (@drive unit answering_tcp sample_calls
                  (DnsResolveDriver.Env vc_driver (DnsShared sample_cache sample_policy) (tt, []))) in
  d_done (DnsResolveDriver.e_driver t) = true /\
  d_error (DnsResolveDriver.e_driver t) = py "retry-exhausted:id-mismatch" /\
  d_values (DnsResolveDriver.e_driver t) = [].
Proof. vm_compute. repeat split; reflexivity. Qed.
