(* ===== verification/DnsNative.v ===== *)
(** * The native DNS transport ([pcc_gateway/dns_native.py])

    [NativeDnsTransport] turns the calls of the driver of [DnsResolver] into immediate
    observations of platform descriptors and keeps, for every descriptor it owns, the server
    it was connected to, its protocol and whether it is connected.  [LazySystemResolver] reads
    the system's resolver files once and gives every connection a resolver of its own.

    The extern symbols of the runtime are the class [DnsPlatform], over an abstract world: a
    call returns its outcome and what it wrote through its output pointers, and raises
    nothing.  A server object is compared by value where the source compares by identity
    ([owner[0] is not server]): the driver hands over the object it opened.  The theorems are
    in [DnsNativeSpec]. *)

From S2P Require Import Prelude PyStr DnsWire DnsPolicy DnsResolver.
#[local] Open Scope Z_scope.

Class DnsPlatform (W : Type) := {
  (* outcome, the descriptor written *)
  pf_dns_connect_start : Z -> str -> str -> W -> (Z * Z) * W;
  pf_udp_connect_start : str -> str -> W -> (Z * Z) * W;
  pf_connect_observe : Z -> Z -> W -> Z * W;
  (* outcome, the count written, what the storage holds *)
  pf_read_observe : Z -> Z -> Z -> W -> (Z * Z * bytes) * W;
  (* the bytes from the pointer on, their number, flags; outcome, the count written *)
  pf_write_observe : Z -> bytes -> Z -> Z -> W -> (Z * Z) * W;
  pf_resolver_config_read : Z -> W -> (Z * bytes) * W;
  pf_hosts_config_read : Z -> W -> (Z * bytes) * W;
  pf_random_u16 : W -> Z * W;
  pf_close : Z -> W -> Z * W;
}.

Definition PCC_SOCKET_PROGRESS : Z := 0.
Definition PCC_SOCKET_WOULD_BLOCK : Z := 1.
Definition PCC_SOCKET_EOF : Z := 2.
Definition PCC_SOCKET_CONNECTED : Z := 3.
Definition DNS_PROTOCOL_UDP : Z := 0.
Definition DNS_PROTOCOL_TCP : Z := 1.
Definition SYSTEM_TEXT_LIMIT : Z := 65535.

Definition map_socket_outcome (outcome : Z) : io_status :=
  if (outcome =? PCC_SOCKET_PROGRESS) || (outcome =? PCC_SOCKET_CONNECTED) then DNS_IO_OK
  else if outcome =? PCC_SOCKET_WOULD_BLOCK then DNS_IO_WOULD_BLOCK
  else if outcome =? PCC_SOCKET_EOF then DNS_IO_EOF
  else DNS_IO_ERROR.
(** [error="" if status != DNS_IO_ERROR else prefix + str(outcome)] *)
Definition outcome_error (status : io_status) (prefix : str) (outcome : Z) : str :=
  if bool_decide (status = DNS_IO_ERROR) then prefix ++ str_of_int outcome else [].

(** [bytes.decode("utf-8", "ignore")]: what does not decode is dropped.  A byte that continues
    a sequence begins none, so dropping bytes one by one drops the whole ill-formed part. *)
Fixpoint utf8_ignore_go (fuel : nat) (s : bytes) : str :=
  match fuel, s with
  | Datatypes.S f, _ :: s' =>
      match utf8_decode_step s with
      | Ok (c, n) => c :: utf8_ignore_go f (drop n s)
      | Raise _ => utf8_ignore_go f s'
      end
  | _, _ => []
  end.
Definition utf8_ignore (s : bytes) : str := utf8_ignore_go (length s) s.

(** What the adapter knows of a descriptor: its server, its protocol, its connect outcome. *)
Record provenance := Provenance { pv_server : dns_server; pv_protocol : protocol; pv_connect : Z }.
Record native (W : Type) := Native { nd_owned : gmap Z provenance; nd_world : W }.
Arguments Native {W}. Arguments nd_owned {W}. Arguments nd_world {W}.

Module NativeDnsTransport.
Section transport.
Context {W : Type} `{DnsPlatform W}.
Abbreviation native := (native W).

Definition init (w : W) : native := Native ∅ w.
(** A table of its own, over the same platform. *)
Definition fork (t : native) : native := init (nd_world t).
Definition platform {A} (f : W -> A * W) (t : native) : A * native :=
  let '(a, w) := f (nd_world t) in (a, Native (nd_owned t) w).
Definition error_result (handle : Z) (error : str) : io_result := DnsIoResult DNS_IO_ERROR handle 0 [] NoPeer error.

(** The check of the protocol holds by typing. *)
Definition open_ (p : protocol) (s : dns_server) (t : native) : io_result * native :=
  let '((outcome, handle), t) :=
    platform (match p with
              | UDP => pf_udp_connect_start (sv_address s) (str_of_int (sv_port s))
              | TCP => pf_dns_connect_start DNS_PROTOCOL_TCP (sv_address s) (str_of_int (sv_port s))
              end) t in
  if (handle <? 0) || negb ((outcome =? PCC_SOCKET_CONNECTED) || (outcome =? PCC_SOCKET_WOULD_BLOCK)) then
    let t := if handle >=? 0 then snd (platform (pf_close handle) t) else t in
    (error_result (-1) (py "dns-socket-open:" ++ str_of_int outcome), t)
  else
    (DnsIoResult DNS_IO_OK handle 0 [] NoPeer [], Native (<[handle := Provenance s p outcome]> (nd_owned t)) (nd_world t)).

Definition handle_provenance : str := py "dns-handle-provenance".
Definition connect (handle : Z) (s : dns_server) (t : native) : io_result * native :=
  match nd_owned t !! handle with
  | None => (error_result handle handle_provenance, t)
  | Some owner =>
      if negb (bool_decide (pv_server owner = s)) then (error_result handle handle_provenance, t)
      else if pv_connect owner =? PCC_SOCKET_CONNECTED then (DnsIoResult DNS_IO_OK handle 0 [] NoPeer [], t)
      else
        let '(outcome, t) := platform (pf_connect_observe handle 0) t in
        let status := map_socket_outcome outcome in
        let t := if bool_decide (status = DNS_IO_OK)
                 then Native (<[handle := Provenance (pv_server owner) (pv_protocol owner) PCC_SOCKET_CONNECTED]> (nd_owned t)) (nd_world t)
                 else t in
        (DnsIoResult status handle 0 [] NoPeer (outcome_error status (py "dns-connect:") outcome), t)
  end.

(** The owner of a connected descriptor. *)
Definition connected (handle : Z) (t : native) : option provenance :=
  match nd_owned t !! handle with
  | Some owner => if pv_connect owner =? PCC_SOCKET_CONNECTED then Some owner else None
  | None => None
  end.
Definition send (handle : Z) (data : bytes) (offset : Z) (t : native) : io_result * native :=
  match connected handle t with
  | None => (error_result handle handle_provenance, t)
  | Some _ =>
      if (offset <? 0) || (offset >? len data) then (error_result handle (py "invalid-send-offset"), t)
      else
        let '((outcome, count), t) := platform (pf_write_observe handle (from data offset) (len data - offset) 0) t in
        let status := map_socket_outcome outcome in
        (DnsIoResult status handle count [] NoPeer (outcome_error status (py "dns-send:") outcome), t)
  end.

(** One byte more than asked for of a datagram, so that a larger one is not taken for whole. *)
Definition receive_capacity (p : protocol) (max_bytes : Z) : Z :=
  let max_bytes := if max_bytes >? SYSTEM_TEXT_LIMIT then SYSTEM_TEXT_LIMIT else max_bytes in
  if bool_decide (p = UDP) && (max_bytes <? SYSTEM_TEXT_LIMIT) then max_bytes + 1 else max_bytes.
Definition receive (handle max_bytes : Z) (t : native) : io_result * native :=
  match connected handle t with
  | None => (error_result handle handle_provenance, t)
  | Some owner =>
      if max_bytes <=? 0 then (error_result handle (py "invalid-receive-limit"), t)
      else
        let '((outcome, count, storage), t) :=
          platform (pf_read_observe handle (receive_capacity (pv_protocol owner) max_bytes) 0) t in
        let status := map_socket_outcome outcome in
        let data := if bool_decide (status = DNS_IO_OK) && (count >? 0) then upto storage count else [] in
        (DnsIoResult status handle count data (PeerServer (pv_server owner)) (outcome_error status (py "dns-receive:") outcome), t)
  end.

Definition close (handle : Z) (t : native) : native :=
  match nd_owned t !! handle with
  | None => t
  | Some _ => snd (platform (pf_close handle) (Native (delete handle (nd_owned t)) (nd_world t)))
  end.

(** The transport of the driver. *)
#[export] Instance transport : DnsTransport native := {|
  tr_open := open_; tr_connect := connect; tr_send := send; tr_receive := receive; tr_close := close |}.

(** ** The system's resolver files *)

(** [kind]: the resolver configuration, else the hosts. *)
Definition read_platform_text (kind : Z) (label : str) : M native str := fun t =>
  let '((count, storage), t) :=
    platform (if kind =? 0 then pf_resolver_config_read SYSTEM_TEXT_LIMIT else pf_hosts_config_read SYSTEM_TEXT_LIMIT) t in
  (if count <? 0 then Raise (DnsError (label ++ py "-read") (py "cannot read system " ++ label))
   else if count =? 0 then Ok []
   else if count >=? SYSTEM_TEXT_LIMIT
   then Raise (DnsError (label ++ py "-too-large") (py "system " ++ label ++ py " exceeds gateway limit"))
   else Ok (utf8_ignore (upto storage count)), t).
Definition random_seed : M native Z := fun t =>
  let '(seed, t) := platform pf_random_u16 t in
  (if seed <=? 0 then Raise (DnsError (py "dns-entropy-unavailable") (py "cannot seed DNS transaction identifiers")) else Ok seed, t).
(** [Resolver(config=, hosts=, query_seed=)]: a cache and an address policy of its own. *)
Definition make_resolver (config : resolver_config) (hosts : hosts_table) (seed : Z) : result resolver :=
  let? cache := DnsCache.init 1024 5000 1000 3600000 in
  Resolver.init cache config hosts DnsAddressPolicy.default_policy seed.
Definition create_system_resolver : M native resolver :=
  let! resolver_text := read_platform_text 0 (py "resolver-config") in
  let! hosts_text := read_platform_text 1 (py "hosts-config") in
  let! config := lift (parse_resolver_config resolver_text 2 1000) in
  let! seed := random_seed in
  let! hosts := lift (HostsTable.init hosts_text 4096) in
  lift (make_resolver config hosts seed).
End transport.
End NativeDnsTransport.

Record lazy_resolver (W : Type) := Lazy { lz_transport : native W; lz_resolver : option resolver }.
Arguments Lazy {W}. Arguments lz_transport {W}. Arguments lz_resolver {W}.

Module LazySystemResolver.
Section lazy.
Context {W : Type} `{DnsPlatform W}.
Abbreviation L := (M (lazy_resolver W)).

Definition on_transport {A} (m : M (native W) A) : L A := zoom lz_transport (fun t l => Lazy t (lz_resolver l)) m.
(** The snapshot, made at most once. *)
Definition get_ : L resolver :=
  let! l := get in
  match lz_resolver l with
  | Some r => ret r
  | None =>
      let! r := on_transport NativeDnsTransport.create_system_resolver in
      modify (fun l => Lazy (lz_transport l) (Some r)) ;;!
      ret r
  end.
Definition prepare : L unit := let! _ := get_ in ret tt.
Definition fork : L resolver :=
  let! base := get_ in
  let! seed := on_transport NativeDnsTransport.random_seed in
  lift (NativeDnsTransport.make_resolver (r_config base) (r_hosts base) seed).
(** The driver runs over the transport given, else over that of the resolver. *)
Definition begin_driver (name : str) (qtype now_ms deadline_ms : Z) : L driver :=
  let! r := get_ in
  fun l => let '(d, r) := Resolver.begin_driver name qtype now_ms deadline_ms r in (d, Lazy (lz_transport l) (Some r)).
End lazy.
End LazySystemResolver.
