(* ===== verification/DnsNativeSpec.v ===== *)
(** * The native DNS transport owns exactly what is open

    Over a platform that numbers an open descriptor only once, the table of the transport is
    the set of its open descriptors after any calls, and only open ones are touched.  A
    resolution over it therefore leaves nothing open. *)

From S2P Require Import Prelude PyStr PyLists DnsWire DnsWireSpec DnsPolicy DnsResolver DnsResolverSpec DnsNative.
#[local] Open Scope Z_scope.

(** ** What every call of a transport keeps, a driver keeps *)

Section worlds.
Import DnsResolveDriver.
Context {W : Type} `{DnsTransport W} (J : W -> Prop).
Context (Hopen : forall p s w, J w -> J (snd (tr_open p s w))) (Hconnect : forall h s w, J w -> J (snd (tr_connect h s w)))
  (Hsend : forall h data i w, J w -> J (snd (tr_send h data i w))) (Hreceive : forall h n w, J w -> J (snd (tr_receive h n w)))
  (Hclose : forall h w, J w -> J (tr_close h w)).
Abbreviation D := (M (env (W:=W))).
Definition in_world {A} (m : D A) : Prop := keeps (fun t => J (e_world t)) m.

Lemma in_world_observe {A} (f : W -> A * W) : (forall w, J w -> J (snd (f w))) -> in_world (observe f).
Proof. intros Hf t Ht. unfold wp, observe. specialize (Hf _ Ht). by destruct (f (e_world t)). Qed.
Lemma in_world_upd f : in_world (upd f).
Proof. intros t Ht. by apply wp_modify. Qed.
Lemma in_world_driver : in_world getd.
Proof. by intros t. Qed.
Create HintDb worlds.
Hint Resolve in_world_upd in_world_driver : worlds.
Ltac worlds := unfold in_world; repeat lazymatch goal with
  | |- keeps _ (bind _ _) => apply keeps_bind; [|intros ?]
  | |- keeps _ (observe _) => apply in_world_observe; intros ? ?; solve [eauto]
  | |- keeps _ (if ?b then _ else _) => destruct b
  | |- keeps _ (match ?x with _ => _ end) => destruct x
  | |- keeps _ ?m => first [change (in_world m); solve [eauto with worlds nocore]|solve [auto]]
  end.
Lemma in_world_operation : in_world get_operation.
Proof. unfold get_operation. worlds. Qed.
Lemma in_world_server : in_world get_server.
Proof. unfold get_server. worlds. Qed.
Lemma in_world_close : in_world close_.
Proof. unfold close_. worlds. Qed.
Hint Resolve in_world_operation in_world_server in_world_close : worlds.
Lemma in_world_terminal e : in_world (terminal e).
Proof. unfold terminal. worlds. Qed.
Lemma in_world_plain k e : in_world (plain k e).
Proof. unfold plain. worlds. Qed.
Lemma in_world_wait k : in_world (wait k).
Proof. unfold wait. worlds. Qed.
Hint Resolve in_world_terminal in_world_plain in_world_wait : worlds.
Lemma in_world_retry e now : in_world (retry e now).
Proof. unfold retry. worlds. Qed.
Hint Resolve in_world_retry : worlds.
Lemma in_world_invalid c now tcp : in_world (invalid c now tcp).
Proof. unfold invalid. worlds. Qed.
Lemma in_world_switch q now : in_world (switch_to_tcp q now).
Proof. unfold switch_to_tcp. worlds. Qed.
Lemma in_world_receive_op payload now : in_world (receive_op payload now).
Proof.
  unfold receive_op. apply keeps_bind; [exact in_world_operation|]. intros o t Ht. unfold wp.
  destruct (ResolveOperation.receive payload now (o, e_shared t)) as [[r|[]] [o' sh]]; exact Ht.
Qed.
Hint Resolve in_world_invalid in_world_switch in_world_receive_op : worlds.
Lemma in_world_step_receive now : in_world (step_receive now).
Proof. unfold step_receive, receive_udp, receive_tcp, receive_frame. worlds. Qed.
Lemma in_world_step now : in_world (step now).
Proof. pose proof (in_world_step_receive now). unfold step, step_open, step_connect, step_send. cbv zeta. worlds. Qed.
Lemma in_world_cancel : in_world cancel.
Proof. unfold cancel. worlds. Qed.
End worlds.

(** ** The platform *)

Section laws.
Context {W : Type} `{DnsPlatform W}.
Definition connect_start (p : protocol) (address port : str) : W -> (Z * Z) * W :=
  match p with UDP => pf_udp_connect_start address port | TCP => pf_dns_connect_start DNS_PROTOCOL_TCP address port end.
Definition leaves_open {A} (live : W -> gset Z) (f : W -> A * W) : Prop := forall w, live (snd (f w)) = live w.
(** [live]: the descriptors open.  A descriptor that is opened was not open; observations
    open and close none; a read delivers bytes. *)
Record lawful (live : W -> gset Z) : Prop := {
  start_law : forall p address port w, let '((_, fd), w') := connect_start p address port w in
    if fd <? 0 then live w' = live w else (fd ∉ live w) /\ live w' = {[fd]} ∪ live w;
  close_law : forall fd w, live (snd (pf_close fd w)) = (live w ∖ {[fd]});
  connect_law : forall fd flags, leaves_open live (pf_connect_observe fd flags);
  read_law : forall fd n flags, leaves_open live (pf_read_observe fd n flags);
  write_law : forall fd data n flags, leaves_open live (pf_write_observe fd data n flags);
  octets_law : forall fd n flags w, octets (snd (fst (pf_read_observe fd n flags w)));
}.
End laws.

(** The same platform, recording whether each descriptor it is asked about is open. *)
Definition touch {W A} (live : W -> gset Z) (fd : Z) (f : W -> A * W) (w : W * list bool) : A * (W * list bool) :=
  let '(a, w') := f (fst w) in (a, (w', snd w ++ [bool_decide (fd ∈ live (fst w))])).
Definition plainly {W A} (f : W -> A * W) (w : W * list bool) : A * (W * list bool) :=
  let '(a, w') := f (fst w) in (a, (w', snd w)).
Definition watched {W} `{DnsPlatform W} (live : W -> gset Z) : DnsPlatform (W * list bool) := {|
  pf_dns_connect_start := fun k a p => plainly (pf_dns_connect_start k a p);
  pf_udp_connect_start := fun a p => plainly (pf_udp_connect_start a p);
  pf_connect_observe := fun fd flags => touch live fd (pf_connect_observe fd flags);
  pf_read_observe := fun fd n flags => touch live fd (pf_read_observe fd n flags);
  pf_write_observe := fun fd data n flags => touch live fd (pf_write_observe fd data n flags);
  pf_resolver_config_read := fun n => plainly (pf_resolver_config_read n);
  pf_hosts_config_read := fun n => plainly (pf_hosts_config_read n);
  pf_random_u16 := plainly pf_random_u16;
  pf_close := fun fd => touch live fd (pf_close fd) |}.

Section native.
Context {W : Type} {P : DnsPlatform W} (live : W -> gset Z) (Hlaw : lawful live).
#[local] Existing Instance watched | 0.
Abbreviation native := (native (W * list bool)).
Abbreviation transport := (@NativeDnsTransport.transport (W * list bool) (watched live)).

(** The table is what is open, and only open descriptors were touched. *)
Record owns (t : native) : Prop := {
  ow_table : dom (nd_owned t) = live (fst (nd_world t));
  ow_handles : forall h, h ∈ dom (nd_owned t) -> 0 <= h;
  ow_touched : Forall (fun b => b = true) (snd (nd_world t));
}.
Lemma owns_init w : live w = ∅ -> owns (NativeDnsTransport.init (w, [])).
Proof. intros Hw. split; cbn; [rewrite dom_empty_L; by rewrite Hw| |done]. intros h. rewrite dom_empty_L. by intros ?%elem_of_empty. Qed.

Lemma touch_spec {A} fd (f : W -> A * W) (t : native) : owns t -> leaves_open live f -> fd ∈ dom (nd_owned t) ->
  let '(_, t') := NativeDnsTransport.platform (touch live fd f) t in owns t' /\ nd_owned t' = nd_owned t.
Proof.
  intros [Ht Hh Hl] Hf Hfd. unfold NativeDnsTransport.platform, touch. specialize (Hf (fst (nd_world t))).
  destruct (f (fst (nd_world t))) as [a w']. cbn in *. split; [|done]. split; cbn; [by rewrite Hf|done|].
  apply Forall_app. split; [done|]. apply Forall_singleton. apply bool_decide_eq_true. by rewrite <- Ht.
Qed.
Lemma connected_owned h (t : native) o : NativeDnsTransport.connected h t = Some o -> h ∈ dom (nd_owned t).
Proof. unfold NativeDnsTransport.connected. destruct (nd_owned t !! h) as [x|] eqn:E; [|done]. intros _. by eapply elem_of_dom_2. Qed.

(** What a call leaves of the table. *)
Lemma open_spec p s (t : native) : owns t -> let '(r, t') := tr_open (DnsTransport:=transport) p s t in
  owns t' /\ (if bool_decide (io_st r = DNS_IO_OK) then io_handle r <> -1 /\ dom (nd_owned t') = {[io_handle r]} ∪ dom (nd_owned t)
              else nd_owned t' = nd_owned t).
Proof.
  intros [Ht Hh Hl]. cbn [tr_open NativeDnsTransport.transport]. unfold NativeDnsTransport.open_, NativeDnsTransport.platform at 1.
  pose proof (start_law live Hlaw p (sv_address s) (str_of_int (sv_port s)) (fst (nd_world t))) as Hs.
  match goal with |- context [match p with UDP => ?a | TCP => ?b end (nd_world t)] =>
    replace (match p with UDP => a | TCP => b end (nd_world t))
      with (plainly (connect_start p (sv_address s) (str_of_int (sv_port s))) (nd_world t)) by (by destruct p) end.
  unfold plainly. destruct (connect_start _ _ _ _) as [[outcome fd] w']. cbv zeta. cbn [fst snd] in *.
  destruct (Z.ltb_spec fd 0) as [Hfd|Hfd]; cbn [orb].
  { zdec. split; [|done]. split; cbn; [by rewrite Hs|done|done]. }
  destruct Hs as [Hfresh Hs]. destruct (negb _).
  - assert ((fd >=? 0) = true) as -> by lia. unfold NativeDnsTransport.platform. cbn [pf_close watched nd_world].
    unfold touch. cbn [fst snd]. pose proof (close_law live Hlaw fd w') as Hc. destruct (pf_close fd w') as [a w'']. cbn in Hc |- *.
    split; [|done]. split; cbn; [rewrite Ht, Hc, Hs; set_solver|done|]. apply Forall_app. split; [done|]. apply Forall_singleton, bool_decide_eq_true.
    rewrite Hs. set_solver.
  - cbn. split; [|split; [lia|apply dom_insert_L]]. split; cbn; [by rewrite dom_insert_L, Ht, Hs| |done].
    intros h. rewrite dom_insert_L. intros [->%elem_of_singleton|?]%elem_of_union; [done|by apply Hh].
Qed.
Lemma connect_spec h s (t : native) : owns t -> let '(_, t') := tr_connect (DnsTransport:=transport) h s t in
  owns t' /\ dom (nd_owned t') = dom (nd_owned t).
Proof.
  intros Ho. cbn [tr_connect NativeDnsTransport.transport]. unfold NativeDnsTransport.connect.
  destruct (nd_owned t !! h) as [o|] eqn:E; [|done]. destruct (negb _); [done|]. destruct (pv_connect o =? _); [done|].
  assert (h ∈ dom (nd_owned t)) as Hin by (by eapply elem_of_dom_2).
  pose proof (touch_spec h (pf_connect_observe h 0) t Ho (connect_law live Hlaw h 0) Hin) as Hs.
  cbn [pf_connect_observe watched]. destruct (NativeDnsTransport.platform _ t) as [outcome t1]. destruct Hs as [[Ht Hh Hl] Hs]. cbv zeta.
  destruct (bool_decide _); [|split; [done|by rewrite Hs]].
  cbn [fst snd nd_owned]. assert (forall x, dom (<[h:=x]> (nd_owned t1)) = dom (nd_owned t)) as Hd by (intros x; rewrite dom_insert_L, Hs; set_solver).
  rewrite Hd. split; [|done]. rewrite Hs in Ht, Hh. split; cbn [nd_owned nd_world]; [by rewrite Hd|intros h' Hh'; apply Hh; by rewrite Hd in Hh'|done].
Qed.
Lemma send_spec h data i (t : native) : owns t -> let '(_, t') := tr_send (DnsTransport:=transport) h data i t in
  owns t' /\ dom (nd_owned t') = dom (nd_owned t).
Proof.
  intros Ho. cbn [tr_send NativeDnsTransport.transport]. unfold NativeDnsTransport.send.
  destruct (NativeDnsTransport.connected h t) as [o|] eqn:E; [|done]. destruct (_ || _); [done|].
  pose proof (touch_spec h _ t Ho (write_law live Hlaw h (from data i) (len data - i) 0) (connected_owned _ _ _ E)) as Hs.
  cbn [pf_write_observe watched]. destruct (NativeDnsTransport.platform _ t) as [[outcome count] t1]. destruct Hs as [Hs ->]. done.
Qed.
Lemma native_receive_spec h n (t : native) : owns t -> let '(_, t') := tr_receive (DnsTransport:=transport) h n t in
  owns t' /\ dom (nd_owned t') = dom (nd_owned t).
Proof.
  intros Ho. cbn [tr_receive NativeDnsTransport.transport]. unfold NativeDnsTransport.receive.
  destruct (NativeDnsTransport.connected h t) as [o|] eqn:E; [|done]. destruct (n <=? 0); [done|].
  pose proof (touch_spec h _ t Ho (read_law live Hlaw h (NativeDnsTransport.receive_capacity (pv_protocol o) n) 0) (connected_owned _ _ _ E)) as Hs.
  cbn [pf_read_observe watched]. destruct (NativeDnsTransport.platform _ t) as [[[outcome count] storage] t1]. destruct Hs as [Hs ->]. done.
Qed.
Lemma native_close_spec h (t : native) : owns t -> let t' := tr_close (DnsTransport:=transport) h t in
  owns t' /\ dom (nd_owned t') = (dom (nd_owned t) ∖ {[h]}).
Proof.
  intros [Ht Hh Hl]. cbn [tr_close NativeDnsTransport.transport]. unfold NativeDnsTransport.close. cbv zeta.
  destruct (nd_owned t !! h) as [o|] eqn:E.
  - unfold NativeDnsTransport.platform. cbn [pf_close watched nd_world]. unfold touch.
    pose proof (close_law live Hlaw h (fst (nd_world t))) as Hc. destruct (pf_close h (fst (nd_world t))) as [a w']. cbn in Hc |- *.
    split; [|apply dom_delete_L]. split; cbn; [by rewrite dom_delete_L, Ht, Hc| |].
    + intros h'. rewrite dom_delete_L. intros [? _]%elem_of_difference. by apply Hh.
    + apply Forall_app. split; [done|]. apply Forall_singleton, bool_decide_eq_true. rewrite <- Ht. by eapply elem_of_dom_2.
  - split; [done|]. apply not_elem_of_dom in E. set_solver.
Qed.

(** ** The driver over it *)

Definition accounted (x : native * list io_event) : Prop :=
  owns (fst x) /\ match ledger (snd x) with
                  | Some o => dom (nd_owned (fst x)) = match o with Some h => {[h]} | None => ∅ end
                  | None => True
                  end.
#[local] Instance over_native : DnsTransport (native * list io_event) := ledger_transport native transport.
Lemma accounted_used h log (t t' : native) : accounted (t, log) -> owns t' -> dom (nd_owned t') = dom (nd_owned t) -> accounted (t', log ++ [Used h]).
Proof.
  intros [Ho Hl] Ho' E. split; [done|]. cbn [fst snd] in *. rewrite ledger_snoc. destruct (ledger log) as [[h'|]|]; cbn; [|done|done].
  destruct (h =? h'); [by rewrite E|done].
Qed.
Lemma accounted_open p s x : accounted x -> accounted (snd (tr_open (DnsTransport:=over_native) p s x)).
Proof.
  destruct x as [t log]. intros [Ho Hl]. cbn [tr_open over_native ledger_transport fst snd] in *. pose proof (open_spec p s t Ho) as Hs.
  destruct (tr_open p s t) as [r t']. destruct Hs as [Ho' Hs]. split; [done|]. cbn [fst snd]. unfold opened_by.
  case_bool_decide as Eok; cbn [andb].
  - destruct Hs as [Hh Hd]. rewrite (proj2 (Z.eqb_neq _ _) Hh). cbn [negb]. rewrite ledger_snoc. destruct (ledger log) as [[h'|]|]; cbn; [done| |done].
    rewrite Hd, Hl. set_solver.
  - by rewrite Hs.
Qed.
Lemma accounted_close h x : accounted x -> accounted (tr_close (DnsTransport:=over_native) h x).
Proof.
  destruct x as [t log]. intros [Ho Hl]. cbn [tr_close over_native ledger_transport fst snd] in *. destruct (native_close_spec h t Ho) as [Ho' Hd].
  split; [done|]. cbn [fst snd]. rewrite ledger_snoc. destruct (ledger log) as [[h'|]|]; cbn; [|done|done].
  destruct (Z.eqb_spec h h') as [->|]; [|done]. etransitivity; [exact Hd|]. rewrite Hl. set_solver.
Qed.
Lemma accounted_observed {A} h (f : native -> A * native) (x : native * list io_event) :
  (forall t, owns t -> let '(_, t') := f t in owns t' /\ dom (nd_owned t') = dom (nd_owned t)) ->
  accounted x -> accounted (snd (let '(r, t') := f (fst x) in (r, (t', snd x ++ [Used h])))).
Proof.
  intros Hf Hx. pose proof (Hf (fst x) (proj1 Hx)) as Hs. destruct (f (fst x)) as [r t']. destruct Hs as [Ho Hd]. cbn [snd].
  eapply accounted_used; [|exact Ho|exact Hd]. by destruct x.
Qed.
Lemma accounted_step call : keeps (fun t => accounted (DnsResolveDriver.e_world t)) (@drive_one native transport call).
Proof.
  assert (keeps (fun t => accounted (DnsResolveDriver.e_world t)) (DnsResolveDriver.cancel (H:=over_native)) /\
    forall now, keeps (fun t => accounted (DnsResolveDriver.e_world t)) (DnsResolveDriver.step (H:=over_native) now)) as [Hc Hs].
  2:{ destruct call; [apply Hs|apply Hc]. }
  split; [apply in_world_cancel|intros now; apply in_world_step].
  all: try exact accounted_close; try exact accounted_open.
  - intros h s x. apply accounted_observed, connect_spec.
  - intros h data i x. apply accounted_observed, send_spec.
  - intros h n x. apply accounted_observed, native_receive_spec.
Qed.
Lemma accounted_drive calls : forall t, accounted (DnsResolveDriver.e_world t) ->
  accounted (DnsResolveDriver.e_world (snd (@drive native transport calls t))).
Proof.
  induction calls as [|call calls IH]; intros t Ht; [done|]. cbn [drive]. destruct (d_done _); [done|].
  pose proof (accounted_step call t Ht) as Hs. unfold wp in Hs. destruct (drive_one call t) as [[r|e] t1]; specialize (IH t1 Hs);
    by destruct (drive calls t1) as [rs t2].
Qed.
Lemma native_octets : @delivers_octets native transport.
Proof.
  intros h n t. cbn [tr_receive NativeDnsTransport.transport]. unfold NativeDnsTransport.receive.
  destruct (NativeDnsTransport.connected h t) as [o|]; [|apply Forall_nil_2]. destruct (n <=? 0); [apply Forall_nil_2|].
  unfold NativeDnsTransport.platform. cbn [pf_read_observe watched]. unfold touch.
  pose proof (octets_law live Hlaw h (NativeDnsTransport.receive_capacity (pv_protocol o) n) 0 (fst (nd_world t))) as Ho.
  destruct (pf_read_observe _ _ _ _) as [[[outcome count] storage] w']. cbn in Ho |- *. destruct (_ && _); [|apply Forall_nil_2].
  by apply Forall_take.
Qed.

(** C24: a resolution over the native transport leaves no descriptor open.  Over any platform
    that numbers an open descriptor only once - whatever it answers, and in whatever order the
    driver's steps and its cancellation come - what is open during a resolution is the one
    descriptor the driver holds, if any, which the transport's table names; the platform is
    asked only about open descriptors; and when the resolution is done nothing is open. *)
Theorem native_resolution_leaves_nothing servers attempts timeout invalid udp tcp rot vc name qtype now due r d r' w calls :
  make_resolver_config servers attempts timeout invalid udp tcp rot vc = Ok (r_config r) ->
  Resolver.begin_driver name qtype now due r = (Ok d, r') -> live w = ∅ ->
  let t := snd (@drive native transport calls (DnsResolveDriver.Env d (r_shared r') (NativeDnsTransport.init (w, []), []))) in
  let d' := DnsResolveDriver.e_driver t in let n := fst (DnsResolveDriver.e_world t) in
  live (fst (nd_world n)) = (if handle d' =? -1 then ∅ else {[handle d']}) /\ dom (nd_owned n) = live (fst (nd_world n)) /\
  Forall (fun b => b = true) (snd (nd_world n)) /\ (d_done d' = true -> live (fst (nd_world n)) = ∅).
Proof.
  intros Hc Hb Hw. destruct (config_limits _ _ _ _ _ _ _ _ _ Hc) as (Hat & Ht & Hi).
  pose proof (begin_driver_fresh name qtype now due r d r' Hat Ht Hi Hb) as Hf.
  set (t0 := DnsResolveDriver.Env _ _ _).
  pose proof (drive_spec due calls native_octets t0 (fresh_inv due _ d r' (NativeDnsTransport.init (w, []) : native) Hf)) as Hspec.
  assert (accounted (DnsResolveDriver.e_world t0)) as Ha0 by (split; [by apply owns_init|apply dom_empty_L]).
  pose proof (accounted_drive calls t0 Ha0) as [Ho Ha]. destruct (@drive native transport calls t0) as [rs t]. cbv zeta. cbn [snd] in *.
  destruct Hspec as (_ & [Hlog Hd] & _). rewrite Hlog in Ha. unfold held in Ha.
  assert (live (fst (nd_world (fst (DnsResolveDriver.e_world t)))) = (if handle (DnsResolveDriver.e_driver t) =? -1 then ∅ else {[handle (DnsResolveDriver.e_driver t)]})) as El.
  { rewrite <- (ow_table _ Ho), Ha. by destruct (handle (DnsResolveDriver.e_driver t) =? -1). }
  split_and!; [exact El|apply Ho|apply Ho|]. intros Hdone. rewrite El. destruct Hd as [[_ ->]|(o & s & Hl)]; [done|].
  by rewrite (live_done _ _ _ _ Hl) in Hdone.
Qed.
End native.

(** ** The snapshot *)

Section snapshot.
Context {W : Type} `{DnsPlatform W}.
Implicit Types l : lazy_resolver W.

(** The resolver files are read once. *)
Lemma prepared_once l r l' : LazySystemResolver.get_ l = (Ok r, l') -> LazySystemResolver.get_ l' = (Ok r, l').
Proof.
  unfold LazySystemResolver.get_, bind, get, ret, modify. destruct (lz_resolver l) as [b|] eqn:E.
  - intros [= <- <-]. by rewrite E.
  - destruct (LazySystemResolver.on_transport _ l) as [[b|e] l1]; [|done]. by intros [= <- <-].
Qed.
(** A fork shares the configuration and the hosts with the snapshot and nothing that changes. *)
Lemma fork_shares_constants l b r l' : lz_resolver l = Some b -> LazySystemResolver.fork l = (Ok r, l') ->
  r_config r = r_config b /\ r_hosts r = r_hosts b /\ r_shared r = DnsShared (DnsCache 1024 5000 1000 3600000 ∅ []) DnsAddressPolicy.default_policy /\
  0 < next_query_id r <= 65535 /\ lz_resolver l' = Some b.
Proof.
  intros E. unfold LazySystemResolver.fork, LazySystemResolver.get_, bind, get, ret. rewrite E. cbn.
  unfold LazySystemResolver.on_transport, zoom, NativeDnsTransport.random_seed. destruct (NativeDnsTransport.platform _ _) as [seed t].
  destruct (seed <=? 0) eqn:E1; [done|]. unfold lift, NativeDnsTransport.make_resolver, Resolver.init. cbn. rewrite E1. cbn.
  destruct (seed >? 65535) eqn:E2; [done|]. intros [= <- <-]. cbn. rewrite E. split_and!; [done|done|done|lia|lia|done].
Qed.
End snapshot.

(** ** A concrete platform: one socket at a time, which answers at once *)

Definition one_socket : DnsPlatform (option Z) := {|
  pf_dns_connect_start := fun _ _ _ w => ((PCC_SOCKET_EOF, -1), w);
  pf_udp_connect_start := fun _ _ w => match w with None => ((PCC_SOCKET_WOULD_BLOCK, 3), Some 3) | Some _ => ((-1, -1), w) end;
  pf_connect_observe := fun _ _ w => (PCC_SOCKET_CONNECTED, w);
  pf_read_observe := fun _ _ _ w => let reply := a_reply sample_query sample_records in ((PCC_SOCKET_PROGRESS, len reply, reply), w);
  pf_write_observe := fun _ _ n _ w => ((PCC_SOCKET_PROGRESS, n), w);
  pf_resolver_config_read := fun _ w => ((0, []), w);
  pf_hosts_config_read := fun _ w => ((0, []), w);
  pf_random_u16 := fun w => (1234, w);
  pf_close := fun fd w => (0, if bool_decide (w = Some fd) then None else w) |}.
Definition socket_open (w : option Z) : gset Z := match w with Some fd => {[fd]} | None => ∅ end.
Lemma one_socket_lawful : @lawful _ one_socket socket_open.
Proof.
  split; try done.
  - intros [] address port [fd|]; cbn; done.
  - intros fd [fd'|]; cbn; [|set_solver]. case_bool_decide as E; cbn; [injection E as ->; set_solver|].
    assert (fd' <> fd) by congruence. set_solver.
  - intros fd n flags w. cbn. unfold octets. vm_compute a_reply. repeat constructor; lia.
Qed.

Abbreviation native_end :=
  (snd (@drive _ (@NativeDnsTransport.transport _ (@watched _ one_socket socket_open)) sample_calls
    (DnsResolveDriver.Env sample_driver (r_shared (snd sample_begun)) (NativeDnsTransport.init (None, []), [])))).
Example native_resolves :
  d_values (DnsResolveDriver.e_driver native_end) = [py "192.0.2.7"; py "10.0.0.1"] /\
  utf8_ignore [97; 226; 130; 98; 255; 226; 130; 172] = [97; 98; 8364].
Proof. vm_compute. done. Qed.
Lemma native_resolution_leaves_nothing_witness : @lawful _ one_socket socket_open /\ d_done (DnsResolveDriver.e_driver native_end) = true /\
  socket_open (fst (nd_world (fst (DnsResolveDriver.e_world native_end)))) = ∅.
Proof.
  pose proof one_socket_lawful as Hlaw. assert (d_done (DnsResolveDriver.e_driver native_end) = true) as Hd by (vm_compute; reflexivity).
  split; [exact Hlaw|]. split; [exact Hd|].
  assert (Resolver.begin_driver (py "A.db.") DNS_A 0 5000 sample_resolver = (Ok sample_driver, snd sample_begun)) as Hb
    by (rewrite <- sample_begins; apply surjective_pairing).
  pose proof (@native_resolution_leaves_nothing _ one_socket socket_open Hlaw [inr (py "192.0.2.53")] 2 1000 4 4096 65535 false false
    (py "A.db.") DNS_A 0 5000 sample_resolver sample_driver (snd sample_begun) None sample_calls sample_config_made Hb eq_refl) as Hn.
  destruct Hn as (_ & _ & _ & Hn). exact (Hn Hd).
Defined.
