(* ===== verification/Channel.v ===== *)
(** * The channel pipeline ([pcc_gateway/channel.py])

    Stages are outside code: a record of the callbacks a stage overrides, over the
    channel context and a world [W].  The pipeline runs them in order and closes the
    context on the first failure.  The theorems are in [ChannelSpec]. *)

From S2P Require Import Prelude PyStr Models.
#[local] Open Scope Z_scope.

Definition INBOUND : Z := 1.
Definition OUTBOUND : Z := 2.
Definition BOTH : Z := 3.

Record channel_context := ChannelContext {
  connection_id : Z;
  attributes : gmap (list Z) Z;
  ctx_closed : bool;
  ctx_error : option exn;
  ctx_cancellation : option cancellation;
}.

Definition set_attributes (a : gmap (list Z) Z) (c : channel_context) : channel_context :=
  ChannelContext (connection_id c) a (ctx_closed c) (ctx_error c) (ctx_cancellation c).
Definition set_ctx_closed (b : bool) (c : channel_context) : channel_context :=
  ChannelContext (connection_id c) (attributes c) b (ctx_error c) (ctx_cancellation c).
Definition set_ctx_error (e : option exn) (c : channel_context) : channel_context :=
  ChannelContext (connection_id c) (attributes c) (ctx_closed c) e (ctx_cancellation c).
Definition cancel_ctx (c : channel_context) : channel_context :=
  ChannelContext (connection_id c) (attributes c) (ctx_closed c) (ctx_error c)
    (option_map (fun x => snd (Cancellation.cancel (py "channel closed") x)) (ctx_cancellation c)).

(** [ChannelContext.close(error)] *)
Definition context_close (error : option exn) (c : channel_context) : channel_context :=
  cancel_ctx (set_ctx_error error (set_ctx_closed true c)).

Section channel.
Context {Msg W : Type}.

(** A stage's method: [None] is the value that stops the message. *)
Abbreviation CM := (M (channel_context * W)).
Record stage := ChannelStage {
  st_name : str;
  direction : Z;
  st_inbound : Msg -> CM (option Msg);
  st_outbound : Msg -> CM (option Msg);
  st_close : CM unit;
}.

(** The base class: both directions pass the message on and [close] does nothing. *)
Definition make_stage (name : str) (dir : Z) : result stage :=
  if bool_decide (name = []) || negb ((dir =? INBOUND) || (dir =? OUTBOUND) || (dir =? BOTH))
  then Raise (ValueError (py "invalid channel stage"))
  else Ok (ChannelStage name dir (fun m => ret (Some m)) (fun m => ret (Some m)) (ret tt)).

Definition get_ctx : CM channel_context := fun t => (Ok (fst t), t).
Definition upd_ctx (f : channel_context -> channel_context) : CM unit :=
  modify (fun t => (f (fst t), snd t)).

Fixpoint check_names (names : list str) (stages : list stage) : result unit :=
  match stages with
  | [] => Ok tt
  | s :: stages' =>
      if str_in (st_name s) names
      then Raise (ValueError (py "duplicate channel stage name: " ++ st_name s))
      else check_names (st_name s :: names) stages'
  end.
(** [ChannelPipeline(stages)]; the pipeline is its tuple of stages. *)
Definition make_pipeline (stages : list stage) : result (list stage) :=
  let? _ := check_names [] stages in Ok stages.

Fixpoint inbound_loop (stages : list stage) (current : Msg) : CM (option Msg) :=
  match stages with
  | [] => ret (Some current)
  | s :: stages' =>
      if negb (Z.land (direction s) INBOUND =? 0) then
        let! next := st_inbound s current in
        match next with
        | None => ret None
        | Some current => inbound_loop stages' current
        end
      else inbound_loop stages' current
  end.
(** The loop of [outbound], over the stages in reverse. *)
Fixpoint outbound_loop (stages : list stage) (current : Msg) : CM (option Msg) :=
  match stages with
  | [] => ret (Some current)
  | s :: stages' =>
      if negb (Z.land (direction s) OUTBOUND =? 0) then
        let! next := st_outbound s current in
        match next with
        | None => ret None
        | Some current => outbound_loop stages' current
        end
      else outbound_loop stages' current
  end.

Definition guarded {A} (m : CM A) (message : str) : CM A :=
  try_except m (fun error => upd_ctx (context_close (Some error)) ;;! raise (PipelineError message)).

Definition inbound (stages : list stage) (message : Msg) : CM (option Msg) :=
  let! c := get_ctx in
  if ctx_closed c then raise (ChannelClosedError (py "inbound message on closed channel"))
  else guarded (inbound_loop stages message) (py "inbound stage failed").

Definition outbound (stages : list stage) (message : Msg) : CM (option Msg) :=
  let! c := get_ctx in
  if ctx_closed c then raise (ChannelClosedError (py "outbound message on closed channel"))
  else guarded (outbound_loop (rev stages) message) (py "outbound stage failed").

(** The loop of [close], over the stages in reverse; the first error is kept. *)
Fixpoint close_loop (stages : list stage) (first_error : option exn) : CM (option exn) :=
  match stages with
  | [] => ret first_error
  | s :: stages' =>
      let! e := try_except (st_close s ;;! ret None) (fun e => ret (Some e)) in
      close_loop stages' (match first_error with Some x => Some x | None => e end)
  end.
Definition close (stages : list stage) : CM unit :=
  let! c := get_ctx in
  if ctx_closed c then ret tt
  else
    upd_ctx (set_ctx_closed true) ;;!
    let! first_error := close_loop (rev stages) None in
    upd_ctx cancel_ctx ;;!
    match first_error with
    | Some e => upd_ctx (set_ctx_error (Some e))
    | None => ret tt
    end.

End channel.
Arguments stage : clear implicits.

(** ** [ByteLimitStage], over messages that are bytes *)
Section byte_limit.
Context {W : Type}.

Definition count_bytes (key : str) (limit : Z) (refused : str) (message : bytes)
    : M (channel_context * W) (option bytes) :=
  let! c := get_ctx in
  let count := default 0 (attributes c !! key) + len message in
  if count >? limit then raise (ValueError refused)
  else
    upd_ctx (fun c => set_attributes (<[key := count]> (attributes c)) c) ;;!
    ret (Some message).

Definition byte_limit_stage (name : str) (max_inbound max_outbound : Z) : result (stage bytes W) :=
  let? base := make_stage (Msg := bytes) (W := W) name BOTH in
  Ok (ChannelStage (st_name base) (direction base)
        (count_bytes (name ++ py ".in") max_inbound (py "channel inbound byte limit exceeded"))
        (count_bytes (name ++ py ".out") max_outbound (py "channel outbound byte limit exceeded"))
        (st_close base)).
End byte_limit.
