(* ===== verification/ChannelSpec.v ===== *)
(** * Properties of the channel pipeline

    Stages are arbitrary; a log beside their world records which of their callbacks run.
    A message passes the stages of its direction in order, once each, until one keeps it or
    fails; a failure closes the channel for good; closing runs every close hook. *)

From S2P Require Import Prelude PyStr Models Channel.
#[local] Open Scope Z_scope.

(** A callback of a stage, by the stage's name. *)
Inductive stage_event := RanInbound (name : str) | RanOutbound (name : str) | RanClose (name : str).

Section channel.
Context {Msg W : Type}.

(** A stage under observation. *)
Definition observe {A} (e : stage_event) (m : M (channel_context * W) A)
    : M (channel_context * (list stage_event * W)) A := fun '(c, (log, w)) =>
  let '(r, (c', w')) := m (c, w) in (r, (c', (log ++ [e], w'))).
Definition observed (s : stage Msg W) : stage Msg (list stage_event * W) :=
  ChannelStage (st_name s) (direction s)
    (fun m => observe (RanInbound (st_name s)) (st_inbound s m))
    (fun m => observe (RanOutbound (st_name s)) (st_outbound s m))
    (observe (RanClose (st_name s)) (st_close s)).

(** The callbacks a message meets, in order. *)
Definition inbound_path (stages : list (stage Msg W)) : list stage_event :=
  map (fun s => RanInbound (st_name s)) (List.filter (fun s => negb (Z.land (direction s) INBOUND =? 0)) stages).
Definition outbound_path (stages : list (stage Msg W)) : list stage_event :=
  map (fun s => RanOutbound (st_name s)) (List.filter (fun s => negb (Z.land (direction s) OUTBOUND =? 0)) (rev stages)).
Definition close_path (stages : list (stage Msg W)) : list stage_event := map (fun s => RanClose (st_name s)) (rev stages).

Abbreviation state := (channel_context * (list stage_event * W))%type.
Definition log_of (t : state) : list stage_event := fst (snd t).

(** [path] was run up to some point, all of it if the message came out. *)
Definition ran (path : list stage_event) (t : state) (whole : Prop) (t' : state) : Prop :=
  exists k, log_of t' = log_of t ++ take k path /\ (whole -> take k path = path).

Lemma wp_observe {A} e (m : M (channel_context * W) A) Q E t :
  (forall r c w, log_of t ++ [e] = log_of (c, (log_of t ++ [e], w)) ->
     match r with Ok a => Q a (c, (log_of t ++ [e], w)) | Raise x => E x (c, (log_of t ++ [e], w)) end) ->
  wp (observe e m) Q E t.
Proof.
  intros H. destruct t as [c [l w]]. unfold wp, observe. destruct (m (c, w)) as [r [c' w']].
  specialize (H r c' w' eq_refl). by destruct r.
Qed.

Lemma ran_nil t (P : Prop) : ran [] t P t.
Proof. exists 0%nat. by rewrite app_nil_r. Qed.
Lemma ran_stop e path t (P : Prop) t' : log_of t' = log_of t ++ [e] -> (P -> False) -> ran (e :: path) t P t'.
Proof. intros El HP. exists 1%nat. by split. Qed.
Lemma ran_on e path t (P : Prop) t1 t' : log_of t1 = log_of t ++ [e] -> ran path t1 P t' -> ran (e :: path) t P t'.
Proof.
  intros E1 (k & Ek & Hk). exists (S k). cbn [take]. rewrite Ek, E1, <- app_assoc. split; [done|]. intros HP. by rewrite Hk.
Qed.

Lemma inbound_loop_spec stages : forall m t,
  wp (inbound_loop (map observed stages) m) (fun r t' => ran (inbound_path stages) t (is_Some r) t')
     (fun _ t' => ran (inbound_path stages) t False t') t.
Proof.
  unfold inbound_path. induction stages as [|s stages IH]; intros m t; cbn [inbound_loop map List.filter]; [apply wp_ret, ran_nil|].
  cbn [direction observed st_inbound]. destruct (negb _); [|apply IH]. cbn [map]. apply wp_bind, wp_observe. intros [[m'|]|e] c w _.
  - eapply wp_mono; [| |apply IH]; intros ? ? Hr; by eapply ran_on; [|exact Hr].
  - apply wp_ret. apply ran_stop; [done|]. by intros [? ?].
  - by apply ran_stop.
Qed.
Lemma outbound_loop_spec stages : forall m t,
  wp (outbound_loop (map observed stages) m)
     (fun r t' => ran (map (fun s => RanOutbound (st_name s)) (List.filter (fun s => negb (Z.land (direction s) OUTBOUND =? 0)) stages)) t (is_Some r) t')
     (fun _ t' => ran (map (fun s => RanOutbound (st_name s)) (List.filter (fun s => negb (Z.land (direction s) OUTBOUND =? 0)) stages)) t False t') t.
Proof.
  induction stages as [|s stages IH]; intros m t; cbn [outbound_loop map List.filter]; [apply wp_ret, ran_nil|].
  cbn [direction observed st_outbound]. destruct (negb _); [|apply IH]. cbn [map]. apply wp_bind, wp_observe. intros [[m'|]|e] c w _.
  - eapply wp_mono; [| |apply IH]; intros ? ? Hr; by eapply ran_on; [|exact Hr].
  - apply wp_ret. apply ran_stop; [done|]. by intros [? ?].
  - by apply ran_stop.
Qed.

(** A failure closes the context, with its cause. *)
Definition failed (message : str) (e : exn) (t' : state) : Prop :=
  e = PipelineError message /\ ctx_closed (fst t') = true /\ is_Some (ctx_error (fst t')).
Lemma guarded_spec {A} (m : M state A) message path t (whole : A -> Prop) :
  wp m (fun r t' => ran path t (whole r) t') (fun _ t' => ran path t False t') t ->
  wp (guarded m message) (fun r t' => ran path t (whole r) t') (fun e t' => ran path t False t' /\ failed message e t') t.
Proof.
  intros Hm. apply wp_try. eapply wp_mono; [| |exact Hm]; [done|]. intros e [c [l w]] Hr. apply wp_bind, wp_modify, wp_raise.
  split; [exact Hr|]. split; [done|]. split; [done|by eexists].
Qed.

Lemma close_hooks_spec stages : forall e t,
  wp (close_loop (map observed stages) e) (fun _ t' => log_of t' = log_of t ++ map (fun s => RanClose (st_name s)) stages)
     (fun _ _ => False) t.
Proof.
  induction stages as [|s stages IH]; intros e t; cbn [close_loop map]; [apply wp_ret; by rewrite app_nil_r|].
  apply wp_bind, wp_try, wp_bind. cbn [st_close observed]. apply wp_observe. intros [u|x] c w _.
  - apply wp_ret. eapply wp_mono; [| |apply IH]; [|done]. cbn. intros ? t' ->. by rewrite <- app_assoc.
  - apply wp_ret. eapply wp_mono; [| |apply IH]; [|done]. cbn. intros ? t' ->. by rewrite <- app_assoc.
Qed.
End channel.

(** ** Properties *)

(** Stages run in order, once, and failure is final.  On an open channel an inbound
    message meets the inbound stages in order and an outbound one the outbound stages in
    reverse, each once, up to the one that keeps it or fails; it comes out only past them
    all; a failing stage leaves the channel closed with its error recorded and surfaces as
    [PipelineError].  On a closed channel no stage runs again.  Closing an open channel
    always returns, having run every close hook exactly once, last stage first, whichever
    of them fail; closing a closed one runs nothing. *)
Theorem pipeline_order {Msg W} (stages : list (stage Msg W)) (message : Msg) (t : channel_context * (list stage_event * W)) :
  let ps := map observed stages in
  if ctx_closed (fst t) then
    inbound ps message t = (Raise (ChannelClosedError (py "inbound message on closed channel")), t) /\
    outbound ps message t = (Raise (ChannelClosedError (py "outbound message on closed channel")), t) /\
    close ps t = (Ok tt, t)
  else
    wp (inbound ps message) (fun r t' => ran (inbound_path stages) t (is_Some r) t')
       (fun e t' => ran (inbound_path stages) t False t' /\ failed (py "inbound stage failed") e t') t /\
    wp (outbound ps message) (fun r t' => ran (outbound_path stages) t (is_Some r) t')
       (fun e t' => ran (outbound_path stages) t False t' /\ failed (py "outbound stage failed") e t') t /\
    wp (close ps) (fun _ t' => log_of t' = log_of t ++ close_path stages) (fun _ _ => False) t.
Proof.
  cbv zeta. destruct (ctx_closed (fst t)) eqn:Ec.
  - unfold inbound, outbound, close, bind, get_ctx. by rewrite Ec.
  - split; [|split].
    + apply wp_bind. unfold wp at 1, get_ctx. rewrite Ec. apply guarded_spec, inbound_loop_spec.
    + apply wp_bind. unfold wp at 1, get_ctx. rewrite Ec. rewrite <- map_rev. apply guarded_spec, outbound_loop_spec.
    + apply wp_bind. unfold wp at 1, get_ctx. rewrite Ec. apply wp_bind, wp_modify, wp_bind. rewrite <- map_rev.
      eapply wp_mono; [| |apply close_hooks_spec]; [|done]. intros [e|] t' Hl; apply wp_bind, wp_modify; [apply wp_modify|apply wp_ret]; exact Hl.
Qed.

(** Two byte limits around a stage that fails on an empty message: what runs. *)
Definition sample_stage (name : str) : stage bytes unit :=
  ChannelStage name BOTH (fun m => if bool_decide (m = []) then raise (OtherError 1) else ret (Some m)) (fun m => ret (Some m)) (ret tt).
Example failed_pipeline_skips_close_hooks :
  let ps := map observed [sample_stage (py "a"); sample_stage (py "b")] in
  let open_ctx := ChannelContext 1 ∅ false None None in
  let t1 := snd (inbound ps (py "x") (open_ctx, ([], tt))) in
  let t2 := snd (inbound ps [] t1) in
  log_of t2 = [RanInbound (py "a"); RanInbound (py "b"); RanInbound (py "a")] /\
  log_of (snd (close ps t1)) = log_of t1 ++ [RanClose (py "b"); RanClose (py "a")] /\
  snd (close ps t2) = t2.
Proof. vm_compute. repeat split; reflexivity. Qed.
