(* ===== verification/Control.v ===== *)
(** * Process-wide signal ownership ([pcc_gateway/control.py])

    The owner wrapper over a control ABI, and the deterministic model of the ABI the
    repository tests with.  The ABI is the class [ControlAbi], whose methods return an
    integer or raise; the wrapper is proved against it and [HostModel] is its instance.
    The theorems are in [ControlSpec]. *)

From S2P Require Import Prelude PyStr.
#[local] Open Scope Z_scope.

Definition ABI_VERSION : Z := 1.
Definition ABI_NAME : str := py "pcc-native-gateway-control-v1".
Definition STOP : Z := 1.
Definition RELOAD : Z := 2.
Definition KNOWN_FLAGS : Z := Z.lor STOP RELOAD.
Definition ERROR_BUSY : Z := -1.
Definition ERROR_NOT_OWNER : Z := -2.
Definition ERROR_PLATFORM : Z := -3.
Definition ERROR_CONTRACT : Z := -4.
Definition SIGHUP : Z := 1.
Definition SIGINT : Z := 2.
Definition SIGPIPE : Z := 13.
Definition SIGTERM : Z := 15.

Inductive disposition := DISPOSITION_DEFAULT | DISPOSITION_DRAIN | DISPOSITION_RELOAD
  | DISPOSITION_IGNORE | DISPOSITION_OTHER (s : str).
#[global] Instance disposition_eq_dec : EqDecision disposition.
Proof. solve_decision. Defined.

(** ** [GatewayControlPoll] *)

Record control_poll := GatewayControlPoll {
  flags : Z;
  stop_requested : bool;
  reload_requested : bool;
}.
Definition make_poll (flags : Z) : result control_poll :=
  if (flags <? 0) || negb (Z.land flags (Z.lnot KNOWN_FLAGS) =? 0)
  then Raise (GatewayControlError (py "poll-contract") ERROR_CONTRACT)
  else Ok (GatewayControlPoll flags (negb (Z.land flags STOP =? 0)) (negb (Z.land flags RELOAD =? 0))).
Definition poll_empty (p : control_poll) : bool := flags p =? 0.

(** ** [GatewayProcessControl] *)

(** The ABI: its description, and methods over a world [W] (the process). *)
Class ControlAbi (W : Type) := {
  abi_version : Z;
  abi_name : str;
  abi_link_boundary : str;
  abi_install : M W Z;
  abi_poll : Z -> M W Z;
  abi_uninstall : Z -> M W Z;
}.

Record process_control := ProcessControl { owner : Z; installed : bool }.

Module GatewayProcessControl.
Section control.
Context {W : Type} `{ControlAbi W}.

(** The checks on the attributes that the class does not already give by typing. *)
Definition init : result process_control :=
  if negb (abi_version =? ABI_VERSION)
  then Raise (GatewayControlError (py "abi-version") ERROR_CONTRACT)
  else if negb (str_eqb abi_name ABI_NAME)
  then Raise (GatewayControlError (py "abi-name") ERROR_CONTRACT)
  else if bool_decide (abi_link_boundary = [])
  then Raise (GatewayControlError (py "abi-provenance") ERROR_CONTRACT)
  else Ok (ProcessControl 0 false).

Abbreviation P := (M (process_control * W)).
Definition self : P process_control := fun t => (Ok (fst t), t).
Definition set_self (c : process_control) : P unit := modify (fun t => (c, snd t)).
(** A call of the ABI; any exception it raises becomes a platform error. *)
Definition call_abi (operation : str) (m : M W Z) : P Z :=
  try_except (zoom snd (fun w t => (fst t, w)) m)
    (fun _ => raise (GatewayControlError operation ERROR_PLATFORM)).

Definition install : P unit :=
  let! c := self in
  if installed c || negb (owner c =? 0)
  then raise (GatewayControlError (py "install-state") ERROR_CONTRACT)
  else
    let! o := call_abi (py "install") abi_install in
    if o <=? 0 then raise (GatewayControlError (py "install") o)
    else set_self (ProcessControl o true).

Definition poll : P control_poll :=
  let! c := self in
  if negb (installed c) || (owner c <=? 0)
  then raise (GatewayControlError (py "poll-state") ERROR_NOT_OWNER)
  else
    let! fl := call_abi (py "poll") (abi_poll (owner c)) in
    if fl <? 0 then raise (GatewayControlError (py "poll") fl)
    else lift (make_poll fl).

Definition uninstall : P unit :=
  let! c := self in
  if negb (installed c) || (owner c <=? 0)
  then raise (GatewayControlError (py "uninstall-state") ERROR_NOT_OWNER)
  else
    let! status := call_abi (py "uninstall") (abi_uninstall (owner c)) in
    if negb (status =? 0) then raise (GatewayControlError (py "uninstall") status)
    else set_self (ProcessControl 0 false).

End control.
End GatewayProcessControl.

(** ** [GatewayControlHostModel] *)

Record host_model := HostModel {
  dispositions : gmap Z disposition;
  saved_dispositions : option (gmap Z disposition);
  hm_owner : Z;
  next_owner : Z;
  pending_flags : Z;
}.

Module HostModel.

Definition init (previous : gmap Z disposition) : host_model :=
  let at_default s := default DISPOSITION_DEFAULT (previous !! s) in
  HostModel (<[SIGHUP := at_default SIGHUP]> (<[SIGINT := at_default SIGINT]>
              (<[SIGPIPE := at_default SIGPIPE]> (<[SIGTERM := at_default SIGTERM]> ∅))))
            None 0 1 0.

Definition install : M host_model Z :=
  let! h := get in
  if negb (hm_owner h =? 0) then ret ERROR_BUSY
  else
    let o := next_owner h in
    put (HostModel (<[SIGPIPE := DISPOSITION_IGNORE]> (<[SIGHUP := DISPOSITION_RELOAD]>
                     (<[SIGINT := DISPOSITION_DRAIN]> (<[SIGTERM := DISPOSITION_DRAIN]>
                       (dispositions h)))))
           (Some (dispositions h)) o (next_owner h + 1) 0) ;;!
    ret o.

Definition poll (o : Z) : M host_model Z :=
  let! h := get in
  if (o <=? 0) || negb (o =? hm_owner h) then ret ERROR_NOT_OWNER
  else
    put (HostModel (dispositions h) (saved_dispositions h) (hm_owner h) (next_owner h) 0) ;;!
    ret (pending_flags h).

Definition uninstall (o : Z) : M host_model Z :=
  let! h := get in
  if (o <=? 0) || negb (o =? hm_owner h) then ret ERROR_NOT_OWNER
  else
    match saved_dispositions h with
    | None => ret ERROR_CONTRACT
    | Some saved => put (HostModel saved None 0 (next_owner h) 0) ;;! ret 0
    end.

Definition deliver (signal_number : Z) : M host_model bool :=
  let! h := get in
  let set_flag f :=
    put (HostModel (dispositions h) (saved_dispositions h) (hm_owner h) (next_owner h)
           (Z.lor (pending_flags h) f)) in
  if hm_owner h =? 0 then ret false
  else if (signal_number =? SIGTERM) || (signal_number =? SIGINT) then set_flag STOP ;;! ret true
  else if signal_number =? SIGHUP then set_flag RELOAD ;;! ret true
  else if signal_number =? SIGPIPE then ret true
  else ret false.

Definition disposition_of (h : host_model) (signal_number : Z) : disposition :=
  default DISPOSITION_DEFAULT (dispositions h !! signal_number).

End HostModel.

#[global] Instance host_model_abi : ControlAbi host_model := {|
  abi_version := ABI_VERSION;
  abi_name := ABI_NAME;
  abi_link_boundary := py "python-host-model:test-only;no-real-signal-install";
  abi_install := HostModel.install;
  abi_poll := HostModel.poll;
  abi_uninstall := HostModel.uninstall;
|}.
