(* ===== verification/ControlSpec.v ===== *)
(** * Properties of process-wide signal ownership

    Any number of controllers over one process behave as one ownership machine: one of them
    holds the signals at a time, each delivered signal is reported once, and the process
    gets its dispositions back. *)

From S2P Require Import Prelude PyStr Control.
#[local] Open Scope Z_scope.

(** ** Several controllers, one process *)

Inductive control_call := Install (i : nat) | Poll (i : nat) | Uninstall (i : nat) | Deliver (signal_number : Z).
Inductive control_out :=
| Done (r : result unit)
| Polled (r : result control_poll)
| Delivered (r : result bool)
| Nobody.

Definition process : Type := list process_control * host_model.

Definition by_controller {A} (i : nat) (m : M (process_control * host_model) A) (out : result A -> control_out)
    (t : process) : control_out * process :=
  match t.1 !! i with
  | None => (Nobody, t)
  | Some c => let '(r, (c', h')) := m (c, t.2) in (out r, (<[i := c']> (t.1), h'))
  end.
Definition control_run1 (call : control_call) (t : process) : control_out * process :=
  match call with
  | Install i => by_controller i GatewayProcessControl.install Done t
  | Poll i => by_controller i GatewayProcessControl.poll Polled t
  | Uninstall i => by_controller i GatewayProcessControl.uninstall Done t
  | Deliver n => let '(r, h') := HostModel.deliver n (t.2) in (Delivered r, (t.1, h'))
  end.
Fixpoint control_run (calls : list control_call) (t : process) : list control_out * process :=
  match calls with
  | [] => ([], t)
  | call :: calls' => let '(r, t') := control_run1 call t in let '(rs, t'') := control_run calls' t' in (r :: rs, t'')
  end.

(** ** The ownership machine *)

(** Who holds the signals, and what was delivered since the last poll. *)
Record ownership := Ownership { holder : option nat; stop : bool; reload : bool }.

Definition encode (stop reload : bool) : Z := Z.lor (if stop then STOP else 0) (if reload then RELOAD else 0).

Definition owns_call (n : nat) (call : control_call) (s : ownership) : control_out * ownership :=
  let refuse (o : control_out) := (o, s) in
  match call with
  | Install i =>
      if decide (i < n)%nat then
        match holder s with
        | None => (Done (Ok tt), Ownership (Some i) false false)
        | Some j => if decide (i = j) then refuse (Done (Raise (GatewayControlError (py "install-state") ERROR_CONTRACT)))
                    else refuse (Done (Raise (GatewayControlError (py "install") ERROR_BUSY)))
        end
      else refuse Nobody
  | Poll i =>
      if decide (i < n)%nat then
        if decide (holder s = Some i)
        then (Polled (Ok (GatewayControlPoll (encode (stop s) (reload s)) (stop s) (reload s))), Ownership (Some i) false false)
        else refuse (Polled (Raise (GatewayControlError (py "poll-state") ERROR_NOT_OWNER)))
      else refuse Nobody
  | Uninstall i =>
      if decide (i < n)%nat then
        if decide (holder s = Some i) then (Done (Ok tt), Ownership None false false)
        else refuse (Done (Raise (GatewayControlError (py "uninstall-state") ERROR_NOT_OWNER)))
      else refuse Nobody
  | Deliver sig =>
      match holder s with
      | None => (Delivered (Ok false), s)
      | Some i =>
          if decide (sig = SIGTERM \/ sig = SIGINT) then (Delivered (Ok true), Ownership (Some i) true (reload s))
          else if decide (sig = SIGHUP) then (Delivered (Ok true), Ownership (Some i) (stop s) true)
          else (Delivered (Ok (bool_decide (sig = SIGPIPE))), s)
      end
  end.
Fixpoint owns_run (n : nat) (calls : list control_call) (s : ownership) : list control_out * ownership :=
  match calls with
  | [] => ([], s)
  | call :: calls' => let '(r, s') := owns_call n call s in let '(rs, s'') := owns_run n calls' s' in (r :: rs, s'')
  end.

(** ** The correspondence *)

Definition idle : process_control := ProcessControl 0 false.
(** The dispositions of a process whose signals are held. *)
Definition gateway_dispositions (before : gmap Z disposition) : gmap Z disposition :=
  <[SIGPIPE := DISPOSITION_IGNORE]> (<[SIGHUP := DISPOSITION_RELOAD]>
    (<[SIGINT := DISPOSITION_DRAIN]> (<[SIGTERM := DISPOSITION_DRAIN]> before))).

Definition represents (n : nat) (before : gmap Z disposition) (t : process) (s : ownership) : Prop :=
  0 < next_owner (t.2) /\
  match holder s with
  | None => t.1 = replicate n idle /\ hm_owner (t.2) = 0 /\ dispositions (t.2) = before /\ saved_dispositions (t.2) = None
  | Some i => (i < n)%nat /\ exists o, 0 < o /\ hm_owner (t.2) = o /\ t.1 = <[i := ProcessControl o true]> (replicate n idle) /\
      dispositions (t.2) = gateway_dispositions before /\ saved_dispositions (t.2) = Some before /\
      pending_flags (t.2) = encode (stop s) (reload s)
  end.

Lemma encode_poll a b : make_poll (encode a b) = Ok (GatewayControlPoll (encode a b) a b).
Proof. by destruct a, b. Qed.
Lemma encode_nonneg a b : (encode a b <? 0) = false.
Proof. by destruct a, b. Qed.
Lemma encode_stop a b : Z.lor (encode a b) STOP = encode true b.
Proof. by destruct a, b. Qed.
Lemma encode_reload a b : Z.lor (encode a b) RELOAD = encode a true.
Proof. by destruct a, b. Qed.

(** The controller at [i], in a process where [j] holds with owner [o] or nobody does. *)
Lemma held_lookup n i j o : (i < n)%nat -> (j < n)%nat ->
  <[j := ProcessControl o true]> (replicate n idle) !! i = Some (if decide (i = j) then ProcessControl o true else idle).
Proof.
  intros Hi Hj. case_decide as E.
  - subst. apply list_lookup_insert_eq. by rewrite length_replicate.
  - rewrite list_lookup_insert_ne by done. by apply lookup_replicate_2.
Qed.
Lemma idle_lookup n i : replicate n idle !! i = if decide (i < n)%nat then Some idle else None.
Proof. case_decide; [by apply lookup_replicate_2|]. apply lookup_ge_None_2. rewrite length_replicate. lia. Qed.
Lemma held_none n i j o : ~ (i < n)%nat -> <[j := ProcessControl o true]> (replicate n idle) !! i = None.
Proof. intros Hi. apply lookup_ge_None_2. rewrite length_insert, length_replicate. lia. Qed.
Lemma held_id n i j o c : (i < n)%nat -> (j < n)%nat -> c = (if decide (i = j) then ProcessControl o true else idle) ->
  <[i := c]> (<[j := ProcessControl o true]> (replicate n idle)) = <[j := ProcessControl o true]> (replicate n idle).
Proof. intros Hi Hj ->. apply list_insert_id. by apply held_lookup. Qed.
Lemma idle_id n i : <[i := idle]> (replicate n idle) = replicate n idle.
Proof.
  destruct (decide (i < n)%nat); [apply list_insert_id; by apply lookup_replicate_2|].
  apply list_insert_ge. rewrite length_replicate. lia.
Qed.

(** ** What each controller's methods do *)

Lemma install_idle h : hm_owner h = 0 -> 0 < next_owner h ->
  GatewayProcessControl.install (idle, h) =
  (Ok tt, (ProcessControl (next_owner h) true,
           HostModel (gateway_dispositions (dispositions h)) (Some (dispositions h)) (next_owner h) (next_owner h + 1) 0)).
Proof.
  intros Ho Hn. unfold GatewayProcessControl.install, bind, GatewayProcessControl.self, GatewayProcessControl.call_abi, try_except, zoom.
  cbn. unfold HostModel.install, bind, get. rewrite Ho. cbn. by rewrite (proj2 (Z.leb_gt _ _)).
Qed.

Lemma install_busy h : hm_owner h <> 0 ->
  GatewayProcessControl.install (idle, h) = (Raise (GatewayControlError (py "install") ERROR_BUSY), (idle, h)).
Proof.
  intros Ho. unfold GatewayProcessControl.install, bind, GatewayProcessControl.self, GatewayProcessControl.call_abi, try_except, zoom.
  cbn. unfold HostModel.install, bind, get. by rewrite (proj2 (Z.eqb_neq _ _)).
Qed.

Lemma install_twice o h :
  GatewayProcessControl.install (ProcessControl o true, h) =
  (Raise (GatewayControlError (py "install-state") ERROR_CONTRACT), (ProcessControl o true, h)).
Proof. done. Qed.

Lemma poll_holder o h st rl : 0 < o -> hm_owner h = o -> pending_flags h = encode st rl ->
  GatewayProcessControl.poll (ProcessControl o true, h) =
  (Ok (GatewayControlPoll (encode st rl) st rl),
   (ProcessControl o true, HostModel (dispositions h) (saved_dispositions h) o (next_owner h) 0)).
Proof.
  intros Ho Hh Hf. unfold GatewayProcessControl.poll, bind, GatewayProcessControl.self, GatewayProcessControl.call_abi, try_except, zoom.
  cbn. unfold HostModel.poll, bind, get. rewrite !(proj2 (Z.leb_gt _ _)) by done. cbn.
  rewrite Hh, Z.eqb_refl. cbn. rewrite Hf, encode_nonneg. unfold lift. by rewrite encode_poll.
Qed.

Lemma poll_idle h :
  GatewayProcessControl.poll (idle, h) = (Raise (GatewayControlError (py "poll-state") ERROR_NOT_OWNER), (idle, h)).
Proof. done. Qed.

Lemma uninstall_holder o h before : 0 < o -> hm_owner h = o -> saved_dispositions h = Some before ->
  GatewayProcessControl.uninstall (ProcessControl o true, h) = (Ok tt, (idle, HostModel before None 0 (next_owner h) 0)).
Proof.
  intros Ho Hh Hs. unfold GatewayProcessControl.uninstall, bind, GatewayProcessControl.self, GatewayProcessControl.call_abi, try_except, zoom.
  cbn. unfold HostModel.uninstall, bind, get. rewrite !(proj2 (Z.leb_gt _ _)) by done. cbn. by rewrite Hh, Z.eqb_refl, Hs.
Qed.

Lemma uninstall_idle h :
  GatewayProcessControl.uninstall (idle, h) = (Raise (GatewayControlError (py "uninstall-state") ERROR_NOT_OWNER), (idle, h)).
Proof. done. Qed.

(** ** The refinement *)

Definition refines (n : nat) (before : gmap Z disposition) (call : control_call) (t : process) (s : ownership) : Prop :=
  fst (control_run1 call t) = fst (owns_call n call s) /\
  represents n before (snd (control_run1 call t)) (snd (owns_call n call s)).

(** A controller that is not the holder, or a number that is none, changes nothing. *)
Lemma held_same n before cs h i j o st rl (c : process_control) :
  (i < n)%nat -> (j < n)%nat -> cs = <[j := ProcessControl o true]> (replicate n idle) ->
  represents n before (cs, h) (Ownership (Some j) st rl) -> c = (if decide (i = j) then ProcessControl o true else idle) ->
  represents n before (<[i := c]> cs, h) (Ownership (Some j) st rl).
Proof. intros Hi Hj -> Hr ->. by rewrite held_id. Qed.

Ltac held_case :=
  cbn [control_run1 owns_call holder stop reload fst snd]; unfold by_controller; cbn [fst snd].

Lemma refines_held n before call cs h j st rl : represents n before (cs, h) (Ownership (Some j) st rl) ->
  refines n before call (cs, h) (Ownership (Some j) st rl).
Proof.
  intros Hr. pose proof Hr as (Hn & Hj & o & Ho & Hh & Hcs & Hd & Hsv & Hf). cbn [fst snd holder stop reload] in *. unfold refines.
  destruct call as [i|i|i|sig]; held_case.
  1,2,3: rewrite Hcs; destruct (decide (i < n)%nat) as [Hi|Hi]; [rewrite held_lookup by done|rewrite held_none by done; by rewrite <- Hcs].
  - destruct (decide (i = j)) as [->|Hne]; [rewrite install_twice|rewrite install_busy by lia]; (split; [done|]);
      rewrite <- Hcs; apply (held_same _ _ _ _ _ _ o); try done; by case_decide.
  - destruct (decide (i = j)) as [->|Hne].
    + rewrite (poll_holder o h st rl), decide_True by done. split; [done|]. cbn. split; [done|]. split; [done|].
      exists o. rewrite held_id by (done || by rewrite decide_True). done.
    + rewrite poll_idle, decide_False by congruence. split; [done|]. rewrite <- Hcs. apply (held_same _ _ _ _ _ _ o); try done. by case_decide.
  - destruct (decide (i = j)) as [->|Hne].
    + rewrite (uninstall_holder o h before), decide_True by done. split; [done|]. cbn. split; [done|].
      by rewrite list_insert_insert_eq, idle_id.
    + rewrite uninstall_idle, decide_False by congruence. split; [done|]. rewrite <- Hcs. apply (held_same _ _ _ _ _ _ o); try done. by case_decide.
  - unfold HostModel.deliver, bind, get. rewrite (proj2 (Z.eqb_neq _ _)) by lia. cbv zeta.
    destruct ((sig =? SIGTERM) || (sig =? SIGINT)) eqn:E1.
    { rewrite decide_True by (apply orb_true_iff in E1 as [?|?]; b2p; auto). cbn. split; [done|]. split; [done|]. split; [done|].
      exists o. rewrite Hf, encode_stop. done. }
    b2p. rewrite decide_False by tauto. destruct (sig =? SIGHUP) eqn:E2; b2p.
    { rewrite decide_True by done. cbn. split; [done|]. split; [done|]. split; [done|]. exists o. rewrite Hf, encode_reload. done. }
    rewrite decide_False by done. destruct (Z.eqb_spec sig SIGPIPE); [rewrite bool_decide_eq_true_2 by done|rewrite bool_decide_eq_false_2 by done]; done.
Qed.

Lemma refines_free n before call cs h st rl : represents n before (cs, h) (Ownership None st rl) ->
  refines n before call (cs, h) (Ownership None st rl).
Proof.
  intros Hr. pose proof Hr as (Hn & Hcs & Hh & Hd & Hsv). cbn [fst snd holder stop reload] in *. unfold refines.
  destruct call as [i|i|i|sig]; held_case.
  1,2,3: rewrite Hcs, idle_lookup; destruct (decide (i < n)%nat) as [Hi|Hi]; [|by rewrite <- Hcs].
  - rewrite install_idle by done. split; [done|]. unfold represents. cbn. split; [lia|]. split; [done|]. exists (next_owner h). rewrite Hd. done.
  - rewrite poll_idle. split; [done|]. by rewrite idle_id, <- Hcs.
  - rewrite uninstall_idle. split; [done|]. by rewrite idle_id, <- Hcs.
  - unfold HostModel.deliver, bind, get. by rewrite Hh.
Qed.

Lemma control_runs_refine n before calls : forall t s, represents n before t s ->
  fst (control_run calls t) = fst (owns_run n calls s) /\ represents n before (snd (control_run calls t)) (snd (owns_run n calls s)).
Proof.
  induction calls as [|call calls IH]; intros t s Hr; cbn [control_run owns_run]; [done|].
  assert (refines n before call t s) as [H1 H2] by (destruct t as [cs h], s as [[j|] st rl]; [by apply refines_held|by apply refines_free]).
  destruct (control_run1 call t) as [r t'], (owns_call n call s) as [r' s']. cbn [fst snd] in *. subst r'.
  destruct (IH t' s' H2) as [H3 H4]. destruct (control_run calls t') as [rs t''], (owns_run n calls s') as [rs' s'']. cbn [fst snd] in *.
  by subst.
Qed.

(** C38: process signals have one owner.  Over any sequence of installs, polls, uninstalls and
    delivered signals, [n] controllers of one process return what a machine with a single
    optional holder returns: a second install is refused as busy or as a state error, only
    the holder polls and uninstalls, each stop or reload signal since the last poll is
    reported exactly once.  While nobody holds them the process has the dispositions it
    started with, and the gateway's while somebody does. *)
Theorem signals_have_one_owner previous n calls :
  let h := HostModel.init previous in
  let '(rs, t) := control_run calls (replicate n idle, h) in
  let '(rs', s) := owns_run n calls (Ownership None false false) in
  rs = rs' /\
  dispositions (t.2) = match holder s with None => dispositions h | Some _ => gateway_dispositions (dispositions h) end /\
  forall i c, t.1 !! i = Some c -> installed c = bool_decide (holder s = Some i).
Proof.
  cbv zeta. set (h := HostModel.init previous).
  assert (represents n (dispositions h) (replicate n idle, h) (Ownership None false false)) as Hr by done.
  pose proof (control_runs_refine n (dispositions h) calls _ _ Hr) as [H1 H2].
  destruct (control_run calls _) as [rs t], (owns_run n calls _) as [rs' s]. cbn [fst snd] in *. split; [done|].
  destruct H2 as [_ H2]. destruct (holder s) as [j|].
  - destruct H2 as (Hj & o & _ & _ & -> & -> & _). split; [done|]. intros i c Hc.
    assert (i < n)%nat by (apply lookup_lt_Some in Hc; by rewrite length_insert, length_replicate in Hc).
    rewrite held_lookup in Hc by done. injection Hc as <-. case_decide; [by subst; rewrite bool_decide_eq_true_2|].
    rewrite bool_decide_eq_false_2 by congruence. done.
  - destruct H2 as (-> & _ & -> & _). split; [done|]. intros i c [-> _]%lookup_replicate_1. done.
Qed.

Example two_controllers :
  fst (control_run [Install 0; Install 1; Deliver SIGTERM; Poll 1; Poll 0; Poll 0; Uninstall 0; Install 1]
         (replicate 2 idle, HostModel.init ∅)) =
  [Done (Ok tt); Done (Raise (GatewayControlError (py "install") ERROR_BUSY)); Delivered (Ok true);
   Polled (Raise (GatewayControlError (py "poll-state") ERROR_NOT_OWNER));
   Polled (Ok (GatewayControlPoll 1 true false)); Polled (Ok (GatewayControlPoll 0 false false)); Done (Ok tt); Done (Ok tt)].
Proof. vm_compute. reflexivity. Qed.
