(* ===== verification/Structured.v ===== *)
(** * Structured concurrency scopes ([pcc_gateway/structured.py])

    Virtual threads are the runtime's: the class [VirtualThreads], over handles [T],
    values [V] and a world [W].  A call that may park returns when its barrier is
    reached.  The theorems are in [StructuredSpec]. *)

From S2P Require Import Prelude PyStr.
#[local] Open Scope Z_scope.

(** The runtime operations the scope uses; [join] raises what the thread raised. *)
Class VirtualThreads (T V W : Type) := {
  vt_cancel : T -> M W unit;
  vt_join : T -> M W unit;
  vt_result : T -> M W V;
  vt_outcome : T -> M W Z;
  vt_exception : T -> M W (option exn);
  vt_run : M W Z;
  vt_inside : W -> bool;
}.

Definition OUTCOME_PENDING : Z := 0.
Definition OUTCOME_RETURNED : Z := 1.

Record task_scope (T : Type) := TaskScope {
  sc_name : str;
  children : list T;
  joined : bool;
  sc_closed : bool;
  failure : option exn;
  close_reason : str;
}.
Arguments TaskScope {T}. Arguments sc_name {T}. Arguments children {T}. Arguments joined {T}.
Arguments sc_closed {T}. Arguments failure {T}. Arguments close_reason {T}.

Section scope.
Context {T V W : Type} `{VirtualThreads T V W}.

Definition new_scope (name : str) : task_scope T := TaskScope name [] false false None [].

Abbreviation SM := (M (task_scope T * W)).
Definition scope : SM (task_scope T) := fun t => (Ok (fst t), t).
Definition upd_scope (f : task_scope T -> task_scope T) : SM unit :=
  modify (fun t => (f (fst t), snd t)).
Definition runtime {A} (m : M W A) : SM A := zoom snd (fun w t => (fst t, w)) m.

Definition set_children (cs : list T) (s : task_scope T) : task_scope T :=
  TaskScope (sc_name s) cs (joined s) (sc_closed s) (failure s) (close_reason s).
Definition set_joined (s : task_scope T) : task_scope T :=
  TaskScope (sc_name s) (children s) true (sc_closed s) (failure s) (close_reason s).
Definition set_failure (e : exn) (s : task_scope T) : task_scope T :=
  TaskScope (sc_name s) (children s) (joined s) (sc_closed s) (Some e) (close_reason s).
Definition set_closed (reason : str) (s : task_scope T) : task_scope T :=
  TaskScope (sc_name s) (children s) (joined s) true (failure s) reason.

Definition retire_child (child : T) : SM unit :=
  runtime (vt_cancel child) ;;!
  try_except (runtime (vt_join child)) (fun _ => ret tt).
Fixpoint retire_all (cs : list T) : SM unit :=
  match cs with
  | [] => ret tt
  | c :: cs' => retire_child c ;;! retire_all cs'
  end.
(** [_retire(start)] *)
Definition retire (start : Z) : SM unit :=
  let! s := scope in retire_all (from (children s) start).

Definition reject_scope_fork (thread : T) : SM T :=
  retire_child thread ;;!
  let! s := scope in
  if sc_closed s then raise (TaskScopeError (py "scope " ++ sc_name s ++ py " is closed"))
  else if joined s then raise (TaskScopeError (py "scope " ++ sc_name s ++ py " already joined"))
  else upd_scope (set_children (children s ++ [thread])) ;;! ret thread.

Definition fork (thread : T) : SM T :=
  let! s := scope in
  if sc_closed s || joined s then reject_scope_fork thread
  else upd_scope (set_children (children s ++ [thread])) ;;! ret thread.

(** The [while index < len(self.children)] loop: the index and error of the
    first failure. *)
Fixpoint join_loop (cs : list T) (index : Z) : SM (option (Z * exn)) :=
  match cs with
  | [] => ret None
  | c :: cs' =>
      let! e := try_except (runtime (vt_join c) ;;! ret None) (fun e => ret (Some e)) in
      match e with
      | Some e => ret (Some (index, e))
      | None => join_loop cs' (index + 1)
      end
  end.

Definition join : SM unit :=
  let! s := scope in
  if joined s then
    match failure s with
    | Some e => raise e
    | None => ret tt
    end
  else
    upd_scope set_joined ;;!
    let! failed := join_loop (children s) 0 in
    match failed with
    | None => ret tt
    | Some (failed_at, e) =>
        upd_scope (set_failure e) ;;!
        retire (failed_at + 1) ;;!
        raise e
    end.

Definition result_ (thread : T) : SM V :=
  let! s := scope in
  if negb (joined s)
  then raise (TaskScopeError (py "scope " ++ sc_name s ++ py ": result read before join"))
  else runtime (vt_result thread).

Definition outcome_ (thread : T) : SM Z := runtime (vt_outcome thread).

Definition close_unjoined (reason : str) : SM unit :=
  let! s := scope in
  if sc_closed s then ret tt
  else
    upd_scope (set_closed reason) ;;!
    if negb (joined s) then upd_scope set_joined ;;! retire 0 else ret tt.

Definition close (reason : str) : SM unit :=
  let! s := scope in
  if sc_closed s then ret tt
  else if joined s then upd_scope (set_closed reason)
  else close_unjoined reason.

(** The loop of [run_until_complete]; [idle] is the platform's sleep, negative on
    failure.  The loop ends with the thread: [fuel] bounds the passes. *)
Fixpoint run_loop (fuel : nat) (idle : M W Z) (thread : T) : M W unit :=
  let! o := vt_outcome thread in
  if negb (o =? OUTCOME_PENDING) then ret tt
  else
    match fuel with
    | O => raise out_of_fuel
    | S fuel' =>
        let! steps := vt_run in
        if steps <? 0 then raise (TaskScopeError (py "virtual-thread scheduler failed"))
        else
          let! o := vt_outcome thread in
          (if (steps =? 0) && (o =? OUTCOME_PENDING) then
             let! slept := idle in
             if slept <? 0 then raise (TaskScopeError (py "outer scheduler wait failed")) else ret tt
           else ret tt) ;;!
          run_loop fuel' idle thread
    end.
Definition run_until_complete (fuel : nat) (idle : M W Z) (thread : T) : M W V :=
  let! w := get in
  if vt_inside w then raise (TaskScopeError (py "run_until_complete requires an outer driver"))
  else
    run_loop fuel idle thread ;;!
    let! failed := vt_exception thread in
    match failed with
    | Some e => raise e
    | None =>
        let! o := vt_outcome thread in
        if negb (o =? OUTCOME_RETURNED) then raise (TaskScopeError (py "root task was cancelled"))
        else vt_result thread
    end.

End scope.
