(* ===== verification/StructuredSpec.v ===== *)
(** * Properties of structured concurrency scopes

    No child outlives its scope, and the failure a join reports is the first in fork
    order.  The runtime is any one whose [join] is a barrier. *)

From S2P Require Import Prelude PyStr Structured.
#[local] Open Scope Z_scope.

(** What the scope relies on: a join ends, by returning or raising, only after the thread
    has; cancelling only asks and does not raise; and no operation revives a thread. *)
Class ThreadLaws (T V W : Type) `{VirtualThreads T V W} := {
  finished : T -> W -> Prop;
  join_finishes : forall c w, finished c (snd (vt_join c w));
  join_keeps : forall c d w, finished d w -> finished d (snd (vt_join c w));
  cancel_returns : forall c w, fst (vt_cancel c w) = Ok tt;
  cancel_keeps : forall c d w, finished d w -> finished d (snd (vt_cancel c w));
  result_keeps : forall c d w, finished d w -> finished d (snd (vt_result c w));
  outcome_keeps : forall c d w, finished d w -> finished d (snd (vt_outcome c w));
}.

Inductive scope_call (T : Type) :=
| Fork (thread : T)
| Join
| Close (reason : str)
| Result (thread : T)
| Outcome (thread : T).
Arguments Fork {T}. Arguments Join {T}. Arguments Close {T}. Arguments Result {T}. Arguments Outcome {T}.

Section scope.
Context {T V W : Type} `{ThreadLaws T V W}.
Implicit Types (s : task_scope T) (w : W).

Definition scope_run1 (call : scope_call T) : M (task_scope T * W) unit :=
  match call with
  | Fork thread => fork thread ;;! ret tt
  | Join => join
  | Close reason => close reason
  | Result thread => result_ thread ;;! ret tt
  | Outcome thread => outcome_ thread ;;! ret tt
  end.
Fixpoint scope_run (calls : list (scope_call T)) (t : task_scope T * W) : task_scope T * W :=
  match calls with
  | [] => t
  | call :: calls' => scope_run calls' (snd (scope_run1 call t))
  end.
Definition forked (calls : list (scope_call T)) : list T :=
  omap (fun call => match call with Fork t => Some t | _ => None end) calls.

(** From [w] to [w'] no thread was revived. *)
Definition keeps w w' : Prop := forall c, finished c w -> finished c w'.

Lemma keeps_trans w1 w2 w3 : keeps w1 w2 -> keeps w2 w3 -> keeps w1 w3.
Proof. unfold keeps. auto. Qed.
Lemma keeps_Forall w w' l : keeps w w' -> Forall (fun c => finished c w) l -> Forall (fun c => finished c w') l.
Proof. intros Hk. rewrite !Forall_forall. auto. Qed.

Lemma retire_child_spec c s w :
  exists w', retire_child c (s, w) = (Ok tt, (s, w')) /\ keeps w w' /\ finished c w'.
Proof.
  unfold retire_child, bind, runtime, zoom, try_except. cbn [fst snd].
  pose proof (cancel_returns c w) as Hr. pose proof (fun d => cancel_keeps c d w) as Hc. destruct (vt_cancel c w) as [r w1].
  cbn [fst snd] in *. subst r. pose proof (join_finishes c w1) as Hf. pose proof (fun d => join_keeps c d w1) as Hj.
  destruct (vt_join c w1) as [[[]|e] w2]; cbn [fst snd] in *; exists w2; (split; [done|]); split; auto; intros d Hd; auto.
Qed.

Lemma retire_all_spec cs s : forall w,
  exists w', retire_all cs (s, w) = (Ok tt, (s, w')) /\ keeps w w' /\ Forall (fun c => finished c w') cs.
Proof.
  induction cs as [|c cs IH]; intros w; [exists w; split; [done|]; split; [by intros c|constructor]|].
  cbn [retire_all]. destruct (retire_child_spec c s w) as (w1 & E & Hk & Hf). run E.
  destruct (IH w1) as (w2 & -> & Hk2 & Hf2). exists w2. split; [done|]. split; [by eapply keeps_trans|]. constructor; auto.
Qed.

(** The outcome of a join, and what was joined for it. *)
Definition join_post cs (index : Z) w (r : option (Z * exn)) w' : Prop :=
  keeps w w' /\
  match r with
  | None => Forall (fun c => finished c w') cs
  | Some (i, e) => exists done_ c rest, cs = done_ ++ c :: rest /\ i = index + len done_ /\
      Forall (fun c => finished c w') (done_ ++ [c])
  end.

Lemma join_loop_spec cs s : forall index w,
  exists r w', join_loop cs index (s, w) = (Ok r, (s, w')) /\ join_post cs index w r w'.
Proof.
  induction cs as [|c cs IH]; intros index w; [exists None, w; split; [done|]; split; [by intros c|constructor]|].
  cbn [join_loop]. unfold bind at 1, try_except, bind at 1, runtime, zoom. cbn [fst snd].
  pose proof (join_finishes c w) as Hf. pose proof (fun d => join_keeps c d w) as Hj.
  destruct (vt_join c w) as [[[]|e] w1]; cbn [fst snd ret] in *; unfold ret.
  - destruct (IH (index + 1) w1) as (r & w2 & -> & Hk & Hr). exists r, w2. split; [done|]. split; [by eapply keeps_trans|].
    destruct r as [[i e]|]; [|by constructor; [apply Hk|]].
    destruct Hr as (done_ & c' & rest & -> & -> & Hd). exists (c :: done_), c', rest. split; [done|]. split; [lens; lia|].
    cbn [app]. by constructor; [apply Hk|].
  - exists (Some (index, e)), w1. split; [done|]. split; [done|]. exists [], c, cs. split; [done|]. split; [lens; lia|]. by constructor.
Qed.

(** Either the scope still forks, and its children are all that were given to it, or every
    thread it was given has finished. *)
Definition scope_inv (given : list T) s w : Prop :=
  (sc_closed s = true -> joined s = true) /\
  (joined s = false -> children s = given) /\ (joined s = true -> Forall (fun c => finished c w) given).

Lemma scope_inv_keeps given s w w' : keeps w w' -> scope_inv given s w -> scope_inv given s w'.
Proof. intros Hk (H1 & H2 & H3). split; [done|]. split; [done|]. intros Hj. by eapply keeps_Forall, H3. Qed.

Definition inv_after (given : list T) (t : task_scope T * W) : Prop := scope_inv given (fst t) (snd t).

Lemma fork_inv given thread s w : scope_inv given s w -> inv_after (given ++ [thread]) (snd (scope_run1 (Fork thread) (s, w))).
Proof.
  intros (Hc & Ho & Hd). cbn [scope_run1]. unfold bind at 1, fork, bind at 1, scope. cbn [fst snd].
  destruct (joined s) eqn:Ej; [|destruct (sc_closed s) eqn:Ec; [by specialize (Hc eq_refl)|]]; cbn [orb].
  - rewrite orb_true_r. unfold reject_scope_fork. destruct (retire_child_spec thread s w) as (w' & E & Hk & Hf).
    assert (scope_inv (given ++ [thread]) s w') as Hfin.
    { split; [by rewrite Ej|]. split; [by rewrite Ej|]. intros _. apply Forall_app.
      split; [by eapply keeps_Forall, Hd|by constructor]. }
    rewrite (bind_ok _ _ _ _ _ E). unfold bind, scope. cbn [fst snd]. rewrite Ej. by destruct (sc_closed s).
  - cbn. split; [by cbn; rewrite Ec|]. cbn. rewrite Ej. split; [|done]. intros _. by rewrite Ho.
Qed.

Lemma join_inv given s w : scope_inv given s w -> inv_after given (snd (join (s, w))).
Proof.
  intros Hi. pose proof Hi as (Hc & Ho & Hd). unfold join, bind at 1, scope. cbn [fst snd].
  destruct (joined s) eqn:Ej; [by destruct (failure s)|]. specialize (Ho eq_refl).
  unfold bind at 1, upd_scope, modify. cbn [fst snd]. set (s1 := set_joined s).
  destruct (join_loop_spec (children s) s1 0 w) as (r & w1 & E & Hk & Hr). run E.
  destruct r as [[i e]|].
  - destruct Hr as (done_ & c & rest & Hcs & -> & Hdone). unfold bind at 1, upd_scope, modify. cbn [fst snd].
    unfold retire, bind at 1 2, scope. cbn [fst snd children set_failure set_joined s1]. rewrite Hcs.
    replace (from _ (0 + len done_ + 1)) with rest.
    2:{ unfold from, len. replace (Z.to_nat _) with (length done_ + 1)%nat by lia. by rewrite <- drop_drop, drop_app_length. }
    destruct (retire_all_spec rest (set_failure e s1) w1) as (w2 & -> & Hk2 & Hf2). cbn.
    split; [done|]. split; [done|]. intros _. rewrite <- Ho, Hcs.
    apply (Forall_app _ done_ (c :: rest)). apply Forall_app in Hdone as [Hdn Hc'%Forall_inv].
    split; [exact (keeps_Forall w1 w2 _ Hk2 Hdn)|]. constructor; [exact (Hk2 c Hc')|exact Hf2].
  - cbn. split; [done|]. split; [done|]. intros _. by rewrite <- Ho.
Qed.

Lemma close_inv given reason s w : scope_inv given s w -> inv_after given (snd (close reason (s, w))).
Proof.
  intros Hi. pose proof Hi as (Hc & Ho & Hd). unfold close, bind at 1, scope. cbn [fst snd].
  destruct (sc_closed s) eqn:Ec; [done|]. destruct (joined s) eqn:Ej.
  - cbn. split; [done|]. split; [by cbn; rewrite Ej|]. intros _. by apply Hd.
  - unfold close_unjoined, bind at 1, scope. cbn [fst snd]. rewrite Ec. unfold bind at 1, upd_scope, modify. cbn [fst snd].
    rewrite Ej. cbn [negb]. unfold bind at 1. cbn [fst snd]. unfold retire, bind at 1, scope. cbn [fst snd children set_joined set_closed].
    rewrite from_0. destruct (retire_all_spec (children s) (set_joined (set_closed reason s)) w) as (w1 & -> & Hk & Hf).
    split; [done|]. split; [done|]. intros _. by rewrite <- (Ho eq_refl).
Qed.

Lemma scope_step given call s w : scope_inv given s w ->
  inv_after (given ++ forked [call]) (snd (scope_run1 call (s, w))).
Proof.
  intros Hi. destruct call as [thread| |reason|thread|thread]; cbn [forked omap list_omap]; rewrite ?app_nil_r.
  - by apply fork_inv.
  - by apply join_inv.
  - by apply close_inv.
  - cbn [scope_run1]. unfold result_, bind, scope. cbn [fst snd]. destruct (joined s); [|done]. cbn [negb]. unfold runtime, zoom. cbn [fst snd].
    pose proof (fun d => result_keeps thread d w) as Hk. destruct (vt_result thread w) as [[v|e] w1]; by apply (scope_inv_keeps _ _ w).
  - cbn [scope_run1]. unfold outcome_, bind, runtime, zoom. cbn [fst snd].
    pose proof (fun d => outcome_keeps thread d w) as Hk. destruct (vt_outcome thread w) as [[v|e] w1]; by apply (scope_inv_keeps _ _ w).
Qed.

Lemma scope_runs calls : forall given s w, scope_inv given s w -> inv_after (given ++ forked calls) (scope_run calls (s, w)).
Proof.
  induction calls as [|call calls IH]; intros given s w Hi; cbn [scope_run]; [by cbn; rewrite app_nil_r|].
  pose proof (scope_step given call s w Hi) as Hs. destruct (snd (scope_run1 call (s, w))) as [s1 w1].
  apply IH in Hs. rewrite <- app_assoc in Hs.
  replace (forked (call :: calls)) with (forked [call] ++ forked calls); [done|]. by destruct call.
Qed.

(** C37: a scope's exit is a barrier.  Whatever a parent does with a new scope — forks,
    joins, closes, reads, in any order and whatever fails — once the scope has been joined or
    closed, every thread ever handed to it has finished: the children it owned, those whose
    siblings failed, and the ones it refused. *)
Theorem scope_is_barrier name calls w :
  let '(s, w') := scope_run calls (new_scope name, w) in
  joined s = true \/ sc_closed s = true -> Forall (fun c => finished c w') (forked calls).
Proof.
  assert (scope_inv [] (new_scope (T:=T) name) w) as Hi by (split; [done|]; by split).
  pose proof (scope_runs calls [] _ w Hi) as Hs. destruct (scope_run calls _) as [s w']. destruct Hs as (Hc & _ & Hd).
  cbn [fst snd] in *. intros [Hj|Hcl]; apply Hd; auto.
Qed.

(** ** Failure order *)

(** Joining the threads one after the other: the first failure. *)
Fixpoint first_failure (cs : list T) (w : W) : option exn :=
  match cs with
  | [] => None
  | c :: cs' =>
      match vt_join c w with
      | (Ok _, w') => first_failure cs' w'
      | (Raise e, _) => Some e
      end
  end.

Lemma join_loop_failure cs s : forall index w,
  exists r w', join_loop cs index (s, w) = (Ok r, (s, w')) /\ option_map snd r = first_failure cs w.
Proof.
  induction cs as [|c cs IH]; intros index w; [by exists None, w|].
  cbn [join_loop first_failure]. unfold bind at 1, try_except, bind at 1, runtime, zoom. cbn [fst snd].
  destruct (vt_join c w) as [[[]|e] w1]; cbn [fst snd ret]; unfold ret; [apply (IH (index + 1) w1)|by exists (Some (index, e)), w1].
Qed.

Definition reported (failure : option exn) : result unit :=
  match failure with Some e => Raise e | None => Ok tt end.

Lemma join_joined s w : joined s = true -> join (s, w) = (reported (failure s), (s, w)).
Proof. intros Hj. unfold join, bind, scope. cbn [fst snd]. rewrite Hj. by destruct (failure s). Qed.

Lemma join_run s w : joined s = false -> failure s = None ->
  exists s' w', join (s, w) = (reported (first_failure (children s) w), (s', w')) /\ joined s' = true /\
    failure s' = first_failure (children s) w.
Proof.
  intros Hj Hf. unfold join, bind at 1, scope. cbn [fst snd]. rewrite Hj. unfold bind at 1, upd_scope at 1, modify at 1. cbn [fst snd].
  destruct (join_loop_failure (children s) (set_joined s) 0 w) as (r & w1 & E & Hr). run E. rewrite <- Hr. destruct r as [[i e]|].
  - unfold bind at 1, upd_scope at 1, modify at 1. cbn [fst snd]. unfold bind at 1, retire, bind at 1, scope. cbn [fst snd].
    destruct (retire_all_spec (from (children (set_failure e (set_joined s))) (i + 1)) (set_failure e (set_joined s)) w1) as (w2 & -> & _).
    by exists (set_failure e (set_joined s)), w2.
  - exists (set_joined s), w1. done.
Qed.

(** a join reports the first failure in fork order.  Joining a scope raises exactly what
    joining its children one by one in fork order would first raise, whatever order they
    ended in; and every later join reports the same without touching the runtime. *)
Theorem join_reports_first_failure s w :
  joined s = false -> failure s = None ->
  fst (join (s, w)) = reported (first_failure (children s) w) /\
  join (snd (join (s, w))) = join (s, w).
Proof.
  intros Hj Hf. destruct (join_run s w Hj Hf) as (s' & w' & -> & Hj' & Hf'). split; [done|]. cbn [snd]. by rewrite join_joined, Hf'.
Qed.
End scope.

(** ** A runtime *)

(** Threads by number: does it fail, has it ended.  Cancelling a live thread makes it fail. *)
Abbreviation threads := (list (bool * bool)).
Definition cancel_thread (c : nat) (w : threads) : result unit * threads :=
  match w !! c with
  | Some (_, false) => (Ok tt, <[c := (true, false)]> w)
  | _ => (Ok tt, w)
  end.
Definition join_thread (c : nat) (w : threads) : result unit * threads :=
  match w !! c with
  | Some (fails, _) => (if fails : bool then Raise (OtherError (Z.of_nat c)) else Ok tt, <[c := (fails, true)]> w)
  | None => (Ok tt, w)
  end.
#[local] Instance sample_threads : VirtualThreads nat Z threads := {|
  vt_cancel := cancel_thread;
  vt_join := join_thread;
  vt_result := fun c w => (Ok (Z.of_nat c), w);
  vt_outcome := fun c w => (Ok OUTCOME_RETURNED, w);
  vt_exception := fun c w => (Ok None, w);
  vt_run := fun w => (Ok 0, w);
  vt_inside := fun w => true;
|}.

#[local] Instance sample_laws : ThreadLaws nat Z threads.
Proof.
  refine (@Build_ThreadLaws nat Z threads sample_threads (fun (c : nat) (w : threads) => forall f : bool, w !! c <> Some (f, false)) _ _ _ _ _ _).
  - intros c w f. cbn. unfold join_thread, cancel_thread. destruct (w !! c) as [[b e]|] eqn:E; cbn; [|congruence].
    rewrite list_lookup_insert_eq by (by eapply lookup_lt_Some). congruence.
  - intros c d w Hd f. cbn. unfold join_thread, cancel_thread. destruct (w !! c) as [[b e]|] eqn:E; cbn; [|apply Hd]. destruct (decide (c = d)) as [->|].
    + rewrite list_lookup_insert_eq by (by eapply lookup_lt_Some). congruence.
    + by rewrite list_lookup_insert_ne.
  - intros c w. cbn. unfold join_thread, cancel_thread. by destruct (w !! c) as [[b []]|].
  - intros c d w Hd f. cbn. unfold join_thread, cancel_thread. destruct (w !! c) as [[b []]|] eqn:E; cbn; [apply Hd| |apply Hd]. destruct (decide (c = d)) as [->|].
    + by apply Hd in E.
    + by rewrite list_lookup_insert_ne.
  - done.
  - done.
Defined.

(** Three children, the second of which fails and the third of which never ends by itself;
    a fourth is forked too late. *)
Definition sample_world : threads := [(false, false); (true, false); (false, false); (false, false)].
Definition sample_scope_calls : list (scope_call nat) :=
  [Fork 0%nat; Fork 1%nat; Fork 2%nat; Join; Fork 3%nat; Close (py "done")].

Lemma scope_is_barrier_witness :
  let '(s, w') := scope_run sample_scope_calls (new_scope (py "dashboard"), sample_world) in
  (joined s = true \/ sc_closed s = true) /\ Forall (fun c => finished c w') [0; 1; 2; 3]%nat.
Proof.
  pose proof (scope_is_barrier (py "dashboard") sample_scope_calls sample_world) as H.
  assert (joined (fst (scope_run sample_scope_calls (new_scope (py "dashboard"), sample_world))) = true) as Hj by (vm_compute; reflexivity).
  destruct (scope_run sample_scope_calls (new_scope (py "dashboard"), sample_world)) as [s w'].
  cbn [fst] in Hj. split; [left; exact Hj|]. apply H. left. exact Hj.
Defined.

Lemma join_reports_first_failure_witness :
  let s := TaskScope (py "dashboard") [0; 1; 2]%nat false false None [] in
  fst (join (s, sample_world)) = Raise (OtherError 1) /\ join (snd (join (s, sample_world))) = join (s, sample_world).
Proof.
  exact (join_reports_first_failure (TaskScope (py "dashboard") [0; 1; 2]%nat false false None []) sample_world eq_refl eq_refl).
Defined.
