(* ===== verification/Proxy.v ===== *)
(** * Reverse-proxy policy ([pcc_gateway/proxy.py])

    Header sanitation, upstream endpoints, groups and leases, timeouts and retry
    decisions.  Endpoints may be shared by several groups and leases by their
    holders, so all three live in one store and refer to each other by index.  The
    theorems are in [ProxySpec]. *)

From S2P Require Import Prelude PyStr Http1 DnsWire DnsPolicy.
#[local] Open Scope Z_scope.

(** ** Headers *)

Definition HOP_BY_HOP : list str :=
  [py "connection"; py "keep-alive"; py "proxy-authenticate"; py "proxy-authorization";
   py "te"; py "trailer"; py "transfer-encoding"; py "upgrade"].

(** The tokens of one [Connection] value, added to those named so far. *)
Definition add_tokens (named : list str) (value : str) : list str :=
  fold_left (fun named token => if str_in token named then named else named ++ [token])
    (split_commas value) named.
Fixpoint connection_named_go (named : list str) (hs : list (str * str)) : list str :=
  match hs with
  | [] => named
  | (name, value) :: hs' =>
      connection_named_go
        (if str_eqb (lower name) (py "connection") then add_tokens named value else named) hs'
  end.
Definition connection_named_fields (hs : list (str * str)) : list str := connection_named_go [] hs.

Definition sanitize_hop_by_hop (hs : list (str * str)) : list (str * str) :=
  let connection_fields := connection_named_fields hs in
  let keep (h : str * str) :=
    negb (str_in (lower (fst h)) HOP_BY_HOP || str_in (lower (fst h)) connection_fields) in
  map (fun h => (lower (fst h), snd h)) (List.filter keep hs).

Definition X_FOR : str := py "x-forwarded-for".
Definition X_PROTO : str := py "x-forwarded-proto".
Definition X_HOST : str := py "x-forwarded-host".

(** The loop over the sanitized headers: those kept, and the last trusted chain. *)
Fixpoint forwarded_loop (trust_incoming : bool) (kept : list (str * str)) (incoming_for : str)
    (hs : list (str * str)) : list (str * str) * str :=
  match hs with
  | [] => (kept, incoming_for)
  | (name, value) :: hs' =>
      if str_in name [X_FOR; X_PROTO; X_HOST] then
        let incoming_for :=
          if trust_incoming && str_eqb name X_FOR then value else incoming_for in
        if negb trust_incoming then forwarded_loop trust_incoming kept incoming_for hs'
        else if negb (str_eqb name X_FOR) then forwarded_loop trust_incoming kept incoming_for hs'
        else forwarded_loop trust_incoming (kept ++ [(name, value)]) incoming_for hs'
      else forwarded_loop trust_incoming (kept ++ [(name, value)]) incoming_for hs'
  end.
Definition forwarded_request_headers (hs : list (str * str)) (client_ip scheme original_host : str)
    (trust_incoming : bool) : list (str * str) :=
  let '(kept, incoming_for) := forwarded_loop trust_incoming [] [] (sanitize_hop_by_hop hs) in
  let chain := if bool_decide (incoming_for = []) then client_ip
               else incoming_for ++ py ", " ++ client_ip in
  kept ++ [(X_FOR, chain); (X_PROTO, scheme); (X_HOST, original_host)].

(** ** Endpoints, groups, leases *)

Record endpoint := UpstreamEndpoint {
  ep_host : str;
  ep_port : Z;
  weight : Z;
  ep_active : Z;
  failures : Z;
  address_cursor : Z;
  last_address_set : list str;
  ep_dns_policy : dns_policy;
}.

Definition ep_set_admission (active failures : Z) (e : endpoint) : endpoint :=
  UpstreamEndpoint (ep_host e) (ep_port e) (weight e) active failures (address_cursor e)
    (last_address_set e) (ep_dns_policy e).
Definition ep_set_rotation (cursor : Z) (last : list str) (e : endpoint) : endpoint :=
  UpstreamEndpoint (ep_host e) (ep_port e) (weight e) (ep_active e) (failures e) cursor last
    (ep_dns_policy e).
Definition ep_set_policy (p : dns_policy) (e : endpoint) : endpoint :=
  UpstreamEndpoint (ep_host e) (ep_port e) (weight e) (ep_active e) (failures e) (address_cursor e)
    (last_address_set e) p.

Module UpstreamEndpoint.

Definition init (host : str) (port weight : Z) (policy : option dns_policy) : result endpoint :=
  if bool_decide (host = []) || (port <=? 0) || (port >? 65535) || (weight <=? 0)
  then Raise (ValueError (py "invalid upstream endpoint"))
  else Ok (UpstreamEndpoint host port weight 0 0 0 []
             (default DnsAddressPolicy.default_policy policy)).

Definition on_policy {A} (m : M dns_policy A) : M endpoint A := zoom ep_dns_policy ep_set_policy m.

Definition accept_resolved (values : list str) (qtype : Z) : M endpoint (list str) :=
  let! e := get in on_policy (DnsAddressPolicy.accept (ep_host e) values qtype).

(** A changed address set restarts the rotation. *)
Definition track_set (address_set : list str) : M endpoint unit :=
  modify (fun e => if bool_decide (address_set = last_address_set e) then e
                   else ep_set_rotation 0 address_set e).

Definition choose_address (values : list str) : M endpoint str :=
  match values with
  | [] => raise (ValueError (py "upstream endpoint has no resolved address"))
  | _ =>
      let address_set := sorted_strs values in
      track_set address_set ;;!
      let! e := get in
      match at_ address_set (address_cursor e mod len address_set) with
      | None => raise IndexError
      | Some address =>
          modify (fun e => ep_set_rotation ((address_cursor e + 1) mod len values)
                             (last_address_set e) e) ;;!
          ret address
      end
  end.

(** [while index < len(address_set): output.append(address_set[(cursor + index) % n])] *)
Fixpoint rotate_from (n : nat) (address_set : list str) (position : Z) : result (list str) :=
  match n with
  | O => Ok []
  | S n' =>
      match at_ address_set (position mod len address_set) with
      | None => Raise IndexError
      | Some a => let? rest := rotate_from n' address_set (position + 1) in Ok (a :: rest)
      end
  end.
Definition ordered_addresses (values : list str) : M endpoint (list str) :=
  match values with
  | [] => ret []
  | _ =>
      let address_set := sorted_strs values in
      track_set address_set ;;!
      let! e := get in
      let! output := lift (rotate_from (length address_set) address_set (address_cursor e)) in
      modify (fun e => ep_set_rotation ((address_cursor e + 1) mod len address_set)
                         (last_address_set e) e) ;;!
      ret output
  end.

Definition accept_and_order_addresses (values : list str) (qtype : Z) : M endpoint (list str) :=
  let! accepted := accept_resolved values qtype in
  ordered_addresses accepted.

Definition try_acquire (group_active : Z) : M endpoint bool :=
  let! e := get in
  if ep_active e >? group_active + weight e then ret false
  else modify (fun e => ep_set_admission (ep_active e + 1) (failures e) e) ;;! ret true.

Definition release (failed : bool) : M endpoint unit :=
  let! e := get in
  if ep_active e <=? 0 then raise (RuntimeError (py "upstream endpoint admission underflow"))
  else
    modify (fun e => ep_set_admission (ep_active e - 1)
                       (if failed then failures e + 1 else failures e) e).

End UpstreamEndpoint.

Record lease := UpstreamLease { ls_group : nat; ls_endpoint : nat; ls_released : bool }.
Record group := UpstreamGroup {
  gr_name : str;
  gr_endpoints : list nat;
  max_active : Z;
  max_idle : Z;
  gr_active : Z;
  cursor : Z;
}.
Record upstreams := Upstreams {
  endpoints : list endpoint;
  groups : list group;
  leases : list lease;
}.

Definition gr_set (active cursor : Z) (g : group) : group :=
  UpstreamGroup (gr_name g) (gr_endpoints g) (max_active g) (max_idle g) active cursor.
Definition gone : exn := TypeError (py "dangling reference").

Module UpstreamGroup.

Definition init (name : str) (endpoints : list nat) (max_active max_idle : Z) : result group :=
  if bool_decide (name = []) || bool_decide (endpoints = [])
  then Raise (ValueError (py "upstream group requires a name and endpoint"))
  else if (max_active <=? 0) || (max_idle <? 0)
  then Raise (ValueError (py "invalid upstream pool limits"))
  else Ok (UpstreamGroup name endpoints max_active max_idle 0 0).

Abbreviation U := (M upstreams).
Definition get_group (g : nat) : U group := fun u =>
  match groups u !! g with Some x => (Ok x, u) | None => (Raise gone, u) end.
Definition set_group (g : nat) (x : group) : U unit :=
  modify (fun u => Upstreams (endpoints u) (<[g := x]> (groups u)) (leases u)).
Definition on_endpoint {A} (e : nat) (m : M endpoint A) : U A := fun u =>
  match endpoints u !! e with
  | None => (Raise gone, u)
  | Some x => let '(r, x') := m x in (r, Upstreams (<[e := x']> (endpoints u)) (groups u) (leases u))
  end.

(** The [while attempts < count] loop; [attempts] counts those left. *)
Fixpoint acquire_loop (attempts : nat) (g : nat) : U (option nat) :=
  match attempts with
  | O => ret None
  | S attempts' =>
      let! x := get_group g in
      match at_ (gr_endpoints x) (cursor x) with
      | None => raise IndexError
      | Some e =>
          set_group g (gr_set (gr_active x) ((cursor x + 1) mod len (gr_endpoints x)) x) ;;!
          let! taken := on_endpoint e (UpstreamEndpoint.try_acquire (gr_active x)) in
          if taken then
            let! x := get_group g in
            set_group g (gr_set (gr_active x + 1) (cursor x) x) ;;!
            ret (Some e)
          else acquire_loop attempts' g
      end
  end.
(** The new lease, by its index in the store. *)
Definition acquire (g : nat) : U (option nat) :=
  let! x := get_group g in
  if gr_active x >=? max_active x then ret None
  else
    let! taken := acquire_loop (length (gr_endpoints x)) g in
    match taken with
    | None => ret None
    | Some e => fun u =>
        (Ok (Some (length (leases u))),
         Upstreams (endpoints u) (groups u) (leases u ++ [UpstreamLease g e false]))
    end.

Definition get_lease (l : nat) : U lease := fun u =>
  match leases u !! l with Some x => (Ok x, u) | None => (Raise gone, u) end.
Definition mark_released (l : nat) (x : lease) : U unit :=
  modify (fun u => Upstreams (endpoints u) (groups u)
                     (<[l := UpstreamLease (ls_group x) (ls_endpoint x) true]> (leases u))).

Definition release_lease (g l : nat) (failed : bool) : U unit :=
  let! x := get_lease l in
  if negb (bool_decide (ls_group x = g)) || ls_released x
  then raise (RuntimeError (py "upstream lease released more than once"))
  else
    mark_released l x ;;!
    on_endpoint (ls_endpoint x) (UpstreamEndpoint.release failed) ;;!
    let! y := get_group g in
    set_group g (gr_set (gr_active y - 1) (cursor y) y).

(** [UpstreamLease.release] *)
Definition lease_release (l : nat) (failed : bool) : U unit :=
  let! x := get_lease l in release_lease (ls_group x) l failed.

Definition saturated (g : nat) : U bool :=
  let! x := get_group g in ret (gr_active x >=? max_active x).

Definition accept_and_order_addresses (g e : nat) (values : list str) (qtype : Z) : U (list str) :=
  let! x := get_group g in
  if negb (bool_decide (e ∈ gr_endpoints x))
  then raise (RuntimeError (py "upstream endpoint does not belong to group"))
  else on_endpoint e (UpstreamEndpoint.accept_and_order_addresses values qtype).

End UpstreamGroup.

(** ** Timeouts and retry *)

Record proxy_timeouts := ProxyTimeouts {
  connect_ms : Z;
  header_ms : Z;
  body_ms : Z;
  idle_ms : Z;
}.
Definition make_timeouts (connect_ms header_ms body_ms idle_ms : Z) : result proxy_timeouts :=
  if existsb (fun value => value <=? 0) [connect_ms; header_ms; body_ms; idle_ms]
  then Raise (ValueError (py "proxy timeouts must be positive"))
  else Ok (ProxyTimeouts connect_ms header_ms body_ms idle_ms).

Record retry_policy := RetryPolicy { attempts : Z; methods : list str }.
Module RetryPolicy.
Definition init (attempts : Z) (methods : list str) : result retry_policy :=
  if attempts <? 1 then Raise (ValueError (py "proxy attempts must be at least one"))
  else Ok (RetryPolicy attempts (map upper methods)).
Definition retryable_failures : list str :=
  [py "dns"; py "dns-timeout"; py "connect"; py "connect-timeout"; py "header-timeout";
   py "reset-before-head"; py "timeout-before-head"; py "refused"].
Definition allows (p : retry_policy) (method : str) (attempt : Z) (response_committed : bool)
    (failure : str) (request_replayable : bool) : bool :=
  if negb request_replayable || response_committed || (attempt >=? attempts p) then false
  else if negb (str_in (upper method) (methods p)) then false
  else str_in failure retryable_failures.
End RetryPolicy.

Record proxy_spec := ProxySpec {
  upstream : str;
  strip_prefix : str;
  timeouts : proxy_timeouts;
  retry : retry_policy;
  trust_forwarded : bool;
}.
Definition default_timeouts : proxy_timeouts := ProxyTimeouts 5000 10000 30000 30000.
Definition default_retry : retry_policy := RetryPolicy 1 [py "GET"; py "HEAD"; py "OPTIONS"].
Definition make_proxy_spec (upstream strip_prefix : str) (timeouts : option proxy_timeouts)
    (retry : option retry_policy) (trust_forwarded : bool) : result proxy_spec :=
  if bool_decide (upstream = []) then Raise (ValueError (py "proxy route requires an upstream group"))
  else Ok (ProxySpec upstream strip_prefix (default default_timeouts timeouts)
             (default default_retry retry) trust_forwarded).

Definition proxy_failure_status (failure : str) : Z :=
  if str_in failure [py "dns-timeout"; py "connect-timeout"; py "request-body-timeout";
                     py "header-timeout"; py "body-timeout"]
  then (if str_eqb failure (py "request-body-timeout") then 408 else 504)
  else if str_in failure [py "overloaded"; py "no-endpoint"] then 503
  else 502.

Example ex_forwarded :
  forwarded_request_headers [(py "Connection", py "close, X-Drop"); (py "X-Drop", py "1");
                             (py "Accept", py "*/*"); (py "X-Forwarded-For", py "9.9.9.9")]
    (py "1.2.3.4") (py "http") (py "h") false =
  [(py "accept", py "*/*"); (X_FOR, py "1.2.3.4"); (X_PROTO, py "http"); (X_HOST, py "h")].
Proof. vm_compute. reflexivity. Qed.
