(* ===== verification/ProxySpec.v ===== *)
(** * Properties of the reverse-proxy policy

    Leases are accounted for across groups that share endpoints; forwarded headers carry
    nothing that belongs to one hop; addresses are tried in rotation. *)

From S2P Require Import Prelude PyStr PyLists Http1 DnsWire DnsPolicy DnsPolicySpec Proxy.
#[local] Open Scope Z_scope.

(** ** Leases *)

Definition live_in (g : nat) (l : lease) : bool := negb (ls_released l) && bool_decide (ls_group l = g).
Definition live_on (e : nat) (l : lease) : bool := negb (ls_released l) && bool_decide (ls_endpoint l = e).

Lemma live_in_live g l : ls_released l = false -> live_in g l = bool_decide (ls_group l = g).
Proof. unfold live_in. by intros ->. Qed.
Lemma live_on_live e l : ls_released l = false -> live_on e l = bool_decide (ls_endpoint l = e).
Proof. unfold live_on. by intros ->. Qed.

Definition group_ok (u : upstreams) (g : nat) (x : group) : Prop :=
  gr_endpoints x <> [] /\ Forall (fun e => (e < length (endpoints u))%nat) (gr_endpoints x) /\
  0 <= cursor x < len (gr_endpoints x) /\ gr_active x = count (live_in g) (leases u) /\ gr_active x <= max_active x.
(** Every counter is the number of leases it stands for. *)
Record accounted (u : upstreams) : Prop := {
  acc_groups : forall g x, groups u !! g = Some x -> group_ok u g x;
  acc_endpoints : forall e x, endpoints u !! e = Some x -> ep_active x = count (live_on e) (leases u) /\ 0 < weight x;
  acc_leases : forall l x, leases u !! l = Some x ->
    (ls_group x < length (groups u))%nat /\ (ls_endpoint x < length (endpoints u))%nat;
}.

(** What holders of the store do. *)
Inductive upstream_call :=
| Acquire (g : nat)
| Release (l : nat) (failed : bool)
| Resolve (g e : nat) (values : list str) (qtype : Z).
Definition upstream_run1 (call : upstream_call) : M upstreams unit :=
  match call with
  | Acquire g => UpstreamGroup.acquire g ;;! ret tt
  | Release l failed => UpstreamGroup.lease_release l failed
  | Resolve g e values qtype => UpstreamGroup.accept_and_order_addresses g e values qtype ;;! ret tt
  end.
Fixpoint upstream_run (calls : list upstream_call) (u : upstreams) : upstreams :=
  match calls with
  | [] => u
  | call :: calls' => upstream_run calls' (snd (upstream_run1 call u))
  end.

Lemma wp_group g x Q E u : groups u !! g = Some x -> Q x u -> wp (UpstreamGroup.get_group g) Q E u.
Proof. intros Hx HQ. unfold wp, UpstreamGroup.get_group. by rewrite Hx. Qed.

Lemma wp_on_endpoint {A} e x (m : M endpoint A) Q E u : endpoints u !! e = Some x ->
  wp m (fun a x' => Q a (Upstreams (<[e := x']> (endpoints u)) (groups u) (leases u)))
       (fun ex x' => E ex (Upstreams (<[e := x']> (endpoints u)) (groups u) (leases u))) x ->
  wp (UpstreamGroup.on_endpoint e m) Q E u.
Proof. intros Hx HQ. unfold wp, UpstreamGroup.on_endpoint in *. rewrite Hx. by destruct (m x) as [[a|ex] x']. Qed.

(** Replacing a group by one that differs in its cursor, or an endpoint by one with the
    same admission, keeps the account. *)
Lemma accounted_group u g x y :
  accounted u -> groups u !! g = Some x -> gr_endpoints y = gr_endpoints x -> max_active y = max_active x ->
  gr_active y = gr_active x -> 0 <= cursor y < len (gr_endpoints y) ->
  accounted (Upstreams (endpoints u) (<[g := y]> (groups u)) (leases u)).
Proof.
  intros [Hg He Hl] Hx E1 E2 E3 Hc. split; cbn [groups endpoints leases]; [|done|by rewrite length_insert].
  intros g' x' Hx'. destruct (decide (g' = g)) as [->|].
  - rewrite list_lookup_insert_eq in Hx' by (by eapply lookup_lt_Some). injection Hx' as <-.
    destruct (Hg g x Hx) as (? & ? & ? & ? & ?). unfold group_ok. rewrite E1, E2, E3 in *. done.
  - rewrite list_lookup_insert_ne in Hx' by done. exact (Hg g' x' Hx').
Qed.

Lemma accounted_endpoint u e x y :
  accounted u -> endpoints u !! e = Some x -> ep_active y = ep_active x -> weight y = weight x ->
  accounted (Upstreams (<[e := y]> (endpoints u)) (groups u) (leases u)).
Proof.
  intros [Hg He Hl] Hx E1 E2. split; cbn [groups endpoints leases].
  - intros g x' Hx'. unfold group_ok. cbn [endpoints leases]. rewrite length_insert. exact (Hg g x' Hx').
  - intros e' x' Hx'. destruct (decide (e' = e)) as [->|].
    + rewrite list_lookup_insert_eq in Hx' by (by eapply lookup_lt_Some). injection Hx' as <-. rewrite E1, E2. by apply He.
    + rewrite list_lookup_insert_ne in Hx' by done. exact (He e' x' Hx').
  - by rewrite length_insert.
Qed.

Lemma mod_cursor c n : 0 <= c < n -> 0 <= (c + 1) mod n < n.
Proof. intros. apply Z.mod_pos_bound. lia. Qed.

(** A lease taken, and a lease given back. *)
Lemma accounted_take u g e x y :
  accounted u -> groups u !! g = Some x -> endpoints u !! e = Some y -> gr_active x < max_active x ->
  accounted (Upstreams (<[e := ep_set_admission (ep_active y + 1) (failures y) y]> (endpoints u))
               (<[g := gr_set (gr_active x + 1) (cursor x) x]> (groups u)) (leases u ++ [UpstreamLease g e false])).
Proof.
  intros [Hg He Hl] Hx Hy Hmax. split; cbn [groups endpoints leases].
  - intros g' x' Hx'. unfold group_ok. cbn [groups endpoints leases]. rewrite length_insert, count_app. cbn [count live_in ls_released ls_group negb andb].
    destruct (decide (g = g')) as [<-|].
    + rewrite list_lookup_insert_eq in Hx' by (by eapply lookup_lt_Some). injection Hx' as <-.
      destruct (Hg g x Hx) as (? & ? & ? & ? & ?). rewrite bool_decide_eq_true_2 by done. cbn.
      repeat (split; [done || lia|]). lia.
    + rewrite list_lookup_insert_ne in Hx' by done. destruct (Hg g' x' Hx') as (? & ? & ? & ? & ?).
      rewrite bool_decide_eq_false_2 by done. cbn. repeat (split; [done || lia|]). lia.
  - intros e' y' Hy'. rewrite count_app. cbn [count live_on ls_released ls_endpoint negb andb]. destruct (decide (e = e')) as [<-|].
    + rewrite list_lookup_insert_eq in Hy' by (by eapply lookup_lt_Some). injection Hy' as <-.
      destruct (He e y Hy). rewrite bool_decide_eq_true_2 by done. cbn. lia.
    + rewrite list_lookup_insert_ne in Hy' by done. destruct (He e' y' Hy'). rewrite bool_decide_eq_false_2 by done. cbn. lia.
  - intros l z Hz. rewrite !length_insert. apply lookup_app_Some in Hz as [Hz|[_ Hz]]; [by apply (Hl l)|].
    destruct (l - length (leases u))%nat; [|done]. injection Hz as <-. split; by eapply lookup_lt_Some.
Qed.

Lemma accounted_return u l z x y f :
  accounted u -> leases u !! l = Some z -> ls_released z = false ->
  groups u !! ls_group z = Some x -> endpoints u !! ls_endpoint z = Some y ->
  accounted (Upstreams (<[ls_endpoint z := ep_set_admission (ep_active y - 1) f y]> (endpoints u))
               (<[ls_group z := gr_set (gr_active x - 1) (cursor x) x]> (groups u))
               (<[l := UpstreamLease (ls_group z) (ls_endpoint z) true]> (leases u))).
Proof.
  intros [Hg He Hl] Hz Hr Hx Hy. split; cbn [groups endpoints leases].
  - intros g' x' Hx'. unfold group_ok. cbn [groups endpoints leases]. rewrite length_insert, (count_insert _ _ _ z) by done.
    rewrite (live_in_live g' z Hr). cbn [live_in ls_released negb andb Z.b2z]. destruct (decide (ls_group z = g')) as [<-|].
    + rewrite list_lookup_insert_eq in Hx' by (by eapply lookup_lt_Some). injection Hx' as <-.
      destruct (Hg _ x Hx) as (? & ? & ? & ? & ?). rewrite bool_decide_eq_true_2 by done. cbn.
      repeat (split; [done || lia|]). lia.
    + rewrite list_lookup_insert_ne in Hx' by done. destruct (Hg g' x' Hx') as (? & ? & ? & ? & ?).
      rewrite bool_decide_eq_false_2 by done. cbn. repeat (split; [done || lia|]). lia.
  - intros e' y' Hy'. rewrite (count_insert _ _ _ z) by done. rewrite (live_on_live e' z Hr).
    cbn [live_on ls_released negb andb Z.b2z]. destruct (decide (ls_endpoint z = e')) as [<-|].
    + rewrite list_lookup_insert_eq in Hy' by (by eapply lookup_lt_Some). injection Hy' as <-.
      destruct (He _ y Hy). rewrite bool_decide_eq_true_2 by done. cbn. lia.
    + rewrite list_lookup_insert_ne in Hy' by done. destruct (He e' y' Hy'). rewrite bool_decide_eq_false_2 by done. cbn. lia.
  - intros l' z' Hz'. rewrite !length_insert. destruct (decide (l = l')) as [<-|].
    + rewrite list_lookup_insert_eq in Hz' by (by eapply lookup_lt_Some). injection Hz' as <-. by apply (Hl l z).
    + rewrite list_lookup_insert_ne in Hz' by done. by apply (Hl l').
Qed.

(** A live lease is counted by its group and by its endpoint. *)
Lemma live_lease_counted u l z : accounted u -> leases u !! l = Some z -> ls_released z = false ->
  exists x y, groups u !! ls_group z = Some x /\ endpoints u !! ls_endpoint z = Some y /\ 0 < gr_active x /\ 0 < ep_active y.
Proof.
  intros [Hg He Hl] Hz Hr. destruct (Hl l z Hz) as [[x Hx]%lookup_lt_is_Some [y Hy]%lookup_lt_is_Some].
  exists x, y. split; [done|]. split; [done|].
  destruct (Hg _ x Hx) as (_ & _ & _ & -> & _), (He _ y Hy) as [-> _].
  split; apply (count_pos _ _ l z); try done; unfold live_in, live_on; rewrite Hr; cbn; by apply bool_decide_eq_true.
Qed.

Definition with_lease (u : upstreams) (g e : nat) : upstreams :=
  Upstreams (endpoints u) (groups u) (leases u ++ [UpstreamLease g e false]).

Lemma acquire_loop_spec n g : forall u x, accounted u -> groups u !! g = Some x -> gr_active x < max_active x ->
  wp (UpstreamGroup.acquire_loop n g)
     (fun r u' => match r with Some e => accounted (with_lease u' g e) | None => accounted u' end /\ leases u' = leases u)
     (fun _ _ => False) u.
Proof.
  induction n as [|n IH]; intros u x Hok Hx Hmax; [done|]. cbn [UpstreamGroup.acquire_loop]. apply wp_bind, (wp_group g x); [done|].
  pose proof (acc_groups u Hok g x Hx) as (Hne & Hep & Hc & Ha & _).
  destruct (len_pos_at (gr_endpoints x) (cursor x) Hc) as [e Hat]. rewrite Hat.
  assert (e < length (endpoints u))%nat as [y Hy]%lookup_lt_is_Some.
  { rewrite Forall_forall in Hep. apply Hep. rewrite at_lookup in Hat by lia. by eapply list_elem_of_lookup_2. }
  apply wp_bind, wp_modify. set (x1 := gr_set _ _ x). set (u1 := Upstreams _ _ _).
  assert (accounted u1) as Hok1 by (apply (accounted_group u g x); try done; by apply mod_cursor).
  assert (groups u1 !! g = Some x1) as Hx1 by (apply list_lookup_insert_eq; by eapply lookup_lt_Some).
  apply wp_bind. eapply (wp_on_endpoint e y); [done|]. apply wp_bind, wp_get. destruct (_ >? _).
  - apply wp_ret. apply (wp_mono _ _ _ _ _ _ (fun a s' H => H) (fun e0 s' H => H)).
    assert (Upstreams (<[e:=y]> (endpoints u1)) (groups u1) (leases u1) = u1) as -> by (unfold u1; cbn; by rewrite list_insert_id).
    by apply (IH u1 x1).
  - apply wp_bind, wp_modify, wp_ret. apply wp_bind, (wp_group g x1); [done|]. apply wp_bind, wp_modify, wp_ret.
    split; [|done]. exact (accounted_take u1 g e x1 y Hok1 Hx1 Hy Hmax).
Qed.

Lemma acquire_spec g x u : accounted u -> groups u !! g = Some x ->
  wp (UpstreamGroup.acquire g)
     (fun r u' => accounted u' /\ match r with
                   | Some l => l = length (leases u) /\ exists e, leases u' = leases u ++ [UpstreamLease g e false]
                   | None => leases u' = leases u end)
     (fun _ _ => False) u.
Proof.
  intros Hok Hx. apply wp_bind, (wp_group g x); [done|]. destruct (_ >=? _) eqn:E; b2p; [by apply wp_ret|].
  apply wp_bind. eapply wp_mono; [| |by apply (acquire_loop_spec _ g u x)]; [|done].
  intros [e|] u' [Hok' Hl]; [|by apply wp_ret]. unfold wp. split; [exact Hok'|]. cbn [leases]. rewrite Hl. split; [done|]. by exists e.
Qed.

(** Giving back a live lease works; giving it back again is refused and changes nothing. *)
Lemma lease_release_spec l failed u z : accounted u -> leases u !! l = Some z ->
  if ls_released z
  then UpstreamGroup.lease_release l failed u = (Raise (RuntimeError (py "upstream lease released more than once")), u)
  else wp (UpstreamGroup.lease_release l failed)
         (fun _ u' => accounted u' /\ leases u' = <[l := UpstreamLease (ls_group z) (ls_endpoint z) true]> (leases u))
         (fun _ _ => False) u.
Proof.
  intros Hok Hz. unfold UpstreamGroup.lease_release, UpstreamGroup.release_lease, UpstreamGroup.get_lease.
  destruct (ls_released z) eqn:Hr.
  { unfold bind. rewrite Hz, Hz, bool_decide_eq_true_2, Hr by done. done. }
  apply wp_bind. unfold wp at 1. rewrite Hz. apply wp_bind. unfold wp at 1. rewrite Hz, bool_decide_eq_true_2, Hr by done.
  cbn [negb orb]. destruct (live_lease_counted u l z Hok Hz Hr) as (x & y & Hx & Hy & Hxa & Hya).
  apply wp_bind, wp_modify, wp_bind. eapply (wp_on_endpoint _ y); [exact Hy|]. apply wp_bind, wp_get.
  rewrite (proj2 (Z.leb_gt _ _)) by done. apply wp_modify, wp_bind. eapply (wp_group _ x); [exact Hx|]. apply wp_modify.
  split; [|done]. exact (accounted_return u l z x y _ Hok Hz Hr Hx Hy).
Qed.

Definition same_admission (y y' : endpoint) : Prop := ep_active y' = ep_active y /\ weight y' = weight y.

Lemma resolve_admission values qtype y :
  wp (UpstreamEndpoint.accept_and_order_addresses values qtype) (fun _ y' => same_admission y y') (fun _ y' => same_admission y y') y.
Proof.
  apply wp_bind, wp_bind, wp_get. unfold UpstreamEndpoint.on_policy, zoom, wp at 1.
  destruct (DnsAddressPolicy.accept _ _ _ _) as [[cs|e] p']; [|done]. set (y1 := ep_set_policy p' y).
  assert (same_admission y y1) as H1 by done. clearbody y1. unfold UpstreamEndpoint.ordered_addresses. destruct cs as [|c cs]; [done|].
  apply wp_bind, wp_modify. set (y2 := if bool_decide _ then _ else _).
  assert (same_admission y y2) as H2 by (unfold y2; destruct H1; by case_bool_decide). clearbody y2.
  apply wp_bind, wp_get, wp_bind, wp_lift. destruct (UpstreamEndpoint.rotate_from _ _ _); [|done].
  by apply wp_bind, wp_modify, wp_ret.
Qed.

Lemma resolve_spec g e values qtype u : accounted u ->
  let u' := snd (upstream_run1 (Resolve g e values qtype) u) in accounted u' /\ leases u' = leases u.
Proof.
  intros Hok. cbv zeta.
  enough (wp (upstream_run1 (Resolve g e values qtype)) (fun _ u' => accounted u' /\ leases u' = leases u)
            (fun _ u' => accounted u' /\ leases u' = leases u) u) as Hwp.
  { unfold wp in Hwp. by destruct (upstream_run1 _ u) as [[[]|ex] u']. }
  apply wp_bind, wp_bind. unfold wp at 1, UpstreamGroup.get_group. destruct (groups u !! g) as [x|] eqn:Hx; [|done].
  case_bool_decide as Hin; cbn [negb]; [|done].
  destruct (acc_groups u Hok g x Hx) as (_ & Hep & _). rewrite Forall_forall in Hep. specialize (Hep e Hin).
  apply lookup_lt_is_Some in Hep as [y Hy]. eapply (wp_on_endpoint _ y); [exact Hy|].
  eapply wp_mono; [| |apply resolve_admission]; intros ? y' [H1 H2]; [apply wp_ret|]; (split; [|done]); by apply (accounted_endpoint u e y).
Qed.

Lemma upstream_step call u : accounted u -> accounted (snd (upstream_run1 call u)).
Proof.
  intros Hok. destruct call as [g|l failed|g e values qtype].
  - cbn [upstream_run1]. destruct (groups u !! g) as [x|] eqn:Hx.
    + pose proof (acquire_spec g x u Hok Hx) as Hs. unfold wp in Hs. unfold bind.
      destruct (UpstreamGroup.acquire g u) as [[r|ex] u']; [|done]. by destruct Hs.
    + unfold UpstreamGroup.acquire, bind, UpstreamGroup.get_group. by rewrite Hx.
  - cbn [upstream_run1]. destruct (leases u !! l) as [z|] eqn:Hz.
    + pose proof (lease_release_spec l failed u z Hok Hz) as Hs. destruct (ls_released z) eqn:Hr; [by rewrite Hs|].
      unfold wp in Hs. destruct (UpstreamGroup.lease_release l failed u) as [[[]|ex] u']; [|done]. by destruct Hs.
    + unfold UpstreamGroup.lease_release, bind, UpstreamGroup.get_lease. by rewrite Hz.
  - by apply resolve_spec.
Qed.

Lemma upstream_runs calls : forall u, accounted u -> accounted (upstream_run calls u).
Proof. induction calls as [|call calls IH]; intros u Hok; [done|]. cbn [upstream_run]. apply IH. by apply upstream_step. Qed.

(** ** The store at the start *)

Definition constructed (u : upstreams) : Prop :=
  leases u = [] /\
  Forall (fun y => exists host port w p, UpstreamEndpoint.init host port w p = Ok y) (endpoints u) /\
  Forall (fun x => (exists name eps mx idle, UpstreamGroup.init name eps mx idle = Ok x) /\
                   Forall (fun e => (e < length (endpoints u))%nat) (gr_endpoints x)) (groups u).

Lemma constructed_accounted u : constructed u -> accounted u.
Proof.
  intros (Hl & He & Hg). rewrite Forall_forall in He. rewrite Forall_forall in Hg. split; rewrite ?Hl.
  - intros g x Hx. apply list_elem_of_lookup_2, Hg in Hx as [(name & eps & mx & idle & Hi) Hin]. unfold group_ok. rewrite Hl.
    unfold UpstreamGroup.init in Hi. destruct (_ || _) eqn:E1; [done|]. destruct ((mx <=? 0) || _) eqn:E2; [done|]. injection Hi as <-.
    b2p. cbn in *. split; [done|]. split; [done|]. pose proof (len_nonneg eps). assert (len eps <> 0) by (by intros ?%len_zero_nil).
    repeat split; lia.
  - intros e y Hy. apply list_elem_of_lookup_2, He in Hy as (host & port & w & p & Hi). unfold UpstreamEndpoint.init in Hi.
    destruct (bool_decide (host = []) || _ || _ || _) eqn:E; [done|]. injection Hi as <-. b2p. cbn. split; [done|lia].
  - intros l z Hz. done.
Qed.

(** C34: upstream admission is accounted for.  Over groups that may share endpoints, after
    any sequence of acquisitions, releases and resolutions, every group's and endpoint's
    active count is exactly the number of its unreleased leases, no group is above its limit, the
    round-robin cursors stay in range; and a lease is given back exactly once: releasing a
    live one succeeds, releasing it again is refused and changes nothing. *)
Theorem leases_accounted u calls :
  constructed u ->
  let u' := upstream_run calls u in
  (forall g x, groups u' !! g = Some x ->
     gr_active x = count (live_in g) (leases u') /\ 0 <= gr_active x <= max_active x /\ 0 <= cursor x < len (gr_endpoints x)) /\
  (forall e y, endpoints u' !! e = Some y -> ep_active y = count (live_on e) (leases u')) /\
  (forall l z failed, leases u' !! l = Some z ->
     if ls_released z
     then UpstreamGroup.lease_release l failed u' = (Raise (RuntimeError (py "upstream lease released more than once")), u')
     else exists u2, UpstreamGroup.lease_release l failed u' = (Ok tt, u2) /\
            leases u2 = <[l := UpstreamLease (ls_group z) (ls_endpoint z) true]> (leases u')).
Proof.
  intros Hc. cbv zeta. pose proof (upstream_runs calls u (constructed_accounted u Hc)) as Hok. set (u' := upstream_run calls u) in *.
  split; [|split].
  - intros g x Hx. destruct (acc_groups u' Hok g x Hx) as (_ & _ & Hcur & Ha & Hmax).
    pose proof (count_nonneg (live_in g) (leases u')). repeat split; lia.
  - intros e y Hy. by apply (acc_endpoints u' Hok).
  - intros l z failed Hz. pose proof (lease_release_spec l failed u' z Hok Hz) as Hs. destruct (ls_released z); [done|].
    unfold wp in Hs. destruct (UpstreamGroup.lease_release l failed u') as [[[]|ex] u2]; [|done]. exists u2. by destruct Hs.
Qed.

(** ** Headers *)

(** [token] is listed in some [Connection] field of the message. *)
Definition connection_lists (hs : list (str * str)) (token : str) : Prop :=
  exists name value, (name, value) ∈ hs /\ lower name = py "connection" /\ token ∈ split_commas value.

Lemma add_tokens_elem value : forall named x, x ∈ add_tokens named value <-> x ∈ named \/ x ∈ split_commas value.
Proof.
  unfold add_tokens. induction (split_commas value) as [|t ts IH]; intros named x; cbn [fold_left].
  { split; [by left|]. by intros [?|?%elem_of_nil]. }
  rewrite IH, elem_of_cons. unfold str_in. case_bool_decide as E.
  - split; intros [?|?]; auto. destruct H as [->|?]; auto.
  - rewrite elem_of_app, list_elem_of_singleton. tauto.
Qed.

Lemma connection_named_elem hs : forall named x,
  x ∈ connection_named_go named hs <-> x ∈ named \/ connection_lists hs x.
Proof.
  unfold connection_lists. induction hs as [|[name value] hs IH]; intros named x; cbn [connection_named_go].
  { split; [by left|]. intros [?|(n & v & H%elem_of_nil & _)]; done. }
  rewrite IH. unfold str_eqb. setoid_rewrite elem_of_cons. case_bool_decide as E.
  - rewrite add_tokens_elem. split; [intros [[?|?]|(n & v & ? & ? & ?)]; [by left|right; exists name, value; auto|right; exists n, v; auto]|].
    intros [?|(n & v & [[= -> ->]|?] & ? & ?)]; [by left; left|by left; right|right; by exists n, v].
  - split; intros [?|(n & v & Hin & ? & ?)]; [by left|right; exists n, v; auto|by left|].
    destruct Hin as [[= -> ->]|?]; [done|right; by exists n, v].
Qed.

Lemma sanitize_elem hs n v : (n, v) ∈ sanitize_hop_by_hop hs <->
  exists m, (m, v) ∈ hs /\ lower m = n /\ (n ∉ HOP_BY_HOP) /\ ~ connection_lists hs n.
Proof.
  unfold sanitize_hop_by_hop. rewrite list_elem_of_In, in_map_iff. setoid_rewrite filter_In.
  assert (forall m, negb (str_in (lower m) HOP_BY_HOP || str_in (lower m) (connection_named_fields hs)) = true <->
                    (lower m ∉ HOP_BY_HOP) /\ ~ connection_lists hs (lower m)) as Hk.
  { intros m. unfold connection_named_fields, str_in. rewrite negb_true_iff, orb_false_iff, !bool_decide_eq_false, connection_named_elem.
    split; intros [? Hc]; (split; [done|]); [tauto|]. intros [?%elem_of_nil|?]; done. }
  split.
  - intros ([m w] & [= <- <-] & Hin & Hkeep). apply Hk in Hkeep as [? ?]. exists m. by rewrite list_elem_of_In.
  - intros (m & Hin & <- & Hh & Hc). exists (m, v). split; [done|]. split; [by apply list_elem_of_In|]. by apply Hk.
Qed.

Lemma filter_sub {A} (p : A -> bool) (l : list A) : sublist (List.filter p l) l.
Proof. induction l as [|x l IH]; cbn; [constructor|]. destruct (p x); by constructor. Qed.
Lemma map_sub {A B} (f : A -> B) (l k : list A) : sublist l k -> sublist (map f l) (map f k).
Proof. induction 1; cbn; by constructor. Qed.

(** The name is one the proxy writes itself. *)
Definition rewritten (trust : bool) (name : str) : bool :=
  str_in name [X_FOR; X_PROTO; X_HOST] && negb (trust && str_eqb name X_FOR).

Lemma forwarded_loop_spec trust hs : forall kept chain,
  let '(k, c) := forwarded_loop trust kept chain hs in
  k = kept ++ List.filter (fun h => negb (rewritten trust (fst h))) hs /\
  (trust = false -> c = chain) /\ (c = chain \/ (X_FOR, c) ∈ hs).
Proof.
  induction hs as [|[name value] hs IH]; intros kept chain; cbn [forwarded_loop List.filter fst].
  { rewrite app_nil_r. auto. }
  unfold rewritten at 1. destruct (str_in name [X_FOR; X_PROTO; X_HOST]) eqn:Ein; cbn [andb negb].
  2:{ specialize (IH (kept ++ [(name, value)]) chain). destruct (forwarded_loop _ _ _ _) as [k c]. rewrite <- app_assoc in IH.
      destruct IH as (-> & ? & Hc). split; [done|]. split; [done|]. rewrite elem_of_cons. tauto. }
  destruct trust; cbn [andb negb].
  - unfold str_eqb. destruct (bool_decide (name = X_FOR)) eqn:Ef; cbn [negb]; b2p.
    + specialize (IH (kept ++ [(name, value)]) value). destruct (forwarded_loop _ _ _ _) as [k c]. rewrite <- app_assoc in IH.
      destruct IH as (-> & _ & Hc). split; [done|]. split; [done|]. right. subst name. rewrite elem_of_cons. destruct Hc as [->|?]; auto.
    + specialize (IH kept chain). destruct (forwarded_loop _ _ _ _) as [k c]. destruct IH as (-> & ? & Hc).
      split; [done|]. split; [done|]. rewrite elem_of_cons. tauto.
  - specialize (IH kept chain). destruct (forwarded_loop _ _ _ _) as [k c]. destruct IH as (-> & ? & Hc).
    split; [done|]. split; [done|]. rewrite elem_of_cons. tauto.
Qed.

(** What is forwarded upstream.  The proxy sends on, in their order, exactly the fields
    of the message that are neither hop-by-hop nor listed in any of its [Connection] fields
    nor written by the proxy itself, and ends with its own three [X-Forwarded] fields.  An
    untrusted client's [X-Forwarded-For] never reaches the upstream: the chain is then its
    address alone; a trusted one is extended with it. *)
Theorem forwarded_end_to_end hs client_ip scheme host trust :
  exists kept chain,
    forwarded_request_headers hs client_ip scheme host trust = kept ++ [(X_FOR, chain); (X_PROTO, scheme); (X_HOST, host)] /\
    (forall n v, (n, v) ∈ kept <-> exists m, (m, v) ∈ hs /\ lower m = n /\ (n ∉ HOP_BY_HOP) /\ ~ connection_lists hs n /\
                   n <> X_PROTO /\ n <> X_HOST /\ (n = X_FOR -> trust = true)) /\
    sublist kept (map (fun h => (lower (fst h), snd h)) hs) /\
    (trust = false -> chain = client_ip) /\
    (chain = client_ip \/ exists given, (X_FOR, given) ∈ kept /\ chain = given ++ py ", " ++ client_ip).
Proof.
  unfold forwarded_request_headers. pose proof (forwarded_loop_spec trust (sanitize_hop_by_hop hs) [] []) as Hs.
  destruct (forwarded_loop _ _ _ _) as [kept given]. destruct Hs as (-> & Hut & Hg). cbn [app].
  set (kept := List.filter _ _).
  assert (forall n v, (n, v) ∈ kept <-> (n, v) ∈ sanitize_hop_by_hop hs /\ n <> X_PROTO /\ n <> X_HOST /\ (n = X_FOR -> trust = true)) as Hk.
  { intros n v. unfold kept. rewrite !list_elem_of_In, filter_In. cbn [fst]. unfold rewritten, str_in, str_eqb.
    rewrite negb_true_iff, andb_false_iff, negb_false_iff, andb_true_iff, bool_decide_eq_false, bool_decide_eq_true.
    rewrite !not_elem_of_cons. split.
    - intros [? [(? & ? & ? & _)|[-> ->]]]; [tauto|]. split; [done|]. repeat split; done.
    - intros (? & ? & ? & Hx). split; [done|]. destruct (decide (n = X_FOR)) as [->|]; [right; auto|left]. repeat split; try done. apply not_elem_of_nil. }
  exists kept. eexists. split; [reflexivity|]. split; [|split; [|split]].
  - intros n v. rewrite Hk, sanitize_elem. split.
    + intros [(m & ? & ? & ? & ?) (? & ? & ?)]. exists m. tauto.
    + intros (m & ? & ? & ? & ? & ? & ? & ?). split; [exists m; tauto|tauto].
  - unfold kept, sanitize_hop_by_hop. etransitivity; [apply filter_sub|]. apply map_sub, filter_sub.
  - intros Ht. by rewrite (Hut Ht).
  - case_bool_decide as E; [by left|]. right. exists given. split; [|done]. destruct Hg as [?|Hin]; [done|].
    apply Hk. split; [done|]. split; [done|]. split; [done|]. intros _. destruct trust; [done|]. by rewrite (Hut eq_refl) in E.
Qed.

(** ** A concrete store *)

(** Two groups that share the second endpoint. *)
Definition sample_endpoint (host : str) (w : Z) : endpoint :=
  UpstreamEndpoint host 8080 w 0 0 0 [] DnsAddressPolicy.default_policy.
Definition sample_upstreams : upstreams :=
  Upstreams [sample_endpoint (py "a") 1; sample_endpoint (py "b") 2]
    [UpstreamGroup (py "web") [0; 1]%nat 2 4 0 0; UpstreamGroup (py "api") [1]%nat 1 4 0 0] [].
Definition sample_upstream_calls : list upstream_call :=
  [Acquire 0; Acquire 1; Acquire 0; Acquire 0; Release 1 true; Release 1 false; Release 0 false].

Example sample_active :
  map gr_active (groups (upstream_run sample_upstream_calls sample_upstreams)) = [1; 0] /\
  map ep_active (endpoints (upstream_run sample_upstream_calls sample_upstreams)) = [0; 1].
Proof. vm_compute. split; reflexivity. Qed.

Lemma sample_constructed : constructed sample_upstreams.
Proof.
  split; [done|]. split.
  - repeat constructor; [exists (py "a"), 8080, 1, None|exists (py "b"), 8080, 2, None]; reflexivity.
  - repeat constructor; [exists (py "web"), [0; 1]%nat, 2, 4|exists (py "api"), [1]%nat, 1, 4]; reflexivity.
Qed.

Lemma leases_accounted_witness :
  let u' := upstream_run sample_upstream_calls sample_upstreams in
  (forall g x, groups u' !! g = Some x ->
     gr_active x = count (live_in g) (leases u') /\ 0 <= gr_active x <= max_active x /\ 0 <= cursor x < len (gr_endpoints x)) /\
  (forall e y, endpoints u' !! e = Some y -> ep_active y = count (live_on e) (leases u')) /\
  (forall l z failed, leases u' !! l = Some z ->
     if ls_released z
     then UpstreamGroup.lease_release l failed u' = (Raise (RuntimeError (py "upstream lease released more than once")), u')
     else exists u2, UpstreamGroup.lease_release l failed u' = (Ok tt, u2) /\
            leases u2 = <[l := UpstreamLease (ls_group z) (ls_endpoint z) true]> (leases u')).
Proof. exact (leases_accounted sample_upstreams sample_upstream_calls sample_constructed). Defined.

(** A trusted chain is kept as it came and extended in a second field. *)
Example trusted_chain_twice :
  forwarded_request_headers [(py "X-Forwarded-For", py "9.9.9.9")] (py "1.2.3.4") (py "http") (py "h") true =
  [(X_FOR, py "9.9.9.9"); (X_FOR, py "9.9.9.9, 1.2.3.4"); (X_PROTO, py "http"); (X_HOST, py "h")].
Proof. vm_compute. reflexivity. Qed.
