(* ===== verification/ProxyHttp1.v ===== *)
(** * The HTTP/1 proxy transport state ([pcc_gateway/proxy_http1.py], first part)

    The upstream response decoder (one iteration of its loop is
    [Http1UpstreamCodec.step]), the request head encoder and the stage deadline.  The
    exchange and the connection pool are in [ProxyExchange] and [ProxyPool]; the
    theorems are in [ProxyHttp1Spec]. *)

From S2P Require Import Prelude PyStr Buffer Http1 DnsPolicy Proxy.
#[local] Open Scope Z_scope.

Definition protocol_error {A} (code message : str) : result A :=
  Raise (ProxyProtocolError code message).

(** [except Http1Error as error: raise ProxyProtocolError(code(error), str(error))] *)
Definition as_protocol_error {A} (code : str -> str) (r : result A) : result A :=
  match r with
  | Raise (Http1Error _ c m) => Raise (ProxyProtocolError (code c) m)
  | _ => r
  end.

Record response_head := UpstreamResponseHead {
  rh_status : Z;
  reason_phrase : str;
  rh_version : str;
  rh_headers : list (str * str);
  rh_content_length : Z;
  rh_chunked : bool;
  rh_keep_alive : bool;
  informational : bool;
  body_expected : bool;
}.
Inductive upstream_event :=
| UHead (h : response_head)
| UBody (data : bytes)
| UEnd (trailers : list (str * str)).

Inductive upstream_state := UHEAD | UFINAL_EMPTY | UCHUNK_SIZE | UFIXED_BODY | UUNTIL_EOF
  | UCHUNK_DATA | UCHUNK_CRLF | UTRAILERS | UCOMPLETE.
#[global] Instance upstream_state_eq_dec : EqDecision upstream_state.
Proof. solve_decision. Defined.

Record upstream_codec := UpstreamCodec {
  uc_request_method : str;
  uc_max_header_bytes : Z;
  uc_max_header_count : Z;
  uc_max_body_bytes : Z;
  uc_max_chunk_bytes : Z;
  uc_buffer : bytes;
  uc_state : upstream_state;
  uc_remaining : Z;
  uc_body_received : Z;
  complete : bool;
  uc_closed : bool;
}.

Definition u_set_buffer (b : bytes) (c : upstream_codec) : upstream_codec :=
  UpstreamCodec (uc_request_method c) (uc_max_header_bytes c) (uc_max_header_count c)
    (uc_max_body_bytes c) (uc_max_chunk_bytes c) b (uc_state c) (uc_remaining c)
    (uc_body_received c) (complete c) (uc_closed c).
Definition u_set_state (s : upstream_state) (c : upstream_codec) : upstream_codec :=
  UpstreamCodec (uc_request_method c) (uc_max_header_bytes c) (uc_max_header_count c)
    (uc_max_body_bytes c) (uc_max_chunk_bytes c) (uc_buffer c) s (uc_remaining c)
    (uc_body_received c) (complete c) (uc_closed c).
Definition u_set_body (remaining received : Z) (c : upstream_codec) : upstream_codec :=
  UpstreamCodec (uc_request_method c) (uc_max_header_bytes c) (uc_max_header_count c)
    (uc_max_body_bytes c) (uc_max_chunk_bytes c) (uc_buffer c) (uc_state c) remaining
    received (complete c) (uc_closed c).
Definition u_set_flags (comp cl : bool) (c : upstream_codec) : upstream_codec :=
  UpstreamCodec (uc_request_method c) (uc_max_header_bytes c) (uc_max_header_count c)
    (uc_max_body_bytes c) (uc_max_chunk_bytes c) (uc_buffer c) (uc_state c) (uc_remaining c)
    (uc_body_received c) comp cl.

Module Http1UpstreamCodec.

Definition init (request_method : str) (max_header_bytes max_header_count max_body_bytes
    max_chunk_bytes : Z) : result upstream_codec :=
  if (max_header_bytes <=? 0) || (max_header_count <=? 0)
  then Raise (ValueError (py "upstream header limits must be positive"))
  else Ok (UpstreamCodec (upper request_method) max_header_bytes max_header_count max_body_bytes
             max_chunk_bytes [] UHEAD 0 0 false false).

Abbreviation MU := (M upstream_codec).

(** [_finish]; the event is returned instead of appended. *)
Definition finish (trailers : list (str * str)) : MU upstream_event :=
  modify (u_set_state UCOMPLETE) ;;!
  modify (fun c => u_set_flags true (uc_closed c) c) ;;!
  ret (UEnd trailers).

(** The status line: version, status and reason bytes. *)
Definition parse_status_line (lines : list bytes) : result (bytes * Z * bytes) :=
  match lines with
  | [] => protocol_error (py "empty-status-line") (py "empty upstream status line")
  | line :: _ =>
      if bool_decide (line = [])
      then protocol_error (py "empty-status-line") (py "empty upstream status line")
      else
        match split_char_max 32 2 line with
        | version_bytes :: status_bytes :: rest =>
            let reason_bytes := default [] (hd_error rest) in
            if negb (str_in version_bytes [py "HTTP/1.0"; py "HTTP/1.1"])
            then protocol_error (py "bad-version") (py "unsupported upstream HTTP version")
            else if negb (len status_bytes =? 3)
            then protocol_error (py "bad-status") (py "upstream status must be three digits")
            else if existsb (fun value => (value <? 48) || (value >? 57)) status_bytes
            then protocol_error (py "bad-status") (py "upstream status is not decimal")
            else if contains_bad_value_byte reason_bytes
            then protocol_error (py "bad-reason") (py "unsafe upstream reason phrase")
            else
              let? status := int_of_digits status_bytes in
              if (status <? 100) || (status >? 999)
              then protocol_error (py "bad-status") (py "upstream status is out of range")
              else Ok (version_bytes, status, reason_bytes)
        | _ => protocol_error (py "bad-status-line") (py "invalid upstream status line")
        end
  end.

Definition parse_length (max_body_bytes : Z) (names : gmap (list Z) (list str)) : result Z :=
  match names !! py "content-length" with
  | None => Ok (-1)
  | Some lengths =>
      match lengths with
      | [raw] =>
          if char_in 44 raw || bool_decide (raw = [])
          then protocol_error (py "ambiguous-length") (py "ambiguous upstream length")
          else if existsb (fun c => (c <? 48) || (c >? 57)) raw
          then protocol_error (py "bad-length") (py "invalid upstream length")
          else
            let? content_length := int_of_digits raw in
            if content_length >? max_body_bytes
            then protocol_error (py "body-too-large") (py "upstream body limit exceeded")
            else Ok content_length
      | _ => protocol_error (py "ambiguous-length") (py "ambiguous upstream length")
      end
  end.

Definition parse_coding (content_length : Z) (names : gmap (list Z) (list str)) : result bool :=
  match names !! py "transfer-encoding" with
  | None => Ok false
  | Some values =>
      if content_length >=? 0
      then protocol_error (py "ambiguous-framing")
             (py "upstream sent both Transfer-Encoding and Content-Length")
      else if negb (bool_decide (Http1ServerCodec.tokens_of values = [py "chunked"]))
      then protocol_error (py "unsupported-transfer-coding")
             (py "only final chunked upstream coding is supported")
      else Ok true
  end.

(** The head, before the state the codec moves to. *)
Definition parse_head_event (c : upstream_codec) (block : bytes) : result response_head :=
  let lines := split_str CRLF block in
  let? (version_bytes, status, reason_bytes) := parse_status_line lines in
  let? (headers, names) :=
    as_protocol_error (fun _ => py "bad-header") (parse_headers (tail lines) (uc_max_header_count c)) in
  let? content_length := parse_length (uc_max_body_bytes c) names in
  let? chunked := parse_coding content_length names in
  let? version := decode_ascii version_bytes in
  let keep_alive := Http1ServerCodec.parse_keep_alive version names in
  let informational := (100 <=? status) && (status <? 200) in
  if status =? 101 then protocol_error (py "upgrade-rejected") (py "HTTP upgrade is not supported")
  else
    let body_expected :=
      negb (str_eqb (uc_request_method c) (py "HEAD") || informational
            || (status =? 204) || (status =? 304)) in
    Ok (UpstreamResponseHead status (latin1_text reason_bytes) version headers content_length chunked
          keep_alive informational body_expected).

Definition set_keep_alive (b : bool) (h : response_head) : response_head :=
  UpstreamResponseHead (rh_status h) (reason_phrase h) (rh_version h) (rh_headers h)
    (rh_content_length h) (rh_chunked h) b (informational h) (body_expected h).

Definition parse_head (block : bytes) : MU response_head :=
  let! c := get in
  let! head := lift (parse_head_event c block) in
  if informational head then modify (u_set_state UHEAD) ;;! ret head
  else if negb (body_expected head) || (rh_content_length head =? 0)
  then modify (u_set_state UFINAL_EMPTY) ;;! ret head
  else if rh_chunked head then modify (u_set_state UCHUNK_SIZE) ;;! ret head
  else if rh_content_length head >=? 0 then
    modify (fun c => u_set_body (rh_content_length head) (uc_body_received c) c) ;;!
    modify (u_set_state UFIXED_BODY) ;;!
    ret head
  else
    (* EOF framing cannot be returned to an idle keep-alive pool *)
    modify (u_set_state UUNTIL_EOF) ;;!
    ret (set_keep_alive false head).

(** One iteration: the events it appends, and whether the loop goes on. *)
Abbreviation iteration := (MU (list upstream_event * bool)).

(** [if self.buffer: raise ...; break] after the end of the response. *)
Definition end_response (evs : list upstream_event) : iteration :=
  let! c := get in
  if negb (bool_decide (uc_buffer c = []))
  then raise (ProxyProtocolError (py "pipelined-response") (py "unexpected response bytes"))
  else ret (evs, false).

Definition step_head : iteration :=
  let! c := get in
  let marker := find_double_crlf (uc_buffer c) in
  if marker <? 0 then
    if len (uc_buffer c) >? uc_max_header_bytes c
    then raise (ProxyProtocolError (py "headers-too-large") (py "upstream headers exceed limit"))
    else ret ([], false)
  else if marker + 4 >? uc_max_header_bytes c
  then raise (ProxyProtocolError (py "headers-too-large") (py "upstream headers exceed limit"))
  else
    let block := upto (uc_buffer c) marker in
    modify (u_set_buffer (from (uc_buffer c) (marker + 4))) ;;!
    let! head := parse_head block in
    if informational head then ret ([UHead head], true)
    else
      let! c := get in
      if bool_decide (uc_state c = UFINAL_EMPTY) then
        let! e := finish [] in
        end_response [UHead head; e]
      else ret ([UHead head], true).

(** The bytes a body state takes out of the buffer. *)
Definition take_body : MU (list upstream_event) :=
  let! c := get in
  let take := Z.min (uc_remaining c) (len (uc_buffer c)) in
  let chunk := upto (uc_buffer c) take in
  modify (u_set_buffer (from (uc_buffer c) take)) ;;!
  modify (u_set_body (uc_remaining c - take) (uc_body_received c + take)) ;;!
  ret (if bool_decide (chunk = []) then [] else [UBody chunk]).

Definition step_fixed_body : iteration :=
  let! c := get in
  if bool_decide (uc_buffer c = []) then ret ([], false)
  else
    let! evs := take_body in
    let! c := get in
    if uc_remaining c =? 0 then let! e := finish [] in end_response (evs ++ [e])
    else ret (evs, false).

Definition step_chunk_size : iteration :=
  let! c := get in
  let marker := find_crlf (uc_buffer c) in
  if marker <? 0 then
    if len (uc_buffer c) >? 128
    then raise (ProxyProtocolError (py "chunk-line-too-long") (py "upstream chunk line exceeds limit"))
    else ret ([], false)
  else if marker >? 128
  then raise (ProxyProtocolError (py "chunk-line-too-long") (py "upstream chunk line exceeds limit"))
  else
    let line := upto (uc_buffer c) marker in
    modify (u_set_buffer (from (uc_buffer c) (marker + 2))) ;;!
    let! size := lift (as_protocol_error (fun code => code) (parse_chunk_size_line line)) in
    if size >? uc_max_chunk_bytes c
    then raise (ProxyProtocolError (py "chunk-too-large") (py "upstream chunk limit exceeded"))
    else if uc_body_received c + size >? uc_max_body_bytes c
    then raise (ProxyProtocolError (py "body-too-large") (py "upstream body limit exceeded"))
    else if size =? 0 then modify (u_set_state UTRAILERS) ;;! ret ([], true)
    else
      modify (fun c => u_set_body size (uc_body_received c) c) ;;!
      modify (u_set_state UCHUNK_DATA) ;;!
      ret ([], true).

Definition step_chunk_data : iteration :=
  let! c := get in
  if bool_decide (uc_buffer c = []) then ret ([], false)
  else
    let! evs := take_body in
    let! c := get in
    (if uc_remaining c =? 0 then modify (u_set_state UCHUNK_CRLF) else ret tt) ;;!
    ret (evs, true).

Definition step_chunk_crlf : iteration :=
  let! c := get in
  if len (uc_buffer c) <? 2 then ret ([], false)
  else if negb (str_eqb (upto (uc_buffer c) 2) CRLF)
  then raise (ProxyProtocolError (py "bad-chunk-ending") (py "invalid upstream chunk ending"))
  else
    modify (u_set_buffer (from (uc_buffer c) 2)) ;;!
    modify (u_set_state UCHUNK_SIZE) ;;!
    ret ([], true).

Definition forbidden_trailers : list str := [py "content-length"; py "transfer-encoding"].

Definition step_trailers : iteration :=
  let! c := get in
  if (len (uc_buffer c) >=? 2) && str_eqb (upto (uc_buffer c) 2) CRLF then
    modify (u_set_buffer (from (uc_buffer c) 2)) ;;!
    let! e := finish [] in
    end_response [e]
  else
    let marker := find_double_crlf (uc_buffer c) in
    if marker <? 0 then
      if len (uc_buffer c) >? uc_max_header_bytes c
      then raise (ProxyProtocolError (py "trailers-too-large") (py "upstream trailers exceed limit"))
      else ret ([], false)
    else if marker + 4 >? uc_max_header_bytes c
    then raise (ProxyProtocolError (py "trailers-too-large") (py "upstream trailers exceed limit"))
    else
      let block := upto (uc_buffer c) marker in
      modify (u_set_buffer (from (uc_buffer c) (marker + 4))) ;;!
      let! (trailers, names) :=
        lift (as_protocol_error (fun _ => py "bad-trailer")
                (parse_headers (split_str CRLF block) (uc_max_header_count c))) in
      if existsb (fun forbidden => bool_decide (is_Some (names !! forbidden))) forbidden_trailers
      then raise (ProxyProtocolError (py "bad-trailer") (py "framing field in upstream trailer"))
      else let! e := finish (sanitize_hop_by_hop trailers) in end_response [e].

Definition step_until_eof : iteration :=
  let! c := get in
  if bool_decide (uc_buffer c = []) then ret ([], false)
  else
    modify (fun c => u_set_body (uc_remaining c) (uc_body_received c + len (uc_buffer c)) c) ;;!
    let! c := get in
    if uc_body_received c >? uc_max_body_bytes c
    then raise (ProxyProtocolError (py "body-too-large") (py "upstream body limit exceeded"))
    else
      modify (u_set_buffer []) ;;!
      ret ([UBody (uc_buffer c)], false).

Definition step : iteration :=
  let! c := get in
  match uc_state c with
  | UHEAD => step_head
  | UFIXED_BODY => step_fixed_body
  | UCHUNK_SIZE => step_chunk_size
  | UCHUNK_DATA => step_chunk_data
  | UCHUNK_CRLF => step_chunk_crlf
  | UTRAILERS => step_trailers
  | UUNTIL_EOF => step_until_eof
  | UCOMPLETE => ret ([], false)
  | UFINAL_EMPTY =>
      raise (ProxyProtocolError (py "codec-state") (py "unknown upstream codec state"))
  end.

Fixpoint feed_loop (fuel : nat) (events : list upstream_event) : MU (list upstream_event) :=
  match fuel with
  | O => raise out_of_fuel
  | S fuel' =>
      let! (evs, again) := step in
      if again then feed_loop fuel' (events ++ evs) else ret (events ++ evs)
  end.

Definition feed (data : bytes) : MU (list upstream_event) :=
  let! c := get in
  if uc_closed c || complete c then
    if negb (bool_decide (data = []))
    then raise (ProxyProtocolError (py "response-complete") (py "bytes after upstream response"))
    else ret []
  else
    modify (u_set_buffer (uc_buffer c ++ data)) ;;!
    let! c := get in
    feed_loop (S (length (uc_buffer c))) [].

Definition eof : MU (list upstream_event) :=
  modify (fun c => u_set_flags (complete c) true c) ;;!
  let! c := get in
  if bool_decide (uc_state c = UUNTIL_EOF) then
    let! events := (if negb (complete c) then feed [] else ret []) in
    let! e := finish [] in
    ret (events ++ [e])
  else if complete c then ret []
  else raise (ProxyProtocolError (py "incomplete-response") (py "upstream closed during response")).

End Http1UpstreamCodec.

(** ** The request head *)

(** The fields forwarded upstream, the new [Host] first. *)
Definition output_headers (forwarded : list (str * str)) (upstream_authority : str)
    (expect_continue_handled : bool) : list (str * str) :=
  (py "host", upstream_authority)
    :: List.filter (fun h =>
         let lower_name := lower (fst h) in
         negb (str_in lower_name [py "host"; py "content-length"; py "transfer-encoding"])
         && negb (expect_continue_handled && str_eqb lower_name (py "expect"))) forwarded.

Fixpoint encode_request_fields (hs : list (str * str)) : result bytes :=
  match hs with
  | [] => Ok []
  | (name, value) :: hs' =>
      let? name_bytes := encode_ascii name in
      let? value_bytes := encode_latin1 value in
      if negb (is_token name_bytes) || contains_bad_value_byte value_bytes
      then protocol_error (py "bad-header") (py "unsafe proxy request header")
      else
        let? rest := encode_request_fields hs' in
        Ok (name_bytes ++ py ": " ++ value_bytes ++ CRLF ++ rest)
  end.

Definition encode_proxy_request_head (method target : str) (headers : list (str * str))
    (upstream_authority client_ip scheme original_host : str) (content_length : Z) (chunked : bool)
    (trust_forwarded expect_continue_handled : bool) : result bytes :=
  let? method_bytes := encode_ascii method in
  let? target_bytes := encode_latin1 target in
  if negb (is_token method_bytes) || bool_decide (target_bytes = [])
  then protocol_error (py "bad-request") (py "invalid proxy request line")
  else if existsb (fun value => (value <=? 32) || (value =? 127)) target_bytes
  then protocol_error (py "bad-target") (py "unsafe proxy target")
  else if bool_decide (upstream_authority = [])
  then protocol_error (py "bad-upstream") (py "upstream authority is required")
  else if (content_length <? 0) && negb chunked
  then protocol_error (py "unknown-framing") (py "unknown request length must be chunked")
  else if (content_length >=? 0) && chunked
  then protocol_error (py "ambiguous-framing") (py "proxy request framing is ambiguous")
  else
    let forwarded :=
      forwarded_request_headers headers client_ip scheme original_host trust_forwarded in
    let? fields :=
      encode_request_fields (output_headers forwarded upstream_authority expect_continue_handled) in
    let? framing :=
      if chunked then Ok (py "transfer-encoding: chunked" ++ CRLF)
      else encode_ascii (py "content-length: " ++ str_of_int content_length ++ CRLF) in
    Ok (method_bytes ++ py " " ++ target_bytes ++ py " HTTP/1.1" ++ CRLF ++ fields ++ framing ++ CRLF).

(** ** [ProxyDeadline] *)

Inductive proxy_stage := STAGE_CONNECT | STAGE_REQUEST_BODY | STAGE_HEADER | STAGE_BODY
  | STAGE_IDLE | STAGE_DONE.
#[global] Instance proxy_stage_eq_dec : EqDecision proxy_stage.
Proof. solve_decision. Defined.

Record proxy_deadline := ProxyDeadline {
  dl_timeouts : proxy_timeouts;
  dl_stage : proxy_stage;
  dl_deadline_ms : Z;
  dl_cancelled : bool;
}.

Module ProxyDeadline.
Definition set_stage (s : proxy_stage) (d : Z) (x : proxy_deadline) : proxy_deadline :=
  ProxyDeadline (dl_timeouts x) s d (dl_cancelled x).
Definition init (t : proxy_timeouts) (now_ms : Z) : proxy_deadline :=
  ProxyDeadline t STAGE_CONNECT (now_ms + connect_ms t) false.
Definition connected (now_ms : Z) (x : proxy_deadline) : proxy_deadline :=
  set_stage STAGE_HEADER (now_ms + header_ms (dl_timeouts x)) x.
Definition request_body (deadline_ms : Z) (x : proxy_deadline) : proxy_deadline :=
  set_stage STAGE_REQUEST_BODY deadline_ms x.
Definition response_head (now_ms : Z) (body_expected : bool) (x : proxy_deadline) : proxy_deadline :=
  if body_expected then set_stage STAGE_BODY (now_ms + body_ms (dl_timeouts x)) x
  else set_stage STAGE_DONE (-1) x.
Definition body_progress (now_ms : Z) (x : proxy_deadline) : proxy_deadline :=
  if bool_decide (dl_stage x = STAGE_BODY)
  then set_stage (dl_stage x) (now_ms + idle_ms (dl_timeouts x)) x else x.
Definition finish (x : proxy_deadline) : proxy_deadline := set_stage STAGE_DONE (-1) x.
Definition cancel (x : proxy_deadline) : proxy_deadline :=
  ProxyDeadline (dl_timeouts x) (dl_stage x) (-1) true.
Definition expired (now_ms : Z) (x : proxy_deadline) : bool :=
  negb (dl_cancelled x) && (dl_deadline_ms x >=? 0) && (now_ms >=? dl_deadline_ms x).
Definition failure (x : proxy_deadline) : str :=
  match dl_stage x with
  | STAGE_CONNECT => py "connect-timeout"
  | STAGE_REQUEST_BODY => py "request-body-timeout"
  | STAGE_HEADER => py "header-timeout"
  | _ => py "body-timeout"
  end.
End ProxyDeadline.
