(* ===== verification/ProxyHttp1Spec.v ===== *)
(** * Properties of the HTTP/1 proxy transport

    The request head the proxy writes is read back by the request decoder of [Http1] as one
    request, with the framing the proxy chose: a client cannot smuggle a second one. The
    decoder of upstream responses ends on every input and keeps to its limits. *)

From S2P Require Import Prelude PyStr PyLists Buffer Http1 PyStrFacts Http1Parse Http1Wire.
From S2P Require Import Http1Encode DnsPolicy Proxy ProxyHttp1.
#[local] Open Scope Z_scope.
Import Http1ServerCodec.

(** ** The request head on the wire *)

Definition request_line (method target : str) : bytes := method ++ py " " ++ target ++ py " HTTP/1.1".
Definition framing_field (content_length : Z) (chunked : bool) : str * str :=
  if chunked then (py "transfer-encoding", py "chunked") else (py "content-length", str_of_int content_length).
(** The fields of the head, in order. *)
Definition proxy_fields (headers : list (str * str)) (authority client_ip scheme original_host : str)
    (content_length : Z) (chunked trust handled : bool) : list (str * str) :=
  output_headers (forwarded_request_headers headers client_ip scheme original_host trust) authority handled
    ++ [framing_field content_length chunked].

Lemma encode_request_fields_inv hs : forall bs, encode_request_fields hs = Ok bs ->
  bs = wire (map field_line hs) /\ Forall sendable hs.
Proof.
  induction hs as [|[n v] hs IH]; intros bs; cbn [encode_request_fields]; [by intros [= <-]|].
  destruct (encode_ascii n) as [nb|] eqn:En; [|done]. destruct (encode_latin1 v) as [vb|] eqn:Ev; [|done]. cbn [rbind].
  destruct (encode_below_inv _ _ _ En) as [-> _], (encode_below_inv _ _ _ Ev) as [-> _].
  destruct (negb (is_token n) || _) eqn:Eg; [done|]. b2p.
  destruct (encode_request_fields hs) as [rest|]; cbn [rbind]; [|done]. intros <-%Ok_inj. destruct (IH rest eq_refl) as [-> Hs]. split.
  - cbn [map]. rewrite wire_cons. unfold field_line. cbn [fst snd]. by rewrite <- !app_assoc.
  - constructor; [by split|done].
Qed.

Lemma framing_field_sendable cl ch : sendable (framing_field cl ch).
Proof. unfold framing_field. destruct ch; [done|]. split; [done|apply digits_clean]. Qed.

Lemma request_head_wire m tg hs au ip sch oh cl ch tr hd bs :
  encode_proxy_request_head m tg hs au ip sch oh cl ch tr hd = Ok bs ->
  bs = wire (request_line m tg :: map field_line (proxy_fields hs au ip sch oh cl ch tr hd)) ++ CRLF /\
  Forall sendable (proxy_fields hs au ip sch oh cl ch tr hd) /\ is_token m = true /\ tg <> [] /\
  Forall (fun c => 32 < c /\ c <> 127) tg /\ (ch = false <-> 0 <= cl).
Proof.
  unfold encode_proxy_request_head. destruct (encode_ascii m) as [mb|] eqn:Em; [|done].
  destruct (encode_latin1 tg) as [tb|] eqn:Et; [|done]. cbn [rbind].
  destruct (encode_below_inv _ _ _ Em) as [-> _], (encode_below_inv _ _ _ Et) as [-> _].
  destruct (negb (is_token m) || _) eqn:E1; [done|]. destruct (existsb _ tg) eqn:E2; [done|].
  destruct (bool_decide (au = [])); [done|]. destruct ((cl <? 0) && negb ch) eqn:E3; [done|]. destruct ((cl >=? 0) && ch) eqn:E4; [done|].
  destruct (encode_request_fields _) as [fs|] eqn:Ef; cbn [rbind]; [|done]. destruct (encode_request_fields_inv _ _ Ef) as [-> Hs].
  assert ((if ch then Ok (py "transfer-encoding: chunked" ++ CRLF) else encode_ascii (py "content-length: " ++ str_of_int cl ++ CRLF))
          = Ok (wire [field_line (framing_field cl ch)])) as ->.
  { destruct ch; [done|]. unfold encode_ascii. rewrite encode_below_ok.
    - unfold wire, field_line, framing_field. cbn [map concat fst snd]. rewrite app_nil_r. by rewrite <- !app_assoc.
    - pose proof (str_of_int_text cl). repeat (apply Forall_app; split); try by repeat constructor.
      eapply Forall_impl; [eassumption|]. simpl. lia. }
  cbn [rbind]. intros <-%Ok_inj. b2p. split_and!; try done.
  - unfold proxy_fields. rewrite (wire_cons (request_line m tg)), map_app, wire_app. unfold request_line. by rewrite <- !app_assoc.
  - apply Forall_app. split; [done|]. apply Forall_singleton, framing_field_sendable.
  - eapply existsb_false_Forall; [|exact E2]. intros x Hx. cbn in Hx. b2p. lia.
  - split; [intros ->|intros Hcl; destruct ch; [|done]]; [|b2p]; [destruct (cl <? 0) eqn:E; b2p; [done|lia]|].
    destruct (cl >=? 0) eqn:E; b2p; [done|lia].
Qed.

(** ** Reading it back *)

Lemma values_received_skip n hs ks :
  Forall (fun h => lower (fst h) <> n) hs -> values_of n (map received (hs ++ ks)) = values_of n (map received ks).
Proof.
  induction 1 as [|h hs Hh _ IH]; [done|]. cbn [app map]. unfold values_of in *. cbn [List.filter].
  destruct (str_eqb (fst (received h)) n) eqn:E; [|done]. by apply bool_decide_eq_true in E.
Qed.

Lemma indexes_values hs names n v vs : indexes hs names -> values_of n hs = v :: vs -> names !! n = Some (v :: vs).
Proof. intros Hi Hv. destruct (Hi n) as [H1 _]. destruct (names !! n); cbn in H1; congruence. Qed.
Lemma indexes_no_values hs names n : indexes hs names -> values_of n hs = [] -> names !! n = None.
Proof.
  intros Hi Hv. destruct (names !! n) as [vs|] eqn:E; [|done]. destruct (Hi n) as [_ [H2 _]].
  destruct H2 as [v Hin]; [by eexists|]. exfalso. apply not_elem_of_nil with (x := v). rewrite <- Hv. unfold values_of.
  apply list_elem_of_fmap. exists (n, v). split; [done|]. apply list_elem_of_In, filter_In. split; [by apply list_elem_of_In|].
  by apply bool_decide_eq_true.
Qed.

Lemma values_of_cons n h hs :
  values_of n (map received (h :: hs)) =
    (if bool_decide (lower (fst h) = n) then [strip_by is_sp_tab (snd h)] else [])
    ++ values_of n (map received hs).
Proof. unfold values_of, str_eqb. cbn [map List.filter received fst]. by destruct (bool_decide _). Qed.
Ltac value_hit := rewrite values_of_cons, bool_decide_eq_true_2 by (vm_compute; reflexivity).
Ltac value_miss := rewrite values_of_cons, bool_decide_eq_false_2 by (vm_compute; discriminate).

(** The values of the fields that frame and route the request. *)
Lemma proxy_fields_values hs au ip sch oh cl ch tr hd :
  let fields := map received (proxy_fields hs au ip sch oh cl ch tr hd) in
  values_of (py "host") fields = [strip_by is_sp_tab au] /\
  values_of (py "content-length") fields = (if ch then [] else [str_of_int cl]) /\
  values_of (py "transfer-encoding") fields = (if ch then [py "chunked"] else []) /\
  (hd = true -> values_of (py "expect") fields = []).
Proof.
  unfold proxy_fields, output_headers. set (fwd := List.filter _ _). cbv zeta.
  assert (Forall (fun h => (lower (fst h) ∉ [py "host"; py "content-length"; py "transfer-encoding"]) /\
                           (hd = true -> lower (fst h) <> py "expect")) fwd) as Hf.
  { apply Forall_forall. intros h Hin%list_elem_of_In. apply filter_In in Hin as [_ [H1 H2]%andb_true_iff].
    apply negb_true_iff, bool_decide_eq_false in H1. apply negb_true_iff in H2. split; [exact H1|]. intros ->.
    by apply bool_decide_eq_false in H2. }
  clearbody fwd. rewrite <- app_comm_cons.
  assert (forall n, n ∈ [py "host"; py "content-length"; py "transfer-encoding"] \/ n = py "expect" /\ hd = true ->
            values_of n (map received (fwd ++ [framing_field cl ch])) = values_of n (map received [framing_field cl ch])) as Hv.
  { intros n Hn. apply values_received_skip. eapply Forall_impl; [exact Hf|]. cbn. intros h [H1 H2].
    destruct Hn as [Hn|[-> ->]]; [by intros <-|by apply H2]. }
  split_and!.
  - value_hit. rewrite Hv by (left; by left). unfold framing_field. destruct ch; by value_miss.
  - value_miss. rewrite Hv by (left; right; by left). unfold framing_field.
    destruct ch; [by value_miss|]. value_hit. cbn [app snd]. by rewrite strip_digits.
  - value_miss. rewrite Hv by (left; right; right; by left). unfold framing_field. destruct ch; [by value_hit|by value_miss].
  - intros ->. value_miss. rewrite Hv by (by right). unfold framing_field. destruct ch; by value_miss.
Qed.

Lemma request_line_parses mx m tg lines :
  is_token m = true -> at_is tg 0 47 = true -> Forall (fun c => 32 < c /\ c <> 127) tg -> len (request_line m tg) <= mx ->
  parse_request_line mx (request_line m tg :: lines) = Ok (m, tg, py "HTTP/1.1").
Proof.
  intros Hm H0 Ht Hl. unfold parse_request_line. destruct (is_token_inv _ Hm) as [Hne Hf].
  assert (tg <> []) as Hne' by (by destruct tg). assert (0 < len tg).
  { destruct tg; [done|]. rewrite len_cons. pose proof (len_nonneg tg). lia. }
  assert (Forall (fun c => 32 < c /\ c <> 127) m) as Hmc.
  { eapply Forall_impl; [exact Hf|]. cbn. intros c Hc%is_tchar_range. lia. }
  assert (forall c l, 0 <= c <= 32 -> Forall (fun c => 32 < c /\ c <> 127) l -> c ∉ l) as Hfree.
  { intros c l Hc Hl' Hin. rewrite Forall_forall in Hl'. specialize (Hl' c Hin). cbn in Hl'. lia. }
  assert (len (request_line m tg) <> 0).
  { unfold request_line. lens. pose proof (len_nonneg m). pose proof (len_nonneg (py " HTTP/1.1")). pose proof (len_nonneg (py " ")). lia. }
  rewrite (proj2 (Z.eqb_neq _ _)) by done. rewrite Z.gtb_ltb, (proj2 (Z.ltb_ge _ _)) by done.
  assert (char_in 9 (request_line m tg) = false) as ->.
  { apply char_in_false. unfold request_line. rewrite !not_elem_of_app. split_and!; try (apply Hfree; done || lia).
    all: apply char_in_false; reflexivity. }
  unfold request_line. change (m ++ py " " ++ tg ++ py " HTTP/1.1") with (m ++ 32 :: (tg ++ 32 :: py "HTTP/1.1")).
  rewrite !split_char_app by (apply Hfree; done || lia). rewrite split_char_single by (apply char_in_false; reflexivity).
  rewrite Hm, H0. cbn [negb]. rewrite (proj2 (Z.eqb_neq (len tg) 0)) by lia.
  assert (existsb (fun value => (value <=? 32) || (value =? 127)) tg = false) as ->; [|done].
  apply not_true_iff_false. intros (x & Hx%list_elem_of_In & Hb)%existsb_exists. rewrite Forall_forall in Ht. specialize (Ht x Hx). cbn in Ht.
  revert Hb. by zdec.
Qed.

(** The head the decoder makes of it, if it accepts the [Expect] field. *)
Definition proxied_head (m tg : str) (hs : list (str * str)) (au ip sch oh : str) (cl : Z) (ch tr hd : bool)
    (keep expect : bool) : request_head :=
  RequestHead m tg (py "HTTP/1.1") (map received (proxy_fields hs au ip sch oh cl ch tr hd)) keep expect
    (if ch then -1 else cl) ch.
(** A decoder whose limits the request is within. *)
Record accepts (c : codec) (m tg : str) (fields : list (str * str)) (cl : Z) : Prop := {
  ac_line : len (request_line m tg) <= max_request_line c;
  ac_count : len fields <= max_header_count c;
  ac_body : cl <= max_body_bytes c;
  ac_digits : len (str_of_int cl) <= int_max_str_digits;
}.

Lemma proxied_length c cl ch names fields :
  indexes fields names -> (ch = false <-> 0 <= cl) ->
  values_of (py "content-length") fields = (if ch then [] else [str_of_int cl]) ->
  values_of (py "transfer-encoding") fields = (if ch then [py "chunked"] else []) ->
  cl <= max_body_bytes c -> len (str_of_int cl) <= int_max_str_digits ->
  parse_content_length (max_body_bytes c) names = Ok (if ch then -1 else cl) /\
  parse_transfer_encoding (if ch then -1 else cl) names = Ok ch.
Proof.
  intros Hi Hcl Vc Vt Hb Hd. unfold parse_content_length, parse_transfer_encoding. destruct ch.
  - rewrite (indexes_no_values _ _ _ Hi Vc), (indexes_values _ _ _ _ _ Hi Vt). by vm_compute.
  - assert (0 <= cl) as H0 by tauto. rewrite (indexes_values _ _ _ _ _ Hi Vc), (indexes_no_values _ _ _ Hi Vt).
    pose proof (str_of_int_chars cl H0) as Hc. split; [|done].
    assert (char_in 44 (str_of_int cl) = false) as ->.
    { apply char_in_false. intros Hin. rewrite Forall_forall in Hc. specialize (Hc 44 Hin). cbn in Hc. lia. }
    rewrite (proj2 (Z.eqb_neq _ _)) by (intros ?%len_zero_nil; by apply (str_of_int_ne cl)).
    assert (existsb (fun c => (c <? 48) || (c >? 57)) (str_of_int cl) = false) as ->.
    { apply not_true_iff_false. intros (x & Hx%list_elem_of_In & Hb')%existsb_exists. rewrite Forall_forall in Hc.
      specialize (Hc x Hx). cbn in Hc. revert Hb'. by zdec. }
    unfold int_of_digits. zdec. cbn [rbind]. rewrite decimal_value_str_of_int by done. by zdec.
Qed.

(** C18: the proxy cannot be made to smuggle.  If the client's request is encoded for the
    upstream, whatever its method, target and headers were and whatever bytes follow, the
    first blank line on the wire ends the encoded head, and the decoder of [Http1], within
    its limits, reads from it exactly that method and target, the forwarded fields, one
    [Host], the upstream authority, and the one framing the proxy chose, never two; it
    refuses only an [Expect] field the gateway did not take over itself. *)
Theorem request_head_unambiguous m tg hs au ip sch oh cl ch tr hd bs k c :
  encode_proxy_request_head m tg hs au ip sch oh cl ch tr hd = Ok bs -> at_is tg 0 47 = true ->
  accepts c m tg (proxy_fields hs au ip sch oh cl ch tr hd) cl ->
  find_double_crlf (bs ++ k) = len bs - 4 /\ from (bs ++ k) (len bs - 4 + 4) = k /\
  let fields := map received (proxy_fields hs au ip sch oh cl ch tr hd) in
  values_of (py "host") fields = [strip_by is_sp_tab au] /\
  values_of (py "content-length") fields = (if ch then [] else [str_of_int cl]) /\
  values_of (py "transfer-encoding") fields = (if ch then [py "chunked"] else []) /\
  match parse_head_event c (upto (bs ++ k) (len bs - 4)) with
  | Ok h => exists keep expect, h = proxied_head m tg hs au ip sch oh cl ch tr hd keep expect
  | Raise e => hd = false /\ e = Http1Error 417 (py "unsupported-expectation") (py "unsupported Expect value")
  end.
Proof.
  intros He H0 [A1 A2 A3 A4]. destruct (request_head_wire _ _ _ _ _ _ _ _ _ _ _ _ He) as (-> & Hs & Hm & Hne & Ht & Hch).
  destruct (proxy_fields_values hs au ip sch oh cl ch tr hd) as (Vh & Vc & Vt & Vx).
  set (fs := proxy_fields hs au ip sch oh cl ch tr hd) in *. set (ls := request_line m tg :: map field_line fs).
  assert (Forall line_ok ls) as Hok.
  { constructor; [|by apply fields_block]. split; [by destruct m|]. unfold request_line, cr_free.
    rewrite !Forall_app. split_and!; [by apply token_cr_free|by repeat constructor| |by repeat constructor].
    eapply Forall_impl; [exact Ht|]. cbn. lia. }
  rewrite <- app_assoc. lens. change (len CRLF) with 2. replace (len (wire ls) + 2 - 4) with (len (wire ls) - 2) by lia.
  destruct (wire_block ls k ltac:(done)) as [Hu Hf]. split; [by apply find_double_wire|]. split; [exact Hf|]. cbv zeta.
  split; [exact Vh|]. split; [exact Vc|]. split; [exact Vt|]. rewrite Hu. unfold parse_head_event. rewrite split_join; [|done|by eapply Forall_impl; [exact Hok|]; intros x [_ ?]].
  unfold ls at 1. rewrite request_line_parses by done. cbn [rbind]. unfold ls. cbn [tail].
  destruct (parse_fields (max_header_count c) fs [] ∅ Hs ltac:(lens; lia) indexes_empty) as (names & Ep & Hi). cbn [app] in *.
  unfold parse_headers. rewrite Ep. cbn [rbind].
  unfold check_host. rewrite (indexes_values _ _ _ _ _ Hi Vh). rewrite (bool_decide_eq_false_2 (Some _ = None)), andb_false_r by done.
  change (len [strip_by is_sp_tab au] =? 1) with true. cbn [negb rbind].
  destruct (proxied_length c cl ch names _ Hi Hch Vc Vt A3 A4) as [-> Ete]. cbn [rbind]. rewrite Ete. cbn [rbind].
  change (utf8_decode (py "HTTP/1.1")) with (Ok (py "HTTP/1.1")). cbn [rbind].
  destruct (parse_expect names) as [ex|e] eqn:Ex; cbn [rbind].
  - rewrite utf8_decode_ascii by (by apply is_token_ascii). cbn [rbind]. eexists _, ex. unfold proxied_head. f_equal.
    destruct ch; [done|]. cbn [orb]. destruct (cl >=? 0) eqn:E; b2p; [done|lia].
  - unfold parse_expect, bad_request in Ex. destruct hd.
    + by rewrite (indexes_no_values _ _ _ Hi (Vx eq_refl)) in Ex.
    + destruct (names !! _); [|done]. destruct (negb _); [|done]. by injection Ex.
Qed.

Definition sample_client_headers : list (str * str) :=
  [(py "Host", py "gateway"); (py "Connection", py "close, X-Drop"); (py "X-Drop", py "1");
   (py "Content-Length", py "99"); (py "Transfer-Encoding", py "chunked"); (py "Accept", py "*/*")].
Lemma request_head_unambiguous_witness :
  exists bs, encode_proxy_request_head (py "POST") (py "/a") sample_client_headers (py "up:80") (py "1.2.3.4") (py "http")
               (py "gateway") 5 false false true = Ok bs /\
    find_double_crlf (bs ++ py "hello") = len bs - 4 /\ from (bs ++ py "hello") (len bs - 4 + 4) = py "hello".
Proof.
  destruct (encode_proxy_request_head (py "POST") (py "/a") sample_client_headers (py "up:80") (py "1.2.3.4") (py "http")
    (py "gateway") 5 false false true) as [bs|e] eqn:E; [|exfalso; vm_compute in E; discriminate E].
  exists bs. split; [reflexivity|].
  destruct (request_head_unambiguous (py "POST") (py "/a") sample_client_headers (py "up:80") (py "1.2.3.4") (py "http")
    (py "gateway") 5 false false true bs (py "hello") (Codec 100 1000 20 1000 100 [] HEAD 0 0 false) E eq_refl)
    as (H1 & H2 & _); [constructor; vm_compute; intros H; discriminate H|]. split; [exact H1|exact H2].
Defined.

(** ** The decoder of upstream responses *)

(** Where a response is: before its head, in its body with [n] bytes so far, or ended. *)
Inductive phase := PHead | PBody (h : response_head) (n : Z) | PDone.

(** The body has the declared length: none when none is allowed, all of it when counted. *)
Definition ends_ok (h : response_head) (n : Z) : bool :=
  if negb (body_expected h) then n =? 0 else rh_chunked h || (rh_content_length h <? 0) || (n =? rh_content_length h).
Definition advance (max_body : Z) (p : phase) (e : upstream_event) : option phase :=
  match p, e with
  | PHead, UHead h => Some (if informational h then PHead else PBody h 0)
  | PBody h n, UBody d =>
      if body_expected h && negb (bool_decide (d = [])) && (n + len d <=? max_body) then Some (PBody h (n + len d)) else None
  | PBody h n, UEnd _ => if ends_ok h n then Some PDone else None
  | _, _ => None
  end.
Fixpoint advances (max_body : Z) (p : phase) (es : list upstream_event) : option phase :=
  match es with
  | [] => Some p
  | e :: es' => match advance max_body p e with Some p' => advances max_body p' es' | None => None end
  end.

Lemma advances_app mx es es' : forall p p', advances mx p es = Some p' -> advances mx p (es ++ es') = advances mx p' es'.
Proof. induction es as [|e es IH]; intros p p'; cbn; [by intros [= ->]|]. destruct (advance mx p e); [apply IH|done]. Qed.

(** The errors of the decoder: its own, or the refusal of an over-long [Content-Length]. *)
Definition upstream_exn (e : exn) : Prop := (exists c m, e = ProxyProtocolError c m) \/ e = digits_error.

(** How the state of the decoder stands for the phase. *)
Record in_body (c : upstream_codec) (p : phase) (h : response_head) : Prop := {
  ib_phase : p = PBody h (uc_body_received c);
  ib_expected : body_expected h = true;
  ib_open : complete c = false;
}.
Definition linked (c : upstream_codec) (p : phase) : Prop :=
  match uc_state c with
  | UHEAD => p = PHead /\ uc_body_received c = 0 /\ complete c = false
  | UFIXED_BODY => exists h, in_body c p h /\ 0 < uc_remaining c /\ rh_chunked h = false /\
      uc_body_received c + uc_remaining c = rh_content_length h /\ rh_content_length h <= uc_max_body_bytes c
  | UCHUNK_SIZE | UCHUNK_CRLF | UTRAILERS => exists h, in_body c p h /\ rh_chunked h = true
  | UCHUNK_DATA => exists h, in_body c p h /\ rh_chunked h = true /\ 0 < uc_remaining c /\
      uc_body_received c + uc_remaining c <= uc_max_body_bytes c
  | UUNTIL_EOF => exists h, in_body c p h /\ rh_chunked h = false /\ rh_content_length h < 0
  | UCOMPLETE => p = PDone /\ complete c = true
  | UFINAL_EMPTY => False
  end.

(** What an iteration promises: legal events, and progress if it goes on. *)
Definition stepped (c : upstream_codec) (p : phase) (r : list upstream_event * bool) (c' : upstream_codec) : Prop :=
  (exists p', advances (uc_max_body_bytes c) p (fst r) = Some p' /\ linked c' p') /\
  uc_max_body_bytes c' = uc_max_body_bytes c /\ (snd r = true -> len (uc_buffer c') < len (uc_buffer c)).
Definition step_ok (m : M upstream_codec (list upstream_event * bool)) (c : upstream_codec) (p : phase) : Prop :=
  wp m (stepped c p) (fun e _ => upstream_exn e) c.

Lemma protocol_exn code msg : upstream_exn (ProxyProtocolError code msg).
Proof. left. by exists code, msg. Qed.
#[local] Hint Resolve protocol_exn : core.
Lemma as_protocol_exn {A} code (r : result A) e :
  (forall e', r = Raise e' -> is_Http1Error e' = true) -> as_protocol_error code r = Raise e -> upstream_exn e.
Proof.
  intros Hr. destruct r as [a|e']; cbn; [done|]. specialize (Hr e' eq_refl). destruct e'; try done. by intros [= <-].
Qed.
Lemma as_protocol_ok {A} code (r : result A) a : as_protocol_error code r = Ok a -> r = Ok a.
Proof. destruct r as [b|[]]; cbn; done. Qed.

Lemma status_line_exn lines e : Http1UpstreamCodec.parse_status_line lines = Raise e -> upstream_exn e.
Proof.
  unfold Http1UpstreamCodec.parse_status_line, protocol_error. destruct lines as [|l lines]; [by intros [= <-]|].
  destruct (bool_decide _); [by intros [= <-]|]. destruct (split_char_max _ _ _) as [|v [|st rest]]; try by intros [= <-].
  destruct (negb (str_in _ _)); [by intros [= <-]|]. destruct (Z.eqb_spec (len st) 3) as [El|]; cbn [negb]; [|by intros [= <-]].
  destruct (existsb _ _); [by intros [= <-]|]. destruct (contains_bad_value_byte _); [by intros [= <-]|].
  unfold int_of_digits. rewrite El. change (int_max_str_digits <? 3) with false. cbn [rbind].
  destruct (_ || _); [by intros [= <-]|done].
Qed.
Lemma status_line_version lines v st r : Http1UpstreamCodec.parse_status_line lines = Ok (v, st, r) -> is_ascii v.
Proof.
  unfold Http1UpstreamCodec.parse_status_line, protocol_error. destruct lines as [|l lines]; [done|].
  destruct (bool_decide _); [done|]. destruct (split_char_max _ _ _) as [|v' [|st' rest]]; try done.
  destruct (str_in v' _) eqn:Ev; cbn [negb]; [|done]. destruct (negb _); [done|]. destruct (existsb _ _); [done|].
  destruct (contains_bad_value_byte _); [done|]. destruct (int_of_digits _); cbn [rbind]; [|done].
  destruct (_ || _); [done|]. intros [= <- _ _]. apply bool_decide_eq_true in Ev.
  rewrite !elem_of_cons in Ev. destruct Ev as [->|[->|Hn]]; [by repeat constructor..|]. by apply not_elem_of_nil in Hn.
Qed.

Lemma upstream_length_spec mx names :
  match Http1UpstreamCodec.parse_length mx names with Ok n => n = -1 \/ n <= mx | Raise e => upstream_exn e end.
Proof.
  unfold Http1UpstreamCodec.parse_length, protocol_error. destruct (names !! _) as [ls|]; [|by left].
  destruct ls as [|raw [|]]; try done. destruct (_ || _); [done|]. destruct (existsb _ _); [done|].
  unfold int_of_digits. destruct (_ <? _); cbn [rbind]; [by right|]. destruct (_ >? _) eqn:E; [done|]. b2p. by right.
Qed.

(** What a decoded head says of the body that follows. *)
Lemma upstream_head_spec c block :
  match Http1UpstreamCodec.parse_head_event c block with
  | Ok h => (rh_chunked h = true -> rh_content_length h < 0) /\
            (rh_content_length h = -1 \/ rh_content_length h <= uc_max_body_bytes c) /\
            (informational h = true -> body_expected h = false)
  | Raise e => upstream_exn e
  end.
Proof.
  unfold Http1UpstreamCodec.parse_head_event.
  destruct (Http1UpstreamCodec.parse_status_line _) as [[[v st] reason]|e] eqn:Es; cbn [rbind]; [|by eapply status_line_exn].
  destruct (as_protocol_error _ (parse_headers _ _)) as [[hs names]|e] eqn:Eh; cbn [rbind].
  2:{ eapply as_protocol_exn; [|exact Eh]. intros e' E'. pose proof (parse_headers_spec (uc_max_header_count c) (tail (split_str CRLF block))) as Hp.
      by rewrite E' in Hp. }
  pose proof (upstream_length_spec (uc_max_body_bytes c) names) as Hl.
  destruct (Http1UpstreamCodec.parse_length _ _) as [n|e]; cbn [rbind]; [|done].
  destruct (Http1UpstreamCodec.parse_coding n names) as [ch|e] eqn:Ec; cbn [rbind].
  2:{ unfold Http1UpstreamCodec.parse_coding, protocol_error in Ec. destruct (names !! _); [|done].
      destruct (_ >=? _); [by injection Ec as <-|]. destruct (negb _); [by injection Ec as <-|done]. }
  unfold decode_ascii. rewrite encode_below_ok.
  2:{ eapply Forall_impl; [exact (status_line_version _ _ _ _ Es)|]. cbn. lia. }
  cbn [rbind]. destruct (st =? 101); [by apply protocol_exn|]. cbn. split; [|split; [done|]].
  - intros ->. unfold Http1UpstreamCodec.parse_coding, protocol_error in Ec. destruct (names !! _); [|done].
    destruct (n >=? 0) eqn:E; [done|]. b2p. done.
  - intros ->. by rewrite orb_true_r.
Qed.

(** *** Each state *)

Lemma stepped_stop c p c' : linked c' p -> uc_max_body_bytes c' = uc_max_body_bytes c -> stepped c p ([], false) c'.
Proof. intros Hl Hm. split; [by exists p|]. by split. Qed.

(** [end_response] after the last event: nothing may follow. *)
Lemma end_response_spec evs c Q : Q (evs, false) c -> wp (Http1UpstreamCodec.end_response evs) Q (fun e _ => upstream_exn e) c.
Proof. intros HQ. apply wp_bind, wp_get. destruct (negb _); [by apply wp_raise|by apply wp_ret]. Qed.
Lemma finish_spec trailers c Q :
  Q (UEnd trailers) (u_set_flags true (uc_closed c) (u_set_state UCOMPLETE c)) ->
  wp (Http1UpstreamCodec.finish trailers) Q (fun e _ => upstream_exn e) c.
Proof. done. Qed.

Lemma len_upto_from {A} (l : list A) n : 0 <= n -> len (from l n) = Z.max 0 (len l - n).
Proof. apply len_from. Qed.

Lemma upstream_step_head c p : linked c p -> uc_state c = UHEAD -> step_ok Http1UpstreamCodec.step_head c p.
Proof.
  intros Hl Es. pose proof Hl as Hl'. unfold linked in Hl'. rewrite Es in Hl'. destruct Hl' as (-> & Hrec & Hopen).
  unfold step_ok, Http1UpstreamCodec.step_head. apply wp_bind, wp_get. cbv zeta.
  destruct (find_double_crlf (uc_buffer c) <? 0) eqn:Em.
  { destruct (_ >? _); [by apply wp_raise|]. apply wp_ret. by apply stepped_stop. }
  destruct (_ >? _); [by apply wp_raise|]. b2p.
  pose proof (find_seq_bound CRLF2 (uc_buffer c) Em) as Hb. change (len CRLF2) with 4 in Hb. fold (find_double_crlf (uc_buffer c)) in Hb.
  apply wp_bind, wp_modify. set (c1 := u_set_buffer _ c).
  assert (len (uc_buffer c1) < len (uc_buffer c)) as Hlt by (unfold c1; cbn; rewrite len_from by lia; lia).
  apply wp_bind, wp_bind, wp_get, wp_bind, wp_lift.
  pose proof (upstream_head_spec c1 (upto (uc_buffer c) (find_double_crlf (uc_buffer c)))) as Hh.
  destruct (Http1UpstreamCodec.parse_head_event _ _) as [h|e]; [|done]. destruct Hh as (Hch & Hcl & Hinf).
  destruct (informational h) eqn:Ei.
  { apply wp_bind, wp_modify, wp_ret. rewrite Ei. apply wp_ret. split; [|by split; [|intros _]].
    exists PHead. cbn [fst advances advance]. rewrite Ei. split; [done|]. by repeat split. }
  destruct (negb (body_expected h) || (rh_content_length h =? 0)) eqn:Ee.
  { apply wp_bind, wp_modify, wp_ret. rewrite Ei. apply wp_bind, wp_get. rewrite bool_decide_eq_true_2 by done.
    apply wp_bind, finish_spec, end_response_spec. split; [|by split].
    exists PDone. cbn [fst advances advance]. rewrite Ei. cbn [advance]. unfold ends_ok. destruct (body_expected h); cbn [negb orb] in *.
    - b2p. rewrite Ee. rewrite orb_true_r. by repeat split.
    - by repeat split. }
  b2p. destruct (rh_chunked h) eqn:Ec.
  { apply wp_bind, wp_modify, wp_ret. rewrite Ei. apply wp_bind, wp_get. apply wp_ret. split; [|by split].
    exists (PBody h 0). cbn [fst advances advance]. rewrite Ei. split; [done|]. exists h. split; [|done]. split; cbn; [by rewrite ?Hrec|done|done]. }
  destruct (rh_content_length h >=? 0) eqn:El; b2p.
  { apply wp_bind, wp_modify, wp_bind, wp_modify, wp_ret. rewrite Ei. apply wp_bind, wp_get. apply wp_ret. split; [|by split].
    exists (PBody h 0). cbn [fst advances advance]. rewrite Ei. split; [done|]. exists h. cbn. rewrite Hrec.
    split; [split; cbn; [by rewrite ?Hrec|done|done]|]. split; [lia|]. split; [done|]. split; [lia|]. destruct Hcl; [lia|done]. }
  apply wp_bind, wp_modify, wp_ret. cbn [informational Http1UpstreamCodec.set_keep_alive]. rewrite Ei. apply wp_bind, wp_get. apply wp_ret.
  set (h' := Http1UpstreamCodec.set_keep_alive false h).
  split; [|by split]. exists (PBody h' 0). cbn [fst advances advance informational h' Http1UpstreamCodec.set_keep_alive]. rewrite Ei. split; [done|].
  exists h'. split; [|split; [exact Ec|exact El]]. split; cbn; [by rewrite ?Hrec|done|done].
Qed.

(** The bytes a body state takes: at least one, and within the announced length. *)
Lemma take_body_spec c p h : in_body c p h -> 0 < uc_remaining c -> uc_buffer c <> [] ->
  uc_body_received c + uc_remaining c <= uc_max_body_bytes c ->
  wp Http1UpstreamCodec.take_body (fun evs c' =>
       (exists p', advances (uc_max_body_bytes c) p evs = Some p' /\ in_body c' p' h) /\
       0 <= uc_remaining c' /\ uc_body_received c' + uc_remaining c' = uc_body_received c + uc_remaining c /\
       len (uc_buffer c') < len (uc_buffer c) /\ uc_max_body_bytes c' = uc_max_body_bytes c /\ uc_state c' = uc_state c)
     (fun _ _ => False) c.
Proof.
  intros [-> Hex Ho] Hr Hne Hmax. assert (0 < len (uc_buffer c)).
  { destruct (uc_buffer c); [done|]. rewrite len_cons. pose proof (len_nonneg l). lia. }
  unfold Http1UpstreamCodec.take_body. apply wp_bind, wp_get. cbv zeta. set (take := Z.min _ _).
  assert (0 < take <= uc_remaining c /\ take <= len (uc_buffer c)) as Ht by lia.
  assert (len (upto (uc_buffer c) take) = take) as El by (rewrite len_upto by lia; lia).
  apply wp_bind, wp_modify, wp_bind, wp_modify, wp_ret. cbn.
  rewrite bool_decide_eq_false_2 by (intros E; rewrite E, len_nil in El; lia).
  split; [|split_and!; [lia|lia|rewrite len_from by lia; lia|done|done]].
  exists (PBody h (uc_body_received c + take)). cbn [advances advance]. rewrite Hex, El, bool_decide_eq_false_2 by (intros E; rewrite E, len_nil in El; lia).
  cbn [negb andb]. rewrite (proj2 (Z.leb_le _ _)) by lia. split; [done|]. by split.
Qed.

Lemma upstream_step_fixed c p : linked c p -> uc_state c = UFIXED_BODY -> step_ok Http1UpstreamCodec.step_fixed_body c p.
Proof.
  intros Hl Es. pose proof Hl as Hl'. unfold linked in Hl'. rewrite Es in Hl'. destruct Hl' as (h & Hb & Hr & Hch & Hsum & Hmax).
  apply wp_bind, wp_get. destruct (bool_decide_reflect (uc_buffer c = [])); [apply wp_ret; by apply stepped_stop|].
  apply wp_bind. eapply wp_mono; [| |apply (take_body_spec c p h); done || lia]; [|done].
  intros evs c1 ((p1 & Ha & Hb1) & Hr1 & Hsum1 & Hlt & Hm1 & Hs1). apply wp_bind, wp_get.
  destruct (Z.eqb_spec (uc_remaining c1) 0) as [E0|].
  - apply wp_bind, finish_spec, end_response_spec. split; [|by split]. exists PDone. cbn [fst].
    rewrite (advances_app _ _ _ _ _ Ha). cbn. destruct Hb1 as [-> Hex _]. cbn. unfold ends_ok. rewrite Hex, Hch. cbn [negb orb].
    rewrite (proj2 (Z.eqb_eq _ _)), orb_true_r by lia. by repeat split.
  - apply wp_ret. split; [|by split]. exists p1. split; [done|]. unfold linked. rewrite Hs1, Es. exists h. rewrite Hm1. repeat (split; [done || lia|]). lia.
Qed.

Ltac linked_in Hl Es := pose proof Hl as Hl'; unfold linked in Hl'; rewrite Es in Hl'.
Lemma stepped_on c p c' again : linked c' p -> uc_max_body_bytes c' = uc_max_body_bytes c ->
  (again = true -> len (uc_buffer c') < len (uc_buffer c)) -> stepped c p ([], again) c'.
Proof. intros Hl Hm Hb. split; [by exists p|]. by split. Qed.

Lemma upstream_step_chunk_size c p : linked c p -> uc_state c = UCHUNK_SIZE -> step_ok Http1UpstreamCodec.step_chunk_size c p.
Proof.
  intros Hl Es. linked_in Hl Es. destruct Hl' as (h & [-> Hex Ho] & Hch). apply wp_bind, wp_get. cbv zeta.
  destruct (find_crlf (uc_buffer c) <? 0) eqn:Em.
  { destruct (_ >? _); [by apply wp_raise|]. apply wp_ret. by apply stepped_stop. }
  destruct (_ >? _); [by apply wp_raise|]. b2p. pose proof (find_seq_bound CRLF (uc_buffer c) Em) as Hb. change (len CRLF) with 2 in Hb.
  fold (find_crlf (uc_buffer c)) in Hb. apply wp_bind, wp_modify. set (c1 := u_set_buffer _ c).
  assert (len (uc_buffer c1) < len (uc_buffer c)) as Hlt by (unfold c1; cbn; rewrite len_from by lia; lia).
  apply wp_bind, wp_lift. destruct (as_protocol_error _ _) as [size|e] eqn:Ep.
  2:{ eapply as_protocol_exn; [|exact Ep]. intros e'. apply parse_chunk_size_line_raises. }
  apply as_protocol_ok, parse_chunk_size_line_nonneg in Ep. destruct (_ >? _); [by apply wp_raise|].
  destruct (_ >? _) eqn:Emax; [by apply wp_raise|]. b2p. destruct (Z.eqb_spec size 0).
  - apply wp_bind, wp_modify, wp_ret. apply stepped_on; [|done|done]. exists h. by repeat split.
  - apply wp_bind, wp_modify, wp_bind, wp_modify, wp_ret. apply stepped_on; [|done|done]. exists h. cbn. repeat (split; [done || lia|]). lia.
Qed.

Lemma upstream_step_chunk_data c p : linked c p -> uc_state c = UCHUNK_DATA -> step_ok Http1UpstreamCodec.step_chunk_data c p.
Proof.
  intros Hl Es. linked_in Hl Es. destruct Hl' as (h & Hb & Hch & Hr & Hmax). apply wp_bind, wp_get.
  destruct (bool_decide_reflect (uc_buffer c = [])); [apply wp_ret; by apply stepped_stop|].
  apply wp_bind. eapply wp_mono; [| |apply (take_body_spec c p h); done || lia]; [|done].
  intros evs c1 ((p1 & Ha & Hb1) & Hr1 & Hsum1 & Hlt & Hm1 & Hs1). apply wp_bind, wp_get, wp_bind.
  destruct (Z.eqb_spec (uc_remaining c1) 0) as [E0|].
  - apply wp_modify, wp_ret. split; [|by split]. exists p1. split; [done|]. exists h. split; [|done]. destruct Hb1 as [-> ? ?]. by split.
  - apply wp_ret, wp_ret. split; [|by split]. exists p1. split; [done|]. unfold linked. rewrite Hs1, Es. exists h. rewrite Hm1. repeat (split; [done || lia|]). lia.
Qed.

Lemma upstream_step_chunk_crlf c p : linked c p -> uc_state c = UCHUNK_CRLF -> step_ok Http1UpstreamCodec.step_chunk_crlf c p.
Proof.
  intros Hl Es. linked_in Hl Es. destruct Hl' as (h & [-> Hex Ho] & Hch). apply wp_bind, wp_get.
  destruct (len (uc_buffer c) <? 2) eqn:El; b2p; [apply wp_ret; by apply stepped_stop|]. destruct (negb _); [by apply wp_raise|].
  apply wp_bind, wp_modify, wp_bind, wp_modify, wp_ret. apply stepped_on; [|done|intros _; cbn; rewrite len_from by lia; lia].
  exists h. by repeat split.
Qed.

(** The end of a chunked body. *)
Lemma chunked_end c c1 h trailers : in_body c (PBody h (uc_body_received c)) h -> rh_chunked h = true ->
  uc_max_body_bytes c1 = uc_max_body_bytes c ->
  wp (let! e := Http1UpstreamCodec.finish trailers in Http1UpstreamCodec.end_response [e])
     (stepped c (PBody h (uc_body_received c))) (fun e _ => upstream_exn e) c1.
Proof.
  intros [_ Hex _] Hch Hm. apply wp_bind, finish_spec, end_response_spec. split; [|by split]. exists PDone. cbn.
  unfold ends_ok. rewrite Hex, Hch. by repeat split.
Qed.

Lemma upstream_step_trailers c p : linked c p -> uc_state c = UTRAILERS -> step_ok Http1UpstreamCodec.step_trailers c p.
Proof.
  intros Hl Es. linked_in Hl Es. destruct Hl' as (h & [-> Hex Ho] & Hch). apply wp_bind, wp_get.
  destruct (_ && _); [by apply wp_bind, wp_modify, chunked_end|]. cbv zeta.
  destruct (find_double_crlf (uc_buffer c) <? 0) eqn:Em.
  { destruct (_ >? _); [by apply wp_raise|]. apply wp_ret. by apply stepped_stop. }
  destruct (_ >? _); [by apply wp_raise|]. apply wp_bind, wp_modify, wp_bind, wp_lift.
  destruct (as_protocol_error _ _) as [[ts names]|e] eqn:Ep.
  - destruct (existsb _ _); [by apply wp_raise|]. by apply chunked_end.
  - eapply as_protocol_exn; [|exact Ep]. intros e' E'.
    pose proof (parse_headers_spec (uc_max_header_count c) (split_str CRLF (upto (uc_buffer c) (find_double_crlf (uc_buffer c))))) as Hp.
    by rewrite E' in Hp.
Qed.

Lemma upstream_step_until_eof c p : linked c p -> uc_state c = UUNTIL_EOF -> step_ok Http1UpstreamCodec.step_until_eof c p.
Proof.
  intros Hl Es. linked_in Hl Es. destruct Hl' as (h & [-> Hex Ho] & Hch & Hcl). apply wp_bind, wp_get.
  destruct (bool_decide_reflect (uc_buffer c = [])); [apply wp_ret; by apply stepped_stop|].
  apply wp_bind, wp_modify, wp_bind, wp_get. destruct (_ >? _) eqn:Emax; [by apply wp_raise|]. cbn in Emax. b2p.
  apply wp_bind, wp_modify, wp_ret. split; [|by split]. exists (PBody h (uc_body_received c + len (uc_buffer c))).
  cbn. rewrite Hex, bool_decide_eq_false_2 by done. rewrite (proj2 (Z.leb_le _ _)) by lia. split; [done|].
  unfold linked. cbn. rewrite Es. exists h. split; [by split|done].
Qed.

Lemma upstream_step_spec c p : linked c p -> step_ok Http1UpstreamCodec.step c p.
Proof.
  intros Hl. apply wp_bind, wp_get. destruct (uc_state c) eqn:Es.
  - by apply upstream_step_head.
  - unfold linked in Hl. by rewrite Es in Hl.
  - by apply upstream_step_chunk_size.
  - by apply upstream_step_fixed.
  - by apply upstream_step_until_eof.
  - by apply upstream_step_chunk_data.
  - by apply upstream_step_chunk_crlf.
  - by apply upstream_step_trailers.
  - apply wp_ret. by apply stepped_stop.
Qed.

(** *** The loop, and whole responses *)

(** Legal events from [p] on, in a decoder whose body limit is [mx]. *)
Definition continues (mx : Z) (p : phase) (es : list upstream_event) (c : upstream_codec) : Prop :=
  uc_max_body_bytes c = mx /\ exists p', advances mx p es = Some p' /\ linked c p'.

Lemma upstream_loop_spec mx p0 n : forall c es, continues mx p0 es c -> (length (uc_buffer c) < n)%nat ->
  wp (Http1UpstreamCodec.feed_loop n es) (continues mx p0) (fun e _ => upstream_exn e) c.
Proof.
  induction n as [|n IH]; intros c es (Hm & p & Ha & Hl) Hn; [lia|]. cbn [Http1UpstreamCodec.feed_loop]. apply wp_bind.
  eapply wp_mono; [| |exact (upstream_step_spec c p Hl)]; [|done]. intros [evs again] c1 ((p1 & Ha1 & Hl1) & Hm1 & Hlt). cbn [fst snd] in *.
  rewrite Hm in *. assert (continues mx p0 (es ++ evs) c1) as Hc1.
  { split; [done|]. exists p1. split; [|done]. by rewrite (advances_app _ _ _ _ _ Ha). }
  destruct again; [|by apply wp_ret]. apply IH; [done|]. specialize (Hlt eq_refl). unfold len in Hlt. lia.
Qed.

Lemma linked_buffer b c p : linked c p -> linked (u_set_buffer b c) p.
Proof.
  unfold linked. cbn. destruct (uc_state c); try done; intros (h & [? ? ?] & ?); exists h; (split; [by split|done]).
Qed.

Lemma upstream_feed_spec mx p0 es d c : continues mx p0 es c ->
  wp (Http1UpstreamCodec.feed d) (fun es' => continues mx p0 (es ++ es')) (fun e _ => upstream_exn e) c.
Proof.
  intros Hc. apply wp_bind, wp_get. destruct (_ || _).
  { destruct (negb _); [by apply wp_raise|apply wp_ret]. by rewrite app_nil_r. }
  apply wp_bind, wp_modify, wp_bind, wp_get. destruct Hc as (Hm & p & Ha & Hl).
  eapply wp_mono; [| |apply (upstream_loop_spec mx p); [|lia]].
  - intros es' c' (Hm' & p' & Ha' & Hl'). split; [done|]. exists p'. split; [|done]. by rewrite (advances_app _ _ _ _ _ Ha).
  - done.
  - split; [done|]. exists p. split; [done|by apply linked_buffer].
Qed.

(** Closing only sets a flag; the rest of the decoder is as it was. *)
Lemma linked_closed b c p : linked c p -> linked (u_set_flags (complete c) b c) p.
Proof. unfold linked. cbn. destruct (uc_state c); try done; intros (h & [? ? ?] & ?); exists h; (split; [by split|done]). Qed.

Lemma upstream_eof_spec mx p0 es c : continues mx p0 es c ->
  wp Http1UpstreamCodec.eof (fun es' _ => advances mx p0 (es ++ es') = Some PDone) (fun e _ => upstream_exn e) c.
Proof.
  intros (Hm & p & Ha & Hl). apply wp_bind, wp_modify, wp_bind, wp_get.
  pose proof (linked_closed true c p Hl) as Hl1. set (c1 := u_set_flags _ _ c) in *.
  destruct (bool_decide_reflect (uc_state c1 = UUNTIL_EOF)) as [Es|Es].
  - linked_in Hl1 Es. destruct Hl' as (h & [-> Hex Ho] & Hch & Hcl). rewrite Ho. cbn [negb].
    apply wp_bind, wp_bind, wp_get. cbn [uc_closed u_set_flags c1 orb]. rewrite bool_decide_eq_true_2 by done.
    apply wp_ret. apply wp_bind, finish_spec, wp_ret. rewrite (advances_app _ _ _ _ _ Ha). cbn. unfold ends_ok. rewrite Hex. cbn [negb].
    rewrite (proj2 (Z.ltb_lt _ _)) by done. by rewrite orb_true_r.
  - destruct (complete c1) eqn:Ec; [|by apply wp_raise]. apply wp_ret. rewrite app_nil_r, Ha. f_equal.
    unfold linked in Hl1. destruct (uc_state c1); try done; firstorder congruence.
Qed.

(** The fragments of a response, in turn. *)
Fixpoint feed_all (ds : list bytes) : M upstream_codec (list upstream_event) :=
  match ds with
  | [] => ret []
  | d :: ds' =>
      let! es := Http1UpstreamCodec.feed d in
      let! es' := feed_all ds' in
      ret (es ++ es')
  end.
Definition feed_to_eof (ds : list bytes) : M upstream_codec (list upstream_event) :=
  let! es := feed_all ds in
  let! es' := Http1UpstreamCodec.eof in
  ret (es ++ es').

Lemma feed_all_spec mx p0 ds : forall es c, continues mx p0 es c ->
  wp (feed_all ds) (fun es' => continues mx p0 (es ++ es')) (fun e _ => upstream_exn e) c.
Proof.
  induction ds as [|d ds IH]; intros es c Hc; cbn [feed_all]; [apply wp_ret; by rewrite app_nil_r|].
  apply wp_bind. eapply wp_mono; [| |exact (upstream_feed_spec mx p0 es d c Hc)]; [|done]. intros es1 c1 Hc1.
  apply wp_bind. eapply wp_mono; [| |exact (IH _ _ Hc1)]; [|done]. intros es2 c2 Hc2. apply wp_ret. by rewrite app_assoc.
Qed.


Definition sample_response : list bytes :=
  [py "HTTP/1.1 200 OK" ++ CRLF ++ py "Content-Le"; py "ngth: 5" ++ CRLF2 ++ py "he"; py "llo"].
