(* ===== verification/ProxyExchange.v ===== *)
(** * The proxy exchange ([ProxyExchange] of [pcc_gateway/proxy_http1.py])

    One request/response flow: an upstream decoder and two bounded buffers on the
    store of [Buffer].  The gateway-wide byte accounting it reserves from is the class
    [BufferAccounting], over a world [W]; [Lifecycle] implements it.  The theorems are
    in [ProxyExchangeSpec]. *)

From S2P Require Import Prelude PyStr Buffer Http1 Models DnsPolicy Proxy ProxyHttp1.
#[local] Open Scope Z_scope.

(** What the exchange needs of the accounting it is given. *)
Class BufferAccounting (W : Type) := {
  acc_reserve : Z -> M W bool;
  acc_release : Z -> M W unit;
}.

Record exchange := Exchange {
  ex_method : str;
  ex_content_length : Z;
  chunked_request : bool;
  ex_expect_handled : bool;
  request_sent : Z;
  request_finished : bool;
  response_committed : bool;
  response_status : Z;
  response_finished : bool;
  ex_cancelled : bool;
  cancel_reason : str;
  upstream_keep_alive : bool;
  downstream_chunked : bool;
  accounting : bool;
  ex_codec : upstream_codec;
  to_upstream : cbuf;
  to_downstream : cbuf;
}.

Definition ex_set_request (sent : Z) (fin : bool) (x : exchange) : exchange :=
  Exchange (ex_method x) (ex_content_length x) (chunked_request x) (ex_expect_handled x)
    sent fin (response_committed x) (response_status x) (response_finished x) (ex_cancelled x)
    (cancel_reason x) (upstream_keep_alive x) (downstream_chunked x) (accounting x) (ex_codec x)
    (to_upstream x) (to_downstream x).
Definition ex_set_response (committed : bool) (status : Z) (keep chunked : bool) (x : exchange) : exchange :=
  Exchange (ex_method x) (ex_content_length x) (chunked_request x) (ex_expect_handled x)
    (request_sent x) (request_finished x) committed status (response_finished x) (ex_cancelled x)
    (cancel_reason x) keep chunked (accounting x) (ex_codec x)
    (to_upstream x) (to_downstream x).
Definition ex_set_finished (x : exchange) : exchange :=
  Exchange (ex_method x) (ex_content_length x) (chunked_request x) (ex_expect_handled x)
    (request_sent x) (request_finished x) (response_committed x) (response_status x) true
    (ex_cancelled x) (cancel_reason x) (upstream_keep_alive x) (downstream_chunked x) (accounting x)
    (ex_codec x) (to_upstream x) (to_downstream x).
Definition ex_set_cancelled (reason : str) (x : exchange) : exchange :=
  Exchange (ex_method x) (ex_content_length x) (chunked_request x) (ex_expect_handled x)
    (request_sent x) (request_finished x) (response_committed x) (response_status x)
    (response_finished x) true reason (upstream_keep_alive x) (downstream_chunked x) (accounting x)
    (ex_codec x) (to_upstream x) (to_downstream x).
Definition ex_set_parts (c : upstream_codec) (up down : cbuf) (x : exchange) : exchange :=
  Exchange (ex_method x) (ex_content_length x) (chunked_request x) (ex_expect_handled x)
    (request_sent x) (request_finished x) (response_committed x) (response_status x)
    (response_finished x) (ex_cancelled x) (cancel_reason x) (upstream_keep_alive x)
    (downstream_chunked x) (accounting x) c up down.

(** Whether the data a method is given is non-empty, and the bytes it stands for. *)
Definition chunk_size (c : chunk) : M heap Z :=
  match c with CBytes b => ret (len b) | CView v => BufferView.len_ v end.
Definition chunk_bytes_of (c : chunk) : M heap bytes :=
  match c with CBytes b => ret b | CView v => BufferView.to_bytes v end.

(** [a or b] on transitions. *)
Definition or_transition (a b : Z) : Z := if a =? 0 then b else a.

Module ProxyExchange.
Section exchange.
Context {W : Type} `{BufferAccounting W}.

(** A method runs over the exchange, the object store and the accounting. *)
Record st := St { s_ex : exchange; s_heap : heap; s_world : W }.
Abbreviation X := (M st).
Definition self : X exchange := fun t => (Ok (s_ex t), t).
Definition upd (f : exchange -> exchange) : X unit :=
  modify (fun t => St (f (s_ex t)) (s_heap t) (s_world t)).
Definition on_heap {A} (m : M heap A) : X A :=
  zoom s_heap (fun h t => St (s_ex t) h (s_world t)) m.
Definition on_world {A} (m : M W A) : X A :=
  zoom s_world (fun w t => St (s_ex t) (s_heap t) w) m.
Definition on_codec {A} (m : M upstream_codec A) : X A :=
  zoom (fun t => ex_codec (s_ex t))
       (fun c t => St (ex_set_parts c (to_upstream (s_ex t)) (to_downstream (s_ex t)) (s_ex t))
                      (s_heap t) (s_world t)) m.
Definition on_upstream {A} (m : M (cbuf * heap) A) : X A :=
  zoom (fun t => (to_upstream (s_ex t), s_heap t))
       (fun bh t => St (ex_set_parts (ex_codec (s_ex t)) (fst bh) (to_downstream (s_ex t)) (s_ex t))
                       (snd bh) (s_world t)) m.
Definition on_downstream {A} (m : M (cbuf * heap) A) : X A :=
  zoom (fun t => (to_downstream (s_ex t), s_heap t))
       (fun bh t => St (ex_set_parts (ex_codec (s_ex t)) (to_upstream (s_ex t)) (fst bh) (s_ex t))
                       (snd bh) (s_world t)) m.

Definition reserve (count : Z) : X unit :=
  let! x := self in
  if (count <=? 0) || negb (accounting x) then ret tt
  else
    let! ok := on_world (acc_reserve count) in
    if negb ok
    then raise (ProxyProtocolError (py "buffer-overload")
                  (py "gateway global buffered-byte limit exceeded"))
    else ret tt.

Definition release (count : Z) : X unit :=
  let! x := self in
  if (count >? 0) && accounting x then on_world (acc_release count) else ret tt.

(** [try: m except Exception: self._release(count); raise] *)
Definition or_release {A} (count : Z) (m : X A) : X A :=
  try_except m (fun e => release count ;;! raise e).

Definition append_upstream (data : chunk) : X Z :=
  let! count := on_heap (chunk_size data) in
  reserve count ;;!
  or_release count
    (match data with
     | CView v => on_upstream (ChannelBuffer.append_view v)
     | CBytes b => on_upstream (ChannelBuffer.append b)
     end).

Definition feed_request_body (data : chunk) : X Z :=
  let! x := self in
  if ex_cancelled x || request_finished x
  then raise (RuntimeError (py "proxy request is not writable"))
  else
    let! n := on_heap (chunk_size data) in
    if negb (chunked_request x) && (request_sent x + n >? ex_content_length x)
    then raise (ProxyProtocolError (py "request-overflow") (py "proxy request exceeds declared length"))
    else
      upd (ex_set_request (request_sent x + n) (request_finished x)) ;;!
      if chunked_request x && negb (n =? 0) then
        let! b := on_heap (chunk_bytes_of data) in
        let! size := lift (encode_ascii (hex_of_int (len b))) in
        append_upstream (CBytes (size ++ CRLF ++ b ++ CRLF))
      else append_upstream data.

Fixpoint encode_trailers (hs : list (str * str)) : result bytes :=
  match hs with
  | [] => Ok []
  | (name, value) :: hs' =>
      let lower := lower name in
      if str_in lower [py "content-length"; py "transfer-encoding"; py "host"]
      then protocol_error (py "bad-trailer") (py "forbidden proxy request trailer")
      else
        let? n := encode_ascii lower in
        let? v := encode_latin1 value in
        let? rest := encode_trailers hs' in
        Ok (n ++ py ": " ++ v ++ CRLF ++ rest)
  end.

Definition finish_request (trailers : list (str * str)) : X Z :=
  let! x := self in
  if request_finished x then ret 0
  else if negb (chunked_request x) && negb (request_sent x =? ex_content_length x)
  then raise (ProxyProtocolError (py "request-underflow")
                (py "proxy request ended before declared length"))
  else
    upd (ex_set_request (request_sent x) true) ;;!
    if negb (chunked_request x) then ret 0
    else
      let! fields := lift (encode_trailers (sanitize_hop_by_hop trailers)) in
      append_upstream (CBytes ([48] ++ CRLF ++ fields ++ CRLF)).

Definition take_upstream (limit : Z) : X (bytes * bool) :=
  let! x := self in
  let was_paused := backpressured (to_upstream x) in
  let! data := on_upstream (ChannelBuffer.read limit) in
  release (len data) ;;!
  let! x := self in
  ret (data, was_paused && negb (backpressured (to_upstream x))).

Definition append_downstream (data : bytes) : X Z :=
  if bool_decide (data = []) then ret 0
  else
    reserve (len data) ;;!
    or_release (len data) (on_downstream (ChannelBuffer.append data)).

(** The headers of an upstream head that are forwarded downstream. *)
Definition response_headers (h : response_head) : list (str * str) :=
  List.filter (fun p => negb (str_in (lower (fst p)) [py "content-length"; py "transfer-encoding"]))
    (sanitize_hop_by_hop (rh_headers h)).

(** The body of the loop over decoded events; [transition] so far. *)
Definition on_head (h : response_head) (transition : Z) : X Z :=
  let! x := self in
  let headers := response_headers h in
  if informational h then
    if (rh_status h =? 100) && ex_expect_handled x then ret transition
    else
      let! bytes_ := lift (Http1ResponseEncoder.head (rh_status h) headers (-1) false true) in
      let! t := append_downstream bytes_ in
      ret (or_transition t transition)
  else
    let chunked := body_expected h && (rh_content_length h <? 0) in
    upd (ex_set_response true (rh_status h) (rh_keep_alive h) chunked) ;;!
    let length :=
      if negb (body_expected h)
      then (if negb (str_eqb (ex_method x) (py "HEAD")) && negb (rh_status h =? 304)
            then -1 else rh_content_length h)
      else rh_content_length h in
    let! bytes_ := lift (Http1ResponseEncoder.head (rh_status h) headers
                           (if negb chunked then length else -1) chunked true) in
    let! t := append_downstream bytes_ in
    ret (or_transition t transition).

Definition on_body (data : bytes) (transition : Z) : X Z :=
  let! x := self in
  let! payload := lift (if downstream_chunked x then Http1ResponseEncoder.chunk data else Ok data) in
  let! t := append_downstream payload in
  ret (or_transition t transition).

Definition on_end (trailers : list (str * str)) (transition : Z) : X Z :=
  let! x := self in
  let! t := (if downstream_chunked x then
               let! bytes_ := lift (Http1ResponseEncoder.end_chunks trailers) in
               let! t := append_downstream bytes_ in
               ret (or_transition t transition)
             else ret transition) in
  upd ex_set_finished ;;!
  ret t.

Fixpoint feed_events (events : list upstream_event) (transition : Z) : X Z :=
  match events with
  | [] => ret transition
  | e :: events' =>
      let! t := match e with
                | UHead h => on_head h transition
                | UBody data => on_body data transition
                | UEnd trailers => on_end trailers transition
                end in
      feed_events events' t
  end.

Definition feed_upstream (data : bytes) : X Z :=
  let! x := self in
  if ex_cancelled x || response_finished x
  then raise (RuntimeError (py "proxy response is not readable"))
  else
    let! events := on_codec (Http1UpstreamCodec.feed data) in
    feed_events events 0.

(** The loop of [upstream_eof], which expects no head and encodes no trailers. *)
Fixpoint eof_events (events : list upstream_event) (transition : Z) : X Z :=
  match events with
  | [] => ret transition
  | e :: events' =>
      let! t := match e with
                | UHead _ => ret transition
                | UBody data => on_body data transition
                | UEnd _ => on_end [] transition
                end in
      eof_events events' t
  end.
Definition upstream_eof : X Z :=
  let! events := on_codec Http1UpstreamCodec.eof in eof_events events 0.

Definition take_downstream (limit : Z) : X (bytes * bool) :=
  let! x := self in
  let was_paused := backpressured (to_downstream x) in
  let! data := on_downstream (ChannelBuffer.read limit) in
  release (len data) ;;!
  let! x := self in
  ret (data, was_paused && negb (backpressured (to_downstream x))).

Definition cancel (reason : str) : X unit :=
  let! x := self in
  if ex_cancelled x then ret tt
  else
    upd (ex_set_cancelled reason) ;;!
    let remaining := queued_bytes (to_upstream x) + queued_bytes (to_downstream x) in
    let! _ := on_upstream ChannelBuffer.close in
    let! _ := on_downstream ChannelBuffer.close in
    release remaining.

Definition can_retry (p : retry_policy) (attempt : Z) (failure : str) : X bool :=
  let! x := self in
  ret (RetryPolicy.allows p (ex_method x) attempt (response_committed x) failure
         (request_sent x =? 0)).

(** The constructor, over a store and a world; the watermark defaults are -1. *)
Definition init (request_method request_target : str) (request_headers : list (str * str))
    (upstream_authority client_ip scheme original_host : str) (content_length : Z)
    (chunked_request trust_forwarded expect_continue_handled : bool)
    (segment_bytes low_watermark high_watermark max_buffered_bytes : Z) (accounting : bool)
    (h : heap) (w : W) : result st * (heap * W) :=
  let high := if high_watermark =? -1 then Z.min 65536 max_buffered_bytes else high_watermark in
  let low := if low_watermark =? -1 then Z.min 32768 (high / 2) else low_watermark in
  let method := upper request_method in
  let built :=
    if max_buffered_bytes <=? 0 then Raise (ValueError (py "max buffered bytes must be positive"))
    else
      let? codec := Http1UpstreamCodec.init method 32768 100 16777216 1048576 in
      let? up := ChannelBuffer.init segment_bytes low high max_buffered_bytes in
      let? down := ChannelBuffer.init segment_bytes low high max_buffered_bytes in
      let? head := encode_proxy_request_head method request_target request_headers
                     upstream_authority client_ip scheme original_host content_length
                     chunked_request trust_forwarded expect_continue_handled in
      Ok (Exchange method content_length chunked_request expect_continue_handled 0 false false 0
            false false [] false false accounting codec up down, head) in
  match built with
  | Raise e => (Raise e, (h, w))
  | Ok (x, head) =>
      match append_upstream (CBytes head) (St x h w) with
      | (Ok _, t) => (Ok t, (s_heap t, s_world t))
      | (Raise e, t) => (Raise e, (s_heap t, s_world t))
      end
  end.

End exchange.
End ProxyExchange.
