(* ===== verification/ProxyExchangeSpec.v ===== *)
(** * Properties of the proxy exchange

    The gateway-wide byte accounting is a promise of another component, stated here as
    the laws [AccountingLaws]; [Lifecycle] keeps them.  Against the laws, every method
    of an exchange keeps the reservation equal to the bytes its two buffers queue,
    whichever way the method ends. *)

From S2P Require Import Prelude PyStr Buffer Http1 Models DnsPolicy Proxy ProxyHttp1 Lifecycle.
From S2P Require Import LifecycleSpec ProxyExchange.
#[local] Open Scope Z_scope.

(** What the accounting promises: [acc_held w n], the world [w] has [n] bytes reserved. *)
Class AccountingLaws (W : Type) `{BufferAccounting W} := {
  acc_held : W -> Z -> Prop;
  acc_reserve_law : forall w held n, 0 < n -> acc_held w held ->
    exists ok w', acc_reserve n w = (Ok ok, w') /\ acc_held w' (if ok then held + n else held);
  acc_release_law : forall w held n, 0 < n <= held -> acc_held w held ->
    exists w', acc_release n w = (Ok tt, w') /\ acc_held w' (held - n);
}.

(** The gateway's admission state is such an accounting: the gauge [buffered_bytes]. *)
#[export] Instance lifecycle_accounting C R : BufferAccounting (lifecycle C R) :=
  { acc_reserve := reserve_buffered; acc_release := release_buffered }.

#[export] Instance lifecycle_accounting_laws C R : AccountingLaws (lifecycle C R).
Proof.
  refine {| acc_held l n := metrics l !! py "buffered_bytes" = Some n |}; cbn [acc_reserve acc_release lifecycle_accounting].
  - intros l held n Hn Hl. unfold reserve_buffered. zdec. unfold bind, get. cbn beta iota.
    rewrite (metric_run _ held) by done. destruct (held + n >? _); [by exists false, l|].
    rewrite (metric_add_run _ _ held) by done. eexists true, _. split; [done|]. cbn. by rewrite lookup_insert_eq.
  - intros l held n Hn Hl. unfold release_buffered, bind. rewrite (metric_run _ held) by done. zdec.
    rewrite (metric_add_run _ _ held) by done. eexists. split; [done|]. cbn. by rewrite lookup_insert_eq.
Defined.

(** ** Two buffers on one store *)

Definition bounds_of (b : cbuf) : Buffer.limits := Limits (low_watermark b) (high_watermark b) (max_bytes b).
Record two_buffers (ext : nat -> Z) (h : heap) (b c : cbuf) (f g : fifo) : Prop := {
  tb_fst : refines (bounds_of b) ext h b f;
  tb_snd : refines (bounds_of c) ext h c g;
  tb_apart : forall u, u ∈ pending b -> u ∉ pending c;
}.

Lemma refines_own l ext h b f : refines l ext h b f -> l = bounds_of b.
Proof. apply rf_limits. Qed.

Lemma two_buffers_swap ext h b c f g : two_buffers ext h b c f g -> two_buffers ext h c b g f.
Proof. intros [? ? Ha]. split; [done|done|]. intros u Hu Hv. by apply (Ha u). Qed.

(** A step of one buffer leaves the other as it was. *)
Lemma two_buffers_step ext h b c f g h' b' f' :
  two_buffers ext h b c f g -> refines (bounds_of b) ext h' b' f' -> moved h b h' b' ->
  two_buffers ext h' b' c f' g.
Proof.
  intros [Hf Hg Ha] Hf' [Hm Hfresh _]. pose proof (refines_own _ _ _ _ _ Hf') as El.
  assert (forall u, u ∈ pending c -> u ∉ pending b') as Hc.
  { intros u Hu Hu'. destruct (Hfresh u Hu') as [Hb|Hge]; [by apply (Ha u)|].
    destruct (st_chunks _ _ _ _ (re_stores _ _ _ (rf_repr _ _ _ _ _ Hg))) as (ds & Hck & _).
    pose proof (chunks_fresh _ _ _ _ Hck Hu). lia. }
  split; [by rewrite <- El| |intros u Hu Hv; by apply (Hc u)].
  eapply refines_ext; [|exact (rf_heap _ _ _ _ _ Hf')|exact Hg].
  intros u Hu. rewrite Hm by auto. rewrite bool_decide_eq_false_2; [done|]. intros Hb. by apply (Ha u).
Qed.

Lemma read_run l ext h b f limit :
  refines l ext h b f -> exists h' b' d f', ChannelBuffer.read limit (b, h) = (Ok d, (b', h')) /\
    refines l ext h' b' f' /\ moved h b h' b' /\ len (f_bytes f) = len d + len (f_bytes f') /\ f_closed f' = f_closed f.
Proof.
  intros Hrf. destruct (read_refines l ext h b f limit Hrf) as (h' & b' & E & Hrf' & Hmv).
  cbn [fifo_step fst snd] in *. pose proof (len_nonneg (f_bytes f)) as Hnn. cbv zeta in *.
  set (n := if (limit <? 0) || (limit >? len (f_bytes f)) then len (f_bytes f) else limit) in *.
  assert (0 <= n <= len (f_bytes f)) as Hn.
  { unfold n. destruct ((limit <? 0) || (limit >? len (f_bytes f))) eqn:E'; b2p; lia. }
  exists h', b', (upto (f_bytes f) n), (snd (after_drain l (from (f_bytes f) n) f)).
  split_and!; [|done|done| |].
  - cbn [cbuf_step] in E. unfold bind, ret in E. destruct (ChannelBuffer.read limit (b, h)) as [[d|e] s]; cbn in E; congruence.
  - rewrite len_upto by lia. unfold after_drain. destruct (_ && _); cbn; rewrite len_from by lia; lia.
  - unfold after_drain. by destruct (_ && _).
Qed.

(** Appending either way: the bytes are queued, or an exception leaves the queue alone. *)
Definition append_chunk (data : chunk) : M (cbuf * heap) Z :=
  match data with CBytes d => ChannelBuffer.append d | CView v => ChannelBuffer.append_view v end.

Lemma fifo_append_cases l d f :
  match fifo_step l (OpAppend d) f with
  | (Ok (OutTransition _), f') => f_bytes f' = f_bytes f ++ d /\ f_closed f' = f_closed f
  | (Ok _, _) => False
  | (Raise _, f') => f' = f
  end.
Proof.
  cbn. destruct (f_closed f) eqn:Hc; [done|]. destruct (_ >? _); [done|]. unfold after_growth.
  by destruct (_ && _).
Qed.

Lemma append_chunk_run l ext h b f data :
  refines l ext h b f -> exists r h' b' f', append_chunk data (b, h) = (r, (b', h')) /\
    refines l ext h' b' f' /\ moved h b h' b' /\ f_closed f' = f_closed f /\
    match r with
    | Ok _ => exists d : bytes, chunk_size data h = (Ok (len d), h) /\ len (f_bytes f') = len (f_bytes f) + len d
    | Raise _ => f_bytes f' = f_bytes f
    end.
Proof.
  intros Hrf. destruct data as [d|v]; cbn [append_chunk chunk_size].
  - destruct (append_refines l ext h b f d Hrf) as (h' & b' & E & Hrf' & Hmv).
    pose proof (fifo_append_cases l d f) as Hc. cbn [cbuf_step] in E. unfold bind, ret in E.
    destruct (ChannelBuffer.append d (b, h)) as [[t|e] [b1 h1]]; destruct (fifo_step l (OpAppend d) f) as [[o|e'] f'];
      cbn in E, Hc, Hrf'; try congruence; injection E as; subst.
    + destruct Hc as [Hb Hcl]. exists (Ok t), h', b', f'. split_and!; try done. exists d. split; [done|]. by rewrite Hb, len_app.
    + exists (Raise e'), h', b', f. by split_and!.
  - destruct (vbytes h v) as [d|] eqn:Hv.
    + destruct (append_view_refines l ext h b f v d Hrf Hv) as (h' & b' & E & Hrf' & Hmv).
      pose proof (fifo_append_cases l d f) as Hc. destruct (fifo_step l (OpAppend d) f) as [[o|e'] f']; cbn in Hc, Hrf'.
      * destruct o; try done. destruct Hc as [Hb Hcl]. exists (Ok t), h', b', f'. split_and!; try done.
        exists d. split; [exact (view_len_spec h ext v d (rf_heap _ _ _ _ _ Hrf) Hv)|]. by rewrite Hb, len_app.
      * subst f'. exists (Raise e'), h', b', f. by split_and!.
    + destruct (append_view_dead b h ext v (rf_heap _ _ _ _ _ Hrf) Hv) as [e E].
      exists (Raise e), h, b, f. split_and!; [done|done|eapply moved_refl, (rf_repr _ _ _ _ _ Hrf)|done|done].
Qed.

Lemma buffer_close_run l ext h b f :
  refines l ext h b f -> exists r h' b', ChannelBuffer.close (b, h) = (Ok r, (b', h')) /\
    refines l ext h' b' (if f_closed f then f else Fifo [] false true) /\ moved h b h' b'.
Proof.
  intros Hrf. destruct (close_refines l ext h b f Hrf) as (h' & b' & E & Hrf' & Hmv).
  cbn [cbuf_step] in E. unfold bind, ret in E. destruct (ChannelBuffer.close (b, h)) as [[d|e] s]; cbn in E; [|done].
  injection E as ->. by exists d, h', b'.
Qed.

(** ** The reservation invariant *)

#[local] Create HintDb moves discriminated.

Section accounting.
Context {W : Type} `{AccountingLaws W}.
(** References held outside views, and the bytes others have reserved. *)
Context (ext : nat -> Z) (base : Z) (base_nonneg : 0 <= base).
Abbreviation st := (ProxyExchange.st (W := W)).

(** What the exchange holds: [r] bytes reserved ahead of being queued, and the queues. *)
Definition holds (x : exchange) (n : Z) : Z := base + (if accounting x then n else 0).
Record inv_with (r : Z) (t : st) (f g : fifo) : Prop := {
  iv_buffers : two_buffers ext (ProxyExchange.s_heap t) (to_upstream (ProxyExchange.s_ex t))
                 (to_downstream (ProxyExchange.s_ex t)) f g;
  iv_held : acc_held (ProxyExchange.s_world t)
              (holds (ProxyExchange.s_ex t) (r + len (f_bytes f) + len (f_bytes g)));
  iv_ahead : 0 <= r;
  iv_cancelled : ex_cancelled (ProxyExchange.s_ex t) = true -> f_closed f = true /\ f_closed g = true;
}.
Definition inv (r : Z) (t : st) : Prop := exists f g, inv_with r t f g.

(** [m] moves [r] bytes to [r'] when it returns, and none when it raises. *)
Definition moves {A} (r r' : Z) (m : M st A) : Prop :=
  forall t, inv r t -> wp m (fun _ => inv r') (fun _ => inv r) t.
Abbreviation safe := (moves 0 0).

(** *** Composition *)

Lemma moves_ret {A} r (a : A) : moves r r (ret a).
Proof. by intros t Ht. Qed.
Lemma moves_raise {A} r r' e : moves r r' (@raise _ A e).
Proof. by intros t Ht. Qed.
Lemma moves_lift {A} r (x : result A) : moves r r (lift x).
Proof. intros t Ht. apply wp_lift. by destruct x. Qed.
Lemma moves_self r : moves r r (ProxyExchange.self (W := W)).
Proof. by intros t Ht. Qed.
Lemma safe_bind {A B} r (m : M st A) (k : A -> M st B) :
  moves r r m -> (forall a, moves r r (k a)) -> moves r r (bind m k).
Proof.
  intros Hm Hk t Ht. apply wp_bind. eapply wp_mono; [| |by apply Hm]; [|done]. intros a t' Ht'. by apply Hk.
Qed.

(** Setters that keep the buffers, the accounting and the cancelled flag. *)
Lemma safe_upd r f :
  (forall x, to_upstream (f x) = to_upstream x /\ to_downstream (f x) = to_downstream x /\
             accounting (f x) = accounting x /\ ex_cancelled (f x) = ex_cancelled x) ->
  moves r r (ProxyExchange.upd f).
Proof.
  intros Hf [x h w] (fu & fd & [Hb Hh Hr Hc]). exists fu, fd. destruct (Hf x) as (E1 & E2 & E3 & E4).
  cbn in *. unfold holds in *. split; cbn; unfold holds; by rewrite ?E1, ?E2, ?E3, ?E4.
Qed.
Lemma safe_heap_read {A} r (m : M heap A) : (forall h, snd (m h) = h) -> moves r r (ProxyExchange.on_heap m).
Proof.
  intros Hm [x h w] Ht. unfold wp, ProxyExchange.on_heap, zoom. cbn. specialize (Hm h).
  destruct (m h) as [[a|e] h']; cbn in Hm; by subst h'.
Qed.
Lemma safe_codec {A} r (m : M upstream_codec A) : moves r r (ProxyExchange.on_codec m).
Proof.
  intros [x h w] (fu & fd & [Hb Hh Hr Hc]). unfold wp, ProxyExchange.on_codec, zoom. cbn.
  destruct (m (ex_codec x)) as [[a|e] c]; exists fu, fd; by split.
Qed.

(** *** The steps that move bytes *)

(** Nothing was queued or taken between [t] and [t']. *)
Definition same_queues (t t' : st) : Prop :=
  queued_bytes (to_upstream (ProxyExchange.s_ex t')) = queued_bytes (to_upstream (ProxyExchange.s_ex t)) /\
  queued_bytes (to_downstream (ProxyExchange.s_ex t')) = queued_bytes (to_downstream (ProxyExchange.s_ex t)).

Lemma reserve_run n t : inv 0 t ->
  wp (ProxyExchange.reserve n)
     (fun _ t' => inv (Z.max 0 n) t' /\ ProxyExchange.s_heap t' = ProxyExchange.s_heap t /\ same_queues t t')
     (fun _ t' => inv 0 t' /\ same_queues t t') t.
Proof.
  destruct t as [x h w]. intros (fu & fd & [Hb Hh Hr Hc]). unfold ProxyExchange.reserve. apply wp_bind. unfold wp at 1. cbn in *.
  destruct ((n <=? 0) || negb (accounting x)) eqn:E.
  - apply wp_ret. split; [|done]. exists fu, fd. split; cbn; [done| |lia|done].
    apply orb_true_iff in E as [E|E]; b2p.
    + by replace (Z.max 0 n) with 0 by lia.
    + unfold holds in *. by rewrite E in *.
  - b2p. destruct (acc_reserve_law w _ n ltac:(lia) Hh) as (ok & w' & Er & Hh'). apply wp_bind.
    unfold wp at 1, ProxyExchange.on_world, zoom. cbn. rewrite Er. cbn.
    destruct ok; [apply wp_ret|apply wp_raise]; (split; [|done]); exists fu, fd; split; cbn; try done; try lia.
    unfold holds in *. destruct (accounting x); [|done]. by replace (_ + (Z.max 0 n + _ + _)) with (base + (0 + len (f_bytes fu) + len (f_bytes fd)) + n) by lia.
Qed.

Lemma release_held_run r n t : inv (r + Z.max 0 n) t -> 0 <= r ->
  wp (ProxyExchange.release n) (fun _ t' => inv r t' /\ same_queues t t') (fun _ _ => False) t.
Proof.
  destruct t as [x h w]. intros (fu & fd & [Hb Hh Hr Hc]) Hr0. unfold ProxyExchange.release. apply wp_bind. unfold wp at 1. cbn in *.
  destruct ((n >? 0) && accounting x) eqn:E.
  - b2p. unfold holds in *. match goal with A : accounting x = true |- _ => rename A into Ea end. rewrite Ea in Hh.
    pose proof (len_nonneg (f_bytes fu)). pose proof (len_nonneg (f_bytes fd)).
    destruct (acc_release_law w (base + (r + Z.max 0 n + len (f_bytes fu) + len (f_bytes fd))) n) as (w' & Er & Hh'); [lia|exact Hh|].
    unfold wp, ProxyExchange.on_world, zoom. cbn. rewrite Er. split; [|done]. exists fu, fd. split; cbn; try done.
    unfold holds. rewrite Ea. by replace (base + (r + _ + _)) with (base + (r + Z.max 0 n + len (f_bytes fu) + len (f_bytes fd)) - n) by lia.
  - apply wp_ret. split; [|done]. exists fu, fd. split; cbn; try done. apply andb_false_iff in E as [E|E]; b2p.
    + by replace (r + Z.max 0 n) with r in Hh by lia.
    + unfold holds in *. by rewrite E in *.
Qed.

(** [reserve n], then [m], which queues the [n] bytes or raises and queues nothing. *)
Lemma reserve_then_moves {A} n (m : M st A) t :
  (forall t', inv (Z.max 0 n) t' -> ProxyExchange.s_heap t' = ProxyExchange.s_heap t ->
     wp m (fun _ => inv 0) (fun _ t'' => inv (Z.max 0 n) t'' /\ same_queues t' t'') t') ->
  inv 0 t -> wp (ProxyExchange.reserve n ;;! ProxyExchange.or_release n m) (fun _ => inv 0)
                (fun _ t' => inv 0 t' /\ same_queues t t') t.
Proof.
  intros Hm Ht. apply wp_bind. eapply wp_mono; [| |by apply reserve_run]; [|done]. intros u t1 (Ht1 & Eh & [E1 E1']).
  apply wp_try. eapply wp_mono; [| |by apply Hm]; [done|]. intros e t2 [Ht2 [E2 E2']]. apply wp_bind.
  eapply wp_mono; [| |apply (release_held_run 0 n); [done|lia]]; [|done]. intros u3 t3 [Ht3 [E3 E3']]. apply wp_raise.
  split; [done|]. split; congruence.
Qed.

Lemma on_upstream_run {A} (m : M (cbuf * heap) A) x h (w : W) r b' h' :
  m (to_upstream x, h) = (r, (b', h')) ->
  ProxyExchange.on_upstream m (ProxyExchange.St x h w) =
    (r, ProxyExchange.St (ex_set_parts (ex_codec x) b' (to_downstream x) x) h' w).
Proof. intros E. unfold ProxyExchange.on_upstream, zoom. cbn -[fst snd]. by rewrite E. Qed.
Lemma on_downstream_run {A} (m : M (cbuf * heap) A) x h (w : W) r b' h' :
  m (to_downstream x, h) = (r, (b', h')) ->
  ProxyExchange.on_downstream m (ProxyExchange.St x h w) =
    (r, ProxyExchange.St (ex_set_parts (ex_codec x) (to_upstream x) b' x) h' w).
Proof. intros E. unfold ProxyExchange.on_downstream, zoom. cbn -[fst snd]. by rewrite E. Qed.

Lemma same_queued l l' h h' b b' f f' :
  refines l ext h b f -> refines l' ext h' b' f' -> f_bytes f' = f_bytes f -> queued_bytes b' = queued_bytes b.
Proof. intros H1 H2 E. rewrite (re_queued _ _ _ (rf_repr _ _ _ _ _ H1)), (re_queued _ _ _ (rf_repr _ _ _ _ _ H2)). by rewrite E. Qed.

Lemma upstream_append_run (d : bytes) data t : inv (len d) t -> chunk_size data (ProxyExchange.s_heap t) = (Ok (len d), ProxyExchange.s_heap t) ->
  wp (ProxyExchange.on_upstream (append_chunk data)) (fun _ => inv 0) (fun _ t' => inv (len d) t' /\ same_queues t t') t.
Proof.
  destruct t as [x h w]. intros (fu & fd & [Hb Hh Hr Hc]) Hs. cbn in *.
  destruct (append_chunk_run _ _ _ _ _ data (tb_fst _ _ _ _ _ _ Hb)) as (r & h' & b' & f' & E & Hf' & Hm & Hcl & Hlen).
  unfold wp. rewrite (on_upstream_run _ _ _ _ _ _ _ E).
  pose proof (two_buffers_step _ _ _ _ _ _ _ _ _ Hb Hf' Hm) as Hb'. rewrite <- Hcl in Hc.
  destruct r as [u|e]; [|split; [|by split; [apply (same_queued _ _ _ _ _ _ _ _ (tb_fst _ _ _ _ _ _ Hb) Hf')|]]]; exists f', fd; split; cbn; try done.
  - destruct Hlen as (d' & Hs' & Hl). rewrite Hs in Hs'. injection Hs' as Hs'.
    by replace (0 + len (f_bytes f') + _) with (len d + len (f_bytes fu) + len (f_bytes fd)) by lia.
  - by rewrite Hlen.
Qed.

Lemma downstream_append_run (d : bytes) t : inv (len d) t ->
  wp (ProxyExchange.on_downstream (ChannelBuffer.append d)) (fun _ => inv 0) (fun _ t' => inv (len d) t' /\ same_queues t t') t.
Proof.
  destruct t as [x h w]. intros (fu & fd & [Hb Hh Hr Hc]). cbn in *. apply two_buffers_swap in Hb.
  destruct (append_chunk_run _ _ _ _ _ (CBytes d) (tb_fst _ _ _ _ _ _ Hb)) as (r & h' & b' & f' & E & Hf' & Hm & Hcl & Hlen).
  unfold wp. cbn [append_chunk] in E. rewrite (on_downstream_run _ _ _ _ _ _ _ E).
  pose proof (two_buffers_swap _ _ _ _ _ _ (two_buffers_step _ _ _ _ _ _ _ _ _ Hb Hf' Hm)) as Hb'. rewrite <- Hcl in Hc.
  destruct r as [u|e]; [|split; [|by split; [|apply (same_queued _ _ _ _ _ _ _ _ (tb_fst _ _ _ _ _ _ Hb) Hf')]]]; exists fu, f'; split; cbn; try done.
  - destruct Hlen as (d' & Hs' & Hl). injection Hs' as Hs'.
    by replace (0 + len (f_bytes fu) + len (f_bytes f')) with (len d + len (f_bytes fu) + len (f_bytes fd)) by lia.
  - by rewrite Hlen.
Qed.

Lemma upstream_read_run limit t : inv 0 t ->
  wp (ProxyExchange.on_upstream (ChannelBuffer.read limit)) (fun d => inv (len d)) (fun _ _ => False) t.
Proof.
  destruct t as [x h w]. intros (fu & fd & [Hb Hh Hr Hc]). cbn in *.
  destruct (read_run _ _ _ _ _ limit (tb_fst _ _ _ _ _ _ Hb)) as (h' & b' & d & f' & E & Hf' & Hm & Hlen & Hcl).
  unfold wp. rewrite (on_upstream_run _ _ _ _ _ _ _ E). exists f', fd. rewrite <- Hcl in Hc.
  split; cbn; [by eapply two_buffers_step| |apply len_nonneg|done].
  by rewrite <- Hlen.
Qed.

Lemma downstream_read_run limit t : inv 0 t ->
  wp (ProxyExchange.on_downstream (ChannelBuffer.read limit)) (fun d => inv (len d)) (fun _ _ => False) t.
Proof.
  destruct t as [x h w]. intros (fu & fd & [Hb Hh Hr Hc]). cbn in *. apply two_buffers_swap in Hb.
  destruct (read_run _ _ _ _ _ limit (tb_fst _ _ _ _ _ _ Hb)) as (h' & b' & d & f' & E & Hf' & Hm & Hlen & Hcl).
  unfold wp. rewrite (on_downstream_run _ _ _ _ _ _ _ E). exists fu, f'. rewrite <- Hcl in Hc.
  split; cbn; [apply two_buffers_swap; by eapply two_buffers_step| |apply len_nonneg|done].
  by replace (len d + len (f_bytes fu) + len (f_bytes f')) with (0 + len (f_bytes fu) + len (f_bytes fd)) by lia.
Qed.

(** *** The methods *)

Lemma chunk_size_run h data :
  heap_ok h ext -> (exists d : bytes, chunk_size data h = (Ok (len d), h)) \/ exists e, chunk_size data h = (Raise e, h).
Proof.
  intros Hok. destruct data as [d|v]; [left; by exists d|]. cbn [chunk_size].
  destruct (vbytes h v) as [d|] eqn:Hv; [left; exists d; by eapply view_len_spec|].
  unfold BufferView.len_, bind, get_view. destruct (views h !! v) as [x|] eqn:Hx; [|right; by eexists].
  left. exists []. by rewrite (vbytes_none_released h ext v x Hok Hx Hv).
Qed.

Lemma append_upstream_run data t : inv 0 t ->
  wp (ProxyExchange.append_upstream data) (fun _ => inv 0) (fun _ t' => inv 0 t' /\ same_queues t t') t.
Proof.
  intros Ht. unfold ProxyExchange.append_upstream. apply wp_bind. destruct t as [x h w].
  assert (heap_ok h ext) as Hok by (destruct Ht as (fu & fd & [Hb _ _ _]); exact (rf_heap _ _ _ _ _ (tb_fst _ _ _ _ _ _ Hb))).
  unfold wp at 1, ProxyExchange.on_heap, zoom. cbn [ProxyExchange.s_ex ProxyExchange.s_heap ProxyExchange.s_world].
  destruct (chunk_size_run h data Hok) as [[d E]|[e E]]; rewrite E; [|done].
  apply reserve_then_moves; [|done]. intros t' Ht' Eh. cbn in Eh. pose proof (len_nonneg d).
  rewrite Z.max_r in Ht' |- * by lia. pose proof (upstream_append_run d data t' Ht') as Hu.
  rewrite Eh in Hu. specialize (Hu E). by destruct data.
Qed.
Lemma append_upstream_safe data : safe (ProxyExchange.append_upstream data).
Proof. intros t Ht. eapply wp_mono; [| |by apply append_upstream_run]; [done|]. by intros e t' [? _]. Qed.

Lemma append_downstream_safe d : safe (ProxyExchange.append_downstream d).
Proof.
  intros t Ht. unfold ProxyExchange.append_downstream. destruct (bool_decide _); [done|].
  eapply (wp_mono _ (fun _ => inv 0) _ (fun _ t' => inv 0 t' /\ same_queues t t')); [done|by intros e t' [? _]|].
  apply reserve_then_moves; [|done]. intros t' Ht' _. pose proof (len_nonneg d).
  rewrite Z.max_r in Ht' |- * by lia. by apply downstream_append_run.
Qed.

#[local] Hint Resolve append_upstream_safe append_downstream_safe moves_ret moves_raise moves_lift moves_self
  safe_codec : moves.
#[local] Hint Extern 1 (moves _ _ (ProxyExchange.upd _)) => apply safe_upd; by intros [] : moves.
(** Decomposes a method into the steps above. *)
Ltac safely := repeat
  match goal with
  | |- moves _ _ (bind _ _) => apply safe_bind; [|intros ?]
  | |- moves _ _ (if ?b then _ else _) => destruct b
  | |- moves _ _ (match ?x with _ => _ end) => destruct x
  | |- moves _ _ _ => solve [eauto with moves]
  end.

Lemma chunk_size_pure data h : snd (chunk_size data h) = h.
Proof. destruct data as [d|v]; [done|]. cbn. unfold BufferView.len_, bind, get_view. by destruct (_ !! _). Qed.
Lemma chunk_bytes_pure data h : snd (chunk_bytes_of data h) = h.
Proof.
  destruct data as [d|v]; [done|]. cbn. unfold BufferView.to_bytes, bind, get_view, get_seg. destruct (_ !! _) as [x|]; [|done].
  destruct (v_released x); [done|]. by destruct (_ !! _).
Qed.

Lemma feed_request_body_safe data : safe (ProxyExchange.feed_request_body data).
Proof.
  unfold ProxyExchange.feed_request_body. safely;
    try (apply safe_heap_read; auto using chunk_size_pure, chunk_bytes_pure).
Qed.
Lemma finish_request_safe trailers : safe (ProxyExchange.finish_request trailers).
Proof. unfold ProxyExchange.finish_request. safely. Qed.

Lemma on_head_safe h n : safe (ProxyExchange.on_head h n).
Proof. unfold ProxyExchange.on_head. safely. Qed.
Lemma on_body_safe d n : safe (ProxyExchange.on_body d n).
Proof. unfold ProxyExchange.on_body. safely. Qed.
Lemma on_end_safe trailers n : safe (ProxyExchange.on_end trailers n).
Proof. unfold ProxyExchange.on_end. safely. Qed.
#[local] Hint Resolve on_head_safe on_body_safe on_end_safe : moves.

Lemma feed_events_safe events : forall n, safe (ProxyExchange.feed_events events n).
Proof. induction events as [|e events IH]; intros n; cbn [ProxyExchange.feed_events]; safely; apply IH. Qed.
Lemma eof_events_safe events : forall n, safe (ProxyExchange.eof_events events n).
Proof. induction events as [|e events IH]; intros n; cbn [ProxyExchange.eof_events]; safely; apply IH. Qed.
#[local] Hint Resolve feed_events_safe eof_events_safe : moves.

Lemma feed_upstream_safe d : safe (ProxyExchange.feed_upstream d).
Proof. unfold ProxyExchange.feed_upstream. safely. Qed.
Lemma upstream_eof_safe : safe ProxyExchange.upstream_eof.
Proof. unfold ProxyExchange.upstream_eof. safely. Qed.

(** Reading, then releasing what was read. *)
Lemma read_then_release {A} (m : M st bytes) (k : bytes -> M st A) :
  (forall t, inv 0 t -> wp m (fun d => inv (len d)) (fun _ _ => False) t) -> (forall d, safe (k d)) ->
  safe (let! d := m in ProxyExchange.release (len d) ;;! k d).
Proof.
  intros Hm Hk t Ht. apply wp_bind. eapply wp_mono; [| |by apply Hm]; [|done]. intros d t1 Ht1. apply wp_bind.
  pose proof (len_nonneg d). eapply wp_mono; [| |apply (release_held_run 0 (len d)); [by rewrite Z.max_r by lia|lia]]; [|done].
  intros u t2 [Ht2 _]. by apply Hk.
Qed.
Lemma take_upstream_safe limit : safe (ProxyExchange.take_upstream limit).
Proof.
  apply safe_bind; [apply moves_self|]. intros x. apply read_then_release; [intros; by apply upstream_read_run|].
  intros d. safely.
Qed.
Lemma take_downstream_safe limit : safe (ProxyExchange.take_downstream limit).
Proof.
  apply safe_bind; [apply moves_self|]. intros x. apply read_then_release; [intros; by apply downstream_read_run|].
  intros d. safely.
Qed.

(** Closing empties a buffer. *)
Lemma closed_empty l h b f : refines l ext h b f -> f_bytes (if f_closed f then f else Fifo [] false true) = [].
Proof.
  intros Hrf. destruct (f_closed f) eqn:E; [|done].
  apply (re_closed _ _ _ (rf_repr _ _ _ _ _ Hrf)). by rewrite (rf_closed _ _ _ _ _ Hrf).
Qed.

Lemma release_ex n (t : st) : wp (ProxyExchange.release n) (fun _ t' => ProxyExchange.s_ex t' = ProxyExchange.s_ex t)
  (fun _ t' => ProxyExchange.s_ex t' = ProxyExchange.s_ex t) t.
Proof.
  unfold ProxyExchange.release. apply wp_bind. unfold wp at 1. cbn [ProxyExchange.self]. destruct (_ && _); [|done].
  apply wp_zoom. unfold wp. by destruct (acc_release n _) as [[?|?] ?].
Qed.
(** It never raises, and the exchange is cancelled. *)
Lemma cancel_ends reason t : inv 0 t ->
  wp (ProxyExchange.cancel reason) (fun _ t' => inv 0 t' /\ ex_cancelled (ProxyExchange.s_ex t') = true) (fun _ _ => False) t.
Proof.
  destruct t as [x h w]. intros Ht. unfold ProxyExchange.cancel. apply wp_bind. unfold wp at 1. cbn [ProxyExchange.self ProxyExchange.s_ex].
  destruct (ex_cancelled x) eqn:Ex; [by apply wp_ret|]. destruct Ht as (fu & fd & [Hb Hh Hr Hc]). cbn in Hb, Hh, Hc.
  apply wp_bind, wp_modify. cbn [ProxyExchange.s_ex ProxyExchange.s_heap ProxyExchange.s_world]. cbv zeta.
  destruct (buffer_close_run _ _ _ _ _ (tb_fst _ _ _ _ _ _ Hb)) as (ru & h1 & b1 & E1 & Hf1 & Hm1).
  pose proof (two_buffers_step _ _ _ _ _ _ _ _ _ Hb Hf1 Hm1) as Hb1.
  destruct (buffer_close_run _ _ _ _ _ (tb_snd _ _ _ _ _ _ Hb1)) as (rd & h2 & b2 & E2 & Hf2 & Hm2).
  pose proof (two_buffers_swap _ _ _ _ _ _ (two_buffers_step _ _ _ _ _ _ _ _ _ (two_buffers_swap _ _ _ _ _ _ Hb1) Hf2 Hm2)) as Hb2.
  apply wp_bind. unfold wp at 1. erewrite on_upstream_run by exact E1.
  apply wp_bind. unfold wp at 1. erewrite on_downstream_run by exact E2.
  rewrite (re_queued _ _ _ (rf_repr _ _ _ _ _ (tb_fst _ _ _ _ _ _ Hb))), (re_queued _ _ _ (rf_repr _ _ _ _ _ (tb_snd _ _ _ _ _ _ Hb))).
  pose proof (len_nonneg (f_bytes fu)). pose proof (len_nonneg (f_bytes fd)).
  match goal with |- wp (ProxyExchange.release ?n) _ _ ?t =>
    assert (inv (0 + Z.max 0 n) t) as Hi; [|pose proof (release_held_run 0 n t Hi ltac:(lia)) as Hr1; pose proof (release_ex n t) as He] end.
  2:{ unfold wp in *. destruct (ProxyExchange.release _ _) as [[u|e] t']; [|done]. split; [by destruct Hr1|by rewrite He]. }
  eexists _, _. split; cbn -[len Z.max Z.add]; [exact Hb2| |lia|].
  - rewrite (closed_empty _ _ _ _ (tb_fst _ _ _ _ _ _ Hb)), (closed_empty _ _ _ _ (tb_snd _ _ _ _ _ _ Hb1)).
    pose proof (@len_nil Z).
    refine (eq_ind _ (acc_held w) Hh _ _). unfold holds. cbn [accounting ex_set_parts ex_set_cancelled].
    destruct (accounting x); lia.
  - intros _. by destruct (f_closed fu) eqn:Eu, (f_closed fd) eqn:Ed.
Qed.
Lemma cancel_safe reason : safe (ProxyExchange.cancel reason).
Proof. intros t Ht. eapply wp_mono; [| |by apply cancel_ends]; [by intros ? ? []|done]. Qed.

(** *** Any sequence of calls *)

Inductive exchange_call :=
| FeedRequestBody (data : chunk) | FinishRequest (trailers : list (str * str)) | TakeUpstream (limit : Z)
| FeedUpstream (data : bytes) | UpstreamEof | TakeDownstream (limit : Z) | Cancel (reason : str).

Definition call_exchange (c : exchange_call) : M st unit :=
  match c with
  | FeedRequestBody data => let! _ := ProxyExchange.feed_request_body data in ret tt
  | FinishRequest trailers => let! _ := ProxyExchange.finish_request trailers in ret tt
  | TakeUpstream limit => let! _ := ProxyExchange.take_upstream limit in ret tt
  | FeedUpstream data => let! _ := ProxyExchange.feed_upstream data in ret tt
  | UpstreamEof => let! _ := ProxyExchange.upstream_eof in ret tt
  | TakeDownstream limit => let! _ := ProxyExchange.take_downstream limit in ret tt
  | Cancel reason => ProxyExchange.cancel reason
  end.
(** Runs the calls in turn, going on after a call that raised. *)
Definition run_exchange (calls : list exchange_call) (t : st) : st :=
  foldl (fun t c => snd (call_exchange c t)) t calls.

Lemma call_safe c : safe (call_exchange c).
Proof.
  destruct c; cbn [call_exchange]; [..|apply cancel_safe]; (apply safe_bind; [|intros; apply moves_ret]).
  - apply feed_request_body_safe.
  - apply finish_request_safe.
  - apply take_upstream_safe.
  - apply feed_upstream_safe.
  - apply upstream_eof_safe.
  - apply take_downstream_safe.
Qed.
Lemma run_exchange_safe calls : forall t, inv 0 t -> inv 0 (run_exchange calls t).
Proof.
  induction calls as [|c calls IH]; intros t Ht; [done|]. cbn. apply IH. pose proof (call_safe c t Ht) as Hc.
  unfold wp in Hc. by destruct (call_exchange c t) as [[u|e] t'].
Qed.

(** A constructed exchange holds what its request head takes; a constructor that raises holds nothing. *)
Lemma init_safe m tg hs ua ip sch oh cl ch tf eh seg lo hi mx acct h (w : W) r h' w' :
  heap_ok h ext -> acc_held w base ->
  ProxyExchange.init m tg hs ua ip sch oh cl ch tf eh seg lo hi mx acct h w = (r, (h', w')) ->
  match r with Ok t => inv 0 t | Raise _ => acc_held w' base end.
Proof.
  intros Hok Hw. unfold ProxyExchange.init. cbv zeta.
  destruct (mx <=? 0); [by intros [= <- <- <-]|].
  destruct (Http1UpstreamCodec.init _ _ _ _ _) as [codec|e]; [|by intros [= <- <- <-]]. cbn [rbind].
  destruct (ChannelBuffer.init _ _ _ _) as [b|e] eqn:Eb; [|by intros [= <- <- <-]]. cbn [rbind].
  destruct (encode_proxy_request_head _ _ _ _ _ _ _ _ _ _ _) as [hd|e]; [|by intros [= <- <- <-]]. cbn [rbind].
  destruct (init_refines _ _ _ _ _ h ext Hok Eb) as [Hrf Hp]. pose proof (refines_own _ _ _ _ _ Hrf) as El. rewrite El in Hrf.
  match goal with |- context [ProxyExchange.append_upstream _ ?t] => set (t0 := t) end.
  assert (inv 0 t0) as Ht0.
  { exists (Fifo [] false false), (Fifo [] false false). split; [|cbn -[Z.add]|done|done].
    - split; [done|done|]. cbn. rewrite Hp. intros u Hu. by apply not_elem_of_nil in Hu.
    - refine (eq_ind _ (acc_held w) Hw _ _). unfold holds, t0. cbn -[Z.add]. pose proof (@len_nil Z). destruct acct; lia. }
  pose proof (append_upstream_run (CBytes hd) t0 Ht0) as Ha. unfold wp in Ha.
  destruct (ProxyExchange.append_upstream (CBytes hd) t0) as [[n|e] t1] eqn:Et; intros [= <- <- <-]; [done|].
  destruct Ha as [(fu & fd & [Hb' Hh' _ _]) [Q1 Q2]].
  rewrite (re_queued _ _ _ (rf_repr _ _ _ _ _ (tb_fst _ _ _ _ _ _ Hb'))) in Q1.
  rewrite (re_queued _ _ _ (rf_repr _ _ _ _ _ (tb_snd _ _ _ _ _ _ Hb'))) in Q2.
  assert (queued_bytes b = 0) as Hq by (by rewrite (re_queued _ _ _ (rf_repr _ _ _ _ _ Hrf))).
  cbn in Q1, Q2. rewrite Q1, Q2, Hq in Hh'. refine (eq_ind _ (acc_held _) Hh' _ _). unfold holds.
  destruct (accounting _); lia.
Qed.

(** What the invariant says of the fields of the code. *)
Lemma inv_fields t : inv 0 t ->
  acc_held (ProxyExchange.s_world t)
    (holds (ProxyExchange.s_ex t)
       (queued_bytes (to_upstream (ProxyExchange.s_ex t)) + queued_bytes (to_downstream (ProxyExchange.s_ex t)))) /\
  (ex_cancelled (ProxyExchange.s_ex t) = true -> acc_held (ProxyExchange.s_world t) base).
Proof.
  intros (fu & fd & [Hb Hh _ Hc]).
  pose proof (re_queued _ _ _ (rf_repr _ _ _ _ _ (tb_fst _ _ _ _ _ _ Hb))) as Eu.
  pose proof (re_queued _ _ _ (rf_repr _ _ _ _ _ (tb_snd _ _ _ _ _ _ Hb))) as Ed.
  split.
  - refine (eq_ind _ (acc_held _) Hh _ _). unfold holds. destruct (accounting _); lia.
  - intros Hca. destruct (Hc Hca) as [Hu Hd]. refine (eq_ind _ (acc_held _) Hh _ _). unfold holds.
    pose proof (closed_empty _ _ _ _ (tb_fst _ _ _ _ _ _ Hb)) as Z1. pose proof (closed_empty _ _ _ _ (tb_snd _ _ _ _ _ _ Hb)) as Z2.
    rewrite Hu in Z1. rewrite Hd in Z2. rewrite Z1, Z2. pose proof (@len_nil Z). destruct (accounting _); lia.
Qed.
End accounting.

(** ** Properties *)

(** C4: the gateway-wide reservation is exactly what is queued.  Whatever calls are made on
    an exchange, in whatever order and with bytes or buffer views, live or released, and
    whichever of them raise, the bytes it has reserved from the accounting are the bytes
    its two buffers queue (none if it has no accounting); once cancelled it holds none;
    and a constructor that raises leaves nothing reserved. *)
Theorem exchange_reserves_what_it_queues {W} `{AccountingLaws W} ext base m tg hs ua ip sch oh cl ch tf eh seg lo hi mx acct
    h (w : W) r h' w' calls :
  0 <= base -> heap_ok h ext -> acc_held w base ->
  ProxyExchange.init m tg hs ua ip sch oh cl ch tf eh seg lo hi mx acct h w = (r, (h', w')) ->
  match r with
  | Raise _ => acc_held w' base
  | Ok t =>
      let t' := run_exchange calls t in
      let x := ProxyExchange.s_ex t' in
      acc_held (ProxyExchange.s_world t')
        (base + (if accounting x then queued_bytes (to_upstream x) + queued_bytes (to_downstream x) else 0)) /\
      (ex_cancelled x = true -> acc_held (ProxyExchange.s_world t') base)
  end.
Proof.
  intros Hbase Hok Hw Hi. pose proof (init_safe ext base Hbase _ _ _ _ _ _ _ _ _ _ _ _ _ _ _ _ _ _ _ _ _ Hok Hw Hi) as Hr.
  destruct r as [t|e]; [|done]. exact (inv_fields ext base _ (run_exchange_safe ext base Hbase calls t Hr)).
Qed.

(** A gateway that allows 400 buffered bytes, and a POST of 5 bytes through it. *)
Definition sample_gateway : lifecycle unit unit := init tt (AdmissionLimits 1 1 1 1 400).
Definition sample_exchange :=
  ProxyExchange.init (W := lifecycle unit unit) (py "POST") (py "/x") [] (py "up:80") (py "1.2.3.4") (py "http") (py "host")
    5 false false false 16 (-1) (-1) 1000 true (Heap [] []) sample_gateway.
Definition sample_gauge (calls : list exchange_call) : option Z :=
  match fst sample_exchange with
  | Ok t => metrics (ProxyExchange.s_world (run_exchange calls t)) !! py "buffered_bytes"
  | Raise _ => None
  end.

Lemma exchange_reserves_what_it_queues_witness :
  sample_gauge [FeedRequestBody (CBytes (py "hello")); FeedRequestBody (CBytes (py "!")); TakeUpstream 10] = Some 122 /\
  sample_gauge [FeedRequestBody (CBytes (py "hello")); TakeUpstream 10; Cancel (py "gone")] = Some 0.
Proof.
  pose proof (fun calls => exchange_reserves_what_it_queues (W := lifecycle unit unit) (fun _ => 0) 0 (py "POST") (py "/x") [] (py "up:80")
    (py "1.2.3.4") (py "http") (py "host") 5 false false false 16 (-1) (-1) 1000 true (Heap [] []) sample_gateway
    (fst sample_exchange) (fst (snd sample_exchange)) (snd (snd sample_exchange)) calls
    ltac:(lia) heap_ok_empty eq_refl ltac:(vm_compute; reflexivity)) as T.
  pose proof (T [FeedRequestBody (CBytes (py "hello")); FeedRequestBody (CBytes (py "!")); TakeUpstream 10]) as T1.
  pose proof (T [FeedRequestBody (CBytes (py "hello")); TakeUpstream 10; Cancel (py "gone")]) as T2. clear T.
  vm_compute in T1, T2. vm_compute. split; [exact (proj1 T1)|exact (proj2 T2 eq_refl)].
Defined.
