(* ===== verification/ProxyPool.v ===== *)
(** * The upstream connection pool ([UpstreamConnectionPool] of [pcc_gateway/proxy_http1.py])

    Pooled connections live in a store and the idle list refers to them by index; their
    leases are those of [Proxy].  [close_connection] and [open_connection] are callbacks
    over a world [W].  Each method is its section under the pool's lock and the callbacks
    it makes outside it.  The theorems are in [ProxyPoolSpec]. *)

From S2P Require Import Prelude PyStr DnsPolicy Proxy.
#[local] Open Scope Z_scope.

Record connection := PooledUpstreamConnection {
  pc_handle : Z;
  pc_lease : nat;
  created_ms : Z;
  last_used_ms : Z;
  connected : bool;
  pc_released : bool;
}.
Definition needs_open (c : connection) : bool := pc_handle c <? 0.

Record pool := ConnectionPool {
  po_group : nat;
  idle_timeout_ms : Z;
  idle : list nat;
  connections : list connection;
  ups : upstreams;
}.

Definition set_idle (l : list nat) (p : pool) : pool :=
  ConnectionPool (po_group p) (idle_timeout_ms p) l (connections p) (ups p).
Definition set_connections (l : list connection) (p : pool) : pool :=
  ConnectionPool (po_group p) (idle_timeout_ms p) (idle p) l (ups p).
Definition set_ups (u : upstreams) (p : pool) : pool :=
  ConnectionPool (po_group p) (idle_timeout_ms p) (idle p) (connections p) u.

Module UpstreamConnectionPool.

Definition init (group : nat) (idle_timeout_ms : Z) (u : upstreams) : result pool :=
  if idle_timeout_ms <=? 0 then Raise (ValueError (py "upstream idle timeout must be positive"))
  else Ok (ConnectionPool group idle_timeout_ms [] [] u).

(** Sections under the pool's lock. *)
Abbreviation P := (M pool).
Definition on_ups {A} (m : M upstreams A) : P A := zoom ups set_ups m.
Definition get_conn (c : nat) : P connection := fun p =>
  match connections p !! c with Some x => (Ok x, p) | None => (Raise gone, p) end.
Definition set_conn (c : nat) (x : connection) : P unit :=
  modify (fun p => set_connections (<[c := x]> (connections p)) p).
Definition alloc_conn (x : connection) : P nat := fun p =>
  (Ok (length (connections p)), set_connections (connections p ++ [x]) p).

Definition accept_and_order_addresses (endpoint : nat) (values : list str) (qtype : Z) : P (list str) :=
  let! p := get in
  on_ups (UpstreamGroup.accept_and_order_addresses (po_group p) endpoint values qtype).
Definition saturated : P bool :=
  let! p := get in on_ups (UpstreamGroup.saturated (po_group p)).

Definition close_locked (c : nat) (failed : bool) : P Z :=
  let! x := get_conn c in
  if pc_released x then ret (-1)
  else
    set_conn c (PooledUpstreamConnection (pc_handle x) (pc_lease x) (created_ms x) (last_used_ms x)
                  (connected x) true) ;;!
    on_ups (UpstreamGroup.lease_release (pc_lease x) failed) ;;!
    ret (pc_handle x).

(** One pass of the [reserve] loop under the lock: what to return, or the
    descriptor of an expired connection to close before trying again. *)
Inductive reservation := Reserved (c : nat) | Exhausted | Expired (handle : Z).
Definition reserve_locked (now_ms : Z) : P reservation :=
  let! p := get in
  match rev (idle p) with
  | c :: rest =>
      put (set_idle (rev rest) p) ;;!
      let! x := get_conn c in
      if negb (pc_released x) && (now_ms - last_used_ms x <? idle_timeout_ms p) then ret (Reserved c)
      else let! h := close_locked c false in ret (Expired h)
  | [] =>
      let! l := on_ups (UpstreamGroup.acquire (po_group p)) in
      match l with
      | None => ret Exhausted
      | Some l =>
          let! c := alloc_conn (PooledUpstreamConnection (-1) l now_ms now_ms false false) in
          ret (Reserved c)
      end
  end.

(** [true] when the connection cannot take the handle. *)
Definition opened_locked (c : nat) (handle : Z) : P bool :=
  let! x := get_conn c in
  if pc_released x || (pc_handle x >=? 0) then ret true
  else
    set_conn c (PooledUpstreamConnection handle (pc_lease x) (created_ms x) (last_used_ms x)
                  (connected x) (pc_released x)) ;;!
    ret false.

(** [None] when the connection went back to the idle list. *)
Definition release_locked (c : nat) (now_ms : Z) (reusable : bool) : P (option Z) :=
  let! x := get_conn c in
  if pc_released x then raise (RuntimeError (py "upstream connection released more than once"))
  else
    set_conn c (PooledUpstreamConnection (pc_handle x) (pc_lease x) (created_ms x) now_ms
                  (connected x) (pc_released x)) ;;!
    let! p := get in
    let! g := on_ups (UpstreamGroup.get_group (po_group p)) in
    if (pc_handle x >=? 0) && reusable && (len (idle p) <? max_idle g)
    then modify (set_idle (idle p ++ [c])) ;;! ret None
    else let! h := close_locked c (negb reusable) in ret (Some h).

Fixpoint close_all (cs : list nat) : P (list Z) :=
  match cs with
  | [] => ret []
  | c :: cs' =>
      let! x := get_conn c in
      if pc_released x then close_all cs'
      else
        let! h := close_locked c false in
        let! hs := close_all cs' in
        ret (h :: hs)
  end.
(** The handles of the idle connections, one per connection closed. *)
Definition close_idle_locked : P (list Z) :=
  let! p := get in
  modify (set_idle []) ;;!
  close_all (idle p).

Section callbacks.
Context {W : Type} (close_connection : option (Z -> M W unit)).

Abbreviation PW := (M (pool * W)).
Definition locked {A} (m : P A) : PW A := zoom fst (fun p t => (p, snd t)) m.
Definition world {A} (m : M W A) : PW A := zoom snd (fun w t => (fst t, w)) m.

Definition close_handle (handle : Z) : PW unit :=
  match close_connection with
  | Some f => if handle >=? 0 then world (f handle) else ret tt
  | None => ret tt
  end.
Definition close_ (c : nat) (failed : bool) : PW unit :=
  let! h := locked (close_locked c failed) in close_handle h.

(** Every pass but the last takes one idle connection. *)
Fixpoint reserve_loop (fuel : nat) (now_ms : Z) : PW (option nat) :=
  match fuel with
  | O => raise out_of_fuel
  | S fuel' =>
      let! r := locked (reserve_locked now_ms) in
      match r with
      | Reserved c => ret (Some c)
      | Exhausted => ret None
      | Expired h => close_handle h ;;! reserve_loop fuel' now_ms
      end
  end.
Definition reserve (now_ms : Z) : PW (option nat) :=
  let! p := locked get in reserve_loop (S (length (idle p))) now_ms.

Definition opened (c : nat) (handle : Z) : PW (option nat) :=
  if handle <? 0 then close_ c true ;;! ret None
  else
    let! invalid := locked (opened_locked c handle) in
    if invalid then
      close_handle handle ;;!
      raise (RuntimeError (py "upstream reservation is not openable"))
    else ret (Some c).

Definition acquire (now_ms : Z) (open_connection : nat -> M W Z) : PW (option nat) :=
  let! r := reserve now_ms in
  match r with
  | None => ret None
  | Some c =>
      let! x := locked (get_conn c) in
      if negb (needs_open x) then ret (Some c)
      else
        let! l := locked (on_ups (UpstreamGroup.get_lease (pc_lease x))) in
        let! handle := try_except (world (open_connection (ls_endpoint l)))
                         (fun e => close_ c true ;;! raise e) in
        opened c handle
  end.

Definition release (c : nat) (now_ms : Z) (reusable : bool) : PW bool :=
  let! h := locked (release_locked c now_ms reusable) in
  match h with
  | None => ret true
  | Some h => close_handle h ;;! ret false
  end.

(** The descriptor closes of [close_idle]: all are attempted. *)
Fixpoint close_handles (hs : list Z) (first_error : option exn) : PW (option exn) :=
  match hs with
  | [] => ret first_error
  | h :: hs' =>
      let! e := try_except (close_handle h ;;! ret None) (fun e => ret (Some e)) in
      close_handles hs' (match first_error with Some x => Some x | None => e end)
  end.
Definition close_idle : PW Z :=
  let! handles := locked close_idle_locked in
  let! e := close_handles handles None in
  match e with
  | Some _ => raise (RuntimeError (py "upstream idle close callback failed"))
  | None => ret (len handles)
  end.

End callbacks.
End UpstreamConnectionPool.
