(* ===== verification/ProxyPoolSpec.v ===== *)
(** * Properties of the upstream connection pool

    Every connection of the pool holds one lease and at most one descriptor.  The close and
    open callbacks are arbitrary; a log beside their world records the descriptors the pool
    was given and those it passed to the close callback. *)

From S2P Require Import Prelude PyStr PyLists DnsPolicy Proxy ProxySpec ProxyPool.
#[local] Open Scope Z_scope.

(** ** The configuration of the groups never changes *)

Definition shape (u : upstreams) : list (list nat * Z * Z) :=
  map (fun x => (gr_endpoints x, max_active x, max_idle x)) (groups u).
Definition keeps_shape {A} (m : M upstreams A) : Prop :=
  forall u, wp m (fun _ u' => shape u' = shape u) (fun _ u' => shape u' = shape u) u.

Lemma shape_insert u e g x y l : groups u !! g = Some x ->
  gr_endpoints y = gr_endpoints x -> max_active y = max_active x -> max_idle y = max_idle x ->
  shape (Upstreams e (<[g := y]> (groups u)) l) = shape u.
Proof.
  intros Hx E1 E2 E3. unfold shape. cbn [groups]. rewrite list_fmap_insert, E1, E2, E3.
  apply list_insert_id. by rewrite list_lookup_fmap, Hx.
Qed.

Lemma wp_and {S A} (m : M S A) Q Q' E E' s : wp m Q E s -> wp m Q' E' s ->
  wp m (fun a t => Q a t /\ Q' a t) (fun e t => E e t /\ E' e t) s.
Proof. unfold wp. by destruct (m s) as [[a|e] t]. Qed.

(** [get_group g], then [set_group g]: the configuration of the group is kept. *)
Lemma keeps_get_group {A} g (k : group -> M upstreams A) u :
  (forall x, groups u !! g = Some x -> wp (k x) (fun _ u' => shape u' = shape u) (fun _ u' => shape u' = shape u) u) ->
  wp (let! x := UpstreamGroup.get_group g in k x) (fun _ u' => shape u' = shape u) (fun _ u' => shape u' = shape u) u.
Proof.
  intros Hk. apply wp_bind. unfold wp at 1, UpstreamGroup.get_group. destruct (groups u !! g) as [x|] eqn:Hx; [by apply Hk|done].
Qed.
Lemma keeps_on_endpoint {A} e (m : M endpoint A) : keeps_shape (UpstreamGroup.on_endpoint e m).
Proof.
  intros u. unfold wp, UpstreamGroup.on_endpoint. destruct (endpoints u !! e) as [x|]; [|done].
  by destruct (m x) as [[a|ex] x'].
Qed.

Lemma acquire_loop_shape n g : keeps_shape (UpstreamGroup.acquire_loop n g).
Proof.
  induction n as [|n IH]; intros u; [done|]. cbn [UpstreamGroup.acquire_loop]. apply keeps_get_group. intros x Hx.
  destruct (at_ _ _) as [e|]; [|done]. apply wp_bind, wp_modify.
  match goal with |- wp _ _ _ ?u1 => assert (shape u1 = shape u) as E1 by (by eapply shape_insert); rewrite <- E1; clear E1; generalize u1 end.
  intros u1. apply wp_bind. eapply wp_mono; [| |apply keeps_on_endpoint]; [|done]. intros t u2 E2. rewrite <- E2.
  destruct t; [|apply IH]. apply keeps_get_group. intros x2 Hx2. apply wp_bind, wp_modify, wp_ret. by eapply shape_insert.
Qed.
Lemma acquire_shape g : keeps_shape (UpstreamGroup.acquire g).
Proof.
  intros u. apply keeps_get_group. intros x Hx. destruct (_ >=? _); [done|]. apply wp_bind.
  eapply wp_mono; [| |apply acquire_loop_shape]; [|done]. by intros [e|] u' E.
Qed.
Lemma lease_release_shape l failed : keeps_shape (UpstreamGroup.lease_release l failed).
Proof.
  intros u. unfold UpstreamGroup.lease_release, UpstreamGroup.release_lease, UpstreamGroup.get_lease. apply wp_bind.
  unfold wp at 1. destruct (leases u !! l) as [z|] eqn:Hz; [|done]. apply wp_bind. unfold wp at 1. rewrite Hz.
  destruct (_ || _); [done|]. apply wp_bind, wp_modify.
  match goal with |- wp _ _ _ ?u1 => change (shape u) with (shape u1); generalize u1 end. intros u1.
  apply wp_bind. eapply wp_mono; [| |apply keeps_on_endpoint]; [|done]. intros t u2 E2. rewrite <- E2.
  apply keeps_get_group. intros x2 Hx2. apply wp_modify. by eapply shape_insert.
Qed.

(** ** Connections and leases *)

Definition conn_live (x : connection) : bool := negb (pc_released x).
(** The descriptor a connection holds, if any. *)
Definition fd (h : Z) : list Z := if h >=? 0 then [h] else [].
Definition conn_fd (x : connection) : list Z := if pc_released x then [] else fd (pc_handle x).
Definition held_fds (p : pool) : list Z := flat_map conn_fd (connections p).

Record pool_ok (p : pool) : Prop := {
  pk_accounted : accounted (ups p);
  pk_leases : map pc_lease (connections p) = seq 0 (length (leases (ups p)));
  pk_status : Forall2 (fun x z => ls_group z = po_group p /\ ls_released z = pc_released x)
                (connections p) (leases (ups p));
  pk_idle : Forall (fun c => (c < length (connections p))%nat) (idle p);
  pk_group : exists g, groups (ups p) !! po_group p = Some g /\ len (idle p) <= max_idle g;
}.

Lemma flat_map_insert {A B} (f : A -> list B) l i x y :
  l !! i = Some x -> flat_map f (<[i := y]> l) ++ f x ≡ₚ flat_map f l ++ f y.
Proof.
  revert i. induction l as [|a l IH]; intros [|i] Hi; cbn in *; [done..| |].
  - injection Hi as ->. rewrite <- !app_assoc. rewrite (Permutation_app_comm (flat_map f l) (f x)).
    rewrite (Permutation_app_comm (flat_map f l) (f y)). rewrite !app_assoc. apply Permutation_app_tail, Permutation_app_comm.
  - rewrite <- !app_assoc. apply Permutation_app_head. by apply IH.
Qed.

Lemma count_status (P : lease -> bool) (Q : connection -> bool) cs ls :
  Forall2 (fun x z => P z = Q x) cs ls -> count P ls = count Q cs.
Proof. induction 1 as [|x z cs ls E _ IH]; cbn; [done|]. by rewrite E, IH. Qed.

(** The group's admission is the number of live connections. *)
Lemma pool_admission p g : pool_ok p -> groups (ups p) !! po_group p = Some g ->
  gr_active g = count conn_live (connections p).
Proof.
  intros [Ha _ Hs _ _] Hg. destruct (acc_groups _ Ha _ _ Hg) as (_ & _ & _ & -> & _). apply count_status.
  eapply Forall2_impl; [exact Hs|]. intros x z [E1 E2]. unfold live_in, conn_live. rewrite E2, bool_decide_eq_true_2 by done.
  apply andb_true_r.
Qed.

Lemma pool_lease p c x : pool_ok p -> connections p !! c = Some x ->
  pc_lease x = c /\ exists z, leases (ups p) !! c = Some z /\ ls_group z = po_group p /\ ls_released z = pc_released x.
Proof.
  intros [_ Hl Hs _ _] Hx. assert (map pc_lease (connections p) !! c = Some (pc_lease x)) as Hm by (by rewrite list_lookup_fmap, Hx).
  rewrite Hl in Hm. apply lookup_seq in Hm as [-> Hlt]. split; [done|].
  destruct (Forall2_lookup_l _ _ _ _ _ Hs Hx) as (z & Hz & ?). by exists z.
Qed.

(** A change of a connection that keeps its lease, and its being live. *)
Lemma pool_ok_set_conn p c x y : pool_ok p -> connections p !! c = Some x ->
  pc_lease y = pc_lease x -> pc_released y = pc_released x -> pool_ok (set_connections (<[c := y]> (connections p)) p).
Proof.
  intros [Ha Hl Hs Hi Hg] Hx E1 E2. split; cbn [connections ups po_group idle set_connections]; [done| | |by rewrite length_insert|done].
  - rewrite list_fmap_insert, E1, <- Hl. apply list_insert_id. by rewrite list_lookup_fmap, Hx.
  - destruct (Forall2_lookup_l _ _ _ _ _ Hs Hx) as (z & Hz & Ez). rewrite <- (list_insert_id _ _ _ Hz).
    apply Forall2_insert; [done|]. by rewrite E2.
Qed.

Lemma pool_ok_set_idle p l : pool_ok p -> Forall (fun c => (c < length (connections p))%nat) l ->
  (forall g, groups (ups p) !! po_group p = Some g -> len l <= max_idle g) -> pool_ok (set_idle l p).
Proof.
  intros [Ha Hl Hs Hi (g & Hg & _)] Hv Hlen. split; cbn; try done. exists g. auto.
Qed.

Lemma shape_group u u' g x : shape u' = shape u -> groups u !! g = Some x ->
  exists x', groups u' !! g = Some x' /\ max_idle x' = max_idle x.
Proof.
  intros E Hx. assert (shape u' !! g = Some (gr_endpoints x, max_active x, max_idle x)) as Hs.
  { rewrite E. unfold shape. by rewrite list_lookup_fmap, Hx. }
  unfold shape in Hs. rewrite list_lookup_fmap in Hs. destruct (groups u' !! g) as [x'|]; [|done].
  exists x'. split; [done|]. by injection Hs.
Qed.

(** ** The sections under the lock *)

Lemma wp_conn {Q E} c p : (forall x, connections p !! c = Some x -> Q x p) ->
  (connections p !! c = None -> E gone p) -> wp (UpstreamConnectionPool.get_conn c) Q E p.
Proof. intros HQ HE. unfold wp, UpstreamConnectionPool.get_conn. destruct (connections p !! c); auto. Qed.
Lemma wp_on_ups {A} (m : M upstreams A) Q E p :
  wp m (fun a u => Q a (set_ups u p)) (fun e u => E e (set_ups u p)) (ups p) -> wp (UpstreamConnectionPool.on_ups m) Q E p.
Proof. unfold wp, UpstreamConnectionPool.on_ups, zoom. by destruct (m (ups p)) as [[a|e] u]. Qed.

(** What a section does to the descriptors held: it gains [gain] and gives up [loss]. *)
Record trades (p p' : pool) (gain loss : list Z) : Prop := {
  tr_ok : pool_ok p';
  tr_fds : held_fds p ++ gain ≡ₚ held_fds p' ++ loss;
  tr_group : po_group p' = po_group p;
  tr_size : (length (connections p) <= length (connections p'))%nat;
}.
Lemma trades_none p p' : pool_ok p' -> connections p' = connections p -> po_group p' = po_group p -> trades p p' [] [].
Proof. intros Hok E Eg. split; [done| |done|by rewrite E]. unfold held_fds. by rewrite E. Qed.
Lemma trades_refl p : pool_ok p -> trades p p [] [].
Proof. intros. by apply trades_none. Qed.
Lemma trades_trans p q r g l g' l' : trades p q g l -> trades q r g' l' -> trades p r (g ++ g') (l ++ l').
Proof.
  intros [_ H1 E1 S1] [Hok H2 E2 S2]. split; [done| |congruence|lia]. rewrite app_assoc, H1, <- app_assoc.
  rewrite (Permutation_app_comm l g'), app_assoc, H2, <- app_assoc. apply Permutation_app_head, Permutation_app_comm.
Qed.
Lemma trades_set_conn p c x y : connections p !! c = Some x -> pool_ok (set_connections (<[c := y]> (connections p)) p) ->
  trades p (set_connections (<[c := y]> (connections p)) p) (conn_fd y) (conn_fd x).
Proof.
  intros Hx Hok. split; [done| |done|by cbn; rewrite length_insert]. unfold held_fds. cbn [connections set_connections].
  symmetry. by apply flat_map_insert.
Qed.

(** Closing a connection gives its lease back and gives up its descriptor, once. *)
Lemma close_locked_spec c failed p : pool_ok p ->
  wp (UpstreamConnectionPool.close_locked c failed)
     (fun h p' => trades p p' [] (fd h) /\ idle p' = idle p)
     (fun _ p' => p' = p /\ connections p !! c = None) p.
Proof.
  intros Hok. apply wp_bind, wp_conn; [|done]. intros x Hx. destruct (pc_released x) eqn:Hr.
  { apply wp_ret. split; [by apply trades_refl|done]. }
  destruct (pool_lease p c x Hok Hx) as (El & z & Hz & Ezg & Ezr).
  apply wp_bind, wp_modify, wp_bind, wp_on_ups. cbn [ups set_connections]. rewrite El. rewrite Hr in Ezr.
  pose proof (lease_release_spec c failed (ups p) z (pk_accounted p Hok) Hz) as Hs. rewrite Ezr in Hs.
  eapply wp_mono; [| |exact (wp_and _ _ _ _ _ _ Hs (lease_release_shape c failed (ups p)))]; cbn beta; [|tauto].
  intros _u u' [[Ha Hl] Hsh]. apply wp_ret. split; [|done].
  set (y := PooledUpstreamConnection _ _ _ _ _ _).
  change [] with (conn_fd y). replace (fd (pc_handle x)) with (conn_fd x) by (unfold conn_fd; by rewrite Hr).
  destruct Hok as [_ Hls Hs' Hi (g & Hg & Hmax)]. split; [|symmetry; exact (flat_map_insert conn_fd (connections p) c x y Hx)|done|cbn; by rewrite length_insert].
  destruct (shape_group _ _ _ _ Hsh Hg) as (g' & Hg' & Em).
  split; cbn [connections ups po_group idle set_connections set_ups]; [done| | |by rewrite length_insert|exists g'; by rewrite Em].
  - rewrite Hl, length_insert, <- Hls, list_fmap_insert. apply list_insert_id. rewrite list_lookup_fmap, Hx. cbn. by rewrite El.
  - rewrite Hl. by apply Forall2_insert.
Qed.

Lemma len_rev {A} (l : list A) : len (rev l) = len l.
Proof. unfold len. by rewrite length_rev. Qed.

(** One pass of [reserve]: it ends, or it has taken an idle connection off the list. *)
Lemma reserve_locked_spec now p : pool_ok p ->
  wp (UpstreamConnectionPool.reserve_locked now)
     (fun r p' => match r with
        | UpstreamConnectionPool.Reserved c => trades p p' [] [] /\ exists x, connections p' !! c = Some x /\ pc_released x = false
        | UpstreamConnectionPool.Exhausted => trades p p' [] []
        | UpstreamConnectionPool.Expired h => trades p p' [] (fd h) /\ (length (idle p') < length (idle p))%nat
        end) (fun _ _ => False) p.
Proof.
  intros Hok. apply wp_bind, wp_get. destruct (rev (idle p)) as [|c rest] eqn:Er.
  - pose proof (pk_group p Hok) as (g & Hg & Hmax). apply wp_bind, wp_on_ups.
    eapply wp_mono; [| |exact (wp_and _ _ _ _ _ _ (acquire_spec _ _ _ (pk_accounted p Hok) Hg) (acquire_shape _ _))]; cbn beta; [|tauto].
    destruct Hok as [_ Hls Hs Hi _].
    intros [l|] u' [[Ha Hl] Hsh]; destruct (shape_group _ _ _ _ Hsh Hg) as (g' & Hg' & Em).
    + destruct Hl as [-> [e Hl]]. apply wp_bind. unfold wp at 1, UpstreamConnectionPool.alloc_conn. apply wp_ret. cbn.
      assert (length (leases (ups p)) = length (connections p)) as El by (symmetry; by eapply Forall2_length).
      split; [|by rewrite lookup_app_r, Nat.sub_diag by done; eexists].
      split; cbn; [|unfold held_fds; cbn; rewrite flat_map_app; cbn; by rewrite !app_nil_r|done|rewrite length_app; lia].
      split; cbn; [done| | | |exists g'; by rewrite Em].
      * by rewrite Hl, map_app, Hls, length_app, Nat.add_comm, seq_S.
      * rewrite Hl. apply Forall2_app; [done|]. by constructor.
      * eapply Forall_impl; [exact Hi|]. cbn. intros i Hlt. rewrite length_app. lia.
    + apply wp_ret. apply trades_none; [|done..]. split; cbn; [done|by rewrite Hl..|done|exists g'; by rewrite Em].
  - assert (idle p = rev rest ++ [c]) as Eidle by (rewrite <- (rev_involutive (idle p)), Er; done).
    apply wp_bind, wp_put. set (p1 := set_idle (rev rest) p).
    assert (pool_ok p1) as Hok1.
    { apply pool_ok_set_idle; [done| |].
      - pose proof (pk_idle p Hok) as Hi. rewrite Eidle in Hi. by apply Forall_app in Hi as [? _].
      - intros g Hg. destruct (pk_group p Hok) as (g' & Hg' & Hmax). rewrite Hg in Hg'. injection Hg' as <-.
        rewrite Eidle, len_app in Hmax. pose proof (len_nonneg [c]). lia. }
    assert (trades p p1 [] []) as Ht1 by (by apply trades_none).
    apply wp_bind, wp_conn.
    + intros x Hx. destruct (negb (pc_released x) && _) eqn:E.
      * apply wp_ret. b2p. split; [done|]. by exists x.
      * apply wp_bind. eapply wp_mono; [| |by apply (close_locked_spec c false p1)].
        -- intros h p' [Ht Ei]. apply wp_ret. split; [exact (trades_trans _ _ _ _ _ _ _ Ht1 Ht)|]. rewrite Ei, Eidle, length_app. cbn. lia.
        -- intros e p' [_ Hn]. cbn in Hx, Hn. congruence.
    + intros Hn. pose proof (pk_idle p Hok) as Hi. rewrite Eidle in Hi. apply Forall_app in Hi as [_ Hi].
      apply Forall_cons in Hi as [Hlt _]. apply lookup_lt_is_Some_2 in Hlt as [x Hx]. cbn in Hn. congruence.
Qed.

(** Taking over a descriptor: the pool gains it, or refuses and nothing changes. *)
Lemma opened_locked_spec c h p : pool_ok p -> 0 <= h ->
  wp (UpstreamConnectionPool.opened_locked c h)
     (fun refused p' => if refused : bool then p' = p else trades p p' [h] [])
     (fun _ p' => p' = p /\ connections p !! c = None) p.
Proof.
  intros Hok Hh. apply wp_bind, wp_conn; [|done]. intros x Hx. destruct (_ || _) eqn:E; [by apply wp_ret|]. b2p.
  apply wp_bind, wp_modify, wp_ret. assert (pc_released x = false) as Hr by done.
  set (y := PooledUpstreamConnection _ _ _ _ _ _).
  assert ([h] = conn_fd y) as ->.
  { unfold conn_fd, y, fd. cbn. rewrite Hr. by zdec. }
  assert ([] = conn_fd x) as -> by (unfold conn_fd, fd; destruct (pc_released x); [done|]; by zdec).
  apply trades_set_conn; [done|]. by eapply pool_ok_set_conn.
Qed.

Lemma release_locked_spec c now reusable p : pool_ok p ->
  wp (UpstreamConnectionPool.release_locked c now reusable)
     (fun r p' => trades p p' [] (match r with Some h => fd h | None => [] end)) (fun _ p' => trades p p' [] []) p.
Proof.
  intros Hok. apply wp_bind, wp_conn; [|intros _; by apply trades_refl]. intros x Hx.
  destruct (pc_released x) eqn:Hr; [by apply wp_raise, trades_refl|]. apply wp_bind, wp_modify.
  set (y := PooledUpstreamConnection _ _ _ _ _ _). set (p1 := set_connections _ _).
  assert (pool_ok p1) as Hok1 by (by eapply pool_ok_set_conn).
  assert (trades p p1 [] []) as Ht1.
  { split; [done| |done|cbn; by rewrite length_insert]. pose proof (flat_map_insert conn_fd (connections p) c x y Hx) as Hp.
    rewrite !app_nil_r. apply (Permutation_app_inv_r (conn_fd x)). symmetry. etransitivity; [exact Hp|].
    unfold conn_fd, y. cbn. by rewrite Hr. }
  apply wp_bind, wp_get, wp_bind, wp_on_ups. destruct (pk_group p1 Hok1) as (g & Hg & Hmax).
  eapply wp_group; [exact Hg|]. destruct (_ && _ && _) eqn:E.
  - apply wp_bind, wp_modify, wp_ret. b2p. apply (trades_trans _ _ _ [] [] [] [] Ht1). apply trades_none; [|done..].
    assert (set_ups (ups p1) p1 = p1) as -> by (by destruct p). apply pool_ok_set_idle; [done| |].
    + apply Forall_app. split; [exact (pk_idle p1 Hok1)|]. repeat constructor. cbn. rewrite length_insert. by eapply lookup_lt_Some.
    + intros g' Hg'. rewrite Hg in Hg'. injection Hg' as <-. rewrite len_app. cbn in *. change (len [c]) with 1. lia.
  - assert (set_ups (ups p1) p1 = p1) as -> by (by destruct p).
    apply wp_bind. eapply wp_mono; [| |by apply close_locked_spec].
    + intros h p' [Ht _]. apply wp_ret. exact (trades_trans _ _ _ [] [] [] _ Ht1 Ht).
    + by intros e p' [-> _].
Qed.

Lemma close_all_spec cs : forall p, pool_ok p -> Forall (fun c => (c < length (connections p))%nat) cs ->
  wp (UpstreamConnectionPool.close_all cs) (fun hs p' => trades p p' [] (flat_map fd hs) /\ idle p' = idle p) (fun _ _ => False) p.
Proof.
  induction cs as [|c cs IH]; intros p Hok Hv; cbn [UpstreamConnectionPool.close_all].
  { apply wp_ret. split; [by apply trades_refl|done]. }
  apply Forall_cons in Hv as [Hc Hv]. apply wp_bind, wp_conn.
  2:{ intros Hn. apply lookup_ge_None in Hn. lia. }
  intros x Hx. destruct (pc_released x); [by apply IH|]. apply wp_bind.
  eapply wp_mono; [| |by apply close_locked_spec]; [|intros e p' [_ Hn]; congruence]. intros h p1 [Ht1 Ei1].
  apply wp_bind. eapply wp_mono; [| |apply IH]; [|done|apply Ht1|].
  - intros hs p2 [Ht2 Ei2]. apply wp_ret. split; [exact (trades_trans _ _ _ [] _ [] _ Ht1 Ht2)|congruence].
  - eapply Forall_impl; [exact Hv|]. cbn. intros i Hi. pose proof (tr_size _ _ _ _ Ht1). lia.
Qed.

Lemma close_idle_locked_spec p : pool_ok p ->
  wp UpstreamConnectionPool.close_idle_locked (fun hs p' => trades p p' [] (flat_map fd hs) /\ idle p' = []) (fun _ _ => False) p.
Proof.
  intros Hok. apply wp_bind, wp_get, wp_bind, wp_modify.
  assert (pool_ok (set_idle [] p)) as Hok1.
  { apply pool_ok_set_idle; [done|constructor|]. intros g Hg. destruct (pk_group p Hok) as (g' & Hg' & ?).
    rewrite Hg in Hg'. injection Hg' as <-. pose proof (len_nonneg (idle p)). change (len []) with 0. lia. }
  eapply wp_mono; [| |apply (close_all_spec (idle p) _ Hok1); exact (pk_idle p Hok)]; [|done].
  intros hs p' [[Ho Hf Hg Hs] Hi]. split; [|exact Hi]. by split.
Qed.

(** ** The callbacks, and the log of descriptors *)

Record fd_log := FdLog { given : list Z; closed_fds : list Z }.

Section world.
Context {W : Type} (f : Z -> M W unit).
(** The close callback under observation: it is attempted once per call. *)
Definition logged_close (h : Z) : M (fd_log * W) unit := fun '(l, w) =>
  let '(r, w') := f h w in (r, (FdLog (given l) (closed_fds l ++ [h]), w')).
(** The open callback: what it returns is given to the pool. *)
Definition logged_open (o : nat -> M W Z) (e : nat) : M (fd_log * W) Z := fun '(l, w) =>
  let '(r, w') := o e w in
  (r, (FdLog (given l ++ match r with Ok h => fd h | Raise _ => [] end) (closed_fds l), w')).

Abbreviation state := (pool * (fd_log * W))%type.
(** Every descriptor given is closed, held by a live connection, or [about] to be closed. *)
Definition conserved (g : nat) (about : list Z) (s : state) : Prop :=
  pool_ok (fst s) /\ po_group (fst s) = g /\ given (fst (snd s)) ≡ₚ closed_fds (fst (snd s)) ++ about ++ held_fds (fst s).
Definition close_raises (e : exn) : Prop := exists h w w', f h w = (Raise e, w').

Lemma wp_locked {A} (m : M pool A) Q E (s : state) :
  wp m (fun a p => Q a (p, snd s)) (fun e p => E e (p, snd s)) (fst s) -> wp (UpstreamConnectionPool.locked m) Q E s.
Proof. unfold wp, UpstreamConnectionPool.locked, zoom. destruct s as [p t]. cbn. by destruct (m p) as [[a|e] p']. Qed.

(** A section trades within the account. *)
Lemma conserved_trades g about loss p p' l (w : W) :
  conserved g about (p, (l, w)) -> trades p p' [] loss -> conserved g (about ++ loss) (p', (l, w)).
Proof.
  intros (Hok & Hg & Hp) [Hok' Hf Hg' _]. split; [done|]. split; [cbn in *; congruence|]. cbn in *. rewrite Hp, <- app_assoc.
  apply Permutation_app_head, Permutation_app_head. rewrite app_nil_r in Hf. rewrite Hf. apply Permutation_app_comm.
Qed.
Lemma conserved_trades0 g loss p p' l (w : W) :
  conserved g [] (p, (l, w)) -> trades p p' [] loss -> conserved g loss (p', (l, w)).
Proof. intros Hc Ht. exact (conserved_trades g [] loss p p' l w Hc Ht). Qed.
Lemma conserved_taken g h p p' l (w : W) :
  conserved g [h] (p, (l, w)) -> trades p p' [h] [] -> conserved g [] (p', (l, w)).
Proof.
  intros (Hok & Hg & Hp) [Hok' Hf Hg' _]. split; [done|]. split; [cbn in *; congruence|]. cbn in *. rewrite Hp.
  apply Permutation_app_head. rewrite app_nil_r in Hf. rewrite <- Hf. apply (Permutation_app_comm [h]).
Qed.

Abbreviation close_handle := (UpstreamConnectionPool.close_handle (Some logged_close)).
Lemma close_handle_spec g h about s : conserved g (fd h ++ about) s ->
  wp (close_handle h) (fun _ => conserved g about) (fun e s' => conserved g about s' /\ close_raises e) s.
Proof.
  destruct s as [p [l w]]. intros (Hok & Hg & Hp). unfold UpstreamConnectionPool.close_handle, fd in *.
  destruct (h >=? 0); [|by apply wp_ret]. unfold wp, UpstreamConnectionPool.world, zoom, logged_close. cbn.
  destruct (f h w) as [r w'] eqn:E. assert (conserved g about (p, (FdLog (given l) (closed_fds l ++ [h]), w'))) as Hc.
  { split; [done|]. split; [done|]. cbn in *. by rewrite Hp, <- app_assoc. }
  destruct r as [u|e]; [done|]. split; [done|]. by exists h, w, w'.
Qed.

Lemma close_spec g c failed s : conserved g [] s -> (c < length (connections (fst s)))%nat ->
  wp (UpstreamConnectionPool.close_ (Some logged_close) c failed) (fun _ => conserved g [])
     (fun e s' => conserved g [] s' /\ close_raises e) s.
Proof.
  destruct s as [p [l w]]. intros Hc [x Hx]%lookup_lt_is_Some. cbn in Hx. apply wp_bind, wp_locked.
  eapply wp_mono; [| |apply close_locked_spec; apply Hc]; cbn [fst snd]; [|intros e p' [_ Hn]; congruence].
  intros h p' [Ht _]. apply close_handle_spec. rewrite app_nil_r. by eapply conserved_trades0.
Qed.

(** What [reserve] promises: a live connection, and no failure of its own. *)
Lemma reserve_loop_spec g now n : forall s, conserved g [] s -> (length (idle (fst s)) < n)%nat ->
  wp (UpstreamConnectionPool.reserve_loop (Some logged_close) n now)
     (fun r s' => conserved g [] s' /\ match r with
        | Some c => exists x, connections (fst s') !! c = Some x /\ pc_released x = false
        | None => True end)
     (fun e s' => conserved g [] s' /\ close_raises e) s.
Proof.
  induction n as [|n IH]; intros [p [l w]] Hc Hn; [lia|]. cbn [UpstreamConnectionPool.reserve_loop]. apply wp_bind, wp_locked.
  eapply wp_mono; [| |apply reserve_locked_spec; apply Hc]; cbn [fst snd] in *; [|done]. intros r p' Hr.
  destruct r as [c| |h].
  - destruct Hr as [Ht Hx]. apply wp_ret. split; [by eapply conserved_trades0|done].
  - apply wp_ret. split; [by eapply conserved_trades0|done].
  - destruct Hr as [Ht Hlt]. apply wp_bind. pose proof (conserved_trades0 _ _ _ _ _ _ Hc Ht) as Hc'.
    pose proof (close_handle_spec g h [] (p', (l, w))) as Hh. rewrite app_nil_r in Hh.
    assert (wp (close_handle h) (fun _ s' => idle (fst s') = idle p') (fun _ _ => True) (p', (l, w))) as Hi.
    { unfold UpstreamConnectionPool.close_handle. destruct (h >=? 0); [|done].
      unfold wp, UpstreamConnectionPool.world, zoom, logged_close. cbn. by destruct (f h w) as [[u|e] w']. }
    eapply wp_mono; [| |exact (wp_and _ _ _ _ _ _ (Hh Hc') Hi)]; cbn beta; [|by intros e s' [? _]].
    intros u s' [Hs' Ei]. apply IH; [done|]. rewrite Ei. lia.
Qed.

Lemma reserve_spec g now s : conserved g [] s ->
  wp (UpstreamConnectionPool.reserve (Some logged_close) now)
     (fun r s' => conserved g [] s' /\ match r with
        | Some c => exists x, connections (fst s') !! c = Some x /\ pc_released x = false
        | None => True end)
     (fun e s' => conserved g [] s' /\ close_raises e) s.
Proof. intros Hc. apply wp_bind, wp_locked, wp_get. destruct s as [p t]. by apply reserve_loop_spec; [|cbn; lia]. Qed.

Lemma opened_spec g c h s : conserved g (fd h) s -> (c < length (connections (fst s)))%nat ->
  wp (UpstreamConnectionPool.opened (Some logged_close) c h) (fun _ => conserved g []) (fun _ => conserved g []) s.
Proof.
  intros Hc Hlt. unfold UpstreamConnectionPool.opened. destruct (h <? 0) eqn:Hh; b2p.
  { assert (fd h = []) as E0 by (unfold fd; by zdec). rewrite E0 in Hc. apply wp_bind.
    eapply wp_mono; [| |by apply (close_spec g)]; [|by intros e s' [? _]]. intros u s' Hs'. by apply wp_ret. }
  assert (fd h = [h]) as E1 by (unfold fd; by zdec). rewrite E1 in Hc.
  destruct s as [p [l w]]. apply wp_bind, wp_locked.
  eapply wp_mono; [| |apply opened_locked_spec; [apply Hc|lia]]; cbn [fst snd] in *.
  2:{ intros e p' [_ Hn]. apply lookup_ge_None in Hn. lia. }
  intros [] p' Hp'.
  - subst p'. apply wp_bind. pose proof (close_handle_spec g h [] (p, (l, w))) as Hch. rewrite E1 in Hch.
    eapply wp_mono; [| |by apply Hch]; [|by intros e s' [? _]]. intros u s' Hs'. by apply wp_raise.
  - apply wp_ret. by eapply conserved_taken.
Qed.

Lemma acquire_conserves g now o s : conserved g [] s ->
  wp (UpstreamConnectionPool.acquire (Some logged_close) now (logged_open o)) (fun _ => conserved g []) (fun _ => conserved g []) s.
Proof.
  intros Hc. apply wp_bind. eapply wp_mono; [| |by apply (reserve_spec g)]; [|by intros e s' [? _]].
  intros [c|] [p [l w]] [Hc1 Hx]; [|by apply wp_ret]. destruct Hx as (x & Hx & Hr). cbn [fst snd] in *.
  apply wp_bind, wp_locked, wp_conn; cbn [fst]; [|congruence]. intros x' Hx'. rewrite Hx in Hx'. injection Hx' as <-.
  destruct (negb _); [by apply wp_ret|]. destruct (pool_lease p c x (proj1 Hc1) Hx) as (El & z & Hz & _).
  apply wp_bind, wp_locked, wp_on_ups. rewrite El. unfold wp at 1, UpstreamGroup.get_lease. cbn [fst ups]. rewrite Hz.
  assert (set_ups (ups p) p = p) as E0 by (by destruct p). cbn [fst snd]. rewrite E0.
  apply wp_bind, wp_try. unfold wp at 1, UpstreamConnectionPool.world, zoom, logged_open. cbn [fst snd].
  destruct (o (ls_endpoint z) w) as [[h|e] w1]; cbn beta iota zeta.
  - apply opened_spec; [|by eapply lookup_lt_Some]. destruct Hc1 as (Hok & Hg & Hp). split; [done|]. split; [done|]. cbn in *.
    rewrite Hp, <- app_assoc. apply Permutation_app_head, Permutation_app_comm.
  - apply wp_bind. eapply wp_mono; [| |apply (close_spec g)]; [intros u s' Hs'; by apply wp_raise|by intros e' s' [? _]| |by eapply lookup_lt_Some].
    destruct Hc1 as (Hok & Hg & Hp). split; [done|]. split; [done|]. cbn in *. by rewrite app_nil_r.
Qed.

Lemma release_conserves g c now reusable s : conserved g [] s ->
  wp (UpstreamConnectionPool.release (Some logged_close) c now reusable) (fun _ => conserved g []) (fun _ => conserved g []) s.
Proof.
  intros Hc. destruct s as [p [l w]]. apply wp_bind, wp_locked.
  eapply wp_mono; [| |apply release_locked_spec; apply Hc]; cbn [fst snd].
  - intros [h|] p' Ht; [|by apply wp_ret; eapply conserved_trades0]. apply wp_bind.
    pose proof (close_handle_spec g h [] (p', (l, w))) as Hch. rewrite app_nil_r in Hch.
    eapply wp_mono; [| |apply Hch; by eapply conserved_trades0]; [|by intros e s' [? _]]. intros u s' Hs'. by apply wp_ret.
  - intros e p' Ht. by eapply conserved_trades0.
Qed.

(** Every descriptor is closed, even when a callback fails. *)
Lemma close_handles_spec g hs : forall e s, conserved g (flat_map fd hs) s ->
  wp (UpstreamConnectionPool.close_handles (Some logged_close) hs e) (fun _ => conserved g []) (fun _ _ => False) s.
Proof.
  induction hs as [|h hs IH]; intros e s Hc; cbn [UpstreamConnectionPool.close_handles]; [by apply wp_ret|].
  apply wp_bind, wp_try, wp_bind. eapply wp_mono; [| |by apply (close_handle_spec g h (flat_map fd hs))].
  - intros u s' Hs'. by apply wp_ret, IH.
  - intros e' s' [Hs' _]. by apply wp_ret, IH.
Qed.
Lemma close_idle_conserves g s : conserved g [] s ->
  wp (UpstreamConnectionPool.close_idle (Some logged_close)) (fun _ => conserved g []) (fun _ => conserved g []) s.
Proof.
  intros Hc. destruct s as [p [l w]]. apply wp_bind, wp_locked.
  eapply wp_mono; [| |apply close_idle_locked_spec; apply Hc]; cbn [fst snd]; [|done].
  intros hs p' [Ht _]. apply wp_bind. eapply wp_mono; [| |apply (close_handles_spec g); by eapply conserved_trades0]; [|done].
  intros [e|] s' Hs'; [by apply wp_raise|by apply wp_ret].
Qed.

(** *** Any sequence of calls *)

(** [Opened] gives the pool a descriptor; a connection is one the pool has handed out. *)
Inductive pool_call :=
| PReserve (now_ms : Z) | POpened (c : nat) (handle : Z) | PAcquire (now_ms : Z) (open_connection : nat -> M W Z)
| PRelease (c : nat) (now_ms : Z) (reusable : bool) | PCloseIdle.
Definition call_pool (call : pool_call) : M state unit :=
  match call with
  | PReserve now => let! _ := UpstreamConnectionPool.reserve (Some logged_close) now in ret tt
  | POpened c h => let! _ := UpstreamConnectionPool.opened (Some logged_close) c h in ret tt
  | PAcquire now o => let! _ := UpstreamConnectionPool.acquire (Some logged_close) now (logged_open o) in ret tt
  | PRelease c now reusable => let! _ := UpstreamConnectionPool.release (Some logged_close) c now reusable in ret tt
  | PCloseIdle => let! _ := UpstreamConnectionPool.close_idle (Some logged_close) in ret tt
  end.
Definition give (call : pool_call) (l : fd_log) : fd_log :=
  match call with POpened _ h => FdLog (given l ++ fd h) (closed_fds l) | _ => l end.
Definition names_connection (call : pool_call) (p : pool) : bool :=
  match call with
  | POpened c _ | PRelease c _ _ => bool_decide (c < length (connections p))%nat
  | _ => true
  end.
(** Runs the calls in turn, going on after one that raised. *)
Fixpoint run_pool (calls : list pool_call) (s : state) : state :=
  match calls with
  | [] => s
  | call :: calls' =>
      let '(p, (l, w)) := s in
      run_pool calls' (if names_connection call p then snd (call_pool call (p, (give call l, w))) else s)
  end.

Lemma wp_discard {A} (m : M state A) (P : state -> Prop) s :
  wp m (fun _ => P) (fun _ => P) s -> wp (let! _ := m in ret tt) (fun _ => P) (fun _ => P) s.
Proof. intros Hm. apply wp_bind. eapply wp_mono; [| |exact Hm]; [|done]. intros a s' Hs'. by apply wp_ret. Qed.

Lemma run_pool_conserves g calls : forall s, conserved g [] s -> conserved g [] (run_pool calls s).
Proof.
  induction calls as [|call calls IH]; intros [p [l w]] Hc; [done|]. cbn [run_pool]. apply IH.
  destruct (names_connection call p) eqn:Hn; [|done].
  enough (wp (call_pool call) (fun _ => conserved g []) (fun _ => conserved g []) (p, (give call l, w))) as Hwp.
  { unfold wp in Hwp. by destruct (call_pool call _) as [[u|e] s']. }
  destruct call as [now|c h|now o|c now reusable|]; cbn [call_pool give names_connection] in *; apply wp_discard; b2p.
  - eapply wp_mono; [| |by apply (reserve_spec g)]; [by intros a s' [? _]|by intros e s' [? _]].
  - apply opened_spec; [|done]. destruct Hc as (Hok & Hg & Hp). split; [done|]. split; [done|]. cbn in *.
    rewrite Hp, <- app_assoc. apply Permutation_app_head, Permutation_app_comm.
  - by apply acquire_conserves.
  - by apply release_conserves.
  - by apply close_idle_conserves.
Qed.
End world.

Lemma new_pool_conserved {W} group idle_ms u p (w : W) :
  constructed u -> (group < length (groups u))%nat -> UpstreamConnectionPool.init group idle_ms u = Ok p ->
  conserved group [] (p, (FdLog [] [], w)).
Proof.
  intros Hu [g Hg]%lookup_lt_is_Some Hi. unfold UpstreamConnectionPool.init in Hi. destruct (_ <=? 0); [done|]. injection Hi as <-.
  pose proof Hu as (Hl & _ & Hgs). split; [|done]. split; cbn; rewrite ?Hl; [by apply constructed_accounted|done|constructor|constructor|].
  exists g. split; [done|]. rewrite Forall_forall in Hgs. apply list_elem_of_lookup_2, Hgs in Hg as [(name & eps & mx & im & Hi) _].
  unfold UpstreamGroup.init in Hi. destruct (_ || _); [done|]. destruct ((mx <=? 0) || _) eqn:E; [done|]. injection Hi as <-.
  b2p. change (len []) with 0. cbn. lia.
Qed.

(** ** Properties *)

(** C5: no descriptor leaks and none is closed twice.  Whatever calls are made on a pool,
    with callbacks that may fail: every descriptor it was ever given has been passed to the
    close callback exactly once, or is held by exactly one unreleased connection; the
    group's active count is the number of unreleased connections and stays within its
    limit; the idle list stays within its own; and [reserve] always ends, failing only if
    the close callback did. *)
Theorem pool_conserves_descriptors {W} (close_connection : Z -> M W unit) group idle_ms u p (w : W) calls :
  constructed u -> (group < length (groups u))%nat -> UpstreamConnectionPool.init group idle_ms u = Ok p ->
  let '(p', (log, w')) := run_pool close_connection calls (p, (FdLog [] [], w)) in
  given log ≡ₚ closed_fds log ++ held_fds p' /\
  (exists g, groups (ups p') !! group = Some g /\ gr_active g = count conn_live (connections p') /\
     gr_active g <= max_active g /\ len (idle p') <= max_idle g) /\
  (forall now e, fst (UpstreamConnectionPool.reserve (Some (logged_close close_connection)) now (p', (log, w'))) = Raise e ->
     exists h v v', close_connection h v = (Raise e, v')).
Proof.
  intros Hu Hg Hi. pose proof (run_pool_conserves close_connection group calls _ (new_pool_conserved group idle_ms u p w Hu Hg Hi)) as Hc.
  destruct (run_pool _ _ _) as [p' [log w']]. pose proof Hc as (Hok & Egr & Hp). cbn in Hp, Egr, Hok. split; [done|]. split.
  - destruct (pk_group p' Hok) as (g & Hg' & Hidle). exists g. rewrite <- Egr. split; [done|]. split; [by apply pool_admission|].
    split; [|done]. exact (proj2 (proj2 (proj2 (proj2 (acc_groups _ (pk_accounted _ Hok) _ _ Hg'))))).
  - intros now e He. pose proof (reserve_spec close_connection group now _ Hc) as Hr. unfold wp in Hr.
    destruct (UpstreamConnectionPool.reserve _ _ _) as [[r|e'] s']; cbn in He; [done|]. injection He as ->. exact (proj2 Hr).
Qed.

Definition sample_pool : pool := ConnectionPool 0 1000 [] [] sample_upstreams.
Definition failing_close (h : Z) : M unit unit := if h =? 7 then raise (OtherError 1) else ret tt.
Definition sample_pool_calls : list (pool_call (W := unit)) :=
  [PAcquire 0 (fun _ => ret 5); PAcquire 1 (fun _ => ret 7); PAcquire 2 (fun _ => ret 9); POpened 0 11;
   PRelease 0 10 true; PRelease 1 10 false; PReserve 20; POpened 0 (-1)].

Lemma pool_conserves_descriptors_witness :
  exists log, fst (snd (run_pool failing_close sample_pool_calls (sample_pool, (FdLog [] [], tt)))) = log /\
    given log = [5; 7; 11] /\ given log ≡ₚ closed_fds log ++ [].
Proof.
  pose proof (pool_conserves_descriptors failing_close 0 1000 sample_upstreams sample_pool tt sample_pool_calls
    sample_constructed ltac:(cbn; lia) eq_refl) as T.
  eexists. split; [vm_compute; reflexivity|]. split; [reflexivity|]. vm_compute in T. exact (proj1 T).
Defined.

(** An idle connection may be released again; it is then handed out twice. *)
Example idle_release_undetected :
  let s := run_pool failing_close [PAcquire 0 (fun _ => ret 5); PRelease 0 1 true; PRelease 0 2 true]
             (sample_pool, (FdLog [] [], tt)) in
  let '(r1, s1) := UpstreamConnectionPool.reserve (Some (logged_close failing_close)) 3 s in
  fst (UpstreamConnectionPool.reserve (Some (logged_close failing_close)) 4 s1) = r1 /\ r1 = Ok (Some 0%nat).
Proof. vm_compute. split; reflexivity. Qed.
