(* ===== verification/WebApp.v ===== *)
(** * The application framework ([pcc_gateway/web/app.py])

    Dispatch through middleware, the router and the error handlers, and the startup and
    shutdown of callback pairs.  Middleware, handlers and callbacks are outside code; a
    middleware is a [strategy]: a tree of effects on the world [W], calls of its
    continuation and a final result.  Requests are those of [Models] with opaque body and
    cancellation references.  The theorems are in [WebAppSpec]. *)

From S2P Require Import Prelude PyStr Models Routing Proxy.
#[local] Open Scope Z_scope.

Section app.
(** [J] is the type of JSON-able values, [X] of streaming bodies, [U] of upstream groups. *)
Context {B K J X U W : Type} (dumps : J -> result str).

Abbreviation rq := (request B K).
Abbreviation rs := (response X).

(** What a handler may return, and what dispatch returns. *)
Inductive value := VResponse (r : rs) | VBytes (b : bytes) | VStr (s : str) | VJson (j : J).
Inductive reply :=
| Answer (r : rs)
| ProxyDispatch (route_name : str) (upstream : U) (params : gmap (list Z) str).

(** A local handler is called with the request and the bound values; a proxy
    route's handler is its specification, which dispatch only carries. *)
Definition handler : Type := rq -> list scalar -> M W value.

Inductive strategy :=
| Done (r : result reply)
| Effect (change : W -> W) (k : W -> strategy)
| CallNext (k : result reply -> strategy).

Record app := App {
  app_router : router handler;
  middleware : list (rq -> strategy);
  startup_callbacks : list (M W unit);
  shutdown_callbacks : list (M W unit);
  error_handlers : list (Z * (rq -> exn -> M W reply));
  upstreams_ : gmap (list Z) U;
  started : bool;
}.

Definition make_app (routes : list (route handler)) (middleware : list (rq -> strategy))
    (startup shutdown : list (M W unit)) (error_handlers : list (Z * (rq -> exn -> M W reply)))
    (groups : list (str * U)) : result app :=
  let? r := make_router routes in
  if negb (len startup =? len shutdown)
  then Raise (ValueError (py "startup and shutdown callbacks must be positional pairs"))
  else
    let? ups :=
      fold_left (fun acc g =>
        let? m := acc in
        if bool_decide (is_Some (m !! fst g))
        then Raise (ValueError (py "duplicate upstream group: " ++ fst g))
        else Ok (<[fst g := snd g]> m)) groups (Ok ∅) in
    Ok (App r middleware startup shutdown error_handlers ups false).

(** ** Lifecycle callbacks, over the [started] flag and the world *)

Abbreviation A := (M (bool * W)).
Definition world {T} (m : M W T) : A T := zoom snd (fun w t => (fst t, w)) m.
Definition is_started : A bool := fun t => (Ok (fst t), t).
Definition set_started (b : bool) : A unit := modify (fun t => (b, snd t)).

(** The rollback loop over the completed pairs, last first; failures are dropped. *)
Fixpoint rollback (callbacks : list (M W unit)) : A unit :=
  match callbacks with
  | [] => ret tt
  | c :: cs => try_except (world c) (fun _ => ret tt) ;;! rollback cs
  end.
(** The startup loop; on failure the callbacks completed so far are undone. *)
Fixpoint startup_loop (app : app) (callbacks : list (M W unit)) (completed : nat) : A unit :=
  match callbacks with
  | [] => ret tt
  | c :: cs =>
      try_except (world c)
        (fun e => rollback (rev (take completed (shutdown_callbacks app))) ;;! raise e) ;;!
      startup_loop app cs (S completed)
  end.
Definition startup (app : app) : A unit :=
  let! s := is_started in
  if s then raise (RuntimeError (py "application already started"))
  else startup_loop app (startup_callbacks app) 0 ;;! set_started true.

Fixpoint shutdown_loop (callbacks : list (M W unit)) (first_error : option exn) : A (option exn) :=
  match callbacks with
  | [] => ret first_error
  | c :: cs =>
      let! e := try_except (world c ;;! ret None) (fun e => ret (Some e)) in
      shutdown_loop cs (match first_error with Some x => Some x | None => e end)
  end.
Definition shutdown (app : app) : A unit :=
  let! s := is_started in
  if negb s then ret tt
  else
    let! first_error := shutdown_loop (rev (shutdown_callbacks app)) None in
    set_started false ;;!
    match first_error with Some e => raise e | None => ret tt end.

(** ** Dispatch, over the request's path parameters and the world *)

Abbreviation D := (M (rq * W)).
Definition request_ : D rq := fun t => (Ok (fst t), t).
Definition user {T} (m : M W T) : D T := zoom snd (fun w t => (fst t, w)) m.
Definition set_params (p : gmap (list Z) str) (r : rq) : rq :=
  Request (rq_method r) (rq_target r) (raw_path r) (rq_path r) (query_string r) (rq_version r)
    (rq_headers r) (rq_body r) (client_ip r) (scheme r) (rq_cancellation r) (rq_content_length r)
    (chunked_body r) (expect_continue_handled r) (rq_trailers r) p (rq_query r).
Definition upd_request (f : rq -> rq) : D unit := modify (fun t => (f (fst t), snd t)).

Definition to_reply (r : result rs) : result reply := rmap Answer r.

(** [isinstance] tests on a handler's result. *)
Definition coerce (v : value) : result reply :=
  match v with
  | VResponse r => Ok (Answer r)
  | VBytes b => to_reply (Response.bytes_ b 200 [])
  | VStr s => to_reply (Response.text s 200 [])
  | VJson j => to_reply (Response.json dumps j 200 [])
  end.

Definition route_request (app : app) : D reply :=
  let! r := request_ in
  let host := default [] (Request_header r (py "host") (Some [])) in
  let! m := lift (match_ (app_router app) (rq_method r) (rq_target r) host) in
  upd_request (set_params (rm_params m)) ;;!
  let route := rm_route m in
  if str_eqb (rt_kind route) (py "proxy") then
    match upstreams_ app !! rt_target route with
    | None => lift (to_reply (Response.text (py "upstream unavailable") 503 []))
    | Some u => ret (ProxyDispatch (rt_name route) u (rm_params m))
    end
  else
    let! bound_values := lift (bound_values m) in
    let! r := request_ in
    let! v := user (rt_handler route r bound_values) in
    lift (coerce v).

Definition next_twice : exn := RuntimeError (py "middleware next called more than once").

(** Runs a middleware body; [next] is the rest of the chain and [called] the flag
    of its [MiddlewareNext]. *)
Fixpoint run_strategy (next : D reply) (called : bool) (s : strategy) : D reply :=
  match s with
  | Done r => lift r
  | Effect change k => fun t =>
      run_strategy next called (k (snd t)) (fst t, change (snd t))
  | CallNext k =>
      if called then run_strategy next called (k (Raise next_twice))
      else fun t =>
        let '(r, t') := next t in run_strategy next true (k r) t'
  end.

Fixpoint dispatch_middleware (app : app) (mws : list (rq -> strategy)) : D reply :=
  match mws with
  | [] => route_request app
  | m :: rest => fun t => run_strategy (dispatch_middleware app rest) false (m (fst t)) t
  end.

(** [error_handlers]'s lookup. *)
Fixpoint find_handler (status : Z) (hs : list (Z * (rq -> exn -> M W reply)))
    : option (rq -> exn -> M W reply) :=
  match hs with
  | [] => None
  | (s, h) :: hs' => if s =? status then Some h else find_handler status hs'
  end.

Definition plain (text : str) (status : Z) (headers : list (str * str)) : D reply :=
  lift (to_reply (Response.text text status headers)).

(** The [except] clauses of [dispatch], in order. *)
Definition on_error (app : app) (e : exn) : D reply :=
  let! r := request_ in
  match e with
  | MethodNotAllowed allowed =>
      plain (py "method not allowed") 405 [(py "allow", join (py ", ") allowed)]
  | RouteNotFound _ => plain (py "not found") 404 []
  | RouteBindingError _ => plain (py "invalid route parameter") 400 []
  | HttpError status detail =>
      match find_handler status (error_handlers app) with
      | Some h => user (h r e)
      | None => plain detail status []
      end
  | _ =>
      match find_handler 500 (error_handlers app) with
      | Some h => user (h r e)
      | None => plain (py "internal server error") 500 []
      end
  end.

Definition dispatch (app : app) : D reply :=
  try_except (dispatch_middleware app (middleware app)) (on_error app).

(** [dispatch_proxy_head]: a routing exception outside the three named ones propagates. *)
Definition dispatch_proxy_head (app : app) : D (option reply) :=
  if negb (bool_decide (length (middleware app) = 0%nat)) then ret None
  else
    let! r := request_ in
    let host := default [] (Request_header r (py "host") (Some [])) in
    match match_ (app_router app) (rq_method r) (rq_target r) host with
    | Raise (MethodNotAllowed _) | Raise (RouteNotFound _) | Raise (RouteBindingError _) => ret None
    | Raise e => raise e
    | Ok m =>
        let route := rm_route m in
        if negb (str_eqb (rt_kind route) (py "proxy")) then ret None
        else
          match upstreams_ app !! rt_target route with
          | None => ret None
          | Some u =>
              upd_request (set_params (rm_params m)) ;;!
              ret (Some (ProxyDispatch (rt_name route) u (rm_params m)))
          end
    end.

(** The rows of [schema]: name, method, path, host, kind. *)
Definition schema (routes : list (route handler)) : list (str * str * str * str * str) :=
  map (fun r => (rt_name r, rt_method r, rt_path r, rt_host r, rt_kind r)) routes.

End app.

(** ** The helpers that build routes *)

Module Routes.
Section local.
Context {H : Type}.
Definition route (method path : str) (handler : H) (name host : str) (bindings : list (list str)) : result (route H) :=
  make_route method path handler name host (py "local") [] bindings.
Definition get (path : str) (handler : H) := route (py "GET") path handler.
Definition post (path : str) (handler : H) := route (py "POST") path handler.
Definition put (path : str) (handler : H) := route (py "PUT") path handler.
Definition delete (path : str) (handler : H) := route (py "DELETE") path handler.
End local.
Definition proxy (path upstream method name host strip_prefix : str) (timeouts : option proxy_timeouts)
    (retry : option retry_policy) (trust_forwarded : bool) : result (Routing.route proxy_spec) :=
  let? spec := make_proxy_spec upstream strip_prefix timeouts retry trust_forwarded in
  make_route method path spec name host (py "proxy") upstream [].
End Routes.
