(* ===== verification/WebAppSpec.v ===== *)
(** * Properties of the application framework

    Middleware, handlers and callbacks are arbitrary; a log beside their world records
    which of them run, and how the callbacks end.  A request goes through the middleware and
    the handler in order, at most once each; starting up is all or nothing. *)

From S2P Require Import Prelude PyStr Models Routing WebApp.
#[local] Open Scope Z_scope.

Section app.
Context {B K J X U W : Type} (dumps : J -> result str).

(** Code under observation logs that it ran: the middleware and the handler, or a startup or
    a shutdown callback, with what came of it. *)
Inductive entry := Ran (i : nat) | Up (i : nat) (r : result unit) | Down (i : nat) (r : result unit).
Abbreviation seen := (list entry * W)%type.
Definition note (x : entry) (v : seen) : seen := (fst v ++ [x], snd v).
Definition observe {T} (f : result T -> entry) (m : M W T) : M seen T := fun v =>
  let '(r, w') := m (snd v) in (r, (fst v ++ [f r], w')).
(** Code that runs unobserved leaves the log alone. *)
Definition aside {T} (m : M W T) : M seen T := fun v => let '(r, w') := m (snd v) in (r, (fst v, w')).

Fixpoint aside_strategy (s : strategy (X := X) (U := U) (W := W)) : strategy (X := X) (U := U) (W := seen) :=
  match s with
  | Done r => Done r
  | Effect change k => Effect (fun v => (fst v, change (snd v))) (fun v => aside_strategy (k (snd v)))
  | CallNext k => CallNext (fun r => aside_strategy (k r))
  end.
Definition observed_middleware (i : nat) (m : request B K -> strategy (X := X) (U := U) (W := W))
    (r : request B K) : strategy (X := X) (U := U) (W := seen) :=
  Effect (note (Ran i)) (fun _ => aside_strategy (m r)).
Definition observed_route (i : nat) (r : route (handler (B := B) (K := K) (J := J) (X := X) (W := W))) : route (handler (W := seen)) :=
  Route (rt_method r) (rt_path r) (fun rq vs => observe (fun _ => Ran i) (rt_handler r rq vs)) (rt_name r) (rt_host r) (rt_kind r)
    (rt_target r) (rt_segments r) (parameter_names r) (tail_name r) (bindings r).

(** [f i] on the [i]-th element, counting from [i]. *)
Fixpoint from_index {T V} (f : nat -> T -> V) (i : nat) (l : list T) : list V :=
  match l with [] => [] | x :: l' => f i x :: from_index f (S i) l' end.

(** The application with middleware [i] logging [i] and the handlers logging [n], the
    number of middleware; startup callback [i] logs [Up i], shutdown callback [i] [Down i]. *)
Definition observed_app (a : app (B := B) (K := K) (J := J) (X := X) (U := U) (W := W)) : app (W := seen) :=
  App (Router (map (observed_route (length (middleware a))) (routes (app_router a))) (frozen (app_router a)))
    (from_index observed_middleware 0 (middleware a)) (from_index (fun i => observe (Up i)) 0 (startup_callbacks a))
    (from_index (fun i => observe (Down i)) 0 (shutdown_callbacks a))
    (map (fun sh => (fst sh, fun r e => aside (snd sh r e))) (error_handlers a)) (upstreams_ a) (started a).

(** ** Dispatch *)

Lemma match_loop_route {H} (rs : list (route H)) path m h : forall allowed rm,
  match_loop rs path m h allowed = Ok (inl rm) -> rm_route rm ∈ rs.
Proof.
  induction rs as [|r rs IH]; intros allowed rm; cbn [match_loop]; [done|].
  destruct (_ && _); [intros Hm; right; by eapply IH|]. destruct (match_segments r path) as [[ps|]|]; cbn [rbind]; [| |done].
  - destruct (_ || _); [intros [= <-]; by left|intros Hm; right; by eapply IH].
  - intros Hm. right. by eapply IH.
Qed.
Lemma match_route {H} (t : router H) m tg h rm : match_ t m tg h = Ok rm -> rm_route rm ∈ routes t.
Proof.
  unfold match_. destruct (split_target tg) as [path q]. destruct (match_loop _ _ _ _ _) as [[x|[]]|] eqn:E; cbn [rbind]; [|done..].
  intros [= <-]. by eapply match_loop_route.
Qed.

Abbreviation dstate := (request B K * seen)%type.
Definition log_of (t : dstate) : list entry := fst (snd t).
(** [m] runs a prefix of [path]. *)
Definition runs {T} (path : list entry) (m : M dstate T) : Prop :=
  forall t, exists k, log_of (snd (m t)) = log_of t ++ take k path.

Lemma runs_quiet {T} path (m : M dstate T) : (forall t, log_of (snd (m t)) = log_of t) -> runs path m.
Proof. intros H t. exists 0%nat. by rewrite H, app_nil_r. Qed.
Lemma quiet_bind {T S} path (m : M dstate T) (k : T -> M dstate S) :
  (forall t, log_of (snd (m t)) = log_of t) -> (forall a, runs path (k a)) -> runs path (bind m k).
Proof.
  intros Hm Hk t. unfold bind. specialize (Hm t). destruct (m t) as [[a|e] t1]; cbn in Hm.
  - destruct (Hk a t1) as [i Hi]. exists i. by rewrite Hi, Hm.
  - exists 0%nat. cbn. by rewrite Hm, app_nil_r.
Qed.
Lemma run_then_quiet {T S} path (m : M dstate T) (k : T -> M dstate S) :
  runs path m -> (forall a t, log_of (snd (k a t)) = log_of t) -> runs path (bind m k).
Proof.
  intros Hm Hk t. unfold bind. destruct (Hm t) as [i Hi]. exists i. destruct (m t) as [[a|e] t1]; cbn in *; [|done]. by rewrite Hk.
Qed.

Lemma quiet_lift {T S} path (r : result T) (k : T -> M dstate S) :
  (forall a, r = Ok a -> runs path (k a)) -> runs path (bind (lift r) k).
Proof. intros Hk. destruct r as [a|e]; [by apply Hk|]. by apply runs_quiet. Qed.

Lemma user_observe_runs {T} x (m : M W T) : runs [x] (user (B := B) (K := K) (observe (fun _ => x) m)).
Proof. intros [r [l w]]. exists 1%nat. unfold user, zoom, observe. cbn. destruct (m w) as [r' w']. done. Qed.
Lemma user_aside_quiet {T} (m : M W T) t : log_of (snd (user (B := B) (K := K) (aside m) t)) = log_of t.
Proof. destruct t as [r [l w]]. unfold user, zoom, aside. cbn. by destruct (m w). Qed.

Lemma route_request_runs a : runs [Ran (length (middleware a))] (route_request dumps (observed_app a)).
Proof.
  apply quiet_bind; [done|]. intros r. cbv zeta. apply quiet_lift. intros m Em%match_route.
  cbn [observed_app app_router routes] in Em. apply list_elem_of_fmap in Em as (r0 & Er & _).
  apply quiet_bind; [done|]. intros u. destruct (str_eqb _ _).
  { destruct (_ !! _); by apply runs_quiet. }
  apply quiet_lift. intros vs _. apply quiet_bind; [done|]. intros r'.
  apply run_then_quiet; [|done]. rewrite Er. apply user_observe_runs.
Qed.

(** A middleware calls the rest of the chain at most once. *)
Lemma strategy_called s next : forall t, log_of (snd (run_strategy next true (aside_strategy s) t)) = log_of t.
Proof. induction s as [r|change k IH|k IH]; intros t; cbn [aside_strategy run_strategy]; [done|by rewrite IH|apply IH]. Qed.
Lemma strategy_runs path s next : runs path next -> runs path (run_strategy next false (aside_strategy s)).
Proof.
  intros Hn. induction s as [r|change k IH|k IH]; cbn [aside_strategy run_strategy].
  - by apply runs_quiet.
  - intros t. destruct (IH (snd (snd t)) (fst t, (fst (snd t), change (snd (snd t))))) as [i Hi]. by exists i.
  - intros t. destruct (Hn t) as [i Hi]. exists i. destruct (next t) as [r t']. by rewrite strategy_called.
Qed.

Lemma dispatch_middleware_runs a ms : forall i, length (middleware a) = (i + length ms)%nat ->
  runs (map Ran (seq i (S (length ms)))) (dispatch_middleware dumps (observed_app a) (from_index observed_middleware i ms)).
Proof.
  induction ms as [|m ms IH]; intros i Hl; cbn [from_index dispatch_middleware length seq map].
  - rewrite Nat.add_0_r in Hl. subst i. apply route_request_runs.
  - intros t. cbn [observed_middleware run_strategy].
    destruct (strategy_runs _ (m (fst t)) _ (IH (S i) ltac:(cbn in Hl; lia)) (fst t, note (Ran i) (snd t))) as [k Hk].
    exists (S k). rewrite Hk. cbn [take]. unfold log_of, note. cbn [fst snd]. by rewrite <- app_assoc.
Qed.

(** Middleware that only calls on adds nothing. *)
Lemma pass_through_route (a : app (B := B) (K := K) (J := J) (X := X) (U := U) (W := W)) n t :
  dispatch_middleware dumps a (repeat (fun _ => CallNext Done) n) t = route_request dumps a t.
Proof.
  revert t. induction n as [|n IH]; intros t; [done|]. cbn [repeat dispatch_middleware run_strategy]. rewrite IH.
  destruct (route_request dumps a t) as [[r|e] t']; done.
Qed.

Lemma find_handler_aside st hs h : find_handler st (map (fun sh => (fst sh, fun r e => aside (snd sh r e))) hs) = Some h ->
  exists h0 : request B K -> exn -> M W (reply (X := X) (U := U)), h = fun r e => aside (h0 r e).
Proof.
  induction hs as [|[s h0] hs IH]; cbn [map find_handler fst snd]; [done|]. destruct (s =? st); [|exact IH].
  intros [= <-]. by exists h0.
Qed.
Lemma on_error_quiet a e t : log_of (snd (on_error (observed_app a) e t)) = log_of t.
Proof.
  unfold on_error, bind, request_. cbn beta iota. destruct e; try done; cbn [error_handlers observed_app];
    (match goal with |- context [find_handler ?s ?hs] => destruct (find_handler s hs) as [h|] eqn:E end; [|done]);
    apply find_handler_aside in E as [h0 ->]; apply user_aside_quiet.
Qed.
Lemma dispatch_runs a : runs (map Ran (seq 0 (S (length (middleware a))))) (dispatch dumps (observed_app a)).
Proof.
  intros t. unfold dispatch, try_except. destruct (dispatch_middleware_runs a (middleware a) 0 eq_refl t) as [k Hk].
  exists k. cbn [observed_app middleware]. destruct (dispatch_middleware _ _ _ t) as [[r|e] t']; [exact Hk|]. by rewrite on_error_quiet.
Qed.

(** ** Startup and shutdown *)

Lemma Forall2_rev {T V} (P : T -> V -> Prop) l k : Forall2 P l k -> Forall2 P (rev l) (rev k).
Proof. induction 1 as [|x y l k Hp _ IH]; cbn; [done|]. apply Forall2_app; [done|]. by repeat constructor. Qed.

Abbreviation lstate := (bool * seen)%type.
Definition ran_callbacks (t : lstate) (l : list entry) (t' : lstate) : Prop := fst (snd t') = fst (snd t) ++ l /\ fst t' = fst t.

Lemma observe_world {T} f (m : M W T) Q E (t : lstate) :
  (forall r t', ran_callbacks t [f r] t' -> match r with Ok a => Q a t' | Raise e => E e t' end) -> wp (world (observe f m)) Q E t.
Proof.
  intros H. destruct t as [b [l w]]. unfold wp, world, zoom, observe. cbn. destruct (m w) as [r w'].
  specialize (H r (b, (l ++ [f r], w')) ltac:(done)). by destruct r.
Qed.
Lemma ran_trans t l t1 l' t2 : ran_callbacks t l t1 -> ran_callbacks t1 l' t2 -> ran_callbacks t (l ++ l') t2.
Proof. intros [H1 H2] [H3 H4]. split; [by rewrite H3, H1, <- app_assoc|congruence]. Qed.
Lemma ran_nothing t : ran_callbacks t [] t.
Proof. split; [by rewrite app_nil_r|done]. Qed.

(** The first error of a list of results. *)
Fixpoint first_raised (rs : list (result unit)) : option exn :=
  match rs with [] => None | Raise e :: _ => Some e | Ok _ :: rs' => first_raised rs' end.
(** Callbacks under observation run in the order of the list, failing or not. *)
Abbreviation observed_as f := (fun (i : nat) m => exists c : M W unit, m = observe (f i) c).
Lemma from_index_indexed f cs : forall i, Forall2 (observed_as f) (seq i (length cs)) (from_index (fun i => observe (f i)) i cs).
Proof. induction cs as [|c cs IH]; intros i; cbn; constructor; [by exists c|apply IH]. Qed.

Lemma rollback_runs l ms : Forall2 (observed_as Down) l ms -> forall t,
  wp (rollback ms) (fun _ t' => exists rs, length rs = length l /\ ran_callbacks t (zip_with Down l rs) t') (fun _ _ => False) t.
Proof.
  induction 1 as [|i m l ms [c ->] _ IH]; intros t; cbn [rollback]; [apply wp_ret; exists []; by split; [|apply ran_nothing]|].
  apply wp_bind, wp_try, observe_world. intros r t1 H1. destruct r; [|apply wp_ret];
    (eapply wp_mono; [| |apply IH]; [|done]; intros u' t2 (rs & Hl & H2)).
  - exists (Ok a :: rs). split; [by cbn; rewrite Hl|exact (ran_trans _ [_] _ _ _ H1 H2)].
  - exists (Raise e :: rs). split; [by cbn; rewrite Hl|exact (ran_trans _ [_] _ _ _ H1 H2)].
Qed.
Lemma shutdown_loop_runs l ms : Forall2 (observed_as Down) l ms -> forall e t,
  wp (shutdown_loop ms e) (fun o t' => exists rs, length rs = length l /\ ran_callbacks t (zip_with Down l rs) t' /\
    o = match e with Some x => Some x | None => first_raised rs end) (fun _ _ => False) t.
Proof.
  induction 1 as [|i m l ms [c ->] _ IH]; intros e t; cbn [shutdown_loop].
  { apply wp_ret. exists []. split_and!; [done|apply ran_nothing|by destruct e]. }
  apply wp_bind, wp_try, wp_bind, observe_world. intros [[]|x] t1 H1; apply wp_ret;
    (eapply wp_mono; [| |apply IH]; [|done]; intros o t2 (rs & Hl & H2 & ->)).
  - exists (Ok tt :: rs). split_and!; [by cbn; rewrite Hl|exact (ran_trans _ [_] _ _ _ H1 H2)|by destruct e].
  - exists (Raise x :: rs). split_and!; [by cbn; rewrite Hl|exact (ran_trans _ [_] _ _ _ H1 H2)|by destruct e].
Qed.

Definition all_up (i n : nat) : list entry := map (fun j => Up j (Ok tt)) (seq i n).
Lemma startup_loop_runs a cs : (length (startup_callbacks a) <= length (shutdown_callbacks a))%nat ->
  forall i, (i + length cs = length (startup_callbacks a))%nat -> forall t,
  wp (startup_loop (observed_app a) (from_index (fun i => observe (Up i)) i cs) i)
     (fun _ t' => ran_callbacks t (all_up i (length cs)) t')
     (fun e t' => exists k rs, (i <= k < i + length cs)%nat /\ length rs = k /\
        ran_callbacks t (all_up i (k - i) ++ [Up k (Raise e)] ++ zip_with Down (rev (seq 0 k)) rs) t') t.
Proof.
  intros Hlen. induction cs as [|c cs IH]; intros i Hi t; cbn [from_index startup_loop length] in *; [apply wp_ret, ran_nothing|].
  apply wp_bind, wp_try, observe_world. intros [[]|e] t1 H1.
  - eapply wp_mono; [| |apply (IH (S i) ltac:(lia))].
    + intros u' t2 H2. exact (ran_trans _ [_] _ _ _ H1 H2).
    + intros e t2 (k & rs & Hk & Hl & H2). exists k, rs. split; [lia|]. split; [done|]. replace (k - i)%nat with (S (k - S i)) by lia.
      exact (ran_trans _ [_] _ _ _ H1 H2).
  - apply wp_bind. eapply wp_mono; [| |apply (rollback_runs (rev (seq 0 i)))]; [|done|].
    + intros u t2 (rs & Hl & H2). apply wp_raise. exists i, rs. rewrite length_rev, length_seq in Hl. split; [lia|]. split; [done|].
      rewrite Nat.sub_diag. exact (ran_trans _ [_] _ _ _ H1 H2).
    + cbn [observed_app shutdown_callbacks]. apply Forall2_rev.
      replace (seq 0 i) with (take i (seq 0 (length (shutdown_callbacks a)))) by (rewrite take_seq; f_equal; lia).
      apply Forall2_take, from_index_indexed.
Qed.
End app.

(** ** Properties *)

(** C39: a request meets each middleware, in order, and then its handler, at most once each.
    Whatever the middleware do, calling their continuation any number of times, catching
    its errors or not calling it, what one dispatch runs of [mw 0, ..., mw (n-1), handler]
    is a prefix of that list; middleware that only calls its continuation and returns its
    answer changes nothing: the reply is the route's. *)
Theorem dispatch_runs_chain_once {B K J X U W} (dumps : J -> result str) (a : app (B := B) (K := K) (X := X) (U := U) (W := W))
    (r : request B K) (log : list entry) (w : W) :
  (exists k, fst (snd (snd (dispatch dumps (observed_app a) (r, (log, w))))) =
             log ++ take k (map Ran (seq 0 (S (length (middleware a)))))) /\
  (forall n, dispatch_middleware dumps a (repeat (fun _ => CallNext Done) n) (r, w) = route_request dumps a (r, w)).
Proof. split; [exact (dispatch_runs dumps a (r, (log, w)))|]. intros n. apply pass_through_route. Qed.

(** C40: startup is all or nothing.  On an application that is not started, the startup
    callbacks run in order; if one fails, the shutdown callbacks of exactly those that had
    completed run, last first, even when they fail themselves, the error is the startup
    callback's and the application stays stopped.  Otherwise it is started, and every startup
    callback completed.  Shutting a started application down runs every shutdown callback
    once, last first, and stops it, whichever of them fail; the error is the first of theirs,
    and without one all completed. *)
Theorem startup_all_or_nothing {B K J X U W} (a : app (B := B) (K := K) (J := J) (X := X) (U := U) (W := W)) log (w : W) :
  length (startup_callbacks a) = length (shutdown_callbacks a) ->
  let n := length (startup_callbacks a) in
  wp (startup (observed_app a))
     (fun _ t' => fst t' = true /\ fst (snd t') = log ++ map (fun i => Up i (Ok tt)) (seq 0 n))
     (fun e t' => fst t' = false /\ exists k rs, (k < n)%nat /\ length rs = k /\
        fst (snd t') = log ++ map (fun i => Up i (Ok tt)) (seq 0 k) ++ [Up k (Raise e)] ++ zip_with Down (rev (seq 0 k)) rs)
     (false, (log, w)) /\
  wp (shutdown (observed_app a))
     (fun _ t' => fst t' = false /\ exists rs, length rs = n /\ first_raised rs = None /\ fst (snd t') = log ++ zip_with Down (rev (seq 0 n)) rs)
     (fun e t' => fst t' = false /\ exists rs, length rs = n /\ first_raised rs = Some e /\ fst (snd t') = log ++ zip_with Down (rev (seq 0 n)) rs)
     (true, (log, w)).
Proof.
  intros Hl n. split.
  - apply wp_bind. unfold wp at 1, is_started. cbn [fst]. apply wp_bind.
    eapply wp_mono; [| |apply (startup_loop_runs a (startup_callbacks a) ltac:(lia) 0 eq_refl)].
    + intros u t' [H1 _]. apply wp_modify. by split.
    + intros e t' (k & rs & Hk & Hr & H1 & H2). split; [done|]. exists k, rs. split; [lia|]. split; [done|].
      cbn [fst snd] in H1. by rewrite Nat.sub_0_r in H1.
  - apply wp_bind. unfold wp at 1, is_started. cbn [fst negb]. apply wp_bind.
    eapply wp_mono; [| |apply (shutdown_loop_runs (rev (seq 0 n)))]; [|done|].
    + intros [e|] t' (rs & Hr & [H1 _] & Ho); apply wp_bind, wp_modify; [apply wp_raise|apply wp_ret]; (split; [done|]); exists rs;
        rewrite length_rev, length_seq in Hr; by split_and!.
    + cbn [observed_app shutdown_callbacks]. apply Forall2_rev. unfold n. rewrite Hl. apply from_index_indexed.
Qed.

(** Two callback pairs of which the second fails to start. *)
Definition sample_app : app (B := unit) (K := unit) (J := unit) (X := unit) (U := unit) (W := unit) :=
  App (Router [] true) [] [ret tt; raise (OtherError 1)] [raise (OtherError 2); ret tt] [] ∅ false.
Lemma startup_all_or_nothing_witness :
  length (startup_callbacks sample_app) = length (shutdown_callbacks sample_app) /\
  startup (observed_app sample_app) (false, ([], tt)) =
    (Raise (OtherError 1), (false, ([Up 0 (Ok tt); Up 1 (Raise (OtherError 1)); Down 0 (Raise (OtherError 2))], tt))) /\
  exists rs, fst (snd (snd (shutdown (observed_app sample_app) (true, ([], tt))))) = zip_with Down [1; 0]%nat rs /\
    first_raised rs = Some (OtherError 2).
Proof.
  assert (length (startup_callbacks sample_app) = length (shutdown_callbacks sample_app)) as Hl by reflexivity.
  split; [exact Hl|]. split; [vm_compute; reflexivity|].
  destruct (startup_all_or_nothing sample_app [] tt Hl) as [_ (_ & rs & _ & Hr & Hs)]. exists rs. split; [exact Hs|exact Hr].
Defined.
