(* ===== verification/Tls.v ===== *)
(** * TLS: results, names, certificates and their selection ([pcc_gateway/tls.py])

    The codes of the provider interface, [TlsResult], the canonical form of a server
    name, and [TlsConfig] with the certificate it selects for a name.  Sessions and
    contexts over a provider are in [TlsChannel] and [TlsManager]; the theorems about
    names and selection are in [TlsSpec]. *)

From S2P Require Import Prelude PyStr.
#[local] Open Scope Z_scope.

Definition TLS_OK : Z := 0.
Definition TLS_WANT_READ : Z := 1.
Definition TLS_WANT_WRITE : Z := 2.
Definition TLS_CLOSED : Z := 3.
Definition TLS_SELECT_SNI : Z := 4.
Definition TLS_ERROR : Z := -1.

Definition TLS_INTEREST_NONE : Z := 0.
Definition TLS_INTEREST_READ : Z := 1.
Definition TLS_INTEREST_WRITE : Z := 2.

Definition TLS_ERR_NONE : Z := 0.
Definition TLS_ERR_DEADLINE : Z := 1.
Definition TLS_ERR_CANCELLED : Z := 2.
Definition TLS_ERR_PROTOCOL : Z := 3.
Definition TLS_ERR_CERTIFICATE : Z := 4.
Definition TLS_ERR_IO : Z := 5.
Definition TLS_ERR_TRUNCATED : Z := 6.
Definition TLS_ERR_UNRECOGNIZED_NAME : Z := 7.
Definition TLS_ERR_ALPN : Z := 8.
Definition TLS_ERR_PROVIDER : Z := 9.
Definition TLS_ERR_PROVIDER_CONTRACT : Z := 10.
Definition TLS_ERR_CONFIGURATION : Z := 11.
Definition TLS_ERR_INTERNAL : Z := 12.

Definition TLS_MAX_DETAIL : Z := 160.
Definition TLS_MAX_PROVIDER_NAME : Z := 64.
Definition TLS_MAX_SNI_NAME : Z := 253.
Definition TLS_MAX_CERTIFICATES : Z := 64.
Definition TLS_MAX_ALPN_PROTOCOLS : Z := 16.

Definition tls_error_name (error_code : Z) : str :=
  if error_code =? TLS_ERR_NONE then py "none"
  else if error_code =? TLS_ERR_DEADLINE then py "deadline"
  else if error_code =? TLS_ERR_CANCELLED then py "cancelled"
  else if error_code =? TLS_ERR_PROTOCOL then py "protocol"
  else if error_code =? TLS_ERR_CERTIFICATE then py "certificate"
  else if error_code =? TLS_ERR_IO then py "io"
  else if error_code =? TLS_ERR_TRUNCATED then py "truncated"
  else if error_code =? TLS_ERR_UNRECOGNIZED_NAME then py "unrecognized-name"
  else if error_code =? TLS_ERR_ALPN then py "alpn"
  else if error_code =? TLS_ERR_PROVIDER then py "provider"
  else if error_code =? TLS_ERR_PROVIDER_CONTRACT then py "provider-contract"
  else if error_code =? TLS_ERR_CONFIGURATION then py "configuration"
  else if error_code =? TLS_ERR_INTERNAL then py "internal"
  else py "unknown".

(** [detail] is a string wherever the code passes one. *)
Definition bounded_detail (detail : str) : str :=
  if len detail >? TLS_MAX_DETAIL then upto detail TLS_MAX_DETAIL else detail.

Record TlsResult := MkTlsResult {
  status : Z;
  r_count : Z;
  error_code : Z;
  detail : str;
  server_name : str;
}.
#[global] Instance TlsResult_eq_dec : EqDecision TlsResult.
Proof. solve_decision. Defined.

(** [TlsResult(status, count, error_code, detail, server_name)] *)
Definition make_result (status count error_code : Z) (detail server_name : str) : TlsResult :=
  MkTlsResult status count error_code (bounded_detail detail) server_name.
(** [TlsResult(status)] *)
Definition plain (status : Z) : TlsResult := make_result status 0 TLS_ERR_NONE [] [].
Definition tls_error (error_code : Z) (detail : str) : TlsResult := make_result TLS_ERROR 0 error_code detail [].

Definition error_name (r : TlsResult) : str := tls_error_name (error_code r).
Definition wait_interest (r : TlsResult) : Z :=
  if status r =? TLS_WANT_READ then TLS_INTEREST_READ
  else if status r =? TLS_WANT_WRITE then TLS_INTEREST_WRITE
  else TLS_INTEREST_NONE.

(** ** Names *)

Definition is_name_char (c : Z) : bool := ((97 <=? c) && (c <=? 122)) || ((48 <=? c) && (c <=? 57)) || (c =? 45).

Definition valid_provider_name (name : str) : bool :=
  negb (bool_decide (name = [])) && negb (len name >? TLS_MAX_PROVIDER_NAME) &&
  forallb (fun c => is_name_char c || (c =? 95) || (c =? 46)) name.

(** [name.count(c)] for a single character. *)
Definition count_char (c : Z) (s : str) : Z := count (Z.eqb c) s.

Fixpoint check_sni_labels (labels : list str) : result unit :=
  match labels with
  | [] => Ok tt
  | label :: labels' =>
      if bool_decide (label = []) || (len label >? 63) || at_is label 0 45 || at_is label (len label - 1) 45
      then Raise (ValueError (py "invalid SNI label"))
      else if forallb is_name_char label then check_sni_labels labels'
      else Raise (ValueError (py "invalid SNI character"))
  end.

Definition normalize_sni_name (server_name : str) (allow_wildcard : bool) : result str :=
  let name := lower (rstrip_dot server_name) in
  if bool_decide (name = []) || (len name >? TLS_MAX_SNI_NAME)
  then Raise (ValueError (py "SNI name is empty or too long"))
  else match encode_ascii name with
  | Raise _ => Raise (ValueError (py "SNI name must be ASCII"))
  | Ok _ =>
      if char_in 42 name && negb allow_wildcard
      then Raise (ValueError (py "client SNI cannot be a wildcard"))
      else if char_in 42 name && (negb (starts_with (py "*.") name) || negb (count_char 42 name =? 1))
      then Raise (ValueError (py "wildcard SNI must use one leading '*.' label"))
      else
        let wildcard := starts_with (py "*.") name in
        let name_without_wildcard := if wildcard then from name 2 else name in
        let labels := split_char 46 name_without_wildcard in
        if wildcard && (len labels <? 2)
        then Raise (ValueError (py "wildcard SNI must contain a registrable suffix"))
        else
          let? _ := check_sni_labels labels in
          Ok (if wildcard then py "*." ++ name_without_wildcard else name_without_wildcard)
  end.

(** The loop of [_validate_alpn]; [res] is the list built so far. *)
Fixpoint alpn_loop (protocols res : list str) : result (list str) :=
  match protocols with
  | [] => Ok res
  | protocol :: protocols' =>
      if bool_decide (protocol = []) || (len protocol >? 255)
      then Raise (ValueError (py "invalid ALPN protocol"))
      else match encode_ascii protocol with
      | Raise _ => Raise (ValueError (py "ALPN protocol must be ASCII"))
      | Ok _ =>
          if str_in protocol res then Raise (ValueError (py "duplicate ALPN protocol"))
          else alpn_loop protocols' (res ++ [protocol])
      end
  end.
Definition validate_alpn (protocols : list str) : result (list str) :=
  if len protocols >? TLS_MAX_ALPN_PROTOCOLS then Raise (ValueError (py "too many ALPN protocols"))
  else alpn_loop protocols [].

(** ** Certificates and policies *)

Record TlsCertificate := MkTlsCertificate {
  identifier : str;
  certificate : str;
  private_key : str;
  server_names : list str;
}.
#[global] Instance TlsCertificate_eq_dec : EqDecision TlsCertificate.
Proof. solve_decision. Defined.

Fixpoint normalize_names (names normalized_names : list str) : result (list str) :=
  match names with
  | [] => Ok normalized_names
  | name :: names' =>
      let? normalized := normalize_sni_name name true in
      if str_in normalized normalized_names then Raise (ValueError (py "duplicate SNI name in certificate"))
      else normalize_names names' (normalized_names ++ [normalized])
  end.

(** [TlsCertificate(identifier, certificate, private_key, server_names)] *)
Definition make_certificate (identifier certificate private_key : str) (server_names : list str) : result TlsCertificate :=
  if bool_decide (identifier = []) || (len identifier >? 64)
  then Raise (ValueError (py "TLS certificate identifier is missing or too long"))
  else if bool_decide (certificate = []) || bool_decide (private_key = [])
  then Raise (ValueError (py "TLS certificate and private key are required"))
  else
    let? names := normalize_names server_names [] in
    Ok (MkTlsCertificate identifier certificate private_key names).

Record TlsConfig := MkTlsConfig {
  default_certificate : TlsCertificate;
  sni_certificates : list TlsCertificate;
  cfg_alpn : list str;
  require_client_certificate : bool;
  client_ca : str;
  reject_unknown_sni : bool;
}.

Fixpoint add_names (more names : list str) : result (list str) :=
  match more with
  | [] => Ok names
  | name :: more' =>
      if str_in name names then Raise (ValueError (py "duplicate SNI name across certificates"))
      else add_names more' (names ++ [name])
  end.
(** The loop of the constructor over the SNI certificates. *)
Fixpoint check_certificates (items : list TlsCertificate) (identifiers names : list str) : result unit :=
  match items with
  | [] => Ok tt
  | item :: items' =>
      if str_in (identifier item) identifiers then Raise (ValueError (py "duplicate TLS certificate identifier"))
      else
        let? names := add_names (server_names item) names in
        check_certificates items' (identifiers ++ [identifier item]) names
  end.

(** [TlsConfig(...)] *)
Definition make_config (certificate private_key : str) (alpn : list str) (require_client_certificate : bool)
    (sni_certificates : list TlsCertificate) (reject_unknown_sni : bool)
    (default_certificate : option TlsCertificate) (client_ca : str) : result TlsConfig :=
  let? default_certificate :=
    match default_certificate with
    | Some c =>
        if negb (bool_decide (certificate = [])) || negb (bool_decide (private_key = []))
        then Raise (ValueError (py "choose default_certificate or certificate/private_key"))
        else Ok c
    | None => make_certificate (py "default") certificate private_key []
    end in
  if len sni_certificates >? TLS_MAX_CERTIFICATES - 1 then Raise (ValueError (py "too many SNI certificates"))
  else
    let? _ := check_certificates sni_certificates [identifier default_certificate] [] in
    let? alpn := validate_alpn alpn in
    if char_in 0 client_ca then Raise (ValueError (py "TLS client CA path must be a NUL-free string"))
    else if require_client_certificate && bool_decide (client_ca = [])
    then Raise (ValueError (py "client certificate verification requires client CA"))
    else Ok (MkTlsConfig default_certificate sni_certificates alpn require_client_certificate client_ca reject_unknown_sni).

(** ** Selection

    The inner loop of [select_certificate] over the names of one certificate: it returns
    ([inl]) the certificate of an exact name, or goes on with the best wildcard so far
    and the length of its suffix. *)
Fixpoint scan_names (normalized : str) (c : TlsCertificate) (patterns : list str)
    (best : option TlsCertificate * Z) : TlsCertificate + (option TlsCertificate * Z) :=
  match patterns with
  | [] => inr best
  | pattern :: patterns' =>
      if negb (starts_with (py "*.") pattern) then
        if str_eqb pattern normalized then inl c else scan_names normalized c patterns' best
      else
        let suffix := from pattern 1 in
        if negb (ends_with suffix normalized) then scan_names normalized c patterns' best
        else
          let prefix := upto normalized (len normalized - len suffix) in
          if bool_decide (prefix = []) || char_in 46 prefix then scan_names normalized c patterns' best
          else if len suffix >? snd best then scan_names normalized c patterns' (Some c, len suffix)
          else scan_names normalized c patterns' best
  end.
Fixpoint scan_certificates (normalized : str) (certificates : list TlsCertificate)
    (best : option TlsCertificate * Z) : TlsCertificate + (option TlsCertificate * Z) :=
  match certificates with
  | [] => inr best
  | c :: certificates' =>
      match scan_names normalized c (server_names c) best with
      | inl found => inl found
      | inr best => scan_certificates normalized certificates' best
      end
  end.

Definition select_certificate (cfg : TlsConfig) (server_name : str) : result (option TlsCertificate) :=
  if bool_decide (server_name = []) then Ok (Some (default_certificate cfg))
  else
    let? normalized := normalize_sni_name server_name false in
    match scan_certificates normalized (sni_certificates cfg) (None, -1) with
    | inl c => Ok (Some c)
    | inr (Some c, _) => Ok (Some c)
    | inr (None, _) => if reject_unknown_sni cfg then Ok None else Ok (Some (default_certificate cfg))
    end.

Example ex_normalize : normalize_sni_name (py "Api.Example.COM.") false = Ok (py "api.example.com").
Proof. reflexivity. Qed.
Example ex_wildcard : normalize_sni_name (py "*.Example.com") true = Ok (py "*.example.com").
Proof. reflexivity. Qed.
