(* ===== verification/TlsSpec.v ===== *)
(** * Server names and the certificate they select

    A name is accepted exactly if its lower-cased form is a host name of ASCII labels;
    selection is the lookup of that name, then of the name with its first label replaced
    by a star, in the names of the configured certificates. *)

From S2P Require Import Prelude PyStr PyLists Http1 PyStrFacts Tls.
#[local] Open Scope Z_scope.

(** ** Prefixes and suffixes *)

Lemma starts_with_spec p s : starts_with p s = true <-> exists t, s = p ++ t.
Proof.
  revert s. induction p as [|a p IH]; intros s; cbn [starts_with app]; [split; [by exists s|done]|].
  destruct s as [|b s]; [split; [done|by intros (t & [=])]|]. rewrite andb_true_iff, Z.eqb_eq, IH. split.
  - intros [-> (t & ->)]. by exists t.
  - intros (t & [= -> ->]). split; [done|by exists t].
Qed.

Lemma ends_with_spec p s : ends_with p s = true <-> exists q, s = q ++ p.
Proof.
  unfold ends_with. rewrite starts_with_spec. split; intros (t & E); exists (rev t).
  - apply (f_equal (@rev Z)) in E. by rewrite rev_involutive, rev_app_distr, rev_involutive in E.
  - by rewrite E, rev_app_distr.
Qed.

Lemma char_in_true c s : char_in c s = true <-> c ∈ s.
Proof. rewrite <- not_false_iff_true, char_in_false. split; [apply dec_stable|tauto]. Qed.

(** ** Accepted names *)

Definition valid_label (l : str) : Prop :=
  0 < len l <= 63 /\ Forall (fun c => 97 <= c <= 122 \/ 48 <= c <= 57 \/ c = 45) l /\
  at_ l 0 <> Some 45 /\ at_ l (len l - 1) <> Some 45.
(** A host name in canonical form, at most 253 characters with its dots. *)
Definition hostname (n : str) : Prop :=
  len n <= TLS_MAX_SNI_NAME /\ exists labels, labels <> [] /\ n = join [46] labels /\ Forall valid_label labels.

Lemma is_name_char_spec c : is_name_char c = true <-> 97 <= c <= 122 \/ 48 <= c <= 57 \/ c = 45.
Proof. unfold is_name_char. rewrite !orb_true_iff, !andb_true_iff, !Z.leb_le, Z.eqb_eq. lia. Qed.

Lemma at_is_false l i v : at_is l i v = false <-> at_ l i <> Some v.
Proof. unfold at_is. destruct (at_ l i); [rewrite Z.eqb_neq|]; split; congruence. Qed.

Lemma check_sni_labels_spec labels : check_sni_labels labels = Ok tt <-> Forall valid_label labels.
Proof.
  induction labels as [|l labels IH]; cbn [check_sni_labels]; [split; [constructor|done]|].
  rewrite Forall_cons, <- IH. clear IH. unfold valid_label at 1.
  destruct (_ || _ || _ || _) eqn:E; [split; [done|]|].
  { intros [((H1 & H2) & _ & H3 & H4) _]. exfalso. apply at_is_false in H3, H4. rewrite H3, H4, !orb_false_r in E.
    apply orb_true_iff in E as [E|E]; b2p; subst; lens; lia. }
  b2p. assert (0 < len l) by (destruct l; [done|lens; pose proof (len_nonneg l); lia]).
  rewrite <- !at_is_false. destruct (forallb is_name_char l) eqn:F.
  - rewrite forallb_forall in F. split; [intros ->; split_and!; try done|tauto].
    apply Forall_forall. intros c Hc. by apply is_name_char_spec, F, list_elem_of_In.
  - split; [done|]. intros [(_ & Hf & _) _]. rewrite <- not_true_iff_false in F. destruct F.
    apply forallb_forall. intros c Hc%list_elem_of_In. rewrite Forall_forall in Hf. by apply is_name_char_spec, Hf.
Qed.

Lemma label_chars l : valid_label l -> Forall (fun c => lower_char c = c /\ 45 <= c < 128 /\ c <> 46) l.
Proof.
  intros (_ & H & _). eapply Forall_impl; [exact H|]. cbn beta. intros c Hc. split; [|lia].
  unfold lower_char. destruct (_ || _ || _) eqn:E; [rewrite !orb_true_iff, !andb_true_iff, !Z.leb_le in E; lia|].
  by zdec.
Qed.

Lemma join_Forall (P : Z -> Prop) c ws : P c -> Forall (Forall P) ws -> Forall P (join [c] ws).
Proof.
  intros Hc. induction 1 as [|w ws Hw H IH]; [constructor|]. destruct ws; cbn [join]; [done|].
  apply Forall_app. split; [done|]. by constructor.
Qed.

Lemma hostname_chars n : hostname n -> Forall (fun c => lower_char c = c /\ 45 <= c < 128) n.
Proof.
  intros (_ & labels & _ & -> & H). apply join_Forall; [split; [done|lia]|]. eapply Forall_impl; [exact H|]. intros l Hl%label_chars.
  eapply Forall_impl; [exact Hl|]. cbn beta. tauto.
Qed.

Lemma hostname_split n : hostname n <-> len n <= TLS_MAX_SNI_NAME /\ Forall valid_label (split_char 46 n).
Proof.
  split; intros [Hn H]; (split; [done|]).
  - destruct H as (labels & Hne & -> & Hl). rewrite split_join_char; [done..|].
    eapply Forall_impl; [exact Hl|]. intros l Hv%label_chars Hin. rewrite Forall_forall in Hv. apply Hv in Hin. lia.
  - exists (split_char 46 n). split_and!; [apply split_char_ne|by rewrite join_split|done].
Qed.

Lemma hostname_ne n : hostname n -> n <> [].
Proof. intros [_ H]%hostname_split ->. cbn in H. apply Forall_cons in H as [((H & _) & _) _]. lens. lia. Qed.

Lemma hostname_star n : hostname n -> 42 ∉ n.
Proof. intros H%hostname_chars Hin. rewrite Forall_forall in H. apply H in Hin. lia. Qed.

Lemma normalize_spec (s n : str) :
  normalize_sni_name s false = Ok n <-> n = lower (rstrip_dot s) /\ hostname n.
Proof.
  unfold normalize_sni_name. set (name := lower (rstrip_dot s)).
  destruct (_ || _) eqn:E1.
  { split; [done|]. intros [-> H]. pose proof (hostname_ne _ H). destruct H as [H _].
    apply orb_true_iff in E1 as [?|?]; b2p; [done|lia]. }
  b2p. destruct (encode_ascii name) as [b|e] eqn:Ea.
  2: { split; [done|]. intros [-> Hh%hostname_chars]. unfold encode_ascii in Ea. rewrite encode_below_ok in Ea; [done|].
       eapply Forall_impl; [exact Hh|]. cbn. lia. }
  destruct (char_in 42 name) eqn:Es; cbn [andb negb].
  { split; [done|]. intros [-> Hh%hostname_star]. by apply char_in_true in Es. }
  assert (starts_with (py "*.") name = false) as ->.
  { apply not_true_iff_false. intros (t & Et)%starts_with_spec. apply char_in_false in Es. destruct Es. rewrite Et. by left. }
  cbn [andb]. destruct (check_sni_labels (split_char 46 name)) as [[]|e] eqn:Ec; cbn [rbind].
  - apply check_sni_labels_spec in Ec. split; [intros [= <-]; split; [done|by apply hostname_split]|by intros [-> _]].
  - split; [done|]. intros [-> [_ Hh]%hostname_split]. apply check_sni_labels_spec in Hh. congruence.
Qed.

Lemma normalize_raises n w e : normalize_sni_name n w = Raise e -> is_ValueError e = true.
Proof.
  unfold normalize_sni_name. destruct (_ || _); [by intros [= <-]|]. destruct (encode_ascii _); [|by intros [= <-]].
  destruct (_ && _); [by intros [= <-]|]. destruct (_ && _); [by intros [= <-]|]. cbv zeta. destruct (_ && _); [by intros [= <-]|].
  set (ls := split_char _ _). induction ls as [|l ls IH]; cbn [check_sni_labels]; [done|].
  destruct (_ || _); [by intros [= <-]|]. destruct (forallb _ l); [done|by intros [= <-]].
Qed.

Lemma split_char_snoc c l : split_char c (l ++ [c]) = split_char c l ++ [[]].
Proof.
  induction l as [|x l IH]; cbn [app split_char]; [by rewrite Z.eqb_refl|].
  destruct (x =? c); [by rewrite IH|]. rewrite IH. pose proof (split_char_ne c l). by destruct (split_char c l).
Qed.

Lemma hostname_fixed n : hostname n -> lower (rstrip_dot n) = n.
Proof.
  intros H. pose proof (hostname_chars _ H) as Hc.
  assert (rstrip_dot n = n) as ->; [|apply lower_fixed; eapply Forall_impl; [exact Hc|cbn; tauto]].
  apply hostname_split in H as [_ H]. unfold rstrip_dot, rstrip_by. destruct (rev n) as [|c r] eqn:E.
  - apply (f_equal (@rev Z)) in E. by rewrite rev_involutive in E.
  - cbn [lstrip_by]. destruct (Z.eqb_spec 46 c) as [<-|]; [|by rewrite <- E, rev_involutive]. exfalso.
    apply (f_equal (@rev Z)) in E. rewrite rev_involutive in E. cbn [rev] in E. rewrite E, split_char_snoc in H.
    apply Forall_app in H as [_ H]. apply Forall_cons in H as [((Hl & _) & _) _]. change (len (@nil Z)) with 0 in Hl. lia.
Qed.

(** A client's server name is accepted exactly if, without final dots and in lower case,
    it is a host name of at most 253 characters made of ASCII labels of 1 to 63 characters;
    that form is the result, and is its own canonical form. *)
Theorem sni_name_exact (s n : str) :
  (normalize_sni_name s false = Ok n <-> n = lower (rstrip_dot s) /\ hostname n) /\
  (hostname n -> normalize_sni_name n false = Ok n).
Proof.
  split; [apply normalize_spec|]. intros H. apply normalize_spec. split; [|done]. symmetry. by apply hostname_fixed.
Qed.

(** A letter outside ASCII passes the ASCII check when its lower case is an ASCII letter. *)
Example kelvin_sign_accepted : normalize_sni_name (8490 :: py "elvin.example") false = Ok (py "kelvin.example").
Proof. reflexivity. Qed.

(** ** Selection *)

(** The name with its first label replaced by a star, if it has more than one label. *)
Definition wildcard_name (n : str) : option str :=
  match split_char 46 n with
  | (_ :: _) :: ((_ :: _) as rest) => Some (py "*." ++ join [46] rest)
  | _ => None
  end.
(** The first certificate that lists a name. *)
Definition owner (p : str) (certificates : list TlsCertificate) : option TlsCertificate :=
  List.find (fun c => str_in p (server_names c)) certificates.
Definition wildcard_owner (n : str) (certificates : list TlsCertificate) : option TlsCertificate :=
  match wildcard_name n with Some w => owner w certificates | None => None end.

(** Selection as a lookup. *)
Definition lookup_certificate (cfg : TlsConfig) (n : str) : option TlsCertificate :=
  match owner n (sni_certificates cfg), wildcard_owner n (sni_certificates cfg) with
  | Some c, _ => Some c
  | None, Some c => Some c
  | None, None => if reject_unknown_sni cfg then None else Some (default_certificate cfg)
  end.

Lemma wildcard_name_spec n w :
  wildcard_name n = Some w <-> exists l t, l <> [] /\ (46 ∉ l) /\ n = l ++ 46 :: t /\ w = 42 :: 46 :: t.
Proof.
  unfold wildcard_name. pose proof (join_split 46 n) as Hj. pose proof (split_char_free 46 n) as Hf. split.
  - destruct (split_char 46 n) as [|[|x l] [|y ws]]; try done. intros [= <-]. apply Forall_cons in Hf as [Hl _].
    exists (x :: l), (join [46] (y :: ws)). split_and!; [done|done|by rewrite <- Hj|done].
  - intros (l & t & Hne & Hl & -> & ->). rewrite split_char_app by done. destruct l as [|x l]; [done|].
    pose proof (split_char_ne 46 t). destruct (split_char 46 t) as [|y ws] eqn:E; [done|].
    by rewrite <- E, join_split.
Qed.

(** The tests of the loop on a wildcard pattern. *)
Lemma wildcard_tests n p :
  starts_with (py "*.") p = true ->
  (ends_with (from p 1) n = true /\
   bool_decide (upto n (len n - len (from p 1)) = []) || char_in 46 (upto n (len n - len (from p 1))) = false) <->
  wildcard_name n = Some p.
Proof.
  intros (t & ->)%starts_with_spec. change (py "*." ++ t) with (42 :: 46 :: t).
  change (from (42 :: 46 :: t) 1) with (46 :: t). rewrite ends_with_spec, wildcard_name_spec.
  rewrite orb_false_iff, bool_decide_eq_false, char_in_false. split.
  - intros [(q & ->) [H1 H2]]. rewrite len_app in H1, H2. replace (len q + len (46 :: t) - len (46 :: t)) with (len q) in H1, H2 by lia.
    rewrite upto_app_le, upto_all in H1, H2 by lia. by exists q, t.
  - intros (l & t' & Hne & Hl & -> & [= ->]). split; [by exists l|]. rewrite len_app.
    replace (len l + len (46 :: t') - len (46 :: t')) with (len l) by lia. by rewrite upto_app_le, upto_all by lia.
Qed.

(** The best wildcard after a list of names that holds [w], if any. *)
Definition better (n : str) (c : option TlsCertificate) (best : option TlsCertificate * Z) : option TlsCertificate * Z :=
  match c, wildcard_name n with
  | Some c, Some w => if snd best <? len w - 1 then (Some c, len w - 1) else best
  | _, _ => best
  end.

Lemma better_better n c c' best : better n c' (better n (Some c) best) = better n (Some c) best.
Proof.
  unfold better. destruct c' as [c'|]; [|done]. destruct (wildcard_name n) as [w|]; [|done].
  destruct (snd best <? len w - 1) eqn:E; [cbn [snd]; by rewrite Z.ltb_irrefl|by rewrite E].
Qed.

Lemma str_in_cons x y l : str_in x (y :: l) = str_eqb x y || str_in x l.
Proof.
  unfold str_in, str_eqb. rewrite <- bool_decide_or. apply bool_decide_ext. apply elem_of_cons.
Qed.

Definition lists_wildcard (n : str) (ps : list str) : bool :=
  match wildcard_name n with Some w => str_in w ps | None => false end.

Lemma scan_names_spec n c ps best : 42 ∉ n ->
  scan_names n c ps best =
  if str_in n ps then inl c else inr (better n (if lists_wildcard n ps then Some c else None) best).
Proof.
  intros Hn. revert best. induction ps as [|p ps IH]; intros best.
  { cbn. unfold lists_wildcard, str_in. destruct (wildcard_name n); rewrite ?bool_decide_eq_false_2 by apply not_elem_of_nil; done. }
  cbn [scan_names]. rewrite str_in_cons. unfold lists_wildcard in *.
  destruct (starts_with (py "*.") p) eqn:Es; cbn [negb].
  - assert (str_eqb n p = false) as ->.
    { apply bool_decide_eq_false. intros ->. apply starts_with_spec in Es as (t & ->). destruct Hn. by left. }
    cbn [orb]. pose proof (wildcard_tests n p Es) as Hw.
    destruct (ends_with (from p 1) n) eqn:E1; cbn [negb].
    1: destruct (_ || char_in _ _) eqn:E2.
    + rewrite IH. destruct (wildcard_name n) as [w|]; [|done]. rewrite str_in_cons.
      replace (str_eqb w p) with false; [done|]. symmetry. apply bool_decide_eq_false. intros ->. destruct (proj2 Hw eq_refl). congruence.
    + rewrite (proj1 Hw) by done. rewrite str_in_cons. unfold str_eqb at 1. rewrite bool_decide_eq_true_2 by done. cbn [orb].
      apply starts_with_spec in Es as (t & ->). assert (wildcard_name n = Some (py "*." ++ t)) as Ew by (by apply Hw).
      rewrite Z.gtb_ltb, !IH, Ew. replace (len (from (py "*." ++ t) 1)) with (len (py "*." ++ t) - 1) by (change (from (py "*." ++ t) 1) with (46 :: t); change (py "*." ++ t) with (42 :: 46 :: t); lens; lia).
      destruct (str_in n ps); [by destruct (_ <? _)|].
      assert (forall x, better n x (better n (Some c) best) = better n (Some c) best) as Hb by (intros; apply better_better).
      unfold better in Hb |- *. rewrite Ew in Hb |- *. destruct (snd best <? _) eqn:El; cbn [snd fst] in *.
      * f_equal. rewrite Z.ltb_irrefl. by destruct (str_in _ ps).
      * by destruct (str_in _ ps).
    + rewrite IH. destruct (wildcard_name n) as [w|]; [|done]. rewrite str_in_cons.
      replace (str_eqb w p) with false; [done|]. symmetry. apply bool_decide_eq_false. intros ->. destruct (proj2 Hw eq_refl). congruence.
  - assert (str_eqb p n = str_eqb n p) as -> by (unfold str_eqb; by apply bool_decide_ext).
    destruct (str_eqb n p); cbn [orb]; [done|]. rewrite IH.
    destruct (wildcard_name n) as [w|] eqn:Ew; [|done]. rewrite str_in_cons. replace (str_eqb w p) with false; [done|].
    symmetry. apply bool_decide_eq_false. intros ->. apply wildcard_name_spec in Ew as (l & t & _ & _ & _ & ->). done.
Qed.

Lemma owner_cons p c certs : owner p (c :: certs) = if str_in p (server_names c) then Some c else owner p certs.
Proof. done. Qed.

Lemma scan_certificates_spec n certs best : 42 ∉ n ->
  scan_certificates n certs best =
  match owner n certs with Some c => inl c | None => inr (better n (wildcard_owner n certs) best) end.
Proof.
  intros Hn. revert best. induction certs as [|c certs IH]; intros best.
  { cbn. unfold wildcard_owner, better. by destruct (wildcard_name n). }
  cbn [scan_certificates]. rewrite scan_names_spec by done. rewrite owner_cons.
  destruct (str_in n (server_names c)); [done|]. rewrite IH. destruct (owner n certs); [done|]. f_equal.
  unfold lists_wildcard, wildcard_owner. destruct (wildcard_name n) as [w|] eqn:Ew; [|done].
  rewrite owner_cons. destruct (str_in w (server_names c)); [apply better_better|by unfold better at 2].
Qed.

Lemma select_is_lookup cfg s n :
  s <> [] -> normalize_sni_name s false = Ok n -> select_certificate cfg s = Ok (lookup_certificate cfg n).
Proof.
  intros Hs Hn. unfold select_certificate. rewrite bool_decide_eq_false_2 by done. rewrite Hn. cbn [rbind].
  assert (42 ∉ n) as Hst by (apply hostname_star; by apply normalize_spec in Hn as [_ ?]).
  rewrite scan_certificates_spec by done. unfold lookup_certificate. destruct (owner n _); [done|].
  unfold better, wildcard_owner. destruct (wildcard_name n) as [w|] eqn:Ew; [|by destruct (reject_unknown_sni _)].
  destruct (owner w _); cbn [snd]; [|by destruct (reject_unknown_sni _)].
  apply wildcard_name_spec in Ew as (l & t0 & _ & _ & _ & ->). lens. pose proof (len_nonneg t0). by zdec.
Qed.

(** ** One owner per name *)

Lemma add_names_inv more names res :
  add_names more names = Ok res -> res = names ++ more /\ (NoDup names -> NoDup res).
Proof.
  revert names. induction more as [|x more IH]; intros names; cbn [add_names]; [intros [= <-]; by rewrite app_nil_r|].
  unfold str_in. destruct (bool_decide_reflect (x ∈ names)); [done|]. intros [-> H]%IH. rewrite <- app_assoc. split; [done|].
  intros Hn. rewrite <- app_assoc in H. apply H. apply NoDup_app. split_and!; [done| |apply NoDup_singleton].
  intros y Hy ->%list_elem_of_singleton. done.
Qed.

Lemma check_certificates_inv items ids names :
  check_certificates items ids names = Ok tt -> NoDup names -> NoDup (names ++ concat (map server_names items)).
Proof.
  revert ids names. induction items as [|c items IH]; intros ids names; cbn [check_certificates map concat]; [by rewrite app_nil_r|].
  destruct (str_in _ _); [done|]. destruct (add_names (server_names c) names) as [res|e] eqn:E; cbn [rbind]; [|done].
  apply add_names_inv in E as [-> Hnd]. intros H Hn. rewrite app_assoc. eapply IH; [exact H|by apply Hnd].
Qed.

Lemma make_config_names cert key alpn req certs rej dflt ca cfg :
  make_config cert key alpn req certs rej dflt ca = Ok cfg ->
  sni_certificates cfg = certs /\ NoDup (concat (map server_names certs)).
Proof.
  unfold make_config. destruct (match dflt with Some _ => _ | None => _ end) as [d|e]; cbn [rbind]; [|done].
  destruct (_ >? _); [done|]. destruct (check_certificates _ _ _) as [[]|e] eqn:E; cbn [rbind]; [|done].
  destruct (validate_alpn alpn); cbn [rbind]; [|done]. destruct (char_in _ _); [done|]. destruct (_ && _); [done|].
  intros [= <-]. split; [done|]. apply check_certificates_inv in E; [done|constructor].
Qed.

Lemma owner_unique p certs c :
  NoDup (concat (map server_names certs)) -> c ∈ certs -> p ∈ server_names c -> owner p certs = Some c.
Proof.
  induction certs as [|c' certs IH]; intros Hn Hc Hp; [by apply elem_of_nil in Hc|]. rewrite owner_cons. unfold str_in.
  cbn [map concat] in Hn. apply NoDup_app in Hn as (_ & Hd & Hn). apply elem_of_cons in Hc as [->|Hc].
  - by rewrite bool_decide_eq_true_2.
  - rewrite bool_decide_eq_false_2; [by apply IH|]. intros Hp'. apply (Hd _ Hp'). apply list_elem_of_In, in_concat.
    exists (server_names c). by rewrite in_map_iff, <- list_elem_of_In; split; [exists c; rewrite <- list_elem_of_In|].
Qed.

(** C32: Selection is a lookup.  For every configuration the constructor accepts and every
    acceptable server name, the answer is the first certificate listing the canonical name,
    else the one listing it with the first label starred, else none or the default; and as no
    two certificates share a name, a certificate that lists the name is the one selected,
    wherever it stands in the configuration. *)
Theorem sni_selection cert key alpn req certs rej dflt ca cfg s n :
  make_config cert key alpn req certs rej dflt ca = Ok cfg ->
  s <> [] -> normalize_sni_name s false = Ok n ->
  select_certificate cfg s = Ok (lookup_certificate cfg n) /\
  (forall c, c ∈ certs -> n ∈ server_names c -> select_certificate cfg s = Ok (Some c)) /\
  (forall c w, c ∈ certs -> wildcard_name n = Some w -> w ∈ server_names c ->
     (forall c', c' ∈ certs -> n ∉ server_names c') -> select_certificate cfg s = Ok (Some c)).
Proof.
  intros Hcfg Hs Hn. apply make_config_names in Hcfg as [E Hnd]. pose proof (select_is_lookup cfg s n Hs Hn) as Hl.
  rewrite Hl. unfold lookup_certificate, wildcard_owner. rewrite E. split; [done|]. split.
  - intros c Hc Hin. by rewrite (owner_unique n certs c).
  - intros c w Hc Ew Hin Hno. rewrite Ew, (owner_unique w certs c) by done. destruct (owner n certs) as [c'|] eqn:Ho; [|done].
    apply find_some in Ho as [Hc' Hp]. apply list_elem_of_In in Hc'. unfold str_in in Hp. b2p. by destruct (Hno c').
Qed.

(** ** Witnesses and findings *)

Definition sample_cert (id : string) (names : list str) : TlsCertificate :=
  MkTlsCertificate (py id) (py "cert.pem") (py "key.pem") names.
Definition sample_config : result TlsConfig :=
  make_config [] [] [py "http/1.1"] false
    [sample_cert "wild" [py "*.example.com"]; sample_cert "api" [py "api.example.com"]] true
    (Some (sample_cert "default" [py "www.example.org"])) [].

Lemma sni_selection_witness :
  exists cfg, sample_config = Ok cfg /\
    select_certificate cfg (py "API.example.com.") = Ok (lookup_certificate cfg (py "api.example.com")) /\
    (exists c, select_certificate cfg (py "API.example.com.") = Ok (Some c) /\ identifier c = py "api").
Proof.
  eexists. split; [reflexivity|].
  destruct (sni_selection [] [] [py "http/1.1"] false
    [sample_cert "wild" [py "*.example.com"]; sample_cert "api" [py "api.example.com"]] true
    (Some (sample_cert "default" [py "www.example.org"])) [] _ (py "API.example.com.") (py "api.example.com")
    eq_refl ltac:(discriminate) eq_refl) as (H1 & H2 & _).
  split; [exact H1|]. exists (sample_cert "api" [py "api.example.com"]). split; [|reflexivity].
  apply H2; [by right; left|by left].
Defined.

Lemma sni_name_exact_witness :
  hostname (py "api.example.com") /\ normalize_sni_name (py "api.example.com") false = Ok (py "api.example.com").
Proof.
  assert (hostname (py "api.example.com")) as H by (eapply (normalize_spec (py "API.example.com.")); reflexivity).
  split; [exact H|]. exact (proj2 (sni_name_exact [] _) H).
Defined.

(** The names of the default certificate are not consulted: with unknown names refused,
    the default certificate's own name is refused. *)
Example default_names_not_consulted :
  exists cfg, sample_config = Ok cfg /\ select_certificate cfg (py "www.example.org") = Ok None.
Proof. eexists. split; reflexivity. Qed.
