(* ===== verification/TlsGeneration.v ===== *)
(** * TLS providers and context generations ([pcc_gateway/tls.py])

    A provider is outside code: a record of the methods of the provider interface over a
    world [W], with opaque contexts and sessions.  Provider objects are named by numbers,
    generations live in a store and are referred to by index.  [TlsGeneration] counts the
    references to its contexts; each method is its section under the lock and the provider
    calls that follow it.  The theorems are in [TlsManagerSpec]. *)

From S2P Require Import Prelude PyStr Tls.
#[local] Open Scope Z_scope.

(** What the registry and the results read of a provider's identity; a missing string
    attribute reads as the empty string. *)
Record TlsProviderInfo := MkProviderInfo {
  pi_name : str;
  abi_version : Z;
  link_boundary : str;
  license_id : str;
  security_boundary : str;
  production_ready : bool;
  native_abi : str;
  implementation_id : str;
  library_path : str;
  expected_library_sha256 : str;
  verified_library_sha256 : str;
  library_max_bytes : Z;
}.

(** A provider object.  [None] is a value of another type than the interface's. *)
Record tls_provider (Ctx Session W : Type) := Provider {
  provider_info : W -> TlsProviderInfo;
  create_server_context : TlsConfig -> TlsCertificate -> M W (option Ctx);
  new_connection : Ctx -> Z -> M W (option Session);
  p_handshake : Session -> M W (option TlsResult);
  p_set_server_context : Session -> Ctx -> M W (option TlsResult);
  p_selected_alpn : Session -> M W (option str);
  p_read : Session -> Z -> Z -> M W (option TlsResult); (* the output buffer by its length *)
  p_write : Session -> bytes -> Z -> M W (option TlsResult);
  p_close_notify : Session -> M W (option TlsResult);
  free_connection : Session -> M W unit;
  free_context : Ctx -> M W unit;
  p_callable : str -> bool; (* [callable(getattr(provider, name, None))] *)
  flags_production : bool; (* [production_ready] is a bool *)
  p_activate : M W unit;
  p_close : M W unit;
}.
Arguments Provider {Ctx Session W}.
Arguments provider_info {Ctx Session W}.
Arguments create_server_context {Ctx Session W}.
Arguments new_connection {Ctx Session W}.
Arguments p_handshake {Ctx Session W}.
Arguments p_set_server_context {Ctx Session W}.
Arguments p_selected_alpn {Ctx Session W}.
Arguments p_read {Ctx Session W}.
Arguments p_write {Ctx Session W}.
Arguments p_close_notify {Ctx Session W}.
Arguments free_connection {Ctx Session W}.
Arguments free_context {Ctx Session W}.
Arguments p_callable {Ctx Session W}.
Arguments flags_production {Ctx Session W}.
Arguments p_activate {Ctx Session W}.
Arguments p_close {Ctx Session W}.

Record tls_generation (Ctx : Type) := MkGeneration {
  generation_id : Z;
  g_provider : nat;
  g_config : TlsConfig;
  references : Z;
  retired : bool;
  destroyed : bool;
  contexts : list Ctx;
  context_by_identifier : gmap (list Z) Ctx;
  g_context : option Ctx;
}.
Arguments MkGeneration {Ctx}.
Arguments generation_id {Ctx}.
Arguments g_provider {Ctx}.
Arguments g_config {Ctx}.
Arguments references {Ctx}.
Arguments retired {Ctx}.
Arguments destroyed {Ctx}.
Arguments contexts {Ctx}.
Arguments context_by_identifier {Ctx}.
Arguments g_context {Ctx}.

(** The generations and the world of the providers. *)
Record tls_store (Ctx W : Type) := Store { gens : list (tls_generation Ctx); world : W }.
Arguments Store {Ctx W}.
Arguments gens {Ctx W}.
Arguments world {Ctx W}.

Module TlsGeneration.
Section generation.
Context {Ctx Session W : Type} (prov : nat -> tls_provider Ctx Session W).
Abbreviation GM := (M (tls_store Ctx W)).

Definition on_world {A} (m : M W A) : GM A := zoom world (fun w s => Store (gens s) w) m.

(** The loop of the constructor: what was created, and the error that ended it. *)
Fixpoint create_contexts (p : tls_provider Ctx Session W) (config : TlsConfig) (certificates : list TlsCertificate)
    (created : list Ctx) (by_identifier : gmap (list Z) Ctx)
    : M W (list Ctx * gmap (list Z) Ctx * option exn) :=
  match certificates with
  | [] => ret (created, by_identifier, None)
  | c :: certificates' =>
      let! r := try_except
                  (let! context := create_server_context p config c in
                   match context with
                   | Some x => ret (Ok x)
                   | None => raise (TlsProviderError (py "TLS provider failed to create context " ++ identifier c))
                   end)
                  (fun error => ret (Raise error)) in
      match r with
      | Ok x => create_contexts p config certificates' (created ++ [x]) (<[identifier c := x]> by_identifier)
      | Raise error => ret (created, by_identifier, Some error)
      end
  end.

(** The loop of [_free_contexts], from the last context; the first error is kept. *)
Fixpoint free_loop (p : tls_provider Ctx Session W) (contexts : list Ctx) (first_error : option exn) : M W (option exn) :=
  match contexts with
  | [] => ret first_error
  | context :: contexts' =>
      let! e := attempt (free_context p context) in
      free_loop p contexts' (first_of first_error e)
  end.
Definition free_contexts (p : tls_provider Ctx Session W) (contexts : option (list Ctx)) : M W unit :=
  match contexts with
  | None => ret tt
  | Some contexts =>
      let! first_error := free_loop p (rev contexts) None in
      match first_error with
      | Some _ => raise (TlsProviderError (py "TLS provider context cleanup failed"))
      | None => ret tt
      end
  end.

Definition is_provider_error (e : exn) : bool := match e with TlsProviderError _ => true | _ => false end.

(** [TlsGeneration(generation_id, provider, config)]; a failed construction frees what it
    created and leaves no object. *)
Definition init (generation_id : Z) (provider : nat) (config : TlsConfig) : GM nat :=
  if generation_id <=? 0 then raise (ValueError (py "TLS generation id must be positive"))
  else
    let! r := on_world (create_contexts (prov provider) config
                          (default_certificate config :: sni_certificates config) [] ∅) in
    let '(created, by_identifier, failure) := r in
    match failure with
    | Some error =>
        let! cleanup_error := attempt (on_world (free_contexts (prov provider) (Some created))) in
        match cleanup_error with
        | Some _ => raise (TlsProviderError (py "TLS provider context creation cleanup failed"))
        | None =>
            if is_provider_error error then raise error
            else raise (TlsProviderError (py "TLS provider context creation failed"))
        end
    | None =>
        match by_identifier !! identifier (default_certificate config) with
        | None => raise (KeyError (identifier (default_certificate config)))
        | Some context => fun s =>
            (Ok (length (gens s)),
             Store (gens s ++ [MkGeneration generation_id provider config 1 false false created by_identifier (Some context)])
               (world s))
        end
    end.

(** A reference to no object is not a value of Python. *)
Definition get_gen (g : nat) : GM (tls_generation Ctx) := fun s =>
  match gens s !! g with Some x => (Ok x, s) | None => (Raise out_of_fuel, s) end.
Definition put_gen (g : nat) (x : tls_generation Ctx) : GM unit :=
  modify (fun s => Store (<[g := x]> (gens s)) (world s)).

Definition set_references (n : Z) (x : tls_generation Ctx) : tls_generation Ctx :=
  MkGeneration (generation_id x) (g_provider x) (g_config x) n (retired x) (destroyed x) (contexts x)
    (context_by_identifier x) (g_context x).
Definition set_retired (b : bool) (x : tls_generation Ctx) : tls_generation Ctx :=
  MkGeneration (generation_id x) (g_provider x) (g_config x) (references x) b (destroyed x) (contexts x)
    (context_by_identifier x) (g_context x).

(** [context] *)
Definition context (g : nat) : GM Ctx :=
  let! x := get_gen g in
  match g_context x with
  | Some c => if destroyed x then raise (TlsProviderError (py "TLS generation is released")) else ret c
  | None => raise (TlsProviderError (py "TLS generation is released"))
  end.

Definition retain (g : nat) : GM unit :=
  let! x := get_gen g in
  if (references x <=? 0) || destroyed x then raise (TlsProviderError (py "TLS generation is released"))
  else put_gen g (set_references (references x + 1) x).

(** [_take_contexts_locked], on the object under the lock. *)
Definition take_contexts (x : tls_generation Ctx) : option (list Ctx) * tls_generation Ctx :=
  if destroyed x then (None, x)
  else (Some (contexts x),
        MkGeneration (generation_id x) (g_provider x) (g_config x) (references x) (retired x) true [] ∅ None).

(** Both [release] and [retire]: one reference less, the contexts with the last. *)
Definition drop_reference (g : nat) (x : tls_generation Ctx) : GM (option (list Ctx)) :=
  let x := set_references (references x - 1) x in
  if references x =? 0 then
    let '(taken, x) := take_contexts x in
    put_gen g x ;;! ret taken
  else put_gen g x ;;! ret None.

Definition release_locked (g : nat) : GM (option (list Ctx)) :=
  let! x := get_gen g in
  if (references x <=? 0) || destroyed x
  then raise (TlsProviderError (py "TLS generation released more than once"))
  else drop_reference g x.

Definition retire_locked (g : nat) : GM (option (list Ctx)) :=
  let! x := get_gen g in
  if retired x then ret None
  else if (references x <=? 0) || destroyed x
  then raise (TlsProviderError (py "TLS generation released more than once"))
  else drop_reference g (set_retired true x).

(** What follows the section: the contexts that came out are freed by the provider. *)
Definition free_taken (g : nat) (taken : option (list Ctx)) : GM unit :=
  let! x := get_gen g in
  on_world (free_contexts (prov (g_provider x)) taken).

Definition released_count (taken : option (list Ctx)) : Z := match taken with Some _ => 1 | None => 0 end.
Definition release (g : nat) : GM Z :=
  let! taken := release_locked g in
  free_taken g taken ;;! ret (released_count taken).
Definition retire (g : nat) : GM Z :=
  let! taken := retire_locked g in
  free_taken g taken ;;! ret (released_count taken).

(** [select_context(server_name)]: [None] is the pair [(None, "")]. *)
Definition select_context (g : nat) (server_name : str) : GM (option (Ctx * str)) :=
  let! x := get_gen g in
  let! selected := lift (select_certificate (g_config x) server_name) in
  match selected with
  | None => ret None
  | Some c =>
      if destroyed x then raise (TlsProviderError (py "TLS generation is released"))
      else match context_by_identifier x !! identifier c with
      | None => raise (TlsProviderError (py "TLS generation context is missing"))
      | Some context => ret (Some (context, identifier c))
      end
  end.

End generation.
End TlsGeneration.
