(* ===== verification/TlsChannel.v ===== *)
(** * One TLS session ([TlsChannel] of [pcc_gateway/tls.py])

    The state machine between the gateway and a provider's session: deadlines, the one SNI
    selection, the checks on what the provider returns, and the release of session and
    generation.  A method runs over the channel and the store of generations.  The
    theorems are in [TlsChannelSpec]. *)

From S2P Require Import Prelude PyStr Tls TlsGeneration.
#[local] Open Scope Z_scope.

Record tls_channel (Session : Type) := MkChannel {
  ch_provider : nat;
  fd : Z;
  generation : option nat;
  session : option Session;
  handshake_complete : bool;
  sni_selected : bool;
  ch_server_name : str;
  certificate_id : str;
  ch_alpn : str;
  peer_closed : bool;
  close_notify_started : bool;
  close_notify_complete : bool;
  failed : bool;
  released : bool;
  closed : bool;
  last_error : str;
  last_result : TlsResult;
}.
Arguments MkChannel {Session}.
Arguments ch_provider {Session}.
Arguments fd {Session}.
Arguments generation {Session}.
Arguments session {Session}.
Arguments handshake_complete {Session}.
Arguments sni_selected {Session}.
Arguments ch_server_name {Session}.
Arguments certificate_id {Session}.
Arguments ch_alpn {Session}.
Arguments peer_closed {Session}.
Arguments close_notify_started {Session}.
Arguments close_notify_complete {Session}.
Arguments failed {Session}.
Arguments released {Session}.
Arguments closed {Session}.
Arguments last_error {Session}.
Arguments last_result {Session}.

Module TlsChannel.
Section channel.
Context {Ctx Session W : Type} (prov : nat -> tls_provider Ctx Session W).
Abbreviation chan := (tls_channel Session).
Abbreviation store := (tls_store Ctx W).
Abbreviation CM := (M (chan * store)).

(** The assignments of the methods. *)
Definition set_last (r : TlsResult) (c : chan) : chan :=
  MkChannel (ch_provider c) (fd c) (generation c) (session c) (handshake_complete c) (sni_selected c)
    (ch_server_name c) (certificate_id c) (ch_alpn c) (peer_closed c) (close_notify_started c)
    (close_notify_complete c) (failed c || (status r =? TLS_ERROR)) (released c) (closed c) (error_name r) r.
Definition set_sni (name id : str) (c : chan) : chan :=
  MkChannel (ch_provider c) (fd c) (generation c) (session c) (handshake_complete c) true
    name id (ch_alpn c) (peer_closed c) (close_notify_started c)
    (close_notify_complete c) (failed c) (released c) (closed c) (last_error c) (last_result c).
Definition set_established (alpn : str) (c : chan) : chan :=
  MkChannel (ch_provider c) (fd c) (generation c) (session c) true (sni_selected c)
    (ch_server_name c) (certificate_id c) alpn (peer_closed c) (close_notify_started c)
    (close_notify_complete c) (failed c) (released c) (closed c) (last_error c) (last_result c).
Definition set_peer_closed (c : chan) : chan :=
  MkChannel (ch_provider c) (fd c) (generation c) (session c) (handshake_complete c) (sni_selected c)
    (ch_server_name c) (certificate_id c) (ch_alpn c) true (close_notify_started c)
    (close_notify_complete c) (failed c) (released c) (closed c) (last_error c) (last_result c).
Definition set_closing (c : chan) : chan :=
  MkChannel (ch_provider c) (fd c) (generation c) (session c) (handshake_complete c) (sni_selected c)
    (ch_server_name c) (certificate_id c) (ch_alpn c) (peer_closed c) true
    (close_notify_complete c) (failed c) (released c) (closed c) (last_error c) (last_result c).
Definition set_notified (c : chan) : chan :=
  MkChannel (ch_provider c) (fd c) (generation c) (session c) (handshake_complete c) (sni_selected c)
    (ch_server_name c) (certificate_id c) (ch_alpn c) (peer_closed c) (close_notify_started c)
    true (failed c) (released c) true (last_error c) (last_result c).
Definition set_released (c : chan) : chan :=
  MkChannel (ch_provider c) (fd c) None None (handshake_complete c) (sni_selected c)
    (ch_server_name c) (certificate_id c) (ch_alpn c) (peer_closed c) (close_notify_started c)
    (close_notify_complete c) (failed c) true true (last_error c) (last_result c).

Definition the_channel : CM chan := fun t => (Ok (fst t), t).
Definition upd (f : chan -> chan) : CM unit := modify (fun t => (f (fst t), snd t)).
Definition on_store {A} (m : M store A) : CM A := zoom snd (fun s t => (fst t, s)) m.
Definition on_provider {A} (m : M W A) : CM A := on_store (TlsGeneration.on_world m).

(** [TlsChannel(generation, fd, generation_retained)] *)
Definition init (g : nat) (fd : Z) (generation_retained : bool) : M store chan :=
  if fd <? 0 then raise (ValueError (py "TLS channel requires a nonnegative socket fd"))
  else
    (if generation_retained then ret tt else TlsGeneration.retain g) ;;!
    let! x := TlsGeneration.get_gen g in
    let! r := try_except
                (let! c := TlsGeneration.context g in
                 let! s := TlsGeneration.on_world (new_connection (prov (g_provider x)) c fd) in
                 ret (Ok s))
                (fun error => ret (Raise error)) in
    match r with
    | Raise _ =>
        TlsGeneration.release prov g ;;!
        raise (TlsProviderError (py "TLS provider connection creation failed"))
    | Ok None =>
        TlsGeneration.release prov g ;;!
        raise (TlsProviderError (py "TLS provider failed to create connection"))
    | Ok (Some s) =>
        ret (MkChannel (g_provider x) fd (Some g) (Some s) false false []
               (identifier (default_certificate (g_config x))) [] false false false false false false
               (py "none") (plain TLS_OK))
    end.

Definition remember (r : TlsResult) : CM TlsResult := upd (set_last r) ;;! ret r.
Definition provider_failure (detail : str) : CM TlsResult := remember (tls_error TLS_ERR_PROVIDER detail).
Definition contract_failure (detail : str) : CM TlsResult := remember (tls_error TLS_ERR_PROVIDER_CONTRACT detail).

(** [None]: go on. *)
Definition deadline (now_ms deadline_ms : Z) : CM (option TlsResult) :=
  if (now_ms <? 0) || (deadline_ms <=? 0) then
    let! r := remember (tls_error TLS_ERR_CONFIGURATION (py "invalid absolute deadline")) in ret (Some r)
  else if now_ms >=? deadline_ms then
    let! r := remember (tls_error TLS_ERR_DEADLINE (py "deadline expired")) in ret (Some r)
  else ret None.

(** [_call_result]: the call of a provider method. *)
Definition call_result (method_name : str) (call : tls_provider Ctx Session W -> M W (option TlsResult)) : CM TlsResult :=
  let! c := the_channel in
  let! r := try_except
              (let! r := on_provider (call (prov (ch_provider c))) in ret (Ok r))
              (fun error => ret (Raise error)) in
  match r with
  | Raise error => provider_failure (method_name ++ py ": " ++ exn_message error)
  | Ok None => contract_failure (method_name ++ py " returned a non-TlsResult")
  | Ok (Some r) => ret r
  end.

Definition known_status (s : Z) : bool :=
  (s =? TLS_OK) || (s =? TLS_WANT_READ) || (s =? TLS_WANT_WRITE) || (s =? TLS_CLOSED)
  || (s =? TLS_SELECT_SNI) || (s =? TLS_ERROR).

Definition validate_result (operation : str) (r : TlsResult) (limit : Z) : CM TlsResult :=
  if negb (known_status (status r))
  then contract_failure (operation ++ py " returned an unknown status")
  else if (status r =? TLS_SELECT_SNI) && negb (str_eqb operation (py "handshake"))
  then contract_failure (operation ++ py " requested SNI selection")
  else if (status r =? TLS_SELECT_SNI) && bool_decide (server_name r = [])
  then contract_failure (py "handshake requested empty SNI")
  else if negb (status r =? TLS_SELECT_SNI) && negb (bool_decide (server_name r = []))
  then contract_failure (operation ++ py " returned unexpected SNI")
  else if status r =? TLS_ERROR then
    if (error_code r <=? TLS_ERR_NONE) || (error_code r >? TLS_ERR_INTERNAL)
    then contract_failure (operation ++ py " returned invalid error code")
    else if negb (r_count r =? 0) then contract_failure (operation ++ py " error returned byte count")
    else remember r
  else if negb (error_code r =? TLS_ERR_NONE) then contract_failure (operation ++ py " mixed status and error")
  else if str_in operation [py "read"; py "write"] && (status r =? TLS_OK) then
    if (r_count r <=? 0) || (r_count r >? limit)
    then contract_failure (operation ++ py " returned invalid byte count")
    else remember r
  else if negb (r_count r =? 0) then contract_failure (operation ++ py " returned unexpected byte count")
  else remember r.

Definition preflight (now_ms deadline_ms : Z) : CM (option TlsResult) :=
  let! c := the_channel in
  if released c || negb (bool_decide (is_Some (session c))) then
    let! r := remember (plain TLS_CLOSED) in ret (Some r)
  else if failed c then ret (Some (last_result c))
  else if closed c then let! r := remember (plain TLS_CLOSED) in ret (Some r)
  else deadline now_ms deadline_ms.

(** The body of an operation, once the preflight lets it go on; [k] has the session. *)
Definition checked (now_ms deadline_ms : Z) (k : chan -> Session -> CM TlsResult) : CM TlsResult :=
  let! p := preflight now_ms deadline_ms in
  match p with
  | Some r => ret r
  | None =>
      let! c := the_channel in
      match session c with Some s => k c s | None => raise out_of_fuel end
  end.

(** A provider call whose result is validated, unless the call itself failed. *)
Definition called (operation : str) (call : tls_provider Ctx Session W -> M W (option TlsResult)) (limit : Z)
    (k : TlsResult -> CM TlsResult) : CM TlsResult :=
  let! r := call_result operation call in
  let! c := the_channel in
  if (status r =? TLS_ERROR) && failed c then ret r
  else
    let! r := validate_result operation r limit in
    k r.

Definition misuse (detail : str) : CM TlsResult := remember (tls_error TLS_ERR_CONFIGURATION detail).

(** The selection of a context for the name the client sent. *)
Definition select_sni (s : Session) (r : TlsResult) : CM TlsResult :=
  let! c := the_channel in
  if sni_selected c then contract_failure (py "provider requested SNI more than once")
  else
    match normalize_sni_name (server_name r) false with
    | Raise error =>
        if is_ValueError error then remember (tls_error TLS_ERR_PROTOCOL (exn_message error)) else raise error
    | Ok normalized =>
        match generation c with
        | None => raise out_of_fuel
        | Some g =>
            let! selected := on_store (TlsGeneration.select_context g normalized) in
            match selected with
            | None => remember (tls_error TLS_ERR_UNRECOGNIZED_NAME (py "SNI name is not configured"))
            | Some (context, id) =>
                called (py "set_server_context") (fun p => p_set_server_context p s context) 0 (fun selected =>
                  if negb (status selected =? TLS_OK)
                  then contract_failure (py "set_server_context must complete synchronously")
                  else
                    upd (set_sni normalized id) ;;!
                    remember (make_result TLS_SELECT_SNI 0 TLS_ERR_NONE [] normalized))
            end
        end
    end.

(** The end of a handshake: the protocol the provider negotiated. *)
Definition finish_handshake (s : Session) (r : TlsResult) : CM TlsResult :=
  let! c := the_channel in
  let! a := try_except
              (let! a := on_provider (p_selected_alpn (prov (ch_provider c)) s) in ret (Ok a))
              (fun error => ret (Raise error)) in
  match a with
  | Raise error => provider_failure (py "selected_alpn: " ++ exn_message error)
  | Ok None => contract_failure (py "selected_alpn returned a non-string")
  | Ok (Some alpn) =>
      match generation c with
      | None => raise out_of_fuel
      | Some g =>
          let! x := on_store (TlsGeneration.get_gen g) in
          if negb (bool_decide (alpn = [])) && negb (str_in alpn (cfg_alpn (g_config x)))
          then remember (tls_error TLS_ERR_ALPN (py "provider selected unconfigured ALPN"))
          else upd (set_established alpn) ;;! ret r
      end
  end.

Definition handshake (now_ms deadline_ms : Z) : CM TlsResult :=
  checked now_ms deadline_ms (fun c s =>
    if handshake_complete c then remember (plain TLS_OK)
    else
      called (py "handshake") (fun p => p_handshake p s) 0 (fun r =>
        if status r =? TLS_SELECT_SNI then select_sni s r
        else if status r =? TLS_OK then finish_handshake s r
        else if status r =? TLS_CLOSED then upd set_peer_closed ;;! ret r
        else ret r)).

(** [output] by its length; what the provider writes there is part of its world. *)
Definition read (output limit now_ms deadline_ms : Z) : CM TlsResult :=
  checked now_ms deadline_ms (fun c s =>
    if negb (handshake_complete c) then misuse (py "TLS read before handshake")
    else if (limit <=? 0) || (limit >? output) then misuse (py "invalid TLS read limit")
    else
      called (py "read") (fun p => p_read p s output limit) limit (fun r =>
        if status r =? TLS_CLOSED then upd set_peer_closed ;;! ret r else ret r)).

Definition write (data : bytes) (length now_ms deadline_ms : Z) : CM TlsResult :=
  checked now_ms deadline_ms (fun c s =>
    if negb (handshake_complete c) then misuse (py "TLS write before handshake")
    else if close_notify_started c then misuse (py "TLS write after close-notify")
    else if (length <=? 0) || (length >? len data) then misuse (py "invalid TLS write length")
    else called (py "write") (fun p => p_write p s data length) length ret).

Definition close_notify (now_ms deadline_ms : Z) : CM TlsResult :=
  checked now_ms deadline_ms (fun c s =>
    if negb (handshake_complete c) then misuse (py "close-notify before handshake")
    else if close_notify_complete c then remember (plain TLS_CLOSED)
    else
      upd set_closing ;;!
      called (py "close_notify") (fun p => p_close_notify p s) 0 (fun r =>
        if status r =? TLS_OK
        then contract_failure (py "close_notify must return WANT_READ, WANT_WRITE, CLOSED or ERROR")
        else if status r =? TLS_CLOSED then upd set_notified ;;! ret r
        else ret r)).

Definition cancel : CM TlsResult :=
  let! c := the_channel in
  if released c then remember (plain TLS_CLOSED)
  else remember (tls_error TLS_ERR_CANCELLED (py "TLS operation cancelled")).

(** [close]: the section under the close lock, then the session and the generation. *)
Definition close : CM TlsResult :=
  let! c := the_channel in
  if released c then ret (plain TLS_CLOSED)
  else
    upd set_released ;;!
    let! e1 := match session c with
               | Some s => attempt (on_provider (free_connection (prov (ch_provider c)) s))
               | None => ret None
               end in
    let! e2 := match generation c with
               | Some g => attempt (on_store (TlsGeneration.release prov g) ;;! ret tt)
               | None => ret None
               end in
    match first_of e1 e2 with
    | Some e => remember (tls_error TLS_ERR_PROVIDER (py "TLS cleanup failed: " ++ exn_message e))
    | None => remember (plain TLS_CLOSED)
    end.

End channel.
End TlsChannel.
