(* ===== verification/TlsChannelSpec.v ===== *)
(** * The protocol of a TLS session

    A provider under observation logs the calls made on a session.  [next] is the protocol
    of those calls: handshakes with at most one context selection between them, the
    negotiated protocol, then reads and writes within their limits, a close notification,
    and one release.  Whatever the provider returns or raises, a channel keeps to the
    protocol, answers every call with a legal result, and makes no call after a failure. *)

From S2P Require Import Prelude PyStr PyLists Http1 PyStrFacts Tls TlsSpec TlsGeneration TlsChannel.
#[local] Open Scope Z_scope.
Import TlsChannel.

(** ** Legal results *)

(** What a result of an operation may be; [limit] bounds the bytes of a read or write. *)
Record legal (operation : str) (limit : Z) (r : TlsResult) : Prop := {
  lg_status : known_status (status r) = true;
  lg_sni : status r = TLS_SELECT_SNI <-> server_name r <> [];
  lg_select : status r = TLS_SELECT_SNI -> operation = py "handshake";
  lg_error : if status r =? TLS_ERROR then TLS_ERR_NONE < error_code r <= TLS_ERR_INTERNAL
             else error_code r = TLS_ERR_NONE;
  lg_count : if str_in operation [py "read"; py "write"] && (status r =? TLS_OK)
             then 0 < r_count r <= limit else r_count r = 0;
}.

Lemma legal_error operation limit code d :
  0 < code <= 12 -> legal operation limit (tls_error code d).
Proof. intros H. split; cbn; [done|done|done|exact H|]. by rewrite andb_false_r. Qed.

Lemma legal_status operation limit s :
  s ∈ [TLS_WANT_READ; TLS_WANT_WRITE; TLS_CLOSED] \/ s = TLS_OK /\ str_in operation [py "read"; py "write"] = false ->
  legal operation limit (plain s).
Proof.
  intros [H|[-> H]].
  - rewrite !elem_of_cons, elem_of_nil in H. destruct H as [->|[->|[->|[]]]]; split; cbn; try done; by rewrite andb_false_r.
  - split; cbn; try done. by rewrite H.
Qed.

(** An error is legal whatever the operation. *)
Lemma legal_error_any op limit op' limit' r : legal op limit r -> status r = TLS_ERROR -> legal op' limit' r.
Proof.
  intros [H1 H2 H3 H4 H5] E. split; [done|done| |done|].
  - rewrite E. done.
  - rewrite E in *. by rewrite andb_false_r in *.
Qed.

(** ** The protocol *)

Section protocol.
Context {Ctx Session W : Type}.

(** A call on a session and what it gave. *)
Inductive event :=
| EHandshake (s : Session) (r : result (option TlsResult))
| ESetContext (s : Session) (c : Ctx) (r : result (option TlsResult))
| EAlpn (s : Session) (r : result (option str))
| ERead (s : Session) (output limit : Z) (r : result (option TlsResult))
| EWrite (s : Session) (data : bytes) (length : Z) (r : result (option TlsResult))
| ECloseNotify (s : Session) (r : result (option TlsResult))
| EFree (s : Session).

(** A call that is recorded, with its outcome. *)
Definition logged {A} (e : result A -> event) (m : M W A) : M (list event * W) A := fun '(l, w) =>
  let '(r, w') := m w in (r, (l ++ [e r], w')).
Definition silent {A} (m : M W A) : M (list event * W) A := zoom snd (fun w lw => (fst lw, w)) m.

Definition watched (p : tls_provider Ctx Session W) : tls_provider Ctx Session (list event * W) :=
  Provider
    (fun lw => provider_info p (snd lw))
    (fun config c => silent (create_server_context p config c))
    (fun c fd => silent (new_connection p c fd))
    (fun s => logged (EHandshake s) (p_handshake p s))
    (fun s c => logged (ESetContext s c) (p_set_server_context p s c))
    (fun s => logged (EAlpn s) (p_selected_alpn p s))
    (fun s output limit => logged (ERead s output limit) (p_read p s output limit))
    (fun s data length => logged (EWrite s data length) (p_write p s data length))
    (fun s => logged (ECloseNotify s) (p_close_notify p s))
    (fun s => logged (fun _ => EFree s) (free_connection p s))
    (fun c => silent (free_context p c))
    (p_callable p) (flags_production p) (silent (p_activate p)) (silent (p_close p)).

Inductive phase :=
| Handshaking (sni_done : bool)
| Selecting (name : str)
| Negotiating
| Established
| Closing
| Ended
| Freed.

(** A legal answer that is not an error. *)
Definition proper (operation : str) (limit : Z) (reply : result (option TlsResult)) (r : TlsResult) : Prop :=
  reply = Ok (Some r) /\ legal operation limit r /\ status r <> TLS_ERROR.
Definition broken (operation : str) (limit : Z) (reply : result (option TlsResult)) : Prop :=
  forall r, ~ proper operation limit reply r.

(** [config] and [contexts] are those of the generation the session belongs to. *)
Inductive next (s : Session) (config : TlsConfig) (contexts : gmap (list Z) Ctx) : phase -> event -> phase -> Prop :=
| next_handshake b reply r : proper (py "handshake") 0 reply r ->
    status r <> TLS_SELECT_SNI -> status r <> TLS_OK ->
    next s config contexts (Handshaking b) (EHandshake s reply) (Handshaking b)
| next_sni reply r name : proper (py "handshake") 0 reply r ->
    status r = TLS_SELECT_SNI -> normalize_sni_name (server_name r) false = Ok name ->
    next s config contexts (Handshaking false) (EHandshake s reply) (Selecting name)
| next_sni_refused b reply r : proper (py "handshake") 0 reply r ->
    status r = TLS_SELECT_SNI -> b = true \/ (exists e, normalize_sni_name (server_name r) false = Raise e) ->
    next s config contexts (Handshaking b) (EHandshake s reply) Ended
| next_done b reply r : proper (py "handshake") 0 reply r -> status r = TLS_OK ->
    next s config contexts (Handshaking b) (EHandshake s reply) Negotiating
| next_selected name certificate c reply r :
    select_certificate config name = Ok (Some certificate) -> contexts !! identifier certificate = Some c ->
    proper (py "set_server_context") 0 reply r -> status r = TLS_OK ->
    next s config contexts (Selecting name) (ESetContext s c reply) (Handshaking true)
| next_unselected name certificate c reply :
    select_certificate config name = Ok (Some certificate) -> contexts !! identifier certificate = Some c ->
    (forall r, proper (py "set_server_context") 0 reply r -> status r <> TLS_OK) ->
    next s config contexts (Selecting name) (ESetContext s c reply) Ended
| next_alpn a : a = [] \/ a ∈ cfg_alpn config ->
    next s config contexts Negotiating (EAlpn s (Ok (Some a))) Established
| next_alpn_refused reply : (forall a, reply = Ok (Some a) -> a <> [] /\ (a ∉ cfg_alpn config)) ->
    next s config contexts Negotiating (EAlpn s reply) Ended
| next_read ph output limit reply r : ph = Established \/ ph = Closing -> 0 < limit <= output ->
    proper (py "read") limit reply r -> next s config contexts ph (ERead s output limit reply) ph
| next_write data length reply r : 0 < length <= len data ->
    proper (py "write") length reply r -> next s config contexts Established (EWrite s data length reply) Established
| next_notify ph reply r : ph = Established \/ ph = Closing ->
    proper (py "close_notify") 0 reply r -> status r = TLS_WANT_READ \/ status r = TLS_WANT_WRITE ->
    next s config contexts ph (ECloseNotify s reply) Closing
| next_notified ph reply r : ph = Established \/ ph = Closing ->
    proper (py "close_notify") 0 reply r -> status r = TLS_CLOSED \/ status r = TLS_OK ->
    next s config contexts ph (ECloseNotify s reply) Ended
| next_broken_handshake b reply : broken (py "handshake") 0 reply ->
    next s config contexts (Handshaking b) (EHandshake s reply) Ended
| next_broken_read ph output limit reply : ph = Established \/ ph = Closing -> 0 < limit <= output ->
    broken (py "read") limit reply -> next s config contexts ph (ERead s output limit reply) Ended
| next_broken_write data length reply : 0 < length <= len data ->
    broken (py "write") length reply -> next s config contexts Established (EWrite s data length reply) Ended
| next_broken_notify ph reply : ph = Established \/ ph = Closing ->
    broken (py "close_notify") 0 reply -> next s config contexts ph (ECloseNotify s reply) Ended
| next_free ph : ph <> Freed -> next s config contexts ph (EFree s) Freed.

Inductive accepted s config contexts : list event -> phase -> Prop :=
| accepted_nil : accepted s config contexts [] (Handshaking false)
| accepted_snoc log ph e ph' : accepted s config contexts log ph -> next s config contexts ph e ph' ->
    accepted s config contexts (log ++ [e]) ph'.
End protocol.
Arguments event : clear implicits.

(** ** The channel keeps to the protocol *)

Section channel.
Context {Ctx Session W : Type} (p : nat -> tls_provider Ctx Session W).
Context (g pid : nat) (s : Session) (config : TlsConfig) (ctxs : gmap (list Z) Ctx).
Abbreviation chan := (tls_channel Session).
Abbreviation world' := (list (event Ctx Session) * W)%type.
Abbreviation state := (chan * tls_store Ctx world')%type.
Abbreviation prov := (fun n => watched (p n)).

Definition log_of (t : state) : list (event Ctx Session) := fst (world (snd t)).

(** The generation the session was made from is alive, with a context per certificate. *)
Definition alive (st : tls_store Ctx world') : Prop :=
  exists x, gens st !! g = Some x /\ g_provider x = pid /\ g_config x = config /\ destroyed x = false /\
    context_by_identifier x = ctxs /\
    Forall (fun c => is_Some (ctxs !! identifier c)) (default_certificate config :: sni_certificates config).

(** A channel that has its session and may still use it. *)
Definition open (c : chan) : Prop :=
  released c = false /\ session c = Some s /\ generation c = Some g /\ ch_provider c = pid /\
  (close_notify_started c = true -> handshake_complete c = true).
Definition mid (ph : phase) (t : state) : Prop :=
  open (fst t) /\ alive (snd t) /\ accepted s config ctxs (log_of t) ph /\ ph <> Freed.
Definition usable (c : chan) : Prop := failed c = false /\ closed c = false.
Definition phase_of (c : chan) : phase :=
  if handshake_complete c then if close_notify_started c then Closing else Established
  else Handshaking (sni_selected c).

Definition inv (t : state) : Prop := exists ph,
  accepted s config ctxs (log_of t) ph /\
  (released (fst t) = true -> ph = Freed) /\
  (released (fst t) = false -> mid ph t /\ (usable (fst t) -> ph = phase_of (fst t)) /\
     (failed (fst t) = true -> legal [] 0 (last_result (fst t)) /\ status (last_result (fst t)) = TLS_ERROR) /\
     (close_notify_complete (fst t) = true -> closed (fst t) = true)).

Definition answers (op : str) (limit : Z) (r : TlsResult) (t : state) : Prop := legal op limit r /\ inv t.
Abbreviation spec op limit m t := (wp m (answers op limit) (fun _ _ => False) t).

(** Provider calls. *)
Lemma wp_logged {A} (e : result A -> event Ctx Session) (m : M W A) Q E (t : state) :
  (forall r w', let t' := (fst t, Store (gens (snd t)) (log_of t ++ [e r], w')) in
     match r with Ok a => Q a t' | Raise x => E x t' end) ->
  wp (on_provider (logged e m)) Q E t.
Proof.
  intros H. destruct t as [c [gs [l w]]]. unfold wp, on_provider, on_store, TlsGeneration.on_world, zoom, logged. cbn.
  specialize (H (fst (m w)) (snd (m w))). destruct (m w) as [r w']. cbn in *. by destruct r.
Qed.

(** The channel after a call of which only the log is new. *)
Lemma mid_step ph ph' t e w' :
  mid ph t -> next s config ctxs ph e ph' -> ph' <> Freed ->
  mid ph' (fst t, Store (gens (snd t)) (log_of t ++ [e], w')).
Proof.
  intros (Ho & Ha & Hl & Hp) Hn Hf. split_and!; [done| |by eapply accepted_snoc|done].
  destruct Ha as (x & Hx). by exists x.
Qed.

Lemma mid_chan ph t c : mid ph t -> open c -> mid ph (c, snd t).
Proof. by intros (_ & Ha & Hl & Hp) Ho. Qed.

(** Errors: the channel fails, and stays within the protocol. *)
Lemma inv_error ph t r :
  mid ph t -> (close_notify_complete (fst t) = true -> closed (fst t) = true) ->
  legal [] 0 r -> status r = TLS_ERROR -> inv (set_last r (fst t), snd t).
Proof.
  intros Hm Hc Hr E. exists ph. split; [apply Hm|]. cbn [fst].
  split; [intros Hrel; destruct Hm as ((Hn & _) & _); cbn in Hrel; congruence|]. intros _.
  split; [apply (mid_chan ph t); [done|apply Hm]|]. split; [|split; [done|done]].
  intros [Hf _]. cbn in Hf. rewrite E in Hf. by rewrite orb_true_r in Hf.
Qed.

Lemma remember_error op limit ph t r :
  mid ph t -> (close_notify_complete (fst t) = true -> closed (fst t) = true) ->
  legal [] 0 r -> status r = TLS_ERROR -> spec op limit (remember r) t.
Proof.
  intros Hm Hc Hr E. unfold remember, upd. wp_steps. split; [by eapply legal_error_any|by apply (inv_error ph)].
Qed.

(** Results that leave the phase as it is. *)
Lemma ses_inv_same t c :
  inv t -> released (fst t) = false -> open c -> failed c = failed (fst t) -> closed c = closed (fst t) ->
  phase_of c = phase_of (fst t) -> close_notify_complete c = close_notify_complete (fst t) ->
  (failed c = true -> last_result c = last_result (fst t)) -> inv (c, snd t).
Proof.
  intros (ph & Hl & _ & Hi) Hr Ho Hf Hc Hp Hn Hla. destruct (Hi Hr) as (Hm & Hu & He & Hcc).
  exists ph. split; [done|]. split; [intros Hr'; destruct Ho; cbn in Hr'; congruence|]. intros _.
  split; [by apply (mid_chan ph t)|]. split_and!; cbn [fst].
  - intros [U1 U2]. rewrite Hp. apply Hu. split; congruence.
  - intros Hf'. rewrite Hla by done. apply He. congruence.
  - rewrite Hn, Hc. done.
Qed.

(** The checks on a result are the definition of a legal one. *)
Lemma validate_run op r limit (t : state) :
  legal op limit r /\ validate_result op r limit t = remember r t \/
  ~ legal op limit r /\ exists d, validate_result op r limit t = contract_failure d t.
Proof.
  unfold validate_result. rewrite Z.gtb_ltb, (Z.gtb_ltb _ limit).
  destruct (known_status (status r)) eqn:E1; cbn [negb]; [|right; split; [intros []; congruence|eauto]].
  destruct (Z.eqb_spec (status r) TLS_SELECT_SNI) as [E2|E2]; cbn [andb negb].
  - destruct (str_eqb op (py "handshake")) eqn:E3; cbn [negb]; [b2p; subst op|].
    2: { right. split; [|eauto]. intros [_ _ H _ _]. apply H in E2. b2p. done. }
    destruct (bool_decide_reflect (server_name r = [])) as [E4|E4].
    { right. split; [|eauto]. intros [_ H _ _ _]. by apply H in E2. }
    rewrite E2. cbn [Z.eqb]. change (TLS_SELECT_SNI =? TLS_ERROR) with false. cbn iota.
    destruct (Z.eqb_spec (error_code r) TLS_ERR_NONE) as [E5|E5]; cbn [negb].
    2: { right. split; [|eauto]. intros [_ _ _ H _]. by rewrite E2 in H. }
    change (str_in (py "handshake") [py "read"; py "write"]) with false. cbn [andb].
    destruct (Z.eqb_spec (r_count r) 0) as [E6|E6]; cbn [negb].
    + left. split; [|done]. split; [done|done|done|by rewrite E2|done].
    + right. split; [|eauto]. by intros [_ _ _ _ H].
  - destruct (bool_decide_reflect (server_name r = [])) as [E4|E4]; cbn [negb].
    2: { right. split; [|eauto]. intros [_ H _ _ _]. by apply H in E4. }
    destruct (Z.eqb_spec (status r) TLS_ERROR) as [E5|E5].
    + cbn [andb]. destruct (_ || _) eqn:E6.
      { right. split; [|eauto]. intros [_ _ _ H _]. rewrite E5 in H. cbn in H. apply orb_true_iff in E6 as [?|?]; b2p; lia. }
      b2p. destruct (Z.eqb_spec (r_count r) 0) as [E7|E7]; cbn [negb].
      * left. split; [|done]. split; [done|done|done| |by rewrite E5, andb_false_r]. rewrite E5. cbn [Z.eqb]. unfold TLS_ERR_NONE, TLS_ERR_INTERNAL in *. simpl. lia.
      * right. split; [|eauto]. intros [_ _ _ _ Hl]. by rewrite E5, andb_false_r in Hl.
    + destruct (Z.eqb_spec (error_code r) TLS_ERR_NONE) as [E6|E6]; cbn [negb].
      2: { right. split; [|eauto]. intros [_ _ _ H _]. by rewrite (proj2 (Z.eqb_neq _ _) E5) in H. }
      destruct (str_in op _ && _) eqn:E7.
      * destruct (_ || _) eqn:E8.
        { right. split; [|eauto]. intros [_ _ _ _ H]. rewrite E7 in H. apply orb_true_iff in E8 as [?|?]; b2p; lia. }
        left. split; [|done]. split; [done|done|done|by rewrite (proj2 (Z.eqb_neq _ _) E5)|]. rewrite E7. b2p. lia.
      * destruct (Z.eqb_spec (r_count r) 0) as [E8|E8]; cbn [negb].
        -- left. split; [|done]. split; [done|done|done|by rewrite (proj2 (Z.eqb_neq _ _) E5)|by rewrite E7].
        -- right. split; [|eauto]. intros [_ _ _ _ H]. by rewrite E7 in H.
Qed.

Definition extended (t : state) (e : event Ctx Session) (w' : W) : state :=
  (fst t, Store (gens (snd t)) (log_of t ++ [e], w')).

(** What holds after a result that ended the session's use: it was remembered as an error. *)
Definition ended (r : TlsResult) (t : state) : Prop :=
  legal [] 0 r /\ status r = TLS_ERROR /\ failed (fst t) = true /\ close_notify_complete (fst t) = false /\
  inv t /\ exists ph, mid ph t.

Lemma ended_answers op limit r t : ended r t -> answers op limit r t.
Proof. intros (Hl & E & _ & _ & Hi & _). split; [by eapply legal_error_any|done]. Qed.

Lemma wp_error ph t code d (Q : TlsResult -> state -> Prop) E :
  mid ph t -> close_notify_complete (fst t) = false -> 0 < code <= 12 ->
  (forall r t', ended r t' -> Q r t') -> wp (remember (tls_error code d)) Q E t.
Proof.
  intros Hm Hc Hcode HQ. unfold remember, upd. wp_steps. apply HQ. split_and!.
  - by apply legal_error.
  - done.
  - cbn. apply orb_true_r.
  - done.
  - apply (inv_error ph); [done|by rewrite Hc|by apply legal_error|done].
  - exists ph. apply (mid_chan ph t); [done|apply Hm].
Qed.

Lemma wp_the_channel (Q : chan -> state -> Prop) E t : Q (fst t) t -> wp the_channel Q E t.
Proof. done. Qed.

(** A call on the session: [k] goes on with a proper result, or with the error the channel
    remembered, and then the channel makes no further call. *)
Lemma called_spec op call mk m limit k ph t (Q : TlsResult -> state -> Prop) E :
  mid ph t -> usable (fst t) -> close_notify_complete (fst t) = false ->
  call (watched (p pid)) = logged mk m ->
  (forall reply r w', proper op limit reply r -> mid ph t ->
     wp (k r) Q E (set_last r (fst t), snd (extended t (mk reply) w'))) ->
  (forall reply, broken op limit reply -> exists ph', ph' <> Freed /\ next s config ctxs ph (mk reply) ph') ->
  (forall r t', ended r t' -> wp (k r) Q E t') -> (forall r t', ended r t' -> Q r t') ->
  wp (called prov op call limit k) Q E t.
Proof.
  intros Hm Hu Hc Hcall HA HB HC HQ. unfold called. apply wp_bind. unfold call_result. apply wp_bind, wp_the_channel.
  assert (forall reply w', broken op limit reply -> exists ph', mid ph' (extended t (mk reply) w')) as Hbroken.
  { intros reply w' Hb. destruct (HB reply Hb) as (ph' & Hp & Hn). exists ph'. by eapply mid_step. }
  pose proof Hm as ((_ & _ & _ & Hp & _) & _).
  rewrite Hp, Hcall. apply wp_bind, wp_try, wp_bind, wp_logged. intros reply w'. fold (extended t (mk reply) w').
  assert (close_notify_complete (fst (extended t (mk reply) w')) = false) as Hc' by done.
  assert (forall r0 t', ended r0 t' ->
    wp (let! c := the_channel in if (status r0 =? TLS_ERROR) && failed c then ret r0
        else let! r1 := validate_result op r0 limit in k r1) Q E t') as Hend.
  { intros t' r0 He. apply wp_bind, wp_the_channel. pose proof He as (_ & -> & -> & _). cbn. by apply HQ. }
  destruct reply as [[r|]|e]; cbn beta iota zeta.
  - apply wp_ret, wp_bind, wp_the_channel. destruct Hu as [Hf Hcl]. change (fst (extended t (mk (Ok (Some r))) w')) with (fst t). rewrite Hf, andb_false_r.
    apply wp_bind.
    destruct (validate_run op r limit (extended t (mk (Ok (Some r))) w')) as [[Hl Ev]|[Hl (d & Ev)]];
      unfold wp at 1; rewrite Ev.
    + destruct (decide (status r = TLS_ERROR)) as [Es|Es].
      * destruct (Hbroken (Ok (Some r)) w') as (ph' & Hm2); [by intros r' ([= <-] & _ & ?)|].
        cbn. apply HC. split_and!; [by eapply legal_error_any|done|cbn; rewrite Es; apply orb_true_r|done| |].
        -- apply (inv_error ph' (extended t _ w')); [done|by rewrite Hc'|by eapply legal_error_any|done].
        -- exists ph'. apply (mid_chan ph' (extended t (mk (Ok (Some r))) w')); [done|apply Hm2].
      * cbn. by apply HA.
    + destruct (Hbroken (Ok (Some r)) w') as (ph' & Hm2); [by intros r' ([= <-] & ? & _)|].
      apply (wp_error ph' _ _ d (fun r1 t' => wp (k r1) Q E t') E Hm2 Hc'); [done|done].
  - destruct (Hbroken (Ok None) w') as (ph' & Hm2); [by intros r' (? & _ & _)|]. apply (wp_error ph' _ _ _ _ _ Hm2 Hc'); [done|exact Hend].
  - destruct (Hbroken (Raise e) w') as (ph' & Hm2); [by intros r' (? & _ & _)|]. apply (wp_error ph' _ _ _ _ _ Hm2 Hc'); [done|exact Hend].
Qed.

(** ** Operations *)

Lemma inv_live ph t :
  mid ph t -> usable (fst t) -> ph = phase_of (fst t) -> close_notify_complete (fst t) = false -> inv t.
Proof.
  intros Hm Hu Hp Hc. exists ph. split; [apply Hm|]. pose proof Hm as ((Hr & _) & _).
  split; [congruence|]. intros _. split; [done|]. split; [done|]. split; [|congruence].
  destruct Hu as [Hf _]. congruence.
Qed.

Lemma usable_not_complete t : inv t -> released (fst t) = false -> usable (fst t) -> close_notify_complete (fst t) = false.
Proof.
  intros (ph & _ & _ & Hi) Hr [_ Hc]. destruct (Hi Hr) as (_ & _ & _ & Hcc).
  destruct (close_notify_complete (fst t)); [|done]. rewrite Hcc in Hc; done.
Qed.

Lemma remember_closed op limit t :
  inv t -> (released (fst t) = false -> failed (fst t) = false) -> spec op limit (remember (plain TLS_CLOSED)) t.
Proof.
  intros Hi Hf. unfold remember, upd. wp_steps. split; [apply legal_status; left; right; right; by left|].
  destruct (released (fst t)) eqn:Hr.
  - destruct Hi as (ph & Hl & Hrel & _). exists ph. split; [done|]. split; [by intros _; apply Hrel|]. cbn. congruence.
  - pose proof Hi as (ph & _ & _ & Hm). destruct (Hm Hr) as (Ho & _).
    apply (ses_inv_same t); try done; [apply Ho|cbn; by rewrite Hf|cbn; by rewrite Hf].
Qed.

(** The preflight answers on its own, or leaves a session that may be used. *)
Lemma checked_spec op limit now_ms deadline_ms k t :
  inv t ->
  (open (fst t) -> usable (fst t) -> close_notify_complete (fst t) = false -> mid (phase_of (fst t)) t ->
   spec op limit (k (fst t) s) t) ->
  spec op limit (checked now_ms deadline_ms k) t.
Proof.
  intros Hi Hk. unfold checked, preflight. apply wp_bind, wp_bind, wp_the_channel.
  destruct (released (fst t)) eqn:Hr; cbn [orb].
  { apply wp_bind. eapply wp_mono; [| |apply (remember_closed op limit); [done|congruence]]; [|done]. intros r t' H. by apply wp_ret, wp_ret. }
  pose proof Hi as (ph & _ & _ & Hm). destruct (Hm Hr) as (Hmid & Hph & Hfail & _). pose proof Hmid as (Ho & _).
  pose proof Ho as (_ & Hs & _). rewrite Hs. cbn [negb].
  destruct (failed (fst t)) eqn:Hf.
  { destruct (Hfail eq_refl) as [Hl E]. apply wp_ret, wp_ret. split; [by eapply legal_error_any|done]. }
  destruct (closed (fst t)) eqn:Hc.
  { apply wp_bind. eapply wp_mono; [| |by apply (remember_closed op limit)]; [|done]. intros r t' H. by apply wp_ret, wp_ret. }
  assert (usable (fst t)) as Hu by done. pose proof (usable_not_complete t Hi Hr Hu) as Hn.
  assert (forall code d, 0 < code <= 12 ->
    wp (let! r := remember (tls_error code d) in ret (Some r))
       (fun o t' => wp (match o with Some r => ret r | None => let! c := the_channel in match session c with Some s0 => k c s0 | None => raise out_of_fuel end end)
          (answers op limit) (fun _ _ => False) t') (fun _ _ => False) t) as Herr.
  { intros code d Hcode. apply wp_bind. apply (wp_error ph _ _ _ _ _ Hmid Hn Hcode). intros r t' He.
    by apply wp_ret, wp_ret, ended_answers. }
  unfold deadline. destruct (_ || _); [by apply Herr|]. destruct (_ >=? _); [by apply Herr|].
  apply wp_ret, wp_bind, wp_the_channel. rewrite Hs. apply Hk; try done. by rewrite <- Hph.
Qed.

(** The context a name selects exists while the generation does. *)
Lemma select_context_spec n ph t (Q : option (Ctx * str) -> state -> Prop) E :
  mid ph t -> normalize_sni_name n false = Ok n -> n <> [] ->
  (select_certificate config n = Ok None -> Q None t) ->
  (forall certificate c, select_certificate config n = Ok (Some certificate) ->
     ctxs !! identifier certificate = Some c -> Q (Some (c, identifier certificate)) t) ->
  wp (on_store (TlsGeneration.select_context g n)) Q E t.
Proof.
  intros (_ & (x & Hx & _ & Hcfg & Hd & Hm & Hall) & _) Hn Hne HN HS.
  unfold wp, on_store, zoom, TlsGeneration.select_context, bind, TlsGeneration.get_gen. rewrite Hx. cbn beta iota.
  rewrite Hcfg, Hd, Hm. rewrite (select_is_lookup config n n) in HN, HS |- * by done. unfold lift. cbn beta iota.
  destruct (lookup_certificate config n) as [c|] eqn:El; [|destruct t; by apply HN].
  assert (c ∈ default_certificate config :: sni_certificates config) as Hin.
  { revert El. unfold lookup_certificate, wildcard_owner. destruct (owner n _) as [c1|] eqn:E1.
    - intros [= <-]. apply find_some in E1 as [E1 _]. right. by apply list_elem_of_In.
    - destruct (match wildcard_name n with Some w => owner w _ | None => None end) as [c1|] eqn:E2.
      + intros [= <-]. destruct (wildcard_name n); [|done]. apply find_some in E2 as [E2 _]. right. by apply list_elem_of_In.
      + destruct (reject_unknown_sni config); [done|]. intros [= <-]. by left. }
  rewrite Forall_forall in Hall. destruct (Hall c Hin) as [v Hv]. rewrite Hv. destruct t. by apply (HS c).
Qed.


Lemma selected_run id name ph t r w' :
  mid ph (set_last r (fst t), snd (extended t id w')) -> usable (fst t) -> handshake_complete (fst t) = false ->
  close_notify_complete (fst t) = false -> status r <> TLS_ERROR -> ph = Handshaking true -> name <> [] ->
  forall cid, spec (py "handshake") 0
    (upd (set_sni name cid) ;;! remember (make_result TLS_SELECT_SNI 0 TLS_ERR_NONE [] name))
    (set_last r (fst t), snd (extended t id w')).
Proof.
  intros Hm [Hf Hc] Hh Hn Hr -> Hne cid. unfold remember, upd. wp_steps. split.
  - split; cbn; done.
  - apply (inv_live (Handshaking true)); cbn.
    + apply (mid_chan _ _ _ Hm). apply Hm.
    + split; cbn; [|done]. rewrite Hf. by rewrite (proj2 (Z.eqb_neq _ _) Hr).
    + unfold phase_of. cbn. by rewrite Hh.
    + done.
Qed.

Lemma select_sni_spec t r :
  mid (Handshaking (sni_selected (fst t))) t -> usable (fst t) -> handshake_complete (fst t) = false ->
  close_notify_complete (fst t) = false -> forall reply w', proper (py "handshake") 0 reply r ->
  status r = TLS_SELECT_SNI ->
  spec (py "handshake") 0 (select_sni prov s r) (set_last r (fst t), snd (extended t (EHandshake s reply) w')).
Proof.
  intros Hm Hu Hh Hn reply w' Hp Es. set (t1 := (set_last r (fst t), snd (extended t (EHandshake s reply) w'))).
  assert (forall ph', next s config ctxs (Handshaking (sni_selected (fst t))) (EHandshake s reply) ph' -> ph' <> Freed -> mid ph' t1) as Hstep.
  { intros ph' Hnx Hne. apply (mid_chan ph' (extended t (EHandshake s reply) w')); [by eapply mid_step|apply Hm]. }
  assert (usable (fst t1)) as Hu1 by (destruct Hu as [Hf Hc]; split; [cbn; by rewrite Hf, Es|done]).
  unfold select_sni. apply wp_bind, wp_the_channel. change (sni_selected (fst t1)) with (sni_selected (fst t)).
  change (generation (fst t1)) with (generation (fst t)). pose proof Hm as ((_ & _ & Hg & _) & _). rewrite Hg.
  destruct (sni_selected (fst t)) eqn:Eb.
  { apply (wp_error Ended t1); [|done|done|intros; by apply ended_answers]. apply Hstep; [|done].
    eapply next_sni_refused; [done|done|by left]. }
  destruct (normalize_sni_name (server_name r) false) as [n|e] eqn:En.
  2: { rewrite (normalize_raises _ _ _ En). apply (wp_error Ended t1); [|done|done|intros; by apply ended_answers].
       apply Hstep; [|done]. eapply next_sni_refused; [done|done|right; by eexists]. }
  assert (mid (Selecting n) t1) as Hm1 by (apply Hstep; [by eapply next_sni|done]).
  assert (hostname n) as Hhost by (by apply normalize_spec in En as [_ ?]).
  assert (normalize_sni_name n false = Ok n) as En' by (apply normalize_spec; by rewrite hostname_fixed).
  apply wp_bind, (select_context_spec n _ _ _ _ Hm1 En' (hostname_ne _ Hhost)).
  { intros _. apply (wp_error (Selecting n) t1); [done..|intros; by apply ended_answers]. }
  intros certificate c Hcert Hc.
  apply (called_spec _ _ (ESetContext s c) (p_set_server_context (p pid) s c) 0 _ (Selecting n)); [done..| | | |].
  - intros reply' r' w'' Hp' _. destruct (Z.eqb_spec (status r') TLS_OK) as [Eo|Eo]; cbn [negb].
    + apply (selected_run _ n (Handshaking true)); [|done|done|done|by destruct Hp' as (_ & _ & ?)|done|by apply hostname_ne].
      apply (mid_chan (Handshaking true) (extended t1 (ESetContext s c reply') w'')); [|apply Hm1].
      eapply mid_step; [exact Hm1| |done]. by eapply next_selected.
    + apply (wp_error Ended); [|done|done|intros; by apply ended_answers].
      apply (mid_chan Ended (extended t1 (ESetContext s c reply') w'')); [|apply Hm1].
      eapply mid_step; [exact Hm1| |done]. eapply next_unselected; [done|done|].
      intros r2 (E2 & _). destruct Hp' as (E1 & _). congruence.
  - intros reply' Hb. exists Ended. split; [done|]. eapply next_unselected; [done|done|]. intros r' Hr'. by destruct (Hb r').
  - intros r' t' (Hl & E & Hf & Hcn & Hi & ph' & Hm'). rewrite E. cbn [negb Z.eqb].
    apply (wp_error ph' t'); [done|done|done|intros; by apply ended_answers].
  - intros r' t' He. by apply ended_answers.
Qed.

Lemma ses_finish_spec t r :
  mid (Handshaking (sni_selected (fst t))) t -> usable (fst t) -> close_notify_started (fst t) = false ->
  close_notify_complete (fst t) = false -> forall reply w', proper (py "handshake") 0 reply r -> status r = TLS_OK ->
  spec (py "handshake") 0 (finish_handshake prov s r) (set_last r (fst t), snd (extended t (EHandshake s reply) w')).
Proof.
  intros Hm [Hf Hc] Hs Hn reply w' Hp Es. set (t1 := (set_last r (fst t), snd (extended t (EHandshake s reply) w'))).
  assert (mid Negotiating t1) as Hm1.
  { apply (mid_chan _ (extended t (EHandshake s reply) w')); [|apply Hm]. eapply mid_step; [exact Hm| |done]. by eapply next_done. }
  unfold finish_handshake. apply wp_bind, wp_the_channel. pose proof Hm1 as ((_ & _ & Hg & Hpid & _) & (x & Hx & _ & Hcfg & _) & _).
  rewrite Hpid, Hg. apply wp_bind, wp_try, wp_bind, wp_logged. intros a w''. fold (extended t1 (EAlpn s a) w'').
  assert (forall ph', next s config ctxs Negotiating (EAlpn s a) ph' -> ph' <> Freed -> mid ph' (extended t1 (EAlpn s a) w'')) as Hstep.
  { intros ph' Hnx Hne. by eapply mid_step. }
  destruct a as [[a|]|e]; cbv zeta beta iota.
  - apply wp_ret, wp_bind. unfold wp at 1, on_store, zoom, TlsGeneration.get_gen.
    change (gens (snd (extended t1 (EAlpn s (Ok (Some a))) w''))) with (gens (snd t1)). rewrite Hx. cbn beta iota. rewrite Hcfg.
    destruct (_ && _) eqn:Ea.
    + apply (wp_error Ended); [|done|done|intros; by apply ended_answers]. apply Hstep; [|done]. apply next_alpn_refused.
      intros a' [= <-]. unfold str_in in Ea. b2p. done.
    + assert (a = [] \/ a ∈ cfg_alpn config) as Ha.
      { apply andb_false_iff in Ea as [Ea|Ea]; unfold str_in in Ea; apply negb_false_iff in Ea; b2p; auto. }
      unfold upd. wp_steps. split; [apply Hp|].
      apply (inv_live Established); [|split; cbn; [by rewrite Hf, Es|done]|unfold phase_of; cbn; by rewrite Hs|done].
      apply (mid_chan _ (extended t1 (EAlpn s (Ok (Some a))) w'')); [apply Hstep; [by apply next_alpn|done]|].
      destruct Hm1 as ((? & ? & ? & ? & _) & _). by split_and!.
  - apply wp_ret, (wp_error Ended); [|done|done|intros; by apply ended_answers]. apply Hstep; [|done]. by apply next_alpn_refused.
  - apply wp_ret, (wp_error Ended); [|done|done|intros; by apply ended_answers]. apply Hstep; [|done]. by apply next_alpn_refused.
Qed.

Lemma settle op limit reply r ph ph' t e w' c :
  mid ph t -> proper op limit reply r -> next s config ctxs ph e ph' -> ph' <> Freed ->
  open c -> usable c -> close_notify_complete c = false -> ph' = phase_of c ->
  answers op limit r (c, snd (extended t e w')).
Proof.
  intros Hm (_ & Hl & _) Hn Hf Ho Hu Hc Hp. split; [done|]. apply (inv_live ph'); try done.
  apply (mid_chan _ (extended t e w')); [by eapply mid_step|done].
Qed.

Lemma usable_last c r : usable c -> status r <> TLS_ERROR -> usable (set_last r c).
Proof. intros [Hf Hc] E. split; [cbn; by rewrite Hf, (proj2 (Z.eqb_neq _ _) E)|done]. Qed.

Lemma ended_status r t x : ended r t -> x <> TLS_ERROR -> (status r =? x) = false.
Proof. intros (_ & -> & _) H. apply Z.eqb_neq. congruence. Qed.

Lemma misuse_spec op limit ph d t :
  mid ph t -> close_notify_complete (fst t) = false -> spec op limit (misuse d) t.
Proof. intros Hm Hc. apply (wp_error ph); [done..|]. intros. by apply ended_answers. Qed.

Lemma handshake_spec now_ms deadline_ms t : inv t -> spec (py "handshake") 0 (handshake prov now_ms deadline_ms) t.
Proof.
  intros Hi. apply checked_spec; [done|]. intros Ho Hu Hn Hm. cbn beta.
  destruct (handshake_complete (fst t)) eqn:Hh.
  { unfold remember, upd. wp_steps. split; [apply legal_status; by right|].
    apply (ses_inv_same t); try done; [apply Ho|cbn; by rewrite orb_false_r|]. destruct Hu as [Hf _]. cbn. by rewrite Hf. }
  assert (phase_of (fst t) = Handshaking (sni_selected (fst t))) as Hph by (unfold phase_of; by rewrite Hh).
  rewrite Hph in Hm.
  apply (called_spec _ _ (EHandshake s) (p_handshake (p pid) s) 0 _ (Handshaking (sni_selected (fst t)))); [done..| | | |].
  - intros reply r w' Hp _. pose proof Hp as (_ & _ & Hne).
    destruct (Z.eqb_spec (status r) TLS_SELECT_SNI) as [E1|E1]; [by apply select_sni_spec|].
    destruct (Z.eqb_spec (status r) TLS_OK) as [E2|E2].
    { apply ses_finish_spec; try done. destruct Ho as (_ & _ & _ & _ & Hst). destruct (close_notify_started (fst t)); [|done].
      by rewrite Hst in Hh. }
    assert (next s config ctxs (Handshaking (sni_selected (fst t))) (EHandshake s reply) (Handshaking (sni_selected (fst t)))) as Hnx
      by (by eapply next_handshake).
    destruct (Z.eqb_spec (status r) TLS_CLOSED) as [E3|E3].
    + unfold upd. wp_steps. eapply settle; [exact Hm|exact Hp|exact Hnx|done|apply Ho| |done|symmetry; exact Hph].
      by apply usable_last.
    + apply wp_ret. eapply settle; [exact Hm|exact Hp|exact Hnx|done|apply Ho| |done|symmetry; exact Hph].
      by apply usable_last.
  - intros reply Hb. exists Ended. split; [done|]. by apply next_broken_handshake.
  - intros r t' He. rewrite !(ended_status r t') by done. by apply wp_ret, ended_answers.
  - intros r t' He. by apply ended_answers.
Qed.

Lemma phase_established c : open c -> handshake_complete c = true -> phase_of c = Established \/ phase_of c = Closing.
Proof. intros _ Hh. unfold phase_of. rewrite Hh. destruct (close_notify_started c); auto. Qed.

Lemma read_spec output limit now_ms deadline_ms t :
  inv t -> spec (py "read") limit (read prov output limit now_ms deadline_ms) t.
Proof.
  intros Hi. apply checked_spec; [done|]. intros Ho Hu Hn Hm. cbn beta.
  destruct (handshake_complete (fst t)) eqn:Hh; cbn [negb]; [|by eapply misuse_spec].
  pose proof (phase_established _ Ho Hh) as Hph.
  destruct (_ || _) eqn:El; [by eapply misuse_spec|]. b2p.
  apply (called_spec _ _ (ERead s output limit) (p_read (p pid) s output limit) limit _ (phase_of (fst t))); [done..| | | |].
  - intros reply r w' Hp _. pose proof Hp as (_ & _ & Hne).
    assert (next s config ctxs (phase_of (fst t)) (ERead s output limit reply) (phase_of (fst t))) as Hnx
      by (by apply (next_read _ _ _ _ _ _ _ r)).
    assert (phase_of (fst t) <> Freed) as Hnf by apply Hm.
    destruct (_ =? TLS_CLOSED); [unfold upd; wp_steps|apply wp_ret];
      (eapply settle; [exact Hm|exact Hp|exact Hnx|done|apply Ho| |done|done]; by apply usable_last).
  - intros reply Hb. exists Ended. split; [done|]. by apply next_broken_read.
  - intros r t' He. rewrite !(ended_status r t') by done. by apply wp_ret, ended_answers.
  - intros r t' He. by apply ended_answers.
Qed.

Lemma ses_write_spec data length now_ms deadline_ms t :
  inv t -> spec (py "write") length (write prov data length now_ms deadline_ms) t.
Proof.
  intros Hi. apply checked_spec; [done|]. intros Ho Hu Hn Hm. cbn beta.
  destruct (handshake_complete (fst t)) eqn:Hh; cbn [negb]; [|by eapply misuse_spec].
  destruct (close_notify_started (fst t)) eqn:Hst; [by eapply misuse_spec|].
  assert (phase_of (fst t) = Established) as Hph by (unfold phase_of; by rewrite Hh, Hst). rewrite Hph in Hm.
  destruct (_ || _) eqn:El; [by eapply misuse_spec|]. b2p.
  apply (called_spec _ _ (EWrite s data length) (p_write (p pid) s data length) length _ Established); [done..| | | |].
  - intros reply r w' Hp _. pose proof Hp as (_ & _ & Hne). apply wp_ret.
    eapply settle; [exact Hm|exact Hp|by apply (next_write _ _ _ _ _ _ r)|done|apply Ho|by apply usable_last|done|by symmetry].
  - intros reply Hb. exists Ended. split; [done|]. by apply next_broken_write.
  - intros r t' He. by apply wp_ret, ended_answers.
  - intros r t' He. by apply ended_answers.
Qed.

Lemma close_notify_spec now_ms deadline_ms t :
  inv t -> spec (py "close_notify") 0 (close_notify prov now_ms deadline_ms) t.
Proof.
  intros Hi. apply checked_spec; [done|]. intros Ho Hu Hn Hm. cbn beta.
  destruct (handshake_complete (fst t)) eqn:Hh; cbn [negb]; [|by eapply misuse_spec]. rewrite Hn.
  pose proof (phase_established _ Ho Hh) as Hph. apply wp_bind. unfold upd at 1. apply wp_modify.
  set (t1 := (set_closing (fst t), snd t)).
  assert (open (fst t1)) as Ho1 by (destruct Ho as (? & ? & ? & ? & _); by split_and!).
  assert (mid (phase_of (fst t)) t1) as Hm1 by (by apply mid_chan).
  apply (called_spec _ _ (ECloseNotify s) (p_close_notify (p pid) s) 0 _ (phase_of (fst t))); [done..| | | |].
  - intros reply r w' Hp _. pose proof Hp as (_ & Hl & Hne).
    assert (status r = TLS_OK \/ status r = TLS_CLOSED ->
      mid Ended (set_last r (fst t1), snd (extended t1 (ECloseNotify s reply) w'))) as Hend.
    { intros Hs. apply (mid_chan Ended (extended t1 (ECloseNotify s reply) w')); [|done].
      eapply mid_step; [exact Hm1| |done]. eapply next_notified; [done|done|tauto]. }
    destruct (Z.eqb_spec (status r) TLS_OK) as [E1|E1].
    { apply (wp_error Ended); [by apply Hend; left|done|done|intros; by apply ended_answers]. }
    destruct (Z.eqb_spec (status r) TLS_CLOSED) as [E2|E2].
    + unfold upd. wp_steps. split; [done|]. exists Ended. specialize (Hend (or_intror E2)).
      split; [apply Hend|]. cbn [fst snd]. split; [destruct Ho as (Hr & _); cbn; congruence|]. intros _.
      split; [by apply (mid_chan Ended _ _ Hend)|]. split; [by intros [_ Hc]|]. split; [|done].
      intros Hf. cbn in Hf. destruct Hu as [Hf' _]. by rewrite Hf', (proj2 (Z.eqb_neq _ _) Hne) in Hf.
    + apply wp_ret. assert (status r = TLS_WANT_READ \/ status r = TLS_WANT_WRITE) as Hw.
      { pose proof (lg_status _ _ _ Hl) as Hk. pose proof (lg_select _ _ _ Hl) as Hsel. unfold known_status in Hk.
        rewrite !orb_true_iff, !Z.eqb_eq in Hk. destruct Hk as [[[[[?|?]|?]|?]|?]|?]; try done; [by left|by right|].
        by specialize (Hsel ltac:(done)). }
      eapply settle; [exact Hm1|exact Hp|by eapply next_notify|done|exact Ho1|by apply usable_last|done|].
      unfold phase_of. cbn. by rewrite Hh.
  - intros reply Hb. exists Ended. split; [done|]. by apply next_broken_notify.
  - intros r t' He. rewrite !(ended_status r t') by done. by apply wp_ret, ended_answers.
  - intros r t' He. by apply ended_answers.
Qed.

Lemma cancel_spec t : inv t -> spec (py "cancel") 0 cancel t.
Proof.
  intros Hi. unfold cancel. apply wp_bind, wp_the_channel. destruct (released (fst t)) eqn:Hr.
  - apply remember_closed; [done|congruence].
  - destruct Hi as (ph & _ & _ & Hi). destruct (Hi Hr) as (Hm & _ & _ & Hc).
    by apply (remember_error _ _ ph).
Qed.

(** Computations that make no call on the session. *)
Definition quiet {A} (m : M (tls_store Ctx world') A) : Prop := forall st, fst (world (snd (m st))) = fst (world st).

Lemma ses_quiet_bind {A B} (m : M (tls_store Ctx world') A) (k : A -> M (tls_store Ctx world') B) :
  quiet m -> (forall a, quiet (k a)) -> quiet (bind m k).
Proof.
  intros Hm Hk st. specialize (Hm st). unfold bind. destruct (m st) as [[a|e] st']; cbn in *; [by rewrite Hk|done].
Qed.

Lemma quiet_get n : quiet (TlsGeneration.get_gen (W := world') n).
Proof. intros st. unfold TlsGeneration.get_gen. by destruct (gens st !! n). Qed.

(** A computation of the world that leaves the log alone. *)
Definition still {A} (m : M world' A) : Prop := forall lw, fst (snd (m lw)) = fst lw.

Lemma still_bind {A B} (m : M world' A) (k : A -> M world' B) : still m -> (forall a, still (k a)) -> still (bind m k).
Proof. intros Hm Hk lw. specialize (Hm lw). unfold bind. destruct (m lw) as [[a|e] lw']; cbn in *; [by rewrite Hk|done]. Qed.

Lemma still_silent {A} (m : M W A) : still (silent (Ctx := Ctx) (Session := Session) m).
Proof. intros [l w]. unfold silent, zoom. cbn. by destruct (m w). Qed.

Lemma free_loop_still pr cs : forall e0, still (TlsGeneration.free_loop (watched pr) cs e0).
Proof.
  induction cs as [|c cs IH]; intros e0; cbn [TlsGeneration.free_loop]; [done|]. apply still_bind; [|intros; apply IH].
  intros lw. pose proof (still_silent (free_context pr c) lw) as H. cbn [free_context watched].
  unfold attempt, try_except, bind, ret. revert H. by destruct (silent (free_context pr c) lw) as [[a|e] lw'].
Qed.

Lemma release_quiet n : quiet (TlsGeneration.release prov n).
Proof.
  apply ses_quiet_bind.
  - apply ses_quiet_bind; [apply quiet_get|]. intros x. destruct (_ || _); [done|].
    unfold TlsGeneration.drop_reference. cbv zeta. destruct (_ =? 0); [|done].
    unfold TlsGeneration.take_contexts. by destruct (destroyed _).
  - intros taken. apply ses_quiet_bind; [|done]. apply ses_quiet_bind; [apply quiet_get|]. intros x st.
    unfold TlsGeneration.on_world, zoom. assert (still (TlsGeneration.free_contexts (watched (p (g_provider x))) taken)) as H.
    { destruct taken as [cs|]; [|done]. apply still_bind; [apply free_loop_still|]. by intros [e|]. }
    specialize (H (world st)). by destruct (TlsGeneration.free_contexts _ taken (world st)) as [r lw].
Qed.

Lemma ses_close_spec t : inv t -> wp (close prov) (fun r t' => answers (py "close") 0 r t' /\ released (fst t') = true) (fun _ _ => False) t.
Proof.
  intros Hi. unfold close. apply wp_bind, wp_the_channel. destruct (released (fst t)) eqn:Hr.
  { apply wp_ret. split; [split; [apply legal_status; left; right; right; by left|done]|done]. }
  destruct Hi as (ph & Hl & _ & Hi). destruct (Hi Hr) as (Hm & _). pose proof Hm as ((_ & Hs & Hg & Hpid & _) & _ & _ & Hnf).
  rewrite Hs, Hg, Hpid. apply wp_bind. unfold upd at 1. apply wp_modify.
  set (t1 := (set_released (fst t), snd t)).
  set (P := fun t' : state => released (fst t') = true /\ log_of t' = log_of t ++ [EFree s]).
  assert (forall t' r, P t' -> r = plain TLS_CLOSED \/ (exists d, r = tls_error TLS_ERR_PROVIDER d) ->
    wp (remember r) (fun r t' => answers (py "close") 0 r t' /\ released (fst t') = true) (fun _ _ => False) t') as Hfin.
  { intros t' r [Hr' Hlog] Hres. unfold remember, upd. wp_steps. split; [|done]. split.
    - destruct Hres as [->|(d & ->)]; [apply legal_status; left; right; right; by left|by apply legal_error].
    - exists Freed. split; [|split; [done|cbn; congruence]]. change (log_of _) with (log_of t'). rewrite Hlog.
      eapply accepted_snoc; [exact Hl|by apply next_free]. }
  apply wp_bind. unfold attempt. apply wp_try, wp_bind, wp_logged. intros r1 w'. fold (extended t1 (EFree s) w').
  assert (P (extended t1 (EFree s) w')) as HP by done.
  assert (forall e1, wp (let! e2 := try_except ((on_store (TlsGeneration.release prov g) ;;! ret tt) ;;! ret None) (fun e => ret (Some e)) in
      match first_of e1 e2 with
      | Some e => remember (tls_error TLS_ERR_PROVIDER (py "TLS cleanup failed: " ++ exn_message e))
      | None => remember (plain TLS_CLOSED)
      end) (fun r t' => answers (py "close") 0 r t' /\ released (fst t') = true) (fun _ _ => False) (extended t1 (EFree s) w')) as Hrest.
  { intros e1. apply wp_bind, wp_try, wp_bind, wp_bind. unfold wp at 1, on_store, zoom.
    pose proof (release_quiet g (snd (extended t1 (EFree s) w'))) as Hq.
    destruct (TlsGeneration.release prov g (snd (extended t1 (EFree s) w'))) as [[z|e] st']; cbn [snd] in Hq.
    - apply wp_ret, wp_ret. assert (P (fst (extended t1 (EFree s) w'), st')) as HP' by (split; [done|apply Hq]).
      destruct (first_of e1 None); apply Hfin; eauto.
    - apply wp_ret. assert (P (fst (extended t1 (EFree s) w'), st')) as HP' by (split; [done|apply Hq]).
      destruct (first_of e1 (Some e)); apply Hfin; eauto. }
  destruct r1 as [[]|e]; cbv zeta; apply wp_ret; apply Hrest.
Qed.

(** ** Every call of every channel *)

Inductive op :=
| OHandshake (now_ms deadline_ms : Z)
| ORead (output limit now_ms deadline_ms : Z)
| OWrite (data : bytes) (length now_ms deadline_ms : Z)
| OCloseNotify (now_ms deadline_ms : Z)
| OCancel
| OClose.
Definition run_op (o : op) : M state TlsResult :=
  match o with
  | OHandshake now dl => handshake prov now dl
  | ORead output limit now dl => read prov output limit now dl
  | OWrite data length now dl => write prov data length now dl
  | OCloseNotify now dl => close_notify prov now dl
  | OCancel => cancel
  | OClose => close prov
  end.
Definition op_name (o : op) : str :=
  match o with
  | OHandshake _ _ => py "handshake" | ORead _ _ _ _ => py "read" | OWrite _ _ _ _ => py "write"
  | OCloseNotify _ _ => py "close_notify" | OCancel => py "cancel" | OClose => py "close"
  end.
Definition op_limit (o : op) : Z :=
  match o with ORead _ limit _ _ => limit | OWrite _ length _ _ => length | _ => 0 end.

Lemma op_spec o t : inv t -> spec (op_name o) (op_limit o) (run_op o) t.
Proof.
  intros Hi. destruct o; cbn [op_name op_limit run_op].
  - by apply handshake_spec.
  - by apply read_spec.
  - by apply ses_write_spec.
  - by apply close_notify_spec.
  - by apply cancel_spec.
  - eapply wp_mono; [| |by apply ses_close_spec]; [by intros r t' [? _]|done].
Qed.

(** A failed, closed or released channel answers by itself. *)
Definition dead (c : chan) : Prop := failed c = true \/ closed c = true \/ released c = true.

Lemma checked_dead now_ms deadline_ms k t :
  dead (fst t) -> wp (checked (Ctx := Ctx) (W := world') now_ms deadline_ms k) (fun _ t' => snd t' = snd t) (fun _ t' => snd t' = snd t) t.
Proof.
  intros Hd. unfold checked, preflight, remember, upd. apply wp_bind, wp_bind, wp_the_channel.
  destruct (_ || _) eqn:E1; [by wp_steps|]. apply orb_false_iff in E1 as [E1 _].
  destruct (failed (fst t)) eqn:E2; [by wp_steps|]. destruct (closed (fst t)) eqn:E3; [by wp_steps|].
  by destruct Hd as [?|[?|?]]; congruence.
Qed.

Lemma dead_quiet o t : dead (fst t) -> o <> OClose -> wp (run_op o) (fun _ t' => snd t' = snd t) (fun _ t' => snd t' = snd t) t.
Proof.
  intros Hd Ho. destruct o; cbn [run_op]; unfold handshake, read, write, close_notify; [by apply checked_dead..| |done].
  unfold cancel. apply wp_bind, wp_the_channel. unfold remember, upd. by destruct (released (fst t)); wp_steps.
Qed.

(** States of a channel: after calls on it, and whatever other threads do to the store as
    long as the generation stays alive while the channel holds it. *)
Inductive reached (t0 : state) : state -> Prop :=
| reached_start : reached t0 t0
| reached_env c st gs' w' :
    reached t0 (c, st) -> (released c = false -> alive (Store gs' (fst (world st), w'))) ->
    reached t0 (c, Store gs' (fst (world st), w'))
| reached_op o t r t' : reached t0 t -> run_op o t = (r, t') -> reached t0 t'.

Lemma retain_alive st : alive st -> wp (TlsGeneration.retain g)
  (fun _ st' => alive st' /\ world st' = world st) (fun _ _ => True) st.
Proof.
  intros (x & Hx & H). unfold TlsGeneration.retain. apply wp_bind. unfold wp at 1, TlsGeneration.get_gen. rewrite Hx.
  destruct (_ || _); [by apply wp_raise|]. unfold TlsGeneration.put_gen. apply wp_modify. split; [|done].
  exists (TlsGeneration.set_references (references x + 1) x). cbn [gens].
  rewrite list_lookup_insert_eq by (by eapply lookup_lt_Some). done.
Qed.

Lemma ses_init_inv st0 fd b :
  fst (world st0) = [] -> alive st0 ->
  wp (init prov g fd b) (fun c st => session c = Some s -> inv (c, st)) (fun _ _ => True) st0.
Proof.
  intros Hl Ha. unfold init. destruct (fd <? 0); [by apply wp_raise|]. apply wp_bind.
  assert (forall st, alive st -> world st = world st0 ->
    wp (let! x := TlsGeneration.get_gen g in
        let! r := try_except (let! c := TlsGeneration.context g in
                              let! s0 := TlsGeneration.on_world (new_connection (prov (g_provider x)) c fd) in ret (Ok s0))
                    (fun error => ret (Raise error)) in
        match r with
        | Raise _ => TlsGeneration.release prov g ;;! raise (TlsProviderError (py "TLS provider connection creation failed"))
        | Ok None => TlsGeneration.release prov g ;;! raise (TlsProviderError (py "TLS provider failed to create connection"))
        | Ok (Some s0) =>
            ret (MkChannel (g_provider x) fd (Some g) (Some s0) false false []
                   (identifier (default_certificate (g_config x))) [] false false false false false false
                   (py "none") (plain TLS_OK))
        end) (fun c st => session c = Some s -> inv (c, st)) (fun _ _ => True) st) as Hrest.
  { intros st Hst Hw. pose proof Hst as (x & Hx & Hp & Hrest). apply wp_bind. unfold wp at 1, TlsGeneration.get_gen. rewrite Hx.
    assert (forall e st', wp (TlsGeneration.release prov g ;;! @raise _ chan (TlsProviderError e))
      (fun c st => session c = Some s -> inv (c, st)) (fun _ _ => True) st') as Hfail.
    { intros e st'. apply wp_bind. unfold wp at 1. by destruct (TlsGeneration.release prov g st') as [[]?]. }
    apply wp_bind, wp_try, wp_bind. unfold TlsGeneration.context. apply wp_bind. unfold wp at 1, TlsGeneration.get_gen. rewrite Hx.
    destruct (g_context x) as [c|]; [|apply wp_raise, wp_ret, Hfail]. destruct (destroyed x); [apply wp_raise, wp_ret, Hfail|].
    apply wp_ret, wp_bind. unfold wp at 1, TlsGeneration.on_world, zoom.
    pose proof (still_silent (new_connection (p (g_provider x)) c fd) (world st)) as Hq. cbn [new_connection watched].
    destruct (silent _ (world st)) as [[[s0|]|e] lw]; cbn [snd] in Hq; [|apply wp_ret, Hfail|apply wp_ret, Hfail].
    apply wp_ret, wp_ret. cbn. intros [= ->].
    apply (inv_live (Handshaking false)); [|done..].
    split; [by split_and!|]. split; [exact Hst|]. split; [|done].
    unfold log_of. cbn. rewrite Hq, Hw, Hl. apply accepted_nil. }
  destruct b; [by apply wp_ret, Hrest|].
  eapply wp_mono; [| |by apply retain_alive]; [|done]. intros [] st' [Ha' Hw]. by apply Hrest.
Qed.

Lemma inv_env c st gs' w' :
  inv (c, st) -> (released c = false -> alive (Store gs' (fst (world st), w'))) -> inv (c, Store gs' (fst (world st), w')).
Proof.
  intros (ph & Hl & Hf & Hi) Ha. exists ph. split; [done|]. split; [done|]. intros Hr. cbn [fst] in *.
  destruct (Hi Hr) as ((Ho & _ & Hl' & Hp) & Hrest). split; [|done]. split; [done|]. split; [by apply Ha|]. by split.
Qed.

Lemma reached_inv t0 t : inv t0 -> reached t0 t -> inv t.
Proof.
  intros H0. induction 1 as [|c st gs' w' H IH Ha|o t r t' H IH Hr]; [done|by apply inv_env|].
  pose proof (op_spec o t IH) as Hs. unfold wp in Hs. rewrite Hr in Hs. destruct r; [apply Hs|done].
Qed.

(** C13: From its construction on, through any calls in any order, whatever the provider
    returns or raises and whatever other threads do to the live generation, a channel calls
    its session only as the protocol allows: at most one context is selected, one that the
    configuration maps the requested name to, no data flows before the handshake has
    negotiated a configured protocol, nothing is written after the close notification, and
    the session is freed once.  Every call returns, with a legal result; a failed, closed or
    released channel calls the provider no more, except to free the session. *)
Theorem session_protocol st0 fd generation_retained c st t :
  fst (world st0) = [] -> alive st0 ->
  init prov g fd generation_retained st0 = (Ok c, st) -> session c = Some s -> reached (c, st) t ->
  (exists ph, accepted s config ctxs (log_of t) ph /\ (ph = Freed <-> released (fst t) = true)) /\
  forall o, exists r t', run_op o t = (Ok r, t') /\ legal (op_name o) (op_limit o) r /\
    (dead (fst t) -> o <> OClose -> snd t' = snd t) /\ (o = OClose -> released (fst t') = true).
Proof.
  intros Hlog Ha Hinit Hs Hr. pose proof (ses_init_inv st0 fd generation_retained Hlog Ha) as H0. unfold wp in H0.
  rewrite Hinit in H0. pose proof (reached_inv _ _ (H0 Hs) Hr) as Hi. split.
  - pose proof Hi as (ph & Hl & Hf & Hm). exists ph. split; [done|]. destruct (released (fst t)); [by split; auto|].
    split; [|done]. intros ->. by destruct (Hm eq_refl) as ((_ & _ & _ & ?) & _).
  - intros o. pose proof (op_spec o t Hi) as Ho. pose proof (dead_quiet o t) as Hd. unfold wp in Ho, Hd.
    destruct (run_op o t) as [[r|e] t'] eqn:E; [|done]. exists r, t'. split; [done|]. split; [apply Ho|]. split; [done|].
    intros ->. pose proof (ses_close_spec t Hi) as Hc. unfold wp in Hc. cbn [run_op] in E. rewrite E in Hc. apply Hc.
Qed.
End channel.

(** ** Witness *)

(** A provider that asks for the context of [api.example.com], then completes. *)
Definition sample_provider : tls_provider nat nat nat :=
  Provider (fun _ => MkProviderInfo [] 1 [] [] [] true [] [] [] [] [] 0)
    (fun _ _ => ret (Some 0%nat)) (fun _ _ => ret (Some 7%nat))
    (fun _ w => (Ok (Some (if (w =? 0)%nat then make_result TLS_SELECT_SNI 0 TLS_ERR_NONE [] (py "API.example.com.")
                           else plain TLS_OK)), (w + 1)%nat))
    (fun _ _ => ret (Some (plain TLS_OK))) (fun _ => ret (Some (py "http/1.1")))
    (fun _ _ _ => ret (Some (make_result TLS_OK 5 TLS_ERR_NONE [] [])))
    (fun _ _ _ => ret (Some (plain TLS_WANT_WRITE))) (fun _ => ret (Some (plain TLS_CLOSED)))
    (fun _ => ret tt) (fun _ => ret tt) (fun _ => true) true (ret tt) (ret tt).
Definition sample_tls_config : TlsConfig :=
  MkTlsConfig (sample_cert "default" []) [sample_cert "api" [py "api.example.com"]] [py "http/1.1"] false [] true.
Definition sample_contexts : gmap (list Z) nat := {[ py "default" := 1%nat; py "api" := 2%nat ]}.
Definition sample_store : tls_store nat (list (event nat nat) * nat) :=
  Store [MkGeneration 1 0 sample_tls_config 1 false false [1%nat; 2%nat] sample_contexts (Some 1%nat)] ([], 0%nat).
Definition sample_prov : nat -> tls_provider nat nat nat := fun _ => sample_provider.
Definition sample_calls : list op := [OHandshake 1 10; OHandshake 1 10; ORead 16 16 2 10; OClose].
Definition sample_run (t : tls_channel nat * tls_store nat (list (event nat nat) * nat)) :=
  fold_left (fun t o => snd (run_op sample_prov o t)) sample_calls t.

Lemma session_protocol_witness : exists c st,
  init (fun n => watched (sample_prov n)) 0 5 false sample_store = (Ok c, st) /\
  (exists ph, accepted 7%nat sample_tls_config sample_contexts (log_of (sample_run (c, st))) ph /\
     (ph = Freed <-> released (fst (sample_run (c, st))) = true)) /\
  length (log_of (sample_run (c, st))) = 6%nat.
Proof.
  eexists _, _. split; [reflexivity|]. split; [|vm_compute; reflexivity].
  match goal with |- exists ph, accepted _ _ _ (log_of (sample_run (?c, ?st))) ph /\ _ =>
    refine (proj1 (session_protocol sample_prov 0 0 7%nat sample_tls_config sample_contexts sample_store 5 false c st
      (sample_run (c, st)) eq_refl _ eq_refl eq_refl _)) end.
  - eexists. split; [reflexivity|]. split_and!; [reflexivity..|].
    repeat constructor; vm_compute; eexists; reflexivity.
  - unfold sample_run, sample_calls. cbn [fold_left].
    do 4 (eapply reached_op; [|apply surjective_pairing]). apply reached_start.
Defined.
