(* ===== verification/TlsManager.v ===== *)
(** * Provider registry and certificate reload ([pcc_gateway/tls.py])

    [TlsRegistry]: the named providers, the managers' leases, and when owned providers are
    closed.  [TlsManager]: the published generation, its replacement by [reload], new
    channels, and [close].  Each method is its sections under its locks and the provider
    calls between them.  The theorems are in [TlsManagerSpec]. *)

From S2P Require Import Prelude PyStr Tls TlsGeneration TlsChannel.
#[local] Open Scope Z_scope.

Definition TLS_PROVIDER_ABI_VERSION : Z := 1.

(** The dict of providers in insertion order, by the object's number. *)
Record tls_registry := MkRegistry {
  providers : list (list Z * nat);
  r_provider_info : gmap (list Z) TlsProviderInfo;
  owns_providers : bool;
  close_on_last_manager : bool;
  manager_leases : Z;
  r_closed : bool;
  provider_close_started : gset (list Z);
}.

Module TlsRegistry.
Section registry.
Context {Ctx Session W : Type} (prov : nat -> tls_provider Ctx Session W).
Abbreviation RM := (M (tls_registry * W)).

Definition set_entries (ps : list (list Z * nat)) (i : gmap (list Z) TlsProviderInfo) (r : tls_registry) : tls_registry :=
  MkRegistry ps i (owns_providers r) (close_on_last_manager r) (manager_leases r) (r_closed r) (provider_close_started r).
Definition set_leases (n : Z) (r : tls_registry) : tls_registry :=
  MkRegistry (providers r) (r_provider_info r) (owns_providers r) (close_on_last_manager r) n (r_closed r) (provider_close_started r).
Definition set_closed (r : tls_registry) : tls_registry :=
  MkRegistry (providers r) (r_provider_info r) (owns_providers r) (close_on_last_manager r) (manager_leases r) true (provider_close_started r).
Definition set_started (names : gset (list Z)) (r : tls_registry) : tls_registry :=
  MkRegistry (providers r) (r_provider_info r) (owns_providers r) (close_on_last_manager r) (manager_leases r) (r_closed r) names.

Definition the_registry : RM tls_registry := fun t => (Ok (fst t), t).
Definition upd (f : tls_registry -> tls_registry) : RM unit := modify (fun t => (f (fst t), snd t)).
Definition outside {A} (m : M W A) : RM A := zoom snd (fun w t => (fst t, w)) m.

Definition lookup (name : str) (ps : list (list Z * nat)) : option nat :=
  option_map snd (List.find (fun e => str_eqb (fst e) name) ps).

(** [TlsProviderRegistry(owns_providers, close_on_last_manager)] *)
Definition init (owns_providers close_on_last_manager : bool) : result tls_registry :=
  if close_on_last_manager && negb owns_providers
  then Raise (ValueError (py "manager-owned TLS registry must own its providers"))
  else Ok (MkRegistry [] ∅ owns_providers close_on_last_manager 0 false ∅).

Definition required_methods : list str :=
  [py "create_server_context"; py "new_connection"; py "handshake"; py "set_server_context"; py "selected_alpn";
   py "read"; py "write"; py "close_notify"; py "free_connection"; py "free_context"].

Fixpoint check_fields (fields : list (str * str)) : result unit :=
  match fields with
  | [] => Ok tt
  | (field, value) :: fields' =>
      if bool_decide (value = []) then Raise (TlsProviderError (py "TLS provider is missing " ++ field))
      else check_fields fields'
  end.
Fixpoint check_methods (p : tls_provider Ctx Session W) (methods : list str) : result unit :=
  match methods with
  | [] => Ok tt
  | method :: methods' =>
      if negb (p_callable p method) then Raise (TlsProviderError (py "TLS provider is missing " ++ method))
      else check_methods p methods'
  end.

(** The checks of [register] on the object, before the lock. *)
Definition check_provider (owns : bool) (p : tls_provider Ctx Session W) (i : TlsProviderInfo) : result unit :=
  if negb (valid_provider_name (pi_name i)) then Raise (TlsProviderError (py "TLS provider name is invalid or duplicated"))
  else if negb (abi_version i =? TLS_PROVIDER_ABI_VERSION) then Raise (TlsProviderError (py "unsupported TLS provider ABI version"))
  else
    let? _ := check_fields [(py "link_boundary", link_boundary i); (py "license_id", license_id i);
                            (py "security_boundary", security_boundary i)] in
    if negb (flags_production p) then Raise (TlsProviderError (py "TLS provider must label production readiness"))
    else
      let? _ := check_methods p required_methods in
      if owns && negb (p_callable p (py "close")) then Raise (TlsProviderError (py "owned TLS provider is missing close"))
      else Ok tt.

Definition info_of (n : nat) : RM TlsProviderInfo := fun t => (Ok (provider_info (prov n) (snd t)), t).

Definition register (provider : nat) : RM unit :=
  let! i := info_of provider in
  let! r := the_registry in
  lift (check_provider (owns_providers r) (prov provider) i) ;;!
  let! r := the_registry in
  if r_closed r then raise (TlsProviderError (py "TLS provider registry is closed"))
  else if bool_decide (is_Some (lookup (pi_name i) (providers r)))
  then raise (TlsProviderError (py "TLS provider name is invalid or duplicated"))
  else upd (set_entries (providers r ++ [(pi_name i, provider)]) (<[pi_name i := i]> (r_provider_info r))).

(** [_lookup_locked] *)
Definition lookup_locked (name : str) (require_production : bool) : RM nat :=
  let! r := the_registry in
  if r_closed r then raise (TlsProviderError (py "TLS provider registry is closed"))
  else match lookup name (providers r) with
  | None => raise (TlsProviderError (py "unknown TLS provider: " ++ name))
  | Some provider =>
      match r_provider_info r !! name with
      | None => raise (KeyError name)
      | Some i =>
          if require_production && negb (production_ready i)
          then raise (TlsProviderError (py "TLS provider is test-only: " ++ name))
          else ret provider
      end
  end.

(** [_activate]: the provider's own checks, then a new snapshot of its identity. *)
Definition activate (name : str) (provider : nat) (require_production : bool) : RM nat :=
  if negb require_production then ret provider
  else if p_callable (prov provider) (py "activate") then
    try_except (outside (p_activate (prov provider)))
      (fun error => if TlsGeneration.is_provider_error error then raise error
                    else raise (TlsProviderError (py "TLS provider activation failed: " ++ name))) ;;!
    let! snapshot := info_of provider in
    let! r := the_registry in
    (if negb (r_closed r) && bool_decide (lookup name (providers r) = Some provider)
     then upd (set_entries (providers r) (<[name := snapshot]> (r_provider_info r)))
     else ret tt) ;;!
    ret provider
  else ret provider.

Definition get_provider (name : str) (require_production : bool) : RM nat :=
  let! provider := lookup_locked name require_production in
  activate name provider require_production.

(** [_providers_to_close_locked] over the entries, in order. *)
Fixpoint pending_providers (ps : list (list Z * nat)) (started : gset (list Z)) : list nat * gset (list Z) :=
  match ps with
  | [] => ([], started)
  | (name, provider) :: ps' =>
      if bool_decide (name ∈ started) then pending_providers ps' started
      else let '(pending, started) := pending_providers ps' ({[ name ]} ∪ started) in (provider :: pending, started)
  end.
Definition providers_to_close : RM (list nat) :=
  let! r := the_registry in
  if negb (owns_providers r) || negb (r_closed r) || negb (manager_leases r =? 0) then ret []
  else
    let '(pending, started) := pending_providers (providers r) (provider_close_started r) in
    upd (set_started started) ;;! ret pending.

(** [_close_providers]: the number closed; every provider is tried. *)
Fixpoint close_loop (ps : list nat) (closed : Z) (first_error : option exn) : RM (Z * option exn) :=
  match ps with
  | [] => ret (closed, first_error)
  | n :: ps' =>
      if negb (p_callable (prov n) (py "close")) then close_loop ps' closed first_error
      else
        let! e := attempt (outside (p_close (prov n))) in
        match e with
        | None => close_loop ps' (closed + 1) first_error
        | Some _ => close_loop ps' closed (first_of first_error e)
        end
  end.
Definition close_providers (ps : list nat) : RM Z :=
  let! r := close_loop ps 0 None in
  let '(closed, first_error) := r in
  match first_error with
  | Some _ => raise (TlsProviderError (py "TLS provider registry cleanup failed"))
  | None => ret closed
  end.

Definition release_locked : RM (list nat) :=
  let! r := the_registry in
  if manager_leases r <=? 0 then raise (TlsProviderError (py "TLS registry manager lease released twice"))
  else
    upd (set_leases (manager_leases r - 1)) ;;!
    (if close_on_last_manager r && (manager_leases r - 1 =? 0) then upd set_closed else ret tt) ;;!
    providers_to_close.
Definition release_manager : RM Z :=
  let! ps := release_locked in close_providers ps.

Definition acquire_locked (name : str) (require_production : bool) : RM nat :=
  let! provider := lookup_locked name require_production in
  upd (fun r => set_leases (manager_leases r + 1) r) ;;! ret provider.
Definition acquire_manager (name : str) (require_production : bool) : RM nat :=
  let! provider := acquire_locked name require_production in
  try_except (activate name provider require_production)
    (fun error => release_manager ;;! raise error).

Definition close_locked : RM (option (list nat)) :=
  let! r := the_registry in
  if r_closed r then ret None
  else upd set_closed ;;! let! ps := providers_to_close in ret (Some ps).
Definition close : RM Z :=
  let! ps := close_locked in
  match ps with None => ret 0 | Some ps => close_providers ps end.

Definition info (name : str) : RM TlsProviderInfo :=
  let! r := the_registry in
  match r_provider_info r !! name with
  | None => raise (TlsProviderError (py "unknown TLS provider: " ++ name))
  | Some i => ret i
  end.

End registry.
End TlsRegistry.

(** ** The manager *)

Record tls_manager := MkManager {
  m_provider_name : str;
  m_provider : nat;
  m_provider_info : TlsProviderInfo;
  registry_lease_active : bool;
  next_generation_id : Z;
  m_active : option nat;
  m_closed : bool;
}.

(** The registry, the generations and the world, of which a manager is a client. *)
Record tls_state (Ctx W : Type) := TlsState { registry : tls_registry; generations : tls_store Ctx W }.
Arguments TlsState {Ctx W}.
Arguments registry {Ctx W}.
Arguments generations {Ctx W}.

Module TlsManager.
Section manager.
Context {Ctx Session W : Type} (prov : nat -> tls_provider Ctx Session W).
Abbreviation state := (tls_state Ctx W).
Abbreviation MM := (M (tls_manager * state)).

Definition on_registry {A} (m : M (tls_registry * W) A) : M state A :=
  zoom (fun s => (registry s, world (generations s)))
       (fun rw s => TlsState (fst rw) (Store (gens (generations s)) (snd rw))) m.
Definition on_store {A} (m : M (tls_store Ctx W) A) : M state A :=
  zoom generations (fun st s => TlsState (registry s) st) m.
Definition on_state {A} (m : M state A) : MM A := zoom snd (fun s t => (fst t, s)) m.

Definition the_manager : MM tls_manager := fun t => (Ok (fst t), t).
Definition upd (f : tls_manager -> tls_manager) : MM unit := modify (fun t => (f (fst t), snd t)).
Definition set_active (a : option nat) (m : tls_manager) : tls_manager :=
  MkManager (m_provider_name m) (m_provider m) (m_provider_info m) (registry_lease_active m) (next_generation_id m) a (m_closed m).
Definition set_next_id (n : Z) (m : tls_manager) : tls_manager :=
  MkManager (m_provider_name m) (m_provider m) (m_provider_info m) (registry_lease_active m) n (m_active m) (m_closed m).
Definition set_terminal (m : tls_manager) : tls_manager :=
  MkManager (m_provider_name m) (m_provider m) (m_provider_info m) false (next_generation_id m) None true.

(** [TlsGenerationManager(registry, provider_name, config, require_production)] *)
Definition init (provider_name : str) (config : TlsConfig) (require_production : bool) : M state tls_manager :=
  let! provider := on_registry (TlsRegistry.acquire_manager prov provider_name require_production) in
  try_except
    (let! i := on_registry (TlsRegistry.info provider_name) in
     let! g := on_store (TlsGeneration.init prov 1 provider config) in
     ret (MkManager provider_name provider i true 2 (Some g) false))
    (fun error => on_registry (TlsRegistry.release_manager prov) ;;! raise error).

(** The section of [new_channel] under the lock: the generation it retained. *)
Definition new_channel_locked (generation : option nat) : MM nat :=
  let! m := the_manager in
  match m_active m with
  | None => raise (TlsProviderError (py "TLS generation manager is closed"))
  | Some active =>
      if m_closed m then raise (TlsProviderError (py "TLS generation manager is closed"))
      else
        let selected := default active generation in
        let! x := on_state (on_store (TlsGeneration.get_gen selected)) in
        if negb (g_provider x =? m_provider m)%nat
        then raise (TlsProviderError (py "TLS generation belongs to another provider"))
        else on_state (on_store (TlsGeneration.retain selected)) ;;! ret selected
  end.
Definition new_channel (fd : Z) (generation : option nat) : MM (tls_channel Session) :=
  if fd <? 0 then raise (ValueError (py "TLS channel requires a nonnegative socket fd"))
  else
    let! selected := new_channel_locked generation in
    on_state (on_store (TlsChannel.init prov selected fd true)).

(** The sections of [reload] under the lock: the id of the replacement, and its
    publication, which gives the previous generation unless the manager closed. *)
Definition reload_begin : MM Z :=
  let! m := the_manager in
  if m_closed m || negb (bool_decide (is_Some (m_active m)))
  then raise (TlsProviderError (py "TLS generation manager is closed"))
  else upd (set_next_id (next_generation_id m + 1)) ;;! ret (next_generation_id m).
Definition reload_build (generation_id : Z) (config : TlsConfig) : MM nat :=
  let! m := the_manager in
  on_state (on_store (TlsGeneration.init prov generation_id (m_provider m) config)).
Definition reload_publish (replacement : nat) : MM (option nat) :=
  let! m := the_manager in
  match m_active m with
  | Some previous =>
      if m_closed m then ret None
      else upd (set_active (Some replacement)) ;;! ret (Some previous)
  | None => ret None
  end.
Definition reload (config : TlsConfig) : MM nat :=
  let! generation_id := reload_begin in
  let! replacement := reload_build generation_id config in
  let! previous := reload_publish replacement in
  match previous with
  | None =>
      on_state (on_store (TlsGeneration.retire prov replacement)) ;;!
      raise (TlsProviderError (py "TLS generation manager closed during reload"))
  | Some previous => on_state (on_store (TlsGeneration.retire prov previous)) ;;! ret replacement
  end.

(** The section of [close]: [None] when already closed, else the generation to retire and
    whether the registry lease is to be released. *)
Definition close_locked : MM (option (option nat * bool)) :=
  let! m := the_manager in
  if m_closed m then ret None
  else upd set_terminal ;;! ret (Some (m_active m, registry_lease_active m)).
Definition close : MM Z :=
  let! c := close_locked in
  match c with
  | None => ret 0
  | Some (active, lease) =>
      let! r := match active with
                | None => ret (Ok 0)
                | Some g => try_except (let! n := on_state (on_store (TlsGeneration.retire prov g)) in ret (Ok n))
                              (fun error => ret (Raise error))
                end in
      let! e2 := if lease then attempt (on_state (on_registry (TlsRegistry.release_manager prov)) ;;! ret tt)
                 else ret None in
      match first_of (match r with Ok _ => None | Raise e => Some e end) e2 with
      | Some _ => raise (TlsProviderError (py "TLS generation manager cleanup failed"))
      | None => ret (match r with Ok n => n | Raise _ => 0 end)
      end
  end.

End manager.
End TlsManager.
