(* ===== verification/TlsManagerSpec.v ===== *)
(** * Contexts are freed once, and only when nothing holds them

    Threads run the methods of [TlsManager] and [TlsChannel] concurrently; [step] runs one
    section under a lock, or one run of provider calls that follows it, of one thread.  The
    providers are under observation: the contexts they created and freed are recorded. *)

From S2P Require Import Prelude PyStr PyLists Tls TlsGeneration TlsChannel TlsManager.
#[local] Open Scope Z_scope.

(** ** Observed providers *)

Section observed.
Context {Ctx Session W : Type}.
(** The contexts created and the contexts freed so far. *)
Record watch := Watch { created : list Ctx; freed : list Ctx; inner : W }.

Definition pass {A} (m : M W A) : M watch A := zoom inner (fun w x => Watch (created x) (freed x) w) m.
Definition note_created (m : M W (option Ctx)) : M watch (option Ctx) := fun x =>
  let '(r, w) := m (inner x) in
  (r, Watch (created x ++ match r with Ok (Some c) => [c] | _ => [] end) (freed x) w).
Definition note_freed (c : Ctx) (m : M W unit) : M watch unit := fun x =>
  let '(r, w) := m (inner x) in (r, Watch (created x) (freed x ++ [c]) w).

Definition counted (p : tls_provider Ctx Session W) : tls_provider Ctx Session watch :=
  Provider (fun x => provider_info p (inner x))
    (fun config c => note_created (create_server_context p config c))
    (fun c fd => pass (new_connection p c fd))
    (fun s => pass (p_handshake p s)) (fun s c => pass (p_set_server_context p s c))
    (fun s => pass (p_selected_alpn p s)) (fun s output limit => pass (p_read p s output limit))
    (fun s data length => pass (p_write p s data length)) (fun s => pass (p_close_notify p s))
    (fun s => pass (free_connection p s)) (fun c => note_freed c (free_context p c))
    (p_callable p) (flags_production p) (pass (p_activate p)) (pass (p_close p)).
End observed.
Arguments watch : clear implicits.

(** ** Threads *)

(** What a thread has left to do. *)
Inductive task (Ctx : Type) :=
| THold (g : nat)                    (* a channel: release its reference of g *)
| TBegun (id : Z) (config : TlsConfig) (* reload: construct the replacement *)
| TBuilt (g : nat)                   (* reload: publish g *)
| TRetire (g : nat)                  (* reload or close: retire g *)
| TFree (g : nat) (cs : list Ctx)    (* after a release: free the contexts that came out *)
| TLease.                            (* close: release the registry lease *)
Arguments THold {Ctx}.
Arguments TBegun {Ctx}.
Arguments TBuilt {Ctx}.
Arguments TRetire {Ctx}.
Arguments TFree {Ctx}.
Arguments TLease {Ctx}.

Section system.
Context {Ctx Session W : Type} (p : nat -> tls_provider Ctx Session W).
Abbreviation prov := (fun n => counted (p n)).
Abbreviation tstate := (tls_state Ctx (watch Ctx W)).
Abbreviation task := (task Ctx).

Record sys := Sys { s_mgr : tls_manager; s_state : tstate; s_tasks : list task }.

Definition freeing (g : nat) (taken : option (list Ctx)) : list task :=
  match taken with Some cs => [TFree g cs] | None => [] end.
Definition on_gens {A} (m : M (tls_store Ctx (watch Ctx W)) A) : M tstate A := TlsManager.on_store m.

Definition same_books (s s' : tstate) : Prop :=
  gens (generations s') = gens (generations s) /\
  created (world (generations s')) = created (world (generations s)) /\
  freed (world (generations s')) = freed (world (generations s)).

Inductive step : sys -> sys -> Prop :=
| step_new_channel generation g m m' s s' ts :
    TlsManager.new_channel_locked generation (m, s) = (Ok g, (m', s')) ->
    step (Sys m s ts) (Sys m' s' (THold g :: ts))
| step_release g taken m s s' ts ts' :
    ts ≡ₚ THold g :: ts' -> on_gens (TlsGeneration.release_locked g) s = (Ok taken, s') ->
    step (Sys m s ts) (Sys m s' (freeing g taken ++ ts'))
| step_free g cs r m s s' ts ts' :
    ts ≡ₚ TFree g cs :: ts' -> on_gens (TlsGeneration.free_taken prov g (Some cs)) s = (r, s') ->
    step (Sys m s ts) (Sys m s' ts')
| step_reload id config m m' s s' ts :
    TlsManager.reload_begin (m, s) = (Ok id, (m', s')) ->
    step (Sys m s ts) (Sys m' s' (TBegun id config :: ts))
| step_build id config g m m' s s' ts ts' :
    ts ≡ₚ TBegun id config :: ts' -> TlsManager.reload_build prov id config (m, s) = (Ok g, (m', s')) ->
    step (Sys m s ts) (Sys m' s' (TBuilt g :: ts'))
| step_build_fails id config e m m' s s' ts ts' :
    ts ≡ₚ TBegun id config :: ts' -> TlsManager.reload_build prov id config (m, s) = (Raise e, (m', s')) ->
    step (Sys m s ts) (Sys m' s' ts')
| step_publish g previous m m' s s' ts ts' :
    ts ≡ₚ TBuilt g :: ts' -> TlsManager.reload_publish g (m, s) = (Ok previous, (m', s')) ->
    step (Sys m s ts) (Sys m' s' (TRetire (default g previous) :: ts'))
| step_retire g taken m s s' ts ts' :
    ts ≡ₚ TRetire g :: ts' -> on_gens (TlsGeneration.retire_locked g) s = (Ok taken, s') ->
    step (Sys m s ts) (Sys m s' (freeing g taken ++ ts'))
| step_close active lease m m' s s' ts :
    TlsManager.close_locked (m, s) = (Ok (Some (active, lease)), (m', s')) ->
    step (Sys m s ts)
      (Sys m' s' (match active with Some g => [TRetire g] | None => [] end ++
                  (if lease then [TLease] else []) ++ ts))
| step_lease r m s s' ts ts' :
    ts ≡ₚ TLease :: ts' -> TlsManager.on_registry (TlsRegistry.release_manager prov) s = (r, s') ->
    step (Sys m s ts) (Sys m s' ts')
| step_other m s s' ts : same_books s s' -> step (Sys m s ts) (Sys m s' ts).

(** From the construction of the manager on, over a store without generations. *)
Inductive reachable (name : str) (config : TlsConfig) (production : bool) : sys -> Prop :=
| reach_init r w m s :
    TlsManager.init prov name config production (TlsState r (Store [] (Watch [] [] w))) = (Ok m, s) ->
    reachable name config production (Sys m s [])
| reach_step s s' : reachable name config production s -> step s s' -> reachable name config production s'.

(** ** The invariant *)

Definition holds (g : nat) (t : task) : bool := match t with THold g' => bool_decide (g = g') | _ => false end.
Definition owned (t : task) : option nat := match t with TBuilt g | TRetire g => Some g | _ => None end.
Definition carried (t : task) : list Ctx := match t with TFree _ cs => cs | _ => [] end.
Definition owners (m : tls_manager) (ts : list task) : list nat := option_list (m_active m) ++ omap owned ts.

(** A generation counts its channels and its owner, and has its contexts until nobody counts. *)
Definition gen_ok (own : list nat) (ts : list task) (g : nat) (x : tls_generation Ctx) : Prop :=
  references x = count (holds g) ts + Z.b2z (negb (retired x)) /\
  (retired x = false <-> g ∈ own) /\
  destroyed x = bool_decide (references x = 0) /\
  (destroyed x = true -> contexts x = []) /\
  (destroyed x = false -> Forall (fun c => is_Some (context_by_identifier x !! identifier c))
     (default_certificate (g_config x) :: sni_certificates (g_config x))).

Definition held (s : tstate) (ts : list task) : list Ctx :=
  concat (map carried ts) ++ concat (map contexts (gens (generations s))).

Record inv (s : sys) : Prop := {
  i_gen : forall g x, gens (generations (s_state s)) !! g = Some x -> gen_ok (owners (s_mgr s) (s_tasks s)) (s_tasks s) g x;
  i_owners : NoDup (owners (s_mgr s) (s_tasks s));
  i_known : forall g, g ∈ owners (s_mgr s) (s_tasks s) \/ THold g ∈ s_tasks s \/ (exists cs, TFree g cs ∈ s_tasks s) ->
    (g < length (gens (generations (s_state s))))%nat;
  i_closed : m_closed (s_mgr s) = bool_decide (m_active (s_mgr s) = None);
  i_books : created (world (generations (s_state s))) ≡ₚ
    freed (world (generations (s_state s))) ++ held (s_state s) (s_tasks s);
}.

Lemma mgr_inv_perm m s ts ts' : ts ≡ₚ ts' -> inv (Sys m s ts) -> inv (Sys m s ts').
Proof.
  intros Hp [H1 H2 H3 H4 H5]. cbn [s_mgr s_state s_tasks] in *.
  assert (owners m ts ≡ₚ owners m ts') as Ho by (unfold owners; by rewrite Hp).
  split; cbn [s_mgr s_state s_tasks].
  - intros g x Hg. destruct (H1 g x Hg) as (E1 & E2 & E3). unfold gen_ok. rewrite <- (count_perm _ _ _ Hp), <- Ho. done.
  - by rewrite <- Ho.
  - intros g Hg. apply H3. rewrite Ho. by setoid_rewrite Hp.
  - done.
  - unfold held in *. by rewrite <- Hp.
Qed.

(** ** Provider calls, in the books *)

Lemma free_loop_books (q : tls_provider Ctx Session W) cs : forall e0 (x : watch Ctx W), exists e x',
  TlsGeneration.free_loop (counted q) cs e0 x = (Ok e, x') /\ created x' = created x /\ freed x' = freed x ++ cs.
Proof.
  induction cs as [|c cs IH]; intros e0 x; cbn [TlsGeneration.free_loop].
  { exists e0, x. by rewrite app_nil_r. }
  unfold bind at 1, attempt, try_except. cbn [free_context counted].
  destruct (free_context q c (inner x)) as [r w] eqn:E. unfold note_freed at 1, bind. rewrite E. 
  destruct r as [[]|e1]; unfold ret; cbn beta iota.
  - edestruct (IH (first_of e0 None)) as (e & x' & -> & H1 & H2). exists e, x'. rewrite H1, H2. cbn. by rewrite <- app_assoc.
  - edestruct (IH (first_of e0 (Some e1))) as (e & x' & -> & H1 & H2). exists e, x'. rewrite H1, H2. cbn. by rewrite <- app_assoc.
Qed.

Lemma free_contexts_books (q : tls_provider Ctx Session W) cs (x : watch Ctx W) : exists r x',
  TlsGeneration.free_contexts (counted q) (Some cs) x = (r, x') /\ created x' = created x /\ freed x' = freed x ++ rev cs.
Proof.
  destruct (free_loop_books q (rev cs) None x) as (e & x' & E & H1 & H2). cbn [TlsGeneration.free_contexts].
  rewrite (bind_ok _ _ _ _ _ E). destruct e; by eexists _, x'.
Qed.

Lemma create_books (q : tls_provider Ctx Session W) config certs : forall acc by_id (x : watch Ctx W), exists new by_id' failure x',
  TlsGeneration.create_contexts (counted q) config certs acc by_id x = (Ok (acc ++ new, by_id', failure), x') /\
  created x' = created x ++ new /\ freed x' = freed x /\
  (failure = None -> Forall (fun c => is_Some (by_id' !! identifier c)) certs) /\
  (forall k, is_Some (by_id !! k) -> is_Some (by_id' !! k)).
Proof.
  induction certs as [|c certs IH]; intros acc by_id x; cbn [TlsGeneration.create_contexts].
  { exists [], by_id, None, x. rewrite !app_nil_r. by split_and!. }
  unfold bind at 1, try_except, bind at 1. cbn [create_server_context counted]. unfold note_created at 1.
  destruct (create_server_context q config c (inner x)) as [r w]. destruct r as [[v|]|e]; unfold ret, raise; cbn beta iota.
  - edestruct (IH (acc ++ [v]) (<[identifier c := v]> by_id)) as (new & by_id' & failure & x' & -> & H1 & H2 & H3 & H4).
    exists (v :: new), by_id', failure, x'. rewrite <- app_assoc. split_and!; [done|rewrite H1; cbn; by rewrite <- app_assoc|done| |].
    + intros Hf. constructor; [|by apply H3]. apply H4. rewrite lookup_insert_eq. by eexists.
    + intros k Hk. apply H4. destruct (decide (identifier c = k)) as [->|]; [rewrite lookup_insert_eq; by eexists|].
      by rewrite lookup_insert_ne.
  - eexists [], by_id, _, _. rewrite !app_nil_r. by split_and!.
  - eexists [], by_id, _, _. rewrite !app_nil_r. by split_and!.
Qed.

(** What the construction of a generation does to the store. *)
Definition built (pid : nat) (config : TlsConfig) (st st' : tls_store Ctx (watch Ctx W)) (g : nat) : Prop :=
  exists id cs by_id c,
    g = length (gens st) /\
    gens st' = gens st ++ [MkGeneration id pid config 1 false false cs by_id (Some c)] /\
    created (world st') = created (world st) ++ cs /\ freed (world st') = freed (world st) /\
    Forall (fun c => is_Some (by_id !! identifier c)) (default_certificate config :: sni_certificates config).
Definition undone (st st' : tls_store Ctx (watch Ctx W)) : Prop :=
  gens st' = gens st /\ exists cs, created (world st') = created (world st) ++ cs /\ freed (world st') ≡ₚ freed (world st) ++ cs.

Lemma init_books id pid config st :
  wp (TlsGeneration.init prov id pid config) (fun g st' => built pid config st st' g) (fun _ st' => undone st st') st.
Proof.
  assert (undone st st) as Hundone by (split; [done|]; exists []; by rewrite !app_nil_r).
  unfold TlsGeneration.init. destruct (id <=? 0); [by apply wp_raise|]. apply wp_bind.
  unfold wp at 1, TlsGeneration.on_world, zoom.
  destruct (create_books (p pid) config (default_certificate config :: sni_certificates config) [] ∅ (world st))
    as (new & by_id & failure & x' & -> & H1 & H2 & H3 & _).
  destruct failure as [e|].
  - cbn [app]. apply wp_bind. unfold attempt. apply wp_try, wp_bind. unfold wp at 1. cbn [world gens].
    destruct (free_contexts_books (p pid) new x') as (r & x2 & -> & H4 & H5).
    assert (undone st (Store (gens st) x2)) as Hu.
    { split; [done|]. exists new. cbn [world]. rewrite H4, H5, H1, H2. split; [done|]. apply Permutation_app_head. symmetry. apply Permutation_rev. }
    destruct r as [[]|e2]; apply wp_ret; [|by apply wp_raise].
    destruct (TlsGeneration.is_provider_error e); by apply wp_raise.
  - specialize (H3 eq_refl). pose proof H3 as H3'. apply Forall_cons in H3' as [[v Hv] _]. rewrite Hv.
    cbn [app]. exists id, new, by_id, v. by split_and!.
Qed.

(** ** The sections on one generation *)

Definition dropped (b : bool) (x : tls_generation Ctx) : tls_generation Ctx :=
  if references x =? 1
  then MkGeneration (generation_id x) (g_provider x) (g_config x) 0 b true [] ∅ None
  else MkGeneration (generation_id x) (g_provider x) (g_config x) (references x - 1) b (destroyed x) (contexts x)
         (context_by_identifier x) (g_context x).
Definition taken_of (x : tls_generation Ctx) : option (list Ctx) :=
  if references x =? 1 then Some (contexts x) else None.
Definition with_gen (g : nat) (y : tls_generation Ctx) (s : tstate) : tstate :=
  TlsState (registry s) (Store (<[g := y]> (gens (generations s))) (world (generations s))).

Lemma mgr_drop_run g b x (st : tls_store Ctx (watch Ctx W)) :
  destroyed x = false -> TlsGeneration.drop_reference g (TlsGeneration.set_retired b x) st =
    (Ok (taken_of x), Store (<[g := dropped b x]> (gens st)) (world st)).
Proof.
  intros Hd. unfold TlsGeneration.drop_reference, taken_of, dropped. cbn [references TlsGeneration.set_references TlsGeneration.set_retired].
  destruct (Z.eqb_spec (references x) 1) as [E|E].
  - rewrite E. cbn. unfold TlsGeneration.take_contexts. cbn. rewrite Hd. done.
  - rewrite (proj2 (Z.eqb_neq (references x - 1) 0)) by lia. done.
Qed.

Lemma mgr_release_run g x s :
  gens (generations s) !! g = Some x -> destroyed x = false -> 0 < references x ->
  on_gens (TlsGeneration.release_locked g) s = (Ok (taken_of x), with_gen g (dropped (retired x) x) s).
Proof.
  intros Hx Hd Hp. unfold on_gens, TlsManager.on_store, zoom, TlsGeneration.release_locked, bind, TlsGeneration.get_gen.
  rewrite Hx, Hd. zdec. pose proof (mgr_drop_run g (retired x) x (generations s) Hd) as H.
  replace (TlsGeneration.set_retired (retired x) x) with x in H by (by destruct x). by rewrite H.
Qed.

Lemma mgr_retire_run g x s :
  gens (generations s) !! g = Some x -> retired x = false -> destroyed x = false -> 0 < references x ->
  on_gens (TlsGeneration.retire_locked g) s = (Ok (taken_of x), with_gen g (dropped true x) s).
Proof.
  intros Hx Hr Hd Hp. unfold on_gens, TlsManager.on_store, zoom, TlsGeneration.retire_locked, bind, TlsGeneration.get_gen.
  rewrite Hx, Hr, Hd. zdec. by rewrite (mgr_drop_run g true x (generations s) Hd).
Qed.

(** ** Each section keeps the invariant *)

Lemma contexts_insert g (x y : tls_generation Ctx) l :
  l !! g = Some x -> exists rest,
    concat (map contexts l) ≡ₚ contexts x ++ rest /\ concat (map contexts (<[g := y]> l)) ≡ₚ contexts y ++ rest.
Proof.
  intros Hx. exists (concat (map contexts (take g l)) ++ concat (map contexts (drop (S g) l))).
  rewrite insert_take_drop by (by eapply lookup_lt_Some). rewrite <- (take_drop_middle l g x Hx) at 1.
  rewrite !map_app, !concat_app. cbn [map concat]. split; apply Permutation_app_swap_app.
Qed.

Lemma gen_ok_alive own ts g x :
  gen_ok own ts g x -> THold g ∈ ts \/ g ∈ own -> 0 < references x /\ destroyed x = false.
Proof.
  intros (H1 & H2 & H3 & _) H. pose proof (count_nonneg (holds g) ts).
  assert (0 < references x) as Hp.
  { rewrite H1. destruct H as [H|H].
    - assert (0 < count (holds g) ts) by (eapply count_pos_elem; [exact H|by apply bool_decide_eq_true_2]). destruct (retired x); simpl; lia.
    - apply H2 in H. rewrite H. simpl. lia. }
  split; [done|]. rewrite H3. apply bool_decide_eq_false_2. lia.
Qed.

Lemma gen_ok_same own own' ts ts' g x :
  count (holds g) ts' = count (holds g) ts -> (g ∈ own' <-> g ∈ own) -> gen_ok own ts g x -> gen_ok own' ts' g x.
Proof. intros Hc Ho (H1 & H2 & H3). split; [by rewrite Hc|]. split; [by rewrite Ho|done]. Qed.

Lemma dropped_ok own own' ts ts' g x b :
  gen_ok own ts g x -> destroyed x = false -> 0 < references x ->
  references x - 1 = count (holds g) ts' + Z.b2z (negb b) -> (b = false <-> g ∈ own') ->
  gen_ok own' ts' g (dropped b x).
Proof.
  intros (H1 & H2 & H3 & H4 & H5) Hd Hp Hc Hb. unfold gen_ok, dropped.
  destruct (Z.eqb_spec (references x) 1) as [E|E]; cbn [references retired destroyed contexts context_by_identifier g_config].
  - split_and!; [lia|apply Hb|by rewrite bool_decide_eq_true_2|done|done].
  - split_and!; [lia|apply Hb|by rewrite Hd, bool_decide_eq_false_2 by lia|done|done].
Qed.

Lemma inv_drop m s t ts g :
  inv (Sys m s (t :: ts)) -> t = THold g \/ t = TRetire g -> exists x,
    gens (generations s) !! g = Some x /\ destroyed x = false /\ 0 < references x /\
    (t = TRetire g -> retired x = false) /\
    forall b, b = match t with THold _ => retired x | _ => true end ->
    inv (Sys m (with_gen g (dropped b x) s) (freeing g (taken_of x) ++ ts)).
Proof.
  intros [H1 H2 H3 H4 H5] Ht. cbn [s_mgr s_state s_tasks] in *.
  assert (g < length (gens (generations s)))%nat as Hlt.
  { apply H3. destruct Ht as [->| ->]; [right; left; by left|left]. unfold owners. apply elem_of_app. right. by left. }
  apply lookup_lt_is_Some_2 in Hlt as [x Hx]. exists x. pose proof (H1 g x Hx) as Hg.
  destruct (gen_ok_alive _ _ _ _ Hg) as [Hp Hd].
  { destruct Ht as [->| ->]; [left; by left|right]. unfold owners. apply elem_of_app. right. by left. }
  split; [done|]. split; [done|]. split; [done|]. split.
  { intros ->. apply Hg. unfold owners. apply elem_of_app. right. by left. }
  intros b ->. set (b := match t with THold _ => _ | _ => _ end). set (ts' := freeing g (taken_of x) ++ ts).
  assert (omap owned ts' = omap owned ts) as Eo by (subst ts'; unfold freeing, taken_of; by destruct (_ =? 1)).
  assert (forall g', count (holds g') ts' = count (holds g') ts) as Ec
    by (intros g'; subst ts'; unfold freeing, taken_of; by destruct (_ =? 1)).
  assert (forall g', g' <> g -> (g' ∈ owners m ts' <-> g' ∈ owners m (t :: ts))) as Hown.
  { intros g' Hne. unfold owners. rewrite !elem_of_app, Eo. destruct Ht as [->| ->]; [done|]. cbn [omap list_omap owned].
    rewrite elem_of_cons. split; [tauto|]. intros [?|[?|?]]; [by left|done|by right]. }
  split; cbn [s_mgr s_state s_tasks with_gen generations gens world registry].
  - intros g' y Hy. destruct (decide (g' = g)) as [->|Hne].
    + rewrite list_lookup_insert_eq in Hy by (by eapply lookup_lt_Some). injection Hy as <-.
      apply (dropped_ok _ _ _ _ _ _ _ Hg Hd Hp).
      * rewrite Ec. destruct Hg as (E & Hr & _). rewrite E. subst b. destruct Ht as [->| ->]; cbn [count holds].
        -- rewrite bool_decide_eq_true_2 by done. simpl. lia.
        -- rewrite (proj2 Hr); [simpl; lia|]. unfold owners. apply elem_of_app. right. by left.
      * destruct Hg as (_ & Hr & _). subst b. destruct Ht as [->| ->].
        -- rewrite Hr. unfold owners. by rewrite Eo.
        -- split; [done|]. unfold owners in *. rewrite Eo. cbn [omap list_omap owned] in H2. intros Hin. exfalso.
           apply NoDup_app in H2 as (_ & Hd1 & Hd2). apply NoDup_cons in Hd2 as [Hd2 _].
           apply elem_of_app in Hin as [Hin|Hin]; [|done]. apply (Hd1 g Hin). by left.
    + rewrite list_lookup_insert_ne in Hy by done. eapply gen_ok_same; [| |by apply H1]; [|by apply Hown].
      rewrite Ec. destruct Ht as [->| ->]; cbn [count holds]; [by rewrite bool_decide_eq_false_2|done].
  - unfold owners in *. rewrite Eo. destruct Ht as [->| ->]; [done|]. cbn [omap list_omap owned] in H2.
    eapply sublist_NoDup; [exact H2|]. by apply sublist_app, sublist_cons.
  - intros g' Hg'. rewrite length_insert. apply H3. destruct (decide (g' = g)) as [->|Hne].
    + destruct Ht as [->| ->]; [right; left; by left|left]. unfold owners. apply elem_of_app. right. by left.
    + destruct Hg' as [Hg'|[Hg'|(cs & Hg')]]; [left; by apply Hown|right; left|right; right; exists cs];
        subst ts'; apply elem_of_app in Hg' as [Hg'|Hg']; try (by right);
        unfold freeing, taken_of in Hg'; destruct (_ =? 1); rewrite ?elem_of_cons, ?elem_of_nil in Hg'; try done; destruct Hg' as [Hg'|[]]; congruence.
  - done.
  - rewrite H5. apply Permutation_app_head. unfold held. cbn [generations gens].
    destruct (contexts_insert g x (dropped b x) _ Hx) as (rest & -> & ->).
    assert (concat (map carried (t :: ts)) = concat (map carried ts)) as -> by (by destruct Ht as [->| ->]).
    subst ts'. unfold freeing, taken_of, dropped. destruct (_ =? 1); cbn [map concat app carried contexts]; [|done].
    rewrite <- app_assoc. apply Permutation_app_swap_app.
Qed.

(** The parts of the invariant that do not look at the generations' fields. *)
Lemma mgr_inv_hold m s ts g x :
  inv (Sys m s ts) -> gens (generations s) !! g = Some x -> destroyed x = false ->
  inv (Sys m (with_gen g (TlsGeneration.set_references (references x + 1) x) s) (THold g :: ts)).
Proof.
  intros [H1 H2 H3 H4 H5] Hx Hd. cbn [s_mgr s_state s_tasks] in *.
  split; cbn [s_mgr s_state s_tasks with_gen generations gens world registry]; [|done| |done|].
  - intros g' y Hy. destruct (decide (g' = g)) as [->|Hne].
    + rewrite list_lookup_insert_eq in Hy by (by eapply lookup_lt_Some). injection Hy as <-.
      destruct (H1 g x Hx) as (E1 & E2 & E3 & E4 & E5).
      unfold gen_ok. cbn [references retired destroyed contexts context_by_identifier g_config TlsGeneration.set_references count holds].
      rewrite (bool_decide_eq_true_2 (g = g)) by done. split_and!; [simpl; lia|done| |done|done].
      rewrite Hd. symmetry. apply bool_decide_eq_false_2. pose proof (count_nonneg (holds g) ts).
      rewrite E1. destruct (retired x); simpl; lia.
    + rewrite list_lookup_insert_ne in Hy by done. eapply gen_ok_same; [| |by apply H1]; [|done].
      cbn [count holds]. by rewrite bool_decide_eq_false_2.
  - intros g' Hg'. rewrite length_insert. destruct Hg' as [Hg'|[Hg'|(cs & Hg')]].
    + apply H3. by left.
    + apply elem_of_cons in Hg' as [[= ->]|Hg']; [by eapply lookup_lt_Some|apply H3; auto].
    + apply elem_of_cons in Hg' as [?|Hg']; [done|apply H3; eauto].
  - rewrite H5. apply Permutation_app_head. unfold held. cbn [generations gens map concat app carried].
    destruct (contexts_insert g x (TlsGeneration.set_references (references x + 1) x) _ Hx) as (rest & -> & ->). done.
Qed.

(** Books that move from one place to another, with the generations unchanged. *)
Lemma inv_move m m' s s' ts ts' :
  inv (Sys m s ts) -> gens (generations s') = gens (generations s) ->
  (forall g, count (holds g) ts' = count (holds g) ts) -> owners m' ts' ≡ₚ owners m ts ->
  (forall g cs, TFree g cs ∈ ts' -> TFree g cs ∈ ts) ->
  m_closed m' = bool_decide (m_active m' = None) ->
  created (world (generations s')) ≡ₚ freed (world (generations s')) ++ held s' ts' ->
  inv (Sys m' s' ts').
Proof.
  intros [H1 H2 H3 H4 H5] Hg Hc Ho Hf Hcl Hb. cbn [s_mgr s_state s_tasks] in *.
  split; cbn [s_mgr s_state s_tasks]; rewrite ?Hg; [| | |done|done].
  - intros g x Hx. eapply gen_ok_same; [apply Hc| |by apply H1]. by rewrite Ho.
  - by rewrite Ho.
  - intros g [Hin|[Hin|(cs & Hin)]]; apply H3.
    + left. by rewrite <- Ho.
    + right; left. assert (0 < count (holds g) ts) as Hpos.
      { rewrite <- Hc. eapply count_pos_elem; [exact Hin|by apply bool_decide_eq_true_2]. }
      apply count_pos_inv in Hpos as (t & Ht & Hh). destruct t as [g0|?|?|?|?|]; try done. cbn [holds] in Hh. b2p. by subst g0.
    + right; right. eauto.
Qed.

Lemma mgr_inv_build m s s' ts id config g :
  inv (Sys m s (TBegun id config :: ts)) -> built (m_provider m) config (generations s) (generations s') g ->
  inv (Sys m s' (TBuilt g :: ts)).
Proof.
  intros [H1 H2 H3 H4 H5] (id' & cs & by_id & c & -> & Hg & Hc & Hf & Hall). cbn [s_mgr s_state s_tasks] in *.
  set (g := length (gens (generations s))) in *. change (owners m (TBegun id config :: ts)) with (owners m ts) in *.
  assert (owners m (TBuilt g :: ts) ≡ₚ g :: owners m ts) as Ho by (unfold owners; apply Permutation_sym, Permutation_middle).
  assert (g ∉ owners m ts) as Hni by (intros Hin; specialize (H3 g (or_introl Hin)); unfold g in H3; lia).
  assert (count (holds g) ts = 0) as Hz.
  { apply count_zero. intros i t Ht. destruct t; try done. apply bool_decide_eq_false_2. intros <-.
    apply list_elem_of_lookup_2 in Ht. specialize (H3 g (or_intror (or_introl (list_elem_of_further _ _ _ Ht)))). unfold g in H3. lia. }
  split; cbn [s_mgr s_state s_tasks]; [| | |done|].
  - intros g' y Hy. rewrite Hg in Hy. apply lookup_app_Some in Hy as [Hy|[Hge Hy]].
    + eapply gen_ok_same; [| |by apply (H1 g' y)]; [done|]. rewrite Ho, elem_of_cons. apply lookup_lt_Some in Hy.
      split; [intros [->|?]; [unfold g in Hy; lia|done]|by right].
    + apply list_lookup_singleton_Some in Hy as [E <-]. assert (g' = g) as -> by (unfold g; lia).
      unfold gen_ok. cbn [references retired destroyed contexts context_by_identifier g_config count holds].
      rewrite Ho. split_and!; [simpl; lia| |done|done|done]. split; [by left|done].
  - rewrite Ho. by constructor.
  - intros g' Hg'. rewrite Hg, length_app. simpl. assert (g' = g \/ (g' < g)%nat) as Hc'; [|unfold g in Hc'; lia].
    rewrite Ho, elem_of_cons in Hg'. destruct Hg' as [[->|Hin]|[Hin|(l & Hin)]]; [by left|right; apply H3..].
    + by left.
    + apply elem_of_cons in Hin as [?|?]; [done|]. right; left. by right.
    + apply elem_of_cons in Hin as [?|?]; [done|]. right; right. exists l. by right.
  - rewrite Hc, Hf, H5, <- app_assoc. apply Permutation_app_head. unfold held. rewrite Hg, map_app, concat_app.
    cbn [map concat app carried contexts]. by rewrite app_nil_r, <- app_assoc.
Qed.

(** ** The registry keeps out of the books *)

Definition steady {A} (m : M (tls_registry * watch Ctx W) A) : Prop := forall t,
  created (snd (snd (m t))) = created (snd t) /\ freed (snd (snd (m t))) = freed (snd t).

Lemma steady_bind {A B} (m : M (tls_registry * watch Ctx W) A) (k : A -> M _ B) :
  steady m -> (forall a, steady (k a)) -> steady (bind m k).
Proof.
  intros Hm Hk t. specialize (Hm t). unfold bind. destruct (m t) as [[a|e] t']; cbn [snd] in *; [|done].
  destruct (Hk a t') as [-> ->]. done.
Qed.
Lemma steady_try {A} (m : M (tls_registry * watch Ctx W) A) h :
  steady m -> (forall e, steady (h e)) -> steady (try_except m h).
Proof.
  intros Hm Hh t. specialize (Hm t). unfold try_except. destruct (m t) as [[a|e] t']; cbn [snd] in *; [done|].
  destruct (Hh e t') as [-> ->]. done.
Qed.
Lemma steady_outside {A} (m : M W A) : steady (TlsRegistry.outside (pass (Ctx := Ctx) m)).
Proof. intros [r x]. unfold TlsRegistry.outside, pass, zoom. cbn. by destruct (m (inner x)). Qed.
Lemma steady_ret {A} (a : A) : steady (ret a). Proof. done. Qed.
Lemma steady_raise {A} e : steady (@raise _ A e). Proof. done. Qed.
Lemma steady_lift {A} (r : result A) : steady (lift r). Proof. done. Qed.
Lemma steady_the : steady TlsRegistry.the_registry. Proof. done. Qed.
Lemma steady_upd f : steady (TlsRegistry.upd f). Proof. done. Qed.
Lemma steady_info n : steady (TlsRegistry.info_of prov n). Proof. done. Qed.

Ltac steady := repeat first
  [ apply steady_bind; [|intros] | apply steady_try; [|intros] | apply steady_ret | apply steady_raise | apply steady_lift
  | apply steady_the | apply steady_upd | apply steady_info | apply steady_outside
  | match goal with |- steady (match ?x with _ => _ end) => destruct x end
  | match goal with |- steady (let '_ := ?x in _) => destruct x end ].

Lemma close_loop_steady ps : forall n e, steady (TlsRegistry.close_loop prov ps n e).
Proof.
  induction ps as [|q ps IH]; intros n e; cbn [TlsRegistry.close_loop]; [apply steady_ret|].
  destruct (negb _); [apply IH|]. unfold attempt. cbn [p_close counted]. steady; apply IH.
Qed.
Lemma release_manager_steady : steady (TlsRegistry.release_manager prov).
Proof.
  unfold TlsRegistry.release_manager, TlsRegistry.release_locked, TlsRegistry.providers_to_close, TlsRegistry.close_providers.
  steady. apply close_loop_steady.
Qed.
Lemma acquire_manager_steady name production : steady (TlsRegistry.acquire_manager prov name production).
Proof.
  unfold TlsRegistry.acquire_manager, TlsRegistry.acquire_locked, TlsRegistry.lookup_locked, TlsRegistry.activate. cbn [p_activate p_callable counted].
  steady; apply close_loop_steady.
Qed.

Lemma registry_books {A} (m : M (tls_registry * watch Ctx W) A) s :
  steady m -> same_books s (snd (TlsManager.on_registry m s)).
Proof.
  intros Hm. specialize (Hm (registry s, world (generations s))). unfold TlsManager.on_registry, zoom.
  destruct (m (registry s, world (generations s))) as [r [reg w]]. cbn in *. by destruct Hm.
Qed.

(** ** Every step keeps the invariant *)

Lemma held_perm s ts ts' : ts ≡ₚ ts' -> held s ts ≡ₚ held s ts'.
Proof. intros H. unfold held. by rewrite H. Qed.

Lemma held_gens s s' ts : gens (generations s') = gens (generations s) -> held s' ts = held s ts.
Proof. intros H. unfold held. by rewrite H. Qed.

Lemma inv_same_books m s s' ts : inv (Sys m s ts) -> same_books s s' -> inv (Sys m s' ts).
Proof.
  intros Hi (Hg & Hc & Hf). eapply inv_move; [exact Hi|done|done|done|done|apply Hi|].
  rewrite Hc, Hf, (held_gens s) by done. apply Hi.
Qed.

Lemma inv_drop_task m s t ts :
  inv (Sys m s (t :: ts)) -> (forall g, holds g t = false) -> owned t = None -> carried t = [] -> inv (Sys m s ts).
Proof.
  intros Hi Hh Ho Hc. eapply inv_move; [exact Hi|done| | | |apply Hi|].
  - intros g. cbn [count]. by rewrite Hh.
  - unfold owners. cbn [omap list_omap]. by rewrite Ho.
  - intros g cs ?. by right.
  - pose proof (i_books _ Hi) as Hb. cbn [s_state s_tasks] in Hb. rewrite Hb. unfold held. cbn [map concat]. by rewrite Hc.
Qed.

Lemma inv_free m s s' ts g cs r :
  inv (Sys m s (TFree g cs :: ts)) -> on_gens (TlsGeneration.free_taken prov g (Some cs)) s = (r, s') -> inv (Sys m s' ts).
Proof.
  intros Hi E. assert (g < length (gens (generations s)))%nat as Hlt.
  { apply (i_known _ Hi). right; right. exists cs. by left. }
  apply lookup_lt_is_Some_2 in Hlt as [x Hx].
  destruct (free_contexts_books (p (g_provider x)) cs (world (generations s))) as (r' & w' & E' & Hc & Hf).
  assert (s' = TlsState (registry s) (Store (gens (generations s)) w')) as ->.
  { revert E. unfold on_gens, TlsManager.on_store, zoom, TlsGeneration.free_taken, bind, TlsGeneration.get_gen. rewrite Hx.
    unfold TlsGeneration.on_world, zoom. rewrite E'. by intros [= _ <-]. }
  eapply inv_move; [exact Hi|done|done|done| |apply Hi|].
  - intros g' cs' ?. by right.
  - cbn [generations world]. rewrite Hc, Hf. pose proof (i_books _ Hi) as Hb. cbn [s_state s_tasks] in Hb. rewrite Hb.
    unfold held. cbn [map concat carried generations gens]. rewrite <- !app_assoc. apply Permutation_app_head.
    by rewrite <- Permutation_rev.
Qed.

Lemma new_channel_run generation g m m' s s' :
  TlsManager.new_channel_locked generation (m, s) = (Ok g, (m', s')) ->
  m' = m /\ exists x, gens (generations s) !! g = Some x /\ destroyed x = false /\
    s' = with_gen g (TlsGeneration.set_references (references x + 1) x) s.
Proof.
  unfold TlsManager.new_channel_locked, bind, raise, ret, TlsManager.the_manager. cbn [fst snd]. destruct (m_active m) as [a|]; [|done].
  destruct (m_closed m); [done|]. unfold TlsManager.on_state, TlsManager.on_store, zoom, TlsGeneration.get_gen. cbn [fst snd].
  destruct (gens (generations s) !! default a generation) as [x|] eqn:Hx; [|done]. cbn [negb].
  destruct (negb _); [done|]. unfold TlsGeneration.retain, bind, raise, TlsGeneration.get_gen. cbn [fst snd generations]. rewrite Hx.
  destruct (references x <=? 0) eqn:E1; [done|]. destruct (destroyed x) eqn:Hd; [done|]. cbn [orb].
  intros [= <- <- <-]. split; [done|]. exists x. by split_and!.
Qed.

Lemma build_run id config m s r m' s' :
  TlsManager.reload_build prov id config (m, s) = (r, (m', s')) ->
  m' = m /\ match r with
            | Ok g => built (m_provider m) config (generations s) (generations s') g
            | Raise _ => undone (generations s) (generations s')
            end.
Proof.
  pose proof (init_books id (m_provider m) config (generations s)) as H. unfold wp in H.
  unfold TlsManager.reload_build, bind, TlsManager.the_manager, TlsManager.on_state, TlsManager.on_store, zoom. cbn [fst snd].
  destruct (TlsGeneration.init prov id (m_provider m) config (generations s)) as [[g|e] st']; by intros [= <- <- <-].
Qed.

Lemma inv_undone m s s' ts : inv (Sys m s ts) -> undone (generations s) (generations s') -> inv (Sys m s' ts).
Proof.
  intros Hi (Hg & cs & Hc & Hf). eapply inv_move; [exact Hi|done|done|done|done|apply Hi|].
  rewrite Hc, Hf, (held_gens s) by done. pose proof (i_books _ Hi) as Hb. cbn [s_state s_tasks] in Hb. rewrite Hb.
  rewrite <- !app_assoc. apply Permutation_app_head. apply Permutation_app_comm.
Qed.

Lemma mgr_inv_step s s' : inv s -> step s s' -> inv s'.
Proof.
  intros Hi Hs. destruct Hs as
    [gen g m m' s s' ts E|g taken m s s' ts ts' Hp E|g cs r m s s' ts ts' Hp E|id config m m' s s' ts E
    |id config g m m' s s' ts ts' Hp E|id config e m m' s s' ts ts' Hp E|g previous m m' s s' ts ts' Hp E
    |g taken m s s' ts ts' Hp E|active lease m m' s s' ts E|r m s s' ts ts' Hp E|m s s' ts E];
    try apply (mgr_inv_perm _ _ _ _ Hp) in Hi.
  - destruct (new_channel_run _ _ _ _ _ _ E) as (-> & x & Hx & Hd & ->). by apply mgr_inv_hold.
  - destruct (inv_drop m s _ ts' g Hi (or_introl eq_refl)) as (x & Hx & Hd & Hpos & _ & Hi').
    rewrite (mgr_release_run g x s Hx Hd Hpos) in E. injection E as <- <-. by apply Hi'.
  - by eapply inv_free.
  - revert E. unfold TlsManager.reload_begin, bind, raise, ret, TlsManager.the_manager. cbn [fst snd]. destruct (_ || _); [done|].
    intros [= <- <- <-]. eapply inv_move; [exact Hi|done|done|done| |apply Hi|apply Hi].
    intros g cs [?|?]%elem_of_cons; done.
  - apply build_run in E as [-> Hb]. by eapply mgr_inv_build.
  - apply build_run in E as [-> Hb]. eapply inv_undone; [|exact Hb]. by eapply inv_drop_task.
  - revert E. unfold TlsManager.reload_publish, bind, ret, TlsManager.the_manager. cbn [fst snd].
    pose proof (i_closed _ Hi) as Hcl. cbn [s_mgr] in Hcl.
    destruct (m_active m) as [q|] eqn:Ea; [rewrite Hcl, bool_decide_eq_false_2 by done|];
      intros [= <- <- <-]; (eapply inv_move; [exact Hi|done|done| | | |apply Hi]).
    + unfold owners. cbn [omap list_omap owned m_active TlsManager.set_active default]. rewrite Ea. cbn. apply Permutation_swap.
    + intros g' cs [?|?]%elem_of_cons; [done|by right].
    + cbn. by rewrite Hcl.
    + unfold owners. rewrite Ea. done.
    + intros g' cs [?|?]%elem_of_cons; [done|by right].
    + by rewrite Ea, Hcl, !bool_decide_eq_true_2.
  - destruct (inv_drop m s _ ts' g Hi (or_intror eq_refl)) as (x & Hx & Hd & Hpos & Hr & Hi').
    rewrite (mgr_retire_run g x s Hx (Hr eq_refl) Hd Hpos) in E. injection E as <- <-. by apply Hi'.
  - revert E. unfold TlsManager.close_locked, bind, ret, TlsManager.the_manager. cbn [fst snd]. destruct (m_closed m); [done|].
    intros [= <- <- <- <-]. eapply inv_move; [exact Hi|done| | | |done|].
    + intros g. rewrite !count_app. destruct (m_active m), (registry_lease_active m); done.
    + unfold owners. cbn. by destruct (m_active m), (registry_lease_active m).
    + intros g cs Hin. destruct (m_active m), (registry_lease_active m); rewrite ?elem_of_app, ?elem_of_cons, ?elem_of_nil in Hin;
        cbn [app] in Hin; rewrite ?elem_of_cons in Hin; destruct_or?; done.
    + pose proof (i_books _ Hi) as Hb. cbn [s_state s_tasks] in Hb. rewrite Hb. apply Permutation_app_head. unfold held.
      by destruct (m_active m), (registry_lease_active m).
  - assert (inv (Sys m s ts')) as Hi' by (by eapply inv_drop_task). eapply inv_same_books; [exact Hi'|].
    pose proof (registry_books _ s release_manager_steady) as Hb. by rewrite E in Hb.
  - by eapply inv_same_books.
Qed.

Lemma mgr_init_inv name config production r w m s :
  TlsManager.init prov name config production (TlsState r (Store [] (Watch [] [] w))) = (Ok m, s) -> inv (Sys m s []).
Proof.
  unfold TlsManager.init. set (s0 := TlsState _ _). pose proof (registry_books _ s0 (acquire_manager_steady name production)) as Hb.
  unfold bind at 1. destruct (TlsManager.on_registry (TlsRegistry.acquire_manager prov name production) s0) as [[pid|e] s1]; [|done].
  cbn [snd] in Hb. unfold try_except.
  assert (steady (TlsRegistry.info name)) as Hinfo by (unfold TlsRegistry.info; steady).
  pose proof (registry_books _ s1 Hinfo) as Hb1. unfold bind at 1.
  destruct (TlsManager.on_registry (TlsRegistry.info name) s1) as [[i|e] s2]; cbn [snd] in Hb1.
  2: { unfold bind. by destruct (TlsManager.on_registry _ s2) as [[]]. }
  pose proof (init_books 1 pid config (generations s2)) as Hi. unfold wp in Hi. unfold bind at 1, TlsManager.on_store, zoom.
  destruct (TlsGeneration.init prov 1 pid config (generations s2)) as [[g|e] st].
  2: { unfold bind. by destruct (TlsManager.on_registry _ _) as [[]]. }
  intros [= <- <-]. destruct Hi as (id & cs & by_id & c & -> & Hg & Hc & Hf & Hall).
  destruct Hb as (Hb1' & Hb2' & Hb3'), Hb1 as (Hb4 & Hb5 & Hb6).
  assert (gens (generations s2) = []) as E0 by (by rewrite Hb4, Hb1').
  assert (created (world st) = cs) as E1 by (by rewrite Hc, Hb5, Hb2').
  assert (freed (world st) = []) as E2 by (by rewrite Hf, Hb6, Hb3').
  rewrite E0 in Hg |- *. cbn [app length] in *.
  split; cbn [s_mgr s_state s_tasks generations]; unfold owners; cbn [m_active m_closed option_list omap list_omap app]; rewrite ?Hg.
  - intros [|g] x Hx; [|done]. injection Hx as <-. unfold gen_ok. cbn [references retired destroyed contexts context_by_identifier g_config count holds].
    split_and!; [done| |done|done|done]. split; [by left|done].
  - apply NoDup_singleton.
  - intros g [Hin|[Hin|(l & Hin)]]; [|by apply elem_of_nil in Hin..]. apply list_elem_of_singleton in Hin as ->. cbn. lia.
  - done.
  - rewrite E1, E2. unfold held. cbn [generations]. rewrite Hg. cbn [map concat app contexts]. by rewrite app_nil_r.
Qed.

Lemma mgr_reachable_inv name config production s : reachable name config production s -> inv s.
Proof. induction 1; [by eapply mgr_init_inv|by eapply mgr_inv_step]. Qed.

(** C14: However the sections of new channels, channel closes, reloads and the close of the
    manager interleave, whatever the provider fails on: every context the provider created
    has been freed exactly once or is in exactly one place that will free it; a generation
    that a channel holds or that is published is not destroyed and has a context for each of
    its certificates; every release and retirement still due succeeds; and once the manager
    is closed and no thread has anything left to do, every context created has been freed. *)
Theorem contexts_freed_once name config production s :
  reachable name config production s ->
  created (world (generations (s_state s))) ≡ₚ
    freed (world (generations (s_state s))) ++ concat (map carried (s_tasks s)) ++
    concat (map contexts (gens (generations (s_state s)))) /\
  (forall g, THold g ∈ s_tasks s \/ m_active (s_mgr s) = Some g ->
     exists x, gens (generations (s_state s)) !! g = Some x /\ destroyed x = false /\
       Forall (fun c => is_Some (context_by_identifier x !! identifier c))
         (default_certificate (g_config x) :: sni_certificates (g_config x))) /\
  (forall g, THold g ∈ s_tasks s ->
     exists taken s', on_gens (TlsGeneration.release_locked g) (s_state s) = (Ok taken, s')) /\
  (forall g, TRetire g ∈ s_tasks s ->
     exists taken s', on_gens (TlsGeneration.retire_locked g) (s_state s) = (Ok taken, s')) /\
  (m_closed (s_mgr s) = true -> s_tasks s = [] ->
     created (world (generations (s_state s))) ≡ₚ freed (world (generations (s_state s)))).
Proof.
  intros Hr%mgr_reachable_inv. destruct s as [m s ts]. cbn [s_mgr s_state s_tasks].
  pose proof Hr as [H1 H2 H3 H4 H5]. cbn [s_mgr s_state s_tasks] in *.
  assert (forall t, t ∈ ts -> exists ts', inv (Sys m s (t :: ts'))) as Hpick.
  { intros t Ht. apply list_elem_of_split in Ht as (l1 & l2 & ->). exists (l1 ++ l2). eapply mgr_inv_perm; [|exact Hr].
    symmetry. apply Permutation_middle. }
  split; [exact H5|]. split_and!.
  - intros g Hg. assert (THold g ∈ ts \/ g ∈ owners m ts) as Hg'.
    { destruct Hg as [?|Hg]; [by left|right]. unfold owners. rewrite Hg. by left. }
    destruct (lookup_lt_is_Some_2 (gens (generations s)) g) as [x Hx]; [apply H3; tauto|].
    destruct (gen_ok_alive _ _ _ _ (H1 g x Hx) Hg') as [_ Hd]. exists x. split; [done|]. split; [done|]. by apply (H1 g x Hx).
  - intros g Hg. destruct (Hpick _ Hg) as (ts' & Hi). destruct (inv_drop _ _ _ _ g Hi (or_introl eq_refl)) as (x & Hx & Hd & Hp & _).
    eexists _, _. by apply mgr_release_run.
  - intros g Hg. destruct (Hpick _ Hg) as (ts' & Hi). destruct (inv_drop _ _ _ _ g Hi (or_intror eq_refl)) as (x & Hx & Hd & Hp & Hrt & _).
    eexists _, _. apply mgr_retire_run; [done|by apply Hrt|done|done].
  - intros Hcl ->. rewrite H4 in Hcl. b2p. rewrite H5. unfold held. cbn [map concat app].
    assert (concat (map contexts (gens (generations s))) = []) as ->; [|by rewrite app_nil_r].
    apply concat_nil_Forall, Forall_map, Forall_forall. intros x [g Hx]%list_elem_of_lookup.
    destruct (H1 g x Hx) as (E1 & E2 & E3 & E4 & _). apply E4. rewrite E3. apply bool_decide_eq_true_2. rewrite E1.
    destruct (retired x); [done|]. unfold owners in E2. rewrite Hcl in E2. exfalso. by apply (elem_of_nil g), E2.
Qed.
End system.

(** ** Witness *)

Definition sample_provider : tls_provider nat nat nat :=
  Provider (fun _ => MkProviderInfo (py "native") 1 (py "so") (py "MIT") (py "native") true [] [] [] [] [] 0)
    (fun _ _ n => (Ok (Some n), S n)) (fun _ _ => ret (Some 7%nat))
    (fun _ => ret (Some (plain TLS_OK))) (fun _ _ => ret (Some (plain TLS_OK))) (fun _ => ret (Some []))
    (fun _ _ _ => ret None) (fun _ _ _ => ret None) (fun _ => ret None)
    (fun _ => ret tt) (fun _ => ret tt) (fun _ => true) true (ret tt) (ret tt).
Definition sample_registry : tls_registry :=
  MkRegistry [(py "native", 0%nat)] {[ py "native" := provider_info sample_provider 0%nat ]} true true 0 false ∅.
Definition sample_config : TlsConfig :=
  MkTlsConfig (MkTlsCertificate (py "default") (py "c") (py "k") []) [] [] false [] false.

(** A channel is opened, the certificates are reloaded, the manager is closed. *)
Lemma contexts_freed_once_witness : exists s,
  reachable (fun _ : nat => sample_provider) (py "native") sample_config true s /\
  THold 0%nat ∈ s_tasks s /\ m_closed (s_mgr s) = true /\
  exists x, gens (generations (s_state s)) !! 0%nat = Some x /\ destroyed x = false.
Proof.
  assert (exists s, reachable (fun _ : nat => sample_provider) (py "native") sample_config true s /\
    THold 0%nat ∈ s_tasks s /\ m_closed (s_mgr s) = true) as (s & Hr & Hin & Hc).
  { eexists. split; [|split].
    - eapply reach_step; [eapply reach_step; [eapply reach_step; [eapply reach_step; [eapply reach_step;
        [eapply (reach_init _ _ _ _ sample_registry 0%nat)|]|]|]|]|].
      + vm_compute. reflexivity.
      + apply (step_new_channel _ None 0%nat). vm_compute. reflexivity.
      + apply (step_reload _ 2 sample_config). vm_compute. reflexivity.
      + eapply (step_build _ 2 sample_config 1%nat); [reflexivity|vm_compute; reflexivity].
      + eapply (step_publish _ 1%nat (Some 0%nat)); [reflexivity|vm_compute; reflexivity].
      + eapply step_close. vm_compute. reflexivity.
    - cbn. do 3 right. by left.
    - reflexivity. }
  exists s. split; [exact Hr|]. split; [exact Hin|]. split; [exact Hc|].
  destruct (contexts_freed_once _ _ _ _ s Hr) as (_ & Halive & _).
  destruct (Halive 0%nat (or_introl Hin)) as (x & Hx & Hd & _). by exists x.
Defined.
