(* ===== verification/TlsRegistrySpec.v ===== *)
(** * Owned providers are closed once, after the last lease

    Threads run the methods of [TlsRegistry] concurrently; [step] is one section under the
    registry's lock, or the close of one provider after it.  The world and the snapshots a
    provider's activation leaves may change between any two steps. *)

From S2P Require Import Prelude PyStr PyLists Tls TlsGeneration TlsChannel TlsManager.
#[local] Open Scope Z_scope.
Import TlsRegistry.

Section registry.
Context {Ctx Session W : Type} (prov : nat -> tls_provider Ctx Session W).
(** A provider's identity is immutable: the name a provider object has. *)
Context (name_of : nat -> list Z) (names_fixed : forall n w, pi_name (provider_info (prov n) w) = name_of n).

Record sys := Sys { s_reg : tls_registry; s_pending : list nat; s_closed : list nat }.

(** [s_pending]: to be closed by the thread that ended the last lease or closed the
    registry; [s_closed]: the providers whose [close] was called. *)
Inductive step : sys -> sys -> Prop :=
| step_register n res r r' (w w' : W) pend cl :
    register prov n (r, w) = (res, (r', w')) -> step (Sys r pend cl) (Sys r' pend cl)
| step_acquire name production res r r' (w w' : W) pend cl :
    acquire_locked name production (r, w) = (res, (r', w')) -> step (Sys r pend cl) (Sys r' pend cl)
| step_snapshot infos r pend cl :
    step (Sys r pend cl) (Sys (set_entries (providers r) infos r) pend cl)
| step_release ps r r' (w w' : W) pend cl :
    release_locked (r, w) = (Ok ps, (r', w')) -> step (Sys r pend cl) (Sys r' (pend ++ ps) cl)
| step_close ps r r' (w w' : W) pend cl :
    close_locked (r, w) = (Ok (Some ps), (r', w')) -> step (Sys r pend cl) (Sys r' (pend ++ ps) cl)
| step_close_provider n r pend pend' cl :
    pend ≡ₚ n :: pend' -> step (Sys r pend cl) (Sys r pend' (cl ++ [n])).

Inductive reachable (owns last : bool) : sys -> Prop :=
| reach_init r : init owns last = Ok r -> reachable owns last (Sys r [] [])
| reach_step s s' : reachable owns last s -> step s s' -> reachable owns last s'.

(** Nobody can use the providers of the registry any more. *)
Definition over (r : tls_registry) : Prop := owns_providers r = true /\ r_closed r = true /\ manager_leases r = 0.
#[export] Instance over_dec r : Decision (over r).
Proof. unfold over. apply _. Defined.
Definition numbers (r : tls_registry) : list nat := map snd (providers r).

Record inv (s : sys) : Prop := {
  i_names : Forall (fun e => fst e = name_of (snd e)) (providers (s_reg s));
  i_nodup : NoDup (map fst (providers (s_reg s)));
  i_leases : 0 <= manager_leases (s_reg s);
  i_before : ~ over (s_reg s) -> s_pending s = [] /\ s_closed s = [] /\ provider_close_started (s_reg s) = ∅;
  i_after : over (s_reg s) -> s_closed s ++ s_pending s ≡ₚ numbers (s_reg s) /\
    forall name, name ∈ map fst (providers (s_reg s)) -> name ∈ provider_close_started (s_reg s);
}.

(** The providers that a section hands out for closing. *)
Lemma pending_all ps : forall started,
  NoDup (map fst ps) -> (forall name, name ∈ map fst ps -> name ∉ started) ->
  exists started', pending_providers ps started = (map snd ps, started') /\
    forall name, name ∈ map fst ps \/ name ∈ started -> name ∈ started'.
Proof.
  induction ps as [|[name n] ps IH]; intros started Hn Hs; cbn [pending_providers map fst snd].
  { exists started. split; [done|]. intros name [H|?]; [by apply elem_of_nil in H|done]. }
  apply NoDup_cons in Hn as [Hni Hn]. rewrite bool_decide_eq_false_2 by (apply Hs; by left).
  destruct (IH ({[ name ]} ∪ started) Hn) as (started' & -> & H).
  { intros x Hx. rewrite elem_of_union, elem_of_singleton. intros [->|Hin]; [done|]. apply (Hs x); [by right|done]. }
  exists started'. split; [done|]. intros x [Hx|Hx]; apply H.
  - cbn [map fst] in Hx. apply elem_of_cons in Hx as [->|Hx]; [right; set_solver|by left].
  - right. set_solver.
Qed.

Lemma pending_none ps started :
  (forall name, name ∈ map fst ps -> name ∈ started) -> pending_providers ps started = ([], started).
Proof.
  induction ps as [|[name n] ps IH]; intros Hs; cbn [pending_providers]; [done|].
  rewrite bool_decide_eq_true_2 by (apply Hs; by left). apply IH. intros x Hx. apply Hs. by right.
Qed.

(** A registry as its sections leave it before they look for providers to close. *)
Lemma to_close_run r (w : W) ps r' w' pend cl :
  providers_to_close (r, w) = (Ok ps, (r', w')) ->
  Forall (fun e => fst e = name_of (snd e)) (providers r) -> NoDup (map fst (providers r)) -> 0 <= manager_leases r ->
  pend = [] /\ cl = [] /\ provider_close_started r = ∅ -> inv (Sys r' (pend ++ ps) cl).
Proof.
  unfold providers_to_close, bind, the_registry. cbn [fst]. intros E H1 H2 H3 (-> & -> & Hst). cbn [app].
  destruct (negb (owns_providers r) || negb (r_closed r) || negb (manager_leases r =? 0)) eqn:Eo.
  - injection E as <- <- _. assert (~ over r) as Hno.
    { intros (E1 & E2 & Hz). by rewrite E1, E2, Hz in Eo. }
    split; cbn [s_reg s_pending s_closed]; done.
  - assert (over r) as Ho by (unfold over; b2p; done).
    destruct (pending_all (providers r) (provider_close_started r) H2) as (started & Ep & Hall).
    { intros name _. rewrite Hst. apply not_elem_of_empty. }
    rewrite Ep in E. injection E as <- <- _. split; cbn [s_reg s_pending s_closed set_started providers manager_leases provider_close_started];
      [done|done|done|by intros []|]. intros _. split; [done|]. intros name Hin. apply Hall. by left.
Qed.

Lemma reg_inv_same r r' pend cl :
  inv (Sys r pend cl) -> providers r' = providers r -> owns_providers r' = owns_providers r -> r_closed r' = r_closed r ->
  manager_leases r' = manager_leases r -> provider_close_started r' = provider_close_started r -> inv (Sys r' pend cl).
Proof.
  intros [H1 H2 H3 H4 H5] E1 E2 E3 E4 E5. cbn [s_reg s_pending s_closed] in *.
  split; cbn [s_reg s_pending s_closed]; unfold numbers, over; rewrite ?E1, ?E2, ?E3, ?E4, ?E5; done.
Qed.

Lemma lookup_none name ps : lookup name ps = None -> name ∉ map fst ps.
Proof.
  unfold lookup. destruct (List.find _ ps) as [e|] eqn:E; [done|]. intros _ Hin.
  apply list_elem_of_In, in_map_iff in Hin as (e & He & Hin). pose proof (find_none _ _ E e Hin) as Hf. cbn beta in Hf.
  by unfold str_eqb in Hf; b2p.
Qed.

Lemma inv_register n res r r' (w w' : W) pend cl :
  register prov n (r, w) = (res, (r', w')) -> inv (Sys r pend cl) -> inv (Sys r' pend cl).
Proof.
  unfold register, bind, info_of, the_registry, lift, raise. cbn [fst snd].
  destruct (check_provider _ _ _); [|by intros [= _ <- _]]. cbn [fst snd].
  destruct (r_closed r) eqn:Ec; [by intros [= _ <- _]|]. rewrite names_fixed.
  destruct (bool_decide_reflect (is_Some (lookup (name_of n) (providers r)))) as [Hs|Hs]; [by intros [= _ <- _]|].
  intros [= _ <- _] [H1 H2 H3 H4 H5]. cbn [s_reg s_pending s_closed] in *.
  assert (name_of n ∉ map fst (providers r)) as Hni by (apply lookup_none; by apply eq_None_not_Some).
  split; cbn [s_reg s_pending s_closed fst snd set_entries providers manager_leases provider_close_started].
  - apply Forall_app. split; [done|]. by apply Forall_singleton.
  - rewrite map_app. cbn. apply NoDup_app. split_and!; [done| |apply NoDup_singleton].
    intros x Hx ->%list_elem_of_singleton. done.
  - done.
  - intros Hno. by apply H4.
  - intros (_ & Hcl & _). cbn in Hcl. congruence.
Qed.

Lemma lookup_locked_run name production r (w : W) :
  exists res, lookup_locked name production (r, w) = (res, (r, w)) /\ (r_closed r = true -> exists e, res = Raise e).
Proof.
  unfold lookup_locked, bind, the_registry, raise, ret. cbn [fst]. destruct (r_closed r); [by eexists; split; [|eauto]|].
  destruct (lookup name (providers r)); [|by eexists]. destruct (r_provider_info r !! name); [|by eexists].
  by destruct (_ && _); eexists.
Qed.

Lemma reg_inv_acquire name production res r r' (w w' : W) pend cl :
  acquire_locked name production (r, w) = (res, (r', w')) -> inv (Sys r pend cl) -> inv (Sys r' pend cl).
Proof.
  unfold acquire_locked, bind. destruct (lookup_locked_run name production r w) as (lr & -> & Hcl).
  destruct lr as [n|e]; [|by intros [= _ <- _]]. intros [= _ <- _] [H1 H2 H3 H4 H5]. cbn [s_reg s_pending s_closed] in *.
  assert (r_closed r = false) as Ec by (destruct (r_closed r); [by destruct (Hcl eq_refl)|done]).
  assert (~ over r) as Hno by (intros (_ & H & _); congruence).
  split; cbn [s_reg s_pending s_closed fst snd set_leases providers manager_leases provider_close_started]; [done|done|lia|by intros _; apply H4|].
  intros (_ & H & _). cbn in H. congruence.
Qed.

(** A change of leases or of the closed flag, after which the section looks for providers. *)
Lemma inv_handout r r1 (w : W) ps r' w' pend cl :
  inv (Sys r pend cl) -> ~ over r -> providers r1 = providers r -> provider_close_started r1 = provider_close_started r ->
  0 <= manager_leases r1 -> providers_to_close (r1, w) = (Ok ps, (r', w')) -> inv (Sys r' (pend ++ ps) cl).
Proof.
  intros [H1 H2 H3 H4 _] Hno E1 E2 Hl E. cbn [s_reg s_pending s_closed] in *.
  apply (to_close_run r1 w ps r' w' pend cl E); rewrite ?E1, ?E2; [done|done|done|by apply H4].
Qed.

Lemma reg_inv_step s s' : inv s -> step s s' -> inv s'.
Proof.
  intros Hi Hs. destruct Hs as [n res r r' w w' pend cl E|name production res r r' w w' pend cl E|infos r pend cl
    |ps r r' w w' pend cl E|ps r r' w w' pend cl E|n r pend pend' cl Hp].
  - by eapply inv_register.
  - by eapply reg_inv_acquire.
  - by eapply reg_inv_same.
  - revert E. unfold release_locked, bind at 1, the_registry. cbn [fst]. destruct (manager_leases r <=? 0) eqn:El; [done|]. b2p.
    unfold upd at 1, modify at 1, bind at 1. cbn [fst snd].
    assert (~ over r) as Hno by (intros (_ & _ & Hz); lia).
    destruct (close_on_last_manager r && _); unfold bind at 1; cbn; intros E; (eapply inv_handout; [exact Hi|done| | | |exact E]; cbn; [done|done|lia]).
  - revert E. unfold close_locked, bind at 1, the_registry. cbn [fst]. destruct (r_closed r) eqn:Ec; [done|].
    unfold upd, modify, bind at 1. cbn [fst snd]. unfold bind. destruct (providers_to_close _) as [[q|e] [r2 w2]] eqn:E; [|done].
    intros [= <- <- _]. eapply inv_handout; [exact Hi| | | | |exact E]; [intros (_ & Hc & _); congruence|done|done|apply Hi].
  - destruct Hi as [H1 H2 H3 H4 H5]. cbn [s_reg s_pending s_closed] in *.
    split; cbn [s_reg s_pending s_closed]; [done|done|done| |].
    + intros Hno. destruct (H4 Hno) as (-> & _). by apply Permutation_nil_cons in Hp.
    + intros Ho. destruct (H5 Ho) as [Hperm Hall]. split; [|done]. rewrite <- Hperm, Hp, <- app_assoc. done.
Qed.

Lemma reg_reachable_inv owns last s : reachable owns last s -> inv s.
Proof.
  induction 1 as [r Hr|s s' _ IH Hs]; [|by eapply reg_inv_step]. revert Hr. unfold init. destruct (_ && _); [done|].
  intros [= <-]. split; cbn [s_reg s_pending s_closed providers manager_leases provider_close_started map]; [constructor|constructor|done|done|].
  intros (_ & H & _). done.
Qed.

Lemma numbers_nodup s : inv s -> NoDup (numbers (s_reg s)).
Proof.
  intros [H1 H2 _ _ _]. unfold numbers. revert H2. induction H1 as [|[name n] ps He H1 IH]; cbn [map fst snd]; [constructor|].
  intros [Hni Hn]%NoDup_cons. constructor; [|by apply IH]. intros Hin. apply Hni. apply list_elem_of_In, in_map_iff in Hin as ([name' n'] & <- & Hin).
  rewrite Forall_forall in H1. pose proof (H1 _ (proj2 (list_elem_of_In _ _) Hin)) as E'. cbn [fst snd] in *. subst.
  apply list_elem_of_In, in_map_iff. by exists (name_of n', n').
Qed.

(** C33: In every interleaving of registrations, leases, releases and closes, the providers
    handed out for closing are distinct and registered; there are none until the registry
    owns its providers, is closed and has no lease left, and then they are all of its
    providers; from then on no lease can be taken. *)
Theorem providers_closed_once owns last s :
  reachable owns last s ->
  NoDup (s_closed s ++ s_pending s) /\
  (forall n, n ∈ s_closed s ++ s_pending s -> over (s_reg s) /\ n ∈ numbers (s_reg s)) /\
  (over (s_reg s) -> s_closed s ++ s_pending s ≡ₚ numbers (s_reg s) /\
     forall name production (w : W), exists e r', acquire_manager prov name production (s_reg s, w) = (Raise e, r')).
Proof.
  intros Hi%reg_reachable_inv. pose proof (numbers_nodup _ Hi) as Hn. pose proof Hi as [H1 H2 H3 H4 H5].
  split; [|split].
  - destruct (decide (over (s_reg s))) as [Ho|Hno]; [by rewrite (proj1 (H5 Ho))|]. destruct (H4 Hno) as (-> & -> & _). constructor.
  - intros n Hin. destruct (decide (over (s_reg s))) as [Ho|Hno]; [by rewrite (proj1 (H5 Ho)) in Hin|]. destruct (H4 Hno) as (Ep & Ec & _).
    rewrite Ep, Ec in Hin. by apply elem_of_nil in Hin.
  - intros Ho. split; [by apply H5|]. intros name production w. unfold acquire_manager, acquire_locked, bind at 1, bind at 1.
    destruct (lookup_locked_run name production (s_reg s) w) as (lr & -> & Hcl). destruct Ho as (_ & Hc & _).
    destruct (Hcl Hc) as (e & ->). by eexists _, _.
Qed.
End registry.

(** ** Witness *)

(** A manager takes a lease, the registry is closed, the lease is released. *)
Definition sample_provider : tls_provider nat nat unit :=
  Provider (fun _ => MkProviderInfo (py "native") 1 (py "so") (py "MIT") (py "native") true [] [] [] [] [] 0)
    (fun _ _ => ret None) (fun _ _ => ret None) (fun _ => ret None) (fun _ _ => ret None) (fun _ => ret None)
    (fun _ _ _ => ret None) (fun _ _ _ => ret None) (fun _ => ret None)
    (fun _ => ret tt) (fun _ => ret tt) (fun _ => true) true (ret tt) (ret tt).

Lemma providers_closed_once_witness : exists s,
  reachable (fun _ : nat => sample_provider) true false s /\ s_pending s = [0%nat] /\ over (s_reg s) /\
  NoDup (s_closed s ++ s_pending s).
Proof.
  assert (exists s, reachable (fun _ : nat => sample_provider) true false s /\ s_pending s = [0%nat] /\ over (s_reg s))
    as (s & Hr & Hp & Ho).
  { eexists. split; [|split].
    - eapply reach_step; [eapply reach_step; [eapply reach_step; [eapply reach_step; [apply reach_init; reflexivity|]|]|]|].
      + eapply (step_register _ 0%nat _ _ _ tt). vm_compute. reflexivity.
      + eapply (step_acquire _ (py "native") true _ _ _ tt). vm_compute. reflexivity.
      + eapply (step_close _ _ _ _ tt). vm_compute. reflexivity.
      + eapply (step_release _ _ _ _ tt). vm_compute. reflexivity.
    - reflexivity.
    - split; [reflexivity|split; reflexivity]. }
  exists s. split; [exact Hr|]. split; [exact Hp|]. split; [exact Ho|].
  exact (proj1 (providers_closed_once (fun _ : nat => sample_provider) (fun _ => py "native") (fun _ _ => eq_refl) true false s Hr)).
Defined.
