(* ===== verification/TlsNative.v ===== *)
(** * The production TLS provider ([PccNativeTlsProvider] of [pcc_gateway/tls.py])

    The adapter between the provider interface and a native library: activation of the
    library, the request block of each call and the checks on what comes back, and the
    accounting that keeps the library loaded while it is in use.  The library, the dynamic
    loader, file hashing and the conversion of native text are outside code: the record
    [native].  The provider as a whole is the record [provider] of the interface. *)

From S2P Require Import Prelude PyStr Config Tls TlsGeneration.
#[local] Open Scope Z_scope.

Definition TLS_MAX_PROVIDER_PATH : Z := 4096.
Definition PCC_NATIVE_TLS_PROVIDER_NAME : str := py "pcc-native-tls-v1".
Definition PCC_NATIVE_TLS_ABI_VERSION : Z := 1.
Definition PCC_NATIVE_TLS_ABI_NAME : str := py "pcc-tls-native-provider-v1".

Definition PCC_TLS_OP_PROBE : Z := 0.
Definition PCC_TLS_OP_CONTEXT_CREATE : Z := 1.
Definition PCC_TLS_OP_CONTEXT_FREE : Z := 2.
Definition PCC_TLS_OP_CONNECTION_CREATE : Z := 3.
Definition PCC_TLS_OP_CONNECTION_FREE : Z := 4.
Definition PCC_TLS_OP_HANDSHAKE : Z := 5.
Definition PCC_TLS_OP_SET_CONTEXT : Z := 6.
Definition PCC_TLS_OP_SELECTED_ALPN : Z := 7.
Definition PCC_TLS_OP_READ : Z := 8.
Definition PCC_TLS_OP_WRITE : Z := 9.
Definition PCC_TLS_OP_CLOSE_NOTIFY : Z := 10.

Definition PCC_TLS_CAP_CLIENT_CERTIFICATE : Z := Z.shiftl 1 8.
(** Bits 0 to 7: TLS 1.2 and 1.3, chain, key, SNI, ALPN, nonblocking, close-notify. *)
Definition PCC_TLS_REQUIRED_CAPABILITIES : Z :=
  Z.lor (Z.shiftl 1 0) (Z.lor (Z.shiftl 1 1) (Z.lor (Z.shiftl 1 2) (Z.lor (Z.shiftl 1 3)
    (Z.lor (Z.shiftl 1 4) (Z.lor (Z.shiftl 1 5) (Z.lor (Z.shiftl 1 6) (Z.shiftl 1 7))))))).

Definition REQUEST_BYTES : Z := 160.
Definition REQ_SIZE : Z := 0.
Definition REQ_ABI : Z := 8.
Definition REQ_OPERATION : Z := 16.
Definition REQ_STATUS : Z := 24.
Definition REQ_ERROR : Z := 32.
Definition REQ_PRIMARY : Z := 40.
Definition REQ_SECONDARY : Z := 48.
Definition REQ_INPUT0 : Z := 56.
Definition REQ_INPUT0_LEN : Z := 64.
Definition REQ_INPUT1 : Z := 72.
Definition REQ_INPUT1_LEN : Z := 80.
Definition REQ_INPUT2 : Z := 88.
Definition REQ_INPUT2_LEN : Z := 96.
Definition REQ_OUTPUT0 : Z := 104.
Definition REQ_OUTPUT0_CAP : Z := 112.
Definition REQ_OUTPUT0_LEN : Z := 120.
Definition REQ_FLAGS : Z := 128.
Definition REQ_INPUT3 : Z := 144.
Definition REQ_INPUT3_LEN : Z := 152.

(** A request block: its 64-bit words by offset, zero where nothing was stored; a pointer
    is a word, null is 0. *)
Definition block : Type := gmap Z Z.
Definition load (request : block) (offset : Z) : Z := default 0 (request !! offset).
Definition store (offset value : Z) (request : block) : block := <[offset := value]> request.

(** [_request(operation)] *)
Definition new_request (operation : Z) : block :=
  store REQ_OPERATION operation (store REQ_ABI PCC_NATIVE_TLS_ABI_VERSION (store REQ_SIZE REQUEST_BYTES ∅)).

(** The code that is not in the repository. *)
Record native (W : Type) := Native {
  sha256_file : str -> Z -> M W str;
  library_open : str -> M W Z;
  library_symbol : Z -> str -> M W Z;
  library_close : Z -> M W unit;
  entry_call : Z -> Z -> block -> M W (Z * block); (* entrypoint, operation, request *)
  scratch : Z -> M W Z;                   (* [stack_alloc] of an output area *)
  text_at : Z -> Z -> M W str;            (* [py_str_new] of native bytes *)
  text_pointer : str -> Z;                (* [py_str_utf8] *)
  text_bytes : str -> Z;                  (* [py_str_byte_len] *)
  data_pointer : bytes -> Z;
  output_pointer : Z -> Z;                (* of the caller's output buffer *)
}.
Arguments Native {W}.
Arguments sha256_file {W}.
Arguments library_open {W}.
Arguments library_symbol {W}.
Arguments library_close {W}.
Arguments entry_call {W}.
Arguments scratch {W}.
Arguments text_at {W}.
Arguments text_pointer {W}.
Arguments text_bytes {W}.
Arguments data_pointer {W}.
Arguments output_pointer {W}.

Record native_provider := MkNative {
  np_library_path : str;
  np_expected_sha256 : str;
  np_verified_sha256 : str;
  np_max_bytes : Z;
  library_handle : option Z;
  entrypoint : option Z;
  capabilities : Z;
  np_implementation_id : str;
  activated : bool;
  active_contexts : Z;
  active_sessions : Z;
  pending_resources : Z;
  active_calls : Z;
  close_requested : bool;
  np_closed : bool;
}.

(** [_PccNativeTlsContext] and [_PccNativeTlsSession]; [handle] is [None] once released. *)
Record native_object := MkObject { handle : option Z; object_certificate : str; object_released : bool }.

Record native_state := NativeState {
  np : native_provider;
  n_contexts : list native_object;
  n_sessions : list native_object;
}.

(** [PccNativeTlsProvider(library_path, expected_library_sha256, library_max_bytes)] *)
Definition make_native (library_path expected_sha256 : str) (max_bytes : Z) : result native_state :=
  if bool_decide (library_path = []) then Raise (TlsProviderError (py "native TLS provider library path is required"))
  else if negb (starts_with (py "/") library_path) || char_in 0 library_path
  then Raise (TlsProviderError (py "native TLS provider library path must be absolute and NUL-free"))
  else if len library_path >? TLS_MAX_PROVIDER_PATH
  then Raise (TlsProviderError (py "native TLS provider library path is too long"))
  else if negb (valid_sha256_hex expected_sha256)
  then Raise (TlsProviderError (py "native TLS provider expected SHA-256 must be 64 lowercase hexadecimal characters"))
  else if (max_bytes <=? 0) || (max_bytes >? 9223372036854775807)
  then Raise (TlsProviderError (py "native TLS provider byte limit is out of range"))
  else Ok (NativeState
             (MkNative library_path expected_sha256 [] max_bytes None None 0 (py "unprobed") false 0 0 0 0 false false) [] []).

Module Native.
Section native.
Context {W : Type} (x : native W).
Abbreviation NM := (M (native_state * W)).

Definition upd (f : native_provider -> native_provider) : NM unit :=
  modify (fun t => (NativeState (f (np (fst t))) (n_contexts (fst t)) (n_sessions (fst t)), snd t)).
Definition the_provider : NM native_provider := fun t => (Ok (np (fst t)), t).
Definition outside {A} (m : M W A) : NM A := zoom snd (fun w t => (fst t, w)) m.

(** The counters and flags the sections assign. *)
Definition set_counts (c s p k : Z) (n : native_provider) : native_provider :=
  MkNative (np_library_path n) (np_expected_sha256 n) (np_verified_sha256 n) (np_max_bytes n) (library_handle n)
    (entrypoint n) (capabilities n) (np_implementation_id n) (activated n) c s p k (close_requested n) (np_closed n).
Definition add_calls (d : Z) (n : native_provider) : native_provider :=
  set_counts (active_contexts n) (active_sessions n) (pending_resources n) (active_calls n + d) n.
Definition add_pending (d : Z) (n : native_provider) : native_provider :=
  set_counts (active_contexts n) (active_sessions n) (pending_resources n + d) (active_calls n) n.
Definition add_contexts (d : Z) (n : native_provider) : native_provider :=
  set_counts (active_contexts n + d) (active_sessions n) (pending_resources n) (active_calls n) n.
Definition add_sessions (d : Z) (n : native_provider) : native_provider :=
  set_counts (active_contexts n) (active_sessions n + d) (pending_resources n) (active_calls n) n.
Definition set_close_requested (n : native_provider) : native_provider :=
  MkNative (np_library_path n) (np_expected_sha256 n) (np_verified_sha256 n) (np_max_bytes n) (library_handle n)
    (entrypoint n) (capabilities n) (np_implementation_id n) (activated n) (active_contexts n) (active_sessions n)
    (pending_resources n) (active_calls n) true (np_closed n).
Definition set_unloaded (n : native_provider) : native_provider :=
  MkNative (np_library_path n) (np_expected_sha256 n) (np_verified_sha256 n) (np_max_bytes n) None
    None (capabilities n) (np_implementation_id n) false (active_contexts n) (active_sessions n)
    (pending_resources n) (active_calls n) (close_requested n) true.
Definition set_loaded (library entry caps : Z) (identity sha : str) (n : native_provider) : native_provider :=
  MkNative (np_library_path n) (np_expected_sha256 n) sha (np_max_bytes n) (Some library)
    (Some entry) caps identity true (active_contexts n) (active_sessions n)
    (pending_resources n) (active_calls n) (close_requested n) (np_closed n).

(** ** Accounting *)

(** [_take_library_to_close_locked] *)
Definition take_library : NM (option Z) :=
  let! n := the_provider in
  if negb (close_requested n) || np_closed n || negb (active_contexts n =? 0) || negb (active_sessions n =? 0)
     || negb (pending_resources n =? 0) || negb (active_calls n =? 0)
  then ret None
  else upd set_unloaded ;;! ret (library_handle n).
Definition close_library (library : option Z) : NM unit :=
  match library with Some l => outside (library_close x l) | None => ret tt end.

Definition finish_call_locked : NM (option Z) :=
  let! n := the_provider in
  if active_calls n <=? 0 then raise (TlsProviderError (py "native TLS provider call accounting underflow"))
  else upd (add_calls (-1)) ;;! take_library.
Definition finish_call : NM unit := let! l := finish_call_locked in close_library l.

Definition begin_call : NM Z :=
  let! n := the_provider in
  match entrypoint n with
  | Some e =>
      if np_closed n || (e =? 0) then raise (TlsProviderError (py "native TLS provider is not activated"))
      else upd (add_calls 1) ;;! ret e
  | None => raise (TlsProviderError (py "native TLS provider is not activated"))
  end.

Definition reserve_resource : NM unit :=
  let! n := the_provider in
  if close_requested n || np_closed n then raise (TlsProviderError (py "native TLS provider is closing"))
  else upd (add_pending 1).

Definition publish_resource (resource_kind : str) : NM unit :=
  let! n := the_provider in
  if pending_resources n <=? 0 then raise (TlsProviderError (py "native TLS provider resource accounting underflow"))
  else
    upd (add_pending (-1)) ;;!
    if str_eqb resource_kind (py "context") then upd (add_contexts 1)
    else if str_eqb resource_kind (py "session") then upd (add_sessions 1)
    else raise (TlsProviderError (py "unknown native TLS provider resource kind")).

Definition cancel_locked : NM (option Z) :=
  let! n := the_provider in
  if pending_resources n <=? 0 then raise (TlsProviderError (py "native TLS provider resource accounting underflow"))
  else upd (add_pending (-1)) ;;! take_library.
Definition cancel_resource : NM unit := let! l := cancel_locked in close_library l.

Definition release_locked (resource_kind : str) : NM (option Z) :=
  let! n := the_provider in
  (if str_eqb resource_kind (py "context") then
     if active_contexts n <=? 0 then raise (TlsProviderError (py "native TLS provider context accounting underflow"))
     else upd (add_contexts (-1))
   else if str_eqb resource_kind (py "session") then
     if active_sessions n <=? 0 then raise (TlsProviderError (py "native TLS provider session accounting underflow"))
     else upd (add_sessions (-1))
   else raise (TlsProviderError (py "unknown native TLS provider resource kind"))) ;;!
  take_library.
Definition release_resource (resource_kind : str) : NM unit :=
  let! l := release_locked resource_kind in close_library l.

(** [close]: the section, then the library if nothing keeps it. *)
Definition close_locked : NM (option (option Z * bool)) :=
  let! n := the_provider in
  if np_closed n || close_requested n then ret None
  else
    upd set_close_requested ;;!
    let! l := take_library in
    let! n := the_provider in
    ret (Some (l, np_closed n)).
Definition close : NM Z :=
  let! c := close_locked in
  match c with
  | None => ret 0
  | Some (library, closed_now) => close_library library ;;! ret (if closed_now then 1 else 0)
  end.

(** ** Calls *)

Definition known (status : Z) : bool :=
  (status =? TLS_OK) || (status =? TLS_WANT_READ) || (status =? TLS_WANT_WRITE) || (status =? TLS_CLOSED)
  || (status =? TLS_SELECT_SNI) || (status =? TLS_ERROR).

Definition invoke_entrypoint (entry operation : Z) (request : block) : NM (Z * block) :=
  let! r := outside (entry_call x entry operation request) in
  let '(status, request) := r in
  if negb (load request REQ_STATUS =? status)
  then raise (TlsProviderError (py "native TLS provider returned inconsistent operation status"))
  else if negb (known status) then raise (TlsProviderError (py "native TLS provider returned unknown status"))
  else ret (status, request).

Definition invoke (operation : Z) (request : block) : NM (Z * block) :=
  let! entry := begin_call in
  try_finally (invoke_entrypoint entry operation request) finish_call.

(** [_result(status, request, count, server_name)] *)
Definition native_result (status : Z) (request : block) (count : Z) (server_name : str) : TlsResult :=
  let error_code := load request REQ_ERROR in
  if status =? TLS_ERROR then
    make_result status count
      (if (error_code <=? TLS_ERR_NONE) || (error_code >? TLS_ERR_INTERNAL) then TLS_ERR_PROVIDER_CONTRACT else error_code)
      (py "native provider operation failed") server_name
  else if negb (error_code =? TLS_ERR_NONE) then
    make_result TLS_ERROR 0 TLS_ERR_PROVIDER_CONTRACT (py "native provider mixed success status and error") []
  else make_result status count error_code [] server_name.

Definition read_text (request : block) (storage capacity : Z) : NM str :=
  let length := load request REQ_OUTPUT0_LEN in
  if (length <? 0) || (length >=? capacity)
  then raise (TlsProviderError (py "native TLS provider returned invalid text length"))
  else if length =? 0 then ret []
  else outside (text_at x storage length).

(** ** Activation *)

(** The first section: [true] when there is nothing to do. *)
Definition activate_locked : NM bool :=
  let! n := the_provider in
  if activated n && negb (np_closed n) then ret true
  else if close_requested n || np_closed n then raise (TlsProviderError (py "native TLS provider is closed"))
  else ret false.
(** The last section: [true] when the library is the provider's. *)
Definition publish_library (library entry caps : Z) (identity sha : str) : NM bool :=
  let! n := the_provider in
  if negb (close_requested n) && negb (np_closed n)
  then upd (set_loaded library entry caps identity sha) ;;! ret true
  else ret false.

(** The probe of an opened library: its entrypoint, capabilities and identity. *)
Definition probe_library (library : Z) : NM (Z * Z * str) :=
  let! entry := outside (library_symbol x library (py "pcc_tls_provider_v1_call")) in
  if entry =? 0 then raise (TlsProviderError (py "native TLS provider entrypoint is missing"))
  else
    let! storage := outside (scratch x 65) in
    let! r := invoke_entrypoint entry PCC_TLS_OP_PROBE
                (store REQ_OUTPUT0_CAP 64 (store REQ_OUTPUT0 storage (new_request PCC_TLS_OP_PROBE))) in
    let '(status, request) := r in
    if negb (status =? TLS_OK) then raise (TlsProviderError (py "native TLS provider ABI probe failed"))
    else
      let caps := load request REQ_FLAGS in
      if negb (Z.land caps PCC_TLS_REQUIRED_CAPABILITIES =? PCC_TLS_REQUIRED_CAPABILITIES)
      then raise (TlsProviderError (py "native TLS provider is missing required capabilities"))
      else
        let! identity := read_text request storage 65 in
        if bool_decide (identity = []) || (len identity >? 64)
        then raise (TlsProviderError (py "native TLS provider identity is invalid"))
        else ret (entry, caps, identity).

Definition activate : NM unit :=
  let! done := activate_locked in
  if done : bool then ret tt
  else
    let! n := the_provider in
    let! sha := try_except (outside (sha256_file x (np_library_path n) (np_max_bytes n)))
                  (fun _ => raise (TlsProviderError (py "native TLS provider library hashing failed"))) in
    if negb (valid_sha256_hex sha)
    then raise (TlsProviderError (py "native TLS provider library could not be hashed within the configured byte limit"))
    else if negb (str_eqb sha (np_expected_sha256 n))
    then raise (TlsProviderError (py "native TLS provider library SHA-256 mismatch"))
    else
      let! library := outside (library_open x (np_library_path n)) in
      if library =? 0 then raise (TlsProviderError (py "native TLS provider library could not be opened"))
      else
        try_except
          (let! probed := probe_library library in
           let '(entry, caps, identity) := probed in
           let! published := publish_library library entry caps identity sha in
           if published : bool then ret tt
           else raise (TlsProviderError (py "native TLS provider closed during activation")))
          (fun error => outside (library_close x library) ;;! raise error).

(** ** Contexts and sessions *)

Definition alpn_wire (protocols : list str) : str :=
  fold_left (fun output protocol => output ++ (str_of_int (len protocol) ++ py ":" ++ protocol)) protocols [].

(** The checks of [create_server_context] on its arguments. *)
Definition check_paths (n : native_provider) (config : TlsConfig) (c : TlsCertificate) : result unit :=
  if require_client_certificate config && (Z.land (capabilities n) PCC_TLS_CAP_CLIENT_CERTIFICATE =? 0)
  then Raise (TlsProviderError (py "native TLS provider cannot verify client certificates"))
  else if char_in 0 (certificate c) || char_in 0 (private_key c)
  then Raise (TlsProviderError (py "native TLS certificate paths contain NUL"))
  else if negb (starts_with (py "/") (certificate c)) || negb (starts_with (py "/") (private_key c))
  then Raise (TlsProviderError (py "native TLS certificate and key paths must be absolute"))
  else if negb (bool_decide (client_ca config = [])) && negb (starts_with (py "/") (client_ca config))
  then Raise (TlsProviderError (py "native TLS client CA path must be absolute"))
  else if (text_bytes x (certificate c) >? TLS_MAX_PROVIDER_PATH) || (text_bytes x (private_key c) >? TLS_MAX_PROVIDER_PATH)
          || (text_bytes x (client_ca config) >? TLS_MAX_PROVIDER_PATH)
  then Raise (TlsProviderError (py "native TLS certificate path is too long"))
  else Ok tt.

Definition context_request (config : TlsConfig) (c : TlsCertificate) : block :=
  let alpn := alpn_wire (cfg_alpn config) in
  store REQ_FLAGS (if require_client_certificate config then 1 else 0)
    (store REQ_INPUT3_LEN (text_bytes x (client_ca config)) (store REQ_INPUT3 (text_pointer x (client_ca config))
    (store REQ_INPUT2_LEN (text_bytes x alpn) (store REQ_INPUT2 (text_pointer x alpn)
    (store REQ_INPUT1_LEN (text_bytes x (private_key c)) (store REQ_INPUT1 (text_pointer x (private_key c))
    (store REQ_INPUT0_LEN (text_bytes x (certificate c)) (store REQ_INPUT0 (text_pointer x (certificate c))
    (new_request PCC_TLS_OP_CONTEXT_CREATE))))))))).

(** A call that must give a native handle; a failure gives up the reservation. *)
Definition create_handle (operation : Z) (request : block) (rejected null : str) : NM Z :=
  try_except
    (let! r := invoke operation request in
     let '(status, request) := r in
     if negb (status =? TLS_OK) then raise (TlsProviderError rejected)
     else
       let handle := load request REQ_PRIMARY in
       if handle =? 0 then raise (TlsProviderError null) else ret handle)
    (fun error => cancel_resource ;;! raise error).

Definition new_context (handle : Z) (certificate_id : str) : NM nat := fun t =>
  (Ok (length (n_contexts (fst t))),
   (NativeState (np (fst t)) (n_contexts (fst t) ++ [MkObject (Some handle) certificate_id false]) (n_sessions (fst t)), snd t)).
Definition new_session (handle : Z) : NM nat := fun t =>
  (Ok (length (n_sessions (fst t))),
   (NativeState (np (fst t)) (n_contexts (fst t)) (n_sessions (fst t) ++ [MkObject (Some handle) [] false]), snd t)).

Definition create_server_context (config : TlsConfig) (c : TlsCertificate) : NM (option nat) :=
  activate ;;!
  let! n := the_provider in
  lift (check_paths n config c) ;;!
  reserve_resource ;;!
  let! h := create_handle PCC_TLS_OP_CONTEXT_CREATE (context_request config c)
              (py "native TLS provider rejected certificate generation") (py "native TLS provider returned a null context") in
  publish_resource (py "context") ;;!
  let! o := new_context h (identifier c) in ret (Some o).

(** The handle of an object that is not released. *)
Definition live_handle (o : option native_object) : option Z :=
  match o with Some o => if object_released o then None else handle o | None => None end.
Definition context_handle (c : nat) : NM (option Z) := fun t => (Ok (live_handle (n_contexts (fst t) !! c)), t).
Definition session_handle (s : nat) : NM (option Z) := fun t => (Ok (live_handle (n_sessions (fst t) !! s)), t).

(** The section of [new_connection]: the context's handle, with a resource reserved. *)
Definition reserve_connection (context : nat) : NM Z :=
  let! h := context_handle context in
  match h with
  | None => raise (TlsProviderError (py "native TLS context is released"))
  | Some h =>
      let! n := the_provider in
      if close_requested n || np_closed n then raise (TlsProviderError (py "native TLS provider is closing"))
      else upd (add_pending 1) ;;! ret h
  end.
Definition new_connection (context : nat) (fd : Z) : NM (option nat) :=
  let! ch := reserve_connection context in
  let! h := create_handle PCC_TLS_OP_CONNECTION_CREATE
              (store REQ_SECONDARY fd (store REQ_PRIMARY ch (new_request PCC_TLS_OP_CONNECTION_CREATE)))
              (py "native TLS connection creation failed") (py "native TLS provider returned a null connection") in
  publish_resource (py "session") ;;!
  let! s := new_session h in ret (Some s).

Definition session_request (operation : Z) (session : nat) : NM block :=
  let! h := session_handle session in
  match h with
  | None => raise (TlsProviderError (py "native TLS connection is released"))
  | Some h => ret (store REQ_PRIMARY h (new_request operation))
  end.

Definition handshake (session : nat) : NM (option TlsResult) :=
  let! request := session_request PCC_TLS_OP_HANDSHAKE session in
  let! storage := outside (scratch x (TLS_MAX_SNI_NAME + 1)) in
  let! r := invoke PCC_TLS_OP_HANDSHAKE (store REQ_OUTPUT0_CAP TLS_MAX_SNI_NAME (store REQ_OUTPUT0 storage request)) in
  let '(status, request) := r in
  let! server_name := if status =? TLS_SELECT_SNI then read_text request storage (TLS_MAX_SNI_NAME + 1) else ret [] in
  ret (Some (native_result status request 0 server_name)).

Definition set_server_context (session context : nat) : NM (option TlsResult) :=
  let! c := context_handle context in
  match c with
  | None => ret (Some (tls_error TLS_ERR_PROVIDER (py "native TLS context is released")))
  | Some c =>
      let! request := session_request PCC_TLS_OP_SET_CONTEXT session in
      let! r := invoke PCC_TLS_OP_SET_CONTEXT (store REQ_SECONDARY c request) in
      let '(status, request) := r in ret (Some (native_result status request 0 []))
  end.

Definition selected_alpn (session : nat) : NM (option str) :=
  let! request := session_request PCC_TLS_OP_SELECTED_ALPN session in
  let! storage := outside (scratch x 256) in
  let! r := invoke PCC_TLS_OP_SELECTED_ALPN (store REQ_OUTPUT0_CAP 255 (store REQ_OUTPUT0 storage request)) in
  let '(status, request) := r in
  if negb (status =? TLS_OK) then raise (TlsProviderError (py "native TLS provider ALPN query failed"))
  else let! alpn := read_text request storage 256 in ret (Some alpn).

(** The length of a completed transfer. *)
Definition transfer_result (status : Z) (request : block) : TlsResult :=
  native_result status request (if status =? TLS_OK then load request REQ_OUTPUT0_LEN else 0) [].

(** [output] is a bytearray by its length, [data] bytes. *)
Definition read (session : nat) (output limit : Z) : NM (option TlsResult) :=
  let! request := session_request PCC_TLS_OP_READ session in
  let! r := invoke PCC_TLS_OP_READ (store REQ_OUTPUT0_CAP limit (store REQ_OUTPUT0 (output_pointer x output) request)) in
  let '(status, request) := r in ret (Some (transfer_result status request)).
Definition write (session : nat) (data : bytes) (length : Z) : NM (option TlsResult) :=
  let! request := session_request PCC_TLS_OP_WRITE session in
  let! r := invoke PCC_TLS_OP_WRITE (store REQ_INPUT0_LEN length (store REQ_INPUT0 (data_pointer x data) request)) in
  let '(status, request) := r in ret (Some (transfer_result status request)).
Definition close_notify (session : nat) : NM (option TlsResult) :=
  let! request := session_request PCC_TLS_OP_CLOSE_NOTIFY session in
  let! r := invoke PCC_TLS_OP_CLOSE_NOTIFY request in
  let '(status, request) := r in ret (Some (native_result status request 0 [])).

Definition released_object (o : native_object) : native_object := MkObject None (object_certificate o) true.
(** The sections that take the handle of an object: [None] when it was released before. *)
Definition take_context (c : nat) : NM (option Z) := fun t =>
  match n_contexts (fst t) !! c with
  | Some o =>
      if object_released o then (Ok None, t)
      else (Ok (Some (default 0 (handle o))),
            (NativeState (np (fst t)) (<[c := released_object o]> (n_contexts (fst t))) (n_sessions (fst t)), snd t))
  | None => (Ok None, t)
  end.
Definition take_session (s : nat) : NM (option Z) := fun t =>
  match n_sessions (fst t) !! s with
  | Some o =>
      if object_released o then (Ok None, t)
      else (Ok (Some (default 0 (handle o))),
            (NativeState (np (fst t)) (n_contexts (fst t)) (<[s := released_object o]> (n_sessions (fst t))), snd t))
  | None => (Ok None, t)
  end.
Definition free_handle (operation h : Z) (failed resource_kind : str) : NM unit :=
  try_finally
    (let! r := invoke operation (store REQ_PRIMARY h (new_request operation)) in
     if negb ((fst r =? TLS_OK) || (fst r =? TLS_CLOSED)) then raise (TlsProviderError failed) else ret tt)
    (release_resource resource_kind).
Definition free_connection (session : nat) : NM unit :=
  let! h := take_session session in
  match h with
  | None => ret tt
  | Some h => free_handle PCC_TLS_OP_CONNECTION_FREE h (py "native TLS connection cleanup failed") (py "session")
  end.
Definition free_context (context : nat) : NM unit :=
  let! h := take_context context in
  match h with
  | None => ret tt
  | Some h => free_handle PCC_TLS_OP_CONTEXT_FREE h (py "native TLS context cleanup failed") (py "context")
  end.

(** The class attributes and the snapshot of the identity. *)
Definition native_info (t : native_state * W) : TlsProviderInfo :=
  let n := np (fst t) in
  MkProviderInfo PCC_NATIVE_TLS_PROVIDER_NAME 1 (py "explicit-shared-library:pcc_tls_provider_v1_call;no-python-ssl;no-libpython")
    (py "provider-manifest-required")
    (py "native-provider-owns-tls-records-authentication-and-crypto;pcc-owns-nonblocking-io-scheduling-and-generation-lifetime")
    true PCC_NATIVE_TLS_ABI_NAME (np_implementation_id n) (np_library_path n) (np_expected_sha256 n) (np_verified_sha256 n) (np_max_bytes n).

(** The adapter as a provider of the interface. *)
Definition provider : tls_provider nat nat (native_state * W) :=
  Provider native_info create_server_context new_connection handshake set_server_context selected_alpn read write
    close_notify free_connection free_context (fun _ => true) true activate (close ;;! ret tt).

End native.
End Native.
