(* ===== verification/TlsNativeSpec.v ===== *)
(** * The native library stays loaded while it is used, and is unloaded once

    Threads run the methods of [PccNativeTlsProvider] concurrently; [step] is one section
    under its state lock, or one call of the dynamic loader.  The activation lock admits one
    activation at a time.  Also here: the protocol list sent to the library reads back. *)

From S2P Require Import Prelude PyStr PyLists Http1 PyStrFacts Http1Parse Http1Wire Tls.
From S2P Require Import TlsGeneration TlsNative.
#[local] Open Scope Z_scope.
Import Native.

(** What a thread has left to do. *)
Inductive task :=
| TCall                 (* inside a native call: finish it *)
| TReserved             (* a resource reserved: publish it or give it up *)
| TContext | TSession   (* a published resource: release it *)
| TActivating           (* activation: open the library *)
| TOpened (l : Z)       (* activation: probe the library, then publish or close it *)
| TUnload (l : Z).      (* close the library *)

Section system.
Context {W : Type}.
Abbreviation nstate := (native_state * W)%type.

Record sys := Sys { s_state : nstate; s_tasks : list task; s_opened : list Z; s_unloaded : list Z }.

Definition unloading (l : option Z) : list task := match l with Some l => [TUnload l] | None => [] end.
Definition activating (t : task) : bool := match t with TActivating | TOpened _ => true | _ => false end.
Definition resource (kind : str) : task := if str_eqb kind (py "context") then TContext else TSession.

Inductive step : sys -> sys -> Prop :=
| step_begin e t t' ts o u : begin_call t = (Ok e, t') -> step (Sys t ts o u) (Sys t' (TCall :: ts) o u)
| step_finish l t t' ts ts' o u :
    ts ≡ₚ TCall :: ts' -> finish_call_locked t = (Ok l, t') -> step (Sys t ts o u) (Sys t' (unloading l ++ ts') o u)
| step_reserve t t' ts o u : reserve_resource t = (Ok tt, t') -> step (Sys t ts o u) (Sys t' (TReserved :: ts) o u)
| step_connection c h t t' ts o u :
    reserve_connection c t = (Ok h, t') -> step (Sys t ts o u) (Sys t' (TReserved :: ts) o u)
| step_publish kind t t' ts ts' o u :
    ts ≡ₚ TReserved :: ts' -> publish_resource kind t = (Ok tt, t') ->
    step (Sys t ts o u) (Sys t' (resource kind :: ts') o u)
| step_cancel l t t' ts ts' o u :
    ts ≡ₚ TReserved :: ts' -> cancel_locked t = (Ok l, t') -> step (Sys t ts o u) (Sys t' (unloading l ++ ts') o u)
| step_release kind l t t' ts ts' o u :
    ts ≡ₚ resource kind :: ts' -> release_locked kind t = (Ok l, t') ->
    step (Sys t ts o u) (Sys t' (unloading l ++ ts') o u)
| step_close l b t t' ts o u :
    close_locked t = (Ok (Some (l, b)), t') -> step (Sys t ts o u) (Sys t' (unloading l ++ ts) o u)
| step_activate t t' ts o u :
    count activating ts = 0 -> activate_locked t = (Ok false, t') -> step (Sys t ts o u) (Sys t' (TActivating :: ts) o u)
| step_refused t ts ts' o u : ts ≡ₚ TActivating :: ts' -> step (Sys t ts o u) (Sys t ts' o u)
| step_open l t ts ts' o u :
    ts ≡ₚ TActivating :: ts' -> step (Sys t ts o u) (Sys t (TOpened l :: ts') (o ++ [l]) u)
| step_probe_fails l t ts ts' o u :
    ts ≡ₚ TOpened l :: ts' -> step (Sys t ts o u) (Sys t (TUnload l :: ts') o u)
| step_loaded l entry caps identity sha b t t' ts ts' o u :
    ts ≡ₚ TOpened l :: ts' -> publish_library l entry caps identity sha t = (Ok b, t') ->
    step (Sys t ts o u) (Sys t' ((if b then [] else [TUnload l]) ++ ts') o u)
| step_unload l t ts ts' o u :
    ts ≡ₚ TUnload l :: ts' -> step (Sys t ts o u) (Sys t ts' o (u ++ [l]))
| step_objects t t' ts o u : np (fst t') = np (fst t) -> step (Sys t ts o u) (Sys t' ts o u).

Inductive reachable : sys -> Prop :=
| reach_init path sha limit n w : make_native path sha limit = Ok n -> reachable (Sys (n, w) [] [] [])
| reach_step s s' : reachable s -> step s s' -> reachable s'.

(** ** The invariant *)

Definition is_call (t : task) : bool := match t with TCall => true | _ => false end.
Definition is_reserved (t : task) : bool := match t with TReserved => true | _ => false end.
Definition is_context (t : task) : bool := match t with TContext => true | _ => false end.
Definition is_session (t : task) : bool := match t with TSession => true | _ => false end.
Definition library (t : task) : option Z := match t with TOpened l | TUnload l => Some l | _ => None end.

Definition idle (n : native_provider) : Prop :=
  active_contexts n = 0 /\ active_sessions n = 0 /\ pending_resources n = 0 /\ active_calls n = 0.

(** The provider against the tasks. *)
Record counted (n : native_provider) (ts : list task) : Prop := {
  k_calls : active_calls n = count is_call ts;
  k_reserved : pending_resources n = count is_reserved ts;
  k_contexts : active_contexts n = count is_context ts;
  k_sessions : active_sessions n = count is_session ts;
  k_one : count activating ts <= 1;
  k_active : 0 < count activating ts -> activated n = false \/ np_closed n = true;
}.
Record coherent (n : native_provider) : Prop := {
  n_handle : activated n = bool_decide (is_Some (library_handle n));
  n_entry : is_Some (entrypoint n) -> is_Some (library_handle n);
  n_used : active_calls n <> 0 -> is_Some (library_handle n);
  n_done : np_closed n = true -> close_requested n = true /\ library_handle n = None /\ idle n;
}.
Definition settled (n : native_provider) : Prop := close_requested n = true -> idle n -> np_closed n = true.

Record inv (s : sys) : Prop := {
  i_counted : counted (np (fst (s_state s))) (s_tasks s);
  i_coherent : coherent (np (fst (s_state s)));
  i_settled : settled (np (fst (s_state s)));
  i_libraries : s_opened s ≡ₚ s_unloaded s ++ omap library (s_tasks s) ++ option_list (library_handle (np (fst (s_state s))));
}.

Lemma counted_perm n ts ts' : ts ≡ₚ ts' -> counted n ts -> counted n ts'.
Proof. intros Hp [H1 H2 H3 H4 H5 H6]. split; rewrite <- ?(count_perm _ _ _ Hp); done. Qed.

Lemma nat_inv_perm t ts ts' o u : ts ≡ₚ ts' -> inv (Sys t ts o u) -> inv (Sys t ts' o u).
Proof. intros Hp [H1 H2 H3 H4]. split; cbn in *; [by eapply counted_perm|done|done|by rewrite <- Hp]. Qed.

(** The provider after [take_library]. *)
Lemma take_run (t : nstate) :
  (close_requested (np (fst t)) = true /\ np_closed (np (fst t)) = false /\ idle (np (fst t)) /\
   take_library t = (Ok (library_handle (np (fst t))), (NativeState (set_unloaded (np (fst t))) (n_contexts (fst t)) (n_sessions (fst t)), snd t))) \/
  (~ (close_requested (np (fst t)) = true /\ np_closed (np (fst t)) = false /\ idle (np (fst t))) /\ take_library t = (Ok None, t)).
Proof.
  unfold take_library, bind, the_provider, upd, modify, ret, idle. set (n := np (fst t)).
  destruct (negb (close_requested n) || _ || _ || _ || _ || _) eqn:E.
  - right. split; [|done]. intros (H1 & H2 & H3 & H4 & H5 & H6). rewrite H1, H2, H3, H4, H5, H6 in E. done.
  - left. b2p. by split_and!.
Qed.

Lemma unloading_counts (q : task -> bool) l ts : (forall l, q (TUnload l) = false) -> count q (unloading l ++ ts) = count q ts.
Proof. intros H. destruct l as [l|]; [|done]. cbn. by rewrite H. Qed.

Lemma omap_unloading l ts : omap library (unloading l ++ ts) = option_list l ++ omap library ts.
Proof. by destruct l. Qed.

(** A section that ends by looking whether the library can go. *)
Lemma inv_take (t1 t' : nstate) ts o u l :
  counted (np (fst t1)) ts -> coherent (np (fst t1)) ->
  o ≡ₚ u ++ omap library ts ++ option_list (library_handle (np (fst t1))) ->
  take_library t1 = (Ok l, t') -> inv (Sys t' (unloading l ++ ts) o u).
Proof.
  intros [K1 K2 K3 K4 K5 K6] [C1 C2 C3 C4] Hl E.
  destruct (take_run t1) as [(Hr & Hc & Hi & E')|[Hno E']]; rewrite E in E'; injection E' as -> ->.
  - split; cbn [s_state s_tasks s_opened s_unloaded fst np].
    + split; cbn [active_calls pending_resources active_contexts active_sessions activated np_closed set_unloaded];
        rewrite ?unloading_counts by done; try done. by left.
    + split; cbn; [done|by intros []|intros H; destruct Hi as (_ & _ & _ & Hz); cbn in Hz; congruence|done].
    + by intros _ _.
    + rewrite omap_unloading. cbn. rewrite app_nil_r, Hl. apply Permutation_app_head, Permutation_app_comm.
  - cbn [unloading app]. split; cbn [s_state s_tasks s_opened s_unloaded]; [done|done| |done].
    intros Hr Hi. destruct (np_closed (np (fst t1))) eqn:Hc; [done|]. destruct Hno. done.
Qed.

(** The effect of a section on the provider alone. *)
Definition with_np (n : native_provider) (t : nstate) : nstate := (NativeState n (n_contexts (fst t)) (n_sessions (fst t)), snd t).

Lemma coherent_counts n c s p k :
  coherent n -> (k <> 0 -> is_Some (library_handle n)) -> (np_closed n = true -> c = 0 /\ s = 0 /\ p = 0 /\ k = 0) ->
  coherent (set_counts c s p k n).
Proof. intros [C1 C2 C3 C4] Hk Hc. split; cbn; [done|done|done|]. intros H. destruct (C4 H) as (? & ? & _). split_and!; [done|done|by apply Hc]. Qed.

Lemma finish_run t ts :
  counted (np (fst t)) (TCall :: ts) -> coherent (np (fst t)) ->
  finish_call_locked t = take_library (with_np (add_calls (-1) (np (fst t))) t) /\
  counted (add_calls (-1) (np (fst t))) ts /\ coherent (add_calls (-1) (np (fst t))).
Proof.
  intros [K1 K2 K3 K4 K5 K6] HC. pose proof HC as [C1 C2 C3 C4]. cbn [count is_call is_reserved is_context is_session activating] in *.
  simpl in K1, K2, K3, K4, K5, K6. pose proof (count_nonneg is_call ts). split; [|split].
  - unfold finish_call_locked, bind at 1, the_provider. zdec. done.
  - split; cbn; try done; lia.
  - apply coherent_counts; [done|intros _; apply C3; lia|]. intros Hc. destruct (C4 Hc) as (_ & _ & _ & _ & _ & Hz). lia.
Qed.

Lemma nat_cancel_run t ts :
  counted (np (fst t)) (TReserved :: ts) -> coherent (np (fst t)) ->
  cancel_locked t = take_library (with_np (add_pending (-1) (np (fst t))) t) /\
  counted (add_pending (-1) (np (fst t))) ts /\ coherent (add_pending (-1) (np (fst t))).
Proof.
  intros [K1 K2 K3 K4 K5 K6] HC. pose proof HC as [C1 C2 C3 C4]. cbn [count is_call is_reserved is_context is_session activating] in *.
  simpl in K1, K2, K3, K4, K5, K6. pose proof (count_nonneg is_reserved ts). split; [|split].
  - unfold cancel_locked, bind at 1, the_provider. zdec. done.
  - split; cbn; try done; lia.
  - apply coherent_counts; [done|done|]. intros Hc. destruct (C4 Hc) as (_ & _ & _ & _ & Hz & _). lia.
Qed.

Lemma nat_release_run kind t ts :
  kind = py "context" \/ kind = py "session" ->
  counted (np (fst t)) (resource kind :: ts) -> coherent (np (fst t)) -> exists n,
  release_locked kind t = take_library (with_np n t) /\ counted n ts /\ coherent n /\ library_handle n = library_handle (np (fst t)).
Proof.
  intros Hk [K1 K2 K3 K4 K5 K6] HC. pose proof HC as [C1 C2 C3 C4]. destruct Hk as [->| ->].
  - exists (add_contexts (-1) (np (fst t))). change (resource (py "context")) with TContext in *.
    simpl in K1, K2, K3, K4, K5, K6. pose proof (count_nonneg is_context ts). split; [|split; [|split; [|done]]].
    + unfold release_locked, bind, the_provider. change (str_eqb (py "context") (py "context")) with true. cbn iota. zdec. done.
    + split; cbn; try done; lia.
    + apply coherent_counts; [done|done|]. intros Hc. destruct (C4 Hc) as (_ & _ & Hz & _). lia.
  - exists (add_sessions (-1) (np (fst t))). change (resource (py "session")) with TSession in *.
    simpl in K1, K2, K3, K4, K5, K6. pose proof (count_nonneg is_session ts). split; [|split; [|split; [|done]]].
    + unfold release_locked, bind, the_provider. change (str_eqb (py "session") (py "context")) with false.
      change (str_eqb (py "session") (py "session")) with true. cbn iota. zdec. done.
    + split; cbn; try done; lia.
    + apply coherent_counts; [done|done|]. intros Hc. destruct (C4 Hc) as (_ & _ & _ & Hz & _). lia.
Qed.

(** Steps that leave the libraries and the flags alone. *)
Lemma inv_counts t t' ts ts' o u :
  inv (Sys t ts o u) -> counted (np (fst t')) ts' -> coherent (np (fst t')) ->
  library_handle (np (fst t')) = library_handle (np (fst t)) -> omap library ts' = omap library ts ->
  settled (np (fst t')) -> inv (Sys t' ts' o u).
Proof.
  intros [_ _ _ H4] Hc Hh El Eo Hs. split; cbn [s_state s_tasks s_opened s_unloaded] in *; [done|done|done|]. by rewrite El, Eo.
Qed.

Lemma nat_inv_begin e t t' ts o u : begin_call t = (Ok e, t') -> inv (Sys t ts o u) -> inv (Sys t' (TCall :: ts) o u).
Proof.
  unfold begin_call, bind, the_provider, raise, upd, modify, ret. destruct (entrypoint (np (fst t))) as [e0|] eqn:Ee; [|done].
  destruct (np_closed (np (fst t))) eqn:Ec; [done|]. destruct (e0 =? 0); [done|]. cbn [orb]. intros [= <- <-] Hi.
  pose proof Hi as [[K1 K2 K3 K4 K5 K6] HC _ _]. cbn [s_state s_tasks] in *. pose proof HC as [C1 C2 C3 C4].
  pose proof (count_nonneg is_call ts). eapply inv_counts; [exact Hi| | |done|done|].
  - split; cbn; try done; lia.
  - apply coherent_counts; [done|intros _; apply C2; by rewrite Ee|congruence].
  - intros _ (_ & _ & _ & Hz). cbn in Hz. lia.
Qed.

Lemma inv_reserve t ts o u :
  close_requested (np (fst t)) = false -> np_closed (np (fst t)) = false -> inv (Sys t ts o u) ->
  inv (Sys (with_np (add_pending 1 (np (fst t))) t) (TReserved :: ts) o u).
Proof.
  intros Hr Hc Hi. pose proof Hi as [[K1 K2 K3 K4 K5 K6] HC _ _]. cbn [s_state s_tasks] in *. pose proof HC as [C1 C2 C3 C4].
  eapply inv_counts; [exact Hi| | |done|done|].
  - split; cbn; try done; lia.
  - apply coherent_counts; [done|done|congruence].
  - intros Hr'. cbn in Hr'. congruence.
Qed.

Lemma inv_publish kind t t' ts o u :
  publish_resource kind t = (Ok tt, t') -> inv (Sys t (TReserved :: ts) o u) -> inv (Sys t' (resource kind :: ts) o u).
Proof.
  unfold publish_resource, bind, the_provider, raise, upd, modify. destruct (pending_resources _ <=? 0); [done|].
  intros E Hi. pose proof Hi as [[K1 K2 K3 K4 K5 K6] HC HS _]. cbn [s_state s_tasks] in *. pose proof HC as [C1 C2 C3 C4].
  simpl in K1, K2, K3, K4, K5, K6. pose proof (count_nonneg is_reserved ts). pose proof (count_nonneg is_context ts). pose proof (count_nonneg is_session ts).
  assert (np_closed (np (fst t)) = false) as Hnc.
  { destruct (np_closed _) eqn:Hc; [|done]. destruct (C4 eq_refl) as (_ & _ & _ & _ & Hz & _). lia. }
  unfold resource. destruct (str_eqb kind (py "context")); [|destruct (str_eqb kind (py "session")); [|done]];
    injection E as <-; (eapply inv_counts; [exact Hi| | |done|done|]).
  - split; cbn; try done; lia.
  - apply coherent_counts; [apply coherent_counts; [done|done|congruence]|done|cbn; congruence].
  - intros _ (Hz & _). cbn in Hz. lia.
  - split; cbn; try done; lia.
  - apply coherent_counts; [apply coherent_counts; [done|done|congruence]|done|cbn; congruence].
  - intros _ (_ & Hz & _). cbn in Hz. lia.
Qed.

Lemma inv_close l b t t' ts o u :
  close_locked t = (Ok (Some (l, b)), t') -> inv (Sys t ts o u) -> inv (Sys t' (unloading l ++ ts) o u).
Proof.
  unfold close_locked, bind at 1, the_provider. destruct (np_closed (np (fst t)) || close_requested (np (fst t))) eqn:Ec; [done|].
  apply orb_false_iff in Ec as [Ec Er]. unfold upd, modify, bind at 1. intros E Hi.
  pose proof Hi as [[K1 K2 K3 K4 K5 K6] [C1 C2 C3 C4] _ H4]. cbn [s_state s_tasks s_opened s_unloaded] in *.
  set (t1 := (NativeState (set_close_requested (np (fst t))) (n_contexts (fst t)) (n_sessions (fst t)), snd t)) in *.
  unfold bind at 1 in E. destruct (take_library t1) as [[l'|e] t2] eqn:Et; [|done]. unfold bind, ret in E. cbn in E.
  injection E as -> _ <-. apply (inv_take t1); [by split|split; cbn; [done|done|done|congruence]|done|exact Et].
Qed.

Lemma inv_drop_activating (t0 : task) t ts o u :
  activating t0 = true -> library t0 = None -> inv (Sys t (t0 :: ts) o u) -> inv (Sys t ts o u).
Proof.
  intros Ha Hl Hi. pose proof Hi as [[K1 K2 K3 K4 K5 K6] HC HS _]. cbn [s_state s_tasks] in *.
  destruct t0; try done. simpl in K1, K2, K3, K4, K5, K6. eapply inv_counts; [exact Hi| |done|done|done|done].
  split; try done; [lia|]. intros _. apply K6. pose proof (count_nonneg activating ts). lia.
Qed.

Lemma inv_loaded l entry caps identity sha b t t' ts o u :
  publish_library l entry caps identity sha t = (Ok b, t') -> inv (Sys t (TOpened l :: ts) o u) ->
  inv (Sys t' ((if b then [] else [TUnload l]) ++ ts) o u).
Proof.
  unfold publish_library, bind, the_provider, upd, modify, ret. intros E Hi.
  pose proof Hi as [[K1 K2 K3 K4 K5 K6] HC HS H4]. cbn [s_state s_tasks s_opened s_unloaded] in *. pose proof HC as [C1 C2 C3 C4].
  simpl in K1, K2, K3, K4, K5, K6. pose proof (count_nonneg activating ts).
  destruct (negb (close_requested _) && negb (np_closed _)) eqn:Ec; injection E as <- <-; b2p; cbn [app].
  - destruct K6 as [Ha|Hc]; [lia| |congruence]. rewrite C1 in Ha. b2p.
    assert (library_handle (np (fst t)) = None) as Hn by (by apply eq_None_not_Some).
    split; cbn [s_state s_tasks s_opened s_unloaded fst np].
    + split; cbn; try done; [lia|]. intros ?. lia.
    + split; cbn; [done|done|done|congruence].
    + intros Hr. cbn in Hr. congruence.
    + rewrite H4, Hn. cbn. rewrite app_nil_r. apply Permutation_app_head, Permutation_cons_append.
  - eapply inv_counts; [exact Hi| |done|done|done|done]. split; cbn; try done; lia.
Qed.

Lemma nat_inv_step s s' : inv s -> step s s' -> inv s'.
Proof.
  intros Hi Hs. destruct Hs as
    [e t t' ts o u E|l t t' ts ts' o u Hp E|t t' ts o u E|c h t t' ts o u E|kind t t' ts ts' o u Hp E|l t t' ts ts' o u Hp E
    |kind l t t' ts ts' o u Hp E|l b t t' ts o u E|t t' ts o u Hz E|t ts ts' o u Hp|l t ts ts' o u Hp|l t ts ts' o u Hp
    |l entry caps identity sha b t t' ts ts' o u Hp E|l t ts ts' o u Hp|t t' ts o u E];
    try apply (nat_inv_perm _ _ _ _ _ Hp) in Hi; pose proof Hi as [HK HC HS HL]; cbn [s_state s_tasks s_opened s_unloaded] in *.
  - by eapply nat_inv_begin.
  - destruct (finish_run _ _ HK HC) as (E' & Hk & Hh). rewrite E' in E. eapply (inv_take (with_np _ t)); [exact Hk|exact Hh|done|exact E].
  - revert E. unfold reserve_resource, bind, the_provider, raise, upd, modify.
    destruct (close_requested _) eqn:Er, (np_closed _) eqn:Ec; try done. intros [= <-]. by apply inv_reserve.
  - revert E. unfold reserve_connection, bind, context_handle, the_provider, raise, upd, modify, ret.
    destruct (live_handle _); [|done]. destruct (close_requested _) eqn:Er, (np_closed _) eqn:Ec; try done.
    intros [= _ <-]. by apply inv_reserve.
  - by eapply inv_publish.
  - destruct (nat_cancel_run _ _ HK HC) as (E' & Hk & Hh). rewrite E' in E. eapply (inv_take (with_np _ t)); [exact Hk|exact Hh|done|exact E].
  - assert (kind = py "context" \/ kind = py "session") as Hkind.
    { revert E. unfold release_locked, bind, the_provider, raise.
      destruct (str_eqb kind (py "context")) eqn:E1; [b2p; by left|]. destruct (str_eqb kind (py "session")) eqn:E2; [b2p; by right|done]. }
    destruct (nat_release_run kind _ _ Hkind HK HC) as (n & E' & Hk & Hh & El). rewrite E' in E.
    eapply (inv_take (with_np n t)); [exact Hk|exact Hh| |exact E]. cbn [with_np fst np]. rewrite El, HL. by destruct Hkind as [->| ->].
  - by eapply inv_close.
  - revert E. unfold activate_locked, bind, the_provider, raise, ret. destruct (activated _ && _) eqn:Ea; [done|].
    destruct (_ || _); [done|]. intros [= <-]. destruct HK as [K1 K2 K3 K4 K5 K6].
    eapply inv_counts; [exact Hi| |done|done|done|done]. split; cbn; try done; [lia|]. intros _.
    apply andb_false_iff in Ea as [?|?]; b2p; auto.
  - by apply (inv_drop_activating TActivating).
  - destruct HK as [K1 K2 K3 K4 K5 K6]. split; cbn [s_state s_tasks s_opened s_unloaded]; [by split|done|done|].
    rewrite HL. cbn. rewrite <- !app_assoc. apply Permutation_app_head. rewrite (app_assoc _ _ [l]). symmetry. apply Permutation_cons_append.
  - destruct HK as [K1 K2 K3 K4 K5 K6]. simpl in K1, K2, K3, K4, K5, K6. pose proof (count_nonneg activating ts').
    eapply inv_counts; [exact Hi| |done|done|done|done]. split; cbn; try done; lia.
  - by eapply inv_loaded.
  - destruct HK as [K1 K2 K3 K4 K5 K6]. split; cbn [s_state s_tasks s_opened s_unloaded]; [by split|done|done|].
    rewrite HL. cbn. by rewrite <- app_assoc.
  - split; cbn [s_state s_tasks s_opened s_unloaded]; rewrite E; done.
Qed.

Lemma nat_reachable_inv s : reachable s -> inv s.
Proof.
  induction 1 as [path sha limit n w Hn|s s' _ IH Hs]; [|by eapply nat_inv_step]. revert Hn. unfold make_native.
  destruct (bool_decide _); [done|]. destruct (_ || _); [done|]. destruct (_ >? _); [done|]. destruct (negb _); [done|]. destruct (_ || _); [done|].
  intros [= <-]. split; cbn [s_state s_tasks s_opened s_unloaded fst np]; [split; cbn; auto; lia|split; cbn; try done; by intros []|done|done].
Qed.

(** C31: In every interleaving of calls, resource reservations and releases, activations and
    closes: every library opened has been unloaded once or is in one place that will unload
    it; while a native call runs the library is loaded; a closed provider has no call,
    reservation, context or session outstanding and nothing loaded; no section finds its
    accounting too low; and when close was requested and no thread has anything left to do,
    the provider is closed and every library opened has been unloaded. *)
Theorem library_unloaded_once s :
  reachable s ->
  s_opened s ≡ₚ s_unloaded s ++ omap library (s_tasks s) ++ option_list (library_handle (np (fst (s_state s)))) /\
  (TCall ∈ s_tasks s -> is_Some (library_handle (np (fst (s_state s))))) /\
  (np_closed (np (fst (s_state s))) = true -> library_handle (np (fst (s_state s))) = None /\
     forall t, t ∈ s_tasks s -> t <> TCall /\ t <> TReserved /\ t <> TContext /\ t <> TSession) /\
  (TCall ∈ s_tasks s -> exists l t, finish_call_locked (s_state s) = (Ok l, t)) /\
  (TReserved ∈ s_tasks s -> exists l t, cancel_locked (s_state s) = (Ok l, t)) /\
  (forall kind, kind = py "context" \/ kind = py "session" -> resource kind ∈ s_tasks s ->
     exists l t, release_locked kind (s_state s) = (Ok l, t)) /\
  (close_requested (np (fst (s_state s))) = true -> s_tasks s = [] ->
     np_closed (np (fst (s_state s))) = true /\ s_opened s ≡ₚ s_unloaded s).
Proof.
  intros Hi%nat_reachable_inv. destruct s as [t ts o u]. cbn [s_state s_tasks s_opened s_unloaded].
  pose proof Hi as [HK HC HS HL]. cbn [s_state s_tasks s_opened s_unloaded] in *. pose proof HK as [K1 K2 K3 K4 K5 K6]. pose proof HC as [C1 C2 C3 C4].
  assert (forall t0, t0 ∈ ts -> exists ts', counted (np (fst t)) (t0 :: ts')) as Hpick.
  { intros t0 Ht. apply list_elem_of_split in Ht as (l1 & l2 & ->). exists (l1 ++ l2).
    eapply counted_perm; [|exact HK]. symmetry. apply Permutation_middle. }
  assert (forall t1 : nstate, exists l t', take_library t1 = (Ok l, t')) as Htake.
  { intros t1. destruct (take_run t1) as [(_ & _ & _ & ->)|[_ ->]]; by eexists _, _. }
  split; [done|]. split_and!.
  - intros Hin. apply C3. rewrite K1. pose proof (count_pos_elem is_call ts TCall Hin eq_refl). lia.
  - intros Hc. destruct (C4 Hc) as (_ & Hn & Z1 & Z2 & Z3 & Z4). split; [done|]. intros t0 Ht.
    split_and!; intros ->; pose proof (count_pos_elem is_call ts _ Ht); pose proof (count_pos_elem is_reserved ts _ Ht);
      pose proof (count_pos_elem is_context ts _ Ht); pose proof (count_pos_elem is_session ts _ Ht); cbn in *; intuition lia.
  - intros Hin. destruct (Hpick _ Hin) as (ts' & Hk). destruct (finish_run _ _ Hk HC) as (-> & _). apply Htake.
  - intros Hin. destruct (Hpick _ Hin) as (ts' & Hk). destruct (nat_cancel_run _ _ Hk HC) as (-> & _). apply Htake.
  - intros kind Hkind Hin. destruct (Hpick _ Hin) as (ts' & Hk). destruct (nat_release_run _ _ _ Hkind Hk HC) as (n & -> & _). apply Htake.
  - intros Hr ->. assert (idle (np (fst t))) as Hidle by (by split_and!). pose proof (HS Hr Hidle) as Hc. split; [done|].
    destruct (C4 Hc) as (_ & Hn & _). rewrite HL, Hn. cbn. by rewrite app_nil_r.
Qed.
End system.

(** A provider is activated, makes a call during which it is closed, and unloads. *)
Lemma library_unloaded_once_witness : exists s,
  reachable (W := unit) s /\ TCall ∈ s_tasks s /\ close_requested (np (fst (s_state s))) = true /\
  is_Some (library_handle (np (fst (s_state s)))).
Proof.
  assert (exists s, reachable (W := unit) s /\ TCall ∈ s_tasks s /\ close_requested (np (fst (s_state s))) = true)
    as (s & Hr & Hin & Hc).
  { eexists. split; [|split].
    - eapply reach_step; [eapply reach_step; [eapply reach_step; [eapply reach_step; [eapply reach_step;
        [eapply (reach_init (py "/lib/tls.so") (repeat 48 64) 1000 _ tt); vm_compute; reflexivity|]|]|]|]|].
      + apply step_activate; [reflexivity|vm_compute; reflexivity].
      + apply (step_open 9); reflexivity.
      + eapply (step_loaded 9 77 255 (py "impl") [] true); [reflexivity|vm_compute; reflexivity].
      + eapply step_begin. vm_compute. reflexivity.
      + eapply (step_close None false). vm_compute. reflexivity.
    - by left.
    - reflexivity. }
  exists s. split; [exact Hr|]. split; [exact Hin|]. split; [exact Hc|].
  exact (proj1 (proj2 (library_unloaded_once s Hr)) Hin).
Defined.

(** ** The protocol list of a context reads back *)

(** Reads one [length:text] item after another; each takes at least two characters. *)
Fixpoint read_alpn (fuel : nat) (s : str) : option (list str) :=
  match fuel, s with
  | _, [] => Some []
  | O, _ => None
  | S f, _ =>
      let i := find_char 58 s in
      if i <? 0 then None
      else
        let n := decimal_value (upto s i) in
        option_map (cons (slice s (i + 1) (i + 1 + n))) (read_alpn f (from s (i + 1 + n)))
  end.

Lemma alpn_wire_cons q ps : alpn_wire (q :: ps) = str_of_int (len q) ++ 58 :: q ++ alpn_wire ps.
Proof.
  assert (forall ps acc, fold_left (fun o p => o ++ (str_of_int (len p) ++ py ":" ++ p)) ps acc = acc ++ alpn_wire ps) as H.
  { intros l. induction l as [|y l IH]; intros acc; [by rewrite app_nil_r|]. unfold alpn_wire. cbn [fold_left].
    rewrite !IH. by rewrite <- app_assoc. }
  unfold alpn_wire at 1. cbn [fold_left]. rewrite H. cbn. by rewrite <- !app_assoc.
Qed.

Lemma read_alpn_wire ps : read_alpn (length ps) (alpn_wire ps) = Some ps.
Proof.
  induction ps as [|q ps IH]; [done|]. rewrite alpn_wire_cons.
  pose proof (str_of_int_ne (len q)) as Hne. pose proof (str_of_int_chars (len q) (len_nonneg q)) as Hd.
  set (d := str_of_int (len q)) in *. assert (decimal_value d = len q) as Hv by (by apply decimal_value_str_of_int).
  cbn [read_alpn length]. destruct (d ++ 58 :: q ++ alpn_wire ps) as [|c0 s0] eqn:E; [by destruct d|]. rewrite <- E.
  rewrite find_char_at by (eapply Forall_impl; [exact Hd|cbn; lia]). pose proof (len_nonneg d). zdec.
  rewrite upto_app_le, upto_all, Hv by lia.
  assert (from (d ++ 58 :: q ++ alpn_wire ps) (len d + 1) = q ++ alpn_wire ps) as Ef.
  { rewrite from_app_ge by lia. replace (len d + 1 - len d) with 1 by lia. done. }
  pose proof (len_nonneg q). rewrite <- (from_from _ (len d + 1) (len q)), Ef by lia.
  rewrite from_app_ge, Z.sub_diag, from_0, IH by lia. cbn [option_map]. do 2 f_equal.
  rewrite slice_from_upto, Ef by lia. replace (len d + 1 + len q - (len d + 1)) with (len q) by lia.
  by rewrite upto_app_le, upto_all by lia.
Qed.
