(* ===== verification/ConnectionBodies.v ===== *)
(** * Who owns the body views of a connection

    Several body streams and the decoded events share one store.  Whatever calls are made
    on a stream, the views the others own stay live, and its own views are those of its
    unread chunks: cancelling, closing and reading release each of them once. *)

From S2P Require Import Prelude PyStr PyLists Buffer Models ModelsSpec.
#[local] Open Scope Z_scope.

Definition no_ext : nat -> Z := fun _ => 0.
Definition live (h : heap) (v : nat) : Prop := is_Some (vbytes h v).
(** The views a stream owns: those of its unread chunks. *)
Definition body_views_of (b : body_stream) : list nat := views_of (from (chunks b) (read_index b)).

(** [others] are the views with other owners. *)
Record body_ok (others : list nat) (b : body_stream) (h : heap) : Prop := {
  bo_heap : heap_ok h no_ext;
  bo_apart : NoDup (others ++ body_views_of b);
  bo_live : Forall (live h) (others ++ body_views_of b);
  bo_index : 0 <= read_index b <= len (chunks b);
  bo_read : Forall (chunk_dead h) (upto (chunks b) (read_index b));
  bo_closed : bs_closed b = true -> chunks b = [];
}.

(** A call on the stream: other views keep their contents, a closed stream stays closed. *)
Record body_moved (b : body_stream) (h : heap) (b' : body_stream) (h' : heap) : Prop := {
  bm_grows : (length (views h) <= length (views h'))%nat;
  bm_frame : forall u, (u < length (views h))%nat -> u ∉ body_views_of b -> vbytes h' u = vbytes h u;
  bm_closed : bs_closed b = true -> bs_closed b' = true;
}.

Definition body_call_ok {A} (m : BodyStream.MS A) (Q : A -> body_stream -> Prop) : Prop :=
  forall others b h, body_ok others b h ->
  wp m (fun a t => body_ok others (fst t) (snd t) /\ body_moved b h (fst t) (snd t) /\ Q a (fst t))
       (fun _ t => body_ok others (fst t) (snd t) /\ body_moved b h (fst t) (snd t)) (b, h).
(** The same of a call that does not raise. *)
Definition body_call_total {A} (m : BodyStream.MS A) (Q : A -> body_stream -> Prop) : Prop :=
  forall others b h, body_ok others b h ->
  wp m (fun a t => body_ok others (fst t) (snd t) /\ body_moved b h (fst t) (snd t) /\ Q a (fst t))
       (fun _ _ => False) (b, h).

Lemma body_total_ok {A} (m : BodyStream.MS A) Q : body_call_total m Q -> body_call_ok m Q.
Proof. intros Hm others b h Hb. eapply wp_mono; [| |by apply Hm]; [done|by intros]. Qed.

Lemma body_moved_refl b h : body_moved b h b h.
Proof. by split. Qed.

Lemma live_lt h v : live h v -> (v < length (views h))%nat.
Proof. intros [d Hd]. destruct (vbytes_live _ _ _ Hd) as (w & x & Hw & _). by eapply lookup_lt_Some. Qed.

Lemma live_frame (X : list nat) h h' vs :
  (length (views h) <= length (views h'))%nat ->
  (forall u, (u < length (views h))%nat -> u ∉ X -> vbytes h' u = vbytes h u) ->
  (forall u, u ∈ vs -> u ∉ X) -> Forall (live h) vs -> Forall (live h') vs.
Proof.
  intros _ Hf Hx Hl. rewrite Forall_forall in Hl |- *. intros u Hu. unfold live. rewrite Hf; [by apply Hl|by eapply live_lt, Hl|by apply Hx].
Qed.

Lemma upto_snoc {A} (l : list A) i x : 0 <= i -> at_ l i = Some x -> upto l (i + 1) = upto l i ++ [x].
Proof.
  intros Hi Hx. unfold upto. replace (Z.to_nat (i + 1)) with (S (Z.to_nat i)) by lia.
  apply take_S_r. by rewrite <- at_lookup by lia.
Qed.

(** Calls that change neither the chunks nor the store. *)
Lemma body_flags others b h b' :
  body_ok others b h -> chunks b' = chunks b -> read_index b' = read_index b ->
  (bs_closed b = true -> bs_closed b' = true) -> (bs_closed b' = true -> bs_closed b = true) ->
  body_ok others b' h /\ body_moved b h b' h.
Proof.
  intros [] Ec Ei Hc Hc'. unfold body_views_of in *. split; [|by split].
  split; unfold body_views_of; rewrite ?Ec, ?Ei; auto.
Qed.

Lemma wp_stream {A} (m : M body_stream A) Q E (b : body_stream) (h : heap) :
  wp m (fun a b' => Q a (b', h)) (fun e b' => E e (b', h)) b -> wp (BodyStream.stream m) Q E (b, h).
Proof. intros Hm. unfold BodyStream.stream. by apply wp_zoom. Qed.

Lemma wp_run {S A} (m : M S A) Q (E : exn -> S -> Prop) s a s' : m s = (Ok a, s') -> Q a s' -> wp m Q E s.
Proof. intros Hm HQ. unfold wp. by rewrite Hm. Qed.

(** Releasing what the stream owns leaves it without chunks. *)
Lemma body_emptied others b h cs b' :
  body_ok others b h ->
  (exists pre, chunks b = pre ++ cs /\ Forall (chunk_dead h) pre) ->
  chunks b' = [] -> read_index b' = 0 -> (bs_closed b = true -> bs_closed b' = true) ->
  exists h', BodyStream.release_chunks cs h = (Ok tt, h') /\ body_ok others b' h' /\ body_moved b h b' h'.
Proof.
  intros [Hh Hn Hl Hi Hd Hc] (pre & Epre & Hpre) Ec Ei Hcl.
  assert (forall v, v ∈ views_of (chunks b) -> (v < length (views h))%nat /\ (v ∈ body_views_of b \/ vbytes h v = None)) as Hv.
  { intros v. rewrite <- (upto_from (chunks b) (read_index b)), views_of_app. intros [Hin|Hin]%elem_of_app.
    - unfold views_of in Hin. apply list_elem_of_omap in Hin as (c & Hin & E). destruct c as [?|u]; [done|]. injection E as ->.
      rewrite Forall_forall in Hd. destruct (Hd _ Hin) as [? ?]. auto.
    - split; [|by left]. apply live_lt. rewrite Forall_forall in Hl. apply Hl, elem_of_app. by right. }
  destruct (release_chunks_spec cs h no_ext Hh) as (h' & E & Hh' & Hlen & Hb).
  { intros v Hin. apply Hv. rewrite Epre, views_of_app. apply elem_of_app. by right. }
  assert (forall u, (u < length (views h))%nat -> u ∉ body_views_of b -> vbytes h' u = vbytes h u) as Hfr.
  { intros u Hu Hni. rewrite Hb. case_bool_decide as Hin; [|done].
    destruct (Hv u) as [_ [?|?]]; [|done|congruence]. rewrite Epre, views_of_app. apply elem_of_app. by right. }
  apply NoDup_app in Hn as (Hn1 & Hn2 & _). apply Forall_app in Hl as [Hl1 _].
  assert (body_views_of b' = []) as Eb by (unfold body_views_of; by rewrite Ec, Ei).
  exists h'. split; [done|]. split; [|split; [lia|done|done]].
  split; rewrite ?Eb, ?app_nil_r, ?Ei, ?Ec; try done.
  apply (live_frame (body_views_of b) h); [lia|done|exact Hn2|done].
Qed.

(** The end of [cancel] and [close]: the store releases the chunks taken out of the queue. *)
Ltac empties cs :=
  lazymatch goal with
  | Hb : body_ok ?o ?b ?h |- wp _ (fun _ s => body_ok _ ?b' s /\ _) _ _ =>
      destruct (body_emptied o b h cs b' Hb) as (h' & E & Hok & Hm); try done;
      [|eapply wp_run; [exact E|by split_and!]]
  end.

Lemma cancel_total : body_call_total BodyStream.cancel (fun _ _ => True).
Proof.
  intros others b h Hb. unfold BodyStream.cancel. apply wp_bind, wp_stream. cbn. apply wp_bind, wp_stream. cbn.
  unfold BodyStream.store. apply wp_zoom. cbn [fst snd]. empties (chunks b). by exists [].
Qed.

Lemma close_total : body_call_total BodyStream.close (fun _ b => bs_closed b = true).
Proof.
  intros others b h Hb. unfold BodyStream.close. apply wp_bind, wp_stream. unfold BodyStream.close_locked.
  apply wp_bind, wp_get. destruct (bs_closed b) eqn:Ec.
  - cbn. split_and!; [done|apply body_moved_refl|done].
  - cbn. apply wp_bind, wp_stream. cbn. unfold BodyStream.store. apply wp_zoom. cbn [fst snd].
    empties (from (chunks b) (read_index b)). exists (upto (chunks b) (read_index b)). rewrite upto_from. split; [done|apply Hb].
Qed.

(** Calls that only set flags. *)
Ltac flags_only :=
  lazymatch goal with
  | Hb : body_ok _ ?b ?h |- body_ok _ ?b' ?h /\ body_moved ?b ?h ?b' ?h /\ ?Q =>
      destruct (body_flags _ b h b' Hb) as [? ?]; [done..|split_and!; try done]
  | Hb : body_ok _ ?b ?h |- body_ok _ ?b' ?h /\ body_moved ?b ?h ?b' ?h =>
      apply (body_flags _ b h b' Hb); done
  end.

Lemma finish_total : body_call_total BodyStream.finish (fun _ _ => True).
Proof.
  intros others b h Hb. unfold BodyStream.finish. apply wp_bind, wp_stream. cbn. flags_only.
Qed.

Lemma observe_total {A} (m : M body_stream A) :
  (forall b, exists a b', m b = (Ok a, b') /\ chunks b' = chunks b /\ read_index b' = read_index b /\ bs_closed b' = bs_closed b) ->
  body_call_total (BodyStream.stream m) (fun _ _ => True).
Proof.
  intros Hm others b h Hb. apply wp_stream. destruct (Hm b) as (a & b' & E & E1 & E2 & E3).
  eapply wp_run; [exact E|]. destruct (body_flags _ b h b' Hb) as [? ?]; [done|done|congruence|congruence|done].
Qed.

Lemma wait_total n : body_call_total (BodyStream.stream (BodyStream.wait_writable n)) (fun _ _ => True).
Proof.
  apply observe_total. intros b. unfold BodyStream.wait_writable, BodyStream.wait_locked, bind, get, ret, modify.
  destruct (streaming b); cbn [negb]; [|by eexists _, _].
  destruct (_ || _ || _); [by eexists _, _|]. destruct (negb _); [by eexists _, _|].
  destruct (n =? 0); by eexists _, _.
Qed.

(** [read_chunk] releases the view it reads, and owns it no more. *)
Lemma body_read others b h c b' :
  body_ok others b h -> at_ (chunks b) (read_index b) = Some c ->
  (chunks b' = chunks b /\ read_index b' = read_index b + 1 \/
   chunks b' = from (chunks b) (read_index b + 1) /\ read_index b' = 0) ->
  bs_closed b' = bs_closed b ->
  match c with
  | CBytes _ => body_ok others b' h /\ body_moved b h b' h
  | CView v => exists d, vbytes h v = Some d /\ forall h' r, BufferView.release v h = (Ok r, h') ->
                 body_ok others b' h' /\ body_moved b h b' h'
  end.
Proof.
  intros [Hh Hn Hl Hi Hd Hc] Hat Hb' Hcl. pose proof (at_Some _ _ _ Hat) as Hlt.
  assert (from (chunks b) (read_index b) = c :: from (chunks b) (read_index b + 1)) as Ef by (apply from_cons; [lia|done]).
  assert (body_views_of b = views_of [c] ++ body_views_of b') as Ev.
  { unfold body_views_of. rewrite Ef. change (c :: ?l) with ([c] ++ l). rewrite views_of_app.
    by destruct Hb' as [[-> ->]|[-> ->]]. }
  assert (0 <= read_index b' <= len (chunks b')) as Hi'.
  { destruct Hb' as [[-> ->]|[-> ->]]; [lia|]. split; [done|apply len_nonneg]. }
  assert (bs_closed b' = true -> chunks b' = []) as Hc'.
  { rewrite Hcl. intros E. rewrite (Hc E) in Hlt. change (len (@nil chunk)) with 0 in Hlt. lia. }
  assert (forall h', Forall (chunk_dead h') (upto (chunks b) (read_index b) ++ [c]) ->
            Forall (chunk_dead h') (upto (chunks b') (read_index b'))) as Hd'.
  { intros h' Hx. destruct Hb' as [[-> ->]|[-> ->]]; [|rewrite upto_0; constructor].
    by rewrite (upto_snoc _ _ c) by (lia || done). }
  destruct c as [d|v].
  - split; [|split; [done|done|congruence]]. cbn in Ev. rewrite Ev in Hn, Hl. split; [done|done|done|done| |done].
    apply Hd', Forall_app. split; [done|]. by apply Forall_singleton.
  - change (views_of [CView v]) with [v] in Ev. rewrite Ev in Hn, Hl.
    apply NoDup_app in Hn as (Hn1 & Hn2 & Hn3). apply NoDup_cons in Hn3 as [Hv Hn3].
    apply Forall_app in Hl as [Hl1 Hl2]. apply Forall_cons in Hl2 as [[d Hdv] Hl2].
    exists d. split; [done|]. intros h' r E. destruct (view_release_spec h no_ext v d Hh Hdv) as (h1 & r1 & E1 & Hh1 & Hlen & Hb).
    rewrite E in E1. injection E1 as -> ->.
    assert (forall u, u <> v -> vbytes h1 u = vbytes h u) as Hfr.
    { intros u Hu. rewrite Hb. unfold voverride. by destruct (Nat.eqb_spec u v). }
    assert (forall vs, v ∉ vs -> Forall (live h) vs -> Forall (live h1) vs) as Hkeep.
    { intros vs Hni Hx. apply (live_frame [v] h); [lia|..|done].
      - intros u _ Hu. apply Hfr. by rewrite list_elem_of_singleton in Hu.
      - intros u Hu. rewrite list_elem_of_singleton. by intros ->. }
    split.
    + split; try done.
      * apply NoDup_app. split_and!; [done| |done]. intros u Hu Hin. apply (Hn2 u Hu). by right.
      * apply Forall_app. split; apply Hkeep; try done. intros Hin. apply (Hn2 v Hin). by left.
      * apply Hd', Forall_app. split.
        -- eapply chunk_dead_ext; [| |exact Hd]; [lia|]. intros u _ Hu. rewrite Hb. unfold voverride. by destruct (_ =? _)%nat.
        -- apply Forall_singleton. split; [rewrite Hlen; by apply live_lt; exists d|].
           rewrite Hb. unfold voverride. by rewrite Nat.eqb_refl.
    + split; [lia| |congruence]. intros u _ Hu. apply Hfr. intros ->. apply Hu. rewrite Ev. by left.
Qed.

(** The counts of a read: one more chunk is read, the prefix perhaps dropped. *)
Definition after_take (n : Z) (b : body_stream) : body_stream :=
  let b := set_counts (received b) (read_index b + 1) (consumed_bytes b + n) (bs_queued_bytes b - n) b in
  if (read_index b >=? 64) && (read_index b * 2 >=? len (chunks b))
  then set_counts (received b) 0 (consumed_bytes b) (bs_queued_bytes b) (set_chunks (from (chunks b) (read_index b)) b)
  else b.
Lemma after_take_spec n b :
  (chunks (after_take n b) = chunks b /\ read_index (after_take n b) = read_index b + 1 \/
   chunks (after_take n b) = from (chunks b) (read_index b + 1) /\ read_index (after_take n b) = 0) /\
  bs_closed (after_take n b) = bs_closed b.
Proof. unfold after_take. cbn. destruct (_ && _); cbn; [split; [by right|done]|split; [by left|done]]. Qed.

(** What follows the locked section of a read that took chunk [c]. *)
Lemma taken_ok others b h c b2 wake :
  body_ok others b h -> at_ (chunks b) (read_index b) = Some c ->
  (chunks b2 = chunks b /\ read_index b2 = read_index b + 1 \/
   chunks b2 = from (chunks b) (read_index b + 1) /\ read_index b2 = 0) -> bs_closed b2 = bs_closed b ->
  wp (BodyStream.stream (if wake : bool then modify (set_space_ready true) else ret tt) ;;! take_bytes c)
    (fun _ t => body_ok others (fst t) (snd t) /\ body_moved b h (fst t) (snd t) /\ True) (fun _ _ => False) (b2, h).
Proof.
  intros Hb Hat Hs Hcl. apply wp_bind, wp_stream.
  assert (exists b3, (if wake then modify (set_space_ready true) else ret tt) b2 = (Ok tt, b3) /\
    chunks b3 = chunks b2 /\ read_index b3 = read_index b2 /\ bs_closed b3 = bs_closed b2) as (b3 & E & E1 & E2 & E3).
  { destruct wake; by eexists. }
  eapply wp_run; [exact E|]. rewrite <- E1, <- E2 in Hs. rewrite <- E3 in Hcl.
  pose proof (body_read others b h c b3 Hb Hat Hs Hcl) as Hr. unfold take_bytes. destruct c as [d|v].
  - destruct Hr. by split_and!.
  - destruct Hr as (d & Hd & Hr). destruct (view_release_spec h no_ext v d (bo_heap _ _ _ Hb) Hd) as (h' & r & Er & _).
    apply wp_bind. unfold BodyStream.store at 1. apply wp_zoom. cbn [fst snd].
    eapply wp_run; [by apply (view_to_bytes_spec _ no_ext); [apply Hb|]|].
    apply wp_bind. unfold BodyStream.store. apply wp_zoom. cbn [fst snd]. eapply wp_run; [exact Er|].
    destruct (Hr h' r Er). by split_and!.
Qed.

Lemma read_chunk_ok : body_call_ok BodyStream.read_chunk (fun _ _ => True).
Proof.
  intros others b h Hb. unfold BodyStream.read_chunk. apply wp_bind. unfold BodyStream.read_locked.
  apply wp_bind, wp_stream, wp_get. destruct (bs_cancelled b); [by split; [|apply body_moved_refl]|].
  destruct (read_index b <? len (chunks b)) eqn:Elt.
  2:{ destruct (ended b || bs_closed b); [by split_and!; [|apply body_moved_refl|]|].
      destruct (negb (streaming b)); [by split_and!; [|apply body_moved_refl|]|].
      apply wp_bind, wp_stream. cbn. flags_only. }
  b2p. destruct (len_pos_at (chunks b) (read_index b)) as [c Hat]; [pose proof (bo_index _ _ _ Hb); lia|]. rewrite Hat.
  apply wp_bind. unfold BodyStream.store at 1. apply wp_zoom. cbn [fst snd].
  assert (exists n, BodyStream.chunk_len c h = (Ok n, h)) as [n En].
  { destruct c as [d|v]; [by eexists|].
    destruct (body_read others b h (CView v) (after_take 0 b) Hb Hat) as (d & Hd & _); try apply after_take_spec.
    exists (len d). by apply (chunk_len_run _ no_ext); [apply Hb|]. }
  eapply wp_run; [exact En|]. apply wp_bind, wp_stream. cbn. apply wp_bind, wp_stream. cbn.
  match goal with |- context [if ?t then ?x else ?y] => change (if t then x else y) with (after_take n b) end.
  destruct (after_take_spec n b) as [Hs Hcl]. apply wp_bind, wp_stream, wp_get.
  destruct (bs_backpressured _ && _).
  - apply wp_bind, wp_stream, wp_modify, wp_ret. eapply wp_mono; [| |by apply (taken_ok others b h c _ true Hb Hat)]; done.
  - apply wp_ret. eapply wp_mono; [| |by apply (taken_ok others b h c _ false Hb Hat)]; done.
Qed.

(** Appending a chunk: bytes, or a new view of what a live view has. *)
Lemma body_append others b h data d :
  body_ok others b h -> chunk_is h data d -> bs_closed b = false ->
  exists c h', (match data with
                | CView v => let! w := BodyStream.store (BufferView.slice_ v 0 (-1)) in ret (CView w)
                | CBytes b => ret (CBytes b)
                end) (b, h) = (Ok c, (b, h')) /\
    forall b', chunks b' = chunks b ++ [c] -> read_index b' = read_index b -> bs_closed b' = false ->
      body_ok others b' h' /\ body_moved b h b' h'.
Proof.
  intros [Hh Hn Hl Hi Hd Hc] Hdata Hcl.
  assert (forall c, from (chunks b ++ [c]) (read_index b) = from (chunks b) (read_index b) ++ [c] /\
                    upto (chunks b ++ [c]) (read_index b) = upto (chunks b) (read_index b)) as Hcut.
  { intros c. split; [apply from_app_le; lia|apply upto_app_le; lia]. }
  destruct data as [x|v]; cbn in Hdata.
  - exists (CBytes x), h. split; [done|]. intros b' E1 E2 E3. destruct (Hcut (CBytes x)) as [H1 H2].
    assert (body_views_of b' = body_views_of b) as Ev.
    { unfold body_views_of. rewrite E1, E2, H1, views_of_app. apply app_nil_r. }
    split; [|split; [done|done|congruence]].
    split; rewrite ?Ev, ?E1, ?E2, ?H2; try done; [|congruence]. rewrite len_app. pose proof (len_nonneg [CBytes x]). lia.
  - destruct (view_slice_all h no_ext v d Hh Hdata) as (h' & E & Hh' & Hlen & Hb).
    exists (CView (length (views h))), h'. split.
    { unfold bind. rewrite store_run, E. done. }
    assert (forall u, (u < length (views h))%nat -> vbytes h' u = vbytes h u) as Hold.
    { intros u Hu. rewrite Hb. unfold voverride. destruct (Nat.eqb_spec u (length (views h))); [lia|done]. }
    intros b' E1 E2 E3. destruct (Hcut (CView (length (views h)))) as [H1 H2].
    assert (body_views_of b' = body_views_of b ++ [length (views h)]) as Ev.
    { unfold body_views_of. by rewrite E1, E2, H1, views_of_app. }
    split; [|split; [lia|by intros; apply Hold|congruence]].
    split; rewrite ?Ev, ?E1, ?E2, ?H2, ?app_assoc; try done; try congruence.
    + apply NoDup_app. split_and!; [done| |apply NoDup_singleton]. intros u Hu ->%list_elem_of_singleton.
      rewrite Forall_forall in Hl. specialize (Hl _ Hu). apply live_lt in Hl. lia.
    + apply Forall_app. split.
      * apply (live_frame [] h); [lia|by intros; apply Hold|by intros ? _ ?%elem_of_nil|done].
      * apply Forall_singleton. exists d. rewrite Hb. unfold voverride. by rewrite Nat.eqb_refl.
    + rewrite len_app. pose proof (len_nonneg [CView (length (views h))]). lia.
    + eapply chunk_dead_ext; [| |exact Hd]; [lia|]. intros u Hu Hx. by rewrite Hold.
Qed.

(** Feeding bytes owns no view; feeding a live view owns a copy of it. *)
Lemma feed_ok others b h data :
  body_ok others b h -> match data with CView v => v ∈ others | CBytes _ => True end ->
  wp (BodyStream.feed data)
    (fun _ t => body_ok others (fst t) (snd t) /\ body_moved b h (fst t) (snd t))
    (fun _ t => body_ok others (fst t) (snd t) /\ body_moved b h (fst t) (snd t)) (b, h).
Proof.
  intros Hb Hdata. unfold BodyStream.feed. apply wp_bind.
  assert (exists d, chunk_is h data d) as [d Hd].
  { destruct data as [d|v]; [by exists d|]. pose proof (bo_live _ _ _ Hb) as Hl. rewrite Forall_forall in Hl.
    destruct (Hl v) as [d Hd]; [apply elem_of_app; by left|]. by exists d. }
  unfold BodyStream.feed_locked. apply wp_bind, wp_stream, wp_get.
  destruct (ended b || bs_cancelled b || bs_closed b) eqn:Ef; [by split; [|apply body_moved_refl]|].
  apply wp_bind. unfold BodyStream.store at 1. apply wp_zoom. cbn [fst snd].
  eapply wp_run; [by apply (chunk_len_run _ no_ext); [apply Hb|]|].
  destruct (_ >? _); [by split; [|apply body_moved_refl]|].
  destruct (len d >? 0).
  2:{ apply wp_ret, wp_bind, wp_stream. cbn. by split; [|apply body_moved_refl]. }
  assert (exists c h', (match data with
                | CView v => let! w := BodyStream.store (BufferView.slice_ v 0 (-1)) in ret (CView w)
                | CBytes b => ret (CBytes b)
                end) (b, h) = (Ok c, (b, h')) /\
    forall b', chunks b' = chunks b ++ [c] -> read_index b' = read_index b -> bs_closed b' = false ->
      body_ok others b' h' /\ body_moved b h b' h') as (c & h' & E & Hfed).
  { apply (body_append others b h data d Hb Hd). b2p. done. }
  apply wp_bind. eapply wp_run; [exact E|].
  apply wp_bind, wp_stream, wp_modify, wp_bind, wp_stream, wp_modify, wp_bind, wp_stream, wp_modify, wp_ret.
  apply wp_bind, wp_stream. destruct (_ >=? _); apply wp_modify, wp_bind, wp_stream, wp_get, wp_ret; b2p; by apply Hfed.
Qed.
