(* ===== verification/Connection.v ===== *)
(** * One connection ([GatewayConnection] of [pcc_gateway/server.py])

    The incremental HTTP/1 session: it decodes fragments into events, begins and finishes
    requests, keeps the request handed to a proxy, a handler thread or a response stream,
    queues output under the gateway's byte accounting and gives everything back on close.
    A method runs over the connection, its request objects, the store of body views, the
    output buffer (on a store of its own: its views never leave it), the gateway's admission
    state, the TLS session and the world [W] of everything outside.

    The application, the hooks, the socket, virtual threads and response iterators are
    outside code: the fields of [surroundings].  While it runs it may call the body streams
    and cancellations of the requests (a handler reads its body, a control thread cancels):
    an outside call says which calls it made.  A hook may also close the connection.  The
    seven fields of a pending stream are set and cleared together, and so are the two of a
    pending proxy plan and of a pending handler: each group is one option. *)

From S2P Require Import Prelude PyStr Buffer Http1 Models Config Tls ProxyExchange.
#[local] Open Scope Z_scope.

Definition PCC_SOCKET_PROGRESS : Z := 0.
Definition PCC_SOCKET_WOULD_BLOCK : Z := 1.
Definition PCC_SOCKET_EOF : Z := 2.
Definition PCC_IO_READ : Z := 1.
Definition PCC_IO_WRITE : Z := 4.
Definition FLUSH_TIMEOUT : Z := -1.
Definition PROXY_DOWNSTREAM_RESPONSE_COMMITTED : str := py "downstream-protocol-committed".

Definition minimum_deadline (first second : Z) : Z :=
  if first <? 0 then second else if second <? 0 then first else if first <? second then first else second.

(** ** What the connection needs of the admission state and of the TLS session *)

Class GatewayAdmission (L : Type) `{BufferAccounting L} := {
  la_admit_request : M L bool;
  la_release_request : M L unit;
  la_queue_request : M L bool;
  la_release_queued_request : M L unit;
  la_admit_upstream : M L bool;
  la_release_upstream : M L unit;
  la_metric_add : str -> M L unit;
  la_running : L -> bool;
}.

Class TlsSession (T : Type) := {
  ts_read : Z -> Z -> Z -> Z -> M T TlsResult;
  ts_write : bytes -> Z -> Z -> Z -> M T TlsResult;
  ts_handshake : Z -> Z -> M T TlsResult;
  ts_close_notify : Z -> Z -> M T TlsResult;
  ts_cancel : M T TlsResult;
  ts_close : M T TlsResult;
  ts_output : T -> Z -> bytes;
  ts_alpn : T -> str;
  ts_handshake_complete : T -> bool;
  ts_failed : T -> bool;
  ts_released : T -> bool;
}.

(** ** Requests and outside code *)

(** A request owns its body stream and its cancellation. *)
Record req_obj := ReqObj {
  ro_request : request unit unit;
  ro_body : body_stream;
  ro_cancellation : cancellation;
}.
Definition set_ro_body (b : body_stream) (x : req_obj) : req_obj :=
  ReqObj (ro_request x) b (ro_cancellation x).
Definition set_ro_cancellation (k : cancellation) (x : req_obj) : req_obj :=
  ReqObj (ro_request x) (ro_body x) k.
Definition set_trailers (ts : list (str * str)) (x : req_obj) : req_obj :=
  let r := ro_request x in
  ReqObj (Request (rq_method r) (rq_target r) (raw_path r) (rq_path r) (query_string r) (rq_version r)
            (rq_headers r) (rq_body r) (client_ip r) (scheme r) (rq_cancellation r) (rq_content_length r)
            (chunked_body r) (expect_continue_handled r) ts (path_params r) (rq_query r))
    (ro_body x) (ro_cancellation x).

(** The calls outside code makes on a request while it runs. *)
Inductive body_call :=
| CallReadChunk
| CallWaitWritable (max_wait_ms : Z)
| CallFeed (data : bytes)
| CallFinish
| CallCancel
| CallClose.
Definition run_body_call (k : body_call) : M (body_stream * heap) unit :=
  match k with
  | CallReadChunk => let! _ := BodyStream.read_chunk in ret tt
  | CallWaitWritable n => let! _ := BodyStream.stream (BodyStream.wait_writable n) in ret tt
  | CallFeed d => let! _ := BodyStream.feed (CBytes d) in ret tt
  | CallFinish => BodyStream.finish
  | CallCancel => BodyStream.cancel
  | CallClose => BodyStream.close
  end.
Inductive effect := OnBody (r : nat) (k : body_call) | OnCancellation (r : nat) (reason : str).

Definition outside (W A : Type) : Type := W -> list effect * (result A * W).

Inductive hook :=
| HookClosed (reason : str)
| HookRequestStarted (r : nat)
| HookRequestFinished (r : nat) (status : Z)
| HookBackpressure (enabled : bool) (queued : Z)
| HookDeadline (phase : str)
| HookOpened
| HookTlsStarted
| HookTlsCompleted
| HookTlsFailed (error_name : str)
| HookTlsClosed (graceful : bool)
| HookDnsStarted (host : str)
| HookDnsFinished (host : str) (address_count : Z) (error : str).

(** What a handler answers; a streaming body is a value of [I]. *)
Inductive answer (P I : Type) := AResponse (r : response I) | APlan (p : P) | AOther.
Arguments AResponse {P I} r. Arguments APlan {P I} p. Arguments AOther {P I}.

Inductive next_item := NextStop | NextBytes (b : bytes) | NextStr (s : str) | NextOther.
Inductive thread_outcome := OutcomePending | OutcomeReturned | OutcomeRaised | OutcomeCancelled
  | OutcomeUnknown (n : Z).
#[global] Instance thread_outcome_eq_dec : EqDecision thread_outcome.
Proof. solve_decision. Defined.

(** [P]: proxy plans, [I]: streaming bodies, [It]: their iterators. *)
Record surroundings (W P I It : Type) := Surroundings {
  o_transport : bool;
  o_local_body_streaming : bool;
  o_client_ip : str;
  o_now_ms : outside W Z;
  o_read : Z -> Z -> outside W (Z * bytes);
  o_write : Z -> bytes -> outside W (Z * Z);
  o_shutdown : Z -> outside W unit;
  o_close : Z -> outside W unit;
  o_dispatch_proxy_head : nat -> request unit unit -> outside W (option P);
  o_dispatch : nat -> request unit unit -> outside W (answer P I);
  o_hook : hook -> outside W (option str);
  o_spawn : nat -> outside W Z;
  o_thread_cancel : Z -> outside W unit;
  o_thread_outcome : Z -> outside W thread_outcome;
  o_thread_join : Z -> outside W (answer P I);
  o_iter : bytes + I -> outside W It;
  o_next : It -> outside W next_item;
  o_bytes : I -> outside W bytes;
  o_wait : Z -> Z -> Z -> outside W unit;
  o_yield : outside W unit;
  o_sleep : Z -> outside W unit;
}.
Arguments o_transport {W P I It}. Arguments o_local_body_streaming {W P I It}.
Arguments o_client_ip {W P I It}. Arguments o_now_ms {W P I It}. Arguments o_read {W P I It}.
Arguments o_write {W P I It}. Arguments o_shutdown {W P I It}. Arguments o_close {W P I It}.
Arguments o_dispatch_proxy_head {W P I It}. Arguments o_dispatch {W P I It}. Arguments o_hook {W P I It}.
Arguments o_spawn {W P I It}. Arguments o_thread_cancel {W P I It}. Arguments o_thread_outcome {W P I It}.
Arguments o_thread_join {W P I It}. Arguments o_iter {W P I It}. Arguments o_next {W P I It}.
Arguments o_bytes {W P I It}. Arguments o_wait {W P I It}. Arguments o_yield {W P I It}.
Arguments o_sleep {W P I It}.

(** ** The connection *)

(** A response being streamed: the chunk taken from the iterator last, how much of it is
    queued, who holds the admission of its request. *)
Record stream (I It : Type) := Stream {
  st_request : nat;
  st_response : response I;
  st_iterator : It;
  st_chunk : bytes;
  st_offset : Z;
  st_admitted : bool;
  st_empty_chunks : Z;
}.
Arguments Stream {I It}. Arguments st_request {I It}. Arguments st_response {I It}. Arguments st_iterator {I It}.
Arguments st_chunk {I It}. Arguments st_offset {I It}. Arguments st_admitted {I It}. Arguments st_empty_chunks {I It}.

Record conn (P I It : Type) := Conn {
  fd : Z;
  has_tls : bool;
  io_wait_interest : Z;
  tls_handshake_deadline_ms : Z;
  c_codec : codec;
  current_request : option nat;
  current_keep_alive : bool;
  current_admitted : bool;
  pending_proxy : option (P * nat);
  pending_local : option (nat * Z);
  pending_stream : option (stream I It);
  deferred_events : list (event body_chunk);
  requests_completed : Z;
  close_after_flush : bool;
  c_closed : bool;
  close_reason : str;
  read_deadline_ms : Z;
  header_deadline_ms : Z;
  write_deadline_ms : Z;
}.
Arguments Conn {P I It}.
Arguments fd {P I It}. Arguments has_tls {P I It}. Arguments io_wait_interest {P I It}.
Arguments tls_handshake_deadline_ms {P I It}. Arguments c_codec {P I It}. Arguments current_request {P I It}.
Arguments current_keep_alive {P I It}. Arguments current_admitted {P I It}. Arguments pending_proxy {P I It}.
Arguments pending_local {P I It}. Arguments pending_stream {P I It}. Arguments deferred_events {P I It}.
Arguments requests_completed {P I It}. Arguments close_after_flush {P I It}. Arguments c_closed {P I It}.
Arguments close_reason {P I It}. Arguments read_deadline_ms {P I It}. Arguments header_deadline_ms {P I It}.
Arguments write_deadline_ms {P I It}.

Section setters.
Context {P I It : Type}.
Implicit Types c : conn P I It.
Definition set_fd (x : Z) c : conn P I It :=
  Conn x (has_tls c) (io_wait_interest c) (tls_handshake_deadline_ms c) (c_codec c) (current_request c)
    (current_keep_alive c) (current_admitted c) (pending_proxy c) (pending_local c) (pending_stream c)
    (deferred_events c) (requests_completed c) (close_after_flush c) (c_closed c) (close_reason c)
    (read_deadline_ms c) (header_deadline_ms c) (write_deadline_ms c).
Definition set_has_tls (x : bool) c : conn P I It :=
  Conn (fd c) x (io_wait_interest c) (tls_handshake_deadline_ms c) (c_codec c) (current_request c)
    (current_keep_alive c) (current_admitted c) (pending_proxy c) (pending_local c) (pending_stream c)
    (deferred_events c) (requests_completed c) (close_after_flush c) (c_closed c) (close_reason c)
    (read_deadline_ms c) (header_deadline_ms c) (write_deadline_ms c).
Definition set_io_wait_interest (x : Z) c : conn P I It :=
  Conn (fd c) (has_tls c) x (tls_handshake_deadline_ms c) (c_codec c) (current_request c) (current_keep_alive c)
    (current_admitted c) (pending_proxy c) (pending_local c) (pending_stream c) (deferred_events c)
    (requests_completed c) (close_after_flush c) (c_closed c) (close_reason c) (read_deadline_ms c)
    (header_deadline_ms c) (write_deadline_ms c).
Definition set_tls_handshake_deadline_ms (x : Z) c : conn P I It :=
  Conn (fd c) (has_tls c) (io_wait_interest c) x (c_codec c) (current_request c) (current_keep_alive c)
    (current_admitted c) (pending_proxy c) (pending_local c) (pending_stream c) (deferred_events c)
    (requests_completed c) (close_after_flush c) (c_closed c) (close_reason c) (read_deadline_ms c)
    (header_deadline_ms c) (write_deadline_ms c).
Definition set_c_codec (x : codec) c : conn P I It :=
  Conn (fd c) (has_tls c) (io_wait_interest c) (tls_handshake_deadline_ms c) x (current_request c)
    (current_keep_alive c) (current_admitted c) (pending_proxy c) (pending_local c) (pending_stream c)
    (deferred_events c) (requests_completed c) (close_after_flush c) (c_closed c) (close_reason c)
    (read_deadline_ms c) (header_deadline_ms c) (write_deadline_ms c).
Definition set_current_request (x : option nat) c : conn P I It :=
  Conn (fd c) (has_tls c) (io_wait_interest c) (tls_handshake_deadline_ms c) (c_codec c) x
    (current_keep_alive c) (current_admitted c) (pending_proxy c) (pending_local c) (pending_stream c)
    (deferred_events c) (requests_completed c) (close_after_flush c) (c_closed c) (close_reason c)
    (read_deadline_ms c) (header_deadline_ms c) (write_deadline_ms c).
Definition set_current_keep_alive (x : bool) c : conn P I It :=
  Conn (fd c) (has_tls c) (io_wait_interest c) (tls_handshake_deadline_ms c) (c_codec c) (current_request c) x
    (current_admitted c) (pending_proxy c) (pending_local c) (pending_stream c) (deferred_events c)
    (requests_completed c) (close_after_flush c) (c_closed c) (close_reason c) (read_deadline_ms c)
    (header_deadline_ms c) (write_deadline_ms c).
Definition set_current_admitted (x : bool) c : conn P I It :=
  Conn (fd c) (has_tls c) (io_wait_interest c) (tls_handshake_deadline_ms c) (c_codec c) (current_request c)
    (current_keep_alive c) x (pending_proxy c) (pending_local c) (pending_stream c) (deferred_events c)
    (requests_completed c) (close_after_flush c) (c_closed c) (close_reason c) (read_deadline_ms c)
    (header_deadline_ms c) (write_deadline_ms c).
Definition set_pending_proxy (x : option (P * nat)) c : conn P I It :=
  Conn (fd c) (has_tls c) (io_wait_interest c) (tls_handshake_deadline_ms c) (c_codec c) (current_request c)
    (current_keep_alive c) (current_admitted c) x (pending_local c) (pending_stream c) (deferred_events c)
    (requests_completed c) (close_after_flush c) (c_closed c) (close_reason c) (read_deadline_ms c)
    (header_deadline_ms c) (write_deadline_ms c).
Definition set_pending_local (x : option (nat * Z)) c : conn P I It :=
  Conn (fd c) (has_tls c) (io_wait_interest c) (tls_handshake_deadline_ms c) (c_codec c) (current_request c)
    (current_keep_alive c) (current_admitted c) (pending_proxy c) x (pending_stream c) (deferred_events c)
    (requests_completed c) (close_after_flush c) (c_closed c) (close_reason c) (read_deadline_ms c)
    (header_deadline_ms c) (write_deadline_ms c).
Definition set_pending_stream (x : option (stream I It)) c : conn P I It :=
  Conn (fd c) (has_tls c) (io_wait_interest c) (tls_handshake_deadline_ms c) (c_codec c) (current_request c)
    (current_keep_alive c) (current_admitted c) (pending_proxy c) (pending_local c) x (deferred_events c)
    (requests_completed c) (close_after_flush c) (c_closed c) (close_reason c) (read_deadline_ms c)
    (header_deadline_ms c) (write_deadline_ms c).
Definition set_deferred_events (x : list (event body_chunk)) c : conn P I It :=
  Conn (fd c) (has_tls c) (io_wait_interest c) (tls_handshake_deadline_ms c) (c_codec c) (current_request c)
    (current_keep_alive c) (current_admitted c) (pending_proxy c) (pending_local c) (pending_stream c) x
    (requests_completed c) (close_after_flush c) (c_closed c) (close_reason c) (read_deadline_ms c)
    (header_deadline_ms c) (write_deadline_ms c).
Definition set_requests_completed (x : Z) c : conn P I It :=
  Conn (fd c) (has_tls c) (io_wait_interest c) (tls_handshake_deadline_ms c) (c_codec c) (current_request c)
    (current_keep_alive c) (current_admitted c) (pending_proxy c) (pending_local c) (pending_stream c)
    (deferred_events c) x (close_after_flush c) (c_closed c) (close_reason c) (read_deadline_ms c)
    (header_deadline_ms c) (write_deadline_ms c).
Definition set_close_after_flush (x : bool) c : conn P I It :=
  Conn (fd c) (has_tls c) (io_wait_interest c) (tls_handshake_deadline_ms c) (c_codec c) (current_request c)
    (current_keep_alive c) (current_admitted c) (pending_proxy c) (pending_local c) (pending_stream c)
    (deferred_events c) (requests_completed c) x (c_closed c) (close_reason c) (read_deadline_ms c)
    (header_deadline_ms c) (write_deadline_ms c).
Definition set_c_closed (x : bool) c : conn P I It :=
  Conn (fd c) (has_tls c) (io_wait_interest c) (tls_handshake_deadline_ms c) (c_codec c) (current_request c)
    (current_keep_alive c) (current_admitted c) (pending_proxy c) (pending_local c) (pending_stream c)
    (deferred_events c) (requests_completed c) (close_after_flush c) x (close_reason c) (read_deadline_ms c)
    (header_deadline_ms c) (write_deadline_ms c).
Definition set_close_reason (x : str) c : conn P I It :=
  Conn (fd c) (has_tls c) (io_wait_interest c) (tls_handshake_deadline_ms c) (c_codec c) (current_request c)
    (current_keep_alive c) (current_admitted c) (pending_proxy c) (pending_local c) (pending_stream c)
    (deferred_events c) (requests_completed c) (close_after_flush c) (c_closed c) x (read_deadline_ms c)
    (header_deadline_ms c) (write_deadline_ms c).
Definition set_read_deadline_ms (x : Z) c : conn P I It :=
  Conn (fd c) (has_tls c) (io_wait_interest c) (tls_handshake_deadline_ms c) (c_codec c) (current_request c)
    (current_keep_alive c) (current_admitted c) (pending_proxy c) (pending_local c) (pending_stream c)
    (deferred_events c) (requests_completed c) (close_after_flush c) (c_closed c) (close_reason c) x
    (header_deadline_ms c) (write_deadline_ms c).
Definition set_header_deadline_ms (x : Z) c : conn P I It :=
  Conn (fd c) (has_tls c) (io_wait_interest c) (tls_handshake_deadline_ms c) (c_codec c) (current_request c)
    (current_keep_alive c) (current_admitted c) (pending_proxy c) (pending_local c) (pending_stream c)
    (deferred_events c) (requests_completed c) (close_after_flush c) (c_closed c) (close_reason c)
    (read_deadline_ms c) x (write_deadline_ms c).
Definition set_write_deadline_ms (x : Z) c : conn P I It :=
  Conn (fd c) (has_tls c) (io_wait_interest c) (tls_handshake_deadline_ms c) (c_codec c) (current_request c)
    (current_keep_alive c) (current_admitted c) (pending_proxy c) (pending_local c) (pending_stream c)
    (deferred_events c) (requests_completed c) (close_after_flush c) (c_closed c) (close_reason c)
    (read_deadline_ms c) (header_deadline_ms c) x.
End setters.

(** What the connection reads of its configuration. *)
Record settings := Settings {
  k_http1 : http1_limits;
  k_buffers : buffer_limits;
  k_max_requests : Z;
  k_write_timeout_ms : Z;
  k_tls_handshake_timeout_ms : Z;
  k_tls_close_timeout_ms : Z;
}.

Module GatewayConnection.
Section connection.
Context {W P I It L T : Type} `{GatewayAdmission L} `{TlsSession T}.
Context (env : surroundings W P I It) (config : settings).
Abbreviation conn := (conn P I It).
Abbreviation stream := (stream I It).
Abbreviation answer := (answer P I).

Record state := State {
  s_conn : conn;
  s_requests : list req_obj;
  s_bodies : heap;
  s_output : cbuf * heap;
  s_life : L;
  s_tls : T;
  s_world : W;
}.
Abbreviation C := (M state).

Definition self : C conn := fun t => (Ok (s_conn t), t).
Definition set_conn (c : conn) (t : state) : state :=
  State c (s_requests t) (s_bodies t) (s_output t) (s_life t) (s_tls t) (s_world t).
Definition set_requests (rs : list req_obj) (h : heap) (t : state) : state :=
  State (s_conn t) rs h (s_output t) (s_life t) (s_tls t) (s_world t).
Definition set_world (w : W) (t : state) : state :=
  State (s_conn t) (s_requests t) (s_bodies t) (s_output t) (s_life t) (s_tls t) w.
Definition upd (f : conn -> conn) : C unit := modify (fun t => set_conn (f (s_conn t)) t).
Definition on_heap {A} (m : M heap A) : C A := zoom s_bodies (fun h t => set_requests (s_requests t) h t) m.
Definition on_output {A} (m : M (cbuf * heap) A) : C A :=
  zoom s_output (fun b t => State (s_conn t) (s_requests t) (s_bodies t) b (s_life t) (s_tls t) (s_world t)) m.
Definition on_life {A} (m : M L A) : C A :=
  zoom s_life (fun l t => State (s_conn t) (s_requests t) (s_bodies t) (s_output t) l (s_tls t) (s_world t)) m.
Definition on_tls {A} (m : M T A) : C A :=
  zoom s_tls (fun x t => State (s_conn t) (s_requests t) (s_bodies t) (s_output t) (s_life t) x (s_world t)) m.
Definition on_codec {A} (m : M (codec * heap) A) : C A :=
  zoom (fun t => (c_codec (s_conn t), s_bodies t))
       (fun x t => set_conn (set_c_codec (fst x) (s_conn t)) (set_requests (s_requests t) (snd x) t)) m.

Definition get_request (r : nat) : C req_obj := fun t =>
  match s_requests t !! r with Some x => (Ok x, t) | None => (Raise dangling, t) end.
Definition put_request (r : nat) (x : req_obj) : C unit :=
  modify (fun t => set_requests (<[r := x]> (s_requests t)) (s_bodies t) t).
Definition on_body {A} (r : nat) (m : M (body_stream * heap) A) : C A := fun t =>
  match s_requests t !! r with
  | None => (Raise dangling, t)
  | Some x =>
      let '(a, (b, h)) := m (ro_body x, s_bodies t) in
      (a, set_requests (<[r := set_ro_body b x]> (s_requests t)) h t)
  end.
Definition cancel_request (r : nat) (reason : str) : C unit :=
  let! x := get_request r in
  put_request r (set_ro_cancellation (snd (Cancellation.cancel reason (ro_cancellation x))) x).

(** The calls an outside call made, then its result. *)
Definition run_effect (e : effect) : C unit :=
  match e with
  | OnBody r k => on_body r (run_body_call k)
  | OnCancellation r reason => cancel_request r reason
  end.
Definition outside_call {A} (m : outside W A) : C A := fun t =>
  let '(es, (r, w)) := m (s_world t) in
  let t := set_world w t in
  (r, fold_left (fun t e => snd (run_effect e t)) es t).

Definition now_ms : C Z := if o_transport env then outside_call (o_now_ms env) else ret 0.
(** [self.transport.m(...)]: an attribute of [None] without a transport. *)
Definition transport {A} (m : outside W A) : C A :=
  if o_transport env then outside_call m else raise AttributeError.
Definition output_len : C Z := fun t => (Ok (queued_bytes (fst (s_output t))), t).
Definition lifecycle_running : C bool := fun t => (Ok (la_running (s_life t)), t).
Definition capture {A} (m : C A) : C (result A) :=
  try_except (let! a := m in ret (Ok a)) (fun e => ret (Raise e)).

(** A new connection and its output buffer. *)
Definition init (fd : Z) (has_tls : bool) : result (conn * cbuf) :=
  let k := k_http1 config in
  let b := k_buffers config in
  let? codec := Http1ServerCodec.init (request_line_bytes k) (header_bytes k) (header_count k) (body_bytes k) (chunk_bytes k) in
  let? output := ChannelBuffer.init (segment_bytes b) (bl_low_watermark b) (bl_high_watermark b) (connection_bytes b) in
  Ok (Conn fd has_tls PCC_IO_READ (-1) codec None true false None None None [] 0 false false [] (-1) (-1) (-1), output).

(** ** Giving back a request *)

Definition is_pending_proxy (r : nat) (c : conn) : bool :=
  match pending_proxy c with Some (_, q) => (q =? r)%nat | None => false end.
Definition is_pending_local (r : nat) (c : conn) : bool :=
  match pending_local c with Some (q, _) => (q =? r)%nat | None => false end.
Definition is_current (r : nat) (c : conn) : bool := bool_decide (current_request c = Some r).
Definition release_request : C unit := on_life la_release_request.
Definition close_body (r : nat) : C unit := on_body r BodyStream.close.
Definition cancel_body (r : nat) : C unit := on_body r BodyStream.cancel.

Definition abort_current_request (reason : str) : C unit :=
  let! c := self in
  match current_request c with
  | None => ret tt
  | Some r =>
      let admitted := current_admitted c in
      let proxy_owned := is_pending_proxy r c in
      let local_owned := is_pending_local r c in
      upd (fun c => set_current_admitted false (set_current_request None c)) ;;!
      let! e1 := attempt (cancel_request r reason) in
      let! e2 :=
        if local_owned then attempt (cancel_body r)
        else if negb proxy_owned
        then attempt_all ([cancel_body r; close_body r] ++ if admitted then [release_request] else [])
        else ret None in
      reraise (first_of e1 e2)
  end.

Definition signal_pending_local (reason : str) : C unit :=
  let! c := self in
  match pending_local c with
  | None => ret tt
  | Some (r, thread) =>
      let! e := attempt_all [cancel_request r reason; cancel_body r;
                             outside_call (o_thread_cancel env thread)] in
      reraise e
  end.

(** The requests a control thread signals, each of them once. *)
Definition owned_requests (c : conn) : list nat :=
  let add r rs := if bool_decide (r ∈ rs) then rs else rs ++ [r] in
  let add_opt o rs := match o with Some r => add r rs | None => rs end in
  add_opt (option_map st_request (pending_stream c))
    (add_opt (option_map snd (pending_proxy c))
      (add_opt (option_map fst (pending_local c)) (add_opt (current_request c) []))).
Definition signal_owner_shutdown (reason : str) : C unit :=
  let! c := self in
  let! e1 := attempt_all (concat (map (fun r => [cancel_request r reason; cancel_body r]) (owned_requests c))) in
  let! c := self in
  let! e2 := match pending_local c with
             | Some (_, thread) => attempt (outside_call (o_thread_cancel env thread))
             | None => ret None
             end in
  let! e3 := if o_transport env && (fd c >=? 0) then attempt (outside_call (o_shutdown env (fd c))) else ret None in
  reraise (first_of e1 (first_of e2 e3)).

Definition take_pending_local : C unit := upd (set_pending_local None).

Definition cancel_pending_proxy (reason : str) : C unit :=
  let! c := self in
  match pending_proxy c with
  | None => ret tt
  | Some (_, r) =>
      upd (set_pending_proxy None) ;;!
      let! e := attempt_all [cancel_request r reason; cancel_body r; close_body r; release_request] in
      reraise e
  end.

Definition cancel_pending_stream (reason : str) : C unit :=
  let! c := self in
  match pending_stream c with
  | None => ret tt
  | Some s =>
      upd (set_pending_stream None) ;;!
      let! e := attempt_all ([cancel_request (st_request s) reason; close_body (st_request s)]
                               ++ if st_admitted s then [release_request] else []) in
      reraise e
  end.

(** ** Event ledgers *)

(** [_release_event_suffix]: the first error, and the events as they are afterwards. *)
Fixpoint release_ledger (es : list (event body_chunk)) (queued_heads : bool)
    : C (option exn * list (event body_chunk)) :=
  match es with
  | [] => ret (None, [])
  | e :: es' =>
      let! o := capture (match e with
                         | EBody b => let! (_, b) := on_heap (BodyChunk.release b) in ret (EBody b)
                         | EHead _ => (if queued_heads then on_life la_release_queued_request else ret tt) ;;! ret e
                         | EEnd _ => ret e
                         end) in
      let! (first, rest) := release_ledger es' queued_heads in
      match o with
      | Ok e => ret (first, e :: rest)
      | Raise x => ret (Some x, e :: rest)
      end
  end.
Definition release_event_suffix (es : list (event body_chunk)) (queued_heads : bool) : C unit :=
  let! (first_error, _) := release_ledger es queued_heads in reraise first_error.
Definition discard_deferred_events : C unit :=
  let! c := self in
  upd (set_deferred_events []) ;;!
  release_event_suffix (deferred_events c) true.

(** ** Closing *)

(** The calls on the session, the socket and the hooks; a hook that closes again finds the
    connection closed. *)
Definition transport_calls (c : conn) (reason : str) : list (C unit) :=
  (if has_tls c then
     (if str_in reason [py "forced-drain"; py "carrier-pool-stopped"] then [on_tls ts_cancel ;;! ret tt] else [])
     ++ [on_tls ts_close ;;! ret tt]
   else []) ++
  (if o_transport env && (fd c >=? 0)
   then [outside_call (o_shutdown env (fd c)); outside_call (o_close env (fd c))] else []) ++
  [outside_call (o_hook env (HookClosed reason)) ;;! ret tt].

Definition close (reason : str) : C unit :=
  let! c := self in
  if c_closed c then ret tt
  else
    upd (fun c => set_fd (-1) (set_has_tls false (set_deferred_events [] (set_close_reason reason (set_c_closed true c))))) ;;!
    let! buffered := output_len in
    let! e1 := attempt_all [abort_current_request reason; signal_pending_local reason;
                            cancel_pending_proxy reason; cancel_pending_stream reason] in
    let! c1 := self in
    let e1 := match e1, pending_local c1 with
              | None, Some _ => Some (GatewayError (py "pending local handler settlement requires connection owner"))
              | _, _ => e1
              end in
    let! (e2, _) := release_ledger (deferred_events c) true in
    let! e3 := attempt_all (
      [on_output ChannelBuffer.close ;;! ret tt] ++
      (if buffered =? 0 then [] else [on_life (acc_release buffered)]) ++
      transport_calls c reason) in
    reraise (first_of e1 (first_of e2 e3)).

(** A hook, which may close the connection before it returns. *)
Definition call_hook (h : hook) : C unit :=
  let! asked := outside_call (o_hook env h) in
  match asked with Some reason => close reason | None => ret tt end.

(** ** Output *)

Definition queue_bytes (data : bytes) : C unit :=
  if bool_decide (data = []) then ret tt
  else
    let! reserved := on_life (acc_reserve (len data)) in
    if negb reserved then raise (BufferLimitError (py "gateway global buffered-byte limit exceeded"))
    else
      let! transition :=
        try_except (on_output (ChannelBuffer.append data))
          (fun e => on_life (acc_release (len data)) ;;! raise e) in
      let! c := self in
      (if write_deadline_ms c <? 0
       then let! now := now_ms in upd (set_write_deadline_ms (now + k_write_timeout_ms config))
       else ret tt) ;;!
      if transition =? BACKPRESSURE_HIGH then
        on_life (la_metric_add (py "backpressure_parks")) ;;!
        let! n := output_len in
        call_hook (HookBackpressure true n)
      else ret tt.

Definition consume_output (count : Z) : C unit :=
  if count <=? 0 then ret tt
  else
    let! transition := on_output (ChannelBuffer.consume count) in
    on_life (acc_release count) ;;!
    (if transition =? BACKPRESSURE_LOW
     then let! n := output_len in call_hook (HookBackpressure false n) else ret tt) ;;!
    let! n := output_len in
    if n =? 0 then upd (set_write_deadline_ms (-1))
    else let! now := now_ms in upd (set_write_deadline_ms (now + k_write_timeout_ms config)).

Definition peek_output (limit : Z) : C bytes :=
  on_output (let! views := ChannelBuffer.peek_views limit in
             ChannelBuffer.on_heap (ChannelBuffer.read_loop views [])).
Definition take_output (limit : Z) : C bytes :=
  let! result := peek_output limit in
  consume_output (len result) ;;! ret result.
(** ** Responses *)

Definition text_response (body : str) (status : Z) : result (response I) := Response.text body status [].
Definition status_without_body (status : Z) : bool :=
  ((100 <=? status) && (status <? 200)) || (status =? 204) || (status =? 304).
Definition wants_stream (method : str) (r : response I) : bool :=
  rs_streaming r && negb (status_without_body (rs_status r)) && negb (str_eqb method (py "HEAD")).
Definition response_keep_alive : C bool :=
  let! c := self in ret (current_keep_alive c && negb (close_after_flush c)).

(** Framing and persistence fields belong to the codec. *)
Definition own_headers (hs : list (str * str)) : list (str * str) :=
  List.filter (fun p => negb (str_in (lower (fst p)) [py "content-length"; py "transfer-encoding"; py "connection"])) hs.

Definition response_payload (method : str) (a : answer) : C bytes :=
  let! r := match a with
            | AResponse r => ret r
            | _ => lift (text_response (py "internal server error") 500)
            end in
  let hs := own_headers (rs_headers r) in
  let! keep_alive := response_keep_alive in
  let content_length_forbidden := ((100 <=? rs_status r) && (rs_status r <? 200)) || (rs_status r =? 204) in
  let without_body := content_length_forbidden || (rs_status r =? 304) in
  let is_head := str_eqb method (py "HEAD") in
  if rs_streaming r
  then lift (Http1ResponseEncoder.head (rs_status r) hs (-1) (negb without_body && negb is_head) keep_alive)
  else
    let! body := match rs_body r with
                 | inl b => ret b
                 | inr x => outside_call (o_bytes env x)
                 end in
    let content_length := if content_length_forbidden then -1 else len body in
    let! head := lift (Http1ResponseEncoder.head (rs_status r) hs content_length false keep_alive) in
    ret (head ++ if negb without_body && negb is_head then body else []).

Definition request_finished (r : nat) (x : response I) : C unit :=
  call_hook (HookRequestFinished r (rs_status x)).

(** The end of a request: whether the connection may take another. *)
Definition close_if_last : C unit :=
  let! c := self in
  let! running := lifecycle_running in
  if negb (current_keep_alive c) || (requests_completed c >=? k_max_requests config) || negb running
  then upd (set_close_after_flush true) else ret tt.
Definition count_completed : C unit := upd (fun c => set_requests_completed (requests_completed c + 1) c).

Definition begin_streaming_response (r : nat) (x : response I) (admitted : bool) : C unit :=
  let! iterator := outside_call (o_iter env (rs_body x)) in
  let! keep_alive := response_keep_alive in
  let! head := lift (Http1ResponseEncoder.head (rs_status x) (own_headers (rs_headers x)) (-1) true keep_alive) in
  queue_bytes head ;;!
  upd (set_pending_stream (Some (Stream r x iterator [] 0 admitted 0))).

Definition complete_streaming_response : C unit :=
  let! c := self in
  match pending_stream c with
  | None => ret tt
  | Some s =>
      upd (set_pending_stream None) ;;!
      count_completed ;;!
      let! e := attempt_all ([request_finished (st_request s) (st_response s); close_body (st_request s)]
                               ++ if st_admitted s then [release_request] else []) in
      close_if_last ;;!
      reraise e
  end.

(** [_cancel_pending_stream] and the connection closes after what is queued. *)
Definition give_up_stream (reason : str) : C unit :=
  cancel_pending_stream reason ;;! upd (set_close_after_flush true).
Definition upd_stream (f : stream -> stream) : C unit :=
  upd (fun c => set_pending_stream (option_map f (pending_stream c)) c).
Definition set_chunk (b : bytes) (offset : Z) (s : stream) : stream :=
  Stream (st_request s) (st_response s) (st_iterator s) b offset (st_admitted s) (st_empty_chunks s).
Definition set_empty_chunks (n : Z) (s : stream) : stream :=
  Stream (st_request s) (st_response s) (st_iterator s) (st_chunk s) (st_offset s) (st_admitted s) n.

(** The next bounded piece of the current chunk. *)
Definition queue_piece (available : Z) : C unit :=
  let! c := self in
  match pending_stream c with
  | None => ret tt
  | Some s =>
      let take := len (st_chunk s) - st_offset s in
      let take := if take >? segment_bytes (k_buffers config) then segment_bytes (k_buffers config) else take in
      let take := if take >? available - 32 then available - 32 else take in
      if take <=? 0 then ret tt
      else
        let data := slice (st_chunk s) (st_offset s) (st_offset s + take) in
        upd_stream (set_chunk (st_chunk s) (st_offset s + take)) ;;!
        let! chunk := lift (Http1ResponseEncoder.chunk data) in
        queue_bytes chunk
  end.

Definition drive_streaming_response : C unit :=
  let! c := self in
  match pending_stream c with
  | None => ret tt
  | Some s =>
      let! x := get_request (st_request s) in
      if cancelled (ro_cancellation x) then give_up_stream (py "streaming response cancelled")
      else
        let! n := output_len in
        let available := connection_bytes (k_buffers config) - n in
        if available <=? 32 then ret tt
        else if st_offset s >=? len (st_chunk s) then
          let! item := outside_call (o_next env (st_iterator s)) in
          let piece (chunk : bytes) : C unit :=
            if len chunk =? 0 then
              upd_stream (set_empty_chunks (st_empty_chunks s + 1)) ;;!
              if st_empty_chunks s + 1 >? 1024 then give_up_stream (py "too many empty response chunks") else ret tt
            else
              upd_stream (fun s => set_chunk chunk 0 (set_empty_chunks 0 s)) ;;!
              queue_piece available in
          match item with
          | NextStop =>
              let! tail := lift (Http1ResponseEncoder.end_chunks []) in
              queue_bytes tail ;;!
              complete_streaming_response
          | NextOther => give_up_stream (py "invalid response stream chunk")
          | NextStr text => let! chunk := lift (utf8_encode text) in piece chunk
          | NextBytes chunk => piece chunk
          end
        else queue_piece available
  end.

Definition is_BufferLimitError (e : exn) : bool := match e with BufferLimitError _ => true | _ => false end.
(** [except BufferLimitError]: the response did not fit. *)
Definition on_overflow (method : str) (e : exn) : C unit :=
  if is_BufferLimitError e then
    upd (set_close_after_flush true) ;;!
    let! n := output_len in
    if n =? 0 then
      let! fallback := lift (text_response (py "response buffer limit exceeded") 503) in
      let! payload := response_payload method (AResponse fallback) in
      queue_bytes payload
    else ret tt
  else raise e.

Definition publish_response (r : nat) (method : str) (x : response I) : C unit :=
  let! payload := response_payload method (AResponse x) in
  queue_bytes payload ;;!
  request_finished r x.

(** What follows the [try] of [_complete_local_handler_response]; [Ok true]: the admission
    and the body have gone to the pending stream. *)
Definition conclude_local (r : nat) (o : result bool) : C unit :=
  match o with
  | Ok true => ret tt
  | _ =>
      let! cleanup := attempt_all [release_request; close_body r] in
      reraise (first_of (match o with Raise e => Some e | Ok _ => None end) cleanup) ;;!
      count_completed ;;!
      close_if_last
  end.

Definition complete_local_handler_response (r : nat) (a : answer) : C unit :=
  let! x := match a with
            | AResponse x => ret x
            | _ => lift (text_response (py "internal server error") 500)
            end in
  let! q := get_request r in
  let method := rq_method (ro_request q) in
  let! o := capture (try_except
    (if wants_stream method x then begin_streaming_response r x true ;;! ret true
     else publish_response r method x ;;! ret false)
    (fun e => on_overflow method e ;;! ret false)) in
  conclude_local r o.

(** ** Requests *)

Definition alloc_request (x : req_obj) : C nat := fun t =>
  (Ok (length (s_requests t)), set_requests (s_requests t ++ [x]) (s_bodies t) t).

Definition begin_request (head : request_head) : C unit :=
  let! c := self in
  if bool_decide (is_Some (current_request c))
  then raise (Http1Error 400 (py "overlapping-request") (py "request body overlaps"))
  else
    let! now := now_ms in
    let deadline := now + body_timeout_ms (k_http1 config) in
    let local_body_streaming :=
      o_transport env && o_local_body_streaming env && ((content_length head >? 0) || Http1.chunked head) in
    let! body := lift (BodyStream.init (body_bytes (k_http1 config)) (bl_low_watermark (k_buffers config))
                         (bl_high_watermark (k_buffers config)) local_body_streaming) in
    let! request := lift (make_request (method head) (target head) (version head) (headers head) tt
                            (o_client_ip env) (if has_tls c then py "https" else py "http") tt
                            (content_length head) (Http1.chunked head) (expect_continue head)) in
    let! r := alloc_request (ReqObj request body (new_cancellation deadline)) in
    upd (fun c => set_current_keep_alive (keep_alive head)
                    (set_current_request (Some r) (set_header_deadline_ms (-1) c))) ;;!
    let! admitted := on_life la_admit_request in
    upd (set_current_admitted admitted) ;;!
    if negb admitted then ret tt
    else
      call_hook (HookRequestStarted r) ;;!
      (if expect_continue head then queue_bytes (py "HTTP/1.1 100 Continue" ++ CRLF2) else ret tt) ;;!
      let! early_proxy := outside_call (o_dispatch_proxy_head env r request) in
      match early_proxy, o_transport env with
      | Some plan, true =>
          upd (fun c => set_current_admitted false (set_pending_proxy (Some (plan, r)) c))
      | _, _ =>
          if local_body_streaming then
            let! child := outside_call (o_spawn env r) in
            upd (fun c => set_current_admitted false (set_pending_local (Some (r, child)) c))
          else ret tt
      end.

(** [request.cancellation.cancel(...)], the hook, and a 408 instead of the answer. *)
Definition request_timeout (r : nat) : C (response I) :=
  cancel_request r (py "request deadline exceeded") ;;!
  call_hook (HookDeadline (py "request")) ;;!
  let! x := lift (text_response (py "request timeout") 408) in
  upd (set_close_after_flush true) ;;! ret x.

(** What answers an admitted request: [None] when it has gone to a proxy plan. *)
Definition dispatch_request (r : nat) : C (option answer) :=
  let! x := get_request r in
  let! now := now_ms in
  if now >=? Models.deadline_ms (ro_cancellation x) then
    let! y := request_timeout r in ret (Some (AResponse y))
  else
    let! a := outside_call (o_dispatch env r (ro_request x)) in
    let! a := match a, o_transport env with
              | APlan plan, true => upd (set_pending_proxy (Some (plan, r))) ;;! ret None
              | APlan _, false =>
                  let! y := lift (text_response (py "proxy transport unavailable") 503) in ret (Some (AResponse y))
              | a, _ => ret (Some a)
              end in
    match a with
    | None => ret None
    | Some a =>
        let! x := get_request r in
        let! now := now_ms in
        if now >=? Models.deadline_ms (ro_cancellation x) then
          let! y := request_timeout r in ret (Some (AResponse y))
        else ret (Some a)
    end.

(** The [try] of [_finish_request]; [true] for its [return]s. *)
Definition answer_request (r : nat) (admitted : bool) : C bool :=
  let! a := if negb admitted then
              let! y := lift (text_response (py "gateway overloaded") 503) in
              upd (set_close_after_flush true) ;;! ret (Some (AResponse y))
            else dispatch_request r in
  match a with
  | None => ret true
  | Some (AResponse x) =>
      let! q := get_request r in
      let method := rq_method (ro_request q) in
      if wants_stream method x
      then begin_streaming_response r x admitted ;;! ret true
      else publish_response r method x ;;! ret false
  | Some _ => raise AttributeError
  end.

(** The [finally] of [_finish_request]. *)
Definition retire_unless_pending (r : nat) (admitted : bool) : C unit :=
  let! c := self in
  let pending := bool_decide (is_Some (pending_proxy c)) || bool_decide (is_Some (pending_stream c)) in
  (if admitted && negb pending then release_request else ret tt) ;;!
  let! c := self in
  if negb (bool_decide (is_Some (pending_proxy c))) && negb (bool_decide (is_Some (pending_stream c)))
  then close_body r else ret tt.

Definition finish_request : C unit :=
  let! c := self in
  let admitted := current_admitted c in
  upd (fun c => set_current_admitted false (set_current_request None c)) ;;!
  match current_request c with
  | None => raise (Http1Error 400 (py "orphan-request-end") (py "request end without head"))
  | Some r =>
      on_body r BodyStream.finish ;;!
      let! c := self in
      if is_pending_proxy r c || is_pending_local r c then ret tt
      else
        let! x := get_request r in
        let! returned :=
          try_finally
            (try_except (answer_request r admitted)
               (fun e => on_overflow (rq_method (ro_request x)) e ;;! ret false))
            (retire_unless_pending r admitted) in
        let! c := self in
        if returned || bool_decide (is_Some (pending_proxy c)) || bool_decide (is_Some (pending_stream c)) then ret tt
        else count_completed ;;! close_if_last
  end.

(** ** Events *)

Definition release_chunk (b : body_chunk) : C unit := let! _ := on_heap (BodyChunk.release b) in ret tt.

Definition handle_event (e : event body_chunk) : C unit :=
  match e with
  | EHead head =>
      try_except (begin_request head) (fun error =>
        if is_ValueError error then raise (Http1Error 400 (py "bad-target") (exn_message error)) else raise error)
  | EBody b =>
      let! c := self in
      match current_request c with
      | None => release_chunk b ;;! raise (Http1Error 400 (py "orphan-body") (py "body without request head"))
      | Some r =>
          try_finally (let! _ := on_body r (BodyStream.feed (CView (bc_view b))) in ret tt) (release_chunk b)
      end
  | EEnd trailers =>
      let! c := self in
      (match current_request c with
       | Some r => let! x := get_request r in put_request r (set_trailers trailers x)
       | None => ret tt
       end) ;;!
      finish_request
  end.

Definition is_pending (c : conn) : bool :=
  bool_decide (is_Some (pending_proxy c)) || bool_decide (is_Some (pending_local c))
  || bool_decide (is_Some (pending_stream c)).
Definition defer (e : event body_chunk) : C unit := upd (fun c => set_deferred_events (deferred_events c ++ [e]) c).
Definition is_head (e : event body_chunk) : bool := match e with EHead _ => true | _ => false end.

(** The event loop of [feed_data]: the count handled, or the exception with the events
    that have not been handed over. *)
Fixpoint feed_events (es : list (event body_chunk)) (handled : Z) : C (result Z * list (event body_chunk)) :=
  match es with
  | [] => ret (Ok handled, [])
  | e :: es' =>
      let! c := self in
      if close_after_flush c then
        let! (first_error, rest) := release_ledger es false in
        match first_error with
        | None => ret (Ok handled, [])
        | Some x => ret (Raise x, tail rest)
        end
      else if is_pending c then
        let! queued := capture (if is_head e then on_life la_queue_request else ret true) in
        match queued with
        | Raise x => ret (Raise x, es')
        | Ok false =>
            upd (set_close_after_flush true) ;;!
            let! (first_error, rest) := release_ledger es' false in
            match first_error with
            | None => ret (Ok handled, [])
            | Some x => ret (Raise x, rest)
            end
        | Ok true => defer e ;;! feed_events es' handled
        end
      else
        let! o := capture (handle_event e) in
        match o with
        | Ok _ => feed_events es' (handled + 1)
        | Raise x => ret (Raise x, es')
        end
  end.

Definition arm_header_deadline : C unit :=
  let! c := self in
  if negb (bool_decide (is_Some (current_request c))) && bool_decide (Http1.state (c_codec c) = HEAD)
     && (len (buffer (c_codec c)) >? 0) && (header_deadline_ms c <? 0)
  then let! now := now_ms in upd (set_header_deadline_ms (now + header_timeout_ms (k_http1 config)))
  else ret tt.

Definition fail_http (error : exn) : C unit :=
  let '(code, status) := match error with Http1Error status code _ => (code, status) | _ => ([], 400) end in
  on_life (la_metric_add (py "parser_errors")) ;;!
  let! cleanup := attempt_all [abort_current_request code; discard_deferred_events] in
  upd (set_close_after_flush true) ;;!
  let! n := output_len in
  (if n =? 0 then
     let! x := lift (text_response (exn_message error) status) in
     let! payload := response_payload (py "GET") (AResponse x) in
     queue_bytes payload
   else ret tt) ;;!
  reraise cleanup.

Definition feed_data (data : bytes) (max_messages : Z) : C Z :=
  let! c := self in
  if c_closed c || close_after_flush c then ret 0
  else
    let! fed := capture (on_codec (Http1ServerCodec.feed data max_messages)) in
    let! (o, rest) :=
      match fed with
      | Raise x => ret (Raise x, [])
      | Ok es =>
          let! (o, rest) := feed_events es 0 in
          match o with
          | Raise x => ret (Raise x, rest)
          | Ok handled =>
              let! armed := capture arm_header_deadline in
              ret (match armed with Ok _ => Ok handled | Raise x => Raise x end, [])
          end
      end in
    match o with
    | Ok handled => ret handled
    | Raise x =>
        let! _ := attempt (release_event_suffix rest false) in
        if is_Http1Error x then fail_http x ;;! ret (-1)
        else let! _ := attempt discard_deferred_events in raise x
    end.

(** The loop of [_resume_deferred_events], as [feed_events]. *)
Fixpoint resume_events (es : list (event body_chunk)) : C (result unit * list (event body_chunk)) :=
  match es with
  | [] => ret (Ok tt, [])
  | e :: es' =>
      let! c := self in
      if close_after_flush c then
        let! (first_error, rest) := release_ledger es true in
        match first_error with
        | None => ret (Ok tt, [])
        | Some x => ret (Raise x, rest)
        end
      else if is_pending c then defer e ;;! resume_events es'
      else
        let! released := capture (if is_head e then on_life la_release_queued_request else ret tt) in
        match released with
        | Raise x => ret (Raise x, es)
        | Ok _ =>
            let! o := capture (handle_event e) in
            match o with
            | Ok _ => resume_events es'
            | Raise x => ret (Raise x, es')
            end
        end
  end.
Definition resume_deferred_events : C unit :=
  let! c := self in
  upd (set_deferred_events []) ;;!
  let! (o, rest) := resume_events (deferred_events c) in
  match o with
  | Ok _ => ret tt
  | Raise x => let! _ := attempt (release_event_suffix rest true) in raise x
  end.

(** The loop of both [_consume_pending_..._body_events]. *)
Fixpoint consume_events (r : nat) (completed : bool) (es : list (event body_chunk)) : C unit :=
  match es with
  | [] => ret tt
  | e :: es' =>
      if negb completed && negb (is_head e) then
        let! o := capture (handle_event e) in
        match o with
        | Ok _ => let! c := self in consume_events r (negb (is_current r c)) es'
        | Raise x => upd (fun c => set_deferred_events (deferred_events c ++ es') c) ;;! raise x
        end
      else defer e ;;! consume_events r completed es'
  end.
Definition consume_pending_body_events (r : nat) : C unit :=
  let! c := self in
  upd (set_deferred_events []) ;;!
  consume_events r (negb (is_current r c)) (deferred_events c).

(** ** The handler thread of a streamed request body *)

Definition thread_join (thread : Z) : C answer := outside_call (o_thread_join env thread).

(** Joins the child: what it answered, and whether its answer is published. *)
Definition join_child (thread : Z) (publish : bool) : C (option answer) :=
  let! joined := capture (thread_join thread) in
  match publish, joined with
  | true, Ok a => ret (Some a)
  | _, _ => upd (set_close_after_flush true) ;;! ret None
  end.

Definition drive_pending_local : C bool :=
  let! c := self in
  match pending_local c with
  | None => ret false
  | Some (r, thread) =>
      consume_pending_body_events r ;;!
      let! outcome := outside_call (o_thread_outcome env thread) in
      let pending := bool_decide (outcome = OutcomePending) in
      let! finished := on_body r (BodyStream.stream BodyStream.producer_finished) in
      if pending && negb finished then ret false
      else
        let! x := get_request r in
        let protocol_cancelled := cancelled (ro_cancellation x) in
        (if protocol_cancelled && pending then outside_call (o_thread_cancel env thread) else ret tt) ;;!
        let! a := join_child thread (bool_decide (outcome = OutcomeReturned) || (pending && negb protocol_cancelled)) in
        let! a := match a with
                  | Some a => ret a
                  | None => let! y := lift (text_response (py "internal server error") 500) in ret (AResponse y)
                  end in
        take_pending_local ;;!
        let! c := self in
        (if is_current r c then
           upd (fun c => set_current_admitted false (set_current_request None c)) ;;!
           let! ended := on_body r (BodyStream.stream BodyStream.is_ended) in
           if negb ended then
             cancel_request r (py "handler completed before body end") ;;!
             cancel_body r ;;!
             upd (set_close_after_flush true)
           else ret tt
         else ret tt) ;;!
        (if protocol_cancelled
         then let! e := attempt_all [release_request; close_body r] in reraise e
         else complete_local_handler_response r a) ;;!
        ret true
  end.

Definition cancel_and_join_pending_local (reason : str) : C unit :=
  let! c := self in
  match pending_local c with
  | None => ret tt
  | Some (r, thread) =>
      let! e1 := attempt (signal_pending_local reason) in
      let! joined := capture (thread_join thread) in
      let! e2 := match joined, e1 with
                 | Raise e, None =>
                     let! outcome := outside_call (o_thread_outcome env thread) in
                     ret (if bool_decide (outcome = OutcomeCancelled) || bool_decide (outcome = OutcomeRaised)
                          then None else Some e)
                 | _, _ => ret e1
                 end in
      take_pending_local ;;!
      let! c := self in
      (if is_current r c
       then upd (fun c => set_current_admitted false (set_current_request None c)) else ret tt) ;;!
      let! e3 := attempt_all [release_request; close_body r] in
      reraise (first_of e2 e3)
  end.

(** ** End of input, deadlines, transport *)

Definition input_eof : C unit :=
  let! c := self in
  if c_closed c then ret tt
  else
    try_except (on_codec (zoom fst (fun c x => (c, snd x)) Http1ServerCodec.eof) ;;! ret tt)
      (fun e => if is_Http1Error e then fail_http e else raise e) ;;!
    upd (set_close_after_flush true).

Definition deadline_timeout (phase : str) : C unit :=
  call_hook (HookDeadline phase) ;;!
  let! c := self in
  if str_in phase [py "request"; py "header"] || bool_decide (is_Some (current_request c)) then
    abort_current_request (py "request deadline exceeded") ;;!
    let! n := output_len in
    (if n =? 0 then
       let! x := lift (text_response (py "request timeout") 408) in
       let! payload := response_payload (py "GET") (AResponse x) in
       queue_bytes payload
     else ret tt) ;;!
    upd (set_close_after_flush true)
  else upd (set_close_after_flush true).

Definition arm_write_deadline (now : Z) : C unit :=
  upd (fun c => if write_deadline_ms c <? 0
                then set_write_deadline_ms (now + k_write_timeout_ms config) c else c).
(** The interest a TLS result waits for. *)
Definition wait_for (r : TlsResult) : C unit :=
  upd (set_io_wait_interest (if wait_interest r =? TLS_INTEREST_READ then PCC_IO_READ else PCC_IO_WRITE)).

(** One write observation: its outcome and count. *)
Definition write_transport (data : bytes) : C (Z * Z) :=
  let! c := self in
  if negb (has_tls c) then
    let! written := transport (o_write env (fd c) data) in
    upd (set_io_wait_interest PCC_IO_WRITE) ;;! ret written
  else
    let! now := now_ms in
    arm_write_deadline now ;;!
    let! c := self in
    let! r := on_tls (ts_write data (len data) now (write_deadline_ms c)) in
    if status r =? TLS_OK then ret (PCC_SOCKET_PROGRESS, r_count r)
    else if (status r =? TLS_WANT_READ) || (status r =? TLS_WANT_WRITE)
    then wait_for r ;;! ret (PCC_SOCKET_WOULD_BLOCK, 0)
    else if status r =? TLS_CLOSED then raise (GatewayTransportError (py "TLS peer closed during write"))
    else raise (GatewayTransportError (py "TLS write failed: " ++ error_name r)).

Definition flush_transport : C Z :=
  let! n := output_len in
  if n =? 0 then ret PCC_SOCKET_PROGRESS
  else
    let! data := peek_output (segment_bytes (k_buffers config)) in
    let! (outcome, count) := write_transport data in
    if outcome =? PCC_SOCKET_PROGRESS then
      if (count <=? 0) || (count >? len data) then raise (GatewayTransportError (py "invalid socket write progress"))
      else consume_output count ;;! ret PCC_SOCKET_PROGRESS
    else if outcome =? PCC_SOCKET_WOULD_BLOCK then
      let! now := now_ms in
      arm_write_deadline now ;;!
      let! c := self in
      if now >=? write_deadline_ms c
      then deadline_timeout (py "write") ;;! ret FLUSH_TIMEOUT
      else ret PCC_SOCKET_WOULD_BLOCK
    else raise (GatewayTransportError (py "socket write observation failed")).

(** The deadline a read waits for: the request's, or that of its head. *)
Definition read_deadline : C Z :=
  let! c := self in
  match current_request c with
  | Some r =>
      let! x := get_request r in
      ret (minimum_deadline (read_deadline_ms c) (Models.deadline_ms (ro_cancellation x)))
  | None =>
      ret (if header_deadline_ms c >=? 0 then minimum_deadline (read_deadline_ms c) (header_deadline_ms c)
           else read_deadline_ms c)
  end.

Definition read_transport (limit : Z) : C (Z * bytes) :=
  let! c := self in
  if negb (has_tls c) then
    upd (set_io_wait_interest PCC_IO_READ) ;;!
    transport (o_read env (fd c) limit)
  else
    let! now := now_ms in
    let! deadline := read_deadline in
    let! r := on_tls (ts_read limit limit now deadline) in
    if status r =? TLS_OK then
      upd (set_io_wait_interest PCC_IO_READ) ;;!
      (fun t => (Ok (PCC_SOCKET_PROGRESS, ts_output (s_tls t) (r_count r)), t))
    else if (status r =? TLS_WANT_READ) || (status r =? TLS_WANT_WRITE)
    then wait_for r ;;! ret (PCC_SOCKET_WOULD_BLOCK, [])
    else if status r =? TLS_CLOSED then ret (PCC_SOCKET_EOF, [])
    else raise (GatewayTransportError (py "TLS read failed: " ++ error_name r)).

Definition begin_drain : C unit :=
  let! c := self in
  if bool_decide (is_Some (current_request c)) then ret tt else upd (set_close_after_flush true).

(** ** The client side of a proxied request *)

Definition proxy_observe_downstream (r : nat) : C str :=
  let! (outcome, data) := read_transport (segment_bytes (k_buffers config)) in
  if outcome =? PCC_SOCKET_PROGRESS then
    if bool_decide (data = []) then cancel_request r (py "downstream closed") ;;! ret (py "cancelled")
    else
      let! now := now_ms in
      upd (set_read_deadline_ms (now + idle_timeout_ms (k_http1 config))) ;;!
      let! handled := feed_data data 1 in
      let! c := self in
      if (handled <? 0) || close_after_flush c then ret PROXY_DOWNSTREAM_RESPONSE_COMMITTED
      else
        let! x := get_request r in
        if cancelled (ro_cancellation x) then ret (py "cancelled")
        else consume_pending_body_events r ;;! ret []
  else if outcome =? PCC_SOCKET_EOF then cancel_request r (py "downstream closed") ;;! ret (py "cancelled")
  else if outcome =? PCC_SOCKET_WOULD_BLOCK then ret []
  else cancel_request r (py "downstream read failed") ;;! ret (py "cancelled").

(** The [finally] of [_run_gateway_proxy] for the plan of request [r]. *)
Definition retire_proxy (r : nat) : C (option exn) :=
  let! c := self in
  if negb (is_pending_proxy r c) then ret None
  else
    upd (set_pending_proxy None) ;;!
    (if is_current r c then upd (fun c => set_current_admitted false (set_current_request None c)) else ret tt) ;;!
    let! ended := capture (on_body r (BodyStream.stream BodyStream.is_ended)) in
    let e1 := match ended with Raise e => Some e | Ok _ => None end in
    let! e2 :=
      match ended with
      | Ok true => ret None
      | _ =>
          upd (set_close_after_flush true) ;;!
          let! x := get_request r in
          attempt_all ((if cancelled (ro_cancellation x) then []
                        else [cancel_request r (py "proxy completed before request body end")]) ++ [cancel_body r])
      end in
    let! e3 := attempt_all [close_body r; release_request] in
    count_completed ;;!
    close_if_last ;;!
    ret (first_of e1 (first_of e2 e3)).

End connection.
End GatewayConnection.
