(* ===== verification/ConnectionOwners.v ===== *)
(** * What a connection owns

    The laws the connection needs of the admission state ([AdmissionLaws]), the store of
    body views and who owns them, what the decoder adds to it, the owners a connection has
    in its fields, and the output buffer.  A [frame] says what the running method holds in
    local variables.  The invariant over these is in [ConnectionSpec]. *)

From S2P Require Import Prelude PyStr PyLists Buffer Http1 Http1Decode Http1Feed Http1Spec Models.
From S2P Require Import ModelsSpec Config Tls ProxyExchange ProxyExchangeSpec ConnectionBodies.
From S2P Require Import Connection.
#[local] Open Scope Z_scope.

(** ** What the admission state promises *)

(** The counters a connection adds to. *)
Definition connection_counters : list str :=
  [py "parser_errors"; py "backpressure_parks";
   py "tls_handshakes_started"; py "tls_handshakes_completed"; py "tls_handshakes_failed";
   py "tls_close_notify_completed"; py "tls_close_notify_failed";
   py "upstream_retries"; py "upstream_cancelled"; py "dns_queries"; py "dns_failures"; py "dns_cache_hits"].

(** [gauges l r q u b]: [r] requests are admitted, [q] are queued, [u] exchanges with an
    upstream are admitted, [b] bytes are reserved. *)
Class AdmissionLaws (L : Type) `{GatewayAdmission L} := {
  gauges : L -> Z -> Z -> Z -> Z -> Prop;
  law_admit : forall l r q u b, gauges l r q u b ->
    exists ok l', la_admit_request l = (Ok ok, l') /\ gauges l' (if ok : bool then r + 1 else r) q u b;
  law_release_request : forall l r q u b, 0 < r -> gauges l r q u b ->
    exists l', la_release_request l = (Ok tt, l') /\ gauges l' (r - 1) q u b;
  law_queue : forall l r q u b, gauges l r q u b ->
    exists ok l', la_queue_request l = (Ok ok, l') /\ gauges l' r (if ok : bool then q + 1 else q) u b;
  law_release_queued : forall l r q u b, 0 < q -> gauges l r q u b ->
    exists l', la_release_queued_request l = (Ok tt, l') /\ gauges l' r (q - 1) u b;
  law_admit_upstream : forall l r q u b, gauges l r q u b ->
    exists ok l', la_admit_upstream l = (Ok ok, l') /\ gauges l' r q (if ok : bool then u + 1 else u) b;
  law_release_upstream : forall l r q u b, 0 < u -> gauges l r q u b ->
    exists l', la_release_upstream l = (Ok tt, l') /\ gauges l' r q (u - 1) b;
  law_reserve : forall l r q u b n, 0 < n -> gauges l r q u b ->
    exists ok l', acc_reserve n l = (Ok ok, l') /\ gauges l' r q u (if ok : bool then b + n else b);
  law_release : forall l r q u b n, 0 < n <= b -> gauges l r q u b ->
    exists l', acc_release n l = (Ok tt, l') /\ gauges l' r q u (b - n);
  law_metric : forall l r q u b name, gauges l r q u b -> name ∈ connection_counters ->
    exists l', la_metric_add name l = (Ok tt, l') /\ gauges l' r q u b;
}.

(** What the other connections hold of the gauges. *)
Record base := Base { b_requests : Z; b_queued : Z; b_upstream : Z; b_bytes : Z }.
Definition base_ok (b : base) : Prop := 0 <= b_requests b /\ 0 <= b_queued b /\ 0 <= b_upstream b /\ 0 <= b_bytes b.

(** ** The store of body views *)

Definition held (qs : list req_obj) : list nat := concat (map (fun x => body_views_of (ro_body x)) qs).

Record stream_sane (h : heap) (b : body_stream) : Prop := {
  ss_index : 0 <= read_index b <= len (chunks b);
  ss_read : Forall (chunk_dead h) (upto (chunks b) (read_index b));
  ss_closed : bs_closed b = true -> chunks b = [];
}.

(** [vs] are the views of events; the bodies of the requests in [rs] may be open. *)
Record mem (vs rs : list nat) (qs : list req_obj) (h : heap) : Prop := {
  mm_heap : heap_ok h no_ext;
  mm_apart : NoDup (vs ++ held qs);
  mm_live : Forall (live h) (vs ++ held qs);
  mm_streams : Forall (fun x => stream_sane h (ro_body x)) qs;
  mm_open : forall i x, qs !! i = Some x -> i ∈ rs \/ bs_closed (ro_body x) = true;
}.

Lemma held_middle qs i x : qs !! i = Some x ->
  held qs = held (take i qs) ++ body_views_of (ro_body x) ++ held (drop (S i) qs).
Proof.
  intros Hx. rewrite <- (take_drop_middle qs i x Hx) at 1. unfold held. by rewrite map_app, concat_app.
Qed.

(** A call on one body, seen by the whole store. *)
Lemma mem_body vs rs qs h i x : mem vs rs qs h -> qs !! i = Some x ->
  exists others, body_ok others (ro_body x) h /\ (forall v, v ∈ vs -> v ∈ others) /\
    forall b' h' rs', body_ok others b' h' -> body_moved (ro_body x) h b' h' ->
      (forall j, j ∈ rs -> j ∈ rs' \/ (j = i /\ bs_closed b' = true)) ->
      mem vs rs' (<[i := set_ro_body b' x]> qs) h'.
Proof.
  intros [Hh Hn Hl Hs Ho] Hx. pose proof (held_middle qs i x Hx) as Eh.
  set (A := held (take i qs)) in *. set (B := held (drop (S i) qs)) in *.
  assert (forall b, vs ++ A ++ body_views_of b ++ B ≡ₚ (vs ++ A ++ B) ++ body_views_of b) as Hp.
  { intros b. rewrite <- !app_assoc. do 2 f_equiv. apply Permutation_app_comm. }
  rewrite Eh in Hn, Hl. rewrite (Hp (ro_body x)) in Hn, Hl.
  pose proof (proj1 (Forall_forall _ _) Hs) as Hs'. destruct (Hs' x (list_elem_of_lookup_2 _ _ _ Hx)) as [Hi Hd Hc].
  exists (vs ++ A ++ B). split; [by split|]. split; [intros v ?; apply elem_of_app; by left|].
  intros b' h' rs' Hb Hm Hrs. pose proof Hb as [Hh' Hn' Hl' Hi' Hd' Hc']. pose proof Hm as [Hg Hf Hcl].
  pose proof (lookup_lt_Some _ _ _ Hx) as Hlt.
  assert (held (<[i := set_ro_body b' x]> qs) = A ++ body_views_of b' ++ B) as Eh'.
  { rewrite (held_middle _ i (set_ro_body b' x)) by (by apply list_lookup_insert_eq).
    by rewrite take_insert_ge, drop_insert_lt by lia. }
  split; rewrite ?Eh'; try done.
  - by rewrite Hp.
  - by rewrite Hp.
  - apply Forall_forall. intros y Hy. apply list_elem_of_lookup in Hy as [j Hj].
    destruct (decide (i = j)) as [->|Hne].
    + rewrite list_lookup_insert_eq in Hj by done. injection Hj as <-. by split.
    + rewrite list_lookup_insert_ne in Hj by done.
      destruct (Hs' y (list_elem_of_lookup_2 _ _ _ Hj)) as [Hyi Hyd Hyc]. split; [done| |done].
      eapply chunk_dead_ext; [exact Hg| |exact Hyd]. intros u Hu Hnone. rewrite Hf; [done|done|]. intros Hin.
      apply Forall_app in Hl as [_ Hl2]. rewrite Forall_forall in Hl2. destruct (Hl2 u Hin) as [d Hd2]. congruence.
  - intros j y Hj. destruct (decide (i = j)) as [->|Hne].
    + rewrite list_lookup_insert_eq in Hj by done. injection Hj as <-. cbn.
      destruct (Ho j x Hx) as [Hin|Hin]; [|right; auto]. destruct (Hrs j Hin) as [?|[_ ?]]; auto.
    + rewrite list_lookup_insert_ne in Hj by done. destruct (Ho j y Hj) as [Hin|]; [|by right].
      destruct (Hrs j Hin) as [?|[-> _]]; [by left|done].
Qed.

Lemma mem_views vs vs' rs qs h : vs ≡ₚ vs' -> mem vs rs qs h -> mem vs' rs qs h.
Proof. intros Hp [? Hn Hl ? ?]. split; try done; by rewrite <- Hp. Qed.
Lemma mem_open_mono vs rs rs' qs h : (forall i, i ∈ rs -> i ∈ rs') -> mem vs rs qs h -> mem vs rs' qs h.
Proof. intros Hr [? ? ? ? Ho]. split; try done. intros i x Hx. destruct (Ho i x Hx); auto. Qed.

(** Replacing a request by one with the same body. *)
Lemma mem_same_body vs rs qs h i x x' :
  qs !! i = Some x -> ro_body x' = ro_body x -> mem vs rs qs h -> mem vs rs (<[i := x']> qs) h.
Proof.
  intros Hx E [Hh Hn Hl Hs Ho]. pose proof (lookup_lt_Some _ _ _ Hx) as Hlt.
  assert (held (<[i := x']> qs) = held qs) as Eh.
  { unfold held. f_equal. change (map ?f ?l) with (f <$> l). rewrite list_fmap_insert. apply list_insert_id.
    by rewrite list_lookup_fmap, Hx, E. }
  split; rewrite ?Eh; try done.
  - apply Forall_insert; [done|]. rewrite E. rewrite Forall_forall in Hs. apply Hs. by eapply list_elem_of_lookup_2.
  - intros j y Hj. destruct (decide (i = j)) as [->|Hne].
    + rewrite list_lookup_insert_eq in Hj by done. injection Hj as <-. rewrite E. by apply Ho.
    + rewrite list_lookup_insert_ne in Hj by done. by apply Ho.
Qed.

(** A new request, its body empty. *)
Lemma mem_alloc vs rs qs h x :
  chunks (ro_body x) = [] -> read_index (ro_body x) = 0 -> mem vs rs qs h ->
  mem vs (length qs :: rs) (qs ++ [x]) h.
Proof.
  intros Ec Ei [Hh Hn Hl Hs Ho].
  assert (held (qs ++ [x]) = held qs) as Eh.
  { unfold held. rewrite map_app, concat_app. cbn. unfold body_views_of. rewrite Ec, Ei, from_0. cbn. by rewrite app_nil_r. }
  split; rewrite ?Eh; try done.
  - apply Forall_app. split; [done|]. apply Forall_singleton. split; rewrite ?Ec, ?Ei; [by split|rewrite upto_0; constructor|done].
  - intros j y Hj. rewrite elem_of_cons. apply lookup_app_Some in Hj as [Hj|[Hge Hj]]; [destruct (Ho j y Hj); auto|].
    apply list_lookup_singleton_Some in Hj as [Hj _]. left. left. lia.
Qed.

(** Releasing the view of an event. *)
Lemma mem_release v vs rs qs h : mem (v :: vs) rs qs h ->
  exists h' n, BufferView.release v h = (Ok n, h') /\ mem vs rs qs h'.
Proof.
  intros [Hh Hn Hl Hs Ho]. cbn [app] in Hn, Hl. apply NoDup_cons in Hn as [Hv Hn]. apply Forall_cons in Hl as [[d Hd] Hl].
  destruct (view_release_spec h no_ext v d Hh Hd) as (h' & n & E & Hh' & Hlen & Hb).
  exists h', n. split; [done|]. split; try done.
  - apply (live_frame [v] h); [lia|..|done].
    + intros u _ Hu. rewrite Hb. unfold voverride. destruct (Nat.eqb_spec u v) as [->|]; [|done].
      rewrite list_elem_of_singleton in Hu. done.
    + intros u Hu. rewrite list_elem_of_singleton. by intros ->.
  - eapply Forall_impl; [exact Hs|]. intros x [Hi Hd' Hc]. split; [done| |done].
    eapply chunk_dead_ext; [| |exact Hd']; [lia|]. intros u _ Hu. rewrite Hb. unfold voverride. by destruct (_ =? _)%nat.
Qed.

(** ** The decoder *)

(** An iteration that raises has at most removed bytes. *)
Lemma step_raise c e c' : Http1ServerCodec.step c = (Raise e, c') -> exists b, c' = set_buffer b c.
Proof.
  assert (exists b, c = set_buffer b c) as Hid by (exists (buffer c); by destruct c).
  rewrite step_eq. destruct (Http1.state c).
  - unfold Http1ServerCodec.step_head. unm. destruct (_ <? 0).
    { destruct (_ >? _); [by intros [= <- <-]|]. destruct (_ && _); [by intros [= <- <-]|done]. }
    destruct (_ >? _); [by intros [= <- <-]|]. unfold Http1ServerCodec.parse_head. unm.
    destruct (Http1ServerCodec.parse_head_event _ _) as [h|x]; [|intros [= _ <-]; by eexists].
    destruct (Http1.chunked h); [done|]. by destruct (content_length h >? 0).
  - unfold Http1ServerCodec.step_fixed_body. unm. destruct (_ =? 0); [done|]. by destruct (_ =? 0).
  - unfold Http1ServerCodec.step_chunk_size. unm. destruct (_ <? 0); [destruct (_ >? _); [by intros [= <- <-]|done]|].
    destruct (_ >? 128); [by intros [= <- <-]|]. destruct (parse_chunk_size_line _); [|intros [= _ <-]; by eexists].
    destruct (_ >? max_chunk_bytes _); [intros [= _ <-]; by eexists|].
    destruct (_ >? max_body_bytes _); [intros [= _ <-]; by eexists|]. by destruct (_ =? 0).
  - unfold Http1ServerCodec.step_chunk_data. unm. destruct (_ <? _); [done|]. destruct (_ || _); [by intros [= <- <-]|done].
  - unfold Http1ServerCodec.step_trailers. unm. destruct (_ && _); [done|]. destruct (_ <? 0).
    { destruct (_ >? _); [by intros [= <- <-]|done]. }
    destruct (_ >? _); [by intros [= <- <-]|]. destruct (parse_headers _ _) as [[t n]|]; [|intros [= _ <-]; by eexists]. cbn beta iota.
    destruct (existsb _ _); [intros [= _ <-]; by eexists|done].
Qed.
Lemma set_buffer_ok b c : codec_ok c -> codec_ok (set_buffer b c).
Proof. intros []. by split. Qed.
Lemma run_codec_ok fuel : forall mx k c, codec_ok c -> codec_ok (snd (run fuel mx k c)).
Proof.
  induction fuel as [|fuel IH]; intros mx k c Hc; [done|]. cbn [run]. pose proof (step_spec c Hc) as Hs.
  destruct (Http1ServerCodec.step c) as [[[es f]|e] c1] eqn:E.
  - destruct Hs as [Hc1 _ _ _ _]. destruct f; [done| |].
    + specialize (IH mx k c1 Hc1). by destruct (run fuel mx k c1) as [[? ?] ?].
    + destruct (_ && _); [done|]. specialize (IH mx (k + 1) c1 Hc1). by destruct (run fuel mx (k + 1) c1) as [[? ?] ?].
  - destruct (step_raise _ _ _ E) as [b ->]. by apply set_buffer_ok.
Qed.

(** A call of [feed] on any decoder: the views of the events are new, the others are as before. *)
Lemma feed_any c h data mx : codec_ok c -> heap_ok h no_ext ->
  match Http1ServerCodec.feed data mx (c, h) with
  | (Ok es, (c', h')) => codec_ok c' /\ exists ps, produced no_ext h h' es ps
  | (Raise _, (c', h')) => codec_ok c' /\ heap_ok h' no_ext /\ (length (views h) <= length (views h'))%nat /\
      forall u, (u < length (views h))%nat -> vbytes h' u = vbytes h u
  end.
Proof.
  intros Hc Hh. unfold Http1ServerCodec.feed, try_except. cbn [fst snd].
  destruct (Http1ServerCodec.feed_pending data mx (c, [], h)) as [r [[c' es] h']] eqn:E.
  assert (codec_ok c' /\ exists ps, produced no_ext h h' es ps) as [Hc' [ps Hp]].
  { revert E. unfold Http1ServerCodec.feed_pending. unfold bind at 1. rewrite on_codec_run. unfold get at 1. cbn beta iota.
    destruct (mx <? 0); [intros [= <- <- <- <-]; split; [done|]; exists []; by apply produced_refl|].
    destruct (codec_closed c); [intros [= <- <- <- <-]; split; [done|]; exists []; by apply produced_refl|].
    unfold bind at 1. rewrite on_codec_run. unfold modify. cbn beta iota.
    unfold bind at 1. rewrite on_codec_run. unfold get. cbn beta iota.
    destruct (feed_loop_refines (Http1ServerCodec.feed_fuel (cext data c)) mx 0 (cext data c) [] h no_ext (cext_ok _ _ Hc) Hh)
      as (es1 & h1 & Ef & P). intros E. pose proof (eq_trans (eq_sym Ef) E) as E2.
    pose proof (run_codec_ok (Http1ServerCodec.feed_fuel (cext data c)) mx 0 _ (cext_ok data _ Hc)) as Hrun.
    revert Hrun P E2. generalize (run (Http1ServerCodec.feed_fuel (cext data c)) mx 0 (cext data c)).
    clear. intros [[r1 ps] c1] Hrun P [= <- <- <- <-]. by eauto. }
  destruct r as [u|e]; [by eauto|]. destruct (is_Http1Error e).
  2:{ split_and!; [done|apply Hp|apply Hp|apply Hp]. }
  destruct (release_events_spec es h' no_ext ps) as (h2 & E2 & Hok2 & Hl2 & Hv2); try apply Hp.
  { rewrite (pr_views _ _ _ _ _ Hp). apply NoDup_seq. }
  unfold bind, get, Http1ServerCodec.in_heap, zoom, raise. cbn. rewrite E2. cbn. split_and!; [done|done|rewrite Hl2; apply Hp|].
  intros u Hu. rewrite Hv2, bool_decide_eq_false_2; [by apply Hp|].
  rewrite (pr_views _ _ _ _ _ Hp), elem_of_seq. lia.
Qed.

Definition unreleased (e : event body_chunk) : Prop := match e with EBody b => bc_released b = false | _ => True end.

(** The store after the decoder allocated views. *)
Lemma mem_grown vs rs qs h h' : mem vs rs qs h -> heap_ok h' no_ext -> (length (views h) <= length (views h'))%nat ->
  (forall u, (u < length (views h))%nat -> vbytes h' u = vbytes h u) -> mem vs rs qs h'.
Proof.
  intros [Hh Hn Hl Hs Ho] Hh' Hg Hf. split; try done.
  - apply (live_frame [] h); [done|by intros; apply Hf|by intros ? _ ?%elem_of_nil|done].
  - eapply Forall_impl; [exact Hs|]. intros x [Hi Hd Hc]. split; [done| |done].
    eapply chunk_dead_ext; [exact Hg| |exact Hd]. intros u Hu Hx. by rewrite Hf.
Qed.
Lemma mem_fed vs rs qs h h' es ps : mem vs rs qs h -> produced no_ext h h' es ps ->
  mem (body_views es ++ vs) rs qs h' /\ Forall unreleased es.
Proof.
  intros Hm [Hok He Hv Hg Hf].
  destruct (mem_grown _ _ _ _ _ Hm Hok Hg Hf) as [_ Hn Hl Hs Ho].
  pose proof (mm_live _ _ _ _ Hm) as Hlold.
  assert (Forall (live h') (body_views es) /\ Forall unreleased es) as [Hle Hu].
  { clear -He. induction He as [|e p es ps Hep _ [IH1 IH2]]; [by split|]. destruct e as [|b|], p; try done.
    - split; [done|by constructor].
    - destruct Hep as [Hb Hr]. split; [|by constructor]. apply Forall_cons. split; [by eexists|done].
    - split; [done|by constructor]. }
  split; [|done]. split; rewrite <- ?app_assoc; try done.
  - apply NoDup_app. split_and!; [rewrite Hv; apply NoDup_seq| |done]. intros u Hin Hin'.
    rewrite Hv, elem_of_seq in Hin. rewrite Forall_forall in Hlold. specialize (Hlold u Hin'). apply live_lt in Hlold. lia.
  - by apply Forall_app.
Qed.

(** ** The invariant *)

Definition is_head_event (e : event body_chunk) : bool := match e with EHead _ => true | _ => false end.
Definition heads (es : list (event body_chunk)) : Z := count is_head_event es.

(** What the running method holds itself: admitted requests, queued heads, an admitted
    exchange with an upstream, reserved bytes, events not handed over, requests it has taken from the connection; and whether it is
    closing the connection. *)
Record frame := Frame {
  f_requests : Z;
  f_queued : Z;
  f_upstream : Z;
  f_reserved : Z;
  f_events : list (event body_chunk);
  f_open : list nat;
  f_closing : bool;
}.
Definition no_frame : frame := Frame 0 0 0 0 [] [] false.

(** A closed output is empty, and the output of a closed connection is closed. *)
Definition sealed (p : Prop) (f : fifo) : Prop := f_closed f = true \/ p -> f_closed f = true /\ f_bytes f = [].
Definition out_is (o : cbuf * heap) (f : fifo) : Prop :=
  refines (bounds_of (fst o)) no_ext (snd o) (fst o) f.

Section owners.
Context {P I It : Type}.
Implicit Types c : conn P I It.

Definition opt_nat {A} (f : A -> nat) (o : option A) : list nat := match o with Some a => [f a] | None => [] end.
(** The requests the connection answers for. *)
Definition owned c : list nat :=
  opt_nat id (current_request c) ++ opt_nat snd (pending_proxy c) ++ opt_nat fst (pending_local c)
  ++ opt_nat st_request (pending_stream c).
(** The admissions it holds. *)
Definition one (b : bool) : Z := if b then 1 else 0.
Definition admissions c : Z :=
  one (current_admitted c) + one (bool_decide (is_Some (pending_proxy c)))
  + one (bool_decide (is_Some (pending_local c)))
  + match pending_stream c with Some s => one (st_admitted s) | None => 0 end.

(** The part of a connection that says what it owns. *)
Definition core c :=
  (current_request c, current_admitted c, pending_proxy c, pending_local c,
   option_map (fun s => (st_request s, st_admitted s)) (pending_stream c), deferred_events c, c_closed c).

Record conn_ok c : Prop := {
  co_admitted : current_admitted c = true -> is_Some (current_request c) /\ GatewayConnection.is_pending c = false;
  co_alias : forall r, current_request c = Some r -> GatewayConnection.is_pending c = true ->
    GatewayConnection.is_pending_proxy r c = true \/ GatewayConnection.is_pending_local r c = true;
  co_one : (length (opt_nat snd (pending_proxy c) ++ opt_nat fst (pending_local c)
                    ++ opt_nat st_request (pending_stream c)) <= 1)%nat;
}.
(** What a closed connection still has: at most a handler thread to join. *)
Definition emptied c : Prop :=
  current_request c = None /\ pending_proxy c = None /\ pending_stream c = None /\ deferred_events c = [].

Lemma core_owned c c' : core c' = core c -> owned c' = owned c /\ admissions c' = admissions c.
Proof.
  unfold core, owned, admissions. intros [= -> -> -> -> Es _ _].
  destruct (pending_stream c), (pending_stream c'); cbn in *; try done. injection Es as -> ->. done.
Qed.
Lemma core_ok c c' : core c' = core c -> conn_ok c -> conn_ok c'.
Proof.
  unfold core. intros [= E1 E2 E3 E4 E5 E6 E7] [H1 H2 H3].
  assert (bool_decide (is_Some (pending_stream c')) = bool_decide (is_Some (pending_stream c))) as Es.
  { destruct (pending_stream c), (pending_stream c'); done. }
  assert (GatewayConnection.is_pending c' = GatewayConnection.is_pending c) as Ep.
  { unfold GatewayConnection.is_pending. by rewrite E3, E4, Es. }
  split.
  - by rewrite E1, E2, Ep.
  - intros r. unfold GatewayConnection.is_pending_proxy, GatewayConnection.is_pending_local. rewrite E1, E3, E4, Ep. apply H2.
  - rewrite E3, E4. destruct (pending_stream c), (pending_stream c'); cbn in *; (done || congruence).
Qed.
Lemma core_emptied c c' : core c' = core c -> emptied c -> emptied c'.
Proof.
  unfold core, emptied. intros [= E1 E2 E3 E4 E5 E6 E7] (? & ? & Hs & ?). split_and!; try congruence.
  rewrite Hs in E5. by destruct (pending_stream c').
Qed.
End owners.

(** ** The output buffer *)

Lemma out_step o f x : out_is o f ->
  exists o', cbuf_step x o = (fst (fifo_step (bounds_of (fst o)) x f), o') /\
    out_is o' (snd (fifo_step (bounds_of (fst o)) x f)).
Proof.
  destruct o as [b h]. intros Hr. destruct (step_refines _ _ _ _ _ x Hr) as (h' & b' & E & Hr' & _).
  exists (b', h'). split; [done|]. unfold out_is. cbn. by rewrite <- (refines_own _ _ _ _ _ Hr').
Qed.
Lemma out_len o f : out_is o f -> queued_bytes (fst o) = len (f_bytes f).
Proof. intros Hr. apply (re_queued _ _ _ (rf_repr _ _ _ _ _ Hr)). Qed.

(** Looking at the output changes nothing that can be seen. *)
Lemma peek_run limit o f : out_is o f ->
  exists d o', (let! views := ChannelBuffer.peek_views limit in
             ChannelBuffer.on_heap (ChannelBuffer.read_loop views [])) o = (Ok d, o') /\
    out_is o' f /\ queued_bytes (fst o') = queued_bytes (fst o).
Proof.
  destruct o as [b h]. unfold out_is. cbn [fst snd]. intros Hrf. pose proof Hrf as [Hh Hr Hp Hc Hl].
  pose proof (len_nonneg (f_bytes f)) as Hnn.
  assert (0 <= (if (limit >=? 0) && (limit <? queued_bytes b) then limit else queued_bytes b) <= len (f_bytes f)) as Hn.
  { rewrite (re_queued _ _ _ Hr). destruct (_ && _) eqn:E; b2p; lia. }
  set (n := if (limit >=? 0) && _ then limit else queued_bytes b) in Hn.
  destruct (re_stores _ _ _ Hr) as [Hnd (ds & Hck & Hoff & Hfb)].
  destruct (peek_loop_spec (pending b) h no_ext ds (head_offset b) n Hh Hck Hoff) as
    (h1 & ws & es & E1 & Hok1 & Hc1 & Hcat & Hndw & Hfresh & Hg1 & Hfr1); [apply Hn|rewrite <- Hfb; apply Hn|].
  assert (ChannelBuffer.peek_views limit (b, h) = (Ok ws, (b, h1))) as E1'.
  { unfold ChannelBuffer.peek_views. run (get_buf_run b h). by apply on_heap_run. }
  destruct (read_loop_spec ws h1 no_ext es [] Hok1 Hc1 Hndw) as (h2 & E2 & Hok2 & Hl2 & Hfr2 & Hdead2).
  exists (concat es), (b, h2). split; [run E1'; by apply on_heap_run|]. split; [|done].
  eapply refines_ext; [|exact Hok2|exact Hrf]. intros u _. destruct (decide (u ∈ ws)) as [Hin|Hni].
  - rewrite Hdead2 by done. symmetry. apply vbytes_fresh. by apply Hfresh.
  - by rewrite Hfr2, Hfr1 by done.
Qed.
