(* ===== verification/ConnectionSpec.v ===== *)
(** * The methods of a connection keep what it owns

    The invariant [inv] of [GatewayConnection]: its admissions, queued heads and buffered
    bytes are exactly what the gauges of the gateway count for it, its body views are exactly
    those of its deferred events and open bodies, and every request it no longer owns has a
    closed body.  A [quiet] call changes neither the owners nor what they own; a call that
    [stays] gives back everything it takes; [ends] says what a call leaves of the owners.
    The theorems over whole runs are in [ConnectionSystem]. *)

From S2P Require Import Prelude PyStr PyLists Buffer Http1 Http1Decode Http1Feed Http1Spec Models.
From S2P Require Import ModelsSpec Config Tls ProxyExchange ProxyExchangeSpec ConnectionBodies.
From S2P Require Import ConnectionOwners Connection.
#[local] Open Scope Z_scope.

Module ConnectionInv.
Import GatewayConnection.
Section invariant.
Context {W P I It L T : Type} `{AdmissionLaws L} `{TlsSession T}.
Context (env : surroundings W P I It) (config : settings).
Abbreviation state := (GatewayConnection.state (W:=W) (P:=P) (I:=I) (It:=It) (L:=L) (T:=T)).
Abbreviation C := (M state).

Context (others : base) (Hothers : base_ok others).

Record inv (fr : frame) (t : state) : Prop := {
  i_gauges : gauges (s_life t)
    (b_requests others + admissions (s_conn t) + f_requests fr)
    (b_queued others + heads (deferred_events (s_conn t)) + f_queued fr)
    (b_upstream others + f_upstream fr)
    (b_bytes others + queued_bytes (fst (s_output t)) + f_reserved fr);
  i_output : exists f, out_is (s_output t) f /\
    sealed (c_closed (s_conn t) = true /\ f_closing fr = false) f;
  i_mem : mem (body_views (f_events fr) ++ body_views (deferred_events (s_conn t)))
    (f_open fr ++ owned (s_conn t)) (s_requests t) (s_bodies t);
  i_fresh : Forall unreleased (f_events fr) /\ Forall unreleased (deferred_events (s_conn t));
  i_refs : Forall (fun r => (r < length (s_requests t))%nat) (f_open fr ++ owned (s_conn t));
  i_codec : codec_ok (c_codec (s_conn t));
  i_conn : conn_ok (s_conn t);
  i_closed : c_closed (s_conn t) = true -> f_closing fr = false -> emptied (s_conn t);
  i_frame : 0 <= f_requests fr /\ 0 <= f_queued fr /\ 0 <= f_upstream fr /\ 0 <= f_reserved fr;
}.

(** A call that leaves the owners and what they own as they are. *)
Definition quiet {A} (m : C A) : Prop := forall fr t, inv fr t ->
  wp m (fun _ t' => inv fr t' /\ core (s_conn t') = core (s_conn t))
       (fun _ t' => inv fr t' /\ core (s_conn t') = core (s_conn t)) t.

Lemma quiet_ret {A} (a : A) : quiet (ret a).
Proof. by intros fr t Ht. Qed.
Lemma quiet_raise {A} e : quiet (@raise _ A e).
Proof. by intros fr t Ht. Qed.
Lemma conn_quiet_lift {A} (r : result A) : quiet (lift r).
Proof. intros fr t Ht. by destruct r. Qed.
Lemma quiet_self : quiet self.
Proof. by intros fr t Ht. Qed.
Lemma conn_quiet_bind {A B} (m : C A) (k : A -> C B) : quiet m -> (forall a, quiet (k a)) -> quiet (bind m k).
Proof.
  intros Hm Hk fr t Ht. apply wp_bind. eapply wp_mono; [| |by apply Hm].
  - intros a t' [Ht' Ec]. eapply wp_mono; [| |by apply Hk]; intros ? ? [? ?]; split; congruence || done.
  - done.
Qed.
Lemma quiet_try {A} (m : C A) h : quiet m -> (forall e, quiet (h e)) -> quiet (try_except m h).
Proof.
  intros Hm Hh fr t Ht. apply wp_try. eapply wp_mono; [| |by apply Hm]; [done|].
  intros e t' [Ht' Ec]. eapply wp_mono; [| |by apply Hh]; intros ? ? [? ?]; split; congruence || done.
Qed.
Lemma quiet_attempt (m : C unit) : quiet m -> quiet (attempt m).
Proof. intros Hm. apply quiet_try; [|intros; apply quiet_ret]. apply conn_quiet_bind; [done|intros; apply quiet_ret]. Qed.
Lemma quiet_capture {A} (m : C A) : quiet m -> quiet (capture m).
Proof. intros Hm. apply quiet_try; [|intros; apply quiet_ret]. apply conn_quiet_bind; [done|intros; apply quiet_ret]. Qed.
Lemma quiet_attempt_all ms : Forall (@quiet unit) ms -> quiet (attempt_all ms).
Proof.
  induction 1 as [|m ms Hm Hms IH]; [apply quiet_ret|]. cbn [attempt_all].
  apply conn_quiet_bind; [by apply quiet_attempt|]. intros e. apply conn_quiet_bind; [done|]. intros; apply quiet_ret.
Qed.
Lemma quiet_reraise o : quiet (reraise o).
Proof. destruct o; [apply quiet_raise|apply quiet_ret]. Qed.

Lemma inv_core fr t t' :
  inv fr t -> core (s_conn t') = core (s_conn t) -> c_codec (s_conn t') = c_codec (s_conn t) ->
  s_requests t' = s_requests t -> s_bodies t' = s_bodies t -> s_output t' = s_output t -> s_life t' = s_life t ->
  inv fr t'.
Proof.
  intros [] Ec Ek E1 E2 E3 E4. destruct (core_owned _ _ Ec) as [Eo Ea].
  pose proof (core_ok _ _ Ec i_conn0). pose proof (core_emptied _ _ Ec) as Hem. unfold core in Ec. injection Ec as _ _ _ _ _ Ed El.
  split; rewrite ?E1, ?E2, ?E3, ?E4, ?Eo, ?Ea, ?Ed, ?Ek, ?El; auto.
Qed.
Lemma quiet_upd (f : conn P I It -> conn P I It) :
  (forall c, core (f c) = core c /\ c_codec (f c) = c_codec c) -> quiet (upd f).
Proof.
  intros Hf fr t Ht. apply wp_modify. destruct (Hf (s_conn t)). split; [|done]. by apply (inv_core fr t).
Qed.
Lemma quiet_state {A} (g : state -> A) : quiet (fun t => (Ok (g t), t)).
Proof. by intros fr t Ht. Qed.
Lemma quiet_tls {A} (m : M T A) : quiet (on_tls m).
Proof.
  intros fr t Ht. apply wp_zoom. unfold wp. destruct (m (s_tls t)) as [[a|e] x]; (split; [|done]); by apply (inv_core fr t).
Qed.

(** Calls on a request. *)
Lemma inv_bodies fr t qs h :
  inv fr t -> mem (body_views (f_events fr) ++ body_views (deferred_events (s_conn t))) (f_open fr ++ owned (s_conn t)) qs h ->
  length qs = length (s_requests t) -> inv fr (set_requests qs h t).
Proof. intros [] Hm El. split; cbn; try done. by rewrite El. Qed.

Lemma quiet_body {A} r (m : BodyStream.MS A) Q : body_call_ok m Q -> quiet (on_body r m).
Proof.
  intros Hm fr t Ht. unfold wp, on_body. destruct (s_requests t !! r) as [x|] eqn:Hx; [|by split].
  destruct (mem_body _ _ _ _ _ _ (i_mem _ _ Ht) Hx) as (o & Hb & _ & Hmem).
  pose proof (Hm o _ _ Hb) as Hw. unfold wp in Hw. destruct (m (ro_body x, s_bodies t)) as [[a|e] [b' h']]; cbn [fst snd] in Hw.
  - destruct Hw as (Hb' & Hmv & _). split; [|done].
    apply inv_bodies; [done| |apply length_insert]. apply Hmem; auto.
  - destruct Hw as (Hb' & Hmv). split; [|done].
    apply inv_bodies; [done| |apply length_insert]. apply Hmem; auto.
Qed.
Lemma quiet_get_request r : quiet (get_request r).
Proof. intros fr t Ht. unfold wp, get_request. by destruct (s_requests t !! r). Qed.
Lemma inv_put fr t r x x' : inv fr t -> s_requests t !! r = Some x -> ro_body x' = ro_body x ->
  inv fr (set_requests (<[r := x']> (s_requests t)) (s_bodies t) t).
Proof.
  intros Ht Hx E. apply inv_bodies; [done| |apply length_insert]. by eapply mem_same_body; [exact Hx|exact E|apply Ht].
Qed.
Lemma quiet_put r (f : req_obj -> req_obj) :
  (forall x, ro_body (f x) = ro_body x) -> quiet (let! x := get_request r in put_request r (f x)).
Proof.
  intros Hf fr t Ht. unfold wp, bind, get_request. destruct (s_requests t !! r) as [x|] eqn:Hx; [|done]. cbn.
  split; [|done]. eapply inv_put; [done|done|apply Hf].
Qed.
Lemma quiet_cancel_request r reason : quiet (cancel_request r reason).
Proof. by apply (quiet_put r (fun x => set_ro_cancellation _ x)). Qed.
Lemma quiet_cancel_body r : quiet (cancel_body r).
Proof. eapply quiet_body, body_total_ok, cancel_total. Qed.
Lemma quiet_close_body r : quiet (close_body r).
Proof. eapply quiet_body, body_total_ok, close_total. Qed.

Lemma run_body_call_ok k : body_call_ok (run_body_call k) (fun _ _ => True).
Proof.
  assert (forall A (m : BodyStream.MS A), body_call_ok m (fun _ _ => True) -> body_call_ok (let! _ := m in ret tt) (fun _ _ => True)) as Hd.
  { intros A m Hm o b h Hb. apply wp_bind. eapply wp_mono; [| |by apply Hm]; [|done]. by intros a t Ha. }
  destruct k; cbn [run_body_call].
  - apply Hd, read_chunk_ok.
  - apply Hd, body_total_ok, wait_total.
  - apply Hd. intros o b h Hb. eapply wp_mono; [| |by apply (feed_ok o b h (CBytes data))]; [|done]. by intros a t [? ?].
  - apply body_total_ok, finish_total.
  - apply body_total_ok, cancel_total.
  - intros o b h Hb. eapply wp_mono; [| |by apply (body_total_ok _ _ close_total o b h)]; [|done]. by intros a t (? & ? & _).
Qed.
Lemma quiet_effect e : quiet (run_effect e).
Proof. destruct e; [eapply quiet_body, run_body_call_ok|apply quiet_cancel_request]. Qed.
Lemma quiet_outside {A} (m : outside W A) : quiet (outside_call m).
Proof.
  intros fr t Ht. unfold wp, outside_call. destruct (m (s_world t)) as [es [r w]].
  assert (inv fr (fold_left (fun t e => snd (run_effect e t)) es (set_world w t)) /\
          core (s_conn (fold_left (fun t e => snd (run_effect e t)) es (set_world w t))) = core (s_conn t)) as Hall.
  2:{ by destruct r. }
  assert (inv fr (set_world w t)) as Hw by (by apply (inv_core fr t)).
  change (core (s_conn t)) with (core (s_conn (set_world w t))). generalize dependent (set_world w t). clear t Ht r w.
  induction es as [|e es IH]; intros t Ht; [done|]. cbn [fold_left].
  pose proof (quiet_effect e fr t Ht) as He. unfold wp in He.
  assert (inv fr (snd (run_effect e t)) /\ core (s_conn (snd (run_effect e t))) = core (s_conn t)) as [Ht' Ec].
  { by destruct (run_effect e t) as [[?|?] ?]. }
  destruct (IH _ Ht') as [? E]. split; [done|congruence].
Qed.

(** ** Gauges and output *)

Definition add_requests (n : Z) (fr : frame) : frame :=
  Frame (f_requests fr + n) (f_queued fr) (f_upstream fr) (f_reserved fr) (f_events fr) (f_open fr) (f_closing fr).
Definition add_queued (n : Z) (fr : frame) : frame :=
  Frame (f_requests fr) (f_queued fr + n) (f_upstream fr) (f_reserved fr) (f_events fr) (f_open fr) (f_closing fr).
Definition add_reserved (n : Z) (fr : frame) : frame :=
  Frame (f_requests fr) (f_queued fr) (f_upstream fr) (f_reserved fr + n) (f_events fr) (f_open fr) (f_closing fr).

Lemma admissions_nonneg (c : conn P I It) : 0 <= admissions c.
Proof. unfold admissions, one. destruct (current_admitted c), (bool_decide _), (bool_decide _), (pending_stream c) as [[? ? ? ? ? [] ?]|]; cbn; lia. Qed.
Lemma heads_nonneg es : 0 <= heads es.
Proof. unfold heads. apply count_nonneg. Qed.
Lemma buffered_nonneg fr t : inv fr t -> 0 <= queued_bytes (fst (s_output t)).
Proof. intros Hi. destruct (i_output _ _ Hi) as (f & Ho & _). rewrite (out_len _ _ Ho). apply len_nonneg. Qed.

Lemma inv_life fr fr' t l :
  inv fr t ->
  gauges l (b_requests others + admissions (s_conn t) + f_requests fr')
    (b_queued others + heads (deferred_events (s_conn t)) + f_queued fr')
    (b_upstream others + f_upstream fr')
    (b_bytes others + queued_bytes (fst (s_output t)) + f_reserved fr') ->
  f_events fr' = f_events fr -> f_open fr' = f_open fr -> f_closing fr' = f_closing fr ->
  0 <= f_requests fr' /\ 0 <= f_queued fr' /\ 0 <= f_upstream fr' /\ 0 <= f_reserved fr' ->
  inv fr' (State (s_conn t) (s_requests t) (s_bodies t) (s_output t) l (s_tls t) (s_world t)).
Proof. intros [] Hg E1 E2 E3 Hfr. split; cbn; rewrite ?E1, ?E2, ?E3; done. Qed.

Lemma wp_life {A} (m : M L A) Q E t :
  wp m (fun a l => Q a (State (s_conn t) (s_requests t) (s_bodies t) (s_output t) l (s_tls t) (s_world t)))
    (fun e l => E e (State (s_conn t) (s_requests t) (s_bodies t) (s_output t) l (s_tls t) (s_world t))) (s_life t) ->
  wp (on_life m : C A) Q E t.
Proof. intros Hm. unfold on_life. by apply wp_zoom. Qed.

Lemma release_request_spec fr t : inv (add_requests 1 fr) t -> 0 <= f_requests fr ->
  wp release_request (fun _ t' => inv fr t' /\ core (s_conn t') = core (s_conn t)) (fun _ _ => False) t.
Proof.
  intros Hi Hf. pose proof (admissions_nonneg (s_conn t)). pose proof (i_frame _ _ Hi) as (_ & ? & ? & ?).
  destruct Hothers as (? & ? & ? & ?). pose proof (i_gauges _ _ Hi) as Hg. cbn [add_requests f_requests f_queued f_upstream f_reserved] in *.
  edestruct law_release_request as (l' & E & Hg'); [|exact Hg|]; [lia|].
  apply wp_life. eapply wp_run; [exact E|]. split; [|done].
  eapply inv_life; [exact Hi| |done|done|done|lia]. by replace (_ + _ - 1) with (b_requests others + admissions (s_conn t) + f_requests fr) in Hg' by lia.
Qed.

Lemma release_queued_spec fr t : inv (add_queued 1 fr) t -> 0 <= f_queued fr ->
  wp (on_life la_release_queued_request : C unit) (fun _ t' => inv fr t' /\ core (s_conn t') = core (s_conn t)) (fun _ _ => False) t.
Proof.
  intros Hi Hf. pose proof (heads_nonneg (deferred_events (s_conn t))). pose proof (i_frame _ _ Hi) as (? & _ & ? & ?).
  destruct Hothers as (? & ? & ? & ?). pose proof (i_gauges _ _ Hi) as Hg. cbn [add_queued f_requests f_queued f_upstream f_reserved] in *.
  edestruct law_release_queued as (l' & E & Hg'); [|exact Hg|]; [lia|].
  apply wp_life. eapply wp_run; [exact E|]. split; [|done].
  eapply inv_life; [exact Hi| |done|done|done|lia].
  by replace (_ + _ - 1) with (b_queued others + heads (deferred_events (s_conn t)) + f_queued fr) in Hg' by lia.
Qed.

Lemma release_bytes_spec fr t n : inv (add_reserved n fr) t -> 0 < n -> 0 <= f_reserved fr ->
  wp (on_life (acc_release n) : C unit) (fun _ t' => inv fr t' /\ core (s_conn t') = core (s_conn t)) (fun _ _ => False) t.
Proof.
  intros Hi Hn Hf. pose proof (buffered_nonneg _ _ Hi). pose proof (i_frame _ _ Hi) as (? & ? & ? & _).
  destruct Hothers as (? & ? & ? & ?). pose proof (i_gauges _ _ Hi) as Hg. cbn [add_reserved f_requests f_queued f_upstream f_reserved] in *.
  edestruct law_release as (l' & E & Hg'); [|exact Hg|]; [split; [exact Hn|lia]|].
  apply wp_life. eapply wp_run; [exact E|]. split; [|done].
  eapply inv_life; [exact Hi| |done|done|done|lia].
  by replace (_ + _ - n) with (b_bytes others + queued_bytes (fst (s_output t)) + f_reserved fr) in Hg' by lia.
Qed.

Lemma reserve_bytes_spec fr t n : inv fr t -> 0 < n ->
  wp (on_life (acc_reserve n) : C bool)
    (fun ok t' => inv (if ok : bool then add_reserved n fr else fr) t' /\ core (s_conn t') = core (s_conn t))
    (fun _ _ => False) t.
Proof.
  intros Hi Hn. pose proof (i_frame _ _ Hi) as (? & ? & ? & ?).
  destruct (law_reserve _ _ _ _ _ n Hn (i_gauges _ _ Hi)) as (ok & l' & E & Hg').
  apply wp_life. eapply wp_run; [exact E|]. split; [|done].
  eapply inv_life; [exact Hi| |by destruct ok..|destruct ok; cbn; lia]. destruct ok; [|done]. cbn. by rewrite Z.add_assoc.
Qed.

Lemma admit_spec fr t : inv fr t ->
  wp (on_life la_admit_request : C bool)
    (fun ok t' => inv (if ok : bool then add_requests 1 fr else fr) t' /\ core (s_conn t') = core (s_conn t))
    (fun _ _ => False) t.
Proof.
  intros Hi. pose proof (i_frame _ _ Hi) as (? & ? & ? & ?).
  destruct (law_admit _ _ _ _ _ (i_gauges _ _ Hi)) as (ok & l' & E & Hg').
  apply wp_life. eapply wp_run; [exact E|]. split; [|done].
  eapply inv_life; [exact Hi| |by destruct ok..|destruct ok; cbn; lia]. destruct ok; [|done]. cbn. by rewrite Z.add_assoc.
Qed.

Lemma queue_spec fr t : inv fr t ->
  wp (on_life la_queue_request : C bool)
    (fun ok t' => inv (if ok : bool then add_queued 1 fr else fr) t' /\ core (s_conn t') = core (s_conn t))
    (fun _ _ => False) t.
Proof.
  intros Hi. pose proof (i_frame _ _ Hi) as (? & ? & ? & ?).
  destruct (law_queue _ _ _ _ _ (i_gauges _ _ Hi)) as (ok & l' & E & Hg').
  apply wp_life. eapply wp_run; [exact E|]. split; [|done].
  eapply inv_life; [exact Hi| |by destruct ok..|destruct ok; cbn; lia]. destruct ok; [|done]. cbn. by rewrite Z.add_assoc.
Qed.

Lemma quiet_metric name : name ∈ connection_counters -> quiet (on_life (la_metric_add name)).
Proof.
  intros Hn fr t Hi. destruct (law_metric _ _ _ _ _ name (i_gauges _ _ Hi) Hn) as (l' & E & Hg').
  apply wp_life. eapply wp_run; [exact E|]. split; [|done]. by eapply inv_life; [exact Hi| |done|done|done|apply Hi].
Qed.

(** The output and the bytes reserved for it. *)
Lemma inv_output fr fr' t o f :
  inv fr t -> out_is o f -> sealed (c_closed (s_conn t) = true /\ f_closing fr = false) f ->
  f_closing fr' = f_closing fr ->
  f_requests fr' = f_requests fr -> f_queued fr' = f_queued fr /\ f_upstream fr' = f_upstream fr -> f_events fr' = f_events fr -> f_open fr' = f_open fr ->
  queued_bytes (fst o) + f_reserved fr' = queued_bytes (fst (s_output t)) + f_reserved fr -> 0 <= f_reserved fr' ->
  inv fr' (State (s_conn t) (s_requests t) (s_bodies t) o (s_life t) (s_tls t) (s_world t)).
Proof.
  intros [] Ho Hc E0 E1 [E2 E5] E3 E4 Eb Hr. split; cbn; rewrite ?E0, ?E1, ?E2, ?E3, ?E4, ?E5; try done; [|by eexists|lia].
  by replace (b_bytes others + queued_bytes (fst o) + f_reserved fr')
    with (b_bytes others + queued_bytes (fst (s_output t)) + f_reserved fr) by lia.
Qed.
Lemma wp_out {A} (m : M (cbuf * heap) A) Q E t :
  wp m (fun a o => Q a (State (s_conn t) (s_requests t) (s_bodies t) o (s_life t) (s_tls t) (s_world t)))
    (fun e o => E e (State (s_conn t) (s_requests t) (s_bodies t) o (s_life t) (s_tls t) (s_world t))) (s_output t) ->
  wp (on_output m : C A) Q E t.
Proof. intros Hm. unfold on_output. by apply wp_zoom. Qed.

Lemma step_of {A} (m : M (cbuf * heap) A) (g : A -> output) x o r o' :
  (forall o, cbuf_step x o = (let! a := m in ret (g a)) o) -> cbuf_step x o = (r, o') ->
  match m o with
  | (Ok a, o1) => r = Ok (g a) /\ o1 = o'
  | (Raise e, o1) => r = Raise e /\ o1 = o'
  end.
Proof. intros Hm. rewrite Hm. unfold bind, ret. destruct (m o) as [[a|e] o1]; by intros [= <- <-]. Qed.

Lemma append_spec fr t data : inv (add_reserved (len data) fr) t -> 0 <= f_reserved fr ->
  wp (on_output (ChannelBuffer.append data) : C Z)
    (fun _ t' => inv fr t' /\ core (s_conn t') = core (s_conn t))
    (fun _ t' => inv (add_reserved (len data) fr) t' /\ core (s_conn t') = core (s_conn t)) t.
Proof.
  intros Hi Hf. destruct (i_output _ _ Hi) as (f & Ho & Hc). destruct (out_step _ _ (OpAppend data) Ho) as (o' & E & Ho').
  apply wp_out. unfold wp. pose proof (step_of (ChannelBuffer.append data) OutTransition (OpAppend data) _ _ _ (fun _ => eq_refl) E) as Hs.
  pose proof (out_len _ _ Ho) as El. pose proof (out_len _ _ Ho') as El'. cbn [fifo_step] in *.
  destruct (ChannelBuffer.append data (s_output t)) as [[a|e] o1]; destruct Hs as [Er ->].
  - destruct (f_closed f) eqn:Ecl; [done|]. destruct (_ >? _); [done|].
    unfold after_growth in *. split; [|done].
    eapply (inv_output (add_reserved (len data) fr)); [done|exact Ho'| |done..| |done].
    + assert (f_closed f = true -> False) as Hne by congruence. intros Hx. exfalso. apply Hne, Hc.
      destruct Hx as [Hx|Hx]; [left|by right]. revert Hx. destruct (_ && _); cbn; congruence.
    + cbn. rewrite El, El'. destruct (_ && _); cbn; rewrite len_app; lia.
  - split; [|done]. destruct (f_closed f) eqn:Ecl; [|destruct (_ >? _); [|by destruct (after_growth _ _ _)]].
    all: (eapply inv_output; [exact Hi|exact Ho'|exact Hc|done..| |apply Hi]); cbn in *; lia.
Qed.

Lemma consume_spec fr t n : inv fr t -> 0 < n ->
  wp (on_output (ChannelBuffer.consume n) : C Z)
    (fun _ t' => inv (add_reserved n fr) t' /\ core (s_conn t') = core (s_conn t))
    (fun _ t' => inv fr t' /\ core (s_conn t') = core (s_conn t)) t.
Proof.
  intros Hi Hn. destruct (i_output _ _ Hi) as (f & Ho & Hc). destruct (out_step _ _ (OpConsume n) Ho) as (o' & E & Ho').
  apply wp_out. unfold wp. pose proof (step_of (ChannelBuffer.consume n) OutTransition (OpConsume n) _ _ _ (fun _ => eq_refl) E) as Hs.
  pose proof (out_len _ _ Ho) as El. pose proof (out_len _ _ Ho') as El'. cbn [fifo_step] in *.
  pose proof (i_frame _ _ Hi) as (_ & _ & _ & ?).
  destruct (ChannelBuffer.consume n (s_output t)) as [[a|e] o1]; destruct Hs as [Er ->].
  - destruct ((n <? 0) || (n >? len (f_bytes f))) eqn:Eg; [done|]. b2p. unfold after_drain in *. split; [|done].
    eapply inv_output; [exact Hi|exact Ho'| |done..| |cbn; lia].
    + intros Hx. exfalso. assert (f_closed f = true /\ f_bytes f = []) as [_ Hb].
      { apply Hc. destruct Hx as [Hx|Hx]; [left|by right]. revert Hx. destruct (_ && _); done. }
      rewrite Hb in *. change (len (@nil Z)) with 0 in *. lia.
    + cbn. rewrite El, El'. destruct (_ && _); cbn; rewrite len_from by lia; lia.
  - split; [|done]. destruct (_ || _); [|by destruct (after_drain _ _ _)].
    eapply inv_output; [exact Hi|exact Ho'|exact Hc|done..| |apply Hi]. cbn in *. lia.
Qed.

Lemma quiet_peek limit : quiet (peek_output limit).
Proof.
  intros fr t Hi. destruct (i_output _ _ Hi) as (f & Ho & Hc). destruct (peek_run limit _ _ Ho) as (d & o' & E & Ho' & El).
  apply wp_out. eapply wp_run; [exact E|]. split; [|done].
  eapply inv_output; [exact Hi|exact Ho'|exact Hc|done..| |apply Hi]. by rewrite El.
Qed.

Lemma quiet_len : quiet output_len.
Proof. by intros fr t Hi. Qed.

(** ** Calls made of quiet ones *)

(** The hooks only observe. *)
Context (Hpolite : forall h w a, fst (snd (o_hook env h w)) = Ok a -> a = None).

Lemma quiet_hook h : quiet (call_hook env h).
Proof.
  intros fr t Hi. unfold call_hook. apply wp_bind. pose proof (quiet_outside (o_hook env h) fr t Hi) as Ho.
  assert (fst (outside_call (o_hook env h) t) = fst (snd (o_hook env h (s_world t)))) as Er.
  { unfold outside_call. by destruct (o_hook env h (s_world t)) as [es [r w]]. }
  unfold wp in *. destruct (outside_call (o_hook env h) t) as [[a|e] t']; [|done].
  rewrite (Hpolite h (s_world t) a) by (by rewrite <- Er). done.
Qed.

Create HintDb quiet.
Hint Resolve quiet_ret quiet_raise conn_quiet_lift quiet_self quiet_attempt quiet_capture quiet_reraise quiet_tls
  quiet_get_request quiet_cancel_request quiet_cancel_body quiet_close_body quiet_outside quiet_peek quiet_len quiet_hook : quiet.
Hint Extern 1 (_ ∈ connection_counters) => (unfold connection_counters; repeat (first [by left|right])) : quiet.
Hint Resolve quiet_metric : quiet.

(** Decomposes a method into quiet calls. *)
Ltac quietly :=
  repeat lazymatch goal with
  | |- quiet (bind _ _) => apply conn_quiet_bind; [|intros ?]
  | |- quiet (try_except _ _) => apply quiet_try; [|intros ?]
  | |- quiet (attempt_all _) => apply quiet_attempt_all
  | |- quiet (upd _) => apply quiet_upd; intros ?; cbn beta; repeat case_match; by split
  | |- quiet (fun t => (Ok _, t)) => apply quiet_state
  | |- quiet (if ?b then _ else _) => destruct b
  | |- quiet (match ?x with _ => _ end) => destruct x
  | |- Forall _ (_ ++ _) => apply Forall_app; split
  | |- Forall _ (_ :: _) => apply Forall_cons; split
  | |- Forall _ [] => constructor
  | |- Forall _ (if ?b then _ else _) => destruct b
  | |- quiet _ => solve [auto with quiet nocore]
  end.

Lemma wp_quiet {A B} (m : C A) (k : A -> C B) Q E fr t : quiet m -> inv fr t ->
  (forall a t', inv fr t' -> core (s_conn t') = core (s_conn t) -> wp (k a) Q E t') ->
  (forall e t', inv fr t' -> core (s_conn t') = core (s_conn t) -> E e t') ->
  wp (bind m k) Q E t.
Proof.
  intros Hm Hi Hk He. apply wp_bind. eapply wp_mono; [| |by apply Hm].
  - intros a t' [? ?]. by apply Hk.
  - intros e t' [? ?]. by apply He.
Qed.

Lemma quiet_now : quiet (now_ms env).
Proof. unfold now_ms. quietly. Qed.
Lemma quiet_transport {A} (m : outside W A) : quiet (transport env m).
Proof. unfold transport. quietly. Qed.
Lemma quiet_running : quiet lifecycle_running.
Proof. apply quiet_state. Qed.
Hint Resolve quiet_now quiet_transport quiet_running : quiet.

Lemma len_positive (data : bytes) : data <> [] -> 0 < len data.
Proof. destruct data as [|x data]; [done|]. intros _. lens. pose proof (len_nonneg data). lia. Qed.

Lemma quiet_queue_bytes data : quiet (queue_bytes env config data).
Proof.
  unfold queue_bytes. case_bool_decide as Hd; [apply quiet_ret|]. apply len_positive in Hd.
  intros fr t Hi. apply wp_bind. pose proof (i_frame _ _ Hi) as (_ & _ & _ & Hr).
  eapply wp_mono; [| |by apply reserve_bytes_spec]; [|by intros].
  intros [] t1 [Hi1 E1]; cbn [negb]; [|done]. apply wp_bind, wp_try.
  eapply wp_mono; [| |by apply append_spec].
  - intros tr t2 [Hi2 E2]. cbn beta. rewrite <- E1, <- E2.
    match goal with |- wp ?m _ _ _ => assert (quiet m) as Hq; [quietly|] end. by apply Hq.
  - intros e t2 [Hi2 E2]. cbn beta. apply wp_bind. eapply wp_mono; [| |by apply release_bytes_spec]; [|by intros].
    intros _ t3 [Hi3 E3]. split; [done|congruence].
Qed.
Hint Resolve quiet_queue_bytes : quiet.

Lemma quiet_consume_output n : quiet (consume_output env config n).
Proof.
  unfold consume_output. destruct (Z.leb_spec n 0); [apply quiet_ret|]. intros fr t Hi. pose proof (i_frame _ _ Hi) as (_ & _ & _ & Hr).
  apply wp_bind. eapply wp_mono; [| |by apply consume_spec]; [|done]. intros tr t1 [Hi1 E1].
  apply wp_bind. eapply wp_mono; [| |by apply release_bytes_spec]; [|by intros]. intros _ t2 [Hi2 E2].
  rewrite <- E1, <- E2. match goal with |- wp ?m _ _ _ => assert (quiet m) as Hq; [quietly|] end. by apply Hq.
Qed.
Hint Resolve quiet_consume_output : quiet.

Lemma quiet_take_output n : quiet (take_output env config n).
Proof. unfold take_output. quietly. Qed.
Lemma quiet_response_payload m a : quiet (response_payload env m a).
Proof. unfold response_payload, response_keep_alive. quietly. Qed.
Lemma quiet_request_finished r x : quiet (request_finished env r x).
Proof. unfold request_finished. quietly. Qed.
Lemma quiet_close_if_last : quiet (close_if_last config).
Proof. unfold close_if_last. quietly. Qed.
Lemma quiet_count_completed : quiet count_completed.
Proof. unfold count_completed. quietly. Qed.
Hint Resolve quiet_take_output quiet_response_payload quiet_request_finished quiet_close_if_last quiet_count_completed : quiet.
Lemma quiet_on_overflow m e : quiet (on_overflow env config m e).
Proof. unfold on_overflow. quietly. Qed.
Lemma quiet_publish_response r m x : quiet (publish_response env config r m x).
Proof. unfold publish_response. quietly. Qed.
Lemma quiet_upd_stream (f : stream I It -> stream I It) :
  (forall s, st_request (f s) = st_request s /\ st_admitted (f s) = st_admitted s) -> quiet (upd_stream f).
Proof.
  intros Hf. unfold upd_stream. apply quiet_upd. intros c. split; [|done]. unfold core. cbn.
  destruct (pending_stream c) as [x|]; [|done]. cbn. by destruct (Hf x) as [-> ->].
Qed.
Hint Extern 1 (quiet (upd_stream _)) => (apply quiet_upd_stream; by intros) : quiet.
Lemma quiet_queue_piece n : quiet (queue_piece env config n).
Proof. unfold queue_piece. quietly. Qed.
Hint Resolve quiet_on_overflow quiet_publish_response quiet_queue_piece : quiet.
Lemma quiet_request_timeout r : quiet (request_timeout env r).
Proof. unfold request_timeout. quietly. Qed.
Lemma quiet_arm_header : quiet (arm_header_deadline env config).
Proof. unfold arm_header_deadline. quietly. Qed.
Lemma quiet_arm_write n : quiet (arm_write_deadline config n).
Proof. unfold arm_write_deadline. quietly. Qed.
Lemma quiet_wait_for r : quiet (wait_for r).
Proof. unfold wait_for. quietly. Qed.
Hint Resolve quiet_request_timeout quiet_arm_header quiet_arm_write quiet_wait_for : quiet.
Lemma quiet_write_transport d : quiet (write_transport env config d).
Proof. unfold write_transport. quietly. Qed.
Lemma quiet_read_transport n : quiet (read_transport env n).
Proof. unfold read_transport, read_deadline. quietly. Qed.
Lemma quiet_begin_drain : quiet begin_drain.
Proof. unfold begin_drain. quietly. Qed.
Hint Resolve quiet_write_transport quiet_read_transport quiet_begin_drain : quiet.
Lemma quiet_signal_pending_local reason : quiet (signal_pending_local env reason).
Proof. unfold signal_pending_local. quietly. Qed.
Lemma quiet_signal_owner_shutdown reason : quiet (signal_owner_shutdown env reason).
Proof.
  unfold signal_owner_shutdown. apply conn_quiet_bind; [quietly|intros c]. apply conn_quiet_bind; [|intros e; quietly].
  apply quiet_attempt_all, Forall_concat, Forall_map, Forall_true. intros r. cbn. quietly.
Qed.
Hint Resolve quiet_signal_pending_local quiet_signal_owner_shutdown : quiet.

(** ** Taking a request from the connection and giving it back *)

Definition add_open (r : nat) (fr : frame) : frame :=
  Frame (f_requests fr) (f_queued fr) (f_upstream fr) (f_reserved fr) (f_events fr) (r :: f_open fr) (f_closing fr).
(** The frame holds request [r], and its admission if [b]. *)
Definition holding (r : nat) (b : bool) (fr : frame) : frame := add_requests (one b) (add_open r fr).

Lemma inv_range fr t r : inv fr t -> r ∈ f_open fr ++ owned (s_conn t) -> (r < length (s_requests t))%nat.
Proof. intros Hi. pose proof (i_refs _ _ Hi) as Hr. rewrite Forall_forall in Hr. apply Hr. Qed.

Lemma total_body {A} r (m : BodyStream.MS A) Q fr t : body_call_total m Q -> inv fr t -> (r < length (s_requests t))%nat ->
  wp (on_body r m) (fun _ t' => inv fr t' /\ core (s_conn t') = core (s_conn t)) (fun _ _ => False) t.
Proof.
  intros Hm Hi Hr. pose proof (quiet_body r m Q (body_total_ok _ _ Hm) fr t Hi) as Hq. unfold wp in *.
  destruct (on_body r m t) as [[a|e] t'] eqn:E; [done|]. exfalso. revert E. unfold on_body.
  destruct (lookup_lt_is_Some_2 (s_requests t) r Hr) as [x Hx]. rewrite Hx.
  destruct (mem_body _ _ _ _ _ _ (i_mem _ _ Hi) Hx) as (o & Hb & _). pose proof (Hm o _ _ Hb) as Hw. unfold wp in Hw.
  by destruct (m _) as [[?|?] [? ?]].
Qed.

Lemma close_body_spec fr t r : inv (add_open r fr) t ->
  wp (close_body r) (fun _ t' => inv fr t' /\ core (s_conn t') = core (s_conn t)) (fun _ _ => False) t.
Proof.
  intros Hi. assert (r < length (s_requests t))%nat as Hr by (apply (inv_range _ _ r Hi); by left).
  unfold wp, close_body, on_body. destruct (lookup_lt_is_Some_2 (s_requests t) r Hr) as [x Hx]. rewrite Hx.
  destruct (mem_body _ _ _ _ _ _ (i_mem _ _ Hi) Hx) as (o & Hb & _ & Hmem). pose proof (close_total o _ _ Hb) as Hw. unfold wp in Hw.
  destruct (BodyStream.close _) as [[a|e] [b' h']]; [|done]. cbn [fst snd] in Hw. destruct Hw as (Hb' & Hm & Hcl).
  split; [|done]. destruct Hi as [Hg Ho _ Hf Hrefs Hk Hc Hem Hfr]. split; cbn; try done.
  - apply Hmem; [done|done|]. cbn. intros j [->|Hj]%elem_of_cons; [by right|by left].
  - cbn in Hrefs. rewrite length_insert. by apply Forall_cons in Hrefs as [_ ?].
Qed.

Lemma each_quiet ms m (R : state -> Prop) E fr t : quiet m -> inv fr t ->
  (forall t', inv fr t' -> core (s_conn t') = core (s_conn t) -> wp (attempt_all ms) (fun _ => R) E t') ->
  wp (attempt_all (m :: ms)) (fun _ => R) E t.
Proof. intros Hm Hi Hk. apply wp_each. eapply wp_mono; [| |by apply Hm]; intros ? t' [? ?]; by apply Hk. Qed.

(** The last calls of every path: the body is closed and the admission given back. *)
Definition given_back (fr : frame) (t : state) (_ : option exn) (t' : state) : Prop :=
  inv fr t' /\ core (s_conn t') = core (s_conn t).
Lemma give_back fr t r b : inv (holding r b fr) t -> 0 <= f_requests fr ->
  wp (attempt_all ([close_body r] ++ if b then [release_request] else [])) (given_back fr t) (fun _ _ => False) t.
Proof.
  intros Hi Hf. cbn [app]. apply wp_each. eapply wp_mono; [| |apply (close_body_spec (add_requests (one b) fr)); exact Hi]; [|by intros].
  intros _ t1 [Hi1 E1]. destruct b.
  - apply wp_each. eapply wp_mono; [| |by apply release_request_spec]; [|by intros]. intros _ t2 [Hi2 E2]. split; [done|congruence].
  - cbn. split; [|done]. unfold holding in Hi1. destruct fr. unfold add_requests in Hi1. cbn in *. by rewrite Z.add_0_r in Hi1.
Qed.
(** The same, the admission first. *)
Lemma give_back_first fr t r : inv (holding r true fr) t -> 0 <= f_requests fr ->
  wp (attempt_all [release_request; close_body r]) (given_back fr t) (fun _ _ => False) t.
Proof.
  intros Hi Hf. apply wp_each. eapply wp_mono; [| |apply (release_request_spec (add_open r fr)); [exact Hi|done]]; [|by intros].
  intros _ t1 [Hi1 E1]. apply wp_each. eapply wp_mono; [| |by apply close_body_spec]; [|by intros].
  intros _ t2 [Hi2 E2]. split; [done|congruence].
Qed.

Lemma owners_move fr fr' t c' :
  inv fr t ->
  admissions c' + f_requests fr' = admissions (s_conn t) + f_requests fr ->
  heads (deferred_events c') + f_queued fr' = heads (deferred_events (s_conn t)) + f_queued fr ->
  f_upstream fr' = f_upstream fr /\ f_reserved fr' = f_reserved fr ->
  body_views (f_events fr') ++ body_views (deferred_events c')
    ≡ₚ body_views (f_events fr) ++ body_views (deferred_events (s_conn t)) ->
  Forall unreleased (f_events fr') -> Forall unreleased (deferred_events c') ->
  (forall i, i ∈ f_open fr' ++ owned c' <-> i ∈ f_open fr ++ owned (s_conn t)) ->
  c_codec c' = c_codec (s_conn t) -> c_closed c' = c_closed (s_conn t) -> f_closing fr' = f_closing fr -> conn_ok c' ->
  (c_closed c' = true -> f_closing fr = false -> emptied c') ->
  0 <= f_requests fr' /\ 0 <= f_queued fr' ->
  inv fr' (set_conn c' t).
Proof.
  intros [Hg Ho Hm Hfe Hr Hk Hc Hem Hf] Ea Eq [Eu Er] Ev F1 F2 Hown Ek Ecl Efc Hok Hem' Hf'.
  split; cbn; rewrite ?Er, ?Eu, ?Ek, ?Efc; try done.
  - replace (b_requests others + admissions c' + f_requests fr') with (b_requests others + admissions (s_conn t) + f_requests fr) by lia.
    by replace (b_queued others + heads (deferred_events c') + f_queued fr')
      with (b_queued others + heads (deferred_events (s_conn t)) + f_queued fr) by lia.
  - by rewrite Ecl.
  - apply (mem_open_mono _ (f_open fr ++ owned (s_conn t))); [intros i Hi; by apply Hown|].
    eapply mem_views; [symmetry; exact Ev|exact Hm].
  - rewrite Forall_forall in Hr |- *. intros i Hi. by apply Hr, Hown.
  - split_and!; try apply Hf'; apply Hf.
Qed.

(** Membership in lists written out. *)
Ltac members := cbn; repeat first [rewrite elem_of_app|rewrite elem_of_cons|rewrite elem_of_nil]; tauto.

(** [after f]: what the call leaves of the connection is [f] of it, whether it raises or not. *)
Definition ends {A} (m : C A) (fr fr' : frame) (t : state) (f : conn P I It -> conn P I It) : Prop :=
  wp m (fun _ t' => inv fr' t' /\ core (s_conn t') = core (f (s_conn t)))
       (fun _ t' => inv fr' t' /\ core (s_conn t') = core (f (s_conn t))) t.

Lemma quiet_ends {A} (m : C A) fr t f c : quiet m -> inv fr (set_conn c t) -> c = f (s_conn t) ->
  wp m (fun _ t' => inv fr t' /\ core (s_conn t') = core (f (s_conn t)))
       (fun _ t' => inv fr t' /\ core (s_conn t') = core (f (s_conn t))) (set_conn c t).
Proof. intros Hm Hi ->. by apply Hm. Qed.

Lemma attempt_quiet {B} (m : C unit) (k : option exn -> C B) Q E fr t : quiet m -> inv fr t ->
  (forall o t', inv fr t' -> core (s_conn t') = core (s_conn t) -> wp (k o) Q E t') ->
  wp (bind (attempt m) k) Q E t.
Proof.
  intros Hm Hi Hk. apply wp_bind, wp_attempt. eapply wp_mono; [| |by apply Hm]; intros ? t' [? ?]; by apply Hk.
Qed.
Lemma each_done {B} ms (k : option exn -> C B) Q E fr t0 t : wp (attempt_all ms) (given_back fr t0) (fun _ _ => False) t ->
  (forall o t', inv fr t' -> core (s_conn t') = core (s_conn t0) -> wp (k o) Q E t') ->
  wp (bind (attempt_all ms) k) Q E t.
Proof. intros Hm Hk. apply wp_bind. eapply wp_mono; [| |exact Hm]; [|by intros]. intros o t' [? ?]. by apply Hk. Qed.
Lemma given_from ms fr t0 t : core (s_conn t) = core (s_conn t0) ->
  wp (attempt_all ms) (given_back fr t) (fun _ _ => False) t -> wp (attempt_all ms) (given_back fr t0) (fun _ _ => False) t.
Proof. intros Ec Hm. eapply wp_mono; [| |exact Hm]; [|done]. intros o t' [? ?]. split; [done|congruence]. Qed.
Lemma reraise_ends o fr t (c : conn P I It) : inv fr t -> core (s_conn t) = core c ->
  wp (reraise o) (fun _ t' => inv fr t' /\ core (s_conn t') = core c) (fun _ t' => inv fr t' /\ core (s_conn t') = core c) t.
Proof. intros Hi Hc. by apply wp_reraise; destruct o. Qed.

Definition clear_current (c : conn P I It) : conn P I It := set_current_admitted false (set_current_request None c).

Lemma take_current fr t r :
  inv fr t -> current_request (s_conn t) = Some r ->
  inv (holding r (current_admitted (s_conn t)) fr) (set_conn (clear_current (s_conn t)) t).
Proof.
  intros Hi Hr. pose proof (i_conn _ _ Hi) as [Ha Hal Ho]. pose proof (i_frame _ _ Hi) as (? & ? & ? & ?).
  pose proof (i_fresh _ _ Hi) as [? ?]. eapply owners_move; [exact Hi|..]; try done.
  - unfold admissions. cbn. lia.
  - intros i. unfold owned. rewrite Hr. cbn. members.
  - intros Hc Hf. destruct (i_closed _ _ Hi Hc Hf). congruence.
  - cbn. unfold one. destruct (current_admitted _); lia.
Qed.

Lemma drop_alias fr t r :
  inv fr t -> current_request (s_conn t) = Some r ->
  is_pending_proxy r (s_conn t) || is_pending_local r (s_conn t) = true ->
  inv fr (set_conn (clear_current (s_conn t)) t).
Proof.
  intros Hi Hr Hp. pose proof (i_conn _ _ Hi) as [Ha Hal Ho]. pose proof (i_frame _ _ Hi) as (? & ? & ? & ?).
  pose proof (i_fresh _ _ Hi) as [? ?]. unfold is_pending_proxy, is_pending_local in Hp.
  assert (current_admitted (s_conn t) = false) as Ea.
  { destruct (current_admitted (s_conn t)); [|done]. destruct (Ha eq_refl) as [_ Hn]. unfold is_pending in Hn.
    destruct (pending_proxy (s_conn t)) as [[? ?]|], (pending_local (s_conn t)) as [[? ?]|]; done. }
  eapply owners_move; [exact Hi|..]; try done.
  - unfold admissions. cbn. rewrite Ea. cbn. lia.
  - intros i. unfold owned. rewrite Hr. cbn.
    destruct (pending_proxy (s_conn t)) as [[? q]|]; cbn in *;
      [|destruct (pending_local (s_conn t)) as [[q ?]|]; cbn in *; [|done]].
    + apply orb_true_iff in Hp as [Hp|Hp]; [apply Nat.eqb_eq in Hp as ->; members|].
      destruct (pending_local (s_conn t)) as [[? ?]|]; [|done]. cbn in Ho. lia.
    + apply Nat.eqb_eq in Hp as ->. members.
  - intros Hc Hf. destruct (i_closed _ _ Hi Hc Hf). congruence.
Qed.

Lemma abort_spec reason fr t : inv fr t -> ends (abort_current_request reason) fr fr t clear_current.
Proof.
  intros Hi. unfold ends, abort_current_request. apply wp_bind. unfold wp at 1. cbn [self].
  destruct (current_request (s_conn t)) as [r|] eqn:Er.
  2:{ split; [done|]. unfold core. cbn. rewrite Er. destruct (current_admitted (s_conn t)) eqn:Ea; [|done].
      destruct (co_admitted _ (i_conn _ _ Hi) Ea) as [[? ?] _]. congruence. }
  apply wp_bind, wp_modify. pose proof (i_frame _ _ Hi) as (? & ? & ? & ?).
  destruct (is_pending_proxy r (s_conn t) || is_pending_local r (s_conn t)) eqn:Ep.
  - pose proof (drop_alias _ _ _ Hi Er Ep) as Hi'. eapply (quiet_ends _ fr t clear_current); [|exact Hi'|done].
    destruct (is_pending_local r (s_conn t)); [quietly|]. rewrite orb_false_r in Ep. rewrite Ep. cbn [negb]. quietly.
  - apply orb_false_iff in Ep as [-> ->]. cbn [negb]. pose proof (take_current _ _ _ Hi Er) as Hi'.
    eapply attempt_quiet; [quietly|exact Hi'|]. intros e1 t1 Hi1 E1.
    eapply (each_done _ _ _ _ fr t1); [|intros o t' Hi2 E2; apply reraise_ends; [done|by rewrite E2, E1]]. cbn [app].
    eapply each_quiet; [quietly|exact Hi1|]. intros t2 Hi2 E2. eapply given_from; [exact E2|]. by apply give_back.
Qed.

(** The one pending request, taken from the connection. *)
Lemma unpend_ok (c c' : conn P I It) :
  conn_ok c -> is_pending c = true -> is_pending c' = false ->
  current_request c' = current_request c -> current_admitted c' = current_admitted c ->
  pending_proxy c' = None -> pending_local c' = None -> pending_stream c' = None -> conn_ok c'.
Proof.
  intros [Ha Hal Ho] Hp Hp' E1 E2 E3 E4 E5. split.
  - rewrite E1, E2, Hp'. intros Hx. by destruct (Ha Hx) as [? _].
  - intros r _. by rewrite Hp'.
  - rewrite E3, E4, E5. cbn. lia.
Qed.
Lemma one_pending (c : conn P I It) : conn_ok c ->
  match pending_proxy c, pending_local c, pending_stream c with
  | Some _, None, None | None, Some _, None | None, None, Some _ | None, None, None => True
  | _, _, _ => False
  end.
Proof.
  intros [_ _ Ho]. destruct (pending_proxy c), (pending_local c), (pending_stream c); cbn in Ho; try done; lia.
Qed.

Lemma take_proxy fr t p r : inv fr t -> pending_proxy (s_conn t) = Some (p, r) ->
  inv (holding r true fr) (set_conn (set_pending_proxy None (s_conn t)) t).
Proof.
  intros Hi Hp. pose proof (i_conn _ _ Hi) as Hc. pose proof (one_pending _ Hc) as H1p. rewrite Hp in H1p.
  pose proof (i_frame _ _ Hi) as (? & ? & ? & ?). pose proof (i_fresh _ _ Hi) as [? ?].
  destruct (pending_local (s_conn t)) eqn:El; [done|]. destruct (pending_stream (s_conn t)) eqn:Es; [done|].
  eapply owners_move; [exact Hi|..]; try done.
  - unfold admissions. cbn. rewrite Hp, El, Es. cbn. lia.
  - intros i. unfold owned. cbn. rewrite Hp. members.
  - eapply unpend_ok; [exact Hc|unfold is_pending; by rewrite Hp|unfold is_pending; cbn; by rewrite El, Es|done..].
  - intros Hcl Hf. by destruct (i_closed _ _ Hi Hcl Hf) as (? & ? & ? & ?).
  - cbn. lia.
Qed.
Lemma take_local fr t r h : inv fr t -> pending_local (s_conn t) = Some (r, h) ->
  inv (holding r true fr) (set_conn (set_pending_local None (s_conn t)) t).
Proof.
  intros Hi Hp. pose proof (i_conn _ _ Hi) as Hc. pose proof (one_pending _ Hc) as H1p. rewrite Hp in H1p.
  pose proof (i_frame _ _ Hi) as (? & ? & ? & ?). pose proof (i_fresh _ _ Hi) as [? ?].
  destruct (pending_proxy (s_conn t)) eqn:El; [done|]. destruct (pending_stream (s_conn t)) eqn:Es; [done|].
  eapply owners_move; [exact Hi|..]; try done.
  - unfold admissions. cbn. rewrite Hp, El, Es. cbn. lia.
  - intros i. unfold owned. cbn. rewrite Hp. members.
  - eapply unpend_ok; [exact Hc|unfold is_pending; by rewrite Hp, El|unfold is_pending; cbn; by rewrite El, Es|done..].
  - intros Hcl Hf. by destruct (i_closed _ _ Hi Hcl Hf) as (? & ? & ? & ?).
  - cbn. lia.
Qed.
Lemma take_stream fr t s : inv fr t -> pending_stream (s_conn t) = Some s ->
  inv (holding (st_request s) (st_admitted s) fr) (set_conn (set_pending_stream None (s_conn t)) t).
Proof.
  intros Hi Hp. pose proof (i_conn _ _ Hi) as Hc. pose proof (one_pending _ Hc) as H1p. rewrite Hp in H1p.
  pose proof (i_frame _ _ Hi) as (? & ? & ? & ?). pose proof (i_fresh _ _ Hi) as [? ?].
  destruct (pending_proxy (s_conn t)) eqn:El; [by destruct (pending_local (s_conn t))|].
  destruct (pending_local (s_conn t)) eqn:Es; [done|].
  eapply owners_move; [exact Hi|..]; try done.
  - unfold admissions. cbn. rewrite Hp, El, Es. cbn. lia.
  - intros i. unfold owned. cbn. rewrite Hp. members.
  - eapply unpend_ok; [exact Hc|unfold is_pending; by rewrite Hp, El, Es|unfold is_pending; cbn; by rewrite El, Es|done..].
  - intros Hcl Hf. by destruct (i_closed _ _ Hi Hcl Hf) as (? & ? & ? & ?).
  - cbn. unfold one. destruct (st_admitted s); lia.
Qed.

Lemma cancel_proxy_spec reason fr t : inv fr t -> ends (cancel_pending_proxy reason) fr fr t (set_pending_proxy None).
Proof.
  intros Hi. unfold ends, cancel_pending_proxy. apply wp_bind. unfold wp at 1. cbn [self].
  destruct (pending_proxy (s_conn t)) as [[p r]|] eqn:Ep; [|split; [done|]; unfold core; cbn; by rewrite Ep].
  apply wp_bind, wp_modify. pose proof (take_proxy _ _ _ _ Hi Ep) as Hi1. pose proof (i_frame _ _ Hi) as (? & _).
  eapply (each_done _ _ _ _ fr (set_conn (set_pending_proxy None (s_conn t)) t)); [|intros o t' Hi2 E2; by apply reraise_ends].
  eapply each_quiet; [quietly|exact Hi1|]. intros t1 Hi2 E2. eapply each_quiet; [quietly|exact Hi2|]. intros t2 Hi3 E3.
  eapply given_from; [by rewrite E3, E2|]. by apply (give_back _ _ _ true).
Qed.
Lemma cancel_stream_spec reason fr t : inv fr t -> ends (cancel_pending_stream reason) fr fr t (set_pending_stream None).
Proof.
  intros Hi. unfold ends, cancel_pending_stream. apply wp_bind. unfold wp at 1. cbn [self].
  destruct (pending_stream (s_conn t)) as [s|] eqn:Ep; [|split; [done|]; unfold core; cbn; by rewrite Ep].
  apply wp_bind, wp_modify. pose proof (take_stream _ _ _ Hi Ep) as Hi1. pose proof (i_frame _ _ Hi) as (? & _).
  eapply (each_done _ _ _ _ fr (set_conn (set_pending_stream None (s_conn t)) t)); [|intros o t' Hi2 E2; by apply reraise_ends].
  cbn [app]. eapply each_quiet; [quietly|exact Hi1|]. intros t1 Hi2 E2.
  eapply given_from; [by rewrite E2|]. by apply give_back.
Qed.

Lemma complete_stream_spec fr t : inv fr t -> ends (complete_streaming_response env config) fr fr t (set_pending_stream None).
Proof.
  intros Hi. unfold ends, complete_streaming_response. apply wp_bind. unfold wp at 1. cbn [self].
  destruct (pending_stream (s_conn t)) as [s|] eqn:Ep; [|split; [done|]; unfold core; cbn; by rewrite Ep].
  apply wp_bind, wp_modify. pose proof (take_stream _ _ _ Hi Ep) as Hi1. pose proof (i_frame _ _ Hi) as (? & _).
  apply wp_bind, wp_modify. set (t1 := set_conn _ (set_conn _ t)).
  assert (inv (holding (st_request s) (st_admitted s) fr) t1) as Hi2 by (by apply (inv_core _ _ _ Hi1)).
  eapply (each_done _ _ _ _ fr t1); cbn [app].
  - eapply each_quiet; [quietly|exact Hi2|]. intros t2 Hi3 E3. eapply given_from; [by rewrite E3|]. by apply give_back.
  - intros o t' Hi3 E3. eapply wp_quiet; [apply quiet_close_if_last|exact Hi3| |].
    + intros _ t2 Hi4 E4. apply reraise_ends; [done|by rewrite E4, E3].
    + intros e t2 Hi4 E4. split; [done|by rewrite E4, E3].
Qed.

(** ** Events *)

(** The frame holds the events too, and the queued heads among them if [q]. *)
Definition add_events (es : list (event body_chunk)) (q : bool) (fr : frame) : frame :=
  Frame (f_requests fr) (f_queued fr + if q then heads es else 0) (f_upstream fr) (f_reserved fr) (es ++ f_events fr)
    (f_open fr) (f_closing fr).

Lemma add_events_nil q fr : add_events [] q fr = fr.
Proof. destruct fr, q; unfold add_events; cbn; by rewrite ?Z.add_0_r. Qed.
Lemma add_events_app es es' q fr : add_events (es ++ es') q fr = add_events es q (add_events es' q fr).
Proof.
  unfold add_events. cbn. rewrite <- app_assoc. f_equal. destruct q; [|lia]. unfold heads. rewrite count_app. lia.
Qed.
Lemma add_head h q fr : add_events [EHead h] q fr = add_queued (one q) (add_events [EHead h] false fr).
Proof. unfold add_events, add_queued, one. cbn. f_equal. destruct q; cbn; lia. Qed.

(** An event that is no chunk is nothing to hold. *)
Lemma drop_event e fr t : (forall b, e <> EBody b) -> inv (add_events [e] false fr) t <-> inv fr t.
Proof.
  intros He. unfold add_events. split; intros [Hg Ho Hm [Hf1 Hf2] Hr Hk Hc Hem Hf]; split; cbn in *; rewrite ?Z.add_0_r in *; try done.
  - destruct e as [h|b|tr]; [done|by destruct (He b)|done].
  - split; [by apply Forall_cons in Hf1 as [_ ?]|done].
  - destruct e as [h|b|tr]; [done|by destruct (He b)|done].
  - split; [|done]. apply Forall_cons. split; [|done]. destruct e as [h|b|tr]; [done|by destruct (He b)|done].
Qed.

(** Releasing a chunk the frame holds. *)
Lemma release_chunk_spec b fr t : inv (add_events [EBody b] false fr) t ->
  wp (on_heap (BodyChunk.release b) : C (Z * body_chunk))
    (fun _ t' => inv fr t' /\ core (s_conn t') = core (s_conn t)) (fun _ _ => False) t.
Proof.
  intros Hi. pose proof Hi as [Hg Ho Hm [Hf1 Hf2] Hr Hk Hc Hem Hf]. cbn [add_events f_events app] in *.
  apply Forall_cons in Hf1 as [Hb Hf1]. cbn in Hb. unfold on_heap. apply wp_zoom. unfold BodyChunk.release. rewrite Hb.
  change (body_views (EBody b :: ?es)) with (bc_view b :: body_views es) in Hm.
  destruct (mem_release _ _ _ _ _ Hm) as (h' & n & E & Hm'). apply wp_bind. eapply wp_run; [exact E|].
  split; [|done]. split; cbn in *; rewrite ?Z.add_0_r in *; try done.
Qed.
Lemma release_event_spec b fr t : inv (add_events [EBody b] false fr) t ->
  wp (release_chunk b : C unit) (fun _ t' => inv fr t' /\ core (s_conn t') = core (s_conn t)) (fun _ _ => False) t.
Proof.
  intros Hi. unfold release_chunk. apply wp_bind. eapply wp_mono; [| |by apply release_chunk_spec]; [|done]. by intros a t' ?.
Qed.

Lemma wp_capture {A} (m : C A) Q E t :
  wp m (fun a t' => Q (Ok a) t') (fun e t' => Q (Raise e) t') t -> wp (capture m) Q E t.
Proof. intros Hm. apply wp_try, wp_bind. eapply wp_mono; [| |exact Hm]; by intros. Qed.

(** Every event of a ledger is released, and no error is met. *)
Lemma release_ledger_spec es q : forall fr t, inv (add_events es q fr) t -> 0 <= f_queued fr ->
  wp (release_ledger es q) (fun r t' => fst r = None /\ inv fr t' /\ core (s_conn t') = core (s_conn t)) (fun _ _ => False) t.
Proof.
  induction es as [|e es IH]; intros fr t Hi Hf; [rewrite add_events_nil in Hi; by apply wp_ret|]. cbn [release_ledger].
  change (e :: es) with ([e] ++ es) in Hi. rewrite add_events_app in Hi.
  assert (0 <= f_queued (add_events es q fr)) as Hf'.
  { cbn. pose proof (heads_nonneg es). destruct q; lia. }
  apply wp_bind, wp_capture.
  eapply (wp_mono _ (fun _ t1 => inv (add_events es q fr) t1 /\ core (s_conn t1) = core (s_conn t)) _ (fun _ _ => False)).
  - intros e' t1 [Hi1 E1]. apply wp_bind. eapply wp_mono; [| |by apply IH]; [|done].
    intros [first rest] t2 (Hfi & Hi2 & E2). cbn in Hfi. subst first. split_and!; [done|done|congruence].
  - by intros.
  - destruct e as [h|b|tr].
    + rewrite add_head in Hi. destruct q; cbn [one] in Hi.
      * apply wp_bind. eapply wp_mono; [| |apply release_queued_spec; [exact Hi|cbn in *; lia]]; [|done].
        intros _ t1 [Hi1 E1]. apply wp_ret. split; [by apply drop_event in Hi1|done].
      * apply wp_bind, wp_ret, wp_ret. split; [|done]. apply drop_event with (e := EHead h); [done|].
        destruct fr; unfold add_queued, add_events in *; cbn in *; by rewrite !Z.add_0_r in *.
    + apply wp_bind. eapply wp_mono; [| |apply release_chunk_spec].
      * intros [n b'] t1 ?. by apply wp_ret.
      * done.
      * replace (add_events [EBody b] false _) with (add_events [EBody b] q (add_events es q fr)); [exact Hi|].
        unfold add_events. f_equal. by destruct q.
    + apply wp_ret. split; [|done]. apply drop_event with (e := EEnd tr); [done|].
      replace (add_events [EEnd tr] false _) with (add_events [EEnd tr] q (add_events es q fr)); [exact Hi|].
      unfold add_events. f_equal. by destruct q.
Qed.

Lemma release_suffix_spec es q fr t : inv (add_events es q fr) t -> 0 <= f_queued fr ->
  wp (release_event_suffix es q) (fun _ t' => inv fr t' /\ core (s_conn t') = core (s_conn t)) (fun _ _ => False) t.
Proof.
  intros Hi Hf. unfold release_event_suffix. apply wp_bind. eapply wp_mono; [| |by apply release_ledger_spec]; [|done].
  intros [o rest] t' (E & ? & ?). cbn in E. by subst o.
Qed.

(** The deferred events, taken from the connection. *)
Lemma take_deferred fr t : inv fr t ->
  inv (add_events (deferred_events (s_conn t)) true fr) (set_conn (set_deferred_events [] (s_conn t)) t).
Proof.
  intros Hi. pose proof (i_conn _ _ Hi) as [? ? ?]. pose proof (i_frame _ _ Hi) as (? & ? & ? & ?).
  pose proof (i_fresh _ _ Hi) as [? ?]. pose proof (heads_nonneg (deferred_events (s_conn t))).
  eapply owners_move; [exact Hi|..]; try done.
  - cbn. lia.
  - cbn. rewrite body_views_app, app_nil_r. apply Permutation_app_comm.
  - by apply Forall_app.
  - intros Hc Hfc. destruct (i_closed _ _ Hi Hc Hfc) as (? & ? & ? & ?). done.
  - cbn. lia.
Qed.

Lemma discard_spec fr t : inv fr t -> ends discard_deferred_events fr fr t (set_deferred_events []).
Proof.
  intros Hi. pose proof (i_frame _ _ Hi) as (? & ? & ? & ?). unfold ends, discard_deferred_events. apply wp_bind.
  unfold wp at 1. cbn [self]. apply wp_bind, wp_modify.
  eapply wp_mono; [| |apply (release_suffix_spec _ true fr); [by apply take_deferred|done]]; [|done]. by intros _ t' [? ?].
Qed.

(** ** Handling an event *)

Lemma feed_event_spec r b fr t : inv (add_events [EBody b] false fr) t ->
  wp (on_body r (BodyStream.feed (CView (bc_view b))))
    (fun _ t' => inv (add_events [EBody b] false fr) t' /\ core (s_conn t') = core (s_conn t))
    (fun _ t' => inv (add_events [EBody b] false fr) t' /\ core (s_conn t') = core (s_conn t)) t.
Proof.
  intros Hi. unfold wp, on_body. destruct (s_requests t !! r) as [x|] eqn:Hx; [|by split].
  destruct (mem_body _ _ _ _ _ _ (i_mem _ _ Hi) Hx) as (o & Hb & Hin & Hmem).
  assert (bc_view b ∈ o) as Ho by (apply Hin; by left).
  pose proof (feed_ok o _ _ (CView (bc_view b)) Hb Ho) as Hw. unfold wp in Hw.
  destruct (BodyStream.feed _ _) as [[a|e] [b' h']]; cbn [fst snd] in Hw; destruct Hw as [Hb' Hm]; (split; [|done]);
    (apply inv_bodies; [done| |apply length_insert]); apply Hmem; auto.
Qed.

Lemma core_pending (c c' : conn P I It) : core c' = core c -> is_pending c' = is_pending c.
Proof.
  unfold core, is_pending. intros [= _ _ -> -> Es _ _]. f_equal. by destruct (pending_stream c'), (pending_stream c).
Qed.
Lemma core_closed (c c' : conn P I It) : core c' = core c -> c_closed c' = c_closed c.
Proof. by unfold core; intros [= ]. Qed.
Lemma core_local (c c' : conn P I It) : core c' = core c -> pending_local c' = pending_local c.
Proof. by unfold core; intros [= ]. Qed.

(** Handing the request over to the stream. *)
Lemma put_stream r b fr t s : inv (holding r b fr) t -> is_pending (s_conn t) = false -> c_closed (s_conn t) = false ->
  current_admitted (s_conn t) = false -> current_request (s_conn t) = None ->
  st_request s = r -> st_admitted s = b -> 0 <= f_requests fr ->
  inv fr (set_conn (set_pending_stream (Some s) (s_conn t)) t).
Proof.
  intros Hi Hp Hcl Ha Hr Es Eb Hf. pose proof (i_frame _ _ Hi) as (? & ? & ? & ?). pose proof (i_fresh _ _ Hi) as [? ?].
  unfold is_pending in Hp. destruct (pending_proxy (s_conn t)) eqn:Epp; [done|]. destruct (pending_local (s_conn t)) eqn:Epl; [done|].
  destruct (pending_stream (s_conn t)) eqn:Eps; [done|].
  eapply owners_move; [exact Hi|..]; try done.
  - unfold admissions. cbn. rewrite Epp, Epl, Eps, Ha, Eb. cbn. lia.
  - intros i. unfold owned. cbn. rewrite Hr, Epp, Epl, Eps, Es. members.
  - split; cbn; [by rewrite Ha|by rewrite Hr|by rewrite Epp, Epl; cbn; lia].
  - cbn. congruence.
Qed.

(** A closed connection queues nothing. *)
Lemma queue_closed data fr t : inv fr t -> data <> [] -> c_closed (s_conn t) = true -> f_closing fr = false ->
  wp (queue_bytes env config data) (fun _ _ => False) (fun _ t' => inv fr t' /\ core (s_conn t') = core (s_conn t)) t.
Proof.
  intros Hi Hd Hcl Hfc. pose proof (i_frame _ _ Hi) as (? & ? & ? & ?). unfold queue_bytes. rewrite bool_decide_eq_false_2 by done.
  apply len_positive in Hd. apply wp_bind. eapply wp_mono; [| |by apply reserve_bytes_spec]; [|by intros].
  intros [] t1 [Hi1 E1]; cbn [negb]; [|done]. apply wp_bind, wp_try.
  assert (c_closed (s_conn t1) = true) as Hcl1 by (by rewrite (core_closed _ _ E1)).
  destruct (i_output _ _ Hi1) as (f & Ho & Hc). destruct Hc as [Hfcl _]; [by right|].
  pose proof (append_spec fr t1 data Hi1 ltac:(lia)) as Ha.
  unfold wp in Ha |- *. destruct (on_output _ t1) as [[a|e] t2] eqn:E2.
  - exfalso. unfold on_output, zoom in E2. destruct (out_step _ _ (OpAppend data) Ho) as (o' & E & _).
    pose proof (step_of (ChannelBuffer.append data) OutTransition (OpAppend data) _ _ _ (fun _ => eq_refl) E) as Hs.
    destruct (ChannelBuffer.append data (s_output t1)) as [[?|?] ?]; [|done]. destruct Hs as [Er _].
    cbn [fifo_step] in Er. by rewrite Hfcl in Er.
  - destruct Ha as [Hi2 Ec2]. apply wp_bind. eapply wp_mono; [| |by apply release_bytes_spec]; [|by intros].
    intros _ t3 [Hi3 E3]. split; [done|congruence].
Qed.

Lemma rbind_Ok {A B} (m : result A) (k : A -> result B) b : rbind m k = Ok b -> exists a, m = Ok a /\ k a = Ok b.
Proof. destruct m as [a|e]; [|done]. by exists a. Qed.
Lemma head_nonempty s hs n c k d : Http1ResponseEncoder.head s hs n c k = Ok d -> d <> [].
Proof.
  unfold Http1ResponseEncoder.head. destruct (_ && _); [done|]. cbv zeta.
  intros (a & _ & (a' & _ & (a'' & _ & E)%rbind_Ok)%rbind_Ok)%rbind_Ok ->. injection E as E.
  repeat (apply app_eq_nil in E as [_ E]). done.
Qed.

Lemma wp_lift_eq {S A} (r : result A) Q (E : exn -> S -> Prop) s :
  (forall a, r = Ok a -> Q a s) -> (forall e, r = Raise e -> E e s) -> wp (lift r) Q E s.
Proof. destruct r; intros HQ HE; [by apply HQ|by apply HE]. Qed.

Lemma core_current (c c' : conn P I It) : core c' = core c ->
  current_request c' = current_request c /\ current_admitted c' = current_admitted c.
Proof. by unfold core; intros [= ]. Qed.

(** Between requests: nothing pending and no current request. *)
Definition idle (t : state) : Prop :=
  is_pending (s_conn t) = false /\ current_request (s_conn t) = None /\ current_admitted (s_conn t) = false.
Lemma idle_core (t t' : state) : core (s_conn t') = core (s_conn t) -> idle t -> idle t'.
Proof. intros Ec. unfold idle. rewrite (core_pending _ _ Ec). by destruct (core_current _ _ Ec) as [-> ->]. Qed.

Lemma begin_streaming_spec r b x fr t : inv (holding r b fr) t -> idle t -> 0 <= f_requests fr -> f_closing fr = false ->
  wp (begin_streaming_response env config r x b)
    (fun _ t' => inv fr t' /\ is_pending (s_conn t') = true /\ c_closed (s_conn t') = c_closed (s_conn t) /\ pending_local (s_conn t') = None)
    (fun _ t' => inv (holding r b fr) t' /\ core (s_conn t') = core (s_conn t)) t.
Proof.
  intros Hi Hid Hf Hfc. unfold begin_streaming_response, response_keep_alive.
  eapply wp_quiet; [quietly|exact Hi| |done]. intros it t1 Hi1 E1.
  eapply wp_quiet; [quietly|exact Hi1| |intros ? ? ? ?; split; [done|congruence]]. intros ka t2 Hi2 E2.
  apply wp_bind, wp_lift_eq; [|intros; split; [done|congruence]]. intros d Hd.
  assert (core (s_conn t2) = core (s_conn t)) as Ec by congruence.
  destruct (c_closed (s_conn t2)) eqn:Hcl.
  - apply wp_bind. eapply wp_mono; [| |apply (queue_closed d (holding r b fr)); [done| |done|done]]; [done| |by eapply head_nonempty].
    intros e t3 [? ?]. split; [done|congruence].
  - eapply wp_quiet; [quietly|exact Hi2| |intros ? ? ? ?; split; [done|congruence]]. intros _ t3 Hi3 E3.
    assert (core (s_conn t3) = core (s_conn t)) as Ec3 by congruence. destruct (idle_core _ _ Ec3 Hid) as (Hp & Hr & Ha).
    apply wp_modify. split_and!.
    + apply (put_stream r b); try done. by rewrite (core_closed _ _ E3).
    + unfold is_pending. cbn. by rewrite orb_true_r.
    + cbn. by rewrite (core_closed _ _ Ec3).
    + cbn. unfold is_pending in Hp. by destruct (pending_proxy (s_conn t3)), (pending_local (s_conn t3)).
Qed.

(** What a call leaves when it has handed the request over. *)
Definition handed (fr : frame) (t0 t : state) : Prop :=
  inv fr t /\ is_pending (s_conn t) = true /\ c_closed (s_conn t) = c_closed (s_conn t0) /\ pending_local (s_conn t) = None.
Definition kept (fr : frame) (t0 t : state) : Prop := inv fr t /\ core (s_conn t) = core (s_conn t0).

Lemma put_proxy r p fr t : inv (holding r true fr) t -> idle t -> c_closed (s_conn t) = false -> 0 <= f_requests fr ->
  handed fr t (set_conn (set_pending_proxy (Some (p, r)) (s_conn t)) t).
Proof.
  intros Hi (Hp & Hr & Ha) Hcl Hf. pose proof (i_frame _ _ Hi) as (? & ? & ? & ?). pose proof (i_fresh _ _ Hi) as [? ?].
  unfold is_pending in Hp. destruct (pending_proxy (s_conn t)) eqn:Epp; [done|]. destruct (pending_local (s_conn t)) eqn:Epl; [done|].
  destruct (pending_stream (s_conn t)) eqn:Eps; [done|]. split_and!; [|done|done|done].
  eapply owners_move; [exact Hi|..]; try done.
  - unfold admissions. cbn. rewrite Epp, Epl, Eps, Ha. cbn. lia.
  - intros i. unfold owned. cbn. rewrite Hr, Epp, Epl, Eps. members.
  - split; cbn; [by rewrite Ha|by rewrite Hr|by rewrite Epl, Eps; cbn; lia].
  - cbn. congruence.
Qed.

Lemma kept_trans fr t0 t1 t2 : kept fr t1 t2 -> core (s_conn t1) = core (s_conn t0) -> kept fr t0 t2.
Proof. intros [? ?] ?. split; [done|congruence]. Qed.
Lemma handed_core fr t0 t1 t2 : handed fr t1 t2 -> core (s_conn t1) = core (s_conn t0) -> handed fr t0 t2.
Proof. intros (? & ? & Hc & ?) E. split_and!; try done. by rewrite Hc, (core_closed _ _ E). Qed.

(** A quiet call in a longer run from [t0]. *)
Lemma wp_kept {A B} (m : C A) (k : A -> C B) Q (E : exn -> state -> Prop) fr t0 t : quiet m -> inv fr t -> core (s_conn t) = core (s_conn t0) ->
  (forall a t', inv fr t' -> core (s_conn t') = core (s_conn t0) -> wp (k a) Q E t') ->
  (forall e t', kept fr t0 t' -> E e t') ->
  wp (bind m k) Q E t.
Proof.
  intros Hm Hi Ec Hk He. eapply wp_quiet; [exact Hm|exact Hi| |]; intros ? t' ? ?; [apply Hk|apply He]; try done; [congruence|].
  split; [done|congruence].
Qed.
Lemma dispatch_spec r fr t : inv (holding r true fr) t -> idle t -> c_closed (s_conn t) = false -> 0 <= f_requests fr ->
  wp (dispatch_request env r)
    (fun a t' => match a with Some _ => kept (holding r true fr) t t' | None => handed fr t t' end)
    (fun _ t' => kept (holding r true fr) t t') t.
Proof.
  intros Hi Hid Hcl Hf. unfold dispatch_request.
  eapply wp_kept; [quietly|exact Hi|done| |done]. intros x t1 Hi1 E1. eapply wp_kept; [quietly|exact Hi1|done| |done]. intros n t2 Hi2 E2.
  destruct (n >=? _).
  { eapply wp_kept; [quietly|exact Hi2|done| |done]. by intros y t3 Hi3 E3. }
  eapply wp_kept; [quietly|exact Hi2|done| |done]. intros a t3 Hi3 E3. apply wp_bind.
  eapply (wp_mono _ (fun a t' => match a with Some _ => kept (holding r true fr) t t' | None => handed fr t t' end)
    _ (fun _ t' => kept (holding r true fr) t t')).
  - intros [b|] t4 H4; [|done]. destruct H4 as [Hi4 E4].
    eapply wp_kept; [quietly|exact Hi4|done| |done]. intros y t5 Hi5 E5. eapply wp_kept; [quietly|exact Hi5|done| |done]. intros n' t6 Hi6 E6.
    destruct (n' >=? _); [|done]. eapply wp_kept; [quietly|exact Hi6|done| |done]. by intros z t7 Hi7 E7.
  - done.
  - destruct a as [y|p|], (o_transport env); try done.
    apply wp_bind, wp_modify, wp_ret. eapply handed_core; [apply (put_proxy r)|done]; [done|by eapply idle_core| |done].
    by rewrite (core_closed _ _ E3).
Qed.

Lemma answer_spec r b fr t : inv (holding r b fr) t -> idle t -> c_closed (s_conn t) = false -> 0 <= f_requests fr -> f_closing fr = false ->
  wp (answer_request env config r b)
    (fun returned t' => if returned : bool then handed fr t t' else kept (holding r b fr) t t')
    (fun _ t' => kept (holding r b fr) t t') t.
Proof.
  intros Hi Hid Hcl Hf Hfc. unfold answer_request. apply wp_bind.
  eapply (wp_mono _ (fun a t' => match a with Some _ => kept (holding r b fr) t t' | None => handed fr t t' end)
    _ (fun _ t' => kept (holding r b fr) t t')).
  - intros [a|] t1 H1'; [|done]. destruct a as [x|p|]; [|done|done]. destruct H1' as [Hi1 E1].
    eapply wp_kept; [quietly|exact Hi1|done| |done]. intros q t2 Hi2 E2. destruct (wants_stream _ x).
    + apply wp_bind. eapply wp_mono; [| |apply (begin_streaming_spec r b x fr); [exact Hi2|by eapply idle_core|done|done]].
      * intros _ t3 (? & ? & Hc & ?). apply wp_ret. split_and!; try done. by rewrite Hc, (core_closed _ _ E2).
      * intros e t3 [? ?]. split; [done|congruence].
    + eapply wp_kept; [quietly|exact Hi2|done| |done]. by intros _ t3 Hi3 E3.
  - done.
  - destruct b; cbn [negb]; [by apply dispatch_spec|].
    eapply wp_kept; [quietly|exact Hi|done| |done]. intros y t1 Hi1 E1. eapply wp_kept; [quietly|exact Hi1|done| |done]. by intros _ t2 Hi2 E2.
Qed.

Lemma retire_kept r b fr t0 t : kept (holding r b fr) t0 t -> is_pending (s_conn t) = false -> 0 <= f_requests fr ->
  wp (retire_unless_pending r b) (fun _ t' => kept fr t0 t') (fun _ _ => False) t.
Proof.
  intros [Hi E] Hp Hf. unfold is_pending in Hp. unfold retire_unless_pending. apply wp_bind. unfold wp at 1. cbn [self].
  assert (pending_proxy (s_conn t) = None /\ pending_stream (s_conn t) = None) as [Epp Eps].
  { by destruct (pending_proxy (s_conn t)), (pending_stream (s_conn t)), (pending_local (s_conn t)). }
  rewrite Epp, Eps. change (bool_decide (is_Some None) || bool_decide (is_Some None)) with false. apply wp_bind.
  eapply (wp_mono _ (fun _ t' => kept (add_open r fr) t0 t') _ (fun _ _ => False)).
  - intros _ t1 [Hi1 E1]. apply wp_bind. unfold wp at 1. cbn [self].
    assert (pending_proxy (s_conn t1) = None /\ pending_stream (s_conn t1) = None) as [E1p E1s].
    { assert (core (s_conn t1) = core (s_conn t)) as Ec by congruence. unfold core in Ec. injection Ec as _ _ Ep _ Es _ _.
      rewrite Epp in Ep. rewrite Eps in Es. split; [done|]. by destruct (pending_stream (s_conn t1)). }
    rewrite E1p, E1s. change (negb (bool_decide (is_Some None)) && negb (bool_decide (is_Some None))) with true.
    eapply wp_mono; [| |by apply close_body_spec]; [|done]. intros _ t2 [? ?]. split; [done|congruence].
  - done.
  - destruct b; cbn [andb].
    + eapply wp_mono; [| |apply (release_request_spec (add_open r fr)); [exact Hi|done]]; [|done]. intros _ t1 [? ?]. split; [done|congruence].
    + apply wp_ret. split; [|done]. destruct fr; unfold holding, add_requests, add_open in *; cbn in *. by rewrite Z.add_0_r in Hi.
Qed.
Lemma retire_handed r b fr t0 t : handed fr t0 t -> retire_unless_pending r b t = (Ok tt, t).
Proof.
  intros (_ & Hp & _ & Hl). unfold retire_unless_pending, bind, self. cbn. unfold is_pending in Hp. rewrite Hl in Hp.
  rewrite orb_false_r in Hp. rewrite Hp, andb_false_r. cbn.
  by destruct (bool_decide (is_Some (pending_proxy _))), (bool_decide (is_Some (pending_stream _))).
Qed.

(** What every event leaves: the frame has nothing more, nothing less. *)
Definition settled (fr : frame) (t0 t : state) : Prop := inv fr t /\ c_closed (s_conn t) = c_closed (s_conn t0).
Lemma kept_settled fr t0 t : kept fr t0 t -> settled fr t0 t.
Proof. intros [? E]. split; [done|by apply core_closed]. Qed.
Lemma handed_settled fr t0 t : handed fr t0 t -> settled fr t0 t.
Proof. by intros (? & ? & ? & ?). Qed.
Lemma settled_trans fr t0 t1 t2 : settled fr t1 t2 -> c_closed (s_conn t1) = c_closed (s_conn t0) -> settled fr t0 t2.
Proof. intros [? ?] ?. split; [done|congruence]. Qed.
Lemma quiet_settled {A} (m : C A) fr t0 t : quiet m -> settled fr t0 t ->
  wp m (fun _ => settled fr t0) (fun _ => settled fr t0) t.
Proof.
  intros Hm [Hi Ec]. eapply wp_mono; [| |by apply Hm]; intros ? t' [? E]; (split; [done|]); by rewrite (core_closed _ _ E).
Qed.

(** The same of a call that leaves a pending request where it is. *)
Definition pends (c : conn P I It) :=
  (pending_proxy c, pending_local c, option_map (fun s => (st_request s, st_admitted s)) (pending_stream c)).
Definition passed (fr : frame) (t0 t : state) : Prop :=
  settled fr t0 t /\ (is_pending (s_conn t0) = true -> pends (s_conn t) = pends (s_conn t0)).
Lemma core_pends (c c' : conn P I It) : core c' = core c -> pends c' = pends c.
Proof. by unfold core, pends; intros [= _ _ -> -> -> _ _]. Qed.
Lemma pends_pending (c c' : conn P I It) : pends c' = pends c -> is_pending c' = is_pending c.
Proof. unfold pends, is_pending. intros [= -> -> Es]. f_equal. by destruct (pending_stream c'), (pending_stream c). Qed.
Lemma kept_passed fr t0 t : kept fr t0 t -> passed fr t0 t.
Proof. intros Hk. split; [by apply kept_settled|]. intros _. apply core_pends, Hk. Qed.
Lemma idle_passed fr t0 t : settled fr t0 t -> is_pending (s_conn t0) = false -> passed fr t0 t.
Proof. intros Hs Hp. split; [done|congruence]. Qed.
Lemma passed_trans fr t0 t1 t2 : passed fr t1 t2 -> c_closed (s_conn t1) = c_closed (s_conn t0) ->
  pends (s_conn t1) = pends (s_conn t0) -> passed fr t0 t2.
Proof.
  intros [Hs Hp] Hc Hpe. split; [by eapply settled_trans|]. intros H0p. rewrite Hp; [done|]. by rewrite (pends_pending _ _ Hpe).
Qed.

Lemma get_total r fr t : inv fr t -> r ∈ f_open fr ++ owned (s_conn t) ->
  exists x, s_requests t !! r = Some x /\ get_request r t = (Ok x, t).
Proof.
  intros Hi Hr. destruct (lookup_lt_is_Some_2 (s_requests t) r (inv_range _ _ _ Hi Hr)) as [x Hx].
  exists x. split; [done|]. unfold get_request. by rewrite Hx.
Qed.

Lemma finish_admitted_spec r b fr t : inv (holding r b fr) t -> idle t -> c_closed (s_conn t) = false -> 0 <= f_requests fr -> f_closing fr = false ->
  wp (let! x := get_request r in
      let! returned :=
        try_finally
          (try_except (answer_request env config r b)
             (fun e => on_overflow env config (rq_method (ro_request x)) e ;;! ret false))
          (retire_unless_pending r b) in
      let! c := self in
      if returned || bool_decide (is_Some (pending_proxy c)) || bool_decide (is_Some (pending_stream c)) then ret tt
      else count_completed ;;! close_if_last config)
    (fun _ => settled fr t) (fun _ => settled fr t) t.
Proof.
  intros Hi Hid Hcl Hf Hfc. destruct (get_total r _ _ Hi) as (x & Hx & Eg); [by left|].
  apply wp_bind. eapply wp_run; [exact Eg|]. apply wp_bind, wp_finally, wp_try.
  assert (forall t1, kept (holding r b fr) t t1 -> wp (retire_unless_pending r b) (fun _ => kept fr t) (fun _ _ => False) t1) as Hret.
  { intros t1 Hk. apply retire_kept; [done| |done]. destruct Hk as [_ E]. rewrite (core_pending _ _ E). by apply Hid. }
  assert (forall t1 (b' : bool), settled fr t t1 -> wp (let! c := self in
      if b' || bool_decide (is_Some (pending_proxy c)) || bool_decide (is_Some (pending_stream c)) then ret tt
      else count_completed ;;! close_if_last config) (fun _ => settled fr t) (fun _ => settled fr t) t1) as Htl.
  { intros t1 b' Hs. apply quiet_settled; [quietly|done]. }
  eapply wp_mono; [| |by apply answer_spec].
  - intros [] t1 H1t.
    + eapply wp_run; [by eapply retire_handed|]. by apply Htl, handed_settled.
    + eapply wp_mono; [| |by apply Hret]; [|done]. intros ? t2 H2t. by apply Htl, kept_settled.
  - intros e t1 [Hi1 E1]. eapply wp_kept; [quietly|exact Hi1|done| |].
    + intros _ t2 Hi2 E2. apply wp_ret. eapply wp_mono; [| |by apply Hret]; [|done]. intros ? t3 H3t. by apply Htl, kept_settled.
    + intros e' t2 H2t. eapply wp_mono; [| |by apply Hret]; [|done]. intros ? t3 H3t. by apply kept_settled.
Qed.

Lemma finish_request_spec fr t : inv fr t -> f_closing fr = false -> wp (finish_request env config) (fun _ => passed fr t) (fun _ => passed fr t) t.
Proof.
  intros Hi Hfc. pose proof (i_frame _ _ Hi) as (Hf & _ & _). unfold finish_request. apply wp_bind. unfold wp at 1. cbn [self].
  apply wp_bind, wp_modify. fold (clear_current (s_conn t)). destruct (current_request (s_conn t)) as [r|] eqn:Er.
  2:{ apply kept_passed.
      assert (core (clear_current (s_conn t)) = core (s_conn t)) as Ec; [|split; [by apply (inv_core fr t)|exact Ec]].
      unfold core, clear_current. cbn. rewrite Er.
      destruct (current_admitted (s_conn t)) eqn:Ea; [|done]. destruct (co_admitted _ (i_conn _ _ Hi) Ea) as [[? ?] _]. congruence. }
  destruct (is_pending (s_conn t)) eqn:Hp.
  - assert (is_pending_proxy r (s_conn t) || is_pending_local r (s_conn t) = true) as Hal.
    { apply orb_true_iff. by apply (co_alias _ (i_conn _ _ Hi)). }
    pose proof (drop_alias _ _ _ Hi Er Hal) as Hi1. eapply wp_kept; [|exact Hi1|done| |intros e t' Hk; eapply passed_trans; [by apply kept_passed|done|done]].
    { eapply quiet_body, body_total_ok, finish_total. }
    intros _ t1 Hi1' E1. apply wp_bind. unfold wp at 1. cbn [self].
    assert (is_pending_proxy r (s_conn t1) || is_pending_local r (s_conn t1) = true) as ->.
    { unfold core in E1. injection E1 as _ _ Ep El _ _ _. unfold is_pending_proxy, is_pending_local in *. rewrite Ep, El. exact Hal. }
    eapply passed_trans; [by apply kept_passed|done|done].
  - pose proof (take_current _ _ _ Hi Er) as Hi1. set (b := current_admitted (s_conn t)) in *.
    assert (c_closed (s_conn t) = false) as Hcl.
    { destruct (c_closed (s_conn t)) eqn:E; [|done]. destruct (i_closed _ _ Hi E Hfc). congruence. }
    apply wp_bind. eapply wp_mono; [| |eapply total_body; [apply finish_total|exact Hi1|]]; [|done|].
    2:{ eapply inv_range; [exact Hi1|by left]. }
    intros _ t1 [Hi1' E1]. apply wp_bind. unfold wp at 1. cbn [self].
    assert (idle t1) as Hid by (eapply idle_core; [exact E1|done]).
    assert (is_pending_proxy r (s_conn t1) || is_pending_local r (s_conn t1) = false) as ->.
    { destruct Hid as (Hp1 & _). unfold is_pending, is_pending_proxy, is_pending_local in *.
      by destruct (pending_proxy (s_conn t1)), (pending_local (s_conn t1)). }
    eapply wp_mono; [| |apply (finish_admitted_spec r b fr); try done].
    + intros ? t2 Hs. apply idle_passed; [|done]. eapply settled_trans; [exact Hs|]. by rewrite (core_closed _ _ E1).
    + intros e t2 Hs. apply idle_passed; [|done]. eapply settled_trans; [exact Hs|]. by rewrite (core_closed _ _ E1).
    + by rewrite (core_closed _ _ E1).
Qed.

Lemma stream_init_empty a b c d s : BodyStream.init a b c d = Ok s -> chunks s = [] /\ read_index s = 0.
Proof.
  unfold BodyStream.init. repeat (destruct (_ : bool); [done|]). by intros [= <-].
Qed.

(** A new request becomes the current one. *)
Lemma new_request x c' fr t : inv fr t -> idle t -> c_closed (s_conn t) = false ->
  chunks (ro_body x) = [] -> read_index (ro_body x) = 0 ->
  core c' = core (set_current_request (Some (length (s_requests t))) (s_conn t)) -> c_codec c' = c_codec (s_conn t) ->
  inv fr (set_conn c' (set_requests (s_requests t ++ [x]) (s_bodies t) t)).
Proof.
  intros Hi (Hp & Hr & Ha) Hcl Hc Hx Ec Ek.
  destruct (core_owned _ _ Ec) as [Eo Ea]. pose proof (core_closed _ _ Ec) as Ecl. pose proof (core_ok _ _ Ec) as Hok.
  destruct Hi as [Hg Ho Hm Hf Hrefs Hk [? ? ?] Hem Hfr].
  assert (deferred_events c' = deferred_events (s_conn t)) as Ed by (unfold core in Ec; by injection Ec).
  cbn in Ecl. split; cbn; rewrite ?Eo, ?Ea, ?Ed, ?Ek; try done.
  - by rewrite Ecl.
  - eapply mem_open_mono; [|by apply mem_alloc]. intros i. unfold owned. cbn. rewrite Hr. members.
  - rewrite Forall_forall in Hrefs |- *. intros i Hin. rewrite length_app. cbn. unfold owned in Hin. cbn in Hin.
    rewrite elem_of_app, elem_of_cons in Hin. destruct Hin as [Hin|[->|Hin]]; [|lia|];
      (assert (i < length (s_requests t))%nat; [|lia]); apply Hrefs; rewrite elem_of_app; [by left|right].
    unfold owned. rewrite Hr. exact Hin.
  - apply Hok. split; cbn; [by rewrite Ha|intros ? _; unfold is_pending in *; cbn in *; congruence|done].
  - congruence.
Qed.

Lemma set_admitted b fr t : inv (add_requests (one b) fr) t -> is_Some (current_request (s_conn t)) ->
  current_admitted (s_conn t) = false -> is_pending (s_conn t) = false -> c_closed (s_conn t) = false -> 0 <= f_requests fr ->
  inv fr (set_conn (set_current_admitted b (s_conn t)) t).
Proof.
  intros Hi Hr Ha Hp Hcl Hf. pose proof (i_frame _ _ Hi) as (? & ? & ? & ?). pose proof (i_fresh _ _ Hi) as [? ?].
  pose proof (i_conn _ _ Hi) as [? ? ?]. eapply owners_move; [exact Hi|..]; try done.
  - unfold admissions. cbn. rewrite Ha. cbn. lia.
  - cbn. congruence.
Qed.

(** The current request goes to a plan or to a handler thread. *)
Lemma defer_current c' r fr t : inv fr t -> current_request (s_conn t) = Some r -> current_admitted (s_conn t) = true ->
  c_closed (s_conn t) = false ->
  c' = set_current_admitted false (set_pending_proxy (pending_proxy c') (set_pending_local (pending_local c') (s_conn t))) ->
  opt_nat snd (pending_proxy c') ++ opt_nat fst (pending_local c') = [r] ->
  inv fr (set_conn c' t).
Proof.
  intros Hi Hr Ha Hcl Ec Eo. pose proof (i_frame _ _ Hi) as (? & ? & ? & ?). pose proof (i_fresh _ _ Hi) as [? ?].
  pose proof (i_conn _ _ Hi) as [Hca Hal Ho]. destruct (Hca Ha) as [_ Hp]. unfold is_pending in Hp.
  destruct (pending_proxy (s_conn t)) eqn:Epp; [done|]. destruct (pending_local (s_conn t)) eqn:Epl; [done|].
  destruct (pending_stream (s_conn t)) eqn:Eps; [done|].
  set (pp := pending_proxy c') in *. set (pl := pending_local c') in *. clearbody pp pl. subst c'.
  assert (one (bool_decide (is_Some pp)) + one (bool_decide (is_Some pl)) = 1 /\
          (forall q, r = q -> is_pending_proxy q (set_pending_proxy pp (set_pending_local pl (s_conn t))) = true \/
                     is_pending_local q (set_pending_proxy pp (set_pending_local pl (s_conn t))) = true)) as [En Eal].
  { unfold is_pending_proxy, is_pending_local. destruct pp as [[? ?]|], pl as [[? ?]|]; cbn in *; try done; injection Eo as ->;
      (split; [done|]); intros q <-; rewrite Nat.eqb_refl; auto. }
  eapply owners_move; [exact Hi|..]; try done.
  - unfold admissions. cbn. rewrite Epp, Epl, Eps, Ha. cbn. lia.
  - intros i. unfold owned. cbn. rewrite Hr, Epp, Epl, Eps. cbn. rewrite app_nil_r, Eo. members.
  - split; cbn; [done| |].
    + intros q Hq _. apply Eal. congruence.
    + rewrite Eps, app_assoc, Eo. cbn. lia.
  - cbn. congruence.
Qed.

Lemma begin_spec head fr t : inv fr t -> is_pending (s_conn t) = false -> c_closed (s_conn t) = false ->
  wp (begin_request env config head) (fun _ => settled fr t) (fun _ => settled fr t) t.
Proof.
  intros Hi Hp Hcl. pose proof (i_frame _ _ Hi) as (Hf & ? & ?). unfold begin_request. apply wp_bind. unfold wp at 1. cbn [self].
  destruct (current_request (s_conn t)) as [r0|] eqn:Er; [done|]. change (bool_decide (is_Some None)) with false.
  assert (idle t) as Hid.
  { split_and!; [done..|]. destruct (current_admitted (s_conn t)) eqn:Ea; [|done].
    destruct (co_admitted _ (i_conn _ _ Hi) Ea) as [[? ?] _]. congruence. }
  eapply wp_kept; [quietly|exact Hi|done| |intros; by apply kept_settled]. intros now t1 Hi1 E1. cbv zeta.
  apply wp_bind, wp_lift_eq; [|intros; by apply kept_settled]. intros body [Eb1 Eb2]%stream_init_empty.
  apply wp_bind, wp_lift_eq; [|intros; by apply kept_settled]. intros request _.
  apply wp_bind. unfold wp at 1. cbn [alloc_request].
  pose proof (idle_core _ _ E1 Hid) as Hid1. pose proof (core_closed _ _ E1) as Ecl1.
  set (r := length (s_requests t1)). set (x := ReqObj _ _ _). apply wp_bind, wp_modify.
  match goal with |- wp _ _ _ ?t2 => set (t2' := t2) end.
  assert (inv fr t2') as Hi2.
  { apply (new_request x); try done; congruence. }
  assert (current_request (s_conn t2') = Some r /\ current_admitted (s_conn t2') = false /\ is_pending (s_conn t2') = false /\
          c_closed (s_conn t2') = false) as (Hr2 & Ha2 & Hp2 & Hc2).
  { destruct Hid1 as (? & ? & ?). split_and!; try done. cbn. congruence. }
  clearbody t2'. apply wp_bind. eapply wp_mono; [| |by apply admit_spec]; [|done]. intros ok t3 [Hi3 E3].
  destruct (core_current _ _ E3) as [Er3 Ea3]. pose proof (core_closed _ _ E3) as Ec3. pose proof (core_pending _ _ E3) as Ep3.
  apply wp_bind, wp_modify. match goal with |- wp _ _ _ ?t4 => set (t4' := t4) end.
  assert (inv fr t4') as Hi4.
  { apply set_admitted; rewrite ?Er3, ?Ea3, ?Ec3, ?Ep3; try done.
    destruct ok; [done|]. destruct fr; unfold add_requests; cbn in *. by rewrite Z.add_0_r. }
  assert (current_request (s_conn t4') = Some r /\ current_admitted (s_conn t4') = ok /\ c_closed (s_conn t4') = false) as (Hr4 & Ha4 & Hc4).
  { split_and!; cbn; congruence. }
  clearbody t4'. destruct ok; cbn [negb]; [|split; [done|congruence]].
  assert (forall t', kept fr t4' t' -> settled fr t t') as Hend.
  { intros t' [? E]. split; [done|]. rewrite (core_closed _ _ E). congruence. }
  eapply wp_kept; [quietly|exact Hi4|done| |intros; by apply Hend]. intros _ t5 Hi5 E5.
  eapply wp_kept; [quietly|exact Hi5|done| |intros; by apply Hend]. intros _ t6 Hi6 E6.
  eapply wp_kept; [quietly|exact Hi6|done| |intros; by apply Hend]. intros early t7 Hi7 E7.
  assert (forall t' c', kept fr t4' t' ->
    c' = set_current_admitted false (set_pending_proxy (pending_proxy c') (set_pending_local (pending_local c') (s_conn t'))) ->
    opt_nat snd (pending_proxy c') ++ opt_nat fst (pending_local c') = [r] -> settled fr t (set_conn c' t')) as Hput.
  { intros t' c' [Hi' E'] Ec' Eo. destruct (core_current _ _ E') as [Er' Ea']. pose proof (core_closed _ _ E') as Ecl'.
    split; [|rewrite Ec'; cbn; congruence]. apply (defer_current c' r); try done; congruence. }
  assert (forall t', kept fr t4' t' -> pending_proxy (s_conn t') = None /\ pending_local (s_conn t') = None) as Hnone.
  { intros t' [Hi' E']. destruct (core_current _ _ E') as [Er' Ea']. destruct (co_admitted _ (i_conn _ _ Hi')) as [_ Hp']; [congruence|].
    unfold is_pending in Hp'. by destruct (pending_proxy (s_conn t')), (pending_local (s_conn t')). }
  assert (wp (if o_transport env && o_local_body_streaming env && ((content_length head >? 0) || Http1.chunked head) then
            let! child := outside_call (o_spawn env r) in
            upd (fun c => set_current_admitted false (set_pending_local (Some (r, child)) c))
          else ret tt) (fun _ => settled fr t) (fun _ => settled fr t) t7) as Hlocal.
  { destruct (_ && _ && _); [|by apply Hend]. eapply wp_kept; [quietly|exact Hi7|done| |intros; by apply Hend]. intros child t8 Hi8 E8.
    assert (kept fr t4' t8) as Hk by done. apply wp_modify, Hput; [done|done|]. cbn. by destruct (Hnone _ Hk) as [-> _]. }
  destruct early as [plan|]; [|exact Hlocal]. destruct (o_transport env); [|exact Hlocal].
  assert (kept fr t4' t7) as Hk by done. apply wp_modify, Hput; [done|done|]. cbn. by destruct (Hnone _ Hk) as [_ ->].
Qed.

Lemma handle_spec e fr t : inv (add_events [e] false fr) t -> c_closed (s_conn t) = false -> f_closing fr = false ->
  (is_head e = true -> is_pending (s_conn t) = false) ->
  wp (handle_event env config e) (fun _ => passed fr t) (fun _ => passed fr t) t.
Proof.
  intros Hi Hcl Hfc Hh. destruct e as [h|b|tr]; cbn [handle_event].
  - apply drop_event in Hi; [|done]. specialize (Hh eq_refl). apply wp_try.
    eapply wp_mono; [| |by apply begin_spec]; [intros; by apply idle_passed|].
    intros e t' Hs. apply (idle_passed _ _ _ Hs) in Hh. by destruct (is_ValueError e).
  - apply wp_bind. unfold wp at 1. cbn [self].
    assert (forall t', kept (add_events [EBody b] false fr) t t' -> wp (release_chunk b : C unit) (fun _ => passed fr t) (fun _ _ => False) t') as Hrel.
    { intros t' [Hi' E']. eapply wp_mono; [| |by apply release_event_spec]; [|done].
      intros _ t2 [? E2]. apply kept_passed. split; [done|congruence]. }
    destruct (current_request (s_conn t)) as [r|].
    + apply wp_finally. eapply (wp_mono _ (fun _ => kept (add_events [EBody b] false fr) t) _ (fun _ => kept (add_events [EBody b] false fr) t)).
      * intros [] t1 Hk. eapply wp_mono; [| |by apply Hrel]; by intros.
      * intros e t1 Hk. eapply wp_mono; [| |by apply Hrel]; by intros.
      * apply wp_bind. eapply wp_mono; [| |by apply feed_event_spec]; by intros.
    + apply wp_bind. eapply wp_mono; [| |by apply Hrel]; by intros.
  - apply drop_event in Hi; [|done]. eapply wp_kept; [quietly|exact Hi|done| |intros; by apply kept_passed]. intros c t1 Hi1 E1.
    eapply wp_kept; [|exact Hi1|done| |intros; by apply kept_passed].
    { destruct (current_request c) as [r|]; [by apply (quiet_put r (set_trailers tr))|quietly]. }
    intros _ t2 Hi2 E2. eapply wp_mono; [| |by apply finish_request_spec];
      intros ? t3 Hs; eapply passed_trans; [exact Hs|by apply core_closed|by apply core_pends|exact Hs|by apply core_closed|by apply core_pends].
Qed.

Lemma defer_spec e fr t : inv (add_events [e] true fr) t -> c_closed (s_conn t) = false -> 0 <= f_queued fr ->
  wp (defer e) (fun _ => passed fr t) (fun _ _ => False) t.
Proof.
  intros Hi Hcl Hf. pose proof (i_frame _ _ Hi) as (? & ? & ? & ?). pose proof (i_fresh _ _ Hi) as [Hu ?].
  pose proof (i_conn _ _ Hi) as [? ? ?]. apply Forall_cons in Hu as [Hu1 Hu2]. apply wp_modify. split; [split; [|done]|done].
  eapply owners_move; [exact Hi|..]; try done.
  - cbn [deferred_events set_deferred_events set_conn s_conn add_events f_queued]. unfold heads. rewrite count_app. lia.
  - cbn [add_events f_events deferred_events set_deferred_events]. rewrite !body_views_app.
    rewrite <- !app_assoc. rewrite (Permutation_app_comm (body_views [e])). by rewrite <- app_assoc.
  - apply Forall_app. split; [done|]. by apply Forall_singleton.
  - cbn. congruence.
Qed.

Lemma add_nonhead e q fr : is_head e = false -> add_events [e] q fr = add_events [e] false fr.
Proof. intros He. unfold add_events. f_equal. by destruct q, e. Qed.
Lemma add_cons e es q fr : add_events (e :: es) q fr = add_events [e] q (add_events es q fr).
Proof. apply (add_events_app [e] es). Qed.

(** What a loop over events leaves: the events it has not handed over are still held. *)
Definition looped (q : bool) (fr : frame) (t0 : state) {A} (x : result A * list (event body_chunk)) (t : state) : Prop :=
  inv (add_events (snd x) q fr) t /\ c_closed (s_conn t) = c_closed (s_conn t0) /\
  match fst x with Ok _ => snd x = [] | Raise _ => True end.
Lemma looped_trans {A} q fr t0 t1 (x : result A * list (event body_chunk)) t2 :
  looped q fr t1 x t2 -> c_closed (s_conn t1) = c_closed (s_conn t0) -> looped q fr t0 x t2.
Proof. intros (? & ? & ?) ?. split_and!; [done|congruence|done]. Qed.
Lemma looped_wp {A} (m : C (result A * list (event body_chunk))) q fr t0 t1 :
  wp m (looped q fr t1) (fun _ _ => False) t1 -> c_closed (s_conn t1) = c_closed (s_conn t0) ->
  wp m (looped q fr t0) (fun _ _ => False) t1.
Proof. intros Hm Hc. eapply wp_mono; [| |exact Hm]; [|done]. intros x t2 Hx. by eapply looped_trans. Qed.

(** The events not handed over when the connection is about to close. *)
Lemma release_rest {A} es q (a : A) (f : exn -> list (event body_chunk) -> C (result A * list (event body_chunk))) fr t0 t :
  inv (add_events es q fr) t -> c_closed (s_conn t) = c_closed (s_conn t0) -> 0 <= f_queued fr ->
  wp (let! (first_error, rest) := release_ledger es q in
      match first_error with None => ret (Ok a, []) | Some x => f x rest end) (looped q fr t0) (fun _ _ => False) t.
Proof.
  intros Hi Hc Hf. apply wp_bind. eapply wp_mono; [| |by apply release_ledger_spec]; [|done].
  intros [o rest] t1 (Eo & Hi1 & E1). cbn in Eo. subst o. apply wp_ret. split_and!; [by rewrite add_events_nil| |done].
  by rewrite (core_closed _ _ E1).
Qed.

Lemma queued_head h fr : add_events [EHead h] true fr = add_events [EHead h] false (add_queued 1 fr).
Proof. unfold add_events, add_queued. cbn. f_equal. lia. Qed.

Lemma feed_events_spec es : forall n fr t, inv (add_events es false fr) t -> c_closed (s_conn t) = false -> f_closing fr = false ->
  0 <= f_queued fr -> wp (feed_events env config es n) (looped false fr t) (fun _ _ => False) t.
Proof.
  induction es as [|e es IH]; intros n fr t Hi Hcl Hfc Hf; cbn [feed_events].
  { apply wp_ret. by split_and!. }
  apply wp_bind. unfold wp at 1. cbn [self]. destruct (close_after_flush (s_conn t)).
  { by apply (release_rest (e :: es) false n (fun x rest => ret (Raise x, tail rest))). }
  rewrite add_cons in Hi. set (fr' := add_events es false fr) in *. assert (0 <= f_queued fr') as Hf' by (cbn; lia).
  destruct (is_pending (s_conn t)) eqn:Hp.
  - apply wp_bind, wp_capture.
    eapply (wp_mono _ (fun (ok : bool) t1 => c_closed (s_conn t1) = false /\
      if ok then inv (add_events [e] true fr') t1 else inv fr' t1) _ (fun _ _ => False)).
    + intros [] t1 [Hc1 Hi1].
      * apply wp_bind. eapply wp_mono; [| |by apply defer_spec]; [|done]. intros _ t2 [[Hi2 E2] _].
        apply (looped_wp _ _ _ t); [|congruence]. apply IH; try done. congruence.
      * apply wp_bind, wp_modify. apply (release_rest es false n (fun x rest => ret (Raise x, rest))); [|cbn; congruence|done].
        by apply (inv_core _ t1).
    + by intros.
    + destruct (is_head e) eqn:Hh.
      * destruct e as [h|b|tr]; try done. apply drop_event in Hi; [|done].
        eapply wp_mono; [| |by apply queue_spec]; [|done]. intros ok t1 [Hi1 E1]. split; [by rewrite (core_closed _ _ E1)|].
        destruct ok; [|done]. rewrite queued_head. by apply drop_event.
      * apply wp_ret. split; [done|]. by rewrite add_nonhead.
  - apply wp_bind, wp_capture. eapply wp_mono; [| |apply handle_spec; try done].
    + intros ? t1 [[Hi1 E1] _]. apply (looped_wp _ _ _ t); [|done]. apply IH; try done. congruence.
    + intros x t1 [[Hi1 E1] _]. apply wp_ret. by split_and!.
Qed.

Lemma resume_events_spec es : forall fr t, inv (add_events es true fr) t -> (c_closed (s_conn t) = true -> es = []) -> f_closing fr = false ->
  0 <= f_queued fr -> wp (resume_events env config es) (looped true fr t) (fun _ _ => False) t.
Proof.
  induction es as [|e es IH]; intros fr t Hi Hcl Hfc Hf; cbn [resume_events].
  { apply wp_ret. by split_and!. }
  apply wp_bind. unfold wp at 1. cbn [self]. destruct (close_after_flush (s_conn t)).
  { by apply (release_rest (e :: es) true tt (fun x rest => ret (Raise x, rest))). }
  assert (c_closed (s_conn t) = false) as Ho by (destruct (c_closed (s_conn t)); [by specialize (Hcl eq_refl)|done]).
  rewrite add_cons in Hi. set (fr' := add_events es true fr) in *.
  assert (0 <= f_queued fr') as Hf' by (pose proof (heads_nonneg es); cbn; lia).
  assert (forall t1, inv fr' t1 -> c_closed (s_conn t1) = false -> wp (resume_events env config es) (looped true fr t) (fun _ _ => False) t1) as Hnext.
  { intros t1 Hi1 Hc1. apply (looped_wp _ _ _ t); [|congruence]. apply IH; try done. congruence. }
  destruct (is_pending (s_conn t)) eqn:Hp.
  - apply wp_bind. eapply wp_mono; [| |by apply defer_spec]; [|done]. intros _ t1 [[Hi1 E1] _]. apply Hnext; [done|congruence].
  - apply wp_bind, wp_capture.
    eapply (wp_mono _ (fun _ t1 => kept (add_events [e] false fr') t t1) _ (fun _ _ => False)).
    + intros _ t1 [Hi1 E1]. pose proof (core_closed _ _ E1). apply wp_bind, wp_capture.
      eapply wp_mono; [| |apply handle_spec; [exact Hi1|congruence|done|by rewrite (core_pending _ _ E1)]].
      * intros ? t2 [[Hi2 E2] _]. apply Hnext; [done|congruence].
      * intros x t2 [[Hi2 E2] _]. apply wp_ret. split_and!; [done|congruence|done].
    + by intros.
    + destruct (is_head e) eqn:Hh; [|apply wp_ret; split; [by rewrite <- (add_nonhead e true)|done]].
      destruct e as [h|b|tr]; try done. rewrite add_head in Hi.
      eapply wp_mono; [| |apply release_queued_spec; [exact Hi|cbn in *; lia]]; [|done]. by intros ? t1 [? ?].
Qed.

(** ** Whole calls *)

Definition stays {A} (m : C A) : Prop := forall fr t, inv fr t -> f_closing fr = false ->
  wp m (fun _ => settled fr t) (fun _ => settled fr t) t.

Lemma stays_quiet {A} (m : C A) : quiet m -> stays m.
Proof. intros Hm fr t Hi _. eapply wp_mono; [| |by apply Hm]; intros ? t' [? ?]; by apply kept_settled. Qed.
Lemma stays_bind {A B} (m : C A) (k : A -> C B) : stays m -> (forall a, stays (k a)) -> stays (bind m k).
Proof.
  intros Hm Hk fr t Hi Hfc. apply wp_bind. eapply wp_mono; [| |by apply Hm]; [|done].
  intros a t' [Hi' E']. eapply wp_mono; [| |by apply Hk]; intros ? ? Hs; (eapply settled_trans; [exact Hs|done]).
Qed.
Lemma stays_try {A} (m : C A) h : stays m -> (forall e, stays (h e)) -> stays (try_except m h).
Proof.
  intros Hm Hh fr t Hi Hfc. apply wp_try. eapply wp_mono; [| |by apply Hm]; [done|].
  intros e t' [Hi' E']. eapply wp_mono; [| |by apply Hh]; intros ? ? Hs; (eapply settled_trans; [exact Hs|done]).
Qed.
Lemma stays_attempt (m : C unit) : stays m -> stays (attempt m).
Proof. intros Hm. apply stays_try; [|intros; by apply stays_quiet, quiet_ret]. apply stays_bind; [done|intros; by apply stays_quiet, quiet_ret]. Qed.
Lemma stays_capture {A} (m : C A) : stays m -> stays (capture m).
Proof. intros Hm. apply stays_try; [|intros; by apply stays_quiet, quiet_ret]. apply stays_bind; [done|intros; by apply stays_quiet, quiet_ret]. Qed.
Lemma stays_attempt_all ms : Forall (@stays unit) ms -> stays (attempt_all ms).
Proof.
  induction 1 as [|m ms Hm Hms IH]; [by apply stays_quiet, quiet_ret|]. cbn [attempt_all].
  apply stays_bind; [by apply stays_attempt|]. intros e. apply stays_bind; [done|]. intros; by apply stays_quiet, quiet_ret.
Qed.
Lemma stays_ends {A} (m : C A) f : (forall fr t, inv fr t -> ends m fr fr t f) ->
  (forall c, c_closed (f c) = c_closed c) -> stays m.
Proof.
  intros Hm Hf fr t Hi _. eapply wp_mono; [| |by apply Hm]; intros ? t' [? E]; (split; [done|]);
    by rewrite (core_closed _ _ E).
Qed.
Lemma stays_abort reason : stays (abort_current_request reason).
Proof. eapply stays_ends; [intros; by apply abort_spec|done]. Qed.
Lemma stays_cancel_proxy reason : stays (cancel_pending_proxy reason).
Proof. eapply stays_ends; [intros; by apply cancel_proxy_spec|done]. Qed.
Lemma stays_cancel_stream reason : stays (cancel_pending_stream reason).
Proof. eapply stays_ends; [intros; by apply cancel_stream_spec|done]. Qed.
Lemma stays_complete_stream : stays (complete_streaming_response env config).
Proof. eapply stays_ends; [intros; by apply complete_stream_spec|done]. Qed.
Lemma stays_discard : stays discard_deferred_events.
Proof. eapply stays_ends; [intros; by apply discard_spec|done]. Qed.
Hint Resolve stays_quiet stays_abort stays_cancel_proxy stays_cancel_stream stays_complete_stream stays_discard
  stays_attempt stays_capture : quiet.

(** Decomposes a method into calls that are quiet, or give back what they take. *)
Ltac stay :=
  repeat lazymatch goal with
  | |- stays (bind _ _) => apply stays_bind; [|intros ?]
  | |- stays (try_except _ _) => apply stays_try; [|intros ?]
  | |- stays (attempt_all _) => apply stays_attempt_all
  | |- stays (upd _) => apply stays_quiet; quietly
  | |- stays (fun t => (Ok _, t)) => apply stays_quiet, quiet_state
  | |- stays (if ?b then _ else _) => destruct b
  | |- stays (match ?x with _ => _ end) => destruct x
  | |- Forall _ (_ ++ _) => apply Forall_app; split
  | |- Forall _ (_ :: _) => apply Forall_cons; split
  | |- Forall _ [] => constructor
  | |- Forall _ (if ?b then _ else _) => destruct b
  | |- stays _ => solve [auto with quiet nocore]
  end.

Lemma stays_fail_http e : stays (fail_http env config e).
Proof. unfold fail_http. destruct (match e with Http1Error s c _ => _ | _ => _ end) as [code status]. stay. Qed.
Hint Resolve stays_fail_http : quiet.
Lemma stays_deadline phase : stays (deadline_timeout env config phase).
Proof. unfold deadline_timeout. stay. Qed.
Hint Resolve stays_deadline : quiet.
Lemma stays_flush : stays (flush_transport env config).
Proof. unfold flush_transport. stay. Qed.
Lemma stays_give_up reason : stays (give_up_stream reason).
Proof. unfold give_up_stream. stay. Qed.
Hint Resolve stays_give_up : quiet.
Lemma stays_drive_stream : stays (drive_streaming_response env config).
Proof. unfold drive_streaming_response. cbv zeta. stay. Qed.
Hint Resolve stays_drive_stream stays_flush : quiet.

(** *** Feeding *)

Lemma on_codec_feed data mx fr t : inv fr t ->
  wp (on_codec (Http1ServerCodec.feed data mx) : C (list (event body_chunk)))
    (fun es t' => inv (add_events es false fr) t' /\ core (s_conn t') = core (s_conn t))
    (fun _ t' => kept fr t t') t.
Proof.
  intros Hi. pose proof Hi as [Hg Ho Hm [Hf1 Hf2] Hr Hk Hc Hem Hf]. unfold on_codec. apply wp_zoom. unfold wp. cbn [fst snd].
  pose proof (feed_any (c_codec (s_conn t)) (s_bodies t) data mx Hk (mm_heap _ _ _ _ Hm)) as Hfeed.
  destruct (Http1ServerCodec.feed data mx _) as [[es|e] [c' h']].
  - destruct Hfeed as [Hc' [ps Hp]]. destruct (mem_fed _ _ _ _ _ _ _ Hm Hp) as [Hm' Hu]. split; [|done].
    split; cbn in *; rewrite ?Z.add_0_r; try done.
    + by rewrite body_views_app, <- app_assoc.
    + split; [by apply Forall_app|done].
    + by apply (core_ok (s_conn t)).
  - destruct Hfeed as (Hc' & Hh' & Hl & Hold). split; [|done]. split; cbn in *; try done.
    + by eapply mem_grown.
    + by apply (core_ok (s_conn t)).
Qed.

Lemma stays_feed_data data mx : stays (feed_data env config data mx).
Proof.
  intros fr t Hi Hfc. pose proof (i_frame _ _ Hi) as (? & Hq & ?). unfold feed_data. apply wp_bind. unfold wp at 1. cbn [self].
  destruct (c_closed (s_conn t)) eqn:Hcl; [done|]. cbn [orb]. destruct (close_after_flush (s_conn t)); [done|].
  apply wp_bind, wp_capture.
  assert (forall t1 rest e, inv (add_events rest false fr) t1 -> c_closed (s_conn t1) = c_closed (s_conn t) ->
    wp (let! _ := attempt (release_event_suffix rest false) in
        if is_Http1Error e then fail_http env config e ;;! ret (-1)
        else let! _ := attempt discard_deferred_events in raise e : C Z) (fun _ => settled fr t) (fun _ => settled fr t) t1) as Hfail.
  { intros t1 rest e Hi1 Hc1. apply wp_bind, wp_attempt. eapply wp_mono; [| |by apply release_suffix_spec]; [|done].
    intros _ t2 [Hi2 E2]. pose proof (core_closed _ _ E2) as Hc2.
    match goal with |- wp ?m _ _ _ => assert (stays m) as Hs by stay end.
    eapply wp_mono; [| |by apply Hs]; intros ? t3 Ht3; (eapply settled_trans; [exact Ht3|congruence]). }
  eapply wp_mono; [| |by apply on_codec_feed].
  - intros es t1 [Hi1 E1]. pose proof (core_closed _ _ E1) as Hc1. apply wp_bind, wp_bind.
    eapply wp_mono; [| |apply feed_events_spec; [exact Hi1|congruence|done|done]]; [|done].
    intros [[n|e] rest] t2 (Hi2 & Hc2 & Hrest); cbn [fst snd] in *; [|apply wp_ret, Hfail; [done|congruence]].
    subst rest. rewrite add_events_nil in Hi2. apply wp_bind, wp_capture.
    eapply wp_mono; [| |by apply quiet_arm_header].
    + intros _ t3 [Hi3 E3]. apply wp_ret, wp_ret. split; [done|]. rewrite (core_closed _ _ E3). congruence.
    + intros e t3 [Hi3 E3]. apply wp_ret, Hfail; [by rewrite add_events_nil|]. rewrite (core_closed _ _ E3). congruence.
  - intros e t1 [Hi1 E1]. apply wp_bind, wp_ret. apply Hfail; [by rewrite add_events_nil|]. by apply core_closed.
Qed.

(** Events put back on the connection. *)
Lemma put_back es fr t : inv (add_events es true fr) t -> c_closed (s_conn t) = false -> 0 <= f_queued fr ->
  settled fr t (set_conn (set_deferred_events (deferred_events (s_conn t) ++ es) (s_conn t)) t).
Proof.
  intros Hi Hcl Hf. pose proof (i_frame _ _ Hi) as (? & ? & ? & ?). pose proof (i_fresh _ _ Hi) as [Hu ?].
  pose proof (i_conn _ _ Hi) as [? ? ?]. apply Forall_app in Hu as [Hu1 Hu2]. split; [|done].
  eapply owners_move; [exact Hi|..]; try done.
  - cbn [deferred_events set_deferred_events add_events f_queued]. unfold heads. rewrite count_app. lia.
  - cbn [add_events f_events deferred_events set_deferred_events]. rewrite !body_views_app.
    rewrite <- !app_assoc, (Permutation_app_comm (body_views es)). by rewrite <- app_assoc.
  - by apply Forall_app.
  - cbn. congruence.
Qed.

Lemma deferred_open fr t : inv fr t -> f_closing fr = false -> c_closed (s_conn t) = true -> deferred_events (s_conn t) = [].
Proof. intros Hi Hfc Hcl. by destruct (i_closed _ _ Hi Hcl Hfc) as (? & ? & ? & ?). Qed.

Lemma stays_resume : stays (resume_deferred_events env config).
Proof.
  intros fr t Hi Hfc. pose proof (i_frame _ _ Hi) as (? & Hq & ?). unfold resume_deferred_events. apply wp_bind. unfold wp at 1. cbn [self].
  apply wp_bind, wp_modify, wp_bind. eapply wp_mono; [| |apply (resume_events_spec _ fr); [by apply take_deferred|by apply (deferred_open fr t)|done|done]]; [|done].
  intros [[u|e] rest] t1 (Hi1 & E1 & Hr); cbn [fst snd] in *.
  - subst rest. rewrite add_events_nil in Hi1. by split.
  - apply wp_bind, wp_attempt. eapply wp_mono; [| |by apply release_suffix_spec]; [|done].
    intros _ t2 [Hi2 E2]. split; [done|]. by rewrite (core_closed _ _ E2).
Qed.

Lemma consume_events_spec r es : forall b fr t, inv (add_events es true fr) t -> (c_closed (s_conn t) = true -> es = []) -> f_closing fr = false ->
  0 <= f_queued fr -> wp (consume_events env config r b es) (fun _ => passed fr t) (fun _ => passed fr t) t.
Proof.
  induction es as [|e es IH]; intros b fr t Hi Hcl Hfc Hf; cbn [consume_events].
  { rewrite add_events_nil in Hi. by apply wp_ret, kept_passed. }
  assert (c_closed (s_conn t) = false) as Ho by (destruct (c_closed (s_conn t)); [by specialize (Hcl eq_refl)|done]).
  rewrite add_cons in Hi. set (fr' := add_events es true fr) in *.
  assert (0 <= f_queued fr') as Hf' by (pose proof (heads_nonneg es); cbn; lia).
  assert (forall t1 b', passed fr' t t1 ->
    wp (consume_events env config r b' es) (fun _ => passed fr t) (fun _ => passed fr t) t1) as Hnext.
  { intros t1 b' [[Hi1 Hc1] Hp1]. eapply wp_mono; [| |apply IH; try done; congruence]; intros ? t2 [Hs2 Hp2];
      (split; [eapply settled_trans; [exact Hs2|done]|]); intros Hp; specialize (Hp1 Hp); rewrite Hp2; try done;
      by rewrite (pends_pending _ _ Hp1). }
  destruct (negb b && negb (is_head e)) eqn:Eh.
  - apply andb_prop in Eh as [_ Eh]. apply negb_true_iff in Eh. rewrite add_nonhead in Hi by done.
    apply wp_bind, wp_capture. eapply wp_mono; [| |apply handle_spec; [exact Hi|done|done|congruence]].
    + intros ? t1 Hs. apply wp_bind. unfold wp at 1. cbn [self]. by apply Hnext.
    + intros x t1 [[Hi1 E1] Hp1]. apply wp_bind, wp_modify. split; [|exact Hp1].
      eapply settled_trans; [apply put_back; [done|congruence|done]|done].
  - apply wp_bind. eapply wp_mono; [| |by apply defer_spec]; [|done]. intros _ t1 [Hs Hp]. by apply Hnext.
Qed.
Lemma consume_body_spec r fr t : inv fr t -> f_closing fr = false ->
  wp (consume_pending_body_events env config r) (fun _ => passed fr t) (fun _ => passed fr t) t.
Proof.
  intros Hi Hfc. pose proof (i_frame _ _ Hi) as (? & Hq & ?). unfold consume_pending_body_events. apply wp_bind. unfold wp at 1. cbn [self].
  apply wp_bind, wp_modify. eapply wp_mono; [| |apply (consume_events_spec _ _ _ fr); [by apply take_deferred|by apply (deferred_open fr t)|done|done]]; by intros.
Qed.
Lemma stays_consume r : stays (consume_pending_body_events env config r).
Proof. intros fr t Hi Hfc. eapply wp_mono; [| |by apply consume_body_spec]; by intros ? ? [? _]. Qed.
Hint Resolve stays_feed_data stays_resume stays_consume : quiet.

(** *** Answers of a handler thread *)

Lemma give_back_settled b fr t0 t r : inv (holding r b fr) t -> c_closed (s_conn t) = c_closed (s_conn t0) -> 0 <= f_requests fr ->
  wp (attempt_all ([close_body r] ++ if b then [release_request] else [])) (fun _ => settled fr t0) (fun _ _ => False) t.
Proof. intros Hi Hc Hf. eapply wp_mono; [| |by apply give_back]; [|done]. intros ? t1 [? E]. split; [done|]. by rewrite (core_closed _ _ E). Qed.
Lemma give_back_first_settled fr t0 t r : inv (holding r true fr) t -> c_closed (s_conn t) = c_closed (s_conn t0) -> 0 <= f_requests fr ->
  wp (attempt_all [release_request; close_body r]) (fun _ => settled fr t0) (fun _ _ => False) t.
Proof. intros Hi Hc Hf. eapply wp_mono; [| |by apply give_back_first]; [|done]. intros ? t1 [? E]. split; [done|]. by rewrite (core_closed _ _ E). Qed.

Lemma complete_local_spec r a fr t : inv (holding r true fr) t -> idle t -> f_closing fr = false -> 0 <= f_requests fr ->
  wp (complete_local_handler_response env config r a) (fun _ => settled fr t) (fun _ => settled fr t) t.
Proof.
  intros Hi Hid Hfc Hf. unfold complete_local_handler_response. apply wp_bind.
  eapply (wp_mono _ (fun _ t1 => t1 = t) _ (fun _ _ => False)); [|by intros|by destruct a].
  intros x t1 ->. destruct (get_total r _ _ Hi) as (q & _ & Eg); [by left|]. apply wp_bind. eapply wp_run; [exact Eg|]. cbv zeta.
  apply wp_bind, wp_capture, wp_try.
  assert (forall o t2, o <> Ok true -> kept (holding r true fr) t t2 ->
    wp (conclude_local config r o) (fun _ => settled fr t) (fun _ => settled fr t) t2) as Hfin.
  { intros o t2 Ho [Hi2 E2]. assert (conclude_local config r o = (let! cleanup := attempt_all [release_request; close_body r] in
      reraise (first_of (match o with Raise e => Some e | Ok _ => None end) cleanup) ;;!
      count_completed ;;! close_if_last config)) as -> by (by destruct o as [[]|]).
    apply wp_bind. eapply wp_mono; [| |apply give_back_first_settled; [exact Hi2|by apply core_closed|done]]; [|done].
    intros e t3 Hs. apply quiet_settled; [quietly|exact Hs]. }
  assert (forall e t2, kept (holding r true fr) t t2 ->
    wp (on_overflow env config (rq_method (ro_request q)) e ;;! ret false) (fun a t3 => wp (conclude_local config r (Ok a)) (fun _ => settled fr t) (fun _ => settled fr t) t3)
      (fun e t3 => wp (conclude_local config r (Raise e)) (fun _ => settled fr t) (fun _ => settled fr t) t3) t2) as Hover.
  { intros e t2 [Hi2 E2]. eapply wp_kept; [quietly|exact Hi2|done| |intros; by apply Hfin]. intros _ t3 Hi3 E3. by apply wp_ret, Hfin. }
  destruct (wants_stream _ x).
  - apply wp_bind. eapply wp_mono; [| |apply (begin_streaming_spec r true x fr); done].
    + intros _ t2 (Hi2 & _ & Hc2 & _). by apply wp_ret.
    + intros e t2 ?. by apply Hover.
  - eapply wp_kept; [quietly|exact Hi|done| |intros; by apply Hover]. intros _ t2 Hi2 E2. by apply wp_ret, Hfin.
Qed.

(** *** The handler thread of a streamed request body *)

(** Calls on a request the frame or the connection has do not raise. *)
Lemma cancel_request_total r reason fr t : inv fr t -> r ∈ f_open fr ++ owned (s_conn t) ->
  wp (cancel_request r reason) (fun _ t' => kept fr t t') (fun _ _ => False) t.
Proof.
  intros Hi Hr. destruct (get_total r _ _ Hi Hr) as (x & Hx & Eg). unfold cancel_request. apply wp_bind. eapply wp_run; [exact Eg|].
  apply wp_modify. split; [|done]. by eapply inv_put.
Qed.
Lemma body_total {A} r (m : BodyStream.MS A) Q fr t : body_call_total m Q -> inv fr t -> r ∈ f_open fr ++ owned (s_conn t) ->
  wp (on_body r m) (fun _ t' => kept fr t t') (fun _ _ => False) t.
Proof. intros Hm Hi Hr. eapply total_body; [exact Hm|exact Hi|by eapply inv_range]. Qed.

(** The alias of a request the frame holds is dropped. *)
Lemma drop_held r b fr t : inv (holding r b fr) t -> current_request (s_conn t) = Some r -> current_admitted (s_conn t) = false ->
  is_pending (s_conn t) = false ->
  inv (holding r b fr) (set_conn (clear_current (s_conn t)) t) /\ idle (set_conn (clear_current (s_conn t)) t).
Proof.
  intros Hi Hr Ha Hp. pose proof (i_frame _ _ Hi) as (? & ? & ? & ?). pose proof (i_fresh _ _ Hi) as [? ?].
  pose proof (i_conn _ _ Hi) as [? ? ?]. split; [|by split_and!].
  eapply owners_move; [exact Hi|..]; try done.
  - unfold admissions. cbn. rewrite Ha. cbn. lia.
  - intros i. unfold owned. rewrite Hr. members.
  - intros Hc Hfc. destruct (i_closed _ _ Hi Hc Hfc). congruence.
Qed.

(** While a request is pending, the current request can only be that one, its admission moved. *)
Lemma current_of_pending (c : conn P I It) : conn_ok c -> is_pending c = true ->
  current_admitted c = false /\ (forall r, pending_proxy c = None -> pending_local c = Some r -> current_request c = None \/ current_request c = Some (fst r)) /\
  (forall r, pending_local c = None -> pending_proxy c = Some r -> current_request c = None \/ current_request c = Some (snd r)).
Proof.
  intros [Ha Hal Ho] Hp. split_and!.
  - destruct (current_admitted c); [|done]. destruct (Ha eq_refl) as [_ ?]. congruence.
  - intros [r h] Ep El. destruct (current_request c) as [q|] eqn:Er; [right|by left]. destruct (Hal q eq_refl Hp) as [Hq|Hq].
    + unfold is_pending_proxy in Hq. by rewrite Ep in Hq.
    + unfold is_pending_local in Hq. rewrite El in Hq. cbn. apply Nat.eqb_eq in Hq. congruence.
  - intros [p r] El Ep. destruct (current_request c) as [q|] eqn:Er; [right|by left]. destruct (Hal q eq_refl Hp) as [Hq|Hq].
    + unfold is_pending_proxy in Hq. rewrite Ep in Hq. cbn. apply Nat.eqb_eq in Hq. congruence.
    + unfold is_pending_local in Hq. by rewrite El in Hq.
Qed.

(** The request of the handler thread, taken, and its alias with it. *)
Lemma retake_local fr t r h : inv fr t -> pending_local (s_conn t) = Some (r, h) ->
  let t1 := set_conn (set_pending_local None (s_conn t)) t in
  inv (holding r true fr) t1 /\
  (is_current r (s_conn t1) = true /\ inv (holding r true fr) (set_conn (clear_current (s_conn t1)) t1) /\
     idle (set_conn (clear_current (s_conn t1)) t1) \/
   is_current r (s_conn t1) = false /\ idle t1).
Proof.
  intros Hi Hl t1. pose proof (take_local _ _ _ _ Hi Hl) as Hi1. split; [exact Hi1|].
  pose proof (one_pending _ (i_conn _ _ Hi)) as H1p. rewrite Hl in H1p.
  destruct (pending_proxy (s_conn t)) eqn:Epp; [done|]. destruct (pending_stream (s_conn t)) eqn:Eps; [done|].
  assert (is_pending (s_conn t) = true) as Hp by (unfold is_pending; by rewrite Hl, Epp).
  assert (is_pending (s_conn t1) = false) as Hp1 by (unfold is_pending; cbn; by rewrite Epp, Eps).
  destruct (current_of_pending _ (i_conn _ _ Hi) Hp) as (Ha & Hcur & _). destruct (Hcur _ Epp Hl) as [Hr|Hr].
  - right. unfold is_current. cbn. rewrite Hr. by split_and!.
  - left. unfold is_current. cbn. rewrite Hr. split; [by rewrite bool_decide_eq_true_2|]. by apply (drop_held r true fr t1).
Qed.

Lemma quiet_join thread b : quiet (join_child env thread b).
Proof. unfold join_child, thread_join. quietly. Qed.
Hint Resolve quiet_join : quiet.
Lemma quiet_producer_finished r : quiet (on_body r (BodyStream.stream BodyStream.producer_finished)).
Proof. eapply quiet_body, body_total_ok, observe_total. intros b. by eexists _, _. Qed.
Lemma ended_total : body_call_total (BodyStream.stream BodyStream.is_ended) (fun _ _ => True).
Proof. apply observe_total. intros b. by eexists _, _. Qed.
Hint Resolve quiet_producer_finished : quiet.

Lemma settled_kept fr t0 t1 t2 : settled fr t0 t1 -> kept fr t1 t2 -> settled fr t0 t2.
Proof. intros [_ ?] [? E]. split; [done|]. by rewrite (core_closed _ _ E). Qed.

(** The end of a body the handler did not read. *)
Lemma abandon_body r b fr t : inv (holding r b fr) t ->
  wp (let! ended := on_body r (BodyStream.stream BodyStream.is_ended) in
      if negb ended then
        cancel_request r (py "handler completed before body end") ;;!
        cancel_body r ;;!
        upd (set_close_after_flush true)
      else ret tt) (fun _ t' => kept (holding r b fr) t t') (fun _ _ => False) t.
Proof.
  intros Hi. assert (forall t', kept (holding r b fr) t t' -> r ∈ f_open (holding r b fr) ++ owned (s_conn t')) as Hin by (intros; by left).
  apply wp_bind. eapply wp_mono; [| |apply (body_total r _ _ _ _ ended_total Hi); by left]; [|done].
  intros [] t1 H1k; [done|]. cbn [negb]. apply wp_bind. destruct H1k as [Hi1 E1].
  eapply wp_mono; [| |apply (cancel_request_total r _ _ _ Hi1); by left]; [|done]. intros _ t2 [Hi2 E2].
  apply wp_bind. eapply wp_mono; [| |apply (body_total r _ _ _ _ cancel_total Hi2); by left]; [|done]. intros _ t3 [Hi3 E3].
  apply wp_modify. split; [by apply (inv_core _ t3)|]. transitivity (core (s_conn t3)); [done|congruence].
Qed.

Lemma stays_drive_local : stays (drive_pending_local env config).
Proof.
  intros fr t Hi Hfc. pose proof (i_frame _ _ Hi) as (Hf & _ & _). unfold drive_pending_local. apply wp_bind. unfold wp at 1. cbn [self].
  destruct (pending_local (s_conn t)) as [[r thread]|] eqn:El; [|done].
  assert (is_pending (s_conn t) = true) as Hp by (unfold is_pending; rewrite El; apply orb_true_iff; left; apply orb_true_r).
  apply wp_bind. eapply wp_mono; [| |by apply consume_body_spec]; [|by intros ? ? [? _]].
  intros _ t0 [[Hi0 Ec0] Hpe]. specialize (Hpe Hp).
  assert (forall t', kept fr t0 t' -> settled fr t t') as Hend.
  { intros t' Hk. by eapply settled_kept; [|exact Hk]. }
  eapply wp_kept; [quietly|exact Hi0|done| |done]. intros outcome t1 Hi1 E1. cbv zeta.
  eapply wp_kept; [quietly|exact Hi1|done| |done]. intros finished t2 Hi2 E2. destruct (_ && negb finished); [by apply Hend|].
  eapply wp_kept; [quietly|exact Hi2|done| |done]. intros x t3 Hi3 E3.
  eapply wp_kept; [quietly|exact Hi3|done| |done]. intros _ t4 Hi4 E4.
  eapply wp_kept; [quietly|exact Hi4|done| |done]. intros a t5 Hi5 E5.
  eapply wp_kept; [quietly|exact Hi5|done| |done]. intros a' t6 Hi6 E6.
  assert (pending_local (s_conn t6) = Some (r, thread)) as El6.
  { rewrite (core_local _ _ E6). unfold pends in Hpe. injection Hpe as _ -> _. done. }
  assert (c_closed (s_conn t6) = c_closed (s_conn t)) as Ec6 by (rewrite (core_closed _ _ E6); congruence).
  destruct (retake_local fr t6 r thread Hi6 El6) as [Hi7 Hcur].
  apply wp_bind, wp_modify. set (t7 := set_conn _ t6) in *. apply wp_bind. unfold wp at 1. cbn [self].
  apply wp_bind. eapply (wp_mono _ (fun _ t8 => inv (holding r true fr) t8 /\ idle t8 /\ c_closed (s_conn t8) = c_closed (s_conn t)) _ (fun _ _ => False));
    [|by intros|].
  - intros _ t8 (Hi8 & Hid8 & Ec8). apply wp_bind.
    assert (wp (if cancelled (ro_cancellation x) then let! e := attempt_all [release_request; close_body r] in reraise e
                else complete_local_handler_response env config r a') (fun _ => settled fr t) (fun _ => settled fr t) t8) as Hlast.
    { destruct (cancelled _).
      - apply wp_bind. eapply wp_mono; [| |by apply give_back_first_settled]; [|done]. intros e t9 Hs. by apply quiet_settled; [quietly|].
      - eapply wp_mono; [| |by apply complete_local_spec]; intros ? t9 Hs; (eapply settled_trans; [exact Hs|done]). }
    eapply wp_mono; [| |exact Hlast]; by intros.
  - destruct Hcur as [(-> & Hi8 & Hid8)|[-> Hid]]; [|by apply wp_ret].
    apply wp_bind, wp_modify. eapply wp_mono; [| |by apply abandon_body]; [|done].
    intros _ t9 [Hi9 E9]. split_and!; [done|by eapply idle_core|]. by rewrite (core_closed _ _ E9).
Qed.

(** A handler thread tells how it ended. *)
Definition threads_tell : Prop := forall h w, exists o, fst (snd (o_thread_outcome env h w)) = Ok o.
Lemma quiet_outcome h (Q : thread_outcome -> state -> Prop) (E : exn -> state -> Prop) fr t : inv fr t ->
  (forall o t', kept fr t t' -> Q o t') -> (forall e t', kept fr t t' -> (threads_tell -> False) -> E e t') ->
  wp (outside_call (o_thread_outcome env h)) Q E t.
Proof.
  intros Hi HQ HE. pose proof (quiet_outside (o_thread_outcome env h) fr t Hi) as Hq. unfold wp in *.
  assert (fst (outside_call (o_thread_outcome env h) t) = fst (snd (o_thread_outcome env h (s_world t)))) as Er.
  { unfold outside_call. by destruct (o_thread_outcome env h (s_world t)) as [es [r w]]. }
  destruct (outside_call (o_thread_outcome env h) t) as [[a|e] t']; [by apply HQ|]. apply HE; [done|].
  intros Ht. destruct (Ht h (s_world t)) as [o Ho]. rewrite <- Er in Ho. discriminate Ho.
Qed.

Lemma wp_both {A} (m : C A) (R : state -> Prop) t : wp m (fun _ => R) (fun _ => R) t -> R (snd (m t)).
Proof. unfold wp. by destruct (m t) as [[a|e] t']. Qed.

(** The handler thread is joined and its request given back. *)
Lemma cancel_and_join_spec reason fr t : inv fr t -> f_closing fr = false ->
  let R t' := settled fr t t' /\ (threads_tell -> pending_local (s_conn t') = None) in
  wp (cancel_and_join_pending_local env reason) (fun _ => R) (fun _ => R) t.
Proof.
  intros Hi Hfc R. pose proof (i_frame _ _ Hi) as (Hf & _ & _). unfold cancel_and_join_pending_local. apply wp_bind. unfold wp at 1. cbn [self].
  destruct (pending_local (s_conn t)) as [[r thread]|] eqn:El; [|by apply wp_ret; split].
  apply (attempt_quiet _ _ _ _ fr); [quietly|exact Hi|]. intros e1 t1 Hi1 E1. unfold thread_join.
  assert (forall (j : result (answer P I)) t2, kept fr t t2 -> wp (let! e2 := match j, e1 with
                 | Raise e, None =>
                     let! outcome := outside_call (o_thread_outcome env thread) in
                     ret (if bool_decide (outcome = OutcomeCancelled) || bool_decide (outcome = OutcomeRaised)
                          then None else Some e)
                 | _, _ => ret e1
                 end in
      take_pending_local ;;!
      let! c := self in
      (if is_current r c
       then upd (fun c => set_current_admitted false (set_current_request None c)) else ret tt) ;;!
      let! e3 := attempt_all [release_request; close_body r] in
      reraise (first_of e2 e3)) (fun _ => R) (fun _ => R) t2) as Hrest.
  2:{ apply wp_bind, wp_capture. eapply wp_mono; [| |apply (quiet_outside (o_thread_join env thread) fr t1 Hi1)];
        intros x t2 [Hi2 E2]; [apply (Hrest (Ok x))|apply (Hrest (Raise x))]; (split; [done|congruence]). }
  intros j t2 [Hi2 E2]. apply wp_bind. eapply (wp_mono _ (fun _ t3 => kept fr t t3) _ (fun _ t3 => kept fr t t3 /\ (threads_tell -> False))).
  3:{ destruct j as [a|e]; [by apply wp_ret|]. destruct e1; [by apply wp_ret|]. apply wp_bind, (quiet_outcome _ _ _ fr _ Hi2).
      - intros o t3 [Hi3 E3]. apply wp_ret. split; [done|congruence].
      - intros e' t3 [Hi3 E3] Hn. split; [|done]. split; [done|congruence]. }
  2:{ intros e t3 [Hk Hn]. split; [by apply kept_settled|tauto]. }
  intros e2 t3 [Hi3 E3]. assert (pending_local (s_conn t3) = Some (r, thread)) as El3 by (by rewrite (core_local _ _ E3)).
  destruct (retake_local fr t3 r thread Hi3 El3) as [Hi7 Hcur].
  apply wp_bind, wp_modify. set (t7 := set_conn _ t3) in *. apply wp_bind. unfold wp at 1. cbn [self].
  apply wp_bind. eapply (wp_mono _ (fun _ t8 => inv (holding r true fr) t8 /\ c_closed (s_conn t8) = c_closed (s_conn t) /\
    pending_local (s_conn t8) = None) _ (fun _ _ => False)); [|by intros|].
  - intros _ t8 (Hi8 & Ec8 & El8). apply (each_done _ _ _ _ fr t8); [by apply give_back_first|]. intros e t9 Hi9 E9.
    eapply wp_mono; [| |apply (quiet_reraise (first_of e2 e) fr t9 Hi9)]; intros ? t10 [Hi10 E10];
      (split; [split; [done|]|]; [rewrite (core_closed _ _ E10), (core_closed _ _ E9); done|]);
      intros _; by rewrite (core_local _ _ E10), (core_local _ _ E9).
  - pose proof (core_closed _ _ E3) as Ec. destruct Hcur as [(-> & Hi8 & Hid8)|[-> Hid]]; [by apply wp_modify|by apply wp_ret].
Qed.
Lemma stays_cancel_and_join reason : stays (cancel_and_join_pending_local env reason).
Proof. intros fr t Hi Hfc. eapply wp_mono; [| |by apply cancel_and_join_spec]; by intros ? t' [? _]. Qed.
Hint Resolve stays_drive_local stays_cancel_and_join : quiet.

(** *** End of input, a finished proxy plan, the client side of one *)

Lemma quiet_eof : quiet (on_codec (zoom fst (fun c x => (c, snd x)) Http1ServerCodec.eof) : C str).
Proof.
  intros fr t Hi. pose proof Hi as [Hg Ho Hm Hf Hr Hk Hc Hem Hfr]. unfold on_codec. apply wp_zoom, wp_zoom.
  assert (forall c', c' = set_codec_closed true (c_codec (s_conn t)) ->
    inv fr (set_conn (set_c_codec c' (s_conn t)) (set_requests (s_requests t) (s_bodies t) t))) as Hset.
  { intros c' ->. split; cbn; try done; [by destruct Hk; split|by apply (core_ok (s_conn t))]. }
  unfold wp, Http1ServerCodec.eof, modify, bind, get. cbn. destruct (_ || _); cbn; (split; [by apply Hset|done]).
Qed.
Hint Resolve quiet_eof : quiet.
Lemma stays_input_eof : stays (input_eof env config).
Proof. unfold input_eof. stay. Qed.

Lemma retake_proxy fr t r p : inv fr t -> pending_proxy (s_conn t) = Some (p, r) ->
  let t1 := set_conn (set_pending_proxy None (s_conn t)) t in
  inv (holding r true fr) t1 /\
  (is_current r (s_conn t1) = true /\ inv (holding r true fr) (set_conn (clear_current (s_conn t1)) t1) \/
   is_current r (s_conn t1) = false).
Proof.
  intros Hi Hl t1. pose proof (take_proxy _ _ _ _ Hi Hl) as Hi1. split; [exact Hi1|].
  pose proof (one_pending _ (i_conn _ _ Hi)) as H1p. rewrite Hl in H1p.
  destruct (pending_local (s_conn t)) eqn:Epp; [done|]. destruct (pending_stream (s_conn t)) eqn:Eps; [done|].
  assert (is_pending (s_conn t) = true) as Hp by (unfold is_pending; by rewrite Hl).
  assert (is_pending (s_conn t1) = false) as Hp1 by (unfold is_pending; cbn; by rewrite Epp, Eps).
  destruct (current_of_pending _ (i_conn _ _ Hi) Hp) as (Ha & _ & Hcur). destruct (Hcur _ Epp Hl) as [Hr|Hr].
  - right. unfold is_current. cbn. by rewrite Hr.
  - left. unfold is_current. cbn. rewrite Hr. split; [by rewrite bool_decide_eq_true_2|]. by apply (drop_held r true fr t1).
Qed.

(** Giving back, the body first. *)
Lemma give_back_body fr t0 t r : inv (holding r true fr) t -> c_closed (s_conn t) = c_closed (s_conn t0) -> 0 <= f_requests fr ->
  wp (attempt_all [close_body r; release_request]) (fun _ => settled fr t0) (fun _ _ => False) t.
Proof. apply (give_back_settled true). Qed.

Lemma stays_retire_proxy r : stays (retire_proxy config r).
Proof.
  intros fr t Hi Hfc. pose proof (i_frame _ _ Hi) as (Hf & _ & _). unfold retire_proxy. apply wp_bind. unfold wp at 1. cbn [self].
  destruct (is_pending_proxy r (s_conn t)) eqn:Ep; [|done]. cbn [negb].
  unfold is_pending_proxy in Ep. destruct (pending_proxy (s_conn t)) as [[p q]|] eqn:El; [|done]. apply Nat.eqb_eq in Ep as ->.
  destruct (retake_proxy fr t r p Hi El) as [Hi1 Hcur]. apply wp_bind, wp_modify. set (t1 := set_conn _ t) in *.
  change (is_current r (s_conn t)) with (is_current r (s_conn t1)). apply wp_bind.
  eapply (wp_mono _ (fun _ t2 => inv (holding r true fr) t2 /\ c_closed (s_conn t2) = c_closed (s_conn t)) _ (fun _ _ => False));
    [|by intros|destruct Hcur as [[-> Hi2]| ->]; [by apply wp_modify|by apply wp_ret]].
  intros _ t2 [Hi2 Ec2]. apply wp_bind, wp_capture. eapply wp_mono; [| |apply (body_total r _ _ _ _ ended_total Hi2); by left]; [|done].
  intros ended t3 [Hi3 E3]. cbv zeta. apply wp_bind.
  eapply (wp_mono _ (fun _ t4 => kept (holding r true fr) t2 t4) _ (fun _ _ => False)).
  - intros e2 t4 [Hi4 E4]. apply wp_bind. eapply wp_mono; [| |apply (give_back_body fr t); [exact Hi4| |done]]; [|done|].
    + intros e3 t5 Hs. by apply quiet_settled; [quietly|].
    + by rewrite (core_closed _ _ E4).
  - done.
  - destruct ended; [by apply wp_ret|]. apply wp_bind, wp_modify.
    assert (inv (holding r true fr) (set_conn (set_close_after_flush true (s_conn t3)) t3)) as Hi4 by (by apply (inv_core _ t3)).
    destruct (get_total r _ _ Hi4) as (x & _ & Eg); [by left|]. apply wp_bind. eapply wp_run; [exact Eg|].
    assert (Forall (fun m => forall t', inv (holding r true fr) t' -> wp m (fun _ => kept (holding r true fr) t') (fun _ => kept (holding r true fr) t') t')
      ((if cancelled (ro_cancellation x) then [] else [cancel_request r (py "proxy completed before request body end")]) ++ [cancel_body r])) as Hms.
    { apply Forall_app. split; [destruct (cancelled _); [constructor|]|]; repeat constructor; intros t' Hi';
        [by apply (quiet_cancel_request r)|by apply (quiet_cancel_body r)]. }
    match goal with |- wp _ _ _ ?t5 => assert (kept (holding r true fr) t2 t5) as Hk by (split; [done|exact E3]); revert Hk; generalize t5 end.
    clear -Hms. induction Hms as [|m ms Hm _ IH]; intros t5 Hk; [by apply wp_ret|]. apply wp_each.
    eapply wp_mono; [| |apply Hm, Hk]; intros ? t6 Hk6; apply IH; (eapply kept_trans; [exact Hk6|apply Hk]).
Qed.

Lemma stays_observe r : stays (proxy_observe_downstream env config r).
Proof. unfold proxy_observe_downstream. stay. Qed.
Hint Resolve stays_input_eof stays_retire_proxy stays_observe : quiet.

(** ** Closing *)

(** A call that leaves the output alone. *)
Definition still {A} (m : C A) : Prop := forall t, s_output (snd (m t)) = s_output t.

Lemma conn_still_bind {A B} (m : C A) (k : A -> C B) : still m -> (forall a, still (k a)) -> still (bind m k).
Proof.
  intros Hm Hk t. unfold bind. pose proof (Hm t) as E. destruct (m t) as [[a|e] t']; [|done]. by rewrite Hk.
Qed.
Lemma still_try {A} (m : C A) h : still m -> (forall e, still (h e)) -> still (try_except m h).
Proof.
  intros Hm Hh t. unfold try_except. pose proof (Hm t) as E. destruct (m t) as [[a|e] t']; [done|]. by rewrite Hh.
Qed.
Lemma still_attempt (m : C unit) : still m -> still (attempt m).
Proof. intros Hm. apply still_try; [|by intros]. by apply conn_still_bind. Qed.
Lemma still_attempt_all ms : Forall (@still unit) ms -> still (attempt_all ms).
Proof.
  induction 1 as [|m ms Hm Hms IH]; [by intros t|]. cbn [attempt_all].
  apply conn_still_bind; [by apply still_attempt|]. intros e. by apply conn_still_bind.
Qed.
Lemma still_body {A} r (m : BodyStream.MS A) : still (on_body r m).
Proof. intros t. unfold on_body. destruct (_ !! _); [|done]. by destruct (m _) as [? [? ?]]. Qed.
Lemma still_life {A} (m : M L A) : still (on_life m : C A).
Proof. intros t. unfold on_life, zoom. by destruct (m _). Qed.
Lemma still_tls {A} (m : M T A) : still (on_tls m : C A).
Proof. intros t. unfold on_tls, zoom. by destruct (m _). Qed.
Lemma still_heap {A} (m : M heap A) : still (on_heap m : C A).
Proof. intros t. unfold on_heap, zoom. by destruct (m _). Qed.
Lemma still_cancel_request r reason : still (cancel_request r reason).
Proof. intros t. unfold cancel_request, bind, get_request. by destruct (_ !! _). Qed.
Lemma still_outside {A} (m : outside W A) : still (outside_call m).
Proof.
  intros t. unfold outside_call. destruct (m _) as [es [r w]]. cbn [snd].
  change (s_output t) with (s_output (set_world w t)). generalize (set_world w t). clear.
  induction es as [|e es IH]; intros t; [done|]. cbn [fold_left]. rewrite IH. destruct e; [apply still_body|apply still_cancel_request].
Qed.
Lemma still_reraise o : still (reraise o).
Proof. by destruct o. Qed.
Hint Resolve still_attempt still_body still_life still_tls still_heap still_cancel_request still_outside still_reraise : quiet.
Ltac stilled :=
  repeat lazymatch goal with
  | |- still (bind _ _) => apply conn_still_bind; [|intros ?]
  | |- still (try_except _ _) => apply still_try; [|intros ?]
  | |- still (attempt_all _) => apply still_attempt_all
  | |- still (upd _) => by intros ?
  | |- still self => by intros ?
  | |- still (ret _) => by intros ?
  | |- still (if ?b then _ else _) => destruct b
  | |- still (match ?x with _ => _ end) => destruct x
  | |- Forall _ (_ ++ _) => apply Forall_app; split
  | |- Forall _ (_ :: _) => apply Forall_cons; split
  | |- Forall _ [] => constructor
  | |- Forall _ (if ?b then _ else _) => destruct b
  | |- still _ => solve [auto with quiet nocore]
  end.
Lemma still_abort reason : still (abort_current_request reason).
Proof. unfold abort_current_request, cancel_body, close_body, release_request. stilled. Qed.
Lemma still_signal reason : still (signal_pending_local env reason).
Proof. unfold signal_pending_local, cancel_body. stilled. Qed.
Lemma still_cancel_proxy reason : still (cancel_pending_proxy reason).
Proof. unfold cancel_pending_proxy, cancel_body, close_body, release_request. stilled. Qed.
Lemma still_cancel_stream reason : still (cancel_pending_stream reason).
Proof. unfold cancel_pending_stream, cancel_body, close_body, release_request. stilled. Qed.
Lemma still_ledger es q : still (release_ledger es q).
Proof. induction es as [|e es IH]; cbn [release_ledger]; unfold capture; [by intros t|]. stilled; exact IH. Qed.

Lemma wp_still {A} (m : C A) (Q : A -> state -> Prop) (E : exn -> state -> Prop) t : still m ->
  wp m (fun a t' => s_output t' = s_output t -> Q a t') (fun e t' => s_output t' = s_output t -> E e t') t -> wp m Q E t.
Proof. intros Hm Hw. pose proof (Hm t) as Es. unfold wp in *. destruct (m t) as [[a|e] t']; by apply Hw. Qed.

(** The frame of a connection that is closing. *)
Definition closing (fr : frame) : frame :=
  Frame (f_requests fr) (f_queued fr) (f_upstream fr) (f_reserved fr) (f_events fr) (f_open fr) true.
Lemma closing_starts c' fr t : inv fr t -> f_closing fr = false -> c_codec c' = c_codec (s_conn t) ->
  current_request c' = current_request (s_conn t) -> current_admitted c' = current_admitted (s_conn t) ->
  pending_proxy c' = pending_proxy (s_conn t) -> pending_local c' = pending_local (s_conn t) ->
  pending_stream c' = pending_stream (s_conn t) -> deferred_events c' = [] ->
  inv (closing (add_events (deferred_events (s_conn t)) true fr)) (set_conn c' t).
Proof.
  intros Hi Hfc Ek E1 E2 E3 E4 E5 E6. destruct (take_deferred fr t Hi) as [Hg (f & Ho & Hs) Hm Hf Hr Hk [Ha Hal Hone] Hem Hfr].
  unfold is_pending, is_pending_proxy, is_pending_local, owned, admissions in *. cbn in *.
  split; cbn; unfold admissions, owned; rewrite ?E1, ?E2, ?E3, ?E4, ?E5, ?E6, ?Ek; try done.
  - exists f. split; [done|]. intros [Hx|[_ ?]]; [|done]. apply Hs. by left.
  - split; unfold is_pending, is_pending_proxy, is_pending_local; rewrite ?E1, ?E2, ?E3, ?E4, ?E5; done.
Qed.
Lemma closing_ends fr t : inv (closing fr) t -> f_closing fr = false -> emptied (s_conn t) ->
  (exists f, out_is (s_output t) f /\ f_closed f = true /\ f_bytes f = []) -> inv fr t.
Proof.
  intros [Hg Ho Hm Hf Hr Hk Hc Hem Hfr] Hfc He (f & Hof & Hcl & Hb). split; try done. by exists f.
Qed.

Lemma shut_output fr t n : inv (closing fr) t -> queued_bytes (fst (s_output t)) = n -> 0 <= n ->
  wp (on_output ChannelBuffer.close ;;! ret tt)
    (fun _ t' => inv (closing (add_reserved n fr)) t' /\ core (s_conn t') = core (s_conn t) /\
       exists f, out_is (s_output t') f /\ f_closed f = true /\ f_bytes f = []) (fun _ _ => False) t.
Proof.
  intros Hi Hn Hnn. destruct (i_output _ _ Hi) as (f & Ho & Hc). destruct (out_step _ _ OpClose Ho) as (o' & E & Ho').
  apply wp_bind, wp_out. unfold wp. pose proof (step_of ChannelBuffer.close (fun _ => OutUnit) OpClose _ _ _ (fun _ => eq_refl) E) as Hs.
  pose proof (out_len _ _ Ho) as El. pose proof (out_len _ _ Ho') as El'. cbn [fifo_step fst snd] in *.
  destruct (ChannelBuffer.close (s_output t)) as [[a|e] o1]; destruct Hs as [Er ->]; [|done].
  assert (exists f', out_is o' f' /\ f_closed f' = true /\ f_bytes f' = []) as (f' & Hf' & Hcl & Hb).
  { eexists. split; [exact Ho'|]. destruct (f_closed f) eqn:Ef; [|done]. apply Hc. by left. }
  pose proof (i_frame _ _ Hi) as (? & ? & ? & ?). pose proof (out_len _ _ Hf') as Elf. rewrite Hb in Elf. change (len (@nil Z)) with 0 in Elf.
  split_and!; [|done|by exists f']. eapply (inv_output (closing fr)); [exact Hi|exact Hf'|done|done..| |cbn in *; lia]. cbn. lia.
Qed.

(** Each of the calls is made, and the output stays as it is. *)
Lemma each_ends ms m f fr t (Q : option exn -> state -> Prop) E : ends m fr fr t f -> still m ->
  (forall t', inv fr t' -> core (s_conn t') = core (f (s_conn t)) -> s_output t' = s_output t ->
     wp (attempt_all ms) (fun _ t2 => forall o, Q o t2) E t') ->
  wp (attempt_all (m :: ms)) (fun _ t2 => forall o, Q o t2) E t.
Proof.
  intros Hm Hs Hk. apply (wp_each ms m (fun t2 => forall o, Q o t2)), wp_still; [done|].
  eapply wp_mono; [| |exact Hm]; intros ? t' [? ?] ?; by apply Hk.
Qed.
Lemma core_none (c c' : conn P I It) : core c' = core c ->
  core (set_pending_proxy None c') = core (set_pending_proxy None c) /\ core (set_pending_stream None c') = core (set_pending_stream None c).
Proof. unfold core. cbn. by intros [= -> -> -> -> -> -> ->]. Qed.

(** The owners are told and give back what they hold. *)
Lemma close_owners reason fr t : inv fr t -> deferred_events (s_conn t) = [] ->
  wp (attempt_all [abort_current_request reason; signal_pending_local env reason; cancel_pending_proxy reason; cancel_pending_stream reason])
    (fun _ t' => inv fr t' /\ emptied (s_conn t') /\ (c_closed (s_conn t') = c_closed (s_conn t) /\
       pending_local (s_conn t') = pending_local (s_conn t)) /\ s_output t' = s_output t)
    (fun _ _ => False) t.
Proof.
  intros Hi Hd. eapply (wp_mono _ (fun _ t' => forall o : option exn, inv fr t' /\ emptied (s_conn t') /\
    (c_closed (s_conn t') = c_closed (s_conn t) /\ pending_local (s_conn t') = pending_local (s_conn t)) /\ s_output t' = s_output t)
    _ (fun _ _ => False)); [by intros ? ? Hx; apply (Hx None)|done|].
  eapply each_ends; [by apply abort_spec|apply still_abort|]. intros t1 Hi1 E1 O1.
  eapply (each_ends _ _ id); [by apply quiet_signal_pending_local|apply still_signal|]. intros t2 Hi2 E2 O2.
  eapply each_ends; [by apply cancel_proxy_spec|apply still_cancel_proxy|]. intros t3 Hi3 E3 O3.
  eapply each_ends; [by apply cancel_stream_spec|apply still_cancel_stream|]. intros t4 Hi4 E4 O4.
  apply wp_ret. intros _.
  assert (core (s_conn t4) = core (set_pending_stream None (set_pending_proxy None (clear_current (s_conn t))))) as Ec.
  { rewrite E4. apply core_none. rewrite E3. apply core_none. rewrite E2. unfold id. exact E1. }
  split; [done|]. split; [|split; [|congruence]].
  - eapply core_emptied; [exact Ec|]. by split_and!.
  - by rewrite (core_closed _ _ Ec), (core_local _ _ Ec).
Qed.

(** Quiet calls that leave the output alone, at the end of [close]. *)
Lemma each_last ms fr t : Forall (fun m => quiet m /\ still m) ms -> inv (closing fr) t ->
  wp (attempt_all ms) (fun _ t' => kept (closing fr) t t' /\ s_output t' = s_output t) (fun _ _ => False) t.
Proof.
  intros Hms. revert t. induction Hms as [|m ms [Hm Hs] _ IH]; intros t Hi; [by apply wp_ret|]. apply wp_each, wp_still; [done|].
  eapply wp_mono; [| |by apply Hm]; intros ? t1 [Hi1 E1] O1; (eapply wp_mono; [| |by apply IH]; [|done]);
    intros ? t2 [[Hi2 E2] O2]; (split; [split; [done|congruence]|congruence]).
Qed.

Lemma transport_last c reason : Forall (fun m => quiet m /\ still m) (transport_calls env c reason).
Proof.
  unfold transport_calls. apply Forall_app. split; [|apply Forall_app; split].
  - destruct (has_tls _); [|constructor]. apply Forall_app. split; [destruct (str_in _ _); [|constructor]|];
      (apply Forall_singleton; split; [quietly|stilled]).
  - destruct (_ && _); [|constructor]. apply Forall_cons. split; [split; [quietly|stilled]|].
    apply Forall_singleton. split; [quietly|stilled].
  - apply Forall_singleton. split; [quietly|stilled].
Qed.

Lemma close_conn_spec reason fr t : inv fr t -> f_closing fr = false ->
  let R t' := inv fr t' /\ c_closed (s_conn t') = true /\ pending_local (s_conn t') = pending_local (s_conn t) in
  wp (close env reason) (fun _ => R) (fun _ => R) t.
Proof.
  intros Hi Hfc R. pose proof (i_frame _ _ Hi) as (Hf1 & Hf2 & _ & Hf3). unfold close. apply wp_bind. unfold wp at 1. cbn [self].
  destruct (c_closed (s_conn t)) eqn:Hcl; [done|]. apply wp_bind, wp_modify.
  pose proof (closing_starts (set_fd (-1) (set_has_tls false (set_deferred_events [] (set_close_reason reason (set_c_closed true (s_conn t))))))
    fr t Hi Hfc eq_refl eq_refl eq_refl eq_refl eq_refl eq_refl eq_refl) as Hi1.
  set (t1 := set_conn _ t) in *. pose proof (buffered_nonneg _ _ Hi) as Hnn.
  apply wp_bind. unfold wp at 1. cbn [output_len]. change (queued_bytes (fst (s_output t1))) with (queued_bytes (fst (s_output t))).
  set (n := queued_bytes (fst (s_output t))) in *.
  apply wp_bind. eapply wp_mono; [| |by apply (close_owners reason _ _ Hi1)]; [|done].
  intros e1 t2 (Hi2 & He2 & [Hc2 Hl2] & O2). apply wp_bind. unfold wp at 1. cbn [self]. cbv zeta.
  apply wp_bind, wp_still; [apply still_ledger|].
  eapply wp_mono; [| |apply (release_ledger_spec _ true (closing fr)); [exact Hi2|exact Hf2]]; [|done].
  intros [o2 rest] t3 (_ & Hi3 & E3) O3. apply wp_bind. cbn [app].
  pose proof (transport_last (s_conn t) reason) as Hlast.
  eapply (wp_mono _ (fun _ => R) _ (fun _ _ => False)).
  { intros e3 t4 Hd. apply wp_reraise. by destruct (first_of _ _). }
  { done. }
  apply (wp_each _ _ R).
  eapply wp_mono; [| |apply (shut_output fr _ n Hi3); [by rewrite O3, O2|done]]; [|done]. intros _ t4 (Hi4 & E4 & Hshut).
  assert (c_closed (s_conn t4) = true) as Hc4 by (rewrite (core_closed _ _ E4), (core_closed _ _ E3), Hc2; done).
  assert (emptied (s_conn t4)) as He4 by (eapply core_emptied; [exact E4|]; by eapply core_emptied).
  eapply (wp_mono _ (fun _ t' => kept (closing fr) t4 t' /\ s_output t' = s_output t4) _ (fun _ _ => False)).
  - intros _ t5 [[Hi5 E5] O5]. split_and!.
    + apply closing_ends; [done|done|by eapply core_emptied|]. by rewrite O5.
    + by rewrite (core_closed _ _ E5).
    + by rewrite (core_local _ _ E5), (core_local _ _ E4), (core_local _ _ E3), Hl2.
  - done.
  - destruct (Z.eqb_spec n 0) as [En|En]; cbn [app].
    + apply each_last; [done|]. rewrite En in Hi4. destruct fr; unfold closing, add_reserved in *; cbn in *. by rewrite Z.add_0_r in Hi4.
    + apply (wp_each _ _ (fun t' => kept (closing fr) t4 t' /\ s_output t' = s_output t4)), wp_still; [apply still_life|].
      eapply wp_mono; [| |apply (release_bytes_spec (closing fr) _ n Hi4); [lia|done]]; [|done]. intros _ t5 [Hi5 E5] O5.
      eapply wp_mono; [| |by apply each_last]; [|done]. intros _ t6 [[Hi6 E6] O6]. split; [split; [done|congruence]|congruence].
Qed.

End invariant.

(** The same for callers of a connection. *)
Create HintDb calls.
#[export] Hint Resolve quiet_ret quiet_raise conn_quiet_lift quiet_self quiet_attempt quiet_capture quiet_reraise quiet_tls
  quiet_get_request quiet_cancel_request quiet_cancel_body quiet_close_body quiet_outside quiet_peek quiet_len quiet_hook quiet_metric
  quiet_now quiet_transport quiet_running quiet_queue_bytes quiet_response_payload quiet_request_finished quiet_read_transport
  quiet_begin_drain : calls.
#[export] Hint Extern 1 (_ ∈ connection_counters) => (unfold connection_counters; repeat (first [by left|right])) : calls.
#[export] Hint Resolve stays_quiet stays_attempt stays_capture stays_deadline stays_flush stays_drive_stream stays_feed_data stays_resume
  stays_consume stays_drive_local stays_cancel_and_join stays_input_eof stays_retire_proxy stays_observe : calls.
Ltac quiet_calls :=
  repeat lazymatch goal with
  | |- quiet _ (bind _ _) => apply conn_quiet_bind; [|intros ?]
  | |- quiet _ (upd _) => apply quiet_upd; intros ?; cbn beta; repeat case_match; by split
  | |- quiet _ (fun t => (Ok _, t)) => apply quiet_state
  | |- quiet _ (if ?b then _ else _) => destruct b
  | |- quiet _ (match ?x with _ => _ end) => destruct x
  | |- quiet _ _ => solve [eauto with calls nocore]
  end.
Ltac stay_calls :=
  repeat lazymatch goal with
  | |- stays _ (bind _ _) => apply stays_bind; [|intros ?]
  | |- stays _ (upd _) => apply stays_quiet; quiet_calls
  | |- stays _ (fun t => (Ok _, t)) => apply stays_quiet, quiet_state
  | |- stays _ (if ?b then _ else _) => destruct b
  | |- stays _ (match ?x with _ => _ end) => destruct x
  | |- stays _ _ => solve [eauto with calls nocore]
  end.
End ConnectionInv.
