(* ===== verification/ConnectionSystem.v ===== *)
(** * A connection under every sequence of calls

    The admission state of the gateway keeps the laws a connection is proved against, a
    TLS channel is a session of one, and the calls of the gateway on a connection, in any
    order and with any outside behaviour, keep it accounted for.  What a hook that closes
    its connection can do, and what a full queue does to a proxied request, is shown on
    small runs. *)

From S2P Require Import Prelude PyStr Buffer Http1 Http1Decode Http1Feed Http1Spec Models ModelsSpec.
From S2P Require Import Config Lifecycle LifecycleSpec ProxyExchange ProxyExchangeSpec.
From S2P Require Import ConnectionBodies Tls TlsGeneration TlsChannel Connection ConnectionOwners.
From S2P Require Import ConnectionSpec.
#[local] Open Scope Z_scope.

(** ** [Lifecycle] is the admission state, [TlsChannel] the session *)

#[export] Instance lifecycle_gateway C R : GatewayAdmission (lifecycle C R) := {
  la_admit_request := admit_request;
  la_release_request := release_request;
  la_queue_request := queue_request;
  la_release_queued_request := release_queued_request;
  la_admit_upstream := admit_upstream;
  la_release_upstream := release_upstream;
  la_metric_add name := metric_add name 1;
  la_running l := bool_decide (l_state l = STATE_RUNNING);
}.

(** [data_at]: what the provider wrote into the output of a read. *)
Definition channel_session {Ctx Session W : Type} (prov : nat -> tls_provider Ctx Session W)
    (data_at : tls_channel Session * tls_store Ctx W -> Z -> bytes) : TlsSession (tls_channel Session * tls_store Ctx W) := {|
  ts_read := TlsChannel.read prov;
  ts_write := TlsChannel.write prov;
  ts_cancel := TlsChannel.cancel;
  ts_close := TlsChannel.close prov;
  ts_handshake := TlsChannel.handshake prov;
  ts_close_notify := TlsChannel.close_notify prov;
  ts_output := data_at;
  ts_alpn x := ch_alpn (fst x);
  ts_handshake_complete x := handshake_complete (fst x);
  ts_failed x := failed (fst x);
  ts_released x := released (fst x);
|}.

(** Counters are never forgotten. *)
Definition keeps_names {C R A} (m : M (lifecycle C R) A) : Prop :=
  forall l n, is_Some (metrics l !! n) -> is_Some (metrics (snd (m l)) !! n).
Section names.
Context {C R : Type}.
Implicit Types l : lifecycle C R.

Lemma names_bind {A B} (m : M (lifecycle C R) A) (k : A -> M (lifecycle C R) B) :
  keeps_names m -> (forall a, keeps_names (k a)) -> keeps_names (bind m k).
Proof. intros Hm Hk l n Hn. unfold bind. specialize (Hm l n Hn). destruct (m l) as [[a|e] l']; [by apply Hk|done]. Qed.
Lemma names_metric n : keeps_names (metric (C:=C) (R:=R) n).
Proof. intros l n' Hn. unfold metric, on_metrics, zoom, GatewayMetrics.get_unlocked, bind, get. by destruct (metrics l !! n). Qed.
Lemma names_add n a : keeps_names (metric_add (C:=C) (R:=R) n a).
Proof.
  intros l n' Hn. unfold metric_add, on_metrics, zoom, GatewayMetrics.add_unlocked, bind, get.
  destruct (metrics l !! n); [|done]. cbn. rewrite lookup_insert. by case_decide.
Qed.
Ltac names :=
  repeat lazymatch goal with
  | |- keeps_names (bind get _) => intros l n Hn; unfold bind at 1, get; cbn beta iota; revert n Hn; pattern l at 2
  | |- keeps_names (bind _ _) => apply names_bind; [|intros ?]
  | |- keeps_names (if ?b then _ else _) => destruct b
  | |- keeps_names (metric _) => apply names_metric
  | |- keeps_names (metric_add _ _) => apply names_add
  | |- keeps_names _ => by intros ? ? ?
  end.
Lemma names_admit : keeps_names (admit_request (C:=C) (R:=R)).
Proof. unfold admit_request. apply names_bind; [by intros ? ? ?|intros l]. names. Qed.
Lemma names_release : keeps_names (release_request (C:=C) (R:=R)).
Proof. unfold release_request. names. Qed.
Lemma names_queue : keeps_names (queue_request (C:=C) (R:=R)).
Proof. unfold queue_request. apply names_bind; [by intros ? ? ?|intros l]. names. Qed.
Lemma names_release_queued : keeps_names (release_queued_request (C:=C) (R:=R)).
Proof. unfold release_queued_request. apply names_bind; [by intros ? ? ?|intros l]. names. Qed.
Lemma names_admit_upstream : keeps_names (admit_upstream (C:=C) (R:=R)).
Proof. unfold admit_upstream. apply names_bind; [by intros ? ? ?|intros l]. names. Qed.
Lemma names_release_upstream : keeps_names (release_upstream (C:=C) (R:=R)).
Proof. unfold release_upstream. names. Qed.
Lemma names_reserve a : keeps_names (reserve_buffered (C:=C) (R:=R) a).
Proof. unfold reserve_buffered. destruct (a <? 0); [by intros ? ? ?|]. apply names_bind; [by intros ? ? ?|intros l]. names. Qed.
Lemma names_release_buffered a : keeps_names (release_buffered (C:=C) (R:=R) a).
Proof. unfold release_buffered. names. Qed.
End names.

(** The gauges of the connection are four of the five the lifecycle keeps within limits. *)
Definition life_gauges {C R} (l : lifecycle C R) (r q u b : Z) : Prop :=
  (exists c, gauged l (Gauges (l_state l) c r q u b)) /\ Forall (fun n => is_Some (metrics l !! n)) connection_counters.

(** A call of the admission machine that neither admits a connection nor changes the state. *)
Definition inner (op : adm_op) : Prop :=
  match op with
  | AdmitRequest | ReleaseRequest | QueueRequest | ReleaseQueuedRequest | AdmitUpstream | ReleaseUpstream
  | ReserveBuffered _ | ReleaseBuffered _ => True
  | _ => False
  end.
Lemma keeps_counters {A C R} (m : M (lifecycle C R) A) l ns : keeps_names m ->
  Forall (fun n => is_Some (metrics l !! n)) ns -> Forall (fun n => is_Some (metrics (snd (m l)) !! n)) ns.
Proof. intros Hm Hn. eapply Forall_impl; [exact Hn|]. intros n. by apply Hm. Qed.
Lemma life_call {C R} op (l : lifecycle C R) r q u b :
  inner op -> keeps_names (adm_call (C:=C) (R:=R) op) -> life_gauges l r q u b ->
  exists c, let e := gauge_step (limits l) op (Gauges (l_state l) c r q u b) in
    fst (adm_call op l) = fst e /\
    life_gauges (snd (adm_call op l)) (gs_r (snd e)) (gs_q (snd e)) (gs_u (snd e)) (gs_b (snd e)).
Proof.
  intros Hop Hk ((c & Hg) & Hn). exists c. destruct (adm_call_refines op l _ Hg) as (E1 & Hg' & _).
  cbv zeta. split; [done|]. split; [|by apply keeps_counters]. pose proof Hg' as [Hs' _].
  assert (gs_state (snd (gauge_step (limits l) op (Gauges (l_state l) c r q u b))) = l_state l /\
          gs_c (snd (gauge_step (limits l) op (Gauges (l_state l) c r q u b))) = c) as (Es & Ec).
  { destruct op; try done; cbn [gauge_step]; repeat case_match; done. }
  destruct (gauge_step (limits l) op _) as [x [st c' r' q' u' b']]. cbn [fst snd gs_state gs_c gs_u gs_r gs_q gs_b] in *.
  exists c. rewrite Hs', Es. by rewrite Es, Ec in Hg'.
Qed.

(** The calls that answer, and those that only act. *)
Definition counts := (Z * Z * Z * Z)%type.
Definition counted_life {C R} (l : lifecycle C R) (g : counts) : Prop := let '(r, q, u, b) := g in life_gauges l r q u b.
Lemma life_answers {C R} op (l : lifecycle C R) r q u b (e : counts) : inner op -> keeps_names (adm_call (C:=C) (R:=R) op) -> life_gauges l r q u b ->
  (forall c, exists ok, gauge_step (limits l) op (Gauges (l_state l) c r q u b) =
     (Ok ok, let '(r', q', u', b') := if ok : bool then e else (r, q, u, b) in Gauges (l_state l) c r' q' u' b')) ->
  exists ok l', adm_call op l = (Ok ok, l') /\ counted_life l' (if ok : bool then e else (r, q, u, b)).
Proof.
  intros Hop Hk Hg He. destruct (life_call op l r q u b Hop Hk Hg) as (c & E & Hg'). destruct (He c) as [ok Eo].
  rewrite Eo in *. cbn [fst snd] in *. exists ok, (snd (adm_call op l)). split; [rewrite <- E; by destruct (adm_call op l)|].
  destruct ok; [by destruct e as [[[? ?] ?] ?]|done].
Qed.
Lemma life_acts {C R} op (m : M (lifecycle C R) unit) l r q u b r' q' u' b' : inner op -> keeps_names m -> adm_call op = no_result m ->
  life_gauges l r q u b ->
  (forall c, gauge_step (limits l) op (Gauges (l_state l) c r q u b) = (Ok true, Gauges (l_state l) c r' q' u' b')) ->
  exists l', m l = (Ok tt, l') /\ life_gauges l' r' q' u' b'.
Proof.
  intros Hop Hk Em Hg He. destruct (life_call op l r q u b Hop) as (c & E & Hg'); [|done|].
  { rewrite Em. apply names_bind; [done|by intros ? ? ?]. }
  rewrite He in *. cbn [fst snd gs_r gs_q gs_u gs_b] in *. rewrite Em in *. unfold no_result, bind, ret in *.
  destruct (m l) as [[[]|e] l']; [|done]. by exists l'.
Qed.
Lemma life_metric {C R} name (l : lifecycle C R) r q u b : life_gauges l r q u b -> name ∈ connection_counters ->
  exists l', metric_add name 1 l = (Ok tt, l') /\ life_gauges l' r q u b.
Proof.
  intros ((c & Hg) & Hc) Hn. assert (is_Some (metrics l !! name)) as Hsome by (rewrite Forall_forall in Hc; by apply Hc).
  assert (name ∉ [py "connections_active"; py "requests_active"; py "requests_queued"; py "upstream_active"; py "buffered_bytes"]) as Hni.
  { assert (forallb (fun n => negb (str_in n [py "connections_active"; py "requests_active"; py "requests_queued"; py "upstream_active"; py "buffered_bytes"]))
      connection_counters = true) as Hall by (vm_compute; reflexivity).
    rewrite forallb_forall in Hall. specialize (Hall name). rewrite <- list_elem_of_In in Hall. specialize (Hall Hn).
    unfold str_in in Hall. by case_bool_decide. }
  destruct (count_run name 1 l _ Hni Hg Hsome) as (l' & E & Hg' & _ & _).
  exists l'. split; [done|]. pose proof Hg' as [Hs _]. cbn in Hs. split; [exists c; by rewrite Hs|].
  pose proof (keeps_counters _ _ _ (names_add name 1) Hc) as Hc'. by rewrite E in Hc'.
Qed.

#[export] Instance lifecycle_gateway_laws C R : AdmissionLaws (lifecycle C R).
Proof.
  refine {| ConnectionOwners.gauges l r q u b := life_gauges l r q u b |};
    cbn [la_admit_request la_release_request la_queue_request la_release_queued_request la_admit_upstream la_release_upstream
         la_metric_add lifecycle_gateway acc_reserve acc_release lifecycle_accounting].
  - intros l r q u b Hg. destruct (life_answers AdmitRequest l r q u b (r + 1, q, u, b)) as ([] & l' & E & Hg'); try done; [apply names_admit|..].
    + intros c. cbn [gauge_step]. destruct (_ && _); [by exists true|by exists false].
    + by exists true, l'.
    + by exists false, l'.
  - intros l r q u b Hr Hg. apply (life_acts ReleaseRequest release_request l r q u b); try done; [apply names_release|].
    intros c. cbn [gauge_step]. by zdec.
  - intros l r q u b Hg. destruct (life_answers QueueRequest l r q u b (r, q + 1, u, b)) as ([] & l' & E & Hg'); try done; [apply names_queue|..].
    + intros c. cbn [gauge_step]. destruct (_ <? _); [by exists true|by exists false].
    + by exists true, l'.
    + by exists false, l'.
  - intros l r q u b Hr Hg. apply (life_acts ReleaseQueuedRequest release_queued_request l r q u b); try done; [apply names_release_queued|].
    intros c. cbn [gauge_step]. by zdec.
  - intros l r q u b Hg. destruct (life_answers AdmitUpstream l r q u b (r, q, u + 1, b)) as ([] & l' & E & Hg'); try done; [apply names_admit_upstream|..].
    + intros c. cbn [gauge_step]. destruct (_ <? _); [by exists true|by exists false].
    + by exists true, l'.
    + by exists false, l'.
  - intros l r q u b Hr Hg. apply (life_acts ReleaseUpstream release_upstream l r q u b); try done; [apply names_release_upstream|].
    intros c. cbn [gauge_step]. by zdec.
  - intros l r q u b n Hn Hg. destruct (life_answers (ReserveBuffered n) l r q u b (r, q, u, b + n)) as ([] & l' & E & Hg'); try done; [apply names_reserve|..].
    + intros c. cbn [gauge_step]. zdec. destruct (_ <=? _); [by exists true|by exists false].
    + by exists true, l'.
    + by exists false, l'.
  - intros l r q u b n Hn Hg. apply (life_acts (ReleaseBuffered n) (release_buffered n) l r q u b); try done; [apply names_release_buffered|].
    intros c. cbn [gauge_step]. by zdec.
  - intros l r q u b name Hg Hn. by apply life_metric.
Defined.

(** ** The calls of the gateway *)

(** What the connection's virtual thread, its proxy attempt, the control thread and the
    server call on a connection. *)
Inductive conn_call :=
| FeedData (data : bytes) (max_messages : Z)
| ResumeDeferred | DriveLocal | DriveStream
| ConsumeBody (r : nat) | ObserveDownstream (r : nat) | RetireProxy (r : nat)
| CancelProxy (reason : str) | CancelStream (reason : str) | CancelAndJoinLocal (reason : str) | AbortCurrent (reason : str)
| QueueBytes (data : bytes) | TakeOutput (limit : Z) | FlushTransport | ReadTransport (limit : Z)
| InputEof | DeadlineTimeout (phase : str) | BeginConnectionDrain | SignalShutdown (reason : str) | Close (reason : str).

Section system.
Import GatewayConnection ConnectionInv.
Context {W P I It L T : Type} `{AdmissionLaws L} `{TlsSession T}.
Context (env : surroundings W P I It) (config : settings).
Abbreviation state := (GatewayConnection.state (W:=W) (P:=P) (I:=I) (It:=It) (L:=L) (T:=T)).
Definition run_call (k : conn_call) : M state unit :=
  match k with
  | FeedData d n => let! _ := feed_data env config d n in ret tt
  | ResumeDeferred => resume_deferred_events env config
  | DriveLocal => let! _ := drive_pending_local env config in ret tt
  | DriveStream => drive_streaming_response env config
  | ConsumeBody r => consume_pending_body_events env config r
  | ObserveDownstream r => let! _ := proxy_observe_downstream env config r in ret tt
  | RetireProxy r => let! _ := retire_proxy config r in ret tt
  | CancelProxy reason => cancel_pending_proxy reason
  | CancelStream reason => cancel_pending_stream reason
  | CancelAndJoinLocal reason => cancel_and_join_pending_local env reason
  | AbortCurrent reason => abort_current_request reason
  | QueueBytes d => queue_bytes env config d
  | TakeOutput n => let! _ := take_output env config n in ret tt
  | FlushTransport => let! _ := flush_transport env config in ret tt
  | ReadTransport n => let! _ := read_transport env n in ret tt
  | InputEof => input_eof env config
  | DeadlineTimeout phase => deadline_timeout env config phase
  | BeginConnectionDrain => begin_drain
  | SignalShutdown reason => signal_owner_shutdown env reason
  | Close reason => close env reason
  end.

(** Runs: a new connection, its calls, whatever they return or raise, and in between any
    change of the world outside, of the TLS session and of the shares of the gauges that
    other connections have. *)
Inductive reached : base -> state -> Prop :=
| reached_new o c b h l x w fd tls :
    init config fd tls = Ok (c, b) -> heap_ok h no_ext -> base_ok o ->
    ConnectionOwners.gauges l (b_requests o) (b_queued o) (b_upstream o) (b_bytes o) ->
    reached o (State c [] (Heap [] []) (b, h) l x w)
| reached_call o t k : reached o t -> reached o (snd (run_call k t))
| reached_outside o t o' l x w : reached o t -> base_ok o' ->
    ConnectionOwners.gauges l (b_requests o' + admissions (s_conn t)) (b_queued o' + heads (deferred_events (s_conn t)))
      (b_upstream o') (b_bytes o' + queued_bytes (fst (s_output t))) ->
    reached o' (State (s_conn t) (s_requests t) (s_bodies t) (s_output t) l x w).

(** The hooks only observe. *)
Definition polite : Prop := forall h w a, fst (snd (o_hook env h w)) = Ok a -> a = None.

Lemma inv_new o (c : conn P I It) b h l (x : T) (w : W) fd tls :
  init config fd tls = Ok (c, b) -> heap_ok h no_ext ->
  ConnectionOwners.gauges l (b_requests o) (b_queued o) (b_upstream o) (b_bytes o) ->
  inv o no_frame (State c [] (Heap [] []) (b, h) l x w).
Proof.
  unfold init. intros (codec & Ec & (output & Eo & E)%rbind_Ok)%rbind_Ok Hh Hg. injection E as <- <-.
  destruct (init_ok _ _ _ _ _ _ Ec) as [Hc _]. destruct (init_refines _ _ _ _ _ h no_ext Hh Eo) as [Hr _].
  pose proof (refines_own _ _ _ _ _ Hr) as El.
  assert (out_is (output, h) (Fifo [] false false)) as Ho by (unfold out_is; cbn [fst snd]; by rewrite <- El).
  split; cbn; try done.
  - replace (queued_bytes output) with 0 by (symmetry; apply (out_len _ _ Ho)). by rewrite !Z.add_0_r.
  - exists (Fifo [] false false). split; [done|]. by intros [?|[? ?]].
  - split; [apply heap_ok_empty|apply NoDup_nil_2|done|done|done].
  - split; [done|done|cbn; lia].
Qed.

Lemma inv_outside o o' (t : state) l (x : T) (w : W) : inv o no_frame t ->
  ConnectionOwners.gauges l (b_requests o' + admissions (s_conn t)) (b_queued o' + heads (deferred_events (s_conn t)))
    (b_upstream o') (b_bytes o' + queued_bytes (fst (s_output t))) ->
  inv o' no_frame (State (s_conn t) (s_requests t) (s_bodies t) (s_output t) l x w).
Proof. intros [] Hg. split; cbn; try done. by rewrite !Z.add_0_r. Qed.

(** Every call keeps the invariant, and a closed connection stays closed. *)
Lemma call_keeps o k (t : state) : base_ok o -> polite -> inv o no_frame t ->
  inv o no_frame (snd (run_call k t)) /\ (c_closed (s_conn t) = true -> c_closed (s_conn (snd (run_call k t))) = true).
Proof.
  intros Hb Hp Hi.
  assert (forall m : M state unit, wp m (fun _ t' => inv o no_frame t' /\ (c_closed (s_conn t) = true -> c_closed (s_conn t') = true))
    (fun _ t' => inv o no_frame t' /\ (c_closed (s_conn t) = true -> c_closed (s_conn t') = true)) t ->
    inv o no_frame (snd (m t)) /\ (c_closed (s_conn t) = true -> c_closed (s_conn (snd (m t))) = true)) as Hw.
  { intros m Hm. unfold wp in Hm. by destruct (m t) as [[?|?] ?]. }
  assert (forall m : M state unit, stays (L:=L) o m -> inv o no_frame (snd (m t)) /\ (c_closed (s_conn t) = true -> c_closed (s_conn (snd (m t))) = true)) as Hs.
  { intros m Hm. apply Hw. eapply wp_mono; [| |by apply Hm]; intros ? t' [? ->]; done. }
  assert (forall A (m : M state A), stays (L:=L) o m -> stays (L:=L) o (let! _ := m in ret tt)) as Hthen.
  { intros A m Hm. apply stays_bind; [exact Hm|]. intros a. apply stays_quiet, quiet_ret. }
  destruct k; cbn [run_call];
    [apply Hs, Hthen, stays_feed_data|apply Hs, stays_resume|apply Hs, Hthen, stays_drive_local|apply Hs, stays_drive_stream
    |apply Hs, stays_consume|apply Hs, Hthen, stays_observe|apply Hs, Hthen, stays_retire_proxy
    |apply Hs, stays_cancel_proxy|apply Hs, stays_cancel_stream|apply Hs, stays_cancel_and_join|apply Hs, stays_abort
    |apply Hs, stays_quiet, quiet_queue_bytes|apply Hs, Hthen, stays_quiet, quiet_take_output|apply Hs, Hthen, stays_flush
    |apply Hs, Hthen, stays_quiet, quiet_read_transport|apply Hs, stays_input_eof|apply Hs, stays_deadline
    |apply Hs, stays_quiet, quiet_begin_drain|apply Hs, stays_quiet, quiet_signal_owner_shutdown|]; try done.
  apply Hw. eapply wp_mono; [| |by apply close_conn_spec]; by intros ? t' (? & ? & _).
Qed.

Lemma one_admission (c : conn P I It) : conn_ok c -> admissions c <= 1.
Proof.
  intros Hc. pose proof (one_pending _ Hc) as H1p. destruct Hc as [Ha _ _]. unfold admissions, is_pending, one in *.
  destruct (current_admitted c); [destruct (Ha eq_refl) as [_ Hp]|];
    destruct (pending_proxy c), (pending_local c), (pending_stream c) as [s|]; cbn in *; try done; destruct (st_admitted s); lia.
Qed.

Lemma reached_accounted o t : polite -> reached o t -> base_ok o /\ inv o no_frame t.
Proof.
  intros Hp Hr. induction Hr as [o c b h l x w fd tls E Hh Hb Hg|o t k Hr [Hb IH]|o t o' l x w Hr [_ IH] Hb Hg].
  - split; [done|]. by eapply inv_new.
  - split; [done|]. by apply call_keeps.
  - split; [done|]. by eapply inv_outside.
Qed.

(** A closed connection: no output, and nothing held once the handler thread is joined. *)
Lemma closed_empty_owner o (t : state) : inv o no_frame t -> c_closed (s_conn t) = true ->
  queued_bytes (fst (s_output t)) = 0 /\
  (pending_local (s_conn t) = None ->
    ConnectionOwners.gauges (s_life t) (b_requests o) (b_queued o) (b_upstream o) (b_bytes o) /\
    forall i x, s_requests t !! i = Some x -> bs_closed (ro_body x) = true).
Proof.
  intros Hi Hcl. pose proof Hi as [Hg (f & Ho & Hs) Hm _ _ _ Hc Hem _].
  cbn [no_frame f_requests f_queued f_upstream f_reserved f_open f_events app] in *. rewrite !Z.add_0_r in Hg.
  destruct (Hs (or_intror (conj Hcl eq_refl))) as [_ Hb].
  assert (queued_bytes (fst (s_output t)) = 0) as Hz by (rewrite (out_len _ _ Ho), Hb; done). split; [exact Hz|].
  intros Hl. destruct (Hem Hcl eq_refl) as (E1 & E2 & E3 & E4). rewrite Hz, E4 in Hg.
  assert (owned (s_conn t) = [] /\ admissions (s_conn t) = 0) as [Eo Ea].
  { unfold owned, admissions. rewrite E1, E2, Hl, E3. split; [done|].
    destruct (current_admitted (s_conn t)) eqn:Ea; [|done]. destruct (co_admitted _ Hc Ea) as [[? ?] _]. congruence. }
  split; [rewrite Ea in Hg; cbn in Hg; by rewrite !Z.add_0_r in Hg|].
  intros i x Hx. destruct (mm_open _ _ _ _ Hm i x Hx) as [Hin|]; [|done]. rewrite Eo in Hin. by apply elem_of_nil in Hin.
Qed.

(** C7: a connection is accounted for.  Whatever the application, the hooks, the socket and
    the TLS session do, after any sequence of calls the gateway's gauges count for this
    connection exactly the admissions it holds, the request heads it has deferred and the
    bytes it has buffered; at most one admission is held; every body it does not answer
    for is closed.  Once closed, a connection has no output and, when its handler thread
    has been joined, nothing is counted for it and every body is closed. *)
Theorem connection_accounted o t : polite -> reached o t ->
  let c := s_conn t in
  ConnectionOwners.gauges (s_life t) (b_requests o + admissions c) (b_queued o + heads (deferred_events c)) (b_upstream o)
    (b_bytes o + queued_bytes (fst (s_output t))) /\
  0 <= admissions c <= 1 /\
  (forall i x, s_requests t !! i = Some x -> i ∈ owned c \/ bs_closed (ro_body x) = true) /\
  (c_closed c = true -> queued_bytes (fst (s_output t)) = 0 /\
     (pending_local c = None ->
      ConnectionOwners.gauges (s_life t) (b_requests o) (b_queued o) (b_upstream o) (b_bytes o) /\
      forall i x, s_requests t !! i = Some x -> bs_closed (ro_body x) = true)).
Proof.
  intros Hp Hr. cbv zeta. destruct (reached_accounted o t Hp Hr) as [_ Hi]. pose proof Hi as [Hg _ Hm _ _ _ Hc _ _].
  cbn [no_frame f_requests f_queued f_upstream f_reserved f_open f_events app] in *. rewrite !Z.add_0_r in Hg.
  split_and!; [done|by apply admissions_nonneg|by apply one_admission| |by apply closed_empty_owner].
  intros i x Hx. apply (mm_open _ _ _ _ Hm i x Hx).
Qed.
End system.

(** ** Small runs *)

Import GatewayConnection.
(** A socket that takes everything and gives [incoming], an application that answers 200, proxies what
    [proxied] says, and hooks that may ask to close. *)
Definition quiet_call {A} (a : A) : outside unit A := fun w => ([], (Ok a, w)).
Definition sample_env (proxied : bool) (incoming : bytes) (ask : hook -> option str) : surroundings unit unit unit unit := {|
  o_transport := true;
  o_local_body_streaming := false;
  o_client_ip := py "10.0.0.1";
  o_now_ms := quiet_call 5;
  o_read _ _ := quiet_call (PCC_SOCKET_PROGRESS, incoming);
  o_write _ d := quiet_call (PCC_SOCKET_PROGRESS, len d);
  o_shutdown _ := quiet_call tt;
  o_close _ := quiet_call tt;
  o_dispatch_proxy_head _ _ := quiet_call (if proxied then Some tt else None);
  o_dispatch _ _ := quiet_call (AResponse (Response 200 (inl (py "hi")) [] false false));
  o_hook h := quiet_call (ask h);
  o_spawn _ := quiet_call 1;
  o_thread_cancel _ := quiet_call tt;
  o_thread_outcome _ := quiet_call OutcomeReturned;
  o_thread_join _ := quiet_call AOther;
  o_iter _ := quiet_call tt;
  o_next _ := quiet_call NextStop;
  o_bytes _ := quiet_call [];
  o_wait _ _ _ := quiet_call tt;
  o_yield := quiet_call tt;
  o_sleep _ := quiet_call tt;
|}.
Definition no_ask : hook -> option str := fun _ => None.
Definition sample_settings : settings := Settings default_http1 default_buffers 100 5000 10000 3000.
Definition sample_life (queue : Z) : lifecycle unit unit :=
  set_l_state STATE_RUNNING (Lifecycle.init tt (AdmissionLimits 4 4 queue 4 100000)).
#[export] Instance no_session : TlsSession unit := {|
  ts_read _ _ _ _ := ret (plain TLS_CLOSED);
  ts_write _ _ _ _ := ret (plain TLS_CLOSED);
  ts_cancel := ret (plain TLS_CLOSED);
  ts_close := ret (plain TLS_CLOSED);
  ts_handshake _ _ := ret (plain TLS_CLOSED);
  ts_close_notify _ _ := ret (plain TLS_CLOSED);
  ts_output _ _ := [];
  ts_alpn _ := [];
  ts_handshake_complete _ := false;
  ts_failed _ := false;
  ts_released _ := false;
|}.

Definition sample_start (queue : Z) : option (GatewayConnection.state (W:=unit) (P:=unit) (I:=unit) (It:=unit) (L:=lifecycle unit unit) (T:=unit)) :=
  match GatewayConnection.init sample_settings 7 false with
  | Ok (c, b) => Some (State c [] (Heap [] []) (b, Heap [] []) (sample_life queue) tt tt)
  | Raise _ => None
  end.
Definition runs (env : surroundings unit unit unit unit) (queue : Z) (ks : list conn_call) :=
  option_map (fold_left (fun t k => snd (run_call env sample_settings k t)) ks) (sample_start queue).
Definition get_a : bytes := py "GET /a HTTP/1.1" ++ CRLF ++ py "Host: x" ++ CRLF2.
(** Active and queued requests, buffered bytes. *)
Definition counted (t : GatewayConnection.state (W:=unit) (P:=unit) (I:=unit) (It:=unit) (L:=lifecycle unit unit) (T:=unit)) :=
  let m := metrics (s_life t) in (m !! py "requests_active", m !! py "requests_queued", m !! py "buffered_bytes").

Definition post_b : bytes := py "POST /b HTTP/1.1" ++ CRLF ++ py "Host: x" ++ CRLF ++ py "Content-Length: 5" ++ CRLF2.

Example request_answered :
  option_map (fun t => (requests_completed (s_conn t), counted t)) (runs (sample_env false [] no_ask) 4 [FeedData get_a 0])
  = Some (1, (Some 0, Some 0, Some 40)).
Proof. vm_compute. reflexivity. Qed.

(** The queue of requests is full while a proxy plan is pending: the connection will close
    without a byte of output, and the plan is told that a response is on its way. *)
Example committed_without_response :
  option_map (fun t => let '(r, t') := proxy_observe_downstream (sample_env true get_a no_ask) sample_settings 0 t in
      (r, queued_bytes (fst (s_output t')), close_after_flush (s_conn t'), bool_decide (is_Some (pending_proxy (s_conn t'))), counted t'))
    (runs (sample_env true get_a no_ask) 1 [FeedData get_a 0; ObserveDownstream 0])
  = Some (Ok PROXY_DOWNSTREAM_RESPONSE_COMMITTED, 0, true, true, (Some 1, Some 1, Some 0)).
Proof. vm_compute. reflexivity. Qed.

Definition closes_at (h : hook) : hook -> option str := fun h' =>
  match h, h' with
  | HookRequestStarted _, HookRequestStarted _ | HookRequestFinished _ _, HookRequestFinished _ _ => Some (py "hook-close")
  | _, _ => None
  end.
(** A hook closes the connection when a request starts: its admission is given back, the
    plan is published all the same, and gives it back again. *)
Example closed_at_start :
  option_map (fun t => let '(r, t') := retire_proxy sample_settings 0 t in
      (c_closed (s_conn t), bool_decide (is_Some (pending_proxy (s_conn t))), counted t, r))
    (runs (sample_env true [] (closes_at (HookRequestStarted 0))) 4 [FeedData get_a 0])
  = Some (true, true, (Some 0, Some 0, Some 0), Ok (Some (RuntimeError (py "request admission released more than once")))).
Proof. vm_compute. reflexivity. Qed.

(** A hook closes the connection when a request is finished: the next pipelined head is
    admitted on the closed connection, and nothing gives it back. *)
Example closed_at_end :
  option_map (fun t => (c_closed (s_conn t), current_request (s_conn t), counted t))
    (runs (sample_env false [] (closes_at (HookRequestFinished 0 200))) 4 [FeedData (get_a ++ post_b) 0; Close (py "connection done")])
  = Some (true, Some 1%nat, (Some 1, Some 0, Some 0)).
Proof. vm_compute. reflexivity. Qed.

Lemma sample_gauges queue : 0 <= queue -> ConnectionOwners.gauges (sample_life queue) 0 0 0 0.
Proof.
  intros Hq. cbn. split; [exists 0|repeat constructor; vm_compute; by eexists]. split; [done|].
  split; [split; vm_compute; try reflexivity; by eexists|done|]. cbn. unfold within. cbn. lia.
Qed.

(** A request is answered, then the connection is closed. *)
Lemma connection_accounted_witness :
  match runs (sample_env false [] no_ask) 4 [FeedData get_a 0; Close (py "done")] with
  | Some t => length (s_requests t) = 1%nat /\ ConnectionOwners.gauges (s_life t) 0 0 0 0 /\
      forall i x, s_requests t !! i = Some x -> bs_closed (ro_body x) = true
  | None => False
  end.
Proof.
  unfold runs, sample_start. destruct (GatewayConnection.init _ _ _) as [[c b]|e] eqn:E; [|vm_compute in E; discriminate E].
  cbn [option_map fold_left]. set (t0 := State _ _ _ _ _ _ _).
  set (t := snd (run_call _ _ (Close _) _)).
  assert (reached (sample_env false [] no_ask) sample_settings (Base 0 0 0 0) t) as Hr.
  { apply reached_call, reached_call, (reached_new _ _ _ c b (Heap [] []) _ tt tt 7 false); [exact E|apply heap_ok_empty|by split_and!|].
    apply sample_gauges. lia. }
  assert (length (s_requests t) = 1%nat /\ c_closed (s_conn t) = true /\ pending_local (s_conn t) = None) as (Hl & Hc & Hp).
  { vm_compute in E. injection E as <- <-. vm_compute. split_and!; reflexivity. }
  split; [exact Hl|]. destruct (connection_accounted (sample_env false [] no_ask) sample_settings (Base 0 0 0 0) t) as (_ & _ & _ & Hcl); [|exact Hr|].
  - intros h w a Ea. cbn in Ea. injection Ea as <-. reflexivity.
  - destruct (Hcl Hc) as [_ H]. destruct (H Hp) as [Hg Hb]. split; [exact Hg|exact Hb].
Defined.

