(* ===== verification/ConnectionClosing.v ===== *)
(** * A connection that is to close takes no further request

    A protocol error, the last request of a connection, a drain or a timeout mark the
    connection [close_after_flush].  Whatever is called afterwards, whatever the hooks do
    (closing the connection included), the mark stays and no request is begun: bytes behind
    a rejected head are never read as requests.  A call [lasts] when it keeps the mark and
    begins no request on a marked connection. *)

From S2P Require Import Prelude PyStr Buffer Http1 Http1Decode Http1Feed Http1Spec Models Config.
From S2P Require Import Lifecycle ProxyExchange ProxyExchangeSpec Tls Connection ConnectionOwners.
From S2P Require Import ConnectionSpec ConnectionSystem.
#[local] Open Scope Z_scope.

Section closing.
Import GatewayConnection.
Context {W P I It L T : Type} `{GatewayAdmission L} `{TlsSession T}.
Context (env : surroundings W P I It) (config : settings).
Abbreviation state := (GatewayConnection.state (W:=W) (P:=P) (I:=I) (It:=It) (L:=L) (T:=T)).
Abbreviation C := (M state).

Definition marked (n : nat) (t : state) : Prop := close_after_flush (s_conn t) = true /\ length (s_requests t) = n.
Definition lasts {A} (m : C A) : Prop := forall n t, marked n t -> marked n (snd (m t)).

Lemma lasts_ret {A} (a : A) : lasts (ret a).
Proof. by intros n t Ht. Qed.
Lemma lasts_raise {A} e : lasts (@raise _ A e).
Proof. by intros n t Ht. Qed.
Lemma lasts_lift {A} (r : result A) : lasts (lift r).
Proof. intros n t Ht. by destruct r. Qed.
Lemma lasts_self : lasts self.
Proof. by intros n t Ht. Qed.
Lemma lasts_state {A} (g : state -> A) : lasts (fun t => (Ok (g t), t)).
Proof. by intros n t Ht. Qed.
Lemma lasts_bind {A B} (m : C A) (k : A -> C B) : lasts m -> (forall a, lasts (k a)) -> lasts (bind m k).
Proof. intros Hm Hk n t Ht. unfold bind. specialize (Hm n t Ht). destruct (m t) as [[a|e] t']; [by apply Hk|done]. Qed.
Lemma lasts_try {A} (m : C A) h : lasts m -> (forall e, lasts (h e)) -> lasts (try_except m h).
Proof. intros Hm Hh n t Ht. unfold try_except. specialize (Hm n t Ht). destruct (m t) as [[a|e] t']; [done|by apply Hh]. Qed.
Lemma lasts_finally {A} (m : C A) f : lasts m -> lasts f -> lasts (try_finally m f).
Proof.
  intros Hm Hf. apply lasts_bind; [|intros r; apply lasts_bind; [done|intros; apply lasts_lift]].
  apply lasts_try; [|intros; apply lasts_ret]. apply lasts_bind; [done|intros; apply lasts_ret].
Qed.
Lemma lasts_attempt (m : C unit) : lasts m -> lasts (attempt m).
Proof. intros Hm. apply lasts_try; [|intros; apply lasts_ret]. apply lasts_bind; [done|intros; apply lasts_ret]. Qed.
Lemma lasts_capture {A} (m : C A) : lasts m -> lasts (capture m).
Proof. intros Hm. apply lasts_try; [|intros; apply lasts_ret]. apply lasts_bind; [done|intros; apply lasts_ret]. Qed.
Lemma lasts_attempt_all ms : Forall (@lasts unit) ms -> lasts (attempt_all ms).
Proof.
  induction 1 as [|m ms Hm Hms IH]; [apply lasts_ret|]. cbn [attempt_all].
  apply lasts_bind; [by apply lasts_attempt|]. intros e. apply lasts_bind; [done|]. intros; apply lasts_ret.
Qed.
Lemma lasts_reraise o : lasts (reraise o).
Proof. destruct o; [apply lasts_raise|apply lasts_ret]. Qed.
Lemma lasts_upd (f : conn P I It -> conn P I It) :
  (forall c, close_after_flush c = true -> close_after_flush (f c) = true) -> lasts (upd f).
Proof. intros Hf n t [Hc Hn]. split; [by apply Hf|done]. Qed.
Lemma lasts_zoom {S A} (proj : state -> S) inj (m : M S A) :
  (forall x t, close_after_flush (s_conn (inj x t)) = close_after_flush (s_conn t) /\ s_requests (inj x t) = s_requests t) ->
  lasts (zoom proj inj m).
Proof. intros Hi n t [Hc Hn]. unfold zoom. destruct (m _) as [a x]. cbn. destruct (Hi x t) as [E1 E2]. unfold marked. by rewrite E1, E2. Qed.
Lemma lasts_on_body {A} r (m : M (body_stream * heap) A) : lasts (on_body r m).
Proof.
  intros n t [Hc Hn]. unfold on_body. destruct (_ !! _); [|done]. destruct (m _) as [a [b h]]. split; [done|]. cbn. by rewrite length_insert.
Qed.
Lemma lasts_get_request r : lasts (get_request r).
Proof. intros n t Ht. unfold get_request. by destruct (_ !! _). Qed.
Lemma lasts_put_request r x : lasts (put_request r x).
Proof. intros n t [Hc Hn]. split; [done|]. cbn. by rewrite length_insert. Qed.

Create HintDb lasts.
Hint Resolve lasts_ret lasts_raise lasts_lift lasts_self lasts_state lasts_reraise lasts_on_body
  lasts_get_request lasts_put_request : lasts.

(** Decomposes a method into its calls. *)
Ltac lasting :=
  repeat lazymatch goal with
  | |- lasts (bind _ _) => apply lasts_bind; [|intros ?]
  | |- lasts (try_except _ _) => apply lasts_try; [|intros ?]
  | |- lasts (try_finally _ _) => apply lasts_finally
  | |- lasts (capture _) => apply lasts_capture
  | |- lasts (attempt _) => apply lasts_attempt
  | |- lasts (attempt_all _) => apply lasts_attempt_all
  | |- lasts (upd _) => apply lasts_upd; intros ? ?; cbn beta; repeat case_match; done
  | |- lasts (on_heap _) => by apply lasts_zoom
  | |- lasts (on_output _) => by apply lasts_zoom
  | |- lasts (on_life _) => by apply lasts_zoom
  | |- lasts (on_tls _) => by apply lasts_zoom
  | |- lasts (on_codec _) => by apply lasts_zoom
  | |- lasts (fun t => (Ok _, t)) => apply lasts_state
  | |- lasts (if ?b then _ else _) => destruct b
  | |- lasts (match ?x with _ => _ end) => destruct x
  | |- Forall _ (_ ++ _) => apply Forall_app; split
  | |- Forall _ (_ :: _) => apply Forall_cons; split
  | |- Forall _ [] => constructor
  | |- Forall _ (if ?b then _ else _) => destruct b
  | |- lasts _ => solve [auto with lasts nocore]
  end.
(** The same after unfolding. *)
Tactic Notation "lasting_of" reference(d) := unfold d; cbv zeta; lasting.

Lemma lasts_cancel_request r reason : lasts (cancel_request r reason).
Proof. lasting_of cancel_request. Qed.
Hint Resolve lasts_cancel_request : lasts.
Lemma lasts_outside {A} (m : outside W A) : lasts (outside_call m).
Proof.
  intros n t Ht. unfold outside_call. destruct (m _) as [es [r w]]. cbn [snd].
  assert (marked n (set_world w t)) as Hw by done. clear Ht. revert Hw. generalize (set_world w t). clear -H H0 H1.
  induction es as [|e es IH]; intros t Ht; [done|]. cbn [fold_left]. apply IH. destruct e; [by apply lasts_on_body|by apply lasts_cancel_request].
Qed.
Hint Resolve lasts_outside : lasts.
Lemma lasts_release_request : lasts release_request. Proof. lasting_of release_request. Qed.
Lemma lasts_close_body r : lasts (close_body r). Proof. lasting_of close_body. Qed.
Lemma lasts_cancel_body r : lasts (cancel_body r). Proof. lasting_of cancel_body. Qed.
Lemma lasts_now : lasts (now_ms env). Proof. lasting_of now_ms. Qed.
Lemma lasts_transport {A} (m : outside W A) : lasts (transport env m). Proof. unfold transport. lasting. Qed.
Lemma lasts_len : lasts output_len. Proof. lasting_of output_len. Qed.
Lemma lasts_running : lasts lifecycle_running. Proof. lasting_of lifecycle_running. Qed.
Hint Resolve lasts_release_request lasts_close_body lasts_cancel_body lasts_now lasts_transport lasts_len lasts_running : lasts.
Lemma lasts_abort reason : lasts (abort_current_request reason). Proof. lasting_of abort_current_request. Qed.
Lemma lasts_signal reason : lasts (signal_pending_local env reason). Proof. lasting_of signal_pending_local. Qed.
Lemma lasts_signal_owner reason : lasts (signal_owner_shutdown env reason).
Proof.
  unfold signal_owner_shutdown. apply lasts_bind; [lasting|intros c]. apply lasts_bind; [|intros e; lasting].
  apply lasts_attempt_all, Forall_concat, Forall_map, Forall_true. intros r. cbn. lasting.
Qed.
Lemma lasts_cancel_proxy reason : lasts (cancel_pending_proxy reason). Proof. lasting_of cancel_pending_proxy. Qed.
Lemma lasts_cancel_stream reason : lasts (cancel_pending_stream reason). Proof. lasting_of cancel_pending_stream. Qed.
Lemma lasts_ledger es q : lasts (release_ledger es q).
Proof. induction es as [|e es IH]; cbn [release_ledger]; [lasting|]. apply lasts_bind; [lasting|intros o]. apply lasts_bind; [exact IH|]. intros [f r]. lasting. Qed.
Hint Resolve lasts_abort lasts_signal lasts_signal_owner lasts_cancel_proxy lasts_cancel_stream lasts_ledger : lasts.
Lemma lasts_release_suffix es q : lasts (release_event_suffix es q). Proof. lasting_of release_event_suffix. Qed.
Hint Resolve lasts_release_suffix : lasts.
Lemma lasts_discard : lasts discard_deferred_events. Proof. lasting_of discard_deferred_events. Qed.
Lemma lasts_close reason : lasts (close env reason). Proof. unfold close, transport_calls. cbv zeta. lasting. Qed.
Hint Resolve lasts_discard lasts_close : lasts.
Lemma lasts_hook h : lasts (call_hook env h). Proof. lasting_of call_hook. Qed.
Hint Resolve lasts_hook : lasts.
Lemma lasts_queue_bytes d : lasts (queue_bytes env config d). Proof. lasting_of queue_bytes. Qed.
Lemma lasts_consume_output n : lasts (consume_output env config n). Proof. lasting_of consume_output. Qed.
Lemma lasts_peek n : lasts (peek_output n). Proof. lasting_of peek_output. Qed.
Hint Resolve lasts_queue_bytes lasts_consume_output lasts_peek : lasts.
Lemma lasts_take_output n : lasts (take_output env config n). Proof. lasting_of take_output. Qed.
Lemma lasts_keep_alive : lasts (response_keep_alive (P:=P) (I:=I)). Proof. lasting_of response_keep_alive. Qed.
Hint Resolve lasts_take_output lasts_keep_alive : lasts.
Lemma lasts_payload m a : lasts (response_payload env m a). Proof. lasting_of response_payload. Qed.
Lemma lasts_request_finished r x : lasts (request_finished env r x). Proof. lasting_of request_finished. Qed.
Lemma lasts_close_if_last : lasts (close_if_last config). Proof. lasting_of close_if_last. Qed.
Lemma lasts_count : lasts count_completed. Proof. lasting_of count_completed. Qed.
Hint Resolve lasts_payload lasts_request_finished lasts_close_if_last lasts_count : lasts.
Lemma lasts_begin_streaming r x b : lasts (begin_streaming_response env config r x b). Proof. lasting_of begin_streaming_response. Qed.
Lemma lasts_complete_streaming : lasts (complete_streaming_response env config). Proof. lasting_of complete_streaming_response. Qed.
Lemma lasts_give_up reason : lasts (give_up_stream reason). Proof. lasting_of give_up_stream. Qed.
Lemma lasts_upd_stream f : lasts (upd_stream f). Proof. lasting_of upd_stream. Qed.
Hint Resolve lasts_begin_streaming lasts_complete_streaming lasts_give_up lasts_upd_stream : lasts.
Lemma lasts_queue_piece n : lasts (queue_piece env config n). Proof. lasting_of queue_piece. Qed.
Hint Resolve lasts_queue_piece : lasts.
Lemma lasts_drive_streaming : lasts (drive_streaming_response env config). Proof. lasting_of drive_streaming_response. Qed.
Lemma lasts_overflow m e : lasts (on_overflow env config m e). Proof. lasting_of on_overflow. Qed.
Lemma lasts_publish r m x : lasts (publish_response env config r m x). Proof. lasting_of publish_response. Qed.
Lemma lasts_conclude r o : lasts (conclude_local config r o). Proof. lasting_of conclude_local. Qed.
Hint Resolve lasts_drive_streaming lasts_overflow lasts_publish lasts_conclude : lasts.
Lemma lasts_complete_local r a : lasts (complete_local_handler_response env config r a). Proof. lasting_of complete_local_handler_response. Qed.
Lemma lasts_timeout r : lasts (request_timeout env r). Proof. lasting_of request_timeout. Qed.
Hint Resolve lasts_complete_local lasts_timeout : lasts.
Lemma lasts_dispatch r : lasts (dispatch_request env r). Proof. lasting_of dispatch_request. Qed.
Hint Resolve lasts_dispatch : lasts.
Lemma lasts_answer r b : lasts (answer_request env config r b). Proof. lasting_of answer_request. Qed.
Lemma lasts_retire r b : lasts (retire_unless_pending r b). Proof. lasting_of retire_unless_pending. Qed.
Hint Resolve lasts_answer lasts_retire : lasts.
Lemma lasts_finish : lasts (finish_request env config). Proof. lasting_of finish_request. Qed.
Lemma lasts_release_chunk b : lasts (release_chunk b). Proof. lasting_of release_chunk. Qed.
Hint Resolve lasts_finish lasts_release_chunk : lasts.

(** Events other than a request head begin no request. *)
Lemma lasts_handle e : is_head e = false -> lasts (handle_event env config e).
Proof. destruct e as [h|b|tr]; [done| |]; intros _; unfold handle_event; lasting. Qed.
Lemma lasts_consume_events r es : forall b, lasts (consume_events env config r b es).
Proof.
  induction es as [|e es IH]; intros b; cbn [consume_events]; [lasting|].
  destruct (negb b && negb (is_head e)) eqn:Hh; [|unfold defer; lasting].
  apply andb_prop in Hh as [_ Hh]. apply negb_true_iff in Hh. apply lasts_bind; [by apply lasts_capture, lasts_handle|].
  intros [a|x]; lasting.
Qed.
Hint Resolve lasts_consume_events : lasts.
Lemma lasts_consume r : lasts (consume_pending_body_events env config r). Proof. lasting_of consume_pending_body_events. Qed.
(** On a marked connection the deferred events are dropped. *)
Lemma lasts_resume_events es : lasts (resume_events env config es).
Proof.
  intros n t Ht. destruct es as [|e es]; [done|]. cbn [resume_events]. unfold bind at 1, self. cbn beta iota. destruct Ht as [Hc Hn]. rewrite Hc.
  match goal with |- marked n (snd (?m t)) => assert (lasts m) as Hm by lasting end. by apply Hm.
Qed.
Hint Resolve lasts_consume lasts_resume_events : lasts.
Lemma lasts_resume : lasts (resume_deferred_events env config). Proof. lasting_of resume_deferred_events. Qed.
Lemma lasts_feed d n : lasts (feed_data env config d n).
Proof.
  intros k t Ht. unfold feed_data, bind at 1, self. cbn beta iota. destruct Ht as [Hc Hn]. rewrite Hc, orb_true_r. by split.
Qed.
Lemma lasts_fail e : lasts (fail_http env config e).
Proof. unfold fail_http. destruct (match e with Http1Error s c _ => _ | _ => _ end) as [code status]. lasting. Qed.
Lemma lasts_join thread b : lasts (join_child env thread b). Proof. unfold join_child, thread_join. lasting. Qed.
Hint Resolve lasts_resume lasts_feed lasts_fail lasts_join : lasts.
Lemma lasts_drive_local : lasts (drive_pending_local env config). Proof. unfold drive_pending_local, take_pending_local. cbv zeta. lasting. Qed.
Lemma lasts_cancel_and_join reason : lasts (cancel_and_join_pending_local env reason).
Proof. unfold cancel_and_join_pending_local, take_pending_local, thread_join. lasting. Qed.
Lemma lasts_eof : lasts (input_eof env config). Proof. lasting_of input_eof. Qed.
Lemma lasts_deadline phase : lasts (deadline_timeout env config phase). Proof. lasting_of deadline_timeout. Qed.
Lemma lasts_arm n : lasts (arm_write_deadline config n). Proof. lasting_of arm_write_deadline. Qed.
Lemma lasts_wait r : lasts (wait_for r). Proof. lasting_of wait_for. Qed.
Hint Resolve lasts_drive_local lasts_cancel_and_join lasts_eof lasts_deadline lasts_arm lasts_wait : lasts.
Lemma lasts_write d : lasts (write_transport env config d). Proof. lasting_of write_transport. Qed.
Hint Resolve lasts_write : lasts.
Lemma lasts_flush : lasts (flush_transport env config). Proof. lasting_of flush_transport. Qed.
Lemma lasts_read n : lasts (read_transport env n). Proof. unfold read_transport, read_deadline. lasting. Qed.
Lemma lasts_drain : lasts begin_drain. Proof. lasting_of begin_drain. Qed.
Hint Resolve lasts_flush lasts_read lasts_drain : lasts.
Lemma lasts_observe r : lasts (proxy_observe_downstream env config r). Proof. lasting_of proxy_observe_downstream. Qed.
Lemma lasts_retire_proxy r : lasts (retire_proxy config r). Proof. lasting_of retire_proxy. Qed.
Hint Resolve lasts_observe lasts_retire_proxy : lasts.
Lemma lasts_call k : lasts (run_call env config k). Proof. destruct k; cbn [run_call]; lasting. Qed.

(** ** A rejected input marks the connection *)

Lemma bind_Ok {A B} (m : C A) (k : A -> C B) t b t' : bind m k t = (Ok b, t') ->
  exists a t1, m t = (Ok a, t1) /\ k a t1 = (Ok b, t').
Proof. unfold bind. destruct (m t) as [[a|e] t1]; [|done]. by exists a, t1. Qed.
Lemma lasts_marked {A} (m : C A) t r t' : lasts m -> m t = (r, t') -> close_after_flush (s_conn t) = true -> close_after_flush (s_conn t') = true.
Proof. intros Hm E Hc. destruct (Hm (length (s_requests t)) t) as [? _]; [done|]. by rewrite E in *. Qed.

Lemma fail_marks e t t' : fail_http env config e t = (Ok tt, t') -> close_after_flush (s_conn t') = true.
Proof.
  unfold fail_http. destruct (match e with Http1Error s c _ => _ | _ => _ end) as [code status].
  intros (a & t1 & _ & (cleanup & t2 & _ & (u & t3 & Eu & E)%bind_Ok)%bind_Ok)%bind_Ok.
  injection Eu as _ <-. eapply lasts_marked; [|exact E|done]. lasting.
Qed.

(** The events handled are counted from [n] on. *)
Lemma feed_events_count es : forall n t o rest t', 0 <= n -> feed_events env config es n t = (Ok (Ok o, rest), t') -> 0 <= o.
Proof.
  assert (forall m (f : exn -> list (event body_chunk) -> C (result Z * list (event body_chunk))) n t o rest t', 0 <= n ->
    (forall x l t o rest t', f x l t = (Ok (Ok o, rest), t') -> False) ->
    (let! (first_error, rest) := m in match first_error with None => ret (Ok n, []) | Some x => f x rest end) t = (Ok (Ok o, rest), t') -> 0 <= o) as Hrel.
  { intros m f n t o rest t' Hn Hf ([[x|] l] & t1 & _ & E)%bind_Ok; [by apply Hf in E|]. injection E as <- <- <-. done. }
  induction es as [|e es IH]; intros n t o rest t' Hn; cbn [feed_events].
  { intros [= <- <- <-]. done. }
  intros (c & t1 & Ec & E)%bind_Ok. destruct (close_after_flush c).
  { eapply Hrel; [exact Hn| |exact E]. by intros. }
  destruct (is_pending c).
  - apply bind_Ok in E as ([[]|x] & t2 & _ & E); [| |done].
    + apply bind_Ok in E as (u & t3 & _ & E). by eapply IH.
    + apply bind_Ok in E as (u & t3 & _ & E). eapply Hrel; [exact Hn| |exact E]. by intros.
  - apply bind_Ok in E as ([u|x] & t2 & _ & E); [|done]. eapply IH; [|exact E]. lia.
Qed.

Lemma rejected_marks d mx t z t' : feed_data env config d mx t = (Ok z, t') -> z < 0 -> close_after_flush (s_conn t') = true.
Proof.
  unfold feed_data. intros (c & t1 & Ec & E)%bind_Ok Hz. destruct (c_closed c || close_after_flush c); [injection E as <- <-; lia|].
  apply bind_Ok in E as (fed & t2 & _ & E). apply bind_Ok in E as ([o rest] & t3 & Eo & E).
  destruct o as [n|x].
  - injection E as <- <-. exfalso. destruct fed as [es|y]; [|done].
    apply bind_Ok in Eo as ([[m|y] rest'] & t4 & Ee & Eo); [|done]. apply feed_events_count in Ee; [|done].
    apply bind_Ok in Eo as ([a|y] & t5 & _ & Eo); injection Eo; [|done]. intros. subst. lia.
  - apply bind_Ok in E as (u & t4 & _ & E). destruct (is_Http1Error x).
    + apply bind_Ok in E as ([] & t5 & Ef & E). injection E as _ <-. by eapply fail_marks.
    + by apply bind_Ok in E as (? & ? & _ & ?).
Qed.

Definition calls (ks : list conn_call) (t : state) : state := fold_left (fun t k => snd (run_call env config k t)) ks t.
Lemma marked_calls ks : forall n t, marked n t -> marked n (calls ks t).
Proof. induction ks as [|k ks IH]; intros n t Ht; [done|]. by apply IH, lasts_call. Qed.

(** C8: what ends a connection is final.  Once it is marked to close after its output, or
    once [feed_data] has rejected its input, no call begins another request, takes in a
    further byte or clears the mark, whatever the application, the hooks, the socket and
    the session do. *)
Theorem closing_is_final t ks :
  close_after_flush (s_conn t) = true \/
    (exists d mx t0 z, feed_data env config d mx t0 = (Ok z, t) /\ z < 0) ->
  let t' := calls ks t in
  close_after_flush (s_conn t') = true /\ length (s_requests t') = length (s_requests t) /\
  (forall d mx, feed_data env config d mx t' = (Ok 0, t')).
Proof.
  intros Ht. assert (marked (length (s_requests t)) t) as Hm.
  { split; [|done]. destruct Ht as [|(d & mx & t0 & z & E & Hz)]; [done|by eapply rejected_marks]. }
  destruct (marked_calls ks _ _ Hm) as [Hc Hn]. split_and!; [done|done|]. intros d mx.
  unfold feed_data, bind at 1, self. cbn beta iota. by rewrite Hc, orb_true_r.
Qed.
End closing.

Import GatewayConnection.
(** A request with two lengths is refused, the request behind it never read. *)
Definition smuggled : bytes :=
  py "POST / HTTP/1.1" ++ CRLF ++ py "Host: x" ++ CRLF ++ py "Content-Length: 4" ++ CRLF ++ py "Content-Length: 0" ++ CRLF2 ++ get_a.
Lemma closing_is_final_witness :
  let env := sample_env false [] no_ask in
  match sample_start 4 with
  | Some t0 =>
      let t := calls env sample_settings [FeedData get_a 0; ResumeDeferred; FeedData get_a 0]
                 (snd (feed_data env sample_settings smuggled 0 t0)) in
      length (s_requests t) = 0%nat /\ close_after_flush (s_conn t) = true
  | None => False
  end.
Proof.
  cbv zeta.
  assert (match sample_start 4 with
          | Some t0 => let r := feed_data (sample_env false [] no_ask) sample_settings smuggled 0 t0 in
                       (fst r, length (s_requests (snd r))) = (Ok (-1), 0%nat)
          | None => False
          end) as Hrun by (vm_compute; reflexivity).
  destruct (sample_start 4) as [t0|]; [|exact Hrun].
  destruct (feed_data (sample_env false [] no_ask) sample_settings smuggled 0 t0) as [r t1] eqn:E. cbn [fst snd] in *.
  injection Hrun as -> Hn.
  destruct (closing_is_final (sample_env false [] no_ask) sample_settings t1 [FeedData get_a 0; ResumeDeferred; FeedData get_a 0])
    as (Hc & Hl & _).
  - right. exists smuggled, 0, t0, (-1). split; [exact E|reflexivity].
  - rewrite Hl. split; [exact Hn|exact Hc].
Defined.
