(* ===== verification/ConnectionRun.v ===== *)
(** * The loop of one connection ([_run_gateway_connection] of [pcc_gateway/server.py])

    What the virtual thread of a connection runs: the TLS handshake, then passes that flush
    output, drive what is pending, feed what is buffered and read the client, and the
    cleanup that follows however the passes end.  A proxied request runs its attempts; one
    attempt is a parameter here.  A loop takes the number of passes looked at: a run that
    uses them up ends as one whose thread is interrupted there, with an exception.  The
    theorems are in [ConnectionRunSpec]. *)

From S2P Require Import Prelude PyStr Buffer Http1 Models Config Tls Proxy ProxyExchange Connection.
#[local] Open Scope Z_scope.

Module GatewayRun.
Import GatewayConnection.
Section run.
Context {W P I It L T : Type} `{GatewayAdmission L} `{TlsSession T}.
Context (env : surroundings W P I It) (config : settings).
Abbreviation conn := (conn P I It).
Abbreviation state := (GatewayConnection.state (W:=W) (P:=P) (I:=I) (It:=It) (L:=L) (T:=T)).
Abbreviation C := (M state).
(** The specification of a plan, whether its upstream has a pool, and one attempt: the
    status, the failure (none: empty) and whether a response has been committed. *)
Context (plan_spec : P -> proxy_spec) (plan_pooled : P -> bool) (exchange_attempt : P -> nat -> Z -> C (Z * str * bool)).

Definition tls {A} (f : T -> A) : C A := fun t => (Ok (f (s_tls t)), t).
Definition count_metric (name : str) : C unit := on_life (la_metric_add name).
Definition wait_connection_fd (events timeout_ms : Z) : C unit :=
  let! c := self in transport env (o_wait env (fd c) events timeout_ms).

(** ** TLS *)

Definition handshake_failed (error_name : str) : C unit :=
  count_metric (py "tls_handshakes_failed") ;;!
  call_hook env (HookTlsFailed error_name).
Definition tls_interest (r : TlsResult) : Z :=
  if wait_interest r =? TLS_INTEREST_READ then PCC_IO_READ else PCC_IO_WRITE.
Definition wants (r : TlsResult) : bool := (status r =? TLS_WANT_READ) || (status r =? TLS_WANT_WRITE).

Fixpoint handshake_loop (passes : nat) (deadline : Z) : C bool :=
  match passes with
  | O => raise out_of_fuel
  | S passes' =>
      let! c := self in
      let! running := lifecycle_running in
      let! r := if c_closed c || negb running then on_tls ts_cancel
                else let! now := now_ms env in on_tls (ts_handshake now deadline) in
      if status r =? TLS_OK then
        let! alpn := tls ts_alpn in
        if negb (str_in alpn [[]; py "http/1.1"]) then
          handshake_failed (py "alpn") ;;!
          raise (GatewayTransportError (py "TLS selected unsupported ALPN"))
        else
          count_metric (py "tls_handshakes_completed") ;;!
          call_hook env HookTlsCompleted ;;!
          ret true
      else if status r =? TLS_SELECT_SNI then handshake_loop passes' deadline
      else if wants r then
        let! now := now_ms env in
        let remaining := deadline - now in
        if remaining <=? 0 then
          let! r := on_tls (ts_handshake now deadline) in
          handshake_failed (error_name r) ;;!
          ret false
        else
          wait_connection_fd (tls_interest r) remaining ;;!
          handshake_loop passes' deadline
      else if status r =? TLS_CLOSED then handshake_failed (py "peer-closed") ;;! ret false
      else handshake_failed (error_name r) ;;! ret false
  end.
Definition run_tls_handshake (passes : nat) : C bool :=
  let! c := self in
  if negb (has_tls c) then ret true
  else
    let! now := now_ms env in
    let deadline := now + k_tls_handshake_timeout_ms config in
    upd (set_tls_handshake_deadline_ms deadline) ;;!
    count_metric (py "tls_handshakes_started") ;;!
    call_hook env HookTlsStarted ;;!
    handshake_loop passes deadline.

Definition notify_ended (name : str) (graceful : bool) : C unit :=
  count_metric name ;;! call_hook env (HookTlsClosed graceful).
Fixpoint close_notify_loop (passes : nat) (deadline : Z) : C unit :=
  match passes with
  | O => raise out_of_fuel
  | S passes' =>
      let! now := now_ms env in
      let! r := on_tls (ts_close_notify now deadline) in
      if status r =? TLS_CLOSED then notify_ended (py "tls_close_notify_completed") true
      else if wants r then
        let remaining := deadline - now in
        if remaining <=? 0 then notify_ended (py "tls_close_notify_failed") false
        else
          wait_connection_fd (tls_interest r) remaining ;;!
          close_notify_loop passes' deadline
      else notify_ended (py "tls_close_notify_failed") false
  end.
Definition run_tls_close_notify (passes : nat) : C unit :=
  let! c := self in
  let! complete := tls ts_handshake_complete in
  let! bad := tls ts_failed in
  let! gone := tls ts_released in
  if negb (has_tls c) || negb complete || bad || gone then ret tt
  else
    let! now := now_ms env in
    close_notify_loop passes (now + k_tls_close_timeout_ms config).

(** ** A proxied request *)

(** [while attempt <= plan.spec.retry.attempts]: [n] attempts are left, [last] is the
    outcome so far. *)
Fixpoint proxy_attempts (n : nat) (plan : P) (r : nat) (attempt : Z) (outcome : Z * str * bool) : C (Z * str * bool) :=
  match n with
  | O => ret outcome
  | S n' =>
      let! o := exchange_attempt plan r attempt in
      let '(status, failure, committed) := o in
      let committed := committed || str_eqb failure PROXY_DOWNSTREAM_RESPONSE_COMMITTED in
      if bool_decide (failure = []) then ret (status, failure, committed)
      else
        let retry_failure := if str_eqb failure (py "header-timeout") then py "timeout-before-head" else failure in
        let! consumed := on_body r (BodyStream.stream BodyStream.consumed_size) in
        let! x := get_request r in
        if negb (RetryPolicy.allows (retry (plan_spec plan)) (rq_method (ro_request x)) attempt committed retry_failure (consumed =? 0))
        then ret (status, failure, committed)
        else
          count_metric (py "upstream_retries") ;;!
          proxy_attempts n' plan r (attempt + 1) (status, failure, committed)
  end.

(** What the outcome answers to the client; [None]: no response is reported. *)
Definition proxy_conclusion (r : nat) (outcome : Z * str * bool) : C (option (response I)) :=
  let '(status, failure, committed) := outcome in
  if str_eqb failure PROXY_DOWNSTREAM_RESPONSE_COMMITTED then upd (set_close_after_flush true) ;;! ret None
  else if negb (bool_decide (failure = [])) then
    (if str_eqb failure (py "cancelled") then count_metric (py "upstream_cancelled") else ret tt) ;;!
    if negb committed then
      let! x := lift (text_response (py "upstream " ++ failure) (proxy_failure_status failure)) in
      let! q := get_request r in
      let! payload := response_payload env (rq_method (ro_request q)) (AResponse x) in
      queue_bytes env config payload ;;!
      ret (Some x)
    else
      upd (set_close_after_flush true) ;;!
      let! x := lift (Response.init (if status =? 0 then 502 else status) (inl []) [] false) in
      ret (Some x)
  else let! x := lift (Response.init status (inl []) [] false) in ret (Some x).

Definition run_gateway_proxy : C unit :=
  let! c := self in
  match pending_proxy c with
  | None => ret tt
  | Some (plan, r) =>
      let! o := capture (
        let! outcome :=
          if plan_pooled plan
          then proxy_attempts (Z.to_nat (attempts (retry (plan_spec plan)))) plan r 1 (0, py "no-endpoint", false)
          else ret (0, py "no-endpoint", false) in
        let! answered := proxy_conclusion r outcome in
        match answered with Some x => request_finished env r x | None => ret tt end) in
      let! cleanup_error := retire_proxy config r in
      match o with
      | Raise e => raise e
      | Ok _ => reraise cleanup_error
      end
  end.

(** ** One pass *)

Inductive step := Again (reason : str) | Stop (reason : str).

(** Output first: the reason to stop, if any. *)
Definition flush_pass : C (option str) :=
  let! flush := flush_transport env config in
  if flush =? FLUSH_TIMEOUT then ret (Some (py "write-timeout"))
  else if flush =? PCC_SOCKET_WOULD_BLOCK then
    let! now := now_ms env in
    let! c := self in
    wait_connection_fd (io_wait_interest c) (write_deadline_ms c - now) ;;!
    ret None
  else ret None.

(** [wait_writable] of the body: its sections, and the sleep between them. *)
Definition wait_writable (r : nat) (remaining : Z) : C bool :=
  let! o := on_body r (BodyStream.stream (BodyStream.wait_writable remaining)) in
  match o with
  | Returned b => ret b
  | Parked =>
      outside_call (o_sleep env (BodyStream.wait_slice remaining)) ;;!
      on_body r (BodyStream.stream BodyStream.after_sleep)
  end.

(** A request whose handler reads its body; [true]: the pass ends here. *)
Definition local_pass : C bool :=
  let! c := self in
  match pending_local c with
  | None => ret false
  | Some _ =>
      let! driven := drive_pending_local env config in
      if driven then ret true
      else
        let! c := self in
        match pending_local c with
        | None => ret false
        | Some (r, _) =>
            let! now := now_ms env in
            let! x := get_request r in
            let limit := Models.deadline_ms (ro_cancellation x) in
            if limit - now <=? 0 then deadline_timeout env config (py "request") ;;! ret true
            else
              let! writable := wait_writable r (limit - now) in
              if writable then ret false
              else
                let! now := now_ms env in
                (if now >=? limit then deadline_timeout env config (py "request") else outside_call (o_yield env)) ;;!
                ret true
        end
  end.

(** What the decoder has buffered is decoded one request at a time; [true]: it got on. *)
Definition buffered_pass : C bool :=
  let! c := self in
  let before := len (buffer (c_codec c)) in
  if before =? 0 then ret false
  else
    let! handled := feed_data env config [] 1 in
    let! c := self in
    match pending_proxy c with Some (_, r) => consume_pending_body_events env config r | None => ret tt end ;;!
    let! c := self in
    match pending_local c with Some (r, _) => consume_pending_body_events env config r | None => ret tt end ;;!
    let! c := self in
    ret (negb (handled =? 0) || negb (bool_decide (deferred_events c = [])) || (len (buffer (c_codec c)) <? before)).

(** The deadline a read waits for, and its name. *)
Definition read_phase (c : conn) : C (Z * str) :=
  match current_request c with
  | Some r =>
      let! x := get_request r in
      ret (minimum_deadline (read_deadline_ms c) (Models.deadline_ms (ro_cancellation x)), py "request")
  | None =>
      ret (if header_deadline_ms c >=? 0
           then (minimum_deadline (read_deadline_ms c) (header_deadline_ms c), py "header")
           else (read_deadline_ms c, py "read"))
  end.

Definition client_pass (reason : str) : C step :=
  let! (outcome, data) := read_transport env (segment_bytes (k_buffers config)) in
  if outcome =? PCC_SOCKET_PROGRESS then
    if bool_decide (data = []) then raise (GatewayTransportError (py "empty socket read progress"))
    else
      let! now := now_ms env in
      upd (set_read_deadline_ms (now + idle_timeout_ms (k_http1 config))) ;;!
      let! _ := feed_data env config data 1 in
      let! c := self in
      match pending_local c with Some (r, _) => consume_pending_body_events env config r | None => ret tt end ;;!
      ret (Again reason)
  else if outcome =? PCC_SOCKET_EOF then
    input_eof env config ;;!
    let! n := output_len in
    ret (if n =? 0 then Stop (py "eof") else Again (py "eof"))
  else if outcome =? PCC_SOCKET_WOULD_BLOCK then
    let! now := now_ms env in
    let! c := self in
    let! (deadline, phase) := read_phase c in
    if now >=? deadline then
      deadline_timeout env config phase ;;!
      ret (Again (phase ++ py "-timeout"))
    else
      wait_connection_fd (io_wait_interest c) (deadline - now) ;;!
      ret (Again reason)
  else raise (GatewayTransportError (py "socket read observation failed")).

Definition run_pass (reason : str) : C step :=
  let! n := output_len in
  if n >? 0 then
    let! stop := flush_pass in
    ret (match stop with Some reason => Stop reason | None => Again reason end)
  else
    let! c := self in
    if bool_decide (is_Some (pending_proxy c)) then run_gateway_proxy ;;! ret (Again reason)
    else
      let! parked := local_pass in
      if parked then ret (Again reason)
      else
        let! c := self in
        if negb (bool_decide (is_Some (pending_local c))) && bool_decide (is_Some (pending_stream c))
        then drive_streaming_response env config ;;! ret (Again reason)
        else if negb (bool_decide (is_Some (pending_local c))) && negb (bool_decide (deferred_events c = []))
        then resume_deferred_events env config ;;! ret (Again reason)
        else if close_after_flush c then ret (Stop (py "response-complete"))
        else
          let! running := lifecycle_running in
          if negb running && negb (bool_decide (is_Some (current_request c))) then ret (Stop (py "drain"))
          else
            let! advanced := buffered_pass in
            if advanced then ret (Again reason) else client_pass reason.

(** ** The run *)

Fixpoint run_loop (passes : nat) (reason : str) : C str :=
  match passes with
  | O => raise out_of_fuel
  | S passes' =>
      let! c := self in
      if c_closed c then ret reason
      else
        let! s := run_pass reason in
        match s with
        | Again reason => run_loop passes' reason
        | Stop reason => ret reason
        end
  end.

(** The [try]: the reason to close with. *)
Definition serve (passes : nat) : C str :=
  let! c := self in
  if negb (o_transport env) || (fd c <? 0) then raise (GatewayTransportError (py "connection has no live transport"))
  else
    call_hook env HookOpened ;;!
    let! now := now_ms env in
    upd (set_read_deadline_ms (now + idle_timeout_ms (k_http1 config))) ;;!
    let! established := run_tls_handshake passes in
    if negb established then ret (py "tls-handshake-failed")
    else run_loop passes (py "closed").

(** The [finally]: its errors. *)
Definition conclude (passes : nat) (reason : str) : C (option exn) :=
  let! c := self in
  let! e1 := if bool_decide (is_Some (pending_local c)) then attempt (cancel_and_join_pending_local env reason) else ret None in
  let! c := self in
  let! e2 := if negb (c_closed c) then attempt_all [run_tls_close_notify passes; close env reason] else ret None in
  ret (first_of e1 e2).

Definition run_gateway_connection (passes : nat) : C unit :=
  let! served := capture (serve passes) in
  let! cleanup_error := conclude passes (match served with Ok reason => reason | Raise _ => py "transport-error" end) in
  match served with
  | Raise e => raise e
  | Ok _ => reraise cleanup_error
  end.

End run.
End GatewayRun.
