(* ===== verification/ConnectionRunSpec.v ===== *)
(** * What a connection's thread leaves behind

    However the loop of a connection ends - by a close, a timeout, a transport error, an
    exception of outside code, or an interruption after any number of passes - its cleanup
    closes the connection and gives back all that was counted for it. *)

From S2P Require Import Prelude PyStr Buffer Http1 Http1Decode Models ModelsSpec Config Tls Proxy ProxyExchange.
From S2P Require Import ConnectionBodies Connection ConnectionOwners ConnectionSpec ConnectionSystem ConnectionRun.
#[local] Open Scope Z_scope.

Module GatewayRunInv.
Import GatewayConnection ConnectionInv GatewayRun.
Section run.
Context {W P I It L T : Type} `{AdmissionLaws L} `{TlsSession T}.
Context (env : surroundings W P I It) (config : settings).
Abbreviation state := (GatewayConnection.state (W:=W) (P:=P) (I:=I) (It:=It) (L:=L) (T:=T)).
Abbreviation C := (M state).
Context (plan_spec : P -> proxy_spec) (plan_pooled : P -> bool) (exchange_attempt : P -> nat -> Z -> C (Z * str * bool)).
Context (others : base) (Hothers : base_ok others) (Hpolite : polite env).
Context (Hattempt : forall plan r n, stays others (exchange_attempt plan r n)).
Abbreviation stays := (stays others).
Abbreviation quiet := (quiet others).

Lemma quiet_read {A} r (m : body_stream -> A) : quiet (on_body r (BodyStream.stream (let! s := get in ret (m s))) : C A).
Proof. eapply quiet_body, body_total_ok, observe_total. intros b. by eexists _, _. Qed.
Lemma quiet_fd events ms : quiet (wait_connection_fd env events ms : C unit).
Proof. unfold wait_connection_fd. quiet_calls. Qed.
Lemma quiet_count name : name ∈ connection_counters -> quiet (count_metric name : C unit).
Proof. unfold count_metric. eauto with calls nocore. Qed.
Hint Resolve quiet_fd quiet_count : calls.
Lemma quiet_handshake passes d : quiet (handshake_loop env passes d : C bool).
Proof.
  induction passes as [|n IH]; cbn [handshake_loop]; [quiet_calls|]. unfold handshake_failed, tls. cbv zeta. quiet_calls.
Qed.
Hint Resolve quiet_handshake : calls.
Lemma quiet_run_handshake passes : quiet (run_tls_handshake env config passes : C bool).
Proof. unfold run_tls_handshake. cbv zeta. quiet_calls. Qed.
Lemma quiet_close_notify_loop passes d : quiet (close_notify_loop env passes d : C unit).
Proof. induction passes as [|n IH]; cbn [close_notify_loop]; [quiet_calls|]. unfold notify_ended. cbv zeta. quiet_calls. Qed.
Hint Resolve quiet_close_notify_loop : calls.
Lemma quiet_run_close_notify passes : quiet (run_tls_close_notify env config passes : C unit).
Proof. unfold run_tls_close_notify, tls. quiet_calls. Qed.
Hint Resolve quiet_run_handshake quiet_run_close_notify : calls.

Lemma quiet_consumed r : quiet (on_body r (BodyStream.stream BodyStream.consumed_size) : C Z).
Proof. apply quiet_read. Qed.
Hint Resolve quiet_consumed : calls.
Lemma stays_attempts n : forall plan r a o, stays (proxy_attempts plan_spec exchange_attempt n plan r a o : C _).
Proof. induction n as [|n IH]; intros plan r a o; cbn [proxy_attempts]; cbv zeta; stay_calls. Qed.
Lemma quiet_conclusion r o : quiet (proxy_conclusion env config r o : C _).
Proof. unfold proxy_conclusion. destruct o as [[status failure] committed]. quiet_calls. Qed.
Hint Resolve stays_attempts quiet_conclusion : calls.
Lemma stays_run_proxy : stays (run_gateway_proxy env config plan_spec plan_pooled exchange_attempt).
Proof.
  unfold run_gateway_proxy. stay_calls. apply stays_capture. stay_calls.
Qed.
Hint Resolve stays_run_proxy : calls.

Lemma quiet_wait_writable r ms : quiet (wait_writable env r ms : C bool).
Proof.
  unfold wait_writable. apply conn_quiet_bind; [eapply quiet_body, body_total_ok, wait_total|]. intros [b|]; quiet_calls. apply quiet_read.
Qed.
Hint Resolve quiet_wait_writable : calls.
Lemma stays_flush_pass : stays (flush_pass env config).
Proof. unfold flush_pass. stay_calls. Qed.
Lemma stays_local_pass : stays (local_pass env config).
Proof. unfold local_pass. cbv zeta. stay_calls. Qed.
Lemma stays_buffered_pass : stays (buffered_pass env config).
Proof. unfold buffered_pass. cbv zeta. stay_calls. Qed.
Lemma stays_client_pass reason : stays (client_pass env config reason).
Proof. unfold client_pass, read_phase. cbv zeta. stay_calls. Qed.
Hint Resolve stays_flush_pass stays_local_pass stays_buffered_pass stays_client_pass : calls.
Lemma stays_pass reason : stays (run_pass env config plan_spec plan_pooled exchange_attempt reason).
Proof. unfold run_pass. stay_calls. Qed.
Hint Resolve stays_pass : calls.
Lemma stays_loop passes : forall reason, stays (run_loop env config plan_spec plan_pooled exchange_attempt passes reason).
Proof. induction passes as [|n IH]; intros reason; cbn [run_loop]; stay_calls. Qed.
Hint Resolve stays_loop : calls.
Lemma stays_serve passes : stays (serve env config plan_spec plan_pooled exchange_attempt passes).
Proof. unfold serve. stay_calls. Qed.

(** The cleanup closes the connection and, if its threads tell how they ended, joins the last. *)
Definition ended (t : state) : Prop :=
  inv others no_frame t /\ c_closed (s_conn t) = true /\ (threads_tell env -> pending_local (s_conn t) = None).
Lemma conclude_spec passes reason t : inv others no_frame t ->
  wp (GatewayRun.conclude env config passes reason) (fun _ => ended) (fun _ _ => False) t.
Proof.
  intros Hi. unfold GatewayRun.conclude. apply wp_bind. unfold wp at 1. cbn [self]. apply wp_bind.
  eapply (wp_mono _ (fun _ t1 => inv others no_frame t1 /\ (threads_tell env -> pending_local (s_conn t1) = None)) _ (fun _ _ => False)); [|done|].
  - intros e1 t1 [Hi1 Hl1]. apply wp_bind. unfold wp at 1. cbn [self].
    destruct (c_closed (s_conn t1)) eqn:Hc; cbn [negb]; [by apply wp_bind, wp_ret, wp_ret|]. apply wp_bind.
    eapply (wp_mono _ (fun _ => ended) _ (fun _ _ => False)); [intros e2 t2 Ht2; by apply wp_ret|done|].
    apply wp_each.
    eapply wp_mono; [| |by apply quiet_run_close_notify]; intros ? t2 [Hi2 E2]; apply wp_each;
      (eapply wp_mono; [| |by apply close_conn_spec]); intros ? t3 (Hi3 & Hc3 & El3); apply wp_ret; (split_and!; [done|done|]);
      intros Ht; rewrite El3, (core_local _ _ E2); auto.
  - destruct (pending_local (s_conn t)) as [p|] eqn:El; [|by apply wp_ret].
    apply wp_attempt. eapply wp_mono; [| |by apply cancel_and_join_spec]; intros ? t1 [[Hi1 _] Hl1]; by split.
Qed.

Lemma thread_run_spec passes t : inv others no_frame t ->
  ended (snd (run_gateway_connection env config plan_spec plan_pooled exchange_attempt passes t)).
Proof.
  intros Hi. apply wp_both. unfold run_gateway_connection. apply wp_bind, wp_capture.
  eapply wp_mono; [| |by apply stays_serve]; intros ? t1 [Hi1 _]; apply wp_bind;
    (eapply wp_mono; [| |by apply conclude_spec]; [|done]); intros o t2 Ht2; [by destruct o|done].
Qed.

(** However the loop ends, nothing is left of the connection. *)
Lemma thread_leaves_nothing passes t : threads_tell env -> reached env config others t ->
  let t' := snd (run_gateway_connection env config plan_spec plan_pooled exchange_attempt passes t) in
  c_closed (s_conn t') = true /\ pending_local (s_conn t') = None /\
  queued_bytes (fst (s_output t')) = 0 /\
  ConnectionOwners.gauges (s_life t') (b_requests others) (b_queued others) (b_upstream others) (b_bytes others) /\
  (forall i x, s_requests t' !! i = Some x -> bs_closed (ro_body x) = true).
Proof.
  intros Ht Hr. cbv zeta. destruct (reached_accounted env config others t Hpolite Hr) as [_ Hi].
  destruct (thread_run_spec passes t Hi) as (Hi' & Hc & Hl). specialize (Hl Ht).
  destruct (closed_empty_owner _ _ Hi' Hc) as [Hz Hrest]. destruct (Hrest Hl). by split_and!.
Qed.
End run.
End GatewayRunInv.
