(* ===== verification/ConnectionApart.v ===== *)
(** * A connection reaches the world through outside code only

    Whatever part of the world no outside call touches, no call of a connection ([Connection])
    and none of the loop of its thread ([ConnectionRun]) touches it.  [still m]: [m] keeps what
    is said of that part.  An attempt, which the loop takes as a parameter, is asked for the
    same. *)

From S2P Require Import Prelude PyStr Buffer Http1 Models Config Tls Proxy ProxyExchange Connection ConnectionRun.
#[local] Open Scope Z_scope.

(** No outside call touches [part]. *)
Definition leaves {W X A} (part : W -> X) (m : outside W A) : Prop := forall w, part (snd (snd (m w))) = part w.
Record apart {W P I It X} (part : W -> X) (e : surroundings W P I It) : Prop := {
  ap_now : leaves part (o_now_ms e);
  ap_read : forall fd n, leaves part (o_read e fd n);
  ap_write : forall fd d, leaves part (o_write e fd d);
  ap_shutdown : forall fd, leaves part (o_shutdown e fd);
  ap_close : forall fd, leaves part (o_close e fd);
  ap_head : forall r q, leaves part (o_dispatch_proxy_head e r q);
  ap_dispatch : forall r q, leaves part (o_dispatch e r q);
  ap_hook : forall h, leaves part (o_hook e h);
  ap_spawn : forall r, leaves part (o_spawn e r);
  ap_thread_cancel : forall h, leaves part (o_thread_cancel e h);
  ap_thread_outcome : forall h, leaves part (o_thread_outcome e h);
  ap_thread_join : forall h, leaves part (o_thread_join e h);
  ap_iter : forall b, leaves part (o_iter e b);
  ap_next : forall i, leaves part (o_next e i);
  ap_bytes : forall b, leaves part (o_bytes e b);
  ap_wait : forall fd ev ms, leaves part (o_wait e fd ev ms);
  ap_yield : leaves part (o_yield e);
  ap_sleep : forall ms, leaves part (o_sleep e ms);
}.

Create HintDb still.
Section apart.
Import GatewayConnection GatewayRun.
Context {W P I It L T X : Type} `{GatewayAdmission L} `{TlsSession T}.
Context (env : surroundings W P I It) (config : settings) (part : W -> X) (K : X -> Prop) (Hapart : apart part env).
Abbreviation state := (GatewayConnection.state (W:=W) (P:=P) (I:=I) (It:=It) (L:=L) (T:=T)).
Abbreviation C := (M state).
Definition of_part (t : state) : Prop := K (part (s_world t)).
Abbreviation still := (keeps of_part).

Lemma apart_self : still (self : C _).
Proof. by intros t. Qed.
Lemma apart_state {A} (g : state -> A) : still (fun t => (Ok (g t), t)).
Proof. by intros t. Qed.
Lemma apart_modify (f : state -> state) : (forall t, s_world (f t) = s_world t) -> still (modify f).
Proof. intros Hf t Ht. apply wp_modify. unfold of_part. by rewrite Hf. Qed.
Lemma apart_zoom {S A} (proj : state -> S) inj (m : M S A) : (forall x t, s_world (inj x t) = s_world t) -> still (zoom proj inj m).
Proof. intros Hi. apply keeps_zoom. intros x t Ht. unfold of_part. by rewrite Hi. Qed.
Lemma apart_capture {A} (m : C A) : still m -> still (capture m).
Proof. intros Hm. apply keeps_try; [apply keeps_bind; [done|auto]|auto]. Qed.
Lemma apart_finally {A} (m : C A) f : still m -> still f -> still (try_finally m f).
Proof.
  intros Hm Hf. apply keeps_bind; [|intros r; apply keeps_bind; [done|auto]]. by apply apart_capture.
Qed.
Lemma apart_on_body {A} r (m : M (body_stream * heap) A) : still (on_body r m : C A).
Proof. intros t Ht. unfold wp, on_body. destruct (_ !! _); [|done]. by destruct (m _) as [[?|?] [b h]]. Qed.
Lemma apart_get_request r : still (get_request r : C _).
Proof. intros t Ht. unfold wp, get_request. by destruct (_ !! _). Qed.

Hint Resolve apart_self apart_on_body apart_get_request : still.
Hint Resolve ap_now ap_read ap_write ap_shutdown ap_close ap_head ap_dispatch ap_hook ap_spawn ap_thread_cancel ap_thread_outcome
  ap_thread_join ap_iter ap_next ap_bytes ap_wait ap_yield ap_sleep Hapart : still.
(** Decomposes a method into its calls. *)
Ltac stay_still := repeat lazymatch goal with
  | |- keeps _ (bind _ _) => apply keeps_bind; [|intros ?]
  | |- keeps _ (try_except _ _) => apply keeps_try; [|intros ?]
  | |- keeps _ (try_finally _ _) => apply apart_finally
  | |- keeps _ (capture _) => apply apart_capture
  | |- keeps _ (attempt _) => apply keeps_attempt
  | |- keeps _ (attempt_all _) => apply keeps_attempt_all
  | |- keeps _ (upd _) => by apply apart_modify
  | |- keeps _ (modify _) => by apply apart_modify
  | |- keeps _ (on_heap _) => by apply apart_zoom
  | |- keeps _ (on_output _) => by apply apart_zoom
  | |- keeps _ (on_life _) => by apply apart_zoom
  | |- keeps _ (on_tls _) => by apply apart_zoom
  | |- keeps _ (on_codec _) => by apply apart_zoom
  | |- keeps _ (fun t => (Ok _, t)) => apply apart_state
  | |- keeps _ (if ?b then _ else _) => destruct b
  | |- keeps _ (match ?x with _ => _ end) => destruct x
  | |- Forall _ (_ ++ _) => apply Forall_app; split
  | |- Forall _ (_ :: _) => apply Forall_cons; split
  | |- Forall _ [] => constructor
  | |- Forall _ (if ?b then _ else _) => destruct b
  | |- keeps _ _ => solve [eauto with still nocore|auto]
  end.
(** The same after unfolding. *)
Tactic Notation "apart_of" reference(d) := unfold d; cbv zeta; stay_still.

Lemma apart_put_request r x : still (put_request r x : C _).
Proof. apart_of put_request. Qed.
Hint Resolve apart_put_request : still.
Lemma apart_cancel_request r reason : still (cancel_request r reason : C _).
Proof. apart_of cancel_request. Qed.
Hint Resolve apart_cancel_request : still.
Lemma apart_outside {A} (m : outside W A) : leaves part m -> still (outside_call m : C A).
Proof.
  intros Hm t Ht. unfold wp, outside_call. specialize (Hm (s_world t)). destruct (m _) as [es [r w]]. cbn in Hm.
  assert (of_part (fold_left (fun t e => snd (run_effect e t)) es (set_world w t))) as Hw; [|by destruct r].
  assert (of_part (set_world w t)) as Hw by (unfold of_part in *; cbn; by rewrite Hm). clear Ht Hm. revert Hw. generalize (set_world w t).
  induction es as [|e es IH]; intros t1 Ht; [done|]. cbn [fold_left]. apply IH.
  assert (still (run_effect e : C unit)) as He by (destruct e; cbn [run_effect]; stay_still).
  specialize (He t1 Ht). unfold wp in He. by destruct (run_effect e t1) as [[?|?] ?].
Qed.
Hint Resolve apart_outside : still.
Lemma apart_release_request : still (release_request : C _). Proof. apart_of release_request. Qed.
Lemma apart_close_body r : still (close_body r : C _). Proof. apart_of close_body. Qed.
Lemma apart_cancel_body r : still (cancel_body r : C _). Proof. apart_of cancel_body. Qed.
Lemma apart_now : still (now_ms env : C _). Proof. apart_of now_ms. Qed.
Lemma apart_transport {A} (m : outside W A) : leaves part m -> still (transport env m : C A). Proof. intros Hm. unfold transport. stay_still. Qed.
Lemma apart_len : still (output_len : C _). Proof. apart_of output_len. Qed.
Lemma apart_running : still (lifecycle_running : C _). Proof. apart_of lifecycle_running. Qed.
Hint Resolve apart_release_request apart_close_body apart_cancel_body apart_now apart_transport apart_len apart_running : still.
Lemma apart_abort reason : still (abort_current_request reason : C _). Proof. apart_of abort_current_request. Qed.
Lemma apart_signal reason : still (signal_pending_local env reason : C _). Proof. apart_of signal_pending_local. Qed.
Lemma apart_cancel_proxy reason : still (cancel_pending_proxy reason : C _). Proof. apart_of cancel_pending_proxy. Qed.
Lemma apart_cancel_stream reason : still (cancel_pending_stream reason : C _). Proof. apart_of cancel_pending_stream. Qed.
Lemma apart_ledger es q : still (release_ledger es q : C _).
Proof. induction es as [|e es IH]; cbn [release_ledger]; stay_still. Qed.
Hint Resolve apart_abort apart_signal apart_cancel_proxy apart_cancel_stream apart_ledger : still.
Lemma apart_release_suffix es q : still (release_event_suffix es q : C _). Proof. apart_of release_event_suffix. Qed.
Hint Resolve apart_release_suffix : still.
Lemma apart_discard : still (discard_deferred_events : C _). Proof. apart_of discard_deferred_events. Qed.
Lemma apart_close reason : still (close env reason : C _). Proof. unfold close, transport_calls. cbv zeta. stay_still. Qed.
Hint Resolve apart_discard apart_close : still.
Lemma apart_hook h : still (call_hook env h : C _). Proof. apart_of call_hook. Qed.
Hint Resolve apart_hook : still.
Lemma apart_queue_bytes d : still (queue_bytes env config d : C _). Proof. apart_of queue_bytes. Qed.
Lemma apart_consume_output n : still (consume_output env config n : C _). Proof. apart_of consume_output. Qed.
Lemma apart_peek n : still (peek_output n : C _). Proof. apart_of peek_output. Qed.
Hint Resolve apart_queue_bytes apart_consume_output apart_peek : still.
Lemma apart_keep_alive : still (response_keep_alive (P:=P) (I:=I) : C _). Proof. apart_of response_keep_alive. Qed.
Hint Resolve apart_keep_alive : still.
Lemma apart_payload m a : still (response_payload env m a : C _). Proof. apart_of response_payload. Qed.
Lemma apart_request_finished r x : still (request_finished env r x : C _). Proof. apart_of request_finished. Qed.
Lemma apart_close_if_last : still (close_if_last config : C _). Proof. apart_of close_if_last. Qed.
Lemma apart_count_completed : still (count_completed : C _). Proof. apart_of count_completed. Qed.
Hint Resolve apart_payload apart_request_finished apart_close_if_last apart_count_completed : still.
Lemma apart_begin_streaming r x b : still (begin_streaming_response env config r x b : C _). Proof. apart_of begin_streaming_response. Qed.
Lemma apart_complete_streaming : still (complete_streaming_response env config : C _). Proof. apart_of complete_streaming_response. Qed.
Lemma apart_give_up reason : still (give_up_stream reason : C _). Proof. apart_of give_up_stream. Qed.
Lemma apart_upd_stream f : still (upd_stream f : C _). Proof. apart_of upd_stream. Qed.
Hint Resolve apart_begin_streaming apart_complete_streaming apart_give_up apart_upd_stream : still.
Lemma apart_queue_piece n : still (queue_piece env config n : C _). Proof. apart_of queue_piece. Qed.
Hint Resolve apart_queue_piece : still.
Lemma apart_drive_streaming : still (drive_streaming_response env config : C _). Proof. apart_of drive_streaming_response. Qed.
Lemma apart_overflow m e : still (on_overflow env config m e : C _). Proof. apart_of on_overflow. Qed.
Lemma apart_publish r m x : still (publish_response env config r m x : C _). Proof. apart_of publish_response. Qed.
Lemma apart_conclude_local r o : still (conclude_local config r o : C _). Proof. apart_of conclude_local. Qed.
Hint Resolve apart_drive_streaming apart_overflow apart_publish apart_conclude_local : still.
Lemma apart_complete_local r a : still (complete_local_handler_response env config r a : C _). Proof. apart_of complete_local_handler_response. Qed.
Lemma apart_timeout r : still (request_timeout env r : C _). Proof. apart_of request_timeout. Qed.
Lemma apart_begin_request h : still (begin_request env config h : C _). Proof. apart_of begin_request. Qed.
Hint Resolve apart_complete_local apart_timeout apart_begin_request : still.
Lemma apart_dispatch r : still (dispatch_request env r : C _). Proof. apart_of dispatch_request. Qed.
Hint Resolve apart_dispatch : still.
Lemma apart_answer r b : still (answer_request env config r b : C _). Proof. apart_of answer_request. Qed.
Lemma apart_retire_pending r b : still (retire_unless_pending r b : C _). Proof. apart_of retire_unless_pending. Qed.
Hint Resolve apart_answer apart_retire_pending : still.
Lemma apart_finish : still (finish_request env config : C _). Proof. apart_of finish_request. Qed.
Lemma apart_release_chunk b : still (release_chunk b : C _). Proof. apart_of release_chunk. Qed.
Hint Resolve apart_finish apart_release_chunk : still.
Lemma apart_handle e : still (handle_event env config e : C _). Proof. apart_of handle_event. Qed.
Lemma apart_defer e : still (defer e : C _). Proof. apart_of defer. Qed.
Hint Resolve apart_handle apart_defer : still.
Lemma apart_consume_events r es : forall b, still (consume_events env config r b es : C _).
Proof. induction es as [|e es IH]; intros b; cbn [consume_events]; stay_still. Qed.
Lemma apart_feed_events es : forall n, still (feed_events env config es n : C _).
Proof. induction es as [|e es IH]; intros n; cbn [feed_events]; stay_still. Qed.
Lemma apart_resume_events es : still (resume_events env config es : C _).
Proof. induction es as [|e es IH]; cbn [resume_events]; stay_still. Qed.
Hint Resolve apart_consume_events apart_feed_events apart_resume_events : still.
Lemma apart_consume r : still (consume_pending_body_events env config r : C _). Proof. apart_of consume_pending_body_events. Qed.
Lemma apart_resume : still (resume_deferred_events env config : C _). Proof. apart_of resume_deferred_events. Qed.
Lemma apart_arm_header : still (arm_header_deadline env config : C _). Proof. apart_of arm_header_deadline. Qed.
Lemma apart_fail e : still (fail_http env config e : C _). Proof. apart_of fail_http. Qed.
Hint Resolve apart_consume apart_resume apart_arm_header apart_fail : still.
Lemma apart_feed d n : still (feed_data env config d n : C _). Proof. apart_of feed_data. Qed.
Lemma apart_join_thread h : still (thread_join env h : C _). Proof. apart_of thread_join. Qed.
Hint Resolve apart_feed apart_join_thread : still.
Lemma apart_join thread b : still (join_child env thread b : C _). Proof. apart_of join_child. Qed.
Lemma apart_take_local : still (take_pending_local : C _). Proof. apart_of take_pending_local. Qed.
Hint Resolve apart_join apart_take_local : still.
Lemma apart_drive_local : still (drive_pending_local env config : C _). Proof. apart_of drive_pending_local. Qed.
Lemma apart_cancel_and_join reason : still (cancel_and_join_pending_local env reason : C _). Proof. apart_of cancel_and_join_pending_local. Qed.
Lemma apart_eof : still (input_eof env config : C _). Proof. apart_of input_eof. Qed.
Lemma apart_deadline phase : still (deadline_timeout env config phase : C _). Proof. apart_of deadline_timeout. Qed.
Lemma apart_arm n : still (arm_write_deadline config n : C _). Proof. apart_of arm_write_deadline. Qed.
Lemma apart_wait_for r : still (wait_for r : C _). Proof. apart_of wait_for. Qed.
Hint Resolve apart_drive_local apart_cancel_and_join apart_eof apart_deadline apart_arm apart_wait_for : still.
Lemma apart_write d : still (write_transport env config d : C _). Proof. apart_of write_transport. Qed.
Lemma apart_read_deadline : still (read_deadline : C _). Proof. apart_of read_deadline. Qed.
Hint Resolve apart_write apart_read_deadline : still.
Lemma apart_flush : still (flush_transport env config : C _). Proof. apart_of flush_transport. Qed.
Lemma apart_read n : still (read_transport env n : C _). Proof. apart_of read_transport. Qed.
Hint Resolve apart_flush apart_read : still.
Lemma apart_observe r : still (proxy_observe_downstream env config r : C _). Proof. apart_of proxy_observe_downstream. Qed.
Lemma apart_retire_proxy r : still (retire_proxy config r : C _). Proof. apart_of retire_proxy. Qed.
Hint Resolve apart_observe apart_retire_proxy : still.

(** ** The loop of the thread *)

Context (plan_spec : P -> proxy_spec) (plan_pooled : P -> bool) (exchange_attempt : P -> nat -> Z -> C (Z * str * bool)).
Context (Hattempt : forall plan r n, still (exchange_attempt plan r n)).
Hint Resolve Hattempt : still.
Lemma apart_count_metric name : still (count_metric name : C _). Proof. apart_of count_metric. Qed.
Lemma apart_wait_fd ev ms : still (wait_connection_fd env ev ms : C _). Proof. apart_of wait_connection_fd. Qed.
Hint Resolve apart_count_metric apart_wait_fd : still.
Lemma apart_handshake_failed e : still (handshake_failed env e : C _). Proof. apart_of handshake_failed. Qed.
Lemma apart_notify_ended n b : still (notify_ended env n b : C _). Proof. apart_of notify_ended. Qed.
Hint Resolve apart_handshake_failed apart_notify_ended : still.
Lemma apart_tls {A} (f : T -> A) : still (tls f : C A).
Proof. apply apart_state. Qed.
Hint Resolve apart_tls : still.
Lemma apart_handshake_loop d passes : still (handshake_loop env passes d : C _).
Proof. induction passes as [|n IH]; cbn [handshake_loop]; cbv zeta; stay_still. Qed.
Lemma apart_close_notify_loop d passes : still (close_notify_loop env passes d : C _).
Proof. induction passes as [|n IH]; cbn [close_notify_loop]; cbv zeta; stay_still. Qed.
Hint Resolve apart_handshake_loop apart_close_notify_loop : still.
Lemma apart_run_handshake passes : still (run_tls_handshake env config passes : C _). Proof. apart_of run_tls_handshake. Qed.
Lemma apart_run_close_notify passes : still (run_tls_close_notify env config passes : C _). Proof. apart_of run_tls_close_notify. Qed.
Hint Resolve apart_run_handshake apart_run_close_notify : still.
Lemma apart_attempts n : forall plan r a o, still (proxy_attempts plan_spec exchange_attempt n plan r a o : C _).
Proof. induction n as [|n IH]; intros plan r a o; cbn [proxy_attempts]; cbv zeta; stay_still. Qed.
Hint Resolve apart_attempts : still.
Lemma apart_conclusion r o : still (proxy_conclusion env config r o : C _). Proof. apart_of proxy_conclusion. Qed.
Hint Resolve apart_conclusion : still.
Lemma apart_run_proxy : still (run_gateway_proxy env config plan_spec plan_pooled exchange_attempt : C _). Proof. apart_of run_gateway_proxy. Qed.
Lemma apart_flush_pass : still (flush_pass env config : C _). Proof. apart_of flush_pass. Qed.
Lemma apart_wait_writable r ms : still (wait_writable env r ms : C _). Proof. apart_of wait_writable. Qed.
Hint Resolve apart_run_proxy apart_flush_pass apart_wait_writable : still.
Lemma apart_local_pass : still (local_pass env config : C _). Proof. apart_of local_pass. Qed.
Lemma apart_buffered_pass : still (buffered_pass env config : C _). Proof. apart_of buffered_pass. Qed.
Lemma apart_read_phase c : still (read_phase c : C _). Proof. apart_of read_phase. Qed.
Hint Resolve apart_local_pass apart_buffered_pass apart_read_phase : still.
Lemma apart_client_pass reason : still (client_pass env config reason : C _). Proof. apart_of client_pass. Qed.
Hint Resolve apart_client_pass : still.
Lemma apart_run_pass reason : still (run_pass env config plan_spec plan_pooled exchange_attempt reason : C _). Proof. apart_of run_pass. Qed.
Hint Resolve apart_run_pass : still.
Lemma apart_run_loop passes : forall reason, still (run_loop env config plan_spec plan_pooled exchange_attempt passes reason : C _).
Proof. induction passes as [|n IH]; intros reason; cbn [run_loop]; stay_still. Qed.
Hint Resolve apart_run_loop : still.
Lemma apart_serve passes : still (serve env config plan_spec plan_pooled exchange_attempt passes : C _). Proof. apart_of serve. Qed.
Lemma apart_conclude passes reason : still (conclude env config passes reason : C _). Proof. apart_of conclude. Qed.
Hint Resolve apart_serve apart_conclude : still.
Lemma apart_run_gateway_connection passes : still (run_gateway_connection env config plan_spec plan_pooled exchange_attempt passes : C _). Proof. apart_of run_gateway_connection. Qed.
End apart.
#[export] Hint Resolve apart_self apart_on_body apart_get_request apart_cancel_request apart_now apart_transport apart_len apart_hook
  apart_queue_bytes apart_consume apart_flush apart_observe apart_count_metric apart_wait_fd
  ap_now ap_read ap_write ap_shutdown ap_close ap_wait : still.
