(* ===== verification/ProxyDriver.v ===== *)
(** * One proxy attempt ([_proxy_exchange_attempt] of [pcc_gateway/server.py])

    The driver that runs one HTTP/1 exchange with an upstream: admission, a pooled
    connection, name resolution, the connect of each address, the request with its body as
    the client sends it, and the response as the client takes it; then the cleanup of all
    three owners.  It composes a connection ([Connection]), the pools and their shared
    upstreams ([ProxyPool]), a resolver ([DnsResolver]) and an exchange ([ProxyExchange]).
    The local variables of the attempt that outlive a call are the fields of [attempt_state].
    Loops take a number of passes, as in [ConnectionRun].  The theorems are in
    [ProxyDriverSpec]. *)

From S2P Require Import Prelude PyStr Buffer Http1 Models Config DnsWire DnsPolicy DnsResolver Tls Proxy.
From S2P Require Import ProxyHttp1 ProxyExchange ProxyPool Connection ConnectionRun.
#[local] Open Scope Z_scope.

Definition PCC_SOCKET_CONNECTED : Z := 3.
Definition CLIENT_OBSERVE_SLICE_MS : Z := 25.

(** ** The world of a connection: its pools, its resolver and what is outside *)

(** Pools by the name of their group, over one store of endpoints, groups and leases. *)
Record gateway_world (W : Type) := GatewayWorld {
  gw_pools : gmap (list Z) pool;
  gw_ups : upstreams;
  gw_resolver : option resolver;
  gw_world : W;
}.
Arguments GatewayWorld {W}. Arguments gw_pools {W}. Arguments gw_ups {W}. Arguments gw_resolver {W}. Arguments gw_world {W}.
Definition gw_set_world {W} (w : W) (g : gateway_world W) : gateway_world W :=
  GatewayWorld (gw_pools g) (gw_ups g) (gw_resolver g) w.

(** Outside code has no hold of pools and resolver. *)
Definition beside {W A} (m : outside W A) : outside (gateway_world W) A := fun g =>
  let '(es, (r, w)) := m (gw_world g) in (es, (r, gw_set_world w g)).
Definition beside_env {W P I It} (e : surroundings W P I It) : surroundings (gateway_world W) P I It := {|
  o_transport := o_transport e;
  o_local_body_streaming := o_local_body_streaming e;
  o_client_ip := o_client_ip e;
  o_now_ms := beside (o_now_ms e);
  o_read fd n := beside (o_read e fd n);
  o_write fd d := beside (o_write e fd d);
  o_shutdown fd := beside (o_shutdown e fd);
  o_close fd := beside (o_close e fd);
  o_dispatch_proxy_head r q := beside (o_dispatch_proxy_head e r q);
  o_dispatch r q := beside (o_dispatch e r q);
  o_hook h := beside (o_hook e h);
  o_spawn r := beside (o_spawn e r);
  o_thread_cancel h := beside (o_thread_cancel e h);
  o_thread_outcome h := beside (o_thread_outcome e h);
  o_thread_join h := beside (o_thread_join e h);
  o_iter b := beside (o_iter e b);
  o_next i := beside (o_next e i);
  o_bytes b := beside (o_bytes e b);
  o_wait fd ev ms := beside (o_wait e fd ev ms);
  o_yield := beside (o_yield e);
  o_sleep ms := beside (o_sleep e ms);
|}.

(** What an attempt needs of the transport and of the runtime: an upstream socket to a
    host, port and address, the state of its connect, and the wait for data of a request
    body. *)
Record upstream_net (W : Type) := UpstreamNet {
  n_open : str -> Z -> str -> outside W Z;
  n_connect_observe : Z -> outside W Z;
  n_await_body : nat -> outside W unit;
}.
Arguments n_open {W}. Arguments n_connect_observe {W}. Arguments n_await_body {W}.

Definition stage_name (s : proxy_stage) : str :=
  match s with
  | STAGE_CONNECT => py "connect"
  | STAGE_REQUEST_BODY => py "request-body"
  | STAGE_HEADER => py "header"
  | STAGE_BODY => py "body"
  | STAGE_IDLE => py "idle"
  | STAGE_DONE => py "done"
  end.

(** [_proxy_target] of a request path, its query and the prefix to strip. *)
Definition proxy_target (prefix path query : str) : result str :=
  let? target :=
    if bool_decide (prefix = []) then Ok path
    else if negb (starts_with prefix path)
    then Raise (ProxyProtocolError (py "strip-prefix-mismatch") (py "proxy strip prefix does not match"))
    else
      let rest := from path (len prefix) in
      Ok (if bool_decide (rest = []) then py "/"
          else if negb (starts_with (py "/") rest) then py "/" ++ rest else rest) in
  Ok (if bool_decide (query = []) then target else target ++ py "?" ++ query).

Definition proxy_authority (host : str) (port : Z) : str :=
  if char_in 58 host && negb (starts_with (py "[") host)
  then py "[" ++ host ++ py "]:" ++ str_of_int port
  else host ++ py ":" ++ str_of_int port.

Module ProxyDriver.
Import GatewayConnection GatewayRun.
Section driver.
Context {W0 P I It L T : Type} `{GatewayAdmission L} `{TlsSession T} `{DnsTransport W0}.
Context (env0 : surroundings W0 P I It) (net : upstream_net W0) (config : settings).
Context (plan_spec : P -> proxy_spec) (plan_upstream : P -> str).
Abbreviation W := (gateway_world W0).
Abbreviation state := (GatewayConnection.state (W:=W) (P:=P) (I:=I) (It:=It) (L:=L) (T:=T)).
Abbreviation C := (M state).
Definition env : surroundings W P I It := beside_env env0.
Definition upstream_call {A} (m : outside W0 A) : C A := transport env (beside m).

(** ** Calls on the pool of an upstream *)

Definition pool_at (name : str) (g : W) : option pool := option_map (set_ups (gw_ups g)) (gw_pools g !! name).
Definition put_pool (name : str) (p : pool) (g : W) : W :=
  GatewayWorld (<[name := p]> (gw_pools g)) (ups p) (gw_resolver g) (gw_world g).
Definition close_upstream (handle : Z) : C unit := transport env (o_close env handle).
Definition on_pool {A} (name : str) (m : M (pool * state) A) : C A := fun t =>
  match pool_at name (s_world t) with
  | None => (Raise (KeyError name), t)
  | Some p => let '(r, (p', t')) := m (p, t) in (r, set_world (put_pool name p' (s_world t')) t')
  end.
Definition pool_call {A} (name : str) (m : M pool A) : C A := on_pool name (UpstreamConnectionPool.locked m).

(** ** The attempt *)

Record attempt_state := AttemptState {
  a_conn : state;
  a_deadline : proxy_deadline;
  a_pooled : option nat;
  a_exchange : option (exchange * heap);
  a_driver : option driver;
  a_reusable : bool;
}.
Abbreviation X := (M attempt_state).
Definition conn_call {A} (m : C A) : X A :=
  zoom a_conn (fun t s => AttemptState t (a_deadline s) (a_pooled s) (a_exchange s) (a_driver s) (a_reusable s)) m.
Definition locals : X attempt_state := get.
Definition set_deadline (d : proxy_deadline) : X unit :=
  modify (fun s => AttemptState (a_conn s) d (a_pooled s) (a_exchange s) (a_driver s) (a_reusable s)).
Definition upd_deadline (f : proxy_deadline -> proxy_deadline) : X unit :=
  let! s := locals in set_deadline (f (a_deadline s)).
Definition set_pooled (c : option nat) : X unit :=
  modify (fun s => AttemptState (a_conn s) (a_deadline s) c (a_exchange s) (a_driver s) (a_reusable s)).
Definition set_driver (d : option driver) : X unit :=
  modify (fun s => AttemptState (a_conn s) (a_deadline s) (a_pooled s) (a_exchange s) d (a_reusable s)).
Definition set_reusable (b : bool) : X unit :=
  modify (fun s => AttemptState (a_conn s) (a_deadline s) (a_pooled s) (a_exchange s) (a_driver s) b).

(** A method of the exchange: over it, its store and the gateway's accounting. *)
Definition set_life (l : L) (t : state) : state :=
  State (s_conn t) (s_requests t) (s_bodies t) (s_output t) l (s_tls t) (s_world t).
Definition on_exchange {A} (m : M (ProxyExchange.st (W := L)) A) : X A := fun s =>
  match a_exchange s with
  | None => (Raise AttributeError, s)
  | Some (x, h) =>
      let '(r, t) := m (ProxyExchange.St x h (s_life (a_conn s))) in
      (r, AttemptState (set_life (ProxyExchange.s_world t) (a_conn s)) (a_deadline s) (a_pooled s)
            (Some (ProxyExchange.s_ex t, ProxyExchange.s_heap t)) (a_driver s) (a_reusable s))
  end.
Definition exchange_is (f : exchange -> bool) : X bool := on_exchange (let! x := ProxyExchange.self in ret (f x)).

(** A method of the resolution: over its driver, the resolver's cache and policy, and the
    transport. *)
Definition set_shared (sh : dns_shared) (r : resolver) : resolver :=
  Resolver sh (r_config r) (r_hosts r) (next_query_id r) (next_server r).
Definition on_driver {A} (m : M (DnsResolveDriver.env (W := W0)) A) : X A := fun s =>
  let g := s_world (a_conn s) in
  match a_driver s, gw_resolver g with
  | Some d, Some r =>
      let '(a, t) := m (DnsResolveDriver.Env d (r_shared r) (gw_world g)) in
      (a, AttemptState
            (set_world (GatewayWorld (gw_pools g) (gw_ups g) (Some (set_shared (DnsResolveDriver.e_shared t) r)) (DnsResolveDriver.e_world t)) (a_conn s))
            (a_deadline s) (a_pooled s) (a_exchange s) (Some (DnsResolveDriver.e_driver t)) (a_reusable s))
  | _, _ => (Raise AttributeError, s)
  end.
Definition on_resolver {A} (m : M resolver A) : X A := fun s =>
  let g := s_world (a_conn s) in
  match gw_resolver g with
  | Some r =>
      let '(a, r') := m r in
      (a, AttemptState (set_world (GatewayWorld (gw_pools g) (gw_ups g) (Some r') (gw_world g)) (a_conn s))
            (a_deadline s) (a_pooled s) (a_exchange s) (a_driver s) (a_reusable s))
  | None => (Raise AttributeError, s)
  end.

(** ** Deadlines and waits *)

Definition hook_call (h : hook) : X unit := conn_call (call_hook env h).
Definition metric (name : str) : X unit := conn_call (count_metric name).
Definition now : X Z := conn_call (now_ms env).
Definition is_cancelled (r : nat) : X bool :=
  conn_call (let! x := get_request r in ret (cancelled (ro_cancellation x))).
Definition request_deadline (r : nat) : X Z :=
  conn_call (let! x := get_request r in ret (Models.deadline_ms (ro_cancellation x))).

Definition remaining_ms (r : nat) : X Z :=
  let! n := now in
  let! s := locals in
  let! request_limit := request_deadline r in
  let limit := dl_deadline_ms (a_deadline s) in
  let limit := if request_limit >=? 0 then minimum_deadline limit request_limit else limit in
  ret (if limit <? 0 then 0 else limit - n).

Definition deadline_failure (r : nat) : X str :=
  let! gone := is_cancelled r in
  if gone then ret (py "cancelled")
  else
    let! remaining := remaining_ms r in
    if remaining <=? 0 then
      conn_call (cancel_request r (py "proxy deadline exceeded")) ;;!
      let! s := locals in
      hook_call (HookDeadline (stage_name (dl_stage (a_deadline s)))) ;;!
      let! s := locals in
      ret (ProxyDeadline.failure (a_deadline s))
    else ret [].

Definition slice_ms (ms : Z) : Z := if ms >? CLIENT_OBSERVE_SLICE_MS then CLIENT_OBSERVE_SLICE_MS else ms.
Definition wait_fd (fd events ms : Z) : X unit := conn_call (transport env (o_wait env fd events ms)).
Definition observe_downstream (r : nat) : X str := conn_call (proxy_observe_downstream env config r).
Definition wait_upstream (fd events timeout_ms : Z) (r : nat) : X str :=
  if timeout_ms <=? 0 then ret []
  else wait_fd fd events (slice_ms timeout_ms) ;;! observe_downstream r.

Definition body_ended (r : nat) : X bool := conn_call (on_body r (BodyStream.stream BodyStream.is_ended)).
Definition consume_body (r : nat) : X unit := conn_call (consume_pending_body_events env config r).
(** Another fragment of the request body. *)
Definition read_downstream_body (r : nat) (timeout_ms : Z) : X str :=
  consume_body r ;;!
  let! ended := body_ended r in
  if ended then ret []
  else
    let! observation := observe_downstream r in
    let! ended := body_ended r in
    let! queued := conn_call (on_body r (BodyStream.stream BodyStream.queued_size)) in
    if negb (bool_decide (observation = [])) || ended || (queued >? 0) then ret observation
    else
      let wait_ms := slice_ms timeout_ms in
      (if wait_ms >? 0 then
         let! c := conn_call self in
         conn_call (wait_connection_fd env (io_wait_interest c) wait_ms)
       else ret tt) ;;!
      ret [].

(** ** Name resolution *)

Definition resolution : Type := (list str * str)%type.
Definition cancel_driver : X unit := let! _ := on_driver DnsResolveDriver.cancel in ret tt.
Definition dns_finished (host : str) (count : Z) (error : str) : X unit := hook_call (HookDnsFinished host count error).
Definition dns_failed (host error : str) : X unit := metric (py "dns_failures") ;;! dns_finished host 0 error.

Definition begin_driver (host : str) (query_type n limit : Z) : X unit :=
  let! d := on_resolver (Resolver.begin_driver host query_type n limit) in set_driver (Some d).

(** After a wait of the driver: [Some]: the resolution ends. *)
Definition dns_wait (host : str) (handle interest remaining : Z) (r : nat) : X (option resolution) :=
  if remaining <=? 0 then
    cancel_driver ;;! dns_failed host (py "timeout") ;;! ret (Some ([], py "dns-timeout"))
  else
    wait_fd handle interest (slice_ms remaining) ;;!
    let! failure := observe_downstream r in
    if bool_decide (failure = []) then ret None
    else cancel_driver ;;! dns_failed host (py "cancelled") ;;! ret (Some ([], failure)).

Definition timed_out (error : str) (n limit : Z) : bool :=
  str_eqb error (py "timeout") || ends_with (py ":attempt-timeout") error
  || starts_with (py "retry-exhausted:attempt-timeout") error || (n >=? limit).

Fixpoint resolve_loop (passes : nat) (name host : str) (e : nat) (limit : Z) (r : nat) (query_type : Z) : X resolution :=
  match passes with
  | O => raise out_of_fuel
  | S passes' =>
      let! gone := is_cancelled r in
      if gone then
        cancel_driver ;;! dns_failed host (py "cancelled") ;;! ret ([], py "cancelled")
      else
        let! n := now in
        let! result := on_driver (DnsResolveDriver.step n) in
        match dv_kind result with
        | KComplete =>
            if bool_decide (dv_values result = []) then
              dns_failed host (py "no-address") ;;! ret ([], py "dns")
            else
              let! addresses := conn_call (pool_call name
                (UpstreamConnectionPool.accept_and_order_addresses e (dv_values result) query_type)) in
              (if str_in (dv_source result) [py "cache"; py "hosts"] then metric (py "dns_cache_hits") else ret tt) ;;!
              dns_finished host (len addresses) [] ;;!
              ret (addresses, [])
        | KError =>
            if (query_type =? DNS_A) && str_in (dv_error result) [py "no-address"; py "cached-negative"] then
              begin_driver host DNS_AAAA n limit ;;!
              resolve_loop passes' name host e limit r DNS_AAAA
            else if timed_out (dv_error result) n limit then
              dns_failed host (py "timeout") ;;! ret ([], py "dns-timeout")
            else
              dns_finished host 0 (dv_error result) ;;!
              metric (py "dns_failures") ;;!
              ret ([], py "dns")
        | KWaitRead | KWaitWrite =>
            let interest := match dv_kind result with KWaitWrite => PCC_IO_WRITE | _ => PCC_IO_READ end in
            let! o := dns_wait host (dv_handle result) interest (minimum_deadline (dv_deadline_ms result) limit - n) r in
            match o with Some x => ret x | None => resolve_loop passes' name host e limit r query_type end
        | KIgnored =>
            let! s := locals in
            match a_driver s with
            | None => raise AttributeError
            | Some d =>
                let! o := dns_wait host (handle d) PCC_IO_READ (attempt_deadline_ms d - n) r in
                match o with Some x => ret x | None => resolve_loop passes' name host e limit r query_type end
            end
        | KRetry | KProgress => resolve_loop passes' name host e limit r query_type
        end
  end.

(** The addresses of an endpoint, or why there are none. *)
Definition resolve_upstream_address (passes : nat) (name host : str) (e : nat) (limit : Z) (r : nat) : X resolution :=
  match normalize_numeric_address host 0 with
  | Some numeric => ret ([numeric], [])
  | None =>
      let! s := locals in
      if negb (bool_decide (is_Some (gw_resolver (s_world (a_conn s))))) then ret ([], py "dns")
      else
        let! n := now in
        let! request_limit := request_deadline r in
        let limit := if request_limit >=? 0 then minimum_deadline limit request_limit else limit in
        if limit <=? n then ret ([], py "dns-timeout")
        else
          set_driver None ;;!
          try_except
            (hook_call (HookDnsStarted host) ;;!
             metric (py "dns_queries") ;;!
             begin_driver host DNS_A n limit ;;!
             resolve_loop passes name host e limit r DNS_A)
            (fun _ =>
               let! s := locals in
               let! _ := Prelude.attempt (if bool_decide (is_Some (a_driver s)) then cancel_driver else ret tt) in
               let! _ := Prelude.attempt (metric (py "dns_failures")) in
               let! _ := Prelude.attempt (dns_finished host 0 (py "resolver-error")) in
               ret ([], py "dns"))
  end.

(** ** Writing to the upstream, and to the client *)

(** The rest of one segment, from [offset]. *)
Fixpoint write_segment (passes : nat) (fd : Z) (data : bytes) (offset : Z) (r : nat) : X str :=
  match passes with
  | O => raise out_of_fuel
  | S passes' =>
      if offset >=? len data then ret []
      else
        let! failure := deadline_failure r in
        if negb (bool_decide (failure = [])) then ret failure
        else
          let! (outcome, count) := conn_call (transport env (o_write env fd (from data offset))) in
          if outcome =? PCC_SOCKET_PROGRESS then
            if (count <=? 0) || (offset + count >? len data) then ret (py "reset-before-head")
            else write_segment passes' fd data (offset + count) r
          else if outcome =? PCC_SOCKET_WOULD_BLOCK then
            let! remaining := remaining_ms r in
            let! failure := wait_upstream fd PCC_IO_WRITE remaining r in
            if negb (bool_decide (failure = [])) then ret failure else write_segment passes' fd data offset r
          else ret (py "reset-before-head")
  end.
Definition segment : Z := segment_bytes (k_buffers config).
(** [_proxy_write_queued] *)
Fixpoint write_queued (passes : nat) (fd : Z) (r : nat) : X str :=
  match passes with
  | O => raise out_of_fuel
  | S passes' =>
      let! some := exchange_is (fun x => queued_bytes (to_upstream x) >? 0) in
      if negb some then ret []
      else
        let! (data, _) := on_exchange (ProxyExchange.take_upstream segment) in
        let! failure := write_segment passes fd data 0 r in
        if negb (bool_decide (failure = [])) then ret failure else write_queued passes' fd r
  end.

(** The inner loop of [_proxy_flush_downstream]; [true]: the client took too long. *)
Fixpoint drain_output (passes : nat) : C bool :=
  match passes with
  | O => raise out_of_fuel
  | S passes' =>
      let! n := output_len in
      if n <=? 0 then ret false
      else
        let! outcome := flush_transport env config in
        if outcome =? FLUSH_TIMEOUT then ret true
        else
          (if outcome =? PCC_SOCKET_WOULD_BLOCK then
             let! c := self in
             let! n := now_ms env in
             wait_connection_fd env (io_wait_interest c) (write_deadline_ms c - n)
           else ret tt) ;;!
          drain_output passes'
  end.
Fixpoint flush_downstream (passes : nat) : X str :=
  match passes with
  | O => raise out_of_fuel
  | S passes' =>
      let! some := exchange_is (fun x => queued_bytes (to_downstream x) >? 0) in
      if negb some then ret []
      else
        let! (data, _) := on_exchange (ProxyExchange.take_downstream segment) in
        conn_call (queue_bytes env config data) ;;!
        let! late := conn_call (drain_output passes) in
        if late then ret (py "downstream-timeout") else flush_downstream passes'
  end.

(** ** Connecting *)

(** Until the connect is decided: its outcome, or the failure met while waiting. *)
Fixpoint connect_loop (passes : nat) (handle outcome : Z) (r : nat) : X (Z * str) :=
  match passes with
  | O => raise out_of_fuel
  | S passes' =>
      if negb (outcome =? PCC_SOCKET_WOULD_BLOCK) then ret (outcome, [])
      else
        let! failure := deadline_failure r in
        if negb (bool_decide (failure = [])) then ret (outcome, failure)
        else
          let! remaining := remaining_ms r in
          let! failure := wait_upstream handle PCC_IO_WRITE remaining r in
          if negb (bool_decide (failure = [])) then ret (outcome, failure)
          else
            let! outcome := conn_call (upstream_call (n_connect_observe net handle)) in
            connect_loop passes' handle outcome r
  end.

(** The addresses in order: the connected handle (else -1), or the failure that ends the search. *)
Fixpoint connect_addresses (passes : nat) (e : endpoint) (addresses : list str) (handle : Z) (r : nat) : X (Z * str) :=
  match addresses with
  | [] => ret (handle, [])
  | address :: addresses' =>
      let! failure := deadline_failure r in
      if negb (bool_decide (failure = [])) then ret (handle, failure)
      else
        let! handle := conn_call (upstream_call (n_open net (ep_host e) (ep_port e) address)) in
        if handle <? 0 then connect_addresses passes e addresses' handle r
        else
          let! outcome := conn_call (upstream_call (n_connect_observe net handle)) in
          let! (outcome, failure) := connect_loop passes handle outcome r in
          if bool_decide (failure = []) && (outcome =? PCC_SOCKET_CONNECTED) then ret (handle, [])
          else
            conn_call (close_upstream handle) ;;!
            if negb (bool_decide (failure = [])) then ret (-1, failure)
            else connect_addresses passes e addresses' (-1) r
  end.

Definition pooled_connection (name : str) (c : nat) : X connection :=
  conn_call (pool_call name (UpstreamConnectionPool.get_conn c)).
(** [pooled.connected = True] *)
Definition set_connected (name : str) (c : nat) : X unit :=
  conn_call (pool_call name
    (let! x := UpstreamConnectionPool.get_conn c in
     UpstreamConnectionPool.set_conn c (PooledUpstreamConnection (pc_handle x) (pc_lease x) (created_ms x)
       (last_used_ms x) true (pc_released x)))).
(** The endpoint of a pooled connection, with its index. *)
Definition pooled_endpoint (name : str) (c : nat) : X (nat * endpoint) :=
  conn_call (pool_call name
    (let! x := UpstreamConnectionPool.get_conn c in
     UpstreamConnectionPool.on_ups
       (let! l := UpstreamGroup.get_lease (pc_lease x) in
        fun u => match endpoints u !! ls_endpoint l with
                 | Some e => (Ok (ls_endpoint l, e), u)
                 | None => (Raise gone, u)
                 end))).

(** A result of the attempt: status, failure, whether the response is committed. *)
Definition verdict : Type := (Z * str * bool)%type.
Definition refuse (failure : str) : X (option verdict) := ret (Some (0, failure, false)).

(** The reserved connection is opened; [Some]: the attempt ends here. *)
Definition open_pooled (passes : nat) (name : str) (c : nat) (r : nat) : X (option verdict) :=
  let! (i, e) := pooled_endpoint name c in
  let! s := locals in
  let! (addresses, failure) :=
    if bool_decide (is_Some (gw_resolver (s_world (a_conn s))))
    then resolve_upstream_address passes name (ep_host e) i (dl_deadline_ms (a_deadline s)) r
    else ret ([default (ep_host e) (normalize_numeric_address (ep_host e) 0)], []) in
  if negb (bool_decide (failure = [])) then refuse failure
  else
    let! (handle, failure) := connect_addresses passes e addresses (-1) r in
    if negb (bool_decide (failure = [])) then refuse failure
    else
      let! opened := conn_call (on_pool name (UpstreamConnectionPool.opened (Some close_upstream) c handle)) in
      match opened with
      | None => set_pooled None ;;! refuse (py "connect")
      | Some c => set_connected name c ;;! ret None
      end.

(** A pooled connection whose connect is not known to be done. *)
Definition await_connected (passes : nat) (name : str) (c : nat) (resolution_deadline : Z) (r : nat) : X (option verdict) :=
  let! x := pooled_connection name c in
  if connected x then ret None
  else
    upd_deadline (fun d => ProxyDeadline.set_stage (dl_stage d) resolution_deadline d) ;;!
    let! outcome := conn_call (upstream_call (n_connect_observe net (pc_handle x))) in
    let! (outcome, failure) := connect_loop passes (pc_handle x) outcome r in
    if negb (bool_decide (failure = [])) then refuse failure
    else if negb (outcome =? PCC_SOCKET_CONNECTED) then refuse (py "connect")
    else ret None.

(** ** The request *)

Definition new_exchange (plan : P) (e : endpoint) (r : nat) : X unit :=
  let! q := conn_call (get_request r) in
  let req := ro_request q in
  let b := k_buffers config in
  let! target := lift (proxy_target (strip_prefix (plan_spec plan)) (raw_path req) (query_string req)) in
  fun s =>
    let '(built, (h, l)) :=
      ProxyExchange.init (W := L) (rq_method req) target (rq_headers req) (proxy_authority (ep_host e) (ep_port e))
        (client_ip req) (scheme req) (default [] (Request_header req (py "host") (Some []))) (rq_content_length req)
        (chunked_body req) (trust_forwarded (plan_spec plan)) (expect_continue_handled req)
        (segment_bytes b) (bl_low_watermark b) (bl_high_watermark b) (connection_bytes b) true
        (Heap [] []) (s_life (a_conn s)) in
    let made x := AttemptState (set_life l (a_conn s)) (a_deadline s) (a_pooled s) x (a_driver s) (a_reusable s) in
    match built with
    | Ok t => (Ok tt, made (Some (ProxyExchange.s_ex t, h)))
    | Raise e => (Raise e, made (a_exchange s))
    end.

(** [request.body.read_chunk()]: a streaming body is waited for. *)
Fixpoint read_body (passes : nat) (r : nat) : C (option bytes) :=
  match passes with
  | O => raise out_of_fuel
  | S passes' =>
      let! o := on_body r BodyStream.read_chunk in
      match o with
      | Returned b => ret b
      | Parked => upstream_call (n_await_body net r) ;;! read_body passes' r
      end
  end.
(** The chunks at hand, each written on. *)
Fixpoint forward_chunks (passes : nat) (fd : Z) (r : nat) : X str :=
  match passes with
  | O => raise out_of_fuel
  | S passes' =>
      let! chunk := conn_call (read_body passes r) in
      match chunk with
      | None | Some [] => ret []
      | Some data =>
          let! _ := on_exchange (ProxyExchange.feed_request_body (CBytes data)) in
          let! failure := write_queued passes fd r in
          if negb (bool_decide (failure = [])) then ret failure else forward_chunks passes' fd r
      end
  end.
Fixpoint forward_body (passes : nat) (fd : Z) (r : nat) : X str :=
  match passes with
  | O => raise out_of_fuel
  | S passes' =>
      let! ended := body_ended r in
      if ended then ret []
      else
        consume_body r ;;!
        let! failure := forward_chunks passes fd r in
        if negb (bool_decide (failure = [])) then ret failure
        else
          let! ended := body_ended r in
          if ended then ret []
          else
            let! failure := deadline_failure r in
            if negb (bool_decide (failure = [])) then ret failure
            else
              let! remaining := remaining_ms r in
              let! failure := read_downstream_body r remaining in
              if negb (bool_decide (failure = [])) then ret failure else forward_body passes' fd r
  end.

(** The whole request: head, body, end. *)
Definition send_request (passes : nat) (fd : Z) (r : nat) : X str :=
  let! failure := write_queued passes fd r in
  if negb (bool_decide (failure = [])) then ret failure
  else
    let! failure := forward_body passes fd r in
    if negb (bool_decide (failure = [])) then ret failure
    else
      let! failure := forward_chunks passes fd r in
      if negb (bool_decide (failure = [])) then ret failure
      else
        let! q := conn_call (get_request r) in
        let! _ := on_exchange (ProxyExchange.finish_request (rq_trailers (ro_request q))) in
        write_queued passes fd r.

(** ** The response *)

Definition committed_now : X bool := exchange_is response_committed.
Definition status_now : X Z := on_exchange (let! x := ProxyExchange.self in ret (response_status x)).
Definition fail_with (failure : str) (committed : bool) : X verdict :=
  let! status := status_now in ret (status, failure, committed).

(** A fragment of the response. *)
Definition on_response (passes : nat) (data : bytes) : X str :=
  let! was_committed := committed_now in
  let! _ := on_exchange (ProxyExchange.feed_upstream data) in
  let! n := now in
  let! is_committed := committed_now in
  let! finished := exchange_is response_finished in
  (if negb was_committed && is_committed then upd_deadline (ProxyDeadline.response_head n (negb finished))
   else if is_committed && negb finished then upd_deadline (ProxyDeadline.body_progress n) else ret tt) ;;!
  flush_downstream passes.

(** Until the response is finished or the upstream closes; [Some]: the attempt ends here. *)
Fixpoint receive_response (passes : nat) (fd : Z) (r : nat) : X (option verdict) :=
  match passes with
  | O => raise out_of_fuel
  | S passes' =>
      let! finished := exchange_is response_finished in
      if finished then ret None
      else
        let ends (failure : str) : X (option verdict) :=
          let! committed := committed_now in let! v := fail_with failure committed in ret (Some v) in
        let! failure := deadline_failure r in
        if negb (bool_decide (failure = [])) then ends failure
        else
          let! (outcome, data) := conn_call (transport env (o_read env fd segment)) in
          if outcome =? PCC_SOCKET_PROGRESS then
            if bool_decide (data = []) then ends (py "reset-before-head")
            else
              let! failure := on_response passes data in
              if negb (bool_decide (failure = [])) then let! v := fail_with failure true in ret (Some v)
              else receive_response passes' fd r
          else if outcome =? PCC_SOCKET_EOF then
            let! _ := on_exchange ProxyExchange.upstream_eof in
            let! failure := flush_downstream passes in
            if negb (bool_decide (failure = [])) then let! v := fail_with failure true in ret (Some v) else ret None
          else if outcome =? PCC_SOCKET_WOULD_BLOCK then
            let! remaining := remaining_ms r in
            let! failure := wait_upstream fd PCC_IO_READ remaining r in
            if negb (bool_decide (failure = [])) then ends failure else receive_response passes' fd r
          else ends (py "reset-before-head")
  end.

(** ** The attempt *)

Definition attempt_body (passes : nat) (plan : P) (r : nat) : X verdict :=
  let name := plan_upstream plan in
  let! s := locals in
  let resolution_deadline := dl_deadline_ms (a_deadline s) in
  let! full := conn_call (pool_call name UpstreamConnectionPool.saturated) in
  let! n := now in
  let! reserved := conn_call (on_pool name (UpstreamConnectionPool.reserve (Some close_upstream) n)) in
  match reserved with
  | None => ret (0, if full then py "overloaded" else py "connect", false)
  | Some c =>
      set_pooled (Some c) ;;!
      let! x := pooled_connection name c in
      let! ended := if needs_open x then open_pooled passes name c r else ret None in
      match ended with
      | Some v => ret v
      | None =>
          let! ended := await_connected passes name c resolution_deadline r in
          match ended with
          | Some v => ret v
          | None =>
              set_connected name c ;;!
              let! request_limit := request_deadline r in
              upd_deadline (ProxyDeadline.request_body request_limit) ;;!
              let! (_, e) := pooled_endpoint name c in
              new_exchange plan e r ;;!
              let! x := pooled_connection name c in
              let fd := pc_handle x in
              let! failure := send_request passes fd r in
              if negb (bool_decide (failure = [])) then
                let! committed := committed_now in ret (0, failure, committed)
              else
                let! n := now in
                upd_deadline (ProxyDeadline.connected n) ;;!
                let! ended := receive_response passes fd r in
                match ended with
                | Some v => ret v
                | None =>
                    upd_deadline ProxyDeadline.finish ;;!
                    let! again := exchange_is (fun x => upstream_keep_alive x && response_finished x) in
                    set_reusable again ;;!
                    fail_with [] true
                end
          end
      end
  end.

(** [except ProxyProtocolError] *)
Definition on_protocol_error (e : exn) : X verdict :=
  match e with
  | ProxyProtocolError code _ =>
      let! s := locals in
      let '(status, committed) := match a_exchange s with
                                  | Some (x, _) => (response_status x, response_committed x)
                                  | None => (0, false)
                                  end in
      ret (status, if str_eqb code (py "buffer-overload") then py "overloaded" else py "protocol", committed)
  | _ => raise e
  end.

(** The [finally]: the exchange, the pooled connection and the admission, each on its own. *)
Definition cleanup_attempt (plan : P) : X (option exn) :=
  let! s := locals in
  attempt_all [
    (if bool_decide (is_Some (a_exchange s)) then on_exchange (ProxyExchange.cancel (py "attempt complete")) else ret tt);
    match a_pooled s with
    | None => ret tt
    | Some c =>
        let! x := pooled_connection (plan_upstream plan) c in
        if pc_released x then ret tt
        else
          let! n := now in
          let! _ := conn_call (on_pool (plan_upstream plan) (UpstreamConnectionPool.release (Some close_upstream) c n (a_reusable s))) in
          ret tt
    end;
    conn_call (on_life la_release_upstream)].

Definition capture_attempt {A} (m : X A) : X (result A) := try_except (let! a := m in ret (Ok a)) (fun e => ret (Raise e)).
Definition run_attempt (passes : nat) (plan : P) (r : nat) : X verdict :=
  let! o := capture_attempt (try_except (attempt_body passes plan r) on_protocol_error) in
  let! cleanup_error := cleanup_attempt plan in
  match o with
  | Raise e => raise e
  | Ok v => reraise cleanup_error ;;! ret v
  end.

Definition proxy_exchange_attempt (passes : nat) (plan : P) (r : nat) (number : Z) : C verdict :=
  let! n := now_ms env in
  let! admitted := on_life la_admit_upstream in
  if negb admitted then ret (0, py "overloaded", false)
  else fun t =>
    let '(v, s) := run_attempt passes plan r
                     (AttemptState t (ProxyDeadline.init (timeouts (plan_spec plan)) n) None None None false) in
    (v, a_conn s).
End driver.
End ProxyDriver.
