(* ===== verification/ProxyHeld.v ===== *)
(** * A proxy attempt gives back the pooled connection it takes

    A connection of a pool is held when it is neither released nor idle.  Whatever an attempt
    ([ProxyDriver]) meets, it adds at most the one connection it has reserved to what is held
    of any pool, and its cleanup gives that one back - to the idle list or closed - unless
    the clock raises there.  First over one pool ([ProxyPool]), then over all pools of the
    world, then through the attempt. *)

From S2P Require Import Prelude PyStr Buffer Http1 Models Config DnsPolicy DnsResolver Tls Proxy ProxyHttp1 ProxyExchange ProxyPool.
From S2P Require Import Connection ConnectionRun ConnectionApart ProxyDriver.
#[local] Open Scope Z_scope.

Definition held (p : pool) (c : nat) : Prop := exists x, connections p !! c = Some x /\ pc_released x = false /\ (c ∉ idle p).
Definition held_in {W} (g : gateway_world W) (name : str) (c : nat) : Prop := exists p, gw_pools g !! name = Some p /\ held p c.

(** ** One pool *)

(** The groups are [n], and what is held is in [B] or [own]. *)
Record within (n : nat) (B : nat -> Prop) (own : option nat) (p : pool) : Prop := {
  wi_group : (po_group p < n)%nat;
  wi_groups : length (groups (ups p)) = n;
  wi_held : forall c, held p c -> B c \/ own = Some c;
  wi_own : forall c, own = Some c -> (c < length (connections p))%nat;
}.

Module PoolHeld.
Import UpstreamConnectionPool.
Section pool.
Context (n : nat) (B : nat -> Prop).
Abbreviation within := (within n B).

Definition sized (u : upstreams) : Prop := length (groups u) = n.
Lemma sized_get_group g : keeps sized (UpstreamGroup.get_group g).
Proof. intros u Hu. unfold wp, UpstreamGroup.get_group. by destruct (_ !! _). Qed.
Lemma sized_set_group g x : keeps sized (UpstreamGroup.set_group g x).
Proof. intros u Hu. apply wp_modify. unfold sized. cbn. by rewrite length_insert. Qed.
Lemma sized_on_endpoint {A} e (m : M endpoint A) : keeps sized (UpstreamGroup.on_endpoint e m).
Proof. intros u Hu. unfold wp, UpstreamGroup.on_endpoint. destruct (_ !! _); [|done]. by destruct (m _) as [[?|?] ?]. Qed.
Lemma sized_get_lease l : keeps sized (UpstreamGroup.get_lease l).
Proof. intros u Hu. unfold wp, UpstreamGroup.get_lease. by destruct (_ !! _). Qed.
Hint Resolve sized_get_group sized_set_group sized_on_endpoint sized_get_lease : core.
Ltac sizes := repeat lazymatch goal with
  | |- keeps _ (bind _ _) => apply keeps_bind; [|intros ?]
  | |- keeps _ (if ?b then _ else _) => destruct b
  | |- keeps _ (match ?x with _ => _ end) => destruct x
  | |- keeps _ (modify _) => by intros ?
  | |- keeps _ (fun _ => _) => by intros ?
  | |- keeps _ _ => auto
  end.
Lemma sized_acquire_loop g k : keeps sized (UpstreamGroup.acquire_loop k g).
Proof. induction k as [|k IH]; cbn [UpstreamGroup.acquire_loop]; sizes. Qed.
Hint Resolve sized_acquire_loop : core.
Lemma sized_acquire g : keeps sized (UpstreamGroup.acquire g).
Proof. unfold UpstreamGroup.acquire. sizes. Qed.
Lemma sized_release l b : keeps sized (UpstreamGroup.lease_release l b).
Proof. unfold UpstreamGroup.lease_release, UpstreamGroup.release_lease, UpstreamGroup.mark_released. sizes. Qed.
Lemma sized_saturated g : keeps sized (UpstreamGroup.saturated g).
Proof. unfold UpstreamGroup.saturated. sizes. Qed.
Lemma sized_accept g e vs q : keeps sized (UpstreamGroup.accept_and_order_addresses g e vs q).
Proof. unfold UpstreamGroup.accept_and_order_addresses. sizes. Qed.

(** [p] has the connections and the idle list of [p0]. *)
Lemma keeps_on_ups {A} own (P : list connection -> list nat -> Prop) (m : M upstreams A) : keeps sized m ->
  keeps (fun p => within own p /\ P (connections p) (idle p)) (on_ups m).
Proof.
  intros Hm p [[Hg Hs Hh Ho] HP]. apply wp_zoom. eapply wp_mono; [| |apply Hm; exact Hs]; intros ? u Hu; (split; [|done]); by split.
Qed.
Lemma within_on_ups {A} own (m : M upstreams A) : keeps sized m -> keeps (within own) (on_ups m).
Proof.
  intros Hm p Hp. eapply wp_mono; [| |apply (keeps_on_ups own (fun _ _ => True) m Hm p); done]; by intros ? ? [? _].
Qed.
Lemma within_drop c p : within (Some c) p -> ~ held p c -> within None p.
Proof. intros [Hg Hs Hh Ho] Hn. split; try done. intros c' Hc. destruct (Hh c' Hc) as [?|[= ->]]; [by left|done]. Qed.
Lemma within_add c p : within None p -> (c < length (connections p))%nat -> within (Some c) p.
Proof. intros [Hg Hs Hh Ho] Hc. split; try done; [|by intros ? [= <-]]. intros c' Hc'. destruct (Hh c' Hc') as [?|?]; [by left|done]. Qed.

Lemma get_conn_spec c p :
  wp (get_conn c) (fun x p' => p' = p /\ connections p !! c = Some x) (fun _ p' => p' = p /\ connections p !! c = None) p.
Proof. unfold wp, get_conn. by destruct (_ !! _). Qed.
(** A connection is replaced by one that is not held if the old one was not. *)
Lemma within_set own c x y p : within own p -> connections p !! c = Some x -> (pc_released y = false -> pc_released x = false) ->
  within own (set_connections (<[c := y]> (connections p)) p).
Proof.
  intros [Hg Hs Hh Ho] Hx Hy. split; try done; cbn.
  - intros c' (z & Hz & Hr & Hi). cbn in Hz, Hi. apply Hh. destruct (decide (c' = c)) as [->|Hne].
    + rewrite list_lookup_insert_eq in Hz by (by eapply lookup_lt_Some). injection Hz as <-. exists x. auto.
    + rewrite list_lookup_insert_ne in Hz by done. by exists z.
  - intros c' Hc. rewrite length_insert. auto.
Qed.
Lemma close_held own c b p : within own p ->
  wp (close_locked c b) (fun _ p' => within own p' /\ ~ held p' c) (fun _ p' => within own p' /\ ~ held p' c) p.
Proof.
  intros Hp. unfold close_locked. apply wp_bind. eapply wp_mono; [| |apply get_conn_spec]; cbv beta.
  2:{ intros e p' [-> E]. split; [done|]. intros (x & Hx & _). congruence. }
  intros x p' [-> Hx]. destruct (pc_released x) eqn:Er; [apply wp_ret; split; [done|]; intros (y & Hy & Hr & _); congruence|].
  apply wp_bind. unfold set_conn. apply wp_modify. apply wp_bind.
  assert (forall l, connections (set_connections l p) = l) as El by done.
  eapply (wp_mono _ (fun _ p' => within own p' /\ ~ held p' c) _ (fun _ p' => within own p' /\ ~ held p' c)); [intros u p' Hp'; by apply wp_ret|done|].
  apply (keeps_on_ups own (fun cs l => ~ exists x, cs !! c = Some x /\ pc_released x = false /\ (c ∉ l)) _ (sized_release _ _)).
  split; [by eapply within_set|]. cbn. intros (y & Hy & Hr & _).
  rewrite list_lookup_insert_eq in Hy by (by eapply lookup_lt_Some). by injection Hy as <-.
Qed.
Lemma close_own c b p : within (Some c) p -> wp (close_locked c b) (fun _ => within None) (fun _ => within None) p.
Proof. intros Hp. eapply wp_mono; [| |by apply close_held]; intros ? p' [Hp' Hn]; by eapply within_drop. Qed.

(** The reservation that was taken, if one was. *)
Definition taken_by (r : reservation) : option nat := match r with Reserved c => Some c | _ => None end.
Lemma reserve_held now p : within None p -> wp (reserve_locked now) (fun r => within (taken_by r)) (fun _ => within None) p.
Proof.
  intros Hp. unfold reserve_locked. apply wp_bind. unfold wp at 1, get. destruct (rev (idle p)) as [|c rest] eqn:Ei.
  - apply wp_bind. eapply wp_mono; [| |apply (within_on_ups None _ (sized_acquire _) p Hp)]; [|done]. intros [l|] p1 Hp1; [|by apply wp_ret].
    apply wp_bind. unfold wp at 1, alloc_conn. apply wp_ret. destruct Hp1 as [Hg Hs Hh Ho]. split; try done; cbn.
    + intros c (x & [Hx|[Hge Hx]]%lookup_app_Some & Hr & Hi).
      * destruct (Hh c) as [?|?]; [by exists x|by left|done].
      * apply list_lookup_singleton_Some in Hx as [E _]. right. f_equal. lia.
    + intros c [= <-]. rewrite length_app. cbn. lia.
  - apply wp_bind. unfold put. apply wp_modify. set (p1 := set_idle _ p).
    assert (idle p = rev rest ++ [c]) as El by (rewrite <- (rev_involutive (idle p)), Ei; done).
    assert (forall x, connections p !! c = Some x -> within (Some c) p1) as Hp1.
    { intros x Hx. destruct Hp as [Hg Hs Hh Ho]. split; try done; cbn.
      - intros c' (y & Hy & Hr & Hi). cbn in Hy, Hi. destruct (decide (c' = c)) as [->|Hne]; [by right|]. left.
        destruct (Hh c') as [?|?]; [|done|done]. exists y. split; [done|]. split; [done|]. rewrite El.
        intros [Hin|Hin%list_elem_of_singleton]%elem_of_app; done.
      - intros c' [= <-]. by eapply lookup_lt_Some. }
    apply wp_bind. unfold wp at 1, get_conn. cbn [connections p1 set_idle]. destruct (connections p !! c) as [x|] eqn:Hx.
    2:{ destruct Hp as [Hg Hs Hh Ho]. split; try done. intros c' (y & Hy & Hr & Hi). cbn in Hy, Hi. destruct (Hh c') as [?|?]; [|by left|done].
        exists y. split; [done|]. split; [done|]. rewrite El. intros [Hin|Hin%list_elem_of_singleton]%elem_of_app; [done|]. subst. congruence. }
    specialize (Hp1 x eq_refl). destruct (_ && _); [by apply wp_ret|]. apply wp_bind.
    eapply wp_mono; [| |by apply close_own]; [|done]. intros h p2 Hp2. by apply wp_ret.
Qed.
Lemma release_held c now b p : within (Some c) p -> wp (release_locked c now b) (fun _ => within None) (fun _ => within None) p.
Proof.
  intros Hp. unfold release_locked. apply wp_bind. eapply wp_mono; [| |apply get_conn_spec]; cbv beta.
  2:{ intros e p' [-> E]. eapply within_drop; [done|]. intros (x & Hx & _). congruence. }
  intros x p' [-> Hx]. destruct (pc_released x) eqn:Er.
  { apply wp_raise. eapply within_drop; [done|]. intros (y & Hy & Hr & _). congruence. }
  apply wp_bind. unfold set_conn. apply wp_modify. set (p1 := set_connections _ p).
  assert (within (Some c) p1) as Hp1 by (by eapply within_set). apply wp_bind. unfold wp at 1, get. apply wp_bind.
  assert (exists g, on_ups (UpstreamGroup.get_group (po_group p1)) p1 = (Ok g, p1)) as [g Eg].
  { pose proof (wi_group _ _ _ _ Hp1) as Hg. rewrite <- (wi_groups _ _ _ _ Hp1) in Hg. destruct (lookup_lt_is_Some_2 _ _ Hg) as [g E].
    exists g. unfold on_ups, zoom, UpstreamGroup.get_group. rewrite E. by destruct p1. }
  unfold wp at 1. rewrite Eg. destruct (_ && _).
  - apply wp_bind, wp_modify, wp_ret. destruct Hp1 as [Hg Hs Hh Ho]. split; try done; cbn.
    intros c' (y & Hy & Hr & Hi). cbn in Hi. rewrite not_elem_of_app in Hi. destruct Hi as [Hi Hne].
    destruct (Hh c') as [?|[= ->]]; [by exists y|by left|]. destruct Hne. by left.
  - apply wp_bind. eapply wp_mono; [| |by apply close_own]; [|done]. intros h p2 Hp2. by apply wp_ret.
Qed.
Lemma opened_held c h p : within (Some c) p -> wp (opened_locked c h) (fun _ => within (Some c)) (fun _ => within (Some c)) p.
Proof.
  intros Hp. unfold opened_locked. apply wp_bind. eapply wp_mono; [| |apply get_conn_spec]; cbv beta; [|by intros e p' [-> _]].
  intros x p' [-> Hx]. destruct (_ || _); [by apply wp_ret|]. apply wp_bind. unfold set_conn. apply wp_modify, wp_ret. by eapply within_set.
Qed.
Lemma within_get_conn own c : keeps (within own) (get_conn c).
Proof. intros p Hp. eapply wp_mono; [| |apply get_conn_spec]; by intros ? p' [-> _]. Qed.
Lemma within_saturated own : keeps (within own) saturated.
Proof. unfold saturated. apply keeps_bind; [auto|]. intros p. apply within_on_ups, sized_saturated. Qed.
Lemma within_accept own e vs q : keeps (within own) (accept_and_order_addresses e vs q).
Proof. unfold accept_and_order_addresses. apply keeps_bind; [auto|]. intros p. apply within_on_ups, sized_accept. Qed.
Lemma within_connected own c : keeps (within own) (let! x := get_conn c in
  set_conn c (PooledUpstreamConnection (pc_handle x) (pc_lease x) (created_ms x) (last_used_ms x) true (pc_released x))).
Proof.
  intros p Hp. apply wp_bind. eapply wp_mono; [| |apply get_conn_spec]; [|by intros e p' [-> _]]. intros x p' [-> Hx].
  unfold set_conn. apply wp_modify. by eapply within_set.
Qed.
Lemma within_endpoint {A} own c (k : lease -> M upstreams A) : (forall l u, snd (k l u) = u) ->
  keeps (within own) (let! x := get_conn c in on_ups (let! l := UpstreamGroup.get_lease (pc_lease x) in k l)).
Proof.
  intros Hk. apply keeps_bind; [apply within_get_conn|]. intros x. apply within_on_ups, keeps_bind; [apply sized_get_lease|].
  intros l u Hu. unfold wp. specialize (Hk l u). by destruct (k l u) as [[?|?] ?]; cbn in Hk; subst.
Qed.
End pool.
End PoolHeld.

(** ** All pools of the world *)

Definition pools_of {W} (g : gateway_world W) : gmap str pool * upstreams := (gw_pools g, gw_ups g).
(** The group of each pool is one of the gateway's. *)
Definition pools_ok {W} (g : gateway_world W) : Prop :=
  forall name p, gw_pools g !! name = Some p -> (po_group p < length (groups (gw_ups g)))%nat.
Definition own_at (name : str) (own : option (str * nat)) : option nat :=
  match own with Some (m, c) => if decide (m = name) then Some c else None | None => None end.
(** What is held of any pool is in [B] or [own]. *)
Record fits (n : nat) (B : str -> nat -> Prop) (own : option (str * nat)) (x : gmap str pool * upstreams) : Prop := {
  fi_groups : length (groups (snd x)) = n;
  fi_pools : forall name p, fst x !! name = Some p -> within n (B name) (own_at name own) (set_ups (snd x) p);
  fi_own : forall name c, own = Some (name, c) -> is_Some (fst x !! name);
}.
(** A clock that answers whenever it is asked. *)
Definition clock_tells {W P I It} (e : surroundings W P I It) : Prop := forall w, exists n, fst (snd (o_now_ms e w)) = Ok n.

Create HintDb calm.
Module ProxyHeldInv.
Import GatewayConnection GatewayRun ProxyDriver PoolHeld.
Section driver.
Context {W0 P I It L T : Type} `{GatewayAdmission L} `{TlsSession T} `{DnsTransport W0}.
Context (env0 : surroundings W0 P I It) (net : upstream_net W0) (config : settings).
Context (n : nat) (B : str -> nat -> Prop).
Abbreviation W := (gateway_world W0).
Abbreviation state := (GatewayConnection.state (W:=W) (P:=P) (I:=I) (It:=It) (L:=L) (T:=T)).
Abbreviation C := (M state).
Abbreviation env := (ProxyDriver.env env0).
Abbreviation part := (pools_of (W := W0)).
Abbreviation still K := (keeps (of_part part K)).

Lemma leaves_beside {A} (m : outside W0 A) : leaves part (beside m).
Proof. intros g. unfold beside. by destruct (m (gw_world g)) as [es [r w]]. Qed.
Lemma apart_pools : apart part env.
Proof. split; intros; apply leaves_beside. Qed.
Hint Resolve apart_pools leaves_beside : still.
Lemma apart_upstream {A} K (m : outside W0 A) : still K (upstream_call env0 m : C A).
Proof. unfold upstream_call. apply apart_transport, leaves_beside. Qed.
Lemma apart_close_upstream K h : still K (close_upstream env0 h : C unit).
Proof. unfold close_upstream. apply apart_transport. apply (ap_close _ _ apart_pools). Qed.
Hint Resolve apart_upstream apart_close_upstream : still.

(** *** Methods of one pool, with the calls they make outside its lock *)

Abbreviation closer := (Some (close_upstream env0 : Z -> C unit)).
Definition both (K : gmap str pool * upstreams -> Prop) (Q : pool -> Prop) (s : pool * state) : Prop := Q (fst s) /\ of_part part K (snd s).
Lemma locked_both {A} K (m : M pool A) (Q : A -> pool -> Prop) E s : of_part part K (snd s) -> wp m Q E (fst s) ->
  wp (UpstreamConnectionPool.locked m : M (pool * state) A) (fun a => both K (Q a)) (fun e => both K (E e)) s.
Proof. intros Hs Hm. apply wp_zoom. eapply wp_mono; [| |exact Hm]; by intros. Qed.
Lemma close_handle_both K Q h : keeps (both K Q) (UpstreamConnectionPool.close_handle closer h).
Proof.
  cbn. destruct (h >=? 0); [|auto]. intros [p t] [Hp Ht]. unfold UpstreamConnectionPool.world. apply wp_zoom. cbn in *.
  eapply wp_mono; [| |by apply apart_close_upstream]; by intros.
Qed.
Section one_pool.
Context (K : gmap str pool * upstreams -> Prop) (Bp : nat -> Prop).
Abbreviation fine own := (both K (within n Bp own)).
Lemma reserve_both now s : fine None s ->
  wp (UpstreamConnectionPool.reserve closer now) (fun o => fine o) (fun _ => fine None) s.
Proof.
  intros Hs. unfold UpstreamConnectionPool.reserve. apply wp_bind. unfold wp at 1, UpstreamConnectionPool.locked, zoom, get.
  replace (fst s, snd s) with s by (by destruct s). generalize (S (length (ProxyPool.idle (fst s)))). intros k. revert s Hs.
  induction k as [|k IH]; intros s [Hp Ht]; [done|]. cbn [UpstreamConnectionPool.reserve_loop]. apply wp_bind.
  eapply wp_mono; [| |apply (locked_both K); [exact Ht|by apply reserve_held]]; [|done].
  intros [c| |h] s1 Hs1; [by apply wp_ret|by apply wp_ret|]. apply wp_bind.
  eapply wp_mono; [| |apply close_handle_both; exact Hs1]; [|done]. intros u s2 Hs2. by apply IH.
Qed.
Lemma opened_both c h s : fine (Some c) s ->
  wp (UpstreamConnectionPool.opened closer c h) (fun o => fine (option_map (fun _ => c) o)) (fun _ => fine (Some c)) s.
Proof.
  intros [Hp Ht]. unfold UpstreamConnectionPool.opened. destruct (h <? 0).
  - assert (forall s1, both K (fun p => within n Bp (Some c) p /\ ~ held p c) s1 -> fine (Some c) s1 /\ fine None s1) as Hboth.
    { intros s1 [[Hw Hn] Ht1]. split; [by split|]. split; [by eapply within_drop|done]. }
    apply wp_bind. eapply (wp_mono _ (fun _ => both K (fun p => within n Bp (Some c) p /\ ~ held p c)) _
      (fun _ => both K (fun p => within n Bp (Some c) p /\ ~ held p c))); [intros u s1 Hs1; apply wp_ret; by apply Hboth|intros e s1 Hs1; by apply Hboth|].
    unfold UpstreamConnectionPool.close_. apply wp_bind.
    eapply wp_mono; [| |apply (locked_both K); [exact Ht|by apply close_held]]; [|done].
    intros h' s1 Hs1. by apply close_handle_both.
  - apply wp_bind. eapply wp_mono; [| |apply (locked_both K); [exact Ht|by apply opened_held]]; [|done].
    intros [] s1 Hs1; [|by apply wp_ret]. apply wp_bind. eapply wp_mono; [| |apply close_handle_both; exact Hs1]; [|done].
    intros u s2 Hs2. by apply wp_raise.
Qed.
Lemma release_both c now b s : fine (Some c) s ->
  wp (UpstreamConnectionPool.release closer c now b) (fun _ => fine None) (fun _ => fine None) s.
Proof.
  intros [Hp Ht]. unfold UpstreamConnectionPool.release. apply wp_bind.
  eapply wp_mono; [| |apply (locked_both K); [exact Ht|by apply release_held]]; [|done]. intros [h|] s1 Hs1; [|by apply wp_ret].
  apply wp_bind. eapply wp_mono; [| |apply close_handle_both; exact Hs1]; [|done]. intros u s2 Hs2. by apply wp_ret.
Qed.
End one_pool.

(** *** Calls on a pool by its name *)

Abbreviation with_own own := (of_part part (fits n B own)).
Lemma own_at_self name c : own_at name (Some (name, c)) = Some c.
Proof. unfold own_at. by rewrite decide_True. Qed.
Lemma own_at_other name name' c : name <> name' -> own_at name (Some (name', c)) = None.
Proof. intros Hne. unfold own_at. by rewrite decide_False. Qed.
(** The reservation of [name] changes; no other one is there. *)
Definition named (name : str) (o : option nat) : option (str * nat) := option_map (pair name) o.
Lemma own_at_named name o : own_at name (named name o) = o.
Proof. destruct o; [apply own_at_self|done]. Qed.
Lemma put_pool_fits name p p' o o' x : fits n B (named name o) x -> fst x !! name = Some p -> within n (B name) o' p' ->
  fits n B (named name o') (<[name := p']> (fst x), ups p').
Proof.
  intros [Hg Hp Ho] Hx Hp'. split; cbn.
  - apply Hp'.
  - intros name' q. destruct (decide (name' = name)) as [->|Hne].
    + rewrite lookup_insert_eq. intros [= <-]. rewrite own_at_named. by destruct p'.
    + rewrite lookup_insert_ne by done. intros Hq. assert (forall o, own_at name' (named name o) = None) as Hn.
      { intros [c|]; [by apply own_at_other|done]. }
      destruct (Hp name' q Hq) as [Wg Ws Wh Wo]. rewrite !Hn in *. split; [done|apply Hp'|exact Wh|done].
  - intros name' c E. destruct o' as [c'|]; [|done]. injection E as <- <-. rewrite lookup_insert_eq. by eexists.
Qed.
Lemma on_pool_spec {A} name o (m : M (pool * state) A) (post : A -> option nat) o' t : with_own (named name o) t ->
  (o' = o \/ is_Some o) ->
  (forall p, within n (B name) o p -> wp m (fun a => both (eq (part (s_world t))) (within n (B name) (post a)))
    (fun _ => both (eq (part (s_world t))) (within n (B name) o')) (p, t)) ->
  wp (on_pool name m) (fun a => with_own (named name (post a))) (fun _ => with_own (named name o')) t.
Proof.
  intros Ht Ho' Hm. unfold wp, on_pool, pool_at. destruct (gw_pools (s_world t) !! name) as [p|] eqn:Ep; cbn [option_map].
  - pose proof (fi_pools _ _ _ _ Ht name p Ep) as Hp. rewrite own_at_named in Hp. specialize (Hm _ Hp). unfold wp in Hm.
    assert (forall p' t' o', both (eq (part (s_world t))) (within n (B name) o') (p', t') ->
      with_own (named name o') (set_world (put_pool name p' (s_world t')) t')) as Hput.
    { intros p' t' o1 [Hp' Et]. unfold of_part in *. cbn in Et |- *. injection Et as E1 E2. unfold pools_of, put_pool. cbn.
      rewrite <- E1. eapply (put_pool_fits name p p' o o1 (part (s_world t))); done. }
    destruct (m _) as [[a|e] [p' t']]; by apply Hput.
  - destruct Ho' as [->|[c ->]]; [done|]. destruct (fi_own _ _ _ _ Ht name c eq_refl) as [p E]. cbn in E. congruence.
Qed.
Lemma pool_call_fits {A} name own (m : M pool A) : (forall Bp o, keeps (within n Bp o) m) -> still (fits n B own) (pool_call name m : C A).
Proof.
  intros Hm t Ht. unfold wp, pool_call, on_pool, pool_at. destruct (gw_pools (s_world t) !! name) as [p|] eqn:Ep; cbn [option_map]; [|done].
  pose proof (fi_pools _ _ _ _ Ht name p Ep) as Hp. specialize (Hm _ _ _ Hp). unfold UpstreamConnectionPool.locked, zoom, wp in *. cbn in *.
  assert (forall p', within n (B name) (own_at name own) p' -> with_own own (set_world (put_pool name p' (s_world t)) t)) as Hput.
  { intros p' Hp'. destruct Ht as [Tg Tp To]. split; cbn; [apply Hp'| |].
    - intros name' q. destruct (decide (name' = name)) as [->|Hne]; [rewrite lookup_insert_eq; intros [= <-]; by destruct p'|].
      rewrite lookup_insert_ne by done. intros Hq. destruct (Tp name' q Hq) as [Wg Ws Wh Wo]. split; [done|apply Hp'|exact Wh|exact Wo].
    - intros name' c E. destruct (decide (name' = name)) as [->|Hne]; [rewrite lookup_insert_eq; by eexists|].
      rewrite lookup_insert_ne by done. by apply (To name' c). }
  destruct (m _) as [[a|e] p']; by apply Hput.
Qed.

(** ** The attempt *)

Context (plan_spec : P -> proxy_spec) (plan_upstream : P -> str).
Abbreviation attempt_state := (attempt_state (W0:=W0) (P:=P) (I:=I) (It:=It) (L:=L) (T:=T)).
Abbreviation X := (M attempt_state).

(** The local variable [pooled] is [o], and nothing else is held. *)
Definition holding (name : str) (o : option nat) (s : attempt_state) : Prop := a_pooled s = o /\ with_own (named name o) (a_conn s).
Abbreviation calm m := (forall name o, keeps (holding name o) m).

Lemma calm_conn {A} (m : C A) : (forall own, still (fits n B own) m) -> calm (conn_call m).
Proof.
  intros Hm name o s [Eo Hs]. unfold conn_call. apply wp_zoom. eapply wp_mono; [| |by apply Hm]; by intros.
Qed.
(** Calls over other fields of the attempt and of the world. *)
Lemma calm_same {A} (m : X A) : (forall s, match m s with (_, s') => part (s_world (a_conn s')) = part (s_world (a_conn s)) /\ a_pooled s' = a_pooled s end) -> calm m.
Proof.
  intros Hm name o s [Eo Hs]. unfold wp. specialize (Hm s). unfold holding, of_part in *. destruct (m s) as [[a|e] s'], Hm as [-> ->]; done.
Qed.
Lemma calm_modify (f : attempt_state -> attempt_state) :
  (forall s, a_conn (f s) = a_conn s /\ a_pooled (f s) = a_pooled s) -> calm (modify f).
Proof. intros Hf. apply calm_same. intros s. cbn. destruct (Hf s) as [-> ->]. done. Qed.
Lemma calm_deadline d : calm (set_deadline d : X unit).
Proof. by apply calm_modify. Qed.
Lemma calm_set_driver d : calm (set_driver d : X unit).
Proof. by apply calm_modify. Qed.
Lemma calm_reusable b : calm (set_reusable b : X unit).
Proof. by apply calm_modify. Qed.
Lemma calm_locals : calm (locals : X _).
Proof. by intros name o s. Qed.
Lemma calm_on_exchange {A} (m : M (ProxyExchange.st (W := L)) A) : calm (on_exchange m : X A).
Proof. apply calm_same. intros s. unfold on_exchange. destruct (a_exchange s) as [[x h]|]; [|done]. by destruct (m _) as [r t]. Qed.
Lemma calm_on_driver {A} (m : M (DnsResolveDriver.env (W := W0)) A) : calm (on_driver m : X A).
Proof.
  apply calm_same. intros s. unfold on_driver. destruct (a_driver s) as [d|]; [|done]. destruct (gw_resolver _) as [r|]; [|done].
  by destruct (m _) as [a t].
Qed.
Lemma calm_on_resolver {A} (m : M resolver A) : calm (on_resolver m : X A).
Proof. apply calm_same. intros s. unfold on_resolver. destruct (gw_resolver _) as [r|]; [|done]. by destruct (m r) as [a r']. Qed.
Hint Resolve calm_deadline calm_set_driver calm_reusable calm_locals calm_on_exchange calm_on_driver calm_on_resolver : calm.
Hint Resolve within_get_conn within_saturated within_accept : calm.

Ltac stay_still := repeat lazymatch goal with
  | |- keeps (of_part _ _) (bind _ _) => apply keeps_bind; [|intros ?]
  | |- keeps (of_part _ _) (if ?b then _ else _) => destruct b
  | |- keeps (of_part _ _) (match ?x with _ => _ end) => destruct x
  | |- keeps (of_part _ _) (on_life _) => by apply apart_zoom
  | |- keeps (of_part _ _) (upd _) => by apply apart_modify
  | |- keeps (of_part _ _) (pool_call _ _) => apply pool_call_fits; intros; solve [eauto with calm nocore]
  | |- keeps (of_part _ _) _ => solve [eauto with still nocore|auto]
  end.
Ltac calms := repeat lazymatch goal with
  | |- keeps _ (bind _ _) => apply keeps_bind; [|intros ?]
  | |- keeps _ (try_except _ _) => apply keeps_try; [|intros ?]
  | |- keeps _ (Prelude.attempt _) => apply keeps_attempt
  | |- keeps _ (if ?b then _ else _) => destruct b
  | |- keeps _ (match ?x with _ => _ end) => destruct x
  | |- keeps _ (conn_call _) => apply calm_conn; intros; stay_still
  | |- keeps _ _ => solve [eauto with calm nocore|auto]
  end.
(** The same after unfolding. *)
Tactic Notation "calm_of" reference(d) := intros *; unfold d; cbv zeta; calms.
Lemma calm_upd_deadline f : calm (upd_deadline f : X _). Proof. calm_of upd_deadline. Qed.
Lemma calm_hook h : calm (hook_call env0 h : X _). Proof. calm_of hook_call. Qed.
Lemma calm_metric name : calm (metric name : X _). Proof. calm_of metric. Qed.
Lemma calm_now : calm (now env0 : X _). Proof. calm_of now. Qed.
Lemma calm_cancelled r : calm (is_cancelled r : X _). Proof. calm_of is_cancelled. Qed.
Lemma calm_request_deadline r : calm (request_deadline r : X _). Proof. calm_of request_deadline. Qed.
Hint Resolve calm_upd_deadline calm_hook calm_metric calm_now calm_cancelled calm_request_deadline : calm.
Lemma calm_remaining r : calm (remaining_ms env0 r : X _). Proof. calm_of remaining_ms. Qed.
Hint Resolve calm_remaining : calm.
Lemma calm_failure r : calm (deadline_failure env0 r : X _). Proof. calm_of deadline_failure. Qed.
Lemma calm_wait_fd fd ev ms : calm (wait_fd env0 fd ev ms : X _). Proof. calm_of wait_fd. Qed.
Lemma calm_observe r : calm (observe_downstream env0 config r : X _). Proof. calm_of observe_downstream. Qed.
Hint Resolve calm_failure calm_wait_fd calm_observe : calm.
Lemma calm_wait_upstream fd ev ms r : calm (wait_upstream env0 config fd ev ms r : X _). Proof. calm_of wait_upstream. Qed.
Lemma calm_body_ended r : calm (body_ended r : X _). Proof. calm_of body_ended. Qed.
Lemma calm_consume_body r : calm (consume_body env0 config r : X _). Proof. calm_of consume_body. Qed.
Hint Resolve calm_wait_upstream calm_body_ended calm_consume_body : calm.
Lemma calm_read_downstream r ms : calm (read_downstream_body env0 config r ms : X _). Proof. calm_of read_downstream_body. Qed.
Lemma calm_cancel_driver : calm (cancel_driver : X _). Proof. calm_of cancel_driver. Qed.
Lemma calm_dns_finished host k e : calm (dns_finished env0 host k e : X _). Proof. calm_of dns_finished. Qed.
Lemma calm_begin_driver host q k l : calm (begin_driver host q k l : X _). Proof. calm_of begin_driver. Qed.
Hint Resolve calm_read_downstream calm_cancel_driver calm_dns_finished calm_begin_driver : calm.
Lemma calm_dns_failed host e : calm (dns_failed env0 host e : X _). Proof. calm_of dns_failed. Qed.
Hint Resolve calm_dns_failed : calm.
Lemma calm_dns_wait host h i rem r : calm (dns_wait env0 config host h i rem r : X _). Proof. calm_of dns_wait. Qed.
Hint Resolve calm_dns_wait : calm.
Lemma calm_resolve_loop name host e l r passes : forall q, calm (resolve_loop env0 config passes name host e l r q : X _).
Proof. induction passes as [|k IH]; intros q name0 o; cbn [resolve_loop]; cbv zeta; calms. Qed.
Hint Resolve calm_resolve_loop : calm.
Lemma calm_resolve passes name host e l r : calm (resolve_upstream_address env0 config passes name host e l r : X _). Proof. calm_of resolve_upstream_address. Qed.
Hint Resolve calm_resolve : calm.
Lemma calm_write_segment fd data r passes : forall offset, calm (write_segment env0 config passes fd data offset r : X _).
Proof. induction passes as [|k IH]; intros offset name o; cbn [write_segment]; calms. Qed.
Hint Resolve calm_write_segment : calm.
Lemma calm_write_queued fd r passes : calm (write_queued env0 config passes fd r : X _).
Proof. induction passes as [|k IH]; intros name o; cbn [write_queued]; unfold exchange_is; calms. Qed.
Hint Resolve calm_write_queued : calm.
Lemma apart_drain_output own passes : still (fits n B own) (drain_output env0 config passes : C _).
Proof. induction passes as [|k IH]; cbn [drain_output]; stay_still. Qed.
Hint Resolve apart_drain_output : still.
Lemma calm_flush passes : calm (flush_downstream env0 config passes : X _).
Proof. induction passes as [|k IH]; intros name o; cbn [flush_downstream]; unfold exchange_is; calms. Qed.
Hint Resolve calm_flush : calm.
Lemma calm_connect_loop h r passes : forall outcome, calm (connect_loop env0 net config passes h outcome r : X _).
Proof. induction passes as [|k IH]; intros outcome name o; cbn [connect_loop]; calms. Qed.
Hint Resolve calm_connect_loop : calm.
Lemma calm_connect passes e r addresses : forall h, calm (connect_addresses env0 net config passes e addresses h r : X _).
Proof. induction addresses as [|a addresses IH]; intros h name o; cbn [connect_addresses]; calms. Qed.
Hint Resolve calm_connect : calm.
Lemma calm_pooled_connection name c : calm (pooled_connection name c : X _).
Proof. calm_of pooled_connection. Qed.
Hint Resolve within_connected : calm.
Lemma calm_set_connected name c : calm (set_connected name c : X _).
Proof. calm_of set_connected. Qed.
Lemma calm_pooled_endpoint name c : calm (pooled_endpoint name c : X _).
Proof.
  intros *. apply calm_conn. intros own. apply pool_call_fits. intros Bp o1. apply within_endpoint. intros l u. by destruct (_ !! _).
Qed.
Lemma calm_refuse f : calm (refuse f : X _).
Proof. calm_of refuse. Qed.
Hint Resolve calm_pooled_connection calm_set_connected calm_pooled_endpoint calm_refuse : calm.
Lemma calm_new_exchange plan e r : calm (new_exchange config plan_spec plan e r : X _).
Proof.
  intros *. unfold new_exchange. cbv zeta. apply keeps_bind; [apply calm_conn; intros; stay_still|]. intros q.
  apply keeps_bind; [auto|]. intros target. apply calm_same. intros s. destruct (ProxyExchange.init _ _ _ _ _ _ _ _ _ _ _ _ _ _ _ _ _ _) as [[t|x] [h l]]; done.
Qed.
Lemma apart_read_body own passes r : still (fits n B own) (read_body env0 net passes r : C _).
Proof. induction passes as [|k IH]; cbn [read_body]; stay_still. Qed.
Hint Resolve calm_new_exchange : calm.
Hint Resolve apart_read_body : still.
Lemma calm_await_connected passes name c d r : calm (await_connected env0 net config passes name c d r : X _). Proof. calm_of await_connected. Qed.
Hint Resolve calm_await_connected : calm.
Lemma calm_forward_chunks fd r passes : calm (forward_chunks env0 net config passes fd r : X _).
Proof. induction passes as [|k IH]; intros name o; cbn [forward_chunks]; calms. Qed.
Hint Resolve calm_forward_chunks : calm.
Lemma calm_forward_body fd r passes : calm (forward_body env0 net config passes fd r : X _).
Proof. induction passes as [|k IH]; intros name o; cbn [forward_body]; calms. Qed.
Hint Resolve calm_forward_body : calm.
Lemma calm_send_request passes fd r : calm (send_request env0 net config passes fd r : X _). Proof. calm_of send_request. Qed.
Lemma calm_status : calm (status_now : X _). Proof. calm_of status_now. Qed.
Lemma calm_exchange_is f : calm (exchange_is f : X _). Proof. calm_of exchange_is. Qed.
Lemma calm_committed : calm (committed_now : X _). Proof. calm_of committed_now. Qed.
Hint Resolve calm_send_request calm_status calm_exchange_is calm_committed : calm.
Lemma calm_fail_with f b : calm (fail_with f b : X _). Proof. calm_of fail_with. Qed.
Lemma calm_on_response passes d : calm (on_response env0 config passes d : X _). Proof. calm_of on_response. Qed.
Hint Resolve calm_fail_with calm_on_response : calm.
Lemma calm_receive fd r passes : calm (receive_response env0 config passes fd r : X _).
Proof. induction passes as [|k IH]; intros name o; cbn [receive_response]; cbv zeta; calms. Qed.
Hint Resolve calm_receive : calm.
Lemma calm_protocol_error e : calm (on_protocol_error e : X _). Proof. calm_of on_protocol_error. Qed.
Hint Resolve calm_protocol_error : calm.

(** *** The reservation, and what becomes of it *)

(** What is held is the attempt's [pooled], if anything. *)
Definition keeping (name : str) (s : attempt_state) : Prop := exists o, holding name o s.
Lemma calm_keeping {A} name (m : X A) : calm m -> keeps (keeping name) m.
Proof. intros Hm s [o Hs]. eapply wp_mono; [| |by apply Hm]; intros ? s' Hs'; by exists o. Qed.
Lemma wp_conn_pool {A} name o (m : C A) (post : A -> option nat) o' s : holding name o s ->
  wp m (fun a => with_own (named name (post a))) (fun _ => with_own (named name o')) (a_conn s) ->
  wp (conn_call m) (fun a s' => a_pooled s' = o /\ with_own (named name (post a)) (a_conn s'))
    (fun _ s' => a_pooled s' = o /\ with_own (named name o') (a_conn s')) s.
Proof. intros [Eo _] Hm. unfold conn_call. apply wp_zoom. eapply wp_mono; [| |exact Hm]; by intros. Qed.
Lemma open_pooled_spec passes name c r s : holding name (Some c) s ->
  wp (open_pooled env0 net config passes name c r) (fun _ => keeping name) (fun _ => keeping name) s.
Proof.
  intros Hs. assert (forall s, holding name (Some c) s -> keeping name s) as Hk by (intros s' ?; by eexists).
  unfold open_pooled. apply wp_bind. eapply wp_mono; [| |by apply calm_pooled_endpoint]; [|auto]. intros [i e] s1 Hs1.
  apply wp_bind. unfold wp at 1, locals, get. apply wp_bind.
  eapply (wp_mono _ (fun _ => holding name (Some c)) _ (fun _ => holding name (Some c))); [|auto|].
  2:{ destruct (bool_decide _); [by apply calm_resolve|by apply wp_ret]. }
  intros [addresses failure] s2 Hs2. destruct (negb _); [apply wp_ret; auto|]. apply wp_bind.
  eapply wp_mono; [| |by apply calm_connect]; [|auto]. intros [h failure'] s3 Hs3. destruct (negb _); [apply wp_ret; auto|]. apply wp_bind.
  eapply wp_mono; [| |apply (wp_conn_pool name (Some c) _ (option_map (fun _ => c)) (Some c)); [exact Hs3|]].
  - intros [c'|] s4 [E4 H4].
    + apply wp_bind. eapply wp_mono; [| |apply (calm_keeping name _ (calm_set_connected _ _)); by exists (Some c)]; [|done].
      intros u s5 Hs5. by apply wp_ret.
    + apply wp_bind. unfold set_pooled. apply wp_modify, wp_ret. by exists None.
  - intros x s4 H4. by exists (Some c).
  - apply (on_pool_spec name (Some c) _ (option_map (fun _ => c)) (Some c)); [exact (proj2 Hs3)|by left|]. intros p Hp. apply opened_both. by split.
Qed.
Hint Resolve calm_send_request calm_receive calm_new_exchange calm_fail_with : calm.
(** The reservation is taken by [reserve]; the calls after it leave it alone. *)
Lemma attempt_body_spec passes plan r s : holding (plan_upstream plan) None s ->
  wp (attempt_body env0 net config plan_spec plan_upstream passes plan r) (fun _ => keeping (plan_upstream plan)) (fun _ => keeping (plan_upstream plan)) s.
Proof.
  set (name := plan_upstream plan). intros Hs. assert (forall o s, holding name o s -> keeping name s) as Hk by (intros o s' ?; by exists o).
  unfold attempt_body. fold name. cbv zeta. apply wp_bind. unfold wp at 1, locals, get. apply wp_bind.
  eapply (wp_mono _ (fun _ => holding name None) _ (fun _ => holding name None)); [|intros e s1 Hk'; exact (Hk _ _ Hk')|].
  2:{ assert (calm (conn_call (pool_call name UpstreamConnectionPool.saturated) : X bool)) as Hc by (intros; calms). by apply Hc. }
  intros full s1 Hs1. apply wp_bind. eapply wp_mono; [| |by apply calm_now]; [|intros e s2 Hk'; exact (Hk _ _ Hk')]. intros t s2 Hs2. apply wp_bind.
  eapply wp_mono; [| |apply (wp_conn_pool name None _ (fun o => o) None); [exact Hs2|]].
  3:{ apply (on_pool_spec name None _ (fun o => o) None); [exact (proj2 Hs2)|by left|]. intros p Hp. apply reserve_both. by split. }
  2:{ intros e s3 H3. by exists None. }
  intros [c|] s3 [E3 H3]; [|apply wp_ret; by exists None]. apply wp_bind. unfold set_pooled at 1. apply wp_modify.
  set (s4 := AttemptState _ _ _ _ _ _). assert (holding name (Some c) s4) as Hs4 by done. apply wp_bind.
  eapply wp_mono; [| |by apply calm_pooled_connection]; [|intros e s5 Hk'; exact (Hk _ _ Hk')]. intros x s5 Hs5. apply wp_bind.
  eapply (wp_mono _ (fun _ => keeping name) _ (fun _ => keeping name)); [|done|].
  2:{ destruct (needs_open x); [by apply open_pooled_spec|apply wp_ret; exact (Hk _ _ Hs5)]. }
  intros ended s6 Hs6. match goal with |- wp ?m _ _ _ => assert (calm m) as Hm end.
  { intros; calms. }
  by apply (calm_keeping name _ Hm).
Qed.
Lemma apart_clock K : clock_tells env0 -> forall t, of_part part K t ->
  wp (now_ms env : C Z) (fun _ => of_part part K) (fun _ _ => False) t.
Proof.
  intros Hc t Ht. pose proof (apart_now env part K apart_pools t Ht) as Hn. unfold wp, now_ms in *. destruct (o_transport env); [|done].
  unfold outside_call, ProxyDriver.env, beside_env, beside in *. cbn in *. specialize (Hc (gw_world (s_world t))) as [k Ek].
  destruct (o_now_ms env0 (gw_world (s_world t))) as [es [r w]]. cbn in Ek. by subst r.
Qed.
(** The connection the attempt holds is there, and is not held any more once it is released. *)
Lemma own_connection name c s : holding name (Some c) s ->
  wp (pooled_connection name c) (fun x s' => holding name (Some c) s' /\ (pc_released x = true -> with_own None (a_conn s')))
    (fun _ _ => False) s.
Proof.
  intros [Eo Hs]. unfold pooled_connection, conn_call. apply wp_zoom. unfold wp, pool_call, on_pool, pool_at.
  destruct (fi_own _ _ _ _ Hs name c eq_refl) as [p Ep]. cbn in Ep. rewrite Ep. cbn [option_map].
  pose proof (fi_pools _ _ _ _ Hs name p Ep) as Hp. rewrite own_at_named in Hp.
  pose proof (wi_own _ _ _ _ Hp c eq_refl) as Hc. destruct (lookup_lt_is_Some_2 _ _ Hc) as [x Ex].
  unfold UpstreamConnectionPool.locked, zoom, UpstreamConnectionPool.get_conn. cbn in Ex |- *. rewrite Ex.
  split.
  - split; [done|]. exact (put_pool_fits name p _ (Some c) (Some c) _ Hs Ep Hp).
  - intros Er. refine (put_pool_fits name p _ (Some c) None _ Hs Ep _). eapply within_drop; [exact Hp|].
    intros (y & Ey & Hr & _). cbn in Ey. congruence.
Qed.
Lemma calm_spent {A} (m : C A) s : still (fits n B None) m -> with_own None (a_conn s) ->
  wp (conn_call m) (fun _ s' => with_own None (a_conn s')) (fun _ s' => with_own None (a_conn s')) s.
Proof. intros Hm Hs. unfold conn_call. apply wp_zoom. eapply wp_mono; [| |by apply Hm]; by intros. Qed.
Lemma cleanup_held plan s : clock_tells env0 -> keeping (plan_upstream plan) s ->
  wp (cleanup_attempt env0 plan_upstream plan) (fun _ s' => with_own None (a_conn s')) (fun _ _ => False) s.
Proof.
  set (name := plan_upstream plan). intros Hc [o Hs]. unfold cleanup_attempt. fold name. apply wp_bind. unfold wp at 1, locals, get. apply wp_each.
  eapply (wp_mono _ (fun _ => holding name o) _ (fun _ => holding name o)).
  3:{ destruct (bool_decide _); [by apply calm_on_exchange|by apply wp_ret]. }
  all: intros ? s1 Hs1; apply wp_each;
    (eapply (wp_mono _ (fun _ s' => with_own None (a_conn s')) _ (fun _ s' => with_own None (a_conn s'))));
    [intros ? s2 Hs2; apply wp_each; (eapply wp_mono; [| |apply calm_spent; [by apply apart_zoom|exact Hs2]]);
      intros ? s3 Hs3; by apply wp_ret..|].
  all: destruct Hs as [-> _]; destruct o as [c|]; [|by apply wp_ret; apply Hs1]; apply wp_bind;
    (eapply wp_mono; [| |by apply own_connection]; [|done]); intros x s2 [Hs2 Hr]; (destruct (pc_released x); [by apply wp_ret; apply Hr|]).
  all: apply wp_bind; unfold now at 1, conn_call at 1; apply wp_zoom; destruct Hs2 as [E2 Hs2];
    (eapply wp_mono; [| |by apply apart_clock]; [|done]); intros t t2 Ht2; apply wp_bind;
    (eapply wp_mono; [| |apply (wp_conn_pool name (Some c) _ (fun _ => None) None); [by split|]]); [intros ? s3 [_ Hs3]; by apply wp_ret|by intros ? s3 [_ Hs3]|].
  all: apply (on_pool_spec name (Some c) _ (fun _ => None) None); [exact Ht2|right; by eexists|]; intros p Hp; apply release_both; by split.
Qed.
(** The whole attempt holds nothing in the end. *)
Lemma run_attempt_held passes plan r s : clock_tells env0 -> holding (plan_upstream plan) None s ->
  wp (run_attempt env0 net config plan_spec plan_upstream passes plan r)
    (fun _ s' => with_own None (a_conn s')) (fun _ s' => with_own None (a_conn s')) s.
Proof.
  intros Hc Hs. unfold run_attempt. apply wp_bind.
  eapply (wp_mono _ (fun _ => keeping (plan_upstream plan)) _ (fun _ _ => False)); [|done|].
  - intros o s1 Hs1. apply wp_bind. eapply wp_mono; [| |by apply cleanup_held]; [|done]. intros c s2 Hs2.
    destruct o as [v|e]; [|by apply wp_raise]. by destruct c.
  - unfold capture_attempt. apply wp_try, wp_bind, wp_try. eapply wp_mono; [| |by apply attempt_body_spec].
    + intros v s1 Hs1. by apply wp_ret.
    + intros e s1 Hs1. cbv beta in Hs1. eapply wp_mono; [| |apply (calm_keeping _ _ (calm_protocol_error e) _ Hs1)]; intros ? s2 Hs2; by apply wp_ret.
Qed.
Lemma exchange_attempt_held passes plan r number : clock_tells env0 ->
  still (fits n B None) (proxy_exchange_attempt env0 net config plan_spec plan_upstream passes plan r number : C _).
Proof.
  intros Hc. unfold proxy_exchange_attempt. apply keeps_bind; [stay_still|]. intros t. apply keeps_bind; [stay_still|]. intros [|]; cbn [negb]; [|auto].
  intros s Hs. unfold wp. pose proof (run_attempt_held passes plan r
    (AttemptState s (ProxyDeadline.init (timeouts (plan_spec plan)) t) None None None false) Hc (conj eq_refl Hs)) as Hr.
  unfold wp in Hr. cbn. by destruct (run_attempt _ _ _ _ _ _ _ _ _) as [[v|e] s'].
Qed.
End driver.

(** A world holds what it holds, and what fits it is held in it. *)
Lemma fits_self {W} (g : gateway_world W) : pools_ok g -> fits (length (groups (gw_ups g))) (held_in g) None (pools_of g).
Proof.
  intros Hg. split; [done| |done]. intros name p Ep. cbn in Ep. split; [exact (Hg name p Ep)|done| |done].
  intros c Hc. left. by exists p.
Qed.
Lemma fits_held {W} n B (g : gateway_world W) name c : fits n B None (pools_of g) -> held_in g name c -> B name c.
Proof. intros [_ Hp _] (p & Ep & Hc). destruct (wi_held _ _ _ _ (Hp name p Ep) c Hc) as [?|?]; done. Qed.
End ProxyHeldInv.
