(* ===== verification/ProxyDriverSpec.v ===== *)
(** * A proxy attempt gives back what it takes

    Whatever the upstream, the pools, the resolver, the client and outside code do, and
    wherever the attempt ends, its cleanup cancels the exchange and gives back the admission:
    the gauges of the gateway count for it exactly what they counted before.  So the attempt
    is one of the calls that [ConnectionRunSpec] asks of the loop of a connection. *)

From S2P Require Import Prelude PyStr Buffer Http1 Models ModelsSpec Config DnsPolicy DnsResolver Tls Proxy ProxyHttp1 ProxyExchange ProxyExchangeSpec ProxyPool.
From S2P Require Import ConnectionBodies Connection ConnectionOwners ConnectionSpec ConnectionSystem ConnectionRun ConnectionRunSpec ProxyDriver.
#[local] Open Scope Z_scope.

(** The accounting of bytes, the other gauges fixed. *)
Definition held_at {L} `{AdmissionLaws L} (r q u : Z) : AccountingLaws L.
Proof.
  refine {| acc_held l n := gauges l r q u n |}.
  - intros l b n Hn Hg. exact (law_reserve l r q u b n Hn Hg).
  - intros l b n Hn Hg. exact (law_release l r q u b n Hn Hg).
Defined.

(** [n] bytes are reserved for the two buffers of an exchange. *)
Definition exchange_holds (n : Z) (x : exchange) (h : heap) : Prop := exists f g,
  two_buffers no_ext h (to_upstream x) (to_downstream x) f g /\
  (ex_cancelled x = true -> f_closed f = true /\ f_closed g = true) /\
  n = if accounting x then len (f_bytes f) + len (f_bytes g) else 0.

Lemma exchange_holds_nonneg n x h : exchange_holds n x h -> 0 <= n.
Proof. intros (f & g & _ & _ & ->). pose proof (len_nonneg (f_bytes f)). pose proof (len_nonneg (f_bytes g)). destruct (accounting x); lia. Qed.
Lemma exchange_holds_cancelled n x h : exchange_holds n x h -> ex_cancelled x = true -> n = 0.
Proof.
  intros (f & g & [Hf Hg _] & Hc & ->) E. destruct (Hc E) as [Ef Eg].
  pose proof (closed_empty _ _ _ _ _ Hf) as Z1. pose proof (closed_empty _ _ _ _ _ Hg) as Z2.
  rewrite Ef in Z1. rewrite Eg in Z2. rewrite Z1, Z2. by destruct (accounting x).
Qed.

Section exchange.
Context {L : Type} `{AdmissionLaws L} (r q u b : Z).
Abbreviation ex_inv := (ProxyExchangeSpec.inv (H0 := held_at r q u) no_ext b 0).
Lemma ex_inv_split (t : ProxyExchange.st (W := L)) : ex_inv t <-> exists n,
  exchange_holds n (ProxyExchange.s_ex t) (ProxyExchange.s_heap t) /\ gauges (ProxyExchange.s_world t) r q u (b + n).
Proof.
  split.
  - intros (f & g & [Hb Hh _ Hc]). eexists. split; [by exists f, g|exact Hh].
  - intros (n & (f & g & Hb & Hc & ->) & Hh). exists f, g. by split.
Qed.
End exchange.

Module ProxyDriverInv.
Import GatewayConnection ConnectionInv GatewayRun GatewayRunInv ProxyDriver.
Section driver.
Context {W0 P I It L T : Type} `{AdmissionLaws L} `{TlsSession T} `{DnsTransport W0}.
Context (env0 : surroundings W0 P I It) (net : upstream_net W0) (config : settings).
Context (plan_spec : P -> proxy_spec) (plan_upstream : P -> str).
Context (others : base) (Hothers : base_ok others) (Hpolite : polite env0).
Abbreviation W := (gateway_world W0).
Abbreviation state := (GatewayConnection.state (W:=W) (P:=P) (I:=I) (It:=It) (L:=L) (T:=T)).
Abbreviation C := (M state).
Abbreviation env := (ProxyDriver.env env0).
Abbreviation X := (M (attempt_state (W0:=W0) (P:=P) (I:=I) (It:=It) (L:=L) (T:=T))).
Abbreviation inv := (inv others).
Abbreviation stays := (stays others).
Abbreviation quiet := (quiet others).

Lemma polite_beside : polite env.
Proof.
  intros h w a. cbn. unfold beside. pose proof (Hpolite h (gw_world w)) as Hp.
  destruct (o_hook env0 h (gw_world w)) as [es [r w']]. apply Hp.
Qed.

(** ** The admission of an exchange *)

Definition add_upstream (n : Z) (fr : frame) : frame :=
  Frame (f_requests fr) (f_queued fr) (f_upstream fr + n) (f_reserved fr) (f_events fr) (f_open fr) (f_closing fr).
Lemma admit_upstream_spec fr t : inv fr t ->
  wp (on_life la_admit_upstream : C bool)
    (fun ok t' => inv (if ok : bool then add_upstream 1 fr else fr) t' /\ core (s_conn t') = core (s_conn t))
    (fun _ _ => False) t.
Proof.
  intros Hi. pose proof (i_frame _ _ _ Hi) as (? & ? & ? & ?).
  destruct (law_admit_upstream _ _ _ _ _ (i_gauges _ _ _ Hi)) as (ok & l' & E & Hg').
  apply wp_life. eapply wp_run; [exact E|]. split; [|done].
  eapply inv_life; [exact Hi| |by destruct ok..|destruct ok; cbn; lia]. destruct ok; [|done]. cbn. by rewrite Z.add_assoc.
Qed.
Lemma release_upstream_spec fr t : inv (add_upstream 1 fr) t -> 0 <= f_upstream fr ->
  wp (on_life la_release_upstream : C unit) (fun _ t' => inv fr t' /\ core (s_conn t') = core (s_conn t)) (fun _ _ => False) t.
Proof.
  intros Hi Hf. pose proof (i_frame _ _ _ Hi) as (? & ? & _ & ?). destruct Hothers as (? & ? & ? & ?).
  pose proof (i_gauges _ _ _ Hi) as Hg. cbn [add_upstream f_requests f_queued f_upstream f_reserved] in *.
  edestruct law_release_upstream as (l' & E & Hg'); [|exact Hg|]; [lia|].
  apply wp_life. eapply wp_run; [exact E|]. split; [|done].
  eapply inv_life; [exact Hi| |done|done|done|lia]. by replace (_ + _ - 1) with (b_upstream others + f_upstream fr) in Hg' by lia.
Qed.

(** ** Calls on a pool leave the connection as it is *)

Definition beside_pool (fr : frame) k (s : pool * state) : Prop := inv fr (snd s) /\ core (s_conn (snd s)) = k.
Definition pooled {A} (m : M (pool * state) A) : Prop := forall fr k, keeps (beside_pool fr k) m.

Lemma inv_world fr (t : state) w : inv fr t -> inv fr (set_world w t).
Proof. intros Hi. by apply (inv_core others fr t). Qed.
Lemma quiet_on_pool {A} name (m : M (pool * state) A) : pooled m -> quiet (on_pool name m).
Proof.
  intros Hm fr t Hi. unfold wp, on_pool. destruct (pool_at name (s_world t)) as [p|]; [|by split].
  pose proof (Hm fr (core (s_conn t)) (p, t) (conj Hi eq_refl)) as Hw. unfold wp in Hw.
  destruct (m (p, t)) as [[a|e] [p' t']]; destruct Hw as [Hi' E]; (split; [by apply inv_world|done]).
Qed.
Lemma pooled_locked {A} (m : M pool A) : pooled (UpstreamConnectionPool.locked m).
Proof. intros fr k. by apply keeps_zoom. Qed.
Lemma pooled_world {A} (m : C A) : quiet m -> pooled (UpstreamConnectionPool.world m).
Proof.
  intros Hm fr k [p t] [Hi <-]. apply wp_zoom. cbn.
  eapply wp_mono; [| |by apply Hm]; by intros ? t'.
Qed.
Lemma pooled_bind {A B} (m : M (pool * state) A) (f : A -> M (pool * state) B) : pooled m -> (forall a, pooled (f a)) -> pooled (bind m f).
Proof. intros Hm Hf fr k. apply keeps_bind; [apply Hm|intros a; apply Hf]. Qed.
Lemma pooled_ret {A} (a : A) : pooled (ret a).
Proof. intros fr k. auto. Qed.
Lemma pooled_raise {A} e : pooled (@raise _ A e).
Proof. intros fr k. auto. Qed.
Hint Resolve pooled_locked pooled_ret pooled_raise : calls.
Lemma quiet_close_upstream h : quiet (close_upstream env0 h : C unit).
Proof. unfold close_upstream. pose proof polite_beside. quiet_calls. Qed.
Lemma pooled_close h : pooled (UpstreamConnectionPool.close_handle (Some (close_upstream env0 : Z -> C unit)) h).
Proof. cbn. destruct (h >=? 0); [by apply pooled_world, quiet_close_upstream|apply pooled_ret]. Qed.
Hint Resolve pooled_close : calls.
Ltac pool_calls := repeat lazymatch goal with
  | |- pooled (bind _ _) => apply pooled_bind; [|intros ?]
  | |- pooled (if ?b then _ else _) => destruct b
  | |- pooled (match ?x with _ => _ end) => destruct x
  | |- pooled _ => solve [eauto with calls nocore]
  end.
Abbreviation closer := (Some (close_upstream env0 : Z -> C unit)).
Lemma pooled_reserve n : pooled (UpstreamConnectionPool.reserve closer n).
Proof.
  unfold UpstreamConnectionPool.reserve. apply pooled_bind; [apply pooled_locked|]. intros p.
  induction (S (length (ProxyPool.idle p))) as [|k IH]; cbn [UpstreamConnectionPool.reserve_loop]; pool_calls.
Qed.
Lemma pooled_opened c h : pooled (UpstreamConnectionPool.opened closer c h).
Proof. unfold UpstreamConnectionPool.opened, UpstreamConnectionPool.close_. pool_calls. Qed.
Lemma pooled_release c n b : pooled (UpstreamConnectionPool.release closer c n b).
Proof. unfold UpstreamConnectionPool.release. pool_calls. Qed.
Lemma quiet_pool_call {A} name (m : M pool A) : quiet (pool_call name m : C A).
Proof. apply quiet_on_pool, pooled_locked. Qed.
Lemma quiet_upstream {A} (m : outside W0 A) : quiet (upstream_call env0 m : C A).
Proof. pose proof polite_beside. unfold upstream_call. quiet_calls. Qed.
Hint Resolve quiet_on_pool quiet_pool_call quiet_upstream quiet_close_upstream pooled_reserve pooled_opened pooled_release : calls.

(** ** The state of an attempt *)

Context (fr : frame) (Hfr : f_closing fr = false) (Hup : 0 <= f_upstream fr) (Hres : 0 <= f_reserved fr) (was_closed : bool).

(** What the attempt holds: its admission and [n] bytes. *)
Definition taken (n : Z) : frame := add_upstream 1 (add_reserved n fr).
Definition at_frame (f : frame) (t : state) : Prop := inv f t /\ c_closed (s_conn t) = was_closed.
Definition part_holds (n : Z) (o : option (exchange * heap)) : Prop :=
  match o with Some (x, h) => exchange_holds n x h | None => n = 0 end.
Definition driving (o : option (exchange * heap)) (s : attempt_state) : Prop :=
  a_exchange s = o /\ exists n, at_frame (taken n) (a_conn s) /\ part_holds n o.
Definition driven (s : attempt_state) : Prop := driving (a_exchange s) s.

(** A call that leaves the exchange alone, and one that may use it. *)
Definition plain {A} (m : X A) : Prop := forall o, keeps (driving o) m.
Definition steady {A} (m : X A) : Prop := keeps driven m.

Lemma driven_driving o s : driving o s -> driven s.
Proof. intros [<- Hs]. by split. Qed.
Lemma plain_steady {A} (m : X A) : plain m -> steady m.
Proof. intros Hm s Hs. eapply wp_mono; [| |exact (Hm _ s Hs)]; intros ? s'; apply driven_driving. Qed.

Lemma plain_ret {A} (a : A) : plain (ret a).
Proof. intros o. auto. Qed.
Lemma plain_raise {A} e : plain (@raise _ A e).
Proof. intros o. auto. Qed.
Lemma plain_lift {A} (r : result A) : plain (lift r).
Proof. intros o. auto. Qed.
Lemma plain_locals : plain (locals : X _).
Proof. by intros o s Hs. Qed.
Lemma plain_bind {A B} (m : X A) (k : A -> X B) : plain m -> (forall a, plain (k a)) -> plain (bind m k).
Proof. intros Hm Hk o. apply keeps_bind; [apply Hm|intros a; apply Hk]. Qed.
Lemma plain_try {A} (m : X A) h : plain m -> (forall e, plain (h e)) -> plain (try_except m h).
Proof. intros Hm Hh o. apply keeps_try; [apply Hm|intros e; apply Hh]. Qed.
Lemma plain_attempt (m : X unit) : plain m -> plain (Prelude.attempt m).
Proof. intros Hm o. apply keeps_attempt, Hm. Qed.
Lemma attempt_steady_bind {A B} (m : X A) (k : A -> X B) : steady m -> (forall a, steady (k a)) -> steady (bind m k).
Proof. apply keeps_bind. Qed.

Lemma at_frame_call {A} (m : C A) f : stays m -> f_closing f = false -> keeps (at_frame f) m.
Proof. intros Hm Hf t [Hi Ec]. eapply wp_mono; [| |by apply Hm]; intros ? t' [Hi' E]; (split; [done|congruence]). Qed.
Lemma wp_conn_call {A} (m : C A) Q E (s : attempt_state) :
  wp m (fun a t => Q a (AttemptState t (a_deadline s) (a_pooled s) (a_exchange s) (a_driver s) (a_reusable s)))
    (fun e t => E e (AttemptState t (a_deadline s) (a_pooled s) (a_exchange s) (a_driver s) (a_reusable s))) (a_conn s) ->
  wp (conn_call m) Q E s.
Proof. intros Hm. by apply wp_zoom. Qed.
Lemma plain_conn {A} (m : C A) : stays m -> plain (conn_call m).
Proof.
  intros Hm o s [Eo (n & Ht & Hn)]. apply wp_conn_call.
  eapply wp_mono; [| |by apply (at_frame_call m (taken n))]; intros ? t' Ht'; (split; [done|]); by exists n.
Qed.
Lemma plain_set (f : attempt_state -> attempt_state) :
  (forall s, a_conn (f s) = a_conn s /\ a_exchange (f s) = a_exchange s) -> plain (modify f).
Proof. intros Hf o s [Eo Hs]. apply wp_modify. destruct (Hf s) as [E1 E2]. split; [by rewrite E2|by rewrite E1]. Qed.
Lemma plain_deadline d : plain (set_deadline d : X unit).
Proof. by apply plain_set. Qed.
Lemma plain_pooled c : plain (set_pooled c : X unit).
Proof. by apply plain_set. Qed.
Lemma plain_set_driver d : plain (set_driver d : X unit).
Proof. by apply plain_set. Qed.
Lemma plain_reusable b : plain (set_reusable b : X unit).
Proof. by apply plain_set. Qed.
Lemma plain_upd_deadline f : plain (upd_deadline f : X unit).
Proof. apply plain_bind; [apply plain_locals|intros s; apply plain_deadline]. Qed.
(** The resolver is of the world outside the connection. *)
Lemma plain_world {A} (m : X A) :
  (forall s, match m s with (_, s') => (exists w, a_conn s' = set_world w (a_conn s)) /\ a_exchange s' = a_exchange s end) -> plain m.
Proof.
  intros Hm o s [Eo (n & [Hi Hc] & Hn)]. unfold wp. specialize (Hm s).
  destruct (m s) as [[a|e] s'], Hm as [[w E1] E2]; (split; [congruence|]); exists n; rewrite E1; (split; [|done]); (split; [by apply inv_world|done]).
Qed.
Lemma set_world_same (t : state) : set_world (s_world t) t = t.
Proof. by destruct t. Qed.
Lemma plain_on_driver {A} (m : M (DnsResolveDriver.env (W := W0)) A) : plain (on_driver m : X A).
Proof.
  apply plain_world. intros s. unfold on_driver.
  destruct (a_driver s) as [d|]; [destruct (gw_resolver _) as [r|]|];
    [destruct (m _) as [a t]; by eauto|split; [by eexists; symmetry; apply set_world_same|done]..].
Qed.
Lemma plain_on_resolver {A} (m : M resolver A) : plain (on_resolver m : X A).
Proof.
  apply plain_world. intros s. unfold on_resolver.
  destruct (gw_resolver _) as [r|]; [destruct (m r) as [a r']; by eauto|split; [by eexists; symmetry; apply set_world_same|done]].
Qed.

(** ** Calls on the exchange *)

Lemma wp_on_exchange {A} (m : M (ProxyExchange.st (W := L)) A) (Q : A -> attempt_state -> Prop) (E : exn -> attempt_state -> Prop) (s : attempt_state) x h :
  a_exchange s = Some (x, h) ->
  (let after t := AttemptState (set_life (ProxyExchange.s_world t) (a_conn s)) (a_deadline s) (a_pooled s)
                    (Some (ProxyExchange.s_ex t, ProxyExchange.s_heap t)) (a_driver s) (a_reusable s) in
   wp m (fun a t => Q a (after t)) (fun e t => E e (after t)) (ProxyExchange.St x h (s_life (a_conn s)))) ->
  wp (on_exchange m : X A) Q E s.
Proof. cbv zeta. intros Ex Hm. unfold wp, on_exchange in *. rewrite Ex. by destruct (m _) as [[a|e] t]. Qed.

(** What the other gauges are while an exchange runs, and the bytes that are not its own. *)
Definition gauge_requests (t : state) : Z := b_requests others + admissions (s_conn t) + f_requests fr.
Definition gauge_queued (t : state) : Z := b_queued others + heads (deferred_events (s_conn t)) + f_queued fr.
Definition gauge_upstream : Z := b_upstream others + (f_upstream fr + 1).
Definition gauge_bytes (t : state) : Z := b_bytes others + queued_bytes (fst (s_output t)) + f_reserved fr.
Definition laws (t : state) : AccountingLaws L := held_at (gauge_requests t) (gauge_queued t) gauge_upstream.
Definition ex_inv (t : state) : ProxyExchange.st (W := L) -> Prop := ProxyExchangeSpec.inv (H0 := laws t) no_ext (gauge_bytes t) 0.

Lemma at_frame_gauges n t : at_frame (taken n) t ->
  gauges (s_life t) (gauge_requests t) (gauge_queued t) gauge_upstream (gauge_bytes t + n).
Proof.
  intros [Hi _]. unfold gauge_bytes. rewrite <- Z.add_assoc. exact (i_gauges _ _ _ Hi).
Qed.
Lemma gauge_bytes_nonneg n t : at_frame (taken n) t -> 0 <= gauge_bytes t.
Proof. intros [Hi _]. pose proof (buffered_nonneg _ _ _ Hi). destruct Hothers as (_ & _ & _ & ?). unfold gauge_bytes. lia. Qed.
(** Another count of bytes, and an accounting that counts them. *)
Lemma at_frame_life n n' l t : at_frame (taken n) t -> 0 <= n' ->
  gauges l (gauge_requests t) (gauge_queued t) gauge_upstream (gauge_bytes t + n') -> at_frame (taken n') (set_life l t).
Proof.
  intros [Hi Hc] Hn Hg. split; [|done]. pose proof (i_frame _ _ _ Hi) as (? & ? & ? & ?).
  eapply inv_life; [exact Hi| |done..|cbn in *; lia]. unfold gauge_bytes in Hg. rewrite <- (Z.add_assoc _ (f_reserved fr)) in Hg. exact Hg.
Qed.
Lemma ex_inv_of o s x h : driving o s -> a_exchange s = Some (x, h) -> ex_inv (a_conn s) (ProxyExchange.St x h (s_life (a_conn s))).
Proof. intros [<- (n & Ht & Hn)] Ex. rewrite Ex in Hn. apply ex_inv_split. exists n. split; [done|]. by apply at_frame_gauges. Qed.
Lemma ex_inv_after o s t (made := AttemptState (set_life (ProxyExchange.s_world t) (a_conn s)) (a_deadline s) (a_pooled s)
                    (Some (ProxyExchange.s_ex t, ProxyExchange.s_heap t)) (a_driver s) (a_reusable s)) :
  driving o s -> ex_inv (a_conn s) t -> driven made.
Proof.
  intros [<- (n & Ht & _)] Hi. apply ex_inv_split in Hi as (n' & Hn & Hg). split; [done|]. exists n'. split; [|done].
  eapply at_frame_life; [done|by eapply exchange_holds_nonneg|done].
Qed.

(** A method of the exchange that keeps its invariant, whatever accounting it is over. *)
Definition safe {A} (m : M (ProxyExchange.st (W := L)) A) : Prop :=
  forall (laws : AccountingLaws L) b, 0 <= b -> moves (H0 := laws) no_ext b 0 0 m.
Lemma steady_exchange {A} (m : M (ProxyExchange.st (W := L)) A) : safe m -> steady (on_exchange m : X A).
Proof.
  intros Hm s Hs. destruct (a_exchange s) as [[x h]|] eqn:Ex.
  - eapply wp_on_exchange; [exact Ex|]. cbv zeta. pose proof Hs as [_ (n & Ht & _)].
    eapply wp_mono; [| |apply (Hm (laws (a_conn s)) (gauge_bytes (a_conn s)));
      [by eapply gauge_bytes_nonneg|by eapply ex_inv_of]]; intros ? t Hi; by eapply ex_inv_after.
  - unfold wp, on_exchange. by rewrite Ex.
Qed.
Lemma steady_read {A} (f : exchange -> A) : steady (on_exchange (let! x := ProxyExchange.self in ret (f x)) : X A).
Proof. apply steady_exchange. intros ? b _. by intros t Ht. Qed.
Lemma steady_feed_body d : steady (on_exchange (ProxyExchange.feed_request_body d) : X _).
Proof. apply steady_exchange. intros ? b Hb. by apply feed_request_body_safe. Qed.
Lemma steady_finish_request ts : steady (on_exchange (ProxyExchange.finish_request ts) : X _).
Proof. apply steady_exchange. intros ? b Hb. by apply finish_request_safe. Qed.
Lemma steady_take_upstream n : steady (on_exchange (ProxyExchange.take_upstream n) : X _).
Proof. apply steady_exchange. intros ? b Hb. by apply take_upstream_safe. Qed.
Lemma steady_take_downstream n : steady (on_exchange (ProxyExchange.take_downstream n) : X _).
Proof. apply steady_exchange. intros ? b Hb. by apply take_downstream_safe. Qed.
Lemma steady_feed_upstream d : steady (on_exchange (ProxyExchange.feed_upstream d) : X _).
Proof. apply steady_exchange. intros ? b Hb. by apply feed_upstream_safe. Qed.
Lemma steady_eof : steady (on_exchange ProxyExchange.upstream_eof : X _).
Proof. apply steady_exchange. intros ? b Hb. by apply upstream_eof_safe. Qed.

Lemma init_ends m tg hs ua ip sch oh cl ch tf eh seg lo hi mx acct h (l : L) t h' l' :
  ProxyExchange.init m tg hs ua ip sch oh cl ch tf eh seg lo hi mx acct h l = (Ok t, (h', l')) ->
  h' = ProxyExchange.s_heap t /\ l' = ProxyExchange.s_world t.
Proof.
  unfold ProxyExchange.init. cbv zeta. match goal with |- context [match ?b with Ok _ => _ | Raise _ => _ end] => destruct b as [[x hd]|e] end; [|done].
  destruct (ProxyExchange.append_upstream _ _) as [[n|e] t']; by intros [= <- <- <-].
Qed.
(** A new exchange holds what its head takes. *)
Lemma new_exchange_spec plan e r s : driving None s ->
  wp (new_exchange config plan_spec plan e r : X unit) (fun _ => driven) (fun _ => driven) s.
Proof.
  intros Hs. unfold new_exchange. apply wp_bind.
  eapply wp_mono; [| |exact (plain_conn _ (stays_quiet others _ (quiet_get_request others r)) None s Hs)];
    [|intros ? ?; apply driven_driving].
  intros q s1 Hs1. cbv zeta. apply wp_bind, wp_lift. destruct (proxy_target _ _ _) as [target|x]; [|exact (driven_driving _ _ Hs1)].
  destruct Hs1 as [Eo (n & Ht & ->)]. unfold wp.
  match goal with |- context [ProxyExchange.init ?a ?b ?c ?d ?e1 ?f ?g ?h ?i ?j ?k ?l ?m ?n1 ?o ?p ?q1 ?w] =>
    destruct (ProxyExchange.init a b c d e1 f g h i j k l m n1 o p q1 w) as [built [h' l']] eqn:Et end. pose proof Et as Ei.
  pose proof (at_frame_gauges _ _ Ht) as Hg. rewrite Z.add_0_r in Hg. cbv zeta.
  eapply (init_safe (H0 := laws (a_conn s1)) no_ext (gauge_bytes (a_conn s1))) in Ei; [|by eapply gauge_bytes_nonneg|apply heap_ok_empty|exact Hg].
  destruct built as [t|x].
  - pose proof Et as Eh. apply init_ends in Eh as [-> ->]. eapply (ex_inv_after None); [|exact Ei]. split; [done|]. by exists 0.
  - split; [done|]. cbn. rewrite Eo. exists 0. split; [|done]. eapply at_frame_life; [exact Ht|done|]. rewrite Z.add_0_r. exact Ei.
Qed.

(** ** The driver's functions *)

Lemma polite_env : polite env.
Proof. exact polite_beside. Qed.
Hint Resolve polite_env : calls.
Create HintDb drive.
Hint Resolve plain_ret plain_raise plain_lift plain_locals plain_attempt plain_deadline plain_pooled plain_set_driver plain_reusable
  plain_upd_deadline plain_on_driver plain_on_resolver : drive.
Ltac drive_plain := repeat lazymatch goal with
  | |- plain (bind _ _) => apply plain_bind; [|intros ?]
  | |- plain (try_except _ _) => apply plain_try; [|intros ?]
  | |- plain (Prelude.attempt _) => apply plain_attempt
  | |- plain (if ?b then _ else _) => destruct b
  | |- plain (match ?x with _ => _ end) => destruct x
  | |- plain (conn_call _) => apply plain_conn; stay_calls
  | |- plain _ => solve [eauto with drive nocore]
  end.

Lemma attempt_quiet_count name : name ∈ connection_counters -> quiet (count_metric name : C unit).
Proof. apply GatewayRunInv.quiet_count. Qed.
Hint Resolve attempt_quiet_count GatewayRunInv.quiet_fd : calls.
Lemma plain_hook h : plain (hook_call env0 h : X unit).
Proof. unfold hook_call. drive_plain. Qed.
Lemma plain_metric name : name ∈ connection_counters -> plain (metric name : X unit).
Proof. intros Hn. unfold metric. drive_plain. Qed.
Lemma plain_now : plain (now env0 : X Z).
Proof. unfold now. drive_plain. Qed.
Lemma plain_is_cancelled r : plain (is_cancelled r : X bool).
Proof. unfold is_cancelled. drive_plain. Qed.
Lemma plain_request_deadline r : plain (request_deadline r : X Z).
Proof. unfold request_deadline. drive_plain. Qed.
Hint Resolve plain_hook plain_metric plain_now plain_is_cancelled plain_request_deadline : drive.
Hint Extern 1 (_ ∈ connection_counters) => (unfold connection_counters; repeat (first [by left|right])) : drive.
Lemma plain_remaining r : plain (remaining_ms env0 r : X Z).
Proof. unfold remaining_ms. cbv zeta. drive_plain. Qed.
Hint Resolve plain_remaining : drive.
Lemma plain_failure r : plain (deadline_failure env0 r : X str).
Proof. unfold deadline_failure. drive_plain. Qed.
Lemma plain_wait_fd fd ev ms : plain (wait_fd env0 fd ev ms : X unit).
Proof. unfold wait_fd. drive_plain. Qed.
Lemma plain_observe r : plain (observe_downstream env0 config r : X str).
Proof. unfold observe_downstream. drive_plain. Qed.
Hint Resolve plain_failure plain_wait_fd plain_observe : drive.
Lemma plain_wait_upstream fd ev ms r : plain (wait_upstream env0 config fd ev ms r : X str).
Proof. unfold wait_upstream. drive_plain. Qed.
Hint Resolve plain_wait_upstream : drive.
Lemma quiet_ended r : quiet (on_body r (BodyStream.stream BodyStream.is_ended) : C bool).
Proof. apply quiet_read. Qed.
Lemma quiet_queued r : quiet (on_body r (BodyStream.stream BodyStream.queued_size) : C Z).
Proof. apply quiet_read. Qed.
Hint Resolve quiet_ended quiet_queued : calls.
Lemma plain_body_ended r : plain (body_ended r : X bool).
Proof. unfold body_ended. drive_plain. Qed.
Lemma plain_consume_body r : plain (consume_body env0 config r : X unit).
Proof. unfold consume_body. drive_plain. Qed.
Hint Resolve plain_body_ended plain_consume_body : drive.
Lemma plain_read_downstream r ms : plain (read_downstream_body env0 config r ms : X str).
Proof. unfold read_downstream_body. cbv zeta. drive_plain. Qed.
Hint Resolve plain_read_downstream : drive.

Lemma plain_cancel_driver : plain (cancel_driver : X unit).
Proof. unfold cancel_driver. drive_plain. Qed.
Lemma plain_dns_finished host n e : plain (dns_finished env0 host n e : X unit).
Proof. unfold dns_finished. drive_plain. Qed.
Lemma plain_begin_driver host q n limit : plain (begin_driver host q n limit : X unit).
Proof. unfold begin_driver. drive_plain. Qed.
Hint Resolve plain_cancel_driver plain_dns_finished plain_begin_driver : drive.
Lemma plain_dns_failed host e : plain (dns_failed env0 host e : X unit).
Proof. unfold dns_failed. drive_plain. Qed.
Hint Resolve plain_dns_failed : drive.
Lemma plain_dns_wait host h i rem r : plain (dns_wait env0 config host h i rem r : X _).
Proof. unfold dns_wait. drive_plain. Qed.
Hint Resolve plain_dns_wait : drive.
Lemma plain_resolve_loop name host e limit r passes : forall q, plain (resolve_loop env0 config passes name host e limit r q : X _).
Proof. induction passes as [|n IH]; intros q; cbn [resolve_loop]; cbv zeta; drive_plain. Qed.
Hint Resolve plain_resolve_loop : drive.
Lemma plain_resolve passes name host e limit r : plain (resolve_upstream_address env0 config passes name host e limit r : X _).
Proof. unfold resolve_upstream_address. cbv zeta. drive_plain. Qed.

Lemma plain_connect_loop passes : forall h o r, plain (connect_loop env0 net config passes h o r : X _).
Proof. induction passes as [|n IH]; intros h o r; cbn [connect_loop]; drive_plain. Qed.
Hint Resolve plain_resolve plain_connect_loop : drive.
Lemma plain_connect passes e addresses : forall h r, plain (connect_addresses env0 net config passes e addresses h r : X _).
Proof. induction addresses as [|a addresses IH]; intros h r; cbn [connect_addresses]; drive_plain. Qed.
Lemma plain_pooled_connection name c : plain (pooled_connection name c : X _).
Proof. unfold pooled_connection. drive_plain. Qed.
Lemma plain_set_connected name c : plain (set_connected name c : X _).
Proof. unfold set_connected. drive_plain. Qed.
Lemma plain_pooled_endpoint name c : plain (pooled_endpoint name c : X _).
Proof. unfold pooled_endpoint. drive_plain. Qed.
Hint Resolve plain_connect plain_pooled_connection plain_set_connected plain_pooled_endpoint : drive.
Lemma plain_refuse f : plain (refuse f : X _).
Proof. apply plain_ret. Qed.
Hint Resolve plain_refuse : drive.
Lemma plain_open passes name c r : plain (open_pooled env0 net config passes name c r : X _).
Proof. unfold open_pooled. drive_plain. Qed.
Lemma plain_await passes name c d r : plain (await_connected env0 net config passes name c d r : X _).
Proof. unfold await_connected. drive_plain. Qed.
Hint Resolve plain_open plain_await : drive.

(** *** With the exchange *)

Hint Resolve plain_steady steady_read steady_feed_body steady_finish_request steady_take_upstream steady_take_downstream
  steady_feed_upstream steady_eof : drive.
Ltac drive := repeat lazymatch goal with
  | |- steady (bind _ _) => apply attempt_steady_bind; [|intros ?]
  | |- steady (if ?b then _ else _) => destruct b
  | |- steady (match ?x with _ => _ end) => destruct x
  | |- steady (conn_call _) => apply plain_steady, plain_conn; stay_calls
  | |- steady _ => solve [eauto with drive nocore]
  end.
Lemma steady_is f : steady (exchange_is f : X bool).
Proof. apply steady_read. Qed.
Hint Resolve steady_is : drive.
Lemma plain_write_segment fd r passes : forall data o, plain (write_segment env0 config passes fd data o r : X str).
Proof. induction passes as [|n IH]; intros data o; cbn [write_segment]; drive_plain. Qed.
Hint Resolve plain_write_segment : drive.
Lemma steady_write_queued fd r passes : steady (write_queued env0 config passes fd r : X str).
Proof. induction passes as [|n IH]; cbn [write_queued]; drive. Qed.
Lemma stays_drain_output passes : stays (drain_output env0 config passes : C bool).
Proof. pose proof polite_env. induction passes as [|n IH]; cbn [drain_output]; stay_calls. Qed.
Hint Resolve steady_write_queued stays_drain_output : drive calls.
Lemma steady_flush passes : steady (flush_downstream env0 config passes : X str).
Proof. induction passes as [|n IH]; cbn [flush_downstream]; drive. Qed.
Hint Resolve steady_flush : drive.
Lemma quiet_read_body r passes : quiet (read_body env0 net passes r : C _).
Proof.
  induction passes as [|n IH]; cbn [read_body]; [quiet_calls|]. apply conn_quiet_bind; [|intros []; quiet_calls].
  eapply quiet_body, read_chunk_ok.
Qed.
Hint Resolve quiet_read_body : calls.
Lemma steady_forward_chunks fd r passes : steady (forward_chunks env0 net config passes fd r : X str).
Proof. induction passes as [|n IH]; cbn [forward_chunks]; drive. Qed.
Hint Resolve steady_forward_chunks : drive.
Lemma steady_forward_body fd r passes : steady (forward_body env0 net config passes fd r : X str).
Proof. induction passes as [|n IH]; cbn [forward_body]; drive. Qed.
Hint Resolve steady_forward_body : drive.
Lemma steady_send passes fd r : steady (send_request env0 net config passes fd r : X str).
Proof. unfold send_request. drive. Qed.
Lemma steady_status : steady (status_now : X Z).
Proof. apply steady_read. Qed.
Hint Resolve steady_send steady_status : drive.
Lemma steady_fail_with f b : steady (fail_with f b : X verdict).
Proof. unfold fail_with. drive. Qed.
Lemma steady_on_response passes d : steady (on_response env0 config passes d : X str).
Proof. unfold on_response, committed_now. drive. Qed.
Hint Resolve steady_fail_with steady_on_response : drive.
Lemma steady_receive fd r passes : steady (receive_response env0 config passes fd r : X _).
Proof. induction passes as [|n IH]; cbn [receive_response]; cbv zeta; unfold committed_now; drive. Qed.
Hint Resolve steady_receive : drive.

(** *** The whole attempt *)

(** A call made before there is an exchange, which may construct it. *)
Definition opens {A} (m : X A) : Prop := forall s, driving None s -> wp m (fun _ => driven) (fun _ => driven) s.
Lemma opens_plain {A} (m : X A) : plain m -> opens m.
Proof. intros Hm s Hs. apply plain_steady in Hm. by eapply Hm, driven_driving. Qed.
Lemma opens_later {A B} (m : X A) (k : A -> X B) : plain m -> (forall a, opens (k a)) -> opens (bind m k).
Proof.
  intros Hm Hk s Hs. apply wp_bind. eapply wp_mono; [| |exact (Hm None s Hs)]; [|intros ? ?; apply driven_driving].
  intros a s' Hs'. by apply Hk.
Qed.
Lemma opens_now {A B} (m : X A) (k : A -> X B) : opens m -> (forall a, steady (k a)) -> opens (bind m k).
Proof. intros Hm Hk s Hs. apply wp_bind. eapply wp_mono; [| |by apply Hm]; [|done]. intros a s' Hs'. by apply Hk. Qed.
Lemma plain_saturated name : plain (conn_call (pool_call name UpstreamConnectionPool.saturated) : X bool).
Proof. drive_plain. Qed.
Lemma opens_body passes plan r : opens (attempt_body env0 net config plan_spec plan_upstream passes plan r).
Proof.
  unfold attempt_body. cbv zeta.
  repeat lazymatch goal with
  | |- opens (bind (new_exchange _ _ _ _ _) _) => apply opens_now; [intros s Hs; by apply new_exchange_spec|intros ?; drive]
  | |- opens (bind _ _) => apply opens_later; [drive_plain|intros ?]
  | |- opens (match ?x with _ => _ end) => destruct x
  | |- opens (ret _) => apply opens_plain, plain_ret
  end.
Qed.
Lemma steady_protocol_error e : steady (on_protocol_error e : X verdict).
Proof.
  unfold on_protocol_error. destruct e; try exact (keeps_raise _ _). apply attempt_steady_bind; [apply plain_steady, plain_locals|].
  intros s. destruct (a_exchange s) as [[x h]|]; apply keeps_ret.
Qed.

(** A cancelled exchange holds nothing. *)
Definition spent (f : frame) (s : attempt_state) : Prop := at_frame f (a_conn s).
Lemma taken_0 : taken 0 = add_upstream 1 fr.
Proof. unfold taken, add_reserved, add_upstream. cbn. by rewrite Z.add_0_r. Qed.
Lemma cleanup_cancel s : driven s ->
  wp (if bool_decide (is_Some (a_exchange s)) then on_exchange (ProxyExchange.cancel (py "attempt complete")) else ret tt)
    (fun _ => spent (add_upstream 1 fr)) (fun _ _ => False) s.
Proof.
  intros Hs. pose proof Hs as [_ (n & Ht & Hn)]. destruct (a_exchange s) as [[x h]|] eqn:Ex; cbn [is_Some].
  - rewrite bool_decide_eq_true_2 by done. eapply wp_on_exchange; [exact Ex|]. cbv zeta.
    eapply wp_mono; [| |apply (cancel_ends (H0 := laws (a_conn s)) no_ext (gauge_bytes (a_conn s))); [by eapply gauge_bytes_nonneg|by eapply ex_inv_of]]; [|done].
    intros _ t [Hi Hc]. destruct (ex_inv_after _ s t Hs Hi) as [_ (n' & Ht' & Hn')].
    unfold spent. rewrite <- taken_0. rewrite (exchange_holds_cancelled _ _ _ Hn' Hc) in Ht'. exact Ht'.
  - rewrite bool_decide_eq_false_2 by (by intros [? ?]). apply wp_ret. unfold spent. cbn in Hn. subst n. by rewrite <- taken_0.
Qed.

Lemma spent_conn {A} (m : C A) f : stays m -> f_closing f = false -> keeps (spent f) (conn_call m).
Proof. intros Hm Hf s Hs. apply wp_conn_call. by apply at_frame_call. Qed.
Lemma cleanup_spec plan s : driven s ->
  wp (cleanup_attempt env0 plan_upstream plan) (fun _ => spent fr) (fun _ _ => False) s.
Proof.
  intros Hs. unfold cleanup_attempt. apply wp_bind. unfold wp at 1. cbn [locals get]. apply wp_each.
  eapply wp_mono; [| |by apply cleanup_cancel]; [|done]. intros u1 s1 Hs1. apply wp_each.
  match goal with |- wp ?m _ _ _ => assert (keeps (spent (add_upstream 1 fr)) m) as Hm end.
  { destruct (a_pooled s) as [c|]; [|apply keeps_ret]. apply keeps_bind; [apply spent_conn; [stay_calls|done]|]. intros x.
    destruct (pc_released x); [apply keeps_ret|]. apply keeps_bind; [unfold now; apply spent_conn; [stay_calls|done]|]. intros n.
    apply keeps_bind; [apply spent_conn; [stay_calls|done]|]. intros; apply keeps_ret. }
  eapply wp_mono; [| |by apply Hm]; intros ? s2 [Hi2 Hc2]; apply wp_each, wp_conn_call;
    (eapply wp_mono; [| |by apply release_upstream_spec]; [|done]); intros _ t3 [Hi3 E3]; apply wp_ret;
    (split; [done|]); cbn; by rewrite (core_closed _ _ E3).
Qed.

Lemma run_attempt_spec passes plan r s : driving None s ->
  wp (run_attempt env0 net config plan_spec plan_upstream passes plan r) (fun _ => spent fr) (fun _ => spent fr) s.
Proof.
  intros Hs. unfold run_attempt. apply wp_bind.
  eapply (wp_mono _ (fun _ => driven) _ (fun _ _ => False)); [|done|].
  - intros o s1 Hs1. apply wp_bind. eapply wp_mono; [| |by apply cleanup_spec]; [|done].
    intros ce s2 Hs2. destruct o as [v|e]; [|by apply wp_raise]. apply wp_bind, wp_reraise. by destruct ce.
  - unfold capture_attempt. apply wp_try, wp_bind, wp_try. eapply wp_mono; [| |by apply opens_body].
    + intros v s1 Hs1. by apply wp_ret.
    + intros e s1 Hs1. eapply wp_mono; [| |by apply steady_protocol_error]; intros ? s2 Hs2; by apply wp_ret.
Qed.
End driver.

Section attempt.
Context {W0 P I It L T : Type} `{AdmissionLaws L} `{TlsSession T} `{DnsTransport W0}.
Context (env0 : surroundings W0 P I It) (net : upstream_net W0) (config : settings).
Context (plan_spec : P -> proxy_spec) (plan_upstream : P -> str).
Context (others : base) (Hothers : base_ok others) (Hpolite : polite env0).
Abbreviation C := (M (GatewayConnection.state (W:=gateway_world W0) (P:=P) (I:=I) (It:=It) (L:=L) (T:=T))).

Lemma stays_proxy_attempt passes plan r n :
  stays others (proxy_exchange_attempt env0 net config plan_spec plan_upstream passes plan r n : C (Z * str * bool)).
Proof.
  intros fr t Hi Hf. unfold proxy_exchange_attempt. pose proof (polite_beside env0 Hpolite) as Hp. apply wp_bind.
  eapply wp_mono; [| |apply (stays_quiet others _ (quiet_now (ProxyDriver.env env0) others)); [exact Hi|exact Hf]]; [|done].
  intros now t1 [Hi1 E1]. apply wp_bind. eapply wp_mono; [| |by apply (admit_upstream_spec others)]; [|done].
  intros ok t2 [Hi2 E2]. apply core_closed in E2. destruct ok; cbn [negb]; [|apply wp_ret; split; [done|congruence]].
  pose proof (i_frame _ _ _ Hi) as (_ & _ & Hu & Hr).
  unfold wp. match goal with |- context [AttemptState t2 ?d ?p ?x ?v ?b] => set (s0 := AttemptState t2 d p x v b) end.
  assert (driving others fr (c_closed (s_conn t)) None s0) as Hs.
  { split; [done|]. exists 0. split; [|done]. unfold at_frame. rewrite taken_0. split; [done|]. cbn. congruence. }
  pose proof (run_attempt_spec env0 net config plan_spec plan_upstream others Hothers Hpolite fr Hf Hu Hr _ passes plan r s0 Hs) as Hw.
  unfold wp in *. by destruct (run_attempt _ _ _ _ _ _ _ _ s0) as [[v|e] s].
Qed.
End attempt.
End ProxyDriverInv.
