(* ===== verification/ProxySystem.v ===== *)
(** * A connection that proxies: the loop, its attempts, pools and upstreams together

    [ConnectionRun] over the attempts of [ProxyDriver]: the thread of a connection gives back
    everything that was counted for it.  A small gateway proxies one request from end to end;
    two runs show what the code does where its pieces meet badly. *)

From S2P Require Import Prelude PyStr Buffer Http1 Models Config DnsPolicy DnsResolver Tls Proxy ProxySpec ProxyExchange ProxyExchangeSpec ProxyPool.
From S2P Require Import Lifecycle Connection ConnectionOwners ConnectionSpec ConnectionSystem ConnectionRun ConnectionRunSpec ConnectionApart ProxyDriver ProxyHeld ProxyDriverSpec.
#[local] Open Scope Z_scope.

Import GatewayConnection ConnectionInv GatewayRun GatewayRunInv ProxyDriver ProxyHeldInv ProxyDriverInv.

Section proxied.
Context {W0 P I It L T : Type} `{AdmissionLaws L} `{TlsSession T} `{DnsTransport W0}.
Context (env0 : surroundings W0 P I It) (net : upstream_net W0) (config : settings).
Context (plan_spec : P -> proxy_spec) (plan_upstream : P -> str) (plan_pooled : P -> bool).
Abbreviation state := (GatewayConnection.state (W:=gateway_world W0) (P:=P) (I:=I) (It:=It) (L:=L) (T:=T)).

(** The thread of a connection: at most [passes] turns of each loop of it, and [turns] of
    each loop of an attempt. *)
Definition serve_connection (turns passes : nat) : M state unit :=
  run_gateway_connection (ProxyDriver.env env0) config plan_spec plan_pooled
    (proxy_exchange_attempt env0 net config plan_spec plan_upstream turns) passes.

(** What the thread of a connection holds of the pools when it ends, it held before. *)
Lemma serve_connection_held turns passes t : clock_tells env0 -> pools_ok (s_world t) ->
  forall name c, held_in (s_world (snd (serve_connection turns passes t))) name c -> held_in (s_world t) name c.
Proof.
  intros Hc Hg name c. set (K := fits (length (groups (gw_ups (s_world t)))) (held_in (s_world t)) None).
  pose proof (apart_run_gateway_connection (ProxyDriver.env env0) config pools_of K (apart_pools env0) plan_spec plan_pooled _
    (fun plan r n => exchange_attempt_held env0 net config _ _ plan_spec plan_upstream turns plan r n Hc) passes t (fits_self _ Hg)) as Hs.
  apply (fits_held (length (groups (gw_ups (s_world t))))). unfold wp in Hs. unfold serve_connection. by destruct (run_gateway_connection _ _ _ _ _ _ t) as [[u|e] s].
Qed.

(** C9: the thread of a connection leaves nothing behind.  However its loop ends - a close, a
    timeout, a refused handshake, a retried or failed proxy attempt, an exception of outside
    code, or an interruption after any number of turns - the connection is closed, its handler
    thread joined, its output empty, every request body closed, and the gauges count for it no
    request, no queued request, no exchange with an upstream and no byte: provided that no
    hook the program calls closes the connection itself ([polite]), and that the outcome of a
    joined thread is known.  And if the clock answers whenever it is asked, no pooled upstream
    connection is held in the end that was not held before: whatever its attempts reserved is
    idle again or closed.  (Nothing is said of a descriptor whose connect is still pending:
    [connecting_descriptor_leaks].) *)
Theorem proxied_connection_leaves_nothing others turns passes t :
  polite env0 -> threads_tell (ProxyDriver.env env0) -> reached (ProxyDriver.env env0) config others t ->
  let t' := snd (serve_connection turns passes t) in
  c_closed (s_conn t') = true /\ pending_local (s_conn t') = None /\
  queued_bytes (fst (s_output t')) = 0 /\
  ConnectionOwners.gauges (s_life t') (b_requests others) (b_queued others) (b_upstream others) (b_bytes others) /\
  (forall i x, s_requests t' !! i = Some x -> bs_closed (ro_body x) = true) /\
  (clock_tells env0 -> pools_ok (s_world t) -> forall name c, held_in (s_world t') name c -> held_in (s_world t) name c).
Proof.
  intros Hp Ht Hr. destruct (reached_accounted _ _ others t (polite_beside env0 Hp) Hr) as [Hb _].
  refine (_ (thread_leaves_nothing _ config plan_spec plan_pooled _ others Hb (polite_beside env0 Hp) _ passes t Ht Hr)).
  - intros (? & ? & ? & ? & ?). split_and!; [done..|]. intros Hc Hg. by apply serve_connection_held.
  - intros plan r n. exact (stays_proxy_attempt env0 net config plan_spec plan_upstream others Hb Hp turns plan r n).
Qed.
End proxied.

(** ** One proxied request *)

(** What was written, with the descriptor it was written to; and the reads of the client so far. *)
Definition wire : Type := (list (Z * bytes) * nat)%type.
Definition on_wire {A} (f : wire -> A * wire) : outside wire A := fun w => let '(a, w') := f w in ([], (Ok a, w')).
Definition same {A} (a : A) : outside wire A := on_wire (fun w => (a, w)).
Definition upstream_fd : Z := 9.
(** A client at descriptor 7 that sends [request] and then closes; upstreams that answer [answer]. *)
Definition proxying (local : bool) (request answer : bytes) : surroundings wire unit unit unit := {|
  o_transport := true;
  o_local_body_streaming := local;
  o_client_ip := py "10.0.0.1";
  o_now_ms := same 5;
  o_read fd _ := if fd =? upstream_fd then same (PCC_SOCKET_PROGRESS, answer)
                 else on_wire (fun w => (match snd w with O => (PCC_SOCKET_PROGRESS, request) | S _ => (PCC_SOCKET_EOF, []) end, (fst w, S (snd w))));
  o_write fd d := on_wire (fun w => ((PCC_SOCKET_PROGRESS, len d), (fst w ++ [(fd, d)], snd w)));
  o_shutdown _ := same tt;
  o_close fd := on_wire (fun w => (tt, (fst w ++ [(fd, py "closed")], snd w)));
  o_dispatch_proxy_head _ _ := same (Some tt);
  o_dispatch _ _ := same (AResponse (Response 200 (inl (py "hi")) [] false false));
  o_hook _ := same None;
  o_spawn _ := same 1;
  o_thread_cancel _ := same tt;
  o_thread_outcome _ := same OutcomeReturned;
  o_thread_join _ := same AOther;
  o_iter _ := same tt;
  o_next _ := same NextStop;
  o_bytes _ := same [];
  o_wait _ _ _ := same tt;
  o_yield := same tt;
  o_sleep _ := same tt;
|}.
#[export] Instance no_dns : DnsTransport wire := {|
  tr_open _ _ w := (DnsIoResult DNS_IO_ERROR (-1) 0 [] NoPeer [], w);
  tr_connect h _ w := (DnsIoResult DNS_IO_ERROR h 0 [] NoPeer [], w);
  tr_send h _ _ w := (DnsIoResult DNS_IO_ERROR h 0 [] NoPeer [], w);
  tr_receive h _ w := (DnsIoResult DNS_IO_ERROR h 0 [] NoPeer [], w);
  tr_close _ w := w;
|}.
Definition connecting (outcome : Z) : upstream_net wire := {|
  n_open _ _ _ := same upstream_fd;
  n_connect_observe _ := same outcome;
  n_await_body _ := same tt;
|}.
Definition sample_plan (_ : unit) : proxy_spec := ProxySpec (py "up") [] default_timeouts default_retry false.
Definition sample_ups : upstreams :=
  Upstreams [UpstreamEndpoint (py "10.0.0.2") 80 1 0 0 0 [] DnsAddressPolicy.default_policy] [UpstreamGroup (py "up") [0%nat] 4 4 0 0] [].
Definition sample_world : gateway_world wire :=
  GatewayWorld {[py "up" := ConnectionPool 0 1000 [] [] sample_ups]} sample_ups None ([], O).
Definition sample_conn :=
  match GatewayConnection.init (P := unit) (I := unit) (It := unit) sample_settings 7 false with
  | Ok (c, b) => Some (State c [] (Heap [] []) (b, Heap [] []) (sample_life 4) tt sample_world)
  | Raise _ => None
  end.
Definition served (env0 : surroundings wire unit unit unit) (net : upstream_net wire) (turns passes : nat) :=
  option_map (serve_connection env0 net sample_settings sample_plan (fun _ => py "up") (fun _ => true) turns passes) sample_conn.

Definition ok_answer : bytes := py "HTTP/1.1 200 OK" ++ CRLF ++ py "Content-Length: 2" ++ CRLF2 ++ py "hi".
Definition wire_of (o : option (result unit * GatewayConnection.state (W:=gateway_world wire) (P:=unit) (I:=unit) (It:=unit) (L:=lifecycle unit unit) (T:=unit))) :=
  option_map (fun '(r, t) => (r, fst (gw_world (s_world t)))) o.

(** The request goes to the upstream as the proxy writes it, the answer to the client, and
    the upstream connection stays open in its pool. *)
Definition forwarded_get : bytes :=
  py "GET /a HTTP/1.1" ++ CRLF ++ py "host: 10.0.0.2:80" ++ CRLF ++ py "x-forwarded-for: 10.0.0.1" ++ CRLF ++
  py "x-forwarded-proto: http" ++ CRLF ++ py "x-forwarded-host: x" ++ CRLF ++ py "content-length: 0" ++ CRLF2.
Example request_proxied :
  wire_of (served (proxying false get_a ok_answer) (connecting PCC_SOCKET_CONNECTED) 20 20)
  = Some (Ok tt, [(upstream_fd, forwarded_get); (7, ok_answer); (7, py "closed")]).
Proof. vm_compute. reflexivity. Qed.

(** The connection it took is idle in its pool, with the descriptor that was opened. *)
Example connection_idle_again :
  option_map (fun '(_, t) => map (fun '(_, p) => (map (fun x => (pc_handle x, pc_released x)) (connections p), ProxyPool.idle p))
    (map_to_list (gw_pools (s_world t)))) (served (proxying false get_a ok_answer) (connecting PCC_SOCKET_CONNECTED) 20 20)
  = Some [([(upstream_fd, false)], [0%nat])].
Proof. vm_compute. reflexivity. Qed.

(** A run that ends answered, and one that uses its turns up: both leave nothing. *)
Lemma proxied_connection_leaves_nothing_witness :
  match served (proxying false get_a ok_answer) (connecting PCC_SOCKET_CONNECTED) 20 20,
        served (proxying false get_a ok_answer) (connecting PCC_SOCKET_WOULD_BLOCK) 3 3 with
  | Some (Ok _, t), Some (Raise e, t') => e = out_of_fuel /\
      c_closed (s_conn t) = true /\ ConnectionOwners.gauges (s_life t) 0 0 0 0 /\ ~ held_in (s_world t) (py "up") 0 /\
      c_closed (s_conn t') = true /\ ConnectionOwners.gauges (s_life t') 0 0 0 0 /\ ~ held_in (s_world t') (py "up") 0
  | _, _ => False
  end.
Proof.
  unfold served, sample_conn. destruct (GatewayConnection.init _ _ _) as [[c b]|e] eqn:E; [|vm_compute in E; discriminate E].
  cbn [option_map]. set (t0 := State _ _ _ _ _ _ _).
  assert (reached (ProxyDriver.env (proxying false get_a ok_answer)) sample_settings (Base 0 0 0 0) t0) as Hr.
  { apply (reached_new _ _ _ c b (Heap [] []) _ tt sample_world 7 false); [exact E|apply heap_ok_empty|by split_and!|].
    apply sample_gauges. lia. }
  assert (polite (proxying false get_a ok_answer)) as Hp.
  { intros h w a Ea. cbn in Ea. injection Ea as <-. reflexivity. }
  assert (threads_tell (ProxyDriver.env (proxying false get_a ok_answer))) as Ht.
  { intros h w. by eexists. }
  assert (clock_tells (proxying false get_a ok_answer)) as Hc.
  { intros w. by eexists. }
  assert (pools_ok (s_world t0)) as Hg.
  { intros name p Hx. cbn in Hx. apply lookup_singleton_Some in Hx as [<- <-]. cbn. lia. }
  assert (~ held_in (s_world t0) (py "up") 0) as Hn.
  { intros (p & [= <-] & x & Hx & _). discriminate Hx. }
  pose proof (fun net turns passes => proxied_connection_leaves_nothing (proxying false get_a ok_answer) net sample_settings sample_plan
    (fun _ => py "up") (fun _ => true) (Base 0 0 0 0) turns passes t0 Hp Ht Hr) as T.
  pose proof (T (connecting PCC_SOCKET_CONNECTED) 20%nat 20%nat) as T1. pose proof (T (connecting PCC_SOCKET_WOULD_BLOCK) 3%nat 3%nat) as T2.
  clear T. cbv zeta in T1, T2.
  assert (fst (serve_connection (proxying false get_a ok_answer) (connecting PCC_SOCKET_CONNECTED) sample_settings sample_plan
    (fun _ => py "up") (fun _ => true) 20 20 t0) = Ok tt) as E1.
  { vm_compute in E. injection E as <- <-. vm_compute. reflexivity. }
  assert (fst (serve_connection (proxying false get_a ok_answer) (connecting PCC_SOCKET_WOULD_BLOCK) sample_settings sample_plan
    (fun _ => py "up") (fun _ => true) 3 3 t0) = Raise out_of_fuel) as E2.
  { vm_compute in E. injection E as <- <-. vm_compute. reflexivity. }
  destruct (serve_connection _ (connecting PCC_SOCKET_CONNECTED) _ _ _ _ _ _ t0) as [r1 t1].
  destruct (serve_connection _ (connecting PCC_SOCKET_WOULD_BLOCK) _ _ _ _ _ _ t0) as [r2 t2].
  cbn [fst snd] in *. subst r1 r2. destruct T1 as (? & _ & _ & ? & _ & H1), T2 as (? & _ & _ & ? & _ & H2).
  split_and!; [done..|intros Hh; exact (Hn (H1 Hc Hg _ _ Hh))|done|done|intros Hh; exact (Hn (H2 Hc Hg _ _ Hh))].
Defined.

(** A transport with streamed bodies: the body of a proxied request is created streaming, and
    an attempt that reads it before its data has come waits for an event that only this very
    thread would set - it is not read from, so it never returns. *)
Definition post_fed (local : bool) :=
  option_map (fun t => snd (feed_data (ProxyDriver.env (proxying local [] [])) sample_settings post_b 0 t)) sample_conn.
Example unread_body_is_empty :
  option_map (fun t => fst (read_body (proxying false [] []) (connecting PCC_SOCKET_CONNECTED) 1 0 t)) (post_fed false) = Some (Ok (Some [])).
Proof. vm_compute. reflexivity. Qed.
Example streamed_body_waits :
  option_map (fun t => (bool_decide (is_Some (pending_proxy (s_conn t))),
    fst (read_body (proxying true [] []) (connecting PCC_SOCKET_CONNECTED) 100 0 t))) (post_fed true) = Some (true, Raise out_of_fuel).
Proof. vm_compute. reflexivity. Qed.

(** The wait for a connect raises: the descriptor just opened is neither in the pool nor closed. *)
Definition failing_wait (e : surroundings wire unit unit unit) : surroundings wire unit unit unit :=
  Surroundings _ _ _ _ (o_transport e) (o_local_body_streaming e) (o_client_ip e) (o_now_ms e) (o_read e) (o_write e) (o_shutdown e) (o_close e)
    (o_dispatch_proxy_head e) (o_dispatch e) (o_hook e) (o_spawn e) (o_thread_cancel e) (o_thread_outcome e) (o_thread_join e)
    (o_iter e) (o_next e) (o_bytes e) (fun _ _ _ w => ([], (Raise (OtherError 1), w))) (o_yield e) (o_sleep e).
Example connecting_descriptor_leaks :
  wire_of (served (failing_wait (proxying false get_a ok_answer)) (connecting PCC_SOCKET_WOULD_BLOCK) 20 20)
  = Some (Raise (OtherError 1), [(7, py "closed")]).
Proof. vm_compute. reflexivity. Qed.
