(* ===== verification/Server.v ===== *)
(** * The listener owner ([GatewayServer] of [pcc_gateway/server.py])

    Startup and its rollback, the accept owner, the ledgers of connections and of their
    threads, reload, drain and the retryable shutdown.  A method runs over the server, whose
    lifecycle and process control are the ones of [Lifecycle] and [Control], and the world
    of what is outside: the transport, the scheduler of virtual threads, the application,
    the resolver, TLS and the connections themselves ([server_env]).

    Other threads run while a method waits for outside code: the thread of a connection ends
    with [connection_finished], the accept owner runs [accept_once].  An outside call says
    which of them ran ([turn]).  There is one accept owner, so none runs inside [accept_once].
    [sv_history] is the history of what outside code answered - threads started, outcomes of
    threads, carriers started and stopped - and of what was ended; no method reads it.  A
    waiting loop takes the number of passes looked at.  The theorems are in [ServerSpec]. *)

From S2P Require Import Prelude PyStr Models Config Lifecycle Control Tls TlsGeneration Connection.
#[local] Open Scope Z_scope.

Definition GATEWAY_CONFIG : Type := gateway_config TlsConfig admission_limits.

(** A connection as its owner sees it: its descriptor, its generation and its thread. *)
Record served := Served { sc_fd : Z; sc_generation : nat; sc_thread : option Z }.

(** Who has a thread, what ends the use of something by everyone, and the history: a thread
    is started ([spawn] answered its handle), the scheduler answers the outcome of a handle,
    or that carriers were started or stopped, something is ended while these connections are
    published. *)
Inductive owner := AcceptOwner | ConnectionOwner (c : nat).
Inductive ending := StopCarriers | CloseListener | AppShutdown | TlsClose.
Inductive event :=
| Started (o : owner) (h : Z)
| Observed (h : Z) (outcome : thread_outcome)
| PoolStarted (n : Z)
| PoolStopped (answer : option Z)
| Ended (e : ending) (connections : list nat).

Record server (R W : Type) := Server {
  sv_life : lifecycle GATEWAY_CONFIG R;
  sv_config : GATEWAY_CONFIG;
  sv_listener : listener_config TlsConfig;
  sv_carriers : Z;
  sv_fd : Z;
  sv_accept : option Z;
  sv_table : list served;
  sv_connections : list nat;
  sv_owners : list nat;
  sv_pool : bool;
  sv_app : bool;
  sv_control_installed : bool;
  sv_control : process_control;
  sv_drain_started_ms : Z;
  sv_world : W;
  sv_history : list event;
}.
Arguments Server {R W}. Arguments sv_life {R W}. Arguments sv_config {R W}. Arguments sv_listener {R W}.
Arguments sv_carriers {R W}. Arguments sv_fd {R W}. Arguments sv_accept {R W}. Arguments sv_table {R W}.
Arguments sv_connections {R W}. Arguments sv_owners {R W}. Arguments sv_pool {R W}. Arguments sv_app {R W}.
Arguments sv_control_installed {R W}. Arguments sv_control {R W}. Arguments sv_drain_started_ms {R W}.
Arguments sv_world {R W}. Arguments sv_history {R W}.

(** What other threads did during an outside call. *)
Inductive turn := Finished (c : nat) | Accepting.
Definition outside (W A : Type) : Type := W -> list turn * (result A * W).

Record server_env (R W : Type) := ServerEnv {
  e_now_ms : outside W Z;
  e_listen : str -> Z -> bool -> Z -> outside W Z;
  e_accept : Z -> outside W (Z * Z * str);
  e_close : Z -> outside W unit;
  e_wait : Z -> Z -> outside W unit;
  e_idle_wait : Z -> outside W unit;
  e_native_scheduler : bool;
  e_io_backend : outside W Z;
  e_start_carriers : Z -> outside W Z;
  (* an int, or something else *)
  e_stop_carriers : outside W (option Z);
  e_spawn_accept : outside W Z;
  e_spawn_connection : nat -> outside W Z;
  e_cancel : Z -> outside W unit;
  e_outcome : Z -> outside W thread_outcome;
  e_result : Z -> outside W unit;
  e_exception : Z -> outside W (option exn);
  e_startup : outside W unit;
  e_shutdown : outside W unit;
  e_prepare_resolver : outside W unit;
  e_fork_resolver : outside W unit;
  e_tls : bool;
  e_new_channel : Z -> R -> outside W Z;
  e_close_channel : Z -> outside W unit;
  e_reload_tls : TlsConfig -> outside W R;
  e_close_tls : outside W unit;
  (* [GatewayConnection(...)] and its methods, by the index of the connection *)
  e_construct : nat -> Z -> nat -> option Z -> str -> outside W unit;
  e_connection_close : nat -> str -> outside W unit;
  e_connection_closed : nat -> outside W bool;
  e_signal_shutdown : nat -> str -> outside W unit;
  e_close_idle : list (outside W unit);
  e_reload_factory : option (GATEWAY_CONFIG -> outside W (option GATEWAY_CONFIG));
}.
Arguments e_now_ms {R W}. Arguments e_listen {R W}. Arguments e_accept {R W}. Arguments e_close {R W}. Arguments e_wait {R W}.
Arguments e_idle_wait {R W}. Arguments e_native_scheduler {R W}. Arguments e_io_backend {R W}. Arguments e_start_carriers {R W}.
Arguments e_stop_carriers {R W}. Arguments e_spawn_accept {R W}. Arguments e_spawn_connection {R W}. Arguments e_cancel {R W}.
Arguments e_outcome {R W}. Arguments e_result {R W}. Arguments e_exception {R W}. Arguments e_startup {R W}.
Arguments e_shutdown {R W}. Arguments e_prepare_resolver {R W}. Arguments e_fork_resolver {R W}. Arguments e_tls {R W}.
Arguments e_new_channel {R W}. Arguments e_close_channel {R W}. Arguments e_reload_tls {R W}. Arguments e_close_tls {R W}.
Arguments e_construct {R W}. Arguments e_connection_close {R W}. Arguments e_connection_closed {R W}.
Arguments e_signal_shutdown {R W}. Arguments e_close_idle {R W}. Arguments e_reload_factory {R W}.

(** [list.remove] of a value that is in the list. *)
Fixpoint list_remove_first (c : nat) (l : list nat) : list nat :=
  match l with
  | [] => []
  | x :: l' => if bool_decide (x = c) then l' else x :: list_remove_first c l'
  end.

Section setters.
Context {R W : Type}.
Implicit Types s : server R W.
Definition set_sv_life (x : lifecycle GATEWAY_CONFIG R) s : server R W :=
  Server x (sv_config s) (sv_listener s) (sv_carriers s) (sv_fd s) (sv_accept s) (sv_table s) (sv_connections s) (sv_owners s) (sv_pool s) (sv_app s) (sv_control_installed s) (sv_control s) (sv_drain_started_ms s) (sv_world s) (sv_history s).
Definition set_sv_config (x : GATEWAY_CONFIG) s : server R W :=
  Server (sv_life s) x (sv_listener s) (sv_carriers s) (sv_fd s) (sv_accept s) (sv_table s) (sv_connections s) (sv_owners s) (sv_pool s) (sv_app s) (sv_control_installed s) (sv_control s) (sv_drain_started_ms s) (sv_world s) (sv_history s).
Definition set_sv_listener (x : listener_config TlsConfig) s : server R W :=
  Server (sv_life s) (sv_config s) x (sv_carriers s) (sv_fd s) (sv_accept s) (sv_table s) (sv_connections s) (sv_owners s) (sv_pool s) (sv_app s) (sv_control_installed s) (sv_control s) (sv_drain_started_ms s) (sv_world s) (sv_history s).
Definition set_sv_fd (x : Z) s : server R W :=
  Server (sv_life s) (sv_config s) (sv_listener s) (sv_carriers s) x (sv_accept s) (sv_table s) (sv_connections s) (sv_owners s) (sv_pool s) (sv_app s) (sv_control_installed s) (sv_control s) (sv_drain_started_ms s) (sv_world s) (sv_history s).
Definition set_sv_accept (x : option Z) s : server R W :=
  Server (sv_life s) (sv_config s) (sv_listener s) (sv_carriers s) (sv_fd s) x (sv_table s) (sv_connections s) (sv_owners s) (sv_pool s) (sv_app s) (sv_control_installed s) (sv_control s) (sv_drain_started_ms s) (sv_world s) (sv_history s).
Definition set_sv_table (x : list served) s : server R W :=
  Server (sv_life s) (sv_config s) (sv_listener s) (sv_carriers s) (sv_fd s) (sv_accept s) x (sv_connections s) (sv_owners s) (sv_pool s) (sv_app s) (sv_control_installed s) (sv_control s) (sv_drain_started_ms s) (sv_world s) (sv_history s).
Definition set_sv_connections (x : list nat) s : server R W :=
  Server (sv_life s) (sv_config s) (sv_listener s) (sv_carriers s) (sv_fd s) (sv_accept s) (sv_table s) x (sv_owners s) (sv_pool s) (sv_app s) (sv_control_installed s) (sv_control s) (sv_drain_started_ms s) (sv_world s) (sv_history s).
Definition set_sv_owners (x : list nat) s : server R W :=
  Server (sv_life s) (sv_config s) (sv_listener s) (sv_carriers s) (sv_fd s) (sv_accept s) (sv_table s) (sv_connections s) x (sv_pool s) (sv_app s) (sv_control_installed s) (sv_control s) (sv_drain_started_ms s) (sv_world s) (sv_history s).
Definition set_sv_pool (x : bool) s : server R W :=
  Server (sv_life s) (sv_config s) (sv_listener s) (sv_carriers s) (sv_fd s) (sv_accept s) (sv_table s) (sv_connections s) (sv_owners s) x (sv_app s) (sv_control_installed s) (sv_control s) (sv_drain_started_ms s) (sv_world s) (sv_history s).
Definition set_sv_app (x : bool) s : server R W :=
  Server (sv_life s) (sv_config s) (sv_listener s) (sv_carriers s) (sv_fd s) (sv_accept s) (sv_table s) (sv_connections s) (sv_owners s) (sv_pool s) x (sv_control_installed s) (sv_control s) (sv_drain_started_ms s) (sv_world s) (sv_history s).
Definition set_sv_control_installed (x : bool) s : server R W :=
  Server (sv_life s) (sv_config s) (sv_listener s) (sv_carriers s) (sv_fd s) (sv_accept s) (sv_table s) (sv_connections s) (sv_owners s) (sv_pool s) (sv_app s) x (sv_control s) (sv_drain_started_ms s) (sv_world s) (sv_history s).
Definition set_sv_control (x : process_control) s : server R W :=
  Server (sv_life s) (sv_config s) (sv_listener s) (sv_carriers s) (sv_fd s) (sv_accept s) (sv_table s) (sv_connections s) (sv_owners s) (sv_pool s) (sv_app s) (sv_control_installed s) x (sv_drain_started_ms s) (sv_world s) (sv_history s).
Definition set_sv_drain_started_ms (x : Z) s : server R W :=
  Server (sv_life s) (sv_config s) (sv_listener s) (sv_carriers s) (sv_fd s) (sv_accept s) (sv_table s) (sv_connections s) (sv_owners s) (sv_pool s) (sv_app s) (sv_control_installed s) (sv_control s) x (sv_world s) (sv_history s).
Definition set_sv_world (x : W) s : server R W :=
  Server (sv_life s) (sv_config s) (sv_listener s) (sv_carriers s) (sv_fd s) (sv_accept s) (sv_table s) (sv_connections s) (sv_owners s) (sv_pool s) (sv_app s) (sv_control_installed s) (sv_control s) (sv_drain_started_ms s) x (sv_history s).
Definition set_sv_history (x : list event) s : server R W :=
  Server (sv_life s) (sv_config s) (sv_listener s) (sv_carriers s) (sv_fd s) (sv_accept s) (sv_table s) (sv_connections s) (sv_owners s) (sv_pool s) (sv_app s) (sv_control_installed s) (sv_control s) (sv_drain_started_ms s) (sv_world s) x.
End setters.

Module GatewayServer.
Section server.
Context {R W : Type} `{ResourceOps R W} `{ControlAbi W}.
Context (env : server_env R W).
Abbreviation server := (server R W).
Abbreviation S := (M server).

Definition self : S server := get.
Definition upd (f : server -> server) : S unit := modify f.
Definition attempt_result {A} (m : S A) : S (result A) := try_except (let! a := m in ret (Ok a)) (fun e => ret (Raise e)).
Definition on_world {A} (m : M W A) : S A := zoom sv_world set_sv_world m.
(** A method of the lifecycle: it may call resources, which are of the world. *)
Definition on_lifecycle {A} (m : M (lifecycle GATEWAY_CONFIG R * W) A) : S A :=
  zoom (fun s => (sv_life s, sv_world s)) (fun t s => set_sv_life (fst t) (set_sv_world (snd t) s)) m.
Definition life {A} (m : M (lifecycle GATEWAY_CONFIG R) A) : S A := zoom sv_life set_sv_life m.
Definition on_control {A} (m : M (process_control * W) A) : S A :=
  zoom (fun s => (sv_control s, sv_world s)) (fun t s => set_sv_control (fst t) (set_sv_world (snd t) s)) m.
Definition state_is (st : gw_state) : S bool := let! s := self in ret (bool_decide (l_state (sv_life s) = st)).
Definition note (e : event) : S unit := upd (fun s => set_sv_history (sv_history s ++ [e]) s).
Definition note_ended (e : ending) : S unit := let! s := self in note (Ended e (sv_connections s)).

Definition get_served (c : nat) : S served := fun s =>
  match sv_table s !! c with Some x => (Ok x, s) | None => (Raise gen_released_error, s) end.
Definition set_thread (c : nat) (h : option Z) : S unit := upd (fun s =>
  match sv_table s !! c with
  | Some x => set_sv_table (<[c := Served (sc_fd x) (sc_generation x) h]> (sv_table s)) s
  | None => s
  end).
(** Out of the ledger of connections; [true]: it was there. *)
Definition unlist (c : nat) : S bool :=
  let! s := self in
  if bool_decide (c ∈ sv_connections s)
  then upd (set_sv_connections (list_remove_first c (sv_connections s))) ;;! ret true
  else ret false.

(** ** The end of a connection's thread *)

Definition connection_finished (c : nat) : S unit :=
  let! removed := unlist c in
  if negb removed then ret tt
  else
    let! x := get_served c in
    let! e := attempt_all [
      (let! _ := on_lifecycle (release (sc_generation x)) in ret tt);
      life release_connection;
      (let! _ := life collect_retired in ret tt)] in
    reraise e.

(** ** The accept owner *)

(** An outside call of the accept owner: meanwhile connections may finish. *)
Definition finish (c : nat) (s : server) : server := snd (connection_finished c s).
Definition finishing (t : turn) (s : server) : server := match t with Finished c => finish c s | Accepting => s end.
Definition accept_call {A} (m : outside W A) : S A := fun s =>
  let '(ts, (r, w)) := m (sv_world s) in (r, fold_left (fun s t => finishing t s) ts (set_sv_world w s)).
(** A thread is started, unless it raises: then it was not. *)
Definition is_turn_of (c : nat) (t : turn) : bool := match t with Finished c' => bool_decide (c' = c) | Accepting => false end.
Definition spawn_call (c : nat) (m : outside W Z) : S Z := accept_call (fun w =>
  let '(ts, (r, w')) := m w in
  (match r with Ok _ => ts | Raise _ => List.filter (fun t => negb (is_turn_of c t)) ts end, (r, w'))).

(** The cleanup of a connection that is not published: every part on its own, errors ignored. *)
Definition discard_accepted (channel : option Z) (generation : option nat) (fd : Z) (e : exn) : S nat :=
  let! _ := attempt_all [
    match channel with Some h => accept_call (e_close_channel env h) | None => ret tt end;
    match generation with Some g => let! _ := on_lifecycle (release g) in ret tt | None => ret tt end;
    life release_connection;
    accept_call (e_close env fd)] in
  raise e.
Definition tls_channel (g : nat) (fd : Z) : S (option Z) :=
  accept_call (e_fork_resolver env) ;;!
  if e_tls env then
    let! x := life (get_gen g) in
    match g_resources x with
    | [] => raise (OtherError 2)
    | r :: _ => let! h := accept_call (e_new_channel env fd r) in ret (Some h)
    end
  else ret None.
(** The connection of an accepted socket, or nothing of it. *)
Definition construct (fd : Z) (client_ip : str) : S nat :=
  let! g := attempt_result (life acquire_generation) in
  match g with
  | Raise e => discard_accepted None None fd e
  | Ok g =>
      let! h := attempt_result (tls_channel g fd) in
      match h with
      | Raise e => discard_accepted None (Some g) fd e
      | Ok h =>
          let! s := self in
          let c := length (sv_table s) in
          let! o := attempt_result (accept_call (e_construct env c fd g h client_ip)) in
          match o with
          | Raise e => discard_accepted h (Some g) fd e
          | Ok _ => upd (fun s => set_sv_table (sv_table s ++ [Served fd g None]) s) ;;! ret c
          end
      end
  end.
(** Published, then its thread is started. *)
Definition spawn (c : nat) : S Z :=
  upd (fun s => set_sv_connections (sv_connections s ++ [c]) s) ;;!
  let! t := attempt_result (spawn_call c (e_spawn_connection env c)) in
  match t with
  | Ok h =>
      note (Started (ConnectionOwner c) h) ;;!
      set_thread c (Some h) ;;!
      upd (fun s => set_sv_owners (sv_owners s ++ [c]) s) ;;!
      ret 1
  | Raise e =>
      let! _ := unlist c in
      let! x := get_served c in
      let! _ := attempt_all [
        accept_call (e_connection_close env c (py "spawn-failed"));
        (let! _ := on_lifecycle (release (sc_generation x)) in ret tt);
        life release_connection] in
      raise e
  end.

Definition accept_once (listener_fd : Z) : S Z :=
  let! s := self in
  let listener_fd := if listener_fd <? 0 then sv_fd s else listener_fd in
  if (listener_fd <? 0) || negb (listener_fd =? sv_fd s) || negb (bool_decide (l_state (sv_life s) = STATE_RUNNING)) then ret 0
  else
    let! (outcome, fd, client_ip) := accept_call (e_accept env listener_fd) in
    if outcome =? PCC_SOCKET_WOULD_BLOCK then ret 0
    else if negb (outcome =? PCC_SOCKET_PROGRESS) || (fd <? 0)
    then raise (GatewayTransportError (py "socket accept observation failed"))
    else
      let! admitted := life admit_connection in
      if negb admitted then accept_call (e_close env fd) ;;! ret (-1)
      else
        let! c := construct fd client_ip in
        spawn c.

(** [_gateway_accept_entry]: the accept owner's loop over the descriptor it started with. *)
Fixpoint accept_entry (passes : nat) (listener_fd : Z) : S unit :=
  match passes with
  | O => raise out_of_fuel
  | Datatypes.S passes' =>
      let! s := self in
      if negb (bool_decide (l_state (sv_life s) = STATE_RUNNING)) || (listener_fd <? 0) then ret tt
      else if negb (sv_fd s =? listener_fd)
      then raise (GatewayTransportError (py "gateway listener descriptor changed under accept owner"))
      else
        let! accepted := accept_once listener_fd in
        (if accepted =? 0 then accept_call (e_wait env listener_fd (accept_poll_ms (sv_config s))) else ret tt) ;;!
        accept_entry passes' listener_fd
  end.

(** ** Calls of the control thread *)

Definition run_turn (s : server) (t : turn) : server :=
  match t with
  | Finished c => finish c s
  | Accepting => match sv_accept s with Some _ => snd (accept_once (sv_fd s) s) | None => s end
  end.
Definition call {A} (m : outside W A) : S A := fun s =>
  let '(ts, (r, w)) := m (sv_world s) in (r, fold_left run_turn ts (set_sv_world w s)).
(** The accept owner is started; it may run before its handle is kept, which it does not read. *)
Definition start_accept : S unit := fun s =>
  let '(ts, (r, w)) := e_spawn_accept env (sv_world s) in
  let s := set_sv_world w s in
  match r with
  | Raise e => (Raise e, fold_left (fun s t => finishing t s) ts s)
  | Ok h => (Ok tt, fold_left run_turn ts (set_sv_accept (Some h) (snd (note (Started AcceptOwner h) s))))
  end.

(** [scheduler.outcome(thread)]. *)
Definition outcome_of (h : Z) : S thread_outcome :=
  let! o := call (e_outcome env h) in
  note (Observed h o) ;;!
  ret o.
Definition now_ms : S Z := call (e_now_ms env).
Definition error_text (prefix : str) (e : exn) : str := prefix ++ exn_message e.
Definition close_listener : S unit :=
  let! s := self in
  if sv_fd s >=? 0 then
    note_ended CloseListener ;;!
    upd (set_sv_fd (-1)) ;;!
    call (e_close env (sv_fd s))
  else ret tt.

Definition request_stop : S unit :=
  let! running := state_is STATE_RUNNING in
  if running then
    life begin_drain ;;!
    let! n := now_ms in
    upd (set_sv_drain_started_ms n)
  else ret tt.

(** *** The ledger of threads *)

(** The connections whose threads are over, and the first error met. *)
Fixpoint terminal_owners (cs : list nat) (first_error : option exn) : S (list nat * option exn) :=
  match cs with
  | [] => ret ([], first_error)
  | c :: cs' =>
      let! x := get_served c in
      match sc_thread x with
      | None => terminal_owners cs' (first_of first_error (Some (GatewayError (py "gateway connection owner lost its virtual-thread handle"))))
      | Some h =>
          let! o := attempt_result (outcome_of h) in
          match o with
          | Raise e => terminal_owners cs' (first_of first_error (Some e))
          | Ok OutcomePending => terminal_owners cs' first_error
          | Ok (OutcomeUnknown n) =>
              terminal_owners cs' (first_of first_error (Some (GatewayError (py "gateway connection owner reported unknown outcome " ++ str_of_int n))))
          | Ok _ => let! (terminal, e) := terminal_owners cs' first_error in ret (c :: terminal, e)
          end
      end
  end.
Definition retire_owner (s : server) (c : nat) : server :=
  if bool_decide (c ∈ sv_owners s)
  then snd (set_thread c None (set_sv_owners (list_remove_first c (sv_owners s)) s)) else s.
(** Whether all are over. *)
Definition reap_connection_owners : S (bool * option exn) :=
  let! s := self in
  let! (terminal, first_error) := terminal_owners (sv_owners s) None in
  upd (fun s => fold_left retire_owner terminal s) ;;!
  let! s := self in
  ret (bool_decide (sv_owners s = []), first_error).

Fixpoint signal_all (cs : list nat) : S Z :=
  match cs with
  | [] => ret 0
  | c :: cs' =>
      let! closed := call (e_connection_closed env c) in
      if closed then signal_all cs'
      else
        let! _ := attempt (call (e_signal_shutdown env c (py "gateway drain deadline"))) in
        let! n := signal_all cs' in
        ret (n + 1)
  end.
Definition force_close_connections : S unit :=
  let! s := self in
  let! forced := signal_all (sv_connections s) in
  if forced =? 0 then ret tt else life (metric_add (py "drain_forced") forced).
Definition settle_closed_connections : S unit :=
  let! s := self in
  if negb (bool_decide (sv_connections s = [])) || negb (bool_decide (sv_owners s = []))
  then raise (GatewayError (py "gateway stopped carriers with nonterminal connection owners")) else ret tt.

(** A pause of at most [control_poll_ms], not past the deadline. *)
Definition pause (deadline n : Z) : S unit :=
  let! s := self in
  let delay := control_poll_ms (sv_config s) in
  call (e_idle_wait env (if delay >? deadline - n then deadline - n else delay)).

Fixpoint await_loop (passes : nat) (deadline : Z) (first_error : option exn) : S (bool * option exn) :=
  match passes with
  | O => raise out_of_fuel
  | Datatypes.S passes' =>
      let! (terminal, owner_error) := reap_connection_owners in
      let first_error := first_of first_error owner_error in
      let! s := self in
      if bool_decide (sv_connections s = []) && terminal then ret (true, first_error)
      else
        let! n := now_ms in
        if n >=? deadline then ret (false, first_error)
        else pause deadline n ;;! await_loop passes' deadline first_error
  end.
Definition await_connection_owners (passes : nat) : S (bool * option exn) :=
  let! n := now_ms in
  let! s := self in
  await_loop passes (n + drain_timeout_ms (sv_config s)) None.

(** *** The accept owner's end *)

(** A failure of the shutdown: its reason, and its error. *)
Definition failure : Type := (str * exn)%type.
Definition keep_first (first : option failure) (prefix : str) (e : exn) : option failure :=
  match first with Some _ => first | None => Some (error_text prefix e, e) end.
Definition keep_reason (first : option failure) (reason : str) : option failure :=
  match first with Some _ => first | None => Some (reason, GatewayError reason) end.
Definition record_accept_shutdown_failure (f : failure) : S exn :=
  let! failed := state_is STATE_FAILED in
  (if failed then ret tt else life (fail (fst f))) ;;!
  ret (snd f).

(** Until the thread is over, or the deadline: its last outcome. *)
Fixpoint observe_accept (passes : nat) (h deadline : Z) (first : option failure) : S (thread_outcome * option failure) :=
  match passes with
  | O => raise out_of_fuel
  | Datatypes.S passes' =>
      let! o := attempt_result (outcome_of h) in
      match o with
      | Raise e => ret (OutcomePending, keep_first first (py "gateway accept owner shutdown inspection failed: ") e)
      | Ok OutcomePending =>
          let! n := attempt_result now_ms in
          match n with
          | Raise e => ret (OutcomePending, keep_first first (py "gateway accept owner shutdown clock failed: ") e)
          | Ok n =>
              if n >=? deadline
              then ret (OutcomePending, keep_reason first (py "gateway accept owner did not terminate before shutdown deadline"))
              else
                let! w := attempt (pause deadline n) in
                match w with
                | Some e => ret (OutcomePending, keep_first first (py "gateway accept owner shutdown wait failed: ") e)
                | None => observe_accept passes' h deadline first
                end
          end
      | Ok outcome => ret (outcome, first)
      end
  end.
Definition retire_accept (h : Z) (outcome : thread_outcome) (first : option failure) : S (option failure) :=
  match outcome with
  | OutcomePending => ret first
  | OutcomeReturned =>
      upd (set_sv_accept None) ;;!
      let! e := attempt (call (e_result env h)) in
      ret (match e with Some e => keep_first first (py "gateway accept owner result inspection failed: ") e | None => first end)
  | OutcomeRaised =>
      upd (set_sv_accept None) ;;!
      let! e := attempt_result (call (e_exception env h)) in
      ret (match e with
           | Raise e => keep_first first (py "gateway accept owner exception inspection failed: ") e
           | Ok (Some e) =>
               match first with
               | Some _ => first
               | None => Some (py "gateway accept owner raised during shutdown" ++
                               (if bool_decide (exn_message e = []) then [] else py ": " ++ exn_message e), e)
               end
           | Ok None => keep_reason first (py "gateway accept owner raised during shutdown")
           end)
  | OutcomeCancelled => upd (set_sv_accept None) ;;! ret first
  | OutcomeUnknown n =>
      upd (set_sv_accept None) ;;!
      ret (keep_reason first (py "gateway accept owner reported unknown shutdown outcome " ++ str_of_int n))
  end.
Definition failed_with (first : option failure) : S (option exn) :=
  match first with
  | Some f => let! e := record_accept_shutdown_failure f in ret (Some e)
  | None => ret None
  end.
Definition stop_accept_owner (passes : nat) : S (option exn) :=
  let! s := self in
  match sv_accept s with
  | None => ret None
  | Some h =>
      let! c := attempt (call (e_cancel env h)) in
      let first := match c with Some e => keep_first None (py "gateway accept owner cancellation failed: ") e | None => None end in
      let! n := attempt_result now_ms in
      match n with
      | Raise e => failed_with (keep_first first (py "gateway accept owner shutdown clock failed: ") e)
      | Ok n =>
          let! (outcome, first) := observe_accept passes h (n + drain_timeout_ms (sv_config s)) first in
          let! first := retire_accept h outcome first in
          failed_with first
      end
  end.

(** *** Shutdown *)

(** The list of [try] blocks that each keep the first error. *)
Definition then_all (first_error : option exn) (ms : list (S unit)) : S (option exn) :=
  let! e := attempt_all ms in ret (first_of first_error e).
Definition shutdown_app : S unit :=
  let! s := self in
  if sv_app s then note_ended AppShutdown ;;! let! e := attempt (call (e_shutdown env)) in upd (set_sv_app false) ;;! reraise e else ret tt.
Definition close_tls : S unit := if e_tls env then note_ended TlsClose ;;! call (e_close_tls env) else ret tt.
Definition uninstall_control : S unit :=
  let! s := self in
  if sv_control_installed s
  then on_control GatewayProcessControl.uninstall ;;! upd (set_sv_control_installed false)
  else ret tt.
Definition retire_current : S unit :=
  let! s := self in
  let! x := life (get_gen (current (sv_life s))) in
  if g_retired x then ret tt else let! _ := on_lifecycle (retire (current (sv_life s))) in ret tt.
(** [scheduler.stop()]; [false]: it answered a negative number. *)
Definition stop_carriers : S bool :=
  note_ended StopCarriers ;;!
  let! stopped := call (e_stop_carriers env) in
  note (PoolStopped stopped) ;;!
  ret (match stopped with Some n => negb (n <? 0) | None => true end).

(** The carriers have joined: whatever else there is, is closed. *)
Definition finish_draining : S unit :=
  let! draining := state_is STATE_DRAINING in
  if draining then
    let! finished := on_lifecycle (finish_drain false) in
    if finished then ret tt else life (fail (py "gateway drain retained active owners"))
  else ret tt.
Definition retire_unless_stopped : S unit :=
  let! stopped := state_is STATE_STOPPED in
  if stopped then ret tt else retire_current.
Definition release_all (first_error : option exn) : S (option exn) :=
  then_all first_error
    [close_listener; settle_closed_connections; finish_draining; retire_unless_stopped; shutdown_app; close_tls; uninstall_control].

(** Waking the connections, then waiting for them; [false]: some may still run. *)
Definition settle_owners (passes : nat) (first_error : option exn) : S (bool * option exn) :=
  let! o := attempt_result (
    let! s := self in
    (if bool_decide (sv_connections s = []) then ret tt else force_close_connections) ;;!
    await_connection_owners passes) in
  let '(terminal, first_error) := match o with
                                  | Ok (terminal, e) => (terminal, first_of first_error e)
                                  | Raise e => (false, first_of first_error (Some e))
                                  end in
  if terminal then ret (true, first_error)
  else
    let reason := py "gateway connection owners did not terminate before shutdown deadline" in
    let! failed := state_is STATE_FAILED in
    (if failed then ret tt else life (fail reason)) ;;!
    ret (false, first_of first_error (Some (GatewayError reason))).

Definition shutdown_all (passes : nat) : S (option exn) :=
  let! e0 := attempt (let! running := state_is STATE_RUNNING in if running then life begin_drain else ret tt) in
  let! e1 := stop_accept_owner passes in
  let! (terminal, first_error) := settle_owners passes (first_of e0 e1) in
  let! s := self in
  if bool_decide (is_Some (sv_accept s)) || negb terminal
  then ret (first_of first_error (Some (GatewayError (py "gateway shutdown retained nonterminal virtual-thread owners"))))
  else
    let! first_error := then_all first_error (map call (e_close_idle env)) in
    let! s := self in
    if sv_pool s then
      let! stopped := attempt_result stop_carriers in
      match stopped with
      | Raise e => ret (first_of first_error (Some e))
      | Ok false => ret (first_of first_error (Some (GatewayError (py "virtual-thread carrier pool did not stop"))))
      | Ok true => upd (set_sv_pool false) ;;! release_all first_error
      end
    else release_all first_error.
Definition shutdown (passes : nat) : S unit :=
  let! error := shutdown_all passes in
  match error with Some e => raise e | None => ret tt end.

(** ** Startup *)

Definition roll_back (first_error : option exn) : S (option exn) :=
  then_all first_error [close_listener; shutdown_app; retire_current; close_tls; uninstall_control].
Definition rollback_start (passes : nat) : S (option exn) :=
  let! s := self in
  if sv_pool s then
    let! first_error := stop_accept_owner passes in
    let! s := self in
    if bool_decide (is_Some (sv_accept s))
    then ret (first_of first_error (Some (GatewayError (py "gateway startup rollback retained accept owner"))))
    else
      let! stopped := attempt_result stop_carriers in
      match stopped with
      | Raise e => ret (first_of first_error (Some e))
      | Ok false => ret (first_of first_error (Some (GatewayError (py "virtual-thread carrier pool did not stop during startup rollback"))))
      | Ok true => upd (set_sv_pool false) ;;! roll_back first_error
      end
  else roll_back None.

Definition expected_backend (name : str) : Z :=
  if str_eqb name (py "poll") then 0 else if str_eqb name (py "kqueue") then 1 else if str_eqb name (py "epoll") then 2 else -1.
Definition start_steps : S unit :=
  let! s := self in
  (if install_signal_handlers (sv_config s)
   then on_control GatewayProcessControl.install ;;! upd (set_sv_control_installed true) else ret tt) ;;!
  call (e_startup env) ;;!
  upd (set_sv_app true) ;;!
  call (e_prepare_resolver env) ;;!
  let! s := self in
  let! fd := call (e_listen env (lc_host (sv_listener s)) (lc_port (sv_listener s)) (lc_reuse_port (sv_listener s)) (lc_backlog (sv_listener s))) in
  upd (set_sv_fd fd) ;;!
  if fd <? 0 then raise (GatewayTransportError (py "gateway listen failed"))
  else
    life started ;;!
    let! s := self in
    let! n := call (e_start_carriers env (sv_carriers s)) in
    note (PoolStarted n) ;;!
    if n <=? 0 then raise (GatewayError (py "virtual-thread carrier pool did not start"))
    else
      upd (set_sv_pool true) ;;!
      let expected := expected_backend (waitset_backend (sv_config s)) in
      let! bad := if (expected >=? 0) && e_native_scheduler env
                  then let! b := call (e_io_backend env) in ret (negb (b =? expected)) else ret false in
      if bad then raise (UnsupportedGatewayFeature (py "requested gateway waitset backend is unavailable"))
      else start_accept.
Definition start (passes : nat) : S unit :=
  let! fresh := state_is STATE_NEW in
  if negb fresh then raise (GatewayError (py "gateway server can start only once"))
  else
    life Lifecycle.start ;;!
    try_except start_steps (fun e =>
      life (fail (exn_message e)) ;;!
      let! cleanup_error := rollback_start passes in
      match cleanup_error with Some c => raise c | None => raise e end).

(** ** Reload *)

Definition same_listener (a b : listener_config TlsConfig) : bool :=
  bool_decide (lc_host a = lc_host b /\ lc_port a = lc_port b /\ lc_backlog a = lc_backlog b /\ lc_reuse_port a = lc_reuse_port b /\
    lc_tls_provider a = lc_tls_provider b /\ lc_tls_provider_library a = lc_tls_provider_library b /\
    lc_tls_provider_library_sha256 a = lc_tls_provider_library_sha256 b /\ lc_tls_provider_max_bytes a = lc_tls_provider_max_bytes b).
Definition same_limits (a b : admission_limits) : bool :=
  bool_decide (max_connections a = max_connections b /\ max_requests a = max_requests b /\ max_queued_requests a = max_queued_requests b /\
    max_upstream_active a = max_upstream_active b /\ max_buffered_bytes a = max_buffered_bytes b).
Definition HTTP_ALPN : list str := [py "http/1.1"].
(** It holds the generation lock, which the accept owner takes to make a connection: meanwhile
    connections may finish. *)
Definition reload (config : GATEWAY_CONFIG) : S nat :=
  let! s := self in
  if negb (bool_decide (l_state (sv_life s) = STATE_RUNNING)) then raise (GatewayError (py "gateway reload requires running state"))
  else
    match listeners config with
    | [listener] =>
        if negb (same_listener listener (sv_listener s))
        then raise (UnsupportedGatewayFeature (py "gateway reload cannot replace listener identity or TLS provider"))
        else if negb (carrier_count config =? carrier_count (sv_config s))
                || negb (str_eqb (waitset_backend config) (waitset_backend (sv_config s)))
                || negb (Bool.eqb (install_signal_handlers config) (install_signal_handlers (sv_config s)))
        then raise (UnsupportedGatewayFeature (py "gateway reload cannot replace carrier, waitset or signal ownership"))
        else if negb (same_limits (gc_admission config) (gc_admission (sv_config s)))
        then raise (UnsupportedGatewayFeature (py "gateway reload cannot replace live admission limits"))
        else
          let! resources :=
            if e_tls env then
              match lc_tls_config listener with
              | None => raise (TlsProviderError (py "TLS reload configuration is invalid"))
              | Some tls =>
                  if negb (bool_decide (cfg_alpn tls = HTTP_ALPN))
                  then raise (TlsProviderError (py "HTTP/1 gateway TLS listener must offer only http/1.1 ALPN"))
                  else
                    let! r := accept_call (e_reload_tls env tls) in
                    life (metric_add (py "tls_generation_reloads") 1) ;;!
                    ret [r]
              end
            else ret [] in
          let! generation := on_lifecycle (publish config resources) in
          upd (set_sv_config config) ;;!
          upd (set_sv_listener listener) ;;!
          ret generation
    | _ => raise (GatewayError (py "gateway reload requires one listener"))
    end.

(** ** The control loop *)

(** [true]: the loop ends. *)
Definition drive_drain : S bool :=
  let! draining := state_is STATE_DRAINING in
  if negb draining then ret false
  else
    let! active := life (metric (py "connections_active")) in
    if active =? 0 then let! _ := on_lifecycle (finish_drain false) in ret true
    else
      let! n := now_ms in
      let! s := self in
      if n - sv_drain_started_ms s >=? drain_timeout_ms (sv_config s) then
        force_close_connections ;;!
        let! active := life (metric (py "connections_active")) in
        (if active =? 0 then let! _ := on_lifecycle (finish_drain false) in ret tt else ret tt) ;;!
        ret true
      else ret false.

Definition fail_accept_owner {A} (reason : str) (error : option exn) : S A :=
  life (fail reason) ;;!
  raise (default (GatewayError reason) error).
Definition check_accept_owner : S unit :=
  let! s := self in
  match sv_accept s with
  | None =>
      let! running := state_is STATE_RUNNING in
      if running then fail_accept_owner (py "gateway accept owner is missing") None else ret tt
  | Some h =>
      let! o := attempt_result (outcome_of h) in
      match o with
      | Raise e => fail_accept_owner (error_text (py "gateway accept owner health check failed: ") e) (Some e)
      | Ok OutcomePending => ret tt
      | Ok OutcomeReturned =>
          let! running := state_is STATE_RUNNING in
          if running then fail_accept_owner (py "gateway accept owner returned while server is running") None else ret tt
      | Ok OutcomeRaised =>
          let! e := attempt_result (call (e_exception env h)) in
          match e with
          | Raise i => fail_accept_owner (error_text (py "gateway accept owner exception inspection failed: ") i) (Some i)
          | Ok e =>
              let detail := match e with Some x => exn_message x | None => [] end in
              fail_accept_owner (py "gateway accept owner raised" ++ (if bool_decide (detail = []) then [] else py ": " ++ detail)) e
          end
      | Ok OutcomeCancelled => fail_accept_owner (py "gateway accept owner was cancelled") None
      | Ok (OutcomeUnknown n) => fail_accept_owner (py "gateway accept owner reported unknown outcome " ++ str_of_int n) None
      end
  end.

Definition on_reload_request : S unit :=
  life (metric_add (py "reload_requested") 1) ;;!
  match e_reload_factory env with
  | None => ret tt
  | Some factory =>
      let! s := self in
      let! replacement := call (factory (sv_config s)) in
      match replacement with None => ret tt | Some c => let! _ := reload c in ret tt end
  end.
(** One turn of the loop; [true]: it ends. *)
Definition control_pass : S bool :=
  let! (_, owner_error) := reap_connection_owners in
  match owner_error with
  | Some e => raise e
  | None =>
      let! s := self in
      let! p := if sv_control_installed s then let! p := on_control GatewayProcessControl.poll in ret (Some p) else ret None in
      (if match p with Some p => reload_requested p | None => false end then on_reload_request else ret tt) ;;!
      (if match p with Some p => stop_requested p | None => false end then request_stop else ret tt) ;;!
      check_accept_owner ;;!
      let! drained := drive_drain in
      if drained then ret true
      else
        let! s := self in
        call (e_idle_wait env (control_poll_ms (sv_config s))) ;;!
        ret false
  end.
Fixpoint control_loop (passes : nat) : S unit :=
  match passes with
  | O => raise out_of_fuel
  | Datatypes.S passes' =>
      let! s := self in
      if negb (bool_decide (l_state (sv_life s) = STATE_RUNNING) || bool_decide (l_state (sv_life s) = STATE_DRAINING)) then ret tt
      else
        let! ends := control_pass in
        if ends then ret tt else control_loop passes'
  end.
Definition run (turns passes : nat) : S Z :=
  start passes ;;!
  let! run_error := attempt (control_loop turns) in
  let! cleanup_error := shutdown_all passes in
  let! s := self in
  let retained := sv_pool s || bool_decide (is_Some (sv_accept s)) || negb (bool_decide (sv_connections s = []))
                  || negb (bool_decide (sv_owners s = [])) in
  (if retained then reraise cleanup_error else ret tt) ;;!
  reraise run_error ;;!
  reraise cleanup_error ;;!
  let! stopped := state_is STATE_STOPPED in
  ret (if stopped then 0 else -1).
End server.

(** ** Construction *)

Fixpoint contains (sub s : str) : bool :=
  starts_with sub s || match s with [] => false | _ :: s' => contains sub s' end.
(** The provider is the reviewed native one, and the artifact the listener declares. *)
Definition provenance_ok (listener : listener_config TlsConfig) (info : TlsProviderInfo) : bool :=
  let declared_mismatch :=
    negb (empty (lc_tls_provider_library listener)) &&
    (negb (str_eqb (library_path info) (lc_tls_provider_library listener))
     || negb (str_eqb (expected_library_sha256 info) (lc_tls_provider_library_sha256 listener))
     || negb (str_eqb (verified_library_sha256 info) (lc_tls_provider_library_sha256 listener))
     || negb (library_max_bytes info =? lc_tls_provider_max_bytes listener)) in
  str_eqb (native_abi info) (py "pcc-tls-native-provider-v1") && contains (py "no-libpython") (link_boundary info)
  && negb (empty (implementation_id info)) && negb declared_mismatch.

Section construction.
Context {R W : Type} `{ResourceOps R W}.
(** A generation manager of the listener: over a registry that was given, else over the
    production registry of the native provider; its provider and its active generation. *)
Context (given_registry : bool) (make_manager : listener_config TlsConfig -> M W (TlsProviderInfo * R)) (close_manager : M W unit).

Definition attach_tls (listener : listener_config TlsConfig) : M (lifecycle GATEWAY_CONFIG R * W) unit :=
  if empty (lc_tls_provider listener) then ret tt
  else
    match lc_tls_config listener with
    | None => raise (TlsProviderError (py "TLS listener configuration is invalid"))
    | Some tls =>
        if negb (bool_decide (cfg_alpn tls = HTTP_ALPN))
        then raise (TlsProviderError (py "HTTP/1 gateway TLS listener must offer only http/1.1 ALPN"))
        else if negb given_registry && negb (str_eqb (lc_tls_provider listener) (py "pcc-native-tls-v1"))
        then raise (TlsProviderError (py "non-native TLS provider requires an explicit registry"))
        else
          let! (info, active) := callback (make_manager listener) in
          if negb (provenance_ok listener info) then
            callback close_manager ;;!
            raise (TlsProviderError (py "TLS listener provider lacks reviewed native/no-libpython provenance"))
          else
            let! t := get in
            attach_resource (current (fst t)) active
    end.
(** [config]: the one given, else the default one over a listener of host and port. *)
Definition init (port carriers : Z) (config : GATEWAY_CONFIG) (control : process_control) : M W (server R W) := fun w =>
  if (port <=? 0) || (port >? 65535) then (Raise (ValueError (py "gateway port is out of range")), w)
  else if (carriers <? 0) || (carriers >? 64) then (Raise (ValueError (py "carrier count must be between 0 and 64")), w)
  else
    match listeners config with
    | [listener] =>
        if negb (str_in (waitset_backend config) [py "auto"; py "poll"; py "kqueue"; py "epoll"])
        then (Raise (UnsupportedGatewayFeature (py "unknown gateway waitset backend")), w)
        else if segment_bytes (gc_buffers config) >? 65536
        then (Raise (ValueError (py "native gateway socket chunks are bounded at 64 KiB")), w)
        else
          let configured := if carriers >? 0 then carriers else carrier_count config in
          let '(r, (l, w)) := attach_tls listener (Lifecycle.init config (gc_admission config), w) in
          (rmap (fun _ => Server l config listener (if configured >? 0 then configured else 1) (-1) None [] [] [] false false false
                            control (-1) w []) r, w)
    | _ => (Raise (UnsupportedGatewayFeature (py "GatewayServer currently owns exactly one listener")), w)
    end.
End construction.
End GatewayServer.
