(* ===== verification/SocketNative.v ===== *)
(** * The native socket transport ([NativeSocketTransport] of [pcc_gateway/server.py])

    What the gateway asks of sockets, as observations of the runtime's extern symbols, which
    are the class [SocketPlatform]: a call returns its outcome and what it wrote through its
    output pointers, and raises nothing. *)

From S2P Require Import Prelude PyStr DnsWire Connection ProxyDriver.
#[local] Open Scope Z_scope.

Class SocketPlatform (W : Type) := {
  (* the host or a null pointer, the port, reuse, backlog *)
  ps_listen : option str -> str -> Z -> Z -> W -> Z * W;
  (* outcome, the descriptor written *)
  ps_accept : Z -> W -> (Z * Z) * W;
  (* its length or an error, what the storage holds *)
  ps_peer_text : Z -> Z -> W -> (Z * bytes) * W;
  ps_connect_start : str -> str -> W -> (Z * Z) * W;
  ps_connect_observe : Z -> Z -> W -> Z * W;
  ps_read_observe : Z -> Z -> Z -> W -> (Z * Z * bytes) * W;
  ps_write_observe : Z -> bytes -> Z -> Z -> W -> (Z * Z) * W;
  ps_shutdown : Z -> Z -> W -> Z * W;
  ps_close : Z -> W -> Z * W;
  ps_monotonic_us : W -> Z * W;
  ps_sleep_ns : Z -> W -> Z * W;
  (* an object that is a str, or is not *)
  ps_str_new : bytes -> option str;
}.

Module NativeSocketTransport.
Section transport.
Context {W : Type} `{SocketPlatform W}.
Abbreviation T := (M W).
Definition observe {A} (f : W -> A * W) : T A := fun w => let '(a, w) := f w in (Ok a, w).

Definition now_ms : T Z := let! us := observe ps_monotonic_us in ret (us / 1000).
Definition listen (host : str) (port : Z) (reuse_port : bool) (backlog : Z) : T Z :=
  let host_pointer := if bool_decide (host = []) then None else Some host in
  observe (ps_listen host_pointer (str_of_int port) (if reuse_port then 1 else 0) backlog).
(** An accepted descriptor whose peer has no name is closed, and reported as an error. *)
Definition accept (listener_fd : Z) : T (Z * Z * str) :=
  let! (outcome, fd) := observe (ps_accept listener_fd) in
  if outcome =? PCC_SOCKET_PROGRESS then
    let! (peer_length, peer_text) := observe (ps_peer_text fd 64) in
    if peer_length <=? 0 then
      let! _ := observe (ps_close fd) in
      ret (if peer_length <? 0 then peer_length else -1, -1, [])
    else
      match ps_str_new (upto peer_text peer_length) with
      | None => let! _ := observe (ps_close fd) in ret (-1, -1, [])
      | Some client_ip => ret (outcome, fd, client_ip)
      end
  else ret (outcome, -1, []).
Definition open_upstream (host : str) (port : Z) (address : str) : T Z :=
  let address := if bool_decide (address = []) then host else address in
  match normalize_numeric_address address 0 with
  | None => ret (-1)
  | Some _ =>
      let! (outcome, fd) := observe (ps_connect_start address (str_of_int port)) in
      ret (if (outcome =? PCC_SOCKET_CONNECTED) || (outcome =? PCC_SOCKET_WOULD_BLOCK) then fd else -1)
  end.
Definition connect_observe (fd : Z) : T Z := observe (ps_connect_observe fd 0).
Definition read (fd limit : Z) : T (Z * bytes) :=
  let limit := if limit >? 65536 then 65536 else limit in
  let! (outcome, count, storage) := observe (ps_read_observe fd limit 0) in
  ret (outcome, if (outcome =? PCC_SOCKET_PROGRESS) && (count >? 0) then upto storage count else []).
Definition write (fd : Z) (data : bytes) : T (Z * Z) := observe (ps_write_observe fd data (len data) 0).
Definition shutdown (fd : Z) : T Z := observe (ps_shutdown fd 2).
Definition close (fd : Z) : T Z := observe (ps_close fd).
Definition idle_wait (delay_ms : Z) : T unit := let! _ := observe (ps_sleep_ns (delay_ms * 1000000)) in ret tt.
End transport.
End NativeSocketTransport.
