(* ===== verification/ServerSpec.v ===== *)
(** * The server accounts for its connections and ends things in order

    Against any transport, scheduler, application, resolver and TLS, any interleaving of the
    accept owner and of ending connections with the control thread, and any exceptions: every
    admission and every reference to a generation belongs to a published connection, or is
    given back; carriers are stopped, and the listener, the application and TLS closed, only
    when no connection is published and the scheduler has answered, for every thread that was
    started, that it is over - or an outcome that is not known for the accept owner, which the
    code then gives up. *)

From S2P Require Import Prelude PyStr Models Config Lifecycle Control Tls TlsGeneration Connection Server.
#[local] Open Scope Z_scope.

(** ** The lifecycle, and who holds its generations *)

Definition holds_of (g : nat) (holders : list nat) : Z := count (fun h => bool_decide (h = g)) holders.
Definition references_ok {R} (holders : list nat) (g : nat) (x : generation GATEWAY_CONFIG R) : Prop :=
  g_references x = holds_of g holders + Z.b2z (negb (g_retired x)) /\ g_released x = bool_decide (g_references x = 0).
(** [n] connections are admitted, and [holders] are the references others than the lifecycle's own. *)
Record life_ok {R} (fresh : Prop) (holders : list nat) (n : Z) (l : lifecycle GATEWAY_CONFIG R) : Prop := {
  lo_active : metrics l !! py "connections_active" = Some n;
  lo_names : Forall (fun k => is_Some (metrics l !! k)) GatewayMetrics.NAMES;
  lo_refs : forall g x, generations l !! g = Some x -> references_ok holders g x;
  lo_new : l_state l = STATE_NEW -> fresh;
  lo_holders : Forall (fun g => (g < length (generations l))%nat) holders;
}.

Section life.
Context {R : Type} {fresh : Prop}.
Abbreviation life := (lifecycle GATEWAY_CONFIG R).
Implicit Types l : life.

Lemma life_ok_perm h h' n l : h ≡ₚ h' -> life_ok fresh h n l -> life_ok fresh h' n l.
Proof.
  intros Hp [Ha Hn Hr Hf Hh]. split; [done|done| |done|by rewrite <- Hp]. intros g x Hx. destruct (Hr g x Hx) as [E1 E2].
  split; [|done]. unfold holds_of in *. rewrite E1. f_equal. by apply count_perm.
Qed.
Lemma life_ok_same h n l l' : life_ok fresh h n l -> metrics l' = metrics l -> generations l' = generations l ->
  (l_state l' = STATE_NEW -> l_state l = STATE_NEW) -> life_ok fresh h n l'.
Proof. intros [] E1 E2 E3. split; rewrite ?E1, ?E2; auto. Qed.
Lemma life_ok_weaken (fresh' : Prop) h n l : (fresh -> fresh') -> life_ok fresh h n l -> life_ok fresh' h n l.
Proof. intros Hf []. split; auto. Qed.
Lemma holds_nonneg g h : 0 <= holds_of g h.
Proof. apply count_nonneg. Qed.
Lemma holds_cons g g' h : holds_of g (g' :: h) = Z.b2z (bool_decide (g' = g)) + holds_of g h.
Proof. done. Qed.

(** *** Counters *)

Lemma life_ok_metric h n l name v : life_ok fresh h n l -> name <> py "connections_active" ->
  life_ok fresh h n (set_metrics (<[name := v]> (metrics l)) l).
Proof.
  intros [Ha Hn Hr Hf Hh] Hne. split; cbn; try done.
  - by rewrite lookup_insert_ne.
  - eapply Forall_impl; [exact Hn|]. intros k [x Hk]. destruct (decide (name = k)) as [->|?];
      [by rewrite lookup_insert_eq|by rewrite lookup_insert_ne].
Qed.
Lemma keeps_metric_add h n name a : name <> py "connections_active" -> keeps (life_ok fresh h n) (metric_add (C:=GATEWAY_CONFIG) (R:=R) name a).
Proof.
  intros Hne l Hl. unfold metric_add, on_metrics, GatewayMetrics.add_unlocked. unfold wp, bind, zoom, get, put, ret, raise.
  destruct (metrics l !! name) as [v|]; [by apply life_ok_metric|by eapply life_ok_same].
Qed.
Lemma metric_add_returns h n name a l : life_ok fresh h n l -> name ∈ GatewayMetrics.NAMES -> name <> py "connections_active" ->
  wp (metric_add name a) (fun _ => life_ok fresh h n) (fun _ _ => False) l.
Proof.
  intros Hl Hin Hne. pose proof (lo_names _ _ _ _ Hl) as Hn. rewrite Forall_forall in Hn. destruct (Hn name Hin) as [v Hv].
  unfold metric_add, on_metrics, GatewayMetrics.add_unlocked. unfold wp, bind, zoom, get, put, ret, raise. rewrite Hv.
  by apply life_ok_metric.
Qed.
Lemma keeps_metric h n name : keeps (life_ok fresh h n) (metric (C:=GATEWAY_CONFIG) (R:=R) name).
Proof.
  intros l Hl. unfold metric, on_metrics, GatewayMetrics.get_unlocked. unfold wp, bind, zoom, get, ret, raise.
  destruct (metrics l !! name); by eapply life_ok_same.
Qed.
Lemma active_run h n l : life_ok fresh h n l -> metric (py "connections_active") l = (Ok n, l).
Proof.
  intros Hl. unfold metric, on_metrics, GatewayMetrics.get_unlocked. unfold bind, zoom, get, ret. rewrite (lo_active _ _ _ _ Hl). by destruct l.
Qed.
Lemma add_active h n a l : life_ok fresh h n l ->
  wp (metric_add (py "connections_active") a) (fun _ => life_ok fresh h (n + a)) (fun _ _ => False) l.
Proof.
  intros Hl. pose proof (lo_active _ _ _ _ Hl) as Ha. unfold metric_add, on_metrics, GatewayMetrics.add_unlocked. unfold wp, bind, zoom, get, put, ret.
  rewrite Ha. destruct Hl as [_ Hn Hr Hf Hh]. split; cbn; try done; [by rewrite lookup_insert_eq|].
  eapply Forall_impl; [exact Hn|]. intros k [x Hk]. destruct (decide (py "connections_active" = k)) as [<-|?];
    [by rewrite lookup_insert_eq|by rewrite lookup_insert_ne].
Qed.
Ltac not_active := by intros [=].
Ltac a_name := unfold GatewayMetrics.NAMES; repeat (first [by left|right]).
Lemma admit_connection_ok h n l : life_ok fresh h n l ->
  wp (admit_connection (C:=GATEWAY_CONFIG) (R:=R)) (fun b => life_ok fresh h (if b then n + 1 else n)) (fun _ _ => False) l.
Proof.
  intros Hl. unfold admit_connection. apply wp_bind. unfold wp at 1, get.
  assert (forall m : M life unit, wp m (fun _ => life_ok fresh h n) (fun _ _ => False) l ->
    wp (m ;;! ret false) (fun b => life_ok fresh h (if b then n + 1 else n)) (fun _ _ => False) l) as Hrej.
  { intros m Hm. apply wp_bind. eapply wp_mono; [| |exact Hm]; [|done]. by intros u l' Hl'. }
  destruct (negb _); [apply Hrej, metric_add_returns; [done|a_name|not_active]|].
  apply wp_bind. unfold wp at 1. rewrite (active_run h n) by done.
  destruct (n >=? _); [apply Hrej, metric_add_returns; [done|a_name|not_active]|].
  apply wp_bind. eapply wp_mono; [| |apply (metric_add_returns h n); [done|a_name|not_active]]; [|done]. intros u l1 Hl1.
  apply wp_bind. eapply wp_mono; [| |by apply (add_active h n)]; [|done]. by intros u2 l2 Hl2.
Qed.
Lemma release_connection_ok h n l : life_ok fresh h n l -> 0 < n ->
  wp (release_connection (C:=GATEWAY_CONFIG) (R:=R)) (fun _ => life_ok fresh h (n - 1)) (fun _ _ => False) l.
Proof.
  intros Hl Hn. unfold release_connection. apply wp_bind. unfold wp at 1. rewrite (active_run h n) by done. zdec.
  by apply (add_active h n (-1)).
Qed.

(** *** Generations *)

Lemma life_ok_set_gen h h' n l g x y : life_ok fresh h n l -> generations l !! g = Some x -> references_ok h' g y ->
  (forall g', g' <> g -> holds_of g' h' = holds_of g' h) -> Forall (fun g => (g < length (generations l))%nat) h' ->
  life_ok fresh h' n (set_generations (<[g := y]> (generations l)) l).
Proof.
  intros [Ha Hn Hr Hf Hh] Hx Hy Ho Hh'. pose proof (lookup_lt_Some _ _ _ Hx) as Hlt. split; cbn; try done.
  - intros g' z. destruct (decide (g' = g)) as [->|Hne].
    + rewrite list_lookup_insert_eq by done. by intros [= <-].
    + rewrite list_lookup_insert_ne by done. intros Hz. destruct (Hr g' z Hz) as [E1 E2]. split; [|done]. by rewrite Ho.
  - by rewrite length_insert.
Qed.
Lemma drop_reference_ok h h' n l g x b : life_ok fresh h n l -> generations l !! g = Some x ->
  holds_of g h' + Z.b2z (negb b) = holds_of g h + Z.b2z (negb (g_retired x)) - 1 ->
  g_released x = false ->
  (forall g', g' <> g -> holds_of g' h' = holds_of g' h) -> Forall (fun g => (g < length (generations l))%nat) h' ->
  wp (drop_reference g b) (fun _ => life_ok fresh h' n) (fun _ _ => False) l.
Proof.
  intros Hl Hx He Hrel Ho Hh. destruct (lo_refs _ _ _ _ Hl g x Hx) as [E1 E2]. unfold drop_reference. apply wp_bind. unfold wp at 1, get_gen. rewrite Hx.
  destruct (Z.eqb_spec (g_references x - 1) 0) as [E|E]; apply wp_bind; unfold set_gen; apply wp_modify, wp_ret;
    (eapply life_ok_set_gen; [exact Hl|exact Hx| |exact Ho|exact Hh]); split; cbn; try lia.
  - by rewrite E.
  - rewrite Hrel. by rewrite bool_decide_eq_false_2.
Qed.
Lemma release_locked_ok h n l g : life_ok fresh (g :: h) n l ->
  wp (release_locked g) (fun _ => life_ok fresh h n) (fun _ _ => False) l.
Proof.
  intros Hl. pose proof (lo_holders _ _ _ _ Hl) as Hh. apply Forall_cons in Hh as [Hg Hh].
  destruct (lookup_lt_is_Some_2 _ _ Hg) as [x Hx]. destruct (lo_refs _ _ _ _ Hl g x Hx) as [E1 E2].
  rewrite holds_cons, bool_decide_eq_true_2 in E1 by done. pose proof (holds_nonneg g h) as Hn. cbn [Z.b2z] in E1.
  assert (0 < g_references x) as Hp by (destruct (g_retired x); cbn in E1; lia).
  rewrite bool_decide_eq_false_2 in E2 by lia.
  unfold release_locked. apply wp_bind. unfold wp at 1, get_gen. rewrite Hx, E2. zdec. cbn [orb].
  eapply drop_reference_ok; [exact Hl|exact Hx| |exact E2| |exact Hh].
  - rewrite holds_cons, bool_decide_eq_true_2 by done. cbn [Z.b2z]. lia.
  - intros g' Hne. rewrite holds_cons, bool_decide_eq_false_2 by done. done.
Qed.
Lemma keeps_retire_locked h n g : keeps (life_ok fresh h n) (retire_locked (C:=GATEWAY_CONFIG) (R:=R) g).
Proof.
  intros l Hl. unfold retire_locked. apply wp_bind. unfold wp at 1, get_gen. destruct (generations l !! g) as [x|] eqn:Hx; [|done].
  destruct (g_retired x) eqn:Er; [done|]. destruct (g_released x || (g_references x <=? 0)) eqn:E; [done|]. b2p.
  eapply wp_mono; [| |eapply (drop_reference_ok h h); [exact Hl|exact Hx| |done|done|apply Hl]]; [done|done|]. rewrite Er. cbn. lia.
Qed.
Lemma acquire_generation_ok h n l : life_ok fresh h n l ->
  wp (acquire_generation (C:=GATEWAY_CONFIG) (R:=R)) (fun g => life_ok fresh (g :: h) n) (fun _ => life_ok fresh h n) l.
Proof.
  intros Hl. unfold acquire_generation. apply wp_bind. unfold wp at 1, get. destruct (negb _); [done|]. apply wp_bind.
  unfold retain_locked. apply wp_bind. unfold wp at 1, get_gen. destruct (generations l !! current l) as [x|] eqn:Hx; [|done].
  destruct (g_released x) eqn:Er; [done|]. destruct (lo_refs _ _ _ _ Hl _ x Hx) as [E1 E2]. pose proof (holds_nonneg (current l) h).
  unfold set_gen. apply wp_modify, wp_ret. eapply life_ok_set_gen; [exact Hl|exact Hx| | |].
  - rewrite Er in E2. symmetry in E2. apply bool_decide_eq_false in E2. split; cbn [g_references g_retired g_released].
    + rewrite holds_cons, bool_decide_eq_true_2 by done. cbn [Z.b2z]. lia.
    + rewrite bool_decide_eq_false_2; [done|]. destruct (g_retired x); cbn in E1; lia.
  - intros g' Hne. rewrite holds_cons, bool_decide_eq_false_2 by done. done.
  - apply Forall_cons. split; [by eapply lookup_lt_Some|apply Hl].
Qed.

(** *** Calls that leave both alone *)

Lemma keeps_same h n (f : life -> life) : (forall l, metrics (f l) = metrics l /\ generations (f l) = generations l /\
  (l_state (f l) = STATE_NEW -> l_state l = STATE_NEW)) -> keeps (life_ok fresh h n) (modify f).
Proof. intros Hf l Hl. apply wp_modify. destruct (Hf l) as (? & ? & ?). by eapply life_ok_same. Qed.
Lemma keeps_get_gen h n g : keeps (life_ok fresh h n) (get_gen (C:=GATEWAY_CONFIG) (R:=R) g).
Proof. intros l Hl. unfold wp, get_gen. by destruct (_ !! _). Qed.
Lemma keeps_drain h n : keeps (life_ok fresh h n) (on_metrics (C:=GATEWAY_CONFIG) (R:=R) (GatewayMetrics.drain_active_unlocked false)).
Proof.
  intros l Hl. apply wp_zoom.
  assert (forall k Q E vs, (forall v : Z, Q v vs) -> (forall e, E e vs) -> wp (GatewayMetrics.get_unlocked k) Q E vs) as Hget.
  { intros k Q E vs HQ HE. unfold GatewayMetrics.get_unlocked. apply wp_bind. unfold wp at 1, get. destruct (vs !! k); [apply wp_ret, HQ|apply wp_raise, HE]. }
  assert (life_ok fresh h n (set_metrics (metrics l) l)) as Hs by (by eapply life_ok_same).
  unfold GatewayMetrics.drain_active_unlocked. apply wp_bind, Hget; [|done]. intros c. apply wp_bind, Hget; [|done]. intros r. cbv zeta.
  rewrite andb_false_r. by apply wp_ret.
Qed.
Ltac keeping := repeat lazymatch goal with
  | |- keeps _ (bind _ _) => apply keeps_bind; [|intros ?]
  | |- keeps _ (try_except _ _) => apply keeps_try; [|intros ?]
  | |- keeps _ (if ?b then _ else _) => destruct b
  | |- keeps _ (modify _) => apply keeps_same; by intros []
  | |- keeps _ (match ?x with _ => _ end) => destruct x
  | |- keeps _ _ => solve [eauto using keeps_metric, keeps_get_gen, keeps_drain, keeps_metric_add]
  end.
Lemma keeps_collect h n : keeps (life_ok fresh h n) (collect_retired (C:=GATEWAY_CONFIG) (R:=R)).
Proof. unfold collect_retired. cbv zeta. keeping. Qed.
Lemma keeps_begin_drain h n : keeps (life_ok fresh h n) (begin_drain (C:=GATEWAY_CONFIG) (R:=R)).
Proof. unfold begin_drain. keeping. Qed.
Lemma keeps_finish_drain_locked h n : keeps (life_ok fresh h n) (finish_drain_locked (C:=GATEWAY_CONFIG) (R:=R) false).
Proof. unfold finish_drain_locked. cbv zeta. keeping. Qed.
Lemma keeps_start h n : keeps (life_ok fresh h n) (Lifecycle.start (C:=GATEWAY_CONFIG) (R:=R)).
Proof. unfold Lifecycle.start. keeping. Qed.
Lemma keeps_started h n : keeps (life_ok fresh h n) (started (C:=GATEWAY_CONFIG) (R:=R)).
Proof. unfold started. keeping. Qed.
Lemma keeps_fail h n r : keeps (life_ok fresh h n) (fail (C:=GATEWAY_CONFIG) (R:=R) r).
Proof. unfold fail. keeping. Qed.

(** *** With the callbacks of resources *)

Context {W : Type} `{ResourceOps R W}.
Definition life_of (h : list nat) (n : Z) (t : life * W) : Prop := life_ok fresh h n (fst t).
Lemma sv_wp_locked {A} (m : M life A) (Q : A -> life * W -> Prop) E (t : life * W) :
  wp m (fun a l => Q a (l, snd t)) (fun e l => E e (l, snd t)) (fst t) -> wp (locked m) Q E t.
Proof. intros Hm. by apply wp_zoom. Qed.
Lemma keeps_locked {A} h n (m : M life A) : keeps (life_ok fresh h n) m -> keeps (life_of h n) (locked m).
Proof. intros Hm t Ht. apply sv_wp_locked. by apply Hm. Qed.
Lemma keeps_callback {A} h n (m : M W A) : keeps (life_of h n) (callback m).
Proof. by apply keeps_zoom. Qed.
Lemma release_ok h n g t : life_of (g :: h) n t -> wp (release g) (fun _ => life_of h n) (fun _ => life_of h n) t.
Proof.
  intros Ht. unfold release. apply wp_bind, sv_wp_locked. eapply wp_mono; [| |by apply release_locked_ok]; [|done].
  intros rs l Hl. by apply keeps_callback.
Qed.
Lemma keeps_retire h n g : keeps (life_of h n) (retire g).
Proof. unfold retire. apply keeps_bind; [apply keeps_locked, keeps_retire_locked|intros rs; apply keeps_callback]. Qed.
Lemma keeps_finish_drain h n : keeps (life_of h n) (finish_drain false).
Proof.
  unfold finish_drain. apply keeps_bind; [apply keeps_locked, keeps_finish_drain_locked|]. intros [g|]; [|auto].
  apply keeps_bind; [apply keeps_retire|auto].
Qed.
Lemma generation_init_fresh id config rs w :
  wp (generation_init (C:=GATEWAY_CONFIG) (R:=R) id config rs) (fun x _ => g_references x = 1 /\ g_retired x = false /\ g_released x = false) (fun _ _ => True) w.
Proof.
  unfold generation_init. apply wp_bind. unfold wp at 1. destruct (retain_each rs [] w) as [[[kept e]|?] w1]; [|done].
  destruct e as [e|]; [|by apply wp_ret]. apply wp_bind. unfold wp at 1. destruct (release_each _ _ w1) as [[c|?] w2]; [|done].
  by destruct c.
Qed.
Lemma alloc_gen_ok h n x l : life_ok fresh h n l -> g_references x = 1 -> g_retired x = false -> g_released x = false ->
  wp (alloc_gen (C:=GATEWAY_CONFIG) (R:=R) x) (fun _ => life_ok fresh h n) (fun _ _ => False) l.
Proof.
  intros [Ha Hn Hr Hf Hh] E1 E2 E3. unfold wp, alloc_gen. split; cbn; try done.
  - intros g y [Hy|[Hge Hy]]%lookup_app_Some; [by apply Hr|]. apply list_lookup_singleton_Some in Hy as [Hg <-].
    split; [|by rewrite E1, E3]. rewrite E1, E2. replace (holds_of g h) with 0; [done|]. symmetry. apply count_zero.
    intros i z Hz. apply bool_decide_eq_false. intros ->. rewrite Forall_forall in Hh. pose proof (Hh g (list_elem_of_lookup_2 _ _ _ Hz)). lia.
  - eapply Forall_impl; [exact Hh|]. intros g Hg. rewrite length_app. cbn in *. lia.
Qed.
Lemma keeps_publish h n config rs : keeps (life_of h n) (publish config rs).
Proof.
  unfold publish. apply keeps_bind; [apply keeps_locked; unfold publish_begin; keeping|]. intros id t Ht.
  apply wp_bind, wp_try. unfold wp at 1, callback, zoom. pose proof (generation_init_fresh id config rs (snd t)) as Hg. unfold wp in Hg.
  destruct (generation_init id config rs (snd t)) as [[x|e] w]; cbn [fst snd].
  2:{ apply wp_bind, sv_wp_locked. eapply wp_mono; [| |apply (keeps_same h n (set_publishing false)); [by intros []|exact Ht]]; [|done].
      intros u l1 Hl1. by apply wp_raise. }
  destruct Hg as (E1 & E2 & E3). apply wp_bind, sv_wp_locked.
  eapply wp_mono; [| |by apply alloc_gen_ok]; [|done]. intros replacement l1 Hl1.
  match goal with |- wp ?m _ _ _ => assert (keeps (life_of h n) m) as Hm; [|by apply Hm] end.
  assert (keeps (life_of h n) (locked (C:=GATEWAY_CONFIG) (R:=R) (W:=W) publish_end ;;! locked collect_retired)) as Hf.
  { apply keeps_bind; [apply keeps_locked; unfold publish_end; keeping|]. intros _. apply keeps_locked, keeps_collect. }
  apply keeps_bind; [apply keeps_locked; unfold publish_install; keeping|]. intros [previous|].
  - cbv zeta. apply keeps_bind; [|intros _; apply keeps_bind; auto]. apply keeps_try; [apply keeps_retire|]. intros e. apply keeps_bind; auto.
  - apply keeps_bind; [apply keeps_retire|auto].
Qed.
Lemma keeps_attach h n g r : keeps (life_of h n) (attach_resource g r).
Proof.
  unfold attach_resource. apply keeps_bind; [apply keeps_locked, keeps_get_gen|]. intros x. destruct (negb _); [auto|].
  apply keeps_bind; [apply keeps_callback|]. intros y. apply keeps_bind.
  - apply keeps_locked. intros l Hl. unfold attach_locked. apply wp_bind. unfold wp at 1, get_gen. destruct (generations l !! g) as [z|] eqn:Hz; [|done].
    destruct (attachable z); [|done]. apply wp_bind. unfold set_gen. apply wp_modify, wp_ret.
    eapply life_ok_set_gen; [exact Hl|exact Hz|exact (lo_refs _ _ _ _ Hl g z Hz)|done|apply Hl].
  - intros []; [auto|]. apply keeps_bind; [apply keeps_try; [apply keeps_callback|auto]|auto].
Qed.
Lemma life_ok_init (config : GATEWAY_CONFIG) lim : fresh -> life_ok fresh [] 0 (Lifecycle.init (R:=R) config lim).
Proof.
  intros Hf. split; [done| | |done|done].
  - repeat constructor; vm_compute; by eexists.
  - intros [|g] x Hx; [|done]. cbn in Hx. injection Hx as <-. done.
Qed.
End life.

(** ** The server *)

Lemma list_remove_first_perm c l : c ∈ l -> l ≡ₚ c :: list_remove_first c l.
Proof.
  induction l as [|x l IH]; intros Hc; [by apply elem_of_nil in Hc|]. cbn. case_bool_decide as E; [by subst|].
  apply elem_of_cons in Hc as [->|Hc]; [done|]. rewrite (IH Hc) at 1. apply Permutation_swap.
Qed.

(** ** What the history says *)

(** An outcome after which the thread is not waited for: returned, raised or cancelled.  The
    accept owner is given up on an outcome that is not known too. *)
Definition settles (o : owner) (r : thread_outcome) : bool :=
  match r with
  | OutcomePending => false
  | OutcomeUnknown _ => match o with AcceptOwner => true | ConnectionOwner _ => false end
  | _ => true
  end.
Definition settled_by (h : Z) (r : thread_outcome) (t : owner * Z) : bool := bool_decide (snd t = h) && settles (fst t) r.
(** The threads that were started and of which the scheduler has not answered that they are over. *)
Definition awaited_after (l : list (owner * Z)) (e : event) : list (owner * Z) :=
  match e with
  | Started o h => l ++ [(o, h)]
  | Observed h r => List.filter (fun t => negb (settled_by h r t)) l
  | _ => l
  end.
Definition awaited (history : list event) : list (owner * Z) := fold_left awaited_after history [].
(** Carriers were started, and no answer says that they have stopped. *)
Definition carriers_after (up : bool) (e : event) : bool :=
  match e with
  | PoolStarted n => (0 <? n) || up
  | PoolStopped (Some n) => (n <? 0) && up
  | PoolStopped None => false
  | _ => up
  end.
Definition carriers_up (history : list event) : bool := fold_left carriers_after history false.

(** Something is ended when no thread is waited for and no connection published, and but for the
    carriers themselves with no carrier. *)
Definition timely (before : list event) (e : ending) (connections : list nat) : Prop :=
  awaited before = [] /\ connections = [] /\ (e = StopCarriers \/ carriers_up before = false).
Definition orderly (history : list event) : Prop := forall before e connections after,
  history = before ++ Ended e connections :: after -> timely before e connections.

#[global] Arguments awaited : simpl never.
#[global] Arguments carriers_up : simpl never.
Lemma awaited_snoc h e : awaited (h ++ [e]) = awaited_after (awaited h) e.
Proof. unfold awaited. by rewrite fold_left_app. Qed.
Lemma carriers_snoc h e : carriers_up (h ++ [e]) = carriers_after (carriers_up h) e.
Proof. unfold carriers_up. by rewrite fold_left_app. Qed.
Lemma observed_awaited h x r t : t ∈ awaited (h ++ [Observed x r]) <-> t ∈ awaited h /\ settled_by x r t = false.
Proof. rewrite awaited_snoc. cbn. rewrite !list_elem_of_In, filter_In. by rewrite negb_true_iff. Qed.
Lemma orderly_snoc h x : orderly h -> match x with Ended e cs => timely h e cs | _ => True end -> orderly (h ++ [x]).
Proof.
  intros Hh Hx before e cs after E. destruct after as [|y after _] using rev_ind.
  - apply app_inj_tail in E as [<- ->]. done.
  - rewrite app_comm_cons, app_assoc in E. apply app_inj_tail in E as [-> _]. by eapply Hh.
Qed.

(** The server's fields know every thread that is waited for, and its handle. *)
Record ledger_ok (accept : option Z) (owners : list nat) (table : list served) (pool : bool) (history : list event) : Prop := {
  lg_accept : forall h, (AcceptOwner, h) ∈ awaited history -> accept = Some h;
  lg_owner : forall c h, (ConnectionOwner c, h) ∈ awaited history -> c ∈ owners /\ sc_thread <$> table !! c = Some (Some h);
  lg_pool : carriers_up history = true -> pool = true;
  lg_orderly : orderly history;
}.
Section ledger.
Implicit Types (accept : option Z) (owners : list nat) (table : list served) (pool : bool) (history : list event).
Lemma ledger_new table : ledger_ok None [] table false [].
Proof.
  split; try done; try (intros *; by intros ?%elem_of_nil). intros before e cs after E. by apply app_cons_not_nil in E.
Qed.
Lemma nothing_awaited table pool history : ledger_ok None [] table pool history -> awaited history = [].
Proof.
  intros [Ha Ho _ _]. destruct (awaited history) as [|[[|c] h] l]; [done| |].
  - by specialize (Ha h ltac:(left)).
  - destruct (Ho c h ltac:(left)) as [Hc _]. by apply elem_of_nil in Hc.
Qed.
Lemma ledger_observed accept owners table pool history h r : ledger_ok accept owners table pool history ->
  ledger_ok accept owners table pool (history ++ [Observed h r]).
Proof.
  intros [Ha Ho Hp Hh]. split; [| |by rewrite carriers_snoc|by apply orderly_snoc];
    intros *; rewrite observed_awaited; intros [? _]; auto.
Qed.
Lemma ledger_pool_answer accept owners table pool history e : ledger_ok accept owners table pool history ->
  match e with PoolStarted n => n <= 0 | PoolStopped _ => True | _ => False end -> ledger_ok accept owners table pool (history ++ [e]).
Proof.
  intros [Ha Ho Hp Hh] He. split; [| | |apply orderly_snoc; [done|by destruct e]]; intros *; rewrite ?awaited_snoc, ?carriers_snoc;
    destruct e as [| |n|[n|]|]; try done; cbn; auto.
  - destruct (Z.ltb_spec 0 n); [lia|done].
  - intros [_ ?]%andb_true_iff. auto.
Qed.
Lemma ledger_ended accept owners table pool history e cs : ledger_ok accept owners table pool history -> timely history e cs ->
  ledger_ok accept owners table pool (history ++ [Ended e cs]).
Proof.
  intros [Ha Ho Hp Hh] He. split; [| | |by apply orderly_snoc]; intros *; rewrite ?awaited_snoc, ?carriers_snoc; cbn; auto.
Qed.
Lemma ledger_accept_started owners table pool history h : ledger_ok None owners table pool history ->
  ledger_ok (Some h) owners table pool (history ++ [Started AcceptOwner h]).
Proof.
  intros [Ha Ho Hp Hh]. split; [| |by rewrite carriers_snoc|by apply orderly_snoc]; intros *; rewrite awaited_snoc; cbn;
    rewrite elem_of_app, list_elem_of_singleton; intros [Hx|[= <-]]; auto. by specialize (Ha _ Hx).
Qed.
Lemma ledger_accept_over accept owners table pool history : ledger_ok accept owners table pool history ->
  (forall h, (AcceptOwner, h) ∉ awaited history) -> ledger_ok None owners table pool history.
Proof. intros [Ha Ho Hp Hh] Hn. split; try done. intros h Hx. by destruct (Hn h). Qed.
Lemma ledger_served accept owners table pool history x : ledger_ok accept owners table pool history ->
  ledger_ok accept owners (table ++ [x]) pool history.
Proof.
  intros [Ha Ho Hp Hh]. split; try done. intros c h Hc. destruct (Ho c h Hc) as [? Et]. split; [done|].
  destruct (table !! c) as [y|] eqn:Ey; [|done]. by rewrite (lookup_app_l_Some _ _ _ _ Ey).
Qed.
Lemma ledger_fresh accept owners table pool history c h : ledger_ok accept owners table pool history -> (length table <= c)%nat ->
  (ConnectionOwner c, h) ∉ awaited history.
Proof. intros [_ Ho _ _] Hc Hx. destruct (Ho c h Hx) as [_ Et]. by rewrite lookup_ge_None_2 in Et. Qed.
(** The thread of [c] is started. *)
Lemma ledger_started accept owners table pool history c h x : ledger_ok accept owners table pool history ->
  (forall h, (ConnectionOwner c, h) ∉ awaited history) -> table !! c = Some x ->
  ledger_ok accept (owners ++ [c]) (<[c := Served (sc_fd x) (sc_generation x) (Some h)]> table) pool (history ++ [Started (ConnectionOwner c) h]).
Proof.
  intros [Ha Ho Hp Hh] Hn Hx. split; [| |by rewrite carriers_snoc|by apply orderly_snoc].
  - intros h'. rewrite awaited_snoc. cbn. rewrite elem_of_app, list_elem_of_singleton. intros [?|[=]]. auto.
  - intros c' h'. rewrite awaited_snoc. cbn. rewrite elem_of_app, list_elem_of_singleton. intros [Hc|[= -> ->]].
    + destruct (Ho c' h' Hc) as [? Et]. split; [apply elem_of_app; by left|].
      rewrite list_lookup_insert_ne; [done|]. intros ->. by destruct (Hn h').
    + split; [apply elem_of_app; right; by left|]. by rewrite list_lookup_insert_eq by (by eapply lookup_lt_Some).
Qed.
(** The thread of [c] is over. *)
Lemma ledger_retired accept owners table pool history c x : ledger_ok accept owners table pool history ->
  (forall h, (ConnectionOwner c, h) ∉ awaited history) -> c ∈ owners ->
  ledger_ok accept (list_remove_first c owners) (<[c := x]> table) pool history.
Proof.
  intros [Ha Ho Hp Hh] Hn Hc. split; try done. intros c' h Hx. destruct (Ho c' h Hx) as [Hin Et].
  assert (c' <> c) as Hne by (intros ->; by destruct (Hn h)). rewrite list_lookup_insert_ne by done. split; [|done].
  rewrite (list_remove_first_perm c) in Hin by done. by apply elem_of_cons in Hin as [->|?].
Qed.
Lemma ledger_pool_up accept owners table pool history n : ledger_ok accept owners table pool history -> 
  ledger_ok accept owners table true (history ++ [PoolStarted n]).
Proof. intros [Ha Ho Hp Hh]. split; [| |done|by apply orderly_snoc]; intros *; rewrite awaited_snoc; auto. Qed.
Lemma ledger_pool_down accept owners table pool history : ledger_ok accept owners table pool history -> carriers_up history = false ->
  ledger_ok accept owners table false history.
Proof. intros [Ha Ho Hp Hh] Hd. split; try done. congruence. Qed.
End ledger.

Module ServerInv.
Import GatewayServer.
Section inv.
Context {R W : Type} `{ResourceOps R W} `{ControlAbi W}.
Context (env : server_env R W).
Abbreviation server := (server R W).
Abbreviation S := (M server).
Implicit Types s : server.

Definition generation_of s (c : nat) : nat := match sv_table s !! c with Some x => sc_generation x | None => 0%nat end.
Definition holders s : list nat := map (generation_of s) (sv_connections s).

(** Nobody is left of whom the server knows. *)
Definition over s : Prop := sv_accept s = None /\ sv_connections s = [] /\ sv_owners s = [].
Abbreviation ledger_of s := (ledger_ok (sv_accept s) (sv_owners s) (sv_table s) (sv_pool s) (sv_history s)).

(** The invariant, while a method holds [k] admissions and the references [extra] itself. *)
Record inv (extra : list nat) (k : Z) s : Prop := {
  i_life : life_ok (sv_pool s = false) (extra ++ holders s) (k + len (sv_connections s)) (sv_life s);
  i_connections : NoDup (sv_connections s) /\ Forall (fun c => (c < length (sv_table s))%nat) (sv_connections s);
  i_pool : sv_pool s = false -> over s;
  i_open : sv_pool s = true -> 0 <= sv_fd s /\ sv_app s = true;
  i_ledger : ledger_of s;
}.
(** What no connection and no outside code changes. *)
Definition rest s := (sv_config s, sv_listener s, sv_carriers s, sv_fd s, sv_accept s, sv_table s, sv_owners s, sv_pool s, sv_app s,
  sv_control_installed s, sv_history s).

Lemma sv_inv_life extra k extra' k' s l w : inv extra k s -> life_ok (sv_pool s = false) (extra' ++ holders s) (k' + len (sv_connections s)) l ->
  inv extra' k' (set_sv_life l (set_sv_world w s)).
Proof. intros [] Hl. by split. Qed.
Lemma sv_inv_same extra k s s' : inv extra k s -> sv_life s' = sv_life s -> sv_table s' = sv_table s -> sv_connections s' = sv_connections s ->
  sv_pool s' = sv_pool s -> sv_accept s' = sv_accept s -> sv_owners s' = sv_owners s -> sv_fd s' = sv_fd s -> sv_app s' = sv_app s ->
  sv_history s' = sv_history s -> inv extra k s'.
Proof.
  intros [] E1 E2 E3 E4 E5 E6 E7 E8 E9. split; unfold holders, generation_of, over in *;
    rewrite ?E1, ?E2, ?E3, ?E4, ?E5, ?E6, ?E7, ?E8, ?E9; done.
Qed.

Definition stable (extra : list nat) (k : Z) s0 s : Prop := inv extra k s /\ rest s = rest s0.
Lemma stable_trans extra k s0 s1 s2 : stable extra k s1 s2 -> rest s1 = rest s0 -> stable extra k s0 s2.
Proof. intros [Hi E] E'. split; [done|congruence]. Qed.

Lemma wp_lifecycle {A} (m : M (lifecycle GATEWAY_CONFIG R * W) A) (Q : A -> server -> Prop) E s :
  wp m (fun a t => Q a (set_sv_life (fst t) (set_sv_world (snd t) s))) (fun e t => E e (set_sv_life (fst t) (set_sv_world (snd t) s)))
    (sv_life s, sv_world s) -> wp (on_lifecycle m) Q E s.
Proof. intros Hm. unfold on_lifecycle. by apply wp_zoom. Qed.
Lemma sv_wp_life {A} (m : M (lifecycle GATEWAY_CONFIG R) A) (Q : A -> server -> Prop) E s :
  wp m (fun a l => Q a (set_sv_life l s)) (fun e l => E e (set_sv_life l s)) (sv_life s) -> wp (life m) Q E s.
Proof. intros Hm. unfold life. by apply wp_zoom. Qed.
Lemma sv_inv_life' extra k extra' k' s l : inv extra k s -> life_ok (sv_pool s = false) (extra' ++ holders s) (k' + len (sv_connections s)) l -> inv extra' k' (set_sv_life l s).
Proof. intros [] Hl. by split. Qed.

(** The end of a connection. *)
Lemma sv_finish_spec extra k c s : 0 <= k -> inv extra k s -> stable extra k s (finish c s) /\ (sv_connections s = [] -> finish c s = s).
Proof.
  intros Hk Hi. unfold finish.
  assert (wp (connection_finished c) (fun _ s' => stable extra k s s' /\ (sv_connections s = [] -> s' = s))
    (fun _ s' => stable extra k s s' /\ (sv_connections s = [] -> s' = s)) s) as Hw.
  2:{ unfold wp in Hw. by destruct (connection_finished c s) as [[?|?] ?]. }
  unfold connection_finished. apply wp_bind. unfold unlist. apply wp_bind. unfold wp at 1, self, get.
  case_bool_decide as Hc; [|by apply wp_ret]. apply wp_bind. unfold upd. apply wp_modify, wp_ret. cbn [negb].
  assert (sv_connections s <> []) as Hne by (intros E; rewrite E in Hc; by apply elem_of_nil in Hc).
  eapply (wp_mono _ (fun _ => stable extra k s) _ (fun _ => stable extra k s)); [by intros|by intros|].
  pose proof Hi as [Hl [Hn Hf] Hp Ho Hh]. pose proof (list_remove_first_perm c _ Hc) as Hperm.
  pose proof (proj1 (Forall_forall _ _) Hf c Hc) as Hlt. destruct (lookup_lt_is_Some_2 _ _ Hlt) as [x Hx].
  set (s1 := set_sv_connections _ s). apply wp_bind. unfold wp at 1, get_served. change (sv_table s1) with (sv_table s). rewrite Hx.
  assert (len (sv_connections s) = 1 + len (list_remove_first c (sv_connections s))) as El.
  { pose proof (Permutation_length Hperm) as E. cbn [length] in E. unfold len. lia. }
  assert (life_ok (sv_pool s = false) (sc_generation x :: extra ++ holders s1) (k + len (sv_connections s)) (sv_life s)) as Hl1.
  { eapply life_ok_perm; [|exact Hl]. unfold holders. rewrite Hperm. cbn [map]. unfold generation_of at 1. rewrite Hx.
    symmetry. apply Permutation_middle. }
  rewrite Hperm in Hn, Hf. apply NoDup_cons in Hn as [_ Hn]. apply Forall_cons in Hf as [_ Hf].
  assert (forall l w, life_ok (sv_pool s = false) (extra ++ holders s1) (k + len (sv_connections s)) l -> stable extra (k + 1) s (set_sv_life l (set_sv_world w s1))) as Hs1.
  { intros l w Hl'. split; [|done]. split; cbn; try done.
    - rewrite El, Z.add_assoc in Hl'. exact Hl'.
    - intros Hpool. destruct (Hp Hpool) as (_ & E & _). done. }
  apply wp_bind. eapply (wp_mono _ (fun _ => stable extra k s) _ (fun _ => stable extra k s)).
  { intros e s2 Hs2. by destruct e. } { done. }
  apply wp_each.
  eapply (wp_mono _ (fun _ => stable extra (k + 1) s) _ (fun _ => stable extra (k + 1) s)).
  3:{ apply wp_bind, wp_lifecycle. eapply wp_mono; [| |by apply (release_ok (fresh := sv_pool s = false) (extra ++ holders s1) (k + len (sv_connections s)))].
      - intros n t Ht. apply wp_ret. by apply Hs1.
      - intros e t Ht. by apply Hs1. }
  all: intros ? s2 [Hi2 E2]; apply wp_each, sv_wp_life;
    (eapply wp_mono; [| |apply (release_connection_ok _ _ _ (i_life _ _ _ Hi2)); pose proof (len_nonneg (sv_connections s2)); lia]; [|done]);
    intros u l Hl2; replace (k + 1 + len (sv_connections s2) - 1) with (k + len (sv_connections s2)) in Hl2 by lia;
    pose proof (sv_inv_life' extra (k + 1) extra k s2 l Hi2 Hl2) as Hi3; apply wp_each, wp_bind, sv_wp_life;
    (eapply wp_mono; [| |apply (keeps_collect _ _ _ (i_life _ _ _ Hi3))]);
    intros ? l4 Hl4; apply wp_ret; (split; [|exact E2]); exact (sv_inv_life' extra k extra k _ l4 Hi3 Hl4).
Qed.

(** ** The accept owner *)

Definition steady {A} (m : S A) : Prop := forall extra k s, 0 <= k -> inv extra k s ->
  wp m (fun _ => stable extra k s) (fun _ => stable extra k s) s.
Lemma sv_steady_bind {A B} (m : S A) (f : A -> S B) : steady m -> (forall a, steady (f a)) -> steady (bind m f).
Proof.
  intros Hm Hf extra k s Hk Hi. apply wp_bind. eapply wp_mono; [| |by apply Hm]; [|done]. intros a s1 [Hi1 E1].
  eapply wp_mono; [| |by apply Hf]; intros ? s2 Hs2; exact (stable_trans _ _ _ _ _ Hs2 E1).
Qed.
Lemma sv_steady_ret {A} (a : A) : steady (ret a).
Proof. intros extra k s _ Hi. by split. Qed.
Lemma sv_steady_raise {A} e : steady (@raise _ A e).
Proof. intros extra k s _ Hi. by split. Qed.
Lemma steady_self : steady self.
Proof. intros extra k s _ Hi. by split. Qed.
Lemma steady_state st : steady (state_is st).
Proof. intros extra k s _ Hi. by split. Qed.
Lemma sv_steady_try {A} (m : S A) h : steady m -> (forall e, steady (h e)) -> steady (try_except m h).
Proof.
  intros Hm Hh extra k s Hk Hi. apply wp_try. eapply wp_mono; [| |by apply Hm]; [done|]. intros e s1 [Hi1 E1].
  eapply wp_mono; [| |by apply Hh]; intros ? s2 Hs2; exact (stable_trans _ _ _ _ _ Hs2 E1).
Qed.
Lemma steady_attempt_result {A} (m : S A) : steady m -> steady (attempt_result m).
Proof. intros Hm. apply sv_steady_try; [apply sv_steady_bind; [done|intros; apply sv_steady_ret]|intros; apply sv_steady_ret]. Qed.
Lemma steady_life {A} (m : M (lifecycle GATEWAY_CONFIG R) A) : (forall fr h n, keeps (life_ok fr h n) m) -> steady (life m).
Proof.
  intros Hm extra k s _ Hi. apply sv_wp_life. eapply wp_mono; [| |apply Hm, Hi]; intros ? l Hl; (split; [|done]); by eapply sv_inv_life'.
Qed.
Lemma steady_lifecycle {A} (m : M (lifecycle GATEWAY_CONFIG R * W) A) : (forall fr h n, keeps (life_of (fresh:=fr) h n) m) -> steady (on_lifecycle m).
Proof.
  intros Hm extra k s _ Hi. apply wp_lifecycle. eapply wp_mono; [| |apply Hm; exact (i_life _ _ _ Hi)]; intros ? t Ht; (split; [|done]);
    by eapply sv_inv_life.
Qed.
Lemma steady_get_served c : steady (get_served c).
Proof. intros extra k s _ Hi. unfold wp, get_served. destruct (sv_table s !! c); by split. Qed.

Lemma finishing_spec extra k t s : 0 <= k -> inv extra k s -> stable extra k s (finishing t s).
Proof. intros Hk Hi. destruct t; [by apply sv_finish_spec|by split]. Qed.
Lemma sv_inv_world extra k s w : inv extra k s -> inv extra k (set_sv_world w s).
Proof. intros Hi. by eapply sv_inv_same. Qed.
Lemma finishing_all extra k ts : forall s, 0 <= k -> inv extra k s -> stable extra k s (fold_left (fun s t => finishing t s) ts s).
Proof.
  induction ts as [|t ts IH]; intros s Hk Hi; [by split|]. cbn [fold_left]. destruct (finishing_spec extra k t s Hk Hi) as [Hi1 E1].
  exact (stable_trans _ _ _ _ _ (IH _ Hk Hi1) E1).
Qed.
Lemma steady_accept_call {A} (m : outside W A) : steady (accept_call m).
Proof.
  intros extra k s Hk Hi. unfold wp, accept_call. destruct (m (sv_world s)) as [ts [r w]].
  pose proof (finishing_all extra k ts _ Hk (sv_inv_world _ _ _ w Hi)) as Hs. by destruct r.
Qed.
Lemma steady_spawn_call c (m : outside W Z) : steady (spawn_call c m).
Proof. apply steady_accept_call. Qed.

(** A reference of one's own is given back. *)
Lemma release_own extra k g s : inv (g :: extra) k s ->
  wp (let! _ := on_lifecycle (release g) in ret tt) (fun _ s' => inv extra k s' /\ rest s' = rest s) (fun _ s' => inv extra k s' /\ rest s' = rest s) s.
Proof.
  intros Hi. apply wp_bind, wp_lifecycle. eapply wp_mono; [| |apply (release_ok (fresh := sv_pool s = false) (extra ++ holders s)); exact (i_life _ _ _ Hi)].
  - intros n t Ht. apply wp_ret. split; [|done]. by eapply sv_inv_life.
  - intros e t Ht. split; [|done]. by eapply sv_inv_life.
Qed.
(** An admission of one's own is given back. *)
Lemma release_admission extra s : inv extra 1 s ->
  wp (life release_connection) (fun _ s' => inv extra 0 s' /\ rest s' = rest s) (fun _ _ => False) s.
Proof.
  intros Hi. apply sv_wp_life. pose proof (len_nonneg (sv_connections s)).
  eapply wp_mono; [| |apply (release_connection_ok _ _ _ (i_life _ _ _ Hi)); lia]; [|done].
  intros u l Hl. replace (1 + len (sv_connections s) - 1) with (0 + len (sv_connections s)) in Hl by lia.
  split; [|done]. by eapply sv_inv_life'.
Qed.

(** What is not published is given back, the error of the construction stays. *)
Definition with_reference (g : option nat) (extra : list nat) : list nat := match g with Some g => g :: extra | None => extra end.
Lemma sv_discard_spec h extra g fd e s : inv (with_reference g extra) 1 s ->
  wp (discard_accepted env h g fd e) (fun _ _ => False) (fun _ s' => inv extra 0 s' /\ rest s' = rest s) s.
Proof.
  intros Hi. unfold discard_accepted. apply wp_bind.
  eapply (wp_mono _ (fun _ => stable extra 0 s) _ (fun _ _ => False)); [intros ? s1 Hs1; by apply wp_raise|done|].
  apply wp_each. eapply (wp_mono _ (fun _ => stable (with_reference g extra) 1 s) _ (fun _ => stable (with_reference g extra) 1 s)).
  3:{ destruct h; [by apply steady_accept_call|by apply wp_ret]. }
  all: intros ? s1 [Hi1 E1]; apply wp_each;
    (eapply (wp_mono _ (fun _ => stable extra 1 s1) _ (fun _ => stable extra 1 s1)); [| |destruct g as [g|]; [by apply release_own|by apply wp_ret]]);
    intros ? s2 [Hi2 E2]; apply wp_each; (eapply wp_mono; [| |by apply release_admission]; [|done]);
    intros ? s3 [Hi3 E3]; apply wp_each; (eapply wp_mono; [| |apply steady_accept_call; [|exact Hi3]; done]);
    intros ? s4 [Hi4 E4]; apply wp_ret; (split; [done|congruence]).
Qed.

(** What the accept owner leaves alone. *)
Definition post s := (sv_config s, sv_listener s, sv_fd s, sv_accept s, sv_pool s, sv_app s).
Lemma rest_table s s' : rest s' = rest s -> sv_table s' = sv_table s.
Proof. unfold rest. by intros [=]. Qed.

Lemma holders_ext s s' : sv_connections s' = sv_connections s ->
  (forall c, c ∈ sv_connections s -> generation_of s' c = generation_of s c) -> holders s' = holders s.
Proof. intros E Hg. unfold holders. rewrite E. apply map_ext_in. intros c Hc. by apply Hg, list_elem_of_In. Qed.

Lemma inv_new_served extra k s x : inv extra k s -> inv extra k (set_sv_table (sv_table s ++ [x]) s).
Proof.
  intros Hi. pose proof Hi as [Hl [Hn Hf] Hp Ho Hh]. split; try done; [| |by apply ledger_served].
  - erewrite holders_ext; [exact Hl|done|]. intros c Hc. unfold generation_of. cbn. rewrite lookup_app_l; [done|].
    rewrite Forall_forall in Hf. by apply Hf.
  - split; [done|]. eapply Forall_impl; [exact Hf|]. intros c Hc. cbn. rewrite length_app. cbn in *. lia.
Qed.
(** The entry of a connection gets another handle; the ledger of threads goes with it. *)
Lemma inv_thread extra k s s' c x h : inv extra k s -> sv_table s !! c = Some x ->
  sv_table s' = <[c := Served (sc_fd x) (sc_generation x) h]> (sv_table s) -> ledger_of s' -> (sv_pool s' = false -> over s') ->
  sv_life s' = sv_life s -> sv_connections s' = sv_connections s -> sv_pool s' = sv_pool s -> sv_fd s' = sv_fd s -> sv_app s' = sv_app s ->
  inv extra k s'.
Proof.
  intros [Hl [Hn Hf] Hp Ho Hh] Hx Et Hlg Hov E1 E2 E3 E4 E5. split; [| |exact Hov| |exact Hlg]; rewrite ?E1, ?E2, ?E3, ?E4, ?E5; try done.
  - erewrite holders_ext; [exact Hl|done|]. intros c' Hc. unfold generation_of. rewrite Et.
    destruct (decide (c' = c)) as [->|Hne]; [|by rewrite list_lookup_insert_ne].
    rewrite list_lookup_insert_eq by (by eapply lookup_lt_Some). by rewrite Hx.
  - split; [done|]. eapply Forall_impl; [exact Hf|]. intros c' Hc. cbn. by rewrite Et, length_insert.
Qed.
Lemma set_thread_run c h s x : sv_table s !! c = Some x ->
  set_thread c h s = (Ok tt, set_sv_table (<[c := Served (sc_fd x) (sc_generation x) h]> (sv_table s)) s).
Proof. intros Hx. unfold set_thread, upd, modify. by rewrite Hx. Qed.

(** Connections were added since: nothing that was not awaited is now. *)
Definition later s0 s : Prop := sv_table s0 `prefix_of` sv_table s /\
  forall c h, (c < length (sv_table s0))%nat -> (ConnectionOwner c, h) ∈ awaited (sv_history s) -> (ConnectionOwner c, h) ∈ awaited (sv_history s0).
Lemma later_refl s : later s s.
Proof. by split. Qed.
Lemma later_trans s0 s1 s2 : later s0 s1 -> later s1 s2 -> later s0 s2.
Proof.
  intros [Hp Hx] [Hp' Hx']. split; [by etransitivity|]. intros c h Hc Hin. apply Hx; [done|]. apply Hx'; [|done].
  apply prefix_length in Hp. lia.
Qed.
Lemma later_same s0 s1 s : later s0 s1 -> sv_table s = sv_table s1 -> sv_history s = sv_history s1 -> later s0 s.
Proof. unfold later. by intros ? -> ->. Qed.
Lemma rest_later s s' : rest s' = rest s -> later s s'.
Proof. unfold rest. intros [=]. by eapply later_same; [apply later_refl|..]. Qed.

Definition follows s0 s : Prop := post s = post s0 /\ later s0 s.
Lemma follows_refl s : follows s s.
Proof. split; [done|apply later_refl]. Qed.
Lemma follows_trans s0 s1 s2 : follows s0 s1 -> follows s1 s2 -> follows s0 s2.
Proof. intros [E Hl] [E' Hl']. split; [congruence|by eapply later_trans]. Qed.
Lemma rest_follows s s' : rest s' = rest s -> follows s s'.
Proof. intros E. split; [|by apply rest_later]. revert E. unfold rest, post. intros [=]. congruence. Qed.
Lemma follows_pool s s' : follows s s' -> sv_pool s' = sv_pool s.
Proof. intros [E _]. revert E. unfold post. by intros [=]. Qed.
Lemma follows_accept s s' : follows s s' -> sv_accept s' = sv_accept s.
Proof. intros [E _]. revert E. unfold post. by intros [=]. Qed.

Definition constructed (c : nat) s : Prop :=
  inv [generation_of s c] 1 s /\ (c < length (sv_table s))%nat /\ (c ∉ sv_connections s) /\
  (forall h, (ConnectionOwner c, h) ∉ awaited (sv_history s)).
Lemma construct_spec fd ip s : inv [] 1 s ->
  wp (construct env fd ip) (fun c s' => constructed c s' /\ follows s s' /\ (length (sv_table s) <= c)%nat)
    (fun _ s' => inv [] 0 s' /\ follows s s') s.
Proof.
  intros Hi.
  assert (forall h g x s1, inv (with_reference g []) 1 s1 -> follows s s1 ->
    wp (discard_accepted env h g fd x) (fun c s' => constructed c s' /\ follows s s' /\ (length (sv_table s) <= c)%nat)
      (fun _ s' => inv [] 0 s' /\ follows s s') s1) as Hd.
  { intros h g x s1 Hi1 E1. eapply wp_mono; [| |by apply sv_discard_spec]; [done|]. intros y s2 [Hi2 E2]. split; [done|].
    eapply follows_trans; [done|by apply rest_follows]. }
  unfold construct. apply wp_bind.
  eapply (wp_mono _ (fun r s1 => inv (match r with Ok g => [g] | Raise _ => [] end) 1 s1 /\ rest s1 = rest s) _ (fun _ _ => False)); [|done|].
  2:{ apply wp_try, wp_bind, sv_wp_life. eapply wp_mono; [| |apply (acquire_generation_ok (fresh := sv_pool s = false)); exact (i_life _ _ _ Hi)];
      intros ? l Hl; apply wp_ret; (split; [|done]); by eapply sv_inv_life'. }
  intros [g|x] s1 [Hi1 E1]; [|apply Hd; [done|by apply rest_follows]]. apply wp_bind.
  eapply (wp_mono _ (fun _ => stable [g] 1 s1) _ (fun _ _ => False)); [|done|].
  2:{ assert (steady (tls_channel env g fd)) as Ht.
      { unfold tls_channel. apply sv_steady_bind; [apply steady_accept_call|]. intros _. destruct (e_tls env); [|apply sv_steady_ret].
        apply sv_steady_bind; [apply steady_life; intros; apply keeps_get_gen|]. intros x. destruct (g_resources x); [apply sv_steady_raise|].
        apply sv_steady_bind; [apply steady_accept_call|intros; apply sv_steady_ret]. }
      unfold attempt_result. apply wp_try, wp_bind. eapply wp_mono; [| |apply (Ht [g] 1); [lia|exact Hi1]]; intros ? s2 Hs2; by apply wp_ret. }
  intros h s2 [Hi2 E2]. assert (follows s s2) as P2 by (apply rest_follows; congruence).
  destruct h as [h|x]; [|by apply Hd]. apply wp_bind. unfold wp at 1, self, get. cbv zeta. apply wp_bind.
  eapply (wp_mono _ (fun _ => stable [g] 1 s2) _ (fun _ _ => False)); [|done|].
  2:{ unfold attempt_result. apply wp_try, wp_bind. eapply wp_mono; [| |apply (steady_accept_call _ [g] 1); [lia|exact Hi2]]; intros ? s3 Hs3; by apply wp_ret. }
  intros o s3 [Hi3 E3]. assert (follows s s3) as P3 by (eapply follows_trans; [done|by apply rest_follows]).
  destruct o as [u|x]; [|by apply Hd]. apply wp_bind. unfold upd. apply wp_modify, wp_ret.
  rewrite <- (rest_table _ _ E3). unfold constructed. split; [|split].
  2:{ destruct P3 as [P3 [[l El] Hx]]. split; [done|]. split; [|done]. cbn. exists (l ++ [Served fd g None]). by rewrite El, app_assoc. }
  2:{ apply prefix_length. apply P3. }
  assert (generation_of (set_sv_table (sv_table s3 ++ [Served fd g None]) s3) (length (sv_table s3)) = g) as ->.
  { unfold generation_of. cbn. rewrite lookup_app_r by done. by rewrite Nat.sub_diag. }
  split_and!; [by apply inv_new_served|cbn; rewrite length_app; cbn; lia| |].
  - cbn. intros Hc. destruct (i_connections _ _ _ Hi3) as [_ Hf]. rewrite Forall_forall in Hf. pose proof (Hf _ Hc). cbn in *. lia.
  - intros h'. cbn. by eapply ledger_fresh; [exact (i_ledger _ _ _ Hi3)|].
Qed.

(** A connection that is not the one to finish stays published. *)
Lemma finish_connections c s : sv_connections (finish c s) = if bool_decide (c ∈ sv_connections s) then list_remove_first c (sv_connections s) else sv_connections s.
Proof.
  unfold finish. match goal with |- _ = ?l => assert (wp (connection_finished c) (fun _ s' => sv_connections s' = l) (fun _ s' => sv_connections s' = l) s) as Hw end.
  2:{ unfold wp in Hw. by destruct (connection_finished c s) as [[?|?] ?]. }
  unfold connection_finished. apply wp_bind. unfold unlist. apply wp_bind. unfold wp at 1, self, get.
  case_bool_decide; [|by apply wp_ret]. apply wp_bind. unfold upd. apply wp_modify, wp_ret. cbn [negb].
  match goal with |- wp ?m _ _ ?s1 => assert (keeps (fun s' => sv_connections s' = list_remove_first c (sv_connections s)) m) as Hk; [|by apply Hk] end.
  apply keeps_bind; [intros s' Hs; unfold wp, get_served; by destruct (sv_table s' !! c)|]. intros x.
  apply keeps_bind; [|intros e; auto]. apply keeps_attempt_all. repeat constructor; try (apply keeps_bind; [|auto]); by apply keeps_zoom.
Qed.
Lemma stays_published c ts : forall s, Forall (fun t => is_turn_of c t = false) ts -> c ∈ sv_connections s ->
  c ∈ sv_connections (fold_left (fun s t => finishing t s) ts s).
Proof.
  induction ts as [|t ts IH]; intros s Hts Hc; [done|]. apply Forall_cons in Hts as [Ht Hts]. cbn [fold_left]. apply IH; [done|].
  destruct t as [c'|]; [|done]. cbn in Ht |- *. apply bool_decide_eq_false in Ht. rewrite finish_connections.
  case_bool_decide as Hc'; [|done]. pose proof (list_remove_first_perm _ _ Hc') as Hp. rewrite Hp in Hc.
  apply elem_of_cons in Hc as [->|Hc]; done.
Qed.
Lemma spawn_call_spec c m s : inv [] 0 s -> c ∈ sv_connections s ->
  wp (spawn_call c m) (fun _ => stable [] 0 s) (fun _ s' => stable [] 0 s s' /\ c ∈ sv_connections s') s.
Proof.
  intros Hi Hc. pose proof (steady_spawn_call c m [] 0 s ltac:(lia) Hi) as Hw. unfold wp in *.
  destruct (spawn_call c m s) as [[h|e] s'] eqn:E; [done|]. split; [done|]. revert E. unfold spawn_call, accept_call.
  destruct (m (sv_world s)) as [ts [[h|e'] w]]; intros [= _ <-].
  apply stays_published; [|done]. rewrite Forall_forall. intros t Ht. apply list_elem_of_In, filter_In in Ht as [_ Ht]. by apply negb_true_iff in Ht.
Qed.

(** An unpublished connection is again one's own. *)
Lemma unlist_spec c s : inv [] 0 s -> c ∈ sv_connections s -> sv_pool s = true ->
  wp (unlist c) (fun _ s' => inv [generation_of s c] 1 s' /\ rest s' = rest s) (fun _ _ => False) s.
Proof.
  intros Hi Hc Hpool. unfold unlist. apply wp_bind. unfold wp at 1, self, get. rewrite bool_decide_eq_true_2 by done.
  apply wp_bind. unfold upd. apply wp_modify, wp_ret. split; [|done]. pose proof Hi as [Hl [Hn Hf] Hp Ho Hh].
  pose proof (list_remove_first_perm _ _ Hc) as Hperm. split; try done.
  - cbn. assert (0 + len (sv_connections s) = 1 + len (list_remove_first c (sv_connections s))) as <-.
    { pose proof (Permutation_length Hperm) as E. cbn [length] in E. unfold len. lia. }
    eapply life_ok_perm; [|exact Hl]. unfold holders. cbn [app]. rewrite Hperm at 1. done.
  - cbn. rewrite Hperm in Hn, Hf. apply NoDup_cons in Hn as [_ Hn]. by apply Forall_cons in Hf as [_ Hf].
  - cbn. intros E. congruence.
Qed.
Lemma inv_published c s : constructed c s -> sv_pool s = true -> inv [] 0 (set_sv_connections (sv_connections s ++ [c]) s).
Proof.
  intros ([Hl [Hn Hf] Hp Ho Hh] & Hlt & Hc & _) Hpool. split; try done.
  - cbn. replace (0 + len (sv_connections s ++ [c])) with (1 + len (sv_connections s)) by (rewrite len_app; unfold len; cbn; lia).
    eapply life_ok_perm; [|exact Hl]. unfold holders. cbn. rewrite map_app. cbn. rewrite (Permutation_app_comm (map _ _)). done.
  - cbn. split; [|by apply Forall_app; split; [|apply Forall_singleton]]. apply NoDup_app. split_and!; [done| |apply NoDup_singleton].
    intros c' Hc' ->%list_elem_of_singleton. done.
  - cbn. intros E. congruence.
Qed.
Definition accepted s0 s : Prop := inv [] 0 s /\ follows s0 s.
(** Its thread is started: it is waited for from now on. *)
Lemma thread_started_spec s0 c h s : inv [] 0 s -> follows s0 s -> sv_pool s = true -> (length (sv_table s0) <= c)%nat ->
  (c < length (sv_table s))%nat -> (forall h, (ConnectionOwner c, h) ∉ awaited (sv_history s)) ->
  wp (note (Started (ConnectionOwner c) h) ;;! set_thread c (Some h) ;;! upd (fun s => set_sv_owners (sv_owners s ++ [c]) s) ;;! ret 1)
    (fun _ => accepted s0) (fun _ => accepted s0) s.
Proof.
  intros Hi [P [Ht Hx]] Hpool Hge Hlt Hn. destruct (lookup_lt_is_Some_2 _ _ Hlt) as [x Ex].
  unfold note. apply wp_bind. unfold upd at 1. apply wp_modify, wp_bind. unfold wp at 1. rewrite (set_thread_run c (Some h) _ x) by done.
  apply wp_bind. unfold upd. apply wp_modify, wp_ret. split.
  - eapply (inv_thread [] 0 s _ c x); [exact Hi|exact Ex|done| |cbn; congruence|done..]. cbn. by apply ledger_started; [apply Hi| |].
  - split; [exact P|]. split; cbn.
    + destruct Ht as [l El]. rewrite El. rewrite insert_app_r_alt by done. by eexists.
    + intros c' h' Hc'. rewrite awaited_snoc. cbn. rewrite elem_of_app, list_elem_of_singleton. intros [?|[= -> ->]]; [by apply Hx|lia].
Qed.
Lemma spawn_spec s0 c s : constructed c s -> follows s0 s -> (length (sv_table s0) <= c)%nat -> sv_pool s = true ->
  wp (spawn env c) (fun _ => accepted s0) (fun _ => accepted s0) s.
Proof.
  intros Hc P Hge Hpool. pose proof (inv_published c s Hc Hpool) as Hi. unfold spawn. apply wp_bind. unfold upd at 1. apply wp_modify.
  set (s1 := set_sv_connections _ s). assert (follows s0 s1) as P1 by (destruct P as [? [? ?]]; by repeat split). apply wp_bind.
  eapply (wp_mono _ (fun r s2 => stable [] 0 s1 s2 /\ match r with Ok _ => True | Raise _ => c ∈ sv_connections s2 end) _ (fun _ _ => False)); [|done|].
  2:{ unfold attempt_result. apply wp_try, wp_bind. eapply wp_mono; [| |apply (spawn_call_spec c _ s1); [done|]].
      - intros h s2 Hs2. by apply wp_ret.
      - intros e s2 Hs2. by apply wp_ret.
      - apply elem_of_app. right. by left. }
  intros r s2 [[Hi2 E2] Hc2]. assert (follows s0 s2) as P2 by (eapply follows_trans; [done|by apply rest_follows]).
  assert (sv_pool s2 = true) as Hp2 by (rewrite (follows_pool _ _ (rest_follows _ _ E2)); exact Hpool).
  destruct r as [h|e].
  - apply thread_started_spec; try done; destruct Hc as (_ & Hlt & _ & Hn).
    + by rewrite (rest_table _ _ E2).
    + intros h'. replace (sv_history s2) with (sv_history s); [done|]. revert E2. unfold rest. by intros [=].
  - assert (generation_of s2 c = generation_of s c) as Eg by (unfold generation_of; by rewrite (rest_table _ _ E2)).
    apply wp_bind. eapply wp_mono; [| |by apply unlist_spec]; [|done]. intros b s3 [Hi3 E3]. apply wp_bind.
    assert (sv_table s3 !! c = Some (default (Served 0 0 None) (sv_table s !! c))) as Hx.
    { rewrite (rest_table _ _ E3), (rest_table _ _ E2). cbn. destruct Hc as (_ & Hlt & _). by destruct (lookup_lt_is_Some_2 _ _ Hlt) as [x ->]. }
    unfold wp at 1, get_served. rewrite Hx. apply wp_bind.
    assert (generation_of s2 c = sc_generation (default (Served 0 0 None) (sv_table s !! c))) as Eg2.
    { rewrite Eg. unfold generation_of. by destruct (sv_table s !! c). }
    rewrite Eg2 in Hi3. set (g := sc_generation _) in *.
    eapply (wp_mono _ (fun _ => accepted s0) _ (fun _ _ => False)); [intros ? s4 Hs4; by apply wp_raise|done|].
    apply wp_each. eapply wp_mono; [| |apply (steady_accept_call _ [g] 1); [lia|exact Hi3]];
      intros ? s4 [Hi4 E4]; apply wp_each; (eapply wp_mono; [| |by apply release_own]); intros ? s5 [Hi5 E5]; apply wp_each;
      (eapply wp_mono; [| |by apply release_admission]; [|done]); intros ? s6 [Hi6 E6]; apply wp_ret; (split; [done|]);
      (eapply follows_trans; [exact P2|]); apply rest_follows; congruence.
Qed.

Lemma accept_once_spec fd s : inv [] 0 s -> sv_pool s = true -> wp (accept_once env fd) (fun _ => accepted s) (fun _ => accepted s) s.
Proof.
  intros Hi Hpool. assert (accepted s s) as H0s by (split; [done|apply follows_refl]). unfold accept_once. apply wp_bind. unfold wp at 1, self, get. cbv zeta.
  destruct (_ || _); [by apply wp_ret|]. apply wp_bind.
  eapply wp_mono; [| |apply (steady_accept_call _ [] 0); [lia|exact Hi]]; intros o s1 [Hi1 E1]; apply rest_follows in E1 as P1; [|done].
  destruct o as [[outcome fd'] ip]. destruct (outcome =? _); [by apply wp_ret|]. destruct (_ || _); [by apply wp_raise|].
  apply wp_bind, sv_wp_life. eapply wp_mono; [| |apply (admit_connection_ok (fresh := sv_pool s1 = false)); exact (i_life _ _ _ Hi1)]; [|done].
  intros b l Hl. destruct b; cbn [negb].
  - assert (inv [] 1 (set_sv_life l s1)) as Hi2.
    { eapply sv_inv_life'; [exact Hi1|]. by replace (1 + len (sv_connections s1)) with (0 + len (sv_connections s1) + 1) by lia. }
    assert (follows s (set_sv_life l s1)) as P2 by (destruct P1 as [? [? ?]]; by repeat split).
    apply wp_bind. eapply wp_mono; [| |by apply construct_spec].
    + intros c s3 (Hc3 & P3 & Hge). assert (follows s s3) as P by (by eapply follows_trans). apply spawn_spec; [done..| |].
      * etransitivity; [|exact Hge]. apply prefix_length. apply P2.
      * by rewrite (follows_pool _ _ P).
    + intros x s3 [Hi3 P3]. split; [done|by eapply follows_trans].
  - pose proof (sv_inv_life' [] 0 [] 0 s1 l Hi1 Hl) as Hi2.
    assert (follows s (set_sv_life l s1)) as P2 by (destruct P1 as [? [? ?]]; by repeat split). apply wp_bind.
    eapply wp_mono; [| |apply (steady_accept_call _ [] 0); [lia|exact Hi2]]; intros ? s3 [Hi3 E3]; [apply wp_ret|];
      (split; [done|]); (eapply follows_trans; [exact P2|by apply rest_follows]).
Qed.

(** ** Turns of other threads, and the calls they run in *)

Lemma accepted_refl s : inv [] 0 s -> accepted s s.
Proof. split; [done|apply follows_refl]. Qed.
Lemma accepted_trans s0 s1 s2 : accepted s1 s2 -> accepted s0 s1 -> accepted s0 s2.
Proof. intros [Hi E] [_ E']. split; [done|by eapply follows_trans]. Qed.
Lemma run_turn_spec t s : inv [] 0 s -> accepted s (run_turn env s t).
Proof.
  intros Hi. destruct t as [c|]; cbn [run_turn].
  - destruct (sv_finish_spec [] 0 c s ltac:(lia) Hi) as [[Hi1 E1] _]. split; [done|by apply rest_follows].
  - destruct (sv_accept s) as [h|] eqn:Ea; [|by apply accepted_refl]. assert (sv_pool s = true) as Hpool.
    { destruct (sv_pool s) eqn:Ep; [done|]. destruct (i_pool _ _ _ Hi Ep) as [E _]. congruence. }
    pose proof (accept_once_spec (sv_fd s) s Hi Hpool) as Hw. unfold wp in Hw. by destruct (accept_once env (sv_fd s) s) as [[?|?] ?].
Qed.
Lemma run_turns_spec ts : forall s, inv [] 0 s -> accepted s (fold_left (run_turn env) ts s).
Proof.
  induction ts as [|t ts IH]; intros s Hi; [by apply accepted_refl|]. cbn [fold_left]. pose proof (run_turn_spec t s Hi) as [Hi1 E1].
  eapply accepted_trans; [by apply IH|done].
Qed.
Lemma call_spec {A} (m : outside W A) s : inv [] 0 s -> wp (call env m) (fun _ => accepted s) (fun _ => accepted s) s.
Proof.
  intros Hi. unfold wp, call. destruct (m (sv_world s)) as [ts [r w]].
  pose proof (run_turns_spec ts _ (sv_inv_world [] 0 s w Hi)) as Hs. by destruct r.
Qed.

(** Nobody else is left: nobody else runs. *)
Abbreviation idle := over.
Lemma finish_idle c s : idle s -> finish c s = s.
Proof.
  intros (_ & Ec & _). unfold finish, connection_finished, unlist, self, get, bind. cbn. rewrite Ec.
  by rewrite bool_decide_eq_false_2 by apply not_elem_of_nil.
Qed.
Lemma run_turns_idle ts : forall s, idle s -> fold_left (run_turn env) ts s = s.
Proof.
  induction ts as [|t ts IH]; intros s Hs; [done|]. cbn [fold_left].
  assert (run_turn env s t = s) as ->; [|by apply IH]. destruct t as [c|]; cbn [run_turn]; [by apply finish_idle|].
  destruct Hs as (Ea & _). by rewrite Ea.
Qed.
Lemma call_idle {A} (m : outside W A) s : idle s -> exists r w, call env m s = (r, set_sv_world w s).
Proof. intros Hs. unfold call. destruct (m (sv_world s)) as [ts [r w]]. exists r, w. by rewrite run_turns_idle. Qed.

(** A state in which the accept owner and all connections are over, and one in which the
    carriers have joined too, and where the listener, the application or the control may be
    closed already. *)
Definition quiet s : Prop := inv [] 0 s /\ idle s.
Definition ended (listener app control : bool) s : Prop :=
  quiet s /\ sv_pool s = false /\ (listener = true -> sv_fd s < 0) /\ (app = true -> sv_app s = false) /\
  (control = true -> sv_control_installed s = false).
Definition now s := (sv_accept s, sv_connections s, sv_owners s, sv_pool s).
Definition marks s := (now s, sv_fd s, sv_app s, sv_control_installed s).
Abbreviation whole := (inv [] 0).

(** Calls of the lifecycle, the control and outside code, in each kind of state. *)
Definition lasting {A} (m : S A) : Prop := keeps whole m /\ keeps quiet m /\ forall a b c, keeps (ended a b c) m.
Lemma lasting_bind {A B} (m : S A) (f : A -> S B) : lasting m -> (forall a, lasting (f a)) -> lasting (bind m f).
Proof. intros (? & ? & ?) Hf. split_and!; intros; (apply keeps_bind; [done|intros ?; apply Hf]). Qed.
Lemma lasting_ret {A} (a : A) : lasting (ret a).
Proof. split_and!; intros; auto. Qed.
Lemma lasting_raise {A} e : lasting (@raise _ A e).
Proof. split_and!; intros; auto. Qed.
Lemma lasting_self : lasting self.
Proof. split_and!; intros; by intros s. Qed.
Lemma lasting_state st : lasting (state_is st).
Proof. split_and!; intros; by intros s. Qed.
Lemma lasting_reraise o : lasting (reraise o).
Proof. split_and!; intros; auto. Qed.
Lemma lasting_attempt (m : S unit) : lasting m -> lasting (attempt m).
Proof. intros (? & ? & ?). split_and!; intros; by apply keeps_attempt. Qed.
Lemma lasting_try {A} (m : S A) h : lasting m -> (forall e, lasting (h e)) -> lasting (try_except m h).
Proof. intros (? & ? & ?) Hh. split_and!; intros; (apply keeps_try; [done|intros ?; apply Hh]). Qed.
Lemma lasting_result {A} (m : S A) : lasting m -> lasting (attempt_result m).
Proof. intros Hm. apply lasting_try; [apply lasting_bind; [done|intros; apply lasting_ret]|intros; apply lasting_ret]. Qed.
Lemma lasting_side {A} (m : S A) : (forall s, whole s -> wp m
    (fun _ s' => whole s' /\ marks s' = marks s) (fun _ s' => whole s' /\ marks s' = marks s) s) -> lasting m.
Proof.
  intros Hm. unfold marks, now in Hm. split_and!; [intros s Hs|intros s [Hi Hs]|intros a b c s [[Hi Hs] Hp]];
    (eapply wp_mono; [| |by apply Hm]); intros ? s' [Hi' [= E1 E2 E3 E4 E5 E6 E7]]; [done|done| | | |];
    unfold ended, quiet, over in *; cbn in *; rewrite ?E1, ?E2, ?E3, ?E4, ?E5, ?E6, ?E7; tauto.
Qed.
Lemma lasting_life {A} (m : M (lifecycle GATEWAY_CONFIG R) A) : (forall fr h n, keeps (life_ok fr h n) m) -> lasting (life m).
Proof.
  intros Hm. apply lasting_side. intros s Hi. apply sv_wp_life. eapply wp_mono; [| |apply Hm, Hi]; intros ? l Hl; (split; [|done]);
    by eapply sv_inv_life'.
Qed.
Lemma lasting_lifecycle {A} (m : M (lifecycle GATEWAY_CONFIG R * W) A) : (forall fr h n, keeps (life_of (fresh:=fr) h n) m) -> lasting (on_lifecycle m).
Proof.
  intros Hm. apply lasting_side. intros s Hi. apply wp_lifecycle.
  eapply wp_mono; [| |apply Hm; exact (i_life _ _ _ Hi)]; intros ? t Ht; (split; [|done]); by eapply sv_inv_life.
Qed.
Lemma lasting_control {A} (m : M (process_control * W) A) : lasting (on_control m).
Proof.
  apply lasting_side. intros s Hi. unfold on_control. apply wp_zoom. unfold wp.
  destruct (m _) as [[a|e] [c w]]; (split; [|done]); by eapply sv_inv_same.
Qed.
Lemma lasting_upd f : (forall s, rest (f s) = rest s /\ sv_life (f s) = sv_life s /\ sv_connections (f s) = sv_connections s) -> lasting (upd f).
Proof.
  intros Hf. apply lasting_side. intros s Hi. unfold upd. apply wp_modify. destruct (Hf s) as (E1 & E2 & E3).
  unfold rest in E1. injection E1 as ? ? ? ? ? ? ? ? ? ? ?. split; [by eapply sv_inv_same|]. unfold marks, now. congruence.
Qed.
Lemma lasting_call {A} (m : outside W A) : lasting (call env m).
Proof.
  split_and!.
  - intros s Hi. eapply wp_mono; [| |by apply call_spec]; by intros ? s' [? ?].
  - intros s [Hi Hs]. destruct (call_idle m s Hs) as (r & w & E). unfold wp. rewrite E.
    assert (quiet (set_sv_world w s)) by (split; [by apply sv_inv_world|done]). by destruct r.
  - intros a b c s [[Hi Hs] Hp]. destruct (call_idle m s Hs) as (r & w & E). unfold wp. rewrite E.
    assert (ended a b c (set_sv_world w s)) by (split; [split; [by apply sv_inv_world|done]|done]). by destruct r.
Qed.
Lemma lasting_now : lasting (now_ms env).
Proof. apply lasting_call. Qed.
Lemma lasting_observed h r : lasting (note (Observed h r)).
Proof.
  apply lasting_side. intros s [Hl Hc Hp Ho Hh]. unfold note, upd. apply wp_modify. split; [|done]. split; try done. by apply ledger_observed.
Qed.
Lemma lasting_outcome h : lasting (outcome_of env h).
Proof. unfold outcome_of. apply lasting_bind; [apply lasting_call|]. intros o. apply lasting_bind; [apply lasting_observed|]. intros _. apply lasting_ret. Qed.
Create HintDb server.
Hint Resolve lasting_ret lasting_raise lasting_self lasting_state lasting_reraise lasting_attempt lasting_result lasting_control
  lasting_call lasting_now lasting_outcome : server.
Hint Resolve keeps_fail keeps_begin_drain keeps_get_gen keeps_retire keeps_finish_drain keeps_metric keeps_publish keeps_collect : server.
Hint Extern 1 (keeps _ (metric_add _ _)) => (apply keeps_metric_add; by intros [=]) : server.
Hint Extern 1 (lasting (life _)) => (apply lasting_life; intros; eauto with server nocore) : server.
Hint Extern 1 (lasting (on_lifecycle _)) => (apply lasting_lifecycle; intros; eauto with server nocore) : server.
Ltac lasts := repeat lazymatch goal with
  | |- lasting (bind _ _) => apply lasting_bind; [|intros ?]
  | |- lasting (try_except _ _) => apply lasting_try; [|intros ?]
  | |- lasting (attempt _) => apply lasting_attempt
  | |- lasting (attempt_result _) => apply lasting_result
  | |- lasting (upd _) => first [apply lasting_upd; by intros []|solve [eauto with server nocore]]
  | |- lasting (if ?b then _ else _) => destruct b
  | |- lasting (match ?x with _ => _ end) => destruct x
  | |- lasting _ => solve [eauto with server nocore]
  end.

Lemma lasting_get_served c : lasting (get_served c).
Proof. apply lasting_side. intros s Hi. unfold wp, get_served. by destruct (sv_table s !! c). Qed.
Hint Resolve lasting_get_served : server.
Lemma lasting_request_stop : lasting (request_stop env).
Proof. unfold request_stop. lasts. Qed.
Lemma lasting_signal cs : lasting (signal_all env cs).
Proof. induction cs as [|c cs IH]; cbn [signal_all]; lasts. Qed.
Hint Resolve lasting_request_stop lasting_signal : server.
Lemma lasting_force : lasting (force_close_connections env).
Proof. unfold force_close_connections. lasts. Qed.
Lemma lasting_settle : lasting settle_closed_connections.
Proof. unfold settle_closed_connections. lasts. Qed.
Lemma lasting_pause d n : lasting (pause env d n).
Proof. unfold pause. cbv zeta. lasts. Qed.
Hint Resolve lasting_force lasting_settle lasting_pause : server.
Lemma lasting_finish_draining : lasting finish_draining.
Proof. unfold finish_draining. lasts. Qed.
Lemma lasting_retire_current : lasting retire_current.
Proof. unfold retire_current. lasts. Qed.
Hint Resolve lasting_finish_draining lasting_retire_current : server.
Lemma lasting_retire_unless : lasting retire_unless_stopped.
Proof. unfold retire_unless_stopped. lasts. Qed.
Lemma lasting_drive_drain : lasting (drive_drain env).
Proof. unfold drive_drain. lasts. Qed.
Lemma lasting_fail_owner {A} r e : lasting (fail_accept_owner r e : S A).
Proof. unfold fail_accept_owner. lasts. Qed.
Hint Resolve lasting_retire_unless lasting_drive_drain lasting_fail_owner : server.
Lemma lasting_check : lasting (check_accept_owner env).
Proof. unfold check_accept_owner. cbv zeta. lasts. Qed.
Lemma lasting_failed_with f : lasting (failed_with f).
Proof. unfold failed_with, record_accept_shutdown_failure. lasts. Qed.
Hint Resolve lasting_check lasting_failed_with : server.

(** The ledger of threads only shrinks here, by threads that are over. *)
Definition gone c s : Prop := (c < length (sv_table s))%nat /\ forall h, (ConnectionOwner c, h) ∉ awaited (sv_history s).
Lemma gone_later c s0 s : gone c s0 -> later s0 s -> gone c s.
Proof.
  intros [Hc Hn] [Ht Hx]. apply prefix_length in Ht. split; [lia|]. intros h Hh. apply (Hn h). by apply Hx.
Qed.
Lemma outcome_spec h s : whole s ->
  wp (outcome_of env h) (fun r s' => whole s' /\ follows s s' /\
      forall o, settles o r = true -> (o, h) ∉ awaited (sv_history s')) (fun _ s' => whole s' /\ follows s s') s.
Proof.
  intros Hi. unfold outcome_of. apply wp_bind. eapply wp_mono; [| |by apply call_spec]; [|done]. intros r s1 [Hi1 P1]. apply wp_bind.
  unfold note, upd. apply wp_modify, wp_ret. destruct Hi1 as [Hl Hc Hp Ho Hh]. split; [|split].
  - split; try done. by apply ledger_observed.
  - destruct P1 as [P [Ht Hx]]. split; [done|]. split; [done|]. intros c x Hlt Hin. apply Hx; [done|].
    cbn in Hin. by apply observed_awaited in Hin as [? _].
  - intros o Ho' Hin. cbn in Hin. apply observed_awaited in Hin as [_ Hin]. unfold settled_by in Hin. cbn in Hin.
    by rewrite bool_decide_eq_true_2, Ho' in Hin.
Qed.
Lemma terminal_spec cs : forall e s, whole s ->
  wp (terminal_owners env cs e) (fun r s' => whole s' /\ later s s' /\ Forall (fun c => gone c s') (fst r)) (fun _ => whole) s.
Proof.
  induction cs as [|c cs IH]; intros e s Hi; cbn [terminal_owners].
  { apply wp_ret. split; [done|]. split; [apply later_refl|by apply Forall_nil]. }
  apply wp_bind. unfold wp at 1, get_served. destruct (sv_table s !! c) as [x|] eqn:Hx; [|done].
  destruct (sc_thread x) as [h|] eqn:Eh; [|by apply IH]. apply wp_bind.
  eapply (wp_mono _ (fun r s1 => whole s1 /\ later s s1 /\
      match r with Ok o => settles (ConnectionOwner c) o = true -> gone c s1 | Raise _ => True end) _ (fun _ _ => False)); [|done|].
  2:{ unfold attempt_result. apply wp_try, wp_bind. eapply wp_mono; [| |by apply outcome_spec].
      - intros o s1 (Hi1 & [_ Hl] & Ho). apply wp_ret. split; [done|]. split; [done|]. intros Hs. destruct Hl as [Ht _].
        pose proof (prefix_lookup_Some _ _ _ _ Hx Ht) as Hx1. split; [by eapply lookup_lt_Some|]. intros h' Hin.
        destruct (lg_owner _ _ _ _ _ (i_ledger _ _ _ Hi1) c h' Hin) as [_ Et]. rewrite Hx1 in Et. cbn in Et.
        rewrite Eh in Et. injection Et as <-. by destruct (Ho _ Hs).
      - intros x' s1 (Hi1 & [_ Hl]). apply wp_ret. by split_and!. }
  assert (forall e s1, whole s1 -> later s s1 ->
    wp (terminal_owners env cs e) (fun r s' => whole s' /\ later s s' /\ Forall (fun c => gone c s') (fst r)) (fun _ => whole) s1) as Hnext.
  { intros e' s1 Hi1 Hl1. eapply wp_mono; [| |by apply IH]; [|done]. intros r s2 (Hi2 & Hl2 & Hf). split_and!; [done|by eapply later_trans|done]. }
  intros r s1 (Hi1 & Hl1 & Hg).
  destruct r as [[| | | |n]|x']; cbn in Hg; try by apply Hnext.
  all: apply wp_bind; (eapply wp_mono; [| |by apply IH]; [|done]); intros [l e'] s2 (Hi2 & Hl2 & Hf); apply wp_ret;
    (split_and!; [done|by eapply later_trans|apply Forall_cons; split; [by eapply gone_later; [apply Hg|]|done]]).
Qed.
Lemma retire_owner_spec c s : whole s -> gone c s ->
  whole (retire_owner s c) /\ forall c', gone c' s -> gone c' (retire_owner s c).
Proof.
  intros Hi [Hlt Hn]. unfold retire_owner. case_bool_decide as Hc; [|done].
  destruct (lookup_lt_is_Some_2 _ _ Hlt) as [x Hx]. rewrite (set_thread_run c None _ x) by done. cbn [snd]. split.
  - eapply (inv_thread [] 0 s _ c x); [exact Hi|exact Hx|done| | |done..].
    + cbn. by apply ledger_retired; [apply Hi| |].
    + cbn. intros E. destruct (i_pool _ _ _ Hi E) as (_ & _ & Eo). rewrite Eo in Hc. by apply elem_of_nil in Hc.
  - intros c' [Hc' Hn']. split; [|done]. cbn. by rewrite length_insert.
Qed.
Lemma retire_owners_spec cs : forall s, whole s -> Forall (fun c => gone c s) cs -> whole (fold_left retire_owner cs s).
Proof.
  induction cs as [|c cs IH]; intros s Hi Hg; [done|]. apply Forall_cons in Hg as [Hc Hg]. cbn [fold_left].
  destruct (retire_owner_spec c s Hi Hc) as [Hi1 Hk]. apply IH; [done|]. eapply Forall_impl; [exact Hg|]. exact Hk.
Qed.
Lemma reap_spec s : whole s ->
  wp (reap_connection_owners env) (fun r s' => whole s' /\ (fst r = true -> sv_owners s' = [])) (fun _ => whole) s.
Proof.
  intros Hi. unfold reap_connection_owners. apply wp_bind. unfold wp at 1, self, get. apply wp_bind.
  eapply wp_mono; [| |by apply terminal_spec]; [|done]. intros [terminal e] s1 (Hi1 & _ & Hg).
  apply wp_bind. unfold upd. apply wp_modify, wp_bind. unfold wp at 1, self, get. apply wp_ret.
  split; [by apply retire_owners_spec|]. cbn [fst]. intros E. by apply bool_decide_eq_true in E.
Qed.
Lemma await_loop_spec passes deadline : forall e s, whole s ->
  wp (await_loop env passes deadline e) (fun r s' => whole s' /\ (fst r = true -> sv_connections s' = [] /\ sv_owners s' = [])) (fun _ => whole) s.
Proof.
  induction passes as [|n IH]; intros e s Hi; [done|]. cbn [await_loop]. apply wp_bind.
  eapply wp_mono; [| |by apply reap_spec]; [|done]. intros [b oe] s1 [Hi1 Ho1]. cbv zeta. apply wp_bind. unfold wp at 1, self, get.
  destruct (bool_decide (sv_connections s1 = []) && b) eqn:E; b2p; [apply wp_ret; split; [done|by auto]|].
  apply wp_bind. eapply wp_mono; [| |by apply (proj1 lasting_now)]; [|done]. intros t s2 Hi2.
  destruct (t >=? deadline); [by apply wp_ret|]. apply wp_bind. eapply wp_mono; [| |by apply (proj1 (lasting_pause _ _))]; [|done].
  intros u s3 Hi3. by apply IH.
Qed.

(** Reasons that are recorded: the lifecycle does not raise. *)
Lemma fail_returns reason P : keeps P (life (fail reason)) -> forall s, P s -> wp (life (fail reason)) (fun _ => P) (fun _ _ => False) s.
Proof.
  intros Hk s Hs. pose proof (Hk s Hs) as Hw. unfold wp, life, zoom in *.
  destruct (fail reason (sv_life s)) as [r l] eqn:E. assert (exists a, r = Ok a) as [a ->]; [|done].
  revert E. unfold fail, bind, modify, ret. repeat case_match; intros [= <- _]; by eexists.
Qed.
Lemma settle_owners_spec passes e s : whole s ->
  wp (settle_owners env passes e) (fun r s' => whole s' /\ (fst r = true -> sv_connections s' = [] /\ sv_owners s' = [])) (fun _ _ => False) s.
Proof.
  intros Hi. unfold settle_owners. apply wp_bind.
  eapply (wp_mono _ (fun r s' => whole s' /\ match r with Ok (true, _) => sv_connections s' = [] /\ sv_owners s' = [] | _ => True end) _ (fun _ _ => False));
    [|done|].
  2:{ unfold attempt_result. apply wp_try, wp_bind, wp_bind. unfold wp at 1, self, get. apply wp_bind.
      eapply (wp_mono _ (fun _ => whole) _ (fun _ => whole)).
      3:{ destruct (bool_decide _); [by apply wp_ret|by apply (proj1 lasting_force)]. }
      2:{ intros x s1 Hi1. by apply wp_ret. }
      intros u s1 Hi1. unfold await_connection_owners. apply wp_bind.
      eapply wp_mono; [| |by apply (proj1 lasting_now)]; [|intros x s2 Hi2; by apply wp_ret]. intros t s2 Hi2. apply wp_bind. unfold wp at 1, self, get.
      eapply wp_mono; [| |by apply await_loop_spec].
      - intros [[] oe] s3 [Hi3 H3]; apply wp_ret; split; auto.
      - intros x s3 Hi3. by apply wp_ret. }
  intros r s1 [Hi1 H1]. destruct r as [[[] oe]|x]; [by apply wp_ret| |];
    apply wp_bind; unfold wp at 1, state_is, bind, self, get, ret; apply wp_bind;
    (eapply (wp_mono _ (fun _ => whole) _ (fun _ _ => False)); [intros ? s2 Hi2; by apply wp_ret|done|]);
    (destruct (bool_decide _); [by apply wp_ret|]); apply fail_returns; [|done| |done]; apply (proj1 (lasting_life _ (fun fr h n => keeps_fail (fresh:=fr) h n _))).
Qed.

(** *** The accept owner's end *)

Definition holding (a : option Z) s : Prop := whole s /\ sv_accept s = a.
Definition accept_over s : Prop := forall h, (AcceptOwner, h) ∉ awaited (sv_history s).
Lemma holding_call {A} a (m : outside W A) : keeps (holding a) (call env m).
Proof.
  intros s [Hi Ha]. eapply wp_mono; [| |by apply call_spec]; intros ? s' [Hi' P]; (split; [done|]); by rewrite (follows_accept _ _ P).
Qed.
Lemma accept_outcome h s : holding (Some h) s ->
  wp (attempt_result (outcome_of env h)) (fun r s' => holding (Some h) s' /\ match r with Ok OutcomePending | Raise _ => True | Ok _ => accept_over s' end)
    (fun _ _ => False) s.
Proof.
  intros [Hi Ha]. unfold attempt_result. apply wp_try, wp_bind. eapply wp_mono; [| |by apply outcome_spec].
  - intros r s1 (Hi1 & P & Hr). apply wp_ret. assert (sv_accept s1 = Some h) as Ha1 by (by rewrite (follows_accept _ _ P)).
    split; [done|]. assert (settles AcceptOwner r = true -> accept_over s1) as Ho.
    { intros Hs h' Hin. pose proof (lg_accept _ _ _ _ _ (i_ledger _ _ _ Hi1) h' Hin) as E. rewrite Ha1 in E. injection E as <-. by apply (Hr _ Hs). }
    destruct r; auto.
  - intros e s1 [Hi1 P]. apply wp_ret. split; [|done]. split; [done|]. by rewrite (follows_accept _ _ P).
Qed.
Lemma observe_spec passes h d : forall f s, holding (Some h) s ->
  wp (observe_accept env passes h d f) (fun r s' => whole s' /\ (fst r <> OutcomePending -> accept_over s')) (fun _ => whole) s.
Proof.
  induction passes as [|n IH]; intros f s Hs; [apply wp_raise, Hs|]. cbn [observe_accept]. apply wp_bind.
  eapply wp_mono; [| |by apply accept_outcome]; [|done]. intros r s1 [Hs1 Hr].
  destruct r as [[| | | |]|]; try (apply wp_ret; split; [apply Hs1|done]).
  apply wp_bind. eapply (wp_mono _ (fun _ => holding (Some h)) _ (fun _ _ => False)); [|done|].
  2:{ unfold attempt_result, now_ms. apply wp_try, wp_bind. eapply wp_mono; [| |by apply holding_call]; intros ? s2 Hs2; by apply wp_ret. }
  intros [k|x] s2 Hs2; [|apply wp_ret; split; [apply Hs2|done]]. destruct (k >=? d); [apply wp_ret; split; [apply Hs2|done]|]. apply wp_bind.
  eapply (wp_mono _ (fun _ => holding (Some h)) _ (fun _ _ => False)); [|done|].
  2:{ apply wp_attempt. unfold pause. apply wp_bind. unfold wp at 1, self, get. cbv zeta. by apply holding_call. }
  intros [x|] s3 Hs3; [apply wp_ret; split; [apply Hs3|done]|by apply IH].
Qed.
Lemma forget_spec s : whole s -> accept_over s -> wp (upd (set_sv_accept None)) (fun _ => whole) (fun _ _ => False) s.
Proof.
  intros [Hl Hc Hp Ho Hh] Hn. unfold upd. apply wp_modify. split; try done; [by intros E; destruct (Hp E) as (_ & ? & ?)|].
  by eapply ledger_accept_over.
Qed.
Lemma retire_accept_spec h o f s : whole s -> (o <> OutcomePending -> accept_over s) -> wp (retire_accept env h o f) (fun _ => whole) (fun _ => whole) s.
Proof.
  intros Hi Hn. assert (forall A (m : S A), o <> OutcomePending -> keeps whole m -> wp (upd (set_sv_accept None) ;;! m) (fun _ => whole) (fun _ => whole) s) as Hf.
  { intros A m Ho Hm. apply wp_bind. eapply wp_mono; [| |by apply forget_spec; [|apply Hn]]; [|done]. intros u s1 Hi1. by apply Hm. }
  destruct o; cbn [retire_accept]; [by apply wp_ret| | | |]; (apply Hf; [done|]); match goal with |- keeps _ ?m => assert (lasting m) as [? _] by lasts end; done.
Qed.
Lemma stop_accept_whole passes : keeps whole (stop_accept_owner env passes).
Proof.
  intros s Hi. unfold stop_accept_owner. apply wp_bind. unfold wp at 1, self, get. destruct (sv_accept s) as [h|] eqn:Ea; [|by apply wp_ret].
  apply wp_bind. eapply (wp_mono _ (fun _ => holding (Some h)) _ (fun _ _ => False)); [|done|by apply wp_attempt, holding_call].
  intros c s1 Hs1. cbv zeta. apply wp_bind. eapply (wp_mono _ (fun _ => holding (Some h)) _ (fun _ _ => False)); [|done|].
  2:{ unfold attempt_result, now_ms. apply wp_try, wp_bind. eapply wp_mono; [| |by apply holding_call]; intros ? s2 Hs2; by apply wp_ret. }
  intros [k|x] s2 Hs2; [|apply (proj1 (lasting_failed_with _)), Hs2]. apply wp_bind.
  eapply wp_mono; [| |by apply observe_spec]; [|done]. intros [o f] s3 [Hi3 Hn]. apply wp_bind.
  eapply wp_mono; [| |by apply retire_accept_spec]; [|done]. intros g s4 Hi4. by apply (proj1 (lasting_failed_with _)).
Qed.
Lemma stop_accept_quiet passes s : quiet s -> stop_accept_owner env passes s = (Ok None, s).
Proof. intros [_ (Ea & _)]. unfold stop_accept_owner, bind, self, get. by rewrite Ea. Qed.

(** *** Ending things, in order *)

Lemma quiet_nothing s : quiet s -> awaited (sv_history s) = [].
Proof. intros [[_ _ _ _ Hh] (Ea & _ & Eo)]. rewrite Ea, Eo in Hh. by eapply nothing_awaited. Qed.
Lemma ended_down a b c s : ended a b c s -> carriers_up (sv_history s) = false.
Proof. intros [[Hi _] (Hp & _)]. destruct (carriers_up _) eqn:E; [|done]. pose proof (lg_pool _ _ _ _ _ (i_ledger _ _ _ Hi) E). congruence. Qed.
Lemma note_spec e s : quiet s -> e = StopCarriers \/ carriers_up (sv_history s) = false ->
  wp (note_ended e) (fun _ s' => whole s' /\ marks s' = marks s) (fun _ _ => False) s.
Proof.
  intros Hq He. unfold note_ended, note, upd. apply wp_bind. unfold wp at 1, self, get. apply wp_modify. split; [|done].
  pose proof Hq as [[Hl Hc Hp Ho Hh] (_ & Ec & _)]. split; try done. apply ledger_ended; [done|].
  split; [by apply quiet_nothing|done].
Qed.
Lemma quiet_note s : quiet s -> wp (note_ended StopCarriers) (fun _ => quiet) (fun _ _ => False) s.
Proof.
  intros Hq. eapply wp_mono; [| |apply (note_spec StopCarriers s Hq); by left]; [|done].
  intros u s' [Hi' [= E1 E2 E3 E4 E5 E6 E7]]. split; [done|]. destruct Hq as [_ Hs]. unfold over in *. by rewrite E1, E2, E3.
Qed.
Lemma noted e a b c s : ended a b c s -> wp (note_ended e) (fun _ => ended a b c) (fun _ _ => False) s.
Proof.
  intros He. eapply wp_mono; [| |apply (note_spec e s (proj1 He)); right; by eapply ended_down]; [|done].
  destruct He as [[Hi Hs] Hp].
  intros u s' [Hi' [= E1 E2 E3 E4 E5 E6 E7]]. unfold ended, quiet, over in *. by rewrite E1, E2, E3, E4, E5, E6, E7.
Qed.

Definition leads {A} (m : S A) (a b c a' b' c' : bool) : Prop :=
  forall s, ended a b c s -> wp m (fun _ => ended a' b' c') (fun _ => ended a' b' c') s.
Lemma leads_keeps {A} (m : S A) a b c : lasting m -> leads m a b c a b c.
Proof. intros (_ & _ & Hm) s Hs. by apply Hm. Qed.
Lemma ended_upd f s a b c a' b' c' : ended a b c s -> inv [] 0 (f s) -> now (f s) = now s ->
  (a' = true -> sv_fd (f s) < 0) -> (b' = true -> sv_app (f s) = false) -> (c' = true -> sv_control_installed (f s) = false) -> ended a' b' c' (f s).
Proof.
  intros [[Hi Hs] (Hp & _)] Hi' E Ha Hb Hc. injection E as E1 E2 E3 E4. split; [split; [done|]|].
  - unfold over in *. by rewrite E1, E2, E3.
  - by rewrite E4.
Qed.
Lemma inv_retired s s' : whole s -> sv_pool s = false -> sv_life s' = sv_life s -> sv_table s' = sv_table s -> now s' = now s ->
  sv_history s' = sv_history s -> whole s'.
Proof.
  intros [Hl Hc Hp Ho Hh] Epool E1 E2 [= E3 E4 E5 E6] E7. split; unfold holders, generation_of, over in *; cbn in *;
    rewrite ?E1, ?E2, ?E3, ?E4, ?E5, ?E6, ?E7; try done. congruence.
Qed.
Lemma close_listener_leads a b c : leads (close_listener env) a b c true b c.
Proof.
  intros s Hs. unfold close_listener. apply wp_bind. unfold wp at 1, self, get. destruct (sv_fd s >=? 0) eqn:E; b2p.
  - apply wp_bind. eapply wp_mono; [| |by apply noted]; [|done]. intros u s1 Hs1. apply wp_bind. unfold upd at 1. apply wp_modify.
    apply (proj2 (proj2 (lasting_call _))). destruct Hs1 as [[Hi Hq] (Hp & Ha & Hb & Hc)].
    apply (ended_upd (set_sv_fd (-1)) s1 a b c); try done. by eapply inv_retired.
  - apply wp_ret. destruct Hs as [Hq (Hp & _ & Hb & Hc)]. split; [done|]. split_and!; auto.
Qed.
Lemma shutdown_app_leads a b c : leads (shutdown_app env) a b c a true c.
Proof.
  intros s Hs. unfold shutdown_app. apply wp_bind. unfold wp at 1, self, get. destruct (sv_app s) eqn:E.
  - apply wp_bind. eapply wp_mono; [| |by apply noted]; [|done]. intros u s1 Hs1. apply wp_bind.
    eapply (wp_mono _ (fun _ => ended a b c) _ (fun _ _ => False)); [|done|by apply wp_attempt, (proj2 (proj2 (lasting_call _)))].
    intros o s2 Hs2. apply wp_bind. unfold upd at 1. apply wp_modify. apply (proj2 (proj2 (lasting_reraise o))).
    destruct Hs2 as [[Hi Hq] (Hp & Ha & Hb & Hc)]. apply (ended_upd (set_sv_app false) s2 a b c); try done. by eapply inv_retired.
  - apply wp_ret. destruct Hs as [Hq (Hp & Ha & _ & Hc)]. split; [done|]. split_and!; auto.
Qed.
Lemma close_tls_leads a b c : leads (close_tls env) a b c a b c.
Proof.
  intros s Hs. unfold close_tls. destruct (e_tls env); [|by apply wp_ret]. apply wp_bind.
  eapply wp_mono; [| |by apply noted]; [|done]. intros u s1 Hs1. by apply (proj2 (proj2 (lasting_call _))).
Qed.
Lemma uninstall_leads a b c s : ended a b c s ->
  wp uninstall_control (fun _ => ended a b true) (fun _ => ended a b c) s.
Proof.
  intros Hs. unfold uninstall_control. apply wp_bind. unfold wp at 1, self, get. destruct (sv_control_installed s) eqn:E.
  - apply wp_bind. eapply wp_mono; [| |by apply (proj2 (proj2 (lasting_control _)))]; [|done]. intros u s1 [[Hi Hq] (Hp & Ha & Hb & Hc)].
    unfold upd. apply wp_modify. apply (ended_upd (set_sv_control_installed false) s1 a b c); try done. by eapply inv_retired.
  - apply wp_ret. destruct Hs as [Hq (Hp & Ha & Hb & _)]. split; [done|]. split_and!; auto.
Qed.

(** What a list of independent steps leads to, and with no error what its last does. *)
Lemma wp_each_value ms (m : S unit) Q E s :
  wp m (fun _ s1 => wp (attempt_all ms) Q E s1) (fun e s1 => wp (attempt_all ms) (fun _ => Q (Some e)) E s1) s ->
  wp (attempt_all (m :: ms)) Q E s.
Proof.
  intros Hm. cbn [attempt_all]. apply wp_bind, wp_attempt. eapply wp_mono; [| |exact Hm]; intros ? s1 Hs1; apply wp_bind;
    (eapply wp_mono; [| |exact Hs1]); try done; intros o s2 Hs2; by apply wp_ret.
Qed.
Definition finished_by (a b : bool) (o : option exn) s : Prop := ended a b (bool_decide (o = None)) s.
Lemma finished_weaken a b o s : ended a b false s -> o <> None -> finished_by a b o s.
Proof. intros Hs Ho. unfold finished_by. by rewrite bool_decide_eq_false_2. Qed.
Lemma uninstall_last a b s : ended a b false s ->
  wp (attempt_all [uninstall_control]) (finished_by a b) (fun _ _ => False) s.
Proof.
  intros Hs. apply wp_each_value. eapply wp_mono; [| |by apply uninstall_leads].
  - intros u s1 Hs1. by apply wp_ret.
  - intros e s1 Hs1. apply wp_ret. by apply finished_weaken.
Qed.
Lemma each_leads ms m a b a1 b1 a2 b2 s : leads m a b false a1 b1 false -> ended a b false s ->
  (forall s1, ended a1 b1 false s1 -> wp (attempt_all ms) (finished_by a2 b2) (fun _ _ => False) s1) ->
  wp (attempt_all (m :: ms)) (finished_by a2 b2) (fun _ _ => False) s.
Proof.
  intros Hm Hs Hms. apply wp_each_value. eapply wp_mono; [| |by apply Hm]; intros x s1 Hs1; [by apply Hms|].
  eapply wp_mono; [| |by apply Hms]; [|done]. intros o s2 [Hq (Hp & Ha & Hb & _)]. unfold finished_by, ended. by split_and!.
Qed.
Lemma then_all_spec ms e a b s : wp (attempt_all ms) (finished_by a b) (fun _ _ => False) s ->
  wp (then_all e ms) (finished_by a b) (fun _ _ => False) s.
Proof.
  intros Hm. unfold then_all. apply wp_bind. eapply wp_mono; [| |exact Hm]; [|done]. intros o s1 Hs1. apply wp_ret.
  destruct e as [e|]; [|by destruct o]. destruct Hs1 as [Hq (Hp & Ha & Hb & _)]. unfold finished_by, ended. by split_and!.
Qed.
Lemma release_all_spec e s : ended false false false s ->
  wp (release_all env e) (finished_by true true) (fun _ _ => False) s.
Proof.
  intros Hs. unfold release_all. apply then_all_spec. eapply each_leads; [apply close_listener_leads|done|]. intros s1 Hs1.
  eapply each_leads; [apply leads_keeps, lasting_settle|done|]. intros s2 Hs2.
  eapply each_leads; [apply leads_keeps, lasting_finish_draining|done|]. intros s3 Hs3.
  eapply each_leads; [apply leads_keeps, lasting_retire_unless|done|]. intros s4 Hs4.
  eapply each_leads; [apply shutdown_app_leads|done|]. intros s5 Hs5.
  eapply each_leads; [apply close_tls_leads|done|]. by apply uninstall_last.
Qed.
Lemma roll_back_spec e s : ended false false false s -> wp (roll_back env e) (finished_by true true) (fun _ _ => False) s.
Proof.
  intros Hs. unfold roll_back. apply then_all_spec. eapply each_leads; [apply close_listener_leads|done|]. intros s1 Hs1.
  eapply each_leads; [apply shutdown_app_leads|done|]. intros s2 Hs2.
  eapply each_leads; [apply leads_keeps, lasting_retire_current|done|]. intros s3 Hs3.
  eapply each_leads; [apply close_tls_leads|done|]. by apply uninstall_last.
Qed.

(** *** Shutdown *)

Lemma lasting_attempt_all (ms : list (S unit)) : Forall lasting ms -> lasting (attempt_all ms).
Proof.
  intros Hms. split_and!; intros; apply keeps_attempt_all; (eapply Forall_impl; [exact Hms|]); intros m (? & ? & ?); auto.
Qed.
(** When the carriers have answered that they stopped, none is up. *)
Lemma stop_carriers_spec s : quiet s ->
  wp (stop_carriers env) (fun b s' => quiet s' /\ (b = true -> carriers_up (sv_history s') = false)) (fun _ => quiet) s.
Proof.
  intros Hs. unfold stop_carriers. apply wp_bind. eapply wp_mono; [| |by apply quiet_note]; [|done]. intros u s1 Hs1.
  apply wp_bind. eapply wp_mono; [| |by apply (proj1 (proj2 (lasting_call _)))]; [|done]. intros o s2 [[Hl Hc Hp Ho Hh] Hs2].
  apply wp_bind. unfold note, upd. apply wp_modify, wp_ret. split.
  - split; [|done]. split; try done. by apply ledger_pool_answer.
  - cbn. rewrite carriers_snoc. destruct o as [n|]; [|done]. cbn. by intros ->%negb_true_iff.
Qed.
Lemma pool_stopped s : quiet s -> carriers_up (sv_history s) = false -> ended false false false (set_sv_pool false s).
Proof.
  intros [[Hl Hc Hp Ho Hh] Hs] Hd. split; [|done]. split; [|done]. split; try done; [|by eapply ledger_pool_down].
  eapply life_ok_weaken; [|exact Hl]. done.
Qed.
Lemma carriers_attempt s : quiet s ->
  wp (attempt_result (stop_carriers env)) (fun r s' => quiet s' /\ (r = Ok true -> carriers_up (sv_history s') = false)) (fun _ _ => False) s.
Proof.
  intros Hs. unfold attempt_result. apply wp_try, wp_bind.
  eapply wp_mono; [| |by apply stop_carriers_spec]; [|intros e s1 Hs1; by apply wp_ret]. intros b s1 [Hs1 Hd]. apply wp_ret.
  split; [done|]. intros [=]. auto.
Qed.
Lemma stop_pool_spec e s : quiet s ->
  wp (let! stopped := attempt_result (stop_carriers env) in
      match stopped with
      | Raise x => ret (first_of e (Some x))
      | Ok false => ret (first_of e (Some (GatewayError (py "virtual-thread carrier pool did not stop"))))
      | Ok true => upd (set_sv_pool false) ;;! release_all env e
      end) (fun r s' => whole s' /\ (r = None -> ended true true true s')) (fun _ => whole) s.
Proof.
  intros Hs. apply wp_bind. eapply wp_mono; [| |by apply carriers_attempt]; [|done].
  intros [[]|x] s1 [Hs1 Hd].
  - apply wp_bind. unfold upd at 1. apply wp_modify. eapply wp_mono; [| |apply release_all_spec, pool_stopped; [exact Hs1|by apply Hd]]; [|done].
    intros o s2 Hs2. split; [apply Hs2|]. by intros ->.
  - apply wp_ret. split; [apply Hs1|]. by destruct e.
  - apply wp_ret. split; [apply Hs1|]. by destruct e.
Qed.
Lemma shutdown_all_spec passes s : whole s ->
  wp (shutdown_all env passes) (fun r s' => whole s' /\ (r = None -> ended true true true s')) (fun _ => whole) s.
Proof.
  intros Hi. unfold shutdown_all. apply wp_bind. eapply wp_mono; [| |apply (fun m Hm => proj1 (lasting_attempt m Hm) s Hi); lasts]; [|done].
  intros e0 s1 Hi1. apply wp_bind. eapply wp_mono; [| |by apply stop_accept_whole]; [|done]. intros e1 s2 Hi2.
  apply wp_bind. eapply wp_mono; [| |by apply settle_owners_spec]; [|done]. intros [terminal e2] s3 [Hi3 Ht]. cbn [fst] in Ht.
  apply wp_bind. unfold wp at 1, self, get. destruct (bool_decide (is_Some (sv_accept s3)) || negb terminal) eqn:E.
  { apply wp_ret. split; [done|]. by destruct e2. }
  apply orb_false_iff in E as [Ea Et]. apply negb_false_iff in Et. destruct (Ht Et) as [Ec Eo].
  assert (quiet s3) as Hq. { split; [done|]. split_and!; try done. apply bool_decide_eq_false in Ea. destruct (sv_accept s3); [|done]. destruct Ea. by eexists. }
  apply wp_bind. unfold then_all at 1. apply wp_bind.
  eapply wp_mono; [| |apply (proj1 (proj2 (lasting_attempt_all (map (call env) (e_close_idle env)) ltac:(apply Forall_forall; intros m (x & -> & _)%list_elem_of_fmap; apply lasting_call)))); exact Hq].
  2:{ intros x s4 Hs4. apply Hs4. }
  intros o s4 Hs4. apply wp_ret, wp_bind. unfold wp at 1, self, get. destruct (sv_pool s4) eqn:Ep; [by apply stop_pool_spec|].
  eapply wp_mono; [| |apply release_all_spec]; [|done|by split]. intros r s5 Hs5. split; [apply Hs5|]. by intros ->.
Qed.

(** *** Startup and its rollback *)

Lemma rollback_spec passes s : quiet s -> wp (rollback_start env passes) (fun _ => whole) (fun _ => whole) s.
Proof.
  intros Hs. unfold rollback_start. apply wp_bind. unfold wp at 1, self, get. destruct (sv_pool s) eqn:Ep.
  - apply wp_bind. unfold wp at 1. rewrite (stop_accept_quiet passes s Hs).
    apply wp_bind. unfold wp at 1, self, get. destruct (bool_decide _); [apply wp_ret, Hs|]. apply wp_bind.
    eapply wp_mono; [| |by apply carriers_attempt]; [|done].
    intros [[]|x] s2 [Hs2 Hd]; [|apply wp_ret, Hs2|apply wp_ret, Hs2].
    apply wp_bind. unfold upd at 1. apply wp_modify.
    eapply wp_mono; [| |apply roll_back_spec, pool_stopped; [exact Hs2|by apply Hd]]; [|done].
    intros o s3 Hs3. apply Hs3.
  - eapply wp_mono; [| |apply roll_back_spec]; [|done|by split]. intros o s1 Hs1. apply Hs1.
Qed.
Lemma start_accept_spec s : quiet s -> sv_pool s = true -> wp (start_accept env) (fun _ => whole) (fun _ => quiet) s.
Proof.
  intros [Hi Hs] Hp. unfold wp, start_accept. destruct (e_spawn_accept env (sv_world s)) as [ts [[h|e] w]].
  - apply run_turns_spec. destruct Hs as (Ea & _). pose proof (sv_inv_world [] 0 s w Hi) as [Hl Hc Hp' Ho Hh]. split; try done; cbn; [congruence|].
    cbn in Hh. rewrite Ea in Hh. by apply ledger_accept_started.
  - assert (forall ts s, idle s -> fold_left (fun s t => finishing t s) ts s = s) as Hf.
    { clear. induction ts as [|t ts IH]; intros s Hs; [done|]. cbn [fold_left]. destruct t; cbn [finishing]; [|by apply IH].
      rewrite finish_idle by done. by apply IH. }
    rewrite Hf by done. split; [by apply sv_inv_world|done].
Qed.
Lemma wp_state st (Q : bool -> server -> Prop) E s : Q (bool_decide (l_state (sv_life s) = st)) s -> wp (state_is st) Q E s.
Proof. done. Qed.
(** Outside code, when nothing else runs: only the world changes. *)
Lemma wp_call_idle {A} (m : outside W A) (Q : A -> server -> Prop) E s : idle s ->
  (forall a w, Q a (set_sv_world w s)) -> (forall e w, E e (set_sv_world w s)) -> wp (call env m) Q E s.
Proof. intros Hs HQ HE. destruct (call_idle m s Hs) as (r & w & Er). unfold wp. rewrite Er. by destruct r. Qed.
Abbreviation fresh := (ended false false false).
Lemma fresh_same s s' : fresh s -> sv_life s' = sv_life s -> sv_table s' = sv_table s -> now s' = now s ->
  sv_history s' = sv_history s -> fresh s'.
Proof.
  intros [[Hi Hs] (Hp & _)] E1 E2 E3 E4. split; [split; [by eapply inv_retired|]|]; unfold over in *; injection E3 as E3 E5 E6 E7; cbn in *.
  - by rewrite E3, E5, E6.
  - by rewrite E7.
Qed.
(** The carriers' answer to their start. *)
Definition answered_start (n : Z) s : server := set_sv_history (sv_history s ++ [PoolStarted n]) s.
Lemma pool_not_started n s : fresh s -> n <= 0 -> quiet (answered_start n s).
Proof.
  intros [[[Hl Hc Hp Ho Hh] Hs] _] Hn. split; [|done]. split; try done. by apply ledger_pool_answer.
Qed.
Lemma pool_started n s : fresh s -> 0 <= sv_fd s -> sv_app s = true -> l_state (sv_life s) <> STATE_NEW ->
  quiet (set_sv_pool true (answered_start n s)).
Proof.
  intros [[[Hl Hc Hp Ho Hh] Hs] _] Hfd Happ Hst. split; [|done]. split; try done; [|by eapply ledger_pool_up].
  destruct Hl as [La Ln Lr Lf Lh]. by split.
Qed.
Lemma started_spec s : fresh s ->
  wp (life started) (fun _ s' => fresh s' /\ l_state (sv_life s') = STATE_RUNNING /\ sv_fd s' = sv_fd s /\ sv_app s' = sv_app s) (fun _ => quiet) s.
Proof.
  intros Hs. pose proof (proj2 (proj2 (lasting_life started (fun fr h n => keeps_started (fresh:=fr) h n))) false false false s Hs) as Hw.
  unfold wp, life, zoom, started, bind, get, modify, raise in *. destruct (negb _); [apply Hw|done].
Qed.
Lemma start_steps_spec s : fresh s -> wp (start_steps env) (fun _ => whole) (fun _ => quiet) s.
Proof.
  intros Hs. unfold start_steps. apply wp_bind. unfold wp at 1, self, get. apply wp_bind.
  eapply (wp_mono _ (fun _ => fresh) _ (fun _ => fresh)); [|by intros e s1 [Hq _]|].
  2:{ destruct (install_signal_handlers _); [|by apply wp_ret]. apply wp_bind.
      eapply wp_mono; [| |by apply (proj2 (proj2 (lasting_control _)))]; [|done]. intros u s1 Hs1.
      unfold upd. apply wp_modify. eapply fresh_same; [exact Hs1|done..]. }
  intros u1 s1 Hs1. apply wp_bind. eapply wp_mono; [| |by apply (proj2 (proj2 (lasting_call _)))]; [|by intros e s2 [Hq _]].
  intros u2 s2 Hs2. apply wp_bind. unfold upd at 1. apply wp_modify. assert (fresh (set_sv_app true s2)) as Hs3 by (eapply fresh_same; [exact Hs2|done..]).
  set (s3 := set_sv_app true s2) in *. apply wp_bind.
  apply wp_call_idle; [apply Hs3| |intros e w; eapply fresh_same; [exact Hs3|done..]]. intros u4 w4. apply wp_bind. unfold wp at 1, self, get.
  set (s4 := set_sv_world w4 s3). assert (fresh s4) as Hs4 by (eapply fresh_same; [exact Hs3|done..]). apply wp_bind.
  apply wp_call_idle; [apply Hs4| |intros e w; eapply fresh_same; [exact Hs4|done..]]. intros fd w5. apply wp_bind. unfold upd at 1. apply wp_modify.
  set (s5 := set_sv_fd fd _). assert (fresh s5) as Hs5 by (eapply fresh_same; [exact Hs4|done..]).
  destruct (Z.ltb_spec fd 0) as [Hfd|Hfd]; [apply wp_raise, Hs5|]. apply wp_bind.
  eapply wp_mono; [| |by apply started_spec]; [|done]. intros u6 s6 (Hs6 & Est & Efd & Eapp). apply wp_bind. unfold wp at 1, self, get. apply wp_bind.
  apply wp_call_idle; [apply Hs6| |intros e w; eapply fresh_same; [exact Hs6|done..]]. intros n w7.
  set (s7 := set_sv_world w7 s6). assert (fresh s7) as Hs7 by (eapply fresh_same; [exact Hs6|done..]).
  apply wp_bind. unfold note, upd at 1. apply wp_modify. fold (answered_start n s7).
  destruct (Z.leb_spec n 0); [by apply wp_raise, pool_not_started|]. apply wp_bind. unfold upd at 1. apply wp_modify.
  assert (quiet (set_sv_pool true (answered_start n s7))) as Hs8
    by (apply pool_started; [done|cbn; rewrite Efd; done|cbn; by rewrite Eapp|cbn; by rewrite Est]).
  set (s8 := set_sv_pool true (answered_start n s7)) in *. cbv zeta. apply wp_bind.
  eapply (wp_mono _ (fun _ s9 => quiet s9 /\ sv_pool s9 = true) _ (fun _ => quiet)); [|done|].
  - intros bad s9 [Hs9 Hp9]. destruct bad; [by apply wp_raise|by apply start_accept_spec].
  - destruct (_ && _); [|by apply wp_ret]. apply wp_bind. apply wp_call_idle; [apply Hs8| |].
    + intros b w. apply wp_ret. split; [|done]. split; [apply sv_inv_world, Hs8|apply Hs8].
    + intros e w. split; [apply sv_inv_world, Hs8|apply Hs8].
Qed.
Lemma start_spec passes s : whole s -> wp (start env passes) (fun _ => whole) (fun _ => whole) s.
Proof.
  intros Hi. unfold start. apply wp_bind, wp_state. case_bool_decide as Hn; [|by apply wp_raise]. cbn [negb].
  assert (fresh s) as Hs.
  { pose proof (lo_new _ _ _ _ (i_life _ _ _ Hi) Hn) as Hp. split; [|by split_and!]. split; [done|]. by apply (i_pool _ _ _ Hi). }
  apply wp_bind. eapply wp_mono; [| |apply (proj2 (proj2 (lasting_life _ (fun fr h n => keeps_start (fresh:=fr) h n)))); exact Hs].
  2:{ intros e s1 [[Hi1 _] _]. done. }
  intros u s1 Hs1. apply wp_try. eapply wp_mono; [| |by apply start_steps_spec]; [done|]. intros e s2 Hs2. cbv beta. apply wp_bind.
  eapply wp_mono; [| |apply (proj1 (proj2 (lasting_life _ (fun fr h n => keeps_fail (fresh:=fr) h n _)))); exact Hs2]; [|by intros x s3 [Hi3 _]].
  intros u3 s3 Hs3. apply wp_bind. eapply wp_mono; [| |by apply rollback_spec]; [|done]. intros [c|] s4 Hi4; by apply wp_raise.
Qed.

(** *** Reload and the control loop *)

Lemma steady_whole {A} (m : S A) : steady m -> keeps whole m.
Proof. intros Hm s Hs. eapply wp_mono; [| |apply (Hm [] 0); [lia|exact Hs]]; by intros ? s' [? _]. Qed.
Lemma lasting_whole {A} (m : S A) : lasting m -> keeps whole m.
Proof. by intros [? _]. Qed.
Lemma reload_whole c : keeps whole (reload env c).
Proof.
  unfold reload. apply keeps_bind; [by intros s|]. intros s0. destruct (negb _); [auto|]. destruct (listeners c) as [|listener [|? ?]]; [auto| |auto].
  destruct (negb _); [auto|]. destruct (_ || _); [auto|]. destruct (negb _); [auto|]. apply keeps_bind.
  - destruct (e_tls env); [|auto]. destruct (lc_tls_config listener) as [tls|]; [|auto]. destruct (negb _); [auto|].
    apply keeps_bind; [apply steady_whole, steady_accept_call|]. intros r. apply keeps_bind; [|auto].
    apply lasting_whole, lasting_life. intros. apply keeps_metric_add. by intros [=].
  - intros rs. apply keeps_bind; [apply lasting_whole, lasting_lifecycle; intros; apply keeps_publish|]. intros g s Hs.
    apply wp_bind. unfold upd at 1. apply wp_modify, wp_bind. unfold upd. apply wp_modify, wp_ret. by eapply sv_inv_same.
Qed.
Lemma reload_request_whole : keeps whole (on_reload_request env).
Proof.
  unfold on_reload_request. apply keeps_bind; [apply lasting_whole, lasting_life; intros; apply keeps_metric_add; by intros [=]|]. intros _.
  destruct (e_reload_factory env) as [f|]; [|auto]. apply keeps_bind; [by intros s|]. intros s0.
  apply keeps_bind; [apply lasting_whole, lasting_call|]. intros [c|]; [|auto]. apply keeps_bind; [apply reload_whole|auto].
Qed.
Lemma reap_whole : keeps whole (reap_connection_owners env).
Proof. intros s Hs. eapply wp_mono; [| |by apply reap_spec]; [|done]. by intros r s' [? _]. Qed.
Lemma shutdown_whole passes : keeps whole (shutdown_all env passes).
Proof. intros s Hs. eapply wp_mono; [| |by apply shutdown_all_spec]; [|done]. by intros r s' [? _]. Qed.
Lemma control_pass_whole : keeps whole (control_pass env).
Proof.
  unfold control_pass. apply keeps_bind; [apply reap_whole|]. intros [b [e|]]; [auto|]. apply keeps_bind; [by intros s|]. intros s0.
  apply keeps_bind; [apply lasting_whole; lasts|]. intros p.
  apply keeps_bind; [destruct (match p with Some _ => _ | None => _ end); [apply reload_request_whole|auto]|]. intros _.
  apply keeps_bind; [apply lasting_whole; lasts|]. intros _. apply keeps_bind; [apply lasting_whole; lasts|]. intros _.
  apply keeps_bind; [apply lasting_whole; lasts|]. intros []; [auto|]. apply lasting_whole. lasts.
Qed.
Lemma control_loop_whole turns : keeps whole (control_loop env turns).
Proof.
  induction turns as [|n IH]; [apply keeps_raise|]. cbn [control_loop]. apply keeps_bind; [by intros s|]. intros s0. destruct (negb _); [auto|].
  apply keeps_bind; [apply control_pass_whole|]. intros []; auto.
Qed.
Lemma start_whole passes : keeps whole (start env passes).
Proof. intros s Hs. by apply start_spec. Qed.
Lemma run_whole turns passes : keeps whole (run env turns passes).
Proof.
  unfold run. apply keeps_bind; [apply start_whole|]. intros _. apply keeps_bind; [apply keeps_attempt, control_loop_whole|]. intros e.
  apply keeps_bind; [apply shutdown_whole|]. intros c. apply keeps_bind; [by intros s|]. intros s0. cbv zeta.
  apply keeps_bind; [destruct (_ || _); auto|]. intros _. apply keeps_bind; [auto|]. intros _. apply keeps_bind; [auto|]. intros _.
  apply lasting_whole. lasts.
Qed.
Lemma attach_tls_keeps given (make : listener_config TlsConfig -> M W (TlsProviderInfo * R)) close listener (f : Prop) h n :
  keeps (life_of (fresh:=f) h n) (attach_tls given make close listener).
Proof.
  unfold attach_tls. destruct (empty _); [auto|]. destruct (lc_tls_config listener) as [tls|]; [|auto]. destruct (negb _); [auto|].
  destruct (_ && _); [auto|]. apply keeps_bind; [apply keeps_callback|]. intros [info active]. destruct (negb _).
  - apply keeps_bind; [apply keeps_callback|auto].
  - apply keeps_bind; [auto|]. intros t. apply keeps_attach.
Qed.
Lemma init_whole given make close port carriers config control w s w' :
  init given make close port carriers config control w = (Ok s, w') -> whole s.
Proof.
  unfold init. destruct (_ || _); [done|]. destruct (_ || _); [done|]. destruct (listeners config) as [|listener [|? ?]]; [done| |done].
  destruct (negb _); [done|]. destruct (_ >? _); [done|]. cbv zeta.
  pose proof (attach_tls_keeps given make close listener True [] 0 (Lifecycle.init config (gc_admission config), w)) as Hk. unfold wp in Hk.
  destruct (attach_tls _ _ _ _ _) as [[u|e] [l w1]]; cbn [rmap]; [|done]. intros [= <- _]. cbn in Hk.
  assert (life_ok True [] 0 l) as Hl by (by apply Hk, life_ok_init). split; cbn; try done.
  - eapply life_ok_weaken; [|exact Hl]. done.
  - by split; [apply NoDup_nil|].
  - apply ledger_new.
Qed.
End inv.
End ServerInv.
