(* ===== verification/ServerSystem.v ===== *)
(** * Runs of the server

    Calls of its methods in any order, with the turns of the accept owner and of ending
    connections in between and inside, and whatever is outside: the theorems on all reachable
    states, and a run from startup to shutdown. *)

From S2P Require Import Prelude PyStr Models Config Lifecycle Control Tls TlsGeneration Connection Server SocketNative ServerSpec.
#[local] Open Scope Z_scope.

Module ServerRuns.
Import GatewayServer.
Section runs.
Context {R W : Type} `{ResourceOps R W} `{ControlAbi W}.
Context (env : server_env R W).
Context (given_registry : bool) (make_manager : listener_config TlsConfig -> M W (TlsProviderInfo * R)) (close_manager : M W unit).
Abbreviation server := (server R W).

Inductive server_call :=
| Start (passes : nat)
| Run (turns passes : nat)
| ControlPass
| RequestStop
| Reload (config : GATEWAY_CONFIG)
| Shutdown (passes : nat).
Definition run_call (k : server_call) : M server unit :=
  match k with
  | Start passes => start env passes
  | Run turns passes => let! _ := run env turns passes in ret tt
  | ControlPass => let! _ := control_pass env in ret tt
  | RequestStop => request_stop env
  | Reload config => let! _ := reload env config in ret tt
  | Shutdown passes => let! _ := shutdown_all env passes in ret tt
  end.
(** [App.run]: a server of its own, run to its end. *)
Definition app_run (turns passes : nat) (port carriers : Z) (config : GATEWAY_CONFIG) (control : process_control) : M W Z := fun w =>
  match init given_registry make_manager close_manager port carriers config control w with
  | (Ok s, _) => let '(r, s) := run env turns passes s in (r, sv_world s)
  | (Raise e, w) => (Raise e, w)
  end.
(** What running connections do to the lifecycle: its other gauges and counters. *)
Definition beside (l l' : lifecycle GATEWAY_CONFIG R) : Prop :=
  generations l' = generations l /\ l_state l' = l_state l /\
  metrics l' !! py "connections_active" = metrics l !! py "connections_active" /\
  Forall (fun k => is_Some (metrics l' !! k)) GatewayMetrics.NAMES.

Inductive reached : server -> Prop :=
| reached_new port carriers config control w s w' :
    init given_registry make_manager close_manager port carriers config control w = (Ok s, w') -> reached s
| reached_call k s : reached s -> reached (snd (run_call k s))
| reached_turn t s : reached s -> reached (run_turn env s t)
| reached_beside l w s : reached s -> beside (sv_life s) l -> reached (set_sv_life l (set_sv_world w s)).

Lemma runs_inv s : reached s -> ServerInv.inv [] 0 s.
Proof.
  intros Hr. induction Hr as [port carriers config control w s w' E|k s Hr IH|t s Hr IH|l w s Hr IH (Eg & Es & Ea & Hn)].
  - by eapply ServerInv.init_whole.
  - assert (keeps (ServerInv.inv [] 0) (run_call k)) as Hk.
    { destruct k; cbn [run_call]; repeat (apply keeps_bind; [|intros; apply keeps_ret]);
        [apply ServerInv.start_whole|apply ServerInv.run_whole|apply ServerInv.control_pass_whole
        |apply ServerInv.lasting_whole, ServerInv.lasting_request_stop|apply ServerInv.reload_whole|apply ServerInv.shutdown_whole]. }
    specialize (Hk s IH). unfold wp in Hk. by destruct (run_call k s) as [[?|?] ?].
  - by apply ServerInv.run_turn_spec.
  - destruct IH as [[La Ln Lr Lf Lh] Hc Hp Ho Hh]. split; try done. split; cbn; rewrite ?Eg, ?Es, ?Ea; done.
Qed.

Lemma holders_count g (s : server) : holds_of g (ServerInv.holders s) = count (fun c => bool_decide (ServerInv.generation_of s c = g)) (sv_connections s).
Proof. unfold ServerInv.holders. induction (sv_connections s) as [|c cs IH]; [done|]. cbn. by rewrite <- IH. Qed.

(** C10: the server accounts for its connections.  Whatever the transport, the scheduler, the
    application, the resolver and TLS do and raise, and however the accept owner and ending
    connections interleave with the control thread's calls: a connection is published once,
    as many connections are admitted as are published, and each generation is referenced
    exactly once per published connection of it and once more until it is retired. *)
Theorem connections_admitted s : reached s ->
  NoDup (sv_connections s) /\
  metrics (sv_life s) !! py "connections_active" = Some (len (sv_connections s)) /\
  forall g x, generations (sv_life s) !! g = Some x ->
    g_references x = count (fun c => bool_decide (ServerInv.generation_of s c = g)) (sv_connections s) + Z.b2z (negb (g_retired x)) /\
    g_released x = bool_decide (g_references x = 0).
Proof.
  intros Hr%runs_inv. destruct Hr as [[La Ln Lr Lf Lh] [Hc _] _ _ _]. cbn [app] in *. split_and!; [done|exact La|].
  intros g x Hx. destruct (Lr g x Hx) as [E1 E2]. by rewrite <- holders_count.
Qed.

(** C11: nothing is ended under its users.  The history of a run holds the threads that were
    started with the handles they got, each outcome that the scheduler answered for a handle,
    what it answered when carriers were started and stopped, and what was ended.  In every
    run, whatever was ended: before it, the scheduler had answered an outcome for each thread
    that was started - the accept owner's and those of the connections - that settles it
    (returned, raised or cancelled; for the accept owner alone also one that is not known:
    the code gives it up then), no connection was published, and, but for the carriers
    themselves, carriers that had been started had answered that they stopped.  Without a pool
    no thread is waited for, no carrier is up and no connection is left. *)
Theorem teardown_ordered s : reached s ->
  (forall before e connections after, sv_history s = before ++ Ended e connections :: after ->
    awaited before = [] /\ connections = [] /\ (e = StopCarriers \/ carriers_up before = false)) /\
  (sv_pool s = false -> awaited (sv_history s) = [] /\ carriers_up (sv_history s) = false /\
    sv_accept s = None /\ sv_connections s = [] /\ sv_owners s = []).
Proof.
  intros Hr%runs_inv. split; [exact (lg_orderly _ _ _ _ _ (ServerInv.i_ledger _ _ _ Hr))|].
  intros Hp. pose proof (ServerInv.i_pool _ _ _ Hr Hp) as Ho. split; [by apply ServerInv.quiet_nothing|]. split; [|exact Ho].
  by apply (ServerInv.ended_down false false false).
Qed.

(** Everything has ended, no thread is waited for and no carrier is up, and no connection is
    counted and no generation referenced but by the lifecycle itself. *)
Definition all_ended (s : server) : Prop :=
  awaited (sv_history s) = [] /\ carriers_up (sv_history s) = false /\
  sv_accept s = None /\ sv_connections s = [] /\ sv_owners s = [] /\ sv_pool s = false /\ sv_fd s < 0 /\
  sv_app s = false /\ sv_control_installed s = false /\ metrics (sv_life s) !! py "connections_active" = Some 0 /\
  forall g x, generations (sv_life s) !! g = Some x -> g_references x = Z.b2z (negb (g_retired x)).
Lemma shutdown_complete passes s : reached s -> fst (shutdown_all env passes s) = Ok None -> all_ended (snd (shutdown_all env passes s)).
Proof.
  intros Hr%runs_inv E. pose proof (ServerInv.shutdown_all_spec env passes s Hr) as Hw. unfold wp in Hw.
  destruct (shutdown_all env passes s) as [[o|e] s']; cbn in E; [|done]. injection E as ->. destruct Hw as [_ Hs]. cbn.
  pose proof (Hs eq_refl) as Hq. pose proof (ServerInv.quiet_nothing _ (proj1 Hq)) as Hn. pose proof (ServerInv.ended_down _ _ _ _ Hq) as Hd.
  destruct Hq as [[[[La Ln Lr Lf Lh] _ _ _ _] (Ea & Ec & Eo)] (Ep & Hf & Happ & Hctl)]. unfold ServerInv.holders in *.
  rewrite Ec in *. cbn in *. unfold all_ended. split_and!; auto. intros g x Hx. by destruct (Lr g x Hx) as [-> _].
Qed.
End runs.
End ServerRuns.

(** ** A run *)

Module ServerRun.
Import GatewayServer ServerRuns.
(** A process's signal handlers, and its clock. *)
Definition process : Type := host_model * Z.
Definition with_host {A} (m : M host_model A) : M process A := zoom fst (fun h w => (h, snd w)) m.
#[global] Instance process_abi : ControlAbi process :=
  Build_ControlAbi process Control.ABI_VERSION Control.ABI_NAME [] (with_host abi_install) (fun o => with_host (abi_poll o)) (fun o => with_host (abi_uninstall o)).
#[global] Instance no_resources : ResourceOps Z process := {| res_retain := ret; res_release := fun _ => ret tt |}.
Definition answers {A} (a : A) : outside process A := fun w => ([], (Ok a, w)).
(** One client connects; its connection ends while the control thread pauses, and by then
    its thread is over, as is the accept owner's. *)
Definition env_of (accept : Z -> outside process (Z * Z * str)) (outcome : thread_outcome) (error : option exn) : server_env Z process := {|
  e_now_ms := fun w => ([], (Ok (snd w), w)); e_listen := fun _ _ _ _ => answers 3; e_accept := accept;
  e_close := fun _ => answers tt; e_wait := fun _ _ => answers tt; e_idle_wait := fun d w => ([Finished 0], (Ok tt, (fst w, snd w + Z.max d 0)));
  e_native_scheduler := true; e_io_backend := answers 2; e_start_carriers := answers; e_stop_carriers := answers (Some 0);
  e_spawn_accept := answers 100; e_spawn_connection := fun c => answers (101 + Z.of_nat c); e_cancel := fun _ => answers tt;
  e_outcome := fun _ => answers outcome; e_result := fun _ => answers tt; e_exception := fun _ => answers error;
  e_startup := answers tt; e_shutdown := answers tt; e_prepare_resolver := answers tt; e_fork_resolver := answers tt;
  e_tls := false; e_new_channel := fun _ _ => answers 0; e_close_channel := fun _ => answers tt; e_reload_tls := fun _ => answers 0;
  e_close_tls := answers tt; e_construct := fun _ _ _ _ _ => answers tt; e_connection_close := fun _ _ => answers tt;
  e_connection_closed := fun _ => answers false; e_signal_shutdown := fun _ _ => answers tt; e_close_idle := [answers tt];
  e_reload_factory := None |}.
Definition env := env_of (fun _ => answers (PCC_SOCKET_PROGRESS, 7, py "10.0.0.1")) OutcomeReturned None.
Definition config : GATEWAY_CONFIG :=
  GatewayConfig [ListenerConfig (py "0.0.0.0") 8080 128 false [] None [] [] 0] 2 (Http1Limits 8192 65536 128 1048576 65536 10000 30000 60000)
    (BufferLimits 16384 16384 65536 262144) (AdmissionLimits 8 8 8 8 1048576) 20 (py "auto") 100 10000 10 10 10000 1000 true.
Definition no_manager (_ : listener_config TlsConfig) : M process (TlsProviderInfo * Z) := raise (OtherError 0).
Definition fresh_server : server Z process :=
  Server (Lifecycle.init config (gc_admission config)) config (ListenerConfig (py "0.0.0.0") 8080 128 false [] None [] [] 0) 2 (-1) None [] [] []
    false false false (ProcessControl 0 false) (-1) (HostModel.init ∅, 0) [].
Definition serving : server Z process := run_turn env (snd (run_call env (Start 5) fresh_server)) Accepting.
Definition stopped : server Z process := snd (shutdown_all env 21 serving).

Lemma serving_reached : reached env false no_manager (ret tt) serving.
Proof. apply reached_turn, reached_call. by apply (reached_new env false no_manager (ret tt) 8080 2 config (ProcessControl 0 false) (HostModel.init ∅, 0) fresh_server (HostModel.init ∅, 0)). Qed.

(** One connection is served, then everything ends in its order. *)
Example served_then_stopped :
  (l_state (sv_life serving), sv_connections serving, sv_owners serving, sv_accept serving, sv_fd serving)
    = (STATE_RUNNING, [0%nat], [0%nat], Some 100, 3) /\
  fst (shutdown_all env 21 serving) = Ok None /\ l_state (sv_life stopped) = STATE_STOPPED /\
  sv_history stopped = [PoolStarted 2; Started AcceptOwner 100; Started (ConnectionOwner 0) 101; Observed 100 OutcomeReturned;
    Observed 101 OutcomeReturned; Ended StopCarriers []; PoolStopped (Some 0);
    Ended CloseListener []; Ended AppShutdown []].
Proof. vm_compute. done. Qed.

(** An outcome of the accept owner that is not known: it may still run, but it is given up and
    the carriers are stopped. *)
Example unknown_accept_owner_given_up :
  let env := env_of (fun _ => answers (PCC_SOCKET_WOULD_BLOCK, 0, [])) (OutcomeUnknown 9) None in
  let s := snd (shutdown_all env 21 (snd (run_call env (Start 5) fresh_server))) in
  sv_accept s = None /\ sv_history s = [PoolStarted 2; Started AcceptOwner 100; Observed 100 (OutcomeUnknown 9); Ended StopCarriers [];
    PoolStopped (Some 0); Ended CloseListener []; Ended AppShutdown []].
Proof. vm_compute. done. Qed.

(** A peer that resets its connection before it is asked for its name: the descriptor is closed,
    but the accept owner takes that for a failure of the listener and raises, and the control
    loop fails the whole server. *)
Definition reset_peer : SocketPlatform process := {|
  ps_listen := fun _ _ _ _ w => (3, w); ps_accept := fun _ w => ((PCC_SOCKET_PROGRESS, 7), w); ps_peer_text := fun _ _ w => ((-107, []), w);
  ps_connect_start := fun _ _ w => ((-1, -1), w); ps_connect_observe := fun _ _ w => (-1, w); ps_read_observe := fun _ _ _ w => ((-1, 0, []), w);
  ps_write_observe := fun _ _ _ _ w => ((-1, 0), w); ps_shutdown := fun _ _ w => (0, w); ps_close := fun _ w => (0, w);
  ps_monotonic_us := fun w => (snd w, w); ps_sleep_ns := fun _ w => (0, w); ps_str_new := Some |}.
Definition reset_env := env_of (fun fd w => ([], @NativeSocketTransport.accept process reset_peer fd w)) OutcomeRaised
  (Some (GatewayTransportError (py "socket accept observation failed"))).
Example reset_peer_ends_server :
  let s := snd (run_call reset_env (Start 5) fresh_server) in
  l_state (sv_life s) = STATE_RUNNING /\
  fst (accept_entry reset_env 1 3 s) = Raise (GatewayTransportError (py "socket accept observation failed")) /\
  l_state (sv_life (snd (control_pass reset_env s))) = STATE_FAILED.
Proof. vm_compute. done. Qed.

Lemma connections_admitted_witness : reached env false no_manager (ret tt) serving /\
  NoDup (sv_connections serving) /\ metrics (sv_life serving) !! py "connections_active" = Some (len (sv_connections serving)).
Proof.
  split; [exact serving_reached|]. destruct (connections_admitted env false no_manager (ret tt) serving serving_reached) as (Hn & Ha & _).
  split; [exact Hn|exact Ha].
Defined.
Lemma teardown_ordered_witness : reached env false no_manager (ret tt) (snd (run_call env (Shutdown 21) serving)) /\
  (sv_pool (snd (run_call env (Shutdown 21) serving)) = false -> awaited (sv_history (snd (run_call env (Shutdown 21) serving))) = []).
Proof.
  pose proof (reached_call env false no_manager (ret tt) (Shutdown 21) serving serving_reached) as Hr. split; [exact Hr|].
  destruct (teardown_ordered env false no_manager (ret tt) _ Hr) as [_ Hp]. intros E. exact (proj1 (Hp E)).
Defined.
End ServerRun.
