(* ===== verification/ServerClock.v ===== *)
(** * The shutdown of the server ends

    The two waits of a shutdown, for the accept owner and for the connections, poll a clock
    against a deadline.  When outside code does not turn the clock back and a pause moves it
    on, as many passes as the drain timeout has milliseconds, and one, are enough: more change
    nothing, and the shutdown returns. *)

From S2P Require Import Prelude PyStr Models Config Lifecycle Control Tls TlsGeneration Connection Server ServerSpec ServerSystem.
#[local] Open Scope Z_scope.

Module ServerClock.
Import GatewayServer.
Section clock.
Context {R W : Type} `{ResourceOps R W} `{ControlAbi W}.
Context (env : server_env R W) (clock : W -> Z).
Abbreviation server := (server R W).
Abbreviation S := (M server).
Implicit Types s : server.

Definition later {A} (m : outside W A) : Prop := forall w, clock w <= clock (snd (snd (m w))).
(** A reading of the clock is between what it showed before and shows after. *)
Record on_time : Prop := {
  ot_now : later (e_now_ms env);
  ot_reading : forall w n, fst (snd (e_now_ms env w)) = Ok n -> clock w <= n <= clock (snd (snd (e_now_ms env w)));
  ot_idle : forall d, later (e_idle_wait env d);
  ot_pause : forall d w, 0 < d -> fst (snd (e_idle_wait env d w)) = Ok tt -> clock w < clock (snd (snd (e_idle_wait env d w)));
  ot_resource : forall r w, clock w <= clock (snd (res_release r w));
  ot_accept : forall fd, later (e_accept env fd);
  ot_close : forall fd, later (e_close env fd);
  ot_cancel : forall h, later (e_cancel env h);
  ot_outcome : forall h, later (e_outcome env h);
  ot_result : forall h, later (e_result env h);
  ot_exception : forall h, later (e_exception env h);
  ot_fork : later (e_fork_resolver env);
  ot_channel : forall fd r, later (e_new_channel env fd r);
  ot_close_channel : forall h, later (e_close_channel env h);
  ot_construct : forall c fd g h ip, later (e_construct env c fd g h ip);
  ot_spawn : forall c, later (e_spawn_connection env c);
  ot_connection_close : forall c r, later (e_connection_close env c r);
  ot_connection_closed : forall c, later (e_connection_closed env c);
  ot_signal : forall c r, later (e_signal_shutdown env c r);
}.
Context (Htime : on_time).

(** The clock shows [t] or later, and the configuration is [c]. *)
Definition since (t : Z) (c : GATEWAY_CONFIG) s : Prop := t <= clock (sv_world s) /\ sv_config s = c.
Abbreviation goes := (fun m => forall t c, keeps (since t c) m).

(** ** Everything that runs during a wait *)

Lemma goes_life {A} (m : M (lifecycle GATEWAY_CONFIG R) A) : goes (life m).
Proof. intros t c. by apply keeps_zoom. Qed.
Lemma goes_upd (f : server -> server) : (forall s, sv_world (f s) = sv_world s /\ sv_config (f s) = sv_config s) -> goes (upd f).
Proof. intros Hf t c s [Ht Hc]. unfold upd. apply wp_modify. destruct (Hf s) as [E1 E2]. unfold since. by rewrite E1, E2. Qed.
Lemma release_each_later rs : forall e t, keeps (fun w => t <= clock w) (release_each rs e).
Proof.
  induction rs as [|r rs IH]; intros e t; cbn [release_each]; [auto|]. apply keeps_bind; [|auto]. apply keeps_try; [|auto].
  apply keeps_bind; [|auto]. intros w Hw. pose proof (ot_resource Htime r w) as Hr. unfold wp. destruct (res_release r w) as [[?|?] w']; cbn in Hr; lia.
Qed.
Lemma goes_release g : goes (let! _ := on_lifecycle (release g) in ret tt).
Proof.
  intros t c. apply keeps_bind; [|auto]. intros s [Ht Hc]. unfold on_lifecycle. apply wp_zoom.
  assert (keeps (fun x : lifecycle GATEWAY_CONFIG R * W => t <= clock (snd x)) (release g)) as Hk.
  { unfold release. apply keeps_bind; [by apply keeps_zoom|]. intros rs x Hx. unfold callback. apply wp_zoom.
    unfold release_resources. destruct rs as [rs|]; [|by apply wp_ret]. apply wp_bind.
    eapply wp_mono; [| |by apply release_each_later]; [|done]. intros e w Hw. destruct e; [by apply wp_raise|by apply wp_ret]. }
  eapply wp_mono; [| |exact (Hk (sv_life s, sv_world s) Ht)]; intros ? x Hx; by split.
Qed.

Create HintDb pace.
Hint Resolve goes_release goes_life : pace.
Ltac pace := repeat lazymatch goal with
  | |- keeps _ (bind _ _) => first [solve [eauto with pace nocore]|apply keeps_bind; [|intros ?]]
  | |- keeps _ (try_except _ _) => apply keeps_try; [|intros ?]
  | |- keeps _ (attempt_result _) => unfold attempt_result
  | |- keeps _ (attempt _) => apply keeps_attempt
  | |- keeps _ (attempt_all _) => apply keeps_attempt_all; repeat apply Forall_cons_2; [..|apply Forall_nil_2]
  | |- keeps _ (upd _) => apply goes_upd; by intros []
  | |- keeps _ (state_is _) => by intros ?
  | |- keeps _ self => by intros ?
  | |- keeps _ (if ?b then _ else _) => destruct b
  | |- keeps _ (match ?x with _ => _ end) => destruct x
  | |- keeps _ _ => solve [eauto with pace nocore|auto]
  end.
Lemma goes_get_served i : goes (get_served i).
Proof. intros t c s Hs. unfold wp, get_served. by destruct (_ !! _). Qed.
Lemma goes_set_thread i h : goes (set_thread i h).
Proof. unfold set_thread. intros t c. apply goes_upd. intros s. by destruct (_ !! _). Qed.
Lemma goes_unlist i : goes (unlist i).
Proof. intros t c. unfold unlist. pace. Qed.
Hint Resolve goes_get_served goes_set_thread goes_unlist : pace.
Lemma goes_finished i : goes (connection_finished i).
Proof. intros t c. unfold connection_finished. pace. Qed.
Lemma since_finishing x t c s : since t c s -> since t c (finishing x s).
Proof.
  intros Hs. destruct x as [i|]; [|done]. cbn. unfold finish. pose proof (goes_finished i t c s Hs) as Hw. unfold wp in Hw.
  by destruct (connection_finished i s) as [[?|?] ?].
Qed.
Lemma since_all (f : server -> turn -> server) (Hf : forall x t c s, since t c s -> since t c (f s x)) ts : forall t c s,
  since t c s -> since t c (fold_left f ts s).
Proof. induction ts as [|x ts IH]; intros t c s Hs; [done|]. cbn. apply IH. by apply Hf. Qed.
Lemma goes_accept_call {A} (m : outside W A) : later m -> goes (accept_call m).
Proof.
  intros Hm t c s [Ht Hc]. unfold wp, accept_call. specialize (Hm (sv_world s)). destruct (m (sv_world s)) as [ts [r w]]. cbn in Hm.
  assert (since t c (fold_left (fun s x => finishing x s) ts (set_sv_world w s))) as Hs.
  { apply since_all; [intros; by apply since_finishing|]. split; [cbn; lia|done]. }
  by destruct r.
Qed.
Hint Resolve goes_accept_call : pace.
Hint Resolve ot_now ot_idle ot_accept ot_close ot_cancel ot_outcome ot_result ot_exception ot_fork ot_channel ot_close_channel
  ot_construct ot_spawn ot_connection_close ot_connection_closed ot_signal Htime : pace.
Lemma goes_spawn_call i : goes (spawn_call i (e_spawn_connection env i)).
Proof.
  intros t c. unfold spawn_call. apply goes_accept_call. intros w. pose proof (ot_spawn Htime i w) as Hl.
  by destruct (e_spawn_connection env i w) as [ts [[?|?] ?]].
Qed.
Hint Resolve goes_spawn_call : pace.
Lemma goes_discard {h g fd e} : goes (discard_accepted env h g fd e).
Proof. intros t c. unfold discard_accepted. pace. Qed.
Lemma goes_tls_channel g fd : goes (tls_channel env g fd).
Proof. intros t c. unfold tls_channel. pace. Qed.
Hint Resolve goes_discard goes_tls_channel : pace.
Lemma goes_accept_once fd : goes (accept_once env fd).
Proof. intros t c. unfold accept_once, construct, spawn, note. cbv zeta. pace. Qed.
Lemma since_turn x t c s : since t c s -> since t c (run_turn env s x).
Proof.
  intros Hs. destruct x as [i|]; cbn [run_turn]; [by apply (since_finishing (Finished i))|]. destruct (sv_accept s); [|done].
  pose proof (goes_accept_once (sv_fd s) t c s Hs) as Hw. unfold wp in Hw. by destruct (accept_once env (sv_fd s) s) as [[?|?] ?].
Qed.
Lemma goes_call {A} (m : outside W A) : later m -> goes (call env m).
Proof.
  intros Hm t c s [Ht Hc]. unfold wp, call. specialize (Hm (sv_world s)). destruct (m (sv_world s)) as [ts [r w]]. cbn in Hm.
  assert (since t c (fold_left (run_turn env) ts (set_sv_world w s))) as Hs.
  { apply since_all; [intros; by apply since_turn|]. split; [cbn; lia|done]. }
  by destruct r.
Qed.
Hint Resolve goes_call : pace.

Lemma goes_outcome h : goes (outcome_of env h).
Proof. intros t c. unfold outcome_of, note. pace. Qed.
Hint Resolve goes_outcome : pace.
Lemma goes_terminal cs : forall e, goes (terminal_owners env cs e).
Proof. induction cs as [|i cs IH]; intros e t c; cbn [terminal_owners]; pace. Qed.
Hint Resolve goes_terminal : pace.
Lemma retire_owner_world i s : sv_world (retire_owner s i) = sv_world s /\ sv_config (retire_owner s i) = sv_config s.
Proof. unfold retire_owner, set_thread, upd, modify. destruct (bool_decide _); [|done]. cbn. by destruct (_ !! _). Qed.
Lemma goes_reap : goes (reap_connection_owners env).
Proof.
  intros t c. unfold reap_connection_owners. apply keeps_bind; [by intros s|]. intros s0. apply keeps_bind; [pace|]. intros [terminal e].
  apply keeps_bind; [|intros _; pace]. apply goes_upd. induction terminal as [|i l IH]; intros s; [done|]. cbn.
  destruct (IH (retire_owner s i)) as [-> ->]. apply retire_owner_world.
Qed.
Lemma goes_signal cs : goes (signal_all env cs).
Proof. induction cs as [|i cs IH]; intros t c; cbn [signal_all]; pace. Qed.
Hint Resolve goes_signal goes_reap : pace.

Lemma goes_force : goes (force_close_connections env).
Proof. intros t c. unfold force_close_connections. pace. Qed.
Lemma goes_retire_accept h o f : goes (retire_accept env h o f).
Proof. intros t c. unfold retire_accept. pace. Qed.
Lemma goes_failed f : goes (failed_with f).
Proof. intros t c. unfold failed_with, record_accept_shutdown_failure. pace. Qed.

(** ** The clock in the waits *)

Lemma now_spec t c s : since t c s -> wp (now_ms env) (fun n s' => t <= n /\ since n c s') (fun _ => since t c) s.
Proof.
  intros [Ht Hc]. unfold wp, now_ms, call. pose proof (ot_now Htime (sv_world s)) as Hl. pose proof (ot_reading Htime (sv_world s)) as Hr.
  destruct (e_now_ms env (sv_world s)) as [ts [[n|e] w]]; cbn in Hl, Hr.
  - specialize (Hr n eq_refl). split; [lia|]. apply since_all; [intros; by apply since_turn|]. split; [cbn; lia|done].
  - apply since_all; [intros; by apply since_turn|]. split; [cbn; lia|done].
Qed.
Lemma pause_spec deadline n c s : since n c s -> n < deadline -> 0 < control_poll_ms c ->
  wp (pause env deadline n) (fun _ => since (n + 1) c) (fun _ => since n c) s.
Proof.
  intros [Ht Hc] Hn Hp. unfold pause. apply wp_bind. unfold wp at 1, self, get. cbv zeta. unfold wp, call. rewrite Hc.
  set (d := if control_poll_ms c >? deadline - n then deadline - n else control_poll_ms c).
  assert (0 < d) as Hd by (unfold d; destruct (control_poll_ms c >? deadline - n); lia).
  pose proof (ot_idle Htime d (sv_world s)) as Hl. pose proof (ot_pause Htime d (sv_world s) Hd) as Hr.
  destruct (e_idle_wait env d (sv_world s)) as [ts [[[]|e] w]]; cbn in Hl, Hr; (apply since_all; [intros; by apply since_turn|]); (split; [cbn|done]).
  - specialize (Hr eq_refl). lia.
  - lia.
Qed.

(** Equal from where the first call ends: equal. *)
Lemma bind_agree {A B} (m : S A) (k k' : A -> S B) s (Q : A -> server -> Prop) E :
  wp m Q E s -> (forall a s', Q a s' -> k a s' = k' a s') -> bind m k s = bind m k' s.
Proof. unfold wp, bind. destruct (m s) as [[a|e] s']; [intros HQ Hk; by apply Hk|done]. Qed.

Lemma observe_enough h deadline c : 0 < control_poll_ms c -> forall n m t f s, since t c s -> (0 < n)%nat -> (0 < m)%nat ->
  deadline - t < Z.of_nat n -> deadline - t < Z.of_nat m -> observe_accept env n h deadline f s = observe_accept env m h deadline f s.
Proof.
  intros Hp. induction n as [|n IH]; intros [|m] t f s Hs Hn Hm Hdn Hdm; try lia. cbn [observe_accept].
  eapply bind_agree; [assert (goes (attempt_result (outcome_of env h))) as Hk by (intros t' c'; pace); by apply Hk|].
  intros o s1 Hs1. cbv beta in Hs1. destruct o as [[| | | |]|]; try done.
  eapply (bind_agree _ _ _ _ (fun r s2 => match r with Ok k => t <= k /\ since k c s2 | Raise _ => True end) (fun _ _ => True)).
  { unfold attempt_result. apply wp_try, wp_bind. eapply wp_mono; [| |by apply now_spec]; intros ? s2 Hs2; by apply wp_ret. }
  intros [k|x] s2 Hs2; [|done]. cbv beta iota in Hs2. destruct Hs2 as [Hk Hs2]. destruct (Z.geb_spec k deadline) as [Hd|Hd]; [done|].
  eapply (bind_agree _ _ _ _ (fun o s3 => match o with None => since (k + 1) c s3 | Some _ => True end) (fun _ _ => True)).
  { apply wp_attempt. eapply wp_mono; [| |by apply (pause_spec deadline k c)]; by intros. }
  intros [x|] s3 Hs3; [done|]. apply (IH m (k + 1)); [done|lia..].
Qed.
Lemma await_enough deadline c : 0 < control_poll_ms c -> forall n m t f s, since t c s -> (0 < n)%nat -> (0 < m)%nat ->
  deadline - t < Z.of_nat n -> deadline - t < Z.of_nat m -> await_loop env n deadline f s = await_loop env m deadline f s.
Proof.
  intros Hp. induction n as [|n IH]; intros [|m] t f s Hs Hn Hm Hdn Hdm; try lia. cbn [await_loop].
  eapply bind_agree; [by apply goes_reap|]. intros [b e] s1 Hs1. cbv beta zeta in *.
  eapply (bind_agree _ _ _ _ (fun _ s' => s' = s1) (fun _ _ => True)); [done|]. intros s' ? ->. destruct (_ && b); [done|].
  eapply bind_agree; [by apply now_spec|]. intros k s2 [Hk Hs2]. destruct (Z.geb_spec k deadline) as [Hd|Hd]; [done|].
  eapply bind_agree; [by apply (pause_spec deadline k c)|]. intros u s3 Hs3. apply (IH m (k + 1)); [done|lia..].
Qed.

(** ** What never raises *)

Definition returns {A} (m : S A) : Prop := forall s, wp m (fun _ _ => True) (fun _ _ => False) s.
Lemma returns_bind {A B} (m : S A) (k : A -> S B) : returns m -> (forall a, returns (k a)) -> returns (bind m k).
Proof. intros Hm Hk s. apply wp_bind. eapply wp_mono; [| |by apply Hm]; [|done]. intros a s' _. apply Hk. Qed.
Lemma returns_attempt (m : S unit) : returns (attempt m).
Proof. intros s. apply wp_attempt. unfold wp. by destruct (m s) as [[?|?] ?]. Qed.
Lemma returns_result {A} (m : S A) : returns (attempt_result m).
Proof. intros s. unfold attempt_result. apply wp_try, wp_bind. unfold wp. by destruct (m s) as [[?|?] ?]. Qed.
Lemma returns_attempt_all (ms : list (S unit)) : returns (attempt_all ms).
Proof.
  induction ms as [|m ms IH]; [done|]. cbn [attempt_all]. apply returns_bind; [apply returns_attempt|]. intros e.
  apply returns_bind; [exact IH|done].
Qed.
Lemma returns_fail reason : returns (life (fail reason)).
Proof. intros s. apply (ServerInv.fail_returns reason (fun _ => True)); [|done]. intros s' _. unfold wp. by destruct (life _ _) as [[?|?] ?]. Qed.
Ltac returning := repeat lazymatch goal with
  | |- returns (bind _ _) => apply returns_bind; [|intros ?]
  | |- returns (attempt _) => apply returns_attempt
  | |- returns (attempt_result _) => apply returns_result
  | |- returns (attempt_all _) => apply returns_attempt_all
  | |- returns (life (fail _)) => apply returns_fail
  | |- returns (if ?b then _ else _) => destruct b
  | |- returns (match ?x with _ => _ end) => destruct x
  | |- returns _ => done
  end.
Lemma retire_accept_returns h o f : returns (retire_accept env h o f).
Proof. unfold retire_accept. returning. Qed.
Lemma failed_with_returns f : returns (failed_with f).
Proof. unfold failed_with, record_accept_shutdown_failure. returning. Qed.
Lemma settle_returns passes e : returns (settle_owners env passes e).
Proof. unfold settle_owners. cbv zeta. returning. Qed.
Lemma release_all_returns e : returns (release_all env e).
Proof. unfold release_all, then_all. returning. Qed.

(** ** Enough passes *)

Definition enough (c : GATEWAY_CONFIG) : nat := Datatypes.S (Z.to_nat (drain_timeout_ms c)).
Lemma read_now t c s : since t c s ->
  wp (attempt_result (now_ms env)) (fun r s' => match r with Ok n => t <= n /\ since n c s' | Raise _ => since t c s' end) (fun _ _ => False) s.
Proof. intros Hs. unfold attempt_result. apply wp_try, wp_bind. eapply wp_mono; [| |by apply now_spec]; intros ? s1 Hs1; by apply wp_ret. Qed.
Lemma bind_same {A B} (m m' : S A) (k : A -> S B) s : m s = m' s -> bind m k s = bind m' k s.
Proof. unfold bind. by intros ->. Qed.
(** [m] never raises and goes on with the clock. *)
Lemma goes_returns {A} (m : S A) t c s : goes m -> returns m -> since t c s -> wp m (fun _ => since t c) (fun _ _ => False) s.
Proof. intros Hg Hr Hs. specialize (Hg t c s Hs). specialize (Hr s). unfold wp in *. by destruct (m s) as [[?|?] ?]. Qed.
Lemma observe_returns h deadline c : 0 < control_poll_ms c -> forall n t f s, since t c s -> (0 < n)%nat -> deadline - t < Z.of_nat n ->
  wp (observe_accept env n h deadline f) (fun _ => since t c) (fun _ _ => False) s.
Proof.
  intros Hp. induction n as [|n IH]; intros t f s Hs Hn Hd; [lia|]. cbn [observe_accept]. apply wp_bind.
  eapply (wp_mono _ (fun _ => since t c) _ (fun _ _ => False)); [|done|].
  2:{ unfold attempt_result. apply wp_try, wp_bind. eapply wp_mono; [| |by apply goes_outcome]; intros ? s1 Hs1; by apply wp_ret. }
  intros [[| | | |]|] s1 Hs1; try by apply wp_ret. apply wp_bind.
  eapply wp_mono; [| |by apply (read_now t c)]; [|done]. intros [k|x] s2 Hs2; [|by apply wp_ret]. destruct Hs2 as [Hk Hs2].
  assert (forall k' s3, t <= k' -> since k' c s3 -> since t c s3) as Hmono by (intros k' s3 ? [? ?]; split; [lia|done]).
  destruct (Z.geb_spec k deadline) as [Hkd|Hkd]; [apply wp_ret; by apply (Hmono k)|]. apply wp_bind.
  eapply (wp_mono _ (fun o s3 => match o with None => since (k + 1) c s3 | Some _ => since k c s3 end) _ (fun _ _ => False)); [|done|].
  2:{ apply wp_attempt. eapply wp_mono; [| |by apply (pause_spec deadline k c)]; by intros. }
  intros [x|] s3 Hs3; [apply wp_ret; by apply (Hmono k)|]. eapply wp_mono; [| |apply (IH (k + 1)); [done|lia..]]; [|done].
  intros r s4. apply Hmono. lia.
Qed.
Lemma stop_enough passes t s : 0 < control_poll_ms (sv_config s) -> (enough (sv_config s) <= passes)%nat -> since t (sv_config s) s ->
  stop_accept_owner env passes s = stop_accept_owner env (enough (sv_config s)) s /\
  wp (stop_accept_owner env passes) (fun _ => since t (sv_config s)) (fun _ _ => False) s.
Proof.
  intros Hp Hn Hs. set (c := sv_config s) in *. unfold enough in *. unfold stop_accept_owner.
  split.
  - eapply (bind_agree _ _ _ _ (fun a s' => a = s /\ s' = s) (fun _ _ => True)); [done|]. intros ? ? [-> ->].
    destruct (sv_accept s) as [h|]; [|done].
    eapply bind_agree; [assert (goes (attempt (call env (e_cancel env h)))) as Hk by (intros t' c'; pace); by apply Hk|].
    intros x s1 Hs1. cbv zeta. eapply bind_agree; [by apply (read_now t c)|]. intros [k|y] s2 Hs2; [|done]. destruct Hs2 as [Hk Hs2].
    apply bind_same, (observe_enough h _ c Hp _ _ k); [done|fold c; lia..].
  - apply wp_bind. unfold wp at 1, self, get. destruct (sv_accept s) as [h|]; [|by apply wp_ret]. apply wp_bind.
    eapply (wp_mono _ (fun _ => since t c) _ (fun _ _ => False)); [|done|].
    2:{ apply wp_attempt. eapply wp_mono; [| |by apply goes_call; [apply ot_cancel|]]; by intros. }
    intros x s1 Hs1. cbv zeta. apply wp_bind. eapply wp_mono; [| |by apply (read_now t c)]; [|done].
    intros [k|y] s2 Hs2; [|by apply goes_returns; [apply goes_failed|apply failed_with_returns|]]. destruct Hs2 as [Hk Hs2]. fold c.
    assert (since t c s2) as Hs2' by (destruct Hs2; split; [lia|done]). apply wp_bind.
    eapply wp_mono; [| |apply (observe_returns h _ c Hp _ k); [done|lia..]]; [|done]. intros [o f] s3 Hs3. apply wp_bind.
    assert (since t c s3) as Hs3' by (destruct Hs3; split; [lia|done]).
    eapply wp_mono; [| |by apply goes_returns; [apply goes_retire_accept|apply retire_accept_returns|]]; [|done]. intros g s4 Hs4.
    by apply goes_returns; [apply goes_failed|apply failed_with_returns|].
Qed.
Lemma settle_enough passes t s e : 0 < control_poll_ms (sv_config s) -> (enough (sv_config s) <= passes)%nat -> since t (sv_config s) s ->
  settle_owners env passes e s = settle_owners env (enough (sv_config s)) e s.
Proof.
  intros Hp Hn Hs. set (c := sv_config s) in *. unfold enough in *. unfold settle_owners. apply bind_same. unfold attempt_result, try_except.
  match goal with |- (match ?a s with _ => _ end) = (match ?b s with _ => _ end) => assert (a s = b s) as ->; [|done] end.
  apply bind_same. eapply (bind_agree _ _ _ _ (fun a s' => a = s /\ s' = s) (fun _ _ => True)); [done|]. intros ? ? [-> ->].
  eapply (bind_agree _ _ _ _ (fun _ => since t c)); [destruct (bool_decide _); [by apply wp_ret|by apply goes_force]|]. intros u s1 Hs1.
  unfold await_connection_owners. eapply bind_agree; [by apply (now_spec t c)|]. intros k s2 [Hk Hs2].
  eapply (bind_agree _ _ _ _ (fun a s' => a = s2 /\ s' = s2) (fun _ _ => True)); [done|]. intros ? ? [-> ->].
  destruct Hs2 as [Hs2 E]. rewrite E. apply (await_enough _ c Hp _ _ k); [done|lia..].
Qed.

Lemma shutdown_enough passes s : 0 < control_poll_ms (sv_config s) -> (enough (sv_config s) <= passes)%nat ->
  shutdown_all env passes s = shutdown_all env (enough (sv_config s)) s /\ exists o, fst (shutdown_all env passes s) = Ok o.
Proof.
  intros Hp Hn. set (t := clock (sv_world s)). set (c := sv_config s) in *.
  assert (wp (attempt (let! running := state_is STATE_RUNNING in if running then life begin_drain else ret tt))
    (fun _ => since t c) (fun _ _ => False) s) as Hb.
  { apply goes_returns; [intros t' c'; pace|apply returns_attempt|split; [unfold t; lia|done]]. }
  split.
  - unfold shutdown_all. eapply bind_agree; [exact Hb|]. intros e0 s1 Hs1. assert (c = sv_config s1) as Ec by (symmetry; apply Hs1).
    rewrite Ec in *. destruct (stop_enough passes t s1 Hp Hn Hs1) as [Es Hw].
    etransitivity; [|apply bind_same; exact Es]. eapply bind_agree; [exact Hw|]. intros e1 s2 [Ht2 Ec2]. rewrite <- Ec2 in *.
    apply bind_same. by apply (settle_enough passes t).
  - assert (wp (shutdown_all env passes) (fun _ _ => True) (fun _ _ => False) s) as Hw.
    { unfold shutdown_all. apply wp_bind. eapply wp_mono; [| |exact Hb]; [|done]. intros e0 s1 Hs1. assert (c = sv_config s1) as Ec by (symmetry; apply Hs1).
      rewrite Ec in *. apply wp_bind. eapply wp_mono; [| |exact (proj2 (stop_enough passes t s1 Hp Hn Hs1))]; [|done]. intros e1 s2 _.
      match goal with |- wp ?m _ _ _ => assert (returns m) as Hr; [|apply Hr] end.
      apply returns_bind; [apply settle_returns|]. intros [terminal e2]. apply returns_bind; [done|]. intros s3. destruct (_ || _); [done|].
      apply returns_bind; [unfold then_all; returning|]. intros e3. apply returns_bind; [done|]. intros s4.
      destruct (sv_pool s4); [|apply release_all_returns]. apply returns_bind; [apply returns_result|]. intros [[]|x]; [|done|done].
      apply returns_bind; [done|]. intros u. apply release_all_returns. }
    unfold wp in Hw. destruct (shutdown_all env passes s) as [[o|e] s']; [by exists o|done].
Qed.
End clock.

Section theorem.
Context {R W : Type} `{ResourceOps R W} `{ControlAbi W}.
Context (env : server_env R W) (clock : W -> Z).
Context (given_registry : bool) (make_manager : listener_config TlsConfig -> M W (TlsProviderInfo * R)) (close_manager : M W unit).

(** C12: a shutdown ends, and one that reports no error is complete.  If outside code does not
    turn the clock back and each pause moves it on, then from any reachable state, whatever
    outside code raises and however accepting and ending connections interleave, as many
    passes of each wait as the drain timeout has milliseconds, and one, give the result that
    any more give, and the shutdown returns.  When it returns [None], the accept owner and all
    connections are over, the carriers have stopped, the listener is closed, the application
    shut down and the signal handlers restored, no connection is counted and no generation
    referenced but by the lifecycle itself. *)
Theorem shutdown_ends passes s : on_time env clock -> ServerRuns.reached env given_registry make_manager close_manager s ->
  0 < control_poll_ms (sv_config s) -> (enough (sv_config s) <= passes)%nat ->
  shutdown_all env passes s = shutdown_all env (enough (sv_config s)) s /\
  exists o, fst (shutdown_all env passes s) = Ok o /\ (o = None -> ServerRuns.all_ended (snd (shutdown_all env passes s))).
Proof.
  intros Ht Hr Hp Hn. destruct (shutdown_enough env clock Ht passes s Hp Hn) as [E [o Ho]]. split; [done|]. exists o. split; [done|].
  intros ->. by eapply ServerRuns.shutdown_complete.
Qed.
End theorem.
End ServerClock.

Lemma shutdown_ends_witness :
  ServerClock.on_time ServerRun.env snd /\ 0 < control_poll_ms (sv_config ServerRun.serving) /\
  (ServerClock.enough (sv_config ServerRun.serving) <= 21)%nat /\ ServerRuns.all_ended ServerRun.stopped.
Proof.
  assert (ServerClock.on_time ServerRun.env snd) as Ht.
  { split; try (intros; intros w; cbn; lia); try (intros; cbn; lia). intros w n [= <-]. cbn. lia. }
  assert (0 < control_poll_ms (sv_config ServerRun.serving)) as Hp by (vm_compute; reflexivity).
  assert (ServerClock.enough (sv_config ServerRun.serving) <= 21)%nat as Hn by (apply Nat.leb_le; vm_compute; reflexivity).
  assert (fst (GatewayServer.shutdown_all ServerRun.env 21 ServerRun.serving) = Ok None) as E by (vm_compute; reflexivity).
  split; [exact Ht|]. split; [exact Hp|]. split; [exact Hn|].
  destruct (ServerClock.shutdown_ends ServerRun.env snd false ServerRun.no_manager (ret tt) 21 ServerRun.serving Ht ServerRun.serving_reached Hp Hn)
    as [_ (o & Eo & Ho)]. apply Ho. rewrite E in Eo. injection Eo as <-. reflexivity.
Defined.
